(* ===== verification/_CoqProject ===== *)
-Q . S2P
Prelude.v
Text.v
Threads.v
Json.v
TeamTypes.v
TeamRepo.v
TeamRepoSqlite.v
TeamMailbox.v
TeamTaskBoard.v
TeamEvents.v
TeamScheduler.v
TeamSchedulerFacts.v
TeamTurn.v
TeamPrompts.v
TeamLoop.v
ExtTypes.v
ExtDependency.v
AuthLimits.v
AuthJwt.v
DiffInvert.v
AgentDelta.v
CronTypes.v
CronRepo.v
CronScheduler.v
CronService.v
CronServiceFacts.v
CronRuns.v
CronMachine.v
CronOutcome.v
JsonValue.v
CaseConvert.v
Common.v
Paths.v
FileSystem.v
FileService.v
FileFacts.v
TaskManager.v
AcpState.v
AgentEvents.v
OpenCode.v
RemoteSse.v
AcpErrors.v
AcpRuntime.v
AcpManager.v
AcpManagerFacts.v
Sql.v
AcpSync.v
ChannelTypes.v
ChannelRepo.v
ChannelPairing.v
ChannelSession.v
ChannelRelay.v
ConvRepo.v
ConvMiddleware.v
ConvCron.v
ConvRelay.v
ConvRelayFacts.v
ConvConvert.v
ConvService.v
ConvServiceFacts.v
ConvServiceRows.v
ConvTurns.v
CronBinding.v
RemoteState.v
RemotePrompts.v
RemoteEvents.v
RemoteTurns.v
RemoteFrames.v
RemoteFacts.v
RemoteExamples.v
TurnSlot.v
Realtime.v
PluginRegistry.v
PluginBg.v
LocalFs.v
LocalFsFacts.v
