(* ===== verification/Prelude.v ===== *)
(** * Chislcore: a verification library for the Rust backend

    Chislcore is the server of a desktop assistant: an HTTP and WebSocket API over
    agents that run as external processes.  This library models the parts of it
    that hold its own logic and proves what makes them correct.  Every definition
    that translates code is preceded by a comment naming its file under
    [src/crates/], its lines and its Rust name; definitions keep the Rust names.

    ** The parts and how they interact

    - _Teams_ ([chisl-team]): several agents work on a board of tasks and write to
      each other's mailboxes.  [TeammateManager] (the scheduler) holds the slots of
      the agents, their status, wake locks and watchdogs; [Mailbox] and
      [TaskBoard] are thin layers over the database trait [ITeamRepository]; the
      session and the event loop call the scheduler when a turn starts or ends.
    - _Extensions_ ([chisl-extension]): manifests declare permissions, whose risk is
      analysed, and dependencies, from which a load order is computed.
    - _Authentication_ ([chisl-auth]): rate limits, QR login tokens, session tokens.
    - _Scheduled jobs_ ([chisl-cron]): jobs are stored in a table and each has at most
      one timer; a timer that fires starts a tick, which runs the job in a
      conversation unless that is busy, records the outcome and sets the next timer.
    - _Channels_ ([chisl-channel]): people reach the agents through messaging platforms;
      a stranger gets a pairing code that the administrator approves, each chat of an
      authorised user has a session, and the agent's stream is relayed to the chat.
    - _ACP agents_ ([chisl-ai-agent/src/manager/acp]): the manager of an agent process
      that speaks the Agent Client Protocol.  A session aggregate holds what the user
      wants, what the agent reported and what it offers; the manager opens or resumes
      the session, reconciles the two layers, sends prompts and routes permission
      requests; the events of the aggregate go to a consumer that stores them, and the
      next manager of the conversation preloads what is stored.
    - _Conversations_ ([chisl-conversation]): the events of a turn are relayed to the
      WebSocket clients and written into the table of messages; the finished answer goes
      through a middleware that executes the commands for scheduled jobs in it, which may
      bind a job to any conversation.  The service answers the requests, sends messages to
      agents and runs their turns.
    - _Agents of conversations_ ([chisl-ai-agent/src/task_manager.rs]): one slot per
      conversation, filled by the first request; a scanner kills idle agents.
    - _Files_ ([chisl-file]): requests for files of the workspace, confined to the
      allowed roots.
    - _Remote agents_ ([chisl-ai-agent/src/manager/remote]): an agent that runs on an OpenCode
      server, prompted over HTTP and heard through a stream of events.  Its tools work on the
      user's machine, so it asks before a command runs; conversations of one server take turns
      by a slot.  A server of tools ([local_fs_mcp]) lets the model work on the user's project
      and records what it changed; a plugin ([plugin]) reports what the model does and starts
      background processes.  The unified diff of an edit is inverted so that it can be undone.
    - _Connections_ ([chisl-realtime]): the WebSocket clients, who get the broadcasts of all
      the others and are dropped by a heartbeat when they are silent or their token expires.

    ** Files

    - [Prelude]: results, the state-and-error monad [ST] with the [let!] and [let?]
      notations, the [preserves] and [yields] rules (hint database [st]), stable sorting,
      lists, and the unspecified iteration order of hash maps ([HashIter]).
    - [Text]: Rust strings as bytes, UTF-8, trimming, searching, lines, decimal
      numbers; [Unicode] holds the case tables.  [Json]: what is used of
      [serde_json], as a class with its round-trip laws.
    - [TeamTypes]: [types.rs], the row models and the error types.
    - [TeamRepo]: the trait [ITeamRepository] as a class, and the class
      [TeamRepositorySpec] of what it promises; clock and identifier generator
      ([Ambient]).  [TeamRepoSqlite]: the SQL of [sqlite_team.rs] on three tables,
      and the instance that discharges the promise.
    - [TeamMailbox], [TeamTaskBoard]: [mailbox.rs] and [task_board.rs], proved
      against the interface.
    - [TeamEvents], [TeamScheduler], [TeamSchedulerFacts]: the scheduler
      ([scheduler/*.rs]), its equations, its invariant and the wake logic.
    - [TeamTurn]: the watchdog of [wake.rs], [on_agent_finish] of [session.rs], the
      registry and the end of a turn of [event_loop.rs], with the remaining
      properties of the scheduler's methods.
    - [TeamPrompts]: the texts of [prompts/mod.rs] and [prompts/lead.rs].
    - [TeamLoop]: the loop task of every agent ([event_loop.rs]) as a machine whose
      steps interleave with signals and with any method of the manager, and the wake
      input of [session.rs].
    - [ExtTypes], [ExtDependency]: [types.rs], [permission.rs], [dependency.rs].
    - [AuthLimits], [AuthJwt]: [rate_limit.rs], [qr_token.rs], [validation.rs],
      [error.rs]; [jwt.rs].
    - [DiffInvert]: [diff_invert.rs] and the pure part of [edit_inverse.rs].
    - [AgentDelta]: [opencode_delta_batcher.rs] as threads (pushes, timers, flushes)
      that interleave at every lock.
    - [CronTypes], [CronRepo]: the data of scheduled jobs; the trait
      [ICronRepository] with its contract, and the SQL of [sqlite_cron.rs].
      [CronScheduler]: [scheduler.rs], [busy_guard.rs].  [CronService]: [service.rs],
      [events.rs] and the decisions of [executor.rs].  [CronServiceFacts], [CronRuns]:
      equations and Hoare rules.  [CronMachine]: timers, ticks and requests as a
      machine.  [CronOutcome]: what a run, an edit or a resume leaves behind.
    - [JsonValue]: [serde_json::Value], its objects and its text (class [JsonCodec]).
      [CaseConvert]: [case_convert.rs].
    - [AcpState]: [session.rs], the aggregate.  [AcpErrors]: [protocol/error.rs],
      [stderr_error_extractor.rs], [agent_close.rs].  [AgentEvents]: the events of
      [protocol/events].  [AcpRuntime]: [agent_runtime.rs]
      and [permission_router.rs], the latter as a machine between its locks.
      [AcpManager], [AcpManagerFacts]: [agent.rs], [agent_session_flow.rs],
      [agent_reconcile.rs], [agent_event_tracker.rs], [hooks.rs] as programs of
      [Threads], and what they achieve.  [AcpSync]: [acp_session_sync.rs] as a machine
      over what wakes it, and the SQL of [sqlite_acp_session.rs].
    - [Threads]: programs as trees of atomic steps, pools of them that interleave, and
      rely-guarantee rules.  [Sql]: update and delete statements on tables as lists.
    - [ChannelTypes], [ChannelRepo]: the data of [chisl-channel] and the SQL of
      [sqlite_channel.rs].  [ChannelPairing]: [pairing.rs] and the revocation of
      [routes.rs].  [ChannelSession]: [session.rs], [channel_settings.rs], [action.rs].
      [ChannelRelay]: [stream_relay.rs], [formatter.rs] and the stream part of
      [message_service.rs].
    - [OpenCode]: the pure modules of [manager/remote]: [subagent.rs] and the
      [opencode_*.rs] ones.  [RemoteSse]: the event stream's reader in [remote/agent.rs].
      [RemoteState]: the state of that file and its pure functions; [RemotePrompts]: what the
      user is asked; [RemoteEvents]: what each event does; [RemoteTurns]: messages, cancelling,
      closing, settings.  [RemoteFrames], [RemoteFacts], [RemoteExamples]: what the steps leave
      alone, the theorems, and runs.  [TurnSlot]: the turns of [opencode_mcp.rs] as a machine.
    - [ConvRepo]: the SQL of [sqlite_conversation.rs].  [ConvMiddleware]:
      [response_middleware.rs].  [ConvRelay], [ConvRelayFacts]: [stream_relay.rs] as a
      fold over the events of a turn, and what a turn leaves behind.  [ConvConvert]:
      [convert.rs], [skill_snapshot.rs], [task_options.rs].  [ConvService]: [service.rs].
      [ConvServiceFacts], [ConvServiceRows], [ConvTurns]: ownership, the typing of stored
      rows and updates, turns in the background and examples.  [ConvCron]: what the job service
      writes to conversations, as the interface the relay is proved against; [CronBinding]: its
      implementation by [service.rs] of [chisl-cron].

    - [Common]: [chisl-common] ([enums.rs], [id.rs], [types.rs], [constants.rs],
      [crypto.rs]).  [TaskManager]: [task_manager.rs] and [idle_scanner.rs] as a machine.
    - [Paths], [FileSystem]: [std::path] on Unix and the calls of [std::fs] on a tree with
      symbolic links.  [FileService], [FileFacts]: [path_safety.rs] and [service.rs] of
      [chisl-file], and what the sandbox guarantees.
    - [Realtime]: [manager.rs], [handler.rs] and [types.rs] of [chisl-realtime] as a machine.
    - [PluginRegistry]: [registry.rs] and [server.rs] of [remote/plugin]; [PluginBg]: its [bg.rs],
      processes, readers, monitors and calls as a machine.
    - [LocalFs], [LocalFsFacts]: [remote/local_fs_mcp], the tools on the file system of
      [FileSystem], and what they cannot do.

    ** How code is modelled

    A method over shared state is a computation of [ST]: it returns the new state
    and a result, and an error keeps the effects made before it, as [?] does.
    Where requests overlap ([chisl-channel]) a method is a program of [Threads], which
    others interrupt at every call of the database.  The methods of the job service and of the
    conversation service are single steps, a run of a job two; the watchdogs of the scheduler,
    the flush a remote turn waits for before its finish and the background turns of
    conversations are steps of their own.  A
    [HashMap] or [DashMap] with string keys is a [gmap string].  Clock readings,
    random bytes and generated identifiers are arguments or come from [Ambient].
    Integers are [Z]; the counters whose width matters wrap explicitly ([w32],
    [w64], [i64_wrap], saturating subtraction).  Panics are [None].  Logging is left
    out.  Third-party crates are classes or parameters: [serde_json] ([SerdeJson]),
    [semver] ([Semver]), [jsonwebtoken], [sha2] and [base64] ([JwtCrate]), [regex]
    ([HunkRegex]), [cron] and [chrono-tz] ([CronCrate]), the
    JSON of preferences ([PreferenceJson]), the Markdown expressions ([MarkdownRegex]), the
    expressions of the response middleware ([ResponseRegex]), [diffy] (section variables), AES-GCM and base64 ([Aead]),
    live agents ([Agents]) and what the host answers the conversation service ([Host]), the entries the [ignore] crate gives
    (an argument), the JSON text of a value ([JsonCodec]), the
    types of the protocol crate ([AcpSchema], [AcpSerde]) and the agent process itself
    ([AcpAgent]: any answer to any request); each class with laws has an instance
    ([json_text], [plain_jwt], [ascii_hunk_regex], [config_text], [minute_crate]) on which the witnesses evaluate.

    ** What is shown

    - Mailbox: a written message reaches its recipient's inbox only; reading empties
      an inbox exactly once; the event loop's peek-then-mark drain loses no message
      written in between.
    - Task board: creating and completing tasks keep the two link columns mirror
      images of each other, and completing a task unblocks every task that waited
      for it; editing dependencies does not keep the mirror.
    - Scheduler: the invariant of all reachable states; waking happens once; going
      idle notifies the lead and names it when all teammates are settled, whatever
      the iteration order; broadcasts, shutdown requests, crashes, renames.
    - Turns: when the watchdog fires, how a failed turn ends, what the finish
      deduplication stops and what it does not.
    - Event loops: what a turn hands over and marks as read, whatever happens
      meanwhile; no signal is lost; what an attempt that cannot start leaves behind.
    - Delta batcher: no text is lost or doubled under any interleaving, everything
      pushed is emitted within a bounded number of steps, and the one way in which
      texts come out of order.
    - Scheduled jobs: as long as the calls of the service run one after another, no enabled
      job is ever without a timer or a tick under way; the
      record of a run; retries on a busy conversation are bounded; a resume runs
      nothing; rows read back as written; what becomes of an edit during a run.
    - Channels: under any interleaving only users with an approved code are authorised;
      the outcome of an approval on every branch; one pending code per user and one
      session per chat as long as requests do not overlap, and what happens when they
      do; strangers get a code and nothing else; the relay shows the whole answer.
    - ACP agents: the events of a session tell every change of it; reconciling leaves
      just what the agent refused; a session the agent forgot is replaced; what every
      branch of a turn returns, broadcasts and records; a permission request is decided
      once; only allowlisted process output reaches the user; and from the session
      through the consumer and the database back to a resumed session nothing that was
      observed is lost, wherever the debounce deadline falls.
    - Conversations: the pages of the list give every conversation once; a turn leaves
      in the table exactly the answer that was streamed, as the middleware made it; no
      request that names its user touches another user's conversation; stored rows stay
      readable; an update merges; a turn prompts its agent at most four times and ends, and
      touches other conversations only to bind a job to them.
    - Agents of conversations: at most one lives per conversation, unless a kill falls into
      the building of one.
    - The remote agent: what it makes of the bytes of the event stream does not depend on
      how the network cuts them; a parked call is answered exactly once, and goes on only with
      the user's leave; between two messages of the user at most one end of a turn is announced,
      besides those of earlier turns still being flushed; events of other sessions
      do not disturb it; two conversations never have their turns on one server at once unless a
      waiting time is over, and a free slot is not waited for in vain.
    - The tools of a remote model: they change nothing outside a project without symbolic
      links and read nothing outside it; files change only with the token and the user's
      leave to that very call.
    - The plugin: no process starts without leave and at most eight run as long as two starts
      do not overlap; a client that reads on gets what the buffer was given, each byte once.
    - Connections: a heartbeat removes exactly the silent and the expired; a client that
      answers stays.
    - Files: no request changes anything outside the roots and no read leaves them, as long
      as the roots hold no symbolic links; uploads overwrite nothing.  The examples at the
      end of [FileFacts] show what links, renamed roots and self-copies do.
    - Extensions: the resolver always terminates without a panic, its load order is
      topological, its verdict is equivalent to satisfied and acyclic dependencies,
      and its cycles are real; the risk level is the worst permission shown.
    - Authentication: a rate-limit window admits exactly its quota and cleanup is
      unobservable; QR tokens live their time; session tokens
      verify to their claims, and how long a revocation lasts.
    - Diffs: the inverse of a patch relates the same texts the other way round, for
      patches with LF line ends and without no-newline markers.

    ** Fuel

    Loops that are not structural take fuel and return [None] when it runs out:
    [Dependency.drain] (as many turns as there are extensions), [dfs_find_cycles]
    (each nested call visits one more node) and [invert_lines_fuel] (each turn
    consumes a line).  [load_order_topological] and [invert_hunk_swaps] prove that
    the fuel given is enough.  [drain_frames] takes the length of the buffer, of which each turn
    consumes a part ([frames_fuel]); [turn_loop] has the four rounds of the code; [walk] asks once more than
    there are conversations, which [walk_lists_everything] proves enough.

    ** Not modelled

    Network and process I/O, HTTP handlers, SQL errors other than constraint
    violations, the interleaving of two scheduler methods between their lock
    acquisitions and of two methods of the job service or of the conversation service between
    their awaits, background tasks that only repeat a modelled call, and the crates that are
    adapters around external tools.  Of the crates with logic of their own: restore plans and
    the reverting of tool calls (git), the scanning and installing of extensions, skill files,
    the update check, and the operations of a conversation that only forward to its agent. *)

From stdpp Require Export base tactics option list gmap strings sorting.
From Stdlib Require Export ZArith Lia.

#[global] Set Default Goal Selector "!".
#[global] Set Default Proof Using "Type".
Open Scope string_scope.
Open Scope list_scope.
Open Scope Z_scope.

(* ------------------------------------------------------------------ *)
(** ** Results and the state-and-error monad *)

(** [Result<A, E>]. *)
Inductive result (A E : Type) : Type :=
| Ok (a : A)
| Err (e : E).
Arguments Ok {A E} a.
Arguments Err {A E} e.

#[export] Instance result_eq_dec {A E} `{EqDecision A, EqDecision E} :
  EqDecision (result A E).
Proof. solve_decision. Defined.

Definition res_map {A B E} (f : A → B) (r : result A E) : result B E :=
  match r with Ok a => Ok (f a) | Err e => Err e end.

Definition res_map_err {A E F} (f : E → F) (r : result A E) : result A F :=
  match r with Ok a => Ok a | Err e => Err (f e) end.

Definition res_bind {A B E} (r : result A E) (f : A → result B E) : result B E :=
  match r with Ok a => f a | Err e => Err e end.

Definition res_ok {A E} (r : result A E) : option A :=
  match r with Ok a => Some a | Err _ => None end.

(** [Option::ok_or]. *)
Definition ok_or {A E} (o : option A) (e : E) : result A E :=
  match o with Some a => Ok a | None => Err e end.

Definition is_ok {A E} (r : result A E) : bool :=
  match r with Ok _ => true | Err _ => false end.

(** A method [async fn f(&self) -> Result<A, E>] over shared mutable state:
    an error leaves the effects performed before it in place, as [?] does. *)
Definition ST (S E A : Type) : Type := S → S * result A E.

Definition st_ret {S E A} (a : A) : ST S E A := λ s, (s, Ok a).
Definition st_fail {S E A} (e : E) : ST S E A := λ s, (s, Err e).
Definition st_bind {S E A B} (m : ST S E A) (f : A → ST S E B) : ST S E B :=
  λ s, match m s with
       | (s', Ok a) => f a s'
       | (s', Err e) => (s', Err e)
       end.
Definition st_get {S E A} (f : S → A) : ST S E A := λ s, (s, Ok (f s)).
Definition st_modify {S E} (f : S → S) : ST S E unit := λ s, (f s, Ok tt).
Definition st_lift {S E A} (r : result A E) : ST S E A := λ s, (s, r).
Definition st_map_err {S E F A} (f : E → F) (m : ST S E A) : ST S F A :=
  λ s, let '(s', r) := m s in (s', res_map_err f r).
(** [let _ = m.await] / [match m.await { Ok .. Err .. }]: the error becomes a value. *)
Definition st_try {S E F A} (m : ST S E A) : ST S F (result A E) :=
  λ s, let '(s', r) := m s in (s', Ok r).
Definition st_state {S E A} (f : S → S * A) : ST S E A :=
  λ s, let '(s', a) := f s in (s', Ok a).

(** [for x in xs { body(x)?; }] *)
Fixpoint st_iter {S E A} (body : A → ST S E unit) (xs : list A) : ST S E unit :=
  match xs with
  | [] => st_ret tt
  | x :: xs' => st_bind (body x) (λ _, st_iter body xs')
  end.

Declare Scope chisl_scope.
Delimit Scope chisl_scope with chisl.
Notation "'let!' x ':=' m 'in' k" := (st_bind m (λ x, k))
  (at level 10, x name, m at level 100, k at level 200,
   format "'[v' 'let!'  x  ':='  m  'in' '/' k ']'") : chisl_scope.
Notation "'do!' m 'in' k" := (st_bind m (λ _, k))
  (at level 10, m at level 100, k at level 200,
   format "'[v' 'do!'  m  'in' '/' k ']'") : chisl_scope.
Notation "'let?' x ':=' m 'in' k" := (res_bind m (λ x, k))
  (at level 10, x name, m at level 100, k at level 200,
   format "'[v' 'let?'  x  ':='  m  'in' '/' k ']'") : chisl_scope.
Open Scope chisl_scope.

Lemma st_bind_ok {S E A B} (m : ST S E A) (f : A → ST S E B) s s' a :
  m s = (s', Ok a) → st_bind m f s = f a s'.
Proof. intros H. unfold st_bind. by rewrite H. Qed.

Lemma st_bind_err {S E A B} (m : ST S E A) (f : A → ST S E B) s s' e :
  m s = (s', Err e) → st_bind m f s = (s', Err e).
Proof. intros H. unfold st_bind. by rewrite H. Qed.

Lemma st_bind_inv {S E A B} (m : ST S E A) (f : A → ST S E B) s s'' r :
  st_bind m f s = (s'', r) →
  (∃ s' a, m s = (s', Ok a) ∧ f a s' = (s'', r)) ∨
  (∃ e, m s = (s'', Err e) ∧ r = Err e).
Proof.
  unfold st_bind. destruct (m s) as [s' [a|e]] eqn:Hm; intros H.
  - left. eauto.
  - right. exists e. by simplify_eq.
Qed.

(** A property of the state that every step keeps is kept by a whole method. *)
Definition preserves {S E A} (P : S → Prop) (m : ST S E A) : Prop :=
  ∀ s, P s → P (fst (m s)).

Lemma preserves_ret {S E A} (P : S → Prop) (a : A) : preserves P (st_ret (E:=E) a).
Proof. by intros s Hs. Qed.
Lemma preserves_fail {S E A} (P : S → Prop) (e : E) : preserves P (st_fail (A:=A) e).
Proof. by intros s Hs. Qed.
Lemma preserves_get {S E A} (P : S → Prop) (f : S → A) : preserves P (st_get (E:=E) f).
Proof. by intros s Hs. Qed.
Lemma preserves_lift {S E A} (P : S → Prop) (r : result A E) : preserves P (st_lift r).
Proof. by intros s Hs. Qed.
Lemma preserves_modify {S E} (P : S → Prop) (f : S → S) :
  (∀ s, P s → P (f s)) → preserves P (st_modify (E:=E) f).
Proof. intros H s Hs. by apply H. Qed.
Lemma preserves_bind {S E A B} (P : S → Prop) (m : ST S E A) (f : A → ST S E B) :
  preserves P m → (∀ a, preserves P (f a)) → preserves P (st_bind m f).
Proof.
  intros Hm Hf s Hs. specialize (Hm s Hs). unfold st_bind.
  destruct (m s) as [s' [a|e]]; simpl in *; [by apply Hf|done].
Qed.
Lemma preserves_map_err {S E F A} (P : S → Prop) (g : E → F) (m : ST S E A) :
  preserves P m → preserves P (st_map_err g m).
Proof.
  intros Hm s Hs. specialize (Hm s Hs). unfold st_map_err. by destruct (m s).
Qed.
Lemma preserves_try {S E F A} (P : S → Prop) (m : ST S E A) :
  preserves P m → preserves P (st_try (F:=F) m).
Proof.
  intros Hm s Hs. specialize (Hm s Hs). unfold st_try. by destruct (m s).
Qed.
Lemma preserves_iter {S E A} (P : S → Prop) (body : A → ST S E unit) xs :
  (∀ a, preserves P (body a)) → preserves P (st_iter body xs).
Proof.
  intros Hb. induction xs as [|x xs IH]; simpl.
  - apply preserves_ret.
  - apply preserves_bind; auto.
Qed.

(** A method that does not fail: from [P] it returns a result with [Q]. *)
Definition yields {S E A} (P : S → Prop) (m : ST S E A) (Q : A → S → Prop) : Prop :=
  ∀ s, P s → ∃ s' a, m s = (s', Ok a) ∧ Q a s'.

Lemma yields_ret {S E A} (P : S → Prop) (a : A) (Q : A → S → Prop) :
  (∀ s, P s → Q a s) → yields P (st_ret (E:=E) a) Q.
Proof. intros H s Hs. exists s, a. auto. Qed.
Lemma yields_bind {S E A B} (P : S → Prop) (R : A → S → Prop) (Q : B → S → Prop)
    (m : ST S E A) (f : A → ST S E B) :
  yields P m R → (∀ a, yields (R a) (f a) Q) → yields P (st_bind m f) Q.
Proof.
  intros Hm Hf s Hs. destruct (Hm s Hs) as (s1 & a & H1 & HR).
  destruct (Hf a s1 HR) as (s2 & b & H2 & HQ). exists s2, b. by rewrite (st_bind_ok _ _ _ _ _ H1).
Qed.
Lemma yields_pre {S E A} (P P' : S → Prop) (Q : A → S → Prop) (m : ST S E A) :
  yields P' m Q → (∀ s, P s → P' s) → yields P m Q.
Proof. intros Hm HP s Hs. auto. Qed.
Lemma yields_post {S E A} (P : S → Prop) (Q Q' : A → S → Prop) (m : ST S E A) :
  yields P m Q' → (∀ a s, Q' a s → Q a s) → yields P m Q.
Proof. intros Hm HQ s Hs. destruct (Hm s Hs) as (s' & a & ? & ?). eauto. Qed.
(** A loop whose invariant speaks of the elements that remain. *)
Lemma yields_iter {S E A} (I : list A → S → Prop) (body : A → ST S E unit) xs :
  (∀ x l, yields (I (x :: l)) (body x) (λ _, I l)) → yields (I xs) (st_iter body xs) (λ _, I []).
Proof.
  intros Hb. induction xs as [|x xs IH]; simpl; [by apply yields_ret|].
  eapply yields_bind; [apply Hb|]. intros []. exact IH.
Qed.
Lemma yields_preserves {S E A} (P : S → Prop) (m : ST S E A) :
  yields P m (λ _, P) → preserves P m.
Proof. intros Hm s Hs. destruct (Hm s Hs) as (s' & a & -> & HP). done. Qed.

Create HintDb st discriminated.
#[export] Hint Resolve preserves_ret preserves_fail preserves_get preserves_lift
  preserves_modify preserves_bind preserves_map_err preserves_try preserves_iter : st.

(** Reduces the monad combinators in the goal. *)
Ltac st_simpl :=
  cbn [st_bind st_ret st_fail st_get st_modify st_lift st_try st_state st_map_err
       res_map_err res_map res_bind ok_or fst snd].
Ltac st_unfold := unfold st_bind, st_ret, st_fail, st_get, st_modify, st_lift,
  st_try, st_state, st_map_err, ok_or in *; simpl in *.

(** Splits on every [match] of the goal (hypothesis) and clears the absurd cases. *)
Ltac crush_match :=
  repeat (case_match; simplify_eq/=; try done).

(** Runs a method on a component of a larger state. *)
Definition st_on {S T E A} (get : S → T) (put : T → S → S) (m : ST T E A) : ST S E A :=
  λ s, let '(t', r) := m (get s) in (put t' s, r).

Lemma preserves_on {S T E A} (P : S → Prop) (Q : T → Prop) (get : S → T) put (m : ST T E A) :
  preserves Q m → (∀ s, P s → Q (get s)) → (∀ s t, P s → Q t → P (put t s)) →
  preserves P (st_on get put m).
Proof.
  intros Hm HPQ Hput s Hs. specialize (Hm (get s) (HPQ s Hs)).
  unfold st_on. destruct (m (get s)) as [t r]; simpl in *. auto.
Qed.
#[export] Hint Resolve preserves_on : st.

(** Unsigned integers wrap in a release build. *)
Definition w32 (x : Z) : Z := x mod 2 ^ 32.
Definition w64 (x : Z) : Z := x mod 2 ^ 64.

(* ------------------------------------------------------------------ *)
(** ** Stable sorting by an integer key: [ORDER BY key ASC], [sort_by_key] *)

Section sort_by.
Context {A : Type} (key : A → Z).

Fixpoint insert_by (x : A) (l : list A) : list A :=
  match l with
  | [] => [x]
  | y :: l' => if key x <=? key y then x :: l else y :: insert_by x l'
  end.

Fixpoint sort_by (l : list A) : list A :=
  match l with
  | [] => []
  | x :: l' => insert_by x (sort_by l')
  end.

Lemma insert_by_perm x l : insert_by x l ≡ₚ x :: l.
Proof.
  induction l as [|y l IH]; simpl; [done|]. case_match; [done|].
  rewrite IH. apply Permutation_swap.
Qed.

Lemma sort_by_perm l : sort_by l ≡ₚ l.
Proof. induction l as [|x l IH]; simpl; [done|]. by rewrite insert_by_perm, IH. Qed.

Lemma elem_of_sort_by x l : x ∈ sort_by l ↔ x ∈ l.
Proof. by rewrite sort_by_perm. Qed.

Lemma sort_by_nil_iff l : sort_by l = [] ↔ l = [].
Proof.
  split; [|by intros ->]. intros H. pose proof (sort_by_perm l) as Hp. rewrite H in Hp.
  by apply Permutation_nil_l in Hp.
Qed.

Lemma insert_by_sorted x l :
  StronglySorted (λ a b, key a ≤ key b) l →
  StronglySorted (λ a b, key a ≤ key b) (insert_by x l).
Proof.
  induction 1 as [|y l Hl IH Hy]; simpl; [repeat constructor|].
  destruct (Z.leb_spec (key x) (key y)).
  - constructor; [by constructor|]. constructor; [done|].
    eapply Forall_impl; [exact Hy|]. simpl. lia.
  - constructor; [done|]. rewrite insert_by_perm. constructor; [lia|done].
Qed.

Lemma sort_by_sorted l : StronglySorted (λ a b, key a ≤ key b) (sort_by l).
Proof. induction l as [|x l IH]; simpl; [constructor|]. by apply insert_by_sorted. Qed.

Lemma insert_by_snoc x l y :
  key x ≤ key y → Forall (λ a, key a ≤ key y) l →
  insert_by x (l ++ [y]) = insert_by x l ++ [y].
Proof.
  intros Hx. induction 1 as [|z l Hz _ IH]; simpl.
  - by rewrite (proj2 (Z.leb_le _ _) Hx).
  - case_match; [done|]. by rewrite IH.
Qed.

(** A newest element goes last. *)
Lemma sort_by_snoc l y :
  Forall (λ a, key a ≤ key y) l → sort_by (l ++ [y]) = sort_by l ++ [y].
Proof.
  induction 1 as [|x l Hx Hl IH]; simpl; [done|].
  rewrite IH. apply insert_by_snoc; [done|]. by rewrite sort_by_perm.
Qed.

Lemma insert_by_filter p x l :
  StronglySorted (λ a b, key a ≤ key b) l →
  List.filter p (insert_by x l) =
    if p x then insert_by x (List.filter p l) else List.filter p l.
Proof.
  induction 1 as [|y l Hl IH Hy]; simpl; [by destruct (p x)|].
  destruct (Z.leb_spec (key x) (key y)) as [Hle|Hlt]; simpl.
  - destruct (p x) eqn:Hx; [|done]. destruct (p y); simpl; [by rewrite (proj2 (Z.leb_le _ _) Hle)|].
    destruct (List.filter p l) as [|z l'] eqn:Hf; simpl; [done|].
    assert (Hz : z ∈ l) by (apply list_elem_of_In, (List.filter_In p z l); rewrite Hf; by left).
    rewrite Forall_forall in Hy. specialize (Hy z Hz). by rewrite (proj2 (Z.leb_le _ _)) by lia.
  - rewrite IH. destruct (p x), (p y); simpl; try done.
    by rewrite (proj2 (Z.leb_gt _ _) Hlt).
Qed.

(** Sorting and filtering commute. *)
Lemma sort_by_filter p l : sort_by (List.filter p l) = List.filter p (sort_by l).
Proof.
  induction l as [|x l IH]; simpl; [done|]. rewrite insert_by_filter by apply sort_by_sorted.
  rewrite <- IH. by destruct (p x).
Qed.

(** On a list already in order, sorting changes nothing. *)
Lemma sort_by_id l : StronglySorted (λ a b, key a ≤ key b) l → sort_by l = l.
Proof.
  induction 1 as [|x l _ IH Hx]; simpl; [done|]. rewrite IH.
  destruct l as [|y l]; simpl; [done|]. inversion Hx; subst.
  by rewrite (proj2 (Z.leb_le _ _) H1).
Qed.
End sort_by.

(** Signed 64-bit integers: wrap-around. *)
Definition i64_wrap (x : Z) : Z := (x + 2 ^ 63) mod 2 ^ 64 - 2 ^ 63.

(** [slice.chunks(n)]. *)
Fixpoint chunks_fuel {A} (fuel n : nat) (l : list A) : list (list A) :=
  match fuel, l with
  | O, _ | _, [] => []
  | S fuel', _ => take n l :: chunks_fuel fuel' n (drop n l)
  end.
Definition chunks {A} (n : nat) (l : list A) : list (list A) := chunks_fuel (length l) n l.

Lemma concat_chunks_fuel {A} fuel n (l : list A) :
  (0 < n)%nat → (length l ≤ fuel)%nat → concat (chunks_fuel fuel n l) = l.
Proof.
  intros Hn. revert l. induction fuel as [|fuel IH]; intros l Hl.
  - destruct l; simpl in *; [done|lia].
  - destruct l as [|x l]; [done|]. cbn [chunks_fuel concat].
    rewrite IH; [by rewrite take_drop|]. rewrite length_drop. simpl in *. lia.
Qed.
Lemma concat_chunks {A} n (l : list A) : (0 < n)%nat → concat (chunks n l) = l.
Proof. intros Hn. by apply concat_chunks_fuel. Qed.

(* ------------------------------------------------------------------ *)
(** ** Hash maps with string keys *)

(** A [HashMap<String, V>] is a [gmap string V]; the order in which [iter],
    [keys] and [values] visit it is unspecified, so it is a parameter. *)
Class HashIter (V : Type) := {
  hm_iter : gmap string V → list (string * V);
  hm_iter_perm : ∀ m, hm_iter m ≡ₚ map_to_list m;
}.

Definition hash_iter_canonical (V : Type) : HashIter V :=
  {| hm_iter := map_to_list; hm_iter_perm := λ m, reflexivity _ |}.
Definition hash_iter_reversed (V : Type) : HashIter V :=
  {| hm_iter := λ m, rev (map_to_list m); hm_iter_perm := λ m, symmetry (Permutation_rev _) |}.

Lemma elem_of_hm_iter `{HashIter V} (m : gmap string V) k v :
  (k, v) ∈ hm_iter m ↔ m !! k = Some v.
Proof. by rewrite hm_iter_perm, elem_of_map_to_list. Qed.

Lemma NoDup_hm_iter_keys `{HashIter V} (m : gmap string V) : NoDup (hm_iter m).*1.
Proof. rewrite hm_iter_perm. apply NoDup_fst_map_to_list. Qed.

(** Facts about [List.find] and [List.filter] with stdpp's membership. *)
Lemma find_Some_elem {A} (p : A → bool) l x : List.find p l = Some x → x ∈ l ∧ p x = true.
Proof. intros [Hin Hp]%List.find_some. by rewrite list_elem_of_In. Qed.
Lemma find_None_elem {A} (p : A → bool) l : List.find p l = None ↔ ∀ x, x ∈ l → p x = false.
Proof.
  split.
  - intros Hf x Hx%list_elem_of_In. by apply (List.find_none p l Hf).
  - intros Hl. induction l as [|x l IH]; simpl; [done|].
    rewrite Hl by set_solver. apply IH. intros y Hy. apply Hl. set_solver.
Qed.
Lemma filter_true {A} (p : A → bool) (l : list A) : (∀ x, x ∈ l → p x = true) → List.filter p l = l.
Proof. intros Hp. apply List.forallb_filter_id, List.forallb_forall. intros x Hx%list_elem_of_In. auto. Qed.
Lemma filter_false {A} (p : A → bool) (l : list A) : (∀ x, x ∈ l → p x = false) → List.filter p l = [].
Proof.
  induction l as [|x l IH]; simpl; [done|]. intros Hp. rewrite Hp by by left. apply IH. intros y Hy. apply Hp. by right.
Qed.
Lemma filter_permutation {A} (p : A → bool) (l l' : list A) : l ≡ₚ l' → List.filter p l ≡ₚ List.filter p l'.
Proof.
  induction 1; simpl.
  - done.
  - case_match; [by apply perm_skip|done].
  - do 2 case_match; [apply perm_swap|done..].
  - by etrans.
Qed.

Lemma elem_of_filter_list {A} (p : A → bool) x l :
  x ∈ List.filter p l ↔ x ∈ l ∧ p x = true.
Proof. by rewrite !list_elem_of_In, List.filter_In. Qed.
Lemma elem_of_map {A B} (f : A → B) y l : y ∈ map f l ↔ ∃ x, y = f x ∧ x ∈ l.
Proof. apply list_elem_of_fmap. Qed.
Lemma NoDup_map_filter {A B} (f : A → B) (p : A → bool) l :
  NoDup (map f l) → NoDup (map f (List.filter p l)).
Proof.
  induction l as [|x l IH]; simpl; [done|]. intros [Hx Hl]%NoDup_cons.
  destruct (p x); simpl; [|by apply IH]. apply NoDup_cons. split; [|by apply IH].
  intros (y & Heq & [Hy _]%elem_of_filter_list)%elem_of_map. apply Hx, elem_of_map. eauto.
Qed.
Lemma NoDup_split_unique {A} (a1 a2 b1 b2 : list A) x :
  NoDup (a1 ++ x :: b1) → a1 ++ x :: b1 = a2 ++ x :: b2 → a1 = a2.
Proof.
  revert a2. induction a1 as [|y a1 IH]; intros [|z a2] Hnd Heq; simplify_eq/=; [done| | |].
  - apply NoDup_cons in Hnd as [Hx _]. destruct Hx. apply elem_of_app. right. by left.
  - apply NoDup_cons in Hnd as [Hx _]. destruct Hx. apply elem_of_app. right. by left.
  - f_equal. apply NoDup_cons in Hnd as [_ Hnd]. by apply IH.
Qed.
