(* ===== verification/Text.v ===== *)
(** * Text: Rust strings

    A Rust [str] is a sequence of bytes holding UTF-8; it is a [string] here, one
    [ascii] per byte.  The methods that work on characters go through
    [chars]/[from_chars], the UTF-8 decoder and encoder.  [str::to_lowercase]
    needs the Unicode case tables, which are a parameter ([Unicode]). *)

From S2P Require Import Prelude.
From Stdlib Require DecimalString DecimalN DecimalPos.

(* ------------------------------------------------------------------ *)
(** ** Bytes *)

Definition byte_of (a : Ascii.ascii) : Z := Z.of_N (Ascii.N_of_ascii a).
Definition of_byte (b : Z) : Ascii.ascii := Ascii.ascii_of_N (Z.to_N b).

Fixpoint bytes (s : string) : list Z :=
  match s with
  | EmptyString => []
  | String a s' => byte_of a :: bytes s'
  end.

Fixpoint of_bytes (l : list Z) : string :=
  match l with
  | [] => EmptyString
  | b :: l' => String (of_byte b) (of_bytes l')
  end.

(** [str::len]: the number of bytes. *)
Definition str_len (s : string) : nat := String.length s.

Lemma byte_of_range a : 0 ≤ byte_of a < 256.
Proof.
  unfold byte_of. pose proof (Ascii.N_ascii_bounded a). lia.
Qed.

Lemma of_byte_of a : of_byte (byte_of a) = a.
Proof. unfold of_byte, byte_of. rewrite N2Z.id. apply Ascii.ascii_N_embedding. Qed.

Lemma byte_of_of b : 0 ≤ b < 256 → byte_of (of_byte b) = b.
Proof.
  intros H. unfold byte_of, of_byte.
  rewrite Ascii.N_ascii_embedding by lia. lia.
Qed.

Lemma of_bytes_bytes s : of_bytes (bytes s) = s.
Proof. induction s as [|a s IH]; simpl; [done|]. by rewrite of_byte_of, IH. Qed.

Lemma of_bytes_app l k : of_bytes (l ++ k) = (of_bytes l +:+ of_bytes k)%string.
Proof. induction l as [|b l IH]; [done|]. simpl. by rewrite IH. Qed.

Lemma bytes_of_bytes l : Forall (λ b, 0 ≤ b < 256) l → bytes (of_bytes l) = l.
Proof.
  induction 1 as [|b l Hb _ IH]; simpl; [done|]. by rewrite byte_of_of, IH.
Qed.

(** [{byte:02x}] of each byte. *)
Definition hex_digit (n : Z) : Ascii.ascii :=
  of_byte (if n <? 10 then 48 + n else 87 + n).
Fixpoint hex_bytes (l : list Z) : string :=
  match l with
  | [] => EmptyString
  | b :: l' => String (hex_digit (b / 16)) (String (hex_digit (b mod 16)) (hex_bytes l'))
  end.

Lemma bytes_app s t : bytes (s +:+ t) = bytes s ++ bytes t.
Proof. induction s as [|a s IH]; simpl; [done|]. by rewrite IH. Qed.

Lemma bytes_length s : length (bytes s) = str_len s.
Proof. induction s as [|a s IH]; simpl; [done|]. by rewrite IH. Qed.

(* ------------------------------------------------------------------ *)
(** ** Characters: UTF-8 *)

Definition is_scalar (c : Z) : bool :=
  (0 <=? c) && (c <=? 1114111) && negb ((55296 <=? c) && (c <=? 57343)).

Definition encode_char (c : Z) : list Z :=
  if c <? 128 then [c]
  else if c <? 2048 then [192 + c / 64; 128 + c mod 64]
  else if c <? 65536 then [224 + c / 4096; 128 + c / 64 mod 64; 128 + c mod 64]
  else [240 + c / 262144; 128 + c / 4096 mod 64; 128 + c / 64 mod 64; 128 + c mod 64].

(** Decoder for the well-formed UTF-8 every [str] holds; a lone continuation byte
    decodes to itself. *)
Fixpoint decode (l : list Z) : list Z :=
  match l with
  | [] => []
  | b :: l1 =>
      if b <? 192 then b :: decode l1
      else if b <? 224 then
        match l1 with
        | b1 :: l2 => (b - 192) * 64 + (b1 - 128) :: decode l2
        | [] => [b]
        end
      else if b <? 240 then
        match l1 with
        | b1 :: b2 :: l3 => (b - 224) * 4096 + (b1 - 128) * 64 + (b2 - 128) :: decode l3
        | _ => [b]
        end
      else
        match l1 with
        | b1 :: b2 :: b3 :: l4 =>
            (b - 240) * 262144 + (b1 - 128) * 4096 + (b2 - 128) * 64 + (b3 - 128) :: decode l4
        | _ => [b]
        end
  end.

(** [str::chars] and [String::from_iter]. *)
Definition chars (s : string) : list Z := decode (bytes s).
Definition from_chars (l : list Z) : string := of_bytes (concat (map encode_char l)).

Lemma encode_char_bytes c :
  is_scalar c = true → Forall (λ b, 0 ≤ b < 256) (encode_char c).
Proof.
  unfold is_scalar, encode_char. intros H.
  assert (0 ≤ c ≤ 1114111) by lia. clear H.
  repeat case_match; repeat constructor; Z.div_mod_to_equations; lia.
Qed.

Lemma decode_encode_char c l :
  is_scalar c = true → decode (encode_char c ++ l) = c :: decode l.
Proof.
  unfold is_scalar, encode_char. intros H.
  assert (0 ≤ c ≤ 1114111) by lia. clear H.
  destruct (Z.ltb_spec c 128); [|destruct (Z.ltb_spec c 2048); [|destruct (Z.ltb_spec c 65536)]];
    cbn [app decode].
  - rewrite (proj2 (Z.ltb_lt c 192)) by lia. done.
  - rewrite (proj2 (Z.ltb_ge _ 192)), (proj2 (Z.ltb_lt _ 224))
      by (Z.div_mod_to_equations; lia).
    f_equal. Z.div_mod_to_equations; lia.
  - rewrite (proj2 (Z.ltb_ge _ 192)), (proj2 (Z.ltb_ge _ 224)), (proj2 (Z.ltb_lt _ 240))
      by (Z.div_mod_to_equations; lia).
    f_equal. Z.div_mod_to_equations; lia.
  - rewrite (proj2 (Z.ltb_ge _ 192)), (proj2 (Z.ltb_ge _ 224)), (proj2 (Z.ltb_ge _ 240))
      by (Z.div_mod_to_equations; lia).
    f_equal. Z.div_mod_to_equations; lia.
Qed.

Lemma chars_from_chars l :
  Forall (λ c, is_scalar c = true) l → chars (from_chars l) = l.
Proof.
  intros H. unfold chars, from_chars. rewrite bytes_of_bytes.
  - induction H as [|c l Hc _ IH]; simpl; [done|]. by rewrite decode_encode_char, IH.
  - induction H as [|c l Hc _ IH]; simpl; [done|]. apply Forall_app; eauto using encode_char_bytes.
Qed.

(** [char::is_whitespace]: the Unicode property White_Space. *)
Definition is_whitespace (c : Z) : bool :=
  ((9 <=? c) && (c <=? 13)) || bool_decide (c ∈ [32; 133; 160; 5760; 8232; 8233; 8239; 8287; 12288])
  || ((8192 <=? c) && (c <=? 8202)).

(** [char::is_control]: the Unicode category Cc. *)
Definition is_control (c : Z) : bool :=
  ((0 <=? c) && (c <=? 31)) || ((127 <=? c) && (c <=? 159)).

Fixpoint drop_while {A} (p : A → bool) (l : list A) : list A :=
  match l with
  | [] => []
  | x :: l' => if p x then drop_while p l' else l
  end.

Definition trim_start (s : string) : string := from_chars (drop_while is_whitespace (chars s)).
Definition trim_end (s : string) : string :=
  from_chars (rev (drop_while is_whitespace (rev (chars s)))).
(** [str::trim]. *)
Definition trim (s : string) : string :=
  from_chars (rev (drop_while is_whitespace (rev (drop_while is_whitespace (chars s))))).

Definition ascii_lower_byte (b : Z) : Z := if (65 <=? b) && (b <=? 90) then b + 32 else b.

(** [str::to_ascii_lowercase]. *)
Definition to_ascii_lowercase (s : string) : string :=
  of_bytes (map ascii_lower_byte (bytes s)).

(** [str::eq_ignore_ascii_case]. *)
Definition eq_ignore_ascii_case (s t : string) : bool := String.eqb (to_ascii_lowercase s) (to_ascii_lowercase t).

(** [split_whitespace]; [word] holds the characters of the current word, last first. *)
Fixpoint words (word l : list Z) : list string :=
  match l with
  | [] => match word with [] => [] | _ => [from_chars (rev word)] end
  | c :: l => if is_whitespace c then match word with [] => words [] l | _ => from_chars (rev word) :: words [] l end
              else words (c :: word) l
  end.
Definition split_whitespace (s : string) : list string := words [] (chars s).

Definition is_ascii (s : string) : bool := forallb (λ b, b <? 128) (bytes s).

(** [str::to_lowercase] of the standard library: the Unicode case tables are a
    parameter, of which the code relies on the ASCII part. *)
Class Unicode := {
  to_lowercase : string → string;
  to_lowercase_ascii : ∀ s, is_ascii s = true → to_lowercase s = to_ascii_lowercase s;
}.

(** An instance that only knows ASCII, for concrete evaluation. *)
Definition ascii_unicode : Unicode :=
  {| to_lowercase := to_ascii_lowercase; to_lowercase_ascii := λ s _, eq_refl |}.

(* ------------------------------------------------------------------ *)
(** ** Searching *)

(** [str::starts_with] for a string pattern. *)
Fixpoint starts_with (pat s : string) : bool :=
  match pat, s with
  | EmptyString, _ => true
  | String a p', String b s' => Ascii.eqb a b && starts_with p' s'
  | String _ _, EmptyString => false
  end.

(** [str::strip_prefix]. *)
Fixpoint strip_prefix (pat s : string) : option string :=
  match pat, s with
  | EmptyString, _ => Some s
  | String a p', String b s' => if Ascii.eqb a b then strip_prefix p' s' else None
  | String _ _, EmptyString => None
  end.

(** [str::contains] for a string pattern. *)
Fixpoint contains (s pat : string) : bool :=
  starts_with pat s ||
  match s with
  | EmptyString => false
  | String _ s' => contains s' pat
  end.

Lemma starts_with_app pat s : starts_with pat (pat +:+ s) = true.
Proof. induction pat as [|a p IH]; simpl; [done|]. by rewrite Ascii.eqb_refl, IH. Qed.

Lemma starts_with_spec pat s : starts_with pat s = true ↔ ∃ t, s = pat +:+ t.
Proof.
  split.
  - revert s. induction pat as [|a p IH]; intros s H; simpl in *; [by exists s|].
    destruct s as [|b s]; [done|]. apply andb_prop in H as [Hab H].
    apply Ascii.eqb_eq in Hab as ->. destruct (IH _ H) as [t ->]. by exists t.
  - intros [t ->]. apply starts_with_app.
Qed.

Lemma contains_spec s pat : contains s pat = true ↔ ∃ u v, s = u +:+ pat +:+ v.
Proof.
  split.
  - induction s as [|a s IH]; simpl; intros H.
    + apply orb_prop in H as [H|H]; [|done].
      apply starts_with_spec in H as [t Ht]. exists EmptyString, t. done.
    + apply orb_prop in H as [H|H].
      * apply starts_with_spec in H as [t Ht]. by exists EmptyString, t.
      * destruct (IH H) as (u & v & ->). by exists (String a u), v.
  - intros (u & v & ->). induction u as [|a u IH].
    + change (EmptyString +:+ pat +:+ v) with (pat +:+ v).
      destruct (pat +:+ v) as [|a s'] eqn:E; simpl; rewrite <- E, starts_with_app; done.
    + simpl. rewrite IH. apply orb_true_r.
Qed.

Definition str_join (sep : string) (l : list string) : string := String.concat sep l.

(* ------------------------------------------------------------------ *)
(** ** Lines and numbers *)

Definition newline : Ascii.ascii := Ascii.ascii_of_nat 10.
Definition carriage_return : Ascii.ascii := Ascii.ascii_of_nat 13.
Definition nl : string := String newline EmptyString.

(** [strip_suffix] of one character. *)
Fixpoint strip_last (a : Ascii.ascii) (s : string) : option string :=
  match s with
  | EmptyString => None
  | String b EmptyString => if Ascii.eqb a b then Some EmptyString else None
  | String b s' => String b <$> strip_last a s'
  end.
Definition ends_with_char (a : Ascii.ascii) (s : string) : bool := bool_decide (is_Some (strip_last a s)).

(** [str::split_once] at a character. *)
Fixpoint split_once (a : Ascii.ascii) (s : string) : option (string * string) :=
  match s with
  | EmptyString => None
  | String b s' =>
      if Ascii.eqb a b then Some (EmptyString, s')
      else (λ '(x, y), (String b x, y)) <$> split_once a s'
  end.

(** [str::rsplit_once] at a character. *)
Fixpoint rsplit_once (a : Ascii.ascii) (s : string) : option (string * string) :=
  match s with
  | EmptyString => None
  | String b s' => match rsplit_once a s' with
                   | Some (x, y) => Some (String b x, y)
                   | None => if Ascii.eqb a b then Some (EmptyString, s') else None
                   end
  end.
(** [str::trim_end_matches] of one character. *)
Fixpoint trim_end_matches (a : Ascii.ascii) (s : string) : string :=
  match s with
  | EmptyString => EmptyString
  | String b s' => let t := trim_end_matches a s' in
                   if Ascii.eqb a b && String.eqb t EmptyString then EmptyString else String b t
  end.

(** [str::lines]: the text between newlines, without a carriage return before the
    newline; [cur] is the line being read. *)
Fixpoint lines_from (cur s : string) : list string :=
  match s with
  | EmptyString => if String.eqb cur EmptyString then [] else [cur]
  | String a s' =>
      if Ascii.eqb a newline
      then default cur (strip_last carriage_return cur) :: lines_from EmptyString s'
      else lines_from (cur +:+ String a EmptyString) s'
  end.
Definition lines (s : string) : list string := lines_from EmptyString s.

Fixpoint has_char (a : Ascii.ascii) (s : string) : bool :=
  match s with EmptyString => false | String b s' => Ascii.eqb a b || has_char a s' end.

Lemma no_char_strip_last a s : has_char a s = false → strip_last a s = None.
Proof.
  induction s as [|b s IH]; [done|]. cbn [has_char]. intros [Hb Hs]%orb_false_iff. simpl. destruct s; [by rewrite Hb|]. by rewrite IH.
Qed.

(** A line that [lines] gives back as it is. *)
Definition plain_line (s : string) : Prop :=
  has_char newline s = false ∧ strip_last carriage_return s = None.

Lemma app_string_cons a s t : String a s +:+ t = String a (s +:+ t).
Proof. done. Qed.
Lemma app_string_empty t : EmptyString +:+ t = t.
Proof. done. Qed.
Create Rewrite HintDb text.
#[export] Hint Rewrite app_string_cons app_string_empty : text.
Lemma app_string_nil_r s : s +:+ EmptyString = s.
Proof. induction s as [|a s IH]; [done|]. by rewrite app_string_cons, IH. Qed.
Lemma app_string_assoc s t u : (s +:+ t) +:+ u = s +:+ t +:+ u.
Proof. induction s as [|a s IH]; [done|]. by rewrite !app_string_cons, IH. Qed.

Lemma str_length_app s t : String.length (s +:+ t) = (String.length s + String.length t)%nat.
Proof. induction s as [|a s IH]; [done|]. rewrite app_string_cons. simpl. by rewrite IH. Qed.

Lemma has_char_app a s t : has_char a (s +:+ t) = has_char a s || has_char a t.
Proof. induction s as [|b s IH]; [done|]. rewrite app_string_cons. simpl. by rewrite IH, orb_assoc. Qed.

Lemma lines_from_read cur l s :
  has_char newline l = false → lines_from cur (l +:+ s) = lines_from (cur +:+ l) s.
Proof.
  revert cur. induction l as [|a l IH]; intros cur Hl; [by rewrite app_string_nil_r|].
  apply orb_false_iff in Hl as [Ha Hl]. rewrite app_string_cons. simpl.
  rewrite Ascii.eqb_sym in Ha. rewrite Ha. rewrite IH by done. by rewrite app_string_assoc.
Qed.

(** Lines that end in a newline each. *)
Lemma lines_line l s :
  plain_line l → lines (l +:+ String newline s) = l :: lines s.
Proof.
  intros [Hn Hr]. unfold lines. rewrite lines_from_read, app_string_empty by done. simpl. by rewrite Hr.
Qed.

Lemma lines_last l : has_char newline l = false → l ≠ EmptyString → lines l = [l].
Proof.
  intros Hn Hne. unfold lines. rewrite <- (app_string_nil_r l) at 1.
  rewrite lines_from_read, app_string_empty by done. simpl. by rewrite (proj2 (String.eqb_neq l EmptyString) Hne).
Qed.

(** Joining lines and splitting the text again, when the last is not empty. *)
Lemma lines_join ls :
  Forall plain_line ls → last ls ≠ Some EmptyString → lines (str_join nl ls) = ls.
Proof.
  induction 1 as [|l ls Hl _ IH]; intros Hlast; [done|].
  destruct ls as [|l' ls]; [apply lines_last; [apply Hl|by intros ->]|].
  change (str_join nl (l :: l' :: ls)) with (l +:+ String newline (str_join nl (l' :: ls))).
  rewrite lines_line by done. f_equal. by apply IH.
Qed.

Lemma split_once_app a s t : has_char a s = false → split_once a (s +:+ String a t) = Some (s, t).
Proof.
  induction s as [|b s IH]; intros Hs; rewrite ?app_string_cons, ?app_string_empty; simpl;
    [by rewrite Ascii.eqb_refl|].
  apply orb_false_iff in Hs as [-> Hs]. by rewrite IH.
Qed.
Lemma split_once_none a s : has_char a s = false → split_once a s = None.
Proof.
  induction s as [|b s IH]; simpl; intros Hs; [done|].
  apply orb_false_iff in Hs as [-> Hs]. by rewrite IH.
Qed.

(** Integers: their text, and [str::parse], which reads an optional sign and then
    digits until one is invalid or the value leaves the type. *)
Definition show_usize (n : N) : string := DecimalString.NilZero.string_of_uint (N.to_uint n).
Definition show_i64 (z : Z) : string :=
  if z <? 0 then "-" +:+ show_usize (Z.to_N (- z)) else show_usize (Z.to_N z).
Definition usize_max : N := 2 ^ 64 - 1.
Inductive parse_int_error := IntEmpty | InvalidDigit | PosOverflow | NegOverflow.

Definition digit_of (a : Ascii.ascii) : option N :=
  let b := Ascii.N_of_ascii a in
  if (48 <=? b)%N && (b <=? 57)%N then Some (b - 48)%N else None.

Fixpoint parse_digits (max : N) (over : parse_int_error) (acc : N) (s : string) :
    result N parse_int_error :=
  match s with
  | EmptyString => Ok acc
  | String a s' =>
      match digit_of a with
      | None => Err InvalidDigit
      | Some x =>
          let acc := (10 * acc + x)%N in
          if (acc <=? max)%N then parse_digits max over acc s' else Err over
      end
  end.
(** At least one digit. *)
Definition parse_magnitude (max : N) (over : parse_int_error) (s : string) : result N parse_int_error :=
  match s with EmptyString => Err InvalidDigit | _ => parse_digits max over 0 s end.

Definition plus_sign : Ascii.ascii := Ascii.ascii_of_nat 43.
Definition minus_sign : Ascii.ascii := Ascii.ascii_of_nat 45.

Definition parse_usize (s : string) : result N parse_int_error :=
  match s with
  | EmptyString => Err IntEmpty
  | String a s' =>
      parse_magnitude usize_max PosOverflow (if Ascii.eqb a plus_sign then s' else s)
  end.
Definition parse_i64 (s : string) : result Z parse_int_error :=
  match s with
  | EmptyString => Err IntEmpty
  | String a s' =>
      if Ascii.eqb a minus_sign
      then res_map (λ n, - Z.of_N n) (parse_magnitude (2 ^ 63) NegOverflow s')
      else res_map Z.of_N (parse_magnitude (2 ^ 63 - 1) PosOverflow
                             (if Ascii.eqb a plus_sign then s' else s))
  end.
Definition show_parse_int_error (e : parse_int_error) : string :=
  match e with
  | IntEmpty => "cannot parse integer from empty string"
  | InvalidDigit => "invalid digit found in string"
  | PosOverflow => "number too large to fit in target type"
  | NegOverflow => "number too small to fit in target type"
  end.

(** The value the digits of [d] add to [acc]. *)
Fixpoint digits_value (acc : N) (d : Decimal.uint) : N :=
  match d with
  | Decimal.Nil => acc
  | Decimal.D0 d => digits_value (10 * acc) d
  | Decimal.D1 d => digits_value (10 * acc + 1) d
  | Decimal.D2 d => digits_value (10 * acc + 2) d
  | Decimal.D3 d => digits_value (10 * acc + 3) d
  | Decimal.D4 d => digits_value (10 * acc + 4) d
  | Decimal.D5 d => digits_value (10 * acc + 5) d
  | Decimal.D6 d => digits_value (10 * acc + 6) d
  | Decimal.D7 d => digits_value (10 * acc + 7) d
  | Decimal.D8 d => digits_value (10 * acc + 8) d
  | Decimal.D9 d => digits_value (10 * acc + 9) d
  end.

Lemma digits_value_pos d p : digits_value (N.pos p) d = N.pos (Pos.of_uint_acc d p).
Proof.
  revert p. induction d as [|d IH|d IH|d IH|d IH|d IH|d IH|d IH|d IH|d IH|d IH]; intros p; simpl; [done|..];
    rewrite <- IH; f_equal; lia.
Qed.
Lemma digits_value_of_uint d : digits_value 0 d = N.of_uint d.
Proof. unfold N.of_uint. induction d; simpl; try done; apply digits_value_pos. Qed.
Lemma digits_value_ge d acc : (acc ≤ digits_value acc d)%N.
Proof.
  revert acc. induction d as [|d IH|d IH|d IH|d IH|d IH|d IH|d IH|d IH|d IH|d IH]; intros acc; simpl; [lia|..];
    (etrans; [|apply IH]); lia.
Qed.

Lemma parse_digits_value max over acc d :
  (digits_value acc d ≤ max)%N →
  parse_digits max over acc (DecimalString.NilEmpty.string_of_uint d) = Ok (digits_value acc d).
Proof.
  revert acc. induction d as [|d IH|d IH|d IH|d IH|d IH|d IH|d IH|d IH|d IH|d IH]; intros acc Hm;
    cbn [DecimalString.NilEmpty.string_of_uint parse_digits digits_value] in *; [done|..];
    match goal with |- context [digit_of ?a] => let x := eval vm_compute in (digit_of a) in
      change (digit_of a) with x end; cbv zeta iota;
    rewrite ?N.add_0_r, (proj2 (N.leb_le _ _)); auto;
    (etrans; [apply digits_value_ge|exact Hm]).
Qed.

(** The text of a number begins with a digit and reads back. *)
Lemma show_usize_cons n :
  ∃ a s, show_usize n = String a s ∧ Ascii.eqb a plus_sign = false ∧ Ascii.eqb a minus_sign = false.
Proof.
  unfold show_usize. destruct (N.to_uint n) eqn:E; simpl; eauto.
Qed.
Lemma parse_magnitude_show max over n :
  (n ≤ max)%N → parse_magnitude max over (show_usize n) = Ok n.
Proof.
  intros Hn. destruct (show_usize_cons n) as (a & s & Hs & _). unfold parse_magnitude. rewrite Hs.
  rewrite <- Hs. unfold show_usize, DecimalString.NilZero.string_of_uint.
  pose proof (DecimalN.Unsigned.of_to n) as Hof.
  destruct (N.to_uint n) eqn:E.
  { destruct n as [|p]; [done|]. by destruct (DecimalPos.Unsigned.to_uint_nonnil p). }
  all: rewrite parse_digits_value by (by rewrite digits_value_of_uint, Hof);
    by rewrite digits_value_of_uint, Hof.
Qed.

Lemma parse_show_usize n : (n ≤ usize_max)%N → parse_usize (show_usize n) = Ok n.
Proof.
  intros Hn. destruct (show_usize_cons n) as (a & s & Hs & Hp & _). unfold parse_usize.
  rewrite Hs, Hp, <- Hs. by apply parse_magnitude_show.
Qed.

Lemma parse_show_i64 z : - 2 ^ 63 ≤ z < 2 ^ 63 → parse_i64 (show_i64 z) = Ok z.
Proof.
  intros Hz. unfold show_i64. destruct (Z.ltb_spec z 0).
  - rewrite app_string_cons, app_string_empty. cbn [parse_i64]. rewrite Ascii.eqb_refl.
    rewrite parse_magnitude_show by lia. simpl. f_equal. lia.
  - destruct (show_usize_cons (Z.to_N z)) as (a & s & Hs & Hp & Hm). unfold parse_i64.
    rewrite Hs, Hp, Hm, <- Hs, parse_magnitude_show by lia. simpl. f_equal. lia.
Qed.

(** Splits a hypothesis on the string comparisons it makes. *)
Ltac str_cases :=
  repeat match goal with
  | H : context [String.eqb ?x ?y] |- _ => destruct (String.eqb_spec x y); simpl in H
  end; simplify_eq.
