(* ===== verification/Threads.v ===== *)
(** * Threads: methods that interleave at every await

    An [async fn] over shared state is a value of [prog]: what it does up to its next
    await, and what it goes on with.  [run] is its behaviour when nothing interferes,
    in the monad [ST] of [Prelude]; [Pool] runs any number of them, one step of one
    thread at a time.  A method is verified once against a relation [R] that bounds
    what the others may do meanwhile and a shared invariant [I] ([safe]); [pool_safe]
    lifts this to every interleaving. *)

From S2P Require Import Prelude.

Inductive prog (S E A : Type) : Type :=
| Done (r : result A E)
| Step (f : S → S) (k : S → prog S E A).
Arguments Done {S E A} r.
Arguments Step {S E A} f k.

(** One indivisible operation: a statement of the database, a reading of the clock. *)
Definition atomic {S E A} (m : ST S E A) : prog S E A :=
  Step (λ s, fst (m s)) (λ s, Done (snd (m s))).

Definition ret {S E A} (a : A) : prog S E A := Done (Ok a).
Definition fail {S E A} (e : E) : prog S E A := Done (Err e).

(** [let a = p.await?; f(a)] *)
Fixpoint bind {S E A B} (p : prog S E A) (f : A → prog S E B) : prog S E B :=
  match p with
  | Done (Ok a) => f a
  | Done (Err e) => Done (Err e)
  | Step g k => Step g (λ s, bind (k s) f)
  end.

(** [let _ = p.await]: an error becomes a value. *)
Fixpoint attempt {S E F A} (p : prog S E A) : prog S F (result A E) :=
  match p with
  | Done r => Done (Ok r)
  | Step g k => Step g (λ s, attempt (k s))
  end.

Notation "'await' x ':=' p 'in' k" := (bind p (λ x, k))
  (at level 10, x name, p at level 100, k at level 200,
   format "'[v' 'await'  x  ':='  p  'in' '/' k ']'") : chisl_scope.
Notation "'await_' p 'in' k" := (bind p (λ _, k))
  (at level 10, p at level 100, k at level 200,
   format "'[v' 'await_'  p  'in' '/' k ']'") : chisl_scope.

Fixpoint for_each {S E A} (body : A → prog S E unit) (xs : list A) : prog S E unit :=
  match xs with
  | [] => ret tt
  | x :: xs' => bind (body x) (λ _, for_each body xs')
  end.

(* ------------------------------------------------------------------ *)
(** ** Alone *)

Fixpoint run {S E A} (p : prog S E A) : ST S E A := λ s,
  match p with
  | Done r => (s, r)
  | Step f k => run (k s) (f s)
  end.

Lemma run_atomic {S E A} (m : ST S E A) s : run (atomic m) s = m s.
Proof. simpl. by destruct (m s). Qed.

Lemma run_bind {S E A B} (p : prog S E A) (f : A → prog S E B) s :
  run (bind p f) s = st_bind (run p) (λ a, run (f a)) s.
Proof.
  revert s. induction p as [[a|e]|g k IH]; intros s; [done..|]. simpl. rewrite IH. done.
Qed.

Lemma run_call {S E A B} (m : ST S E A) (f : A → prog S E B) s :
  run (bind (atomic m) f) s = st_bind m (λ a, run (f a)) s.
Proof. rewrite run_bind. unfold st_bind. by rewrite run_atomic. Qed.

Lemma run_attempt {S E F A} (p : prog S E A) s :
  run (attempt (F:=F) p) s = st_try (run p) s.
Proof. revert s. induction p as [r|g k IH]; intros s; [done|]. simpl. rewrite IH. done. Qed.

Lemma run_for_each {S E A} (body : A → prog S E unit) xs s :
  run (for_each body xs) s = st_iter (λ x, run (body x)) xs s.
Proof.
  revert s. induction xs as [|x xs IH]; intros s; [done|]. simpl. rewrite run_bind.
  unfold st_bind. destruct (run (body x) s) as [s' [a|e]]; [apply IH|done].
Qed.

(* ------------------------------------------------------------------ *)
(** ** Among others *)

Section safe.
Context {S E : Type} (I : S → Prop) (R : S → S → Prop) {RP : PreOrder R}.
#[local] Set Default Proof Using "Type RP".

(** Each step of [p] keeps [I] and changes the state only along [R], whatever other
    threads do along [R] in between; when [p] ends [Q] holds of its result. *)
Fixpoint safe {A} (p : prog S E A) (Q : result A E → S → Prop) (s0 : S) : Prop :=
  match p with
  | Done r => ∀ s, R s0 s → I s → Q r s
  | Step f k => ∀ s, R s0 s → I s → I (f s) ∧ R s (f s) ∧ safe (k s) Q (f s)
  end.

Lemma safe_mono {A} (p : prog S E A) Q s0 s1 : R s0 s1 → safe p Q s0 → safe p Q s1.
Proof. intros HR. destruct p; simpl; intros H s Hs; apply H; by etrans. Qed.

Lemma safe_at {A} (p : prog S E A) Q s0 : (∀ s, R s0 s → I s → safe p Q s) → safe p Q s0.
Proof. destruct p; simpl; intros H s Hs HI; by apply (H s). Qed.

Lemma safe_post {A} (p : prog S E A) (Q Q' : result A E → S → Prop) s0 :
  (∀ r s, I s → Q r s → Q' r s) → safe p Q s0 → safe p Q' s0.
Proof.
  intros HQ. revert s0. induction p as [r|f k IH]; intros s0; simpl.
  - intros H s HR HI. by apply HQ, H.
  - intros H s HR HI. destruct (H s HR HI) as (? & ? & ?). auto.
Qed.

Lemma safe_bind {A B} (p : prog S E A) (f : A → prog S E B) (Q : result B E → S → Prop) s0 :
  safe p (λ r s, match r with Ok a => safe (f a) Q s | Err e => Q (Err e) s end) s0 →
  safe (bind p f) Q s0.
Proof.
  revert s0. induction p as [[a|e]|g k IH]; intros s0; simpl.
  - apply safe_at.
  - done.
  - intros H s HR HI. destruct (H s HR HI) as (? & ? & ?). auto.
Qed.

Lemma safe_ret {A} (a : A) (Q : result A E → S → Prop) s0 :
  (∀ s, R s0 s → I s → Q (Ok a) s) → safe (ret a) Q s0.
Proof. done. Qed.

(** The rule for [let a = m.await?]: the facts [m] establishes must be stable. *)
Lemma safe_call {A B} (m : ST S E A) (f : A → prog S E B) (Q : result B E → S → Prop) s0 :
  (∀ s, R s0 s → I s → I (fst (m s)) ∧ R s (fst (m s)) ∧
     match snd (m s) with
     | Ok a => safe (f a) Q (fst (m s))
     | Err e => ∀ s', R (fst (m s)) s' → I s' → Q (Err e) s'
     end) →
  safe (bind (atomic m) f) Q s0.
Proof.
  simpl. intros H s HR HI. destruct (H s HR HI) as (? & ? & Hm). split_and!; [done..|].
  by destruct (snd (m s)).
Qed.

Lemma safe_for_each {A} (body : A → prog S E unit) xs (Q : S → Prop) s0 :
  (∀ x s, x ∈ xs → R s0 s → safe (body x) (λ r s, match r with Ok _ => True | Err _ => Q s end) s) →
  (∀ s, R s0 s → I s → Q s) →
  safe (for_each body xs) (λ _ s, Q s) s0.
Proof.
  intros Hb HQ. revert s0 Hb HQ. induction xs as [|x xs IH]; intros s0 Hb HQ; simpl; [auto|].
  apply safe_bind, safe_at. intros s HR HI.
  apply (safe_at _ _ s). intros s1 HR1 HI1.
  pose proof (Hb x s1 ltac:(by left) ltac:(by etrans)) as Hx. revert Hx.
  assert (H01 : R s0 s1) by by etrans. clear - IH Hb HQ H01 RP.
  revert s1 H01. induction (body x) as [r|g k IHp]; intros s1 H01; simpl.
  - intros H s HR HI. specialize (H s HR HI). destruct r as [[]|e]; [|done].
    apply IH; [intros y s' Hy HR'; apply Hb; [by right|]|intros s' HR'; apply HQ]; etrans; eauto; by etrans.
  - intros H s HR HI. destruct (H s HR HI) as (H1 & H2 & H3). split_and!; [done..|].
    apply IHp; [|done]. etrans; [exact H01|]. by etrans.
Qed.
End safe.

(* ------------------------------------------------------------------ *)
(** ** Any number of threads *)

Module Pool.
Section pool.
Context {S E A Req : Type} (handler : Req → prog S E A).

(** The shared state, the threads (a finished one keeps its result) and the number
    of the next thread. *)
Record t := mk { shared : S; threads : gmap nat (prog S E A); next : nat }.

Inductive event := Begin (r : Req) | Resume (i : nat).

Definition new (s : S) : t := mk s ∅ 0.

Definition step (e : event) (p : t) : option t :=
  match e with
  | Begin r => Some (mk (shared p) (<[next p := handler r]> (threads p)) (Datatypes.S (next p)))
  | Resume i =>
      match threads p !! i with
      | Some (Step f k) =>
          Some (mk (f (shared p)) (<[i := k (shared p)]> (threads p)) (next p))
      | _ => None
      end
  end.

Fixpoint steps (es : list event) (p : t) : option t :=
  match es with
  | [] => Some p
  | e :: es' => match step e p with Some p' => steps es' p' | None => None end
  end.

(** What a finished thread returned. *)
Definition result_of (i : nat) (p : t) : option (result A E) :=
  match threads p !! i with Some (Done r) => Some r | _ => None end.

Context (I : S → Prop) (R : S → S → Prop) {RP : PreOrder R}.
#[local] Set Default Proof Using "Type RP".
Definition calm (p : prog S E A) (s : S) : Prop := safe I R p (λ _ _, True) s.

Record ok (p : t) : Prop := {
  ok_shared : I (shared p);
  ok_threads i q : threads p !! i = Some q → calm q (shared p) }.

Lemma step_ok e p p' :
  (∀ r, e = Begin r → I (shared p) → calm (handler r) (shared p)) → ok p → step e p = Some p' →
  ok p' ∧ R (shared p) (shared p').
Proof.
  intros Hh [HI Ht]. destruct e as [r|i]; simpl.
  - intros [= <-]. split; [|done]. split; simpl; [done|].
    intros i q [[_ <-]|[_ Hq]]%lookup_insert_Some; [by apply Hh|by eapply Ht].
  - destruct (threads p !! i) as [[r|f k]|] eqn:Hi; try done. intros [= <-].
    destruct (Ht i _ Hi (shared p) ltac:(reflexivity) HI) as (HI' & HR & Hk).
    split; [|done]. split; simpl; [done|].
    intros j q [[_ <-]|[_ Hq]]%lookup_insert_Some; [done|].
    apply (safe_mono I R q _ (shared p)); [done|]. by eapply Ht.
Qed.

(** Methods that are safe one by one are safe in every interleaving. *)
Lemma pool_safe es s p :
  (∀ r s, Begin r ∈ es → I s → calm (handler r) s) → I s → steps es (new s) = Some p →
  I (shared p) ∧ R s (shared p).
Proof.
  intros Hh HI. assert (Hok : ok (new s)) by (split; [done|]; intros i q; simpl; by rewrite lookup_empty).
  assert (HR : R s (shared (new s))) by reflexivity. revert Hok HR. generalize (new s) as p0.
  induction es as [|e es IH]; intros p0 Hok HR; simpl.
  - intros [= <-]. split; [apply Hok|done].
  - destruct (step e p0) as [p1|] eqn:He; [|done].
    destruct (step_ok e p0 p1) as [Hok1 HR1]; [|done..|].
    { intros r -> HI'. apply Hh; [by left|done]. }
    apply IH; [|done|by etrans]. intros r s' Hr. apply Hh. by right.
Qed.
End pool.
End Pool.
