(* ===== verification/Json.v ===== *)
(** * Json: what the components rely on of [serde_json]

    [serde_json] is third-party: its entry points are the operations of a class,
    and the only facts the components use are that [from_str] reads back what
    [to_string] wrote.  [json_text] is an instance that writes the usual JSON
    text for an array of strings, used to evaluate examples. *)

From S2P Require Import Prelude.
From S2P Require Import Text.

(** [serde_json::to_string] on [Vec<String>] and [serde_json::Value] does not
    fail; [from_str] may. *)
Class SerdeJson := {
  Value : Type;
  strings_to_string : list string → string;
  strings_from_str : string → option (list string);
  value_to_string : Value → string;
  value_from_str : string → option Value;
  strings_roundtrip : ∀ l, strings_from_str (strings_to_string l) = Some l;
  value_roundtrip : ∀ v, value_from_str (value_to_string v) = Some v;
  strings_empty : strings_from_str "[]" = Some [];
}.

Create Rewrite HintDb json.
#[export] Hint Rewrite @strings_roundtrip @value_roundtrip @strings_empty : json.

(* ------------------------------------------------------------------ *)
(** ** A concrete instance *)

Module JsonText.

Definition quote : Ascii.ascii := Ascii.ascii_of_nat 34.
Definition backslash : Ascii.ascii := Ascii.ascii_of_nat 92.
Definition comma : Ascii.ascii := Ascii.ascii_of_nat 44.
Definition lbracket : Ascii.ascii := Ascii.ascii_of_nat 91.
Definition rbracket : Ascii.ascii := Ascii.ascii_of_nat 93.

Fixpoint escape (s rest : string) : string :=
  match s with
  | EmptyString => rest
  | String a s' =>
      if Ascii.eqb a quote || Ascii.eqb a backslash
      then String backslash (String a (escape s' rest))
      else String a (escape s' rest)
  end.

Definition put_string (s rest : string) : string :=
  String quote (escape s (String quote rest)).

Fixpoint put_tail (l : list string) : string :=
  match l with
  | [] => String rbracket EmptyString
  | x :: l' => String comma (put_string x (put_tail l'))
  end.

Definition put (l : list string) : string :=
  match l with
  | [] => "[]"
  | x :: l' => String lbracket (put_string x (put_tail l'))
  end.

Inductive mode := First | Item | InString (acc : string) | Escaped (acc : string) | After | Done.

Fixpoint str_rev (s acc : string) : string :=
  match s with EmptyString => acc | String a s' => str_rev s' (String a acc) end.

Fixpoint get_loop (m : mode) (s : string) (out : list string) : option (list string) :=
  match s with
  | EmptyString => match m with Done => Some (rev out) | _ => None end
  | String a s' =>
      match m with
      | First => if Ascii.eqb a quote then get_loop (InString EmptyString) s' out
                 else if Ascii.eqb a rbracket then get_loop Done s' out else None
      | Item => if Ascii.eqb a quote then get_loop (InString EmptyString) s' out else None
      | InString acc =>
          if Ascii.eqb a backslash then get_loop (Escaped acc) s' out
          else if Ascii.eqb a quote then get_loop After s' (str_rev acc EmptyString :: out)
          else get_loop (InString (String a acc)) s' out
      | Escaped acc => get_loop (InString (String a acc)) s' out
      | After => if Ascii.eqb a comma then get_loop Item s' out
                 else if Ascii.eqb a rbracket then get_loop Done s' out else None
      | Done => None
      end
  end.

Definition get (s : string) : option (list string) :=
  match s with
  | String a s' => if Ascii.eqb a lbracket then get_loop First s' [] else None
  | EmptyString => None
  end.

Lemma get_escape s rest acc out :
  get_loop (InString acc) (escape s rest) out = get_loop (InString (str_rev s acc)) rest out.
Proof.
  revert acc. induction s as [|a s IH]; intros acc; simpl; [done|].
  destruct (Ascii.eqb a quote || Ascii.eqb a backslash) eqn:E; simpl; [by rewrite IH|].
  apply orb_false_elim in E as [-> ->]. by rewrite IH.
Qed.

Lemma str_rev_rev s acc acc' : str_rev (str_rev s acc) acc' = str_rev acc (s +:+ acc').
Proof. revert acc. induction s as [|a s IH]; intros acc; simpl; [done|]. by rewrite IH. Qed.

Lemma str_app_nil s : s +:+ EmptyString = s.
Proof. induction s as [|a s IH]; [done|]. by apply (f_equal (String a)). Qed.

Lemma get_string s rest out :
  get_loop (InString EmptyString) (escape s (String quote rest)) out =
  get_loop After rest (s :: out).
Proof. rewrite get_escape. simpl. rewrite str_rev_rev. simpl. by rewrite str_app_nil. Qed.

Lemma get_put_tail l out : get_loop After (put_tail l) out = Some (rev out ++ l).
Proof.
  revert out. induction l as [|x l IH]; intros out; simpl.
  - by rewrite app_nil_r.
  - rewrite get_string, IH. simpl. by rewrite <- app_assoc.
Qed.

Lemma get_put l : get (put l) = Some l.
Proof.
  destruct l as [|x l]; [done|]. simpl. by rewrite get_string, get_put_tail.
Qed.

End JsonText.

(** Values are kept as their JSON text. *)
Definition json_text : SerdeJson := {|
  Value := string;
  strings_to_string := JsonText.put;
  strings_from_str := JsonText.get;
  value_to_string := λ v, v;
  value_from_str := λ s, Some s;
  strings_roundtrip := JsonText.get_put;
  value_roundtrip := λ v, eq_refl;
  strings_empty := eq_refl;
|}.

Example json_text_array :
  @strings_from_str json_text (@strings_to_string json_text ["a"; "b,c"]) = Some ["a"; "b,c"].
Proof. reflexivity. Qed.
