(* ===== verification/TeamTypes.v ===== *)
(** * TeamTypes: the data of the team component

    [chisl-team/src/types.rs], the DTOs it converts to
    ([chisl-api-types/src/team.rs]) and the team errors
    ([chisl-team/src/error.rs]).  Each [enum] or [struct] is a Module with its
    type [t]; [to_string] is its [Display] and [parse] its parser.  A comment
    [(* path:first-last symbol *)] before a definition names the Rust lines
    (paths under [src/crates/]) it translates. *)

From S2P Require Import Prelude.
From S2P Require Import Text.
From S2P Require Import Json.

(** [TimestampMs = i64]. *)
Definition TimestampMs : Type := Z.

(* ------------------------------------------------------------------ *)
(** ** Enumerations *)

Module TeammateRole.
(* chisl-team/src/types.rs:13-17 TeammateRole *)
Inductive t := Lead | Teammate.
#[global] Instance t_eq_dec : EqDecision t.
Proof. solve_decision. Defined.
(* chisl-team/src/types.rs:20-25 TeammateRole::fmt *)
Definition to_string (r : t) : string :=
  match r with Lead => "lead" | Teammate => "teammate" end.
(* chisl-team/src/types.rs:29-35 TeammateRole::parse *)
Definition parse (s : string) : option t :=
  if (s =? "lead")%string || (s =? "leader")%string then Some Lead
  else if (s =? "teammate")%string then Some Teammate
  else None.
End TeammateRole.

Module TeammateStatus.
(* chisl-team/src/types.rs:44-55 TeammateStatus *)
Inductive t := Idle | Working | Thinking | ToolUse | Completed | Error.
#[global] Instance t_eq_dec : EqDecision t.
Proof. solve_decision. Defined.
(* chisl-team/src/types.rs:58-67 TeammateStatus::fmt *)
Definition to_string (s : t) : string :=
  match s with
  | Idle => "idle" | Working => "working" | Thinking => "thinking"
  | ToolUse => "tool_use" | Completed => "completed" | Error => "error"
  end.
(* chisl-team/src/types.rs:71-81 TeammateStatus::parse *)
Definition parse (s : string) : option t :=
  if (s =? "idle")%string || (s =? "pending")%string then Some Idle
  else if (s =? "working")%string || (s =? "active")%string then Some Working
  else if (s =? "thinking")%string then Some Thinking
  else if (s =? "tool_use")%string then Some ToolUse
  else if (s =? "completed")%string then Some Completed
  else if (s =? "error")%string || (s =? "failed")%string then Some Error
  else None.
End TeammateStatus.

Module MailboxMessageType.
(* chisl-team/src/types.rs:152-156 MailboxMessageType *)
Inductive t := Message | IdleNotification | ShutdownRequest.
#[global] Instance t_eq_dec : EqDecision t.
Proof. solve_decision. Defined.
(* chisl-team/src/types.rs:159-165 MailboxMessageType::fmt *)
Definition to_string (m : t) : string :=
  match m with
  | Message => "message"
  | IdleNotification => "idle_notification"
  | ShutdownRequest => "shutdown_request"
  end.
(* chisl-team/src/types.rs:169-176 MailboxMessageType::parse *)
Definition parse (s : string) : option t :=
  if (s =? "message")%string then Some Message
  else if (s =? "idle_notification")%string then Some IdleNotification
  else if (s =? "shutdown_request")%string then Some ShutdownRequest
  else None.
End MailboxMessageType.

Module TaskStatus.
(* chisl-team/src/types.rs:206-211 TaskStatus *)
Inductive t := Pending | InProgress | Completed | Deleted.
#[global] Instance t_eq_dec : EqDecision t.
Proof. solve_decision. Defined.
(* chisl-team/src/types.rs:214-221 TaskStatus::fmt *)
Definition to_string (s : t) : string :=
  match s with
  | Pending => "pending" | InProgress => "in_progress"
  | Completed => "completed" | Deleted => "deleted"
  end.
(* chisl-team/src/types.rs:225-233 TaskStatus::parse *)
Definition parse (s : string) : option t :=
  if (s =? "pending")%string then Some Pending
  else if (s =? "in_progress")%string then Some InProgress
  else if (s =? "completed")%string then Some Completed
  else if (s =? "deleted")%string then Some Deleted
  else None.
End TaskStatus.

(* ------------------------------------------------------------------ *)
(** ** Responses and agents *)

Module TeamAgentResponse.
(* chisl-api-types/src/team.rs:107-120 TeamAgentResponse *)
Record t := mk {
  slot_id : string; name : string; role : string; conversation_id : string;
  backend : string; icon : option string; model : string;
  custom_agent_id : option string; status : option string }.
End TeamAgentResponse.

Module TeamAgent.
(* chisl-team/src/types.rs:89-109 TeamAgent *)
Record t := mk {
  slot_id : string; name : string; role : TeammateRole.t; conversation_id : string;
  backend : string; model : string; custom_agent_id : option string;
  status : option TeammateStatus.t; conversation_type : option string;
  cli_path : option string }.
#[global] Instance t_eq_dec : EqDecision t.
Proof. solve_decision. Defined.

(* chisl-team/src/types.rs:116-128 TeamAgent::to_response_with_icon *)
Definition to_response_with_icon (a : t) (icon : option string) : TeamAgentResponse.t :=
  TeamAgentResponse.mk (slot_id a) (name a) (TeammateRole.to_string (role a))
    (conversation_id a) (backend a) icon (model a) (custom_agent_id a)
    (TeammateStatus.to_string <$> status a).
(* chisl-team/src/types.rs:112-114 TeamAgent::to_response *)
Definition to_response (a : t) : TeamAgentResponse.t := to_response_with_icon a None.

(** Field assignments [agent.status = ..] and [agent.name = ..]. *)
Definition set_status (st : option TeammateStatus.t) (a : t) : t :=
  mk (slot_id a) (name a) (role a) (conversation_id a) (backend a) (model a)
    (custom_agent_id a) st (conversation_type a) (cli_path a).
Definition set_name (n : string) (a : t) : t :=
  mk (slot_id a) n (role a) (conversation_id a) (backend a) (model a)
    (custom_agent_id a) (status a) (conversation_type a) (cli_path a).
End TeamAgent.

Module TeamResponse.
(* chisl-api-types/src/team.rs:126-134 TeamResponse *)
Record t := mk {
  id : string; name : string; agents : list TeamAgentResponse.t;
  lead_agent_id : option string; created_at : TimestampMs; updated_at : TimestampMs }.
End TeamResponse.

(* ------------------------------------------------------------------ *)
(** ** Database rows *)

Module TeamRow.
(* chisl-db/src/models/team.rs:8-21 TeamRow *)
Record t := mk {
  id : string; user_id : string; name : string; workspace : string;
  workspace_mode : string; agents : string; lead_agent_id : option string;
  session_mode : option string; agents_version : string;
  created_at : TimestampMs; updated_at : TimestampMs }.
End TeamRow.

Module MailboxMessageRow.
(* chisl-db/src/models/team.rs:28-42 MailboxMessageRow *)
Record t := mk {
  id : string; team_id : string; to_agent_id : string; from_agent_id : string;
  msg_type : string; content : string; summary : option string;
  files : option string; read : bool; created_at : TimestampMs }.
#[global] Instance t_eq_dec : EqDecision t.
Proof. solve_decision. Defined.
(** [UPDATE mailbox SET read = 1]. *)
Definition set_read (m : t) : t :=
  mk (id m) (team_id m) (to_agent_id m) (from_agent_id m) (msg_type m) (content m)
    (summary m) (files m) true (created_at m).
End MailboxMessageRow.

Module TeamTaskRow.
(* chisl-db/src/models/team.rs:49-65 TeamTaskRow *)
Record t := mk {
  id : string; team_id : string; subject : string; description : option string;
  status : string; owner : option string; blocked_by : string; blocks : string;
  metadata : option string; created_at : TimestampMs; updated_at : TimestampMs }.
#[global] Instance t_eq_dec : EqDecision t.
Proof. solve_decision. Defined.
End TeamTaskRow.

(* ------------------------------------------------------------------ *)
(** ** Domain types and their conversions from rows *)

Module Team.
(* chisl-team/src/types.rs:136-144 Team *)
Record t := mk {
  id : string; name : string; agents : list TeamAgent.t;
  lead_agent_id : option string; created_at : TimestampMs; updated_at : TimestampMs }.

(** [serde_json::from_str::<Vec<TeamAgent>>] is the parameter [agents_from_str]. *)
(* chisl-team/src/types.rs:265-275 Team::from_row *)
Definition from_row (agents_from_str : string → option (list TeamAgent.t))
    (row : TeamRow.t) : option t :=
  agents ← agents_from_str (TeamRow.agents row);
  Some (mk (TeamRow.id row) (TeamRow.name row) agents (TeamRow.lead_agent_id row)
          (TeamRow.created_at row) (TeamRow.updated_at row)).

(* chisl-team/src/types.rs:277-286 Team::to_response *)
Definition to_response (tm : t) : TeamResponse.t :=
  TeamResponse.mk (id tm) (name tm) (map TeamAgent.to_response (agents tm))
    (lead_agent_id tm) (created_at tm) (updated_at tm).
End Team.

Module MailboxMessage.
(* chisl-team/src/types.rs:184-198 MailboxMessage *)
Record t := mk {
  id : string; team_id : string; to_agent_id : string; from_agent_id : string;
  msg_type : MailboxMessageType.t; content : string; summary : option string;
  files : option (list string); read : bool; created_at : TimestampMs }.
#[global] Instance t_eq_dec : EqDecision t.
Proof. solve_decision. Defined.

(* chisl-team/src/types.rs:290-309 MailboxMessage::from_row *)
Definition from_row `{SerdeJson} (row : MailboxMessageRow.t) : option t :=
  ty ← MailboxMessageType.parse (MailboxMessageRow.msg_type row);
  let files :=
    match MailboxMessageRow.files row ≫= strings_from_str with
    | Some [] | None => None
    | Some v => Some v
    end in
  Some (mk (MailboxMessageRow.id row) (MailboxMessageRow.team_id row)
          (MailboxMessageRow.to_agent_id row) (MailboxMessageRow.from_agent_id row)
          ty (MailboxMessageRow.content row) (MailboxMessageRow.summary row) files
          (MailboxMessageRow.read row) (MailboxMessageRow.created_at row)).
End MailboxMessage.

Module TeamTask.
(* chisl-team/src/types.rs:241-256 TeamTask *)
Record t `{SerdeJson} := mk {
  id : string; team_id : string; subject : string; description : option string;
  status : TaskStatus.t; owner : option string; blocked_by : list string;
  blocks : list string; metadata : option Value;
  created_at : TimestampMs; updated_at : TimestampMs }.

(** [row.metadata.as_deref().map(from_str).transpose()?]. *)
Definition metadata_of `{SerdeJson} (m : option string) : option (option Value) :=
  match m with
  | None => Some None
  | Some s => v ← value_from_str s; Some (Some v)
  end.

(* chisl-team/src/types.rs:313-331 TeamTask::from_row *)
Definition from_row `{SerdeJson} (row : TeamTaskRow.t) : option t :=
  let status := default TaskStatus.Pending (TaskStatus.parse (TeamTaskRow.status row)) in
  blocked_by ← strings_from_str (TeamTaskRow.blocked_by row);
  blocks ← strings_from_str (TeamTaskRow.blocks row);
  metadata ← metadata_of (TeamTaskRow.metadata row);
  Some (mk _ (TeamTaskRow.id row) (TeamTaskRow.team_id row) (TeamTaskRow.subject row)
          (TeamTaskRow.description row) status (TeamTaskRow.owner row) blocked_by blocks
          metadata (TeamTaskRow.created_at row) (TeamTaskRow.updated_at row)).
End TeamTask.

(* ------------------------------------------------------------------ *)
(** ** Errors *)

Module AppError.
(* chisl-common/src/error.rs:8-47 AppError *)
Inductive t :=
| NotFound (m : string) | BadRequest (m : string) | Unauthorized (m : string)
| Forbidden (m : string) | Conflict (m : string) | RateLimited
| Internal (m : string) | BadGateway (m : string) | Timeout (m : string)
| UnprocessableEntity (m : string) | ConversationArchived (m : string).

(** The numeric value of the [http::StatusCode] constant. *)
(* chisl-common/src/error.rs:59-73 AppError::status_code *)
Definition status_code (e : t) : Z :=
  match e with
  | NotFound _ => 404 | BadRequest _ => 400 | Unauthorized _ => 401
  | Forbidden _ => 403 | Conflict _ => 409 | RateLimited => 429
  | Internal _ => 500 | BadGateway _ => 502 | Timeout _ => 502
  | UnprocessableEntity _ => 422 | ConversationArchived _ => 410
  end.

(* chisl-common/src/error.rs:76-96 AppError::error_code *)
Definition error_code (e : t) : string :=
  match e with
  | NotFound _ => "NOT_FOUND" | BadRequest _ => "BAD_REQUEST"
  | Unauthorized _ => "UNAUTHORIZED"
  | Forbidden m =>
      if contains m "outside the allowed sandbox" then "PATH_OUTSIDE_SANDBOX" else "FORBIDDEN"
  | Conflict _ => "CONFLICT" | RateLimited => "RATE_LIMITED"
  | Internal _ => "INTERNAL_ERROR" | BadGateway _ => "BAD_GATEWAY"
  | Timeout _ => "TIMEOUT" | UnprocessableEntity _ => "UNPROCESSABLE_ENTITY"
  | ConversationArchived _ => "CONVERSATION_ARCHIVED"
  end.

(* chisl-common/src/error.rs:9-46 Display for AppError *)
Definition to_string (e : t) : string :=
  match e with
  | NotFound m => "Not found: " +:+ m | BadRequest m => "Bad request: " +:+ m
  | Unauthorized m => "Unauthorized: " +:+ m | Forbidden m => "Forbidden: " +:+ m
  | Conflict m => "Conflict: " +:+ m | RateLimited => "Rate limited"
  | Internal m => "Internal error: " +:+ m | BadGateway m => "Bad gateway: " +:+ m
  | Timeout m => "Request timeout: " +:+ m | UnprocessableEntity m => "Unprocessable entity: " +:+ m
  | ConversationArchived m => "Conversation archived: " +:+ m
  end.
End AppError.

Module ConversationStatus.
(* chisl-common/src/enums.rs:108-112 ConversationStatus *)
Inductive t := Pending | Running | Finished.
#[global] Instance t_eq_dec : EqDecision t.
Proof. solve_decision. Defined.
End ConversationStatus.


Module DbError.
(** The [sqlx] error inside [Query] is third-party; its [Display] text is kept. *)
(* chisl-db/src/error.rs:5-20 DbError *)
Inductive t :=
| Query (e : string) | Migration (e : string) | NotFound (m : string)
| Conflict (m : string) | Init (m : string).
(* chisl-db/src/error.rs:6-19 Display for DbError *)
Definition to_string (e : t) : string :=
  match e with
  | Query e => "Database query failed: " +:+ e
  | Migration e => "Migration failed: " +:+ e
  | NotFound m => "Record not found: " +:+ m
  | Conflict m => "Duplicate record: " +:+ m
  | Init m => "Database initialization failed: " +:+ m
  end.
(* chisl-db/src/error.rs:22-32 From<DbError> for AppError *)
Definition to_app (e : t) : AppError.t :=
  match e with
  | NotFound m => AppError.NotFound m
  | Conflict m => AppError.Conflict m
  | Query e => AppError.Internal ("Database error: " +:+ e)
  | Migration e => AppError.Internal ("Migration error: " +:+ e)
  | Init m => AppError.Internal ("Database init error: " +:+ m)
  end.
End DbError.

Module TeamError.
(** The [serde_json::Error] inside [Json] is third-party; its [Display] text is kept. *)
(* chisl-team/src/error.rs:4-37 TeamError *)
Inductive t :=
| TeamNotFound (m : string) | AgentNotFound (m : string) | TaskNotFound (m : string)
| InvalidRequest (m : string) | LeaderOnly (m : string) | SessionNotFound (m : string)
| BlockedTaskNotFound (m : string) | BackendNotAllowed (m : string)
| DuplicateAgentName (m : string) | Database (e : DbError.t) | Json (e : string).
(* chisl-team/src/error.rs:39-55 From<TeamError> for AppError *)
Definition to_app (e : t) : AppError.t :=
  match e with
  | TeamNotFound m | AgentNotFound m | TaskNotFound m | SessionNotFound m =>
      AppError.NotFound m
  | InvalidRequest m | BlockedTaskNotFound m | BackendNotAllowed m => AppError.BadRequest m
  | LeaderOnly m => AppError.Forbidden m
  | DuplicateAgentName m => AppError.BadRequest ("Agent name already taken: " +:+ m)
  | Database e => DbError.to_app e
  | Json e => AppError.Internal ("JSON error: " +:+ e)
  end.
End TeamError.

(* ------------------------------------------------------------------ *)
(** ** Lemmas *)

Lemma role_parse_to_string r : TeammateRole.parse (TeammateRole.to_string r) = Some r.
Proof. by destruct r. Qed.
Lemma status_parse_to_string s : TeammateStatus.parse (TeammateStatus.to_string s) = Some s.
Proof. by destruct s. Qed.
Lemma msg_type_parse_to_string m :
  MailboxMessageType.parse (MailboxMessageType.to_string m) = Some m.
Proof. by destruct m. Qed.
Lemma task_status_parse_to_string s : TaskStatus.parse (TaskStatus.to_string s) = Some s.
Proof. by destruct s. Qed.
Create Rewrite HintDb team.
#[export] Hint Rewrite role_parse_to_string status_parse_to_string
  msg_type_parse_to_string task_status_parse_to_string : team.

(** The text stored in the database for a role, a status, a message type or a
    task status parses back to the value it was written from, and only the
    documented spellings (with their aliases) parse at all. *)
Lemma team_enums_roundtrip :
  (∀ r, TeammateRole.parse (TeammateRole.to_string r) = Some r) ∧
  (∀ s, TeammateStatus.parse (TeammateStatus.to_string s) = Some s) ∧
  (∀ m, MailboxMessageType.parse (MailboxMessageType.to_string m) = Some m) ∧
  (∀ s, TaskStatus.parse (TaskStatus.to_string s) = Some s) ∧
  (∀ x r, TeammateRole.parse x = Some r →
     x = TeammateRole.to_string r ∨ (x = "leader" ∧ r = TeammateRole.Lead)) ∧
  (∀ x s, TeammateStatus.parse x = Some s →
     x = TeammateStatus.to_string s ∨ (x, s) ∈
       [("pending", TeammateStatus.Idle); ("active", TeammateStatus.Working);
        ("failed", TeammateStatus.Error)]) ∧
  (∀ x m, MailboxMessageType.parse x = Some m → x = MailboxMessageType.to_string m) ∧
  (∀ x s, TaskStatus.parse x = Some s → x = TaskStatus.to_string s).
Proof.
  repeat split; intros; autorewrite with team; try done.
  - unfold TeammateRole.parse in *; str_cases; auto.
  - unfold TeammateStatus.parse in *; str_cases; first [by left | right; set_solver].
  - unfold MailboxMessageType.parse in *; str_cases; auto.
  - unfold TaskStatus.parse in *; str_cases; auto.
Qed.
