(* ===== verification/TeamRepo.v ===== *)
(** * TeamRepo: the repository interface of the team component

    [ITeamRepository] ([chisl-db/src/repository/team.rs]) as a class of operations
    on a database state [Db], and [TeamRepositorySpec], the contract its
    documentation states: what each operation returns and how it changes the
    abstract contents (the mailbox rows and the task rows in arrival order).
    [Mailbox], [TaskBoard] and the scheduler are proved against the contract;
    [TeamRepoSqlite] discharges it.  The current time is an argument of the
    operations whose implementation reads it. *)

From S2P Require Import Prelude.
From S2P Require Import Text.
From S2P Require Import Json.
From S2P Require Import TeamTypes.

Module UpdateTeamParams.
(* chisl-db/src/repository/team.rs:6-10 UpdateTeamParams *)
Record t := mk { name : option string; agents : option string; lead_agent_id : option string }.
End UpdateTeamParams.

Module UpdateTaskParams.
(* chisl-db/src/repository/team.rs:14-20 UpdateTaskParams *)
Record t := mk {
  status : option string; description : option string; owner : option string;
  blocked_by : option string; metadata : option string }.
End UpdateTaskParams.

(* chisl-db/src/repository/team.rs:28-99 ITeamRepository *)
Class ITeamRepository (Db : Type) := {
  create_team : TeamRow.t → ST Db DbError.t unit;
  list_teams : ST Db DbError.t (list TeamRow.t);
  get_team : string → ST Db DbError.t (option TeamRow.t);
  update_team : TimestampMs → string → UpdateTeamParams.t → ST Db DbError.t unit;
  delete_team : string → ST Db DbError.t unit;
  write_message : MailboxMessageRow.t → ST Db DbError.t unit;
  read_unread_and_mark : string → string → ST Db DbError.t (list MailboxMessageRow.t);
  peek_unread : string → string → ST Db DbError.t (list MailboxMessageRow.t);
  mark_read_batch : list string → ST Db DbError.t unit;
  get_history : string → string → option Z → ST Db DbError.t (list MailboxMessageRow.t);
  delete_mailbox_by_team : string → ST Db DbError.t unit;
  create_task : TeamTaskRow.t → ST Db DbError.t unit;
  find_task_by_id : string → string → ST Db DbError.t (option TeamTaskRow.t);
  update_task : TimestampMs → string → UpdateTaskParams.t → ST Db DbError.t unit;
  list_tasks : string → ST Db DbError.t (list TeamTaskRow.t);
  append_to_blocks : TimestampMs → string → string → ST Db DbError.t unit;
  remove_from_blocked_by : TimestampMs → string → string → ST Db DbError.t unit;
  delete_tasks_by_team : string → ST Db DbError.t unit;
}.

(* ------------------------------------------------------------------ *)
(** ** The abstract effects of the operations on the rows *)

Section effects.
Context `{SerdeJson}.
Import MailboxMessageRow.

Definition unread_for (team agent : string) (m : MailboxMessageRow.t) : bool :=
  String.eqb (team_id m) team && String.eqb (to_agent_id m) agent && negb (read m).

Definition addressed_to (team agent : string) (m : MailboxMessageRow.t) : bool :=
  String.eqb (team_id m) team && String.eqb (to_agent_id m) agent.

(** [UPDATE mailbox SET read = 1 WHERE p]. *)
Definition mark_where (p : MailboxMessageRow.t → bool) (rows : list MailboxMessageRow.t) :=
  map (λ m, if p m then set_read m else m) rows.

(** [UPDATE team_tasks SET .. WHERE id = task]. *)
Definition update_where (task : string) (f : TeamTaskRow.t → TeamTaskRow.t)
    (rows : list TeamTaskRow.t) : list TeamTaskRow.t :=
  map (λ r, if String.eqb (TeamTaskRow.id r) task then f r else r) rows.

Definition find_row (p : TeamTaskRow.t → bool) (rows : list TeamTaskRow.t) : option TeamTaskRow.t :=
  List.find p rows.

(** The row after [append_to_blocks]: the JSON array with [b] added once. *)
(* chisl-db/src/repository/sqlite_team.rs:349-353 append_to_blocks (JSON array) *)
Definition row_append_block (now : TimestampMs) (b : string) (r : TeamTaskRow.t) : TeamTaskRow.t :=
  let blocks := default [] (strings_from_str (TeamTaskRow.blocks r)) in
  let blocks := if bool_decide (b ∈ blocks) then blocks else blocks ++ [b] in
  TeamTaskRow.mk (TeamTaskRow.id r) (TeamTaskRow.team_id r) (TeamTaskRow.subject r)
    (TeamTaskRow.description r) (TeamTaskRow.status r) (TeamTaskRow.owner r)
    (TeamTaskRow.blocked_by r) (strings_to_string blocks) (TeamTaskRow.metadata r)
    (TeamTaskRow.created_at r) now.

(** The row after [remove_from_blocked_by]: the JSON array without [b]. *)
(* chisl-db/src/repository/sqlite_team.rs:376-378 remove_from_blocked_by (JSON array) *)
Definition row_remove_blocked_by (now : TimestampMs) (b : string) (r : TeamTaskRow.t) :
    TeamTaskRow.t :=
  let blocked := default [] (strings_from_str (TeamTaskRow.blocked_by r)) in
  let blocked := filter (λ x, x ≠ b) blocked in
  TeamTaskRow.mk (TeamTaskRow.id r) (TeamTaskRow.team_id r) (TeamTaskRow.subject r)
    (TeamTaskRow.description r) (TeamTaskRow.status r) (TeamTaskRow.owner r)
    (strings_to_string blocked) (TeamTaskRow.blocks r) (TeamTaskRow.metadata r)
    (TeamTaskRow.created_at r) now.

(** The row after the [SET] clauses of [update_task]. *)
Definition row_update (now : TimestampMs) (p : UpdateTaskParams.t) (r : TeamTaskRow.t) :
    TeamTaskRow.t :=
  TeamTaskRow.mk (TeamTaskRow.id r) (TeamTaskRow.team_id r) (TeamTaskRow.subject r)
    (match UpdateTaskParams.description p with Some d => Some d | None => TeamTaskRow.description r end)
    (default (TeamTaskRow.status r) (UpdateTaskParams.status p))
    (match UpdateTaskParams.owner p with Some o => Some o | None => TeamTaskRow.owner r end)
    (default (TeamTaskRow.blocked_by r) (UpdateTaskParams.blocked_by p))
    (TeamTaskRow.blocks r)
    (match UpdateTaskParams.metadata p with Some m => Some m | None => TeamTaskRow.metadata r end)
    (TeamTaskRow.created_at r) now.

(** [set_clauses.is_empty()]. *)
Definition no_clauses (p : UpdateTaskParams.t) : bool :=
  match p with UpdateTaskParams.mk None None None None None => true | _ => false end.

Definition mailbox_ids (rows : list MailboxMessageRow.t) : list string := map id rows.
Definition task_ids (rows : list TeamTaskRow.t) : list string := map TeamTaskRow.id rows.
End effects.

(** The CHECK constraints of the schema (migration 001). *)
Definition msg_type_ok (s : string) : bool :=
  bool_decide (s ∈ ["message"; "idle_notification"; "shutdown_request"]).
Definition task_status_ok (s : string) : bool :=
  bool_decide (s ∈ ["pending"; "in_progress"; "completed"; "deleted"]).

(* ------------------------------------------------------------------ *)
(** ** The contract *)

Class TeamRepositorySpec (Db : Type) `{SerdeJson, ITeamRepository Db} := {
  (** well-formed contents: identifiers are primary keys *)
  rs_ok : Db → Prop;
  rs_mailbox : Db → list MailboxMessageRow.t;
  rs_tasks : Db → list TeamTaskRow.t;
  rs_ok_rows db :
    rs_ok db →
    NoDup (mailbox_ids (rs_mailbox db)) ∧ NoDup (task_ids (rs_tasks db)) ∧
    Forall (λ m, msg_type_ok (MailboxMessageRow.msg_type m) = true) (rs_mailbox db);
  write_message_spec row db :
    rs_ok db →
    MailboxMessageRow.id row ∉ mailbox_ids (rs_mailbox db) →
    msg_type_ok (MailboxMessageRow.msg_type row) = true →
    ∃ db', write_message row db = (db', Ok tt) ∧ rs_ok db' ∧
      rs_mailbox db' = rs_mailbox db ++ [row] ∧ rs_tasks db' = rs_tasks db;
  read_unread_and_mark_spec team agent db :
    rs_ok db →
    ∃ db', read_unread_and_mark team agent db =
        (db', Ok (sort_by MailboxMessageRow.created_at
                    (List.filter (unread_for team agent) (rs_mailbox db)))) ∧ rs_ok db' ∧
      rs_mailbox db' = mark_where (unread_for team agent) (rs_mailbox db) ∧
      rs_tasks db' = rs_tasks db;
  peek_unread_spec team agent db :
    peek_unread team agent db =
      (db, Ok (sort_by MailboxMessageRow.created_at
                 (List.filter (unread_for team agent) (rs_mailbox db))));
  mark_read_batch_spec ids db :
    rs_ok db →
    ∃ db', mark_read_batch ids db = (db', Ok tt) ∧ rs_ok db' ∧
      rs_mailbox db' = mark_where (λ m, bool_decide (MailboxMessageRow.id m ∈ ids)) (rs_mailbox db) ∧
      rs_tasks db' = rs_tasks db;
  get_history_spec team agent db :
    get_history team agent None db =
      (db, Ok (sort_by MailboxMessageRow.created_at
                 (List.filter (addressed_to team agent) (rs_mailbox db))));
  create_task_spec row db :
    rs_ok db →
    TeamTaskRow.id row ∉ task_ids (rs_tasks db) →
    task_status_ok (TeamTaskRow.status row) = true →
    ∃ db', create_task row db = (db', Ok tt) ∧ rs_ok db' ∧
      rs_tasks db' = rs_tasks db ++ [row] ∧ rs_mailbox db' = rs_mailbox db;
  find_task_by_id_spec team task db :
    find_task_by_id team task db =
      (db, Ok (find_row (λ r, String.eqb (TeamTaskRow.team_id r) team &&
                              String.eqb (TeamTaskRow.id r) task) (rs_tasks db)));
  update_task_spec now task p db :
    rs_ok db →
    task ∈ task_ids (rs_tasks db) →
    (∀ s, UpdateTaskParams.status p = Some s → task_status_ok s = true) →
    ∃ db', update_task now task p db = (db', Ok tt) ∧ rs_ok db' ∧
      rs_tasks db' = (if no_clauses p then rs_tasks db
                      else update_where task (row_update now p) (rs_tasks db)) ∧
      rs_mailbox db' = rs_mailbox db;
  list_tasks_spec team db :
    list_tasks team db =
      (db, Ok (sort_by TeamTaskRow.created_at
                 (List.filter (λ r, String.eqb (TeamTaskRow.team_id r) team) (rs_tasks db))));
  append_to_blocks_spec now task b db :
    rs_ok db →
    ∃ db', append_to_blocks now task b db =
        (db', if bool_decide (task ∈ task_ids (rs_tasks db)) then Ok tt
              else Err (DbError.NotFound ("task " +:+ task))) ∧ rs_ok db' ∧
      rs_tasks db' = update_where task (row_append_block now b) (rs_tasks db) ∧
      rs_mailbox db' = rs_mailbox db;
  remove_from_blocked_by_spec now task b db :
    rs_ok db →
    ∃ db', remove_from_blocked_by now task b db =
        (db', if bool_decide (task ∈ task_ids (rs_tasks db)) then Ok tt
              else Err (DbError.NotFound ("task " +:+ task))) ∧ rs_ok db' ∧
      rs_tasks db' = update_where task (row_remove_blocked_by now b) (rs_tasks db) ∧
      rs_mailbox db' = rs_mailbox db;
}.

(* ------------------------------------------------------------------ *)
(** ** Clock and identifiers *)

(** [now_ms()] and [generate_id()] read the system clock and a UUID v7 generator.
    The n-th reading of each is given by this class; the only fact used is that
    identifiers do not repeat. *)
Class Ambient := {
  time_at : nat → TimestampMs;
  id_at : nat → string;
  id_at_inj : Inj (=) (=) id_at;
}.
#[export] Existing Instance id_at_inj.

(** What [Mailbox] and [TaskBoard] share: the database and how many readings of
    the clock and of the generator were made. *)
Record Store (Db : Type) := mk_store { st_db : Db; st_ticks : nat; st_ids : nat }.
Arguments mk_store {Db}.
Arguments st_db {Db}.
Arguments st_ticks {Db}.
Arguments st_ids {Db}.

Section store.
Context {Db : Type} `{Ambient}.

Definition now_ms {E} : ST (Store Db) E TimestampMs :=
  λ s, (mk_store (st_db s) (S (st_ticks s)) (st_ids s), Ok (time_at (st_ticks s))).
Definition generate_id {E} : ST (Store Db) E string :=
  λ s, (mk_store (st_db s) (st_ticks s) (S (st_ids s)), Ok (id_at (st_ids s))).

(** A repository call: [self.repo.f(..).await?] with [From<DbError> for TeamError]. *)
Definition repo {A} (m : ST Db DbError.t A) : ST (Store Db) TeamError.t A :=
  st_map_err TeamError.Database
    (st_on st_db (λ db s, mk_store db (st_ticks s) (st_ids s)) m).

(** The store after one reading of the clock, of the generator. *)
Definition tick (s : Store Db) : Store Db := mk_store (st_db s) (S (st_ticks s)) (st_ids s).
Definition bump_id (s : Store Db) : Store Db := mk_store (st_db s) (st_ticks s) (S (st_ids s)).

Lemma now_bind {E A} (f : TimestampMs → ST (Store Db) E A) s :
  st_bind now_ms f s = f (time_at (st_ticks s)) (tick s).
Proof. done. Qed.
Lemma id_bind {E A} (f : string → ST (Store Db) E A) s :
  st_bind generate_id f s = f (id_at (st_ids s)) (bump_id s).
Proof. done. Qed.

Lemma repo_ok {A} (m : ST Db DbError.t A) s db' a :
  m (st_db s) = (db', Ok a) → repo m s = (mk_store db' (st_ticks s) (st_ids s), Ok a).
Proof. intros Hm. unfold repo, st_map_err, st_on. by rewrite Hm. Qed.

Lemma repo_err {A} (m : ST Db DbError.t A) s db' e :
  m (st_db s) = (db', Err e) →
  repo m s = (mk_store db' (st_ticks s) (st_ids s), Err (TeamError.Database e)).
Proof. intros Hm. unfold repo, st_map_err, st_on. by rewrite Hm. Qed.
End store.

(** Concrete readings for examples: the clock advances by one each time, the
    identifiers are unary numerals. *)
Definition unary (n : nat) : string := of_bytes (replicate n 49).
Lemma unary_inj : Inj (=) (=) unary.
Proof.
  intros m n H. apply (f_equal str_len) in H. unfold unary in H.
  rewrite <- !bytes_length, !bytes_of_bytes, !length_replicate in H; [done|..];
    apply Forall_replicate; lia.
Qed.
Definition counting : Ambient :=
  {| time_at := λ n, 1000 + Z.of_nat n; id_at := unary; id_at_inj := unary_inj |}.
