(* ===== verification/TeamRepoSqlite.v ===== *)
(** * TeamRepoSqlite: the SQLite repository

    [SqliteTeamRepository] ([chisl-db/src/repository/sqlite_team.rs]) over three
    tables of the schema, and the proof that it meets [TeamRepositorySpec].  A
    table is the list of its rows in insertion (rowid) order; a statement is the
    list operation its SQL text denotes, with the PRIMARY KEY and CHECK
    constraints of migration 001; rows of equal [ORDER BY] keys keep their
    insertion order.  I/O failures of [sqlx] are not modelled. *)

From S2P Require Import Prelude.
From S2P Require Import Text.
From S2P Require Import Json.
From S2P Require Import TeamTypes.
From S2P Require Import TeamRepo.

Record TeamDb := mk_db {
  tbl_teams : list TeamRow.t;
  tbl_mailbox : list MailboxMessageRow.t;
  tbl_tasks : list TeamTaskRow.t }.

Definition set_teams (l : list TeamRow.t) (db : TeamDb) : TeamDb :=
  mk_db l (tbl_mailbox db) (tbl_tasks db).
Definition set_mailbox (l : list MailboxMessageRow.t) (db : TeamDb) : TeamDb :=
  mk_db (tbl_teams db) l (tbl_tasks db).
Definition set_tasks (l : list TeamTaskRow.t) (db : TeamDb) : TeamDb :=
  mk_db (tbl_teams db) (tbl_mailbox db) l.

Definition team_ids (l : list TeamRow.t) : list string := map TeamRow.id l.

Definition unique_violation (col : string) : DbError.t :=
  DbError.Query ("UNIQUE constraint failed: " +:+ col).
Definition check_violation (tbl : string) : DbError.t :=
  DbError.Query ("CHECK constraint failed: " +:+ tbl).

Module SqliteTeamRepository.
Section ops.
Context `{SerdeJson}.

(* chisl-db/src/repository/sqlite_team.rs:24-43 create_team *)
Definition create_team (row : TeamRow.t) : ST TeamDb DbError.t unit := λ db,
  if bool_decide (TeamRow.id row ∈ team_ids (tbl_teams db))
  then (db, Err (unique_violation "teams.id"))
  else (set_teams (tbl_teams db ++ [row]) db, Ok tt).

(* chisl-db/src/repository/sqlite_team.rs:45-50 list_teams *)
Definition list_teams : ST TeamDb DbError.t (list TeamRow.t) := λ db,
  (db, Ok (sort_by TeamRow.created_at (tbl_teams db))).

(* chisl-db/src/repository/sqlite_team.rs:52-58 get_team *)
Definition get_team (id : string) : ST TeamDb DbError.t (option TeamRow.t) := λ db,
  (db, Ok (List.find (λ r, String.eqb (TeamRow.id r) id) (tbl_teams db))).

(* chisl-db/src/repository/sqlite_team.rs:60-97 update_team *)
Definition update_team (now : TimestampMs) (id : string) (p : UpdateTeamParams.t) :
    ST TeamDb DbError.t unit := λ db,
  match p with
  | UpdateTeamParams.mk None None None => (db, Ok tt)
  | _ =>
      let upd r :=
        TeamRow.mk (TeamRow.id r) (TeamRow.user_id r)
          (default (TeamRow.name r) (UpdateTeamParams.name p)) (TeamRow.workspace r)
          (TeamRow.workspace_mode r) (default (TeamRow.agents r) (UpdateTeamParams.agents p))
          (match UpdateTeamParams.lead_agent_id p with
           | Some l => Some l | None => TeamRow.lead_agent_id r end)
          (TeamRow.session_mode r) (TeamRow.agents_version r) (TeamRow.created_at r) now in
      if bool_decide (id ∈ team_ids (tbl_teams db))
      then (set_teams (map (λ r, if String.eqb (TeamRow.id r) id then upd r else r)
                         (tbl_teams db)) db, Ok tt)
      else (db, Err (DbError.NotFound ("team " +:+ id)))
  end.

(* chisl-db/src/repository/sqlite_team.rs:99-108 delete_team *)
Definition delete_team (id : string) : ST TeamDb DbError.t unit := λ db,
  if bool_decide (id ∈ team_ids (tbl_teams db))
  then (set_teams (List.filter (λ r, negb (String.eqb (TeamRow.id r) id)) (tbl_teams db)) db, Ok tt)
  else (db, Err (DbError.NotFound ("team " +:+ id))).

(* chisl-db/src/repository/sqlite_team.rs:112-131 write_message *)
Definition write_message (row : MailboxMessageRow.t) : ST TeamDb DbError.t unit := λ db,
  if negb (msg_type_ok (MailboxMessageRow.msg_type row))
  then (db, Err (check_violation "mailbox"))
  else if bool_decide (MailboxMessageRow.id row ∈ mailbox_ids (tbl_mailbox db))
  then (db, Err (unique_violation "mailbox.id"))
  else (set_mailbox (tbl_mailbox db ++ [row]) db, Ok tt).

(** [SELECT .. WHERE p ORDER BY created_at ASC]. *)
Definition select_mailbox (p : MailboxMessageRow.t → bool) (db : TeamDb) : list MailboxMessageRow.t :=
  sort_by MailboxMessageRow.created_at (List.filter p (tbl_mailbox db)).

(* chisl-db/src/repository/sqlite_team.rs:133-167 read_unread_and_mark *)
Definition read_unread_and_mark (team to : string) :
    ST TeamDb DbError.t (list MailboxMessageRow.t) := λ db,
  let rows := select_mailbox (unread_for team to) db in
  match rows with
  | [] => (db, Ok [])
  | _ => (set_mailbox (mark_where (unread_for team to) (tbl_mailbox db)) db, Ok rows)
  end.

(* chisl-db/src/repository/sqlite_team.rs:169-182 peek_unread *)
Definition peek_unread (team to : string) : ST TeamDb DbError.t (list MailboxMessageRow.t) := λ db,
  (db, Ok (select_mailbox (unread_for team to) db)).

(** [UPDATE mailbox SET read = 1 WHERE id IN (chunk)]. *)
Definition mark_chunk (chunk : list string) (db : TeamDb) : TeamDb :=
  set_mailbox (mark_where (λ m, bool_decide (MailboxMessageRow.id m ∈ chunk)) (tbl_mailbox db)) db.

(* chisl-db/src/repository/sqlite_team.rs:184-199 mark_read_batch *)
Definition mark_read_batch (ids : list string) : ST TeamDb DbError.t unit :=
  match ids with
  | [] => st_ret tt
  | _ => st_iter (λ chunk, st_modify (mark_chunk chunk)) (chunks 500 ids)
  end.

(** [LIMIT n]: a negative bound is no bound. *)
Definition sql_limit {A} (n : Z) (l : list A) : list A :=
  if n <? 0 then l else take (Z.to_nat n) l.

(* chisl-db/src/repository/sqlite_team.rs:201-235 get_history *)
Definition get_history (team to : string) (limit : option Z) :
    ST TeamDb DbError.t (list MailboxMessageRow.t) := λ db,
  let rows := select_mailbox (addressed_to team to) db in
  (db, Ok (match limit with Some n => sql_limit n rows | None => rows end)).

(* chisl-db/src/repository/sqlite_team.rs:237-243 delete_mailbox_by_team *)
Definition delete_mailbox_by_team (team : string) : ST TeamDb DbError.t unit := λ db,
  (set_mailbox (List.filter (λ m, negb (String.eqb (MailboxMessageRow.team_id m) team))
                  (tbl_mailbox db)) db, Ok tt).

(* chisl-db/src/repository/sqlite_team.rs:247-268 create_task *)
Definition create_task (row : TeamTaskRow.t) : ST TeamDb DbError.t unit := λ db,
  if negb (task_status_ok (TeamTaskRow.status row))
  then (db, Err (check_violation "team_tasks"))
  else if bool_decide (TeamTaskRow.id row ∈ task_ids (tbl_tasks db))
  then (db, Err (unique_violation "team_tasks.id"))
  else (set_tasks (tbl_tasks db ++ [row]) db, Ok tt).

(* chisl-db/src/repository/sqlite_team.rs:270-277 find_task_by_id *)
Definition find_task_by_id (team task : string) : ST TeamDb DbError.t (option TeamTaskRow.t) := λ db,
  (db, Ok (find_row (λ r, String.eqb (TeamTaskRow.team_id r) team &&
                          String.eqb (TeamTaskRow.id r) task) (tbl_tasks db))).

(* chisl-db/src/repository/sqlite_team.rs:279-328 update_task *)
Definition update_task (now : TimestampMs) (task : string) (p : UpdateTaskParams.t) :
    ST TeamDb DbError.t unit := λ db,
  if no_clauses p then (db, Ok tt)
  else if negb (bool_decide (task ∈ task_ids (tbl_tasks db)))
  then (db, Err (DbError.NotFound ("task " +:+ task)))
  else if negb (match UpdateTaskParams.status p with Some s => task_status_ok s | None => true end)
  then (db, Err (check_violation "team_tasks"))
  else (set_tasks (update_where task (row_update now p) (tbl_tasks db)) db, Ok tt).

(* chisl-db/src/repository/sqlite_team.rs:330-337 list_tasks *)
Definition list_tasks (team : string) : ST TeamDb DbError.t (list TeamTaskRow.t) := λ db,
  (db, Ok (sort_by TeamTaskRow.created_at
             (List.filter (λ r, String.eqb (TeamTaskRow.team_id r) team) (tbl_tasks db)))).

(** [SELECT * FROM team_tasks WHERE id = ?]. *)
Definition fetch_task (task : string) (db : TeamDb) : option TeamTaskRow.t :=
  find_row (λ r, String.eqb (TeamTaskRow.id r) task) (tbl_tasks db).

(* chisl-db/src/repository/sqlite_team.rs:339-364 append_to_blocks *)
Definition append_to_blocks (now : TimestampMs) (task blocked : string) :
    ST TeamDb DbError.t unit := λ db,
  match fetch_task task db with
  | None => (db, Err (DbError.NotFound ("task " +:+ task)))
  | Some row =>
      let new_blocks := TeamTaskRow.blocks (row_append_block now blocked row) in
      let upd r := TeamTaskRow.mk (TeamTaskRow.id r) (TeamTaskRow.team_id r)
        (TeamTaskRow.subject r) (TeamTaskRow.description r) (TeamTaskRow.status r)
        (TeamTaskRow.owner r) (TeamTaskRow.blocked_by r) new_blocks (TeamTaskRow.metadata r)
        (TeamTaskRow.created_at r) now in
      (set_tasks (update_where task upd (tbl_tasks db)) db, Ok tt)
  end.

(* chisl-db/src/repository/sqlite_team.rs:366-389 remove_from_blocked_by *)
Definition remove_from_blocked_by (now : TimestampMs) (task unblocked : string) :
    ST TeamDb DbError.t unit := λ db,
  match fetch_task task db with
  | None => (db, Err (DbError.NotFound ("task " +:+ task)))
  | Some row =>
      let new_blocked_by := TeamTaskRow.blocked_by (row_remove_blocked_by now unblocked row) in
      let upd r := TeamTaskRow.mk (TeamTaskRow.id r) (TeamTaskRow.team_id r)
        (TeamTaskRow.subject r) (TeamTaskRow.description r) (TeamTaskRow.status r)
        (TeamTaskRow.owner r) new_blocked_by (TeamTaskRow.blocks r) (TeamTaskRow.metadata r)
        (TeamTaskRow.created_at r) now in
      (set_tasks (update_where task upd (tbl_tasks db)) db, Ok tt)
  end.

(* chisl-db/src/repository/sqlite_team.rs:391-397 delete_tasks_by_team *)
Definition delete_tasks_by_team (team : string) : ST TeamDb DbError.t unit := λ db,
  (set_tasks (List.filter (λ r, negb (String.eqb (TeamTaskRow.team_id r) team))
                (tbl_tasks db)) db, Ok tt).

(* chisl-db/src/repository/sqlite_team.rs:20-22 impl ITeamRepository for SqliteTeamRepository *)
#[export] Instance sqlite_team_repository : ITeamRepository TeamDb := {|
  TeamRepo.create_team := create_team; TeamRepo.list_teams := list_teams;
  TeamRepo.get_team := get_team; TeamRepo.update_team := update_team;
  TeamRepo.delete_team := delete_team; TeamRepo.write_message := write_message;
  TeamRepo.read_unread_and_mark := read_unread_and_mark;
  TeamRepo.peek_unread := peek_unread; TeamRepo.mark_read_batch := mark_read_batch;
  TeamRepo.get_history := get_history;
  TeamRepo.delete_mailbox_by_team := delete_mailbox_by_team;
  TeamRepo.create_task := create_task; TeamRepo.find_task_by_id := find_task_by_id;
  TeamRepo.update_task := update_task; TeamRepo.list_tasks := list_tasks;
  TeamRepo.append_to_blocks := append_to_blocks;
  TeamRepo.remove_from_blocked_by := remove_from_blocked_by;
  TeamRepo.delete_tasks_by_team := delete_tasks_by_team |}.
End ops.

(* ------------------------------------------------------------------ *)
(** ** The contract holds *)

Section laws.
Context `{SerdeJson}.
Local Abbreviation mid := MailboxMessageRow.id.
Local Abbreviation tid := TeamTaskRow.id.

Definition db_ok (db : TeamDb) : Prop :=
  NoDup (mailbox_ids (tbl_mailbox db)) ∧ NoDup (task_ids (tbl_tasks db)) ∧
  Forall (λ m, msg_type_ok (MailboxMessageRow.msg_type m) = true) (tbl_mailbox db).

Lemma types_mark p l :
  Forall (λ m, msg_type_ok (MailboxMessageRow.msg_type m) = true) l →
  Forall (λ m, msg_type_ok (MailboxMessageRow.msg_type m) = true) (mark_where p l).
Proof.
  intros Hl. unfold mark_where. apply Forall_map. eapply Forall_impl; [exact Hl|].
  intros m Hm. simpl. by case_match.
Qed.

Lemma mailbox_ids_mark p l : mailbox_ids (mark_where p l) = mailbox_ids l.
Proof.
  unfold mailbox_ids, mark_where. rewrite map_map. apply map_ext. intros m. by case_match.
Qed.

Lemma task_ids_update task f l :
  (∀ r, tid (f r) = tid r) → task_ids (update_where task f l) = task_ids l.
Proof.
  intros Hf. unfold task_ids, update_where. rewrite map_map. apply map_ext.
  intros r. by case_match.
Qed.

Lemma mark_where_none p l : List.filter p l = [] → mark_where p l = l.
Proof.
  induction l as [|m l IH]; simpl; [done|]. case_match; [done|]. intros. by rewrite IH.
Qed.

Lemma mark_nil l : mark_where (λ m, bool_decide (mid m ∈ [])) l = l.
Proof. induction l as [|m l IH]; simpl; [done|]. f_equal. apply IH. Qed.

Lemma mark_where_compose p q l :
  (∀ m, q (MailboxMessageRow.set_read m) = q m) →
  mark_where q (mark_where p l) = mark_where (λ m, p m || q m) l.
Proof.
  intros Hq. unfold mark_where. rewrite map_map. apply map_ext. intros m.
  destruct (p m); simpl; [|done]. rewrite Hq. by destruct (q m).
Qed.

Lemma mark_chunks cs db :
  st_iter (E:=DbError.t) (λ c, st_modify (mark_chunk c)) cs db = (mark_chunk (concat cs) db, Ok tt).
Proof.
  revert db. induction cs as [|c cs IH]; intros db; simpl.
  - unfold st_ret, mark_chunk.
    by destruct db as [ts ms ks]; simpl; rewrite mark_nil.
  - unfold st_bind, st_modify. rewrite IH. f_equal. unfold mark_chunk. destruct db; simpl.
    unfold set_mailbox; simpl. rewrite mark_where_compose by done. f_equal.
    unfold mark_where. apply map_ext. intros m.
    assert (bool_decide (mid m ∈ c) || bool_decide (mid m ∈ concat cs)
            = bool_decide (mid m ∈ c ++ concat cs)) as ->; [|done].
    apply Bool.eq_true_iff_eq. by rewrite orb_true_iff, !bool_decide_eq_true, elem_of_app.
Qed.

(** The row an UPDATE by primary key changes is the one the SELECT returned. *)
Lemma update_fetched task row f g l :
  NoDup (task_ids l) →
  find_row (λ r, String.eqb (tid r) task) l = Some row → f row = g row →
  update_where task f l = update_where task g l.
Proof.
  unfold find_row, task_ids. induction l as [|r l IH]; simpl; intros Hnd Hf Heq; [done|].
  inversion Hnd as [|? ? Hr Hl]; subst. destruct (String.eqb_spec (tid r) task) as [E0|Hne].
  - simplify_eq. f_equal; [done|]. apply map_ext_in. intros r' Hr'.
    destruct (String.eqb_spec (tid r') (tid row)) as [E|]; [|done].
    exfalso. apply Hr. rewrite <- E. apply list_elem_of_In. by apply in_map.
  - f_equal. auto.
Qed.

Lemma fetch_task_Some task db row :
  fetch_task task db = Some row → task ∈ task_ids (tbl_tasks db).
Proof.
  intros Hf. apply List.find_some in Hf as [Hin Heq]. apply String.eqb_eq in Heq as <-.
  apply list_elem_of_In. by apply in_map.
Qed.

Lemma fetch_task_None task db :
  fetch_task task db = None → task ∉ task_ids (tbl_tasks db).
Proof.
  intros Hf Hin. apply list_elem_of_In, in_map_iff in Hin as (r & <- & Hin).
  pose proof (List.find_none _ _ Hf r Hin) as E. simpl in E. by rewrite String.eqb_refl in E.
Qed.

Lemma update_where_absent task f l : task ∉ task_ids l → update_where task f l = l.
Proof.
  intros Hn. unfold update_where. rewrite <- (map_id l) at 2. apply map_ext_in. intros r Hr.
  destruct (String.eqb_spec (tid r) task) as [<-|]; [|done].
  exfalso. apply Hn. apply list_elem_of_In. by apply in_map.
Qed.

Ltac db_solve :=
  repeat match goal with
  | |- ∃ _, _ => eexists
  | |- _ ∧ _ => split
  end; try done; simpl;
  try solve [unfold db_ok; simpl; rewrite ?mailbox_ids_mark, ?task_ids_update by done;
             split_and!; auto using types_mark].

#[export] Instance sqlite_team_repository_spec : TeamRepositorySpec TeamDb.
Proof.
  refine {| rs_ok := db_ok; rs_mailbox := tbl_mailbox; rs_tasks := tbl_tasks |}; simpl.
  - done.
  - intros row db (Hm & Ht & Hty) Hid Hrow. unfold write_message. rewrite Hrow, bool_decide_eq_false_2 by done.
    simpl. db_solve. unfold db_ok; simpl. split_and!; [|done|].
    + unfold mailbox_ids in *; simpl.
      rewrite map_app. apply NoDup_app. split; [done|]. split; [|apply NoDup_singleton].
      simpl. set_solver.
    + apply Forall_app. auto.
  - intros team agent db (Hm & Ht & Hty). unfold read_unread_and_mark, select_mailbox.
    destruct (sort_by _ _) eqn:E; [|by db_solve].
    rewrite sort_by_nil_iff in E. exists db. db_solve. by rewrite mark_where_none.
  - done.
  - intros ids db (Hm & Ht & Hty). exists (mark_chunk ids db).
    split; [|db_solve]. unfold mark_read_batch. destruct ids as [|x ids].
    + unfold st_ret, mark_chunk. by destruct db; simpl; rewrite mark_nil.
    + by rewrite mark_chunks, concat_chunks by lia.
  - done.
  - intros row db (Hm & Ht & Hty) Hid Hst. unfold create_task. rewrite Hst, bool_decide_eq_false_2 by done.
    simpl. db_solve. unfold db_ok; simpl. split_and!; [done| |done]. unfold task_ids in *; simpl.
    rewrite map_app. apply NoDup_app. split; [done|]. split; [|apply NoDup_singleton].
    simpl. set_solver.
  - done.
  - intros now task p db (Hm & Ht & Hty) Hin Hst. unfold update_task.
    destruct (no_clauses p); [by db_solve|]. rewrite bool_decide_eq_true_2 by done. simpl.
    destruct (UpdateTaskParams.status p) as [s|]; [rewrite (Hst s eq_refl)|]; simpl; db_solve.
  - done.
  - intros now task b db (Hm & Ht & Hty). unfold append_to_blocks.
    destruct (fetch_task task db) as [row|] eqn:E.
    + rewrite bool_decide_eq_true_2 by (by eapply fetch_task_Some). db_solve.
      by eapply update_fetched.
    + apply fetch_task_None in E. rewrite bool_decide_eq_false_2 by done. exists db.
      db_solve. by rewrite update_where_absent.
  - intros now task b db (Hm & Ht & Hty). unfold remove_from_blocked_by.
    destruct (fetch_task task db) as [row|] eqn:E.
    + rewrite bool_decide_eq_true_2 by (by eapply fetch_task_Some). db_solve.
      by eapply update_fetched.
    + apply fetch_task_None in E. rewrite bool_decide_eq_false_2 by done. exists db.
      db_solve. by rewrite update_where_absent.
Defined.
End laws.
End SqliteTeamRepository.
#[export] Existing Instances SqliteTeamRepository.sqlite_team_repository
  SqliteTeamRepository.sqlite_team_repository_spec.
