(* ===== verification/TeamMailbox.v ===== *)
(** * TeamMailbox: the mailbox of a team

    [Mailbox] ([chisl-team/src/mailbox.rs]) over any repository, proved against
    [TeamRepositorySpec]: what a write delivers, that reading drains an inbox
    exactly once, and that the two-phase drain of the event loop (peek, run the
    turn, mark as read) loses no message written in between. *)

From S2P Require Import Prelude.
From S2P Require Import Text.
From S2P Require Import Json.
From S2P Require Import TeamTypes.
From S2P Require Import TeamRepo.
From S2P Require Import TeamRepoSqlite.

Module Mailbox.
Section ops.
Context {Db : Type} {SJ : SerdeJson} {TR : ITeamRepository Db} {AM : Ambient}.

(** [rows.iter().filter_map(MailboxMessage::from_row).collect()]. *)
Definition from_rows (rows : list MailboxMessageRow.t) : list MailboxMessage.t :=
  omap MailboxMessage.from_row rows.

(* chisl-team/src/mailbox.rs:34-72 Mailbox::write_with_files *)
Definition write_with_files (team_id to_agent_id from_agent_id : string)
    (msg_type : MailboxMessageType.t) (content : string) (summary : option string)
    (files : option (list string)) : ST (Store Db) TeamError.t MailboxMessage.t :=
  let files_json :=
    match files with
    | Some [] | None => None
    | Some f => Some (strings_to_string f)
    end in
  let! id := generate_id in
  let! now := now_ms in
  let row := MailboxMessageRow.mk id team_id to_agent_id from_agent_id
    (MailboxMessageType.to_string msg_type) content summary files_json false now in
  do! repo (write_message row) in
  st_lift (ok_or (MailboxMessage.from_row row)
    (TeamError.InvalidRequest
       ("invalid message type: " +:+ MailboxMessageType.to_string msg_type))).

(* chisl-team/src/mailbox.rs:20-31 Mailbox::write *)
Definition write (team_id to_agent_id from_agent_id : string)
    (msg_type : MailboxMessageType.t) (content : string) (summary : option string) :
    ST (Store Db) TeamError.t MailboxMessage.t :=
  write_with_files team_id to_agent_id from_agent_id msg_type content summary None.

(* chisl-team/src/mailbox.rs:74-81 Mailbox::read_unread *)
Definition read_unread (team_id agent_id : string) :
    ST (Store Db) TeamError.t (list MailboxMessage.t) :=
  let! rows := repo (read_unread_and_mark team_id agent_id) in
  st_ret (from_rows rows).

(* chisl-team/src/mailbox.rs:85-90 Mailbox::peek_unread *)
Definition peek_unread (team_id agent_id : string) :
    ST (Store Db) TeamError.t (list MailboxMessage.t) :=
  let! rows := repo (TeamRepo.peek_unread team_id agent_id) in
  st_ret (from_rows rows).

(* chisl-team/src/mailbox.rs:93-96 Mailbox::mark_read_batch *)
Definition mark_read_batch (ids : list string) : ST (Store Db) TeamError.t unit :=
  do! repo (TeamRepo.mark_read_batch ids) in
  st_ret tt.

(* chisl-team/src/mailbox.rs:98-107 Mailbox::get_history *)
Definition get_history (team_id agent_id : string) (limit : option Z) :
    ST (Store Db) TeamError.t (list MailboxMessage.t) :=
  let! rows := repo (TeamRepo.get_history team_id agent_id limit) in
  st_ret (from_rows rows).

(* chisl-team/src/mailbox.rs:109-112 Mailbox::has_unread *)
Definition has_unread (team_id agent_id : string) : ST (Store Db) TeamError.t bool :=
  let! rows := repo (TeamRepo.get_history team_id agent_id None) in
  st_ret (existsb (λ r, negb (MailboxMessageRow.read r)) rows).

(* chisl-team/src/mailbox.rs:114-118 Mailbox::delete_by_team *)
Definition delete_by_team (team_id : string) : ST (Store Db) TeamError.t unit :=
  do! repo (delete_mailbox_by_team team_id) in
  st_ret tt.
End ops.

(* ------------------------------------------------------------------ *)
(** ** Lemmas *)

Section facts.
Context {Db : Type} {SJ : SerdeJson} {TR : ITeamRepository Db} {TS : TeamRepositorySpec Db} {AM : Ambient}.
Implicit Types s : Store Db.
Import MailboxMessageRow.

(** The store is well formed and the identifiers still to be generated are new. *)
Definition store_ok s : Prop :=
  rs_ok (st_db s) ∧
  (∀ n, (st_ids s ≤ n)%nat →
    id_at n ∉ mailbox_ids (rs_mailbox (st_db s)) ∧ id_at n ∉ task_ids (rs_tasks (st_db s))).

Definition unread_rows (team agent : string) s : list MailboxMessageRow.t :=
  sort_by created_at (List.filter (unread_for team agent) (rs_mailbox (st_db s))).

(** The unread messages of an inbox, oldest first. *)
Definition inbox (team agent : string) s : list MailboxMessage.t :=
  from_rows (unread_rows team agent s).

Lemma peek_unread_eq team agent s : peek_unread team agent s = (s, Ok (inbox team agent s)).
Proof.
  unfold peek_unread. erewrite st_bind_ok; [done|].
  erewrite repo_ok by apply peek_unread_spec. by destruct s.
Qed.

(** The row [write_with_files] inserts and the message it returns. *)
Definition new_row s team to from ty content summary (files : option (list string)) :=
  MailboxMessageRow.mk (id_at (st_ids s)) team to from (MailboxMessageType.to_string ty)
    content summary (match files with Some [] | None => None | Some f => Some (strings_to_string f) end)
    false (time_at (st_ticks s)).

Definition new_message s team to from ty content summary (files : option (list string)) :=
  MailboxMessage.mk (id_at (st_ids s)) team to from ty content summary
    (match files with Some [] | None => None | Some f => Some f end)
    false (time_at (st_ticks s)).

Lemma from_new_row s team to from ty content summary files :
  MailboxMessage.from_row (new_row s team to from ty content summary files) =
  Some (new_message s team to from ty content summary files).
Proof.
  unfold MailboxMessage.from_row, new_row, new_message; simpl.
  rewrite msg_type_parse_to_string; simpl. destruct files as [[|f fs]|]; simpl; try done.
  by rewrite strings_roundtrip.
Qed.

Lemma msg_type_ok_to_string ty : msg_type_ok (MailboxMessageType.to_string ty) = true.
Proof. by destruct ty. Qed.

Lemma write_with_files_eq s team to from ty content summary files :
  store_ok s →
  ∃ db', write_with_files team to from ty content summary files s =
      (mk_store db' (S (st_ticks s)) (S (st_ids s)),
       Ok (new_message s team to from ty content summary files)) ∧
    rs_ok db' ∧
    rs_mailbox db' = rs_mailbox (st_db s) ++ [new_row s team to from ty content summary files] ∧
    rs_tasks db' = rs_tasks (st_db s).
Proof.
  intros [Hok Hfresh].
  destruct (write_message_spec (new_row s team to from ty content summary files) (st_db s))
    as (db' & Hw & Hok' & Hmb & Htk); [done|by apply Hfresh|apply msg_type_ok_to_string|].
  exists db'. split; [|done]. unfold write_with_files, generate_id, now_ms.
  cbn [st_bind st_ids st_db st_ticks]. fold (new_row s team to from ty content summary files).
  erewrite st_bind_ok; [|by erewrite repo_ok].
  unfold st_lift. cbn [st_ticks st_ids]. by rewrite from_new_row.
Qed.

Lemma write_store_ok s s' team to from ty content summary files r :
  store_ok s → write_with_files team to from ty content summary files s = (s', r) → store_ok s'.
Proof.
  intros Hs Hw. destruct (write_with_files_eq s team to from ty content summary files Hs)
    as (db' & Hw' & Hok & Hmb & Htk). rewrite Hw in Hw'. simplify_eq.
  destruct Hs as [_ Hfresh]. split; [done|]. intros n Hn. cbn [st_db st_ids] in *.
  rewrite Hmb, Htk. destruct (Hfresh n) as [H1 H2]; [lia|]. split; [|done].
  unfold mailbox_ids in *. rewrite map_app, elem_of_app. intros [Hin|Hin]; [done|].
  apply list_elem_of_singleton in Hin. simpl in Hin. apply id_at_inj in Hin. lia.
Qed.

Lemma unread_for_read team agent m : read m = true → unread_for team agent m = false.
Proof. unfold unread_for. intros ->. apply andb_false_r. Qed.

Lemma filter_unread_mark team agent p l :
  List.filter (unread_for team agent) (mark_where p l) =
  List.filter (λ m, unread_for team agent m && negb (p m)) l.
Proof.
  induction l as [|m l IH]; simpl; [done|]. destruct (p m); simpl.
  - rewrite unread_for_read by done. rewrite andb_false_r. apply IH.
  - rewrite andb_true_r, IH. done.
Qed.

Lemma unread_for_exclusive team agent team' agent' m :
  (team, agent) ≠ (team', agent') →
  unread_for team agent m = true → unread_for team' agent' m = false.
Proof.
  unfold unread_for. intros Hne Hu.
  destruct (String.eqb_spec (team_id m) team'), (String.eqb_spec (to_agent_id m) agent'); try done.
  destruct (String.eqb_spec (team_id m) team), (String.eqb_spec (to_agent_id m) agent); try done.
  subst. by destruct Hne.
Qed.

Lemma filter_ext_list {A} (p q : A → bool) l :
  (∀ x, x ∈ l → p x = q x) → List.filter p l = List.filter q l.
Proof.
  intros Heq. induction l as [|x l IH]; simpl; [done|].
  rewrite Heq by set_solver. rewrite IH by set_solver. done.
Qed.

Lemma filter_app_list {A} (p : A → bool) l l' :
  List.filter p (l ++ l') = List.filter p l ++ List.filter p l'.
Proof. apply List.filter_app. Qed.

Lemma filter_filter {A} (p q : A → bool) l :
  List.filter p (List.filter q l) = List.filter (λ x, p x && q x) l.
Proof.
  induction l as [|x l IH]; simpl; [done|]. destruct (q x); simpl; [|by rewrite andb_false_r].
  rewrite andb_true_r, IH. done.
Qed.

(** A sequence of mailbox writes by any agents, with the messages they returned. *)
Inductive writes : Store Db → Store Db → list MailboxMessage.t → Prop :=
| writes_nil s : writes s s []
| writes_cons s s1 s2 team to from ty content summary files m ms :
    write_with_files team to from ty content summary files s = (s1, Ok m) →
    writes s1 s2 ms → writes s s2 (m :: ms).

(** The rows a sequence of writes appends: unread, with new identifiers. *)
Lemma writes_rows s s' ms :
  writes s s' ms → store_ok s →
  store_ok s' ∧ ∃ rows,
    rs_mailbox (st_db s') = rs_mailbox (st_db s) ++ rows ∧
    omap MailboxMessage.from_row rows = ms ∧
    Forall2 (λ r m, MailboxMessage.from_row r = Some m) rows ms ∧
    Forall (λ r, id r ∉ mailbox_ids (rs_mailbox (st_db s))) rows.
Proof.
  induction 1 as [s|s s1 s2 team to from ty content summary files m ms Hw _ IH]; intros Hs.
  - split; [done|]. exists []. rewrite app_nil_r. auto.
  - pose proof (write_store_ok _ _ _ _ _ _ _ _ _ _ Hs Hw) as Hs1.
    destruct (IH Hs1) as (Hs2 & rows & Hrows & Hms & Hf2 & Hnew). split; [done|].
    destruct (write_with_files_eq s team to from ty content summary files Hs)
      as (db' & Hw' & Hok & Hmb & Htk). rewrite Hw in Hw'. simplify_eq. cbn [st_db] in *.
    exists (new_row s team to from ty content summary files :: rows).
    rewrite Hrows, Hmb, <- app_assoc. pose proof (from_new_row s team to from ty content summary files).
    split; [done|]. split; [|split].
    + simpl. by rewrite from_new_row.
    + by constructor.
    + constructor; [by apply Hs|]. eapply Forall_impl; [exact Hnew|]. simpl. intros r Hr.
      rewrite Hmb in Hr. unfold mailbox_ids in *. rewrite map_app in Hr. set_solver.
Qed.

(** Every stored row converts to a message. *)
Lemma rows_parse s :
  rs_ok (st_db s) →
  Forall (λ r, is_Some (MailboxMessage.from_row r)) (rs_mailbox (st_db s)).
Proof.
  intros (_ & _ & Hty)%rs_ok_rows. eapply Forall_impl; [exact Hty|]. simpl. intros r Hr.
  unfold msg_type_ok in Hr. apply bool_decide_eq_true in Hr. unfold MailboxMessage.from_row.
  assert (is_Some (MailboxMessageType.parse (msg_type r))) as [ty ->]; [|by eexists].
  rewrite !elem_of_cons, elem_of_nil in Hr. destruct Hr as [->|[->|[->|[]]]]; by eexists.
Qed.

Lemma from_row_key r m :
  MailboxMessage.from_row r = Some m →
  MailboxMessage.created_at m = created_at r ∧ MailboxMessage.id m = id r ∧
  MailboxMessage.team_id m = team_id r ∧ MailboxMessage.to_agent_id m = to_agent_id r ∧
  MailboxMessage.read m = read r.
Proof. unfold MailboxMessage.from_row. intros Hr. by simplify_option_eq. Qed.

Lemma from_rows_cons r rows m :
  MailboxMessage.from_row r = Some m → from_rows (r :: rows) = m :: from_rows rows.
Proof. intros Hm. unfold from_rows. simpl. by rewrite Hm. Qed.

Lemma from_rows_ids rows :
  Forall (λ r, is_Some (MailboxMessage.from_row r)) rows →
  map MailboxMessage.id (from_rows rows) = map id rows.
Proof.
  induction 1 as [|r rows [m Hm] _ IH]; [done|]. rewrite (from_rows_cons _ _ _ Hm).
  cbn [map]. rewrite IH. f_equal. by apply from_row_key in Hm as (_ & ? & _).
Qed.

(** Converting sorted rows is sorting the converted rows. *)
Lemma from_rows_sort rows ms :
  Forall2 (λ r m, MailboxMessage.from_row r = Some m) rows ms →
  from_rows (sort_by created_at rows) = sort_by MailboxMessage.created_at ms.
Proof.
  intros Hf. assert (Forall2 (λ r m, MailboxMessage.from_row r = Some m)
    (sort_by created_at rows) (sort_by MailboxMessage.created_at ms)) as Hs.
  { induction Hf as [|r m rows ms Hr Hf IH]; simpl; [constructor|].
    clear Hf. revert IH. generalize (sort_by created_at rows) (sort_by MailboxMessage.created_at ms).
    intros l l'. pose proof (from_row_key _ _ Hr) as [Hk _].
    induction 1 as [|r1 m1 l l' Hr1 Hl IH]; simpl; [by repeat constructor|].
    pose proof (from_row_key _ _ Hr1) as [Hk1 _]. rewrite Hk, Hk1.
    case_match; repeat constructor; auto. }
  induction Hs as [|r m l l' Hr _ IH]; [done|]. by rewrite (from_rows_cons _ _ _ Hr), IH.
Qed.

Lemma Forall2_filter_from_row p q rows ms :
  Forall2 (λ r m, MailboxMessage.from_row r = Some m) rows ms →
  (∀ r m, MailboxMessage.from_row r = Some m → p r = q m) →
  Forall2 (λ r m, MailboxMessage.from_row r = Some m) (List.filter p rows) (List.filter q ms).
Proof.
  intros Hf Hpq. induction Hf as [|r m rows ms Hr _ IH]; simpl; [constructor|].
  rewrite (Hpq _ _ Hr). case_match; [by constructor|done].
Qed.

(** Marking the unread rows of an inbox by the ids a peek returned is marking
    exactly the rows that were unread then. *)
Lemma mark_peeked_rows team agent s rows :
  rs_ok (st_db s) →
  Forall (λ r, id r ∉ mailbox_ids (rs_mailbox (st_db s))) rows →
  mark_where (λ m, bool_decide (id m ∈ map MailboxMessage.id (inbox team agent s)))
    (rs_mailbox (st_db s) ++ rows) =
  mark_where (unread_for team agent) (rs_mailbox (st_db s)) ++ rows.
Proof.
  intros Hok Hnew. pose proof (rs_ok_rows _ Hok) as (Hnd & _ & _).
  assert (map MailboxMessage.id (inbox team agent s) = map id (unread_rows team agent s)) as ->.
  { apply from_rows_ids. unfold unread_rows. rewrite sort_by_perm.
    apply Forall_forall. intros r [Hr _]%elem_of_filter_list.
    by apply (proj1 (Forall_forall _ _) (rows_parse s Hok)). }
  assert (∀ i, i ∈ map id (unread_rows team agent s) ↔
    ∃ r, id r = i ∧ r ∈ rs_mailbox (st_db s) ∧ unread_for team agent r = true) as Hin.
  { intros i. rewrite list_elem_of_In, in_map_iff. unfold unread_rows.
    setoid_rewrite <- list_elem_of_In. setoid_rewrite elem_of_sort_by.
    by setoid_rewrite elem_of_filter_list. }
  unfold mark_where. rewrite map_app. f_equal.
  - apply map_ext_in. intros r Hr%list_elem_of_In.
    destruct (unread_for team agent r) eqn:Hu.
    + rewrite bool_decide_eq_true_2; [done|]. apply Hin. eauto.
    + rewrite bool_decide_eq_false_2; [done|]. intros (r' & Hid & Hr' & Hu')%Hin.
      assert (r' = r) as ->; [|congruence].
      revert Hnd Hr Hr' Hid. clear. unfold mailbox_ids.
      induction (rs_mailbox (st_db s)) as [|x l IH]; [set_solver|]. simpl.
      rewrite NoDup_cons, !elem_of_cons, list_elem_of_In, in_map_iff.
      intros [Hx Hnd] [->|Hr] [->|Hr'] Hid; auto; exfalso; apply Hx; eexists;
        rewrite <- list_elem_of_In; eauto.
  - rewrite <- (map_id rows) at 2. apply map_ext_in. intros r Hr%list_elem_of_In.
    rewrite bool_decide_eq_false_2; [done|]. intros (r' & Hid & Hr' & _)%Hin.
    apply (proj1 (Forall_forall _ _) Hnew r Hr). rewrite <- Hid. apply list_elem_of_In.
    by apply in_map, list_elem_of_In.
Qed.

Lemma mark_read_batch_eq ids s :
  rs_ok (st_db s) →
  ∃ db', mark_read_batch ids s = (mk_store db' (st_ticks s) (st_ids s), Ok tt) ∧ rs_ok db' ∧
    rs_mailbox db' = mark_where (λ m, bool_decide (id m ∈ ids)) (rs_mailbox (st_db s)).
Proof.
  intros Hok. destruct (mark_read_batch_spec ids (st_db s) Hok) as (db' & Hm & Hok' & Hmb & _).
  exists db'. split; [|done]. unfold mark_read_batch. erewrite st_bind_ok; [done|].
  by erewrite repo_ok.
Qed.

(** Marking identifiers as read removes exactly those messages from an inbox. *)
Lemma mark_read_batch_inbox ids s :
  rs_ok (st_db s) →
  ∃ s', mark_read_batch ids s = (s', Ok tt) ∧ (store_ok s → store_ok s') ∧
    ∀ team agent, inbox team agent s' =
      List.filter (λ m, negb (bool_decide (MailboxMessage.id m ∈ ids))) (inbox team agent s).
Proof.
  intros Hok. destruct (mark_read_batch_spec ids (st_db s) Hok) as (db' & Hm & Hok' & Hmb & Htk).
  exists (mk_store db' (st_ticks s) (st_ids s)). split_and!.
  - unfold mark_read_batch. erewrite st_bind_ok; [done|]. by erewrite repo_ok.
  - intros [_ Hids]. split; [done|]. cbn [st_db st_ids]. intros n Hn. rewrite Hmb, Htk.
    assert (∀ p l, mailbox_ids (mark_where p l) = mailbox_ids l) as ->; [|by apply Hids].
    intros p l. unfold mailbox_ids, mark_where. rewrite map_map. apply map_ext. intros m. by case_match.
  - intros team agent. unfold inbox, unread_rows. cbn [st_db]. rewrite Hmb, filter_unread_mark.
    rewrite (filter_ext_list _ (λ r, negb (bool_decide (id r ∈ ids)) && unread_for team agent r) _)
      by (intros; apply andb_comm).
    rewrite <- filter_filter, sort_by_filter.
    induction (sort_by created_at (List.filter (unread_for team agent) (rs_mailbox (st_db s))))
      as [|r l IH]; [done|]. cbn [List.filter].
    destruct (MailboxMessage.from_row r) as [m|] eqn:Hr.
    + destruct (from_row_key _ _ Hr) as (_ & Hid & _). rewrite (from_rows_cons _ _ _ Hr).
      cbn [List.filter]. rewrite Hid. case_match; [by rewrite (from_rows_cons _ _ _ Hr), IH|done].
    + assert (Hskip : ∀ l, from_rows (r :: l) = from_rows l).
      { intros l0. unfold from_rows. simpl. by rewrite Hr. }
      rewrite Hskip, <- IH. case_match; [apply Hskip|done].
Qed.

Lemma filter_mark_other team agent team' agent' l :
  (team', agent') ≠ (team, agent) →
  List.filter (unread_for team' agent') (mark_where (unread_for team agent) l) =
  List.filter (unread_for team' agent') l.
Proof.
  intros Hne. rewrite filter_unread_mark. apply filter_ext_list. intros r _.
  destruct (unread_for team' agent' r) eqn:Hu; simpl; [|done].
  by rewrite (unread_for_exclusive team' agent' team agent).
Qed.

Lemma filter_mark_self team agent l :
  List.filter (unread_for team agent) (mark_where (unread_for team agent) l) = [].
Proof.
  rewrite filter_unread_mark. induction l as [|r l IH]; simpl; [done|].
  by rewrite andb_negb_r.
Qed.

Lemma forallb_read team agent l :
  existsb (λ r, negb (read r)) (List.filter (addressed_to team agent) l) = true ↔
  List.filter (unread_for team agent) l ≠ [].
Proof.
  induction l as [|r l IH]; simpl; [done|]. unfold unread_for, addressed_to in *.
  destruct (String.eqb (team_id r) team && String.eqb (to_agent_id r) agent); simpl; [|done].
  destruct (read r); simpl; done.
Qed.

(* ------------------------------------------------------------------ *)
(** ** Properties *)

(** A write to an agent's mailbox succeeds, returns the message it stored, and
    is the last message the recipient sees unread (when the clock is not behind
    the stored messages), while every other inbox is unchanged. *)
Lemma write_delivers s team to from ty content summary files :
  store_ok s →
  Forall (λ m, created_at m ≤ time_at (st_ticks s)) (rs_mailbox (st_db s)) →
  ∃ s' m, write_with_files team to from ty content summary files s = (s', Ok m) ∧
    m = new_message s team to from ty content summary files ∧ store_ok s' ∧
    peek_unread team to s' = (s', Ok (inbox team to s ++ [m])) ∧
    (∀ team' agent', (team', agent') ≠ (team, to) →
       peek_unread team' agent' s' = (s', Ok (inbox team' agent' s))).
Proof.
  intros Hs Hclock.
  destruct (write_with_files_eq s team to from ty content summary files Hs)
    as (db' & Hw & _ & Hmb & _).
  eexists _, _. split; [exact Hw|]. split; [done|]. split; [by eapply write_store_ok|].
  split.
  - rewrite peek_unread_eq. do 2 f_equal. unfold inbox, unread_rows. cbn [st_db]. rewrite Hmb.
    rewrite filter_app_list. simpl. unfold unread_for at 2. simpl. rewrite !String.eqb_refl. simpl.
    rewrite sort_by_snoc.
    + unfold from_rows. rewrite omap_app. simpl. by rewrite from_new_row.
    + apply Forall_forall. intros r [Hr _]%elem_of_filter_list.
      by apply (proj1 (Forall_forall _ _) Hclock).
  - intros team' agent' Hne. rewrite peek_unread_eq. do 2 f_equal. unfold inbox, unread_rows.
    cbn [st_db]. rewrite Hmb, filter_app_list. simpl. unfold unread_for at 2. simpl.
    destruct (String.eqb_spec team team'), (String.eqb_spec to agent'); simpl;
      rewrite ?app_nil_r; try done. by subst.
Qed.

(** Reading an inbox empties it. *)
Lemma read_unread_total s team agent :
  store_ok s →
  ∃ s', read_unread team agent s = (s', Ok (inbox team agent s)) ∧
    peek_unread team agent s' = (s', Ok []).
Proof.
  intros [Hok _]. destruct (read_unread_and_mark_spec team agent (st_db s) Hok)
    as (db' & Hr & Hok' & Hmb & _).
  exists (mk_store db' (st_ticks s) (st_ids s)). split.
  - unfold read_unread. erewrite st_bind_ok; [done|]. by erewrite repo_ok.
  - rewrite peek_unread_eq. unfold inbox, unread_rows. cbn [st_db].
    by rewrite Hmb, filter_mark_self.
Qed.

(** [has_unread] tells whether the inbox is non-empty. *)
Lemma has_unread_eq s team agent :
  store_ok s →
  has_unread team agent s = (s, Ok (negb (bool_decide (inbox team agent s = [])))).
Proof.
  intros [Hok _].
  unfold has_unread. erewrite st_bind_ok; [|erewrite repo_ok by apply get_history_spec; done].
  unfold st_ret. destruct s as [db ticks ids]; cbn [st_db st_ticks st_ids] in *. do 2 f_equal.
  set (l := List.filter _ _).
  assert (existsb (λ r, negb (read r)) (sort_by created_at l) = existsb (λ r, negb (read r)) l) as ->.
  { apply Bool.eq_true_iff_eq. rewrite !existsb_exists. setoid_rewrite <- list_elem_of_In.
    by setoid_rewrite elem_of_sort_by. }
  apply Bool.eq_true_iff_eq. unfold l. rewrite forallb_read, negb_true_iff, bool_decide_eq_false.
  unfold inbox. cbn [unread_rows st_db].
  pose proof (from_rows_ids (unread_rows team agent (mk_store db ticks ids))) as Hids.
  rewrite <- (sort_by_nil_iff created_at). fold (unread_rows team agent (mk_store db ticks ids)).
  split; intros Hne E; apply Hne.
  - rewrite E in Hids. symmetry in Hids. apply map_eq_nil in Hids; [done|].
    unfold unread_rows. rewrite sort_by_perm. apply Forall_forall.
    intros r [Hr' _]%elem_of_filter_list.
    by apply (proj1 (Forall_forall _ _) (rows_parse (mk_store db ticks ids) Hok)).
  - unfold unread_rows in *. cbn [st_db] in *. by rewrite E.
Qed.

(** [read_unread] returns what a peek would, empties that inbox, leaves every
    other inbox alone, and [has_unread] tells before the read whether there was
    anything. *)
Lemma read_unread_exactly_once s team agent :
  store_ok s →
  ∃ s', read_unread team agent s = (s', Ok (inbox team agent s)) ∧
    peek_unread team agent s' = (s', Ok []) ∧
    (∀ team' agent', (team', agent') ≠ (team, agent) →
       peek_unread team' agent' s' = (s', Ok (inbox team' agent' s))) ∧
    has_unread team agent s = (s, Ok (negb (bool_decide (inbox team agent s = [])))).
Proof.
  intros Hst. pose proof (proj1 Hst) as Hok. destruct (read_unread_and_mark_spec team agent (st_db s) Hok)
    as (db' & Hr & Hok' & Hmb & _).
  exists (mk_store db' (st_ticks s) (st_ids s)). split; [|split; [|split]].
  - unfold read_unread. erewrite st_bind_ok; [done|]. by erewrite repo_ok.
  - rewrite peek_unread_eq. unfold inbox, unread_rows. cbn [st_db].
    by rewrite Hmb, filter_mark_self.
  - intros team' agent' Hne. rewrite peek_unread_eq. unfold inbox, unread_rows. cbn [st_db].
    by rewrite Hmb, filter_mark_other.
  - by apply has_unread_eq.
Qed.

(** C1: the event loop's two-phase drain.  Peek an inbox, let any agents write any
    messages, then mark the peeked messages as read: what is unread afterwards is
    exactly what was written in between, oldest first, and no other inbox is
    affected by the marking. *)
Theorem two_phase_drain_loses_nothing s s1 team agent ms new :
  store_ok s →
  peek_unread team agent s = (s, Ok ms) →
  writes s s1 new →
  ∃ s2, mark_read_batch (map MailboxMessage.id ms) s1 = (s2, Ok tt) ∧
    peek_unread team agent s2 =
      (s2, Ok (sort_by MailboxMessage.created_at
         (List.filter (λ m, String.eqb (MailboxMessage.team_id m) team &&
                            String.eqb (MailboxMessage.to_agent_id m) agent &&
                            negb (MailboxMessage.read m)) new))) ∧
    (∀ team' agent', (team', agent') ≠ (team, agent) →
       peek_unread team' agent' s2 = (s2, Ok (inbox team' agent' s1))).
Proof.
  intros Hs Hpeek Hw. rewrite peek_unread_eq in Hpeek. simplify_eq.
  destruct (writes_rows _ _ _ Hw Hs) as ([Hok1 _] & rows & Hmb1 & _ & Hf & Hnew).
  destruct (mark_read_batch_eq (map MailboxMessage.id (inbox team agent s)) s1 Hok1)
    as (db2 & Hmark & _ & Hmb2).
  rewrite Hmb1 in Hmb2. rewrite mark_peeked_rows in Hmb2 by (done || apply Hs).
  eexists. split; [exact Hmark|]. split.
  - rewrite peek_unread_eq. do 2 f_equal. unfold inbox, unread_rows. cbn [st_db].
    rewrite Hmb2, filter_app_list, filter_mark_self. simpl. apply from_rows_sort.
    apply Forall2_filter_from_row; [done|].
    intros r m (_ & _ & Ht & Ha & Hrd)%from_row_key. unfold unread_for. by rewrite Ht, Ha, Hrd.
  - intros team' agent' Hne. rewrite peek_unread_eq. do 2 f_equal. unfold inbox, unread_rows.
    cbn [st_db]. by rewrite Hmb1, Hmb2, !filter_app_list, filter_mark_other.
Qed.

(** With no write in between, peek followed by marking the peeked messages
    leaves the mailbox in the same contents as the atomic [read_unread]. *)
Lemma peek_then_mark_is_read_unread s team agent :
  store_ok s →
  ∃ sa sb, read_unread team agent s = (sa, Ok (inbox team agent s)) ∧
    mark_read_batch (map MailboxMessage.id (inbox team agent s)) s = (sb, Ok tt) ∧
    rs_mailbox (st_db sa) = rs_mailbox (st_db sb).
Proof.
  intros [Hok _]. destruct (read_unread_and_mark_spec team agent (st_db s) Hok)
    as (dba & Hr & _ & Hmba & _).
  destruct (mark_read_batch_eq (map MailboxMessage.id (inbox team agent s)) s Hok)
    as (dbb & Hmark & _ & Hmbb).
  exists (mk_store dba (st_ticks s) (st_ids s)), (mk_store dbb (st_ticks s) (st_ids s)).
  split; [|split; [done|]].
  - unfold read_unread. erewrite st_bind_ok; [done|]. by erewrite repo_ok.
  - cbn [st_db]. rewrite Hmba, Hmbb.
    pose proof (mark_peeked_rows team agent s [] Hok ltac:(constructor)) as Hm.
    by rewrite !app_nil_r in Hm.
Qed.
End facts.

(* ------------------------------------------------------------------ *)
(** ** Witnesses *)

Section witnesses.
#[local] Existing Instance json_text.
#[local] Existing Instance counting.

Definition empty_store : Store TeamDb := mk_store (mk_db [] [] []) 0 0.

Lemma empty_store_ok : store_ok empty_store.
Proof.
  split; [repeat constructor|]. intros n _. by split; apply not_elem_of_nil.
Qed.

Definition hello_store : Store TeamDb :=
  fst (write "t" "lead" "a" MailboxMessageType.Message "hello" None empty_store).

Lemma hello_store_ok : store_ok hello_store.
Proof.
  eapply (write_store_ok empty_store); [exact empty_store_ok|].
  by apply surjective_pairing.
Qed.

Lemma write_delivers_witness :
  snd (write "t" "lead" "a" MailboxMessageType.Message "again" None hello_store) =
    Ok (new_message hello_store "t" "lead" "a" MailboxMessageType.Message "again" None None).
Proof.
  destruct (write_delivers hello_store "t" "lead" "a" MailboxMessageType.Message "again" None None)
    as (s' & m & Hw & -> & _).
  - exact hello_store_ok.
  - vm_compute. repeat constructor; discriminate.
  - unfold write. by rewrite Hw.
Defined.

Lemma read_unread_exactly_once_witness :
  ∃ s' : Store TeamDb, snd (read_unread "t" "lead" hello_store) = Ok (inbox "t" "lead" hello_store) ∧
    length (inbox "t" "lead" hello_store) = 1%nat ∧ peek_unread "t" "lead" s' = (s', Ok []).
Proof.
  destruct (read_unread_exactly_once hello_store "t" "lead" hello_store_ok)
    as (s' & Hr & Hp & _). exists s'. by rewrite Hr.
Defined.

Lemma two_phase_drain_loses_nothing_witness :
  ∃ s2 : Store TeamDb, ∃ m, peek_unread "t" "lead" s2 = (s2, Ok [m]) ∧ MailboxMessage.content m = "late".
Proof.
  pose (w := write_with_files "t" "lead" "b" MailboxMessageType.Message "late" None None hello_store).
  destruct (two_phase_drain_loses_nothing hello_store (fst w) "t" "lead"
    (inbox "t" "lead" hello_store)
    [new_message hello_store "t" "lead" "b" MailboxMessageType.Message "late" None None])
    as (s2 & _ & Hp & _).
  - exact hello_store_ok.
  - apply peek_unread_eq.
  - apply (writes_cons hello_store (fst w) (fst w) "t" "lead" "b"
      MailboxMessageType.Message "late" None None); [vm_compute; reflexivity|constructor].
  - exists s2. eexists. split; [exact Hp|reflexivity].
Defined.

Lemma peek_then_mark_is_read_unread_witness :
  ∃ sa sb : Store TeamDb, read_unread "t" "lead" hello_store = (sa, Ok (inbox "t" "lead" hello_store)) ∧
    rs_mailbox (st_db sa) = rs_mailbox (st_db sb).
Proof.
  destruct (peek_then_mark_is_read_unread hello_store "t" "lead" hello_store_ok)
    as (sa & sb & Ha & _ & Heq). by exists sa, sb.
Defined.
End witnesses.
End Mailbox.
