(* ===== verification/TeamTaskBoard.v ===== *)
(** * TeamTaskBoard: the task board of a team

    [TaskBoard] ([chisl-team/src/task_board.rs]) over any repository.  The board
    keeps a dependency graph as two JSON arrays per task, [blocked_by] and
    [blocks]; [graph_ok] says that the first is mirrored by the second.  Creating
    a task and completing one keep it, and completing a task unblocks everything
    that waits for it; editing [blocked_by] by hand does not keep it. *)

From S2P Require Import Prelude.
From S2P Require Import Text.
From S2P Require Import Json.
From S2P Require Import TeamTypes.
From S2P Require Import TeamRepo.
From S2P Require Import TeamRepoSqlite.
From S2P Require Import TeamMailbox.

Module TaskUpdate.
(* chisl-team/src/task_board.rs:18-24 TaskUpdate *)
Record t `{SerdeJson} := mk {
  status : option TaskStatus.t; description : option string; owner : option string;
  blocked_by : option (list string); metadata : option Value }.
Arguments mk {_}.
End TaskUpdate.

Module TaskBoard.
Section ops.
Context {Db : Type} {SJ : SerdeJson} {TR : ITeamRepository Db} {AM : Ambient}.

(** The text of the [serde_json::Error] of a row that does not parse. *)
Definition json_error : TeamError.t := TeamError.Json "invalid row".

(* chisl-team/src/task_board.rs:31-73 TaskBoard::create_task *)
Definition create_task (team_id subject : string) (description owner : option string)
    (blocked_by : list string) : ST (Store Db) TeamError.t TeamTask.t :=
  do! st_iter (λ dep_id,
        let! dep := repo (find_task_by_id team_id dep_id) in
        match dep with
        | None => st_fail (TeamError.BlockedTaskNotFound dep_id)
        | Some _ => st_ret tt
        end) blocked_by in
  let! task_id := generate_id in
  let! now := now_ms in
  let row := TeamTaskRow.mk task_id team_id subject description
    (TaskStatus.to_string TaskStatus.Pending) owner (strings_to_string blocked_by) "[]" None now now in
  do! repo (TeamRepo.create_task row) in
  do! st_iter (λ dep_id,
        let! now := now_ms in
        repo (append_to_blocks now dep_id task_id)) blocked_by in
  st_lift (ok_or (TeamTask.from_row row) json_error).

(* chisl-team/src/task_board.rs:113-126 TaskBoard::check_unblocks *)
Definition check_unblocks (completed_task_id : string) (completed_row : TeamTaskRow.t) :
    ST (Store Db) TeamError.t unit :=
  let! blocks := st_lift (ok_or (strings_from_str (TeamTaskRow.blocks completed_row)) json_error) in
  st_iter (λ downstream_id,
    let! now := now_ms in
    repo (remove_from_blocked_by now downstream_id completed_task_id)) blocks.

(* chisl-team/src/task_board.rs:75-105 TaskBoard::update_task *)
Definition update_task (team_id task_id : string) (update : TaskUpdate.t) :
    ST (Store Db) TeamError.t TeamTask.t :=
  let! found := repo (find_task_by_id team_id task_id) in
  let! existing := st_lift (ok_or found (TeamError.TaskNotFound task_id)) in
  let params := UpdateTaskParams.mk (TaskStatus.to_string <$> TaskUpdate.status update)
    (TaskUpdate.description update) (TaskUpdate.owner update)
    (strings_to_string <$> TaskUpdate.blocked_by update)
    (value_to_string <$> TaskUpdate.metadata update) in
  let! now := now_ms in
  do! repo (TeamRepo.update_task now task_id params) in
  do! (if bool_decide (TaskUpdate.status update = Some TaskStatus.Completed)
       then check_unblocks task_id existing else st_ret tt) in
  let! found := repo (find_task_by_id team_id task_id) in
  let! updated := st_lift (ok_or found (TeamError.TaskNotFound task_id)) in
  st_lift (ok_or (TeamTask.from_row updated) json_error).

(* chisl-team/src/task_board.rs:107-111 TaskBoard::list_tasks *)
Definition list_tasks (team_id : string) : ST (Store Db) TeamError.t (list TeamTask.t) :=
  let! rows := repo (TeamRepo.list_tasks team_id) in
  st_ret (omap TeamTask.from_row rows).
End ops.

(* ------------------------------------------------------------------ *)
(** ** The dependency graph *)

Section facts.
Context {Db : Type} {SJ : SerdeJson} {TR : ITeamRepository Db} {TS : TeamRepositorySpec Db} {AM : Ambient}.
Implicit Types s : Store Db.
Implicit Types r : TeamTaskRow.t.
Local Abbreviation tid := TeamTaskRow.id.
Local Abbreviation store_ok := Mailbox.store_ok.

Definition waits_on r : list string := default [] (strings_from_str (TeamTaskRow.blocked_by r)).
Definition releases r : list string := default [] (strings_from_str (TeamTaskRow.blocks r)).

(** The JSON columns of a row parse. *)
Definition parse_ok r : Prop :=
  is_Some (strings_from_str (TeamTaskRow.blocked_by r)) ∧
  is_Some (strings_from_str (TeamTaskRow.blocks r)) ∧
  is_Some (TeamTask.metadata_of (TeamTaskRow.metadata r)).

(** Every dependency is recorded at both ends and names a task of the board. *)
Definition graph_ok (rows : list TeamTaskRow.t) : Prop :=
  Forall parse_ok rows ∧
  (∀ r d, r ∈ rows → d ∈ waits_on r → ∃ r', r' ∈ rows ∧ tid r' = d ∧ tid r ∈ releases r') ∧
  (∀ r b, r ∈ rows → b ∈ releases r → b ∈ task_ids rows).

Definition tasks_of s : list TeamTaskRow.t := rs_tasks (st_db s).

(** Identity, team and status of every row are kept. *)
Definition same_rows (rows rows' : list TeamTaskRow.t) : Prop :=
  Forall2 (λ r r', tid r' = tid r ∧ TeamTaskRow.team_id r' = TeamTaskRow.team_id r ∧
    TeamTaskRow.status r' = TeamTaskRow.status r) rows rows'.

(** How one board relates to the next, row by row: [W] and [R] say how the two
    arrays change. *)
Definition evolves (W R : TeamTaskRow.t → string → Prop → Prop)
    (rows rows' : list TeamTaskRow.t) : Prop :=
  Forall2 (λ r r', tid r' = tid r ∧ (parse_ok r → parse_ok r') ∧
    (∀ x, x ∈ waits_on r' ↔ W r x (x ∈ waits_on r)) ∧
    (∀ x, x ∈ releases r' ↔ R r x (x ∈ releases r))) rows rows'.

Definition keep : TeamTaskRow.t → string → Prop → Prop := λ _ _ P, P.
(** [task] is added to the [blocks] of the rows in [deps]. *)
Definition add_block (deps : list string) (task : string) : TeamTaskRow.t → string → Prop → Prop :=
  λ r x P, P ∨ (tid r ∈ deps ∧ x = task).
(** [task] is taken out of the [blocked_by] of the rows in [targets]. *)
Definition drop_wait (targets : list string) (task : string) :
    TeamTaskRow.t → string → Prop → Prop :=
  λ r x P, P ∧ ¬ (tid r ∈ targets ∧ x = task).
(** [task] is taken out of the [blocked_by] of every row. *)
Definition drop_everywhere (task : string) : TeamTaskRow.t → string → Prop → Prop :=
  λ r x P, P ∧ x ≠ task.

Lemma keep_keep r r' x P : tid r' = tid r → keep r' x (keep r x P) ↔ keep r x P.
Proof. done. Qed.
Lemma keep_ext r x P Q : (P ↔ Q) → keep r x P ↔ keep r x Q.
Proof. done. Qed.
Lemma add_block_cons d deps task r r' x P :
  tid r' = tid r →
  add_block deps task r' x (add_block [d] task r x P) ↔ add_block (d :: deps) task r x P.
Proof. unfold add_block. intros ->. rewrite !elem_of_cons, elem_of_nil. tauto. Qed.
Lemma add_block_ext deps task r x P Q :
  (P ↔ Q) → add_block deps task r x P ↔ add_block deps task r x Q.
Proof. unfold add_block. tauto. Qed.
Lemma drop_wait_cons d deps task r r' x P :
  tid r' = tid r →
  drop_wait deps task r' x (drop_wait [d] task r x P) ↔ drop_wait (d :: deps) task r x P.
Proof. unfold drop_wait. intros ->. rewrite !elem_of_cons, elem_of_nil. tauto. Qed.
Lemma drop_wait_ext deps task r x P Q :
  (P ↔ Q) → drop_wait deps task r x P ↔ drop_wait deps task r x Q.
Proof. unfold drop_wait. tauto. Qed.

Lemma evolves_refl rows : evolves keep keep rows rows.
Proof. unfold evolves. induction rows; constructor; unfold keep; [tauto|done]. Qed.

Lemma evolves_ids W R rows rows' : evolves W R rows rows' → task_ids rows' = task_ids rows.
Proof.
  unfold task_ids. induction 1 as [|r r' rows rows' (Hid & _) _ IH]; simpl; [done|].
  by rewrite IH, Hid.
Qed.

Lemma same_rows_refl rows : same_rows rows rows.
Proof. unfold same_rows. by induction rows; constructor. Qed.

Lemma same_rows_trans rows1 rows2 rows3 :
  same_rows rows1 rows2 → same_rows rows2 rows3 → same_rows rows1 rows3.
Proof.
  intros H1. unfold same_rows in *. revert rows3.
  induction H1 as [|r1 r2 rows1 rows2 (? & ? & ?) _ IH]; intros rows3 H2; inversion H2; subst;
    constructor; [|auto]. destruct_and!. split_and!; congruence.
Qed.

Definition is_task (team task : string) r : bool :=
  String.eqb (TeamTaskRow.team_id r) team && String.eqb (tid r) task.

Lemma same_rows_find team task rows rows' row :
  same_rows rows rows' → find_row (is_task team task) rows = Some row →
  ∃ row', find_row (is_task team task) rows' = Some row' ∧ row' ∈ rows' ∧
    TeamTaskRow.status row' = TeamTaskRow.status row.
Proof.
  unfold find_row, is_task. induction 1 as [|r r' rows rows' (Hid & Ht & Hst) _ IH]; simpl; [done|].
  rewrite Hid, Ht. case_match; intros Hf.
  - simplify_eq. eexists. split_and!; [done|set_solver|done].
  - destruct (IH Hf) as (row' & ? & ? & ?). eexists. split_and!; [done|set_solver|done].
Qed.

Lemma same_rows_update task f rows :
  (∀ r, tid (f r) = tid r ∧ TeamTaskRow.team_id (f r) = TeamTaskRow.team_id r ∧
        TeamTaskRow.status (f r) = TeamTaskRow.status r) →
  same_rows rows (update_where task f rows).
Proof.
  intros Hf. unfold same_rows, update_where.
  induction rows as [|r rows IH]; simpl; constructor; [|done]. by case_match.
Qed.

Lemma Forall2_member {A B} (Q : A → B → Prop) l l' y :
  Forall2 Q l l' → y ∈ l' → ∃ x, x ∈ l ∧ Q x y.
Proof.
  induction 1 as [|x0 y0 l l' H0 _ IH]; [set_solver|]. rewrite elem_of_cons.
  intros [->|Hy]; [set_solver|]. destruct (IH Hy) as (x & ? & ?). set_solver.
Qed.

Lemma Forall2_member_l {A B} (Q : A → B → Prop) l l' x :
  Forall2 Q l l' → x ∈ l → ∃ y, y ∈ l' ∧ Q x y.
Proof.
  induction 1 as [|x0 y0 l l' H0 _ IH]; [set_solver|]. rewrite elem_of_cons.
  intros [->|Hx]; [set_solver|]. destruct (IH Hx) as (y & ? & ?). set_solver.
Qed.

Lemma waits_on_remove now b r :
  (∀ x, x ∈ waits_on (row_remove_blocked_by now b r) ↔ x ∈ waits_on r ∧ x ≠ b) ∧
  releases (row_remove_blocked_by now b r) = releases r.
Proof.
  split; [|done]. intros x. unfold waits_on at 1; simpl. rewrite strings_roundtrip. simpl.
  rewrite list_elem_of_filter. unfold waits_on. tauto.
Qed.

Lemma releases_append now b r :
  (∀ x, x ∈ releases (row_append_block now b r) ↔ x ∈ releases r ∨ x = b) ∧
  waits_on (row_append_block now b r) = waits_on r.
Proof.
  split; [|done]. intros x. unfold releases at 1; simpl. rewrite strings_roundtrip. simpl.
  fold (releases r). case_bool_decide; [set_solver|]. rewrite elem_of_app. set_solver.
Qed.

Lemma evolves_append now dep task rows :
  evolves keep (add_block [dep] task) rows (update_where dep (row_append_block now task) rows).
Proof.
  unfold evolves, update_where. induction rows as [|r rows IH]; simpl; [constructor|].
  constructor; [|done]. unfold keep, add_block.
  destruct (String.eqb_spec (tid r) dep) as [<-|Hne].
  - destruct (releases_append now task r) as [Hr Hw]. rewrite Hw. split_and!; try done.
    + intros (? & ? & ?). unfold parse_ok. split_and!; simpl; [done|by rewrite strings_roundtrip; eexists|done].
    + intros x. rewrite Hr. set_solver.
  - split_and!; try done. intros x. set_solver.
Qed.

Lemma evolves_remove now target task rows :
  evolves (drop_wait [target] task) keep rows
    (update_where target (row_remove_blocked_by now task) rows).
Proof.
  unfold evolves, update_where. induction rows as [|r rows IH]; simpl; [constructor|].
  constructor; [|done]. unfold keep, drop_wait.
  destruct (String.eqb_spec (tid r) target) as [<-|Hne].
  - destruct (waits_on_remove now task r) as [Hw Hr]. rewrite Hr. split_and!; try done.
    + intros (? & ? & ?). unfold parse_ok. split_and!; simpl; [by rewrite strings_roundtrip; eexists|done|done].
    + intros x. rewrite Hw. set_solver.
  - split_and!; try done. intros x. set_solver.
Qed.

Lemma evolves_compose W1 R1 W2 R2 W R rows1 rows2 rows3 :
  evolves W1 R1 rows1 rows2 → evolves W2 R2 rows2 rows3 →
  (∀ r r' x P, tid r' = tid r → W2 r' x (W1 r x P) ↔ W r x P) →
  (∀ r r' x P, tid r' = tid r → R2 r' x (R1 r x P) ↔ R r x P) →
  (∀ r x P Q, (P ↔ Q) → W2 r x P ↔ W2 r x Q) → (∀ r x P Q, (P ↔ Q) → R2 r x P ↔ R2 r x Q) →
  evolves W R rows1 rows3.
Proof.
  intros H1 H2 HW HR HW2 HR2. unfold evolves in *. revert rows3 H2.
  induction H1 as [|r1 r2 rows1 rows2 Hr _ IH]; intros rows3 H2; inversion H2; subst; constructor; auto.
  destruct Hr as (? & ? & Hw1 & Hr1).
  match goal with Hr' : tid _ = tid r2 ∧ _ |- _ => destruct Hr' as (? & ? & Hw2 & Hr2) end.
  split_and!; try congruence; try tauto.
  - intros x. rewrite Hw2, (HW2 _ _ _ _ (Hw1 x)). by apply HW.
  - intros x. rewrite Hr2, (HR2 _ _ _ _ (Hr1 x)). by apply HR.
Qed.

(* ------------------------------------------------------------------ *)
(** ** The loops over the dependencies *)

Lemma append_loop deps task s :
  rs_ok (st_db s) → Forall (λ d, d ∈ task_ids (tasks_of s)) deps →
  ∃ s', st_iter (λ dep_id, let! now := now_ms in repo (append_to_blocks now dep_id task)) deps s
          = (s', Ok tt) ∧
    rs_ok (st_db s') ∧ evolves keep (add_block deps task) (tasks_of s) (tasks_of s') ∧
    same_rows (tasks_of s) (tasks_of s') ∧
    st_ids s' = st_ids s ∧ rs_mailbox (st_db s') = rs_mailbox (st_db s).
Proof.
  revert s. induction deps as [|d deps IH]; intros s Hok Hin; simpl.
  - exists s. split_and!; try done; [|apply same_rows_refl].
    eapply Forall2_impl; [apply evolves_refl|]. simpl. unfold keep, add_block. intros r r' ?.
    destruct_and!. split_and!; set_solver.
  - inversion Hin as [|? ? Hd Hds]; subst.
    destruct (append_to_blocks_spec (time_at (st_ticks s)) d task (st_db s) Hok)
      as (db1 & Ha & Hok1 & Ht1 & Hm1).
    rewrite bool_decide_eq_true_2 in Ha by done.
    assert (evolves keep (add_block [d] task) (tasks_of s) (rs_tasks db1)) as He1.
    { rewrite Ht1. apply evolves_append. }
    destruct (IH (mk_store db1 (S (st_ticks s)) (st_ids s))) as (s' & Hrun & Hok' & He & Hsr & Hids & Hmb).
    + done.
    + unfold tasks_of; simpl. by rewrite (evolves_ids _ _ _ _ He1).
    + exists s'. split_and!; try done.
      * rewrite (st_bind_ok _ _ s (mk_store db1 (S (st_ticks s)) (st_ids s)) tt); [done|].
        rewrite now_bind. by rewrite (repo_ok _ (tick s) _ _ Ha).
      * eapply evolves_compose; [exact He1|exact He|..]; eauto using add_block_cons, add_block_ext, keep_keep, keep_ext.
      * eapply same_rows_trans; [|exact Hsr]. unfold tasks_of; simpl. rewrite Ht1.
        by apply same_rows_update.
      * by rewrite Hmb.
Qed.

Lemma remove_loop targets task s :
  rs_ok (st_db s) → Forall (λ d, d ∈ task_ids (tasks_of s)) targets →
  ∃ s', st_iter (λ down, let! now := now_ms in repo (remove_from_blocked_by now down task)) targets s
          = (s', Ok tt) ∧
    rs_ok (st_db s') ∧ evolves (drop_wait targets task) keep (tasks_of s) (tasks_of s') ∧
    same_rows (tasks_of s) (tasks_of s') ∧
    st_ids s' = st_ids s ∧ rs_mailbox (st_db s') = rs_mailbox (st_db s).
Proof.
  revert s. induction targets as [|d targets IH]; intros s Hok Hin; simpl.
  - exists s. split_and!; try done; [|apply same_rows_refl].
    eapply Forall2_impl; [apply evolves_refl|]. simpl. unfold keep, drop_wait. intros r r' ?.
    destruct_and!. split_and!; set_solver.
  - inversion Hin as [|? ? Hd Hds]; subst.
    destruct (remove_from_blocked_by_spec (time_at (st_ticks s)) d task (st_db s) Hok)
      as (db1 & Ha & Hok1 & Ht1 & Hm1).
    rewrite bool_decide_eq_true_2 in Ha by done.
    assert (evolves (drop_wait [d] task) keep (tasks_of s) (rs_tasks db1)) as He1.
    { rewrite Ht1. apply evolves_remove. }
    destruct (IH (mk_store db1 (S (st_ticks s)) (st_ids s))) as (s' & Hrun & Hok' & He & Hsr & Hids & Hmb).
    + done.
    + unfold tasks_of; simpl. by rewrite (evolves_ids _ _ _ _ He1).
    + exists s'. split_and!; try done.
      * rewrite (st_bind_ok _ _ s (mk_store db1 (S (st_ticks s)) (st_ids s)) tt); [done|].
        rewrite now_bind. by rewrite (repo_ok _ (tick s) _ _ Ha).
      * eapply evolves_compose; [exact He1|exact He|..]; eauto using drop_wait_cons, drop_wait_ext, keep_keep, keep_ext.
      * eapply same_rows_trans; [|exact Hsr]. unfold tasks_of; simpl. rewrite Ht1.
        by apply same_rows_update.
      * by rewrite Hmb.
Qed.

Lemma find_is_task team task rows row :
  find_row (is_task team task) rows = Some row →
  row ∈ rows ∧ tid row = task ∧ TeamTaskRow.team_id row = team.
Proof.
  intros [Hin Hb]%List.find_some. rewrite <- list_elem_of_In in Hin. unfold is_task in Hb.
  apply andb_prop in Hb as [Ht Hid]. apply String.eqb_eq in Ht, Hid. done.
Qed.

Lemma in_task_ids r rows : r ∈ rows → tid r ∈ task_ids rows.
Proof. unfold task_ids. rewrite !list_elem_of_In. apply in_map. Qed.

Lemma task_ids_inv i rows : i ∈ task_ids rows → ∃ r, r ∈ rows ∧ tid r = i.
Proof. unfold task_ids. rewrite list_elem_of_In, in_map_iff. setoid_rewrite <- list_elem_of_In. naive_solver. Qed.

Lemma same_id_same_row rows r r' :
  NoDup (task_ids rows) → r ∈ rows → r' ∈ rows → tid r = tid r' → r = r'.
Proof.
  unfold task_ids. induction rows as [|x rows IH]; simpl; [set_solver|].
  rewrite NoDup_cons, !elem_of_cons. intros [Hx Hnd] [->|Hr] [->|Hr'] Hid; auto; exfalso; apply Hx.
  - rewrite Hid. by apply in_task_ids.
  - rewrite <- Hid. by apply in_task_ids.
Qed.

Lemma find_repo team task s :
  repo (find_task_by_id team task) s = (s, Ok (find_row (is_task team task) (tasks_of s))).
Proof. rewrite (repo_ok _ _ _ _ (find_task_by_id_spec team task (st_db s))). by destruct s. Qed.

(** The dependency check returns the first dependency that is not on the board. *)
Lemma dep_check team deps s :
  st_iter (λ dep_id,
      let! dep := repo (find_task_by_id team dep_id) in
      match dep with
      | None => st_fail (TeamError.BlockedTaskNotFound dep_id)
      | Some _ => st_ret tt
      end) deps s =
  (s, match List.find (λ d, bool_decide (find_row (is_task team d) (tasks_of s) = None)) deps with
      | Some d => Err (TeamError.BlockedTaskNotFound d)
      | None => Ok tt
      end).
Proof.
  induction deps as [|d deps IH]; simpl; [done|].
  unfold st_bind at 1 2. rewrite find_repo.
  destruct (find_row (is_task team d) (tasks_of s)) as [row|]; simpl; [exact IH|done].
Qed.
(* ------------------------------------------------------------------ *)
(** ** The graph is kept *)

Lemma graph_ok_create rows rows' row deps :
  graph_ok rows → parse_ok row → waits_on row = deps → releases row = [] →
  Forall (λ d, d ∈ task_ids rows) deps →
  evolves keep (add_block deps (tid row)) (rows ++ [row]) rows' →
  graph_ok rows'.
Proof.
  intros (Hp & Hw & Hr) Hprow Hdeps Hrel Hin He.
  assert (∀ r d, r ∈ rows ++ [row] → d ∈ waits_on r →
    ∃ r0, r0 ∈ rows ++ [row] ∧ tid r0 = d ∧
      (tid r ∈ releases r0 ∨ (tid r0 ∈ deps ∧ tid r = tid row))) as Hw1.
  { intros r d. rewrite elem_of_app, list_elem_of_singleton. intros [Hrr| ->] Hd.
    - destruct (Hw r d Hrr Hd) as (r0 & ? & ? & ?). exists r0. rewrite elem_of_app. auto.
    - rewrite Hdeps in Hd. destruct (task_ids_inv d rows) as (r0 & ? & <-).
      { by apply (proj1 (Forall_forall _ _) Hin). }
      exists r0. rewrite elem_of_app. auto. }
  split; [|split].
  - apply Forall_forall. intros r' (r & Hr' & _ & Hpr & _)%(Forall2_member _ _ _ _ He).
    apply Hpr. rewrite elem_of_app, list_elem_of_singleton in Hr'.
    destruct Hr' as [Hr'| ->]; [|done]. by apply (proj1 (Forall_forall _ _) Hp).
  - intros r' d (r & Hr1 & Hid & _ & Hwr & _)%(Forall2_member _ _ _ _ He) Hd.
    apply Hwr in Hd. destruct (Hw1 r d Hr1 Hd) as (r0 & Hr0 & <- & Hrel0).
    destruct (Forall2_member_l _ _ _ _ He Hr0) as (r0' & Hr0' & Hid0 & _ & _ & Hrr).
    exists r0'. split_and!; [done|done|]. rewrite Hid, Hrr. unfold add_block. tauto.
  - intros r' b (r & Hr1 & Hid & _ & _ & Hrr)%(Forall2_member _ _ _ _ He) Hb.
    rewrite (evolves_ids _ _ _ _ He). unfold task_ids. rewrite map_app, elem_of_app. simpl.
    rewrite list_elem_of_singleton. apply Hrr in Hb. unfold add_block in Hb.
    rewrite elem_of_app, list_elem_of_singleton in Hr1.
    destruct Hb as [Hb|[_ ->]]; [|by right]. destruct Hr1 as [Hr1| ->]; [left; by eapply Hr|].
    rewrite Hrel in Hb. set_solver.
Qed.

Lemma graph_ok_complete rows rows' row :
  graph_ok rows → NoDup (task_ids rows) → row ∈ rows →
  evolves (drop_wait (releases row) (tid row)) keep rows rows' →
  graph_ok rows' ∧ evolves (drop_everywhere (tid row)) keep rows rows'.
Proof.
  intros (Hp & Hw & Hr) Hnd Hrow He. split; [split; [|split]|].
  - apply Forall_forall. intros r' (r & Hr' & _ & Hpr & _)%(Forall2_member _ _ _ _ He).
    by apply Hpr, (proj1 (Forall_forall _ _) Hp).
  - intros r' d (r & Hr1 & Hid & _ & Hwr & _)%(Forall2_member _ _ _ _ He) Hd.
    apply Hwr in Hd as [Hd _]. destruct (Hw r d Hr1 Hd) as (r0 & Hr0 & <- & Hrel0).
    destruct (Forall2_member_l _ _ _ _ He Hr0) as (r0' & Hr0' & Hid0 & _ & _ & Hrr).
    exists r0'. split_and!; [done|done|]. rewrite Hid, Hrr. done.
  - intros r' b (r & Hr1 & Hid & _ & _ & Hrr)%(Forall2_member _ _ _ _ He) Hb.
    rewrite (evolves_ids _ _ _ _ He). apply Hrr in Hb. by eapply Hr.
  - apply Forall2_same_length_lookup in He as [Hlen He].
    apply Forall2_same_length_lookup. split; [done|]. intros i r r' Hi Hi'.
    destruct (He i r r' Hi Hi') as (Hid & Hpr & Hwr & Hrr). split_and!; try done.
    intros x. rewrite Hwr. unfold drop_wait, drop_everywhere. split; [|naive_solver].
    intros [Hin Hnot]. split; [done|]. intros ->. apply Hnot. split; [|done].
    assert (Hr1 : r ∈ rows) by by eapply list_elem_of_lookup_2.
    destruct (Hw r _ Hr1 Hin) as (r0 & Hr0 & Hid0 & Hrel0).
    by rewrite <- (same_id_same_row rows r0 row Hnd Hr0 Hrow Hid0).
Qed.

Lemma graph_ok_keep rows rows' : graph_ok rows → evolves keep keep rows rows' → graph_ok rows'.
Proof.
  intros (Hp & Hw & Hr) He. split; [|split].
  - apply Forall_forall. intros r' (r & Hr1 & _ & Hpr & _)%(Forall2_member _ _ _ _ He).
    by apply Hpr, (proj1 (Forall_forall _ _) Hp).
  - intros r' d (r & Hr1 & Hi & _ & Hwr & _)%(Forall2_member _ _ _ _ He) Hd%Hwr.
    destruct (Hw r d Hr1 Hd) as (r0 & Hr0 & Hd0 & Hrl).
    destruct (Forall2_member_l _ _ _ _ He Hr0) as (r0' & Hr0' & Hi0 & _ & _ & Hrr).
    exists r0'. by rewrite Hi0, Hi, Hrr.
  - intros r' b (r & Hr1 & _ & _ & _ & Hrr)%(Forall2_member _ _ _ _ He) Hb%Hrr.
    rewrite (evolves_ids _ _ _ _ He). by eapply Hr.
Qed.

(** The row [create_task] inserts, and the row an update of the other columns leaves. *)
Definition new_task_row s team subject description owner deps : TeamTaskRow.t :=
  TeamTaskRow.mk (id_at (st_ids s)) team subject description
    (TaskStatus.to_string TaskStatus.Pending) owner (strings_to_string deps) "[]" None
    (time_at (st_ticks s)) (time_at (st_ticks s)).

Definition new_task s team subject description owner deps : TeamTask.t :=
  TeamTask.mk _ (id_at (st_ids s)) team subject description TaskStatus.Pending owner deps []
    None (time_at (st_ticks s)) (time_at (st_ticks s)).

Lemma from_new_task_row s team subject description owner deps :
  TeamTask.from_row (new_task_row s team subject description owner deps) =
  Some (new_task s team subject description owner deps).
Proof. unfold TeamTask.from_row. simpl. by rewrite strings_roundtrip, strings_empty. Qed.

Lemma task_status_ok_to_string st : task_status_ok (TaskStatus.to_string st) = true.
Proof. by destruct st. Qed.

Lemma parse_ok_from_row r : parse_ok r → is_Some (TeamTask.from_row r).
Proof.
  intros ([bb Hb] & [bl Hl] & [m Hm]). unfold TeamTask.from_row. rewrite Hb, Hl, Hm. by eexists.
Qed.

(** Every dependency named is a task of the team. *)
Definition deps_on_board (team : string) (deps : list string) s : Prop :=
  Forall (λ d, find_row (is_task team d) (tasks_of s) ≠ None) deps.

Lemma deps_found team deps s :
  deps_on_board team deps s →
  List.find (λ d, bool_decide (find_row (is_task team d) (tasks_of s) = None)) deps = None.
Proof.
  induction 1 as [|d ds Hd _ IH]; simpl; [done|]. by rewrite bool_decide_eq_false_2.
Qed.

(** A creation whose dependencies are all on the board. *)
Lemma create_task_total s team subject description owner deps :
  store_ok s → graph_ok (tasks_of s) → deps_on_board team deps s →
  ∃ s', create_task team subject description owner deps s =
      (s', Ok (new_task s team subject description owner deps)) ∧
    store_ok s' ∧ graph_ok (tasks_of s') ∧
    task_ids (tasks_of s') = task_ids (tasks_of s) ++ [id_at (st_ids s)] ∧
    (∀ d r, d ∈ deps → r ∈ tasks_of s' → tid r = d → id_at (st_ids s) ∈ releases r) ∧
    rs_mailbox (st_db s') = rs_mailbox (st_db s).
Proof.
  intros [Hok Hfresh] Hg Hdeps.
  set (row := new_task_row s team subject description owner deps).
  destruct (create_task_spec row (st_db s)) as (db1 & Hc & Hok1 & Ht1 & Hm1);
    [done|by apply Hfresh|apply task_status_ok_to_string|].
  assert (Forall (λ d, d ∈ task_ids (tasks_of s)) deps) as Hin.
  { eapply Forall_impl; [exact Hdeps|]. simpl. intros d Hd.
    destruct (find_row (is_task team d) (tasks_of s)) as [r|] eqn:Hf; [|done].
    apply find_is_task in Hf as (Hr & <- & _). by apply in_task_ids. }
  destruct (append_loop deps (tid row) (mk_store db1 (S (st_ticks s)) (S (st_ids s))))
    as (s' & Hrun & Hok' & He & Hsr & Hids & Hmb).
  { done. }
  { unfold tasks_of; simpl. rewrite Ht1. eapply Forall_impl; [exact Hin|]. simpl. intros d Hd.
    unfold task_ids in *. rewrite map_app. set_solver. }
  unfold tasks_of in He; cbn [st_db] in He. rewrite Ht1 in He.
  pose proof (evolves_ids _ _ _ _ He) as Hids'. unfold task_ids in Hids' at 2.
  rewrite map_app in Hids'.
  assert (Hrow : waits_on row = deps ∧ releases row = [] ∧ parse_ok row).
  { unfold waits_on, releases, parse_ok, row. simpl. rewrite strings_roundtrip, strings_empty.
    split_and!; eauto. }
  destruct Hrow as (Hwait & Hrel & Hprow).
  exists s'. split_and!.
  - unfold create_task. erewrite st_bind_ok; [|rewrite dep_check].
    2:{ by rewrite deps_found. }
    rewrite id_bind, now_bind. fold row.
    rewrite (st_bind_ok _ _ _ _ _ (repo_ok _ (tick (bump_id s)) _ _ Hc)).
    cbn [tick bump_id st_db st_ticks st_ids].
    rewrite (st_bind_ok _ _ _ _ _ Hrun). unfold st_lift.
    change (TeamTask.from_row _)
      with (TeamTask.from_row (new_task_row s team subject description owner deps)).
    by rewrite from_new_task_row.
  - split; [done|]. intros n Hn. rewrite Hids in Hn. cbn [st_ids] in Hn.
    rewrite Hmb. cbn [st_db]. rewrite Hm1. destruct (Hfresh n) as [Hf1 Hf2]; [lia|].
    split; [done|]. rewrite Hids'. fold (task_ids (rs_tasks (st_db s))). simpl.
    rewrite elem_of_app, list_elem_of_singleton. intros [Hbad|Hbad%id_at_inj]; [done|lia].
  - by eapply (graph_ok_create _ _ row deps).
  - exact Hids'.
  - intros d r' Hd Hr' Hrd.
    destruct (Forall2_member _ _ _ _ He Hr') as (r & Hr & Hid & _ & _ & Hrr).
    apply Hrr. right. rewrite <- Hid, Hrd. done.
  - by rewrite Hmb.
Qed.

(** [create_task] with all dependencies on the team's board inserts one pending
    task with the given fields, returns it, records the new task in the [blocks] of
    each dependency, and keeps the dependency graph and the mailbox. *)
Lemma create_task_links s team subject description owner deps :
  store_ok s → graph_ok (tasks_of s) → deps_on_board team deps s →
  ∃ s', create_task team subject description owner deps s =
      (s', Ok (new_task s team subject description owner deps)) ∧
    store_ok s' ∧ graph_ok (tasks_of s') ∧
    task_ids (tasks_of s') = task_ids (tasks_of s) ++ [id_at (st_ids s)] ∧
    (∀ d r, d ∈ deps → r ∈ tasks_of s' → tid r = d → id_at (st_ids s) ∈ releases r) ∧
    rs_mailbox (st_db s') = rs_mailbox (st_db s).
Proof. exact (create_task_total s team subject description owner deps). Qed.

(** [create_task] with a dependency that is not on the team's board fails with
    [BlockedTaskNotFound] naming the first such dependency, and changes nothing. *)
Lemma create_task_missing_dependency s team subject description owner deps d :
  List.find (λ d, bool_decide (find_row (is_task team d) (tasks_of s) = None)) deps = Some d →
  create_task team subject description owner deps s =
    (s, Err (TeamError.BlockedTaskNotFound d)).
Proof. intros Hf. unfold create_task, st_bind at 1. by rewrite dep_check, Hf. Qed.

(** The board after the [UPDATE] of a task whose dependencies are not edited. *)
Lemma evolves_row_update now task p rows :
  UpdateTaskParams.blocked_by p = None →
  (∀ m, UpdateTaskParams.metadata p = Some m → is_Some (value_from_str m)) →
  evolves keep keep rows (if no_clauses p then rows else update_where task (row_update now p) rows).
Proof.
  intros Hb Hmeta. destruct (no_clauses p); [apply evolves_refl|].
  unfold evolves, update_where. induction rows as [|r rows IH]; simpl; constructor; [|done].
  unfold keep. case_match; [|done]. split_and!; try done.
  - unfold parse_ok, row_update; simpl. rewrite Hb. simpl. intros (? & ? & Hm). split_and!; try done.
    destruct (UpdateTaskParams.metadata p) as [m|] eqn:E; [|done].
    destruct (Hmeta m eq_refl) as [v Hv]. simpl. rewrite Hv. by eexists.
  - intros x. unfold waits_on, row_update; simpl. by rewrite Hb.
Qed.

Lemma find_update_where team task now p rows row :
  find_row (is_task team task) rows = Some row →
  find_row (is_task team task) (update_where task (row_update now p) rows) =
    Some (row_update now p row).
Proof.
  unfold find_row, update_where, is_task. induction rows as [|r rows IH]; simpl; [done|].
  destruct (String.eqb_spec (tid r) task) as [Hid|Hid]; simpl.
  - rewrite !andb_true_r || idtac. rewrite (proj2 (String.eqb_eq (tid r) task) Hid).
    rewrite !andb_true_r. case_match; intros ?; simplify_eq; [done|]. by apply IH.
  - rewrite (proj2 (String.eqb_neq (tid r) task) Hid), !andb_false_r. apply IH.
Qed.

(** The columns [update_task] writes. *)
Definition params_of (update : TaskUpdate.t) : UpdateTaskParams.t :=
  UpdateTaskParams.mk (TaskStatus.to_string <$> TaskUpdate.status update)
    (TaskUpdate.description update) (TaskUpdate.owner update)
    (strings_to_string <$> TaskUpdate.blocked_by update)
    (value_to_string <$> TaskUpdate.metadata update).

(** The [UPDATE] of a task whose dependencies are not edited keeps every link. *)
Lemma board_update s team task row update :
  store_ok s → find_row (is_task team task) (tasks_of s) = Some row →
  is_Some (TaskUpdate.status update) → TaskUpdate.blocked_by update = None →
  let now := time_at (st_ticks s) in
  let row1 := row_update now (params_of update) row in
  ∃ db1, repo (TeamRepo.update_task now task (params_of update)) (tick s) =
      (mk_store db1 (S (st_ticks s)) (st_ids s), Ok tt) ∧ rs_ok db1 ∧
    evolves keep keep (tasks_of s) (rs_tasks db1) ∧
    find_row (is_task team task) (rs_tasks db1) = Some row1.
Proof.
  intros [Hok _] Hfind [st Hst] Hbl now row1.
  destruct (find_is_task _ _ _ _ Hfind) as (Hrow & Hid & Hteam).
  destruct (update_task_spec now task (params_of update) (st_db s)) as (db1 & Hu & Hok1 & Ht1 & Hm1);
    [done|by rewrite <- Hid; apply in_task_ids| |].
  { intros x Hx. simpl in Hx. rewrite Hst in Hx. simpl in Hx. simplify_eq.
    apply task_status_ok_to_string. }
  exists db1. split_and!; [by apply (repo_ok _ (tick s))|done| |].
  - rewrite Ht1. apply evolves_row_update; simpl; [by rewrite Hbl|].
    intros m Hm. destruct (TaskUpdate.metadata update); simpl in Hm; simplify_eq.
    rewrite value_roundtrip. by eexists.
  - assert (Hnc : no_clauses (params_of update) = false) by (unfold no_clauses; simpl; by rewrite Hst).
    rewrite Ht1, Hnc. exact (find_update_where team task now _ _ _ Hfind).
Qed.

(** Completing a task (without editing its dependencies) succeeds, stores the
    status, takes exactly this task out of the [blocked_by] of every task of the
    board, leaves every [blocks] alone, and keeps the dependency graph. *)
Lemma complete_task_unblocks s team task row update :
  store_ok s → graph_ok (tasks_of s) →
  find_row (is_task team task) (tasks_of s) = Some row →
  TaskUpdate.status update = Some TaskStatus.Completed → TaskUpdate.blocked_by update = None →
  ∃ s' t, update_task team task update s = (s', Ok t) ∧
    TeamTask.status t = TaskStatus.Completed ∧ TeamTask.id t = task ∧
    graph_ok (tasks_of s') ∧
    Forall2 (λ r r', tid r' = tid r ∧ (∀ d, d ∈ waits_on r' ↔ d ∈ waits_on r ∧ d ≠ task) ∧
      (∀ b, b ∈ releases r' ↔ b ∈ releases r)) (tasks_of s) (tasks_of s').
Proof.
  intros Hs Hg Hfind Hst Hbl. destruct (find_is_task _ _ _ _ Hfind) as (Hrow & Hid & _).
  destruct (board_update s team task row update Hs Hfind ltac:(by eexists) Hbl)
    as (db1 & Hu & Hok1 & He1 & Hfind1). cbv zeta in Hu, Hfind1.
  set (s1 := mk_store db1 _ _) in Hu. set (row1 := row_update _ _ row) in Hfind1.
  destruct (find_is_task _ _ _ _ Hfind1) as (Hrow1 & Hid1 & _).
  assert (Hg1 : graph_ok (tasks_of s1)) by by eapply graph_ok_keep.
  destruct (remove_loop (releases row) task s1) as (s' & Hrun & _ & He & Hsr & _ & _); [done| |].
  { apply Forall_forall. intros b Hb. destruct Hg1 as (_ & _ & Hr). by eapply (Hr row1). }
  destruct (graph_ok_complete (tasks_of s1) (tasks_of s') row1) as [Hg' Hun];
    [done|apply (rs_ok_rows db1 Hok1)|done|by rewrite Hid1|]. rewrite Hid1 in Hun.
  destruct (same_rows_find team task _ _ _ Hsr Hfind1) as (row' & Hf' & Hrow' & Hst').
  destruct (parse_ok_from_row row') as [t Ht].
  { by apply (proj1 (Forall_forall _ _) (proj1 Hg')). }
  exists s', t. split_and!; try done.
  - unfold update_task. rewrite (st_bind_ok _ _ _ _ _ (find_repo team task s)), Hfind. cbn [ok_or].
    unfold st_bind at 1, st_lift at 1. rewrite now_bind. fold (params_of update).
    rewrite (st_bind_ok _ _ _ _ _ Hu), bool_decide_eq_true_2 by done.
    erewrite st_bind_ok.
    2:{ unfold check_unblocks. destruct (proj1 (Forall_forall _ _) (proj1 Hg) row Hrow) as (_ & [bl Hl] & _).
        unfold releases in Hrun. rewrite Hl in Hrun. simpl in Hrun. rewrite Hl. exact Hrun. }
    rewrite (st_bind_ok _ _ _ _ _ (find_repo team task s')), Hf'.
    unfold st_bind, st_lift. cbn [ok_or]. by rewrite Ht.
  - unfold TeamTask.from_row in Ht. simplify_option_eq. rewrite Hst'. simpl. by rewrite ?Hst.
  - unfold TeamTask.from_row in Ht. simplify_option_eq. by apply find_is_task in Hf' as (_ & ? & _).
  - eapply Forall2_impl; [eapply (evolves_compose _ _ _ _ (drop_everywhere task) keep); [exact He1|exact Hun|..]|].
    1-4: unfold keep, drop_everywhere; tauto.
    simpl. unfold keep, drop_everywhere. intros r r'. tauto.
Qed.

(** Updating a task that is not on the team's board fails with [TaskNotFound]
    and changes nothing. *)
Lemma update_task_not_found s team task update :
  find_row (is_task team task) (tasks_of s) = None →
  update_task team task update s = (s, Err (TeamError.TaskNotFound task)).
Proof.
  intros Hf. unfold update_task. rewrite (st_bind_ok _ _ _ _ _ (find_repo team task s)), Hf. done.
Qed.
End facts.

(* ------------------------------------------------------------------ *)
(** ** A board of two tasks *)

Section witnesses.
#[local] Existing Instance json_text.
#[local] Existing Instance counting.

Lemma empty_graph_ok : graph_ok (tasks_of Mailbox.empty_store).
Proof. split; [constructor|]. split; intros ? ? Hin; by apply not_elem_of_nil in Hin. Qed.

(** The first task, whose identifier is the empty numeral, then task ["1"] waiting
    for [deps]. *)
Definition one_task : Store TeamDb :=
  fst (create_task "t" "design" None None [] Mailbox.empty_store).
Definition two_tasks (deps : list string) : Store TeamDb :=
  fst (create_task "t" "build" None (Some "bob") deps one_task).

Lemma one_task_ok : Mailbox.store_ok one_task ∧ graph_ok (tasks_of one_task).
Proof.
  destruct (create_task_total Mailbox.empty_store "t" "design" None None [])
    as (s' & Hc & Hs & Hg & _);
    [exact Mailbox.empty_store_ok|exact empty_graph_ok|constructor|].
  unfold one_task. by rewrite Hc.
Qed.

Lemma two_tasks_ok deps :
  deps_on_board "t" deps one_task →
  Mailbox.store_ok (two_tasks deps) ∧ graph_ok (tasks_of (two_tasks deps)).
Proof.
  intros Hd. destruct one_task_ok as [Hs Hg].
  destruct (create_task_total one_task "t" "build" None (Some "bob") deps)
    as (s' & Hc & Hs' & Hg' & _); [done|done|done|].
  unfold two_tasks. by rewrite Hc.
Qed.

Lemma design_on_board : deps_on_board "t" [EmptyString] one_task.
Proof. constructor; [|constructor]. by vm_compute. Qed.

Definition completed : TaskUpdate.t := TaskUpdate.mk (Some TaskStatus.Completed) None None None None.
Definition waiting_for (deps : list string) : TaskUpdate.t := TaskUpdate.mk None None None (Some deps) None.

Lemma create_task_links_witness :
  ∃ s' t, create_task "t" "build" None (Some "bob") [EmptyString] one_task = (s', Ok t) ∧
    graph_ok (tasks_of s') ∧ TeamTask.blocked_by t = [EmptyString].
Proof.
  destruct (create_task_links one_task "t" "build" None (Some "bob") [EmptyString])
    as (s' & Hc & _ & Hg & _);
    [apply one_task_ok|apply one_task_ok|exact design_on_board|].
  by exists s', (new_task one_task "t" "build" None (Some "bob") [EmptyString]).
Defined.

Lemma create_task_missing_dependency_witness :
  create_task "t" "build" None None [EmptyString; "x"] one_task =
    (one_task, Err (TeamError.BlockedTaskNotFound "x")).
Proof. apply create_task_missing_dependency. by vm_compute. Defined.

Lemma complete_task_unblocks_witness :
  ∃ s' t, update_task "t" EmptyString completed (two_tasks [EmptyString]) = (s', Ok t) ∧
    TeamTask.status t = TaskStatus.Completed ∧
    map waits_on (tasks_of (two_tasks [EmptyString])) = [[]; [EmptyString]] ∧
    map waits_on (tasks_of s') = [[]; []].
Proof.
  destruct (find_row (is_task "t" EmptyString) (tasks_of (two_tasks [EmptyString]))) as [row|] eqn:Hf;
    [|by vm_compute in Hf].
  destruct (complete_task_unblocks (two_tasks [EmptyString]) "t" EmptyString row completed)
    as (s' & t & Hu & Hst & _);
    [apply two_tasks_ok, design_on_board|apply two_tasks_ok, design_on_board|done|done|done|].
  exists s', t. split_and!; [done|done|by vm_compute|].
  apply (f_equal fst) in Hu. simpl in Hu. rewrite <- Hu. by vm_compute.
Defined.

Lemma update_task_not_found_witness :
  update_task "other" EmptyString completed one_task = (one_task, Err (TeamError.TaskNotFound EmptyString)).
Proof. apply update_task_not_found. by vm_compute. Defined.

(** Editing the dependencies of a task does not mirror them in [blocks]: from
    a well-formed board, after task ["1"] is made to wait for the first task and
    the first task is completed, task ["1"] still waits for it. *)
Lemma edited_dependency_stays_blocked :
  Mailbox.store_ok (two_tasks []) ∧ graph_ok (tasks_of (two_tasks [])) ∧
  ∃ s1 s2 t1 t2,
    update_task "t" "1" (waiting_for [EmptyString]) (two_tasks []) = (s1, Ok t1) ∧
    update_task "t" EmptyString completed s1 = (s2, Ok t2) ∧
    TeamTask.status t2 = TaskStatus.Completed ∧
    map waits_on (tasks_of s2) = [[]; [EmptyString]].
Proof.
  destruct (two_tasks_ok []) as [Hs Hg]; [constructor|]. split; [done|]. split; [done|].
  do 4 eexists. split; [by vm_compute|]. split; [by vm_compute|]. by vm_compute.
Qed.
End witnesses.
End TaskBoard.
