(* ===== verification/TeamEvents.v ===== *)
(** * TeamEvents: the WebSocket events of a team

    [TeamEventEmitter] ([chisl-team/src/events.rs]).  The broadcaster is the log of
    the messages sent; a payload is kept as the structure that is serialised. *)

From S2P Require Import Prelude.
From S2P Require Import TeamTypes.

(* chisl-api-types/src/team.rs:140-193 team event payloads *)
Inductive TeamPayload :=
| TeamAgentStatusPayload (team_id slot_id status : string)
| TeamAgentSpawnedPayload (team_id : string) (agent : TeamAgentResponse.t)
| TeamAgentRemovedPayload (team_id slot_id : string)
| TeamAgentShutdownPayload (team_id slot_id : string)
| TeamAgentRenamedPayload (team_id slot_id name : string).

Module WebSocketMessage.
(* chisl-api-types/src/websocket.rs:8-11 WebSocketMessage *)
Record t (T : Type) := new { name : string; data : T }.
Arguments new {T}.
Arguments name {T}.
Arguments data {T}.
End WebSocketMessage.

Abbreviation TeamEvent := (WebSocketMessage.t TeamPayload).

Module TeamEventEmitter.
Section emitter.
Context (team_id : string).

(* chisl-team/src/events.rs:25-36 broadcast_agent_status *)
Definition agent_status (slot_id : string) (status : TeammateStatus.t) : TeamEvent :=
  WebSocketMessage.new "team.agent.status"
    (TeamAgentStatusPayload team_id slot_id (TeammateStatus.to_string status)).
(* chisl-team/src/events.rs:38-48 broadcast_agent_spawned *)
Definition agent_spawned (agent : TeamAgent.t) : TeamEvent :=
  WebSocketMessage.new "team.agent.spawned"
    (TeamAgentSpawnedPayload team_id (TeamAgent.to_response agent)).
(* chisl-team/src/events.rs:50-60 broadcast_agent_removed *)
Definition agent_removed (slot_id : string) : TeamEvent :=
  WebSocketMessage.new "team.agent.removed" (TeamAgentRemovedPayload team_id slot_id).
(* chisl-team/src/events.rs:66-76 broadcast_agent_shutdown *)
Definition agent_shutdown (slot_id : string) : TeamEvent :=
  WebSocketMessage.new "team.agent.shutdown" (TeamAgentShutdownPayload team_id slot_id).
(* chisl-team/src/events.rs:78-89 broadcast_agent_renamed *)
Definition agent_renamed (slot_id name : string) : TeamEvent :=
  WebSocketMessage.new "team.agent.renamed" (TeamAgentRenamedPayload team_id slot_id name).
End emitter.
End TeamEventEmitter.
