(* ===== verification/TeamScheduler.v ===== *)
(** * TeamScheduler: the team scheduler

    [TeammateManager] ([chisl-team/src/scheduler/]): the slots of the agents with
    their status, the wake locks and watchdogs, the finalize dedup window, and
    the actions an agent's turn ends with.  The state is a record; each method is
    a computation of [ST] over it.  [HashMap] iteration order is the parameter
    [HashIter]. *)

From S2P Require Import Prelude.
From S2P Require Import Text.
From S2P Require Import Json.
From S2P Require Import TeamTypes.
From S2P Require Import TeamRepo.
From S2P Require Import TeamRepoSqlite.
From S2P Require Import TeamEvents.
From S2P Require Import TeamMailbox.
From S2P Require Import TeamTaskBoard.

(* chisl-team/src/crash_detection.rs:71-75 CrashReason *)
Inductive CrashReason := ProcessExited | SessionNotFound | Unknown (msg : string).

Module AgentSlot.
(* chisl-team/src/scheduler/mod.rs:105-110 AgentSlot *)
Record t := mk { agent : TeamAgent.t; status : TeammateStatus.t; needs_role_prompt : bool }.
End AgentSlot.

Module WakePayload.
(* chisl-team/src/scheduler/mod.rs:94-98 WakePayload *)
Record t `{SerdeJson} := mk {
  agent : TeamAgent.t; tasks : list TeamTask.t; unread_messages : list MailboxMessage.t }.
End WakePayload.

(* chisl-team/src/scheduler/actions.rs:8-42 SchedulerAction *)
Inductive SchedulerAction :=
| SendMessage (to message : string)
| TaskCreate (subject : string) (description owner : option string) (blocked_by : list string)
| TaskUpdate (task_id : string) (status description owner : option string)
    (blocked_by : option (list string))
| SpawnAgent (name role backend : string)
| IdleNotification (summary : option string)
| ShutdownAgent (slot_id : string) (reason : option string)
| RenameAgent (slot_id new_name : string).

(* chisl-team/src/scheduler/mod.rs:34-34 WAKE_TIMEOUT_MS *)
Definition WAKE_TIMEOUT_MS : Z := 60000.
(** [FINALIZE_DEDUP_WINDOW], in milliseconds. *)
(* chisl-team/src/scheduler/mod.rs:36-36 FINALIZE_DEDUP_WINDOW *)
Definition FINALIZE_DEDUP_WINDOW : Z := 5000.

(* chisl-team/src/scheduler/mod.rs:48-54 normalize_name *)
Definition normalize_name `{Unicode} (name : string) : string :=
  to_lowercase (from_chars (List.filter (λ c, negb (is_control c)) (chars (trim name)))).

(* chisl-team/src/scheduler/mod.rs:68-73 is_settled *)
Definition is_settled (s : TeammateStatus.t) : bool :=
  match s with
  | TeammateStatus.Idle | TeammateStatus.Completed | TeammateStatus.Error => true
  | _ => false
  end.

(* chisl-team/src/scheduler/crash_recovery.rs:25-37 format_with_unknown *)
Definition format_with_unknown (agent_name reason_msg : string) (last_message : option string) : string :=
  match last_message with
  | Some msg => "Teammate '" +:+ agent_name +:+ "' crashed during task (reason: Unknown — "
      +:+ reason_msg +:+ "). Last message: " +:+ msg +:+ ". Please investigate."
  | None => "Teammate '" +:+ agent_name +:+ "' crashed during task (reason: Unknown — "
      +:+ reason_msg +:+ "). Please investigate."
  end.

(* chisl-team/src/scheduler/crash_recovery.rs:6-23 format_crash_testament *)
Definition format_crash_testament (agent_name : string) (reason : CrashReason)
    (last_message : option string) : string :=
  let fmt reason_str :=
    match last_message with
    | Some msg => "Teammate '" +:+ agent_name +:+ "' crashed during task (reason: "
        +:+ reason_str +:+ "). Last message: " +:+ msg +:+ ". Please investigate."
    | None => "Teammate '" +:+ agent_name +:+ "' crashed during task (reason: "
        +:+ reason_str +:+ "). Please investigate."
    end in
  match reason with
  | ProcessExited => fmt "ProcessExited"
  | SessionNotFound => fmt "SessionNotFound"
  | Unknown msg => format_with_unknown agent_name msg last_message
  end.

(** The shared state of a manager.  A [JoinHandle] of a watchdog is the number of its
    task in [spawned], the slots the tasks were spawned for; [aborted] are the handles
    [abort] was called on.  Of the tasks themselves the state says how far they are:
    [arming] are those spawned whose handle is not entered yet, [ended] those that have
    run to their last line, with whether their handle had been entered by then.  An
    [Instant] is in milliseconds. *)
(* chisl-team/src/scheduler/mod.rs:116-128 TeammateManager *)
Record TeammateManager (Db : Type) := mk_manager {
  store : Store Db;
  slots : gmap string AgentSlot.t;
  events : list TeamEvent;
  active_wakes : gset string;
  finalized_turns : gmap string Z;
  wake_timeouts : gmap string nat;
  spawned : list string;
  aborted : gset nat;
  arming : gset nat;
  ended : gmap nat bool }.
Arguments mk_manager {Db}.
Arguments store {Db}.
Arguments slots {Db}.
Arguments events {Db}.
Arguments active_wakes {Db}.
Arguments finalized_turns {Db}.
Arguments wake_timeouts {Db}.
Arguments spawned {Db}.
Arguments aborted {Db}.
Arguments arming {Db}.
Arguments ended {Db}.

Section setters.
Context {Db : Type}.
Implicit Types s : TeammateManager Db.
Definition set_store (st : Store Db) s : TeammateManager Db :=
  mk_manager st (slots s) (events s) (active_wakes s) (finalized_turns s) (wake_timeouts s)
    (spawned s) (aborted s) (arming s) (ended s).
Definition set_slots (m : gmap string AgentSlot.t) s : TeammateManager Db :=
  mk_manager (store s) m (events s) (active_wakes s) (finalized_turns s) (wake_timeouts s)
    (spawned s) (aborted s) (arming s) (ended s).
Definition add_event (e : TeamEvent) s : TeammateManager Db :=
  mk_manager (store s) (slots s) (events s ++ [e]) (active_wakes s) (finalized_turns s)
    (wake_timeouts s) (spawned s) (aborted s) (arming s) (ended s).
Definition set_active_wakes (w : gset string) s : TeammateManager Db :=
  mk_manager (store s) (slots s) (events s) w (finalized_turns s) (wake_timeouts s)
    (spawned s) (aborted s) (arming s) (ended s).
Definition set_finalized_turns (f : gmap string Z) s : TeammateManager Db :=
  mk_manager (store s) (slots s) (events s) (active_wakes s) f (wake_timeouts s)
    (spawned s) (aborted s) (arming s) (ended s).
Definition set_watchdogs (t : gmap string nat) (l : list string) (a b : gset nat)
    (e : gmap nat bool) s : TeammateManager Db :=
  mk_manager (store s) (slots s) (events s) (active_wakes s) (finalized_turns s) t l a b e.
End setters.

Module Scheduler.
Section ops.
Context {Db : Type} {SJ : SerdeJson} {TR : ITeamRepository Db} {AM : Ambient} {UC : Unicode}
  {HI : HashIter AgentSlot.t} (team_id : string).
Local Abbreviation M := (ST (TeammateManager Db) TeamError.t).

Definition on_store {A} (m : ST (Store Db) TeamError.t A) : M A := st_on store set_store m.
Definition broadcast (e : TeamEvent) : M unit := st_modify (add_event e).

(** [slots.get(slot_id).ok_or_else(|| AgentNotFound(slot_id))?]. *)
Definition get_slot (slot_id : string) : M AgentSlot.t := λ s,
  (s, ok_or (slots s !! slot_id) (TeamError.AgentNotFound slot_id)).

(* chisl-team/src/scheduler/mod.rs:131-162 TeammateManager::new *)
Definition new (agents : list TeamAgent.t) (st : Store Db) : TeammateManager Db :=
  let slots := fold_left (λ m a,
    let a := TeamAgent.set_status (Some TeammateStatus.Idle) a in
    <[TeamAgent.slot_id a := AgentSlot.mk a TeammateStatus.Idle true]> m) agents ∅ in
  mk_manager st slots [] ∅ ∅ ∅ [] ∅ ∅ ∅.

(* chisl-team/src/scheduler/mod.rs:164-170 TeammateManager::get_agent *)
Definition get_agent (slot_id : string) : M TeamAgent.t :=
  let! slot := get_slot slot_id in
  st_ret (AgentSlot.agent slot).

(* chisl-team/src/scheduler/mod.rs:172-175 TeammateManager::list_agents *)
Definition list_agents : M (list TeamAgent.t) :=
  st_get (λ s, map (λ kv, AgentSlot.agent (snd kv)) (hm_iter (slots s))).

(* chisl-team/src/scheduler/mod.rs:177-179 TeammateManager::list_tasks *)
Definition list_tasks : M (list TeamTask.t) := on_store (TaskBoard.list_tasks team_id).

Definition is_lead (slot : AgentSlot.t) : bool :=
  bool_decide (TeamAgent.role (AgentSlot.agent slot) = TeammateRole.Lead).

(* chisl-team/src/scheduler/mod.rs:181-187 TeammateManager::find_lead_slot_id *)
Definition find_lead_slot_id : M (option string) :=
  st_get (λ s, (λ kv, TeamAgent.slot_id (AgentSlot.agent (snd kv)))
                 <$> List.find (λ kv, is_lead (snd kv)) (hm_iter (slots s))).

(* chisl-team/src/scheduler/state.rs:8-20 set_status *)
Definition set_status (slot_id : string) (status : TeammateStatus.t) : M unit :=
  let! slot := get_slot slot_id in
  let slot' := AgentSlot.mk (TeamAgent.set_status (Some status) (AgentSlot.agent slot)) status
                 (AgentSlot.needs_role_prompt slot) in
  do! st_modify (λ s, set_slots (<[slot_id := slot']> (slots s)) s) in
  broadcast (TeamEventEmitter.agent_status team_id slot_id status).

(* chisl-team/src/scheduler/state.rs:22-28 get_status *)
Definition get_status (slot_id : string) : M TeammateStatus.t :=
  let! slot := get_slot slot_id in
  st_ret (AgentSlot.status slot).

(* chisl-team/src/scheduler/wake.rs:11-20 build_wake_payload *)
Definition build_wake_payload (slot_id : string) : M WakePayload.t :=
  let! agent := get_agent slot_id in
  let! tasks := on_store (TaskBoard.list_tasks team_id) in
  let! unread := on_store (Mailbox.read_unread team_id slot_id) in
  st_ret (WakePayload.mk _ agent tasks unread).

(* chisl-team/src/scheduler/state.rs:30-44 try_wake *)
Definition try_wake (slot_id : string) : M (option WakePayload.t) :=
  let! current := get_status slot_id in
  if bool_decide (current ≠ TeammateStatus.Idle) then st_ret None
  else
    do! set_status slot_id TeammateStatus.Working in
    let! payload := build_wake_payload slot_id in
    st_ret (Some payload).

(** The loop of [maybe_wake_leader_when_all_idle] over the slots: the lead seen so
    far, whether a teammate was seen, and whether all teammates are settled; it
    breaks at the first unsettled teammate. *)
(* chisl-team/src/scheduler/state.rs:93-107 maybe_wake_leader_when_all_idle (loop) *)
Fixpoint scan_slots (l : list (string * AgentSlot.t)) (lead : option string)
    (has_teammates : bool) : option string * bool * bool :=
  match l with
  | [] => (lead, has_teammates, true)
  | (_, slot) :: l' =>
      if is_lead slot
      then scan_slots l' (Some (TeamAgent.slot_id (AgentSlot.agent slot))) has_teammates
      else if negb (is_settled (AgentSlot.status slot)) then (lead, true, false)
      else scan_slots l' lead true
  end.

(* chisl-team/src/scheduler/state.rs:90-139 maybe_wake_leader_when_all_idle *)
Definition maybe_wake_leader_when_all_idle : M (option string) := st_get (λ s,
  let '(lead, has_teammates, all_settled) := scan_slots (hm_iter (slots s)) None false in
  match lead with
  | None => None
  | Some lead_id =>
      if negb has_teammates then None
      else if negb all_settled then None
      else
        let lead_is_idle :=
          match slots s !! lead_id with
          | Some slot => bool_decide (AgentSlot.status slot = TeammateStatus.Idle)
          | None => false
          end in
        if negb lead_is_idle then None else Some lead_id
  end).

(* chisl-team/src/scheduler/state.rs:46-77 mark_idle *)
Definition mark_idle (slot_id : string) (summary : option string) : M (option string) :=
  do! set_status slot_id TeammateStatus.Idle in
  let! slot := get_slot slot_id in
  if is_lead slot then st_ret None
  else
    let! lead := find_lead_slot_id in
    do! (match lead with
         | Some lead_slot_id =>
             if String.eqb lead_slot_id slot_id then st_ret tt
             else
               do! on_store (Mailbox.write team_id lead_slot_id slot_id
                      MailboxMessageType.IdleNotification (default "idle" summary) summary) in
               st_ret tt
         | None => st_ret tt
         end) in
    maybe_wake_leader_when_all_idle.

(* chisl-team/src/scheduler/state.rs:79-88 take_needs_role_prompt *)
Definition take_needs_role_prompt (slot_id : string) : M bool := λ s,
  match slots s !! slot_id with
  | Some slot =>
      (set_slots (<[slot_id := AgentSlot.mk (AgentSlot.agent slot) (AgentSlot.status slot) false]>
                    (slots s)) s, Ok (AgentSlot.needs_role_prompt slot))
  | None => (s, Ok false)
  end.

(* chisl-team/src/scheduler/wake.rs:22-24 acquire_wake_lock *)
Definition acquire_wake_lock (slot_id : string) : M bool := λ s,
  (set_active_wakes ({[slot_id]} ∪ active_wakes s) s, Ok (bool_decide (slot_id ∉ active_wakes s))).
(* chisl-team/src/scheduler/wake.rs:26-28 release_wake_lock *)
Definition release_wake_lock (slot_id : string) : M unit :=
  st_modify (λ s, set_active_wakes (active_wakes s ∖ {[slot_id]}) s).
(* chisl-team/src/scheduler/wake.rs:30-32 is_wake_active *)
Definition is_wake_active (slot_id : string) : M bool :=
  st_get (λ s, bool_decide (slot_id ∈ active_wakes s)).
(* chisl-team/src/scheduler/wake.rs:34-38 clear_wake_timeout *)
Definition clear_wake_timeout (slot_id : string) : M unit := st_modify (λ s,
  match wake_timeouts s !! slot_id with
  | Some h => set_watchdogs (delete slot_id (wake_timeouts s)) (spawned s)
                ({[h]} ∪ aborted s) (arming s) (ended s) s
  | None => s
  end).
(** [tokio::spawn] gives the handle; the task runs from then on. *)
(* chisl-team/src/scheduler/wake.rs:46-80 arm_wake_timeout (tokio::spawn) *)
Definition spawn_watchdog (slot_id : string) : M nat := λ s,
  let handle := length (spawned s) in
  (set_watchdogs (wake_timeouts s) (spawned s ++ [slot_id]) (aborted s) ({[handle]} ∪ arming s)
     (ended s) s, Ok handle).
(* chisl-team/src/scheduler/wake.rs:82-84 arm_wake_timeout (map.insert) *)
Definition enter_watchdog (slot_id : string) (handle : nat) : M unit := st_modify (λ s,
  set_watchdogs (<[slot_id := handle]> (wake_timeouts s)) (spawned s)
    (match wake_timeouts s !! slot_id with
     | Some old => {[old]} ∪ aborted s
     | None => aborted s
     end) (arming s ∖ {[handle]}) (ended s) s).
(* chisl-team/src/scheduler/wake.rs:40-85 arm_wake_timeout *)
Definition arm_wake_timeout (slot_id : string) : M unit :=
  let! handle := spawn_watchdog slot_id in enter_watchdog slot_id handle.
(** The last line of a watchdog task, after its loop (the [watchdog] of [TeamTurn])
    and its handler: the slot's entry is removed, whichever task it is of, and a
    handle that is removed is dropped without [abort].  An [abort] stops a task where it
    awaits, so one that has left its loop can still come here. *)
(* chisl-team/src/scheduler/wake.rs:79-79 arm_wake_timeout (map_for_task.remove) *)
Definition end_watchdog (handle : nat) : M unit := st_modify (λ s,
  match spawned s !! handle, ended s !! handle with
  | Some slot_id, None =>
      set_watchdogs (delete slot_id (wake_timeouts s)) (spawned s) (aborted s) (arming s)
        (<[handle := bool_decide (handle ∉ arming s)]> (ended s)) s
  | _, _ => s
  end).

(* chisl-team/src/scheduler/agent_lifecycle.rs:8-25 add_agent *)
Definition add_agent (agent : TeamAgent.t) : M unit :=
  do! st_modify (λ s, set_slots
        (<[TeamAgent.slot_id agent := AgentSlot.mk agent TeammateStatus.Idle true]> (slots s)) s) in
  broadcast (TeamEventEmitter.agent_spawned team_id agent).

(* chisl-team/src/scheduler/agent_lifecycle.rs:45-49 clear_agent_state *)
Definition clear_agent_state (slot_id conversation_id : string) : M unit :=
  do! st_modify (λ s, set_active_wakes (active_wakes s ∖ {[slot_id]}) s) in
  do! clear_wake_timeout slot_id in
  st_modify (λ s, set_finalized_turns (delete conversation_id (finalized_turns s)) s).

(* chisl-team/src/scheduler/agent_lifecycle.rs:27-38 remove_agent *)
Definition remove_agent (slot_id : string) : M (option string) :=
  let! removed := get_slot slot_id in
  do! st_modify (λ s, set_slots (delete slot_id (slots s)) s) in
  let conversation_id := TeamAgent.conversation_id (AgentSlot.agent removed) in
  do! clear_agent_state slot_id conversation_id in
  do! broadcast (TeamEventEmitter.agent_removed team_id slot_id) in
  st_ret (Some conversation_id).

(* chisl-team/src/scheduler/agent_lifecycle.rs:40-43 notify_shutdown_acknowledged *)
Definition notify_shutdown_acknowledged (slot_id : string) : M unit :=
  broadcast (TeamEventEmitter.agent_shutdown team_id slot_id).

(* chisl-team/src/scheduler/agent_lifecycle.rs:51-78 rename_agent *)
Definition rename_agent (slot_id new_name : string) : M unit :=
  let normalized := normalize_name new_name in
  if String.eqb normalized EmptyString
  then st_fail (TeamError.InvalidRequest "rename_agent.new_name is empty after normalization")
  else
    let! target := get_slot slot_id in
    let! conflict := st_get (λ s,
      existsb (λ kv, negb (String.eqb (fst kv) slot_id) &&
        String.eqb (normalize_name (TeamAgent.name (AgentSlot.agent (snd kv)))) normalized)
        (hm_iter (slots s))) in
    if (conflict : bool) then st_fail (TeamError.DuplicateAgentName new_name)
    else
      let slot' := AgentSlot.mk (TeamAgent.set_name new_name (AgentSlot.agent target))
                     (AgentSlot.status target) (AgentSlot.needs_role_prompt target) in
      do! st_modify (λ s, set_slots (<[slot_id := slot']> (slots s)) s) in
      broadcast (TeamEventEmitter.agent_renamed team_id slot_id new_name).

(* chisl-team/src/scheduler/actions.rs:131-162 handle_send_message *)
Definition handle_send_message (from_slot_id to message : string) : M unit :=
  if String.eqb to "*" then
    let! targets := st_get (λ s,
      List.filter (λ id, negb (String.eqb id from_slot_id)) (map fst (hm_iter (slots s)))) in
    st_iter (λ target,
      do! on_store (Mailbox.write team_id target from_slot_id MailboxMessageType.Message
             message None) in
      st_ret tt) targets
  else
    do! on_store (Mailbox.write team_id to from_slot_id MailboxMessageType.Message message None) in
    st_ret tt.

(* chisl-team/src/scheduler/actions.rs:164-170 handle_idle_notification *)
Definition handle_idle_notification (from_slot_id : string) (summary : option string) :
    M (option string) := mark_idle from_slot_id summary.

(* chisl-team/src/scheduler/actions.rs:172-212 handle_shutdown_agent *)
Definition handle_shutdown_agent (from_slot_id target_slot_id : string) (reason : option string) :
    M unit :=
  let! from := get_slot from_slot_id in
  if negb (is_lead from)
  then st_fail (TeamError.InvalidRequest "only lead can shutdown agents")
  else
    let! target := get_slot target_slot_id in
    if is_lead target
    then st_fail (TeamError.InvalidRequest "cannot shutdown the team lead")
    else
      do! on_store (Mailbox.write team_id target_slot_id from_slot_id
             MailboxMessageType.ShutdownRequest (default "shutdown requested" reason) None) in
      st_ret tt.

(* chisl-team/src/scheduler/actions.rs:214-216 handle_rename_agent *)
Definition handle_rename_agent (slot_id new_name : string) : M unit := rename_agent slot_id new_name.

(* chisl-team/src/scheduler/actions.rs:45-114 execute_action *)
Definition execute_action (from_slot_id : string) (action : SchedulerAction) : M (option string) :=
  match action with
  | SendMessage to message =>
      do! handle_send_message from_slot_id to message in st_ret None
  | TaskCreate subject description owner blocked_by =>
      do! on_store (TaskBoard.create_task team_id subject description owner blocked_by) in
      st_ret None
  | TaskUpdate task_id status description owner blocked_by =>
      let update := TeamTaskBoard.TaskUpdate.mk (status ≫= TaskStatus.parse) description owner
                      blocked_by None in
      do! on_store (TaskBoard.update_task team_id task_id update) in
      st_ret None
  | IdleNotification summary => handle_idle_notification from_slot_id summary
  | SpawnAgent _ _ _ => st_ret None
  | ShutdownAgent slot_id reason =>
      do! handle_shutdown_agent from_slot_id slot_id reason in st_ret None
  | RenameAgent slot_id new_name =>
      do! handle_rename_agent slot_id new_name in st_ret None
  end.

(** The [for] loop of [finalize_turn]: other actions are executed, idle
    notifications are skipped and give the first summary. *)
(* chisl-team/src/scheduler/actions.rs:117-127 finalize_turn (loop) *)
Fixpoint finalize_actions (slot_id : string) (actions : list SchedulerAction)
    (summary : option string) : M (option string) :=
  match actions with
  | [] => st_ret summary
  | IdleNotification s :: actions' =>
      finalize_actions slot_id actions' (match summary with None => s | Some _ => summary end)
  | action :: actions' =>
      do! execute_action slot_id action in
      finalize_actions slot_id actions' summary
  end.

(* chisl-team/src/scheduler/actions.rs:116-129 finalize_turn *)
Definition finalize_turn (slot_id : string) (actions : list SchedulerAction) : M (option string) :=
  let! summary := finalize_actions slot_id actions None in
  mark_idle slot_id summary.

(* chisl-team/src/scheduler/crash_recovery.rs:105-130 write_crash_testament *)
Definition write_crash_testament (slot_id agent_name : string) (reason : CrashReason)
    (last_message : option string) : M unit :=
  let! lead := find_lead_slot_id in
  match lead with
  | None => st_ret tt
  | Some lead_slot_id =>
      if String.eqb lead_slot_id slot_id then st_ret tt
      else
        do! on_store (Mailbox.write team_id lead_slot_id slot_id MailboxMessageType.Message
               (format_crash_testament agent_name reason last_message) None) in
        st_ret tt
  end.

(* chisl-team/src/scheduler/crash_recovery.rs:40-66 handle_agent_crash *)
Definition handle_agent_crash (slot_id : string) (reason : CrashReason)
    (last_message : option string) : M (option string) :=
  let! slot := get_slot slot_id in
  let agent_name := TeamAgent.name (AgentSlot.agent slot) in
  do! write_crash_testament slot_id agent_name reason last_message in
  do! set_status slot_id TeammateStatus.Error in
  do! release_wake_lock slot_id in
  do! clear_wake_timeout slot_id in
  if is_lead slot then st_ret None else find_lead_slot_id.

(* chisl-team/src/scheduler/crash_recovery.rs:68-103 handle_inactivity_timeout *)
Definition handle_inactivity_timeout (slot_id : string) : M (option string) :=
  let! slot := get_slot slot_id in
  let agent_name := TeamAgent.name (AgentSlot.agent slot) in
  do! set_status slot_id TeammateStatus.Error in
  do! release_wake_lock slot_id in
  do! clear_wake_timeout slot_id in
  if is_lead slot then st_ret None
  else
    let! lead := find_lead_slot_id in
    match lead with
    | None => st_ret None
    | Some lead_slot_id =>
        do! on_store (Mailbox.write team_id lead_slot_id slot_id MailboxMessageType.Message
               ("Teammate '" +:+ agent_name +:+
                "' timed out after 60s of inactivity. Please investigate.") None) in
        st_ret (Some lead_slot_id)
    end.

(* chisl-team/src/scheduler/crash_recovery.rs:132-156 notify_shutdown_rejected *)
Definition notify_shutdown_rejected (from_slot_id reason : string) : M unit :=
  let! lead := find_lead_slot_id in
  match lead with
  | None => st_ret tt
  | Some lead_slot_id =>
      if String.eqb lead_slot_id from_slot_id then st_ret tt
      else
        let! agent := st_try (get_agent from_slot_id) in
        let agent_name := match agent with Ok a => TeamAgent.name a | Err _ => from_slot_id end in
        do! on_store (Mailbox.write team_id lead_slot_id from_slot_id MailboxMessageType.Message
               ("Teammate '" +:+ agent_name +:+ "' declined shutdown: " +:+ reason) None) in
        st_ret tt
  end.

(** [Instant::now()] is the argument [now]; the spawned timer is [expire_finalize]. *)
(* chisl-team/src/scheduler/dedup.rs:6-22 begin_finalize *)
Definition begin_finalize (now : Z) (conversation_id : string) : M bool := λ s,
  let should_proceed :=
    match finalized_turns s !! conversation_id with
    | Some entry => negb (now - entry <? FINALIZE_DEDUP_WINDOW)
    | None => true
    end in
  (if should_proceed
   then set_finalized_turns (<[conversation_id := now]> (finalized_turns s)) s else s,
   Ok should_proceed).

(** The task [begin_finalize] spawns, once its sleep is over. *)
(* chisl-team/src/scheduler/dedup.rs:16-19 begin_finalize (timer) *)
Definition expire_finalize (conversation_id : string) : M unit :=
  st_modify (λ s, set_finalized_turns (delete conversation_id (finalized_turns s)) s).

(* chisl-team/src/scheduler/dedup.rs:24-26 clear_finalized_turn *)
Definition clear_finalized_turn (conversation_id : string) : M unit :=
  st_modify (λ s, set_finalized_turns (delete conversation_id (finalized_turns s)) s).
End ops.
End Scheduler.
