(* ===== verification/TeamSchedulerFacts.v ===== *)
(** * TeamSchedulerFacts: what the scheduler guarantees

    Equations for the methods of [TeammateManager], the invariant of its reachable
    states (slots are filed under their own id, identifiers stay fresh, a replaced
    or cleared watchdog is always aborted), and the properties of the turn life
    cycle: waking, idling, broadcasting, shutting down, crashing, deduplicating. *)

From S2P Require Import Prelude.
From S2P Require Import Text.
From S2P Require Import Json.
From S2P Require Import TeamTypes.
From S2P Require Import TeamRepo.
From S2P Require Import TeamRepoSqlite.
From S2P Require Import TeamEvents.
From S2P Require Import TeamMailbox.
From S2P Require Import TeamTaskBoard.
From S2P Require Import TeamScheduler.
Import Scheduler.

Section facts.
Context {Db : Type} {SJ : SerdeJson} {TR : ITeamRepository Db} {TS : TeamRepositorySpec Db}
  {AM : Ambient} {UC : Unicode} {HI : HashIter AgentSlot.t} (team_id : string).
Implicit Types s : TeammateManager Db.
Implicit Types k l : string.
Local Abbreviation agent_id slot := (TeamAgent.slot_id (AgentSlot.agent slot)).
Local Abbreviation store_ok := Mailbox.store_ok.

(* ------------------------------------------------------------------ *)
(** ** Equations of the methods *)

Lemma get_slot_some k slot s : slots s !! k = Some slot → get_slot k s = (s, Ok slot).
Proof. unfold get_slot. by intros ->. Qed.
Lemma get_slot_none k s :
  slots s !! k = None → get_slot k s = (s, Err (TeamError.AgentNotFound k)).
Proof. unfold get_slot. by intros ->. Qed.

Definition with_status (st : TeammateStatus.t) (slot : AgentSlot.t) : AgentSlot.t :=
  AgentSlot.mk (TeamAgent.set_status (Some st) (AgentSlot.agent slot)) st
    (AgentSlot.needs_role_prompt slot).

(** The state after [set_status] on a known slot. *)
Definition status_set k st slot s : TeammateManager Db :=
  add_event (TeamEventEmitter.agent_status team_id k st)
    (set_slots (<[k := with_status st slot]> (slots s)) s).

Lemma set_status_some k st slot s :
  slots s !! k = Some slot → set_status team_id k st s = (status_set k st slot s, Ok tt).
Proof. intros Hk. unfold set_status. by rewrite (st_bind_ok _ _ _ _ _ (get_slot_some _ _ _ Hk)). Qed.
Lemma set_status_none k st s :
  slots s !! k = None → set_status team_id k st s = (s, Err (TeamError.AgentNotFound k)).
Proof. intros Hk. unfold set_status. by rewrite (st_bind_err _ _ _ _ _ (get_slot_none _ _ Hk)). Qed.

Lemma on_store_ok {A} (m : ST (Store Db) TeamError.t A) s st' a :
  m (store s) = (st', Ok a) → on_store m s = (set_store st' s, Ok a).
Proof. intros Hm. unfold on_store, st_on. by rewrite Hm. Qed.

Lemma lead_with_status st slot : is_lead (with_status st slot) = is_lead slot.
Proof. done. Qed.

(* ------------------------------------------------------------------ *)
(** ** The lead and the scan of the slots *)

(** Slots are filed under their agent's id. *)
Definition keyed s : Prop := map_Forall (λ k slot, agent_id slot = k) (slots s).

(** [l] is the only lead of the team. *)
Definition unique_lead s l : Prop :=
  (∃ slot, slots s !! l = Some slot ∧ is_lead slot = true) ∧
  (∀ k slot, slots s !! k = Some slot → is_lead slot = true → k = l).

Lemma find_lead_unique s l :
  keyed s → unique_lead s l → find_lead_slot_id s = (s, Ok (Some l)).
Proof.
  intros Hk [(slot & Hl & Hlead) Huniq]. unfold find_lead_slot_id, st_get.
  destruct (List.find _ _) as [[k' slot']|] eqn:Hf.
  - apply find_Some_elem in Hf as [Hin Hlead']. simpl in *. apply elem_of_hm_iter in Hin.
    rewrite (Hk _ _ Hin). by rewrite (Huniq _ _ Hin Hlead').
  - rewrite find_None_elem in Hf. apply elem_of_hm_iter in Hl. apply Hf in Hl. simpl in Hl. congruence.
Qed.

Lemma find_lead_none s :
  (∀ k slot, slots s !! k = Some slot → is_lead slot = false) →
  find_lead_slot_id s = (s, Ok None).
Proof.
  intros Hno. unfold find_lead_slot_id, st_get.
  destruct (List.find _ _) as [[k' slot']|] eqn:Hf; [|done].
  apply find_Some_elem in Hf as [Hin Hlead']. simpl in *. apply elem_of_hm_iter in Hin.
  rewrite (Hno _ _ Hin) in Hlead'. done.
Qed.

(** Every teammate (non-lead) of the list is settled. *)
Definition all_settled (l : list (string * AgentSlot.t)) : Prop :=
  ∀ k slot, (k, slot) ∈ l → is_lead slot = false → is_settled (AgentSlot.status slot) = true.

Lemma scan_slots_unsettled sl lead ht :
  ¬ all_settled sl → snd (scan_slots sl lead ht) = false.
Proof.
  revert lead ht. induction sl as [|[k slot] sl IH]; intros lead ht Hn; simpl.
  - destruct Hn. intros k slot Hin. by apply not_elem_of_nil in Hin.
  - destruct (is_lead slot) eqn:Hlead; [|destruct (is_settled (AgentSlot.status slot)) eqn:Hst; simpl].
    + apply IH. intros Ha. apply Hn. intros k' slot' [E|Hin]%elem_of_cons Hl;
        [simplify_eq; congruence|by eapply Ha].
    + apply IH. intros Ha. apply Hn. intros k' slot' [E|Hin]%elem_of_cons Hl;
        [by simplify_eq|by eapply Ha].
    + done.
Qed.

Lemma scan_slots_settled sl lead ht :
  all_settled sl →
  ∃ lead', scan_slots sl lead ht =
      (lead', ht || existsb (λ kv, negb (is_lead (snd kv))) sl, true) ∧
    (lead' = lead ∨ ∃ k slot, (k, slot) ∈ sl ∧ is_lead slot = true ∧ lead' = Some (agent_id slot)) ∧
    ((∃ k slot, (k, slot) ∈ sl ∧ is_lead slot = true) → ∃ k slot, (k, slot) ∈ sl ∧
       is_lead slot = true ∧ lead' = Some (agent_id slot)).
Proof.
  revert lead ht. induction sl as [|[k slot] sl IH]; intros lead ht Ha; simpl.
  - exists lead. rewrite orb_false_r. split_and!; [done|by left|].
    intros (k & slot & Hin & _). by apply not_elem_of_nil in Hin.
  - assert (Ha' : all_settled sl). { intros k' slot' Hin. apply (Ha k'). set_solver. }
    destruct (is_lead slot) eqn:Hlead.
    + destruct (IH (Some (agent_id slot)) ht Ha') as (lead' & Hscan & Hl & Hex). exists lead'.
      rewrite Hscan. simpl. split_and!; [done| |].
      * destruct Hl as [->|(k' & slot' & ? & ? & ?)]; right; [exists k, slot|exists k', slot'];
          rewrite elem_of_cons; auto.
      * intros _. destruct Hl as [->|(k' & slot' & ? & ? & ?)]; [exists k, slot|exists k', slot'];
          rewrite elem_of_cons; auto.
    + rewrite (Ha k slot) by (auto; set_solver). simpl.
      destruct (IH lead true Ha') as (lead' & Hscan & Hl & Hex). exists lead'.
      rewrite Hscan. simpl. rewrite orb_true_r. split_and!; [done| |].
      * destruct Hl as [->|(k' & slot' & ? & ? & ?)]; [by left|]. right. exists k', slot'.
        rewrite elem_of_cons. auto.
      * intros (k' & slot' & [E|Hin]%elem_of_cons & Hl'); [simplify_eq; congruence|].
        destruct Hex as (k2 & slot2 & ? & ? & ?); [eauto|]. exists k2, slot2.
        rewrite elem_of_cons. auto.
Qed.

(** The team is waiting for its idle lead [l]: it has teammates and all are settled. *)
Definition lead_should_wake s l : Prop :=
  (∃ slot, slots s !! l = Some slot ∧ AgentSlot.status slot = TeammateStatus.Idle) ∧
  (∃ k slot, slots s !! k = Some slot ∧ is_lead slot = false) ∧
  (∀ k slot, slots s !! k = Some slot → is_lead slot = false →
     is_settled (AgentSlot.status slot) = true).

Lemma maybe_wake_scan s l :
  keyed s → unique_lead s l →
  (lead_should_wake s l → maybe_wake_leader_when_all_idle s = (s, Ok (Some l))) ∧
  (¬ lead_should_wake s l → maybe_wake_leader_when_all_idle s = (s, Ok None)).
Proof.
  intros Hk [(lslot & Hl & Hlead) Huniq].
  assert (Hsettled : all_settled (hm_iter (slots s)) ↔
    ∀ k slot, slots s !! k = Some slot → is_lead slot = false →
      is_settled (AgentSlot.status slot) = true).
  { unfold all_settled. by setoid_rewrite elem_of_hm_iter. }
  assert (Hteam : existsb (λ kv, negb (is_lead (snd kv))) (hm_iter (slots s)) = true ↔
    ∃ k slot, slots s !! k = Some slot ∧ is_lead slot = false).
  { rewrite existsb_exists. setoid_rewrite <- list_elem_of_In. split.
    - intros ([k slot] & Hin%elem_of_hm_iter & Hn%negb_true_iff). eauto.
    - intros (k & slot & Hin%elem_of_hm_iter & Hn). exists (k, slot). by rewrite negb_true_iff. }
  unfold maybe_wake_leader_when_all_idle, st_get, lead_should_wake.
  split.
  - intros ((lslot' & Hl' & Hidle) & Hex & Hall). simplify_eq.
    destruct (scan_slots_settled (hm_iter (slots s)) None false) as (lead' & -> & _ & Hin).
    { by apply Hsettled. }
    rewrite (proj2 Hteam Hex). destruct Hin as (k & slot & Hin%elem_of_hm_iter & Hld & ->).
    { exists l, lslot. by rewrite elem_of_hm_iter. }
    simpl. rewrite (Hk _ _ Hin), (Huniq _ _ Hin Hld), Hl. by rewrite bool_decide_eq_true_2.
  - intros Hn. do 2 f_equal. destruct (scan_slots (hm_iter (slots s)) None false) as [[lead ht] st] eqn:Hscan.
    destruct lead as [lead|]; [|done]. destruct ht eqn:Eht; [|done]. destruct st eqn:Est; [|done]. simpl.
    assert (Hall : all_settled (hm_iter (slots s))).
    { destruct (decide (forallb (λ kv, is_lead (snd kv) || is_settled (AgentSlot.status (snd kv)))
        (hm_iter (slots s)) = true)) as [Hb|Hb].
      - intros k slot Hin Hld. rewrite forallb_forall in Hb. apply list_elem_of_In in Hin.
        specialize (Hb _ Hin). simpl in Hb. by rewrite Hld in Hb.
      - exfalso. assert (snd (scan_slots (hm_iter (slots s)) None false) = false) as E;
          [|by rewrite Hscan in E].
        apply scan_slots_unsettled. intros Ha. apply Hb. apply forallb_forall.
        intros [k slot] Hin%list_elem_of_In. simpl. destruct (is_lead slot) eqn:Hld; [done|]. by eapply Ha. }
    destruct (scan_slots_settled _ None false Hall) as (lead' & Hscan' & Hor & _).
    rewrite Hscan in Hscan'. injection Hscan' as Hlead' Hht.
    destruct Hor as [?|(k & slot & Hin%elem_of_hm_iter & Hld & Heq)]; [congruence|].
    rewrite (Hk _ _ Hin), (Huniq _ _ Hin Hld) in Heq. simplify_eq. rewrite Hl.
    case_bool_decide as Hidle; [|done]. exfalso. apply Hn. split; [eauto|]. split; [by apply Hteam|].
    by apply Hsettled.
Qed.

#[export] Instance lead_should_wake_dec s l : Decision (lead_should_wake s l).
Proof.
  unfold lead_should_wake. apply and_dec; [|apply and_dec].
  - destruct (slots s !! l) as [slot|].
    + destruct (decide (AgentSlot.status slot = TeammateStatus.Idle)) as [H|H].
      * left. eauto.
      * right. intros (? & [= <-] & ?). done.
    + right. by intros (? & ? & _).
  - destruct (decide (map_Forall (λ _ slot, is_lead slot = true) (slots s))) as [H|H].
    + right. intros (k & slot & Hk & Hl). specialize (H k slot Hk). simpl in H. congruence.
    + left. apply map_not_Forall in H; [|intros; exact _].
      destruct H as (k & slot & Hk & Hl). exists k, slot. split; [done|]. by destruct (is_lead slot).
  - destruct (decide (map_Forall (λ _ slot, is_lead slot = false →
      is_settled (AgentSlot.status slot) = true) (slots s))) as [H|H]; [by left|by right].
Defined.

Lemma maybe_wake_total s l :
  keyed s → unique_lead s l →
  ∃ r, maybe_wake_leader_when_all_idle s = (s, Ok r) ∧
    (r = Some l ↔ lead_should_wake s l) ∧ (r = None ↔ ¬ lead_should_wake s l).
Proof.
  intros Hk Hu. destruct (maybe_wake_scan s l Hk Hu) as [Hy Hn].
  destruct (decide (lead_should_wake s l)) as [Hw|Hw]; eexists; (split; [by auto|]); naive_solver.
Qed.

(** Whatever the iteration order of the slots, the all-idle check names the
    lead exactly when the lead is idle and the team has teammates, all of them
    idle, completed or failed; otherwise it answers [None]; it changes nothing. *)
Lemma maybe_wake_leader_spec s l :
  keyed s → unique_lead s l →
  ∃ r, maybe_wake_leader_when_all_idle s = (s, Ok r) ∧
    (r = Some l ↔ lead_should_wake s l) ∧ (r = None ↔ ¬ lead_should_wake s l).
Proof. exact (maybe_wake_total s l). Qed.

(* ------------------------------------------------------------------ *)
(** ** Idling and finalizing a turn *)

(** The mailbox rows of a manager. *)
Definition mail s : list MailboxMessageRow.t := rs_mailbox (st_db (store s)).

(** One message was added: [row] is new, everything else is as before. *)
Definition mailed (row : MailboxMessageRow.t) s s' : Prop :=
  mail s' = mail s ++ [row] ∧ store_ok (store s').

Definition message_row s to from ty content summary : MailboxMessageRow.t :=
  Mailbox.new_row (store s) team_id to from ty content summary None.

Lemma write_on_store s to from ty content summary :
  store_ok (store s) →
  ∃ st' m, on_store (Mailbox.write team_id to from ty content summary) s =
      (set_store st' s, Ok m) ∧
    mailed (message_row s to from ty content summary) s (set_store st' s).
Proof.
  intros Hs. destruct (Mailbox.write_with_files_eq (store s) team_id to from ty content summary None Hs)
    as (db' & Hw & Hok & Hmb & _).
  eexists _, _. split; [by apply on_store_ok|]. split; [exact Hmb|].
  by eapply Mailbox.write_store_ok.
Qed.

Lemma keyed_insert_status k st slot s :
  keyed s → slots s !! k = Some slot → keyed (status_set k st slot s).
Proof.
  intros Hk Hs. unfold keyed, status_set. simpl. apply map_Forall_insert_2; [|done].
  simpl. by apply Hk.
Qed.

Lemma unique_lead_status k st slot s l :
  slots s !! k = Some slot → unique_lead s l → unique_lead (status_set k st slot s) l.
Proof.
  intros Hs [(lslot & Hl & Hlead) Huniq]. unfold unique_lead, status_set. simpl. split.
  - destruct (decide (k = l)) as [->|Hne].
    + exists (with_status st slot). rewrite lookup_insert_eq. split; [done|].
      rewrite lead_with_status. by simplify_eq.
    + exists lslot. by rewrite lookup_insert_ne.
  - intros k' slot'. destruct (decide (k = k')) as [->|Hne].
    + rewrite lookup_insert_eq. intros [= <-]. rewrite lead_with_status. by apply Huniq.
    + rewrite lookup_insert_ne by done. apply Huniq.
Qed.

Lemma set_store_slots st s : slots (set_store st s) = slots s.
Proof. done. Qed.

(** What going idle does to a team with one lead. *)
Lemma mark_idle_total s k l slot summary :
  keyed s → store_ok (store s) → unique_lead s l → slots s !! k = Some slot →
  ∃ s' r, mark_idle team_id k summary s = (s', Ok r) ∧
    slots s' = <[k := with_status TeammateStatus.Idle slot]> (slots s) ∧
    events s' = events s ++ [TeamEventEmitter.agent_status team_id k TeammateStatus.Idle] ∧
    (is_lead slot = true → r = None ∧ mail s' = mail s) ∧
    (is_lead slot = false →
       mailed (message_row s l k MailboxMessageType.IdleNotification (default "idle" summary) summary)
         s s' ∧ (r = Some l ↔ lead_should_wake s' l) ∧ (r = None ↔ ¬ lead_should_wake s' l)).
Proof.
  intros Hk Hst Hu Hslot. unfold mark_idle.
  rewrite (st_bind_ok _ _ _ _ _ (set_status_some k TeammateStatus.Idle slot s Hslot)).
  set (s1 := status_set k TeammateStatus.Idle slot s).
  assert (Hk1 : slots s1 !! k = Some (with_status TeammateStatus.Idle slot))
    by (simpl; apply lookup_insert_eq).
  rewrite (st_bind_ok _ _ _ _ _ (get_slot_some _ _ _ Hk1)), lead_with_status.
  destruct (is_lead slot) eqn:Hlead.
  - eexists s1, None. split_and!; try done.
  - assert (keyed s1) as Hkeyed1 by by apply keyed_insert_status.
    assert (unique_lead s1 l) as Hu1 by by apply unique_lead_status.
    rewrite (st_bind_ok _ _ _ _ _ (find_lead_unique s1 l Hkeyed1 Hu1)).
    assert (l ≠ k) as Hne.
    { intros ->. destruct Hu as [(lslot & ? & ?) _]. congruence. }
    rewrite (proj2 (String.eqb_neq l k) Hne).
    destruct (write_on_store s1 l k MailboxMessageType.IdleNotification (default "idle" summary) summary)
      as (st' & m & Hw & Hmail); [done|].
    rewrite (st_bind_ok _ _ s1 (set_store st' s1) tt) by by rewrite (st_bind_ok _ _ _ _ _ Hw).
    destruct (maybe_wake_total (set_store st' s1) l Hkeyed1 Hu1) as (r & Hr & Hyes & Hno).
    exists (set_store st' s1), r. by split_and!.
Qed.

(** When a teammate goes idle, its status is set and broadcast, the team's
    lead receives one idle notification carrying the summary ("idle" without one),
    and the answer names the lead exactly when it should now wake; when the lead
    itself goes idle nobody is notified. *)
Lemma mark_idle_notifies s k l slot summary :
  keyed s → store_ok (store s) → unique_lead s l → slots s !! k = Some slot →
  ∃ s' r, mark_idle team_id k summary s = (s', Ok r) ∧
    slots s' = <[k := with_status TeammateStatus.Idle slot]> (slots s) ∧
    events s' = events s ++ [TeamEventEmitter.agent_status team_id k TeammateStatus.Idle] ∧
    (is_lead slot = true → r = None ∧ mail s' = mail s) ∧
    (is_lead slot = false →
       mailed (message_row s l k MailboxMessageType.IdleNotification (default "idle" summary) summary)
         s s' ∧ (r = Some l ↔ lead_should_wake s' l) ∧ (r = None ↔ ¬ lead_should_wake s' l)).
Proof. exact (mark_idle_total s k l slot summary). Qed.

Definition idle_summary (a : SchedulerAction) : option (option string) :=
  match a with IdleNotification s => Some s | _ => None end.
(** The first summary given by the idle notifications of a turn. *)
Definition first_summary (actions : list SchedulerAction) : option string :=
  head (omap (λ x, x) (omap idle_summary actions)).

(** C40: finalizing a turn executes its actions in order, idle notifications
    excepted, then marks the agent idle once, with the first summary given. *)
Theorem finalize_turn_refines k actions s :
  finalize_turn team_id k actions s =
  (do! st_iter (λ a, do! execute_action team_id k a in st_ret tt)
        (List.filter (λ a, match idle_summary a with Some _ => false | None => true end) actions) in
   mark_idle team_id k (first_summary actions)) s.
Proof.
  unfold finalize_turn.
  assert (∀ summary s, finalize_actions team_id k actions summary s =
    (do! st_iter (λ a, do! execute_action team_id k a in st_ret tt)
        (List.filter (λ a, match idle_summary a with Some _ => false | None => true end) actions) in
     st_ret (match summary with Some _ => summary | None => first_summary actions end)) s) as Hloop.
  { unfold first_summary. induction actions as [|a actions IH]; intros summary s0.
    - by destruct summary.
    - destruct (idle_summary a) as [sm|] eqn:E; simpl; rewrite E.
      + destruct a; simplify_eq/=. rewrite IH. by destruct summary, sm.
      + transitivity ((do! execute_action team_id k a in finalize_actions team_id k actions summary) s0);
          [by destruct a|].
        simpl. unfold st_bind in *. destruct (execute_action team_id k a s0) as [s1 [r|e]]; [|done].
        simpl. by rewrite IH. }
  unfold st_bind. rewrite Hloop. unfold st_bind. by destruct (st_iter _ _ _) as [s1 [[]|e]].
Qed.

(* ------------------------------------------------------------------ *)
(** ** The store under the methods *)

(** A repository call that keeps the rows' identifiers keeps the store well formed. *)
Lemma repo_preserves {A} (m : ST Db DbError.t A) :
  (∀ db, rs_ok db → ∃ db' r, m db = (db', r) ∧ rs_ok db' ∧
     mailbox_ids (rs_mailbox db') = mailbox_ids (rs_mailbox db) ∧
     task_ids (rs_tasks db') = task_ids (rs_tasks db)) →
  preserves store_ok (repo m).
Proof.
  intros Hm st [Hok Hfresh]. destruct (Hm (st_db st) Hok) as (db' & r & Hr & Hok' & Hmb & Htk).
  unfold repo, st_map_err, st_on. rewrite Hr. split; [done|]. intros n Hn. simpl.
  rewrite Hmb, Htk. by apply Hfresh.
Qed.

Lemma preserves_now : preserves store_ok (now_ms (E:=TeamError.t)).
Proof. by intros st [Hok Hfresh]. Qed.

Lemma preserves_write team to from ty content summary :
  preserves store_ok (Mailbox.write team to from ty content summary).
Proof.
  intros st Hst. unfold Mailbox.write.
  destruct (Mailbox.write_with_files _ _ _ _ _ _ _ st) as [st' r] eqn:E.
  by eapply Mailbox.write_store_ok.
Qed.

Lemma preserves_read_unread team agent : preserves store_ok (Mailbox.read_unread team agent).
Proof.
  apply preserves_bind; [|intros; apply preserves_ret]. apply repo_preserves. intros db Hok.
  destruct (read_unread_and_mark_spec team agent db Hok) as (db' & Hr & Hok' & Hmb & Htk).
  eexists _, _. split; [exact Hr|]. by rewrite Hmb, Htk, SqliteTeamRepository.mailbox_ids_mark.
Qed.

Lemma preserves_find team task : preserves store_ok (repo (find_task_by_id team task)).
Proof.
  apply repo_preserves. intros db Hok. eexists _, _. split; [apply find_task_by_id_spec|done].
Qed.

Lemma preserves_list_tasks team : preserves store_ok (TaskBoard.list_tasks team).
Proof.
  apply preserves_bind; [|intros; apply preserves_ret]. apply repo_preserves.
  intros db Hok. eexists _, _. split; [apply list_tasks_spec|done].
Qed.

Lemma preserves_append task b :
  preserves store_ok (let! now := now_ms in repo (append_to_blocks now task b)).
Proof.
  apply preserves_bind; [apply preserves_now|]. intros now. apply repo_preserves. intros db Hok.
  destruct (append_to_blocks_spec now task b db Hok) as (db' & Hr & Hok' & Htk & Hmb).
  eexists _, _. split; [exact Hr|]. by rewrite Hmb, Htk, SqliteTeamRepository.task_ids_update.
Qed.

Lemma preserves_remove task b :
  preserves store_ok (let! now := now_ms in repo (remove_from_blocked_by now task b)).
Proof.
  apply preserves_bind; [apply preserves_now|]. intros now. apply repo_preserves. intros db Hok.
  destruct (remove_from_blocked_by_spec now task b db Hok) as (db' & Hr & Hok' & Htk & Hmb).
  eexists _, _. split; [exact Hr|]. by rewrite Hmb, Htk, SqliteTeamRepository.task_ids_update.
Qed.

Lemma preserves_create_task team subject description owner deps :
  preserves store_ok (TaskBoard.create_task team subject description owner deps).
Proof.
  apply preserves_bind.
  { apply preserves_iter. intros d. apply preserves_bind; [apply preserves_find|].
    intros [r|]; [apply preserves_ret|apply preserves_fail]. }
  intros _ st [Hok Hfresh]. rewrite id_bind, now_bind.
  destruct (create_task_spec (TaskBoard.new_task_row st team subject description owner deps) (st_db st))
    as (db1 & Hc & Hok1 & Ht1 & Hm1);
    [done|by apply Hfresh|apply TaskBoard.task_status_ok_to_string|].
  rewrite (st_bind_ok _ _ _ _ _ (repo_ok _ (tick (bump_id st)) _ _ Hc)).
  apply preserves_bind; [apply preserves_iter; intros d; apply preserves_append| |].
  { intros _. apply preserves_lift. }
  split; [done|]. intros n Hn. simpl in *. rewrite Hm1, Ht1. destruct (Hfresh n) as [? Hf]; [lia|].
  split; [done|]. unfold task_ids in *. rewrite map_app, elem_of_app. simpl.
  rewrite list_elem_of_singleton. intros [Hbad|Hbad%id_at_inj]; [done|lia].
Qed.

Lemma preserves_update_task team task update :
  preserves store_ok (TaskBoard.update_task team task update).
Proof.
  intros st Hst. unfold TaskBoard.update_task.
  rewrite (st_bind_ok _ _ _ _ _ (TaskBoard.find_repo team task st)).
  destruct (find_row (TaskBoard.is_task team task) (TaskBoard.tasks_of st)) as [row|] eqn:Hf; [|done].
  unfold st_bind at 1, st_lift at 1. cbn [ok_or].
  revert st Hst Hf. intros st Hst Hf. rewrite now_bind.
  destruct (TaskBoard.find_is_task _ _ _ _ Hf) as (Hrow & Hid & _).
  set (p := UpdateTaskParams.mk _ _ _ _ _).
  destruct (update_task_spec (time_at (st_ticks st)) task p (st_db st))
    as (db1 & Hu & Hok1 & Ht1 & Hm1); [apply Hst|by rewrite <- Hid; apply TaskBoard.in_task_ids| |].
  { unfold p; simpl. intros x Hx. destruct (TeamTaskBoard.TaskUpdate.status update); simplify_eq/=.
    apply TaskBoard.task_status_ok_to_string. }
  rewrite (st_bind_ok _ _ _ _ _ (repo_ok _ (tick st) _ _ Hu)).
  match goal with |- store_ok (fst (st_bind ?m ?f ?s0)) =>
    assert (preserves store_ok (st_bind m f)) as Hp; [|apply Hp] end.
  - apply preserves_bind; [|intros _; apply preserves_bind; [apply preserves_find|]].
    + case_bool_decide; [|apply preserves_ret]. apply preserves_bind; [apply preserves_lift|].
      intros bl. apply preserves_iter. intros b. apply preserves_remove.
    + intros found. apply preserves_bind; [apply preserves_lift|]. intros u. apply preserves_lift.
  - assert (task_ids (rs_tasks db1) = task_ids (rs_tasks (st_db st))) as Hids.
    { rewrite Ht1. destruct (no_clauses p); [done|]. by rewrite SqliteTeamRepository.task_ids_update. }
    destruct Hst as [Hok Hfresh]. split; [done|]. intros n Hn. cbn [st_db st_ids tick] in *.
    rewrite Hm1, Hids. by apply Hfresh.
Qed.

(* ------------------------------------------------------------------ *)
(** ** The invariant of the reachable states *)

(** What holds of the watchdogs: an entered handle is of a task spawned for its slot,
    it was not aborted, and its task has not ended since it was entered; aborted and
    arming handles are of spawned tasks, and a handle is entered once.  A task spawned
    for a slot is in the table, was aborted, has ended, is about to be entered, or was
    cut loose: another watchdog of the slot ended and took its entry away. *)
Definition watchdogs_ok s : Prop :=
  (∀ k h, wake_timeouts s !! k = Some h →
     spawned s !! h = Some k ∧ h ∉ aborted s ∧ h ∉ arming s ∧ ended s !! h ≠ Some true) ∧
  (∀ h, h ∈ aborted s → is_Some (spawned s !! h) ∧ h ∉ arming s) ∧
  (∀ h, h ∈ arming s → is_Some (spawned s !! h) ∧ ended s !! h ≠ Some true) ∧
  (∀ h, is_Some (ended s !! h) → is_Some (spawned s !! h)) ∧
  (∀ h k, spawned s !! h = Some k →
     h ∈ aborted s ∨ h ∈ arming s ∨ wake_timeouts s !! k = Some h ∨ is_Some (ended s !! h) ∨
     ∃ h', h' ≠ h ∧ spawned s !! h' = Some k ∧ is_Some (ended s !! h')).

Definition manager_ok s : Prop := keyed s ∧ store_ok (store s) ∧ watchdogs_ok s.

Lemma ok_on_store {A} (m : ST (Store Db) TeamError.t A) :
  preserves store_ok m → preserves manager_ok (on_store m).
Proof.
  intros Hm. eapply preserves_on; [exact Hm|by intros s (_ & ? & _)|].
  intros s t (? & ? & ?) Ht. split_and!; done.
Qed.

Lemma ok_broadcast e : preserves manager_ok (broadcast e).
Proof. apply preserves_modify. by intros s. Qed.

Lemma ok_get_slot k : preserves manager_ok (get_slot k).
Proof. by intros s. Qed.

Lemma ok_insert_slot k slot s :
  manager_ok s → agent_id slot = k → manager_ok (set_slots (<[k:=slot]> (slots s)) s).
Proof.
  intros (Hk & ? & ?) Hid. split_and!; [|done|done]. by apply map_Forall_insert_2.
Qed.

Lemma ok_set_status k st : preserves manager_ok (set_status team_id k st).
Proof.
  intros s Hs. destruct (slots s !! k) as [slot|] eqn:Hk.
  - rewrite (set_status_some _ _ _ _ Hk). apply (ok_insert_slot k (with_status st slot)); [done|].
    exact (proj1 Hs k slot Hk).
  - by rewrite (set_status_none _ _ _ Hk).
Qed.

Lemma ok_find_lead : preserves manager_ok find_lead_slot_id.
Proof. apply preserves_get. Qed.

Lemma ok_write to from ty content summary :
  preserves manager_ok (do! on_store (Mailbox.write team_id to from ty content summary) in st_ret tt).
Proof.
  apply preserves_bind; [apply ok_on_store, preserves_write|intros; apply preserves_ret].
Qed.

Lemma ok_clear_wake_timeout k : preserves manager_ok (clear_wake_timeout k).
Proof.
  apply preserves_modify. intros s Hs. destruct (wake_timeouts s !! k) as [h|] eqn:Hh; [|done].
  destruct Hs as (? & ? & He & Hab & Har & Hen & Hsp). split_and!; [done|done|].
  destruct (He k h Hh) as (Hk & Hnab & Hnar & _). split_and!; simpl.
  - intros k' h' [Hne Hk']%lookup_delete_Some. destruct (He k' h' Hk') as (Hk'' & ? & ? & ?).
    split_and!; [done| |done|done]. rewrite elem_of_union, elem_of_singleton. intros [->|?]; congruence.
  - intros h'. rewrite elem_of_union, elem_of_singleton. intros [->|?]; [|auto]. split; [by eexists|done].
  - done.
  - done.
  - intros h' k' Hk'. rewrite elem_of_union, elem_of_singleton.
    destruct (Hsp h' k' Hk') as [?|[?|[Hw|?]]]; [auto..| |auto].
    destruct (decide (k = k')) as [<-|Hne]; [left; left; congruence|].
    right; right; left. by rewrite lookup_delete_ne.
Qed.

Lemma spawn_manager_ok k s : manager_ok s →
  let s' := fst (spawn_watchdog k s) in let h := length (spawned s) in
  manager_ok s' ∧ h ∈ arming s' ∧ spawned s' !! h = Some k.
Proof.
  intros (? & ? & He & Hab & Har & Hen & Hsp). unfold spawn_watchdog. cbn [fst].
  set (h := length (spawned s)).
  assert (∀ i j, spawned s !! i = Some j → (spawned s ++ [k]) !! i = Some j ∧ i ≠ h) as Hold.
  { intros i j Hi. assert (i < h)%nat by by eapply lookup_lt_Some.
    split; [by rewrite lookup_app_l|lia]. }
  assert (∀ i, is_Some (spawned s !! i) → is_Some ((spawned s ++ [k]) !! i) ∧ i ≠ h) as Hold'.
  { intros i [j Hj]. destruct (Hold i j Hj). split; [by eexists|done]. }
  assert ((spawned s ++ [k]) !! h = Some k) as Hnew by by apply list_lookup_middle.
  split; [|split; [set_solver|done]]. split_and!; [done|done|]. split_and!; simpl.
  - intros k' h' Hk'. destruct (He k' h' Hk') as (Hs' & ? & ? & ?). destruct (Hold _ _ Hs').
    split_and!; [done|done|set_solver|done].
  - intros h' Hin. destruct (Hab h' Hin) as [Hs' ?]. destruct (Hold' _ Hs'). split; [done|set_solver].
  - intros h'. rewrite elem_of_union, elem_of_singleton. intros [->|Hin].
    + split; [by eexists|]. intros Hx. by destruct (Hold' h (Hen h ltac:(by eexists))).
    + destruct (Har h' Hin) as [Hs' ?]. by destruct (Hold' _ Hs').
  - intros h' Hin. by destruct (Hold' _ (Hen h' Hin)).
  - intros h' k'. rewrite lookup_app_Some, list_lookup_singleton_Some. intros [Hk'|[Hl [Hz _]]].
    + destruct (Hsp h' k' Hk') as [?|[?|[?|[?|(h2 & ? & Hh2 & ?)]]]]; [auto..|set_solver|auto|auto|].
      do 4 right. exists h2. by destruct (Hold _ _ Hh2).
    + right; left. assert (h' = h) as -> by (unfold h; lia). set_solver.
Qed.

Lemma enter_manager_ok k h s : manager_ok s → h ∈ arming s → spawned s !! h = Some k →
  manager_ok (fst (enter_watchdog k h s)).
Proof.
  intros (? & ? & He & Hab & Har & Hen & Hsp) Hin Hk. unfold enter_watchdog, st_modify. cbn [fst].
  split_and!; [done|done|]. unfold watchdogs_ok; cbn [set_watchdogs wake_timeouts spawned aborted arming ended].
  assert (∀ h', h' ∈ (match wake_timeouts s !! k with Some old => {[old]} ∪ aborted s | None => aborted s end)
    ↔ h' ∈ aborted s ∨ wake_timeouts s !! k = Some h') as Hx.
  { intros h'. destruct (wake_timeouts s !! k) as [old|]; [|naive_solver].
    rewrite elem_of_union, elem_of_singleton. naive_solver. }
  split_and!.
  - intros k' h' Hk'. rewrite Hx. destruct (decide (k = k')) as [<-|Hne].
    + rewrite lookup_insert_eq in Hk'. simplify_eq. destruct (Har h' Hin).
      split_and!; [done| |set_solver|done].
      intros [?%Hab|Hw]; [naive_solver|]. by destruct (He k h' Hw) as (_ & _ & ? & _).
    + rewrite lookup_insert_ne in Hk' by done. destruct (He k' h' Hk') as (Hs' & ? & ? & ?).
      split_and!; [done| |set_solver|done]. intros [?|Hw]; [done|]. destruct (He k h' Hw). congruence.
  - intros h' [[? ?]%Hab|Hw]%Hx; [split; [done|set_solver]|].
    destruct (He k h' Hw) as (? & ? & ? & ?). split; [by eexists|set_solver].
  - intros h' [? _]%elem_of_difference. auto.
  - done.
  - intros h' k' Hk'. rewrite Hx, elem_of_difference, elem_of_singleton.
    destruct (decide (h' = h)) as [->|Hne].
    + right; right; left. assert (k' = k) as -> by congruence. by rewrite lookup_insert_eq.
    + destruct (Hsp h' k' Hk') as [?|[?|[Hw|?]]]; [auto..| |auto].
      destruct (decide (k = k')) as [<-|Hk2]; [auto|]. right; right; left. by rewrite lookup_insert_ne.
Qed.

Lemma ok_arm_wake_timeout k : preserves manager_ok (arm_wake_timeout k).
Proof.
  intros s Hs. destruct (spawn_manager_ok k s Hs) as (Hs' & Hin & Hk).
  exact (enter_manager_ok k _ _ Hs' Hin Hk).
Qed.

Lemma ok_end_watchdog h : preserves manager_ok (end_watchdog h).
Proof.
  apply preserves_modify. intros s Hs.
  destruct (spawned s !! h) as [k|] eqn:Hk; [|done]. destruct (ended s !! h) as [|] eqn:Hn; [done|].
  destruct Hs as (? & ? & He & Hab & Har & Hen & Hsp). split_and!; [done|done|]. split_and!; simpl.
  - intros k' h' [Hne Hk']%lookup_delete_Some. destruct (He k' h' Hk') as (Hs' & ? & ? & ?).
    split_and!; [done..|]. rewrite lookup_insert_ne; [done|]. intros ->. congruence.
  - done.
  - intros h' Hin. destruct (Har h' Hin). split; [done|].
    destruct (decide (h = h')) as [<-|Hne]; [|by rewrite lookup_insert_ne].
    rewrite lookup_insert_eq, bool_decide_eq_false_2; naive_solver.
  - intros h'. destruct (decide (h = h')) as [<-|Hne]; [by eexists|].
    rewrite lookup_insert_ne by done. auto.
  - intros h' k' Hk'. destruct (decide (h = h')) as [<-|Hne].
    { do 3 right; left. rewrite lookup_insert_eq. by eexists. }
    rewrite lookup_insert_ne by done.
    destruct (decide (k = k')) as [<-|Hkk].
    { do 4 right. exists h. rewrite lookup_insert_eq. naive_solver. }
    rewrite lookup_delete_ne by done.
    destruct (Hsp h' k' Hk') as [?|[?|[?|[?|(h2 & ? & Hh2 & ?)]]]]; [auto..|].
    do 4 right. exists h2. split_and!; [done..|]. rewrite lookup_insert_ne; [done|]. intros ->. congruence.
Qed.

Lemma ok_mark_idle k summary : preserves manager_ok (mark_idle team_id k summary).
Proof.
  apply preserves_bind; [apply ok_set_status|]. intros _.
  apply preserves_bind; [apply ok_get_slot|]. intros slot. case_match; [apply preserves_ret|].
  apply preserves_bind; [apply ok_find_lead|]. intros lead.
  apply preserves_bind; [|intros; apply preserves_get].
  destruct lead as [l|]; [|apply preserves_ret]. case_match; [apply preserves_ret|apply ok_write].
Qed.

Lemma ok_rename_agent k name : preserves manager_ok (rename_agent team_id k name).
Proof.
  unfold rename_agent. case_match; [apply preserves_fail|]. intros s Hs.
  destruct (slots s !! k) as [slot|] eqn:Hk.
  - rewrite (st_bind_ok _ _ _ _ _ (get_slot_some _ _ _ Hk)). unfold st_bind at 1, st_get.
    case_match; [done|]. apply (ok_insert_slot k (AgentSlot.mk _ _ _)); [done|].
    exact (proj1 Hs k slot Hk).
  - by rewrite (st_bind_err _ _ _ _ _ (get_slot_none _ _ Hk)).
Qed.

Lemma ok_remove_agent k : preserves manager_ok (remove_agent team_id k).
Proof.
  apply preserves_bind; [apply ok_get_slot|]. intros slot.
  apply preserves_bind.
  { apply preserves_modify. intros s (Hk & ? & ?). split_and!; [|done|done].
    by apply map_Forall_delete. }
  intros _. apply preserves_bind; [|intros; apply preserves_bind; [apply ok_broadcast|intros; apply preserves_ret]].
  apply preserves_bind; [by apply preserves_modify|]. intros _.
  apply preserves_bind; [apply ok_clear_wake_timeout|]. intros _. by apply preserves_modify.
Qed.

Lemma ok_execute_action k a : preserves manager_ok (execute_action team_id k a).
Proof.
  destruct a; simpl.
  - apply preserves_bind; [|intros; apply preserves_ret]. unfold handle_send_message. case_match.
    + apply preserves_bind; [apply preserves_get|]. intros targets. apply preserves_iter.
      intros t. apply ok_write.
    + apply ok_write.
  - apply preserves_bind; [apply ok_on_store, preserves_create_task|intros; apply preserves_ret].
  - apply preserves_bind; [apply ok_on_store, preserves_update_task|intros; apply preserves_ret].
  - apply preserves_ret.
  - apply ok_mark_idle.
  - apply preserves_bind; [|intros; apply preserves_ret].
    apply preserves_bind; [apply ok_get_slot|]. intros from. case_match; [apply preserves_fail|].
    apply preserves_bind; [apply ok_get_slot|]. intros target. case_match; [apply preserves_fail|].
    apply ok_write.
  - apply preserves_bind; [apply ok_rename_agent|intros; apply preserves_ret].
Qed.

Lemma ok_finalize_turn k actions : preserves manager_ok (finalize_turn team_id k actions).
Proof.
  apply preserves_bind; [|intros; apply ok_mark_idle]. generalize (@None string).
  induction actions as [|a actions IH]; intros summary; simpl; [apply preserves_ret|].
  assert (preserves manager_ok (do! execute_action team_id k a in
    finalize_actions team_id k actions summary)) as Hp.
  { apply preserves_bind; [apply ok_execute_action|intros; apply IH]. }
  destruct a; try exact Hp. apply IH.
Qed.

Lemma ok_release_wake_lock k : preserves manager_ok (release_wake_lock k).
Proof. by apply preserves_modify. Qed.

Lemma ok_handle_agent_crash k reason last : preserves manager_ok (handle_agent_crash team_id k reason last).
Proof.
  apply preserves_bind; [apply ok_get_slot|]. intros slot. apply preserves_bind.
  { apply preserves_bind; [apply ok_find_lead|]. intros [l|]; [|apply preserves_ret].
    case_match; [apply preserves_ret|apply ok_write]. }
  intros _. apply preserves_bind; [apply ok_set_status|]. intros _.
  apply preserves_bind; [apply ok_release_wake_lock|]. intros _.
  apply preserves_bind; [apply ok_clear_wake_timeout|]. intros _.
  case_match; [apply preserves_ret|apply ok_find_lead].
Qed.

Lemma ok_handle_inactivity_timeout k : preserves manager_ok (handle_inactivity_timeout team_id k).
Proof.
  apply preserves_bind; [apply ok_get_slot|]. intros slot.
  apply preserves_bind; [apply ok_set_status|]. intros _.
  apply preserves_bind; [apply ok_release_wake_lock|]. intros _.
  apply preserves_bind; [apply ok_clear_wake_timeout|]. intros _. case_match; [apply preserves_ret|].
  apply preserves_bind; [apply ok_find_lead|]. intros [l|]; [|apply preserves_ret].
  apply preserves_bind; [apply ok_on_store, preserves_write|intros; apply preserves_ret].
Qed.

Lemma ok_try_wake k : preserves manager_ok (try_wake team_id k).
Proof.
  apply preserves_bind; [apply preserves_bind; [apply ok_get_slot|intros; apply preserves_ret]|].
  intros st. case_match; [apply preserves_ret|].
  apply preserves_bind; [apply ok_set_status|]. intros _. apply preserves_bind; [|intros; apply preserves_ret].
  apply preserves_bind; [apply preserves_bind; [apply ok_get_slot|intros; apply preserves_ret]|]. intros a.
  apply preserves_bind; [apply ok_on_store, preserves_list_tasks|]. intros tasks.
  apply preserves_bind; [apply ok_on_store, preserves_read_unread|]. intros. apply preserves_ret.
Qed.

(** The methods that change a manager, with their arguments; [now] is the instant
    [begin_finalize] reads.  Arming a watchdog also appears as its two halves, between
    which the task it spawns is already at work, and [OpWatchdogEnds h] is the last line
    of the task [h], at any time after it was spawned and even after it was aborted. *)
Inductive operation :=
| OpSetStatus (k : string) (st : TeammateStatus.t)
| OpTryWake (k : string)
| OpTakeRolePrompt (k : string)
| OpAcquire (k : string) | OpRelease (k : string)
| OpArm (k : string) | OpClearTimeout (k : string)
| OpSpawn (k : string) | OpEnter (h : nat) | OpWatchdogEnds (h : nat)
| OpAddAgent (a : TeamAgent.t) | OpRemoveAgent (k : string)
| OpShutdownAcknowledged (k : string) | OpRename (k name : string)
| OpExecute (k : string) (a : SchedulerAction)
| OpFinalize (k : string) (actions : list SchedulerAction)
| OpCrash (k : string) (reason : CrashReason) (last : option string)
| OpInactivity (k : string)
| OpShutdownRejected (k reason : string)
| OpBeginFinalize (now : Z) (conv : string) | OpExpireFinalize (conv : string)
| OpClearFinalized (conv : string).

Definition run (op : operation) s : TeammateManager Db :=
  match op with
  | OpSetStatus k st => fst (set_status team_id k st s)
  | OpTryWake k => fst (try_wake team_id k s)
  | OpTakeRolePrompt k => fst (take_needs_role_prompt k s)
  | OpAcquire k => fst (acquire_wake_lock k s)
  | OpRelease k => fst (release_wake_lock k s)
  | OpArm k => fst (arm_wake_timeout k s)
  | OpClearTimeout k => fst (clear_wake_timeout k s)
  | OpSpawn k => fst (spawn_watchdog k s)
  | OpEnter h =>
      match spawned s !! h with
      | Some k => if decide (h ∈ arming s) then fst (enter_watchdog k h s) else s
      | None => s
      end
  | OpWatchdogEnds h => fst (end_watchdog h s)
  | OpAddAgent a => fst (add_agent team_id a s)
  | OpRemoveAgent k => fst (remove_agent team_id k s)
  | OpShutdownAcknowledged k => fst (notify_shutdown_acknowledged team_id k s)
  | OpRename k name => fst (rename_agent team_id k name s)
  | OpExecute k a => fst (execute_action team_id k a s)
  | OpFinalize k actions => fst (finalize_turn team_id k actions s)
  | OpCrash k reason last => fst (handle_agent_crash team_id k reason last s)
  | OpInactivity k => fst (handle_inactivity_timeout team_id k s)
  | OpShutdownRejected k reason => fst (notify_shutdown_rejected team_id k reason s)
  | OpBeginFinalize now conv => fst (begin_finalize now conv s)
  | OpExpireFinalize conv => fst (expire_finalize conv s)
  | OpClearFinalized conv => fst (clear_finalized_turn conv s)
  end.

(** States reached from [TeammateManager::new] by any sequence of method calls,
    successful or not, and ends of watchdog tasks. *)
Inductive reachable (agents : list TeamAgent.t) (st : Store Db) : TeammateManager Db → Prop :=
| reachable_new : reachable agents st (new agents st)
| reachable_step s op : reachable agents st s → reachable agents st (run op s).

Lemma ok_new agents st : store_ok st → manager_ok (new agents st).
Proof.
  intros Hst. split_and!; [|done|].
  - unfold keyed, new; simpl. assert (map_Forall (λ k slot, agent_id slot = k)
      (∅ : gmap string AgentSlot.t)) as H0 by apply map_Forall_empty. revert H0.
    generalize (∅ : gmap string AgentSlot.t).
    induction agents as [|a agents IH]; intros m Hm; simpl; [done|]. apply IH.
    by apply map_Forall_insert_2.
  - unfold watchdogs_ok, new; simpl. split_and!; intros *; rewrite ?lookup_empty, ?lookup_nil; (done || by intros []).
Qed.

(** C5: in every state a sequence of method calls reaches, with the ends of watchdog
    tasks anywhere in between, each slot is filed under its agent's id, the
    identifiers the generator will give are new to the database, and the watchdogs are
    consistent: a handle in the table is of a task spawned for that slot that was
    never aborted and has not ended since it was entered, and every other task was
    aborted, has ended, is just being armed, or was cut loose by the end of another
    watchdog of its slot. *)
Theorem reachable_manager_ok agents st s :
  store_ok st → reachable agents st s → manager_ok s.
Proof.
  intros Hst. induction 1 as [|s op _ Hs]; [by apply ok_new|].
  destruct op; cbn [run]; revert s Hs;
    try match goal with |- ∀ s, @?P s → manager_ok (fst (@?m s)) => change (preserves manager_ok m) end.
  - apply ok_set_status.
  - apply ok_try_wake.
  - intros s Hs. unfold take_needs_role_prompt. destruct (slots s !! k) as [slot|] eqn:Hk; [|done].
    apply (ok_insert_slot k (AgentSlot.mk _ _ _)); [done|]. exact (proj1 Hs k slot Hk).
  - by intros s.
  - apply ok_release_wake_lock.
  - apply ok_arm_wake_timeout.
  - apply ok_clear_wake_timeout.
  - intros s Hs. by apply spawn_manager_ok.
  - intros s Hs. destruct (spawned s !! h) as [k|] eqn:Hk; [|done]. case_decide; [|done].
    by apply enter_manager_ok.
  - apply ok_end_watchdog.
  - apply preserves_bind; [|intros; apply ok_broadcast]. apply preserves_modify. intros s Hs.
    by apply (ok_insert_slot _ (AgentSlot.mk a _ _)).
  - apply ok_remove_agent.
  - apply ok_broadcast.
  - apply ok_rename_agent.
  - apply ok_execute_action.
  - apply ok_finalize_turn.
  - apply ok_handle_agent_crash.
  - apply ok_handle_inactivity_timeout.
  - apply preserves_bind; [apply ok_find_lead|]. intros [l|]; [|apply preserves_ret].
    case_match; [apply preserves_ret|]. apply preserves_bind.
    { apply preserves_try, preserves_bind; [apply ok_get_slot|intros; apply preserves_ret]. }
    intros r. apply ok_write.
  - intros s Hs. unfold begin_finalize. simpl. by case_match.
  - by apply preserves_modify.
  - by apply preserves_modify.
Qed.
End facts.

(* ------------------------------------------------------------------ *)
(** ** A team of a lead and one teammate *)

Section witnesses.
#[local] Existing Instance json_text.
#[local] Existing Instance counting.
#[local] Existing Instance ascii_unicode.
#[local] Instance slots_in_order : HashIter AgentSlot.t := hash_iter_canonical AgentSlot.t.

Definition demo_lead : TeamAgent.t :=
  TeamAgent.mk "lead" "Ada" TeammateRole.Lead "conv-lead" "acp" "m" None None None None.
Definition demo_mate : TeamAgent.t :=
  TeamAgent.mk "bob" "Bob" TeammateRole.Teammate "conv-bob" "acp" "m" None None None None.
(** The lead's inbox holds one message. *)
Definition demo : TeammateManager TeamDb := new [demo_lead; demo_mate] Mailbox.hello_store.

Definition demo_slot (a : TeamAgent.t) : AgentSlot.t :=
  AgentSlot.mk (TeamAgent.set_status (Some TeammateStatus.Idle) a) TeammateStatus.Idle true.

Lemma demo_ok : keyed demo ∧ Mailbox.store_ok (store demo) ∧ unique_lead demo "lead".
Proof.
  split; [|split; [exact Mailbox.hello_store_ok|split]].
  - unfold keyed. apply (bool_decide_unpack _). by vm_compute.
  - exists (demo_slot demo_lead). split; by vm_compute.
  - assert (map_Forall (λ k slot, is_lead slot = true → k = "lead") (slots demo)) as H.
    { apply (bool_decide_unpack _). by vm_compute. }
    intros k slot Hk. exact (H k slot Hk).
Qed.

Lemma maybe_wake_leader_spec_witness :
  ∃ r, maybe_wake_leader_when_all_idle demo = (demo, Ok r) ∧ r = Some "lead".
Proof.
  destruct demo_ok as (Hk & _ & Hu).
  destruct (maybe_wake_leader_spec demo "lead" Hk Hu) as (r & Hr & _ & _).
  exists r. split; [done|]. apply (f_equal snd) in Hr. vm_compute in Hr. congruence.
Defined.

Lemma mark_idle_notifies_witness :
  ∃ s', mark_idle "t" "bob" (Some "done") demo = (s', Ok (Some "lead")) ∧ length (mail s') = 2%nat.
Proof.
  destruct demo_ok as (Hk & Hst & Hu).
  destruct (mark_idle_notifies "t" demo "bob" "lead" (demo_slot demo_mate) (Some "done") Hk Hst Hu)
    as (s' & r & Hr & _ & _ & _ & Hl); [done|].
  destruct (Hl eq_refl) as ([Hm _] & _). exists s'. rewrite Hm. split; [|done].
  rewrite Hr. apply (f_equal snd) in Hr. vm_compute in Hr. congruence.
Defined.

(** A watchdog of "bob" leaves its loop, is replaced by another, and ends. *)
Definition overtaken : TeammateManager TeamDb :=
  run "t" (OpWatchdogEnds 0) (run "t" (OpArm "bob") (run "t" (OpArm "bob") demo)).

Lemma reachable_manager_ok_witness : manager_ok overtaken.
Proof.
  apply (reachable_manager_ok "t" [demo_lead; demo_mate] Mailbox.hello_store);
    [exact Mailbox.hello_store_ok|]. apply reachable_step, reachable_step, reachable_step, reachable_new.
Defined.

(** What the last disjunct of [watchdogs_ok] is about happens: the last line of the
    task that was replaced takes away the entry of the task that replaced it.  The new
    watchdog runs on, and [clear_wake_timeout] cannot stop it. *)
Lemma overtaken_watchdog_cuts_loose :
  spawned overtaken = ["bob"; "bob"] ∧ aborted overtaken = {[0%nat]} ∧
  ended overtaken !! 1%nat = None ∧ wake_timeouts overtaken !! "bob" = None ∧
  aborted (run "t" (OpClearTimeout "bob") overtaken) = {[0%nat]}.
Proof. split_and!; by vm_compute. Qed.
End witnesses.
