(* ===== verification/TeamTurn.v ===== *)
(** * TeamTurn: the life cycle of a turn

    What surrounds a turn of a team agent: the wake watchdog
    ([scheduler/wake.rs]), the handling of finish events ([session.rs],
    [on_agent_finish]) and the end of a turn in the event loop
    ([event_loop.rs]), with the remaining properties of the scheduler's methods. *)

From S2P Require Import Prelude.
From S2P Require Import Text.
From S2P Require Import Json.
From S2P Require Import TeamTypes.
From S2P Require Import TeamRepo.
From S2P Require Import TeamRepoSqlite.
From S2P Require Import TeamEvents.
From S2P Require Import TeamMailbox.
From S2P Require Import TeamTaskBoard.
From S2P Require Import TeamScheduler.
From S2P Require Import TeamSchedulerFacts.
Import Scheduler.

(* ------------------------------------------------------------------ *)
(** ** The wake watchdog *)

Module Watchdog.
(** What [rx.recv()] yields: the stream events and the two channel errors. *)
Inductive received := Finish | Error | Closed | Lagged | Activity.

Definition is_terminal (e : received) : bool :=
  match e with Finish | Error | Closed => true | Lagged | Activity => false end.

(** The [select!] loop over the events still to come, each with its arrival time
    (milliseconds): [deadline] is when the sleep elapses.  [true]: timed out.  An
    event that arrives at or after the deadline finds the sleep elapsed; a stream
    that stays silent lets it elapse. *)
(* chisl-team/src/scheduler/wake.rs:51-73 arm_wake_timeout (watchdog loop) *)
Fixpoint loop (deadline : Z) (events : list (Z * received)) : bool :=
  match events with
  | [] => true
  | (t, e) :: events' =>
      if deadline <=? t then true
      else if is_terminal e then false
      else loop (t + WAKE_TIMEOUT_MS) events'
  end.

(** The watchdog armed at time [t0]. *)
Definition timed_out (t0 : Z) (events : list (Z * received)) : bool :=
  loop (t0 + WAKE_TIMEOUT_MS) events.

(** Consecutive arrivals from [t0] on are less than the timeout apart. *)
Fixpoint no_gap (t0 : Z) (times : list Z) : Prop :=
  match times with
  | [] => True
  | t :: times' => t < t0 + WAKE_TIMEOUT_MS ∧ no_gap t times'
  end.

(** The watchdog does not fire exactly when the stream finishes, fails or
    closes after activity without a silence of [WAKE_TIMEOUT_MS]; every event, a
    lag report included, restarts the clock. *)
Lemma watchdog_fires_on_silence t0 events :
  timed_out t0 events = false ↔
  ∃ before t e after, events = before ++ (t, e) :: after ∧ is_terminal e = true ∧
    Forall (λ te, is_terminal (snd te) = false) before ∧ no_gap t0 (map fst before ++ [t]).
Proof.
  unfold timed_out. revert t0. induction events as [|[t e] events IH]; intros t0; simpl.
  - split; [done|]. by intros ([|] & ? & ? & ? & ? & _).
  - destruct (Z.leb_spec (t0 + WAKE_TIMEOUT_MS) t) as [Hge|Hlt].
    + split; [done|]. intros ([|[t1 e1] b] & t' & e' & a & Heq & _ & _ & Hg);
        simplify_eq/=; destruct_and?; lia.
    + destruct (is_terminal e) eqn:He.
      * split; [|done]. intros _. exists [], t, e, events. by repeat split.
      * rewrite IH. split.
        -- intros (b & t' & e' & a & -> & Ht & Hb & Hg). exists ((t, e) :: b), t', e', a.
           split_and!; [done|done|by constructor|]. by split.
        -- intros ([|[t1 e1] b] & t' & e' & a & Heq & Ht & Hb & Hg); simplify_eq/=; [congruence|].
           inversion Hb; subst. destruct Hg as [_ Hg]. eauto 10.
Qed.
End Watchdog.

(* ------------------------------------------------------------------ *)
(** ** Finish events and the event loop *)

Module TeamSession.
Section ops.
Context {Db : Type} {SJ : SerdeJson} {TR : ITeamRepository Db} {AM : Ambient} {UC : Unicode}
  {HI : HashIter AgentSlot.t} (team_id : string).
Local Abbreviation M := (ST (TeammateManager Db) TeamError.t).

(** [now] is the instant [begin_finalize] reads. *)
(* chisl-team/src/session.rs:242-283 TeamSession::on_agent_finish *)
Definition on_agent_finish (now : Z) (conversation_id : string) (is_error : bool) :
    M (option string) :=
  let! began := begin_finalize now conversation_id in
  if negb began then st_ret None
  else
    let! agents := list_agents in
    let! agent := st_lift (ok_or
      (List.find (λ a, String.eqb (TeamAgent.conversation_id a) conversation_id) agents)
      (TeamError.AgentNotFound ("no agent with conversation_id=" +:+ conversation_id))) in
    let slot_id := TeamAgent.slot_id agent in
    do! (if is_error then set_status team_id slot_id TeammateStatus.Error else st_ret tt) in
    let! wake_target := finalize_turn team_id slot_id [] in
    do! clear_finalized_turn conversation_id in
    if bool_decide (wake_target ≠ Some slot_id) then
      let! unread := st_try (on_store (Mailbox.has_unread team_id slot_id)) in
      if (match unread with Ok b => b | Err _ => false end) then st_ret (Some slot_id)
      else st_ret wake_target
    else st_ret wake_target.
End ops.
End TeamSession.

Module EventLoop.
(** A loop's view: the manager, the status column of the conversations, and the
    permits stored in the [Notify] of each registered slot. *)
Record state (Db : Type) := mk_state {
  manager : TeammateManager Db;
  conversation_status : gmap string string;
  notifiers : gmap string bool;
  handles : gmap string nat;
  shutdown_flag : bool }.
Arguments mk_state {Db}.
Arguments manager {Db}.
Arguments conversation_status {Db}.
Arguments notifiers {Db}.
Arguments handles {Db}.
Arguments shutdown_flag {Db}.

Section ops.
Context {Db : Type} {SJ : SerdeJson} {TR : ITeamRepository Db} {AM : Ambient} {UC : Unicode}
  {HI : HashIter AgentSlot.t} (team_id : string).
Implicit Types s : state Db.

Definition set_manager (m : TeammateManager Db) s : state Db :=
  mk_state m (conversation_status s) (notifiers s) (handles s) (shutdown_flag s).
Definition set_registry (n : gmap string bool) (h : gmap string nat) s : state Db :=
  mk_state (manager s) (conversation_status s) n h (shutdown_flag s).

(* chisl-team/src/event_loop.rs:46-48 EventLoopRegistry::has *)
Definition has (slot_id : string) s : bool := bool_decide (is_Some (notifiers s !! slot_id)).
(** [notify_one] stores at most one permit. *)
(* chisl-team/src/event_loop.rs:51-55 EventLoopRegistry::notify *)
Definition notify (slot_id : string) s : state Db :=
  match notifiers s !! slot_id with
  | Some _ => set_registry (<[slot_id := true]> (notifiers s)) (handles s) s
  | None => s
  end.
(** [handle] is the number of the spawned task. *)
(* chisl-team/src/event_loop.rs:58-63 EventLoopRegistry::spawn *)
Definition spawn (slot_id : string) (handle : nat) s : state Db :=
  set_registry (<[slot_id := false]> (notifiers s)) (<[slot_id := handle]> (handles s)) s.
(* chisl-team/src/event_loop.rs:66-71 EventLoopRegistry::remove *)
Definition remove (slot_id : string) s : state Db :=
  set_registry (delete slot_id (notifiers s)) (delete slot_id (handles s)) s.
(* chisl-team/src/event_loop.rs:74-81 EventLoopRegistry::shutdown *)
Definition shutdown s : state Db :=
  mk_state (manager s) (conversation_status s) ∅ ∅ true.

(** [repo.update(conversation_id, status = ..)], its error ignored. *)
Definition set_conversation_status (conv status : string) s : state Db :=
  mk_state (manager s) (alter (λ _, status) conv (conversation_status s)) (notifiers s)
    (handles s) (shutdown_flag s).

Definition on_manager {A} (m : ST (TeammateManager Db) TeamError.t A) s :
    state Db * result A TeamError.t :=
  let '(mgr, r) := m (manager s) in (set_manager mgr s, r).

(* chisl-team/src/event_loop.rs:284-313 finalize_turn *)
Definition finalize_turn (slot_id : string) (finish_ok : bool) (conversation_id : string) s : state Db :=
  let s := set_conversation_status conversation_id "finished" s in
  let s := if negb finish_ok
           then fst (on_manager (set_status team_id slot_id TeammateStatus.Error) s) else s in
  let '(s, r) := on_manager (Scheduler.finalize_turn team_id slot_id []) s in
  match r with
  | Ok (Some wake_target) => if String.eqb wake_target slot_id then s else notify wake_target s
  | Ok None => s
  | Err _ => s
  end.
End ops.
End EventLoop.

(* ------------------------------------------------------------------ *)
(** ** Properties *)

Section facts.
Context {Db : Type} {SJ : SerdeJson} {TR : ITeamRepository Db} {TS : TeamRepositorySpec Db}
  {AM : Ambient} {UC : Unicode} {HI : HashIter AgentSlot.t} (team_id : string).
Implicit Types s : TeammateManager Db.
Implicit Types k l : string.
Local Abbreviation agent_id slot := (TeamAgent.slot_id (AgentSlot.agent slot)).
Local Abbreviation store_ok := Mailbox.store_ok.

Lemma get_status_some k slot s :
  slots s !! k = Some slot → get_status k s = (s, Ok (AgentSlot.status slot)).
Proof. intros Hk. unfold get_status. by rewrite (st_bind_ok _ _ _ _ _ (get_slot_some _ _ _ Hk)). Qed.

Lemma get_agent_some k slot s :
  slots s !! k = Some slot → get_agent k s = (s, Ok (AgentSlot.agent slot)).
Proof. intros Hk. unfold get_agent. by rewrite (st_bind_ok _ _ _ _ _ (get_slot_some _ _ _ Hk)). Qed.

(** Listing the tasks changes nothing. *)
Lemma list_tasks_eq s :
  list_tasks team_id s = (s, Ok (omap TeamTask.from_row (sort_by TeamTaskRow.created_at
    (List.filter (λ r, String.eqb (TeamTaskRow.team_id r) team_id) (rs_tasks (st_db (store s))))))).
Proof.
  assert (set_store (store s) s = s) as Hs by by destruct s. rewrite <- Hs at 2.
  apply on_store_ok. unfold TaskBoard.list_tasks.
  rewrite (st_bind_ok _ _ _ _ _ (repo_ok _ _ _ _ (list_tasks_spec team_id (st_db (store s))))).
  by destruct (store s).
Qed.

(** The manager after [try_wake] drained the inbox of an idle agent. *)
Lemma build_wake_payload_eq k slot s :
  slots s !! k = Some slot → store_ok (store s) →
  ∃ st' tasks, build_wake_payload team_id k s =
      (set_store st' s, Ok (WakePayload.mk _ (AgentSlot.agent slot) tasks
                              (Mailbox.inbox team_id k (store s)))) ∧
    Mailbox.peek_unread team_id k st' = (st', Ok []).
Proof.
  intros Hk Hst. unfold build_wake_payload.
  rewrite (st_bind_ok _ _ _ _ _ (get_agent_some _ _ _ Hk)).
  fold (list_tasks (Db := Db) team_id).
  rewrite (st_bind_ok _ _ _ _ _ (list_tasks_eq s)).
  destruct (Mailbox.read_unread_total (store s) team_id k Hst) as (st' & Hr & Hp).
  rewrite (st_bind_ok _ _ _ _ _ (on_store_ok _ _ _ _ Hr)). eauto.
Qed.

(** [try_wake] wakes an agent at most once: on an idle agent it sets it to
    working and hands over every unread message, emptying its inbox, so that a
    second call, or a call on any non-idle agent, changes nothing and answers
    [None]; an unknown agent is an error. *)
Lemma try_wake_once s k :
  store_ok (store s) →
  match slots s !! k with
  | None => try_wake team_id k s = (s, Err (TeamError.AgentNotFound k))
  | Some slot =>
      if decide (AgentSlot.status slot = TeammateStatus.Idle) then
        ∃ s' p, try_wake team_id k s = (s', Ok (Some p)) ∧
          slots s' = <[k := with_status TeammateStatus.Working slot]> (slots s) ∧
          WakePayload.unread_messages p = Mailbox.inbox team_id k (store s) ∧
          Mailbox.peek_unread team_id k (store s') = (store s', Ok []) ∧
          try_wake team_id k s' = (s', Ok None)
      else try_wake team_id k s = (s, Ok None)
  end.
Proof.
  intros Hst. destruct (slots s !! k) as [slot|] eqn:Hk.
  - assert (∀ s0 slot0, slots s0 !! k = Some slot0 → AgentSlot.status slot0 ≠ TeammateStatus.Idle →
      try_wake team_id k s0 = (s0, Ok None)) as Hbusy.
    { intros s0 slot0 Hk0 Hne. unfold try_wake.
      rewrite (st_bind_ok _ _ _ _ _ (get_status_some _ _ _ Hk0)). by rewrite bool_decide_eq_true_2. }
    case_decide as Hidle; [|by eapply Hbusy].
    set (s1 := status_set team_id k TeammateStatus.Working slot s).
    assert (Hk1 : slots s1 !! k = Some (with_status TeammateStatus.Working slot))
      by (simpl; apply lookup_insert_eq).
    destruct (build_wake_payload_eq k _ s1 Hk1 Hst) as (st' & tasks & Hb & Hp).
    exists (set_store st' s1), (WakePayload.mk _ (AgentSlot.agent (with_status TeammateStatus.Working slot))
      tasks (Mailbox.inbox team_id k (store s1))). split_and!; [|done|done|done|].
    + unfold try_wake. rewrite (st_bind_ok _ _ _ _ _ (get_status_some _ _ _ Hk)).
      rewrite bool_decide_eq_false_2 by (intros Hne; exact (Hne Hidle)).
      rewrite (st_bind_ok _ _ _ _ _ (set_status_some _ _ _ _ _ Hk)). fold s1.
      by rewrite (st_bind_ok _ _ _ _ _ Hb).
    + by eapply Hbusy.
  - unfold try_wake. rewrite (st_bind_err _ _ s s (TeamError.AgentNotFound k)); [done|].
    unfold get_status. by rewrite (st_bind_err _ _ _ _ _ (get_slot_none _ _ Hk)).
Qed.

(** A run of mailbox writes to several slots. *)
Lemma write_each targets from content s :
  store_ok (store s) →
  ∃ st' rows, st_iter (λ target,
      do! on_store (Mailbox.write team_id target from MailboxMessageType.Message content None) in
      st_ret tt) targets s = (set_store st' s, Ok tt) ∧
    rs_mailbox (st_db st') = mail s ++ rows ∧ store_ok st' ∧
    map MailboxMessageRow.to_agent_id rows = targets ∧
    Forall (λ r, MailboxMessageRow.team_id r = team_id ∧ MailboxMessageRow.from_agent_id r = from ∧
      MailboxMessageRow.content r = content ∧ MailboxMessageRow.read r = false) rows.
Proof.
  revert s. induction targets as [|t targets IH]; intros s Hst; simpl.
  - exists (store s), []. rewrite app_nil_r. split_and!; try done. by destruct s.
  - destruct (write_on_store team_id s t from MailboxMessageType.Message content None Hst)
      as (st1 & m & Hw & Hmail & Hst1).
    destruct (IH (set_store st1 s) Hst1) as (st' & rows & Hrun & Hmb & Hst' & Hto & Hall).
    exists st', (message_row team_id s t from MailboxMessageType.Message content None :: rows).
    split_and!; try done.
    + rewrite (st_bind_ok _ _ s (set_store st1 s) tt); [by rewrite Hrun|].
      by rewrite (st_bind_ok _ _ _ _ _ Hw).
    + rewrite Hmb, Hmail, <- app_assoc. done.
    + simpl. by rewrite Hto.
    + by constructor.
Qed.

(** A message to "*" reaches every other agent of the team exactly once, in
    whatever order the slots are visited; the slots are unchanged. *)
Lemma broadcast_reaches_everyone_once s from content :
  store_ok (store s) →
  ∃ s' rows, handle_send_message team_id from "*" content s = (s', Ok tt) ∧
    slots s' = slots s ∧ mail s' = mail s ++ rows ∧
    map MailboxMessageRow.to_agent_id rows ≡ₚ elements (dom (slots s) ∖ {[from]}) ∧
    Forall (λ r, MailboxMessageRow.team_id r = team_id ∧ MailboxMessageRow.from_agent_id r = from ∧
      MailboxMessageRow.content r = content ∧ MailboxMessageRow.read r = false) rows.
Proof.
  intros Hst. unfold handle_send_message. rewrite String.eqb_refl. unfold st_bind at 1, st_get.
  set (targets := List.filter _ _).
  destruct (write_each targets from content s Hst) as (st' & rows & Hrun & Hmb & _ & Hto & Hall).
  exists (set_store st' s), rows. split_and!; try done. rewrite Hto. unfold targets.
  apply NoDup_Permutation.
  - apply NoDup_ListNoDup, List.NoDup_filter, NoDup_ListNoDup. apply NoDup_hm_iter_keys.
  - apply NoDup_elements.
  - intros k. rewrite elem_of_filter_list, elem_of_elements, elem_of_difference,
      elem_of_singleton, elem_of_dom, negb_true_iff, String.eqb_neq.
    assert (k ∈ map fst (hm_iter (slots s)) ↔ is_Some (slots s !! k)) as ->; [|done].
    rewrite list_elem_of_In, in_map_iff. setoid_rewrite <- list_elem_of_In. split.
    + intros ([k' slot] & <- & Hin%elem_of_hm_iter). by eexists.
    + intros [slot Hk]. exists (k, slot). by rewrite elem_of_hm_iter.
Qed.

(** Only a lead can ask an agent to shut down, and never the lead itself: in
    every other case the action fails and changes nothing; a permitted request puts
    one shutdown request in the target's inbox and nothing else. *)
Lemma shutdown_needs_lead s from target reason :
  store_ok (store s) →
  match slots s !! from with
  | None => execute_action team_id from (ShutdownAgent target reason) s =
              (s, Err (TeamError.AgentNotFound from))
  | Some fslot =>
      if negb (is_lead fslot) then
        execute_action team_id from (ShutdownAgent target reason) s =
          (s, Err (TeamError.InvalidRequest "only lead can shutdown agents"))
      else match slots s !! target with
      | None => execute_action team_id from (ShutdownAgent target reason) s =
                  (s, Err (TeamError.AgentNotFound target))
      | Some tslot =>
          if is_lead tslot then
            execute_action team_id from (ShutdownAgent target reason) s =
              (s, Err (TeamError.InvalidRequest "cannot shutdown the team lead"))
          else ∃ s', execute_action team_id from (ShutdownAgent target reason) s = (s', Ok None) ∧
            slots s' = slots s ∧
            mailed (message_row team_id s target from MailboxMessageType.ShutdownRequest
                      (default "shutdown requested" reason) None) s s'
      end
  end.
Proof.
  intros Hst. cbn [execute_action]. unfold handle_shutdown_agent, st_bind, get_slot.
  destruct (slots s !! from) as [fslot|] eqn:Hf; [|done]. cbn [ok_or].
  destruct (is_lead fslot) eqn:Hlf; [|done]. cbn [negb].
  destruct (slots s !! target) as [tslot|] eqn:Ht; [|done]. cbn [ok_or].
  destruct (is_lead tslot) eqn:Hlt; [done|].
  destruct (write_on_store team_id s target from MailboxMessageType.ShutdownRequest
    (default "shutdown requested" reason) None Hst) as (st' & m & Hw & Hmail).
  exists (set_store st' s). by rewrite Hw.
Qed.

Lemma clear_wake_timeout_eq k s :
  ∃ s', clear_wake_timeout k s = (s', Ok tt) ∧ slots s' = slots s ∧ store s' = store s ∧
    active_wakes s' = active_wakes s ∧ wake_timeouts s' !! k = None.
Proof.
  unfold clear_wake_timeout, st_modify. eexists. split; [done|].
  destruct (wake_timeouts s !! k) as [h|] eqn:Hh; simpl; split_and!; try done.
  apply lookup_delete_eq.
Qed.

(** When a teammate crashes its status becomes [Error], its wake lock and
    watchdog are gone, the lead receives one crash testament and is named as the
    agent to wake; when the lead crashes no message is written. *)
Lemma crash_recovers s k l slot reason last :
  keyed s → store_ok (store s) → unique_lead s l → slots s !! k = Some slot →
  ∃ s' r, handle_agent_crash team_id k reason last s = (s', Ok r) ∧
    slots s' = <[k := with_status TeammateStatus.Error slot]> (slots s) ∧
    k ∉ active_wakes s' ∧ wake_timeouts s' !! k = None ∧
    (if is_lead slot then r = None ∧ mail s' = mail s
     else r = Some l ∧
       mailed (message_row team_id s l k MailboxMessageType.Message
         (format_crash_testament (TeamAgent.name (AgentSlot.agent slot)) reason last) None) s s').
Proof.
  intros Hk Hst Hu Hslot. unfold handle_agent_crash.
  rewrite (st_bind_ok _ _ _ _ _ (get_slot_some _ _ _ Hslot)).
  assert (∃ st', write_crash_testament team_id k (TeamAgent.name (AgentSlot.agent slot)) reason last s
      = (set_store st' s, Ok tt) ∧
    (if is_lead slot then st' = store s
     else mailed (message_row team_id s l k MailboxMessageType.Message
         (format_crash_testament (TeamAgent.name (AgentSlot.agent slot)) reason last) None)
         s (set_store st' s))) as (st' & Hwrite & Hmail).
  { unfold write_crash_testament. rewrite (st_bind_ok _ _ _ _ _ (find_lead_unique s l Hk Hu)).
    destruct (is_lead slot) eqn:Hlead.
    - pose proof (proj2 Hu _ _ Hslot Hlead) as ->. rewrite String.eqb_refl.
      exists (store s). split; [by destruct s|done].
    - destruct (String.eqb_spec l k) as [->|Hne].
      + destruct Hu as [(ls & ? & ?) _]. congruence.
      + destruct (write_on_store team_id s l k MailboxMessageType.Message
          (format_crash_testament (TeamAgent.name (AgentSlot.agent slot)) reason last) None Hst)
          as (st' & m & Hw & Hm).
        exists st'. by rewrite (st_bind_ok _ _ _ _ _ Hw). }
  rewrite (st_bind_ok _ _ _ _ _ Hwrite).
  rewrite (st_bind_ok _ _ _ _ _ (set_status_some team_id k TeammateStatus.Error slot (set_store st' s) Hslot)).
  set (s2 := status_set team_id k TeammateStatus.Error slot (set_store st' s)).
  set (s3 := set_active_wakes (active_wakes s2 ∖ {[k]}) s2).
  rewrite (st_bind_ok _ _ s2 s3 tt) by done.
  destruct (clear_wake_timeout_eq k s3) as (s4 & Hc & Hsl & Hstore & Hact & Hto).
  rewrite (st_bind_ok _ _ _ _ _ Hc).
  assert (keyed s4 ∧ unique_lead s4 l) as [Hk4 Hu4].
  { unfold keyed, unique_lead. rewrite Hsl.
    pose proof (keyed_insert_status team_id k TeammateStatus.Error slot s Hk Hslot).
    pose proof (unique_lead_status team_id k TeammateStatus.Error slot s l Hslot Hu). done. }
  destruct (is_lead slot) eqn:Hlead.
  - exists s4, None. split_and!; try done.
    + rewrite Hact. simpl. set_solver.
    + unfold mail. rewrite Hstore. simpl. by rewrite Hmail.
  - exists s4, (Some l). rewrite (find_lead_unique s4 l Hk4 Hu4). split_and!; try done.
    + rewrite Hact. simpl. set_solver.
    + unfold mailed, mail. rewrite Hstore. exact Hmail.
Qed.

(** Names are distinct up to [normalize_name]. *)
Definition names_distinct s : Prop :=
  ∀ k k' slot slot', slots s !! k = Some slot → slots s !! k' = Some slot' →
    normalize_name (TeamAgent.name (AgentSlot.agent slot)) =
    normalize_name (TeamAgent.name (AgentSlot.agent slot')) → k = k'.

(** A rename keeps the names of the team distinct up to normalization; it
    fails, without effect, on an empty name, an unknown agent, or a name another
    agent has, and otherwise renames that agent only. *)
Lemma rename_keeps_names_distinct s k name :
  names_distinct s →
  names_distinct (fst (rename_agent team_id k name s)) ∧
  (is_ok (snd (rename_agent team_id k name s)) = false →
     fst (rename_agent team_id k name s) = s) ∧
  (is_ok (snd (rename_agent team_id k name s)) = true →
     normalize_name name ≠ EmptyString ∧
     ∃ slot, slots s !! k = Some slot ∧
       slots (fst (rename_agent team_id k name s)) =
         <[k := AgentSlot.mk (TeamAgent.set_name name (AgentSlot.agent slot))
                  (AgentSlot.status slot) (AgentSlot.needs_role_prompt slot)]> (slots s)).
Proof.
  intros Hd. unfold rename_agent. destruct (String.eqb_spec (normalize_name name) EmptyString); [done|].
  destruct (slots s !! k) as [slot|] eqn:Hk.
  2:{ by rewrite (st_bind_err _ _ _ _ _ (get_slot_none _ _ Hk)). }
  rewrite (st_bind_ok _ _ _ _ _ (get_slot_some _ _ _ Hk)).
  unfold st_bind, st_get, st_modify, broadcast, st_fail.
  destruct (existsb _ _) eqn:Hconf; [done|]. cbn.
  split_and!; [|done|intros _; split; [done|by exists slot]].
  assert (∀ k' slot', slots s !! k' = Some slot' → k' ≠ k →
    normalize_name (TeamAgent.name (AgentSlot.agent slot')) ≠ normalize_name name) as Hfree.
  { intros k' slot' Hk' Hne Heq. apply not_true_iff_false in Hconf. apply Hconf.
    apply existsb_exists. exists (k', slot'). rewrite <- list_elem_of_In, elem_of_hm_iter. simpl.
    split; [done|]. rewrite Heq, String.eqb_refl, andb_true_r. by apply negb_true_iff, String.eqb_neq. }
  intros k1 k2 slot1 slot2. simpl. rewrite !lookup_insert.
  destruct (decide (k = k1)) as [->|H1]; destruct (decide (_ = k2)) as [E2|H2]; intros L1 L2 Heq.
  - done.
  - simplify_eq/=. by destruct (Hfree k2 slot2 L2 ltac:(done)).
  - simplify_eq/=. by destruct (Hfree k1 slot1 L1 ltac:(done)).
  - by eapply Hd.
Qed.

(** After a finalization was begun at [t1], another begin of the same
    conversation is refused for [FINALIZE_DEDUP_WINDOW] and accepted afterwards, if
    nothing removed the entry; but the timer of an earlier begin, cleared in
    between, removes the later entry and reopens the window early. *)
Lemma dedup_window conv t0 t1 t2 s :
  finalized_turns s !! conv = None → t0 ≤ t1 → t1 ≤ t2 →
  let s1 := fst (begin_finalize t1 conv s) in
  snd (begin_finalize t1 conv s) = Ok true ∧
  snd (begin_finalize t2 conv s1) = Ok (FINALIZE_DEDUP_WINDOW <=? t2 - t1) ∧
  (let sa := fst (begin_finalize t0 conv s) in
   let sb := fst (clear_finalized_turn conv sa) in
   let sc := fst (begin_finalize t1 conv sb) in
   let sd := fst (expire_finalize conv sc) in
   snd (begin_finalize t1 conv sb) = Ok true ∧ snd (begin_finalize t2 conv sd) = Ok true).
Proof.
  intros Hn H01 H12. unfold begin_finalize, clear_finalized_turn, expire_finalize, st_modify.
  rewrite !Hn. simpl. rewrite !lookup_insert_eq, !lookup_delete_eq. simpl.
  repeat (progress (rewrite ?lookup_insert_eq, ?lookup_delete_eq; simpl)). split_and!; try done. f_equal. by rewrite Z.leb_antisym.
Qed.

(* ------------------------------------------------------------------ *)
(** ** Errors and finish events *)

Lemma finalize_turn_empty k s : Scheduler.finalize_turn team_id k [] s = mark_idle team_id k None s.
Proof. done. Qed.

Lemma notify_alter x (s : EventLoop.state Db) :
  EventLoop.notifiers (EventLoop.notify x s) = alter (λ _, true) x (EventLoop.notifiers s).
Proof.
  unfold EventLoop.notify. destruct (EventLoop.notifiers s !! x) as [b|] eqn:Hx; simpl.
  - apply map_eq. intros i. destruct (decide (x = i)) as [->|Hne].
    + by rewrite lookup_insert_eq, lookup_alter_eq, Hx.
    + by rewrite lookup_insert_ne, lookup_alter_ne.
  - apply map_eq. intros i. destruct (decide (x = i)) as [->|Hne].
    + by rewrite lookup_alter_eq, Hx.
    + by rewrite lookup_alter_ne.
Qed.

(** The end of a turn is an optional change to [Error] followed by [mark_idle]. *)
Lemma finalize_turn_steps (s : EventLoop.state Db) k l slot (finish_ok : bool) conv :
  keyed (EventLoop.manager s) → unique_lead (EventLoop.manager s) l →
  slots (EventLoop.manager s) !! k = Some slot →
  ∃ m slot1, keyed m ∧ store m = store (EventLoop.manager s) ∧ unique_lead m l ∧
    slots m !! k = Some slot1 ∧ is_lead slot1 = is_lead slot ∧
    events m = events (EventLoop.manager s) ++
      (if finish_ok then [] else [TeamEventEmitter.agent_status team_id k TeammateStatus.Error]) ∧
    ∀ m' r, mark_idle team_id k None m = (m', Ok r) →
      let s1 := EventLoop.set_manager m' (EventLoop.set_conversation_status conv "finished" s) in
      EventLoop.finalize_turn team_id k finish_ok conv s =
        match r with
        | Some w => if String.eqb w k then s1 else EventLoop.notify w s1
        | None => s1
        end.
Proof.
  intros Hk Hu Hslot. destruct finish_ok.
  - exists (EventLoop.manager s), slot. rewrite app_nil_r. split_and!; try done.
    intros m' r Hrun. unfold EventLoop.finalize_turn. cbn [negb]. unfold EventLoop.on_manager.
    rewrite finalize_turn_empty. simpl. rewrite Hrun. by destruct r.
  - exists (status_set team_id k TeammateStatus.Error slot (EventLoop.manager s)),
      (with_status TeammateStatus.Error slot).
    split_and!; try done; [by apply keyed_insert_status|by apply unique_lead_status| |].
    { simpl. apply lookup_insert_eq. }
    intros m' r Hrun. unfold EventLoop.finalize_turn. cbn [negb]. unfold EventLoop.on_manager.
    simpl. rewrite (set_status_some _ _ _ _ _ Hslot). simpl.
    rewrite finalize_turn_empty, Hrun. by destruct r.
Qed.

Lemma notify_manager x (s : EventLoop.state Db) :
  EventLoop.manager (EventLoop.notify x s) = EventLoop.manager s ∧
  EventLoop.conversation_status (EventLoop.notify x s) = EventLoop.conversation_status s.
Proof. unfold EventLoop.notify. by destruct (EventLoop.notifiers s !! x). Qed.

(** In the event loop a failed turn does not stay in [Error]: the error status
    is broadcast, then finalizing marks the agent idle, whatever [finish_ok] was;
    the conversation is marked finished, and the lead's loop is notified exactly
    when the lead should wake. *)
Lemma failed_turn_ends_idle (s : EventLoop.state Db) k l slot finish_ok conv :
  keyed (EventLoop.manager s) → store_ok (store (EventLoop.manager s)) →
  unique_lead (EventLoop.manager s) l → slots (EventLoop.manager s) !! k = Some slot →
  is_lead slot = false →
  let s' := EventLoop.finalize_turn team_id k finish_ok conv s in
  (∃ slot', slots (EventLoop.manager s') !! k = Some slot' ∧
     AgentSlot.status slot' = TeammateStatus.Idle) ∧
  events (EventLoop.manager s') = events (EventLoop.manager s) ++
    (if finish_ok then [] else [TeamEventEmitter.agent_status team_id k TeammateStatus.Error]) ++
    [TeamEventEmitter.agent_status team_id k TeammateStatus.Idle] ∧
  EventLoop.conversation_status s' !! conv =
    (λ _, "finished") <$> EventLoop.conversation_status s !! conv ∧
  EventLoop.notifiers s' =
    (if decide (lead_should_wake (EventLoop.manager s') l)
     then alter (λ _, true) l (EventLoop.notifiers s) else EventLoop.notifiers s).
Proof.
  intros Hk Hst Hu Hslot Hlead s'.
  destruct (finalize_turn_steps s k l slot finish_ok conv Hk Hu Hslot)
    as (m & slot1 & Hk1 & Hst1 & Hu1 & Hs1 & Hl1 & Hev1 & Hfin).
  rewrite <- Hst1 in Hst. rewrite <- Hl1 in Hlead.
  destruct (mark_idle_total team_id m k l slot1 None Hk1 Hst Hu1 Hs1)
    as (m' & r & Hrun & Hsl & Hev & _ & Hr).
  destruct (Hr Hlead) as (_ & Hyes & Hno). specialize (Hfin m' r Hrun). cbv zeta in Hfin.
  set (s1 := EventLoop.set_manager m' (EventLoop.set_conversation_status conv "finished" s)) in Hfin.
  assert (Hne : l ≠ k). { intros ->. destruct Hu1 as [(ls & ? & ?) _]. congruence. }
  assert (Hmgr : EventLoop.manager s' = m' ∧ EventLoop.conversation_status s' =
    alter (λ _, "finished") conv (EventLoop.conversation_status s)).
  { unfold s'. rewrite Hfin. destruct r as [w|]; [|done]. case_match; [done|]. apply notify_manager. }
  destruct Hmgr as [-> ->]. split_and!.
  - rewrite Hsl, lookup_insert_eq. by eexists.
  - by rewrite Hev, Hev1, app_assoc.
  - by rewrite lookup_alter_eq.
  - unfold s'. rewrite Hfin. destruct (decide (lead_should_wake m' l)) as [Hw|Hw].
    + rewrite (proj2 Hyes Hw), (proj2 (String.eqb_neq l k) Hne). by rewrite notify_alter.
    + by rewrite (proj2 Hno Hw).
Qed.

Lemma list_agents_find conv k slot s :
  slots s !! k = Some slot → TeamAgent.conversation_id (AgentSlot.agent slot) = conv →
  (∀ k' slot', slots s !! k' = Some slot' →
     TeamAgent.conversation_id (AgentSlot.agent slot') = conv → k' = k) →
  List.find (λ a, String.eqb (TeamAgent.conversation_id a) conv)
    (map (λ kv, AgentSlot.agent (snd kv)) (hm_iter (slots s))) = Some (AgentSlot.agent slot).
Proof.
  intros Hk Hc Huniq. destruct (List.find _ _) as [a|] eqn:Hf.
  - apply find_Some_elem in Hf as [Hin Ha%String.eqb_eq].
    rewrite list_elem_of_In, in_map_iff in Hin. destruct Hin as ([k' slot'] & <- & Hin).
    apply list_elem_of_In, elem_of_hm_iter in Hin. simpl in *.
    pose proof (Huniq _ _ Hin Ha). by simplify_eq.
  - rewrite find_None_elem in Hf. specialize (Hf (AgentSlot.agent slot)). simpl in Hf.
    rewrite Hc, String.eqb_refl in Hf. discriminate Hf.
    apply list_elem_of_In, in_map_iff. exists (k, slot). split; [done|].
    by apply list_elem_of_In, elem_of_hm_iter.
Qed.

(** [conv] is the conversation of [k] alone. *)
Definition owns_conversation conv k s : Prop :=
  (∃ slot, slots s !! k = Some slot ∧ TeamAgent.conversation_id (AgentSlot.agent slot) = conv) ∧
  (∀ k' slot', slots s !! k' = Some slot' →
     TeamAgent.conversation_id (AgentSlot.agent slot') = conv → k' = k).

Lemma owns_insert_status conv k st slot s m :
  owns_conversation conv k s → slots s !! k = Some slot →
  slots m = <[k := with_status st slot]> (slots s) → owns_conversation conv k m.
Proof.
  intros [(slot0 & Hk & Hc) Hu] Hk' Hm. assert (slot0 = slot) as -> by congruence. unfold owns_conversation. rewrite Hm. split.
  - exists (with_status st slot). by rewrite lookup_insert_eq.
  - intros k' slot'. destruct (decide (k = k')) as [->|Hne]; [done|].
    rewrite lookup_insert_ne by done. apply Hu.
Qed.

(** One finish event of a teammate outside the dedup window. *)
Lemma on_agent_finish_eq now conv k l slot is_error s :
  keyed s → store_ok (store s) → unique_lead s l → slots s !! k = Some slot →
  is_lead slot = false → owns_conversation conv k s → finalized_turns s !! conv = None →
  ∃ s' r row, TeamSession.on_agent_finish team_id now conv is_error s = (s', Ok r) ∧
    slots s' = <[k := with_status TeammateStatus.Idle slot]> (slots s) ∧
    finalized_turns s' !! conv = None ∧ mailed row s s' ∧
    MailboxMessageRow.to_agent_id row = l ∧ MailboxMessageRow.from_agent_id row = k ∧
    MailboxMessageRow.msg_type row = MailboxMessageType.to_string MailboxMessageType.IdleNotification ∧
    (if decide (Mailbox.inbox team_id k (store s') = [])
     then (r = Some l ↔ lead_should_wake s' l) ∧ (r = None ↔ ¬ lead_should_wake s' l)
     else r = Some k).
Proof.
  intros Hk Hst Hu Hslot Hlead [(slot0 & Hs0 & Hc) Huniq] Hfin.
  assert (slot0 = slot) as -> by congruence.
  set (s1 := set_finalized_turns (<[conv := now]> (finalized_turns s)) s).
  assert (Hb : begin_finalize now conv s = (s1, Ok true)).
  { unfold begin_finalize, s1. by rewrite Hfin. }
  unfold TeamSession.on_agent_finish. rewrite (st_bind_ok _ _ _ _ _ Hb). cbn [negb].
  unfold list_agents at 1. unfold st_bind at 1, st_get at 1.
  rewrite (list_agents_find conv k slot s1 Hslot Hc Huniq). cbn [ok_or].
  unfold st_bind at 1, st_lift at 1. rewrite (Hk _ _ Hslot).
  assert (∃ m slot1, (if is_error then set_status team_id k TeammateStatus.Error
        else st_ret tt) s1 = (m, Ok tt) ∧
      keyed m ∧ store m = store s ∧ unique_lead m l ∧ slots m !! k = Some slot1 ∧
      is_lead slot1 = false ∧ with_status TeammateStatus.Idle slot1 = with_status TeammateStatus.Idle slot ∧
      slots m = <[k := slot1]> (slots s))
    as (m & slot1 & Hm & Hk1 & Hst1 & Hu1 & Hs1 & Hl1 & Hws & Hsl1).
  { destruct is_error.
    - exists (status_set team_id k TeammateStatus.Error slot s1), (with_status TeammateStatus.Error slot).
      rewrite (set_status_some _ _ _ _ s1 Hslot).
      split_and!; try done; [by apply keyed_insert_status|by apply unique_lead_status|].
      simpl. apply lookup_insert_eq.
    - exists s1, slot. split_and!; try done. simpl. by rewrite insert_id. }
  rewrite (st_bind_ok _ _ _ _ _ Hm).
  destruct (mark_idle_total team_id m k l slot1 None Hk1 ltac:(by rewrite Hst1) Hu1 Hs1)
    as (m' & r & Hrun & Hsl & _ & _ & Hr).
  destruct (Hr Hl1) as ((Hmail & Hst') & Hyes & Hno).
  rewrite <- finalize_turn_empty in Hrun. rewrite (st_bind_ok _ _ _ _ _ Hrun).
  set (s2 := set_finalized_turns (delete conv (finalized_turns m')) m').
  rewrite (st_bind_ok _ _ m' s2 tt) by done.
  assert (Hne : l ≠ k). { intros ->. destruct Hu as [(ls & ? & ?) _]. congruence. }
  rewrite bool_decide_eq_true_2.
  2:{ intros ->. destruct (decide (lead_should_wake m' l)) as [Hw|Hw];
      [apply Hyes in Hw|apply Hno in Hw]; congruence. }
  assert (Hunread : st_try (F := TeamError.t) (on_store (Mailbox.has_unread team_id k)) s2 =
    (s2, Ok (Ok (negb (bool_decide (Mailbox.inbox team_id k (store s2) = [])))))).
  { unfold st_try, on_store, st_on. rewrite (Mailbox.has_unread_eq (store s2) team_id k Hst').
    by destruct m'. }
  rewrite (st_bind_ok _ _ _ _ _ Hunread).
  exists s2, (if decide (Mailbox.inbox team_id k (store s2) = []) then r else Some k),
    (message_row team_id m l k MailboxMessageType.IdleNotification "idle" None).
  split_and!; try done.
  - case_decide; [by rewrite bool_decide_eq_true_2|by rewrite bool_decide_eq_false_2].
  - simpl. by rewrite Hsl, Hsl1, insert_insert_eq, Hws.
  - simpl. apply lookup_delete_eq.
  - split; [|done]. unfold mail in *. simpl. by rewrite Hmail, Hst1.
  - case_decide; [done|done].
Qed.

(** The finalize dedup does not stop a finish event that follows another one:
    each of two consecutive finish events of a teammate's conversation, at any two
    instants, is finalized, and the lead is sent two idle notifications. *)
Lemma consecutive_finishes_both_run t1 t2 conv k l slot e1 e2 s :
  keyed s → store_ok (store s) → unique_lead s l → slots s !! k = Some slot →
  is_lead slot = false → owns_conversation conv k s → finalized_turns s !! conv = None →
  ∃ s1 s2 r1 r2 row1 row2,
    TeamSession.on_agent_finish team_id t1 conv e1 s = (s1, Ok r1) ∧
    TeamSession.on_agent_finish team_id t2 conv e2 s1 = (s2, Ok r2) ∧
    mail s2 = mail s ++ [row1; row2] ∧
    Forall (λ r, MailboxMessageRow.to_agent_id r = l ∧ MailboxMessageRow.from_agent_id r = k ∧
      MailboxMessageRow.msg_type r = MailboxMessageType.to_string MailboxMessageType.IdleNotification)
      [row1; row2].
Proof.
  intros Hk Hst Hu Hs Hl Ho Hf.
  destruct (on_agent_finish_eq t1 conv k l slot e1 s Hk Hst Hu Hs Hl Ho Hf)
    as (s1 & r1 & row1 & Hrun1 & Hsl1 & Hf1 & [Hm1 Hst1] & ? & ? & ? & _).
  destruct (on_agent_finish_eq t2 conv k l (with_status TeammateStatus.Idle slot) e2 s1)
    as (s2 & r2 & row2 & Hrun2 & _ & _ & [Hm2 _] & ? & ? & ? & _); try done.
  - unfold keyed. rewrite Hsl1. exact (keyed_insert_status team_id k TeammateStatus.Idle slot s Hk Hs).
  - unfold unique_lead. rewrite Hsl1.
    exact (unique_lead_status team_id k TeammateStatus.Idle slot s l Hs Hu).
  - by rewrite Hsl1, lookup_insert_eq.
  - by eapply owns_insert_status.
  - exists s1, s2, r1, r2, row1, row2. split_and!; [done|done| |].
    + by rewrite Hm2, Hm1, <- app_assoc.
    + by repeat constructor.
Qed.
End facts.

(* ------------------------------------------------------------------ *)
(** ** Witnesses, on the team of [TeamSchedulerFacts] *)

Section witnesses.
#[local] Existing Instance json_text.
#[local] Existing Instance counting.
#[local] Existing Instance ascii_unicode.
#[local] Existing Instance slots_in_order.

Lemma demo_lead_slot : slots demo !! "lead" = Some (demo_slot demo_lead).
Proof. by vm_compute. Qed.
Lemma demo_mate_slot : slots demo !! "bob" = Some (demo_slot demo_mate).
Proof. by vm_compute. Qed.

Lemma try_wake_once_witness :
  ∃ s' p, try_wake "t" "lead" demo = (s', Ok (Some p)) ∧
    length (WakePayload.unread_messages p) = 1%nat ∧ try_wake "t" "lead" s' = (s', Ok None).
Proof.
  destruct demo_ok as (_ & Hst & _).
  pose proof (try_wake_once "t" demo "lead" Hst) as H. rewrite demo_lead_slot in H.
  rewrite decide_True in H by done. destruct H as (s' & p & Hr & _ & Hu & _ & H2).
  exists s', p. split; [done|]. split; [|done]. rewrite Hu. by vm_compute.
Defined.

Lemma broadcast_reaches_everyone_once_witness :
  ∃ s', handle_send_message "t" "lead" "*" "hi" demo = (s', Ok tt) ∧ length (mail s') = 2%nat.
Proof.
  destruct demo_ok as (_ & Hst & _).
  destruct (broadcast_reaches_everyone_once "t" demo "lead" "hi" Hst)
    as (s' & rows & Hr & _ & Hm & Hp & _).
  exists s'. split; [done|]. rewrite Hm, length_app. apply (f_equal length) in Hm.
  apply Permutation_length in Hp. rewrite length_map in Hp. rewrite Hp. by vm_compute.
Defined.

Lemma shutdown_needs_lead_witness :
  execute_action "t" "bob" (ShutdownAgent "lead" None) demo =
    (demo, Err (TeamError.InvalidRequest "only lead can shutdown agents")) ∧
  ∃ s', execute_action "t" "lead" (ShutdownAgent "bob" None) demo = (s', Ok None).
Proof.
  destruct demo_ok as (_ & Hst & _). split.
  - pose proof (shutdown_needs_lead "t" demo "bob" "lead" None Hst) as H.
    by rewrite demo_mate_slot in H.
  - pose proof (shutdown_needs_lead "t" demo "lead" "bob" None Hst) as H.
    rewrite demo_lead_slot, demo_mate_slot in H. destruct H as (s' & Hr & _). by exists s'.
Defined.

Lemma crash_recovers_witness :
  ∃ s', handle_agent_crash "t" "bob" ProcessExited None demo = (s', Ok (Some "lead")) ∧
    length (mail s') = 2%nat.
Proof.
  destruct demo_ok as (Hk & Hst & Hu).
  destruct (crash_recovers "t" demo "bob" "lead" (demo_slot demo_mate) ProcessExited None
    Hk Hst Hu demo_mate_slot) as (s' & r & Hr & _ & _ & _ & -> & [Hm _]).
  exists s'. split; [done|]. by rewrite Hm.
Defined.

Lemma demo_names : names_distinct demo.
Proof.
  assert (map_Forall (λ k slot, (k = "lead" ∧ normalize_name (TeamAgent.name (AgentSlot.agent slot)) = "ada") ∨
    (k = "bob" ∧ normalize_name (TeamAgent.name (AgentSlot.agent slot)) = "bob")) (slots demo)) as H.
  { apply (bool_decide_unpack _). by vm_compute. }
  intros k k' slot slot' Hk Hk' Heq. pose proof (H _ _ Hk) as H1. pose proof (H _ _ Hk') as H2.
  cbv beta in H1, H2. rewrite Heq in H1. destruct H1 as [[-> E1]|[-> E1]], H2 as [[-> E2]|[-> E2]]; congruence.
Qed.

Lemma rename_keeps_names_distinct_witness :
  names_distinct (fst (rename_agent "t" "bob" "Carol" demo)) ∧
  snd (rename_agent "t" "bob" " ADA" demo) = Err (TeamError.DuplicateAgentName " ADA").
Proof.
  split; [|by vm_compute]. apply (rename_keeps_names_distinct "t" demo "bob" "Carol"), demo_names.
Defined.

Lemma dedup_window_witness :
  snd (begin_finalize 4999 "c" (fst (begin_finalize 0 "c" demo))) = Ok false ∧
  snd (begin_finalize 5000 "c" (fst (begin_finalize 0 "c" demo))) = Ok true.
Proof.
  split.
  - by destruct (dedup_window "c" 0 0 4999 demo) as (_ & H & _).
  - by destruct (dedup_window "c" 0 0 5000 demo) as (_ & H & _).
Defined.

Definition demo_loop : EventLoop.state TeamDb :=
  EventLoop.spawn "lead" 0 (EventLoop.mk_state demo {["conv-bob" := "running"]} ∅ ∅ false).

Lemma failed_turn_ends_idle_witness :
  EventLoop.conversation_status (EventLoop.finalize_turn "t" "bob" false "conv-bob" demo_loop)
    !! "conv-bob" = Some "finished" ∧
  EventLoop.notifiers (EventLoop.finalize_turn "t" "bob" false "conv-bob" demo_loop)
    !! "lead" = Some true.
Proof.
  destruct demo_ok as (Hk & Hst & Hu).
  destruct (failed_turn_ends_idle "t" demo_loop "bob" "lead" (demo_slot demo_mate) false "conv-bob"
    Hk Hst Hu demo_mate_slot eq_refl) as (_ & _ & Hc & _).
  rewrite Hc. split; by vm_compute.
Defined.

Lemma consecutive_finishes_both_run_witness :
  ∃ s1 s2 r1 r2, TeamSession.on_agent_finish "t" 0 "conv-bob" false demo = (s1, Ok r1) ∧
    TeamSession.on_agent_finish "t" 1 "conv-bob" false s1 = (s2, Ok r2) ∧ length (mail s2) = 3%nat.
Proof.
  destruct demo_ok as (Hk & Hst & Hu).
  destruct (consecutive_finishes_both_run "t" 0 1 "conv-bob" "bob" "lead" (demo_slot demo_mate)
    false false demo Hk Hst Hu demo_mate_slot eq_refl)
    as (s1 & s2 & r1 & r2 & row1 & row2 & H1 & H2 & Hm & _).
  - split; [exists (demo_slot demo_mate); split; [exact demo_mate_slot|reflexivity]|].
    assert (map_Forall (λ k slot, TeamAgent.conversation_id (AgentSlot.agent slot) = "conv-bob" → k = "bob")
      (slots demo)) as H by (apply (bool_decide_unpack _); by vm_compute).
    intros k' slot' Hk'. exact (H _ _ Hk').
  - by vm_compute.
  - exists s1, s2, r1, r2. split; [exact H1|split; [exact H2|rewrite Hm; by vm_compute]].
Defined.
End witnesses.
