(* ===== verification/TeamPrompts.v ===== *)
(** * TeamPrompts: the texts sent to team agents

    [chisl-team/src/prompts/mod.rs] and [lead.rs]: the wake payload, built from the
    unread messages and the task board, and the role prompts.  The body of the
    lead's prompt is the text file [prompt_templates/lead.txt], a parameter. *)

From S2P Require Import Prelude.
From S2P Require Import Text.
From S2P Require Import Json.
From S2P Require Import TeamTypes.

Definition quote : string := String (Ascii.ascii_of_nat 34) EmptyString.

(** [str::replace] with a non-empty pattern; [skip] bytes of a match are left. *)
Fixpoint replace_from (pat to : string) (skip : nat) (s : string) : string :=
  match s with
  | EmptyString => EmptyString
  | String a s' =>
      match skip with
      | S skip' => replace_from pat to skip' s'
      | O => if starts_with pat s then to +:+ replace_from pat to (str_len pat - 1) s'
             else String a (replace_from pat to 0 s')
      end
  end.
Definition str_replace (s pat to : string) : string := replace_from pat to 0 s.

Module LeadPrompt.
(* chisl-team/src/prompts/lead.rs:30-33 AvailableAgentType *)
Record AvailableAgentType := mk_type { agent_type : string; display_name : string }.
(* chisl-team/src/prompts/lead.rs:38-44 AvailableAssistant *)
Record AvailableAssistant := mk_assistant {
  custom_agent_id : string; name : string; backend : string; description : string;
  skills : list string }.
(* chisl-team/src/prompts/lead.rs:47-54 LeadPromptParams *)
Record LeadPromptParams := mk_params {
  team_name : string; teammates : list TeamAgent.t;
  available_agent_types : list AvailableAgentType;
  available_assistants : list AvailableAssistant;
  renamed_agents : gmap string string; team_workspace : option string }.

(* chisl-team/src/prompts/lead.rs:89-109 render_teammate_list *)
Definition render_teammate_list (teammates : list TeamAgent.t)
    (renamed_agents : gmap string string) : string :=
  match teammates with
  | [] => "(no teammates yet — propose the lineup to the user first, then use "
      +:+ "team_spawn_agent only after they confirm or explicitly ask you to create "
      +:+ "teammates immediately)"
  | _ => str_join nl (map (λ m,
      let status := match TeamAgent.status m with
                    | Some s => TeammateStatus.to_string s | None => "unknown" end in
      "- " +:+ TeamAgent.name m +:+ " (" +:+ TeamAgent.backend m +:+ ", status: " +:+ status +:+ ")"
      +:+ match renamed_agents !! TeamAgent.slot_id m with
          | Some former => " [formerly: " +:+ former +:+ "]" | None => EmptyString end) teammates)
  end.

(* chisl-team/src/prompts/lead.rs:111-124 render_available_types_section *)
Definition render_available_types_section (agent_types : list AvailableAgentType) : string :=
  match agent_types with
  | [] => EmptyString
  | _ => nl +:+ nl +:+ "## Available Agent Types for Spawning" +:+ nl +:+
      str_join nl (map (λ t, "- `" +:+ agent_type t +:+ "` — " +:+ display_name t) agent_types) +:+
      nl +:+ nl +:+
      "Use `team_list_models` to query available models for each agent type before spawning."
  end.

(* chisl-team/src/prompts/lead.rs:126-171 render_available_assistants_section *)
Definition render_available_assistants_section (assistants : list AvailableAssistant) : string :=
  match assistants with
  | [] => EmptyString
  | _ => nl +:+ nl +:+ "## Available Preset Assistants for Spawning" +:+ nl +:+
      "These are user-configured assistants with pre-loaded rules and skills for specific "
      +:+ "domains (writing, research, PPT building, etc.). When a task matches a preset's "
      +:+ "specialty, prefer spawning the preset over a generic CLI agent — you get its domain "
      +:+ "expertise automatically." +:+ nl +:+ nl +:+
      str_join nl (map (λ a,
        let desc := if String.eqb (description a) EmptyString then EmptyString
                    else " — " +:+ description a in
        let skills := match skills a with
                      | [] => EmptyString
                      | l => nl +:+ "   skills: " +:+ str_join ", " l end in
        "- `" +:+ custom_agent_id a +:+ "` (" +:+ name a +:+ ", backend: " +:+ backend a +:+ ")"
        +:+ desc +:+ skills) assistants) +:+
      nl +:+ nl +:+ "### How to pick a preset" +:+ nl +:+
      "1. Scan the one-line descriptions and skills above. If one clearly matches the user's "
      +:+ "domain (e.g. " +:+ quote +:+ "quarterly Word report" +:+ quote +:+
      " → `word-creator`), spawn it directly with `team_spawn_agent`." +:+ nl +:+
      "2. If two or more presets seem relevant, call `team_describe_assistant` on each "
      +:+ "candidate to see its full description, skills, and example tasks, then choose the best "
      +:+ "fit." +:+ nl +:+
      "3. If no preset matches the task, fall back to a generic CLI agent from the "
      +:+ quote +:+ "Available Agent Types" +:+ quote +:+ " section." +:+ nl +:+ nl +:+
      "Pass the preset's ID as `custom_agent_id` to `team_spawn_agent`. The `agent_type` is "
      +:+ "derived from the preset's backend and does not need to be specified."
  end.

(* chisl-team/src/prompts/lead.rs:173-181 render_workspace_section *)
Definition render_workspace_section (team_workspace : option string) : string :=
  match team_workspace with
  | Some ws => nl +:+ nl +:+ "## Team Workspace" +:+ nl +:+ "Your working directory `" +:+ ws +:+
      "` IS the shared team workspace." +:+ nl +:+
      "All teammates work in this directory for project-related operations."
  | None => EmptyString
  end.

(** [template] is [LEAD_PROMPT_TEMPLATE]. *)
(* chisl-team/src/prompts/lead.rs:65-87 build_lead_prompt *)
Definition build_lead_prompt (template : string) (params : LeadPromptParams) : string :=
  let s := str_replace template "${teammateList}"
             (render_teammate_list (teammates params) (renamed_agents params)) in
  let s := str_replace s "${availableTypesSection}"
             (render_available_types_section (available_agent_types params)) in
  let s := str_replace s "${availableAssistantsSection}"
             (render_available_assistants_section (available_assistants params)) in
  let s := str_replace s "${workspaceSection}"
             (render_workspace_section (team_workspace params)) in
  let s := str_replace s "${presetFormattingStepRule}" EmptyString in
  str_replace s "${presetFormattingImportantRule}" EmptyString.
End LeadPrompt.

Module Prompts.
(* chisl-team/src/prompts/mod.rs:23-44 build_lead_prompt *)
Definition build_lead_prompt (template team_name : string) (members : list TeamAgent.t)
    (available_agent_types : list (string * string)) : string :=
  let agent_types := map (λ bd, LeadPrompt.mk_type (fst bd) (snd bd)) available_agent_types in
  let params := LeadPrompt.mk_params team_name members agent_types [] ∅ None in
  let body := LeadPrompt.build_lead_prompt template params in
  "Team: " +:+ quote +:+ team_name +:+ quote +:+ nl +:+ nl +:+ body.

(* chisl-team/src/prompts/mod.rs:46-73 build_teammate_prompt *)
Definition build_teammate_prompt (agent : TeamAgent.t) (team_name : string) : string :=
  "You are **" +:+ TeamAgent.name agent +:+ "**, a Teammate Agent in team " +:+ quote +:+
  team_name +:+ quote +:+ ". Your slot ID is `" +:+ TeamAgent.slot_id agent +:+ "`." +:+ nl +:+ nl +:+
  "## Your Role" +:+ nl +:+ nl +:+
  "You execute tasks assigned by the Lead Agent. Focus on completing your "
  +:+ "assigned work thoroughly and reporting back." +:+ nl +:+ nl +:+
  "## Communication Protocol" +:+ nl +:+ nl +:+
  "- Use `team_send_message` to report progress or ask questions to the Lead." +:+ nl +:+
  "- Use `team_task_update` to update task status as you work "
  +:+ "(pending → in_progress → completed)." +:+ nl +:+
  "- When your assigned work is done, send an idle notification. "
  +:+ "The system will notify the Lead." +:+ nl +:+
  "- If you receive a `shutdown_request`, finish any critical work, "
  +:+ "then respond with " +:+ quote +:+ "shutdown_approved" +:+ quote +:+ " or " +:+ quote +:+
  "shutdown_rejected: <reason>" +:+ quote +:+ "." +:+ nl.

(* chisl-team/src/prompts/mod.rs:80-93 build_wake_payload (messages) *)
Definition render_message (msg : MailboxMessage.t) : string :=
  "- From `" +:+ MailboxMessage.from_agent_id msg +:+ "` [" +:+
  MailboxMessageType.to_string (MailboxMessage.msg_type msg) +:+ "]: " +:+
  MailboxMessage.content msg +:+ nl +:+
  match MailboxMessage.summary msg with
  | Some summary => "  Summary: " +:+ summary +:+ nl
  | None => EmptyString
  end.

(** [&task.id[..8]] does not panic, as task identifiers are ASCII. *)
(* chisl-team/src/prompts/mod.rs:103-122 build_wake_payload (tasks) *)
Definition render_task `{SerdeJson} (task : TeamTask.t) : string :=
  let owner := default "-" (TeamTask.owner task) in
  let blocked := match TeamTask.blocked_by task with
                 | [] => "-" | l => str_join ", " l end in
  let short_id := if (8 <? str_len (TeamTask.id task))%nat
                  then String.substring 0 8 (TeamTask.id task) else TeamTask.id task in
  "| " +:+ short_id +:+ "… | " +:+ TeamTask.subject task +:+ " | " +:+
  TaskStatus.to_string (TeamTask.status task) +:+ " | " +:+ owner +:+ " | " +:+ blocked +:+ " |" +:+ nl.

(* chisl-team/src/prompts/mod.rs:75-133 build_wake_payload *)
Definition build_wake_payload `{SerdeJson} (agent : TeamAgent.t) (tasks : list TeamTask.t)
    (unread_messages : list MailboxMessage.t) : string :=
  match unread_messages with
  | [] => "## New Messages" +:+ nl +:+ nl +:+ "No new messages." +:+ nl +:+ nl
  | _ => "## New Messages" +:+ nl +:+ nl +:+ str_join EmptyString (map render_message unread_messages) +:+ nl
  end +:+
  match tasks with
  | [] => "## Current Task Board" +:+ nl +:+ nl +:+ "No tasks on the board." +:+ nl +:+ nl
  | _ => "## Current Task Board" +:+ nl +:+ nl +:+
      "| ID | Subject | Status | Owner | Blocked By |" +:+ nl +:+ "|---|---|---|---|---|" +:+ nl +:+
      str_join EmptyString (map render_task tasks) +:+ nl
  end +:+
  "You are **" +:+ TeamAgent.name agent +:+ "** (role: " +:+
  TeammateRole.to_string (TeamAgent.role agent) +:+ "). Proceed with your work." +:+ nl.

(** A message is quoted in full in the payload that hands it over. *)
Lemma payload_contains `{SerdeJson} agent tasks unread msg :
  msg ∈ unread → contains (build_wake_payload agent tasks unread) (render_message msg) = true.
Proof.
  intros Hm. apply contains_spec.
  assert (Hjoin : ∃ u v, str_join EmptyString (map render_message unread) = u +:+ render_message msg +:+ v).
  { clear -Hm. induction unread as [|m unread IH]; [by apply elem_of_nil in Hm|].
    assert (Hcons : str_join EmptyString (map render_message (m :: unread)) =
      render_message m +:+ str_join EmptyString (map render_message unread)).
    { destruct unread; simpl; [by rewrite app_string_nil_r|done]. }
    rewrite Hcons. apply elem_of_cons in Hm as [->|Hm].
    - exists EmptyString. eexists. by rewrite app_string_empty.
    - destruct (IH Hm) as (u & v & ->). exists (render_message m +:+ u), v. by rewrite !app_string_assoc. }
  destruct Hjoin as (u & v & Hj). unfold build_wake_payload.
  destruct unread as [|m unread]; [by apply elem_of_nil in Hm|]. rewrite Hj.
  eexists ("## New Messages" +:+ nl +:+ nl +:+ u), _. by rewrite !app_string_assoc.
Qed.
End Prompts.
