(* ===== verification/TeamLoop.v ===== *)
(** * TeamLoop: the event loop of a team agent

    [run_event_loop] and [execute_turn] of [chisl-team/src/event_loop.rs] with
    [compute_wake_input] and [mirror_unread_to_conversation] of [session.rs].  A
    loop is in one of three phases; a step takes it from one point where it can be
    interrupted to the next, so that other agents' methods run between its steps.
    What the agent task and the database answer is the argument [env] of a step. *)

From S2P Require Import Prelude.
From S2P Require Import Text.
From S2P Require Import Json.
From S2P Require Import TeamTypes.
From S2P Require Import TeamRepo.
From S2P Require Import TeamRepoSqlite.
From S2P Require Import TeamEvents.
From S2P Require Import TeamMailbox.
From S2P Require Import TeamTaskBoard.
From S2P Require Import TeamScheduler.
From S2P Require Import TeamSchedulerFacts.
From S2P Require Import TeamTurn.
From S2P Require Import TeamPrompts.
Import Scheduler.

Module WakeInput.
(* chisl-team/src/session.rs:27-44 WakeInput *)
Record t := mk {
  conversation_id : string; first_message : string; should_send : bool;
  unread : list MailboxMessage.t; agent_role : TeammateRole.t }.
End WakeInput.

(** A left bubble of a conversation: the row inserted and the event broadcast. *)
(* chisl-team/src/session.rs:540-581 mirror_unread_to_conversation (row) *)
Record Bubble := mk_bubble {
  bubble_conversation : string; display_content : string; from_slot_id : string;
  sender_name : string; sender_backend : option string;
  sender_conversation_id : option string }.

(** The message sent to the agent task; its minted [msg_id] is left out. *)
(* chisl-ai-agent/src/types.rs:10-20 SendMessageData *)
Record SendMessageData := mk_send { content : string; files : list string; inject_skills : list string }.

(** What the world answers during one turn: the agent task found before and after
    warming up (its status, if any), and the outcome of [warmup] and [send_message]. *)
Record environment := mk_env {
  task_before : option (option ConversationStatus.t);
  warmup_ok : bool;
  task_after : option (option ConversationStatus.t);
  send_ok : bool }.

Module AgentLoop.
(** Where a loop stands: before its [select!], before it computes its input, and
    inside [send_message]. *)
Inductive phase := Waiting | Draining | Sending (input : WakeInput.t) (data : SendMessageData).

Record state (Db : Type) := mk_state {
  base : EventLoop.state Db;
  bubbles : list Bubble;
  phases : gmap string phase }.
Arguments mk_state {Db}.
Arguments base {Db}.
Arguments bubbles {Db}.
Arguments phases {Db}.

Section ops.
Context {Db : Type} {SJ : SerdeJson} {TR : ITeamRepository Db} {AM : Ambient} {UC : Unicode}
  {HI : HashIter AgentSlot.t} (team_id team_name : string).
(** The lead's template and the answer of [list_team_capable_backends]. *)
Context (template : string) (available_agent_types : list (string * string)).
Local Abbreviation M := (ST (TeammateManager Db) TeamError.t).
Implicit Types s : state Db.

Definition set_base (b : EventLoop.state Db) s : state Db := mk_state b (bubbles s) (phases s).
Definition set_phase (slot_id : string) (p : phase) s : state Db :=
  mk_state (base s) (bubbles s) (<[slot_id := p]> (phases s)).

(* chisl-team/src/session.rs:197-221 TeamSession::compute_wake_input (role prompt) *)
Definition role_prompt (agent : TeamAgent.t) : M string :=
  match TeamAgent.role agent with
  | TeammateRole.Lead =>
      let! members := list_agents in
      st_ret (Prompts.build_lead_prompt template team_name members available_agent_types)
  | TeammateRole.Teammate => st_ret (Prompts.build_teammate_prompt agent team_name)
  end.

Definition not_self (slot_id : string) (m : MailboxMessage.t) : bool :=
  negb (String.eqb (MailboxMessage.from_agent_id m) slot_id).

(* chisl-team/src/session.rs:185-235 TeamSession::compute_wake_input *)
Definition compute_wake_input (slot_id : string) : M (option WakeInput.t) :=
  let! agent := get_agent slot_id in
  let! all_unread := on_store (Mailbox.peek_unread team_id slot_id) in
  let unread := List.filter (not_self slot_id) all_unread in
  let! tasks := list_tasks team_id in
  let wake_body := Prompts.build_wake_payload agent tasks unread in
  let! needs_role_prompt := take_needs_role_prompt slot_id in
  let! first_message :=
    (if needs_role_prompt : bool
     then let! prompt := role_prompt agent in st_ret (prompt +:+ nl +:+ nl +:+ wake_body)
     else st_ret wake_body) in
  let should_send := negb (bool_decide (unread = [])) in
  st_ret (Some (WakeInput.mk (TeamAgent.conversation_id agent) first_message should_send unread
    (TeamAgent.role agent))).

(** With a live service; an insertion that fails is skipped by the code, here none
    fails. *)
(* chisl-team/src/session.rs:510-585 TeamSession::mirror_unread_to_conversation *)
Definition mirror_unread_to_conversation (agents : list TeamAgent.t) (input : WakeInput.t) : list Bubble :=
  match WakeInput.unread input, WakeInput.agent_role input with
  | [], _ | _, TeammateRole.Lead => []
  | unread, _ =>
      omap (λ msg,
        if String.eqb (MailboxMessage.from_agent_id msg) "user" then None
        else
          let sender := List.find (λ a, String.eqb (TeamAgent.slot_id a)
                                          (MailboxMessage.from_agent_id msg)) agents in
          let name := match sender with
                      | Some a => TeamAgent.name a
                      | None => MailboxMessage.from_agent_id msg end in
          let content := if (1 <? length unread)%nat
                         then "[" +:+ name +:+ "] " +:+ MailboxMessage.content msg
                         else MailboxMessage.content msg in
          Some (mk_bubble (WakeInput.conversation_id input) content
            (MailboxMessage.from_agent_id msg) name (TeamAgent.backend <$> sender)
            (TeamAgent.conversation_id <$> sender))) unread
  end.

(** [ctx.task_manager.get_task], warming up when there is none. *)
(* chisl-team/src/event_loop.rs:171-201 execute_turn (agent task) *)
Definition agent_task (env : environment) : option (option ConversationStatus.t) :=
  match task_before env with
  | Some h => Some h
  | None => if warmup_ok env then task_after env else None
  end.

(** [execute_turn] up to [send_message]; [None]: the turn was not started. *)
(* chisl-team/src/event_loop.rs:167-281 execute_turn *)
Definition begin_turn (slot_id : string) (input : WakeInput.t) (env : environment) s :
    state Db * option SendMessageData :=
  let agents := map (λ kv, AgentSlot.agent (snd kv)) (hm_iter (slots (EventLoop.manager (base s)))) in
  let s := mk_state (base s) (bubbles s ++ mirror_unread_to_conversation agents input) (phases s) in
  let conv := WakeInput.conversation_id input in
  match agent_task env with
  | None => (s, None)
  | Some status =>
      if bool_decide (status = Some ConversationStatus.Running) then (s, None)
      else if bool_decide (EventLoop.conversation_status (base s) !! conv = Some "running")
      then (s, None)
      else
        let b := fst (EventLoop.on_manager (set_status team_id slot_id TeammateStatus.Working) (base s)) in
        let files := concat (omap MailboxMessage.files (WakeInput.unread input)) in
        (set_base (EventLoop.set_conversation_status conv "running" b) s,
         Some (mk_send (WakeInput.first_message input) files []))
  end.

(** [execute_turn] after [send_message], then [finalize_turn]. *)
(* chisl-team/src/event_loop.rs:267-280 execute_turn (after send_message) *)
Definition end_turn (slot_id : string) (input : WakeInput.t) (env : environment) s : state Db :=
  let turn_ok := send_ok env in
  let msg_ids := map MailboxMessage.id (WakeInput.unread input) in
  let b := match msg_ids with
           | [] => base s
           | _ => fst (EventLoop.on_manager (on_store (Mailbox.mark_read_batch msg_ids)) (base s))
           end in
  set_base (EventLoop.finalize_turn team_id slot_id turn_ok (WakeInput.conversation_id input) b) s.

(** One step of the loop of [slot_id]; [None]: there is no such loop or it waits.  A
    loop that sees the shutdown flag ends. *)
(* chisl-team/src/event_loop.rs:105-162 run_event_loop *)
Definition loop_step (slot_id : string) (env : environment) s : option (state Db) :=
  let ended := mk_state (base s) (bubbles s) (delete slot_id (phases s)) in
  match phases s !! slot_id with
  | None => None
  | Some Waiting =>
      if EventLoop.shutdown_flag (base s) then Some ended
      else match EventLoop.notifiers (base s) !! slot_id with
      | Some true =>
          let b := EventLoop.set_registry (<[slot_id := false]> (EventLoop.notifiers (base s)))
                     (EventLoop.handles (base s)) (base s) in
          Some (set_phase slot_id Draining (set_base b s))
      | _ => None
      end
  | Some Draining =>
      if EventLoop.shutdown_flag (base s) then Some ended
      else
        let '(b, r) := EventLoop.on_manager (compute_wake_input slot_id) (base s) in
        let s := set_base b s in
        match r with
        | Ok (Some input) =>
            if negb (WakeInput.should_send input) then Some (set_phase slot_id Waiting s)
            else
              let '(s, started) := begin_turn slot_id input env s in
              Some (set_phase slot_id (match started with
                                       | Some data => Sending input data | None => Waiting end) s)
        | Ok None | Err _ => Some (set_phase slot_id Waiting s)
        end
  | Some (Sending input _) => Some (set_phase slot_id Draining (end_turn slot_id input env s))
  end.

(** [EventLoopRegistry::notify] and the other operations of a running session. *)
Definition notify (slot_id : string) s : state Db := set_base (EventLoop.notify slot_id (base s)) s.

(** What happens in a session: a step of a loop, a signal, or any method of the
    manager called by another agent or by the user. *)
Inductive event :=
| Step (slot_id : string) (env : environment)
| Notify (slot_id : string)
| Method (f : TeammateManager Db → TeammateManager Db).

Definition perform (e : event) s : option (state Db) :=
  match e with
  | Step slot_id env => loop_step slot_id env s
  | Notify slot_id => Some (notify slot_id s)
  | Method f => Some (set_base (EventLoop.set_manager (f (EventLoop.manager (base s))) (base s)) s)
  end.

Fixpoint run (es : list event) s : option (state Db) :=
  match es with
  | [] => Some s
  | e :: es' => match perform e s with Some s' => run es' s' | None => None end
  end.
End ops.

(* ------------------------------------------------------------------ *)
(** ** Draining *)

Section facts.
Context {Db : Type} {SJ : SerdeJson} {TR : ITeamRepository Db} {TS : TeamRepositorySpec Db}
  {AM : Ambient} {UC : Unicode} {HI : HashIter AgentSlot.t} (team_id team_name template : string)
  (types : list (string * string)).
Implicit Types s : state Db.
Implicit Types k l : string.
Local Abbreviation store_ok := Mailbox.store_ok.
Local Abbreviation mgr s := (EventLoop.manager (base s)).
Local Abbreviation step := (loop_step team_id team_name template types).

(** What the loop of [k] would hand over. *)
Definition unread_of k s : list MailboxMessage.t :=
  List.filter (not_self k) (Mailbox.inbox team_id k (store (mgr s))).

(** The slot once the role prompt was taken. *)
Definition prompt_spent (slot : AgentSlot.t) : AgentSlot.t :=
  AgentSlot.mk (AgentSlot.agent slot) (AgentSlot.status slot) false.
Definition spend k slot (m : TeammateManager Db) : TeammateManager Db :=
  set_slots (<[k := prompt_spent slot]> (slots m)) m.

Lemma role_prompt_eq agent (m : TeammateManager Db) :
  ∃ prompt, role_prompt team_name template types agent m = (m, Ok prompt).
Proof. unfold role_prompt. destruct (TeamAgent.role agent); by eexists. Qed.

(** The input of a turn; only the role prompt flag changes. *)
Lemma compute_wake_input_eq k slot (m : TeammateManager Db) :
  slots m !! k = Some slot →
  ∃ tasks prompt,
    let unread := List.filter (not_self k) (Mailbox.inbox team_id k (store m)) in
    let body := Prompts.build_wake_payload (AgentSlot.agent slot) tasks unread in
    compute_wake_input team_id team_name template types k m =
      (spend k slot m, Ok (Some (WakeInput.mk (TeamAgent.conversation_id (AgentSlot.agent slot))
        (if AgentSlot.needs_role_prompt slot then prompt +:+ nl +:+ nl +:+ body else body)
        (negb (bool_decide (unread = []))) unread (TeamAgent.role (AgentSlot.agent slot))))).
Proof.
  intros Hk. destruct (role_prompt_eq (AgentSlot.agent slot) (spend k slot m)) as [prompt Hp].
  eexists _, prompt. cbv zeta. unfold compute_wake_input.
  rewrite (st_bind_ok _ _ _ _ _ (get_agent_some _ _ _ Hk)).
  assert (set_store (store m) m = m) as Hm by by destruct m.
  rewrite (st_bind_ok _ _ _ _ _ (on_store_ok _ _ _ _ (Mailbox.peek_unread_eq team_id k (store m)))), Hm.
  rewrite (st_bind_ok _ _ _ _ _ (list_tasks_eq team_id m)).
  rewrite (st_bind_ok _ _ m (spend k slot m) (AgentSlot.needs_role_prompt slot)).
  - destruct (AgentSlot.needs_role_prompt slot); [|done]. unfold st_bind at 1.
    by rewrite (st_bind_ok _ _ _ _ _ Hp).
  - unfold take_needs_role_prompt. by rewrite Hk.
Qed.

(** Whether a turn can start: the agent task is there and not running, and neither
    is the conversation. *)
Definition can_start (env : environment) (conv : string) s : bool :=
  match agent_task env with
  | None => false
  | Some status => negb (bool_decide (status = Some ConversationStatus.Running)) &&
      negb (bool_decide (EventLoop.conversation_status (base s) !! conv = Some "running"))
  end.

Definition agents_of (m : TeammateManager Db) : list TeamAgent.t :=
  map (λ kv, AgentSlot.agent (snd kv)) (hm_iter (slots m)).
Definition mirrored s (input : WakeInput.t) : state Db :=
  mk_state (base s) (bubbles s ++ mirror_unread_to_conversation (agents_of (mgr s)) input) (phases s).

Lemma find_agent (m : TeammateManager Db) x :
  keyed m → List.find (λ a, String.eqb (TeamAgent.slot_id a) x) (agents_of m) =
    AgentSlot.agent <$> slots m !! x.
Proof.
  intros Hkeyed. destruct (List.find _ _) as [a|] eqn:Hf.
  - apply find_Some_elem in Hf as [Hin Ha%String.eqb_eq].
    apply elem_of_map in Hin as ([x' slot] & -> & Hin%elem_of_hm_iter). simpl in Ha.
    rewrite <- Ha, (Hkeyed _ _ Hin). by rewrite Hin.
  - destruct (slots m !! x) as [slot|] eqn:Hx; [|done]. rewrite find_None_elem in Hf.
    specialize (Hf (AgentSlot.agent slot)). simpl in Hf. rewrite (Hkeyed _ _ Hx), String.eqb_refl in Hf.
    discriminate Hf. apply elem_of_map. exists (x, slot). split; [done|]. by apply elem_of_hm_iter.
Qed.

(** What a bubble shows of its sender. *)
Definition shown_agent (a : TeamAgent.t) : string * string * string :=
  (TeamAgent.name a, TeamAgent.backend a, TeamAgent.conversation_id a).

Lemma mirror_same agents agents' input input' :
  (∀ x, shown_agent <$> List.find (λ a, String.eqb (TeamAgent.slot_id a) x) agents =
        shown_agent <$> List.find (λ a, String.eqb (TeamAgent.slot_id a) x) agents') →
  WakeInput.unread input = WakeInput.unread input' →
  WakeInput.agent_role input = WakeInput.agent_role input' →
  WakeInput.conversation_id input = WakeInput.conversation_id input' →
  mirror_unread_to_conversation agents input = mirror_unread_to_conversation agents' input'.
Proof.
  intros Hf Hu Hr Hc. unfold mirror_unread_to_conversation. rewrite Hu, Hr, Hc.
  destruct (WakeInput.unread input') as [|m ms] eqn:Hms; [done|].
  destruct (WakeInput.agent_role input'); [done|]. generalize (1 <? length (m :: ms))%nat.
  generalize (m :: ms). clear Hu Hr Hc Hms. intros l many.
  induction l as [|x l IH]; csimpl; [done|].
  destruct (String.eqb (MailboxMessage.from_agent_id x) "user"); [done|].
  specialize (Hf (MailboxMessage.from_agent_id x)). unfold shown_agent in Hf.
  destruct (List.find _ agents) as [a|], (List.find _ agents') as [a'|]; try discriminate Hf; simpl.
  - injection Hf as Hn Hb Hc. by rewrite Hn, Hb, Hc, IH.
  - by rewrite IH.
Qed.

Lemma begin_turn_eq k slot input env s :
  slots (mgr s) !! k = Some slot →
  begin_turn team_id k input env s =
    if can_start env (WakeInput.conversation_id input) s
    then (set_base (EventLoop.set_conversation_status (WakeInput.conversation_id input) "running"
            (EventLoop.set_manager (status_set team_id k TeammateStatus.Working slot (mgr s)) (base s)))
            (mirrored s input),
          Some (mk_send (WakeInput.first_message input)
                  (concat (omap MailboxMessage.files (WakeInput.unread input))) []))
    else (mirrored s input, None).
Proof.
  intros Hk. unfold begin_turn, can_start. destruct (agent_task env) as [status|]; [|done].
  destruct (bool_decide (status = _)); [done|]. cbn [base]. destruct (bool_decide _); [done|].
  cbn [negb andb]. unfold EventLoop.on_manager. by rewrite (set_status_some _ _ _ _ _ Hk).
Qed.

(** Every way a step of a draining loop can go. *)
Lemma draining_step k slot env s :
  phases s !! k = Some Draining → EventLoop.shutdown_flag (base s) = false →
  slots (mgr s) !! k = Some slot →
  ∃ tasks prompt,
    let body := Prompts.build_wake_payload (AgentSlot.agent slot) tasks (unread_of k s) in
    let conv := TeamAgent.conversation_id (AgentSlot.agent slot) in
    let input := WakeInput.mk conv
      (if AgentSlot.needs_role_prompt slot then prompt +:+ nl +:+ nl +:+ body else body)
      (negb (bool_decide (unread_of k s = []))) (unread_of k s) (TeamAgent.role (AgentSlot.agent slot)) in
    let s1 := set_base (EventLoop.set_manager (spend k slot (mgr s)) (base s)) s in
    step k env s = Some
      (if decide (unread_of k s = []) then set_phase k Waiting s1
       else if can_start env conv s
       then set_phase k (Sending input (mk_send (WakeInput.first_message input)
                           (concat (omap MailboxMessage.files (unread_of k s))) []))
              (set_base (EventLoop.set_conversation_status conv "running" (EventLoop.set_manager
                 (status_set team_id k TeammateStatus.Working (prompt_spent slot) (spend k slot (mgr s)))
                 (base s))) (mirrored s1 input))
       else set_phase k Waiting (mirrored s1 input)).
Proof.
  intros Hp Hsd Hk. destruct (compute_wake_input_eq k slot (mgr s) Hk) as (tasks & prompt & Hc).
  exists tasks, prompt. cbv zeta. unfold loop_step. rewrite Hp, Hsd. unfold EventLoop.on_manager.
  cbv zeta in Hc. fold (unread_of k s) in Hc. rewrite Hc. cbn [WakeInput.should_send].
  rewrite negb_involutive. destruct (decide (unread_of k s = [])) as [He|He].
  { by rewrite bool_decide_eq_true_2. }
  rewrite bool_decide_eq_false_2 by done.
  rewrite (begin_turn_eq k (prompt_spent slot)) by (simpl; apply lookup_insert_eq).
  cbn [WakeInput.conversation_id]. unfold can_start. simpl base.
  destruct (agent_task env) as [status|]; [|reflexivity].
  destruct (bool_decide (status = _)); [reflexivity|]. simpl.
  by destruct (bool_decide (EventLoop.conversation_status (base s) !! _ = _)).
Qed.

Lemma waiting_step k env s :
  phases s !! k = Some Waiting → EventLoop.shutdown_flag (base s) = false →
  EventLoop.notifiers (base s) !! k = Some true →
  step k env s = Some (set_phase k Draining (set_base (EventLoop.set_registry
    (<[k := false]> (EventLoop.notifiers (base s))) (EventLoop.handles (base s)) (base s)) s)).
Proof. intros Hp Hsd Hn. unfold loop_step. by rewrite Hp, Hsd, Hn. Qed.

(** The mail a turn's end sends does not reach the agent itself. *)
Lemma inbox_after_mail k l from ty content summary (m m' : TeammateManager Db) :
  l ≠ k → mailed (message_row team_id m l from ty content summary) m m' →
  Mailbox.inbox team_id k (store m') = Mailbox.inbox team_id k (store m).
Proof.
  intros Hne [Hmail _]. unfold Mailbox.inbox, Mailbox.unread_rows. unfold mail in Hmail. rewrite Hmail.
  rewrite Mailbox.filter_app_list. simpl. unfold unread_for at 2. simpl.
  by rewrite (proj2 (String.eqb_neq l k) Hne), andb_false_r, app_nil_r.
Qed.

(** Marking the messages of a turn as read, when it has any. *)
Lemma mark_handed input (m : TeammateManager Db) :
  store_ok (store m) →
  ∃ st', store_ok st' ∧
    (∀ k, Mailbox.inbox team_id k st' = List.filter (λ x,
      negb (bool_decide (MailboxMessage.id x ∈ map MailboxMessage.id (WakeInput.unread input))))
      (Mailbox.inbox team_id k (store m))) ∧
    ∀ b : EventLoop.state Db, EventLoop.manager b = m →
      match map MailboxMessage.id (WakeInput.unread input) with
      | [] => b
      | _ => fst (EventLoop.on_manager (on_store (Mailbox.mark_read_batch
                    (map MailboxMessage.id (WakeInput.unread input)))) b)
      end = EventLoop.set_manager (set_store st' m) b.
Proof.
  intros Hst. destruct (map MailboxMessage.id (WakeInput.unread input)) as [|i ids] eqn:Hids.
  - exists (store m). split_and!; [done| |].
    + intros k. induction (Mailbox.inbox team_id k (store m)) as [|x l IH]; cbn [List.filter]; [done|].
      rewrite bool_decide_eq_false_2 by apply not_elem_of_nil. cbn [negb]. by rewrite <- IH.
    + intros b <-. by destruct b as [[] ? ? ?].
  - destruct (Mailbox.mark_read_batch_inbox (i :: ids) (store m) (proj1 Hst)) as (st' & Hm & Hok & Hin).
    exists st'. split_and!; [by apply Hok|by intros|]. intros b <-. unfold EventLoop.on_manager.
    by rewrite (on_store_ok _ _ _ _ Hm).
Qed.

(** A turn hands over what is unread when it starts: the data sent quotes every
    unread message of other agents and nothing is marked yet.  Whatever other agents
    and the user do meanwhile, when the agent has answered, successfully or not,
    exactly the messages handed over are marked as read, the agent is idle, and the
    loop goes on draining. *)
Lemma turn_hands_over_inbox k l slot env s :
  phases s !! k = Some Draining → EventLoop.shutdown_flag (base s) = false →
  slots (mgr s) !! k = Some slot → unread_of k s ≠ [] →
  can_start env (TeamAgent.conversation_id (AgentSlot.agent slot)) s = true →
  ∃ s1 input data,
    step k env s = Some s1 ∧ phases s1 !! k = Some (Sending input data) ∧
    WakeInput.unread input = unread_of k s ∧ store (mgr s1) = store (mgr s) ∧
    (∀ m, m ∈ unread_of k s → contains (content data) (Prompts.render_message m) = true) ∧
    ∀ s2 env2 slot2,
      phases s2 !! k = Some (Sending input data) → keyed (mgr s2) → store_ok (store (mgr s2)) →
      unique_lead (mgr s2) l → slots (mgr s2) !! k = Some slot2 →
      ∃ s3, step k env2 s2 = Some s3 ∧ phases s3 !! k = Some Draining ∧
        Mailbox.inbox team_id k (store (mgr s3)) = List.filter (λ m,
          negb (bool_decide (MailboxMessage.id m ∈ map MailboxMessage.id (unread_of k s))))
          (Mailbox.inbox team_id k (store (mgr s2))) ∧
        ∃ slot3, slots (mgr s3) !! k = Some slot3 ∧ AgentSlot.status slot3 = TeammateStatus.Idle.
Proof.
  intros Hp Hsd Hk Hu Hstart.
  destruct (draining_step k slot env s Hp Hsd Hk) as (tasks & prompt & Hs1). cbv zeta in Hs1.
  rewrite decide_False, Hstart in Hs1 by done.
  eexists _, _, _. split; [exact Hs1|]. split; [simpl; apply lookup_insert_eq|].
  split; [done|]. split; [done|]. split.
  { intros m Hm. pose proof (Prompts.payload_contains (AgentSlot.agent slot) tasks _ m Hm) as Hc.
    simpl. destruct (AgentSlot.needs_role_prompt slot); [|done]. apply contains_spec in Hc as (u & v & ->).
    apply contains_spec. exists (prompt +:+ nl +:+ nl +:+ u), v. by rewrite !app_string_assoc. }
  clear Hs1. intros s2 env2 slot2 Hp2 Hkeyed Hst Hlead Hk2. set (input := WakeInput.mk _ _ _ _ _) in *.
  destruct (mark_handed input (mgr s2) Hst) as (st' & Hst' & Hin & Hb).
  set (b := EventLoop.set_manager (set_store st' (mgr s2)) (base s2)).
  destruct (finalize_turn_steps team_id b k l slot2 (send_ok env2) (WakeInput.conversation_id input)
    Hkeyed Hlead Hk2) as (m & slot1 & Hk1 & Hst1 & Hu1 & Hs1 & Hl1 & _ & Hfin).
  destruct (mark_idle_total team_id m k l slot1 None Hk1 ltac:(by rewrite Hst1) Hu1 Hs1)
    as (m' & r & Hrun & Hsl & _ & Hlead1 & Hmate).
  exists (set_phase k Draining (end_turn team_id k input env2 s2)).
  split; [unfold loop_step; by rewrite Hp2|]. split; [simpl; apply lookup_insert_eq|].
  assert (Hm' : mgr (set_phase k Draining (end_turn team_id k input env2 s2)) = m').
  { unfold end_turn. cbv zeta. pose proof (Hb (base s2) eq_refl) as Hb2.
    cbn [base set_phase set_base]. rewrite Hb2. fold b. rewrite (Hfin m' r Hrun).
    destruct r as [w|]; [|done]. destruct (String.eqb w k); [done|]. apply notify_manager. }
  rewrite Hm'. split; [|exists (with_status TeammateStatus.Idle slot1); by rewrite Hsl, lookup_insert_eq].
  assert (Hkeep : Mailbox.inbox team_id k (store m') = Mailbox.inbox team_id k (store m)).
  { destruct (is_lead slot1) eqn:Hl.
    - destruct (Hlead1 eq_refl) as [_ Hmail]. unfold Mailbox.inbox, Mailbox.unread_rows.
      unfold mail in Hmail. by rewrite Hmail.
    - destruct (Hmate eq_refl) as [Hmail _]. eapply inbox_after_mail; [|done].
      intros ->. destruct Hu1 as [(ls & ? & ?) _]. congruence. }
  by rewrite Hkeep, Hst1, <- Hin.
Qed.

(** An attempt that cannot start a turn (the agent task is missing or busy) still
    takes the role prompt and shows the mailbox to the user: when the loop is woken
    again and the turn starts, the agent gets the messages without its role prompt,
    and the conversation shows each of them twice. *)
Lemma blocked_attempt_spends_prompt k slot env1 env env2 s :
  phases s !! k = Some Draining → EventLoop.shutdown_flag (base s) = false →
  is_Some (EventLoop.notifiers (base s) !! k) →
  keyed (mgr s) → slots (mgr s) !! k = Some slot → unread_of k s ≠ [] →
  let conv := TeamAgent.conversation_id (AgentSlot.agent slot) in
  can_start env1 conv s = false → can_start env2 conv s = true →
  ∃ s' input data tasks shown,
    run team_id team_name template types [Step k env1; Notify k; Step k env; Step k env2] s = Some s' ∧
    phases s' !! k = Some (Sending input data) ∧
    content data = Prompts.build_wake_payload (AgentSlot.agent slot) tasks (unread_of k s) ∧
    shown = mirror_unread_to_conversation (agents_of (mgr s)) input ∧
    bubbles s' = bubbles s ++ shown ++ shown.
Proof.
  intros Hp Hsd [b Hn] Hkeyed Hk Hu conv H1 H2.
  destruct (draining_step k slot env1 s Hp Hsd Hk) as (tasks1 & prompt1 & Hs1). cbv zeta in Hs1.
  rewrite decide_False in Hs1 by done. fold conv in Hs1. rewrite H1 in Hs1.
  set (s1 := set_phase k Waiting _) in Hs1.
  assert (Hn1 : notify k s1 = set_base (EventLoop.set_registry
    (<[k := true]> (EventLoop.notifiers (base s))) (EventLoop.handles (base s)) (base s1)) s1).
  { unfold notify, EventLoop.notify. simpl. by rewrite Hn. }
  assert (Hw : step k env (notify k s1) = Some (set_phase k Draining (set_base (EventLoop.set_registry
    (<[k := false]> (<[k := true]> (EventLoop.notifiers (base s)))) (EventLoop.handles (base s))
    (base s1)) s1))).
  { rewrite Hn1. rewrite waiting_step; simpl; [done|apply lookup_insert_eq|done|apply lookup_insert_eq]. }
  set (s3 := set_phase k Draining _) in Hw.
  destruct (draining_step k (prompt_spent slot) env2 s3) as (tasks & prompt & Hs4).
  { simpl. apply lookup_insert_eq. }
  { done. }
  { simpl. apply lookup_insert_eq. }
  cbv zeta in Hs4. change (unread_of k s3) with (unread_of k s) in Hs4.
  rewrite decide_False in Hs4 by done.
  change (can_start env2 _ s3) with (can_start env2 conv s) in Hs4. rewrite H2 in Hs4.
  eexists _, _, _, tasks, _. split_and!.
  - cbn [run perform]. rewrite Hs1, Hw, Hs4. reflexivity.
  - simpl. apply lookup_insert_eq.
  - reflexivity.
  - reflexivity.
  - cbn [bubbles set_phase mirrored set_base s3 s1]. rewrite <- app_assoc. f_equal.
    assert (Hspend : ∀ m slot0, keyed m → slots m !! k = Some slot0 → keyed (spend k slot0 m)).
    { intros m slot0 Hm Hs0. unfold keyed, spend. simpl. apply map_Forall_insert_2; [exact (Hm _ _ Hs0)|exact Hm]. }
    pose proof (Hspend _ _ Hkeyed Hk) as Hkeyed1.
    assert (Hsame : ∀ m slot0 x, keyed m → slots m !! k = Some slot0 →
      shown_agent <$> List.find (λ a, String.eqb (TeamAgent.slot_id a) x) (agents_of (spend k slot0 m)) =
      shown_agent <$> List.find (λ a, String.eqb (TeamAgent.slot_id a) x) (agents_of m)).
    { intros m slot0 x Hm Hs0. rewrite !find_agent by eauto. simpl.
      destruct (decide (k = x)) as [->|]; [by rewrite lookup_insert_eq, Hs0|by rewrite lookup_insert_ne]. }
    f_equal; apply mirror_same; try done; intros x; simpl.
    + by apply Hsame.
    + rewrite Hsame; [by apply Hsame|done|simpl; apply lookup_insert_eq].
Qed.

(* ------------------------------------------------------------------ *)
(** ** Signals *)

(** [k] has a stored permit. *)
Definition signalled k (b : EventLoop.state Db) : Prop := EventLoop.notifiers b !! k = Some true.

(** What an operation on the registry's state leaves alone: no permit is lost and the
    shutdown flag stays. *)
Definition keeps_signals (b b' : EventLoop.state Db) : Prop :=
  EventLoop.shutdown_flag b' = EventLoop.shutdown_flag b ∧ ∀ k, signalled k b → signalled k b'.

Lemma keeps_refl b : keeps_signals b b.
Proof. done. Qed.
Lemma keeps_trans b1 b2 b3 : keeps_signals b1 b2 → keeps_signals b2 b3 → keeps_signals b1 b3.
Proof. intros [H1 H2] [H3 H4]. split; [congruence|auto]. Qed.
Lemma keeps_on_manager {A} (m : ST (TeammateManager Db) TeamError.t A) b :
  keeps_signals b (fst (EventLoop.on_manager m b)).
Proof. unfold EventLoop.on_manager. by destruct (m (EventLoop.manager b)). Qed.
Lemma keeps_notify k b : keeps_signals b (EventLoop.notify k b).
Proof.
  unfold EventLoop.notify. destruct (EventLoop.notifiers b !! k) eqn:Hk; [|apply keeps_refl].
  split; [done|]. intros k'. unfold signalled. simpl. destruct (decide (k = k')) as [->|Hne].
  - by rewrite lookup_insert_eq.
  - by rewrite lookup_insert_ne.
Qed.
Lemma keeps_finalize k ok conv b : keeps_signals b (EventLoop.finalize_turn team_id k ok conv b).
Proof.
  unfold EventLoop.finalize_turn. set (b1 := EventLoop.set_conversation_status conv "finished" b).
  assert (keeps_signals b b1) as H1 by done. apply (keeps_trans _ _ _ H1). clear H1.
  set (b2 := if negb ok then _ else b1).
  assert (keeps_signals b1 b2) as H2.
  { unfold b2. destruct (negb ok); [apply keeps_on_manager|apply keeps_refl]. }
  apply (keeps_trans _ _ _ H2). clear H2.
  pose proof (keeps_on_manager (Scheduler.finalize_turn team_id k []) b2) as H3.
  destruct (EventLoop.on_manager _ b2) as [b3 [[w|]|e]]; simpl in H3; try done.
  destruct (String.eqb w k); [done|]. apply (keeps_trans _ _ _ H3), keeps_notify.
Qed.

Lemma begin_turn_keeps k input env s s' r :
  begin_turn team_id k input env s = (s', r) →
  phases s' = phases s ∧ keeps_signals (base s) (base s').
Proof.
  unfold begin_turn. intros Hb. destruct (agent_task env); [|by simplify_eq].
  destruct (bool_decide _); [by simplify_eq|]. destruct (bool_decide _); [by simplify_eq|].
  simplify_eq. split; [done|]. simpl.
  pose proof (keeps_on_manager (set_status team_id k TeammateStatus.Working) (base s)) as [H1 H2].
  split; [exact H1|]. intros k' Hk'. apply (H2 k' Hk').
Qed.

Lemma end_turn_keeps k input env s :
  phases (end_turn team_id k input env s) = phases s ∧
  keeps_signals (base s) (base (end_turn team_id k input env s)).
Proof.
  split; [done|]. unfold end_turn. simpl. eapply keeps_trans; [|apply keeps_finalize].
  destruct (map _ _); [apply keeps_refl|apply keeps_on_manager].
Qed.

(** A step of the loop of [k] consumes a permit of [k] only, when it leaves [Waiting]. *)
Lemma loop_step_signals k env s s' :
  step k env s = Some s' → EventLoop.shutdown_flag (base s) = false →
  EventLoop.shutdown_flag (base s') = false ∧
  (∀ k', k' ≠ k → phases s' !! k' = phases s !! k' ∧
     (signalled k' (base s) → signalled k' (base s'))) ∧
  (phases s !! k = Some Waiting → phases s' !! k = Some Draining) ∧
  (∀ input data, phases s !! k = Some (Sending input data) → phases s' !! k = Some Draining).
Proof.
  intros Hstep Hsd. unfold loop_step in Hstep. rewrite Hsd in Hstep.
  assert (Hset : ∀ p s0, phases s0 = phases s → keeps_signals (base s) (base s0) →
    EventLoop.shutdown_flag (base (set_phase k p s0)) = false ∧
    (∀ k', k' ≠ k → phases (set_phase k p s0) !! k' = phases s !! k' ∧
       (signalled k' (base s) → signalled k' (base (set_phase k p s0)))) ∧
    phases (set_phase k p s0) !! k = Some p).
  { intros p s0 Hp [Hf Hs]. simpl. rewrite Hp, lookup_insert_eq. split_and!; [congruence| |done].
    intros k' Hne. rewrite lookup_insert_ne by done. auto. }
  destruct (phases s !! k) as [[| |input data]|] eqn:Hp; [| | |done].
  - destruct (EventLoop.notifiers (base s) !! k) as [[]|]; simplify_eq/=.
    split_and!; [done| |by rewrite lookup_insert_eq|done].
    intros k' Hne. rewrite lookup_insert_ne by done. split; [done|]. unfold signalled. simpl.
    by rewrite lookup_insert_ne.
  - pose proof (keeps_on_manager (compute_wake_input team_id team_name template types k) (base s)) as Hk.
    destruct (EventLoop.on_manager _ (base s)) as [b r]. simpl in Hk.
    assert (∃ p s0, s' = set_phase k p s0 ∧ phases s0 = phases s ∧ keeps_signals (base s) (base s0))
      as (p & s0 & -> & Hp0 & Hk0).
    { destruct r as [[input|]|e]; [|by simplify_eq; eexists _, _|by simplify_eq; eexists _, _].
      destruct (negb _); [by simplify_eq; eexists _, _|].
      destruct (begin_turn team_id k input env (set_base b s)) as [s1 started] eqn:Hb.
      destruct (begin_turn_keeps _ _ _ _ _ _ Hb) as [Hp1 Hk1]. simplify_eq.
      eexists _, s1. split; [done|]. split; [done|]. by eapply keeps_trans. }
    destruct (Hset p s0 Hp0 Hk0) as (? & ? & _). by split_and!.
  - simplify_eq. destruct (end_turn_keeps k input env s) as [Hp0 Hk0].
    destruct (Hset Draining _ Hp0 Hk0) as (? & ? & ?). by split_and!.
Qed.

(** C37: a signal to an agent's loop is never lost, whatever runs in between and in
    whatever phase it finds the loop: by the time the loop waits again without a
    stored permit, it has computed its input, hence looked at its mailbox, at least
    once since the signal. *)
Theorem notify_is_not_lost k es s s' :
  EventLoop.shutdown_flag (base s) = false → is_Some (EventLoop.notifiers (base s) !! k) →
  run team_id team_name template types (Notify k :: es) s = Some s' →
  phases s' !! k = Some Waiting → ¬ signalled k (base s') →
  ∃ es1 env es2 s1, es = es1 ++ Step k env :: es2 ∧
    run team_id team_name template types (Notify k :: es1) s = Some s1 ∧
    phases s1 !! k = Some Draining ∧ EventLoop.shutdown_flag (base s1) = false.
Proof.
  intros Hsd [p Hn] Hrun Hw Hns. cbn [run perform] in Hrun.
  assert (Hsig : signalled k (base (notify k s))).
  { unfold signalled, notify, EventLoop.notify. simpl. rewrite Hn. simpl. apply lookup_insert_eq. }
  assert (Hsd1 : EventLoop.shutdown_flag (base (notify k s)) = false).
  { simpl. destruct (keeps_notify k (base s)) as [-> _]. done. }
  cbn [run perform].
  assert (H : signalled k (base (notify k s)) ∨ phases (notify k s) !! k = Some Draining) by auto.
  clear Hsig. revert H Hsd1 Hrun. generalize (notify k s). clear Hsd Hn s.
  induction es as [|e es IH]; intros s HJ Hsd Hrun; cbn [run] in Hrun.
  { simplify_eq. destruct HJ; congruence. }
  destruct (perform team_id team_name template types e s) as [s1|] eqn:He; [|done].
  assert (Hcase : (∃ env, e = Step k env ∧ phases s !! k = Some Draining) ∨
    ((signalled k (base s1) ∨ phases s1 !! k = Some Draining) ∧
     EventLoop.shutdown_flag (base s1) = false)).
  { destruct e as [k' env|k'|f]; cbn [perform] in He.
    - destruct (loop_step_signals _ _ _ _ He Hsd) as (Hsd' & Hother & Hwait & Hsend).
      destruct (decide (k = k')) as [<-|Hne].
      + destruct (phases s !! k) as [[| |input data]|] eqn:Hp; eauto.
        unfold loop_step in He. by rewrite Hp in He.
      + destruct (Hother k Hne) as [Hp Hs]. right. rewrite Hp. destruct HJ; auto.
    - simplify_eq. right. destruct (keeps_notify k' (base s)) as [Hf Hs]. simpl. rewrite Hf.
      split; [|done]. destruct HJ; [left; auto|by right].
    - simplify_eq. right. split; [|done]. destruct HJ; [by left|by right]. }
  destruct Hcase as [(env & -> & Hp)|[HJ1 Hsd1]].
  - exists [], env, es, s. by split_and!.
  - destruct (IH s1 HJ1 Hsd1 Hrun) as (es1 & env & es2 & s2 & -> & Hr & Hp & Hf).
    exists (e :: es1), env, es2, s2. split; [done|]. cbn [run]. by rewrite He.
Qed.
End facts.

(* ------------------------------------------------------------------ *)
(** ** Witnesses *)

Section witnesses.
#[local] Existing Instance json_text.
#[local] Existing Instance counting.
#[local] Existing Instance ascii_unicode.
#[local] Existing Instance slots_in_order.

(** Bob has a message of the lead and its loop is draining. *)
Definition bob_store : Store TeamDb :=
  fst (Mailbox.write "t" "bob" "lead" MailboxMessageType.Message "do it" None Mailbox.hello_store).
Definition bob_loop : state TeamDb :=
  mk_state (EventLoop.spawn "bob" 0 (EventLoop.mk_state (new [demo_lead; demo_mate] bob_store)
    {["conv-bob" := "finished"]} ∅ ∅ false)) [] {["bob" := Draining]}.
Definition busy_env : environment := mk_env (Some (Some ConversationStatus.Running)) true None true.
Definition idle_env : environment := mk_env None true (Some None) false.

Lemma bob_store_ok : Mailbox.store_ok bob_store.
Proof.
  eapply (Mailbox.write_store_ok Mailbox.hello_store); [exact Mailbox.hello_store_ok|].
  by apply surjective_pairing.
Qed.
Lemma bob_slot : slots (EventLoop.manager (base bob_loop)) !! "bob" = Some (demo_slot demo_mate).
Proof. by vm_compute. Qed.

Lemma turn_hands_over_inbox_witness :
  ∃ s1 input data, loop_step "t" "team" "" [] "bob" idle_env bob_loop = Some s1 ∧
    phases s1 !! "bob" = Some (Sending input data) ∧ length (WakeInput.unread input) = 1%nat.
Proof.
  destruct (turn_hands_over_inbox "t" "team" "" [] "bob" "lead" (demo_slot demo_mate) idle_env bob_loop)
    as (s1 & input & data & Hs & Hp & Hu & _);
    [reflexivity|reflexivity|exact bob_slot|by vm_compute|reflexivity|].
  exists s1, input, data. split; [exact Hs|]. split; [exact Hp|]. rewrite Hu. by vm_compute.
Defined.

Lemma blocked_attempt_spends_prompt_witness :
  ∃ s', run "t" "team" "" [] [Step "bob" busy_env; Notify "bob"; Step "bob" idle_env; Step "bob" idle_env]
          bob_loop = Some s' ∧ ∃ shown, bubbles s' = shown ++ shown.
Proof.
  destruct (blocked_attempt_spends_prompt "t" "team" "" [] "bob" (demo_slot demo_mate)
    busy_env idle_env idle_env bob_loop) as (s' & input & data & tasks & shown & Hr & _ & _ & _ & Hb);
    [reflexivity|reflexivity|by eexists| |exact bob_slot|by vm_compute|reflexivity|reflexivity|].
  - unfold keyed. apply (bool_decide_unpack _). by vm_compute.
  - exists s'. split; [exact Hr|]. by exists shown.
Defined.

Lemma notify_is_not_lost_witness :
  let es : list (@event TeamDb) := [Step "bob" busy_env; Step "bob" busy_env; Step "bob" busy_env] in
  ∃ es1 env es2, es = es1 ++ Step "bob" env :: es2.
Proof.
  intros es.
  destruct (run "t" "team" "" [] (Notify "bob" :: es) bob_loop) as [s'|] eqn:Hr;
    [|vm_compute in Hr; discriminate].
  destruct (notify_is_not_lost "t" "team" "" [] "bob" es bob_loop s')
    as (es1 & env & es2 & s1 & He & _ & _); [reflexivity|by eexists|exact Hr| | |by exists es1, env, es2].
  - vm_compute in Hr. injection Hr as <-. by vm_compute.
  - vm_compute in Hr. injection Hr as <-. by vm_compute.
Defined.
End witnesses.
End AgentLoop.
