(* ===== verification/ExtTypes.v ===== *)
(** * ExtTypes: the data of extensions and the analysis of their permissions

    The manifest and runtime records of an extension ([chisl-extension/src/types.rs])
    and the risk analysis of the permissions it declares ([permission.rs]). *)

From S2P Require Import Prelude.
From S2P Require Import Text.
From S2P Require Import Json.

Module NetworkPermission.
(* chisl-extension/src/types.rs:13-22 NetworkPermission *)
Inductive t := Unrestricted (b : bool) | Scoped (allowed_domains : list string) (reasoning : string).
End NetworkPermission.

Module FilesystemScope.
(* chisl-extension/src/types.rs:27-31 FilesystemScope *)
Inductive t := ExtensionOnly | Workspace | Full.
#[global] Instance t_eq_dec : EqDecision t.
Proof. solve_decision. Defined.
End FilesystemScope.

Module ExtPermissions.
(* chisl-extension/src/types.rs:35-50 ExtPermissions *)
Record t := mk {
  storage : option bool; network : option NetworkPermission.t; shell : option bool;
  filesystem : option FilesystemScope.t; clipboard : option bool; active_user : option bool;
  events : option bool }.
End ExtPermissions.

Module RiskLevel.
(* chisl-extension/src/types.rs:55-59 RiskLevel *)
Inductive t := Safe | Moderate | Dangerous.
(** The order of the levels. *)
Definition rank (r : t) : nat := match r with Safe => 0 | Moderate => 1 | Dangerous => 2 end.
End RiskLevel.

Module PermissionLevel.
(* chisl-extension/src/types.rs:64-68 PermissionLevel *)
Inductive t := None | Limited | Full.
#[global] Instance t_eq_dec : EqDecision t.
Proof. solve_decision. Defined.
End PermissionLevel.

Module PermissionDetail.
(* chisl-extension/src/types.rs:72-76 PermissionDetail *)
Record t := mk { permission : string; level : PermissionLevel.t; description : string }.
End PermissionDetail.

Module PermissionSummary.
(* chisl-extension/src/types.rs:80-84 PermissionSummary *)
Record t := mk {
  permissions : ExtPermissions.t; risk_level : RiskLevel.t; details : list PermissionDetail.t }.
End PermissionSummary.

(* ------------------------------------------------------------------ *)
(** ** Contributions and the manifest *)

Module ExtAcpAdapter.
(* chisl-extension/src/types.rs:92-123 ExtAcpAdapter *)
Record t `{SerdeJson} := mk {
  id : string;
  name : string;
  description : option string;
  cli_command : option string;
  default_cli_path : option string;
  acp_args : list string;
  env : gmap string string;
  avatar : option string;
  auth_required : option bool;
  supports_streaming : option bool;
  connection_type : option string;
  endpoint : option string;
  models : list string;
  yolo_mode : option Value;
  health_check : option Value;
  api_key_fields : list Value }.
End ExtAcpAdapter.

Module ExtMcpServer.
(* chisl-extension/src/types.rs:127-134 ExtMcpServer *)
Record t `{SerdeJson} := mk {
  id : string;
  name : string;
  description : option string;
  config : Value }.
End ExtMcpServer.

Module ExtAssistant.
(* chisl-extension/src/types.rs:138-157 ExtAssistant *)
Record t := mk {
  id : string;
  name : string;
  description : option string;
  system_prompt : option string;
  icon : option string;
  context : option string;
  preset_agent_type : option string;
  enabled_skills : list string;
  prompts : list string;
  models : list string }.
End ExtAssistant.

Module ExtAgent.
(* chisl-extension/src/types.rs:161-178 ExtAgent *)
Record t := mk {
  id : string;
  name : string;
  description : option string;
  agent_type : option string;
  context : option string;
  icon : option string;
  enabled_skills : list string;
  prompts : list string;
  models : list string }.
End ExtAgent.

Module ExtSkill.
(* chisl-extension/src/types.rs:182-188 ExtSkill *)
Record t := mk {
  name : string;
  description : option string;
  path : option string }.
End ExtSkill.

Module ExtTheme.
(* chisl-extension/src/types.rs:192-201 ExtTheme *)
Record t := mk {
  id : string;
  name : string;
  description : option string;
  css_file : string;
  cover_image : option string }.
End ExtTheme.

Module ExtChannelPlugin.
(* chisl-extension/src/types.rs:205-220 ExtChannelPlugin *)
Record t `{SerdeJson} := mk {
  id : string;
  name : string;
  description : option string;
  platform : option string;
  entry_point : option string;
  icon : option string;
  credential_fields : list Value;
  config_fields : list Value }.
End ExtChannelPlugin.

Module ExtWebuiRoute.
(* chisl-extension/src/types.rs:224-228 ExtWebuiRoute *)
Record t := mk {
  path : string;
  method : string;
  handler : string }.
End ExtWebuiRoute.

Module ExtWebui.
(* chisl-extension/src/types.rs:232-237 ExtWebui *)
Record t := mk {
  id : string;
  directory : string;
  routes : list ExtWebuiRoute.t }.
End ExtWebui.

Module SettingsTabPosition.
(* chisl-extension/src/types.rs:241-245 SettingsTabPosition *)
Record t := mk {
  relative_to : string;
  placement : string }.
End SettingsTabPosition.

Module ExtSettingsTab.
(* chisl-extension/src/types.rs:253-265 ExtSettingsTab *)
Record t := mk {
  id : string;
  label : string;
  icon : option string;
  url : string;
  position : option SettingsTabPosition.t;
  order : Z }.
End ExtSettingsTab.

Module ExtModelProvider.
(* chisl-extension/src/types.rs:269-280 ExtModelProvider *)
Record t := mk {
  id : string;
  name : string;
  description : option string;
  protocol : option string;
  base_url : option string;
  models : list string }.
End ExtModelProvider.

Module ExtContributes.
(* chisl-extension/src/types.rs:284-305 ExtContributes *)
Record t `{SerdeJson} := mk {
  acp_adapters : list ExtAcpAdapter.t;
  mcp_servers : list ExtMcpServer.t;
  assistants : list ExtAssistant.t;
  agents : list ExtAgent.t;
  skills : list ExtSkill.t;
  themes : list ExtTheme.t;
  channel_plugins : list ExtChannelPlugin.t;
  webui : list ExtWebui.t;
  settings_tabs : list ExtSettingsTab.t;
  model_providers : list ExtModelProvider.t }.
End ExtContributes.

Module I18nConfig.
(* chisl-extension/src/types.rs:313-317 I18nConfig *)
Record t := mk {
  locales : list string;
  directory : string }.
End I18nConfig.

Module EngineConfig.
(* chisl-extension/src/types.rs:325-328 EngineConfig *)
Record t := mk {
  aionui : option string }.
End EngineConfig.

Module LifecycleHooks.
(* chisl-extension/src/types.rs:332-341 LifecycleHooks *)
Record t := mk {
  on_install : option string;
  on_uninstall : option string;
  on_activate : option string;
  on_deactivate : option string }.
End LifecycleHooks.

Module ExtensionManifest.
(* chisl-extension/src/types.rs:345-376 ExtensionManifest *)
Record t `{SerdeJson} := mk {
  name : string;
  version : string;
  display_name : option string;
  description : option string;
  author : option string;
  license : option string;
  homepage : option string;
  icon : option string;
  engine : option EngineConfig.t;
  api_version : option string;
  dependencies : gmap string string;
  entry_point : option string;
  permissions : option ExtPermissions.t;
  contributes : option ExtContributes.t;
  lifecycle : option LifecycleHooks.t;
  i18n : option I18nConfig.t }.
End ExtensionManifest.

Module ExtensionSource.
(* chisl-extension/src/types.rs:385-389 ExtensionSource *)
Inductive t := Local | Appdata | Env.
End ExtensionSource.

Module ExtensionState.
(* chisl-extension/src/types.rs:393-401 ExtensionState *)
Record t := mk {
  name : string;
  version : string;
  enabled : bool;
  installed_at : option Z;
  last_activated_at : option Z }.
End ExtensionState.

Module LoadedExtension.
(* chisl-extension/src/types.rs:405-410 LoadedExtension *)
Record t `{SerdeJson} := mk {
  manifest : ExtensionManifest.t;
  directory : string;
  source : ExtensionSource.t;
  state : ExtensionState.t }.
End LoadedExtension.

(* ------------------------------------------------------------------ *)
(** ** Permissions *)

Module ExtPermission.
Import ExtPermissions.

(* chisl-extension/src/permission.rs:11-41 calculate_risk_level *)
Definition calculate_risk_level (p : ExtPermissions.t) : RiskLevel.t :=
  if bool_decide (shell p = Some true) then RiskLevel.Dangerous
  else if bool_decide (filesystem p = Some FilesystemScope.Full) then RiskLevel.Dangerous
  else match network p with
  | Some (NetworkPermission.Unrestricted true) => RiskLevel.Dangerous
  | Some (NetworkPermission.Scoped _ _) => RiskLevel.Moderate
  | _ =>
      match filesystem p with
      | Some FilesystemScope.Workspace | Some FilesystemScope.ExtensionOnly => RiskLevel.Moderate
      | _ => RiskLevel.Safe
      end
  end.

(* chisl-extension/src/permission.rs:70-83 build_storage_detail *)
Definition build_storage_detail (storage : option bool) : PermissionDetail.t :=
  match storage with
  | Some true => PermissionDetail.mk "storage" PermissionLevel.Full "Persistent key-value storage access"
  | _ => PermissionDetail.mk "storage" PermissionLevel.None "No storage access"
  end.

(* chisl-extension/src/permission.rs:85-103 build_network_detail *)
Definition build_network_detail (network : option NetworkPermission.t) : PermissionDetail.t :=
  match network with
  | Some (NetworkPermission.Unrestricted true) =>
      PermissionDetail.mk "network" PermissionLevel.Full "Unrestricted network access"
  | Some (NetworkPermission.Scoped allowed_domains _) =>
      PermissionDetail.mk "network" PermissionLevel.Limited
        ("Network access limited to: " +:+ str_join ", " allowed_domains)
  | _ => PermissionDetail.mk "network" PermissionLevel.None "No network access"
  end.

(* chisl-extension/src/permission.rs:105-118 build_shell_detail *)
Definition build_shell_detail (shell : option bool) : PermissionDetail.t :=
  match shell with
  | Some true => PermissionDetail.mk "shell" PermissionLevel.Full "System command execution"
  | _ => PermissionDetail.mk "shell" PermissionLevel.None "No shell access"
  end.

(* chisl-extension/src/permission.rs:120-143 build_filesystem_detail *)
Definition build_filesystem_detail (filesystem : option FilesystemScope.t) : PermissionDetail.t :=
  match filesystem with
  | Some FilesystemScope.Full =>
      PermissionDetail.mk "filesystem" PermissionLevel.Full "Full filesystem access"
  | Some FilesystemScope.Workspace =>
      PermissionDetail.mk "filesystem" PermissionLevel.Limited "Workspace directory access"
  | Some FilesystemScope.ExtensionOnly =>
      PermissionDetail.mk "filesystem" PermissionLevel.Limited "Extension directory access only"
  | None => PermissionDetail.mk "filesystem" PermissionLevel.None "No filesystem access"
  end.

(* chisl-extension/src/permission.rs:145-158 build_bool_detail *)
Definition build_bool_detail (name : string) (value : option bool) (granted_desc : string) :
    PermissionDetail.t :=
  match value with
  | Some true => PermissionDetail.mk name PermissionLevel.Full granted_desc
  | _ => PermissionDetail.mk name PermissionLevel.None ("No " +:+ name +:+ " access")
  end.

(* chisl-extension/src/permission.rs:54-68 build_details *)
Definition build_details (p : ExtPermissions.t) : list PermissionDetail.t :=
  [ build_storage_detail (storage p); build_network_detail (network p);
    build_shell_detail (shell p); build_filesystem_detail (filesystem p);
    build_bool_detail "clipboard" (clipboard p) "Clipboard read/write access";
    build_bool_detail "activeUser" (active_user p) "Access to current user information";
    build_bool_detail "events" (events p) "Extension event bus communication" ].

(* chisl-extension/src/permission.rs:44-52 build_permission_summary *)
Definition build_permission_summary (p : ExtPermissions.t) : PermissionSummary.t :=
  PermissionSummary.mk p (calculate_risk_level p) (build_details p).

(** The permissions whose level counts for the risk. *)
Definition risky : list string := ["network"; "shell"; "filesystem"].
Definition level_risk (d : PermissionDetail.t) : nat :=
  if bool_decide (PermissionDetail.permission d ∈ risky)
  then match PermissionDetail.level d with
       | PermissionLevel.None => 0 | PermissionLevel.Limited => 1 | PermissionLevel.Full => 2
       end
  else 0.

(** The summary's two halves agree: the overall risk is the worst level shown
    for the network, the shell and the file system, and no other permission counts. *)
Lemma risk_is_worst_detail p :
  RiskLevel.rank (PermissionSummary.risk_level (build_permission_summary p)) =
  max_list (map level_risk (PermissionSummary.details (build_permission_summary p))).
Proof.
  unfold build_permission_summary, build_details, calculate_risk_level. simpl.
  destruct p as [st nw sh fs cl au ev]; simpl.
  assert (∀ o, level_risk (build_storage_detail o) = 0%nat) as -> by by intros [[]|].
  assert (∀ n o d, n ∉ risky → level_risk (build_bool_detail n o d) = 0%nat) as Hb.
  { intros n [[]|] d Hn; unfold level_risk; simpl; by rewrite bool_decide_eq_false_2. }
  rewrite !Hb by (unfold risky; set_solver).
  destruct sh as [[]|], fs as [[]|], nw as [[[]|]|]; reflexivity.
Qed.
End ExtPermission.
