(* ===== verification/ExtDependency.v ===== *)
(** * ExtDependency: the dependency resolver of extensions

    [chisl-extension/src/dependency.rs]: the checks of required versions, the load
    order computed by Kahn's algorithm, and the search for cycles among the
    extensions it could not order.  The panics of the code ([expect] on a missing
    counter, an unsigned counter going below zero) and running out of fuel are
    [None]; [analysis_total] shows they do not happen. *)

From S2P Require Import Prelude.
From S2P Require Import Text.
From S2P Require Import Json.
From S2P Require Import ExtTypes.

(** What is used of the [semver] crate. *)
Class Semver := {
  Version : Type;
  VersionReq : Type;
  version_parse : string → option Version;
  version_req_parse : string → option VersionReq;
  req_matches : VersionReq → Version → bool;
}.

(* chisl-extension/src/dependency.rs:16-36 DependencyIssue *)
Inductive DependencyIssue :=
| Missing (extension dependency required : string)
| VersionMismatch (extension dependency required actual : string)
| Circular (cycle : list string).

Module DependencyValidationResult.
(* chisl-extension/src/dependency.rs:40-48 DependencyValidationResult *)
Record t := mk { valid : bool; issues : list DependencyIssue; load_order : list string }.
End DependencyValidationResult.

(** [sort_unstable] on strings: bytewise order. *)
Definition sort_strings (l : list string) : list string := merge_sort String.le l.
Lemma sort_strings_perm l : sort_strings l ≡ₚ l.
Proof. apply merge_sort_Permutation. Qed.

(** [*map.entry(k).or_default()] updated in place. *)
Definition entry_update {A} (d : A) (f : A → A) (k : string) (m : gmap string A) : gmap string A :=
  <[k := f (default d (m !! k))]> m.

Module Dependency.
Section ops.
Context {SJ : SerdeJson} {SV : Semver} {HS : HashIter string} {HN : HashIter nat}.
Implicit Types ext : LoadedExtension.t.
Definition ext_name ext : string := ExtensionManifest.name (LoadedExtension.manifest ext).
Definition ext_version ext : string := ExtensionManifest.version (LoadedExtension.manifest ext).
Definition ext_dependencies ext : gmap string string :=
  ExtensionManifest.dependencies (LoadedExtension.manifest ext).
(** [dependencies.keys()]. *)
Definition dep_keys ext : list string := map fst (hm_iter (ext_dependencies ext)).

Definition starts_with_ascii_digit (s : string) : bool :=
  match s with
  | String a _ => let n := Ascii.nat_of_ascii a in (48 <=? n)%nat && (n <=? 57)%nat
  | EmptyString => false
  end.

(* chisl-extension/src/dependency.rs:121-138 version_matches *)
Definition version_matches (requirement actual : string) : bool :=
  match version_parse actual with
  | None => false
  | Some version =>
      let req_str := if starts_with_ascii_digit requirement
                     then "=" +:+ requirement else requirement in
      match version_req_parse req_str with
      | None => false
      | Some req => req_matches req version
      end
  end.

(** The issues of one extension. *)
(* chisl-extension/src/dependency.rs:69-90 validate_dependencies (loop) *)
Definition check_extension (versions : gmap string string) ext : list DependencyIssue :=
  flat_map (λ '(dep_name, dep_req),
    match versions !! dep_name with
    | None => [Missing (ext_name ext) dep_name dep_req]
    | Some actual =>
        if negb (version_matches dep_req actual)
        then [VersionMismatch (ext_name ext) dep_name dep_req actual] else []
    end) (hm_iter (ext_dependencies ext)).

(** The maps [adj] and [in_degree]. *)
Definition graph : Type := gmap string (list string) * gmap string nat.

(* chisl-extension/src/dependency.rs:159-167 compute_topological_order (inner loop) *)
Definition add_edge (known : gset string) ext (g : graph) (dep_name : string) : graph :=
  let '(adj, in_degree) := g in
  if bool_decide (dep_name ∈ known)
  then (entry_update [] (λ l, l ++ [ext_name ext]) dep_name adj,
        entry_update 0%nat S (ext_name ext) in_degree)
  else g.

(* chisl-extension/src/dependency.rs:157-168 compute_topological_order (building the graph) *)
Definition build_graph (known : gset string) (extensions : list LoadedExtension.t) : graph :=
  fold_left (λ g ext,
    let '(adj, in_degree) := g in
    let in_degree := entry_update 0%nat id (ext_name ext) in_degree in
    fold_left (add_edge known ext) (dep_keys ext) (adj, in_degree)) extensions (∅, ∅).

(** One popped node: its dependents lose one dependency each. *)
(* chisl-extension/src/dependency.rs:185-191 compute_topological_order (for dep in dependents) *)
Fixpoint relax (dependents : list string) (in_degree : gmap string nat) (ready : list string) :
    option (gmap string nat * list string) :=
  match dependents with
  | [] => Some (in_degree, ready)
  | dep :: dependents' =>
      match in_degree !! dep with
      | Some (S deg) =>
          relax dependents' (<[dep := deg]> in_degree)
            (if (deg =? 0)%nat then ready ++ [dep] else ready)
      | _ => None
      end
  end.

(* chisl-extension/src/dependency.rs:181-197 compute_topological_order (while loop) *)
Fixpoint drain (fuel : nat) (adj : gmap string (list string)) (in_degree : gmap string nat)
    (queue order : list string) : option (list string) :=
  match queue with
  | [] => Some order
  | node :: queue' =>
      match fuel with
      | O => None
      | S fuel' =>
          let order := order ++ [node] in
          match adj !! node with
          | Some dependents =>
              match relax dependents in_degree [] with
              | Some (in_degree', ready) =>
                  drain fuel' adj in_degree' (queue' ++ sort_strings ready) order
              | None => None
              end
          | None => drain fuel' adj in_degree queue' order
          end
      end
  end.

(** The mutable variables of the depth-first search. *)
Record dfs_state := mk_dfs {
  visited : gset string; on_stack : gset string; path : list string; cycles : list (list string) }.

(** [path.iter().position(|n| n == next)], then the slice from there. *)
Fixpoint from_first (next : string) (l : list string) : option (list string) :=
  match l with
  | [] => None
  | x :: l' => if String.eqb x next then Some l else from_first next l'
  end.

(** The loop over the neighbours of a node; [dfs] is the recursive call. *)
(* chisl-extension/src/dependency.rs:266-277 dfs_find_cycles (for next in neighbors) *)
Fixpoint visit_neighbors (dfs : string → dfs_state → option dfs_state) (neighbors : list string)
    (st : dfs_state) : option dfs_state :=
  match neighbors with
  | [] => Some st
  | next :: neighbors' =>
      if negb (bool_decide (next ∈ visited st)) then
        match dfs next st with
        | Some st' => visit_neighbors dfs neighbors' st'
        | None => None
        end
      else if bool_decide (next ∈ on_stack st) then
        match from_first next (path st) with
        | Some cycle => visit_neighbors dfs neighbors'
            (mk_dfs (visited st) (on_stack st) (path st) (cycles st ++ [cycle ++ [next]]))
        | None => visit_neighbors dfs neighbors' st
        end
      else visit_neighbors dfs neighbors' st
  end.

(* chisl-extension/src/dependency.rs:253-282 dfs_find_cycles *)
Fixpoint dfs_find_cycles (fuel : nat) (adj : gmap string (list string)) (node : string)
    (st : dfs_state) : option dfs_state :=
  match fuel with
  | O => None
  | S fuel' =>
      let st := mk_dfs ({[node]} ∪ visited st) ({[node]} ∪ on_stack st) (path st ++ [node]) (cycles st) in
      match visit_neighbors (dfs_find_cycles fuel' adj) (default [] (adj !! node)) st with
      | Some st' => Some (mk_dfs (visited st') (on_stack st' ∖ {[node]}) (removelast (path st')) (cycles st'))
      | None => None
      end
  end.

(** The adjacency restricted to the involved nodes. *)
(* chisl-extension/src/dependency.rs:220-234 find_cycles (adjacency) *)
Definition involved_graph (extensions : list LoadedExtension.t) (involved : gset string) :
    gmap string (list string) :=
  fold_left (λ adj ext,
    if bool_decide (ext_name ext ∈ involved)
    then <[ext_name ext := sort_strings (List.filter (λ d, bool_decide (d ∈ involved)) (dep_keys ext))]> adj
    else adj) extensions ∅.

(* chisl-extension/src/dependency.rs:244-248 find_cycles (loop) *)
Fixpoint visit_roots (fuel : nat) (adj : gmap string (list string)) (nodes : list string)
    (st : dfs_state) : option dfs_state :=
  match nodes with
  | [] => Some st
  | node :: nodes' =>
      if negb (bool_decide (node ∈ visited st)) then
        match dfs_find_cycles fuel adj node st with
        | Some st' => visit_roots fuel adj nodes' st'
        | None => None
        end
      else visit_roots fuel adj nodes' st
  end.

(** Each nested call visits one more node, so the number of nodes is enough fuel. *)
(* chisl-extension/src/dependency.rs:218-251 find_cycles *)
Definition find_cycles (extensions : list LoadedExtension.t) (involved : gset string) :
    option (list (list string)) :=
  let adj := involved_graph extensions involved in
  let sorted_nodes := sort_strings (elements involved) in
  cycles <$> visit_roots (size involved) adj sorted_nodes (mk_dfs ∅ ∅ [] []).

Definition known_names (extensions : list LoadedExtension.t) : gset string :=
  list_to_set (map ext_name extensions).

(** Each turn of the loop emits a node, so the number of nodes is enough fuel. *)
(* chisl-extension/src/dependency.rs:149-215 compute_topological_order *)
Definition compute_topological_order (extensions : list LoadedExtension.t) :
    option (list string * list (list string)) :=
  let known := known_names extensions in
  let '(adj, in_degree) := build_graph known extensions in
  let seeds := map fst (List.filter (λ kv, (snd kv =? 0)%nat) (hm_iter in_degree)) in
  match drain (size known) adj in_degree (sort_strings seeds) [] with
  | None => None
  | Some order =>
      let emitted : gset string := list_to_set order in
      let remaining := known ∖ emitted in
      let cycles :=
        if bool_decide (remaining = ∅) then Some [] else find_cycles extensions remaining in
      (λ cs, (order ++ sort_strings (elements remaining), cs)) <$> cycles
  end.

(* chisl-extension/src/dependency.rs:107-110 topological_sort *)
Definition topological_sort (extensions : list LoadedExtension.t) : option (list string) :=
  fst <$> compute_topological_order extensions.

(* chisl-extension/src/dependency.rs:57-101 validate_dependencies *)
Definition validate_dependencies (extensions : list LoadedExtension.t) :
    option DependencyValidationResult.t :=
  let versions : gmap string string :=
    fold_left (λ m ext, <[ext_name ext := ext_version ext]> m) extensions ∅ in
  let issues := flat_map (check_extension versions) extensions in
  match compute_topological_order extensions with
  | None => None
  | Some (load_order, cycles) =>
      let issues := issues ++ map Circular cycles in
      Some (DependencyValidationResult.mk (bool_decide (length issues = 0%nat)) issues load_order)
  end.
End ops.

(* ------------------------------------------------------------------ *)
(** ** The graph the maps stand for *)

Section graphs.
Implicit Types E : list (string * string).

(** An edge [(d, x)]: extension [x] depends on [d]. *)
Definition targets E (d : string) : list string :=
  map snd (List.filter (λ e, String.eqb (fst e) d) E).
Definition indeg E (x : string) : nat := length (List.filter (λ e, String.eqb (snd e) x) E).
Definition cnt (x : string) (l : list string) : nat := length (List.filter (String.eqb x) l).
(** The dependencies of [x] not emitted yet. *)
Definition pending E (order : list string) (x : string) : nat :=
  length (List.filter (λ e, String.eqb (snd e) x && negb (bool_decide (fst e ∈ order))) E).

Lemma cnt_cons x y l : cnt x (y :: l) = ((if String.eqb x y then 1 else 0) + cnt x l)%nat.
Proof. unfold cnt; simpl. by destruct (String.eqb x y). Qed.

Lemma cnt_pos x l : x ∈ l ↔ (0 < cnt x l)%nat.
Proof.
  induction l as [|y l IH]; [split; [by intros ?%not_elem_of_nil|unfold cnt; simpl; lia]|].
  rewrite elem_of_cons, cnt_cons, IH.
  destruct (String.eqb_spec x y) as [->|Hne]; [|naive_solver lia]. split; [lia|by left].
Qed.

Lemma pending_nil E x : pending E [] x = indeg E x.
Proof.
  unfold pending, indeg. f_equal. apply List.filter_ext. intros e.
  rewrite bool_decide_eq_false_2 by apply not_elem_of_nil. by rewrite andb_true_r.
Qed.

Lemma pending_zero E order x :
  pending E order x = 0%nat ↔ ∀ d, (d, x) ∈ E → d ∈ order.
Proof.
  unfold pending. induction E as [|[d y] E IH]; simpl.
  - split; [by intros _ d ?%not_elem_of_nil|done].
  - destruct (String.eqb_spec y x) as [->|Hne]; simpl; [case_bool_decide; simpl|].
    + rewrite IH. setoid_rewrite elem_of_cons. naive_solver.
    + split; [done|]. intros Hall. exfalso. apply H, Hall. by left.
    + rewrite IH. setoid_rewrite elem_of_cons. naive_solver.
Qed.

Lemma pending_snoc E order node x :
  node ∉ order → pending E order x = (pending E (order ++ [node]) x + cnt x (targets E node))%nat.
Proof.
  intros Hn. unfold pending, targets. induction E as [|[d y] E IH]; simpl; [done|].
  assert (bool_decide (d ∈ order ++ [node]) = bool_decide (d ∈ order) || String.eqb d node) as ->.
  { apply Bool.eq_iff_eq_true. rewrite orb_true_iff, !bool_decide_eq_true, String.eqb_eq. set_solver. }
  destruct (String.eqb_spec d node) as [->|Hne]; simpl; rewrite ?orb_true_r, ?orb_false_r.
  - rewrite (bool_decide_eq_false_2 (node ∈ order)) by done. rewrite cnt_cons, (String.eqb_sym x y).
    destruct (String.eqb y x); simpl; lia.
  - destruct (String.eqb y x && negb (bool_decide (d ∈ order))); simpl; lia.
Qed.

Lemma cnt_targets_le E order node x : node ∉ order → (cnt x (targets E node) ≤ pending E order x)%nat.
Proof. intros Hn. rewrite (pending_snoc E order node x Hn). lia. Qed.

(** The maps [g] built from the edges [E] between the names [N]. *)
Definition represents (g : graph) E (N : gset string) : Prop :=
  (∀ d, default [] (fst g !! d) = targets E d) ∧
  (∀ x, snd g !! x = if decide (x ∈ N) then Some (indeg E x) else None) ∧
  (∀ e, e ∈ E → snd e ∈ N).

Lemma represents_name g E N x :
  represents g E N → represents (fst g, entry_update 0%nat id x (snd g)) E ({[x]} ∪ N).
Proof.
  intros (Ha & Hd & HE). split; [done|]. split; [|set_solver].
  intros y. unfold entry_update, id. simpl. destruct (decide (x = y)) as [->|Hne].
  - rewrite lookup_insert_eq, decide_True by set_solver. rewrite Hd. case_decide as Hy; [done|].
    simpl. f_equal. unfold indeg. destruct (List.filter _ E) as [|e l] eqn:Hf; [done|exfalso].
    assert (e ∈ List.filter (λ e, String.eqb (snd e) y) E) as Hin by (rewrite Hf; by left).
    rewrite list_elem_of_In, filter_In, String.eqb_eq in Hin. destruct Hin as [Hin <-].
    apply Hy, HE. by apply list_elem_of_In.
  - rewrite lookup_insert_ne by done. rewrite Hd.
    destruct (decide (y ∈ N)); [rewrite decide_True by set_solver|rewrite decide_False by set_solver]; done.
Qed.

Lemma represents_edge g E N d x :
  represents g E N → x ∈ N →
  represents (entry_update [] (λ l, l ++ [x]) d (fst g), entry_update 0%nat S x (snd g)) (E ++ [(d, x)]) N.
Proof.
  intros (Ha & Hd & HE) Hx. unfold represents, entry_update, targets, indeg. simpl. split_and!.
  - intros d'. rewrite List.filter_app, map_app. simpl. destruct (String.eqb_spec d d') as [->|Hne].
    + rewrite lookup_insert_eq. simpl. by rewrite Ha.
    + rewrite lookup_insert_ne by done. simpl. by rewrite app_nil_r, Ha.
  - intros y. rewrite List.filter_app, length_app. simpl. destruct (String.eqb_spec x y) as [->|Hne].
    + rewrite lookup_insert_eq, Hd, !decide_True by done. simpl. f_equal. unfold indeg. lia.
    + rewrite lookup_insert_ne by done. rewrite Hd. unfold indeg. simpl. by rewrite Nat.add_0_r.
  - intros e. rewrite elem_of_app, list_elem_of_singleton. intros [?| ->]; [by apply HE|done].
Qed.
End graphs.

Section build.
Context {SJ : SerdeJson} {SV : Semver} {HS : HashIter string} {HN : HashIter nat}.
Implicit Types exts : list LoadedExtension.t.

(** The edges to known extensions, in the order the code meets them. *)
Definition edges (known : gset string) exts : list (string * string) :=
  flat_map (λ ext, map (λ d, (d, ext_name ext))
    (List.filter (λ d, bool_decide (d ∈ known)) (dep_keys ext))) exts.

Lemma elem_of_dep_keys ext d : d ∈ dep_keys ext ↔ is_Some (ext_dependencies ext !! d).
Proof.
  unfold dep_keys. rewrite elem_of_map. split.
  - intros ([k v] & -> & Hin%elem_of_hm_iter). by eexists.
  - intros [v Hv]. exists (d, v). by rewrite elem_of_hm_iter.
Qed.

Lemma elem_of_edges known exts d x :
  (d, x) ∈ edges known exts ↔
  ∃ ext, ext ∈ exts ∧ ext_name ext = x ∧ is_Some (ext_dependencies ext !! d) ∧ d ∈ known.
Proof.
  unfold edges. rewrite list_elem_of_In, in_flat_map. setoid_rewrite <- list_elem_of_In.
  apply exist_proper. intros ext. rewrite <- elem_of_dep_keys, elem_of_map.
  setoid_rewrite elem_of_filter_list. setoid_rewrite bool_decide_eq_true. split.
  - intros (? & d' & [= -> ->] & ? & ?). done.
  - intros (? & <- & ? & ?). split; [done|]. by exists d.
Qed.

Lemma represents_edges known ext ds g E N :
  represents g E N → ext_name ext ∈ N →
  represents (fold_left (add_edge known ext) ds g)
    (E ++ map (λ d, (d, ext_name ext)) (List.filter (λ d, bool_decide (d ∈ known)) ds)) N.
Proof.
  intros Hg Hn. revert g E Hg. induction ds as [|d ds IH]; intros g E Hg; simpl.
  - by rewrite app_nil_r.
  - unfold add_edge at 2. destruct g as [adj deg]. case_bool_decide.
    + simpl. rewrite cons_middle, app_assoc. apply IH. by apply (represents_edge (adj, deg)).
    + by apply IH.
Qed.

Lemma represents_build known exts :
  represents (build_graph known exts) (edges known exts) (known_names exts).
Proof.
  unfold build_graph, known_names.
  assert (∀ g E N, represents g E N →
    represents (fold_left (λ g ext, let '(adj, in_degree) := g in
      fold_left (add_edge known ext) (dep_keys ext)
        (adj, entry_update 0%nat id (ext_name ext) in_degree)) exts g)
      (E ++ edges known exts) (N ∪ list_to_set (map ext_name exts))) as Hfold.
  { induction exts as [|ext exts IH]; intros g E N Hg; simpl.
    - by rewrite app_nil_r, union_empty_r_L.
    - destruct g as [adj deg].
      assert (N ∪ ({[ext_name ext]} ∪ list_to_set (map ext_name exts)) =
        ({[ext_name ext]} ∪ N) ∪ list_to_set (map ext_name exts)) as -> by set_solver.
      rewrite app_assoc. apply IH. apply represents_edges; [|set_solver].
      by apply (represents_name (adj, deg)). }
  assert (represents (∅, ∅) [] ∅) as H0.
  { split_and!; [done|intros x; simpl; by rewrite lookup_empty, decide_False by set_solver|].
    by intros e ?%not_elem_of_nil. }
  apply Hfold in H0. by rewrite union_empty_l_L in H0.
Qed.
End build.

(* ------------------------------------------------------------------ *)
(** ** Kahn's algorithm *)

Lemma relax_spec ds : ∀ deg ready,
  (∀ x, x ∈ ds → ∃ n, deg !! x = Some n ∧ (cnt x ds ≤ n)%nat) →
  ∃ deg' r, relax ds deg ready = Some (deg', ready ++ r) ∧
    (∀ x, deg' !! x = (λ n, n - cnt x ds)%nat <$> deg !! x) ∧
    NoDup r ∧ (∀ x, x ∈ r ↔ x ∈ ds ∧ deg' !! x = Some 0%nat).
Proof.
  induction ds as [|dep ds IH]; intros deg ready Hds; simpl.
  - exists deg, []. rewrite app_nil_r. split_and!; [done| |constructor|].
    + intros x. destruct (deg !! x); [|done]. simpl. f_equal. unfold cnt. simpl. lia.
    + intros x. split; [by intros ?%not_elem_of_nil|by intros [?%not_elem_of_nil _]].
  - destruct (Hds dep) as (n & Hn & Hle); [by left|].
    rewrite cnt_cons, String.eqb_refl in Hle. rewrite Hn. destruct n as [|n]; [lia|].
    destruct (IH (<[dep:=n]> deg) (if (n =? 0)%nat then ready ++ [dep] else ready))
      as (deg' & r & Hr & Hdeg & Hnd & Hin).
    { intros x Hx. destruct (decide (dep = x)) as [->|Hne].
      - exists n. rewrite lookup_insert_eq. split; [done|lia].
      - destruct (Hds x) as (m & Hm & Hlm); [by right|]. exists m.
        rewrite lookup_insert_ne by done. rewrite cnt_cons in Hlm. split; [done|lia]. }
    assert (Hdeg' : ∀ x, deg' !! x = (λ m, m - cnt x (dep :: ds))%nat <$> deg !! x).
    { intros x. rewrite Hdeg, cnt_cons. destruct (String.eqb_spec x dep) as [->|Hne].
      - rewrite lookup_insert_eq, Hn. done.
      - by rewrite lookup_insert_ne. }
    exists deg', ((if (n =? 0)%nat then [dep] else []) ++ r). rewrite Hr.
    assert (Hdep : deg' !! dep = Some (n - cnt dep ds)%nat).
    { by rewrite Hdeg, lookup_insert_eq. }
    destruct (Nat.eqb_spec n 0) as [->|Hn0]; (split; [simpl; by rewrite <- ?app_assoc|split; [done|]]).
    + assert (dep ∉ ds) as Hni by (rewrite cnt_pos; lia). split.
      * simpl. constructor; [|done]. intros [? _]%Hin. done.
      * intros x. simpl. rewrite !elem_of_cons, Hin. destruct (decide (x = dep)) as [->|]; [|naive_solver].
        rewrite Hdep. naive_solver.
    + split; [done|]. intros x. simpl. rewrite elem_of_cons, Hin.
      destruct (decide (x = dep)) as [->|]; [|naive_solver]. rewrite cnt_pos, Hdep.
      split; [naive_solver|]. intros [_ Hz]. split; [|done]. simplify_eq. lia.
Qed.

(** The loop invariant: [order] was emitted, [queue] is ready; counters count the
    dependencies not emitted yet, and the nodes with none are those emitted or
    queued; every dependency of an emitted node was emitted before it. *)
Definition precedes (E : list (string * string)) (order : list string) : Prop :=
  ∀ l1 x l2, order = l1 ++ x :: l2 → ∀ d, (d, x) ∈ E → d ∈ l1.

Definition kahn_inv (E : list (string * string)) (known : gset string) (deg : gmap string nat)
    (queue order : list string) : Prop :=
  NoDup (order ++ queue) ∧
  (∀ x, deg !! x = if decide (x ∈ known) then Some (pending E order x) else None) ∧
  (∀ x, x ∈ order ++ queue ↔ x ∈ known ∧ pending E order x = 0%nat) ∧
  precedes E order.

Lemma precedes_snoc E order x :
  precedes E order → (∀ d, (d, x) ∈ E → d ∈ order) → precedes E (order ++ [x]).
Proof.
  intros Hp Hx l1 y l2 Heq d Hd. destruct l2 as [|z l2' _] using rev_ind.
  - apply app_inj_tail in Heq as [-> ->]. by apply Hx.
  - rewrite app_comm_cons, app_assoc in Heq. apply app_inj_tail in Heq as [-> _].
    by eapply Hp.
Qed.

Lemma kahn_step E known deg node queue order :
  (∀ e, e ∈ E → snd e ∈ known) →
  kahn_inv E known deg (node :: queue) order →
  ∃ deg' ready, relax (targets E node) deg [] = Some (deg', ready) ∧
    kahn_inv E known deg' (queue ++ sort_strings ready) (order ++ [node]).
Proof.
  intros HE (Hnd & Hdeg & Hin & Hp).
  assert (Hnode : node ∉ order).
  { intros Ho. apply NoDup_app in Hnd as (_ & Hdis & _). apply (Hdis node Ho). by left. }
  assert (Hz : node ∈ known ∧ pending E order node = 0%nat) by (apply Hin; set_solver).
  destruct (relax_spec (targets E node) deg []) as (deg' & r & Hr & Hdeg' & Hndr & Hrin).
  { intros x Hx. exists (pending E order x). rewrite Hdeg, decide_True.
    - split; [done|]. by apply cnt_targets_le.
    - unfold targets in Hx. rewrite elem_of_map in Hx. destruct Hx as (e & -> & He).
      apply HE. by apply elem_of_filter_list in He as [? _]. }
  assert (Hd' : ∀ x, deg' !! x =
    if decide (x ∈ known) then Some (pending E (order ++ [node]) x) else None).
  { intros x. rewrite Hdeg', Hdeg. case_decide; [|done]. simpl. f_equal.
    rewrite (pending_snoc E order node x Hnode). lia. }
  assert (Hready : ∀ x, x ∈ r ↔ x ∈ known ∧ x ∈ targets E node ∧ pending E (order ++ [node]) x = 0%nat).
  { intros x. rewrite Hrin, Hd'. case_decide; naive_solver. }
  exists deg', r. split; [done|]. split; [|split; [done|split]].
  - rewrite sort_strings_perm. rewrite app_assoc, <- (app_assoc order). simpl.
    apply NoDup_app. split; [done|]. split; [|done].
    intros x [_ Hx0]%Hin (_ & Hx & _)%Hready. apply cnt_pos in Hx.
    pose proof (cnt_targets_le E order node x Hnode). lia.
  - intros x. rewrite sort_strings_perm, app_assoc, <- (app_assoc order), elem_of_app. simpl.
    rewrite Hin, Hready. pose proof (pending_snoc E order node x Hnode) as Hps. split.
    + intros [[? ?]|(? & _ & ?)]; (split; [done|lia]).
    + intros [Hk Hx0]. destruct (decide (x ∈ targets E node)) as [|Hnt]; [by right|].
      left. split; [done|]. rewrite cnt_pos in Hnt. lia.
  - apply precedes_snoc; [done|]. apply (proj1 (pending_zero E order node)), Hz.
Qed.

Lemma drain_spec E known adj :
  (∀ e, e ∈ E → snd e ∈ known) → (∀ d, default [] (adj !! d) = targets E d) →
  ∀ fuel deg queue order, kahn_inv E known deg queue order →
  (size known ≤ fuel + length order)%nat →
  ∃ order' deg', drain fuel adj deg queue order = Some order' ∧ kahn_inv E known deg' [] order'.
Proof.
  intros HE Hadj. induction fuel as [|fuel IH]; intros deg queue order Hinv Hfuel;
    destruct queue as [|node queue]; simpl; eauto.
  - exfalso. destruct Hinv as (Hnd & _ & Hin & _).
    assert (length (order ++ node :: queue) ≤ size known)%nat as Hle.
    { rewrite <- (size_list_to_set (C:=gset string)) by done. apply subseteq_size.
      intros x. rewrite elem_of_list_to_set. by intros [? _]%Hin. }
    rewrite length_app in Hle. simpl in Hle. lia.
  - destruct (kahn_step E known deg node queue order HE Hinv) as (deg' & r & Hr & Hinv').
    rewrite <- Hadj in Hr. specialize (IH deg' _ _ Hinv' ltac:(rewrite length_app; simpl; lia)).
    destruct (adj !! node) as [ds|]; simpl in Hr; [by rewrite Hr|]. injection Hr as <- <-.
    change (sort_strings []) with (@nil string) in IH. by rewrite app_nil_r in IH.
Qed.

(* ------------------------------------------------------------------ *)
(** ** The search for cycles *)

(** Consecutive elements are related. *)
Fixpoint linked {A} (R : A → A → Prop) (l : list A) : Prop :=
  match l with
  | x :: ((y :: _) as l') => R x y ∧ linked R l'
  | _ => True
  end.

Lemma linked_snoc {A} (R : A → A → Prop) l y :
  linked R (l ++ [y]) ↔ linked R l ∧ (∀ x, last l = Some x → R x y).
Proof.
  induction l as [|x [|z l] IH]; simpl in *; [naive_solver|naive_solver|].
  rewrite IH. naive_solver.
Qed.

Lemma linked_app_r {A} (R : A → A → Prop) l1 l2 : linked R (l1 ++ l2) → linked R l2.
Proof.
  induction l1 as [|x l1 IH]; [done|]. intros H. apply IH. simpl in H.
  destruct (l1 ++ l2) eqn:E; [by destruct l1, l2; simplify_eq/=|]. by destruct H.
Qed.

Lemma linked_tc {A} (R : A → A → Prop) x l y : linked R (x :: l ++ [y]) → tc R x y.
Proof.
  revert x. induction l as [|z l IH]; intros x; simpl.
  - intros [? _]. by apply tc_once.
  - intros [Hxz Hl]. eapply tc_l; [exact Hxz|]. by apply IH.
Qed.

(** A closed chain: [n, .., n], each element related to the next. *)
Definition is_cycle {A} (R : A → A → Prop) (c : list A) : Prop :=
  ∃ n l, c = n :: l ++ [n] ∧ linked R c.

Lemma is_cycle_tc {A} (R : A → A → Prop) c : is_cycle R c → ∃ n, n ∈ c ∧ tc R n n.
Proof.
  intros (n & l & -> & Hl). exists n. split; [by left|]. by eapply linked_tc.
Qed.

Lemma from_first_elem next l : next ∈ l → ∃ l1 l2, l = l1 ++ next :: l2 ∧ from_first next l = Some (next :: l2).
Proof.
  induction l as [|x l IH]; [by intros ?%not_elem_of_nil|]. simpl. intros Hin.
  destruct (String.eqb_spec x next) as [->|Hne]; [by exists [], l|].
  apply elem_of_cons in Hin as [->|Hin]; [done|]. destruct (IH Hin) as (l1 & l2 & -> & ->).
  by exists (x :: l1), l2.
Qed.

Section dfs.
Context (adj : gmap string (list string)) (involved : gset string).
Definition succ (x y : string) : Prop := y ∈ default [] (adj !! x).
Context (Hclosed : ∀ x y, succ x y → y ∈ involved).

(** Every involved node has an involved successor. *)
Definition no_sink : Prop := ∀ x, x ∈ involved → default [] (adj !! x) ≠ [].

Record dfs_ok (st : dfs_state) : Prop := {
  ok_stack : ∀ x, x ∈ on_stack st ↔ x ∈ path st;
  ok_visited : on_stack st ⊆ visited st;
  ok_linked : linked succ (path st);
  ok_cycles : Forall (is_cycle succ) (cycles st) }.

(** A call extends [st] to [st']: more visited nodes and cycles, the same path. *)
Record dfs_extends (st st' : dfs_state) : Prop := {
  ext_ok : dfs_ok st';
  ext_path : path st' = path st;
  ext_stack : on_stack st' = on_stack st;
  ext_visited : visited st ⊆ visited st';
  ext_cycles : cycles st `prefix_of` cycles st' }.

Lemma dfs_extends_refl st : dfs_ok st → dfs_extends st st.
Proof. by split. Qed.
Lemma dfs_extends_trans st1 st2 st3 :
  dfs_extends st1 st2 → dfs_extends st2 st3 → dfs_extends st1 st3.
Proof.
  intros [] []. split; [done|congruence|congruence|by etrans|by etrans].
Qed.

(** What a call of the search on [node] achieves, with [fuel] for the unvisited nodes. *)
Definition dfs_correct (dfs : string → dfs_state → option dfs_state) (fuel : nat) : Prop :=
  ∀ node st, dfs_ok st → node ∈ involved → node ∉ visited st →
    (∀ x, last (path st) = Some x → succ x node) →
    (size (involved ∖ visited st) ≤ fuel)%nat →
    ∃ st', dfs node st = Some st' ∧ dfs_extends st st' ∧ node ∈ visited st' ∧
      (no_sink → visited st = on_stack st → cycles st' ≠ []).

Lemma back_edge_ok next st node :
  dfs_ok st → last (path st) = Some node → succ node next → next ∈ on_stack st →
  ∃ c, from_first next (path st) = Some c ∧
    dfs_extends st (mk_dfs (visited st) (on_stack st) (path st) (cycles st ++ [c ++ [next]])).
Proof.
  intros [Hs Hv Hl Hc] Hlast Hsucc Hin%Hs.
  destruct (from_first_elem _ _ Hin) as (l1 & l2 & Hp & Hf).
  exists (next :: l2). split; [done|].
  split; [|done|done|done|by eexists]. split; [done|done|done|]. simpl.
  apply Forall_app. split; [done|]. constructor; [|constructor].
  exists next, l2. split; [done|]. rewrite Hp in Hl, Hlast.
  change (linked succ ((next :: l2) ++ [next])). apply linked_snoc. split.
  - by eapply linked_app_r.
  - intros x Hx. rewrite last_app_cons in Hlast. by simplify_eq.
Qed.

Lemma visit_neighbors_spec dfs fuel node neighbors :
  dfs_correct dfs fuel → Forall (succ node) neighbors →
  ∀ st, dfs_ok st → last (path st) = Some node → (size (involved ∖ visited st) ≤ fuel)%nat →
  ∃ st', visit_neighbors dfs neighbors st = Some st' ∧ dfs_extends st st' ∧
    (no_sink → visited st = on_stack st → neighbors ≠ [] → cycles st' ≠ []).
Proof using Hclosed.
  intros Hdfs. induction 1 as [|next ns Hnext _ IH]; intros st Hok Hlast Hsize; simpl.
  - exists st. split; [done|]. split; [by apply dfs_extends_refl|done].
  - assert (∀ st1, dfs_extends st st1 → ∃ st', visit_neighbors dfs ns st1 = Some st' ∧
      dfs_extends st st' ∧ (cycles st1 ≠ [] → cycles st' ≠ [])) as Hrest.
    { intros st1 Hext. destruct (IH st1) as (st' & Hr & Hext' & _).
      - apply Hext.
      - by rewrite (ext_path _ _ Hext).
      - etrans; [|exact Hsize]. apply subseteq_size. pose proof (ext_visited _ _ Hext). set_solver.
      - exists st'. split; [done|]. split; [by eapply dfs_extends_trans|].
        intros Hne Hnil. apply Hne. destruct (ext_cycles _ _ Hext') as [k Hk].
        rewrite Hnil in Hk. symmetry in Hk. by apply app_eq_nil in Hk as [? _]. }
    case_bool_decide as Hv; simpl.
    + case_bool_decide as Hs.
      * destruct (back_edge_ok next st node Hok Hlast Hnext Hs) as (c & -> & Hext).
        destruct (Hrest _ Hext) as (st' & Hr & Hext' & Hc). exists st'. split; [done|]. split; [done|].
        intros _ _ _. apply Hc. simpl. by destruct (cycles st).
      * destruct (Hrest st) as (st' & Hr & Hext' & Hc); [by apply dfs_extends_refl|].
        exists st'. split; [done|]. split; [done|]. intros _ Heq. by rewrite Heq in Hv.
    + destruct (Hdfs next st) as (st1 & -> & Hext & _ & Hcy); [done|by eapply Hclosed|done| |done|].
      { intros x Hx. rewrite Hlast in Hx. by simplify_eq. }
      destruct (Hrest _ Hext) as (st' & Hr & Hext' & Hc). exists st'. split; [done|]. split; [done|].
      intros Hns Heq _. apply Hc, Hcy; done.
Qed.

Lemma dfs_spec fuel : dfs_correct (dfs_find_cycles fuel adj) fuel.
Proof using Hclosed.
  induction fuel as [|fuel IH]; intros node st Hok Hin Hnv Hlast Hsize.
  - assert (node ∈ involved ∖ visited st) as Hd by set_solver.
    rewrite Nat.le_0_r, size_empty_iff in Hsize. set_solver.
  - simpl. set (st1 := mk_dfs _ _ _ _).
    destruct Hok as [Hs Hv Hl Hc].
    assert (Hok1 : dfs_ok st1).
    { split; simpl; [|set_solver|by apply linked_snoc|done].
      intros x. rewrite elem_of_union, elem_of_singleton, elem_of_app, list_elem_of_singleton, Hs. tauto. }
    destruct (visit_neighbors_spec _ fuel node (default [] (adj !! node)) IH) with (st := st1)
      as (st' & -> & [Hok' Hp' Hs' Hv' Hc'] & Hcyc); [by apply Forall_forall|done|simpl; by rewrite last_snoc| |].
    { simpl. assert (involved ∖ ({[node]} ∪ visited st) ⊂ involved ∖ visited st) as Hlt%subset_size by set_solver.
      lia. }
    eexists. split; [done|]. simpl in *.
    assert (Hst : on_stack st' ∖ {[node]} = on_stack st) by (rewrite Hs'; set_solver).
    assert (Hpt : removelast (path st') = path st) by (by rewrite Hp', removelast_last).
    split; [|split; [set_solver|]].
    + split; simpl; [|done|done|set_solver|done]. rewrite Hst, Hpt.
      split; simpl; [done|set_solver|done|apply Hok'].
    + intros Hns Heq. apply Hcyc; [done|by rewrite Heq|by apply Hns].
Qed.

Lemma visit_roots_spec fuel nodes st :
  dfs_ok st → path st = [] → Forall (λ x, x ∈ involved) nodes →
  (size involved ≤ fuel)%nat →
  ∃ st', visit_roots fuel adj nodes st = Some st' ∧ dfs_extends st st' ∧
    (no_sink → visited st = ∅ → nodes ≠ [] → cycles st' ≠ []).
Proof using Hclosed.
  intros Hok Hp Hn Hf. revert st Hok Hp. induction Hn as [|node nodes Hin _ IH]; intros st Hok Hp; simpl.
  - exists st. split; [done|]. split; [by apply dfs_extends_refl|done].
  - assert (Hstack : on_stack st = ∅).
    { apply set_eq. intros x. rewrite (ok_stack _ Hok), Hp. set_solver. }
    case_bool_decide as Hv; simpl.
    + destruct (IH st Hok Hp) as (st' & Hr & Hext & _). exists st'. split; [done|]. split; [done|].
      intros _ He. rewrite He in Hv. set_solver.
    + destruct (dfs_spec fuel node st) as (st1 & -> & Hext & _ & Hc); [done..|by rewrite Hp| |].
      { etrans; [|exact Hf]. apply subseteq_size. set_solver. }
      destruct (IH st1) as (st' & Hr & Hext' & _); [apply Hext|by rewrite (ext_path _ _ Hext)|].
      exists st'. split; [done|]. split; [by eapply dfs_extends_trans|].
      intros Hns He _ Hnil. apply (Hc Hns); [by rewrite Hstack|].
      destruct (ext_cycles _ _ Hext') as [k Hk]. rewrite Hnil in Hk. symmetry in Hk.
      by apply app_eq_nil in Hk as [? _].
Qed.
End dfs.

(* ------------------------------------------------------------------ *)
(** ** The analysis as a whole *)

(** In a finite set where everything has a successor, every walk meets a cycle. *)
Lemma walk_to_cycle (R : string → string → Prop) (S : gset string) :
  (∀ x, x ∈ S → ∃ y, y ∈ S ∧ R x y) → ∀ x, x ∈ S → ∃ c, rtc R x c ∧ tc R c c.
Proof.
  intros Hsucc x Hx.
  assert (∀ n (V : gset string) x, x ∈ S → x ∈ V → (∀ v, v ∈ V → rtc R v x) →
    (size (S ∖ V) ≤ n)%nat → ∃ c, rtc R x c ∧ tc R c c) as Hwalk.
  { clear x Hx. induction n as [|n IH]; intros V x Hx Hxv Hv Hn;
      destruct (Hsucc x Hx) as (y & Hy & Hxy); destruct (decide (y ∈ V)) as [Hyv|Hyv].
    1,3: exists y; split; [by apply rtc_once|]; eapply tc_rtc_l; [by apply Hv|by apply tc_once].
    - exfalso. assert (y ∈ S ∖ V) by set_solver. rewrite Nat.le_0_r, size_empty_iff in Hn. set_solver.
    - destruct (IH ({[y]} ∪ V) y) as (c & Hyc & Hc); [done|set_solver| | |].
      + intros v [->%elem_of_singleton|Hin]%elem_of_union; [done|].
        eapply rtc_r; [by apply Hv|done].
      + assert (S ∖ ({[y]} ∪ V) ⊂ S ∖ V) as Hlt%subset_size by set_solver. lia.
      + exists c. split; [|done]. by eapply rtc_l. }
  apply (Hwalk (size S) {[x]} x); [done|set_solver| |apply subseteq_size; set_solver].
  by intros v ->%elem_of_singleton.
Qed.

(** Along a list where the related elements precede, relations only go back. *)
Lemma precedes_tc (R : string → string → Prop) order :
  (∀ l1 x l2, order = l1 ++ x :: l2 → ∀ d, R x d → d ∈ l1) →
  ∀ x y, tc R x y → ∀ l1 l2, order = l1 ++ x :: l2 → y ∈ l1.
Proof.
  intros Hp x y Hxy. induction Hxy as [x y Hxy|x z y Hxz _ IH]; intros l1 l2 Heq.
  - by eapply Hp.
  - pose proof (Hp _ _ _ Heq _ Hxz) as Hz. apply list_elem_of_split in Hz as (a & b & ->).
    rewrite elem_of_app. left. apply (IH a (b ++ x :: l2)). by rewrite Heq, <- app_assoc.
Qed.

Section analysis.
Context {SJ : SerdeJson} {SV : Semver} {HS : HashIter string} {HN : HashIter nat}.
Implicit Types exts : list LoadedExtension.t.

(** Extension [x] depends on the installed extension [d]. *)
Definition depends exts (x d : string) : Prop :=
  ∃ ext, ext ∈ exts ∧ ext_name ext = x ∧ is_Some (ext_dependencies ext !! d) ∧
    d ∈ known_names exts.

Lemma depends_edges exts x d : depends exts x d ↔ (d, x) ∈ edges (known_names exts) exts.
Proof. by rewrite elem_of_edges. Qed.

Lemma elem_of_known exts x : x ∈ known_names exts ↔ ∃ ext, ext ∈ exts ∧ ext_name ext = x.
Proof.
  unfold known_names. rewrite elem_of_list_to_set, elem_of_map. naive_solver.
Qed.

Lemma involved_graph_snoc exts ext S :
  involved_graph (exts ++ [ext]) S =
  if bool_decide (ext_name ext ∈ S)
  then <[ext_name ext := sort_strings (List.filter (λ d, bool_decide (d ∈ S)) (dep_keys ext))]>
         (involved_graph exts S)
  else involved_graph exts S.
Proof. unfold involved_graph. by rewrite fold_left_app. Qed.

Lemma involved_lookup exts S x l :
  involved_graph exts S !! x = Some l →
  ∃ ext, ext ∈ exts ∧ ext_name ext = x ∧ ∀ d, d ∈ l ↔ d ∈ S ∧ is_Some (ext_dependencies ext !! d).
Proof.
  induction exts as [|ext exts IH] using rev_ind; [done|].
  rewrite involved_graph_snoc. setoid_rewrite elem_of_app. intros Hl.
  case_bool_decide as HS0; [|by destruct (IH Hl) as (e & ? & ?); eauto].
  apply lookup_insert_Some in Hl as [[<- <-]|[_ Hl]]; [|by destruct (IH Hl) as (e & ? & ?); eauto].
  exists ext. rewrite list_elem_of_singleton. split; [by right|]. split; [done|]. intros d.
  rewrite sort_strings_perm, elem_of_filter_list, bool_decide_eq_true, elem_of_dep_keys. tauto.
Qed.

Lemma involved_lookup_unique exts S ext :
  NoDup (map ext_name exts) → ext ∈ exts → ext_name ext ∈ S →
  ∃ l, involved_graph exts S !! ext_name ext = Some l ∧
    ∀ d, d ∈ l ↔ d ∈ S ∧ is_Some (ext_dependencies ext !! d).
Proof.
  induction exts as [|e exts IH] using rev_ind; [by intros _ ?%not_elem_of_nil|].
  rewrite map_app, involved_graph_snoc, elem_of_app, list_elem_of_singleton.
  intros (Hnd & Hdis & _)%NoDup_app [Hin| ->] HS0.
  - destruct (IH Hnd Hin HS0) as (l & Hl & Hd). exists l. split; [|done].
    assert (ext_name e ≠ ext_name ext) as Hne.
    { intros Heq. apply (Hdis (ext_name ext)); [|rewrite <- Heq; by left].
      apply elem_of_map. by exists ext. }
    case_bool_decide; [by rewrite lookup_insert_ne|done].
  - rewrite bool_decide_eq_true_2 by done. eexists. rewrite lookup_insert_eq. split; [done|].
    intros d. rewrite sort_strings_perm, elem_of_filter_list, bool_decide_eq_true, elem_of_dep_keys. tauto.
Qed.

(** The cycles reported among the remaining extensions. *)
Lemma cycles_spec exts remaining :
  (∀ x, x ∈ remaining → ∃ d, d ∈ remaining ∧ depends exts x d) →
  ∃ cs, (if bool_decide (remaining = ∅) then Some [] else find_cycles exts remaining) = Some cs ∧
    Forall (is_cycle (depends exts)) cs ∧ (remaining = ∅ → cs = []) ∧
    (NoDup (map ext_name exts) → remaining ≠ ∅ → cs ≠ []).
Proof.
  intros Hrem. case_bool_decide as Hr; [by exists []|].
  set (adj := involved_graph exts remaining).
  assert (Hsucc : ∀ x y, succ adj x y → y ∈ remaining ∧
    ∃ ext, ext ∈ exts ∧ ext_name ext = x ∧ is_Some (ext_dependencies ext !! y)).
  { intros x y Hxy. unfold succ in Hxy. destruct (adj !! x) as [l|] eqn:Hl;
      [|by apply not_elem_of_nil in Hxy]. apply involved_lookup in Hl as (ext & ? & ? & Hl).
    apply Hl in Hxy as [? ?]. eauto. }
  destruct (visit_roots_spec adj remaining (λ x y Hxy, proj1 (Hsucc x y Hxy)) (size remaining)
    (sort_strings (elements remaining)) (mk_dfs ∅ ∅ [] [])) as (st & Hst & Hext & Hne).
  { split; simpl; [set_solver|done|done|constructor]. }
  { done. }
  { apply Forall_forall. intros x. by rewrite sort_strings_perm, elem_of_elements. }
  { done. }
  unfold find_cycles. fold adj. rewrite Hst. exists (cycles st). split; [done|]. split_and!; [|done|].
  - eapply Forall_impl; [apply (ok_cycles _ _ (ext_ok _ _ _ Hext))|].
    intros c (n & l & -> & Hl). exists n, l. split; [done|]. revert Hl.
    generalize (n :: l ++ [n]). clear - Hsucc Hrem. induction l as [|x [|y l] IH]; [done|done|].
    intros [Hxy Hl]. split; [|by apply IH]. destruct (Hsucc x y Hxy) as (Hy & ext & He & Hn & Hd).
    exists ext. split_and!; try done. destruct (Hrem y Hy) as (d & _ & e & ? & ? & _).
    apply elem_of_known. eauto.
  - intros Hu _. apply Hne; [|done|].
    + intros x Hx. destruct (Hrem x Hx) as (d & Hd & ext & He & Hn & Hdep & _). subst x.
      destruct (involved_lookup_unique exts remaining ext Hu He Hx) as (l & Hl & Hin).
      fold adj in Hl. rewrite Hl. simpl. intros ->. apply (not_elem_of_nil d), Hin. done.
    + intros Hnil. apply Hr. apply set_eq. intros x.
      rewrite <- elem_of_elements, <- (sort_strings_perm (elements remaining)), Hnil. set_solver.
Qed.

(** What [compute_topological_order] computes: Kahn's order of some extensions,
    then the others, each of which waits for another of them, with cycles among
    them. *)
Lemma compute_order_spec exts :
  ∃ order tail cs, compute_topological_order exts = Some (order ++ tail, cs) ∧
    NoDup (order ++ tail) ∧ (∀ x, x ∈ order ++ tail ↔ x ∈ known_names exts) ∧
    (∀ l1 x l2, order = l1 ++ x :: l2 → ∀ d, depends exts x d → d ∈ l1) ∧
    (∀ x, x ∈ tail → ∃ d, d ∈ tail ∧ depends exts x d) ∧
    Forall (is_cycle (depends exts)) cs ∧
    (tail = [] → cs = []) ∧ (NoDup (map ext_name exts) → tail ≠ [] → cs ≠ []).
Proof.
  unfold compute_topological_order. set (known := known_names exts).
  destruct (build_graph known exts) as [adj deg] eqn:Hg.
  pose proof (represents_build known exts) as Hrep. rewrite Hg in Hrep. fold known in Hrep.
  destruct Hrep as (Hadj & Hdeg & HE). simpl in Hadj, Hdeg.
  set (seeds := map fst _).
  assert (Hseeds : ∀ x, x ∈ seeds ↔ deg !! x = Some 0%nat).
  { intros x. unfold seeds. rewrite elem_of_map. setoid_rewrite elem_of_filter_list.
    setoid_rewrite Nat.eqb_eq. split.
    - intros ([k n] & -> & Hin%elem_of_hm_iter & Hn). simpl in *. by rewrite Hin, Hn.
    - intros Hx. exists (x, 0%nat). by rewrite elem_of_hm_iter. }
  destruct (drain_spec (edges known exts) known adj HE Hadj (size known) deg (sort_strings seeds) [])
    as (order & deg' & -> & Hnd & _ & Hin & Hp).
  { split_and!; simpl.
    - rewrite sort_strings_perm. apply NoDup_map_filter. exact (NoDup_hm_iter_keys deg).
    - intros x. rewrite pending_nil. apply Hdeg.
    - intros x. rewrite sort_strings_perm, Hseeds, Hdeg, pending_nil. case_decide; naive_solver.
    - by intros [|] x l2 Heq. }
  { simpl. lia. }
  rewrite app_nil_r in *.
  set (remaining := known ∖ list_to_set order).
  assert (Hrem : ∀ x, x ∈ remaining → ∃ d, d ∈ remaining ∧ depends exts x d).
  { intros x [Hx Hno]%elem_of_difference. rewrite elem_of_list_to_set in Hno.
    destruct (decide (Forall (λ e, snd e = x → fst e ∈ order) (edges known exts))) as [Hall|Hn].
    - exfalso. apply Hno, Hin. split; [done|]. apply pending_zero. intros d Hd.
      rewrite Forall_forall in Hall. by apply (Hall _ Hd).
    - apply not_Forall_Exists, Exists_exists in Hn as ([d y] & He & Hn); [|solve_decision].
      simpl in Hn. destruct (decide (y = x)) as [->|]; [|naive_solver]. exists d.
      pose proof He as Hdep. apply depends_edges in Hdep. split; [|done].
      apply elem_of_difference. rewrite elem_of_list_to_set. split; [|naive_solver].
      by destruct Hdep as (? & _ & _ & _ & ?). }
  assert (Htail : ∀ x, x ∈ sort_strings (elements remaining) ↔ x ∈ remaining).
  { intros x. by rewrite sort_strings_perm, elem_of_elements. }
  exists order, (sort_strings (elements remaining)).
  assert (∃ cs, (if bool_decide (remaining = ∅) then Some [] else find_cycles exts remaining) = Some cs ∧
    Forall (is_cycle (depends exts)) cs ∧ (remaining = ∅ → cs = []) ∧
    (NoDup (map ext_name exts) → remaining ≠ ∅ → cs ≠ [])) as (cs & -> & Hcy & Hnone & Hsome).
  { by apply cycles_spec. }
  exists cs. split; [done|]. split_and!.
  - rewrite sort_strings_perm. apply NoDup_app. split; [done|]. split; [|apply NoDup_elements].
    intros x Hx. rewrite elem_of_elements. unfold remaining. set_solver.
  - intros x. rewrite elem_of_app, Htail. unfold remaining.
    destruct (decide (x ∈ order)) as [Ho|Ho]; [|set_solver]. pose proof (proj1 (Hin x) Ho). naive_solver.
  - intros l1 x l2 Heq d Hd. apply depends_edges in Hd. by eapply Hp.
  - intros x Hx%Htail. destruct (Hrem x Hx) as (d & Hd & Hdep). exists d. by rewrite Htail.
  - done.
  - intros Hnil. apply Hnone. apply set_eq. intros x. rewrite <- Htail, Hnil. set_solver.
  - intros Hu Hne. apply Hsome; [done|]. intros He. apply Hne. by rewrite He.
Qed.

(** C3: the analysis always ends with a load order: every installed extension
    exactly once, and each after all its installed dependencies, unless it (is in
    or) leads to a dependency cycle. *)
Theorem load_order_topological exts :
  ∃ r, validate_dependencies exts = Some r ∧
    topological_sort exts = Some (DependencyValidationResult.load_order r) ∧
    DependencyValidationResult.load_order r ≡ₚ elements (known_names exts) ∧
    (∀ l1 x l2 d, DependencyValidationResult.load_order r = l1 ++ x :: l2 → depends exts x d →
       d ∈ l1 ∨ ∃ c, rtc (depends exts) x c ∧ tc (depends exts) c c).
Proof.
  destruct (compute_order_spec exts) as (order & tail & cs & Hc & Hnd & Hin & Hp & Htail & _).
  unfold validate_dependencies, topological_sort. rewrite Hc.
  eexists. split; [done|]. split; [done|]. simpl. split.
  - apply NoDup_Permutation; [done|apply NoDup_elements|]. intros x.
    by rewrite Hin, elem_of_elements.
  - intros l1 x l2 d Heq Hd. destruct (decide (x ∈ tail)) as [Ht|Ht].
    + right. apply (walk_to_cycle (depends exts) (list_to_set tail)); [|by apply elem_of_list_to_set].
      intros y. rewrite elem_of_list_to_set. intros (z & ? & ?)%Htail. exists z.
      by rewrite elem_of_list_to_set.
    + left. assert (x ∈ order) as Ho.
      { assert (x ∈ order ++ tail) as Hx by (rewrite Heq; set_solver). apply elem_of_app in Hx as [?|?]; done. }
      apply list_elem_of_split in Ho as (a & b & ->).
      assert (l1 = a) as ->; [|by eapply Hp].
      rewrite <- app_assoc in Heq. simpl in Heq.
      rewrite <- app_assoc in Hnd. simpl in Hnd.
      symmetry. by apply (NoDup_split_unique a l1 (b ++ tail) l2 x).
Qed.

(** Every dependency of an extension is installed in a version that satisfies it. *)
Definition satisfied exts : Prop :=
  ∀ ext d req, ext ∈ exts → ext_dependencies ext !! d = Some req →
    ∃ ext', ext' ∈ exts ∧ ext_name ext' = d ∧ version_matches req (ext_version ext') = true.

Lemma versions_lookup exts ext :
  NoDup (map ext_name exts) → ext ∈ exts →
  fold_left (λ (m : gmap string string) ext, <[ext_name ext := ext_version ext]> m) exts ∅
    !! ext_name ext = Some (ext_version ext).
Proof.
  induction exts as [|e exts IH] using rev_ind; [by intros _ ?%not_elem_of_nil|].
  rewrite map_app, fold_left_app, elem_of_app, list_elem_of_singleton. simpl.
  intros (Hnd & Hdis & _)%NoDup_app [Hin| ->]; [|apply lookup_insert_eq].
  rewrite lookup_insert_ne; [by apply IH|]. intros Heq.
  apply (Hdis (ext_name ext)); [apply elem_of_map; eauto|rewrite <- Heq; by left].
Qed.

Lemma versions_lookup_inv exts d v :
  fold_left (λ (m : gmap string string) ext, <[ext_name ext := ext_version ext]> m) exts ∅
    !! d = Some v → ∃ ext, ext ∈ exts ∧ ext_name ext = d ∧ ext_version ext = v.
Proof.
  induction exts as [|e exts IH] using rev_ind; [done|]. rewrite fold_left_app. simpl.
  setoid_rewrite elem_of_app. setoid_rewrite list_elem_of_singleton.
  intros [[<- <-]|[_ Hl]]%lookup_insert_Some; [by exists e; auto|].
  destruct (IH Hl) as (ext & ? & ?). exists ext. auto.
Qed.

Lemma no_issues exts :
  NoDup (map ext_name exts) →
  flat_map (check_extension
    (fold_left (λ (m : gmap string string) ext, <[ext_name ext := ext_version ext]> m) exts ∅)) exts = []
  ↔ satisfied exts.
Proof.
  intros Hu. set (versions := fold_left _ _ _).
  assert (∀ {A B} (f : A → list B) l, flat_map f l = [] ↔ ∀ x, x ∈ l → f x = []) as Hflat.
  { intros A B f l. induction l as [|x l IH]; simpl; [by split; [intros _ x ?%not_elem_of_nil|]|].
    setoid_rewrite elem_of_cons. split.
    - intros [Hx Hl]%app_eq_nil y [->|Hy]; [done|]. by apply IH.
    - intros Hall. rewrite (Hall x) by auto. apply IH. auto. }
  rewrite Hflat. unfold check_extension. setoid_rewrite Hflat. unfold satisfied. split.
  - intros Hc ext d req Hin Hd. specialize (Hc ext Hin (d, req)).
    rewrite elem_of_hm_iter in Hc. specialize (Hc Hd). simpl in Hc.
    destruct (versions !! d) as [v|] eqn:Hv; [|done].
    destruct (version_matches req v) eqn:Hm; [|done].
    apply versions_lookup_inv in Hv as (ext' & ? & ? & <-). eauto.
  - intros Hs ext Hin [d req] Hd%elem_of_hm_iter.
    destruct (Hs ext d req Hin Hd) as (ext' & Hin' & <- & Hm).
    unfold versions. rewrite (versions_lookup exts ext' Hu Hin'). by rewrite Hm.
Qed.

(** C2: a set of extensions with distinct names is reported valid exactly when every
    dependency is installed in a satisfying version and the dependencies are
    acyclic; and every cycle reported is one. *)
Theorem valid_iff_satisfied_and_acyclic exts :
  NoDup (map ext_name exts) →
  ∃ r, validate_dependencies exts = Some r ∧
    (DependencyValidationResult.valid r = true ↔
       satisfied exts ∧ ∀ x, ¬ tc (depends exts) x x) ∧
    (∀ c, Circular c ∈ DependencyValidationResult.issues r → is_cycle (depends exts) c).
Proof.
  intros Hu.
  destruct (compute_order_spec exts) as (order & tail & cs & Hc & Hnd & Hin & Hp & Htail & Hcy & Hnil & Hne).
  unfold validate_dependencies. rewrite Hc. eexists. split; [done|]. simpl.
  set (checks := flat_map _ _). split.
  - rewrite bool_decide_eq_true, length_zero_iff_nil. rewrite <- (no_issues exts Hu). fold checks. split.
    + intros [-> Hcs%map_eq_nil]%app_eq_nil. split; [done|]. intros x Hx.
      destruct tail as [|t tail]; [|by apply Hne]. rewrite app_nil_r in *.
      assert (x ∈ order) as Ho.
      { apply Hin. apply tc_rtc in Hx as Hr. inversion Hx as [? ? Hd|? ? ? Hd]; subst;
          destruct Hd as (ext & He & <- & _); apply elem_of_known; eauto. }
      apply list_elem_of_split in Ho as (a & b & ->).
      pose proof (precedes_tc (depends exts) _ Hp x x Hx a b eq_refl) as Hxa.
      apply NoDup_app in Hnd as (_ & Hdis & _). apply (Hdis x Hxa). by left.
    + intros [-> Hac]. simpl. destruct tail as [|t tail]; [by rewrite Hnil|exfalso].
      destruct (walk_to_cycle (depends exts) (list_to_set (t :: tail))) with (x := t) as (c & _ & Hcc).
      * intros y. rewrite elem_of_list_to_set. intros (z & ? & ?)%Htail. exists z.
        by rewrite elem_of_list_to_set.
      * apply elem_of_list_to_set. by left.
      * by eapply Hac.
  - intros c. rewrite elem_of_app, elem_of_map. intros [Hk|(c' & [= ->] & Hin')].
    + exfalso. unfold checks in Hk. rewrite list_elem_of_In, in_flat_map in Hk.
      destruct Hk as (ext & _ & Hk). unfold check_extension in Hk. rewrite in_flat_map in Hk.
      destruct Hk as ([d req] & _ & Hk). repeat case_match; simpl in Hk; naive_solver.
    + rewrite Forall_forall in Hcy. by apply Hcy.
Qed.
End analysis.

(* ------------------------------------------------------------------ *)
(** ** Examples *)

Section witnesses.
#[local] Existing Instance json_text.
(** Versions are compared as text. *)
#[local] Instance text_semver : Semver := {|
  Version := string; VersionReq := string; version_parse := Some; version_req_parse := Some;
  req_matches r v := String.eqb r ("=" +:+ v) |}.
#[local] Instance keys_in_order : HashIter string := hash_iter_canonical string.
#[local] Instance counters_in_order : HashIter nat := hash_iter_canonical nat.

Definition extension (name version : string) (deps : list (string * string)) : LoadedExtension.t :=
  LoadedExtension.mk _
    (ExtensionManifest.mk _ name version None None None None None None None None
       (list_to_map deps) None None None None None)
    ("/extensions/" +:+ name) ExtensionSource.Local
    (ExtensionState.mk name version true None None).

Definition app_and_lib : list LoadedExtension.t :=
  [extension "app" "1.0.0" [("lib", "2.0.0")]; extension "lib" "2.0.0" []].

Lemma valid_iff_satisfied_and_acyclic_witness :
  ∃ r, validate_dependencies app_and_lib = Some r ∧
    DependencyValidationResult.load_order r = ["lib"; "app"] ∧
    satisfied app_and_lib ∧ (∀ x, ¬ tc (depends app_and_lib) x x).
Proof.
  destruct (valid_iff_satisfied_and_acyclic app_and_lib) as (r & Hr & Hv & _).
  { apply (bool_decide_unpack _). by vm_compute. }
  exists r. split; [done|].
  assert (Hr' : validate_dependencies app_and_lib =
    Some (DependencyValidationResult.mk true [] ["lib"; "app"])) by by vm_compute.
  rewrite Hr' in Hr. injection Hr as <-. split; [done|]. by apply Hv.
Defined.

(** An extension outside any cycle that depends on one is not placed after its
    dependencies: the left-over extensions are listed alphabetically, not only
    those in cycles. *)
Lemma dependent_of_cycle_is_misplaced :
  let exts := [extension "a" "1" [("b", "1")]; extension "b" "1" [("c", "1")];
               extension "c" "1" [("b", "1")]] in
  topological_sort exts = Some ["a"; "b"; "c"] ∧ depends exts "a" "b" ∧
  (∀ c, c ∈ ["a"; "b"; "c"] → ¬ depends exts c "a").
Proof.
  split; [by vm_compute|]. split.
  - exists (extension "a" "1" [("b", "1")]). split_and!; [by left|done| |].
    + by eexists.
    + apply elem_of_known. exists (extension "b" "1" [("c", "1")]). split; [|done]. right. by left.
  - intros c _ (ext & Hin & _ & [v Hv] & _).
    repeat (apply elem_of_cons in Hin as [->|Hin]; [by vm_compute in Hv|]).
    by apply not_elem_of_nil in Hin.
Qed.
End witnesses.
End Dependency.
