(* ===== verification/AuthLimits.v ===== *)
(** * AuthLimits: rate limits, QR login tokens and credential checks

    [chisl-auth/src/rate_limit.rs], [qr_token.rs], [validation.rs] and [error.rs].
    A [DashMap] with string keys is a [gmap]; the wall clock a method reads is its
    argument [now]; a method returns the new map with its result. *)

From S2P Require Import Prelude.
From S2P Require Import Text.
From S2P Require Import TeamTypes.

(** Unsigned arithmetic wraps. *)

Module AuthError.
(* chisl-auth/src/error.rs:7-28 AuthError *)
Inductive t :=
| InvalidCredentials | WeakPassword (m : string) | InvalidUsername (m : string)
| TokenExpired | TokenInvalid (m : string) | TokenBlacklisted | HashError (m : string).

(* chisl-auth/src/error.rs:30-42 From<AuthError> for AppError *)
Definition into_app_error (e : t) : AppError.t :=
  match e with
  | InvalidCredentials => AppError.Unauthorized "Invalid username or password"
  | WeakPassword msg => AppError.BadRequest msg
  | InvalidUsername msg => AppError.BadRequest msg
  | TokenExpired => AppError.Unauthorized "Token expired"
  | TokenInvalid msg => AppError.Unauthorized msg
  | TokenBlacklisted => AppError.Unauthorized "Token has been revoked"
  | HashError msg => AppError.Internal ("Password hash error: " +:+ msg)
  end.
End AuthError.

(* ------------------------------------------------------------------ *)
(** ** The fixed-window rate limiter *)

Module RateLimiter.
(** [count : u32], [reset_time_ms : u64]. *)
(* chisl-auth/src/rate_limit.rs:15-18 RateLimitEntry *)
Record entry := mk_entry { count : Z; reset_time_ms : Z }.
(** [window] in milliseconds. *)
(* chisl-auth/src/rate_limit.rs:23-27 RateLimiter *)
Record t := mk { entries : gmap string entry; max_requests : Z; window : Z }.

Definition set_entries (m : gmap string entry) (l : t) : t := mk m (max_requests l) (window l).

(* chisl-auth/src/rate_limit.rs:31-37 RateLimiter::new *)
Definition new (max_requests window : Z) : t := mk ∅ max_requests window.
(* chisl-auth/src/rate_limit.rs:40-42 RateLimiter::auth *)
Definition auth : t := new 5 (15 * 60 * 1000).
(* chisl-auth/src/rate_limit.rs:45-47 RateLimiter::api *)
Definition api : t := new 60 (60 * 1000).
(* chisl-auth/src/rate_limit.rs:50-52 RateLimiter::authenticated_action *)
Definition authenticated_action : t := new 20 (60 * 1000).

(* chisl-auth/src/rate_limit.rs:58-67 RateLimiter::check *)
Definition check (now : Z) (key : string) (l : t) : result unit AppError.t :=
  match entries l !! key with
  | Some e => if (now <? reset_time_ms e) && (max_requests l <=? count e)
              then Err AppError.RateLimited else Ok tt
  | None => Ok tt
  end.

(** [entry(key).or_insert(..)] followed by the reset of an expired window. *)
(* chisl-auth/src/rate_limit.rs:76-84 RateLimiter::check_and_increment (current entry) *)
Definition current_entry (now : Z) (key : string) (l : t) : entry :=
  let e := default (mk_entry 0 (w64 (now + window l))) (entries l !! key) in
  if reset_time_ms e <=? now then mk_entry 0 (w64 (now + window l)) else e.

(* chisl-auth/src/rate_limit.rs:72-92 RateLimiter::check_and_increment *)
Definition check_and_increment (now : Z) (key : string) (l : t) : t * result unit AppError.t :=
  let e := current_entry now key l in
  if max_requests l <=? count e
  then (set_entries (<[key := e]> (entries l)) l, Err AppError.RateLimited)
  else (set_entries (<[key := mk_entry (w32 (count e + 1)) (reset_time_ms e)]> (entries l)) l, Ok tt).

(* chisl-auth/src/rate_limit.rs:97-112 RateLimiter::record_attempt *)
Definition record_attempt (now : Z) (key : string) (l : t) : t :=
  let e := current_entry now key l in
  set_entries (<[key := mk_entry (w32 (count e + 1)) (reset_time_ms e)]> (entries l)) l.

(* chisl-auth/src/rate_limit.rs:115-118 RateLimiter::cleanup *)
Definition cleanup (now : Z) (l : t) : t :=
  set_entries (filter (λ kv, now < reset_time_ms (snd kv)) (entries l)) l.

(* chisl-auth/src/rate_limit.rs:133-135 RateLimiter::entry_count *)
Definition entry_count (l : t) : nat := size (entries l).

(** The response of [next] is its success flag; [now'] is the clock after it ran. *)
(* chisl-auth/src/rate_limit.rs:149-164 auth_rate_limit_middleware *)
Definition auth_rate_limit_middleware (ip : string) (now now' : Z) (next : bool) (l : t) :
    t * result bool AppError.t :=
  match check now ip l with
  | Err e => (l, Err e)
  | Ok _ => (if negb next then record_attempt now' ip l else l, Ok next)
  end.
(* chisl-auth/src/rate_limit.rs:167-175 api_rate_limit_middleware *)
Definition api_rate_limit_middleware (ip : string) (now : Z) (next : bool) (l : t) :
    t * result bool AppError.t :=
  let '(l', r) := check_and_increment now ip l in (l', res_map (λ _, next) r).
(** [user] is the id of the [CurrentUser] extension. *)
(* chisl-auth/src/rate_limit.rs:181-193 authenticated_action_rate_limit_middleware *)
Definition authenticated_action_rate_limit_middleware (user : option string) (ip : string) (now : Z)
    (next : bool) (l : t) : t * result bool AppError.t :=
  let key := match user with Some u => "user:" +:+ u | None => "ip:" +:+ ip end in
  let '(l', r) := check_and_increment now key l in (l', res_map (λ _, next) r).

(** Calls of [check_and_increment], with the result of each. *)
Fixpoint run (calls : list (Z * string)) (l : t) : t * list (string * result unit AppError.t) :=
  match calls with
  | [] => (l, [])
  | (now, key) :: calls' =>
      let '(l1, r) := check_and_increment now key l in
      let '(l2, rs) := run calls' l1 in (l2, (key, r) :: rs)
  end.

Definition results_of (key : string) (rs : list (string * result unit AppError.t)) :
    list (result unit AppError.t) :=
  map snd (List.filter (λ kr, String.eqb (fst kr) key) rs).

(** What [n] calls in one window yield when [k] requests were already counted. *)
Definition quota_results (max k : Z) (n : nat) : list (result unit AppError.t) :=
  replicate (Z.to_nat (max - k) `min` n) (Ok tt) ++
  replicate (n - Z.to_nat (max - k)) (Err AppError.RateLimited).

Lemma quota_results_ok max k n : k < max →
  quota_results max k (S n) = Ok tt :: quota_results max (k + 1) n.
Proof.
  intros Hk. unfold quota_results. replace (Z.to_nat (max - k)) with (S (Z.to_nat (max - (k + 1)))) by lia.
  done.
Qed.
Lemma quota_results_err max k n : max ≤ k →
  quota_results max k (S n) = Err AppError.RateLimited :: quota_results max k n.
Proof.
  intros Hk. unfold quota_results. replace (Z.to_nat (max - k)) with 0%nat by lia. simpl.
  by rewrite Nat.sub_0_r.
Qed.

Lemma run_other now key key' l :
  key' ≠ key → entries (fst (check_and_increment now key' l)) !! key = entries l !! key.
Proof.
  intros Hne. unfold check_and_increment. case_match; simpl; by rewrite lookup_insert_ne.
Qed.

Lemma run_settings now key l :
  max_requests (fst (check_and_increment now key l)) = max_requests l ∧
  window (fst (check_and_increment now key l)) = window l.
Proof. unfold check_and_increment. by case_match. Qed.

Lemma run_open_window calls key l k reset :
  entries l !! key = Some (mk_entry k reset) → 0 ≤ k ≤ max_requests l → max_requests l < 2 ^ 32 →
  Forall (λ c, fst c < reset) calls →
  results_of key (snd (run calls l)) = quota_results (max_requests l) k
    (length (List.filter (λ c, String.eqb (snd c) key) calls)).
Proof.
  intros He Hk Hmax Hc. revert l k He Hk Hmax. induction Hc as [|[now key'] calls Hnow Hc IH];
    intros l k He Hk Hmax; [simpl; unfold quota_results; by rewrite Nat.min_0_r|].
  simpl in Hnow. simpl run. destruct (check_and_increment now key' l) as [l1 r] eqn:Hr.
  destruct (run calls l1) as [l2 rs] eqn:Hrun. unfold results_of. simpl.
  destruct (run_settings now key' l) as [Hm Hw]. rewrite Hr in Hm, Hw. simpl in Hm, Hw.
  destruct (String.eqb_spec key' key) as [->|Hne]; simpl.
  - unfold check_and_increment, current_entry in Hr. rewrite He in Hr. simpl in Hr.
    rewrite (proj2 (Z.leb_gt reset now)) in Hr by lia. simpl in Hr.
    destruct (Z.leb_spec (max_requests l) k); simplify_eq/=.
    + rewrite quota_results_err by lia. f_equal. specialize (IH (set_entries (<[key:=mk_entry k reset]> (entries l)) l) k).
      rewrite Hrun in IH. apply IH; [simpl; apply lookup_insert_eq|done|done].
    + rewrite quota_results_ok by lia. f_equal.
      specialize (IH (set_entries (<[key:=mk_entry (w32 (k + 1)) reset]> (entries l)) l) (k + 1)).
      rewrite Hrun in IH. apply IH; simpl; [|lia|done]. rewrite lookup_insert_eq. unfold w32.
      by rewrite Z.mod_small by lia.
  - specialize (IH l1 k). rewrite Hrun in IH. rewrite <- Hm. apply IH; [|lia|lia].
    rewrite <- He, <- (run_other now key key' l Hne). by rewrite Hr.
Qed.

(** C38: from the first request of a window on, however requests under other keys
    are interleaved, exactly the first [max_requests] requests under a key are
    admitted until the window ends, and all the others are refused. *)
Theorem window_admits_exactly_max l key t0 calls :
  0 < max_requests l < 2 ^ 32 → 0 ≤ t0 → 0 ≤ window l → t0 + window l < 2 ^ 64 →
  (∀ e, entries l !! key = Some e → reset_time_ms e ≤ t0) →
  Forall (λ c, fst c < t0 + window l) calls →
  results_of key (snd (run ((t0, key) :: calls) l)) = quota_results (max_requests l) 0
    (S (length (List.filter (λ c, String.eqb (snd c) key) calls))).
Proof.
  intros Hmax Ht0 Hw Hov Hexp Hc. simpl run.
  assert (Hcur : current_entry t0 key l = mk_entry 0 (t0 + window l)).
  { unfold current_entry, w64. rewrite Z.mod_small by lia.
    destruct (entries l !! key) as [e|] eqn:He; simpl.
    - rewrite (proj2 (Z.leb_le _ _) (Hexp e eq_refl)). done.
    - case_match; done. }
  unfold check_and_increment. rewrite Hcur. simpl.
  rewrite (proj2 (Z.leb_gt (max_requests l) 0)) by lia. simpl.
  set (l1 := set_entries _ _). destruct (run calls l1) as [l2 rs] eqn:Hrun.
  unfold results_of. simpl. rewrite String.eqb_refl. simpl. rewrite quota_results_ok by lia. f_equal.
  pose proof (run_open_window calls key l1 1 (t0 + window l)) as H. rewrite Hrun in H.
  apply H; simpl; [apply lookup_insert_eq|lia|lia|done].
Qed.

(** Cleaning up at any time changes no later answer: for every later clock and
    key, [check] answers the same and [check_and_increment] and [record_attempt]
    give the same answer and the same counter as without the cleanup. *)
Lemma cleanup_is_invisible l now now' key :
  now ≤ now' →
  check now' key (cleanup now l) = check now' key l ∧
  snd (check_and_increment now' key (cleanup now l)) = snd (check_and_increment now' key l) ∧
  entries (fst (check_and_increment now' key (cleanup now l))) !! key =
    entries (fst (check_and_increment now' key l)) !! key ∧
  entries (record_attempt now' key (cleanup now l)) !! key =
    entries (record_attempt now' key l) !! key.
Proof.
  intros Hle.
  assert (Hlook : entries (cleanup now l) !! key = entries l !! key ∨
    (entries (cleanup now l) !! key = None ∧ ∃ e, entries l !! key = Some e ∧ reset_time_ms e ≤ now)).
  { simpl. destruct (entries l !! key) as [e|] eqn:He.
    - destruct (decide (now < reset_time_ms e)).
      + left. by apply map_lookup_filter_Some.
      + right. split; [|exists e; split; [done|lia]]. apply map_lookup_filter_None. right.
        intros e' He'. by simplify_eq.
    - left. apply map_lookup_filter_None. by left. }
  assert (Hcur : current_entry now' key (cleanup now l) = current_entry now' key l).
  { unfold current_entry. change (window (cleanup now l)) with (window l).
    destruct Hlook as [->|(-> & e & -> & He)]; [done|]. simpl.
    rewrite (proj2 (Z.leb_le (reset_time_ms e) now')) by lia. by case_match. }
  split_and!.
  - unfold check. change (max_requests (cleanup now l)) with (max_requests l).
    destruct Hlook as [->|(-> & e & -> & He)]; [done|].
    by rewrite (proj2 (Z.ltb_ge now' (reset_time_ms e))) by lia.
  - unfold check_and_increment. rewrite Hcur. change (max_requests (cleanup now l)) with (max_requests l).
    by case_match.
  - unfold check_and_increment. rewrite Hcur. change (max_requests (cleanup now l)) with (max_requests l).
    case_match; simpl; by rewrite !lookup_insert_eq.
  - unfold record_attempt. rewrite Hcur. simpl. by rewrite !lookup_insert_eq.
Qed.

Lemma window_admits_exactly_max_witness :
  results_of "ip" (snd (run [(0, "ip"); (1, "other"); (2, "ip"); (9, "ip")] (new 2 10))) =
    [Ok tt; Ok tt; Err AppError.RateLimited].
Proof.
  rewrite (window_admits_exactly_max (new 2 10) "ip" 0 [(1, "other"); (2, "ip"); (9, "ip")]);
    [by vm_compute|simpl; lia|simpl; lia|simpl; lia|simpl; lia| |].
  - intros e He. discriminate He.
  - repeat constructor; simpl; lia.
Defined.

Lemma cleanup_is_invisible_witness :
  check 20 "ip" (cleanup 15 (record_attempt 0 "ip" (new 1 10))) = Ok tt.
Proof.
  rewrite (proj1 (cleanup_is_invisible (record_attempt 0 "ip" (new 1 10)) 15 20 "ip" ltac:(lia))).
  by vm_compute.
Defined.
End RateLimiter.

(* ------------------------------------------------------------------ *)
(** ** QR login tokens *)

(** Signed 64-bit [saturating_sub]. *)
Definition i64_saturating_sub (a b : Z) : Z := Z.max (- 2 ^ 63) (Z.min (2 ^ 63 - 1) (a - b)).

Module QrTokenStore.
(* chisl-auth/src/qr_token.rs:10-10 QR_TOKEN_TTL_MS *)
Definition QR_TOKEN_TTL_MS : Z := 5 * 60 * 1000.
(* chisl-auth/src/qr_token.rs:16-19 QrTokenData *)
Record data := mk_data { created_at_ms : Z; used : bool }.
(* chisl-auth/src/qr_token.rs:25-27 QrTokenStore *)
Record t := mk { tokens : gmap string data }.
(* chisl-auth/src/qr_token.rs:36-38 QrTokenStore::new *)
Definition new : t := mk ∅.

(** [buf] are the random bytes. *)
(* chisl-auth/src/qr_token.rs:51-70 QrTokenStore::generate_with_expiry *)
Definition generate_with_expiry (buf : list Z) (now : Z) (s : t) : t * (string * Z) :=
  let token := hex_bytes buf in
  (mk (<[token := mk_data now false]> (tokens s)), (token, i64_wrap (now + QR_TOKEN_TTL_MS))).
(* chisl-auth/src/qr_token.rs:43-45 QrTokenStore::generate *)
Definition generate (buf : list Z) (now : Z) (s : t) : t * string :=
  let '(s', (token, _)) := generate_with_expiry buf now s in (s', token).

Definition expired (now : Z) (d : data) : Prop :=
  QR_TOKEN_TTL_MS < i64_saturating_sub now (created_at_ms d).

(* chisl-auth/src/qr_token.rs:75-93 QrTokenStore::validate_and_consume *)
Definition validate_and_consume (token : string) (now : Z) (s : t) : t * result unit AppError.t :=
  match tokens s !! token with
  | None => (s, Err (AppError.Unauthorized "Invalid QR token"))
  | Some d =>
      if used d then (s, Err (AppError.Unauthorized "QR token already used"))
      else if QR_TOKEN_TTL_MS <? i64_saturating_sub now (created_at_ms d)
      then (s, Err (AppError.Unauthorized "QR token expired"))
      else (mk (<[token := mk_data (created_at_ms d) true]> (tokens s)), Ok tt)
  end.

(* chisl-auth/src/qr_token.rs:96-100 QrTokenStore::cleanup *)
Definition cleanup (now : Z) (s : t) : t :=
  mk (filter (λ kv, i64_saturating_sub now (created_at_ms (snd kv)) ≤ QR_TOKEN_TTL_MS) (tokens s)).
(* chisl-auth/src/qr_token.rs:115-117 QrTokenStore::token_count *)
Definition token_count (s : t) : nat := size (tokens s).

(** The calls that change a store. *)
Inductive operation := Generate (buf : list Z) (now : Z) | Validate (token : string) (now : Z)
| Cleanup (now : Z).
Definition step (s : t) (op : operation) : t :=
  match op with
  | Generate buf now => fst (generate buf now s)
  | Validate token now => fst (validate_and_consume token now s)
  | Cleanup now => cleanup now s
  end.

(** [op] does not create [token]. *)
Definition not_generating (token : string) (op : operation) : Prop :=
  match op with Generate buf _ => hex_bytes buf ≠ token | _ => True end.

Lemma spent_step token s op :
  not_generating token op → (∀ d, tokens s !! token = Some d → used d = true) →
  ∀ d, tokens (step s op) !! token = Some d → used d = true.
Proof.
  intros Hop Hs d. destruct op as [buf now|token' now|now]; simpl.
  - rewrite lookup_insert_ne by done. apply Hs.
  - unfold validate_and_consume. destruct (tokens s !! token') as [d'|] eqn:Hd'; [|apply Hs].
    destruct (used d'); [apply Hs|]. case_match; [apply Hs|]. simpl.
    destruct (decide (token' = token)) as [->|Hne].
    + rewrite lookup_insert_eq. by intros [= <-].
    + rewrite lookup_insert_ne by done. apply Hs.
  - intros [Hd _]%map_lookup_filter_Some. by apply Hs.
Qed.

(** A QR token logs in at most once: once validated, every later validation
    fails, whatever is generated, validated or cleaned up in between, unless the
    same token is generated again. *)
Lemma qr_token_single_use s token now ops now' :
  snd (validate_and_consume token now s) = Ok tt →
  Forall (not_generating token) ops →
  is_ok (snd (validate_and_consume token now'
    (fold_left step ops (fst (validate_and_consume token now s))))) = false.
Proof.
  intros Hok Hops. set (s1 := fst (validate_and_consume token now s)).
  assert (Hs : ∀ d, tokens s1 !! token = Some d → used d = true).
  { unfold s1. unfold validate_and_consume in *. destruct (tokens s !! token) as [d'|]; [|done].
    destruct (used d'); [done|]. case_match; [done|]. simpl. rewrite lookup_insert_eq. by intros d [= <-]. }
  clearbody s1. clear Hok. revert s1 Hs. induction Hops as [|op ops Hop _ IH]; intros s1 Hs; simpl.
  - unfold validate_and_consume. destruct (tokens s1 !! token) as [d|] eqn:Hd; [|done]. by rewrite (Hs d eq_refl).
  - apply IH. by apply spent_step.
Qed.

(** [op] neither creates nor spends [token], and cleans up no later than [limit]. *)
Definition unrelated (token : string) (limit : Z) (op : operation) : Prop :=
  match op with
  | Generate buf _ => hex_bytes buf ≠ token
  | Validate token' _ => token' ≠ token
  | Cleanup now => now ≤ limit
  end.

(** A token generated at [created] is accepted at [now] exactly when at most
    [QR_TOKEN_TTL_MS] elapsed, whatever happened to other tokens and whichever
    cleanups ran before [now]. *)
Lemma qr_token_lifetime s buf created ops now :
  - 2 ^ 62 ≤ created ≤ now → now < 2 ^ 62 →
  Forall (unrelated (hex_bytes buf) now) ops →
  is_ok (snd (validate_and_consume (hex_bytes buf) now
    (fold_left step ops (fst (generate buf created s))))) = true ↔
  now - created ≤ QR_TOKEN_TTL_MS.
Proof.
  intros Hb Hn Hops. set (token := hex_bytes buf) in *. set (s1 := fst (generate buf created s)).
  assert (Hsub : ∀ now', now' ≤ now → i64_saturating_sub now' created ≤ now - created).
  { intros. unfold i64_saturating_sub. lia. }
  assert (Hsub' : i64_saturating_sub now created = now - created) by (unfold i64_saturating_sub; lia).
  assert (Hs : tokens s1 !! token = Some (mk_data created false) ∨
    (tokens s1 !! token = None ∧ QR_TOKEN_TTL_MS < now - created)).
  { left. simpl. apply lookup_insert_eq. }
  clearbody s1. revert s1 Hs. induction Hops as [|op ops Hop _ IH]; intros s1 Hs; simpl.
  - unfold validate_and_consume. destruct Hs as [->|[-> Hexp]]; simpl; [|split; [done|lia]].
    rewrite Hsub'. destruct (Z.ltb_spec QR_TOKEN_TTL_MS (now - created)); simpl; split; (done || lia).
  - apply IH. destruct op as [buf' now'|token' now'|now']; simpl in *.
    + by rewrite lookup_insert_ne.
    + unfold validate_and_consume. destruct (tokens s1 !! token') as [d'|] eqn:Hd'; [|done].
      destruct (used d'); [done|]. case_match; [done|]. simpl. by rewrite lookup_insert_ne.
    + unfold cleanup. destruct Hs as [Hs|[Hs Hexp]].
      * destruct (decide (i64_saturating_sub now' created ≤ QR_TOKEN_TTL_MS)) as [Hle|Hgt].
        -- left. by apply map_lookup_filter_Some.
        -- right. split; [|specialize (Hsub now' Hop); lia]. apply map_lookup_filter_None. right.
           intros d Hd. by simplify_eq.
      * right. split; [|done]. apply map_lookup_filter_None. by left.
Qed.

Lemma qr_token_single_use_witness :
  is_ok (snd (validate_and_consume "0a" 9 (fold_left step [Cleanup 5]
    (fst (validate_and_consume "0a" 3 (fst (generate [10] 1 new))))))) = false.
Proof.
  apply qr_token_single_use; [by vm_compute|by repeat constructor].
Defined.

Lemma qr_token_lifetime_witness :
  is_ok (snd (validate_and_consume "0a" 300001
    (fold_left step [Cleanup 5; Generate [11] 7] (fst (generate [10] 1 new))))) = true.
Proof.
  apply (qr_token_lifetime new [10] 1 [Cleanup 5; Generate [11] 7] 300001); [lia|lia| |].
  - by repeat constructor.
  - unfold QR_TOKEN_TTL_MS. lia.
Defined.
End QrTokenStore.

(* ------------------------------------------------------------------ *)
(** ** Credential checks *)

Module Validation.
(* chisl-auth/src/validation.rs:3-9 MIN_PASSWORD_LENGTH .. WEAK_PASSWORDS *)
Definition WEAK_PASSWORDS : list string := ["password"; "12345678"; "123456789"; "qwertyui"; "abcdefgh"].

(* chisl-auth/src/validation.rs:16-32 validate_password *)
Definition validate_password `{Unicode} (password : string) : result unit AuthError.t :=
  if (str_len password <? 8)%nat
  then Err (AuthError.WeakPassword "Password must be at least 8 characters")
  else if (128 <? str_len password)%nat
  then Err (AuthError.WeakPassword "Password must not exceed 128 characters")
  else
    let lower := to_lowercase password in
    if bool_decide (lower ∈ WEAK_PASSWORDS)
    then Err (AuthError.WeakPassword "Password is too common") else Ok tt.

Definition is_ascii_alphanumeric (b : Z) : bool :=
  ((48 <=? b) && (b <=? 57)) || ((65 <=? b) && (b <=? 90)) || ((97 <=? b) && (b <=? 122)).
(** ["_"] and ["-"]. *)
Definition is_mark (b : Z) : bool := (b =? 95) || (b =? 45).

(* chisl-auth/src/validation.rs:40-68 validate_username *)
Definition validate_username (username : string) : result unit AuthError.t :=
  if (str_len username <? 3)%nat
  then Err (AuthError.InvalidUsername "Username must be at least 3 characters")
  else if (32 <? str_len username)%nat
  then Err (AuthError.InvalidUsername "Username must not exceed 32 characters")
  else if negb (forallb (λ b, is_ascii_alphanumeric b || is_mark b) (bytes username))
  then Err (AuthError.InvalidUsername
         "Username may only contain letters, digits, underscores, and hyphens")
  else if existsb is_mark (option_list (head (bytes username)) ++ option_list (last (bytes username)))
  then Err (AuthError.InvalidUsername "Username must not start or end with a hyphen or underscore")
  else Ok tt.
End Validation.
