(* ===== verification/AuthJwt.v ===== *)
(** * AuthJwt: session tokens and their revocation

    [chisl-auth/src/jwt.rs]: signing, verifying, blacklisting and rotating.  The
    [jsonwebtoken], [sha2] and [base64] crates are the operations of [JwtCrate];
    its law is their documented behaviour on a token they signed: issuer and
    audience are compared, and a token is expired [leeway] seconds after its [exp].
    The [RwLock] of the secret is never poisoned, as no code panics holding it. *)

From S2P Require Import Prelude.
From S2P Require Import Text.
From S2P Require Import TeamTypes.
From S2P Require Import AuthLimits.

Module TokenPayload.
(** [iat] and [exp] are [u64] seconds. *)
(* chisl-auth/src/jwt.rs:24-37 TokenPayload *)
Record t := mk { user_id : string; username : string; iat : Z; exp : Z; iss : string; aud : string }.
#[global] Instance t_eq_dec : EqDecision t.
Proof. solve_decision. Defined.
End TokenPayload.

Inductive decode_error := ExpiredSignature | OtherError (m : string).

(** The leeway of [jsonwebtoken::Validation::default()], in seconds. *)
Definition leeway : Z := 60.

Class JwtCrate := {
  encode : string → TokenPayload.t → result string string;
  (** [decode validate_exp issuer audience now secret token]. *)
  decode : bool → string → string → Z → string → string → result TokenPayload.t decode_error;
  sha256 : list Z → list Z;
  base64_encode : list Z → string;
  decode_encode : ∀ validate_exp issuer audience now secret c token,
    encode secret c = Ok token → TokenPayload.iss c = issuer → TokenPayload.aud c = audience →
    leeway ≤ now →
    decode validate_exp issuer audience now secret token =
      if validate_exp && (TokenPayload.exp c <? now - leeway) then Err ExpiredSignature else Ok c;
}.

Module JwtService.
(* chisl-auth/src/jwt.rs:14-14 TOKEN_EXPIRY *)
Definition TOKEN_EXPIRY : Z := 24 * 60 * 60.
(* chisl-auth/src/jwt.rs:17-17 JWT_ISSUER *)
Definition JWT_ISSUER : string := "aionui".
(* chisl-auth/src/jwt.rs:20-20 JWT_AUDIENCE *)
Definition JWT_AUDIENCE : string := "aionui-webui".

(* chisl-auth/src/jwt.rs:42-47 JwtService *)
Record t := mk { secret : string; blacklist : gmap string Z }.
(* chisl-auth/src/jwt.rs:53-58 JwtService::new *)
Definition new (secret : string) : t := mk secret ∅.

(** The system clock: seconds since the epoch, or the error of a clock before it. *)
Definition clock : Type := result Z string.

(* chisl-auth/src/jwt.rs:189-194 now_secs *)
Definition now_secs (c : clock) : result Z AuthError.t :=
  res_map_err (λ e, AuthError.TokenInvalid ("System clock error: " +:+ e)) c.
(** [now_secs().unwrap_or(0)]. *)
Definition now_or_zero (c : clock) : Z := match now_secs c with Ok n => n | Err _ => 0 end.

Section ops.
Context {JC : JwtCrate}.

(* chisl-auth/src/jwt.rs:197-206 token_hash *)
Definition token_hash (token : string) : string := hex_bytes (sha256 (bytes token)).

(** The claims [sign] builds. *)
(* chisl-auth/src/jwt.rs:62-72 JwtService::sign (claims) *)
Definition claims (now : Z) (user_id username : string) : TokenPayload.t :=
  TokenPayload.mk user_id username now (w64 (now + TOKEN_EXPIRY)) JWT_ISSUER JWT_AUDIENCE.

(* chisl-auth/src/jwt.rs:61-85 JwtService::sign *)
Definition sign (c : clock) (user_id username : string) (s : t) : result string AuthError.t :=
  let? now := now_secs c in
  res_map_err (λ e, AuthError.TokenInvalid ("JWT encoding failed: " +:+ e))
    (encode (secret s) (claims now user_id username)).

(** [now] is the clock [decode] reads. *)
(* chisl-auth/src/jwt.rs:90-112 JwtService::verify *)
Definition verify (now : Z) (token : string) (s : t) : result TokenPayload.t AuthError.t :=
  if bool_decide (is_Some (blacklist s !! token_hash token)) then Err AuthError.TokenBlacklisted
  else
    res_map_err (λ e, match e with
      | ExpiredSignature => AuthError.TokenExpired
      | OtherError m => AuthError.TokenInvalid ("JWT verification failed: " +:+ m)
      end) (decode true JWT_ISSUER JWT_AUDIENCE now (secret s) token).

(* chisl-auth/src/jwt.rs:153-163 JwtService::extract_expiry *)
Definition extract_expiry (now : Z) (token : string) (s : t) : option Z :=
  TokenPayload.exp <$> res_ok (decode false JWT_ISSUER JWT_AUDIENCE now (secret s) token).

(* chisl-auth/src/jwt.rs:117-123 JwtService::blacklist_token *)
Definition blacklist_token (c : clock) (now : Z) (token : string) (s : t) : t :=
  let hash := token_hash token in
  let exp := match extract_expiry now token s with
             | Some e => e
             | None => w64 (now_or_zero c + TOKEN_EXPIRY)
             end in
  mk (secret s) (<[hash := exp]> (blacklist s)).

(** [buf] are the random bytes. *)
(* chisl-auth/src/jwt.rs:181-186 generate_random_secret_string *)
Definition generate_random_secret_string (buf : list Z) : string := base64_encode buf.

(* chisl-auth/src/jwt.rs:128-139 JwtService::rotate_secret *)
Definition rotate_secret (buf : list Z) (s : t) : t * string :=
  let new_secret := generate_random_secret_string buf in (mk new_secret ∅, new_secret).

(* chisl-auth/src/jwt.rs:142-145 JwtService::cleanup_blacklist *)
Definition cleanup_blacklist (c : clock) (s : t) : t :=
  mk (secret s) (filter (λ kv, now_or_zero c < snd kv) (blacklist s)).

(* chisl-auth/src/jwt.rs:148-150 JwtService::blacklist_size *)
Definition blacklist_size (s : t) : nat := size (blacklist s).

(* chisl-auth/src/jwt.rs:170-178 resolve_jwt_secret *)
Definition resolve_jwt_secret (env_secret db_secret : option string) (buf : list Z) : string * bool :=
  match env_secret with
  | Some s => (s, false)
  | None => match db_secret with
            | Some s => (s, false)
            | None => (generate_random_secret_string buf, true)
            end
  end.
End ops.

Section facts.
Context {JC : JwtCrate}.

(** A token signed at [t0], before the counters wrap. *)
Definition signed (t0 : Z) (user name token : string) (s : t) : Prop :=
  leeway ≤ t0 ∧ t0 + TOKEN_EXPIRY < 2 ^ 64 ∧ sign (Ok t0) user name s = Ok token.

Lemma signed_claims t0 user name token s :
  signed t0 user name token s →
  encode (secret s) (claims t0 user name) = Ok token ∧
  TokenPayload.exp (claims t0 user name) = t0 + TOKEN_EXPIRY.
Proof.
  intros (Hl & Hov & Hs). unfold sign in Hs. simpl in Hs. split.
  - destruct (encode _ _); simpl in Hs; congruence.
  - simpl. unfold w64. apply Z.mod_small. unfold leeway, TOKEN_EXPIRY in *. lia.
Qed.

Lemma verify_not_blacklisted t0 user name token s s' now :
  signed t0 user name token s → secret s' = secret s → leeway ≤ now →
  blacklist s' !! token_hash token = None →
  verify now token s' =
    if t0 + TOKEN_EXPIRY <? now - leeway then Err AuthError.TokenExpired
    else Ok (claims t0 user name).
Proof.
  intros Hs Hsec Hnow Hb. destruct (signed_claims _ _ _ _ _ Hs) as [He Hexp].
  unfold verify. rewrite Hb, bool_decide_eq_false_2 by by intros [].
  rewrite Hsec, (decode_encode true JWT_ISSUER JWT_AUDIENCE now _ _ _ He) by done.
  rewrite Hexp. cbn [andb]. by destruct (t0 + TOKEN_EXPIRY <? now - leeway).
Qed.

(** A token signed for a user verifies, to that user's claims, until its expiry
    plus the leeway, and is then refused as expired; once revoked it is refused. *)
Lemma sign_verify_revoke t0 user name token s now c :
  signed t0 user name token s → blacklist s !! token_hash token = None → leeway ≤ now →
  verify now token s = (if t0 + TOKEN_EXPIRY + leeway <? now then Err AuthError.TokenExpired
                        else Ok (claims t0 user name)) ∧
  verify now token (blacklist_token c now token s) = Err AuthError.TokenBlacklisted.
Proof.
  intros Hs Hb Hnow. split.
  - rewrite (verify_not_blacklisted t0 user name token s s now Hs eq_refl Hnow Hb).
    destruct (Z.ltb_spec (t0 + TOKEN_EXPIRY) (now - leeway)),
      (Z.ltb_spec (t0 + TOKEN_EXPIRY + leeway) now); done || lia.
  - unfold verify, blacklist_token. simpl. rewrite lookup_insert_eq.
    by rewrite bool_decide_eq_true_2.
Qed.

Lemma revoked_expiry t0 user name token s c now :
  signed t0 user name token s → leeway ≤ now →
  blacklist (blacklist_token c now token s) !! token_hash token = Some (t0 + TOKEN_EXPIRY).
Proof.
  intros Hs Hnow. destruct (signed_claims _ _ _ _ _ Hs) as [He Hexp].
  unfold blacklist_token, extract_expiry. simpl. rewrite lookup_insert_eq.
  by rewrite (decode_encode false JWT_ISSUER JWT_AUDIENCE now _ _ _ He), <- Hexp by done.
Qed.

(** The state after revoking a token, then any cleanups at the given times. *)
Definition after_cleanups (times : list Z) (s : t) : t :=
  fold_left (λ s tm, cleanup_blacklist (Ok tm) s) times s.

Lemma after_cleanups_lookup times s hash e :
  blacklist s !! hash = Some e →
  secret (after_cleanups times s) = secret s ∧
  blacklist (after_cleanups times s) !! hash =
    if decide (Forall (λ tm, tm < e) times) then Some e else None.
Proof.
  assert (∀ times s, blacklist s !! hash = None →
    secret (after_cleanups times s) = secret s ∧ blacklist (after_cleanups times s) !! hash = None) as Hnone.
  { clear. intros times. induction times as [|tm times IH]; intros s Hs; [done|]. simpl.
    destruct (IH (cleanup_blacklist (Ok tm) s)) as [H1 H2]; [|done].
    simpl. apply map_lookup_filter_None. by left. }
  revert s. induction times as [|tm times IH]; intros s He; [done|]. simpl.
  destruct (decide (tm < e)) as [Hlt|Hge].
  - destruct (IH (cleanup_blacklist (Ok tm) s)) as [H1 H2].
    { simpl. by apply map_lookup_filter_Some. }
    split; [done|]. rewrite H2. apply decide_ext. rewrite Forall_cons. tauto.
  - destruct (Hnone times (cleanup_blacklist (Ok tm) s)) as [H1 H2].
    { simpl. apply map_lookup_filter_None. right. intros e' He'. unfold now_or_zero. simpl.
      rewrite He in He'. injection He' as <-. exact Hge. }
    split; [done|]. rewrite H2, decide_False; [done|]. rewrite Forall_cons. tauto.
Qed.

(** A revoked token stays refused through cleanups before its expiry; but a
    cleanup at or after its expiry forgets the revocation while the token is still
    within the verification leeway, and then it is accepted again. *)
Lemma revocation_lost_in_leeway t0 user name token s c now times now' :
  signed t0 user name token s → leeway ≤ now → leeway ≤ now' →
  verify now' token (after_cleanups times (blacklist_token c now token s)) =
    if decide (Forall (λ tm, tm < t0 + TOKEN_EXPIRY) times) then Err AuthError.TokenBlacklisted
    else if t0 + TOKEN_EXPIRY <? now' - leeway then Err AuthError.TokenExpired
    else Ok (claims t0 user name).
Proof.
  intros Hs Hnow Hnow'.
  destruct (after_cleanups_lookup times _ _ _ (revoked_expiry t0 user name token s c now Hs Hnow))
    as [Hsec Hl].
  destruct (decide _) as [Hf|Hf].
  - unfold verify. by rewrite Hl, bool_decide_eq_true_2.
  - by apply (verify_not_blacklisted t0 user name token s).
Qed.
End facts.

(* ------------------------------------------------------------------ *)
(** ** A concrete token format, for examples *)

(** A token is the secret and the claims as one number, in binary. *)
Fixpoint put_bits (p : positive) : string :=
  match p with
  | xH => EmptyString
  | xO p => String (of_byte 48) (put_bits p)
  | xI p => String (of_byte 49) (put_bits p)
  end.
Fixpoint get_bits (s : string) : positive :=
  match s with
  | EmptyString => xH
  | String a s' => if Ascii.eqb a (of_byte 48) then xO (get_bits s') else xI (get_bits s')
  end.
Lemma get_put_bits p : get_bits (put_bits p) = p.
Proof.
  induction p as [p IH|p IH|]; [| |done]; cbn [put_bits get_bits]; rewrite IH; reflexivity.
Qed.

Definition claims_tuple (c : TokenPayload.t) : string * string * Z * Z * string * string :=
  (TokenPayload.user_id c, TokenPayload.username c, TokenPayload.iat c, TokenPayload.exp c,
   TokenPayload.iss c, TokenPayload.aud c).
Definition tuple_claims (x : string * string * Z * Z * string * string) : TokenPayload.t :=
  let '(u, n, i, e, s, a) := x in TokenPayload.mk u n i e s a.

Definition plain_encode (secret : string) (c : TokenPayload.t) : result string string :=
  Ok (put_bits (countable.encode (secret, claims_tuple c))).
Definition plain_decode (validate_exp : bool) (issuer audience : string) (now : Z)
    (secret token : string) : result TokenPayload.t decode_error :=
  match countable.decode (get_bits token) with
  | Some (secret', x) =>
      let c := tuple_claims x in
      if negb (String.eqb secret' secret) then Err (OtherError "InvalidSignature")
      else if validate_exp && (TokenPayload.exp c <? now - leeway) then Err ExpiredSignature
      else if negb (String.eqb (TokenPayload.iss c) issuer) then Err (OtherError "InvalidIssuer")
      else if negb (String.eqb (TokenPayload.aud c) audience) then Err (OtherError "InvalidAudience")
      else Ok c
  | None => Err (OtherError "InvalidToken")
  end.

#[export] Instance plain_jwt : JwtCrate.
Proof.
  refine {| encode := plain_encode; decode := plain_decode; sha256 := λ l, l;
            base64_encode := hex_bytes |}.
  intros validate_exp issuer audience now secret c token [= <-] <- <- _.
  unfold plain_decode. rewrite get_put_bits, countable.decode_encode.
  assert (tuple_claims (claims_tuple c) = c) as -> by by destruct c.
  by rewrite !String.eqb_refl; destruct (validate_exp && _).
Defined.

Definition demo_token : string := put_bits (countable.encode ("s", claims_tuple (claims 1000 "u1" "ann"))).

Lemma demo_signed : signed 1000 "u1" "ann" demo_token (new "s").
Proof. split_and!; [unfold leeway; lia|unfold TOKEN_EXPIRY; lia|done]. Qed.

Lemma sign_verify_revoke_witness :
  verify 87460 demo_token (new "s") = Ok (claims 1000 "u1" "ann") ∧
  verify 87461 demo_token (new "s") = Err AuthError.TokenExpired.
Proof.
  split.
  - destruct (sign_verify_revoke 1000 "u1" "ann" demo_token (new "s") 87460 (Ok 87460))
      as [-> _]; [exact demo_signed|done|unfold leeway; lia|done].
  - destruct (sign_verify_revoke 1000 "u1" "ann" demo_token (new "s") 87461 (Ok 87461))
      as [-> _]; [exact demo_signed|done|unfold leeway; lia|done].
Defined.

Lemma revocation_lost_in_leeway_witness :
  verify 87410 demo_token (after_cleanups [87000] (blacklist_token (Ok 2000) 2000 demo_token (new "s"))) =
    Err AuthError.TokenBlacklisted ∧
  verify 87410 demo_token (after_cleanups [87400] (blacklist_token (Ok 2000) 2000 demo_token (new "s"))) =
    Ok (claims 1000 "u1" "ann").
Proof.
  split.
  - rewrite (revocation_lost_in_leeway 1000 "u1" "ann" demo_token (new "s") (Ok 2000) 2000 [87000] 87410);
      [by vm_compute|exact demo_signed|unfold leeway; lia|unfold leeway; lia].
  - rewrite (revocation_lost_in_leeway 1000 "u1" "ann" demo_token (new "s") (Ok 2000) 2000 [87400] 87410);
      [by vm_compute|exact demo_signed|unfold leeway; lia|unfold leeway; lia].
Defined.
End JwtService.
