(* ===== verification/DiffInvert.v ===== *)
(** * DiffInvert: inverting unified diffs

    [chisl-ai-agent/src/manager/remote/diff_invert.rs] and the pure part of
    [edit_inverse.rs]: a patch is cut into hunks, each hunk is inverted by swapping
    the ranges of its header and the signs of its lines.  The [regex] crate is the
    class [HunkRegex], whose laws are what the pattern of [HUNK_HEADER_RE] says;
    the [diffy] crate is a parameter. *)

From S2P Require Import Prelude.
From S2P Require Import Text.
From S2P Require Import TeamTypes.

(** The five groups of a header line. *)
Record hunk_captures := mk_captures {
  cap_old_start : string; cap_old_count : option string;
  cap_new_start : string; cap_new_count : option string; cap_section : string }.

Definition show_count (c : option string) : string :=
  match c with Some n => "," +:+ n | None => EmptyString end.
(** The line a match of the pattern reads. *)
Definition header_line (c : hunk_captures) : string :=
  "@@ -" +:+ cap_old_start c +:+ show_count (cap_old_count c) +:+ " +" +:+ cap_new_start c +:+
  show_count (cap_new_count c) +:+ " @@" +:+ cap_section c.

Definition is_digit (a : Ascii.ascii) : bool := (48 <=? byte_of a) && (byte_of a <=? 57).
Fixpoint all_digits (s : string) : bool :=
  match s with EmptyString => true | String a s' => is_digit a && all_digits s' end.
Definition digits (s : string) : Prop := s ≠ EmptyString ∧ all_digits s = true.

(** [HUNK_HEADER_RE], the pattern of [diff_invert.rs:25].  It matches more digits
    than the ASCII ones, of which nothing is assumed. *)
Class HunkRegex := {
  captures : string → option hunk_captures;
  captures_complete : ∀ c, digits (cap_old_start c) → digits (cap_new_start c) →
    (∀ n, cap_old_count c = Some n → digits n) → (∀ n, cap_new_count c = Some n → digits n) →
    has_char newline (cap_section c) = false → captures (header_line c) = Some c;
  captures_sound : ∀ line c, captures line = Some c → line = header_line c;
}.

Module DiffInvert.
(* chisl-ai-agent/src/manager/remote/diff_invert.rs:16-21 ParsedHunk *)
Record ParsedHunk := mk_hunk { index : nat; raw : string }.

Section ops.
Context {HR : HunkRegex}.

Definition is_hunk_header (line : string) : bool :=
  starts_with "@@" line && bool_decide (is_Some (captures line)).

(** [current] is [current_lines]. *)
(* chisl-ai-agent/src/manager/remote/diff_invert.rs:34-47 parse_hunks (loop) *)
Fixpoint parse_lines (ls : list string) (current : option (list string)) (hunks : list ParsedHunk) :
    option (list string) * list ParsedHunk :=
  match ls with
  | [] => (current, hunks)
  | line :: ls' =>
      if is_hunk_header line then
        let hunks := match current with
                     | Some c => hunks ++ [mk_hunk (length hunks) (str_join nl c)]
                     | None => hunks
                     end in
        parse_lines ls' (Some [line]) hunks
      else parse_lines ls' ((λ c, c ++ [line]) <$> current) hunks
  end.

(* chisl-ai-agent/src/manager/remote/diff_invert.rs:30-57 parse_hunks *)
Definition parse_hunks (patch : string) : result (list ParsedHunk) AppError.t :=
  let '(current, hunks) := parse_lines (lines patch) None [] in
  Ok (match current with
      | Some c => hunks ++ [mk_hunk (length hunks) (str_join nl c)]
      | None => hunks
      end).

Definition invalid (label : string) (e : parse_int_error) : AppError.t :=
  AppError.Internal ("Invalid " +:+ label +:+ " in hunk header: " +:+ show_parse_int_error e).
(* chisl-ai-agent/src/manager/remote/diff_invert.rs:230-234 parse_capture *)
Definition parse_capture (group label : string) : result N AppError.t :=
  res_map_err (invalid label) (parse_usize group).
(* chisl-ai-agent/src/manager/remote/diff_invert.rs:237-244 optional_capture *)
Definition optional_capture (group : option string) (label : string) :
    result (option N) AppError.t :=
  match group with
  | Some m => res_map Some (res_map_err (invalid label) (parse_usize m))
  | None => Ok None
  end.

(** The inner loop: the lines of one change group with their signs swapped, and
    the lines after it. *)
(* chisl-ai-agent/src/manager/remote/diff_invert.rs:95-119 invert_hunk (change group) *)
Fixpoint collect_group (ls deletions insertions : list string) :
    list string * list string * list string :=
  match ls with
  | [] => (deletions, insertions, [])
  | l :: ls' =>
      if starts_with "\" l then
        match deletions with
        | [] => collect_group ls' deletions (insertions ++ [l])
        | _ => collect_group ls' (deletions ++ [l]) insertions
        end
      else match strip_prefix "+" l with
      | Some stripped => collect_group ls' (deletions ++ ["-" +:+ stripped]) insertions
      | None =>
          match strip_prefix "-" l with
          | Some stripped => collect_group ls' deletions (insertions ++ ["+" +:+ stripped])
          | None => (deletions, insertions, ls)
          end
      end
  end.

(** The outer loop; every turn consumes a line, so their number is enough fuel. *)
(* chisl-ai-agent/src/manager/remote/diff_invert.rs:84-133 invert_hunk (loop) *)
Fixpoint invert_lines_fuel (fuel : nat) (ls : list string) : option (list string) :=
  match ls with
  | [] => Some []
  | line :: ls' =>
      match fuel with
      | O => None
      | S fuel' =>
          if starts_with "\ " line then cons line <$> invert_lines_fuel fuel' ls'
          else
            let '(deletions, insertions, rest) := collect_group ls [] [] in
            app (deletions ++ insertions) <$>
              match rest with
              | l :: rest' =>
                  if negb (starts_with "+" l) && negb (starts_with "-" l) && negb (starts_with "\" l)
                  then cons l <$> invert_lines_fuel fuel' rest'
                  else invert_lines_fuel fuel' rest
              | [] => Some []
              end
      end
  end.
Definition invert_lines (ls : list string) : option (list string) := invert_lines_fuel (length ls) ls.

(** [None]: the loop of the body did not end. *)
(* chisl-ai-agent/src/manager/remote/diff_invert.rs:62-141 invert_hunk *)
Definition invert_hunk (hunk_raw : string) : option (result string AppError.t) :=
  let '(header, body) := default (hunk_raw, EmptyString) (split_once newline hunk_raw) in
  match captures header with
  | None => Some (Err (AppError.Internal ("Invalid hunk header: " +:+ header)))
  | Some caps =>
      let ranges :=
        let? old_start := parse_capture (cap_old_start caps) "old start" in
        let? old_count := optional_capture (cap_old_count caps) "old count" in
        let? new_start := parse_capture (cap_new_start caps) "new start" in
        let? new_count := optional_capture (cap_new_count caps) "new count" in
        Ok (old_start, default 1%N old_count, new_start, default 1%N new_count) in
      match ranges with
      | Err e => Some (Err e)
      | Ok (old_start, old_count, new_start, new_count) =>
          let inverted_header :=
            "@@ -" +:+ show_usize new_start +:+ "," +:+ show_usize new_count +:+ " +" +:+
            show_usize old_start +:+ "," +:+ show_usize old_count +:+ " @@" +:+ cap_section caps in
          (λ inverted_lines,
            let inverted_body := str_join nl inverted_lines in
            Ok (if String.eqb inverted_body EmptyString then inverted_header
                else inverted_header +:+ nl +:+ inverted_body)) <$> invert_lines (lines body)
      end
  end.

(** [diffy] parses a patch and applies it. *)
Context {Patch : Type} (patch_from_str : string → result Patch string)
  (diffy_apply : string → Patch → result string string).

(* chisl-ai-agent/src/manager/remote/diff_invert.rs:146-158 apply_inverted_hunk *)
Definition apply_inverted_hunk (file_content inverted_hunk_raw file_path : string) :
    result string AppError.t :=
  let hunk_text := if ends_with_char newline inverted_hunk_raw then inverted_hunk_raw
                   else inverted_hunk_raw +:+ nl in
  let synthetic := "--- a/" +:+ file_path +:+ nl +:+ "+++ b/" +:+ file_path +:+ nl +:+ hunk_text in
  let? patch := res_map_err (λ e, AppError.Internal ("Failed to parse inverted hunk as patch: " +:+ e))
                  (patch_from_str synthetic) in
  res_map_err (λ e, AppError.Internal ("Failed to apply inverted hunk: " +:+ e))
    (diffy_apply file_content patch).

(* chisl-ai-agent/src/manager/remote/diff_invert.rs:162-177 revert_single_hunk *)
Definition revert_single_hunk (forward_patch : string) (hunk_index : nat)
    (file_content file_path : string) : option (result string AppError.t) :=
  match parse_hunks forward_patch with
  | Err e => Some (Err e)
  | Ok hunks =>
      match hunks !! hunk_index with
      | None => Some (Err (AppError.Internal
          ("Hunk index " +:+ show_usize (N.of_nat hunk_index) +:+ " out of range (patch has " +:+
           show_usize (N.of_nat (length hunks)) +:+ " hunks)")))
      | Some hunk =>
          (λ r, let? inverted := r in apply_inverted_hunk file_content inverted file_path)
            <$> invert_hunk (raw hunk)
      end
  end.




End ops.

(** [line[4..]], which the prefix test makes safe. *)
(* chisl-ai-agent/src/manager/remote/edit_inverse.rs:62-71 extract_file_path_from_patch (loop) *)
Fixpoint first_path (ls : list string) : option string :=
  match ls with
  | [] => None
  | line :: ls' =>
      match (if starts_with "--- /dev/null" line then None else strip_prefix "--- " line),
            (if starts_with "+++ /dev/null" line then None else strip_prefix "+++ " line) with
      | Some rest, _ => let path := trim rest in Some (default path (strip_prefix "a/" path))
      | None, Some rest => let path := trim rest in Some (default path (strip_prefix "b/" path))
      | None, None => first_path ls'
      end
  end.
(* chisl-ai-agent/src/manager/remote/edit_inverse.rs:61-73 extract_file_path_from_patch *)
Definition extract_file_path_from_patch (patch : string) : option string := first_path (lines patch).

(* ------------------------------------------------------------------ *)
(** ** The text of a hunk *)

(** A line of a hunk body: context, added or removed. *)
Definition hunk_line (l : string) : Prop :=
  (starts_with " " l = true ∨ starts_with "+" l = true ∨ starts_with "-" l = true) ∧ plain_line l.

Record hunk := mk_text_hunk {
  old_start : N; old_count : N; new_start : N; new_count : N; section : string; body : list string }.

Definition captures_of (h : hunk) : hunk_captures :=
  mk_captures (show_usize (old_start h)) (Some (show_usize (old_count h)))
    (show_usize (new_start h)) (Some (show_usize (new_count h))) (section h).
Definition hunk_lines (h : hunk) : list string := header_line (captures_of h) :: body h.
Definition show_hunk (h : hunk) : string := str_join nl (hunk_lines h).

Record hunk_ok (h : hunk) : Prop := {
  ok_old_start : (old_start h ≤ usize_max)%N;
  ok_old_count : (old_count h ≤ usize_max)%N;
  ok_new_start : (new_start h ≤ usize_max)%N;
  ok_new_count : (new_count h ≤ usize_max)%N;
  ok_section : plain_line (section h);
  ok_body : Forall hunk_line (body h) }.

(** The two texts a body relates: without the added, without the removed lines. *)
Definition tail_of (l : string) : string := match l with EmptyString => EmptyString | String _ s => s end.
Definition old_side (ls : list string) : list string :=
  omap (λ l, if starts_with "+" l then None else Some (tail_of l)) ls.
Definition new_side (ls : list string) : list string :=
  omap (λ l, if starts_with "-" l then None else Some (tail_of l)) ls.

(* ------------------------------------------------------------------ *)
(** ** Inverting the lines *)

Definition change (l : string) : bool := starts_with "+" l || starts_with "-" l.
(** The removed, then the added lines of an inverted group. *)
Definition removals (g : list string) : list string :=
  omap (λ l, (λ s, "-" +:+ s) <$> strip_prefix "+" l) g.
Definition additions (g : list string) : list string :=
  omap (λ l, (λ s, "+" +:+ s) <$> strip_prefix "-" l) g.

Definition context (l : string) : Prop := starts_with "\" l = false ∧ change l = false.

(** What inverting does to lines without [\ No newline] markers. *)
Inductive inverts : list string → list string → Prop :=
| inverts_end g : Forall (λ l, change l = true) g → inverts g (removals g ++ additions g)
| inverts_context g c ls r : Forall (λ l, change l = true) g → context c → inverts ls r →
    inverts (g ++ c :: ls) (removals g ++ additions g ++ c :: r).

Lemma change_cases l :
  change l = true → ∃ s, (l = "+" +:+ s ∨ l = "-" +:+ s).
Proof.
  unfold change. rewrite orb_true_iff, !starts_with_spec. intros [[t ->]|[t ->]]; exists t; auto.
Qed.

Lemma collect_changes g ls d i :
  Forall (λ l, change l = true) g →
  collect_group (g ++ ls) d i = collect_group ls (d ++ removals g) (i ++ additions g).
Proof.
  intros Hg. revert d i. induction Hg as [|l g Hl _ IH]; intros d i.
  - by rewrite !app_nil_r.
  - destruct (change_cases l Hl) as [s [-> | ->]]; simpl; rewrite IH, <- ?app_assoc; done.
Qed.

Lemma collect_context c ls d i : context c → collect_group (c :: ls) d i = (d, i, c :: ls).
Proof.
  intros [Hm Hc]. cbn [collect_group]. rewrite Hm. unfold change in Hc. apply orb_false_iff in Hc as [Hp Hn].
  assert (∀ p, starts_with p c = false → strip_prefix p c = None) as Hs.
  { clear. induction c as [|a c IH]; intros [|b p]; simpl; try done.
    rewrite Ascii.eqb_sym. destruct (Ascii.eqb a b); simpl; [apply IH|done]. }
  by rewrite (Hs _ Hp), (Hs _ Hn).
Qed.

Lemma change_not_marker l : change l = true → starts_with "\ " l = false.
Proof. intros [s [-> | ->]]%change_cases; done. Qed.
Lemma context_not_marker l : context l → starts_with "\ " l = false.
Proof.
  intros [Hm _]. apply not_true_is_false. intros [t ->]%starts_with_spec. done.
Qed.

Lemma invert_lines_inverts ls r fuel :
  inverts ls r → (length ls ≤ fuel)%nat → invert_lines_fuel fuel ls = Some r.
Proof.
  intros Hi. revert fuel. induction Hi as [g Hg|g c ls r Hg Hc Hi IH]; intros fuel Hf.
  - destruct g as [|l g]; [by destruct fuel|]. destruct fuel as [|fuel]; [simpl in Hf; lia|].
    cbn [invert_lines_fuel]. rewrite (change_not_marker l) by by inversion Hg.
    rewrite <- (app_nil_r (l :: g)) at 1. rewrite collect_changes by done. simpl.
    by rewrite app_nil_r.
  - rewrite length_app in Hf. simpl in Hf. destruct fuel as [|fuel]; [lia|].
    assert (∃ l0 tl, g ++ c :: ls = l0 :: tl ∧ starts_with "\ " l0 = false) as (l0 & tl & Heq & Hl0).
    { destruct g as [|l g]; simpl.
      - eexists _, _. split; [done|by apply context_not_marker].
      - eexists _, _. split; [done|]. inversion Hg; by apply change_not_marker. }
    rewrite Heq. cbn [invert_lines_fuel]. rewrite Hl0, <- Heq, collect_changes, collect_context by done.
    pose proof Hc as [Hm Hch]. unfold change in Hch. apply orb_false_iff in Hch as [-> ->].
    rewrite Hm. simpl. rewrite IH by lia. simpl. by rewrite <- app_assoc.
Qed.

Lemma inverts_total ls : Forall (λ l, starts_with "\" l = false) ls → ∃ r, inverts ls r.
Proof.
  intros Hls.
  assert (∀ g, Forall (λ l, change l = true) g → ∃ r, inverts (g ++ ls) r) as H;
    [|destruct (H [] (Forall_nil_2 _)) as [r Hr]; by exists r].
  induction Hls as [|l ls Hl _ IH]; intros g Hg.
  - rewrite app_nil_r. eexists. by apply inverts_end.
  - destruct (change l) eqn:Hc.
    + destruct (IH (g ++ [l])) as [r Hr]; [by apply Forall_app_2; [|repeat constructor]|].
      rewrite <- app_assoc in Hr. by exists r.
    + destruct (IH [] (Forall_nil_2 _)) as [r Hr]. eexists. by apply inverts_context.
Qed.

(** Inverting an inverted group gives it back. *)
Lemma removals_cons l g :
  removals (l :: g) = match strip_prefix "+" l with
                      | Some s => ("-" +:+ s) :: removals g | None => removals g end.
Proof. unfold removals. cbn [omap list_omap]. by destruct (strip_prefix "+" l). Qed.
Lemma additions_cons l g :
  additions (l :: g) = match strip_prefix "-" l with
                       | Some s => ("+" +:+ s) :: additions g | None => additions g end.
Proof. unfold additions. cbn [omap list_omap]. by destruct (strip_prefix "-" l). Qed.

Lemma removals_plus s g : removals (("+" +:+ s) :: g) = ("-" +:+ s) :: removals g.
Proof. done. Qed.
Lemma removals_minus s g : removals (("-" +:+ s) :: g) = removals g.
Proof. done. Qed.
Lemma additions_minus s g : additions (("-" +:+ s) :: g) = ("+" +:+ s) :: additions g.
Proof. done. Qed.
Lemma additions_plus s g : additions (("+" +:+ s) :: g) = additions g.
Proof. done. Qed.

Lemma removals_removals g : removals (removals g) = [].
Proof. induction g as [|l g IH]; [done|]. rewrite removals_cons. case_match; [|done]. by rewrite removals_minus. Qed.
Lemma additions_additions g : additions (additions g) = [].
Proof. induction g as [|l g IH]; [done|]. rewrite additions_cons. case_match; [|done]. by rewrite additions_plus. Qed.
Lemma additions_removals g : removals (additions (removals g)) = removals g.
Proof.
  induction g as [|l g IH]; [done|]. rewrite removals_cons. case_match; [|done].
  by rewrite additions_minus, removals_plus, IH.
Qed.
Lemma removals_additions g : additions (removals (additions g)) = additions g.
Proof.
  induction g as [|l g IH]; [done|]. rewrite additions_cons. case_match; [|done].
  by rewrite removals_plus, additions_minus, IH.
Qed.
Lemma removals_change g : Forall (λ l, change l = true) (removals g).
Proof. induction g as [|l g IH]; [constructor|]. rewrite removals_cons. case_match; [by constructor|done]. Qed.
Lemma additions_change g : Forall (λ l, change l = true) (additions g).
Proof. induction g as [|l g IH]; [constructor|]. rewrite additions_cons. case_match; [by constructor|done]. Qed.

Lemma removals_app g g' : removals (g ++ g') = removals g ++ removals g'.
Proof. apply omap_app. Qed.
Lemma additions_app g g' : additions (g ++ g') = additions g ++ additions g'.
Proof. apply omap_app. Qed.

Lemma inverts_twice ls r : inverts ls r → ∃ r', inverts r r' ∧ inverts r' r.
Proof.
  assert (∀ g, let g1 := removals g ++ additions g in let g2 := removals g1 ++ additions g1 in
    Forall (λ l, change l = true) g1 ∧ Forall (λ l, change l = true) g2 ∧
    removals g2 ++ additions g2 = g1) as Hg.
  { intros g g1 g2. unfold g2, g1. split_and!.
    - apply Forall_app_2; [apply removals_change|apply additions_change].
    - apply Forall_app_2; [apply removals_change|apply additions_change].
    - repeat (rewrite removals_app || rewrite additions_app).
      rewrite !additions_removals, !removals_additions.
      rewrite !removals_removals, !additions_additions. change (removals []) with (@nil string).
      change (additions []) with (@nil string). by rewrite !app_nil_l, !app_nil_r. }
  induction 1 as [g _|g c ls r _ Hc _ (r' & IH1 & IH2)]; destruct (Hg g) as (H1 & H2 & H3).
  - eexists. split; [by apply inverts_end|]. pose proof (inverts_end _ H2) as Hi. by rewrite H3 in Hi.
  - pose proof (inverts_context _ c r r' H1 Hc IH1) as Hi1. rewrite <- app_assoc in Hi1.
    pose proof (inverts_context _ c r' r H2 Hc IH2) as Hi2.
    rewrite (app_assoc (removals _)), H3, <- !app_assoc in Hi2.
    eexists. split; [exact Hi1|exact Hi2].
Qed.

Lemma old_side_app ls ls' : old_side (ls ++ ls') = old_side ls ++ old_side ls'.
Proof. apply omap_app. Qed.
Lemma new_side_app ls ls' : new_side (ls ++ ls') = new_side ls ++ new_side ls'.
Proof. apply omap_app. Qed.

Lemma sides_plus s g : old_side (("+" +:+ s) :: g) = old_side g ∧ new_side (("+" +:+ s) :: g) = s :: new_side g.
Proof. done. Qed.
Lemma sides_minus s g : old_side (("-" +:+ s) :: g) = s :: old_side g ∧ new_side (("-" +:+ s) :: g) = new_side g.
Proof. done. Qed.

Lemma sides_changes g :
  Forall (λ l, change l = true) g →
  old_side (additions g) = [] ∧ new_side (removals g) = [] ∧
  old_side (removals g) = new_side g ∧ new_side (additions g) = old_side g.
Proof.
  induction 1 as [|l g Hl _ (IH1 & IH2 & IH3 & IH4)]; [done|].
  destruct (change_cases l Hl) as [s [-> | ->]];
    rewrite ?removals_plus, ?removals_minus, ?additions_plus, ?additions_minus.
  - destruct (sides_plus s g) as [-> ->], (sides_minus s (removals g)) as [-> ->]. by rewrite IH3.
  - destruct (sides_minus s g) as [-> ->], (sides_plus s (additions g)) as [-> ->]. by rewrite IH4.
Qed.

Lemma sides_context c g : context c →
  old_side (c :: g) = tail_of c :: old_side g ∧ new_side (c :: g) = tail_of c :: new_side g.
Proof.
  intros [_ Hc]. unfold change in Hc. apply orb_false_iff in Hc as [Hp Hm].
  unfold old_side, new_side. cbn [omap list_omap]. by rewrite Hp, Hm.
Qed.

Lemma inverts_sides ls r : inverts ls r → old_side r = new_side ls ∧ new_side r = old_side ls.
Proof.
  induction 1 as [g Hg|g c ls r Hg Hc _ [IH1 IH2]];
    destruct (sides_changes g Hg) as (H1 & H2 & H3 & H4).
  - rewrite old_side_app, new_side_app, H1, H2, H3, H4. by rewrite app_nil_r.
  - rewrite !old_side_app, !new_side_app, H1, H2, H3, H4.
    destruct (sides_context c r Hc) as [-> ->], (sides_context c ls Hc) as [-> ->].
    by rewrite IH1, IH2.
Qed.

(* ------------------------------------------------------------------ *)
(** ** Inverting the text of hunks and patches *)

#[local] Arguments Ascii.eqb : simpl never.

Lemma digits_show n : digits (show_usize n).
Proof.
  unfold digits, show_usize. split.
  - destruct (N.to_uint n); discriminate.
  - assert (∀ d, all_digits (DecimalString.NilEmpty.string_of_uint d) = true) as H.
    { induction d; [done|..]; cbn [DecimalString.NilEmpty.string_of_uint all_digits]; rewrite IHd;
        reflexivity. }
    destruct (N.to_uint n) eqn:E; [reflexivity|..]; exact (H _).
Qed.

Lemma digits_no_newline s : all_digits s = true → has_char newline s = false.
Proof.
  induction s as [|a s IH]; [done|]. cbn [has_char all_digits]. intros [Ha Hs]%andb_prop. rewrite (IH Hs), orb_false_r.
  destruct (Ascii.eqb_spec newline a) as [<-|]; [by vm_compute in Ha|done].
Qed.

Lemma strip_last_app a s t : t ≠ EmptyString → strip_last a (s +:+ t) = String.append s <$> strip_last a t.
Proof.
  intros Ht. induction s as [|b s IH].
  - rewrite app_string_empty. by destruct (strip_last a t).
  - rewrite app_string_cons. simpl. rewrite IH.
    assert (∃ c u, s +:+ t = String c u) as (c & u & E).
    { destruct s as [|c s]; [|eexists _, _; by rewrite app_string_cons].
      destruct t as [|c t]; [done|]. by eexists _, _. }
    rewrite E. by destruct (strip_last a t).
Qed.

Lemma header_plain h : hunk_ok h → plain_line (header_line (captures_of h)).
Proof.
  intros Hok. destruct (ok_section h Hok) as [Hn Hr]. split.
  - unfold header_line, captures_of; simpl. rewrite !has_char_app, Hn.
    by rewrite !(digits_no_newline (show_usize _)) by apply digits_show.
  - unfold header_line. rewrite <- !app_string_assoc. destruct (section h) as [|a s] eqn:E.
    + simpl cap_section. rewrite E, app_string_nil_r. by rewrite strip_last_app.
    + rewrite strip_last_app by (simpl; by rewrite E). simpl. by rewrite E, Hr.
Qed.

Section text.
Context {HR : HunkRegex}.

Lemma captures_header h : hunk_ok h → captures (header_line (captures_of h)) = Some (captures_of h).
Proof.
  intros Hok. apply captures_complete; simpl; [apply digits_show|apply digits_show| | |apply Hok];
    intros n [= <-]; apply digits_show.
Qed.


Lemma hunk_line_facts l :
  hunk_line l → l ≠ EmptyString ∧ starts_with "\" l = false ∧ is_hunk_header l = false.
Proof.
  intros [Hs _]. unfold is_hunk_header. rewrite !starts_with_spec in Hs.
  by destruct Hs as [[t ->]|[[t ->]|[t ->]]].
Qed.

Lemma swap_plain a b s : a ≠ newline → a ≠ carriage_return → b ≠ newline → b ≠ carriage_return →
  plain_line (String a s) → plain_line (String b s).
Proof.
  intros H1 H2 H3 H4 [Hn Hr]. split.
  - simpl in *. destruct (Ascii.eqb_spec newline a); [congruence|].
    by destruct (Ascii.eqb_spec newline b); [congruence|].
  - destruct s as [|c s].
    + simpl. by destruct (Ascii.eqb_spec carriage_return b); [congruence|].
    + change (String a (String c s)) with (String a EmptyString +:+ String c s) in Hr.
      change (String b (String c s)) with (String b EmptyString +:+ String c s).
      rewrite strip_last_app in * by done. by destruct (strip_last carriage_return (String c s)).
Qed.

Lemma inverts_lines ls r : inverts ls r → Forall hunk_line ls → Forall hunk_line r.
Proof.
  assert (∀ g, Forall hunk_line g → Forall hunk_line (removals g) ∧ Forall hunk_line (additions g)) as Hg.
  { induction 1 as [|l g [Hs Hp] _ [IH1 IH2]]; [done|]. rewrite !starts_with_spec in Hs.
    destruct Hs as [[t ->]|[[t ->]|[t ->]]].
    - done.
    - rewrite removals_plus, additions_plus. split; [|done]. constructor; [|done].
      split; [by auto|]. by eapply swap_plain; [..|exact Hp].
    - rewrite removals_minus, additions_minus. split; [done|]. constructor; [|done].
      split; [by auto|]. by eapply swap_plain; [..|exact Hp]. }
  induction 1 as [g _|g c ls r _ _ _ IH]; intros Hl.
  - destruct (Hg g Hl). by apply Forall_app.
  - apply Forall_app in Hl as [H1 [H2 H3]%Forall_cons]. destruct (Hg g H1).
    rewrite !Forall_app, Forall_cons. auto.
Qed.

(** [h'] is [h] inverted. *)
Record inverse_of (h h' : hunk) : Prop := {
  inv_old_start : old_start h' = new_start h;
  inv_old_count : old_count h' = new_count h;
  inv_new_start : new_start h' = old_start h;
  inv_new_count : new_count h' = old_count h;
  inv_section : section h' = section h;
  inv_body : inverts (body h) (body h') }.

Lemma inverse_of_ok h h' : hunk_ok h → inverse_of h h' → hunk_ok h'.
Proof.
  intros [? ? ? ? ? Hb] [H1 H2 H3 H4 H5 Hi]. split; try congruence. by eapply inverts_lines.
Qed.

Lemma inverse_of_total h : hunk_ok h → ∃ h', inverse_of h h'.
Proof using HR.
  intros Hok. destruct (inverts_total (body h)) as [r Hr].
  - eapply Forall_impl; [apply Hok|]. simpl. intros l Hl. by apply hunk_line_facts.
  - by exists (mk_text_hunk (new_start h) (new_count h) (old_start h) (old_count h) (section h) r).
Qed.

Lemma show_hunk_cons h : body h ≠ [] →
  show_hunk h = header_line (captures_of h) +:+ String newline (str_join nl (body h)).
Proof. unfold show_hunk, hunk_lines. by destruct (body h). Qed.

Lemma last_body h : hunk_ok h → last (body h) ≠ Some EmptyString.
Proof using HR.
  intros Hok Hl. apply last_Some_elem_of in Hl.
  assert (hunk_line EmptyString) as [Hs _] by by eapply Forall_forall; [apply Hok|].
  by destruct Hs as [|[|]].
Qed.

Lemma invert_hunk_eq h h' :
  hunk_ok h → inverse_of h h' → invert_hunk (show_hunk h) = Some (Ok (show_hunk h')).
Proof.
  intros Hok Hinv. pose proof (inverse_of_ok h h' Hok Hinv) as Hok'.
  pose proof (header_plain h Hok) as [Hnl _].
  assert (∃ rest, default (show_hunk h, EmptyString) (split_once newline (show_hunk h)) =
    (header_line (captures_of h), rest) ∧ lines rest = body h) as (rest & Hsplit & Hlines).
  { destruct (body h) as [|b bs] eqn:Hb.
    - exists EmptyString. unfold show_hunk, hunk_lines. rewrite Hb. simpl.
      by rewrite split_once_none.
    - exists (str_join nl (body h)). rewrite show_hunk_cons by by rewrite Hb.
      rewrite split_once_app by done. split; [done|]. rewrite <- Hb. apply lines_join.
      + eapply Forall_impl; [apply Hok|]. by intros l [_ ?].
      + by apply last_body. }
  unfold invert_hunk. rewrite Hsplit, Hlines, captures_header by done.
  unfold invert_lines. rewrite (invert_lines_inverts _ _ _ (inv_body _ _ Hinv)) by done.
  unfold captures_of, parse_capture, optional_capture. cbn [cap_old_start cap_old_count cap_new_start cap_new_count cap_section].
  rewrite !parse_show_usize by apply Hok. cbn [res_map_err res_map res_bind default option_fmap fmap option_map].
  do 2 f_equal.
  assert (header_line (captures_of h') = "@@ -" +:+ show_usize (new_start h) +:+ "," +:+
    show_usize (new_count h) +:+ " +" +:+ show_usize (old_start h) +:+ "," +:+
    show_usize (old_count h) +:+ " @@" +:+ section h) as Hh.
  { unfold header_line, captures_of. simpl. destruct Hinv as [-> -> -> -> -> _].
    by rewrite !app_string_assoc. }
  unfold id. rewrite <- Hh. destruct (body h') as [|b bs] eqn:Hb.
  - unfold show_hunk, hunk_lines. by rewrite Hb.
  - rewrite <- Hb, show_hunk_cons by by rewrite Hb.
    destruct (String.eqb_spec (str_join nl (body h')) EmptyString) as [He|]; [|done].
    exfalso. rewrite Hb in He. assert (hunk_line b) as Hl by (pose proof (ok_body h' Hok') as Hf; rewrite Hb in Hf; by inversion Hf).
    apply hunk_line_facts in Hl as [Hne _]. destruct b; [done|]. by destruct bs.
Qed.

(** Inverting a hunk succeeds; the inverse has the two ranges swapped and the
    same section, and its lines relate the same two texts the other way round; and
    inverting the inverse twice gives it back. *)
Lemma invert_hunk_swaps h :
  hunk_ok h →
  ∃ h' h'', invert_hunk (show_hunk h) = Some (Ok (show_hunk h')) ∧
    (old_start h', old_count h', new_start h', new_count h', section h') =
    (new_start h, new_count h, old_start h, old_count h, section h) ∧
    old_side (body h') = new_side (body h) ∧ new_side (body h') = old_side (body h) ∧
    invert_hunk (show_hunk h') = Some (Ok (show_hunk h'')) ∧
    invert_hunk (show_hunk h'') = Some (Ok (show_hunk h')).
Proof.
  intros Hok. destruct (inverse_of_total h Hok) as [h' Hi].
  pose proof (inverse_of_ok _ _ Hok Hi) as Hok'.
  destruct (inverts_twice _ _ (inv_body _ _ Hi)) as (r & H1 & H2).
  pose (h'' := mk_text_hunk (new_start h') (new_count h') (old_start h') (old_count h') (section h') r).
  assert (inverse_of h' h'') as Hi' by done.
  assert (inverse_of h'' h') as Hi'' by done.
  destruct (inverts_sides _ _ (inv_body _ _ Hi)) as [Ho Hn].
  exists h', h''. split_and!; [by apply invert_hunk_eq| |done|done|by apply invert_hunk_eq|].
  - by destruct Hi as [-> -> -> -> -> _].
  - apply invert_hunk_eq; [|done]. by eapply inverse_of_ok.
Qed.





(* ------------------------------------------------------------------ *)
(** ** Patches of one file *)










End text.

(* ------------------------------------------------------------------ *)
(** ** The pattern on ASCII digits, and examples *)

Fixpoint take_digits (s : string) : string * string :=
  match s with
  | EmptyString => (EmptyString, EmptyString)
  | String a s' => if is_digit a then let '(d, r) := take_digits s' in (String a d, r)
                   else (EmptyString, s)
  end.
Definition take_number (s : string) : option (string * string) :=
  let '(d, r) := take_digits s in if String.eqb d EmptyString then None else Some (d, r).
Definition take_count (s : string) : option (option string * string) :=
  match strip_prefix "," s with
  | Some s' => (λ '(d, r), (Some d, r)) <$> take_number s'
  | None => Some (None, s)
  end.
Definition ascii_captures (line : string) : option hunk_captures :=
  s1 ← strip_prefix "@@ -" line; '(os, s2) ← take_number s1; '(oc, s3) ← take_count s2;
  s4 ← strip_prefix " +" s3; '(ns, s5) ← take_number s4; '(nc, s6) ← take_count s5;
  sec ← strip_prefix " @@" s6;
  if has_char newline sec then None else Some (mk_captures os oc ns nc sec).

Lemma strip_prefix_spec p s t : strip_prefix p s = Some t ↔ s = p +:+ t.
Proof.
  revert s. induction p as [|a p IH]; intros s; simpl.
  - rewrite app_string_empty. naive_solver.
  - rewrite app_string_cons. destruct s as [|b s]; [done|]. destruct (Ascii.eqb_spec a b) as [->|Hne].
    + rewrite IH. naive_solver.
    + naive_solver.
Qed.

#[local] Arguments strip_prefix : simpl never.

Lemma take_digits_sound s d r : take_digits s = (d, r) → s = d +:+ r.
Proof.
  revert d r. induction s as [|a s IH]; intros d r; simpl; [naive_solver|]. case_match; [|naive_solver].
  destruct (take_digits s) as [d' r'] eqn:E. intros [= <- <-]. rewrite app_string_cons. f_equal. by apply IH.
Qed.
Lemma take_number_sound s d r : take_number s = Some (d, r) → s = d +:+ r.
Proof.
  unfold take_number. destruct (take_digits s) as [d' r'] eqn:E. case_match; [done|].
  intros [= <- <-]. by apply take_digits_sound.
Qed.
Lemma take_count_sound s c r : take_count s = Some (c, r) → s = show_count c +:+ r.
Proof.
  unfold take_count. destruct (strip_prefix "," s) as [s'|] eqn:E; [|by intros [= <- <-]].
  apply strip_prefix_spec in E as ->. destruct (take_number s') as [[d' r']|] eqn:E; [|done].
  simpl. intros [= <- <-]. apply take_number_sound in E as ->. simpl. by rewrite app_string_assoc.
Qed.

(** What follows a number in the header does not start with a digit. *)
Lemma take_number_complete d r :
  digits d → (∀ a t, r = String a t → is_digit a = false) → take_number (d +:+ r) = Some (d, r).
Proof.
  intros [Hne Hd] Hr. unfold take_number.
  assert (take_digits (d +:+ r) = (d, r)) as ->.
  { clear Hne. induction d as [|a d IH].
    - rewrite app_string_empty. destruct r as [|a t]; [done|]. simpl. by rewrite (Hr a t).
    - rewrite app_string_cons. simpl in *. apply andb_prop in Hd as [-> Hd]. by rewrite IH. }
  by rewrite (proj2 (String.eqb_neq d EmptyString) Hne).
Qed.
Lemma take_count_complete c r :
  (∀ n, c = Some n → digits n) → (∀ a t, r = String a t → is_digit a = false) →
  strip_prefix "," r = None → take_count (show_count c +:+ r) = Some (c, r).
Proof.
  intros Hc Hr Hn. unfold take_count. destruct c as [n|]; cbn [show_count].
  - rewrite app_string_assoc, (proj2 (strip_prefix_spec _ _ _) eq_refl).
    by rewrite take_number_complete by auto.
  - by rewrite app_string_empty, Hn.
Qed.

#[export] Instance ascii_hunk_regex : HunkRegex.
Proof.
  refine {| captures := ascii_captures |}.
  - intros [os oc ns nc sec] Hos Hns Hoc Hnc Hsec. cbn in Hos, Hns, Hoc, Hnc, Hsec.
    unfold ascii_captures, header_line. cbn [cap_old_start cap_old_count cap_new_start cap_new_count cap_section].
    rewrite (proj2 (strip_prefix_spec _ _ _) eq_refl). cbn [mbind option_bind].
    rewrite take_number_complete; [|done|by destruct oc; intros a t [= <- <-]]. cbn [mbind option_bind].
    rewrite take_count_complete; [|done|by intros a t [= <- <-]|done]. cbn [mbind option_bind].
    rewrite (proj2 (strip_prefix_spec " +" _ _) eq_refl). cbn [mbind option_bind].
    rewrite take_number_complete; [|done|by destruct nc; intros a t [= <- <-]]. cbn [mbind option_bind].
    rewrite take_count_complete; [|done|by intros a t [= <- <-]|done]. cbn [mbind option_bind].
    rewrite (proj2 (strip_prefix_spec " @@" _ _) eq_refl). cbn [mbind option_bind]. by rewrite Hsec.
  - intros line c. unfold ascii_captures. intros H.
    destruct (strip_prefix "@@ -" line) as [s1|] eqn:E1; [|done]. simpl in H.
    destruct (take_number s1) as [[os s2]|] eqn:E2; [|done]. simpl in H.
    destruct (take_count s2) as [[oc s3]|] eqn:E3; [|done]. simpl in H.
    destruct (strip_prefix " +" s3) as [s4|] eqn:E4; [|done]. simpl in H.
    destruct (take_number s4) as [[ns s5]|] eqn:E5; [|done]. simpl in H.
    destruct (take_count s5) as [[nc s6]|] eqn:E6; [|done]. simpl in H.
    destruct (strip_prefix " @@" s6) as [sec|] eqn:E7; [|done]. simpl in H.
    case_match; [done|]. injection H as <-.
    apply strip_prefix_spec in E1, E4, E7. apply take_number_sound in E2, E5.
    apply take_count_sound in E3, E6. by subst.
Defined.

Definition demo_hunk : hunk :=
  mk_text_hunk 3 3 3 3 " fn main()" [" a"; "-b"; "+c"; " d"].
Lemma demo_hunk_ok : hunk_ok demo_hunk.
Proof.
  split; [by vm_compute..|by split|]. apply Forall_forall. intros l Hl.
  repeat (apply elem_of_cons in Hl as [->|Hl]; [split; [vm_compute; tauto|by split]|]).
  by apply not_elem_of_nil in Hl.
Qed.

Lemma invert_hunk_swaps_witness :
  invert_hunk (show_hunk demo_hunk) =
    Some (Ok (show_hunk (mk_text_hunk 3 3 3 3 " fn main()" [" a"; "-c"; "+b"; " d"]))) ∧
  ∃ h', invert_hunk (show_hunk demo_hunk) = Some (Ok (show_hunk h')) ∧ new_side (body h') = ["a"; "b"; "d"].
Proof.
  split; [by vm_compute|].
  destruct (invert_hunk_swaps demo_hunk demo_hunk_ok) as (h' & _ & H & _ & _ & Hn & _).
  exists h'. split; [exact H|]. rewrite Hn. by vm_compute.
Defined.


(** The inverse of a patch of a file with CRLF line ends loses the carriage
    returns: [str::lines] drops them, so the inverted hunk expects and restores
    lines that end in a newline alone. *)
Lemma crlf_is_lost :
  let cr := String carriage_return EmptyString in
  invert_hunk ("@@ -1,1 +1,1 @@" +:+ nl +:+ "-a" +:+ cr +:+ nl +:+ "+b" +:+ cr +:+ nl) =
    Some (Ok ("@@ -1,1 +1,1 @@" +:+ nl +:+ "-b" +:+ nl +:+ "+a")).
Proof. by vm_compute. Qed.
End DiffInvert.
