(* ===== verification/AgentDelta.v ===== *)
(** * AgentDelta: the delta batcher of the OpenCode agent

    [chisl-ai-agent/src/manager/remote/opencode_delta_batcher.rs]: text deltas are
    gathered per part and emitted by a timer or a forced flush.  The tasks that run
    concurrently are threads of a configuration; one step takes a thread from one
    lock acquisition to the next, or through [emit], so every interleaving of the
    code is a sequence of steps.  Time is left out: a timer may fire whenever it is
    scheduled. *)

From S2P Require Import Prelude.
From S2P Require Import Text.

(* chisl-ai-agent/src/manager/remote/opencode_delta_batcher.rs:44-48 DeltaKey *)
Record DeltaKey := mk_delta_key { message_id : string; part_id : string; field : string }.
#[export] Instance delta_key_eq_dec : EqDecision DeltaKey.
Proof. solve_decision. Defined.
#[export] Instance delta_key_countable : Countable DeltaKey.
Proof.
  refine (inj_countable' (λ k, (message_id k, part_id k, field k))
    (λ t, let '(m, p, f) := t in mk_delta_key m p f) _). by intros [].
Defined.

(** A [JoinHandle] is the number of its task. *)
(* chisl-ai-agent/src/manager/remote/opencode_delta_batcher.rs:50-54 PendingDelta *)
Record PendingDelta := mk_pending_delta {
  buffer : string; is_reasoning : bool; flush_handle : option nat }.

(* chisl-ai-agent/src/protocol/events/session_updates.rs:17-25 ThinkingEventData *)
Record ThinkingEventData := mk_thinking {
  content : string; subject : option string; duration : option Z; status : option string }.
(** The two events of [AgentStreamEvent] the batcher emits. *)
(* chisl-ai-agent/src/protocol/events/mod.rs:167-169 TextEventData *)
Inductive AgentStreamEvent := TextEvent (content : string) | ThinkingEvent (data : ThinkingEventData).

(** The order in which a [HashMap] yields its keys. *)
Class KeyOrder := {
  keys_of : gmap DeltaKey PendingDelta → list DeltaKey;
  keys_of_perm : ∀ m, keys_of m ≡ₚ map fst (map_to_list m) }.

Module DeltaBatcher.
(** Where a task stands: [push] before it spawns the timer, [push] before it locks
    again to attach the handle, the timer before its [flush_key] locks, a flush
    before it locks for its next key, and [flush_key] between taking an entry and
    emitting it, with the keys its caller has left. *)
Inductive thread :=
| Spawning (key : DeltaKey)
| Attaching (key : DeltaKey) (handle : nat)
| Sleeping (key : DeltaKey)
| Flushing (keys : list DeltaKey)
| Emitting (p : PendingDelta) (keys : list DeltaKey).

(** [emitted] is what the runtime was given, in order. *)
(* chisl-ai-agent/src/manager/remote/opencode_delta_batcher.rs:57-69 DeltaBatcherHandle *)
Record config := mk_config {
  pending : gmap DeltaKey PendingDelta;
  emitted : list AgentStreamEvent;
  threads : gmap nat thread;
  next_thread : nat }.

(* chisl-ai-agent/src/manager/remote/opencode_delta_batcher.rs:71-76 DeltaBatcherHandle::new *)
Definition new : config := mk_config ∅ [] ∅ 0.

Definition set_thread (i : nat) (t : thread) (c : config) : config :=
  mk_config (pending c) (emitted c) (<[i := t]> (threads c)) (next_thread c).
Definition end_thread (i : nat) (c : config) : config :=
  mk_config (pending c) (emitted c) (delete i (threads c)) (next_thread c).
Definition set_pending (p : gmap DeltaKey PendingDelta) (c : config) : config :=
  mk_config p (emitted c) (threads c) (next_thread c).
(** [tokio::spawn], or a caller that starts an operation. *)
Definition start (t : thread) (c : config) : config :=
  mk_config (pending c) (emitted c) (<[next_thread c := t]> (threads c)) (S (next_thread c)).

(** [push] under its first lock. *)
(* chisl-ai-agent/src/manager/remote/opencode_delta_batcher.rs:80-97 DeltaBatcherHandle::push *)
Definition push (key : DeltaKey) (delta : string) (reasoning : bool) (c : config) : config :=
  let entry := default (mk_pending_delta EmptyString reasoning None) (pending c !! key) in
  let entry := mk_pending_delta (buffer entry +:+ delta) (is_reasoning entry)
                 (flush_handle entry) in
  let needs_timer := bool_decide (flush_handle entry = None) in
  let c := set_pending (<[key := entry]> (pending c)) c in
  if needs_timer then start (Spawning key) c else c.

(** The timer task starts and [push] goes on to lock again. *)
(* chisl-ai-agent/src/manager/remote/opencode_delta_batcher.rs:97-103 DeltaBatcherHandle::push (spawn) *)
Definition spawn_timer (i : nat) (key : DeltaKey) (c : config) : config :=
  start (Sleeping key) (set_thread i (Attaching key (next_thread c)) c).

(** [handle.abort()]: the timer is dropped where it awaits; past its last lock it
    runs to its end. *)
Definition abort (h : nat) (c : config) : config :=
  match threads c !! h with
  | Some (Sleeping _) => end_thread h c
  | _ => c
  end.

(* chisl-ai-agent/src/manager/remote/opencode_delta_batcher.rs:104-114 DeltaBatcherHandle::push (attach) *)
Definition attach (i : nat) (key : DeltaKey) (handle : nat) (c : config) : config :=
  let c := end_thread i c in
  match pending c !! key with
  | Some entry =>
      set_pending (<[key := mk_pending_delta (buffer entry) (is_reasoning entry) (Some handle)]>
                     (pending c)) c
  | None => abort handle c
  end.

(** [flush_key] under its lock; [rest] is what its caller does next. *)
(* chisl-ai-agent/src/manager/remote/opencode_delta_batcher.rs:117-122 DeltaBatcherHandle::flush_key *)
Definition flush_key (i : nat) (key : DeltaKey) (rest : list DeltaKey) (c : config) : config :=
  match pending c !! key with
  | None => set_thread i (Flushing rest) c
  | Some p => set_thread i (Emitting p rest) (set_pending (delete key (pending c)) c)
  end.

(* chisl-ai-agent/src/manager/remote/opencode_delta_batcher.rs:128-141 DeltaBatcherHandle::flush_key (emit) *)
Definition event_of (p : PendingDelta) : list AgentStreamEvent :=
  if String.eqb (buffer p) EmptyString then []
  else if is_reasoning p then [ThinkingEvent (mk_thinking (buffer p) None None None)]
  else [TextEvent (buffer p)].

(* chisl-ai-agent/src/manager/remote/opencode_delta_batcher.rs:127-142 DeltaBatcherHandle::flush_key (after the lock) *)
Definition emit (i : nat) (p : PendingDelta) (rest : list DeltaKey) (c : config) : config :=
  set_thread i (Flushing rest)
    (mk_config (pending c) (emitted c ++ event_of p) (threads c) (next_thread c)).

Section ops.
Context {KO : KeyOrder}.

(* chisl-ai-agent/src/manager/remote/opencode_delta_batcher.rs:148-156 DeltaBatcherHandle::flush_part *)
Definition flush_part (part : string) (c : config) : config :=
  start (Flushing (List.filter (λ k, String.eqb (part_id k) part) (keys_of (pending c)))) c.

(* chisl-ai-agent/src/manager/remote/opencode_delta_batcher.rs:161-169 DeltaBatcherHandle::flush_all *)
Definition flush_all (c : config) : config := start (Flushing (keys_of (pending c))) c.
End ops.

(** A thread runs to its next lock, or through [emit]. *)
Definition run_thread (i : nat) (t : thread) (c : config) : config :=
  match t with
  | Spawning key => spawn_timer i key c
  | Attaching key handle => attach i key handle c
  | Sleeping key => flush_key i key [] c
  | Flushing [] => end_thread i c
  | Flushing (key :: rest) => flush_key i key rest c
  | Emitting p rest => emit i p rest c
  end.

Inductive action :=
| Push (key : DeltaKey) (delta : string) (is_reasoning : bool)
| FlushPart (part : string)
| FlushAll
| Run (i : nat).

Section semantics.
Context {KO : KeyOrder}.

(** One step of a schedule; [None] when there is no such thread. *)
Definition exec (a : action) (c : config) : option config :=
  match a with
  | Push key delta r => Some (push key delta r c)
  | FlushPart part => Some (flush_part part c)
  | FlushAll => Some (flush_all c)
  | Run i => (λ t, run_thread i t c) <$> threads c !! i
  end.

Fixpoint run (acts : list action) (c : config) : option config :=
  match acts with
  | [] => Some c
  | a :: acts' => match exec a c with Some c' => run acts' c' | None => None end
  end.
End semantics.

(* ------------------------------------------------------------------ *)
(** ** What the threads of a configuration hold *)

(** [f] collected over all threads, in some order. *)
Definition total {X} (f : thread → list X) (m : gmap nat thread) : list X :=
  flat_map (λ it, f (snd it)) (map_to_list m).

Lemma total_empty {X} (f : thread → list X) : total f ∅ = [].
Proof. unfold total. by rewrite map_to_list_empty. Qed.

Lemma total_new {X} (f : thread → list X) m i t :
  m !! i = None → total f (<[i := t]> m) ≡ₚ f t ++ total f m.
Proof.
  intros Hi. unfold total. rewrite !flat_map_concat_map. by rewrite (map_to_list_insert m i t Hi).
Qed.

Lemma total_delete {X} (f : thread → list X) m i t :
  m !! i = Some t → total f m ≡ₚ f t ++ total f (delete i m).
Proof.
  intros Hi. rewrite <- (total_new f (delete i m) i t) by apply lookup_delete_eq.
  by rewrite insert_delete_id.
Qed.

Lemma total_set {X} (f : thread → list X) m i t t' :
  m !! i = Some t → f t ++ total f (<[i := t']> m) ≡ₚ f t' ++ total f m.
Proof.
  intros Hi. rewrite <- insert_delete_eq, (total_new f (delete i m)) by apply lookup_delete_eq.
  rewrite (total_delete f m i t Hi), !app_assoc. by rewrite (Permutation_app_comm (f t)).
Qed.

(** The events of entries taken from the map and not emitted yet. *)
Definition held (t : thread) : list AgentStreamEvent :=
  match t with Emitting p _ => event_of p | _ => [] end.
Definition in_flight (c : config) : list AgentStreamEvent := total held (threads c).

(** How many steps a thread can still cause. *)
Definition weight (t : thread) : nat :=
  match t with
  | Spawning _ => 5
  | Attaching _ _ => 1
  | Sleeping _ => 3
  | Flushing keys => 1 + 2 * length keys
  | Emitting _ keys => 2 + 2 * length keys
  end%nat.
Definition work (c : config) : nat := length (total (λ t, replicate (weight t) tt) (threads c)).

(** The text pushed under a key, and the text of taken entries. *)
Fixpoint pushed (key : DeltaKey) (acts : list action) : string :=
  match acts with
  | [] => EmptyString
  | Push k delta _ :: acts' =>
      if decide (k = key) then delta +:+ pushed key acts' else pushed key acts'
  | _ :: acts' => pushed key acts'
  end.
Fixpoint taken_text (key : DeltaKey) (taken : list (DeltaKey * PendingDelta)) : string :=
  match taken with
  | [] => EmptyString
  | (k, p) :: taken' =>
      if decide (k = key) then buffer p +:+ taken_text key taken' else taken_text key taken'
  end.
Definition pending_text (key : DeltaKey) (c : config) : string :=
  default EmptyString (buffer <$> pending c !! key).
Definition events_of (taken : list (DeltaKey * PendingDelta)) : list AgentStreamEvent :=
  flat_map (λ kp, event_of (snd kp)) taken.

Lemma pushed_snoc key acts a : pushed key (acts ++ [a]) = pushed key acts +:+ pushed key [a].
Proof.
  induction acts as [|[] acts IH]; simpl; [by rewrite app_string_empty| | | |]; try done.
  case_decide; [|done]. by rewrite IH, app_string_assoc.
Qed.
Lemma taken_app key l1 l2 : taken_text key (l1 ++ l2) = taken_text key l1 +:+ taken_text key l2.
Proof.
  induction l1 as [|[k p] l1 IH]; simpl; [by rewrite app_string_empty|].
  case_decide; [|done]. by rewrite IH, app_string_assoc.
Qed.

(** The order in which entries are taken explains every configuration: per key, the
    taken texts followed by the waiting one are the pushed text, and the emitted
    events are those of the taken entries but for the ones in flight. *)
Record explained (acts : list action) (c : config) (taken : list (DeltaKey * PendingDelta)) : Prop := {
  ex_text : ∀ key, taken_text key taken +:+ pending_text key c = pushed key acts;
  ex_events : emitted c ++ in_flight c ≡ₚ events_of taken;
  ex_kind : ∀ key p, (key, p) ∈ taken ∨ pending c !! key = Some p →
    ∃ delta, Push key delta (is_reasoning p) ∈ acts }.

(** Numbers of threads to come are unused, a timer handle stands for a timer of the
    same key, and whatever waits has a timer coming. *)
Record threads_ok (c : config) : Prop := {
  ok_fresh : ∀ i, (next_thread c ≤ i)%nat → threads c !! i = None;
  ok_handle : ∀ i key h, threads c !! i = Some (Attaching key h) → (h < next_thread c)%nat ∧
    ∀ key', threads c !! h = Some (Sleeping key') → key' = key;
  ok_timer : ∀ key, is_Some (pending c !! key) →
    ∃ i, threads c !! i = Some (Spawning key) ∨ threads c !! i = Some (Sleeping key) }.

(* ------------------------------------------------------------------ *)
(** ** One step *)

Section steps.
Context {KO : KeyOrder}.

Lemma start_total {X} (f : thread → list X) t c :
  threads_ok c → total f (threads (start t c)) ≡ₚ f t ++ total f (threads c).
Proof. intros Hok. simpl. apply total_new, (ok_fresh _ Hok). lia. Qed.

(** What a step does: it takes the entries [tk] and emits [out], not both. *)
Record effect (a : action) (c c' : config) (tk : list (DeltaKey * PendingDelta))
    (out : list AgentStreamEvent) : Prop := {
  ef_out : emitted c' = emitted c ++ out;
  ef_one : tk = [] ∨ out = [];
  ef_flight : in_flight c ++ events_of tk ≡ₚ out ++ in_flight c';
  ef_text : ∀ key, taken_text key tk +:+ pending_text key c' = pending_text key c +:+ pushed key [a];
  ef_kind : ∀ key p, (key, p) ∈ tk ∨ pending c' !! key = Some p →
    (∃ p0, pending c !! key = Some p0 ∧ is_reasoning p0 = is_reasoning p) ∨
    ∃ delta, a = Push key delta (is_reasoning p) }.

Lemma silent_effect c c' a :
  emitted c' = emitted c → in_flight c' ≡ₚ in_flight c →
  (∀ key, pending_text key c' = pending_text key c +:+ pushed key [a]) →
  (∀ key p, pending c' !! key = Some p →
    (∃ p0, pending c !! key = Some p0 ∧ is_reasoning p0 = is_reasoning p) ∨
    ∃ delta, a = Push key delta (is_reasoning p)) →
  ∃ tk out, effect a c c' tk out.
Proof.
  intros He Hf Ht Hk. exists [], []. split; rewrite ?app_nil_r; auto; [by rewrite Hf|].
  intros key p [[]%elem_of_nil|Hp]; auto.
Qed.

Lemma pending_text_flush key k p c c' :
  pending c !! k = Some p → pending c' = delete k (pending c) →
  taken_text key [(k, p)] +:+ pending_text key c' = pending_text key c +:+ EmptyString.
Proof.
  intros Hk Hc'. unfold pending_text. rewrite Hc', app_string_nil_r. simpl.
  destruct (decide (k = key)) as [->|Hne].
  - by rewrite lookup_delete_eq, Hk, !app_string_nil_r.
  - by rewrite lookup_delete_ne, app_string_empty by done.
Qed.

Lemma flush_key_effect i t key rest c a :
  threads c !! i = Some t → held t = [] → (∀ k, pushed k [a] = EmptyString) →
  ∃ tk out, effect a c (flush_key i key rest c) tk out.
Proof.
  intros Hi Ht Ha. pose proof (total_set held (threads c) i t) as Hset. unfold flush_key.
  destruct (pending c !! key) as [p|] eqn:Hk.
  - exists [(key, p)], []. specialize (Hset (Emitting p rest) Hi). rewrite Ht in Hset.
    split; [by rewrite app_nil_r|by right| | |].
    + unfold in_flight. simpl in *. rewrite Hset, app_nil_r. apply Permutation_app_comm.
    + intros k. rewrite Ha. by apply pending_text_flush.
    + intros k q [[= -> ->]%list_elem_of_singleton|Hq]; left; [by eexists|].
      simpl in Hq. apply lookup_delete_Some in Hq as [_ Hq]. by eexists.
  - apply silent_effect; [done| | |by eauto].
    + specialize (Hset (Flushing rest) Hi). by rewrite Ht in Hset.
    + intros k. by rewrite Ha, app_string_nil_r.
Qed.

Lemma push_effect key delta r c :
  threads_ok c →
  emitted (push key delta r c) = emitted c ∧ in_flight (push key delta r c) ≡ₚ in_flight c ∧
  (∀ k, pending_text k (push key delta r c) = pending_text k c +:+ pushed k [Push key delta r]) ∧
  ∀ k p, pending (push key delta r c) !! k = Some p →
    (∃ p0, pending c !! k = Some p0 ∧ is_reasoning p0 = is_reasoning p) ∨
    ∃ delta', Push key delta r = Push k delta' (is_reasoning p).
Proof.
  intros Hok. unfold push. set (entry := mk_pending_delta _ _ _).
  assert (Hkind : ∀ k p, <[key:=entry]> (pending c) !! k = Some p →
    (∃ p0, pending c !! k = Some p0 ∧ is_reasoning p0 = is_reasoning p) ∨
    ∃ delta', Push key delta r = Push k delta' (is_reasoning p)).
  { intros k p. rewrite lookup_insert_Some. intros [[<- <-]|[_ Hp]]; [|by eauto].
    unfold entry. destruct (pending c !! key); simpl; eauto. }
  assert (Hp : ∀ k, default EmptyString (buffer <$> <[key:=entry]> (pending c) !! k) =
    pending_text k c +:+ pushed k [Push key delta r]).
  { intros k. unfold pending_text. simpl. destruct (decide (key = k)) as [<-|Hne].
    - rewrite lookup_insert_eq. simpl. rewrite app_string_nil_r. by destruct (pending c !! key).
    - by rewrite lookup_insert_ne, app_string_nil_r by done. }
  destruct (bool_decide _); simpl; (split_and!; [done| |done|done]); [|done].
  unfold in_flight. simpl. by rewrite total_new by (apply (ok_fresh _ Hok); lia).
Qed.

Lemma abort_effect h c : in_flight (abort h c) ≡ₚ in_flight c ∧ emitted (abort h c) = emitted c ∧
  pending (abort h c) = pending c.
Proof.
  unfold abort. destruct (threads c !! h) as [[]|] eqn:Hh; try done. split_and!; try done.
  unfold in_flight. simpl. by rewrite (total_delete held (threads c) h _ Hh).
Qed.

Lemma attach_effect i key h c :
  threads c !! i = Some (Attaching key h) →
  in_flight (attach i key h c) ≡ₚ in_flight c ∧ emitted (attach i key h c) = emitted c ∧
  (∀ k, pending_text k (attach i key h c) = pending_text k c) ∧
  ∀ k p, pending (attach i key h c) !! k = Some p →
    ∃ p0, pending c !! k = Some p0 ∧ is_reasoning p0 = is_reasoning p.
Proof.
  intros Hi. assert (He : in_flight (end_thread i c) ≡ₚ in_flight c).
  { unfold in_flight. simpl. by rewrite (total_delete held (threads c) i _ Hi). }
  unfold attach, pending_text. simpl. destruct (pending c !! key) as [p|] eqn:Hk.
  - split_and!; [done|done| |]; intros k; simpl.
    + destruct (decide (key = k)) as [<-|Hne]; [by rewrite lookup_insert_eq, Hk|].
      by rewrite lookup_insert_ne by done.
    + intros q. rewrite lookup_insert_Some. intros [[<- <-]|[_ Hq]]; eauto.
  - destruct (abort_effect h (end_thread i c)) as (-> & -> & ->). split_and!; eauto.
Qed.

Lemma exec_effect a c c' : threads_ok c → exec a c = Some c' → ∃ tk out, effect a c c' tk out.
Proof.
  intros Hok He.
  assert (Hstart : ∀ keys, (∀ k, pushed k [a] = EmptyString) →
    ∃ tk out, effect a c (start (Flushing keys) c) tk out).
  { intros keys Ha. apply silent_effect; [done|exact (start_total held (Flushing _) c Hok)| |by eauto].
    intros. by rewrite Ha, app_string_nil_r. }
  destruct a as [key delta r|part| |i]; simpl in He; simplify_eq.
  - destruct (push_effect key delta r c Hok) as (? & ? & ? & ?). by apply silent_effect.
  - by apply Hstart.
  - by apply Hstart.
  - apply fmap_Some in He as (t & Hi & ->).
    assert (Hp : ∀ k, pushed k [Run i] = EmptyString) by done.
    destruct t as [key|key h|key|[|key rest]|p rest]; cbn [run_thread].
    + apply silent_effect; [done| |by intros; rewrite Hp, app_string_nil_r|by eauto].
      unfold in_flight, spawn_timer. simpl.
      rewrite total_new; [exact (total_set held _ _ _ (Attaching key (next_thread c)) Hi)|].
      rewrite lookup_insert_ne; [apply (ok_fresh _ Hok); lia|]. intros ->.
      by rewrite (ok_fresh _ Hok) in Hi by lia.
    + destruct (attach_effect i key h c Hi) as (? & ? & ? & ?). apply silent_effect; [done|done| |by eauto].
      intros. by rewrite Hp, app_string_nil_r.
    + by eapply flush_key_effect.
    + apply silent_effect; [done| |by intros; rewrite Hp, app_string_nil_r|by eauto].
      unfold in_flight. simpl. by rewrite (total_delete held (threads c) i _ Hi).
    + by eapply flush_key_effect.
    + exists [], (event_of p). split; [done|by left| | |].
      * rewrite app_nil_r. symmetry. exact (total_set held _ _ _ (Flushing rest) Hi).
      * intros key. by rewrite app_string_empty, app_string_nil_r.
      * intros k q [[]%elem_of_nil|Hq]. left. by eexists.
Qed.

(** [t] is not what an entry of [key] waits for. *)
Definition not_timer (key : DeltaKey) (t : thread) : Prop := t ≠ Spawning key ∧ t ≠ Sleeping key.

Lemma timer_kept c i t (m : gmap nat thread) key :
  threads_ok c → is_Some (pending c !! key) → threads c !! i = Some t → not_timer key t →
  (∀ j, j ≠ i → (j < next_thread c)%nat → m !! j = threads c !! j) →
  ∃ j, m !! j = Some (Spawning key) ∨ m !! j = Some (Sleeping key).
Proof.
  intros Hok Hp Hi [Hs Hz] Hm. destruct (ok_timer _ Hok key Hp) as [j Hj]. exists j.
  rewrite Hm; [done| |].
  - intros ->. destruct Hj; congruence.
  - destruct (decide (j < next_thread c)%nat); [done|]. rewrite (ok_fresh _ Hok) in Hj by lia.
    by destruct Hj.
Qed.

Lemma new_ok : threads_ok new.
Proof. split; [done|done|]. intros key [? H]. discriminate H. Qed.

Lemma start_ok t c : threads_ok c → (∀ key h, t ≠ Attaching key h) → threads_ok (start t c).
Proof.
  intros Hok Ht. split; simpl.
  - intros i Hi. rewrite lookup_insert_ne by lia. apply (ok_fresh _ Hok). lia.
  - intros i key h. rewrite lookup_insert_Some. intros [[_ ?]|[Hne Hi]]; [by destruct (Ht key h)|].
    destruct (ok_handle _ Hok i key h Hi) as [Hlt Hh]. split; [lia|]. intros key'.
    rewrite lookup_insert_ne by lia. apply Hh.
  - intros key Hp. destruct (ok_timer _ Hok key Hp) as [i Hi]. exists i.
    rewrite lookup_insert_ne; [done|]. intros <-. rewrite (ok_fresh _ Hok) in Hi by lia. by destruct Hi.
Qed.

Lemma set_thread_ok i t t' p c :
  threads_ok c → threads c !! i = Some t →
  (∀ key h, t' ≠ Attaching key h) → (∀ key, t' ≠ Sleeping key) →
  (∀ key, is_Some (p !! key) → is_Some (pending c !! key) ∧ not_timer key t) →
  threads_ok (set_thread i t' (set_pending p c)).
Proof.
  intros Hok Hi Ha Hs Hp. split; simpl.
  - intros j Hj. rewrite lookup_insert_ne; [by apply (ok_fresh _ Hok)|]. intros <-.
    by rewrite (ok_fresh _ Hok) in Hi.
  - intros j key h. rewrite lookup_insert_Some. intros [[_ ?]|[Hne Hj]]; [by destruct (Ha key h)|].
    destruct (ok_handle _ Hok j key h Hj) as [Hlt Hh]. split; [done|]. intros key'.
    rewrite lookup_insert_Some. intros [[_ ?]|[_ ?]]; [by destruct (Hs key')|auto].
  - intros key Hk. destruct (Hp key Hk) as [Hk' Ht]. eapply timer_kept; try done.
    intros j Hne _. by rewrite lookup_insert_ne.
Qed.

Lemma end_thread_ok i t c :
  threads_ok c → threads c !! i = Some t →
  (∀ key, is_Some (pending c !! key) → not_timer key t) → threads_ok (end_thread i c).
Proof.
  intros Hok Hi Hp. split; simpl.
  - intros j Hj. apply lookup_delete_None. right. by apply (ok_fresh _ Hok).
  - intros j key h. rewrite lookup_delete_Some. intros [Hne Hj].
    destruct (ok_handle _ Hok j key h Hj) as [Hlt Hh]. split; [done|]. intros key'.
    rewrite lookup_delete_Some. naive_solver.
  - intros key Hk. eapply timer_kept; [done|done|done|auto|].
    intros j Hne _. by rewrite lookup_delete_ne.
Qed.

Lemma flush_key_ok i t key rest c :
  threads_ok c → threads c !! i = Some t → (∀ k, k ≠ key → not_timer k t) →
  threads_ok (flush_key i key rest c).
Proof.
  intros Hok Hi Ht. unfold flush_key. destruct (pending c !! key) as [p|] eqn:Hk.
  - eapply set_thread_ok; try done. intros k. rewrite lookup_delete_is_Some. intros [Hne Hp].
    split; [done|]. by apply Ht.
  - assert (c = set_pending (pending c) c) as -> by by destruct c.
    eapply set_thread_ok; try done. simpl. intros k Hp. split; [done|]. apply Ht.
    intros ->. rewrite Hk in Hp. by destruct Hp.
Qed.

Lemma push_ok key delta r c : threads_ok c → threads_ok (push key delta r c).
Proof.
  intros Hok. unfold push. set (entry := mk_pending_delta _ _ _).
  assert (Hfree : pending c !! key = None → bool_decide (flush_handle entry = None) = true).
  { intros Hk. unfold entry. by rewrite Hk. }
  destruct (bool_decide _) eqn:Hb.
  - (* a thread is spawned for the entry *)
    assert (Hstart : threads_ok (start (Spawning key) c)) by by apply start_ok.
    split; [apply (ok_fresh _ Hstart)|apply (ok_handle _ Hstart)|]. simpl. intros k.
    destruct (decide (key = k)) as [<-|Hne].
    + intros _. exists (next_thread c). left. apply lookup_insert_eq.
    + rewrite lookup_insert_ne by done. apply (ok_timer _ Hstart).
  - split; [apply (ok_fresh _ Hok)|apply (ok_handle _ Hok)|]. simpl. intros k.
    destruct (decide (key = k)) as [<-|Hne].
    + intros _. apply (ok_timer _ Hok). destruct (pending c !! key); [by eexists|].
      by discriminate (Hfree eq_refl).
    + rewrite lookup_insert_ne by done. apply (ok_timer _ Hok).
Qed.

Lemma spawn_timer_ok i key c :
  threads_ok c → threads c !! i = Some (Spawning key) → threads_ok (spawn_timer i key c).
Proof.
  intros Hok Hi. assert (Hlt : (i < next_thread c)%nat).
  { destruct (decide (i < next_thread c)%nat); [done|]. by rewrite (ok_fresh _ Hok) in Hi by lia. }
  split; simpl.
  - intros j Hj. rewrite !lookup_insert_ne by lia. apply (ok_fresh _ Hok). lia.
  - intros j k h. rewrite lookup_insert_Some. intros [[_ ?]|[Hne Hj]]; [done|].
    apply lookup_insert_Some in Hj as [[<- ?]|[Hne' Hj]]; simplify_eq.
    + split; [lia|]. intros key'. rewrite lookup_insert_eq. by intros [= ->].
    + destruct (ok_handle _ Hok j k h Hj) as [Hh Hk]. split; [lia|]. intros key'.
      rewrite lookup_insert_ne by lia. rewrite lookup_insert_Some. naive_solver.
  - intros k Hp. destruct (decide (k = key)) as [->|Hne].
    + exists (next_thread c). right. apply lookup_insert_eq.
    + eapply timer_kept; [done|done|done| |].
      * split; congruence.
      * intros j Hji Hjn. by rewrite !lookup_insert_ne by lia.
Qed.

Lemma attach_ok i key h c :
  threads_ok c → threads c !! i = Some (Attaching key h) → threads_ok (attach i key h c).
Proof.
  intros Hok Hi. assert (He : threads_ok (end_thread i c)) by (eapply end_thread_ok; done).
  unfold attach. simpl. destruct (pending c !! key) as [p|] eqn:Hk.
  - split; [apply (ok_fresh _ He)|apply (ok_handle _ He)|]. intros k Hp. apply (ok_timer _ He).
    simpl in *. destruct (decide (key = k)) as [<-|Hne]; [by rewrite Hk|].
    by rewrite lookup_insert_ne in Hp.
  - unfold abort. destruct (threads (end_thread i c) !! h) as [[]|] eqn:Hh; try done.
    eapply end_thread_ok; [done|done|]. intros k Hp. split; [done|]. intros Heq.
    simpl in Hh. apply lookup_delete_Some in Hh as [_ Hh].
    apply (proj2 (ok_handle _ Hok i key h Hi)) in Hh. simplify_eq. simpl in Hp.
    rewrite Hk in Hp. by destruct Hp.
Qed.

Lemma exec_ok a c c' : threads_ok c → exec a c = Some c' → threads_ok c'.
Proof.
  intros Hok He. destruct a as [key delta r|part| |i]; simpl in He; simplify_eq.
  - by apply push_ok.
  - by apply start_ok.
  - by apply start_ok.
  - apply fmap_Some in He as (t & Hi & ->).
    destruct t as [key|key h|key|[|key rest]|p rest]; cbn [run_thread].
    + by apply spawn_timer_ok.
    + by apply attach_ok.
    + eapply flush_key_ok; [done|done|]. intros k Hne. split; congruence.
    + by eapply end_thread_ok.
    + by eapply flush_key_ok.
    + unfold emit.
      assert (Hset : threads_ok (set_thread i (Flushing rest) (set_pending (pending c) c)))
        by by eapply set_thread_ok.
      split; [apply (ok_fresh _ Hset)|apply (ok_handle _ Hset)|apply (ok_timer _ Hset)].
Qed.

Lemma run_snoc acts a c : run (acts ++ [a]) c = run acts c ≫= exec a.
Proof.
  revert c. induction acts as [|b acts IH]; intros c; simpl; [by destruct (exec a c)|].
  destruct (exec b c); [apply IH|done].
Qed.
Lemma run_app acts1 acts2 c : run (acts1 ++ acts2) c = run acts1 c ≫= run acts2.
Proof.
  revert c. induction acts1 as [|b acts1 IH]; intros c; simpl; [done|].
  destruct (exec b c); [apply IH|done].
Qed.

Lemma run_ok acts c c' : threads_ok c → run acts c = Some c' → threads_ok c'.
Proof.
  revert c. induction acts as [|a acts IH]; intros c Hok; simpl; [by intros [= <-]|].
  destruct (exec a c) as [c1|] eqn:He; [|done]. apply IH. by eapply exec_ok.
Qed.

Lemma explained_step acts a c c' taken tk out :
  explained acts c taken → effect a c c' tk out → explained (acts ++ [a]) c' (taken ++ tk).
Proof.
  intros He Hf. split.
  - intros key. rewrite taken_app, pushed_snoc, app_string_assoc, (ef_text _ _ _ _ _ Hf key).
    by rewrite <- (ex_text _ _ _ He key), app_string_assoc.
  - rewrite (ef_out _ _ _ _ _ Hf). unfold events_of. rewrite flat_map_app.
    rewrite <- app_assoc, <- (ef_flight _ _ _ _ _ Hf), app_assoc.
    by rewrite (ex_events _ _ _ He).
  - intros key p Hp. setoid_rewrite elem_of_app. rewrite elem_of_app in Hp.
    assert (Hold : (key, p) ∈ taken ∨ (key, p) ∈ tk ∨ pending c' !! key = Some p) by tauto.
    destruct Hold as [Ht|Hn].
    + destruct (ex_kind _ _ _ He key p (or_introl Ht)) as [delta Hd]. eauto.
    + destruct (ef_kind _ _ _ _ _ Hf key p Hn) as [(p0 & Hp0 & <-)|[delta ->]].
      * destruct (ex_kind _ _ _ He key p0 (or_intror Hp0)) as [delta Hd]. eauto.
      * exists delta. right. by left.
Qed.

(** At most one entry is between its removal and its emission, whenever one looks. *)
Definition serial (acts : list action) : Prop :=
  ∀ n c, run (take n acts) new = Some c → (length (in_flight c) ≤ 1)%nat.

Lemma short_permutation {A} (l1 l2 : list A) : (length l1 ≤ 1)%nat → l1 ≡ₚ l2 → l1 = l2.
Proof.
  intros Hl Hp. destruct l1 as [|x [|]]; simpl in Hl; [|by apply Permutation_singleton_l in Hp|lia].
  by apply Permutation_nil_l in Hp.
Qed.

Lemma in_order a c c' taken tk out :
  emitted c ++ in_flight c = events_of taken → effect a c c' tk out →
  (length (in_flight c) ≤ 1)%nat → (length (in_flight c') ≤ 1)%nat →
  emitted c' ++ in_flight c' = events_of (taken ++ tk).
Proof.
  intros Ho Hf Hc Hc'. rewrite (ef_out _ _ _ _ _ Hf). unfold events_of. rewrite flat_map_app.
  fold (events_of taken) (events_of tk). rewrite <- Ho, <- !app_assoc. f_equal.
  pose proof (ef_flight _ _ _ _ _ Hf) as Hp. destruct (ef_one _ _ _ _ _ Hf) as [-> | ->].
  - simpl in *. rewrite app_nil_r in *. symmetry. by apply short_permutation.
  - simpl in *. by apply short_permutation.
Qed.

Lemma run_explained acts c :
  run acts new = Some c →
  ∃ taken, explained acts c taken ∧ (serial acts → emitted c ++ in_flight c = events_of taken).
Proof.
  revert c. induction acts as [|a acts IH] using rev_ind; intros c Hr.
  - simplify_eq/=. exists []. split; [|done]. split; [done|done|].
    intros key p [[]%elem_of_nil|Hp]. discriminate Hp.
  - rewrite run_snoc in Hr. destruct (run acts new) as [c0|] eqn:Hc0; [|done]. simpl in Hr.
    destruct (IH c0 eq_refl) as (taken & He & Ho).
    destruct (exec_effect a c0 c (run_ok _ _ _ new_ok Hc0) Hr) as (tk & out & Hf).
    exists (taken ++ tk). split; [by eapply explained_step|]. intros Hs.
    assert (Hs0 : ∀ n c', run (take n acts) new = Some c' → (length (in_flight c') ≤ 1)%nat).
    { intros n c' Hn. apply (Hs (min n (length acts))). rewrite take_app_le by lia.
      destruct (decide (n ≤ length acts)%nat) as [|Hgt]; [by rewrite Nat.min_l|].
      rewrite Nat.min_r, firstn_all by lia. by rewrite take_ge in Hn by lia. }
    eapply in_order; [by apply Ho|done| |].
    + apply (Hs0 (length acts)). by rewrite firstn_all.
    + apply (Hs (length (acts ++ [a]))). rewrite firstn_all, run_snoc, Hc0. done.
Qed.

(** Whatever the interleaving of pushes, timers and flushes, no text is lost or
    emitted twice: for each key the texts taken so far followed by the text waiting
    are exactly what was pushed, in order; the events emitted or about to be are
    those of the taken entries, each of the kind (text or reasoning) of a push of its
    key; and they come out in that order when no two flushes overlap. *)
Lemma every_delta_accounted_for acts c :
  run acts new = Some c →
  ∃ taken, (∀ key, taken_text key taken +:+ pending_text key c = pushed key acts) ∧
    emitted c ++ in_flight c ≡ₚ events_of taken ∧
    (∀ key p, (key, p) ∈ taken → ∃ delta, Push key delta (is_reasoning p) ∈ acts) ∧
    (serial acts → emitted c ++ in_flight c = events_of taken).
Proof.
  intros Hr. destruct (run_explained acts c Hr) as (taken & [Ht He Hk] & Ho).
  exists taken. split_and!; auto.
Qed.

(* ------------------------------------------------------------------ *)
(** ** Every thread comes to its end *)

Lemma work_set i t t' c :
  threads c !! i = Some t → (work (set_thread i t' c) + weight t = weight t' + work c)%nat.
Proof.
  intros Hi. pose proof (total_set (λ t, replicate (weight t) tt) _ _ _ t' Hi) as Hp.
  apply Permutation_length in Hp. rewrite !length_app, !length_replicate in Hp. unfold work. simpl. lia.
Qed.
Lemma work_end i t c : threads c !! i = Some t → (work (end_thread i c) + weight t = work c)%nat.
Proof.
  intros Hi. pose proof (total_delete (λ t, replicate (weight t) tt) _ _ _ Hi) as Hp.
  apply Permutation_length in Hp. rewrite !length_app, !length_replicate in Hp. unfold work. simpl. lia.
Qed.
Lemma work_start t c : threads_ok c → work (start t c) = (weight t + work c)%nat.
Proof.
  intros Hok. pose proof (start_total (λ t, replicate (weight t) tt) t c Hok) as Hp.
  apply Permutation_length in Hp. by rewrite length_app, length_replicate in Hp.
Qed.

Lemma work_flush_key i t key rest c :
  threads c !! i = Some t → (2 + 2 * length rest < weight t)%nat →
  (work (flush_key i key rest c) < work c)%nat.
Proof.
  intros Hi Hw. unfold flush_key. destruct (pending c !! key) as [p|].
  - pose proof (work_set i t (Emitting p rest) (set_pending (delete key (pending c)) c) Hi) as H.
    change (work (set_pending _ c)) with (work c) in H. simpl weight in H. lia.
  - pose proof (work_set i t (Flushing rest) c Hi) as H. simpl weight in H. lia.
Qed.

Lemma work_decreases i c c' : threads_ok c → exec (Run i) c = Some c' → (work c' < work c)%nat.
Proof.
  intros Hok He. simpl in He. apply fmap_Some in He as (t & Hi & ->).
  destruct t as [key|key h|key|[|key rest]|p rest]; cbn [run_thread].
  - unfold spawn_timer. set (c1 := set_thread i (Attaching key (next_thread c)) c).
    assert (Hfree : threads c1 !! next_thread c1 = None).
    { simpl. rewrite lookup_insert_ne; [apply (ok_fresh _ Hok); lia|]. intros ->.
      by rewrite (ok_fresh _ Hok) in Hi by lia. }
    pose proof (total_new (λ t, replicate (weight t) tt) _ _ (Sleeping key) Hfree) as Hn.
    apply Permutation_length in Hn. rewrite length_app, length_replicate in Hn.
    pose proof (work_set i _ (Attaching key (next_thread c)) c Hi) as H. fold c1 in H.
    unfold work in *. simpl in *. lia.
  - pose proof (work_end i _ c Hi) as H. simpl weight in H. unfold attach. case_match.
    + unfold work in *. simpl in *. lia.
    + unfold abort. destruct (threads (end_thread i c) !! h) as [[]|] eqn:Hh; try lia.
      pose proof (work_end h _ _ Hh). lia.
  - eapply work_flush_key; [done|simpl; lia].
  - pose proof (work_end i _ c Hi) as H. simpl weight in H. lia.
  - eapply work_flush_key; [done|simpl; lia].
  - unfold emit. pose proof (work_set i _ (Flushing rest) c Hi) as H. simpl weight in H.
    unfold work in *. simpl in *. lia.
Qed.

Lemma run_work sched c c' :
  threads_ok c → run (map Run sched) c = Some c' → (length sched + work c' ≤ work c)%nat.
Proof.
  revert c. induction sched as [|i sched IH]; intros c Hok; cbn [map run length]; [by intros [= <-]|].
  destruct (exec (Run i) c) as [c1|] eqn:He; [|done]. intros Hr.
  pose proof (work_decreases _ _ _ Hok He). pose proof (IH c1 (exec_ok _ _ _ Hok He) Hr). lia.
Qed.

Lemma pushed_run key acts sched : pushed key (acts ++ map Run sched) = pushed key acts.
Proof.
  induction acts as [|[] acts IH]; simpl; try done; [by induction sched|]. by rewrite IH.
Qed.

(** C36: once nothing more is pushed, the threads stop after at most [work] steps
    whatever the scheduler does, and when they have all stopped nothing waits: every
    text pushed under every key has been emitted. *)
Theorem every_delta_is_delivered acts sched c c' :
  run acts new = Some c → run (map Run sched) c = Some c' →
  (length sched ≤ work c)%nat ∧
  ((∀ i, exec (Run i) c' = None) →
    pending c' = ∅ ∧
    ∃ taken, (∀ key, taken_text key taken = pushed key acts) ∧ emitted c' ≡ₚ events_of taken).
Proof.
  intros Hr Hr'. pose proof (run_ok _ _ _ new_ok Hr) as Hok. split.
  { pose proof (run_work sched c c' Hok Hr'). lia. }
  intros Hstuck. assert (Hnone : ∀ i, threads c' !! i = None).
  { intros i. specialize (Hstuck i). by apply fmap_None in Hstuck. }
  assert (Hp : pending c' = ∅).
  { apply map_eq. intros key. rewrite lookup_empty. apply eq_None_not_Some. intros Hk.
    destruct (ok_timer _ (run_ok _ _ _ Hok Hr') key Hk) as [i Hi]. rewrite Hnone in Hi.
    by destruct Hi. }
  split; [done|].
  assert (Hall : run (acts ++ map Run sched) new = Some c') by by rewrite run_app, Hr.
  destruct (run_explained _ _ Hall) as (taken & [Ht He _] & _). exists taken. split.
  - intros key. specialize (Ht key). unfold pending_text in Ht. rewrite Hp, lookup_empty in Ht.
    simpl in Ht. rewrite app_string_nil_r in Ht. by rewrite Ht, pushed_run.
  - assert (threads c' = ∅) as Hempty by (apply map_eq; intros i; by rewrite Hnone).
    rewrite <- He. unfold in_flight. by rewrite Hempty, total_empty, app_nil_r.
Qed.
End steps.

(* ------------------------------------------------------------------ *)
(** ** Witnesses *)

Definition canonical_order : KeyOrder :=
  {| keys_of := λ m, map fst (map_to_list m); keys_of_perm := λ m, reflexivity _ |}.

Definition demo_key : DeltaKey := mk_delta_key "m" "p" "text".
(** The timer takes the first delta; the second is pushed and flushed by [flush_all],
    which ends; then the timer emits. *)
Definition race : list action :=
  [Push demo_key "a" false; Run 0; Run 0; Run 1; Push demo_key "b" false; FlushAll;
   Run 3; Run 3; Run 3].

(** A flush that overlaps a timer of the same part lets text out of order and past
    the end of [flush_all]: after [flush_all] returned, the first delta is still to be
    emitted, behind the second. *)
Lemma flush_all_can_overtake_timer :
  ∃ c c', @run canonical_order race new = Some c ∧ threads c !! 3%nat = None ∧
    emitted c = [TextEvent "b"] ∧ in_flight c = [TextEvent "a"] ∧
    @exec canonical_order (Run 1) c = Some c' ∧ emitted c' = [TextEvent "b"; TextEvent "a"].
Proof. eexists _, _. split_and!; [vm_compute; reflexivity|..]; vm_compute; reflexivity. Qed.

Definition calm : list action :=
  [Push demo_key "a" false; Push demo_key "b" false; FlushAll; Run 2; Run 2; Run 2].

Lemma every_delta_accounted_for_witness :
  ∃ taken, taken_text demo_key taken = "ab" ∧ [TextEvent "ab"] = events_of taken.
Proof.
  destruct (@run canonical_order calm new) as [c|] eqn:Hr; [|vm_compute in Hr; discriminate].
  assert (Hc : (λ c, (emitted c, in_flight c, pending_text demo_key c)) <$>
    @run canonical_order calm new = Some ([TextEvent "ab"], [], EmptyString)) by (vm_compute; reflexivity).
  rewrite Hr in Hc. simpl in Hc. injection Hc as He Hf Hp.
  destruct (@every_delta_accounted_for canonical_order calm c Hr) as (taken & Ht & _ & _ & Ho).
  exists taken. specialize (Ht demo_key). rewrite Hp, app_string_nil_r in Ht. split; [exact Ht|].
  rewrite He, Hf in Ho. apply Ho. intros n c' Hn.
  do 7 (destruct n as [|n]; [vm_compute in Hn; injection Hn as <-; vm_compute; lia|]).
  vm_compute in Hn. injection Hn as <-. vm_compute. lia.
Defined.

(** The timer of two pushes runs out by itself. *)
Lemma every_delta_is_delivered_witness :
  ∃ c, @run canonical_order [Push demo_key "a" true; Run 0; Run 0; Run 1; Run 1; Run 1] new = Some c ∧
    pending c = ∅.
Proof.
  set (acts := [Push demo_key "a" true]). set (sched := [0; 0; 1; 1; 1]%nat).
  destruct (@run canonical_order acts new) as [c|] eqn:Hr; [|vm_compute in Hr; discriminate].
  destruct (@run canonical_order (map Run sched) c) as [c'|] eqn:Hr';
    [|vm_compute in Hr; injection Hr as <-; vm_compute in Hr'; discriminate].
  exists c'. split.
  - change (@run canonical_order (acts ++ map Run sched) new = Some c').
    by rewrite run_app, Hr.
  - apply (@every_delta_is_delivered canonical_order acts sched c c' Hr Hr').
    intros i. vm_compute in Hr. injection Hr as <-. vm_compute in Hr'. injection Hr' as <-.
    simpl. destruct i as [|[|[|i]]]; reflexivity.
Defined.
End DeltaBatcher.
