(* ===== verification/CronTypes.v ===== *)
(** * CronTypes: the data of the scheduled jobs

    [types.rs] and [error.rs] of [chisl-cron], the row model of [chisl-db] and the
    transfer objects of [chisl-api-types], with the conversions between them.  A job
    is written to a row and read back unchanged. *)

From S2P Require Import Prelude.
From S2P Require Import Text.
From S2P Require Import Json.
From S2P Require Import TeamTypes.

Module CronError.
(** The [serde_json] error inside [Json] is third-party; its [Display] text is kept. *)
(* chisl-cron/src/error.rs:3-4 CronError *)
Inductive t :=
| JobNotFound (m : string) | InvalidSchedule (m : string) | InvalidCronExpression (m : string)
| InvalidExecutionMode (m : string) | InvalidCreatedBy (m : string) | InvalidJobStatus (m : string)
| InvalidTimezone (m : string) | InvalidSkillContent (m : string) | InvalidAgentConfig (m : string)
| Scheduler (m : string) | Database (e : DbError.t) | Json (e : string).

(* chisl-cron/src/error.rs:5-39 Display for CronError *)
Definition to_string (e : t) : string :=
  match e with
  | JobNotFound m => "Cron job not found: " +:+ m
  | InvalidSchedule m => "Invalid schedule: " +:+ m
  | InvalidCronExpression m => "Invalid cron expression: " +:+ m
  | InvalidExecutionMode m => "Invalid execution mode: " +:+ m
  | InvalidCreatedBy m => "Invalid created-by value: " +:+ m
  | InvalidJobStatus m => "Invalid job status: " +:+ m
  | InvalidTimezone m => "Invalid timezone: " +:+ m
  | InvalidSkillContent m => "Invalid skill content: " +:+ m
  | InvalidAgentConfig m => "Invalid agent config: " +:+ m
  | Scheduler m => "Scheduler error: " +:+ m
  | Database e => DbError.to_string e
  | Json e => "JSON error: " +:+ e
  end.

(* chisl-cron/src/error.rs:42-59 From<CronError> for AppError *)
Definition to_app (e : t) : AppError.t :=
  match e with
  | JobNotFound m => AppError.NotFound m
  | InvalidSchedule m | InvalidCronExpression m | InvalidExecutionMode m | InvalidCreatedBy m
  | InvalidJobStatus m | InvalidTimezone m | InvalidSkillContent m | InvalidAgentConfig m =>
      AppError.BadRequest m
  | Scheduler m => AppError.Internal m
  | Database e => DbError.to_app e
  | Json e => AppError.Internal ("JSON error: " +:+ e)
  end.
End CronError.

Module CronSchedule.
(* chisl-cron/src/types.rs:19-33 CronSchedule *)
Inductive t :=
| At (at_ms : TimestampMs) (description : option string)
| Every (every_ms : Z) (description : option string)
| Cron (expr : string) (tz description : option string).

Definition is_at (s : t) : bool := match s with At _ _ => true | _ => false end.

(* chisl-cron/src/service.rs:1140-1146 schedule_description *)
Definition schedule_description (s : t) : option string :=
  match s with At _ d | Every _ d | Cron _ _ d => d end.

#[global] Instance t_eq_dec : EqDecision t.
Proof. solve_decision. Defined.
End CronSchedule.

Module ExecutionMode.
(* chisl-cron/src/types.rs:37-40 ExecutionMode *)
Inductive t := Existing | NewConversation.
#[global] Instance t_eq_dec : EqDecision t.
Proof. solve_decision. Defined.
(* chisl-cron/src/types.rs:43-48 ExecutionMode::as_str *)
Definition as_str (m : t) : string :=
  match m with Existing => "existing" | NewConversation => "new_conversation" end.
(* chisl-cron/src/types.rs:53-59 ExecutionMode::from_str *)
Definition from_str (s : string) : result t CronError.t :=
  if String.eqb s "existing" then Ok Existing
  else if String.eqb s "new_conversation" then Ok NewConversation
  else Err (CronError.InvalidExecutionMode s).
End ExecutionMode.

Module CreatedBy.
(* chisl-cron/src/types.rs:64-67 CreatedBy *)
Inductive t := User | Agent.
(* chisl-cron/src/types.rs:70-75 CreatedBy::as_str *)
Definition as_str (c : t) : string := match c with User => "user" | Agent => "agent" end.
(* chisl-cron/src/types.rs:80-86 CreatedBy::from_str *)
Definition from_str (s : string) : result t CronError.t :=
  if String.eqb s "user" then Ok User
  else if String.eqb s "agent" then Ok Agent
  else Err (CronError.InvalidCreatedBy s).
End CreatedBy.

Module JobStatus.
(* chisl-cron/src/types.rs:91-96 JobStatus *)
Inductive t := Succeeded | Failed | Skipped | Missed.
(* chisl-cron/src/types.rs:99-106 JobStatus::as_str *)
Definition as_str (s : t) : string :=
  match s with Succeeded => "ok" | Failed => "error" | Skipped => "skipped" | Missed => "missed" end.
(* chisl-cron/src/types.rs:111-119 JobStatus::from_str *)
Definition from_str (s : string) : result t CronError.t :=
  if String.eqb s "ok" then Ok Succeeded
  else if String.eqb s "error" then Ok Failed
  else if String.eqb s "skipped" then Ok Skipped
  else if String.eqb s "missed" then Ok Missed
  else Err (CronError.InvalidJobStatus s).
End JobStatus.

Module CronAgentConfig.
(* chisl-cron/src/types.rs:127-146 CronAgentConfig *)
Record t := mk {
  backend : string; name : string; cli_path : option string; is_preset : option bool;
  custom_agent_id : option string; preset_agent_type : option string; mode : option string;
  model_id : option string; config_options : option (gmap string string);
  workspace : option string }.
End CronAgentConfig.

Module CronJob.
(* chisl-cron/src/types.rs:153-176 CronJob *)
Record t := mk {
  id : string; name : string; enabled : bool; schedule : CronSchedule.t; message : string;
  execution_mode : ExecutionMode.t; agent_config : option CronAgentConfig.t;
  conversation_id : string; conversation_title : option string; agent_type : string;
  created_by : CreatedBy.t; skill_content : option string; description : option string;
  created_at : TimestampMs; updated_at : TimestampMs; next_run_at : option TimestampMs;
  last_run_at : option TimestampMs; last_status : option JobStatus.t;
  last_error : option string; run_count : Z; retry_count : Z; max_retries : Z }.

(** [CronJob { enabled, next_run_at, ..job.clone() }]. *)
Definition with_run (enabled : bool) (next_run_at : option TimestampMs) (j : t) : t :=
  mk (id j) (name j) enabled (schedule j) (message j) (execution_mode j) (agent_config j)
    (conversation_id j) (conversation_title j) (agent_type j) (created_by j) (skill_content j)
    (description j) (created_at j) (updated_at j) next_run_at (last_run_at j) (last_status j)
    (last_error j) (run_count j) (retry_count j) (max_retries j).
(** [job.next_run_at = ..; job.updated_at = ..]. *)
Definition with_times (next_run_at : option TimestampMs) (updated_at : TimestampMs) (j : t) : t :=
  mk (id j) (name j) (enabled j) (schedule j) (message j) (execution_mode j) (agent_config j)
    (conversation_id j) (conversation_title j) (agent_type j) (created_by j) (skill_content j)
    (description j) (created_at j) updated_at next_run_at (last_run_at j) (last_status j)
    (last_error j) (run_count j) (retry_count j) (max_retries j).
End CronJob.

Module CronJobRow.
(* chisl-db/src/models/cron_job.rs:5-32 CronJobRow *)
Record t := mk {
  id : string; name : string; enabled : bool; schedule_kind : string; schedule_value : string;
  schedule_tz : option string; schedule_description : option string; payload_message : string;
  execution_mode : string; agent_config : option string; conversation_id : string;
  conversation_title : option string; agent_type : string; created_by : string;
  skill_content : option string; description : option string; created_at : TimestampMs;
  updated_at : TimestampMs; next_run_at : option TimestampMs; last_run_at : option TimestampMs;
  last_status : option string; last_error : option string; run_count : Z; retry_count : Z;
  max_retries : Z }.
End CronJobRow.

(** [serde_json] on [CronAgentConfig]: writing does not fail, reading may. *)
Class CronJson := {
  config_to_string : CronAgentConfig.t → string;
  config_from_str : string → result CronAgentConfig.t string;
  config_roundtrip : ∀ c, config_from_str (config_to_string c) = Ok c;
}.

(** [Option::map(f).transpose()]. *)
Definition transpose_map {A B E} (f : A → result B E) (o : option A) : result (option B) E :=
  match o with None => Ok None | Some a => res_map Some (f a) end.

(* ------------------------------------------------------------------ *)
(** ** Rows *)

(* chisl-cron/src/types.rs:227-259 parse_schedule *)
Definition parse_schedule (kind value : string) (tz description : option string) :
    result CronSchedule.t CronError.t :=
  if String.eqb kind "at" then
    let? at_ms := res_map_err (λ e, CronError.InvalidSchedule
      ("invalid at_ms '" +:+ value +:+ "': " +:+ show_parse_int_error e)) (parse_i64 value) in
    Ok (CronSchedule.At at_ms description)
  else if String.eqb kind "every" then
    let? every_ms := res_map_err (λ e, CronError.InvalidSchedule
      ("invalid every_ms '" +:+ value +:+ "': " +:+ show_parse_int_error e)) (parse_i64 value) in
    Ok (CronSchedule.Every every_ms description)
  else if String.eqb kind "cron" then Ok (CronSchedule.Cron value tz description)
  else Err (CronError.InvalidSchedule ("unknown schedule kind: " +:+ kind)).

(** Kind, value, time zone and description. *)
(* chisl-cron/src/types.rs:299-309 schedule_to_row_fields *)
Definition schedule_to_row_fields (s : CronSchedule.t) :
    string * string * option string * option string :=
  match s with
  | CronSchedule.At at_ms d => ("at", show_i64 at_ms, None, d)
  | CronSchedule.Every every_ms d => ("every", show_i64 every_ms, None, d)
  | CronSchedule.Cron expr tz d => ("cron", expr, tz, d)
  end.

Section rows.
Context {CJ : CronJson}.

(* chisl-cron/src/types.rs:182-225 cron_job_from_row *)
Definition cron_job_from_row (row : CronJobRow.t) : result CronJob.t CronError.t :=
  let? schedule := parse_schedule (CronJobRow.schedule_kind row) (CronJobRow.schedule_value row)
    (CronJobRow.schedule_tz row) (CronJobRow.schedule_description row) in
  let? execution_mode := ExecutionMode.from_str (CronJobRow.execution_mode row) in
  let? created_by := CreatedBy.from_str (CronJobRow.created_by row) in
  let? agent_config := transpose_map (λ s, res_map_err CronError.Json (config_from_str s))
    (CronJobRow.agent_config row) in
  let? last_status := transpose_map JobStatus.from_str (CronJobRow.last_status row) in
  Ok (CronJob.mk (CronJobRow.id row) (CronJobRow.name row) (CronJobRow.enabled row) schedule
    (CronJobRow.payload_message row) execution_mode agent_config (CronJobRow.conversation_id row)
    (CronJobRow.conversation_title row) (CronJobRow.agent_type row) created_by
    (CronJobRow.skill_content row) (CronJobRow.description row) (CronJobRow.created_at row)
    (CronJobRow.updated_at row) (CronJobRow.next_run_at row) (CronJobRow.last_run_at row)
    last_status (CronJobRow.last_error row) (CronJobRow.run_count row)
    (CronJobRow.retry_count row) (CronJobRow.max_retries row)).

(* chisl-cron/src/types.rs:265-297 cron_job_to_row *)
Definition cron_job_to_row (job : CronJob.t) : CronJobRow.t :=
  let '(kind, value, tz, desc) := schedule_to_row_fields (CronJob.schedule job) in
  CronJobRow.mk (CronJob.id job) (CronJob.name job) (CronJob.enabled job) kind value tz desc
    (CronJob.message job) (ExecutionMode.as_str (CronJob.execution_mode job))
    (config_to_string <$> CronJob.agent_config job) (CronJob.conversation_id job)
    (CronJob.conversation_title job) (CronJob.agent_type job)
    (CreatedBy.as_str (CronJob.created_by job)) (CronJob.skill_content job)
    (CronJob.description job) (CronJob.created_at job) (CronJob.updated_at job)
    (CronJob.next_run_at job) (CronJob.last_run_at job)
    (JobStatus.as_str <$> CronJob.last_status job) (CronJob.last_error job)
    (CronJob.run_count job) (CronJob.retry_count job) (CronJob.max_retries job).
End rows.

(* ------------------------------------------------------------------ *)
(** ** Transfer objects *)

Module CronScheduleDto.
(* chisl-api-types/src/cron.rs:12-33 CronScheduleDto *)
Inductive t :=
| At (at_ms : TimestampMs) (description : option string)
| Every (every_ms : Z) (description : option string)
| Cron (expr : string) (tz description : option string).
End CronScheduleDto.

Module CronAgentConfigDto.
(* chisl-api-types/src/cron.rs:40-59 CronAgentConfigDto *)
Record t := mk {
  backend : string; name : string; cli_path : option string; is_preset : option bool;
  custom_agent_id : option string; preset_agent_type : option string; mode : option string;
  model_id : option string; config_options : option (gmap string string);
  workspace : option string }.
(** [CronAgentConfig { backend: c.backend, .. }], of [add_job] and [update_job]. *)
(* chisl-cron/src/service.rs:76-87 add_job (agent_config) *)
Definition to_config (c : t) : CronAgentConfig.t :=
  CronAgentConfig.mk (backend c) (name c) (cli_path c) (is_preset c) (custom_agent_id c)
    (preset_agent_type c) (mode c) (model_id c) (config_options c) (workspace c).
(* chisl-cron/src/types.rs:331-342 cron_job_to_response (agent_config) *)
Definition from_config (c : CronAgentConfig.t) : t :=
  mk (CronAgentConfig.backend c) (CronAgentConfig.name c) (CronAgentConfig.cli_path c)
    (CronAgentConfig.is_preset c) (CronAgentConfig.custom_agent_id c)
    (CronAgentConfig.preset_agent_type c) (CronAgentConfig.mode c) (CronAgentConfig.model_id c)
    (CronAgentConfig.config_options c) (CronAgentConfig.workspace c).
End CronAgentConfigDto.

Module CronJobResponse.
(* chisl-api-types/src/cron.rs:67-70 CronJobPayloadDto *)
Inductive payload := Message (text : string).
(* chisl-api-types/src/cron.rs:73-77 CronJobTargetDto *)
Record target := mk_target { t_payload : payload; t_execution_mode : option string }.
(* chisl-api-types/src/cron.rs:80-90 CronJobMetadataDto *)
Record metadata := mk_metadata {
  conversation_id : string; conversation_title : option string; agent_type : string;
  created_by : string; created_at : TimestampMs; updated_at : TimestampMs;
  agent_config : option CronAgentConfigDto.t }.
(* chisl-api-types/src/cron.rs:93-105 CronJobStateDto *)
Record state := mk_state {
  next_run_at_ms : option TimestampMs; last_run_at_ms : option TimestampMs;
  last_status : option string; last_error : option string; run_count : Z; retry_count : Z;
  max_retries : Z }.
(* chisl-api-types/src/cron.rs:108-118 CronJobResponse *)
Record t := mk {
  id : string; name : string; description : option string; enabled : bool;
  schedule : CronScheduleDto.t; job_target : target; job_metadata : metadata; job_state : state }.
End CronJobResponse.

(* chisl-cron/src/types.rs:316-329 cron_job_to_response (schedule) *)
Definition schedule_to_dto (s : CronSchedule.t) : CronScheduleDto.t :=
  match s with
  | CronSchedule.At at_ms d => CronScheduleDto.At at_ms d
  | CronSchedule.Every every_ms d => CronScheduleDto.Every every_ms d
  | CronSchedule.Cron expr tz d => CronScheduleDto.Cron expr tz d
  end.

(* chisl-cron/src/types.rs:382-398 schedule_from_dto *)
Definition schedule_from_dto (dto : CronScheduleDto.t) : CronSchedule.t :=
  match dto with
  | CronScheduleDto.At at_ms d => CronSchedule.At at_ms d
  | CronScheduleDto.Every every_ms d => CronSchedule.Every every_ms d
  | CronScheduleDto.Cron expr tz d => CronSchedule.Cron expr tz d
  end.

(* chisl-cron/src/types.rs:315-376 cron_job_to_response *)
Definition cron_job_to_response (job : CronJob.t) : CronJobResponse.t :=
  CronJobResponse.mk (CronJob.id job) (CronJob.name job) (CronJob.description job)
    (CronJob.enabled job) (schedule_to_dto (CronJob.schedule job))
    (CronJobResponse.mk_target (CronJobResponse.Message (CronJob.message job))
      (Some (ExecutionMode.as_str (CronJob.execution_mode job))))
    (CronJobResponse.mk_metadata (CronJob.conversation_id job) (CronJob.conversation_title job)
      (CronJob.agent_type job) (CreatedBy.as_str (CronJob.created_by job)) (CronJob.created_at job)
      (CronJob.updated_at job) (CronAgentConfigDto.from_config <$> CronJob.agent_config job))
    (CronJobResponse.mk_state (CronJob.next_run_at job) (CronJob.last_run_at job)
      (JobStatus.as_str <$> CronJob.last_status job) (CronJob.last_error job)
      (CronJob.run_count job) (CronJob.retry_count job) (CronJob.max_retries job)).

Module CreateCronJobRequest.
(* chisl-api-types/src/cron.rs:125-143 CreateCronJobRequest *)
Record t := mk {
  name : string; description : option string; schedule : CronScheduleDto.t;
  prompt : option string; message : option string; conversation_id : string;
  conversation_title : option string; agent_type : string; created_by : string;
  execution_mode : option string; agent_config : option CronAgentConfigDto.t }.
End CreateCronJobRequest.

Module UpdateCronJobRequest.
(* chisl-api-types/src/cron.rs:146-165 UpdateCronJobRequest *)
Record t := mk {
  name : option string; description : option string; enabled : option bool;
  schedule : option CronScheduleDto.t; message : option string; execution_mode : option string;
  agent_config : option CronAgentConfigDto.t; conversation_title : option string;
  max_retries : option Z }.
End UpdateCronJobRequest.

(* ------------------------------------------------------------------ *)
(** ** Round trips *)

Lemma execution_mode_roundtrip m : ExecutionMode.from_str (ExecutionMode.as_str m) = Ok m.
Proof. by destruct m. Qed.
Lemma created_by_roundtrip c : CreatedBy.from_str (CreatedBy.as_str c) = Ok c.
Proof. by destruct c. Qed.
Lemma job_status_roundtrip s : JobStatus.from_str (JobStatus.as_str s) = Ok s.
Proof. by destruct s. Qed.

Definition i64 (z : Z) : Prop := - 2 ^ 63 ≤ z < 2 ^ 63.

(** The integers of a schedule are 64-bit. *)
Definition schedule_ok (s : CronSchedule.t) : Prop :=
  match s with
  | CronSchedule.At n _ | CronSchedule.Every n _ => i64 n
  | CronSchedule.Cron _ _ _ => True
  end.

Lemma parse_schedule_fields s :
  schedule_ok s →
  let '(kind, value, tz, desc) := schedule_to_row_fields s in
  parse_schedule kind value tz desc = Ok s.
Proof.
  destruct s as [n d|n d|expr tz d]; simpl; intros Hs; [..|done];
    unfold parse_schedule; simpl; by rewrite parse_show_i64.
Qed.

(** A job written to the database reads back as the same job. *)
Lemma cron_job_row_roundtrip {CJ : CronJson} (job : CronJob.t) :
  schedule_ok (CronJob.schedule job) → cron_job_from_row (cron_job_to_row job) = Ok job.
Proof.
  intros Hs. apply parse_schedule_fields in Hs. unfold cron_job_to_row.
  destruct (schedule_to_row_fields (CronJob.schedule job)) as [[[kind value] tz] desc].
  unfold cron_job_from_row. simpl. rewrite Hs. simpl.
  rewrite execution_mode_roundtrip. simpl. rewrite created_by_roundtrip. simpl.
  destruct job as [? ? ? ? ? ? cfg ? ? ? ? ? ? ? ? ? ? st ? ? ? ?]; simpl.
  destruct cfg as [c|]; simpl; rewrite ?config_roundtrip; simpl;
    (destruct st as [x|]; simpl; [by rewrite job_status_roundtrip|done]).
Qed.

(* ------------------------------------------------------------------ *)
(** ** A concrete format of the agent configuration, for examples *)

Module ConfigText.
Definition put_opt (o : option string) : string :=
  match o with None => EmptyString | Some s => String plus_sign s end.
Definition get_opt (s : string) : option string :=
  match s with EmptyString => None | String _ s' => Some s' end.

Fixpoint put_pairs (l : list (string * string)) : list string :=
  match l with [] => [] | (k, v) :: l' => k :: v :: put_pairs l' end.
Fixpoint get_pairs (l : list string) : list (string * string) :=
  match l with k :: v :: l' => (k, v) :: get_pairs l' | _ => [] end.

Lemma get_put_opt o : get_opt (put_opt o) = o.
Proof. by destruct o. Qed.
Lemma get_put_pairs l : get_pairs (put_pairs l) = l.
Proof. induction l as [|[k v] l IH]; simpl; [done|]. by rewrite IH. Qed.

Definition put (c : CronAgentConfig.t) : string :=
  JsonText.put [
    CronAgentConfig.backend c; CronAgentConfig.name c; put_opt (CronAgentConfig.cli_path c);
    put_opt ((λ b : bool, if b then "t" else EmptyString) <$> CronAgentConfig.is_preset c);
    put_opt (CronAgentConfig.custom_agent_id c); put_opt (CronAgentConfig.preset_agent_type c);
    put_opt (CronAgentConfig.mode c); put_opt (CronAgentConfig.model_id c);
    put_opt ((λ m : gmap string string, JsonText.put (put_pairs (map_to_list m))) <$> CronAgentConfig.config_options c);
    put_opt (CronAgentConfig.workspace c)].

Definition get (s : string) : result CronAgentConfig.t string :=
  match JsonText.get s with
  | Some [backend; name; cli; preset; custom; ptype; mode; model; options; workspace] =>
      Ok (CronAgentConfig.mk backend name (get_opt cli)
        ((λ b, negb (String.eqb b EmptyString)) <$> get_opt preset) (get_opt custom) (get_opt ptype)
        (get_opt mode) (get_opt model)
        ((λ t, list_to_map (get_pairs (default [] (JsonText.get t)))) <$> get_opt options)
        (get_opt workspace))
  | _ => Err "invalid"
  end.

Lemma get_put_config c : get (put c) = Ok c.
Proof.
  unfold get, put. rewrite JsonText.get_put, !get_put_opt.
  destruct c as [b n cli pr cu pt mo mi op w]; simpl. f_equal. f_equal.
  - by destruct pr as [[]|].
  - destruct op as [m|]; simpl; [|done]. by rewrite JsonText.get_put; simpl; rewrite get_put_pairs, list_to_map_to_list.
Qed.
End ConfigText.

Definition config_text : CronJson := {|
  config_to_string := ConfigText.put; config_from_str := ConfigText.get;
  config_roundtrip := ConfigText.get_put_config |}.

(** A job that runs every minute in an existing conversation. *)
Definition demo_job : CronJob.t :=
  CronJob.mk "cron_demo" "report" true (CronSchedule.Every 60000 None) "go" ExecutionMode.Existing
    (Some (CronAgentConfig.mk "claude" "c" None (Some true) None None None None (Some {["k" := "v"]}) None))
    "conv" None "acp" CreatedBy.User None None 1 2 (Some 60001) None (Some JobStatus.Failed) None 1 0 2.

Lemma cron_job_row_roundtrip_witness :
  i64 60000 ∧ @cron_job_from_row config_text (@cron_job_to_row config_text demo_job) = Ok demo_job.
Proof.
  split; [split; by vm_compute|]. apply (@cron_job_row_roundtrip config_text demo_job). split; by vm_compute.
Defined.
