(* ===== verification/CronRepo.v ===== *)
(** * CronRepo: the table of scheduled jobs

    The trait [ICronRepository] ([chisl-db/src/repository/cron.rs]) as a class of
    operations, the contract its documentation states ([CronRepositorySpec]), and
    the SQLite implementation on the list of rows of the table, which discharges it
    ([sqlite_cron.rs]; constraints of migration 001).  I/O failures of [sqlx] are
    not modelled. *)

From S2P Require Import Prelude.
From S2P Require Import Text.
From S2P Require Import TeamTypes.
From S2P Require Import TeamRepo.
From S2P Require Import TeamRepoSqlite.
From S2P Require Import CronTypes.

Module UpdateCronJobParams.
(** [Option<Option<_>>]: [Some None] writes [NULL]. *)
(* chisl-db/src/repository/cron.rs:10-31 UpdateCronJobParams *)
Record t := mk {
  name : option string; enabled : option bool; schedule_kind : option string;
  schedule_value : option string; schedule_tz : option (option string);
  schedule_description : option (option string); payload_message : option string;
  execution_mode : option string; agent_config : option (option string);
  conversation_id : option string; conversation_title : option (option string);
  agent_type : option string; skill_content : option (option string);
  description : option (option string); next_run_at : option (option TimestampMs);
  last_run_at : option (option TimestampMs); last_status : option (option string);
  last_error : option (option string); run_count : option Z; retry_count : option Z }.

(** [..Default::default()] with the columns an execution writes. *)
Definition of_run (conversation_id : option string) (last_run_at : option (option TimestampMs))
    (last_status last_error : option (option string)) (run_count retry_count : option Z) : t :=
  mk None None None None None None None None None conversation_id None None None None None
    last_run_at last_status last_error run_count retry_count.
Definition of_schedule (enabled : option bool) (next_run_at : option (option TimestampMs)) : t :=
  mk None enabled None None None None None None None None None None None None next_run_at
    None None None None None.
Definition of_skill (skill_content : option (option string)) : t :=
  mk None None None None None None None None None None None None skill_content None None
    None None None None None.
End UpdateCronJobParams.

(* chisl-db/src/repository/cron.rs:35-61 ICronRepository *)
Class ICronRepository (Db : Type) := {
  insert : CronJobRow.t → ST Db DbError.t unit;
  update : TimestampMs → string → UpdateCronJobParams.t → ST Db DbError.t unit;
  delete : string → ST Db DbError.t unit;
  get_by_id : string → ST Db DbError.t (option CronJobRow.t);
  list_all : ST Db DbError.t (list CronJobRow.t);
  list_enabled : ST Db DbError.t (list CronJobRow.t);
  list_by_conversation : string → ST Db DbError.t (list CronJobRow.t);
  delete_by_conversation : string → ST Db DbError.t Z;
}.

(* ------------------------------------------------------------------ *)
(** ** The abstract effects of the operations on the rows *)

Section effects.
Import UpdateCronJobParams.

(** [set_parts.is_empty()]. *)
Definition no_set_parts (p : UpdateCronJobParams.t) : bool :=
  match p with
  | mk None None None None None None None None None None None None None None None None None None None None => true
  | _ => false
  end.

(** The row after the [SET] clauses of [update]. *)
Definition row_update (now : TimestampMs) (p : UpdateCronJobParams.t) (r : CronJobRow.t) : CronJobRow.t :=
  CronJobRow.mk (CronJobRow.id r) (default (CronJobRow.name r) (name p))
    (default (CronJobRow.enabled r) (enabled p))
    (default (CronJobRow.schedule_kind r) (schedule_kind p))
    (default (CronJobRow.schedule_value r) (schedule_value p))
    (default (CronJobRow.schedule_tz r) (schedule_tz p))
    (default (CronJobRow.schedule_description r) (schedule_description p))
    (default (CronJobRow.payload_message r) (payload_message p))
    (default (CronJobRow.execution_mode r) (execution_mode p))
    (default (CronJobRow.agent_config r) (agent_config p))
    (default (CronJobRow.conversation_id r) (conversation_id p))
    (default (CronJobRow.conversation_title r) (conversation_title p))
    (default (CronJobRow.agent_type r) (agent_type p)) (CronJobRow.created_by r)
    (default (CronJobRow.skill_content r) (skill_content p))
    (default (CronJobRow.description r) (description p)) (CronJobRow.created_at r) now
    (default (CronJobRow.next_run_at r) (next_run_at p))
    (default (CronJobRow.last_run_at r) (last_run_at p))
    (default (CronJobRow.last_status r) (last_status p))
    (default (CronJobRow.last_error r) (last_error p))
    (default (CronJobRow.run_count r) (run_count p))
    (default (CronJobRow.retry_count r) (retry_count p)) (CronJobRow.max_retries r).

Definition job_ids (rows : list CronJobRow.t) : list string := map CronJobRow.id rows.
Definition is_job (id : string) (r : CronJobRow.t) : bool := String.eqb (CronJobRow.id r) id.
Definition in_conversation (conv : string) (r : CronJobRow.t) : bool :=
  String.eqb (CronJobRow.conversation_id r) conv.

(** [UPDATE cron_jobs SET .. WHERE id = ?], [DELETE FROM cron_jobs WHERE p]. *)
Definition update_job_where (id : string) (f : CronJobRow.t → CronJobRow.t)
    (rows : list CronJobRow.t) : list CronJobRow.t :=
  map (λ r, if is_job id r then f r else r) rows.
Definition delete_where (p : CronJobRow.t → bool) (rows : list CronJobRow.t) : list CronJobRow.t :=
  List.filter (λ r, negb (p r)) rows.

(** The CHECK constraints of [cron_jobs]. *)
Definition row_ok (r : CronJobRow.t) : bool :=
  bool_decide (CronJobRow.schedule_kind r ∈ ["at"; "every"; "cron"]) &&
  bool_decide (CronJobRow.execution_mode r ∈ ["existing"; "new_conversation"]) &&
  bool_decide (CronJobRow.created_by r ∈ ["user"; "agent"]) &&
  match CronJobRow.last_status r with
  | None => true
  | Some s => bool_decide (s ∈ ["ok"; "error"; "skipped"; "missed"])
  end.

Definition job_not_found (id : string) : DbError.t :=
  DbError.NotFound ("cron job '" +:+ id +:+ "'").
End effects.

(* ------------------------------------------------------------------ *)
(** ** The contract *)

Class CronRepositorySpec (Db : Type) `{ICronRepository Db} := {
  rs_jobs : Db → list CronJobRow.t;
  cron_ok : Db → Prop;
  cron_ok_rows db :
    cron_ok db → NoDup (job_ids (rs_jobs db)) ∧ Forall (λ r, row_ok r = true) (rs_jobs db);
  insert_spec row db :
    cron_ok db → CronJobRow.id row ∉ job_ids (rs_jobs db) → row_ok row = true →
    ∃ db', insert row db = (db', Ok tt) ∧ cron_ok db' ∧ rs_jobs db' = rs_jobs db ++ [row];
  update_spec now id p db :
    cron_ok db → Forall (λ r, row_ok (row_update now p r) = true) (List.filter (is_job id) (rs_jobs db)) →
    ∃ db', update now id p db =
        (db', if no_set_parts p || bool_decide (id ∈ job_ids (rs_jobs db)) then Ok tt
              else Err (job_not_found id)) ∧ cron_ok db' ∧
      rs_jobs db' = (if no_set_parts p then rs_jobs db
                     else update_job_where id (row_update now p) (rs_jobs db));
  delete_spec id db :
    cron_ok db →
    ∃ db', delete id db = (db', if bool_decide (id ∈ job_ids (rs_jobs db)) then Ok tt
                                else Err (job_not_found id)) ∧ cron_ok db' ∧
      rs_jobs db' = delete_where (is_job id) (rs_jobs db);
  get_by_id_spec id db : get_by_id id db = (db, Ok (List.find (is_job id) (rs_jobs db)));
  list_all_spec db : list_all db = (db, Ok (sort_by CronJobRow.created_at (rs_jobs db)));
  list_enabled_spec db :
    list_enabled db =
      (db, Ok (sort_by CronJobRow.created_at (List.filter CronJobRow.enabled (rs_jobs db))));
  list_by_conversation_spec conv db :
    list_by_conversation conv db =
      (db, Ok (sort_by CronJobRow.created_at (List.filter (in_conversation conv) (rs_jobs db))));
  delete_by_conversation_spec conv db :
    cron_ok db →
    ∃ db', delete_by_conversation conv db =
        (db', Ok (Z.of_nat (length (List.filter (in_conversation conv) (rs_jobs db))))) ∧ cron_ok db' ∧
      rs_jobs db' = delete_where (in_conversation conv) (rs_jobs db);
}.

(* ------------------------------------------------------------------ *)
(** ** The SQLite implementation: the table is the list of its rows *)

Module SqliteCronRepository.
Definition CronDb : Type := list CronJobRow.t.

(* chisl-db/src/repository/sqlite_cron.rs:21-61 insert *)
Definition insert (row : CronJobRow.t) : ST CronDb DbError.t unit := λ db,
  if negb (row_ok row) then (db, Err (check_violation "cron_jobs"))
  else if bool_decide (CronJobRow.id row ∈ job_ids db) then (db, Err (unique_violation "cron_jobs.id"))
  else (db ++ [row], Ok tt).

(* chisl-db/src/repository/sqlite_cron.rs:63-148 update *)
Definition update (now : TimestampMs) (id : string) (p : UpdateCronJobParams.t) :
    ST CronDb DbError.t unit := λ db,
  if no_set_parts p then (db, Ok tt)
  else
    let db' := update_job_where id (row_update now p) db in
    if negb (forallb row_ok (List.filter (is_job id) db'))
    then (db, Err (check_violation "cron_jobs"))
    else if bool_decide (id ∈ job_ids db) then (db', Ok tt) else (db, Err (job_not_found id)).

(* chisl-db/src/repository/sqlite_cron.rs:150-159 delete *)
Definition delete (id : string) : ST CronDb DbError.t unit := λ db,
  if bool_decide (id ∈ job_ids db) then (delete_where (is_job id) db, Ok tt)
  else (db, Err (job_not_found id)).

(* chisl-db/src/repository/sqlite_cron.rs:161-167 get_by_id *)
Definition get_by_id (id : string) : ST CronDb DbError.t (option CronJobRow.t) := λ db,
  (db, Ok (List.find (is_job id) db)).

(* chisl-db/src/repository/sqlite_cron.rs:169-174 list_all *)
Definition list_all : ST CronDb DbError.t (list CronJobRow.t) := λ db,
  (db, Ok (sort_by CronJobRow.created_at db)).

(* chisl-db/src/repository/sqlite_cron.rs:176-181 list_enabled *)
Definition list_enabled : ST CronDb DbError.t (list CronJobRow.t) := λ db,
  (db, Ok (sort_by CronJobRow.created_at (List.filter CronJobRow.enabled db))).

(* chisl-db/src/repository/sqlite_cron.rs:183-191 list_by_conversation *)
Definition list_by_conversation (conv : string) : ST CronDb DbError.t (list CronJobRow.t) := λ db,
  (db, Ok (sort_by CronJobRow.created_at (List.filter (in_conversation conv) db))).

(* chisl-db/src/repository/sqlite_cron.rs:193-199 delete_by_conversation *)
Definition delete_by_conversation (conv : string) : ST CronDb DbError.t Z := λ db,
  (delete_where (in_conversation conv) db,
   Ok (Z.of_nat (length (List.filter (in_conversation conv) db)))).

#[export] Instance repository : ICronRepository CronDb := {|
  CronRepo.insert := insert; CronRepo.update := update; CronRepo.delete := delete;
  CronRepo.get_by_id := get_by_id; CronRepo.list_all := list_all;
  CronRepo.list_enabled := list_enabled; CronRepo.list_by_conversation := list_by_conversation;
  CronRepo.delete_by_conversation := delete_by_conversation |}.
End SqliteCronRepository.
#[export] Existing Instance SqliteCronRepository.repository.

(* ------------------------------------------------------------------ *)
(** ** The implementation meets the contract *)

Lemma is_job_update now p id r : is_job id (row_update now p r) = is_job id r.
Proof. done. Qed.

Lemma job_ids_update id f rows :
  (∀ r, CronJobRow.id (f r) = CronJobRow.id r) → job_ids (update_job_where id f rows) = job_ids rows.
Proof.
  intros Hf. unfold job_ids, update_job_where. rewrite map_map. apply map_ext. intros r.
  case_match; auto.
Qed.

Lemma not_in_job_ids id rows : id ∉ job_ids rows ↔ List.filter (is_job id) rows = [].
Proof.
  unfold job_ids, is_job. induction rows as [|r rows IH]; simpl; [set_solver|].
  rewrite not_elem_of_cons, IH. destruct (String.eqb_spec (CronJobRow.id r) id) as [->|Hne]; naive_solver.
Qed.

Lemma update_job_where_absent id f rows : id ∉ job_ids rows → update_job_where id f rows = rows.
Proof.
  unfold update_job_where, job_ids, is_job. induction rows as [|r rows IH]; simpl; [done|].
  rewrite not_elem_of_cons. intros [Hne Hrows]. rewrite IH by done.
  by rewrite (proj2 (String.eqb_neq _ _) (not_eq_sym Hne)).
Qed.

Lemma filter_update_where id f rows :
  (∀ r, is_job id (f r) = is_job id r) →
  List.filter (is_job id) (update_job_where id f rows) = map f (List.filter (is_job id) rows).
Proof.
  intros Hf. unfold update_job_where. induction rows as [|r rows IH]; simpl; [done|].
  destruct (is_job id r) eqn:E; simpl; [by rewrite Hf, E, IH|by rewrite E, IH].
Qed.

Lemma rows_ok_update id f rows :
  Forall (λ r, row_ok r = true) rows →
  Forall (λ r, row_ok (f r) = true) (List.filter (is_job id) rows) →
  Forall (λ r, row_ok r = true) (update_job_where id f rows).
Proof.
  unfold update_job_where. induction 1 as [|r rows Hr _ IH]; simpl; [constructor|].
  destruct (is_job id r); [|by constructor; auto]. rewrite Forall_cons. intros [? ?].
  constructor; auto.
Qed.

Lemma forallb_row_ok rows : forallb row_ok rows = true ↔ Forall (λ r, row_ok r = true) rows.
Proof. rewrite forallb_forall, Forall_forall. by setoid_rewrite <- list_elem_of_In. Qed.

Lemma Forall_filter_list {A} (P : A → Prop) (p : A → bool) l : Forall P l → Forall P (List.filter p l).
Proof. induction 1; simpl; [constructor|]. case_match; [by constructor|done]. Qed.

#[export] Program Instance sqlite_cron_spec : CronRepositorySpec SqliteCronRepository.CronDb := {|
  rs_jobs := λ db, db;
  cron_ok := λ db, NoDup (job_ids db) ∧ Forall (λ r, row_ok r = true) db;
|}.
Next Obligation. done. Qed.
Next Obligation.
  intros row db [Hnd Hrows] Hid Hr. simpl. unfold SqliteCronRepository.insert. rewrite Hr. simpl.
  rewrite bool_decide_eq_false_2 by done. eexists. split; [done|]. split; [|done]. split.
  - unfold job_ids. rewrite map_app. apply NoDup_app. split_and!; [done|set_solver|].
    apply NoDup_singleton.
  - apply Forall_app. auto.
Qed.
Next Obligation.
  intros now id p db [Hnd Hrows] Hf. simpl. unfold SqliteCronRepository.update.
  destruct (no_set_parts p); [by eexists|]. simpl.
  rewrite filter_update_where by (intros r; apply is_job_update).
  rewrite (proj2 (forallb_row_ok _)) by (rewrite Forall_map; exact Hf). simpl.
  assert (Hok : NoDup (job_ids (update_job_where id (row_update now p) db)) ∧
    Forall (λ r, row_ok r = true) (update_job_where id (row_update now p) db)).
  { rewrite job_ids_update by done. split; [done|]. by apply rows_ok_update. }
  case_bool_decide; eexists; (split; [done|]); [done|]. by rewrite update_job_where_absent in * by done.
Qed.
Next Obligation.
  intros id db [Hnd Hrows]. simpl. unfold SqliteCronRepository.delete.
  assert (Hok : NoDup (job_ids (delete_where (is_job id) db)) ∧
    Forall (λ r, row_ok r = true) (delete_where (is_job id) db)).
  { split; [by apply NoDup_map_filter|by apply Forall_filter_list]. }
  case_bool_decide as Hin; eexists; (split; [done|]); [done|]. split; [done|].
  apply not_in_job_ids in Hin. unfold delete_where. clear -Hin. revert Hin.
  induction db as [|r db IH]; simpl; [done|]. destruct (is_job id r); simpl; [done|].
  intros H. by rewrite <- IH.
Qed.
Next Obligation. done. Qed.
Next Obligation. done. Qed.
Next Obligation. done. Qed.
Next Obligation. done. Qed.
Next Obligation.
  intros conv db [Hnd Hrows]. eexists. split; [done|]. split; [|done].
  split; [by apply NoDup_map_filter|by apply Forall_filter_list].
Qed.
