(* ===== verification/CronScheduler.v ===== *)
(** * CronScheduler: schedules, timers and the busy guard

    [scheduler.rs] and [busy_guard.rs] of [chisl-cron].  The [cron] and [chrono-tz]
    crates are a parameter ([CronCrate]).  A spawned timer task is the value it
    sleeps on: [fire] is the task from one wake-up to its next sleep. *)

From S2P Require Import Prelude.
From S2P Require Import Text.
From S2P Require Import TeamTypes.
From S2P Require Import CronTypes.

(** [cron::Schedule] and [chrono_tz::Tz]: parsing, and the first matching instant
    after a time ([schedule.after(&dt).next()], with the conversions of [chrono]
    from and to milliseconds), which is strictly later. *)
Class CronCrate := {
  Schedule : Type;
  Tz : Type;
  schedule_from_str : string → result Schedule string;
  tz_parse : string → option Tz;
  next_after : Schedule → option Tz → TimestampMs → option TimestampMs;
  next_after_later : ∀ s tz now n, next_after s tz now = Some n → now < n;
}.

(** [split_whitespace().count()]. *)
Fixpoint count_words (in_word : bool) (l : list Z) : nat :=
  match l with
  | [] => 0
  | c :: l' =>
      if is_whitespace c then count_words false l'
      else ((if in_word then 0 else 1) + count_words true l')%nat
  end.

(* chisl-cron/src/scheduler.rs:21-29 normalize_cron_expr *)
Definition normalize_cron_expr (expr : string) : string :=
  let trimmed := trim expr in
  if (count_words false (chars trimmed) =? 5)%nat then "0 " +:+ trimmed else trimmed.

Section schedules.
Context {CC : CronCrate}.

(* chisl-cron/src/scheduler.rs:31-34 validate_cron_expression *)
Definition validate_cron_expression (expr : string) : result Schedule CronError.t :=
  res_map_err (λ e, CronError.InvalidCronExpression (expr +:+ ": " +:+ e))
    (schedule_from_str (normalize_cron_expr expr)).

(* chisl-cron/src/scheduler.rs:36-39 validate_timezone *)
Definition validate_timezone (tz : string) : result Tz CronError.t :=
  ok_or (tz_parse tz) (CronError.InvalidTimezone tz).

(* chisl-cron/src/scheduler.rs:58-72 compute_cron_next_run *)
Definition compute_cron_next_run (expr : string) (tz : option string) (now : TimestampMs) :
    option TimestampMs :=
  schedule ← res_ok (schedule_from_str (normalize_cron_expr expr));
  match tz with
  | Some tz_str => tz_parsed ← tz_parse tz_str; next_after schedule (Some tz_parsed) now
  | None => next_after schedule None now
  end.

(** The addition wraps where overflow is not checked. *)
(* chisl-cron/src/scheduler.rs:45-56 compute_next_run *)
Definition compute_next_run (schedule : CronSchedule.t) (now : TimestampMs) : option TimestampMs :=
  match schedule with
  | CronSchedule.At at_ms _ => Some at_ms
  | CronSchedule.Every every_ms _ => if every_ms <=? 0 then None else Some (i64_wrap (now + every_ms))
  | CronSchedule.Cron expr tz _ => compute_cron_next_run expr tz now
  end.

(* chisl-cron/src/scheduler.rs:78-98 validate_schedule *)
Definition validate_schedule (schedule : CronSchedule.t) : result unit CronError.t :=
  match schedule with
  | CronSchedule.At _ _ => Ok tt
  | CronSchedule.Every every_ms _ =>
      if every_ms <=? 0 then Err (CronError.InvalidSchedule "every_ms must be positive") else Ok tt
  | CronSchedule.Cron expr tz _ =>
      if String.eqb (trim expr) EmptyString then Ok tt
      else
        let? _ := validate_cron_expression expr in
        match tz with
        | Some tz_str => res_map (λ _, tt) (validate_timezone tz_str)
        | None => Ok tt
        end
  end.

End schedules.

(* ------------------------------------------------------------------ *)
(** ** Timers *)

(** What a spawned task does next: [AtTimer] and the first sleep of the others wait
    for a wall-clock time; an interval then ticks every [period]; [Stopped] is a
    task that has returned. *)
Inductive timer :=
| AtTimer (run_at : TimestampMs)
| EveryTimer (first_run_at : TimestampMs) (every_ms : Z)
| IntervalTimer (due : Z) (every_ms : Z)
| CronTimer (run_at : TimestampMs) (expr : string) (tz : option string)
| Stopped.

#[export] Instance timer_eq_dec : EqDecision timer.
Proof. solve_decision. Defined.

(** The handles of [CronScheduler]; removing one aborts its task. *)
Abbreviation Handles := (gmap string timer).

Section timers.
Context {CC : CronCrate}.

(* chisl-cron/src/scheduler.rs:243-246 delay_until *)
Definition delay_until (target_ms now : TimestampMs) : Z := Z.max 0 (i64_wrap (target_ms - now)).

(** The sleep of the task is over. *)
Definition ready (now : Z) (t : timer) : bool :=
  match t with
  | AtTimer run_at | EveryTimer run_at _ | CronTimer run_at _ _ => delay_until run_at now =? 0
  | IntervalTimer due _ => due <=? now
  | Stopped => false
  end.

(** The task runs the callback and goes to its next sleep. *)
(* chisl-cron/src/scheduler.rs:181-241 spawn_at_timer, spawn_every_timer, spawn_cron_timer *)
Definition fire (now : TimestampMs) (t : timer) : timer :=
  match t with
  | AtTimer _ => Stopped
  | EveryTimer _ every_ms => IntervalTimer (now + every_ms) every_ms
  | IntervalTimer due every_ms => IntervalTimer (due + every_ms) every_ms
  | CronTimer _ expr tz =>
      match compute_cron_next_run expr tz now with
      | Some next_at => CronTimer next_at expr tz
      | None => Stopped
      end
  | Stopped => Stopped
  end.


(* chisl-cron/src/scheduler.rs:145-149 CronScheduler::cancel_job *)
Definition cancel_job (job_id : string) (h : Handles) : Handles := delete job_id h.

(** The timer a job needs, if any. *)
Definition timer_of (job : CronJob.t) : option timer :=
  if CronJob.enabled job then
    next_run_at ← CronJob.next_run_at job;
    Some (match CronJob.schedule job with
          | CronSchedule.At _ _ => AtTimer next_run_at
          | CronSchedule.Every every_ms _ => EveryTimer next_run_at every_ms
          | CronSchedule.Cron expr tz _ => CronTimer next_run_at expr tz
          end)
  else None.

(* chisl-cron/src/scheduler.rs:119-143 CronScheduler::schedule_job *)
Definition schedule_job (job : CronJob.t) (h : Handles) : Handles :=
  let h := cancel_job (CronJob.id job) h in
  match timer_of job with
  | None => h
  | Some t => <[CronJob.id job := t]> h
  end.

(* chisl-cron/src/scheduler.rs:151-153 CronScheduler::reschedule_job *)
Definition reschedule_job (job : CronJob.t) (h : Handles) : Handles := schedule_job job h.

(* chisl-cron/src/scheduler.rs:155-160 CronScheduler::cancel_all *)
Definition cancel_all (h : Handles) : Handles := ∅.

(* chisl-cron/src/scheduler.rs:166-168 CronScheduler::is_scheduled *)
Definition is_scheduled (job_id : string) (h : Handles) : bool := bool_decide (is_Some (h !! job_id)).
End timers.

(* ------------------------------------------------------------------ *)
(** ** The busy guard *)

Module CronBusyGuard.
(* chisl-cron/src/busy_guard.rs:8-11 ConversationState *)
Record state := mk_state { is_processing : bool; last_active_at : TimestampMs }.

(* chisl-cron/src/busy_guard.rs:13-15 CronBusyGuard *)
Abbreviation t := (gmap string state).

Definition IDLE_CLEANUP_THRESHOLD_MS : Z := 3600000.

(* chisl-cron/src/busy_guard.rs:22-27 CronBusyGuard::is_busy *)
Definition is_busy (conversation_id : string) (g : t) : bool :=
  default false (is_processing <$> g !! conversation_id).

(* chisl-cron/src/busy_guard.rs:29-41 CronBusyGuard::set_processing *)
Definition set_processing (now : TimestampMs) (conversation_id : string) (processing : bool) (g : t) : t :=
  <[conversation_id := mk_state processing now]> g.

(* chisl-cron/src/busy_guard.rs:43-47 CronBusyGuard::cleanup *)
Definition cleanup (now : TimestampMs) (g : t) : t :=
  let cutoff := now - IDLE_CLEANUP_THRESHOLD_MS in
  filter (λ kv, is_processing (snd kv) = true ∨ cutoff < last_active_at (snd kv)) g.

(** Cleaning up changes no answer. *)
Lemma cleanup_is_busy now conv g : is_busy conv (cleanup now g) = is_busy conv g.
Proof.
  unfold is_busy, cleanup. rewrite map_lookup_filter.
  destruct (g !! conv) as [st|] eqn:E; simpl; [|done].
  case_guard as Hg; simpl; [done|]. destruct (is_processing st); naive_solver.
Qed.
End CronBusyGuard.

(* ------------------------------------------------------------------ *)
(** ** Facts *)

Section facts.
Context {CC : CronCrate}.

Lemma i64_wrap_id z : i64 z → i64_wrap z = z.
Proof. unfold i64, i64_wrap. intros Hz. rewrite Z.mod_small by lia. lia. Qed.

Lemma compute_cron_later expr tz now n : compute_cron_next_run expr tz now = Some n → now < n.
Proof.
  unfold compute_cron_next_run. destruct (res_ok _) as [sch|]; simpl; [|done].
  destruct tz as [z|]; simpl; [|apply next_after_later].
  destruct (tz_parse z); simpl; [apply next_after_later|done].
Qed.

(** A valid schedule that is not a one-shot either never runs or runs later than
    now, as long as the addition does not overflow. *)
Lemma next_run_later s now n :
  CronSchedule.is_at s = false → 0 ≤ now →
  (∀ every d, s = CronSchedule.Every every d → now + every < 2 ^ 63) →
  compute_next_run s now = Some n → now < n.
Proof.
  intros Hat Hnow Hov. destruct s as [?|every d|expr tz d]; simpl in *; [done| |apply compute_cron_later].
  destruct (Z.leb_spec every 0); [done|]. intros [= <-].
  rewrite i64_wrap_id; [lia|]. specialize (Hov _ _ eq_refl). unfold i64. lia.
Qed.

(** A timer that has just been installed is live. *)
Lemma timer_of_live job t : timer_of job = Some t → t ≠ Stopped.
Proof.
  unfold timer_of. destruct (CronJob.enabled job); [|done].
  destruct (CronJob.next_run_at job); simpl; [|done]. intros [= <-]. by case_match.
Qed.

Lemma schedule_job_lookup job h k :
  schedule_job job h !! k = if decide (k = CronJob.id job) then timer_of job else h !! k.
Proof.
  unfold schedule_job, cancel_job. case_decide as Hk; [subst|];
    destruct (timer_of job); rewrite ?lookup_insert_eq, ?lookup_delete_eq,
      ?lookup_insert_ne, ?lookup_delete_ne by done; done.
Qed.
End facts.

(** A crate that knows one expression, every full minute, for examples. *)
Definition every_minute (now : TimestampMs) : option TimestampMs := Some ((now / 60000 + 1) * 60000).

Lemma every_minute_later (_ : unit) (_ : option unit) now n : every_minute now = Some n → now < n.
Proof. unfold every_minute. intros [= <-]. pose proof (Z.mul_succ_div_gt now 60000). lia. Qed.

Definition minute_crate : CronCrate := {|
  Schedule := unit; Tz := unit;
  schedule_from_str := λ s, if String.eqb s "0 * * * * *" then Ok tt else Err "unknown expression";
  tz_parse := λ s, if String.eqb s "UTC" then Some tt else None;
  next_after := λ _ _ now, every_minute now;
  next_after_later := every_minute_later |}.

Example five_fields :
  @compute_next_run minute_crate (CronSchedule.Cron " * * * * *" (Some "UTC") None) 61000 = Some 120000.
Proof. reflexivity. Qed.
