(* ===== verification/CronService.v ===== *)
(** * CronService: the service of scheduled jobs

    [service.rs] and [events.rs] of [chisl-cron] and the parts of [executor.rs] that
    decide whether and where a job runs.  A run is split where it waits for the
    agent: [tick] starts it and [tick_end] records its result, and other methods can
    happen in between ([CronMachine]).  The agent, the conversations and the skill
    files answer through an [environment]; calls of the executor that only change a
    conversation are recorded in the log. *)

From S2P Require Import Prelude.
From S2P Require Import Text.
From S2P Require Import TeamTypes.
From S2P Require Import TeamRepo.
From S2P Require Import TeamEvents.
From S2P Require Import CronTypes.
From S2P Require Import CronRepo.
From S2P Require Import CronScheduler.

(* chisl-api-types/src/cron.rs:199-210 CronJobExecutedEvent, CronJobRemovedPayload *)
Inductive CronPayload :=
| JobPayload (job : CronJobResponse.t)
| CronJobRemovedPayload (job_id : string)
| CronJobExecutedEvent (job_id status : string) (error : option string)
| TipsPayload (conversation_id content tip_type : string).

(** What leaves the service: a broadcast, or a call of the executor on a
    conversation. *)
Inductive effect :=
| Broadcast (m : WebSocketMessage.t CronPayload)
| BindConversation (conversation_id job_id : string)
| InsertTips (conversation_id content tip_type : string).

Module CronEventEmitter.
(* chisl-cron/src/events.rs:19-21 emit_job_created *)
Definition job_created (job : CronJobResponse.t) : effect :=
  Broadcast (WebSocketMessage.new "cron.job-created" (JobPayload job)).
(* chisl-cron/src/events.rs:23-25 emit_job_updated *)
Definition job_updated (job : CronJobResponse.t) : effect :=
  Broadcast (WebSocketMessage.new "cron.job-updated" (JobPayload job)).
(* chisl-cron/src/events.rs:27-34 emit_job_removed *)
Definition job_removed (job_id : string) : effect :=
  Broadcast (WebSocketMessage.new "cron.job-removed" (CronJobRemovedPayload job_id)).
(* chisl-cron/src/events.rs:36-45 emit_job_executed *)
Definition job_executed (job_id status : string) (err : option string) : effect :=
  Broadcast (WebSocketMessage.new "cron.job-executed" (CronJobExecutedEvent job_id status err)).
(* chisl-cron/src/events.rs:47-60 emit_conversation_tips *)
Definition conversation_tips (conversation_id content tip_type : string) : effect :=
  Broadcast (WebSocketMessage.new "message.stream" (TipsPayload conversation_id content tip_type)).
End CronEventEmitter.

(* chisl-cron/src/executor.rs:35-40 ExecutionResult *)
Inductive ExecutionResult :=
| Success (conversation_id : string)
| Retrying (attempt : Z)
| Skipped
| Error (message : string).

(* chisl-cron/src/executor.rs:29-29 RETRY_INTERVAL_MS *)
Definition RETRY_INTERVAL_MS : Z := 30000.

(** What the rest of the program answers while a method runs: the saved skill file,
    whether a conversation is stored, the conversation that is created (or the
    error), and whether a message could be stored. *)
Record environment := mk_env {
  saved_skill : result unit CronError.t;
  conversation_exists : string → result bool CronError.t;
  create_new_conversation : result string CronError.t;
  tips_stored : bool }.

Record cron (Db : Type) := mk_cron {
  store : Store Db;
  handles : Handles;
  busy : CronBusyGuard.t;
  log : list effect }.
Arguments mk_cron {Db}.
Arguments store {Db}.
Arguments handles {Db}.
Arguments busy {Db}.
Arguments log {Db}.

(* chisl-cron/src/executor.rs:346-367 JobExecutor::handle_busy *)
Definition handle_busy (job : CronJob.t) : ExecutionResult :=
  let max_retries := CronJob.max_retries job in
  let current_retry := CronJob.retry_count job in
  if max_retries <=? current_retry then Skipped else Retrying (current_retry + 1).

(* chisl-cron/src/executor.rs:369-390 JobExecutor::resolve_conversation *)
Definition resolve_conversation (env : environment) (job : CronJob.t) : result string CronError.t :=
  match CronJob.execution_mode job with
  | ExecutionMode.Existing =>
      if String.eqb (trim (CronJob.conversation_id job)) EmptyString then create_new_conversation env
      else
        let? exists_ := conversation_exists env (CronJob.conversation_id job) in
        if exists_ then Ok (CronJob.conversation_id job)
        else Err (CronError.Scheduler ("conversation " +:+ CronJob.conversation_id job +:+ " not found"))
  | ExecutionMode.NewConversation => create_new_conversation env
  end.

(* chisl-cron/src/service.rs:1098-1112 validate_aionrs_agent_config *)
Definition validate_aionrs_agent_config (agent_type : string)
    (agent_config : option CronAgentConfigDto.t) : result unit CronError.t :=
  if negb (String.eqb agent_type "aionrs") then Ok tt
  else if match agent_config with
          | Some c => negb (String.eqb (trim (CronAgentConfigDto.backend c)) EmptyString)
          | None => false
          end
  then Ok tt
  else Err (CronError.InvalidAgentConfig
              "aionrs cron jobs require agent_config.backend (provider_id)").

(* chisl-cron/src/service.rs:1114-1119 parse_execution_mode *)
Definition parse_execution_mode (mode : option string) : result ExecutionMode.t CronError.t :=
  match mode with
  | None => Ok ExecutionMode.Existing
  | Some s => if String.eqb s "existing" then Ok ExecutionMode.Existing else ExecutionMode.from_str s
  end.

(** The columns an edit writes; [run_count] to [max_retries] are not among them. *)
(* chisl-cron/src/service.rs:1171-1221 build_update_params *)
Definition build_update_params {CJ : CronJson} (job : CronJob.t) (req : UpdateCronJobRequest.t) :
    UpdateCronJobParams.t :=
  let '(kind, value, tz, desc) := schedule_to_row_fields (CronJob.schedule job) in
  let has_schedule := bool_decide (is_Some (UpdateCronJobRequest.schedule req)) in
  let when_schedule {A} (a : A) := if has_schedule then Some a else None in
  UpdateCronJobParams.mk (UpdateCronJobRequest.name req) (UpdateCronJobRequest.enabled req)
    (when_schedule kind) (when_schedule value) (when_schedule tz) (when_schedule desc)
    (UpdateCronJobRequest.message req) (UpdateCronJobRequest.execution_mode req)
    ((λ c, Some (config_to_string (CronAgentConfigDto.to_config c))) <$> UpdateCronJobRequest.agent_config req)
    None (Some <$> UpdateCronJobRequest.conversation_title req) None None
    (Some <$> UpdateCronJobRequest.description req)
    (if has_schedule || bool_decide (is_Some (UpdateCronJobRequest.enabled req))
     then Some (CronJob.next_run_at job) else None)
    None None None None None.

Section service.
Context {Db : Type} {CJ : CronJson} {CC : CronCrate} {CR : ICronRepository Db} {AM : Ambient}.
Abbreviation M := (ST (cron Db) CronError.t).
Implicit Types job : CronJob.t.

Definition set_store (st : Store Db) (s : cron Db) : cron Db := mk_cron st (handles s) (busy s) (log s).
Definition set_handles (h : Handles) (s : cron Db) : cron Db := mk_cron (store s) h (busy s) (log s).
Definition set_busy (g : CronBusyGuard.t) (s : cron Db) : cron Db := mk_cron (store s) (handles s) g (log s).
Definition add_log (e : effect) (s : cron Db) : cron Db :=
  mk_cron (store s) (handles s) (busy s) (log s ++ [e]).

(** The repository, the clock, the timers, the guard and the log. *)
Definition repo {A} (m : ST Db DbError.t A) : M A :=
  st_map_err CronError.Database
    (st_on (λ s, st_db (store s))
       (λ db s, set_store (mk_store db (st_ticks (store s)) (st_ids (store s))) s) m).
Definition now : M TimestampMs := st_on store set_store now_ms.
Definition fresh_id : M string := st_on store set_store generate_id.
Definition timers (f : Handles → Handles) : M unit := st_modify (λ s, set_handles (f (handles s)) s).
Definition say (e : effect) : M unit := st_modify (add_log e).
Definition set_processing (conv : string) (p : bool) : M unit :=
  let! t := now in
  st_modify (λ s, set_busy (CronBusyGuard.set_processing t conv p (busy s)) s).

(** [self.repo.update(id, &params)], and with its error only logged. *)
Definition update_row (id : string) (p : UpdateCronJobParams.t) : M unit :=
  let! t := now in repo (update t id p).
Definition try_update (id : string) (p : UpdateCronJobParams.t) : M unit :=
  do! st_try (E:=CronError.t) (update_row id p) in st_ret tt.

(** [get_by_id(id).await?.ok_or_else(JobNotFound)] and [cron_job_from_row]. *)
(* chisl-cron/src/service.rs:205-212 get_job *)
Definition get_job (job_id : string) : M CronJob.t :=
  let! row := repo (get_by_id job_id) in
  let! row := st_lift (ok_or row (CronError.JobNotFound job_id)) in
  st_lift (cron_job_from_row row).

Fixpoint map_res {A B E} (f : A → result B E) (l : list A) : result (list B) E :=
  match l with
  | [] => Ok []
  | a :: l' => let? b := f a in let? bs := map_res f l' in Ok (b :: bs)
  end.

(* chisl-cron/src/service.rs:214-222 list_jobs *)
Definition list_jobs (conversation_id : option string) : M (list CronJob.t) :=
  let! rows := match conversation_id with
               | Some conv_id => repo (list_by_conversation conv_id)
               | None => repo list_all
               end in
  st_lift (map_res cron_job_from_row rows).

(** The call is recorded; its error is only logged. *)
(* chisl-cron/src/service.rs:428-445 bind_existing_conversation_if_needed *)
Definition bind_existing_conversation_if_needed job : M unit :=
  if negb (bool_decide (CronJob.execution_mode job = ExecutionMode.Existing)) ||
     String.eqb (trim (CronJob.conversation_id job)) EmptyString
  then st_ret tt
  else say (BindConversation (CronJob.conversation_id job) (CronJob.id job)).

(* chisl-cron/src/service.rs:67-125 add_job *)
Definition add_job (req : CreateCronJobRequest.t) : M CronJob.t :=
  let schedule := schedule_from_dto (CreateCronJobRequest.schedule req) in
  do! st_lift (validate_schedule schedule) in
  do! st_lift (validate_aionrs_agent_config (CreateCronJobRequest.agent_type req)
                 (CreateCronJobRequest.agent_config req)) in
  let! execution_mode := st_lift (parse_execution_mode (CreateCronJobRequest.execution_mode req)) in
  let! created_by := st_lift (CreatedBy.from_str (CreateCronJobRequest.created_by req)) in
  let message := match CreateCronJobRequest.message req with
                 | Some m => m
                 | None => default EmptyString (CreateCronJobRequest.prompt req)
                 end in
  let agent_config := CronAgentConfigDto.to_config <$> CreateCronJobRequest.agent_config req in
  let! t := now in
  let next_run_at := compute_next_run schedule t in
  let! id := fresh_id in
  let job := CronJob.mk ("cron_" +:+ id) (CreateCronJobRequest.name req) true schedule message
    execution_mode agent_config (CreateCronJobRequest.conversation_id req)
    (CreateCronJobRequest.conversation_title req) (CreateCronJobRequest.agent_type req) created_by
    None (CreateCronJobRequest.description req) t t next_run_at None None None 0 0 3 in
  do! repo (insert (cron_job_to_row job)) in
  do! bind_existing_conversation_if_needed job in
  do! timers (schedule_job job) in
  do! say (CronEventEmitter.job_created (cron_job_to_response job)) in
  st_ret job.

(** The job an edit describes, before its times are recomputed. *)
(* chisl-cron/src/service.rs:135-177 update_job (fields) *)
Definition edit_job (job : CronJob.t) (req : UpdateCronJobRequest.t) : result CronJob.t CronError.t :=
  let? schedule := match UpdateCronJobRequest.schedule req with
    | Some dto => let s := schedule_from_dto dto in res_map (λ _, s) (validate_schedule s)
    | None => Ok (CronJob.schedule job)
    end in
  let? execution_mode := match UpdateCronJobRequest.execution_mode req with
    | Some m => parse_execution_mode (Some m)
    | None => Ok (CronJob.execution_mode job)
    end in
  let? agent_config := match UpdateCronJobRequest.agent_config req with
    | Some c => res_map (λ _, Some (CronAgentConfigDto.to_config c))
                  (validate_aionrs_agent_config (CronJob.agent_type job) (Some c))
    | None => Ok (CronJob.agent_config job)
    end in
  Ok (CronJob.mk (CronJob.id job) (default (CronJob.name job) (UpdateCronJobRequest.name req))
    (default (CronJob.enabled job) (UpdateCronJobRequest.enabled req)) schedule
    (default (CronJob.message job) (UpdateCronJobRequest.message req)) execution_mode agent_config
    (CronJob.conversation_id job)
    (match UpdateCronJobRequest.conversation_title req with
     | Some t => Some t | None => CronJob.conversation_title job end)
    (CronJob.agent_type job) (CronJob.created_by job) (CronJob.skill_content job)
    (match UpdateCronJobRequest.description req with
     | Some d => Some d | None => CronJob.description job end)
    (CronJob.created_at job) (CronJob.updated_at job) (CronJob.next_run_at job)
    (CronJob.last_run_at job) (CronJob.last_status job) (CronJob.last_error job)
    (CronJob.run_count job) (CronJob.retry_count job)
    (default (CronJob.max_retries job) (UpdateCronJobRequest.max_retries req))).

(* chisl-cron/src/service.rs:127-192 update_job *)
Definition update_job (job_id : string) (req : UpdateCronJobRequest.t) : M CronJob.t :=
  let! job := get_job job_id in
  let! job := st_lift (edit_job job req) in
  let! next_run_at :=
    (if bool_decide (is_Some (UpdateCronJobRequest.schedule req)) ||
        bool_decide (is_Some (UpdateCronJobRequest.enabled req))
     then let! t := now in st_ret (compute_next_run (CronJob.schedule job) t)
     else st_ret (CronJob.next_run_at job)) in
  let! t := now in
  let job := CronJob.with_times next_run_at t job in
  do! update_row job_id (build_update_params job req) in
  do! bind_existing_conversation_if_needed job in
  do! timers (reschedule_job job) in
  do! say (CronEventEmitter.job_updated (cron_job_to_response job)) in
  st_ret job.

(** The skill file of the job is deleted as well; a failure is only logged. *)
(* chisl-cron/src/service.rs:194-203 remove_job *)
Definition remove_job (job_id : string) : M unit :=
  do! timers (cancel_job job_id) in
  do! repo (CronRepo.delete job_id) in
  say (CronEventEmitter.job_removed job_id).

(* ------------------------------------------------------------------ *)
(** ** Recording a run *)

(* chisl-cron/src/service.rs:561-604 update_job_after_success *)
Definition update_job_after_success (job_id conversation_id : string) : M unit :=
  let! row := st_try (E:=CronError.t) (repo (get_by_id job_id)) in
  match row with
  | Ok (Some existing_row) =>
      let! t := now in
      let needs_conversation_bind :=
        String.eqb (trim (CronJobRow.conversation_id existing_row)) EmptyString &&
        negb (String.eqb (trim conversation_id) EmptyString) in
      let! r := st_try (E:=CronError.t) (update_row job_id (UpdateCronJobParams.of_run
        (if needs_conversation_bind then Some conversation_id else None) (Some (Some t))
        (Some (Some "ok")) (Some None) (Some (CronJobRow.run_count existing_row + 1)) (Some 0))) in
      match r with
      | Err _ => st_ret tt
      | Ok _ => if needs_conversation_bind then say (BindConversation conversation_id job_id)
                else st_ret tt
      end
  | Ok None | Err _ => st_ret tt
  end.

(* chisl-cron/src/service.rs:606-627 update_job_after_error *)
Definition update_job_after_error (job_id message : string) : M unit :=
  let! row := st_try (E:=CronError.t) (repo (get_by_id job_id)) in
  match row with
  | Ok (Some r) =>
      let! t := now in
      try_update job_id (UpdateCronJobParams.of_run None (Some (Some t)) (Some (Some "error"))
        (Some (Some message)) (Some (CronJobRow.run_count r + 1)) (Some 0))
  | Ok None | Err _ => st_ret tt
  end.

(* chisl-cron/src/service.rs:629-667 reschedule_after_execution *)
Definition reschedule_after_execution job : M unit :=
  if CronSchedule.is_at (CronJob.schedule job) then
    do! try_update (CronJob.id job) (UpdateCronJobParams.of_schedule (Some false) (Some None)) in
    do! timers (cancel_job (CronJob.id job)) in
    say (CronEventEmitter.job_updated (cron_job_to_response (CronJob.with_run false None job)))
  else
    let! t := now in
    let next := compute_next_run (CronJob.schedule job) t in
    do! try_update (CronJob.id job) (UpdateCronJobParams.of_schedule None (Some next)) in
    timers (reschedule_job (CronJob.with_run (CronJob.enabled job) next job)).

(* chisl-cron/src/service.rs:754-784 schedule_retry *)
Definition schedule_retry (job_id : string) : M unit :=
  let! t := now in
  let next_run := t + RETRY_INTERVAL_MS in
  timers (schedule_job (CronJob.mk job_id EmptyString true (CronSchedule.At next_run None) EmptyString
    ExecutionMode.Existing None EmptyString None EmptyString CreatedBy.User None None 0 0
    (Some next_run) None None None 0 0 0)).

(* chisl-cron/src/service.rs:491-494 handle_execution_result *)
Definition retry_params (attempt : Z) : UpdateCronJobParams.t :=
  UpdateCronJobParams.of_run None None None None None (Some attempt).
(* chisl-cron/src/service.rs:501-505 handle_execution_result *)
Definition skipped_params : UpdateCronJobParams.t :=
  UpdateCronJobParams.of_run None None (Some (Some "skipped")) None None (Some 0).

(* chisl-cron/src/service.rs:481-518 handle_execution_result *)
Definition handle_execution_result job (r : ExecutionResult) : M unit :=
  let job_id := CronJob.id job in
  match r with
  | Success conversation_id =>
      do! update_job_after_success job_id conversation_id in
      do! reschedule_after_execution job in
      say (CronEventEmitter.job_executed job_id "ok" None)
  | Retrying attempt =>
      do! try_update job_id (retry_params attempt) in
      schedule_retry job_id
  | Skipped =>
      do! try_update job_id skipped_params in
      do! reschedule_after_execution job in
      say (CronEventEmitter.job_executed job_id "skipped" None)
  | Error message =>
      do! update_job_after_error job_id message in
      do! reschedule_after_execution job in
      say (CronEventEmitter.job_executed job_id "error" (Some message))
  end.

(* chisl-cron/src/service.rs:520-559 handle_run_now_result *)
Definition handle_run_now_result (job_id : string) (r : ExecutionResult) : M unit :=
  match r with
  | Success conversation_id =>
      do! update_job_after_success job_id conversation_id in
      say (CronEventEmitter.job_executed job_id "ok" None)
  | Error message =>
      do! update_job_after_error job_id message in
      say (CronEventEmitter.job_executed job_id "error" (Some message))
  | Retrying attempt => try_update job_id (retry_params attempt)
  | Skipped =>
      do! try_update job_id skipped_params in
      say (CronEventEmitter.job_executed job_id "skipped" None)
  end.

(* ------------------------------------------------------------------ *)
(** ** Runs *)

(** Up to the point where the agent runs: the result if there is no need for it,
    or the conversation it runs in. *)
(* chisl-cron/src/executor.rs:107-129 JobExecutor::execute (before execute_inner) *)
Definition execute_begin (env : environment) job : M (ExecutionResult + string) :=
  let! b := st_get (λ s, CronBusyGuard.is_busy (CronJob.conversation_id job) (busy s)) in
  if b then st_ret (inl (handle_busy job))
  else
    match saved_skill env with
    | Err e => st_ret (inl (Error (CronError.to_string e)))
    | Ok _ =>
        match resolve_conversation env job with
        | Err e => st_ret (inl (Error (CronError.to_string e)))
        | Ok conv => do! set_processing conv true in st_ret (inr conv)
        end
    end.

(** [Some (job, conversation)]: the agent is running the job. *)
(* chisl-cron/src/service.rs:271-300 tick *)
Definition tick_begin (env : environment) (job_id : string) : M (option (CronJob.t * string)) :=
  let! row := st_try (E:=CronError.t) (repo (get_by_id job_id)) in
  match row with
  | Ok None => do! timers (cancel_job job_id) in st_ret None
  | Err _ => st_ret None
  | Ok (Some row) =>
      match cron_job_from_row row with
      | Err _ => st_ret None
      | Ok job =>
          if negb (CronJob.enabled job) then st_ret None
          else
            let! r := execute_begin env job in
            match r with
            | inl result => do! handle_execution_result job result in st_ret None
            | inr conv => st_ret (Some (job, conv))
            end
      end
  end.

(* chisl-cron/src/executor.rs:130-137 JobExecutor::execute (after execute_inner) *)
Definition tick_end job (conv : string) (result : ExecutionResult) : M unit :=
  do! set_processing conv false in
  handle_execution_result job result.

(** [prepare_run_now] does not ask the busy guard. *)
(* chisl-cron/src/service.rs:343-361 run_now *)
Definition run_now (env : environment) (job_id : string) : M (CronJob.t * string) :=
  let! job := get_job job_id in
  do! st_lift (saved_skill env) in
  let! conv := st_lift (resolve_conversation env job) in
  do! set_processing conv true in
  st_ret (job, conv).

(* chisl-cron/src/executor.rs:160-170 JobExecutor::execute_prepared (after execute_inner) *)
Definition run_now_end job (conv : string) (result : ExecutionResult) : M unit :=
  do! set_processing conv false in
  handle_run_now_result (CronJob.id job) result.

(* ------------------------------------------------------------------ *)
(** ** Start, resume and cascades *)

(* chisl-cron/src/service.rs:447-479 is_orphan *)
Definition is_orphan (env : environment) job (s : cron Db) : bool :=
  if bool_decide (CronJob.execution_mode job = ExecutionMode.NewConversation) then false
  else if String.eqb (trim (CronJob.conversation_id job)) EmptyString then false
  else if CronBusyGuard.is_busy (CronJob.conversation_id job) (busy s) then false
  else match conversation_exists env (CronJob.conversation_id job) with
       | Ok exists_ => negb exists_
       | Err _ => false
       end.

(* chisl-cron/src/service.rs:228-269 init *)
Definition init_row (env : environment) (row : CronJobRow.t) : M unit :=
  match cron_job_from_row row with
  | Err _ => st_ret tt
  | Ok job =>
      let! orphan := st_get (is_orphan env job) in
      if orphan
      then do! st_try (E:=CronError.t) (repo (CronRepo.delete (CronJob.id job))) in st_ret tt
      else timers (schedule_job job)
  end.
(* chisl-cron/src/service.rs:228-269 init *)
Definition init (env : environment) : M unit :=
  let! rows := st_try (E:=CronError.t) (repo list_enabled) in
  match rows with
  | Err _ => st_ret tt
  | Ok rows => st_iter (init_row env) rows
  end.

(* chisl-cron/src/service.rs:670-675 record_missed_execution *)
Definition missed_params : UpdateCronJobParams.t :=
  UpdateCronJobParams.of_run None None (Some (Some "missed")) (Some None) None (Some 0).

(* chisl-cron/src/service.rs:690-693 insert_missed_job_tips *)
Definition missed_text (name : string) : string :=
  let q := String (Ascii.ascii_of_nat 34) EmptyString in
  "Scheduled task " +:+ q +:+ name +:+ q +:+
  " was missed while the system was unavailable. It was not run automatically.".

(* chisl-cron/src/service.rs:685-712 insert_missed_job_tips *)
Definition insert_missed_job_tips (env : environment) job : M unit :=
  if String.eqb (trim (CronJob.conversation_id job)) EmptyString then st_ret tt
  else
    let content := missed_text (CronJob.name job) in
    do! say (InsertTips (CronJob.conversation_id job) content "warning") in
    if tips_stored env
    then say (CronEventEmitter.conversation_tips (CronJob.conversation_id job) content "warning")
    else st_ret tt.

(* chisl-cron/src/service.rs:714-752 reschedule_after_missed *)
Definition reschedule_after_missed job : M unit :=
  if CronSchedule.is_at (CronJob.schedule job) then
    do! try_update (CronJob.id job) (UpdateCronJobParams.of_schedule (Some false) (Some None)) in
    timers (cancel_job (CronJob.id job))
  else
    let! t := now in
    let next := compute_next_run (CronJob.schedule job) t in
    let! r := st_try (E:=CronError.t)
      (update_row (CronJob.id job) (UpdateCronJobParams.of_schedule None (Some next))) in
    match r with
    | Err _ => st_ret tt
    | Ok _ => timers (reschedule_job (CronJob.with_run (CronJob.enabled job) next job))
    end.

(* chisl-cron/src/service.rs:302-341 handle_system_resume *)
Definition resume_row (env : environment) (t : TimestampMs) (row : CronJobRow.t) : M unit :=
  match cron_job_from_row row with
  | Err _ => st_ret tt
  | Ok job =>
      if match CronJob.next_run_at job with Some next_run => next_run <? t | None => false end then
        do! try_update (CronJob.id job) missed_params in
        do! insert_missed_job_tips env job in
        do! reschedule_after_missed job in
        say (CronEventEmitter.job_executed (CronJob.id job) "missed" None)
      else timers (reschedule_job job)
  end.

(* chisl-cron/src/service.rs:302-341 handle_system_resume *)
Definition handle_system_resume (env : environment) : M unit :=
  let! rows := st_try (E:=CronError.t) (repo list_enabled) in
  match rows with
  | Err _ => st_ret tt
  | Ok rows => let! t := now in st_iter (resume_row env t) rows
  end.

(* chisl-cron/src/service.rs:786-809 delete_jobs_by_conversation *)
Definition delete_jobs_by_conversation (conversation_id : string) : M unit :=
  let! rows := st_try (E:=CronError.t) (repo (list_by_conversation conversation_id)) in
  match rows with
  | Err _ => st_ret tt
  | Ok jobs =>
      do! st_iter (λ row,
        do! timers (cancel_job (CronJobRow.id row)) in
        say (CronEventEmitter.job_removed (CronJobRow.id row))) jobs in
      do! st_try (E:=CronError.t) (repo (delete_by_conversation conversation_id)) in
      st_ret tt
  end.
End service.
