(* ===== verification/CronServiceFacts.v ===== *)
(** * CronServiceFacts: equations and invariants of the cron service

    What each building block of [CronService] does to the table and the timers, and
    the invariant [inv]: every due job is covered by a live timer or by somebody who
    will see to it.  A method that handles a job [k] keeps [inv] with [k] excepted
    and closes the exception at its end ([inv_close]). *)

From S2P Require Import Prelude.
From S2P Require Import Text.
From S2P Require Import TeamTypes.
From S2P Require Import TeamRepo.
From S2P Require Import CronTypes.
From S2P Require Import CronRepo.
From S2P Require Import CronScheduler.
From S2P Require Import CronService.

Section facts.
Context {Db : Type} {CJ : CronJson} {CC : CronCrate} {CR : ICronRepository Db}
  {CS : CronRepositorySpec Db} {AM : Ambient}.
Implicit Types s : cron Db.
Implicit Types row : CronJobRow.t.
Implicit Types job : CronJob.t.
Implicit Types C : string → Prop.
Local Abbreviation rid := CronJobRow.id.

Definition jobs s : list CronJobRow.t := rs_jobs (st_db (store s)).

(** The job of a row is enabled, has a next run and can be read. *)
Definition readable row : Prop := is_ok (cron_job_from_row row) = true.
Definition due row : Prop :=
  CronJobRow.enabled row = true ∧ is_Some (CronJobRow.next_run_at row) ∧ readable row.
Definition live (k : string) s : Prop := ∃ t, handles s !! k = Some t ∧ t ≠ Stopped.

(** Identifiers the generator will give are new. *)
Definition svc_ok s : Prop :=
  cron_ok (st_db (store s)) ∧ ∀ n, (st_ids (store s) ≤ n)%nat → "cron_" +:+ id_at n ∉ job_ids (jobs s).

(** [C]: the jobs somebody will see to; [L]: rows known to be in the table. *)
Record inv (C : string → Prop) (L : list CronJobRow.t) s : Prop := {
  inv_ok : svc_ok s;
  inv_watched : ∀ row, row ∈ jobs s → due row → C (rid row) ∨ live (rid row) s;
  inv_rest : Forall (λ r, r ∈ jobs s) L;
}.

Definition or_job C (k : string) : string → Prop := λ id, C id ∨ id = k.

(** Nothing is missing for job [k]. *)
Definition quiet (k : string) s : Prop :=
  ∀ row, row ∈ jobs s → rid row = k → due row → live k s.

Lemma inv_mono C C' L s : (∀ id, C id → C' id) → inv C L s → inv C' L s.
Proof. intros HC [Hok Hw Hr]. split; [done| |done]. intros row Hin Hd. destruct (Hw row Hin Hd); auto. Qed.

Lemma inv_open C k L s : inv C L s → inv (or_job C k) L s.
Proof. apply inv_mono. by left. Qed.

Lemma inv_close C k L s : inv (or_job C k) L s → quiet k s → inv C L s.
Proof.
  intros [Hok Hw Hr] Hq. split; [done| |done]. intros row Hin Hd.
  destruct (Hw row Hin Hd) as [[HC|Hk]|Hl]; [by left| |by right]. subst k. right. by eapply Hq.
Qed.

Lemma inv_tail C r L s : inv C (r :: L) s → inv C L s.
Proof. intros [Hok Hw Hr]. inversion Hr; subst. by split. Qed.

(** A change that keeps the table and the timers of the jobs not covered. *)
Lemma inv_same C L s s' :
  svc_ok s' → jobs s' = jobs s → (∀ k, C k ∨ handles s' !! k = handles s !! k) →
  inv C L s → inv C L s'.
Proof.
  intros Hok Hj Hh [_ Hw Hr]. split; [done| |by rewrite Hj]. rewrite Hj. intros row Hin Hd.
  destruct (Hw row Hin Hd) as [?|(t & Ht & Hne)]; [by left|]. destruct (Hh (rid row)) as [?|He]; [by left|].
  right. exists t. by rewrite He.
Qed.

(* ------------------------------------------------------------------ *)
(** ** Building blocks *)

(** A method that does not fail and keeps [I]. *)
Definition keeps {A} (I : cron Db → Prop) (m : ST (cron Db) CronError.t A) : Prop :=
  yields I m (λ _, I).

Lemma keeps_say C L e : keeps (inv C L) (say e).
Proof. intros s Hs. do 2 eexists. split; [done|]. apply (inv_same C L s); [exact (inv_ok _ _ _ Hs)|done|by right|done]. Qed.

Lemma keeps_now C L : keeps (inv C L) now.
Proof. intros s Hs. do 2 eexists. split; [done|]. apply (inv_same C L s); [exact (inv_ok _ _ _ Hs)|done|by right|done]. Qed.

Lemma keeps_fresh_id C L : keeps (inv C L) fresh_id.
Proof.
  intros s Hs. do 2 eexists. split; [done|]. apply (inv_same C L s); [|done|by right|done].
  destruct Hs as [[Hok Hf] _ _]. split; [done|]. intros n Hn. apply Hf. simpl in *. lia.
Qed.

Lemma keeps_set_processing C L conv p : keeps (inv C L) (set_processing conv p).
Proof. intros s Hs. do 2 eexists. split; [done|]. apply (inv_same C L s); [exact (inv_ok _ _ _ Hs)|done|by right|done]. Qed.

(** Timers of job [k] only. *)
Lemma keeps_timers C L k f :
  C k → (∀ h k', k' ≠ k → f h !! k' = h !! k') → keeps (inv C L) (timers f).
Proof.
  intros HC Hf s Hs. do 2 eexists. split; [done|]. apply (inv_same C L s); [exact (inv_ok _ _ _ Hs)|done| |done].
  intros k'. destruct (decide (k' = k)) as [->|Hne]; [by left|]. right. by apply Hf.
Qed.

Lemma cancel_other k h k' : k' ≠ k → cancel_job k h !! k' = h !! k'.
Proof. intros Hne. by apply lookup_delete_ne. Qed.
Lemma schedule_other job h k' : k' ≠ CronJob.id job → schedule_job job h !! k' = h !! k'.
Proof. intros Hne. rewrite schedule_job_lookup. by rewrite decide_False. Qed.

Lemma repo_run {A} (m : ST Db DbError.t A) s db' r :
  m (st_db (store s)) = (db', r) →
  repo m s = (set_store (mk_store db' (st_ticks (store s)) (st_ids (store s))) s,
              res_map_err CronError.Database r).
Proof. intros Hm. unfold repo, st_map_err, st_on. by rewrite Hm. Qed.

Lemma repo_read {A} (m : ST Db DbError.t A) s a :
  m (st_db (store s)) = (st_db (store s), Ok a) → repo m s = (s, Ok a).
Proof. intros Hm. rewrite (repo_run _ _ _ _ Hm). by destruct s as [[] ? ? ?]. Qed.

Lemma try_read {A} (m : ST Db DbError.t A) s a :
  m (st_db (store s)) = (st_db (store s), Ok a) →
  st_try (F:=CronError.t) (repo m) s = (s, Ok (Ok a)).
Proof. intros Hm. unfold st_try. by rewrite (repo_read _ _ _ Hm). Qed.

(** The clock has advanced by one reading. *)
Definition ticked s : cron Db := set_store (tick (store s)) s.
Lemma now_run s : now s = (ticked s, Ok (time_at (st_ticks (store s)))).
Proof. done. Qed.
Lemma now_step {B} (f : TimestampMs → ST (cron Db) CronError.t B) s :
  st_bind now f s = f (time_at (st_ticks (store s))) (ticked s).
Proof. done. Qed.

(** The columns [p] sets keep the constraints of the table. *)
Definition writes_ok (p : UpdateCronJobParams.t) : Prop :=
  ∀ t r, row_ok r = true → row_ok (row_update t p r) = true.

Lemma writes_ok_run conv last st err rc rt :
  (∀ x, st = Some (Some x) → x ∈ ["ok"; "error"; "skipped"; "missed"]) →
  writes_ok (UpdateCronJobParams.of_run conv last st err rc rt).
Proof.
  intros Hst t r. unfold row_ok. simpl. rewrite !andb_true_iff. intros [H Hl].
  split; [done|]. destruct st as [[x|]|]; simpl; [|done|done].
  apply bool_decide_eq_true_2; auto.
Qed.
Lemma writes_ok_schedule en next : writes_ok (UpdateCronJobParams.of_schedule en next).
Proof. by intros t r. Qed.

(** The table after an update, and what it returns. *)
Definition updated (t : TimestampMs) (k : string) (p : UpdateCronJobParams.t) rows : list CronJobRow.t :=
  if no_set_parts p then rows else update_job_where k (row_update t p) rows.

Lemma update_row_run k p s :
  svc_ok s → writes_ok p →
  ∃ s', update_row k p s = (s', if no_set_parts p || bool_decide (k ∈ job_ids (jobs s)) then Ok tt
                                else Err (CronError.Database (job_not_found k))) ∧
    svc_ok s' ∧ jobs s' = updated (time_at (st_ticks (store s))) k p (jobs s) ∧
    handles s' = handles s ∧ busy s' = busy s ∧ log s' = log s ∧
    st_ticks (store s') = S (st_ticks (store s)) ∧ st_ids (store s') = st_ids (store s).
Proof.
  intros [Hok Hf] Hp. unfold update_row. rewrite now_step.
  destruct (update_spec (time_at (st_ticks (store s))) k p (st_db (store s)) Hok) as (db' & Hu & Hok' & Hj).
  { apply Forall_filter_list. destruct (cron_ok_rows _ Hok) as [_ Hr].
    eapply Forall_impl; [exact Hr|]. intros r. apply Hp. }
  rewrite (repo_run _ (ticked s) _ _ Hu). eexists. split; [f_equal; unfold jobs; simpl; by destruct (no_set_parts p || _)|].
  split_and!; try done. split; [done|]. intros n Hn. unfold jobs. simpl. rewrite Hj.
  case_match; [by apply Hf|]. rewrite job_ids_update by done. by apply Hf.
Qed.

Lemma try_update_run k p s :
  svc_ok s → writes_ok p →
  ∃ s', try_update k p s = (s', Ok tt) ∧
    svc_ok s' ∧ jobs s' = updated (time_at (st_ticks (store s))) k p (jobs s) ∧
    handles s' = handles s ∧ busy s' = busy s ∧ log s' = log s ∧
    st_ticks (store s') = S (st_ticks (store s)) ∧ st_ids (store s') = st_ids (store s).
Proof.
  intros Hs Hp. destruct (update_row_run k p s Hs Hp) as (s' & Hr & H). exists s'. split; [|done].
  unfold try_update, st_bind, st_try. by rewrite Hr.
Qed.

Lemma in_updated t k p rows row :
  row ∈ updated t k p rows → ∃ row0, row0 ∈ rows ∧
    (row = row0 ∧ (rid row0 ≠ k ∨ no_set_parts p = true) ∨ row = row_update t p row0 ∧ rid row0 = k).
Proof.
  unfold updated, update_job_where, is_job. destruct (no_set_parts p); [by eauto 10|].
  intros (r & -> & Hr)%elem_of_map. exists r. split; [done|].
  destruct (String.eqb_spec (rid r) k); auto.
Qed.

Lemma updated_keeps t k p rows row : rid row ≠ k → row ∈ rows → row ∈ updated t k p rows.
Proof.
  intros Hne Hin. unfold updated, update_job_where. case_match; [done|]. apply elem_of_map.
  exists row. split; [|done]. unfold is_job. by rewrite (proj2 (String.eqb_neq _ _) Hne).
Qed.

(** An update of a job that is covered. *)
Lemma inv_updated C L k p s s' :
  C k → (∀ r, r ∈ L → rid r ≠ k) → svc_ok s' →
  (∃ t, jobs s' = updated t k p (jobs s)) → (∀ k', C k' ∨ handles s' !! k' = handles s !! k') →
  inv C L s → inv C L s'.
Proof.
  intros HC HL Hok [t Hj] Hh [_ Hw Hr]. split; [done| |].
  - intros row Hin Hd. rewrite Hj in Hin.
    destruct (in_updated _ _ _ _ _ Hin) as (row0 & Hin0 & [[-> _]|[-> Hk]]).
    + destruct (Hw row0 Hin0 Hd) as [?|(x & Hx & ?)]; [by left|].
      destruct (Hh (rid row0)) as [?|He]; [by left|]. right. exists x. by rewrite He.
    + left. simpl. by rewrite Hk.
  - rewrite Hj, Forall_forall in *. intros r Hrl. apply updated_keeps; auto.
Qed.

Lemma keeps_try_update C L k p :
  C k → (∀ r, r ∈ L → rid r ≠ k) → writes_ok p → keeps (inv C L) (try_update k p).
Proof.
  intros HC HL Hp s Hs. destruct (try_update_run k p s (inv_ok _ _ _ Hs) Hp) as (s' & Hr & Hok & Hj & Hh & _).
  exists s', tt. split; [done|]. eapply inv_updated; eauto. right. by rewrite Hh.
Qed.

(** One row per identifier. *)
Lemma same_id_row s row row' :
  svc_ok s → row ∈ jobs s → row' ∈ jobs s → rid row = rid row' → row = row'.
Proof.
  intros [Hok _]. destruct (cron_ok_rows _ Hok) as [Hnd _]. fold (jobs s) in Hnd. clear Hok.
  unfold job_ids in Hnd. induction (jobs s) as [|x rows IH]; simpl in *; [set_solver|].
  apply NoDup_cons in Hnd as [Hx Hnd]. rewrite !elem_of_cons. intros [->|Hr] [->|Hr'] Hid; auto;
    exfalso; apply Hx, elem_of_map; eauto.
Qed.
End facts.

#[export] Hint Resolve keeps_say keeps_now keeps_fresh_id keeps_set_processing
  keeps_try_update writes_ok_schedule : st.
