(* ===== verification/CronRuns.v ===== *)
(** * CronRuns: the methods of the cron service keep every due job covered

    Hoare rules for the methods of [CronService]: each handles one job at a time and
    leaves it with a live timer, or not due ([inv_close]). *)

From S2P Require Import Prelude.
From S2P Require Import Text.
From S2P Require Import TeamTypes.
From S2P Require Import TeamRepo.
From S2P Require Import CronTypes.
From S2P Require Import CronRepo.
From S2P Require Import CronScheduler.
From S2P Require Import CronService.
From S2P Require Import CronServiceFacts.

Section runs.
Context {Db : Type} {CJ : CronJson} {CC : CronCrate} {CR : ICronRepository Db}
  {CS : CronRepositorySpec Db} {AM : Ambient}.
Implicit Types s : cron Db.
Implicit Types row : CronJobRow.t.
Implicit Types job : CronJob.t.
Implicit Types C : string → Prop.
Implicit Types L : list CronJobRow.t.
Local Abbreviation rid := CronJobRow.id.

Lemma no_rows (P : CronJobRow.t → Prop) : ∀ r, r ∈ [] → P r.
Proof. by intros r ?%elem_of_nil. Qed.

(** No row of [L] is about job [k]. *)
Definition avoids (k : string) L : Prop := ∀ r, r ∈ L → rid r ≠ k.

(** The rows of job [k] satisfy [P]. *)
Definition rows_of (k : string) (P : CronJobRow.t → Prop) s : Prop :=
  ∀ row, row ∈ jobs s → rid row = k → P row.

Lemma inv_not_due C k L s : inv (or_job C k) L s → rows_of k (λ r, ¬ due r) s → inv C L s.
Proof. intros Hi Hn. eapply inv_close; [done|]. intros row Hin Hk Hd. destruct (Hn row Hin Hk Hd). Qed.

(** What an update leaves in the rows of its job. *)
Lemma rows_of_update k p s s' t :
  jobs s' = updated t k p (jobs s) → no_set_parts p = false →
  rows_of k (λ r, ∃ r0, r0 ∈ jobs s ∧ rid r0 = k ∧ r = row_update t p r0) s'.
Proof.
  intros Hj Hp row Hin Hk. rewrite Hj in Hin.
  destruct (in_updated _ _ _ _ _ Hin) as (r0 & Hin0 & [[-> [Hne|Hn]]|[-> Hk0]]); [done|congruence|].
  eauto.
Qed.

(** Scheduling a job closes the exception for it, if the job says when it is due. *)
Lemma yields_schedule (P : cron Db → Prop) C L job :
  (∀ s, P s → inv (or_job C (CronJob.id job)) L s ∧
     rows_of (CronJob.id job) (λ r, due r → is_Some (timer_of job)) s) →
  yields P (timers (schedule_job job)) (λ _, inv C L).
Proof.
  intros HP s Hs. destruct (HP s Hs) as [Hi Hr]. set (k := CronJob.id job) in *.
  destruct (keeps_timers (or_job C k) L k (schedule_job job)) with (s := s) as (s' & [] & He & Hi');
    [by right|by intros; apply schedule_other|done|].
  exists s', tt. split; [done|]. eapply inv_close; [done|]. injection He as <-.
  intros row Hin Hk Hd. destruct (Hr row Hin Hk Hd) as [t Ht]. exists t. simpl.
  rewrite schedule_job_lookup, decide_True by done. split; [done|]. by eapply timer_of_live.
Qed.

(** Disabling a job closes it. *)
Lemma yields_disable C L k :
  avoids k L →
  yields (inv (or_job C k) L)
    (try_update k (UpdateCronJobParams.of_schedule (Some false) (Some None)))
    (λ _ s, inv C L s ∧ rows_of k (λ r, CronJobRow.enabled r = false) s).
Proof.
  intros HL s Hi.
  destruct (try_update_run k _ s (inv_ok _ _ _ Hi) (writes_ok_schedule (Some false) (Some None)))
    as (s' & Hr & Hok & Hj & Hh & _).
  assert (Hen : rows_of k (λ r, CronJobRow.enabled r = false) s').
  { intros row Hin Hk. by destruct (rows_of_update k _ s s' _ Hj eq_refl row Hin Hk) as (r0 & _ & _ & ->). }
  exists s', tt. split; [done|]. split; [|done]. eapply inv_not_due.
  - apply (inv_updated _ _ k _ _ _ (or_intror eq_refl) HL Hok (ex_intro _ _ Hj)
      (λ k', or_intror (f_equal (lookup k') Hh)) Hi).
  - intros row Hin Hk (He & _). specialize (Hen row Hin Hk). simpl in Hen. congruence.
Qed.

Lemma keeps_cancel_disabled C L k :
  keeps (λ s, inv C L s ∧ rows_of k (λ r, CronJobRow.enabled r = false) s) (timers (cancel_job k)).
Proof.
  intros s [Hi Hen]. do 2 eexists. split; [done|]. split; [|exact Hen].
  apply (inv_not_due C k); [|by intros row Hin Hk (He & _); specialize (Hen row Hin Hk); simpl in Hen; congruence].
  apply (inv_same _ L s); [exact (inv_ok _ _ _ Hi)|done| |by apply inv_open].
  intros k'. destruct (decide (k' = k)) as [->|Hne]; [by left; right|]. right. by apply cancel_other.
Qed.

(** Writing the next run, then installing the timer for it. *)
Lemma yields_next C L k next :
  avoids k L →
  yields (inv (or_job C k) L)
    (try_update k (UpdateCronJobParams.of_schedule None (Some next)))
    (λ _ s, inv (or_job C k) L s ∧ rows_of k (λ r, CronJobRow.next_run_at r = next) s).
Proof.
  intros HL s Hi.
  destruct (try_update_run k _ s (inv_ok _ _ _ Hi) (writes_ok_schedule None (Some next)))
    as (s' & Hr & Hok & Hj & Hh & _).
  exists s', tt. split; [done|]. split.
  - apply (inv_updated _ _ k _ _ _ (or_intror eq_refl) HL Hok (ex_intro _ _ Hj)
      (λ k', or_intror (f_equal (lookup k') Hh)) Hi).
  - intros row Hin Hk. by destruct (rows_of_update k _ s s' _ Hj eq_refl row Hin Hk) as (r0 & _ & _ & ->).
Qed.

(** A job with a next run that is enabled has a timer. *)
Lemma timer_of_next job next :
  CronJob.enabled job = true → CronJob.next_run_at job = Some next → is_Some (timer_of job).
Proof. unfold timer_of. intros -> ->. simpl. eauto. Qed.

Lemma yields_reschedule C L job :
  CronJob.enabled job = true → avoids (CronJob.id job) L →
  yields (inv (or_job C (CronJob.id job)) L) (reschedule_after_execution job) (λ _, inv C L).
Proof.
  intros Hen HL. unfold reschedule_after_execution.
  destruct (CronSchedule.is_at (CronJob.schedule job)).
  - eapply yields_bind; [by apply yields_disable|]. intros [].
    eapply yields_bind; [apply keeps_cancel_disabled|]. intros [].
    eapply yields_pre; [apply keeps_say|]. by intros s [? ?].
  - eapply yields_bind; [apply keeps_now|]. intros t. cbv zeta.
    eapply yields_bind; [by apply yields_next|]. intros [].
    apply yields_schedule. simpl. intros s [Hi Hn]. split; [done|].
    intros row Hin Hk (_ & [n Hd] & _). eapply timer_of_next; [done|]. simpl.
    rewrite <- Hd. symmetry. by apply Hn.
Qed.

(** Recording a run does not make a job due. *)
Lemma readable_run t conv last st err rc rt row :
  row_ok row = true → readable (row_update t (UpdateCronJobParams.of_run conv last st err rc rt) row) →
  readable row.
Proof.
  unfold readable, cron_job_from_row, row_ok. simpl. rewrite !andb_true_iff. intros [_ Hls].
  destruct (parse_schedule _ _ _ _); [|done]. cbn [res_bind].
  destruct (ExecutionMode.from_str _); [|done]. cbn [res_bind].
  destruct (CreatedBy.from_str _); [|done]. cbn [res_bind].
  destruct (transpose_map _ (CronJobRow.agent_config row)); [|done]. cbn [res_bind]. intros _.
  destruct (CronJobRow.last_status row) as [x|]; simpl; [|done].
  apply bool_decide_eq_true_1 in Hls. unfold JobStatus.from_str.
  repeat case_match; try done. set_solver.
Qed.

Lemma inv_run_updated C L k conv last st err rc rt s s' :
  avoids k L → svc_ok s' →
  (∃ t, jobs s' = updated t k (UpdateCronJobParams.of_run conv last st err rc rt) (jobs s)) →
  handles s' = handles s → inv C L s → inv C L s'.
Proof.
  intros HL Hok [t Hj] Hh [[Hcok _] Hw Hr]. split; [done| |].
  - intros row Hin (He & Hn & Hrd). rewrite Hj in Hin.
    unfold live. rewrite Hh. fold (live (rid row) s).
    destruct (in_updated _ _ _ _ _ Hin) as (row0 & Hin0 & [[-> _]|[-> Hk]]); [by apply Hw|].
    apply (Hw row0 Hin0). split_and!; [done|done|]. eapply readable_run; [|exact Hrd].
    destruct (cron_ok_rows _ Hcok) as [_ Hrows]. by apply (proj1 (Forall_forall _ _) Hrows).
  - rewrite Hj, Forall_forall in *. intros r Hrl. apply updated_keeps; auto.
Qed.

Lemma keeps_run_update C L k conv last st err rc rt :
  avoids k L → (∀ x, st = Some (Some x) → x ∈ ["ok"; "error"; "skipped"; "missed"]) →
  keeps (inv C L) (try_update k (UpdateCronJobParams.of_run conv last st err rc rt)).
Proof.
  intros HL Hst s Hs.
  destruct (try_update_run k _ s (inv_ok _ _ _ Hs) (writes_ok_run conv last st err rc rt Hst))
    as (s' & Hr & Hok & Hj & Hh & _).
  exists s', tt. split; [done|]. eapply inv_run_updated; eauto.
Qed.

Lemma keeps_after_success C L k conv : avoids k L → keeps (inv C L) (update_job_after_success k conv).
Proof.
  intros HL s Hi. unfold update_job_after_success.
  rewrite (st_bind_ok _ _ _ _ _ (try_read _ s _ (get_by_id_spec k _))).
  destruct (List.find _ _) as [row|]; [|by eexists s, tt].
  rewrite now_step.
  destruct (update_row_run k (UpdateCronJobParams.of_run
    (if String.eqb (trim (CronJobRow.conversation_id row)) EmptyString &&
        negb (String.eqb (trim conv) EmptyString) then Some conv else None)
    (Some (Some (time_at (st_ticks (store s))))) (Some (Some "ok")) (Some None)
    (Some (CronJobRow.run_count row + 1)) (Some 0)) (ticked s)) as (s' & Hu & Hok & Hj & Hh & _).
  { exact (inv_ok _ _ _ Hi). }
  { apply writes_ok_run. intros x [= <-]. set_solver. }
  assert (Hi' : inv C L s').
  { eapply (inv_run_updated C L k _ _ _ _ _ _ (ticked s)); eauto.
    apply (inv_same C L s); [exact (inv_ok _ _ _ Hi)|done|by right|done]. }
  unfold st_bind at 1, st_try. rewrite Hu. destruct (no_set_parts _ || _); [|by eexists s', tt].
  destruct (String.eqb _ _ && negb _); [apply (keeps_say C L _ s' Hi')|by eexists s', tt].
Qed.

Lemma keeps_after_error C L k message : avoids k L → keeps (inv C L) (update_job_after_error k message).
Proof.
  intros HL s Hi. unfold update_job_after_error.
  rewrite (st_bind_ok _ _ _ _ _ (try_read _ s _ (get_by_id_spec k _))).
  destruct (List.find _ _) as [row|]; [|by eexists s, tt].
  rewrite now_step. apply (keeps_run_update C L k); [done|intros x [= <-]; set_solver|].
  apply (inv_same C L s); [exact (inv_ok _ _ _ Hi)|done|by right|done].
Qed.

Lemma keeps_retry_update C L k n : avoids k L → keeps (inv C L) (try_update k (retry_params n)).
Proof. intros HL. by apply keeps_run_update. Qed.
Lemma keeps_skipped_update C L k : avoids k L → keeps (inv C L) (try_update k skipped_params).
Proof. intros HL. apply keeps_run_update; [done|]. intros x [= <-]. set_solver. Qed.
Lemma keeps_missed_update C L k : avoids k L → keeps (inv C L) (try_update k missed_params).
Proof. intros HL. apply keeps_run_update; [done|]. intros x [= <-]. set_solver. Qed.

Lemma yields_retry C L k :
  yields (inv (or_job C k) L) (schedule_retry k) (λ _, inv C L).
Proof.
  unfold schedule_retry. eapply yields_bind; [apply keeps_now|]. intros t. cbv zeta.
  apply (yields_schedule _ C L (CronJob.mk k _ _ _ _ _ _ _ _ _ _ _ _ _ _ _ _ _ _ _ _ _)).
  intros s Hi. split; [done|]. intros row _ _ _. by eapply timer_of_next.
Qed.

(** Whatever the result of a run, the job is looked after when it is recorded. *)
Lemma yields_result C L job r :
  CronJob.enabled job = true → avoids (CronJob.id job) L →
  yields (inv (or_job C (CronJob.id job)) L) (handle_execution_result job r) (λ _, inv C L).
Proof.
  intros Hen HL. destruct r as [conv|n| |message]; cbn [handle_execution_result].
  - eapply yields_bind; [by apply keeps_after_success|]. intros [].
    eapply yields_bind; [by apply yields_reschedule|]. intros []. apply keeps_say.
  - eapply yields_bind; [by apply keeps_retry_update|]. intros [].
    apply yields_retry.
  - eapply yields_bind; [by apply keeps_skipped_update|]. intros [].
    eapply yields_bind; [by apply yields_reschedule|]. intros []. apply keeps_say.
  - eapply yields_bind; [by apply keeps_after_error|]. intros [].
    eapply yields_bind; [by apply yields_reschedule|]. intros []. apply keeps_say.
Qed.

(* ------------------------------------------------------------------ *)
(** ** Methods that find their job in the table *)

Lemma from_row_fields row job :
  cron_job_from_row row = Ok job →
  CronJob.id job = rid row ∧ CronJob.enabled job = CronJobRow.enabled row ∧
  CronJob.next_run_at job = CronJobRow.next_run_at row ∧
  CronJob.conversation_id job = CronJobRow.conversation_id row ∧
  CronJob.retry_count job = CronJobRow.retry_count row ∧
  CronJob.max_retries job = CronJobRow.max_retries row.
Proof.
  unfold cron_job_from_row.
  destruct (parse_schedule _ _ _ _); [|done]. cbn [res_bind].
  destruct (ExecutionMode.from_str _); [|done]. cbn [res_bind].
  destruct (CreatedBy.from_str _); [|done]. cbn [res_bind].
  destruct (transpose_map _ (CronJobRow.agent_config row)); [|done]. cbn [res_bind].
  destruct (transpose_map _ (CronJobRow.last_status row)); [|done]. cbn [res_bind].
  by intros [= <-].
Qed.

Lemma find_job k rows row : List.find (is_job k) rows = Some row → row ∈ rows ∧ rid row = k.
Proof. intros [Hin Hid]%find_Some_elem. unfold is_job in Hid. by apply String.eqb_eq in Hid. Qed.

Lemma find_no_job k rows : List.find (is_job k) rows = None → ∀ row, row ∈ rows → rid row ≠ k.
Proof.
  intros Hf row Hin. pose proof (proj1 (find_None_elem _ _) Hf row Hin) as Hn.
  by apply String.eqb_neq in Hn.
Qed.

(** What a tick leaves when it ends at once, and when the agent is at work. *)
Definition begun_ok C (k : string) (r : option (CronJob.t * string)) s : Prop :=
  match r with
  | None => inv C [] s
  | Some (job, _) => inv (or_job C k) [] s ∧ CronJob.id job = k ∧ CronJob.enabled job = true
  end.

Lemma yields_tick_begin env C k : yields (inv (or_job C k) []) (tick_begin env k) (begun_ok C k).
Proof.
  intros s Hi. unfold tick_begin.
  rewrite (st_bind_ok _ _ _ _ _ (try_read _ s _ (get_by_id_spec k _))). fold (jobs s).
  destruct (List.find (is_job k) (jobs s)) as [row|] eqn:Hf.
  2: { destruct (keeps_timers (or_job C k) [] k (cancel_job k) (or_intror eq_refl)
         (λ h k', cancel_other k h k') s Hi) as (s' & [] & He & Hi').
       exists s', None. rewrite (st_bind_ok _ _ _ _ _ He). split; [done|].
       injection He as <-. apply (inv_not_due C k); [done|]. intros r Hin Hk.
       by destruct (find_no_job k _ Hf r Hin). }
  destruct (find_job _ _ _ Hf) as [Hin Hid].
  destruct (cron_job_from_row row) as [job|e] eqn:Hj.
  2: { exists s, None. split; [done|]. apply (inv_not_due C k); [done|]. intros r Hr Hk (_ & _ & Hread).
       assert (r = row) as -> by (eapply same_id_row; [apply Hi|..]; congruence).
       unfold readable in Hread. by rewrite Hj in Hread. }
  destruct (from_row_fields _ _ Hj) as (Hjid & Hjen & _). rewrite Hid in Hjid.
  destruct (CronJob.enabled job) eqn:Hen; cbn [negb].
  2: { exists s, None. split; [done|]. apply (inv_not_due C k); [done|]. intros r Hr Hk (He & _).
       assert (r = row) as -> by (eapply same_id_row; [apply Hi|..]; congruence). congruence. }
  assert (Hres : ∀ r, yields (inv (or_job C k) []) (do! handle_execution_result job r in st_ret None)
    (begun_ok C k)).
  { intros r. rewrite <- Hjid. eapply yields_bind; [apply yields_result; [done|]|].
    - exact (no_rows _).
    - intros []. by apply yields_ret. }
  unfold execute_begin. unfold st_bind at 1 2, st_get.
  destruct (CronBusyGuard.is_busy _ _); [apply (Hres _ s Hi)|].
  destruct (saved_skill env) as [[]|e]; [|apply (Hres _ s Hi)].
  destruct (resolve_conversation env job) as [conv|e]; [|apply (Hres _ s Hi)].
  destruct (keeps_set_processing (or_job C k) [] conv true s Hi) as (s' & [] & He & Hi').
  rewrite (st_bind_ok _ _ _ _ _ He). exists s', (Some (job, conv)). by split_and!.
Qed.

(** The enabled flag and the next run after an update. *)
Lemma rows_of_updated k p s s' t :
  jobs s' = updated t k p (jobs s) →
  rows_of k (λ r, ∃ r0, r0 ∈ jobs s ∧ rid r0 = k ∧
    CronJobRow.enabled r = default (CronJobRow.enabled r0) (UpdateCronJobParams.enabled p) ∧
    CronJobRow.next_run_at r = default (CronJobRow.next_run_at r0) (UpdateCronJobParams.next_run_at p)) s'.
Proof.
  intros Hj row Hin Hk. rewrite Hj in Hin.
  destruct (in_updated _ _ _ _ _ Hin) as (r0 & Hin0 & [[-> [Hne|Hn]]|[-> Hk0]]); [done|..]; exists r0;
    split_and!; try done; destruct p; unfold no_set_parts in Hn; simpl in *; by repeat (case_match; try done).
Qed.

Lemma parse_mode_ok m x : parse_execution_mode (Some m) = Ok x → m ∈ ["existing"; "new_conversation"].
Proof.
  unfold parse_execution_mode, ExecutionMode.from_str. intros H.
  str_cases; set_solver.
Qed.

Lemma schedule_kind_ok sch :
  (schedule_to_row_fields sch).1.1.1 ∈ ["at"; "every"; "cron"].
Proof. destruct sch; simpl; set_solver. Qed.

Lemma edit_writes_ok job req job' job'' :
  edit_job job req = Ok job' → writes_ok (build_update_params job'' req).
Proof.
  intros He t r. unfold build_update_params.
  pose proof (schedule_kind_ok (CronJob.schedule job'')) as Hk.
  destruct (schedule_to_row_fields (CronJob.schedule job'')) as [[[kind v] tz] d]. simpl in Hk.
  unfold row_ok. simpl. rewrite !andb_true_iff. intros [[[Hsk Hem] Hcb] Hls].
  split_and!; [..|done|done].
  - destruct (bool_decide (is_Some _)); simpl; [by apply bool_decide_eq_true_2|done].
  - destruct (UpdateCronJobRequest.execution_mode req) as [m|] eqn:Em; simpl; [|done].
    apply bool_decide_eq_true_2. unfold edit_job in He.
    destruct (match UpdateCronJobRequest.schedule req with Some _ => _ | None => _ end); [|done].
    cbn [res_bind] in He. rewrite Em in He.
    destruct (parse_execution_mode (Some m)) as [x|] eqn:Ex; [|done]. by eapply parse_mode_ok.
Qed.

Lemma edit_job_fields job req job' :
  edit_job job req = Ok job' →
  CronJob.id job' = CronJob.id job ∧
  CronJob.enabled job' = default (CronJob.enabled job) (UpdateCronJobRequest.enabled req) ∧
  CronJob.next_run_at job' = CronJob.next_run_at job.
Proof.
  unfold edit_job.
  destruct (match UpdateCronJobRequest.schedule req with Some _ => _ | None => _ end); [|done].
  cbn [res_bind].
  destruct (match UpdateCronJobRequest.execution_mode req with Some _ => _ | None => _ end); [|done].
  cbn [res_bind].
  destruct (match UpdateCronJobRequest.agent_config req with Some _ => _ | None => _ end); [|done].
  by intros [= <-].
Qed.

Lemma bind_if_needed_run job s :
  ∃ s', bind_existing_conversation_if_needed job s = (s', Ok tt) ∧ store s' = store s ∧
    handles s' = handles s ∧ busy s' = busy s.
Proof. unfold bind_existing_conversation_if_needed. case_match; eexists; by split_and!. Qed.

Lemma get_job_run k s :
  get_job k s = (s, match List.find (is_job k) (jobs s) with
                    | None => Err (CronError.JobNotFound k)
                    | Some row => cron_job_from_row row
                    end).
Proof.
  unfold get_job. rewrite (st_bind_ok _ _ _ _ _ (repo_read _ s _ (get_by_id_spec k _))). fold (jobs s).
  unfold st_bind, st_lift. by destruct (List.find _ _).
Qed.

(** The end of a method that files its job: bind, schedule, announce. *)
Lemma file_run job e s :
  ∃ s', (do! bind_existing_conversation_if_needed job in
         do! timers (schedule_job job) in do! say e in st_ret job) s = (s', Ok job) ∧
    store s' = store s ∧ handles s' = schedule_job job (handles s) ∧ busy s' = busy s.
Proof.
  destruct (bind_if_needed_run job s) as (s1 & Hb & Hst & Hh & Hbu).
  rewrite (st_bind_ok _ _ _ _ _ Hb). eexists. split; [reflexivity|]. simpl. by rewrite Hh.
Qed.

Lemma file_job C job e s :
  inv (or_job C (CronJob.id job)) [] s →
  rows_of (CronJob.id job) (λ r, due r → is_Some (timer_of job)) s →
  inv C [] (fst ((do! bind_existing_conversation_if_needed job in
                  do! timers (schedule_job job) in do! say e in st_ret job) s)).
Proof.
  intros Hi Hr. destruct (file_run job e s) as (s' & -> & Hst & Hh & _). cbn [fst].
  apply (inv_close C (CronJob.id job)).
  - apply (inv_same _ [] s); [|by unfold jobs; rewrite Hst| |done].
    + unfold svc_ok, jobs. rewrite Hst. exact (inv_ok _ _ _ Hi).
    + intros k'. destruct (decide (k' = CronJob.id job)) as [->|Hne]; [by left; right|].
      right. simpl. rewrite Hh. by apply schedule_other.
  - intros row Hin Hk Hd. unfold jobs in Hin. simpl in Hin. rewrite Hst in Hin.
    destruct (Hr row Hin Hk Hd) as [t Ht]. exists t. simpl.
    rewrite Hh, schedule_job_lookup, decide_True by done. split; [done|]. by eapply timer_of_live.
Qed.

(** Does an edit recompute the next run? *)
Definition reschedules (req : UpdateCronJobRequest.t) : bool :=
  bool_decide (is_Some (UpdateCronJobRequest.schedule req)) ||
  bool_decide (is_Some (UpdateCronJobRequest.enabled req)).

(** An accepted edit of a stored job. *)
Lemma update_job_run k req s row job job1 :
  svc_ok s → List.find (is_job k) (jobs s) = Some row → cron_job_from_row row = Ok job →
  edit_job job req = Ok job1 →
  ∃ s' next t, let job2 := CronJob.with_times next t job1 in
    update_job k req s = (s', Ok job2) ∧ svc_ok s' ∧
    (∃ t', jobs s' = updated t' k (build_update_params job2 req) (jobs s)) ∧
    handles s' = schedule_job job2 (handles s) ∧ busy s' = busy s ∧
    (if reschedules req then ∃ t0, next = compute_next_run (CronJob.schedule job1) t0
     else next = CronJob.next_run_at job).
Proof.
  intros Hok Hf Hj He. destruct (edit_job_fields _ _ _ He) as (_ & _ & Hnx1).
  assert (Hn : ∃ s1 next, (if reschedules req
        then (let! t := now in st_ret (compute_next_run (CronJob.schedule job1) t))
        else st_ret (CronJob.next_run_at job1)) s = (s1, Ok next) ∧
      jobs s1 = jobs s ∧ handles s1 = handles s ∧ busy s1 = busy s ∧ svc_ok s1 ∧
      (if reschedules req then ∃ t0, next = compute_next_run (CronJob.schedule job1) t0
       else next = CronJob.next_run_at job)).
  { destruct (reschedules req); do 2 eexists; (split; [reflexivity|]); split_and!; try done. by eexists. }
  destruct Hn as (s1 & next & Hn & Hj1 & Hh1 & Hb1 & Hok1 & Hnext).
  set (t := time_at (st_ticks (store s1))). set (job2 := CronJob.with_times next t job1).
  destruct (update_row_run k (build_update_params job2 req) (ticked s1))
    as (s2 & Hu & Hok2 & Hj2 & Hh2 & Hb2 & _); [done|by eapply edit_writes_ok|].
  rewrite bool_decide_eq_true_2, orb_true_r in Hu.
  2: { change (jobs (ticked s1)) with (jobs s1). rewrite Hj1. apply find_job in Hf as [Hin <-].
       apply elem_of_map. by exists row. }
  destruct (file_run job2 (CronEventEmitter.job_updated (cron_job_to_response job2)) s2)
    as (s3 & Hr3 & Hst3 & Hh3 & Hb3).
  exists s3, next, t. split_and!.
  - unfold update_job, st_bind at 1. rewrite get_job_run, Hf, Hj.
    unfold st_bind at 1, st_lift at 1. rewrite He. fold (reschedules req).
    rewrite (st_bind_ok _ _ _ _ _ Hn), now_step. cbv zeta. by rewrite (st_bind_ok _ _ _ _ _ Hu).
  - unfold svc_ok, jobs. by rewrite Hst3.
  - eexists. unfold jobs at 1. rewrite Hst3. rewrite <- Hj1. exact Hj2.
  - rewrite Hh3, Hh2. simpl. by rewrite Hh1.
  - rewrite Hb3, Hb2. exact Hb1.
  - exact Hnext.
Qed.

(** The flags [update] writes for an edit. *)
Lemma build_params_flags job req :
  UpdateCronJobParams.enabled (build_update_params job req) = UpdateCronJobRequest.enabled req ∧
  UpdateCronJobParams.next_run_at (build_update_params job req) =
    if reschedules req then Some (CronJob.next_run_at job) else None.
Proof. unfold build_update_params. by destruct (schedule_to_row_fields _) as [[[? ?] ?] ?]. Qed.

Lemma preserves_update_job C k req : preserves (inv C []) (update_job k req).
Proof.
  intros s Hi.
  destruct (List.find (is_job k) (jobs s)) as [row|] eqn:Hf.
  2: { unfold update_job, st_bind at 1. by rewrite get_job_run, Hf. }
  destruct (cron_job_from_row row) as [job|e] eqn:Hj.
  2: { unfold update_job, st_bind at 1. by rewrite get_job_run, Hf, Hj. }
  destruct (edit_job job req) as [job1|e] eqn:He.
  2: { unfold update_job, st_bind at 1. rewrite get_job_run, Hf, Hj. unfold st_bind at 1, st_lift at 1. by rewrite He. }
  destruct (update_job_run k req s row job job1 (inv_ok _ _ _ Hi) Hf Hj He)
    as (s' & next & t & Hu & Hok' & [t' Hj'] & Hh & _ & Hnext).
  set (job2 := CronJob.with_times next t job1) in *. rewrite Hu. simpl fst.
  destruct (find_job _ _ _ Hf) as [Hin Hid].
  destruct (from_row_fields _ _ Hj) as (Hjid & Hjen & Hjnx & _).
  destruct (edit_job_fields _ _ _ He) as (Hid1 & Hen1 & Hnx1).
  assert (Hk : CronJob.id job2 = k) by (simpl; congruence).
  apply (inv_close C k).
  - apply (inv_updated _ [] k _ s s' (or_intror eq_refl) (no_rows _) Hok' (ex_intro _ _ Hj')).
    + intros k'. destruct (decide (k' = k)) as [->|Hne]; [by left; right|]. right.
      rewrite Hh. apply schedule_other. by rewrite Hk.
    + by apply inv_open.
  - intros r Hr Hrk (Hre & [n Hrn] & _).
    destruct (rows_of_updated k _ s s' _ Hj' r Hr Hrk) as (r0 & Hr0 & Hr0k & Hen & Hnx).
    assert (r0 = row) as -> by (eapply same_id_row; [apply Hi|done|done|congruence]).
    destruct (build_params_flags job2 req) as [Hpe Hpn]. rewrite Hpe in Hen. rewrite Hpn in Hnx.
    unfold live. rewrite Hh, schedule_job_lookup, decide_True by done.
    destruct (timer_of_next job2 n) as [tm Htm].
    + change (CronJob.enabled job2) with (CronJob.enabled job1). congruence.
    + change (CronJob.next_run_at job2) with next in *.
      destruct (reschedules req); simpl in Hnx; congruence.
    + exists tm. split; [done|]. by eapply timer_of_live.
Qed.

Lemma new_row_ok (job : CronJob.t) : row_ok (cron_job_to_row job) = true.
Proof.
  unfold cron_job_to_row. pose proof (schedule_kind_ok (CronJob.schedule job)) as Hk.
  destruct (schedule_to_row_fields (CronJob.schedule job)) as [[[kind v] tz] d].
  unfold row_ok. simpl in *. rewrite bool_decide_eq_true_2 by done.
  destruct (CronJob.execution_mode job), (CronJob.created_by job); simpl;
    (destruct (CronJob.last_status job) as [[]|]; done).
Qed.

Lemma preserves_add_job C req : preserves (inv C []) (add_job req).
Proof.
  intros s Hi. unfold add_job, st_lift. cbv zeta.
  set (sch := schedule_from_dto _).
  unfold st_bind at 1. destruct (validate_schedule sch); [|done].
  unfold st_bind at 1. destruct (validate_aionrs_agent_config _ _); [|done].
  unfold st_bind at 1. destruct (parse_execution_mode _) as [mode|]; [|done].
  unfold st_bind at 1. destruct (CreatedBy.from_str _) as [by_|]; [|done].
  rewrite now_step. set (t := time_at _).
  change (st_bind fresh_id ?f (ticked s)) with
    (f (id_at (st_ids (store s))) (set_store (bump_id (store (ticked s))) (ticked s))).
  cbv beta zeta. set (s1 := set_store (bump_id _) _). set (job := CronJob.mk _ _ true _ _ _ _ _ _ _ _ _ _ _ _ _ _ _ _ _ _ _).
  destruct (inv_ok _ _ _ Hi) as [Hok Hfresh].
  destruct (insert_spec (cron_job_to_row job) (st_db (store s))) as (db' & Hins & Hok' & Hj');
    [done| |by apply new_row_ok|].
  { assert (rid (cron_job_to_row job) = "cron_" +:+ id_at (st_ids (store s))) as ->
      by (unfold cron_job_to_row; by destruct (schedule_to_row_fields _) as [[[? ?] ?] ?]).
    by apply Hfresh. }
  rewrite (st_bind_ok _ _ s1 _ _ (repo_run _ s1 _ _ Hins)). cbv beta.
  set (s2 := set_store _ s1). 
  assert (Hrow : ∃ row, cron_job_to_row job = row ∧ rid row = CronJob.id job ∧
    CronJobRow.next_run_at row = CronJob.next_run_at job).
  { unfold cron_job_to_row. destruct (schedule_to_row_fields _) as [[[? ?] ?] ?]. by eexists. }
  destruct Hrow as (row & Hrow & Hrid & Hrnx). rewrite Hrow in Hj'.
  apply (file_job C job).
  - split; [split|..].
    + done.
    + intros n Hn. unfold jobs. simpl. rewrite Hj'. unfold job_ids. rewrite map_app.
      rewrite elem_of_app. simpl in *. rewrite list_elem_of_singleton, Hrid. intros [Hbad|Hbad].
      * apply (Hfresh n); [lia|done].
      * injection Hbad as Hbad. apply id_at_inj in Hbad. lia.
    + unfold jobs. simpl. rewrite Hj'. intros r Hin Hd. apply elem_of_app in Hin as [Hin|Hin].
      * destruct (inv_watched _ _ _ Hi r Hin Hd) as [?|?]; [by left; left|by right].
      * apply list_elem_of_singleton in Hin as ->. left. by right.
    + constructor.
  - intros r Hin Hk (_ & [n Hn] & _). apply (timer_of_next job n); [done|].
    unfold jobs in Hin. simpl in Hin. rewrite Hj' in Hin. apply elem_of_app in Hin as [Hin|Hin].
    + exfalso. apply (Hfresh (st_ids (store s))); [lia|]. apply elem_of_map. by exists r.
    + apply list_elem_of_singleton in Hin as ->. congruence.
Qed.

(* ------------------------------------------------------------------ *)
(** ** Removals *)

Lemma in_delete_where p rows row : row ∈ delete_where p rows ↔ row ∈ rows ∧ p row = false.
Proof. unfold delete_where. rewrite elem_of_filter_list, negb_true_iff. done. Qed.

(** A deletion keeps the invariant, if the rows of [L] stay. *)
Lemma inv_deleted C L p s db' :
  (∀ r, r ∈ L → p r = false) → cron_ok db' → rs_jobs db' = delete_where p (jobs s) → inv C L s →
  inv C L (set_store (mk_store db' (st_ticks (store s)) (st_ids (store s))) s).
Proof.
  intros HL Hok Hj [[_ Hf] Hw Hr]. split; [split|..].
  - done.
  - intros n Hn Hin. apply (Hf n Hn). unfold jobs in *. simpl in Hin. rewrite Hj in Hin.
    apply elem_of_map in Hin as (r & -> & [Hin _]%in_delete_where). apply elem_of_map. by exists r.
  - intros row Hin. unfold jobs in Hin. simpl in Hin. rewrite Hj in Hin.
    apply in_delete_where in Hin as [Hin _]. by apply Hw.
  - rewrite Forall_forall in *. intros r Hrl. unfold jobs. simpl. rewrite Hj.
    apply in_delete_where. auto.
Qed.

Lemma preserves_remove_job C k : preserves (inv C []) (remove_job k).
Proof.
  intros s Hi. unfold remove_job.
  destruct (keeps_timers (or_job C k) [] k (cancel_job k) (or_intror eq_refl)
    (λ h k', cancel_other k h k') s (inv_open _ _ _ _ Hi)) as (s1 & [] & Ht & Hi1).
  rewrite (st_bind_ok _ _ _ _ _ Ht).
  destruct (delete_spec k (st_db (store s1))) as (db' & Hd & Hok & Hj); [apply Hi1|].
  assert (Hi2 : inv C [] (set_store (mk_store db' (st_ticks (store s1)) (st_ids (store s1))) s1)).
  { apply (inv_not_due C k).
    - apply (inv_deleted _ _ (is_job k)); [exact (no_rows _)|done|done|done].
    - intros r Hr Hrk. unfold jobs in Hr. simpl in Hr. rewrite Hj in Hr.
      apply in_delete_where in Hr as [_ Hr]. by apply String.eqb_neq in Hr. }
  unfold st_bind. rewrite (repo_run _ _ _ _ Hd). destruct (bool_decide _); [|exact Hi2].
  exact (yields_preserves _ _ (keeps_say C [] _) _ Hi2).
Qed.

Lemma preserves_delete_by_conversation C conv : preserves (inv C []) (delete_jobs_by_conversation conv).
Proof.
  intros s Hi. unfold delete_jobs_by_conversation.
  rewrite (st_bind_ok _ _ _ _ _ (try_read _ s _ (list_by_conversation_spec conv _))). fold (jobs s).
  set (l := sort_by _ _).
  set (C' := λ id, C id ∨ id ∈ map rid l).
  assert (Hl : yields (λ x, inv C' [] x ∧ jobs x = jobs s) (st_iter (λ row,
      do! timers (cancel_job (rid row)) in say (CronEventEmitter.job_removed (rid row))) l)
    (λ _ x, inv C' [] x ∧ jobs x = jobs s)).
  { apply (yields_post _ _ (λ _ x, (inv C' [] x ∧ jobs x = jobs s) ∧ Forall (λ r, r ∈ l) [])); [|by intros ? ? [? _]].
    eapply yields_pre; [apply (yields_iter (λ rest x, (inv C' [] x ∧ jobs x = jobs s) ∧ Forall (λ r, r ∈ l) rest))|].
    - intros r rest x [[Hx Hjx] [Hr Hrest]%Forall_cons].
      destruct (keeps_timers C' [] (rid r) (cancel_job (rid r)) (or_intror (proj2 (elem_of_map _ _ _) (ex_intro _ r (conj eq_refl Hr))))
        (λ h k', cancel_other (rid r) h k') x Hx) as (s1 & [] & Ht & Hi1).
      destruct (keeps_say C' [] (CronEventEmitter.job_removed (rid r)) s1 Hi1) as (s2 & [] & Hs & Hi2).
      exists s2, tt. rewrite (st_bind_ok _ _ _ _ _ Ht). split; [done|]. injection Ht as <-. by injection Hs as <-.
    - intros x Hx. split; [done|]. by apply Forall_forall. }
  destruct (Hl s) as (s1 & [] & Hr & Hi1 & Hj1).
  { split; [|done]. eapply inv_mono; [|exact Hi]. by left. }
  rewrite (st_bind_ok _ _ _ _ _ Hr).
  destruct (delete_by_conversation_spec conv (st_db (store s1))) as (db' & Hd & Hok & Hj); [apply Hi1|].
  unfold st_bind, st_try. rewrite (repo_run _ _ _ _ Hd). simpl. fold (jobs s1) in Hj.
  pose proof (inv_deleted C' [] _ s1 db' (no_rows _) Hok Hj Hi1) as Hi2.
  split; [exact (inv_ok _ _ _ Hi2)| |constructor].
  intros row Hin Hdue. destruct (inv_watched _ _ _ Hi2 row Hin Hdue) as [[HC|Hc]|Hlive]; [by left| |by right].
  exfalso. unfold jobs in Hin. simpl in Hin. rewrite Hj in Hin. apply in_delete_where in Hin as [Hin Hn].
  apply elem_of_map in Hc as (r & Hrid & [Hrj Hrc]%elem_of_sort_by%elem_of_filter_list).
  rewrite Hj1 in Hin. assert (row = r) as -> by (by eapply same_id_row; [apply Hi|..]). congruence.
Qed.

(* ------------------------------------------------------------------ *)
(** ** Manual runs *)

Lemma keeps_run_now_result C k r : keeps (inv C []) (handle_run_now_result k r).
Proof.
  assert (HL : avoids k []) by exact (no_rows _).
  destruct r as [conv|n| |message]; cbn [handle_run_now_result].
  - eapply yields_bind; [by apply keeps_after_success|]. intros []. apply keeps_say.
  - by apply keeps_retry_update.
  - eapply yields_bind; [by apply keeps_skipped_update|]. intros []. apply keeps_say.
  - eapply yields_bind; [by apply keeps_after_error|]. intros []. apply keeps_say.
Qed.

Lemma keeps_run_now_end C job conv r : keeps (inv C []) (run_now_end job conv r).
Proof.
  eapply yields_bind; [apply keeps_set_processing|]. intros []. apply keeps_run_now_result.
Qed.

Lemma preserves_run_now C env k : preserves (inv C []) (run_now env k).
Proof.
  intros s Hi. unfold run_now, st_lift, st_bind at 1. rewrite get_job_run.
  destruct (List.find _ _) as [row|]; [|done]. destruct (cron_job_from_row row) as [job|]; [|done].
  unfold st_bind at 1. destruct (saved_skill env); [|done].
  unfold st_bind at 1. destruct (resolve_conversation env job) as [conv|]; [|done].
  destruct (keeps_set_processing C [] conv true s Hi) as (s' & [] & Hs & Hi').
  by rewrite (st_bind_ok _ _ _ _ _ Hs).
Qed.

(** The end of a tick's run. *)
Lemma yields_tick_end C job conv r :
  CronJob.enabled job = true →
  yields (inv (or_job C (CronJob.id job)) []) (tick_end job conv r) (λ _, inv C []).
Proof.
  intros Hen. eapply yields_bind; [apply keeps_set_processing|]. intros [].
  apply yields_result; [done|exact (no_rows _)].
Qed.

(* ------------------------------------------------------------------ *)
(** ** Resume and start *)

(** [L]: the rows still to be visited, each job once, all enabled. *)
Definition to_visit L s : Prop :=
  NoDup (map rid L) ∧ Forall (λ r, CronJobRow.enabled r = true) L.

Lemma to_visit_avoids r L s : to_visit (r :: L) s → avoids (rid r) L ∧ to_visit L s.
Proof.
  intros [[Hr Hnd]%NoDup_cons Hen]. inversion Hen; subst. split; [|done].
  intros x Hx He. apply Hr, elem_of_map. by exists x.
Qed.

Lemma keeps_tips C L env job : keeps (inv C L) (insert_missed_job_tips env job).
Proof.
  unfold insert_missed_job_tips. case_match; [by apply yields_ret|].
  eapply yields_bind; [apply keeps_say|]. intros []. case_match; [apply keeps_say|by apply yields_ret].
Qed.

(** An update fails exactly when there is no such job. *)
Lemma try_update_inv k p s s' :
  svc_ok s → writes_ok p → try_update k p s = (s', Ok tt) →
  ∃ r, update_row k p s = (s', r) ∧ (is_ok r = false → ∀ row, row ∈ jobs s' → rid row ≠ k).
Proof.
  intros Hok Hp Ht. destruct (update_row_run k p s Hok Hp) as (s1 & Hu & _ & Hj & _).
  unfold try_update, st_bind, st_try in Ht. rewrite Hu in Ht. injection Ht as <-.
  eexists. split; [exact Hu|]. destruct (no_set_parts p) eqn:Hn; [done|]. simpl.
  case_bool_decide as Hin; [done|]. intros _ row Hr Hk. apply Hin. rewrite Hj in Hr.
  destruct (in_updated _ _ _ _ _ Hr) as (r0 & Hr0 & [[-> _]|[-> Hk0]]); apply elem_of_map; eauto.
Qed.

Lemma yields_after_missed C L job :
  CronJob.enabled job = true → avoids (CronJob.id job) L →
  yields (λ s, inv (or_job C (CronJob.id job)) L s) (reschedule_after_missed job) (λ _, inv C L).
Proof.
  intros Hen HL. unfold reschedule_after_missed.
  destruct (CronSchedule.is_at (CronJob.schedule job)).
  - eapply yields_bind; [by apply yields_disable|]. intros [].
    eapply yields_post; [apply keeps_cancel_disabled|]. by intros ? s [? ?].
  - eapply yields_bind; [apply keeps_now|]. intros t. cbv zeta. intros s Hi.
    destruct (yields_next C L (CronJob.id job) (compute_next_run (CronJob.schedule job) t) HL s Hi)
      as (s1 & [] & Ht & Hi1 & Hn).
    destruct (try_update_inv _ _ _ _ (inv_ok _ _ _ Hi) (writes_ok_schedule _ _) Ht) as (r & Hu & Hr).
    unfold st_bind, st_try. rewrite Hu. destruct r as [u|e].
    + apply (yields_schedule (λ x, x = s1)); [|done]. intros ? ->. split; [exact Hi1|].
      intros row Hrow Hk (_ & [n Hd] & _). eapply timer_of_next; [done|]. simpl. rewrite <- Hd. symmetry.
      by apply Hn.
    + exists s1, tt. split; [done|]. apply (inv_not_due C (CronJob.id job)); [done|].
      intros row Hrow Hk _. by destruct (Hr eq_refl row Hrow).
Qed.

Lemma yields_resume_row C env t r L :
  yields (λ s, inv C (r :: L) s ∧ to_visit (r :: L) s) (resume_row env t r)
    (λ _ s, inv C L s ∧ to_visit L s).
Proof.
  intros s [Hi Hv]. destruct (to_visit_avoids _ _ _ Hv) as [HL Hv'].
  assert (Hin : r ∈ jobs s) by (pose proof (inv_rest _ _ _ Hi) as Hr; by inversion Hr).
  assert (Hen : CronJobRow.enabled r = true) by (destruct Hv as [_ He]; by inversion He).
  apply inv_tail in Hi. unfold resume_row.
  destruct (cron_job_from_row r) as [job|e] eqn:Hj; [|by exists s, tt].
  destruct (from_row_fields _ _ Hj) as (Hid & Hjen & Hnx & _).
  rewrite <- Hid in HL. rewrite Hen in Hjen. pose proof (inv_open _ (CronJob.id job) _ _ Hi) as Hi1.
  case_match.
  - cut (yields (inv (or_job C (CronJob.id job)) L)
      (do! try_update (CronJob.id job) missed_params in do! insert_missed_job_tips env job in
       do! reschedule_after_missed job in
       say (CronEventEmitter.job_executed (CronJob.id job) "missed" None)) (λ _, inv C L)).
    { intros H0. destruct (H0 s Hi1) as (s' & a & ? & ?). exists s', a. done. }
    eapply yields_bind; [by apply keeps_missed_update|]. intros [].
    eapply yields_bind; [apply keeps_tips|]. intros [].
    eapply yields_bind; [by apply yields_after_missed|]. intros []. apply keeps_say.
  - destruct (yields_schedule (λ x, x = s) C L job) with (s := s) as (s' & [] & Hs & Hi'); [|done|].
    + intros ? ->. split; [done|]. intros row Hr Hk (_ & [n Hn] & _).
      assert (row = r) as -> by (eapply same_id_row; [apply Hi|done|done|congruence]).
      apply (timer_of_next job n); congruence.
    + exists s', tt. done.
Qed.

Lemma to_visit_enabled s : svc_ok s → to_visit (sort_by CronJobRow.created_at (List.filter CronJobRow.enabled (jobs s))) s.
Proof.
  intros [Hok _]. destruct (cron_ok_rows _ Hok) as [Hnd _]. split.
  - rewrite sort_by_perm. by apply NoDup_map_filter.
  - apply Forall_forall. by intros r [? ?]%elem_of_sort_by%elem_of_filter_list.
Qed.

Lemma preserves_resume C env : preserves (inv C []) (handle_system_resume env).
Proof.
  intros s Hi. unfold handle_system_resume.
  rewrite (st_bind_ok _ _ _ _ _ (try_read _ s _ (list_enabled_spec _))), now_step. fold (jobs s).
  set (l := sort_by _ _). pose proof (to_visit_enabled s (inv_ok _ _ _ Hi)) as Hv. fold l in Hv.
  destruct (yields_iter (λ L x, inv C L x ∧ to_visit L x) (resume_row env (time_at (st_ticks (store s)))) l
    (λ r L, yields_resume_row C env _ r L) (ticked s)) as (s' & [] & -> & Hi' & _); [|done].
  split; [|done]. split; [exact (inv_ok _ _ _ Hi)|exact (inv_watched _ _ _ Hi)|].
  apply Forall_forall. by intros r [? ?]%elem_of_sort_by%elem_of_filter_list.
Qed.

(** [init]: the jobs not visited yet are covered by the loop itself. *)
Lemma yields_init_row env r L :
  yields (λ s, inv (λ id, id ∈ map rid (r :: L)) (r :: L) s ∧ to_visit (r :: L) s) (init_row env r)
    (λ _ s, inv (λ id, id ∈ map rid L) L s ∧ to_visit L s).
Proof.
  intros s [Hi Hv]. destruct (to_visit_avoids _ _ _ Hv) as [HL Hv'].
  assert (Hin : r ∈ jobs s) by (pose proof (inv_rest _ _ _ Hi) as Hr; by inversion Hr).
  assert (Hen : CronJobRow.enabled r = true) by (destruct Hv as [_ He]; by inversion He).
  set (C := λ id, id ∈ map rid L).
  assert (Hi1 : inv (or_job C (rid r)) L s).
  { eapply inv_mono; [|by eapply inv_tail]. simpl. intros id. rewrite elem_of_cons. unfold or_job, C. tauto. }
  clear Hi. unfold init_row. destruct (cron_job_from_row r) as [job|e] eqn:Hj.
  2: { exists s, tt. split; [done|]. split; [|done]. apply (inv_not_due _ (rid r)); [done|].
       intros x Hx Hxr (_ & _ & Hrd). assert (x = r) as -> by (by eapply same_id_row; [apply Hi1|..]).
       unfold readable in Hrd. by rewrite Hj in Hrd. }
  destruct (from_row_fields _ _ Hj) as (Hid & Hjen & Hnx & _). rewrite <- Hid in HL, Hi1.
  unfold st_bind at 1, st_get. destruct (is_orphan env job s).
  - destruct (delete_spec (CronJob.id job) (st_db (store s))) as (db' & Hd & Hok & Hj'); [apply Hi1|].
    exists (set_store (mk_store db' (st_ticks (store s)) (st_ids (store s))) s), tt.
    split; [unfold st_bind, st_try; by rewrite (repo_run _ _ _ _ Hd)|]. split; [|done].
    apply (inv_not_due _ (CronJob.id job)).
    + apply (inv_deleted _ _ (is_job (CronJob.id job))); [|done|done|done].
      intros x Hx. apply String.eqb_neq. auto.
    + intros x Hx Hxk. unfold jobs in Hx. simpl in Hx. rewrite Hj' in Hx.
      apply in_delete_where in Hx as [_ Hx]. by apply String.eqb_neq in Hx.
  - destruct (yields_schedule (λ x, x = s) C L job) with (s := s) as (s' & [] & Hs & Hi'); [|done|].
    + intros ? ->. split; [done|]. intros row Hr Hk (_ & [n Hn] & _).
      assert (row = r) as -> by (eapply same_id_row; [apply Hi1|done|done|congruence]).
      apply (timer_of_next job n); congruence.
    + exists s', tt. done.
Qed.

(** The server starts with every due job scheduled. *)
Lemma init_watches env s : svc_ok s → inv (λ _, False) [] (fst (init env s)).
Proof.
  intros Hok. unfold init.
  rewrite (st_bind_ok _ _ _ _ _ (try_read _ s _ (list_enabled_spec _))). fold (jobs s).
  set (l := sort_by _ _). pose proof (to_visit_enabled s Hok) as Hv. fold l in Hv.
  assert (Hl : ∀ r, r ∈ l ↔ r ∈ jobs s ∧ CronJobRow.enabled r = true).
  { intros r. unfold l. by rewrite elem_of_sort_by, elem_of_filter_list. }
  destruct (yields_iter (λ L x, inv (λ id, id ∈ map rid L) L x ∧ to_visit L x) (init_row env) l
    (λ r L, yields_init_row env r L) s) as (s' & [] & -> & Hi' & _).
  - split; [|done]. split; [done|..].
    + intros row Hin (He & _). left. apply elem_of_map. exists row. split; [done|]. by apply Hl.
    + apply Forall_forall. intros r Hr. by apply Hl.
  - eapply inv_mono; [|exact Hi']. intros id Hid. by apply elem_of_nil in Hid.
Qed.
End runs.
