(* ===== verification/CronMachine.v ===== *)
(** * CronMachine: the cron service as a machine

    Timers fire, ticks run while the agent works, and requests arrive in any order.
    The file states what every reachable state keeps: a job that is enabled and has
    a next run is never without a live timer or a tick under way.  Each method is
    one step, and a run is two, before and after the agent: between them anything can
    happen, but calls that overlap in the middle of a step, at one of its awaits, are
    outside the machine.  There the property fails: [overlapping_edit_loses_the_timer]
    of [CronOutcome]. *)

From S2P Require Import Prelude.
From S2P Require Import Text.
From S2P Require Import TeamTypes.
From S2P Require Import TeamRepo.
From S2P Require Import CronTypes.
From S2P Require Import CronRepo.
From S2P Require Import CronScheduler.
From S2P Require Import CronService.
From S2P Require Import CronServiceFacts.
From S2P Require Import CronRuns.

(** A spawned task: a tick that has not begun, the agent at work for a tick, or for
    [run_now]. *)
Inductive task :=
| Spawned (job_id : string)
| Executing (job : CronJob.t) (conv : string)
| RunningNow (job : CronJob.t) (conv : string).

(** The job whose schedule a task will take care of. *)
Definition ticking (t : task) : option string :=
  match t with
  | Spawned job_id => Some job_id
  | Executing job _ => Some (CronJob.id job)
  | RunningNow _ _ => None
  end.

Record machine (Db : Type) := mk_machine {
  svc : cron Db;
  tasks : gmap nat task;
  next_task : nat }.
Arguments mk_machine {Db}.
Arguments svc {Db}.
Arguments tasks {Db}.
Arguments next_task {Db}.

Inductive event :=
| Fire (job_id : string)
| Begin (i : nat) (env : environment)
| Finish (i : nat) (r : ExecutionResult)
| Add (req : CreateCronJobRequest.t)
| Update (job_id : string) (req : UpdateCronJobRequest.t)
| Remove (job_id : string)
| RunNow (job_id : string) (env : environment)
| Resume (env : environment)
| ConversationDeleted (conversation_id : string).

Section machine.
Context {Db : Type} {CJ : CronJson} {CC : CronCrate} {CR : ICronRepository Db} {AM : Ambient}.

Definition spawn (t : task) (m : machine Db) : machine Db :=
  mk_machine (svc m) (<[next_task m := t]> (tasks m)) (S (next_task m)).
Definition set_svc (s : cron Db) (m : machine Db) : machine Db :=
  mk_machine s (tasks m) (next_task m).
Definition end_task (i : nat) (m : machine Db) : machine Db :=
  mk_machine (svc m) (base.delete i (tasks m)) (next_task m).

(** A sleeping timer task whose time has come runs the callback, which spawns a
    tick. *)
(* chisl-app/src/router/state.rs:617-627 tick callback *)
Definition fire_timer (job_id : string) (m : machine Db) : option (machine Db) :=
  let s := svc m in
  let t := time_at (st_ticks (store s)) in
  match handles s !! job_id with
  | None => None
  | Some timer =>
      if ready t timer then
        Some (spawn (Spawned job_id)
          (set_svc (set_store (tick (store s)) (set_handles (<[job_id := fire t timer]> (handles s)) s)) m))
      else None
  end.

Definition perform (e : event) (m : machine Db) : option (machine Db) :=
  match e with
  | Fire job_id => fire_timer job_id m
  | Begin i env =>
      match tasks m !! i with
      | Some (Spawned job_id) =>
          let '(s, r) := tick_begin env job_id (svc m) in
          Some (match r with
                | Ok (Some (job, conv)) =>
                    mk_machine s (<[i := Executing job conv]> (tasks m)) (next_task m)
                | _ => set_svc s (end_task i m)
                end)
      | _ => None
      end
  | Finish i r =>
      match tasks m !! i with
      | Some (Executing job conv) => Some (set_svc (fst (tick_end job conv r (svc m))) (end_task i m))
      | Some (RunningNow job conv) => Some (set_svc (fst (run_now_end job conv r (svc m))) (end_task i m))
      | _ => None
      end
  | Add req => Some (set_svc (fst (add_job req (svc m))) m)
  | Update job_id req => Some (set_svc (fst (update_job job_id req (svc m))) m)
  | Remove job_id => Some (set_svc (fst (remove_job job_id (svc m))) m)
  | RunNow job_id env =>
      let '(s, r) := run_now env job_id (svc m) in
      Some (match r with
            | Ok (job, conv) => spawn (RunningNow job conv) (set_svc s m)
            | Err _ => set_svc s m
            end)
  | Resume env => Some (set_svc (fst (handle_system_resume env (svc m))) m)
  | ConversationDeleted conv => Some (set_svc (fst (delete_jobs_by_conversation conv (svc m))) m)
  end.

Fixpoint run (es : list event) (m : machine Db) : option (machine Db) :=
  match es with
  | [] => Some m
  | e :: es' => match perform e m with Some m' => run es' m' | None => None end
  end.

(** The server starts: a database, no timer, and [init]. *)
Definition boot (env : environment) (st : Store Db) : machine Db :=
  mk_machine (fst (init env (mk_cron st ∅ ∅ []))) ∅ 0.
End machine.

(* ------------------------------------------------------------------ *)
(** ** No job is forgotten *)

Section facts.
Context {Db : Type} {CJ : CronJson} {CC : CronCrate} {CR : ICronRepository Db}
  {CS : CronRepositorySpec Db} {AM : Ambient}.
Implicit Types m : machine Db.

(** A task will see to the job. *)
Definition attended m (id : string) : Prop := ∃ i tk, tasks m !! i = Some tk ∧ ticking tk = Some id.

Record machine_ok m : Prop := {
  mo_inv : inv (attended m) [] (svc m);
  mo_running : ∀ i job conv, tasks m !! i = Some (Executing job conv) → CronJob.enabled job = true;
  mo_tasks : ∀ i, is_Some (tasks m !! i) → (i < next_task m)%nat;
}.

Lemma attended_delete m i id :
  attended m id → attended (end_task i m) id ∨ ∃ tk, tasks m !! i = Some tk ∧ ticking tk = Some id.
Proof.
  intros (j & tk & Hj & Htk). destruct (decide (j = i)) as [->|Hne]; [right; eauto|].
  left. exists j, tk. simpl. by rewrite lookup_delete_ne.
Qed.

(** Ending a task that ticks for [k] leaves [k] to be seen to. *)
Lemma inv_end_task m i tk k :
  tasks m !! i = Some tk → ticking tk = Some k → inv (attended m) [] (svc m) →
  inv (or_job (attended (end_task i m)) k) [] (svc m).
Proof.
  intros Hi Hk. apply inv_mono. intros id [?|(tk' & Hi' & Hk')]%(attended_delete _ i); [by left|].
  right. congruence.
Qed.

(** A step of the service that keeps the tasks. *)
Lemma ok_set_svc m s : machine_ok m → inv (attended m) [] s → machine_ok (set_svc s m).
Proof. intros [Hi Hr Ht] Hs. by split. Qed.

Lemma ok_end_task m i s :
  machine_ok m → inv (attended (end_task i m)) [] s → machine_ok (set_svc s (end_task i m)).
Proof.
  intros [_ Hr Ht] Hs. split; [exact Hs|..]; simpl.
  - intros j job conv Hj. apply lookup_delete_Some in Hj as [_ Hj]. by eapply Hr.
  - intros j [tk Hj]. apply lookup_delete_Some in Hj as [_ Hj]. eauto.
Qed.

Lemma attended_spawn m tk id : attended m id → machine_ok m → attended (spawn tk m) id.
Proof.
  intros (i & t & Hi & Hk) [_ _ Ht]. exists i, t. simpl. rewrite lookup_insert_ne; [done|].
  specialize (Ht i (mk_is_Some _ _ Hi)). lia.
Qed.

Lemma ok_spawn m tk s :
  machine_ok m → (∀ job conv, tk ≠ Executing job conv) → inv (attended (spawn tk m)) [] s →
  machine_ok (set_svc s (spawn tk m)).
Proof.
  intros [_ Hr Ht] Hne Hs. split; [exact Hs|..]; simpl.
  - intros j job conv [[_ Hj]|[_ Hj]]%lookup_insert_Some; [by destruct (Hne job conv)|by eapply Hr].
  - intros j [x [[<- _]|[_ Hj]]%lookup_insert_Some]; [lia|]. specialize (Ht j (mk_is_Some _ _ Hj)). lia.
Qed.

Lemma ok_fire m k m' : machine_ok m → fire_timer k m = Some m' → machine_ok m'.
Proof.
  intros Hm. unfold fire_timer. destruct (handles (svc m) !! k) as [t|]; [|done].
  case_match; [|done]. intros [= <-].
  set (s := set_store _ _). change (spawn (Spawned k) (set_svc s m)) with (set_svc s (spawn (Spawned k) m)).
  apply ok_spawn; [done|done|]. apply (inv_same _ [] (svc m)); [exact (inv_ok _ _ _ (mo_inv _ Hm))|done| |].
  - intros k'. destruct (decide (k' = k)) as [->|Hne]; [left|right].
    + exists (next_task m), (Spawned k). simpl. by rewrite lookup_insert_eq.
    + simpl. by rewrite lookup_insert_ne.
  - eapply inv_mono; [|exact (mo_inv _ Hm)]. intros id Hid. by apply attended_spawn.
Qed.

Lemma ok_begin m i k env :
  machine_ok m → tasks m !! i = Some (Spawned k) →
  ∀ m', perform (Begin i env) m = Some m' → machine_ok m'.
Proof.
  intros Hm Hi m'. simpl. rewrite Hi.
  pose proof (inv_end_task _ _ _ _ Hi eq_refl (mo_inv _ Hm)) as Hinv.
  destruct (yields_tick_begin env _ k (svc m) Hinv) as (s & r & -> & Hr). intros [= <-].
  destruct r as [[job conv]|]; [|by apply ok_end_task].
  destruct Hr as (Hs & Hjk & Hen). split; simpl.
  - eapply inv_mono; [|exact Hs]. intros id [(j & tk & Hj & Htk)| ->].
    + simpl in Hj. apply lookup_delete_Some in Hj as [Hne Hj]. exists j, tk. simpl. by rewrite lookup_insert_ne.
    + exists i, (Executing job conv). simpl. by rewrite lookup_insert_eq, Hjk.
  - intros j job' conv' [[_ [= <- <-]]|[_ Hj]]%lookup_insert_Some; [done|]. by eapply (mo_running _ Hm).
  - intros j [x [[<- _]|[_ Hj]]%lookup_insert_Some]; eapply (mo_tasks _ Hm); eauto.
Qed.

Lemma ok_finish m i r m' : machine_ok m → perform (Finish i r) m = Some m' → machine_ok m'.
Proof.
  intros Hm. simpl. destruct (tasks m !! i) as [[k|job conv|job conv]|] eqn:Hi; try done; intros [= <-].
  - pose proof (inv_end_task _ _ _ _ Hi eq_refl (mo_inv _ Hm)) as Hinv.
    destruct (yields_tick_end _ job conv r (mo_running _ Hm _ _ _ Hi) (svc m) Hinv) as (s & [] & -> & Hs).
    by apply ok_end_task.
  - apply ok_end_task; [done|]. apply (yields_preserves _ _ (keeps_run_now_end _ job conv r)).
    eapply inv_mono; [|exact (mo_inv _ Hm)]. intros id [?|(tk & Htk & Hid)]%(attended_delete _ i); [done|].
    rewrite Hi in Htk. by simplify_eq.
Qed.

Lemma perform_ok e m m' : machine_ok m → perform e m = Some m' → machine_ok m'.
Proof.
  intros Hm. destruct e as [k|i env|i r|req|k req|k|k env|env|conv].
  - by apply ok_fire.
  - destruct (tasks m !! i) as [[k|job conv|job conv]|] eqn:Hi; [by eapply ok_begin|..];
      intros Hp; simpl in Hp; by rewrite Hi in Hp.
  - by apply ok_finish.
  - intros [= <-]. apply ok_set_svc; [done|]. apply preserves_add_job, Hm.
  - intros [= <-]. apply ok_set_svc; [done|]. apply preserves_update_job, Hm.
  - intros [= <-]. apply ok_set_svc; [done|]. apply preserves_remove_job, Hm.
  - simpl. pose proof (preserves_run_now (attended m) env k (svc m) (mo_inv _ Hm)) as Hs.
    destruct (run_now env k (svc m)) as [s [[job conv]|e]]; intros [= <-]; [|by apply ok_set_svc].
    change (spawn (RunningNow job conv) (set_svc s m)) with (set_svc s (spawn (RunningNow job conv) m)).
    apply ok_spawn; [done|done|]. eapply inv_mono; [|exact Hs]. intros id Hid. by apply attended_spawn.
  - intros [= <-]. apply ok_set_svc; [done|]. apply preserves_resume, Hm.
  - intros [= <-]. apply ok_set_svc; [done|]. apply preserves_delete_by_conversation, Hm.
Qed.

Lemma machine_run_ok es m m' : machine_ok m → run es m = Some m' → machine_ok m'.
Proof.
  revert m. induction es as [|e es IH]; intros m Hm; simpl; [by intros [= <-]|].
  destruct (perform e m) as [m1|] eqn:He; [|done]. apply IH. by eapply perform_ok.
Qed.

Lemma boot_ok env st : svc_ok (mk_cron st ∅ ∅ []) → machine_ok (boot env st).
Proof.
  intros Hok. split; simpl.
  - eapply inv_mono; [|by apply init_watches]. done.
  - intros i job conv Hi. by rewrite lookup_empty in Hi.
  - intros i [tk Hi]. by rewrite lookup_empty in Hi.
Qed.

(** The guard is a flag, not a count: the end of one run frees the conversation for
    the next tick although another run is still at work in it. *)
Lemma end_of_run_frees_busy_conversation m i j job job' conv r m' :
  i ≠ j → tasks m !! i = Some (Executing job conv) → tasks m !! j = Some (RunningNow job' conv) →
  perform (Finish j r) m = Some m' →
  tasks m' !! i = Some (Executing job conv) ∧
  CronBusyGuard.is_busy conv (busy (fst (set_processing conv false (svc m)))) = false.
Proof.
  intros Hne Hi Hj. simpl. rewrite Hj. intros [= <-]. simpl. split; [by rewrite lookup_delete_ne|].
  unfold CronBusyGuard.is_busy, CronBusyGuard.set_processing. by rewrite lookup_insert_eq.
Qed.

(** C6: from the start of the server on, as long as the calls of the service run one
    after another (only the agent's work of the runs overlaps, with each other and
    with everything else): whatever timers fire, however the runs end, and whatever
    jobs are added, edited, removed or resumed meanwhile, a job that is enabled and has
    a next run has a timer that will fire, or a tick under way that will see to it. *)
Theorem no_job_is_forgotten env st es m row :
  svc_ok (mk_cron st ∅ ∅ []) → run es (boot env st) = Some m →
  row ∈ jobs (svc m) → due row →
  (∃ t, handles (svc m) !! CronJobRow.id row = Some t ∧ t ≠ Stopped) ∨
  (∃ i tk, tasks m !! i = Some tk ∧ ticking tk = Some (CronJobRow.id row)).
Proof.
  intros Hok Hr Hin Hd. pose proof (machine_run_ok es _ _ (boot_ok env st Hok) Hr) as Hm.
  destruct (inv_watched _ _ _ (mo_inv _ Hm) row Hin Hd); [by right|by left].
Qed.
End facts.

(* ------------------------------------------------------------------ *)
(** ** A concrete run *)

Section witnesses.
#[local] Existing Instance config_text.
#[local] Existing Instance minute_crate.
#[local] Existing Instance counting.

(** The agent answers, and the conversations exist. *)
Definition demo_env : environment :=
  mk_env (Ok tt) (λ _, Ok true) (Err (CronError.Scheduler "none")) true.
Definition demo_row : CronJobRow.t := cron_job_to_row (CronJob.with_run true (Some 500) demo_job).
Definition demo_store : Store SqliteCronRepository.CronDb := mk_store [demo_row] 0 0.

Lemma cron_demo_ok : svc_ok (mk_cron demo_store ∅ ∅ []).
Proof.
  split; [split|].
  - apply NoDup_singleton.
  - constructor; [by vm_compute|constructor].
  - intros n _. simpl. rewrite list_elem_of_singleton. destruct n; discriminate.
Qed.

Definition demo_events : list event :=
  [Fire "cron_demo"; Begin 0 demo_env; Remove "other"; Resume demo_env; Finish 0 (Success "conv")].

Lemma no_job_is_forgotten_witness :
  ∃ m row, run demo_events (boot demo_env demo_store) = Some m ∧ row ∈ jobs (svc m) ∧
    CronJobRow.run_count row = 2 ∧
    ((∃ t, handles (svc m) !! "cron_demo" = Some t ∧ t ≠ Stopped) ∨
     (∃ i tk, tasks m !! i = Some tk ∧ ticking tk = Some "cron_demo")).
Proof.
  destruct (run demo_events (boot demo_env demo_store)) as [m|] eqn:Hr; [|by vm_compute in Hr].
  assert (Hj : ∃ row, jobs (svc m) = [row] ∧ CronJobRow.id row = "cron_demo" ∧
    CronJobRow.run_count row = 2 ∧ due row).
  { vm_compute in Hr. injection Hr as <-. eexists. split; [reflexivity|].
    split_and!; [reflexivity..|]. split_and!; [done|by eexists|by vm_compute]. }
  destruct Hj as (row & Hj & Hid & Hrc & Hd). exists m, row.
  assert (Hin : row ∈ jobs (svc m)) by (rewrite Hj; by left).
  split_and!; [done|done|done|]. rewrite <- Hid.
  exact (no_job_is_forgotten demo_env demo_store demo_events m row cron_demo_ok Hr Hin Hd).
Defined.
End witnesses.
