(* ===== verification/CronOutcome.v ===== *)
(** * CronOutcome: what a run of a scheduled job leaves behind

    The functional behaviour of the end of a run on the row of its job, the timers
    and the busy guard; what consecutive attempts on a busy conversation do; and
    what an edit made while the job runs comes to. *)

From S2P Require Import Prelude.
From S2P Require Import Text.
From S2P Require Import TeamTypes.
From S2P Require Import TeamRepo.
From S2P Require Import CronTypes.
From S2P Require Import CronRepo.
From S2P Require Import CronScheduler.
From S2P Require Import CronService.
From S2P Require Import CronServiceFacts.
From S2P Require Import CronRuns.
From S2P Require Import CronMachine.

Section outcome.
Context {Db : Type} {CJ : CronJson} {CC : CronCrate} {CR : ICronRepository Db}
  {CS : CronRepositorySpec Db} {AM : Ambient}.
Implicit Types s : cron Db.
Implicit Types row : CronJobRow.t.
Implicit Types job : CronJob.t.

Definition row_of (k : string) s : option CronJobRow.t := List.find (is_job k) (jobs s).
Definition other_rows (k : string) s : list CronJobRow.t := delete_where (is_job k) (jobs s).

(** How often the clock was read so far: the next reading is [time_at (clock s)]. *)
Definition clock s : nat := st_ticks (store s).

(** From [s] to [s'], job [k] goes from [row] to [row'] and no other job changes. *)
Record changes (k : string) row row' s s' : Prop := {
  ch_row : row_of k s' = Some row';
  ch_others : other_rows k s' = other_rows k s;
  ch_ok : svc_ok s';
  ch_busy : busy s' = busy s;
}.

Lemma changes_trans k row1 row2 row3 s1 s2 s3 :
  changes k row1 row2 s1 s2 → changes k row2 row3 s2 s3 → changes k row1 row3 s1 s3.
Proof. intros [] []. split; congruence || done. Qed.

Lemma find_updated t k p rows row :
  no_set_parts p = false → List.find (is_job k) rows = Some row →
  List.find (is_job k) (updated t k p rows) = Some (row_update t p row).
Proof.
  unfold updated, update_job_where. intros ->. induction rows as [|r rows IH]; simpl; [done|].
  destruct (is_job k r) eqn:Hr; simpl.
  - rewrite is_job_update, Hr. congruence.
  - by rewrite Hr.
Qed.

Lemma others_updated t k p rows :
  delete_where (is_job k) (updated t k p rows) = delete_where (is_job k) rows.
Proof.
  unfold updated, update_job_where, delete_where. case_match; [done|].
  induction rows as [|r rows IH]; simpl; [done|].
  destruct (is_job k r) eqn:Hr; simpl.
  - by rewrite is_job_update, Hr.
  - rewrite Hr. simpl. by rewrite IH.
Qed.

Lemma in_job_ids k rows row : List.find (is_job k) rows = Some row → k ∈ job_ids rows.
Proof. intros [Hin <-]%find_job. apply elem_of_map. by exists row. Qed.

Lemma update_row_changes k p row s :
  svc_ok s → writes_ok p → no_set_parts p = false → row_of k s = Some row →
  ∃ s', update_row k p s = (s', Ok tt) ∧ handles s' = handles s ∧ clock s' = S (clock s) ∧
    changes k row (row_update (time_at (clock s)) p row) s s'.
Proof.
  intros Hok Hp Hn Hf. destruct (update_row_run k p s Hok Hp) as (s' & Hu & Hok' & Hj & Hh & Hb & Hl & Hck & _).
  rewrite bool_decide_eq_true_2, orb_true_r in Hu by (by eapply in_job_ids).
  exists s'. split_and!; [done..|]. split; [|..|done|done].
  - unfold row_of. rewrite Hj. by apply find_updated.
  - unfold other_rows. rewrite Hj. apply others_updated.
Qed.

Lemma try_update_changes k p row s :
  svc_ok s → writes_ok p → no_set_parts p = false → row_of k s = Some row →
  ∃ s', try_update k p s = (s', Ok tt) ∧ handles s' = handles s ∧ clock s' = S (clock s) ∧
    changes k row (row_update (time_at (clock s)) p row) s s'.
Proof.
  intros Hok Hp Hn Hf. destruct (update_row_changes k p row s Hok Hp Hn Hf) as (s' & Hu & H).
  exists s'. split; [|done]. unfold try_update, st_bind, st_try. by rewrite Hu.
Qed.

(** Reading the clock and logging change nothing. *)
Lemma changes_ticked k row s : svc_ok s → row_of k s = Some row → changes k row row s (ticked s).
Proof. by split. Qed.
Lemma changes_log k row s e : svc_ok s → row_of k s = Some row → changes k row row s (add_log e s).
Proof. by split. Qed.
Lemma changes_handles k row s h : svc_ok s → row_of k s = Some row → changes k row row s (set_handles h s).
Proof. by split. Qed.

(* ------------------------------------------------------------------ *)
(** ** Rescheduling *)

(** The job has been run and is filed for its next run: a one-shot job is disabled,
    the next run of another is computed at time [t]. *)
Definition refiled job t row row' (h : Handles) : Prop :=
  if CronSchedule.is_at (CronJob.schedule job) then
    CronJobRow.enabled row' = false ∧ CronJobRow.next_run_at row' = None ∧ h !! CronJob.id job = None
  else
    let next := compute_next_run (CronJob.schedule job) t in
    CronJobRow.enabled row' = CronJobRow.enabled row ∧ CronJobRow.next_run_at row' = next ∧
    h !! CronJob.id job = timer_of (CronJob.with_run (CronJob.enabled job) next job).

(** Everything but the times of the next run. *)
Definition same_definition row row' : Prop :=
  CronJobRow.name row' = CronJobRow.name row ∧
  CronJobRow.schedule_kind row' = CronJobRow.schedule_kind row ∧
  CronJobRow.schedule_value row' = CronJobRow.schedule_value row ∧
  CronJobRow.schedule_tz row' = CronJobRow.schedule_tz row ∧
  CronJobRow.payload_message row' = CronJobRow.payload_message row ∧
  CronJobRow.max_retries row' = CronJobRow.max_retries row.

Definition same_run row row' : Prop :=
  CronJobRow.last_run_at row' = CronJobRow.last_run_at row ∧
  CronJobRow.last_status row' = CronJobRow.last_status row ∧
  CronJobRow.last_error row' = CronJobRow.last_error row ∧
  CronJobRow.run_count row' = CronJobRow.run_count row ∧
  CronJobRow.retry_count row' = CronJobRow.retry_count row.

Definition same_timers (k : string) s s' : Prop := ∀ k', k' ≠ k → handles s' !! k' = handles s !! k'.

Lemma reschedule_run job row s :
  svc_ok s → row_of (CronJob.id job) s = Some row →
  ∃ s' row', reschedule_after_execution job s = (s', Ok tt) ∧
    changes (CronJob.id job) row row' s s' ∧ refiled job (time_at (clock s)) row row' (handles s') ∧
    same_definition row row' ∧ same_run row row' ∧ same_timers (CronJob.id job) s s'.
Proof.
  intros Hok Hf. unfold reschedule_after_execution, refiled.
  destruct (CronSchedule.is_at (CronJob.schedule job)).
  - destruct (try_update_changes _ (UpdateCronJobParams.of_schedule (Some false) (Some None)) row s Hok
      (writes_ok_schedule _ _) eq_refl Hf) as (s1 & Hu & Hh & Hl & Hch).
    rewrite (st_bind_ok _ _ _ _ _ Hu). do 2 eexists. split; [reflexivity|].
    split; [eapply changes_trans; [exact Hch|]; destruct Hch; by split|]. split_and!; try done.
    + simpl. apply lookup_delete_eq.
    + intros k' Hne. simpl. rewrite cancel_other by done. by rewrite Hh.
  - rewrite now_step. cbv zeta. set (t := time_at _). set (next := compute_next_run _ t).
    destruct (try_update_changes _ (UpdateCronJobParams.of_schedule None (Some next)) row (ticked s) Hok
      (writes_ok_schedule _ _) eq_refl Hf) as (s1 & Hu & Hh & Hl & Hch).
    rewrite (st_bind_ok _ _ _ _ _ Hu). do 2 eexists. split; [reflexivity|].
    split; [eapply changes_trans; [by apply changes_ticked|]; eapply changes_trans; [exact Hch|];
      destruct Hch; by split|]. split_and!; try done.
    + simpl. unfold reschedule_job. by rewrite schedule_job_lookup, decide_True.
    + intros k' Hne. simpl. unfold reschedule_job. rewrite schedule_other by done. by rewrite Hh.
Qed.

(* ------------------------------------------------------------------ *)
(** ** Results *)

Definition status_of (r : ExecutionResult) : string :=
  match r with Success _ => "ok" | Skipped => "skipped" | Error _ => "error" | Retrying _ => "" end.
Definition error_of (r : ExecutionResult) row : option string :=
  match r with
  | Success _ => None | Error m => Some m
  | Skipped | Retrying _ => CronJobRow.last_error row
  end.

(** The run columns after the result [r] was recorded at time [t]; a run that was
    skipped leaves the time of the last run and its error alone. *)
Definition recorded (t : TimestampMs) (r : ExecutionResult) row row' : Prop :=
  CronJobRow.last_run_at row' = match r with Skipped => CronJobRow.last_run_at row | _ => Some t end ∧
  CronJobRow.last_status row' = Some (status_of r) ∧
  CronJobRow.last_error row' = error_of r row ∧
  CronJobRow.retry_count row' = 0 ∧
  CronJobRow.run_count row' = CronJobRow.run_count row + (match r with Skipped => 0 | _ => 1 end).

Lemma after_success_run k conv row s :
  svc_ok s → row_of k s = Some row →
  ∃ s' row', update_job_after_success k conv s = (s', Ok tt) ∧ changes k row row' s s' ∧
    handles s' = handles s ∧ clock s' = S (S (clock s)) ∧
    recorded (time_at (clock s)) (Success conv) row row' ∧ same_definition row row' ∧
    CronJobRow.enabled row' = CronJobRow.enabled row ∧ CronJobRow.next_run_at row' = CronJobRow.next_run_at row.
Proof.
  intros Hok Hf. unfold update_job_after_success.
  rewrite (st_bind_ok _ _ _ _ _ (try_read _ s _ (get_by_id_spec k _))). fold (jobs s) (row_of k s).
  rewrite Hf, now_step. set (needs := _ && _). cbv zeta.
  destruct (update_row_changes k (UpdateCronJobParams.of_run (if needs then Some conv else None)
    (Some (Some (time_at (st_ticks (store s))))) (Some (Some "ok")) (Some None)
    (Some (CronJobRow.run_count row + 1)) (Some 0)) row (ticked s) Hok) as (s1 & Hu & Hh & Hl & Hch);
    [|by destruct needs|exact Hf|].
  { apply writes_ok_run. intros x [= <-]. set_solver. }
  unfold st_bind, st_try. rewrite Hu.
  assert (Hch' := changes_trans _ _ _ _ _ _ _ (changes_ticked _ _ _ Hok Hf) Hch).
  destruct needs; do 2 eexists; (split; [reflexivity|]);
    (split; [eapply changes_trans; [exact Hch'|]; destruct Hch; by split|]); by split_and!.
Qed.

Lemma after_error_run k message row s :
  svc_ok s → row_of k s = Some row →
  ∃ s' row', update_job_after_error k message s = (s', Ok tt) ∧ changes k row row' s s' ∧
    handles s' = handles s ∧ clock s' = S (S (clock s)) ∧
    recorded (time_at (clock s)) (Error message) row row' ∧ same_definition row row' ∧
    CronJobRow.enabled row' = CronJobRow.enabled row ∧ CronJobRow.next_run_at row' = CronJobRow.next_run_at row.
Proof.
  intros Hok Hf. unfold update_job_after_error.
  rewrite (st_bind_ok _ _ _ _ _ (try_read _ s _ (get_by_id_spec k _))). fold (jobs s) (row_of k s).
  rewrite Hf, now_step.
  destruct (try_update_changes k (UpdateCronJobParams.of_run None
    (Some (Some (time_at (st_ticks (store s))))) (Some (Some "error")) (Some (Some message))
    (Some (CronJobRow.run_count row + 1)) (Some 0)) row (ticked s) Hok) as (s1 & Hu & Hh & Hl & Hch);
    [|reflexivity|exact Hf|].
  { apply writes_ok_run. intros x [= <-]. set_solver. }
  do 2 eexists. split; [exact Hu|].
  split; [exact (changes_trans _ _ _ _ _ _ _ (changes_ticked _ _ _ Hok Hf) Hch)|]. by split_and!.
Qed.

Lemma skipped_run k row s :
  svc_ok s → row_of k s = Some row →
  ∃ s' row', try_update k skipped_params s = (s', Ok tt) ∧ changes k row row' s s' ∧
    handles s' = handles s ∧ clock s' = S (clock s) ∧
    recorded (time_at (clock s)) Skipped row row' ∧ same_definition row row' ∧
    CronJobRow.enabled row' = CronJobRow.enabled row ∧ CronJobRow.next_run_at row' = CronJobRow.next_run_at row.
Proof.
  intros Hok Hf.
  destruct (try_update_changes k skipped_params row s Hok) as (s1 & Hu & Hh & Hl & Hch);
    [|reflexivity|exact Hf|].
  { apply writes_ok_run. intros x [= <-]. set_solver. }
  do 2 eexists. split; [exact Hu|]. split; [exact Hch|]. split_and!; try done. unfold recorded. split_and!; try done. simpl. lia.
Qed.

(** The clock is read once for the row's [updated_at] and, but for a skipped run,
    once before for [last_run_at]; the next reading is the time the next run is
    computed from. *)
Definition readings (r : ExecutionResult) : nat := match r with Skipped => 1 | _ => 2 end.

(** The result of a run that is not to be retried: recorded, then refiled, then
    announced. *)
Lemma result_run job r row s :
  svc_ok s → row_of (CronJob.id job) s = Some row → (∀ n, r ≠ Retrying n) →
  ∃ s' row', handle_execution_result job r s = (s', Ok tt) ∧ changes (CronJob.id job) row row' s s' ∧
    recorded (time_at (clock s)) r row row' ∧
    refiled job (time_at (clock s + readings r)) row row' (handles s') ∧ same_definition row row' ∧
    same_timers (CronJob.id job) s s'.
Proof.
  intros Hok Hf Hr.
  assert (Hrec : ∃ m e s1 row1, handle_execution_result job r =
      (do! m in do! reschedule_after_execution job in say e) ∧ m s = (s1, Ok tt) ∧
      changes (CronJob.id job) row row1 s s1 ∧ handles s1 = handles s ∧ clock s1 = (clock s + readings r)%nat ∧
      recorded (time_at (clock s)) r row row1 ∧
      same_definition row row1 ∧ CronJobRow.enabled row1 = CronJobRow.enabled row ∧
      CronJobRow.next_run_at row1 = CronJobRow.next_run_at row).
  { destruct r as [conv|n| |message]; [|by destruct (Hr n)|..]; do 2 eexists.
    - destruct (after_success_run _ conv row s Hok Hf) as (s1 & row1 & ? & ? & ? & Hck & ?).
      exists s1, row1. destruct_and!. split_and!; try done; rewrite Hck; simpl; lia.
    - destruct (skipped_run _ row s Hok Hf) as (s1 & row1 & ? & ? & ? & Hck & ?).
      exists s1, row1. destruct_and!. split_and!; try done; rewrite Hck; simpl; lia.
    - destruct (after_error_run _ message row s Hok Hf) as (s1 & row1 & ? & ? & ? & Hck & ?).
      exists s1, row1. destruct_and!. split_and!; try done; rewrite Hck; simpl; lia. }
  destruct Hrec as (m & e & s1 & row1 & -> & Hm & Hch & Hh & Hck & Hrec & Hdef & Hen & Hnx).
  destruct (reschedule_run job row1 s1 (ch_ok _ _ _ _ _ Hch) (ch_row _ _ _ _ _ Hch))
    as (s2 & row2 & Hre & Hch2 & Href & Hdef2 & Hrun2 & Htm). rewrite Hck in Href.
  rewrite (st_bind_ok _ _ _ _ _ Hm), (st_bind_ok _ _ _ _ _ Hre).
  exists (add_log e s2), row2. split; [done|]. split_and!.
  - eapply changes_trans; [exact Hch|]. eapply changes_trans; [exact Hch2|]. destruct Hch2. by split.
  - unfold recorded, same_run, error_of in *. destruct_and!. destruct r; split_and!; congruence.
  - unfold refiled in *. simpl. case_match; [done|]. by rewrite <- Hen.
  - unfold same_definition in *. destruct_and!. split_and!; congruence.
  - intros k' Hne. simpl. by rewrite Htm, Hh.
Qed.

(** The end of a run that is not to be retried, of a job that is still stored. *)
Lemma tick_end_run s job row conv r :
  svc_ok s → row_of (CronJob.id job) s = Some row → (∀ n, r ≠ Retrying n) →
  ∃ s' row', tick_end job conv r s = (s', Ok tt) ∧ changes (CronJob.id job) row row' (set_busy (busy s') s) s' ∧
    recorded (time_at (clock s + 1)) r row row' ∧
    refiled job (time_at (clock s + 1 + readings r)) row row' (handles s') ∧ same_definition row row' ∧
    same_timers (CronJob.id job) s s' ∧ CronBusyGuard.is_busy conv (busy s') = false.
Proof.
  intros Hok Hf Hr. unfold tick_end, set_processing. unfold st_bind at 1. rewrite now_step. cbn [st_modify].
  set (s1 := set_busy _ _). assert (Hck : (clock s + 1)%nat = clock s1) by (unfold clock; simpl; lia).
  destruct (result_run job r row s1 Hok Hf Hr) as (s' & row' & Hrun & [Hrow Hoth Hok' Hb] & Hrec & Href & Hdef & Htm).
  exists s', row'. rewrite Hck. split_and!; try done. rewrite Hb. unfold CronBusyGuard.is_busy. simpl.
  unfold CronBusyGuard.set_processing. by rewrite lookup_insert_eq.
Qed.

(** C7: when the agent has run a job that is still stored, and the run is not to be
    retried, the run is recorded in its row: its time (but for a skipped run), status,
    error and counters.  A one-shot job is disabled without a timer; any other gets
    the next run and the timer of the schedule it was started with, computed from the
    next reading of the clock after the run was recorded.  The conversation is
    free again, and no other job or timer changes. *)
Theorem run_is_recorded s job row conv r :
  svc_ok s → row_of (CronJob.id job) s = Some row → (∀ n, r ≠ Retrying n) →
  ∃ s' row', tick_end job conv r s = (s', Ok tt) ∧ row_of (CronJob.id job) s' = Some row' ∧
    recorded (time_at (clock s + 1)) r row row' ∧
    refiled job (time_at (clock s + 1 + readings r)) row row' (handles s') ∧ same_definition row row' ∧
    other_rows (CronJob.id job) s' = other_rows (CronJob.id job) s ∧
    same_timers (CronJob.id job) s s' ∧ CronBusyGuard.is_busy conv (busy s') = false.
Proof.
  intros Hok Hf Hr.
  destruct (tick_end_run s job row conv r Hok Hf Hr) as (s' & row' & He & [Hrow Hoth _ _] & H).
  exists s', row'. destruct H as (?&?&?&?&?). by split_and!.
Qed.

(* ------------------------------------------------------------------ *)
(** ** Edits *)

Lemma update_job_changes k req s row job job1 :
  svc_ok s → row_of k s = Some row → cron_job_from_row row = Ok job → edit_job job req = Ok job1 →
  ∃ s' row' next t, let job2 := CronJob.with_times next t job1 in
    update_job k req s = (s', Ok job2) ∧ changes k row row' s s' ∧
    handles s' = schedule_job job2 (handles s) ∧
    CronJobRow.max_retries row' = CronJobRow.max_retries row ∧
    (if no_set_parts (build_update_params job2 req) then row' = row
     else ∃ t', row' = row_update t' (build_update_params job2 req) row).
Proof.
  intros Hok Hf Hj He.
  destruct (update_job_run k req s row job job1 Hok Hf Hj He)
    as (s' & next & t & Hu & Hok' & [t' Hj'] & Hh & Hb & _).
  set (p := build_update_params _ req) in *.
  exists s', (if no_set_parts p then row else row_update t' p row), next, t. cbv zeta. fold p.
  split_and!; [done| |done|by case_match|by case_match; eauto].
  split; [|..|done|done].
  - unfold row_of. rewrite Hj'. destruct (no_set_parts p) eqn:Hn; [|by apply find_updated].
    unfold updated. by rewrite Hn.
  - unfold other_rows. rewrite Hj'. apply others_updated.
Qed.

(** The number of retries an edit asks for is in the answer, not in the table. *)
Lemma max_retries_edit_is_not_stored k req s row job job1 n :
  svc_ok s → row_of k s = Some row → cron_job_from_row row = Ok job → edit_job job req = Ok job1 →
  UpdateCronJobRequest.max_retries req = Some n →
  ∃ s' row' answer, update_job k req s = (s', Ok answer) ∧ CronJob.max_retries answer = n ∧
    row_of k s' = Some row' ∧ CronJobRow.max_retries row' = CronJobRow.max_retries row.
Proof.
  intros Hok Hf Hj He Hn.
  destruct (update_job_changes k req s row job job1 Hok Hf Hj He)
    as (s' & row' & next & t & Hu & [Hr _ _ _] & _ & Hm & _).
  do 3 eexists. split_and!; [exact Hu| |exact Hr|exact Hm]. simpl. unfold edit_job in He.
  destruct (match UpdateCronJobRequest.schedule req with Some _ => _ | None => _ end); [|done].
  cbn [res_bind] in He.
  destruct (match UpdateCronJobRequest.execution_mode req with Some _ => _ | None => _ end); [|done].
  cbn [res_bind] in He.
  destruct (match UpdateCronJobRequest.agent_config req with Some _ => _ | None => _ end); [|done].
  injection He as <-. simpl. by rewrite Hn.
Qed.

(** A request that only changes the schedule. *)
Definition new_schedule (dto : CronScheduleDto.t) : UpdateCronJobRequest.t :=
  UpdateCronJobRequest.mk None None None (Some dto) None None None None None.

(** An edit made while the agent runs a one-shot job does not survive the run.
    The edit is accepted: the new schedule is stored, the job is enabled and its
    timer is installed.  But the end of the run acts on the schedule the run was
    started with: the job ends disabled, without a next run and without a timer. *)
Lemma edit_during_run_is_undone s row job dto conv r :
  let k := CronJob.id job in
  let sch := schedule_from_dto dto in
  svc_ok s → row_of k s = Some row → cron_job_from_row row = Ok job →
  CronJob.enabled job = true → CronSchedule.is_at (CronJob.schedule job) = true →
  validate_schedule sch = Ok tt → (∀ n, r ≠ Retrying n) →
  ∃ s1 answer s2 row2,
    update_job k (new_schedule dto) s = (s1, Ok answer) ∧
    CronJob.schedule answer = sch ∧ CronJob.enabled answer = true ∧
    handles s1 !! k = timer_of answer ∧
    tick_end job conv r s1 = (s2, Ok tt) ∧ row_of k s2 = Some row2 ∧
    (CronJobRow.schedule_kind row2, CronJobRow.schedule_value row2) = (schedule_to_row_fields sch).1.1 ∧
    CronJobRow.enabled row2 = false ∧ CronJobRow.next_run_at row2 = None ∧ handles s2 !! k = None.
Proof.
  intros k sch Hok Hf Hj Hen Hat Hval Hr.
  assert (He : ∃ job1, edit_job job (new_schedule dto) = Ok job1 ∧ CronJob.id job1 = k ∧
    CronJob.schedule job1 = sch ∧ CronJob.enabled job1 = true).
  { unfold edit_job. simpl. fold sch. rewrite Hval. simpl. by eexists. }
  destruct He as (job1 & He & Hid1 & Hs1 & Hen1).
  destruct (update_job_changes k _ s row job job1 Hok Hf Hj He)
    as (s1 & row1 & next & t & Hu & Hch & Hh & _ & Hrow1).
  set (answer := CronJob.with_times next t job1) in *.
  assert (Hkind : (CronJobRow.schedule_kind row1, CronJobRow.schedule_value row1) = (schedule_to_row_fields sch).1.1).
  { unfold build_update_params in Hrow1. rewrite <- Hs1.
    change (CronJob.schedule answer) with (CronJob.schedule job1) in Hrow1.
    destruct (schedule_to_row_fields (CronJob.schedule job1)) as [[[kd v] tz] d]. simpl in Hrow1.
    destruct Hrow1 as [t' ->]. done. }
  destruct (tick_end_run s1 job row1 conv r (ch_ok _ _ _ _ _ Hch) (ch_row _ _ _ _ _ Hch) Hr)
    as (s2 & row2 & Hend & [Hrow2 _ _ _] & _ & Href & Hdef & _).
  unfold refiled in Href. rewrite Hat in Href. unfold same_definition in Hdef. destruct_and!.
  exists s1, answer, s2, row2. split_and!; try done; [|congruence].
  rewrite Hh, schedule_job_lookup, decide_True by done. done.
Qed.

(* ------------------------------------------------------------------ *)
(** ** Busy conversations *)

Lemma busy_tick env s row job :
  svc_ok s → row_of (CronJob.id job) s = Some row → cron_job_from_row row = Ok job →
  CronJob.enabled job = true → CronBusyGuard.is_busy (CronJob.conversation_id job) (busy s) = true →
  tick_begin env (CronJob.id job) s =
    st_bind (handle_execution_result job (handle_busy job)) (λ _, st_ret None) s.
Proof.
  intros Hok Hf Hj Hen Hb. unfold tick_begin.
  rewrite (st_bind_ok _ _ _ _ _ (try_read _ s _ (get_by_id_spec _ _))). fold (jobs s) (row_of (CronJob.id job) s).
  rewrite Hf, Hj, Hen. cbn [negb]. unfold execute_begin, st_bind at 1 2, st_get. by rewrite Hb.
Qed.

(** The row with its retry counter, and the job it reads back as. *)
Lemma retry_row_reads t n row job :
  cron_job_from_row row = Ok job →
  ∃ job', cron_job_from_row (row_update t (retry_params n) row) = Ok job' ∧
    CronJob.id job' = CronJob.id job ∧ CronJob.enabled job' = CronJob.enabled job ∧
    CronJob.conversation_id job' = CronJob.conversation_id job ∧
    CronJob.schedule job' = CronJob.schedule job ∧
    CronJob.retry_count job' = n ∧ CronJob.max_retries job' = CronJob.max_retries job.
Proof.
  unfold cron_job_from_row. simpl.
  destruct (parse_schedule _ _ _ _); [|done]. cbn [res_bind].
  destruct (ExecutionMode.from_str _); [|done]. cbn [res_bind].
  destruct (CreatedBy.from_str _); [|done]. cbn [res_bind].
  destruct (transpose_map _ (CronJobRow.agent_config row)); [|done]. cbn [res_bind].
  destruct (transpose_map _ (CronJobRow.last_status row)); [|done]. cbn [res_bind].
  intros [= <-]. by eexists.
Qed.

(** One attempt below the limit. *)
Lemma retry_attempt env s row job :
  svc_ok s → row_of (CronJob.id job) s = Some row → cron_job_from_row row = Ok job →
  CronJob.enabled job = true → CronBusyGuard.is_busy (CronJob.conversation_id job) (busy s) = true →
  CronJob.retry_count job < CronJob.max_retries job →
  ∃ s' t t', tick_begin env (CronJob.id job) s = (s', Ok None) ∧
    changes (CronJob.id job) row (row_update t (retry_params (CronJob.retry_count job + 1)) row) s s' ∧
    handles s' !! CronJob.id job = Some (AtTimer (t' + RETRY_INTERVAL_MS)) ∧
    same_timers (CronJob.id job) s s'.
Proof.
  intros Hok Hf Hj Hen Hb Hlt. rewrite (busy_tick env s row job) by done.
  unfold handle_busy. rewrite (proj2 (Z.leb_gt _ _)) by lia. cbn [handle_execution_result].
  destruct (try_update_changes (CronJob.id job) (retry_params (CronJob.retry_count job + 1)) row s Hok)
    as (s1 & Hu & Hh & Hl & Hch); [by apply writes_ok_run|done|done|].
  unfold st_bind at 1. rewrite (st_bind_ok _ _ _ _ _ Hu). unfold schedule_retry. rewrite now_step. cbv zeta.
  eexists _, _, (time_at (st_ticks (store s1))). split; [reflexivity|]. split_and!.
  - eapply changes_trans; [exact Hch|]. destruct Hch. by split.
  - simpl. rewrite schedule_job_lookup, decide_True by done. done.
  - intros k' Hne. simpl. by rewrite schedule_other, Hh.
Qed.

(** [n] consecutive ticks of a job. *)
Definition attempts (env : environment) (k : string) (n : nat) s : cron Db :=
  Nat.iter n (λ s, fst (tick_begin env k s)) s.

Lemma attempts_count env k n : ∀ s row job,
  k = CronJob.id job → svc_ok s → row_of k s = Some row → cron_job_from_row row = Ok job →
  CronJob.enabled job = true → CronBusyGuard.is_busy (CronJob.conversation_id job) (busy s) = true →
  CronJobRow.retry_count row + Z.of_nat n ≤ CronJobRow.max_retries row →
  ∃ row' job', changes k row row' s (attempts env k n s) ∧ cron_job_from_row row' = Ok job' ∧
    CronJob.id job' = k ∧ CronJob.enabled job' = true ∧
    CronJob.conversation_id job' = CronJob.conversation_id job ∧
    CronJobRow.retry_count row' = CronJobRow.retry_count row + Z.of_nat n ∧ same_definition row row' ∧
    CronJobRow.last_status row' = CronJobRow.last_status row ∧
    CronJobRow.run_count row' = CronJobRow.run_count row ∧
    ((0 < n)%nat → ∃ t, handles (attempts env k n s) !! k = Some (AtTimer (t + RETRY_INTERVAL_MS))).
Proof.
  induction n as [|n IH]; intros s row job -> Hok Hf Hj Hen Hb Hle.
  { exists row, job. unfold attempts. simpl. split; [by split|]. split_and!; try done; lia. }
  destruct (IH s row job eq_refl Hok Hf Hj Hen Hb ltac:(lia))
    as (row1 & job1 & Hch & Hj1 & Hid1 & Hen1 & Hc1 & Hrt & Hdef & Hls & Hrc & _).
  destruct (from_row_fields _ _ Hj1) as (_ & _ & _ & _ & Hrt1 & Hmx1).
  unfold same_definition in Hdef. destruct Hdef as (? & ? & ? & ? & ? & Hmx).
  destruct (retry_attempt env (attempts env (CronJob.id job) n s) row1 job1)
    as (s' & t & t' & Ht & Hch' & Hh & _); rewrite ?Hid1, ?Hc1; try done.
  { apply Hch. } { apply Hch. } { by rewrite (ch_busy _ _ _ _ _ Hch). } { lia. }
  rewrite Hid1 in Ht, Hch', Hh.
  assert (Hs : attempts env (CronJob.id job) (S n) s = s').
  { change (attempts env (CronJob.id job) (S n) s) with (fst (tick_begin env (CronJob.id job) (attempts env (CronJob.id job) n s))).
    by rewrite Ht. }
  destruct (retry_row_reads t (CronJob.retry_count job1 + 1) row1 job1 Hj1)
    as (job2 & Hj2 & Hid2 & Hen2 & Hc2 & _).
  rewrite Hs. eexists _, job2. split; [by eapply changes_trans|].
  split_and!; try congruence; [simpl; lia|by split_and!|done|done|]. intros _. by exists t'.
Qed.

(** While its conversation is busy a job is tried again every thirty seconds, each
    attempt counted, until [max_retries] attempts have been made; the next attempt
    gives up: the run is recorded as skipped and the counter starts again. *)
Lemma busy_job_retries_then_skips env s row job n :
  let k := CronJob.id job in
  svc_ok s → row_of k s = Some row → cron_job_from_row row = Ok job →
  CronJob.enabled job = true → CronBusyGuard.is_busy (CronJob.conversation_id job) (busy s) = true →
  CronJobRow.retry_count row + Z.of_nat n = CronJobRow.max_retries row →
  (∀ i, (0 < i ≤ n)%nat → ∃ row' t, row_of k (attempts env k i s) = Some row' ∧
     CronJobRow.retry_count row' = CronJobRow.retry_count row + Z.of_nat i ∧
     CronJobRow.last_status row' = CronJobRow.last_status row ∧
     handles (attempts env k i s) !! k = Some (AtTimer (t + RETRY_INTERVAL_MS))) ∧
  ∃ row', row_of k (attempts env k (S n) s) = Some row' ∧
    CronJobRow.last_status row' = Some "skipped" ∧ CronJobRow.retry_count row' = 0 ∧
    CronJobRow.run_count row' = CronJobRow.run_count row.
Proof.
  intros k Hok Hf Hj Hen Hb Hn. split.
  - intros i Hi. destruct (attempts_count env k i s row job eq_refl Hok Hf Hj Hen Hb ltac:(lia))
      as (row' & job' & Hch & _ & _ & _ & _ & Hrt & _ & Hls & _ & Hh).
    destruct (Hh ltac:(lia)) as [t Ht]. exists row', t. split_and!; try done. apply Hch.
  - destruct (attempts_count env k n s row job eq_refl Hok Hf Hj Hen Hb ltac:(lia))
      as (row1 & job1 & Hch & Hj1 & Hid1 & Hen1 & Hc1 & Hrt & Hdef & Hls & Hrc & _).
    destruct (from_row_fields _ _ Hj1) as (_ & _ & _ & _ & Hrt1 & Hmx1).
    unfold same_definition in Hdef. destruct Hdef as (? & ? & ? & ? & ? & Hmx).
    set (s1 := attempts env k n s) in *.
    change (attempts env k (S n) s) with (fst (tick_begin env k s1)).
    rewrite <- Hid1. rewrite <- Hid1 in Hch.
    rewrite (busy_tick env s1 row1 job1); [|apply Hch|apply Hch|done|done|by rewrite Hc1, (ch_busy _ _ _ _ _ Hch)].
    unfold handle_busy. rewrite (proj2 (Z.leb_le _ _)) by lia.
    destruct (result_run job1 Skipped row1 s1 (ch_ok _ _ _ _ _ Hch) (ch_row _ _ _ _ _ Hch))
      as (s2 & row2 & Hr & Hch2 & (_ & Hst & _ & Hrt2 & Hrc2) & _); [done|].
    rewrite (st_bind_ok _ _ _ _ _ Hr). exists row2. split_and!; [apply Hch2|done|done|]. simpl in Hrc2. lia.
Qed.
(* ------------------------------------------------------------------ *)
(** ** Resume *)

Lemma row_of_other k k' s : k' ≠ k → row_of k' s = List.find (is_job k') (other_rows k s).
Proof.
  intros Hne. unfold row_of, other_rows, delete_where, is_job.
  induction (jobs s) as [|r rows IH]; simpl; [done|].
  destruct (String.eqb_spec (CronJobRow.id r) k) as [->|Hk]; simpl.
  - by rewrite (proj2 (String.eqb_neq _ _) (not_eq_sym Hne)), IH.
  - by rewrite IH.
Qed.

Lemma changes_other k row row' s s' k' : changes k row row' s s' → k' ≠ k → row_of k' s' = row_of k' s.
Proof. intros [_ Ho _ _] Hne. by rewrite !(row_of_other k k') , Ho by done. Qed.

(** Was the run of [row] missed at time [t]? *)
Definition missed t row : bool :=
  match CronJobRow.next_run_at row with Some next_run => next_run <? t | None => false end.

(** What [handle_system_resume] makes of a stored job. *)
Definition resumed t row job row' (h : Handles) : Prop :=
  if missed t row then
    CronJobRow.last_status row' = Some "missed" ∧ CronJobRow.last_error row' = None ∧
    CronJobRow.retry_count row' = 0 ∧ CronJobRow.run_count row' = CronJobRow.run_count row ∧
    CronJobRow.last_run_at row' = CronJobRow.last_run_at row ∧
    same_definition row row' ∧ ∃ t', refiled job t' row row' h
  else row' = row ∧ h !! CronJob.id job = timer_of job.

Lemma missed_update_run k row s :
  svc_ok s → row_of k s = Some row →
  ∃ s' row', try_update k missed_params s = (s', Ok tt) ∧ changes k row row' s s' ∧
    handles s' = handles s ∧ same_definition row row' ∧
    CronJobRow.enabled row' = CronJobRow.enabled row ∧
    CronJobRow.last_status row' = Some "missed" ∧ CronJobRow.last_error row' = None ∧
    CronJobRow.retry_count row' = 0 ∧ CronJobRow.run_count row' = CronJobRow.run_count row ∧
    CronJobRow.last_run_at row' = CronJobRow.last_run_at row.
Proof.
  intros Hok Hf.
  destruct (try_update_changes k missed_params row s Hok) as (s1 & Hu & Hh & Hl & Hch);
    [|reflexivity|exact Hf|].
  { apply writes_ok_run. intros x [= <-]. set_solver. }
  do 2 eexists. split; [exact Hu|]. split; [exact Hch|]. by split_and!.
Qed.

Lemma tips_run env job row s :
  svc_ok s → row_of (CronJob.id job) s = Some row →
  ∃ s', insert_missed_job_tips env job s = (s', Ok tt) ∧ changes (CronJob.id job) row row s s' ∧
    handles s' = handles s.
Proof.
  intros Hok Hf. unfold insert_missed_job_tips. case_match; [eexists; by split_and!|].
  unfold st_bind. simpl. case_match; eexists; by split_and!.
Qed.

Lemma after_missed_run job row s :
  svc_ok s → row_of (CronJob.id job) s = Some row →
  ∃ s' row' t, reschedule_after_missed job s = (s', Ok tt) ∧
    changes (CronJob.id job) row row' s s' ∧ refiled job t row row' (handles s') ∧
    same_definition row row' ∧ same_run row row' ∧ same_timers (CronJob.id job) s s'.
Proof.
  intros Hok Hf. unfold reschedule_after_missed, refiled.
  destruct (CronSchedule.is_at (CronJob.schedule job)).
  - destruct (try_update_changes _ (UpdateCronJobParams.of_schedule (Some false) (Some None)) row s Hok
      (writes_ok_schedule _ _) eq_refl Hf) as (s1 & Hu & Hh & Hl & Hch).
    rewrite (st_bind_ok _ _ _ _ _ Hu). do 2 eexists. exists 0. split; [reflexivity|].
    split; [eapply changes_trans; [exact Hch|]; destruct Hch; by split|]. split_and!; try done.
    + simpl. apply lookup_delete_eq.
    + intros k' Hne. simpl. rewrite cancel_other by done. by rewrite Hh.
  - rewrite now_step. cbv zeta. set (t := time_at _). set (next := compute_next_run _ t).
    destruct (update_row_changes _ (UpdateCronJobParams.of_schedule None (Some next)) row (ticked s) Hok
      (writes_ok_schedule _ _) eq_refl Hf) as (s1 & Hu & Hh & Hl & Hch).
    unfold st_bind, st_try. rewrite Hu. do 2 eexists. exists t. split; [reflexivity|].
    split; [eapply changes_trans; [by apply changes_ticked|]; eapply changes_trans; [exact Hch|];
      destruct Hch; by split|]. split_and!; try done.
    + simpl. unfold reschedule_job. by rewrite schedule_job_lookup, decide_True.
    + intros k' Hne. simpl. unfold reschedule_job. rewrite schedule_other by done. by rewrite Hh.
Qed.

Lemma resume_row_run env t row job s :
  svc_ok s → row_of (CronJob.id job) s = Some row → cron_job_from_row row = Ok job →
  ∃ s' row', resume_row env t row s = (s', Ok tt) ∧ changes (CronJob.id job) row row' s s' ∧
    resumed t row job row' (handles s') ∧ same_timers (CronJob.id job) s s'.
Proof.
  intros Hok Hf Hj. unfold resume_row. rewrite Hj. destruct (from_row_fields _ _ Hj) as (_ & _ & Hnx & _).
  rewrite Hnx. fold (missed t row). unfold resumed. destruct (missed t row).
  - destruct (missed_update_run _ row s Hok Hf) as (s1 & row1 & Hu & Hch1 & Hh1 & Hd1 & He1 & Hrest).
    destruct (tips_run env job row1 s1) as (s2 & Ht & Hch2 & Hh2); [apply Hch1|apply Hch1|].
    destruct (after_missed_run job row1 s2) as (s3 & row3 & t3 & Hr & Hch3 & Href & Hd3 & Hrun & Htm);
      [apply Hch2|apply Hch2|].
    rewrite (st_bind_ok _ _ _ _ _ Hu), (st_bind_ok _ _ _ _ _ Ht), (st_bind_ok _ _ _ _ _ Hr).
    eexists _, row3. split; [reflexivity|]. split; [|split].
    + eapply changes_trans; [exact Hch1|]. eapply changes_trans; [exact Hch2|].
      eapply changes_trans; [exact Hch3|]. destruct Hch3. by split.
    + unfold same_run, same_definition in *. destruct_and!. split_and!; try congruence.
      exists t3. unfold refiled in *. simpl. by rewrite <- He1.
    + intros k' Hne. simpl. by rewrite Htm, Hh2, Hh1.
  - eexists _, row. split; [reflexivity|]. split; [by split|]. split; [split; [done|]|].
    + simpl. unfold reschedule_job. by rewrite schedule_job_lookup, decide_True.
    + intros k' Hne. simpl. by apply schedule_other.
Qed.

Lemma resume_rows_run env t l : ∀ s,
  svc_ok s → NoDup (map CronJobRow.id l) →
  (∀ r, r ∈ l → row_of (CronJobRow.id r) s = Some r ∧ readable r) →
  ∃ s', st_iter (resume_row env t) l s = (s', Ok tt) ∧ svc_ok s' ∧
    (∀ r, r ∈ l → ∃ job r', cron_job_from_row r = Ok job ∧
       row_of (CronJobRow.id r) s' = Some r' ∧ resumed t r job r' (handles s')) ∧
    (∀ k, k ∉ map CronJobRow.id l → row_of k s' = row_of k s ∧ handles s' !! k = handles s !! k).
Proof.
  induction l as [|r l IH]; intros s Hok Hnd Hl; simpl.
  { exists s. split_and!; try done. by intros r ?%elem_of_nil. }
  simpl in Hnd. apply NoDup_cons in Hnd as [Hr Hnd].
  destruct (Hl r ltac:(by left)) as [Hf Hread]. unfold readable, is_ok in Hread.
  destruct (cron_job_from_row r) as [job|] eqn:Hj; [|done]. clear Hread.
  destruct (from_row_fields _ _ Hj) as (Hid & _). rewrite <- Hid in Hf.
  destruct (resume_row_run env t r job s Hok Hf Hj) as (s1 & r1 & Hrun & Hch & Hres & Htm).
  rewrite (st_bind_ok _ _ _ _ _ Hrun).
  assert (Hne : ∀ x, x ∈ l → CronJobRow.id x ≠ CronJob.id job).
  { intros x Hx Heq. apply Hr, elem_of_map. exists x. split; [congruence|done]. }
  destruct (IH s1) as (s2 & Hit & Hok2 & Hdone & Hoth).
  { apply Hch. } { done. }
  { intros x Hx. rewrite (changes_other _ _ _ _ _ _ Hch) by auto. apply Hl. by right. }
  exists s2. split_and!; [done|done| |].
  - intros x [->|Hx]%elem_of_cons; [|by apply Hdone].
    destruct (Hoth (CronJobRow.id r) Hr) as [Hrow Hh]. exists job, r1. split_and!; [done| |].
    + rewrite Hrow, <- Hid. apply Hch.
    + unfold resumed, refiled in *. by rewrite Hid, Hh in *.
  - intros k [Hkr Hkl]%not_elem_of_cons. destruct (Hoth k Hkl) as [-> ->]. rewrite <- Hid in Hkr. split.
    + by eapply changes_other.
    + by apply Htm.
Qed.

Lemma row_of_in s r : svc_ok s → r ∈ jobs s → row_of (CronJobRow.id r) s = Some r.
Proof.
  intros Hok Hin. unfold row_of. destruct (List.find _ _) as [x|] eqn:Hf.
  - apply find_job in Hf as [Hx Hxr]. f_equal. by eapply same_id_row.
  - by destruct (find_no_job _ _ Hf r Hin).
Qed.

(** When the system resumes, an enabled job whose run is overdue is recorded as
    missed and filed for its next run without being run; every other enabled job is
    left as it is with its timer set anew; disabled jobs are not touched. *)
Lemma resume_runs_nothing env s :
  svc_ok s → (∀ r, r ∈ jobs s → readable r) →
  ∃ s', handle_system_resume env s = (s', Ok tt) ∧ svc_ok s' ∧
    ∀ r, r ∈ jobs s → ∃ r', row_of (CronJobRow.id r) s' = Some r' ∧
      if CronJobRow.enabled r
      then ∃ job, cron_job_from_row r = Ok job ∧
             resumed (time_at (st_ticks (store s))) r job r' (handles s')
      else r' = r ∧ handles s' !! CronJobRow.id r = handles s !! CronJobRow.id r.
Proof.
  intros Hok Hread. unfold handle_system_resume.
  rewrite (st_bind_ok _ _ _ _ _ (try_read _ s _ (list_enabled_spec _))), now_step. fold (jobs s).
  set (l := sort_by _ _). destruct (to_visit_enabled s Hok) as [Hnd _]. fold l in Hnd.
  assert (Hl : ∀ r, r ∈ l ↔ r ∈ jobs s ∧ CronJobRow.enabled r = true).
  { intros r. unfold l. by rewrite elem_of_sort_by, elem_of_filter_list. }
  destruct (resume_rows_run env (time_at (st_ticks (store s))) l (ticked s) Hok Hnd) as (s' & Hit & Hok' & Hdone & Hoth).
  { intros r [Hin _]%Hl. split; [by apply row_of_in|by apply Hread]. }
  exists s'. split_and!; [done|done|]. intros r Hin. destruct (CronJobRow.enabled r) eqn:Hen.
  - destruct (Hdone r) as (job & r' & Hj & Hr & Hres); [by apply Hl|]. exists r'. eauto.
  - exists r. destruct (Hoth (CronJobRow.id r)) as [Hr Hh].
    { intros (x & Hx & [Hxj Hxe]%Hl)%elem_of_map.
      rewrite (same_id_row s x r Hok Hxj Hin (eq_sym Hx)) in Hxe. congruence. }
    split; [|done]. rewrite Hr. by apply row_of_in.
Qed.
End outcome.

(* ------------------------------------------------------------------ *)
(** ** Concrete runs *)

Section witnesses.
#[local] Existing Instance config_text.
#[local] Existing Instance minute_crate.
#[local] Existing Instance counting.

(** One stored job, whose conversation may be busy. *)
Definition stored (job : CronJob.t) (g : CronBusyGuard.t) : cron SqliteCronRepository.CronDb :=
  mk_cron (mk_store [cron_job_to_row job] 0 0) ∅ g [].

Lemma stored_ok job g :
  CronJob.id job = "cron_demo" → row_ok (cron_job_to_row job) = true → svc_ok (stored job g).
Proof.
  intros Hid Hr. assert (Hrid : CronJobRow.id (cron_job_to_row job) = "cron_demo").
  { unfold cron_job_to_row. by destruct (schedule_to_row_fields _) as [[[? ?] ?] ?]. }
  split; [split|].
  - apply NoDup_singleton.
  - by constructor.
  - intros n _. simpl. rewrite Hrid, list_elem_of_singleton. destruct n; discriminate.
Qed.

Lemma run_is_recorded_witness :
  ∃ s' row', tick_end demo_job "conv" (Success "conv") (stored demo_job ∅) = (s', Ok tt) ∧
    row_of "cron_demo" s' = Some row' ∧ CronJobRow.last_status row' = Some "ok" ∧
    CronJobRow.last_run_at row' = Some 1001 ∧ CronJobRow.run_count row' = 2 ∧
    CronJobRow.next_run_at row' = compute_next_run (CronJob.schedule demo_job) 1003.
Proof.
  destruct (run_is_recorded (stored demo_job ∅) demo_job (cron_job_to_row demo_job) "conv" (Success "conv"))
    as (s' & row' & He & Hrow & (Hat & Hst & _ & _ & Hrc) & Href & _).
  { apply stored_ok; by vm_compute. } { by vm_compute. } { done. }
  exists s', row'. split_and!; [done|done|done|exact Hat| |exact (proj1 (proj2 Href))].
  rewrite Hrc. by vm_compute.
Defined.

(** The job once at 500. *)
Definition demo_at : CronJob.t :=
  CronJob.mk "cron_demo" "once" true (CronSchedule.At 500 None) "go" ExecutionMode.Existing None "conv"
    None "acp" CreatedBy.User None None 1 2 (Some 500) None None None 0 0 2.

Lemma edit_during_run_is_undone_witness :
  ∃ s1 answer s2 row2,
    update_job "cron_demo" (new_schedule (CronScheduleDto.Every 60000 None)) (stored demo_at ∅) = (s1, Ok answer) ∧
    handles s1 !! "cron_demo" = timer_of answer ∧ is_Some (timer_of answer) ∧
    tick_end demo_at "conv" (Success "conv") s1 = (s2, Ok tt) ∧ row_of "cron_demo" s2 = Some row2 ∧
    CronJobRow.schedule_kind row2 = "every" ∧ CronJobRow.enabled row2 = false ∧
    handles s2 !! "cron_demo" = None.
Proof.
  destruct (edit_during_run_is_undone (stored demo_at ∅) (cron_job_to_row demo_at) demo_at
    (CronScheduleDto.Every 60000 None) "conv" (Success "conv"))
    as (s1 & answer & s2 & row2 & Hu & Hs & Hen & Hh & He & Hr & Hk & Hen2 & _ & Hh2).
  { apply stored_ok; by vm_compute. } { by vm_compute. } { by vm_compute. } { done. } { done. } { done. } { done. }
  exists s1, answer, s2, row2. split_and!; try done.
  - vm_compute in Hu. injection Hu as _ <-. by eexists.
  - by injection Hk.
Defined.

(** What happens when calls of the service do overlap: [reschedule_after_execution]
    stores that the one-shot job is done and then cancels its timer
    ([try_update], then [timers (cancel_job _)]); an edit that falls in between enables
    the job again and installs a timer, which is then cancelled.  The job is stored as
    enabled with a next run and has no timer. *)
Definition enable_every : UpdateCronJobRequest.t :=
  UpdateCronJobRequest.mk None None (Some true) (Some (CronScheduleDto.Every 60000 None)) None None None None None.
Lemma overlapping_edit_loses_the_timer :
  let s1 := fst (try_update "cron_demo" (UpdateCronJobParams.of_schedule (Some false) (Some None))
                   (stored demo_at ∅)) in
  let s2 := fst (update_job "cron_demo" enable_every s1) in
  let s3 := fst (timers (cancel_job "cron_demo") s2) in
  is_Some (handles s2 !! "cron_demo") ∧ handles s3 !! "cron_demo" = None ∧
  ∃ row, row_of "cron_demo" s3 = Some row ∧ due row.
Proof.
  cbv zeta. split_and!; [vm_compute; by eexists|by vm_compute|].
  eexists. split; [vm_compute; reflexivity|]. split_and!; [done|by eexists|by vm_compute].
Qed.

Lemma resume_runs_nothing_witness :
  ∃ s' row', handle_system_resume demo_env (stored demo_at ∅) = (s', Ok tt) ∧
    row_of "cron_demo" s' = Some row' ∧ CronJobRow.last_status row' = Some "missed" ∧
    CronJobRow.run_count row' = 0 ∧ CronJobRow.enabled row' = false.
Proof.
  destruct (resume_runs_nothing demo_env (stored demo_at ∅)) as (s' & He & _ & Hall).
  { apply stored_ok; by vm_compute. }
  { intros r ->%list_elem_of_singleton. by vm_compute. }
  destruct (Hall (cron_job_to_row demo_at)) as (row' & Hr & Hcase); [by left|].
  change (CronJobRow.enabled (cron_job_to_row demo_at)) with true in Hcase.
  destruct Hcase as (job & Hj & Hres). vm_compute in Hj. injection Hj as <-.
  unfold resumed in Hres. change (missed _ _) with true in Hres.
  destruct Hres as (Hst & _ & _ & Hrc & _ & _ & t & Hen & _).
  exists s', row'. by split_and!.
Defined.

Definition busy_conv : CronBusyGuard.t := {["conv" := CronBusyGuard.mk_state true 0]}.

Lemma busy_job_retries_then_skips_witness :
  ∃ row', row_of "cron_demo" (attempts demo_env "cron_demo" 3 (stored demo_job busy_conv)) = Some row' ∧
    CronJobRow.last_status row' = Some "skipped" ∧ CronJobRow.retry_count row' = 0.
Proof.
  destruct (busy_job_retries_then_skips demo_env (stored demo_job busy_conv) (cron_job_to_row demo_job) demo_job 2)
    as [_ (row' & Hr & Hst & Hrt & _)].
  { apply stored_ok; by vm_compute. } { by vm_compute. } { by vm_compute. } { done. } { by vm_compute. } { by vm_compute. }
  by exists row'.
Defined.
End witnesses.
