(* ===== verification/JsonValue.v ===== *)
(** * JsonValue: [serde_json::Value]

    JSON values with what the components do to them, the text of a value as a class
    ([JsonCodec]: [to_string] and [from_str] with their round trip), and an instance on
    which examples evaluate.  An object is the list of its entries; a value is [json_ok]
    when no object in it has a key twice, as every [serde_json::Map] is. *)

From S2P Require Import Prelude.
From S2P Require Import Text.
From S2P Require Import Json.
From Stdlib Require Import Ascii.

(** [Num] keeps the literal of the number. *)
Inductive json :=
| Null | Bool (b : bool) | Num (literal : string) | Str (s : string)
| Arr (l : list json) | Obj (l : list (string * json)).

Section json_ind.
Context (P : json → Prop) (HNull : P Null) (HBool : ∀ b, P (Bool b)) (HNum : ∀ s, P (Num s))
  (HStr : ∀ s, P (Str s)) (HArr : ∀ l, Forall P l → P (Arr l))
  (HObj : ∀ l, Forall (λ kv, P (snd kv)) l → P (Obj l)).
Fixpoint json_nested_ind (v : json) : P v :=
  match v with
  | Null => HNull | Bool b => HBool b | Num s => HNum s | Str s => HStr s
  | Arr l => HArr l ((fix go (l : list json) : Forall P l := match l with
      | [] => List.Forall_nil _ | x :: l' => List.Forall_cons _ _ _ (json_nested_ind x) (go l') end) l)
  | Obj l => HObj l ((fix go (l : list (string * json)) : Forall (λ kv, P (snd kv)) l := match l with
      | [] => List.Forall_nil _ | x :: l' => List.Forall_cons _ _ _ (json_nested_ind (snd x)) (go l') end) l)
  end.
End json_ind.

Fixpoint json_ok (v : json) : bool :=
  match v with
  | Arr l => forallb json_ok l
  | Obj l => bool_decide (NoDup l.*1) && forallb (λ kv, json_ok (snd kv)) l
  | _ => true
  end.

(* ------------------------------------------------------------------ *)
(** ** Objects *)

Definition as_str (v : json) : option string := match v with Str s => Some s | _ => None end.
Definition as_object (v : json) : option (list (string * json)) := match v with Obj l => Some l | _ => None end.

Definition as_bool (v : json) : option bool := match v with Bool b => Some b | _ => None end.
Definition as_array (v : json) : option (list json) := match v with Arr l => Some l | _ => None end.
(** [as_u64] and [as_i64]: the literal of an integer of the type; [-0] is a float. *)
Definition as_u64 (v : json) : option Z := match v with Num s => Z.of_N <$> res_ok (parse_usize s) | _ => None end.
Definition as_i64 (v : json) : option Z :=
  match v with Num s => if String.eqb s "-0" then None else res_ok (parse_i64 s) | _ => None end.
(** The literal of an integer. *)
Definition num (z : Z) : json := Num (show_i64 z).

Definition entry (k : string) (l : list (string * json)) : option json :=
  snd <$> List.find (λ kv, String.eqb (fst kv) k) l.

(** [Value::get] with a string. *)
Definition get (k : string) (v : json) : option json :=
  match v with Obj l => entry k l | _ => None end.

(** [Map::insert] and [Map::remove]. *)
Fixpoint insert (k : string) (x : json) (l : list (string * json)) : list (string * json) :=
  match l with
  | [] => [(k, x)]
  | kv :: l' => if String.eqb (fst kv) k then (k, x) :: l' else kv :: insert k x l'
  end.
Definition remove (k : string) (l : list (string * json)) : list (string * json) :=
  List.filter (λ kv, negb (String.eqb (fst kv) k)) l.

Lemma entry_cons k kv l : entry k (kv :: l) = if String.eqb (fst kv) k then Some (snd kv) else entry k l.
Proof. unfold entry. simpl. by destruct (String.eqb (fst kv) k). Qed.

Lemma entry_insert k x l : entry k (insert k x l) = Some x.
Proof.
  induction l as [|[k' y] l IH]; simpl; [by rewrite entry_cons, String.eqb_refl|].
  destruct (String.eqb_spec k' k) as [->|Hk]; rewrite entry_cons; simpl; [by rewrite String.eqb_refl|].
  by rewrite (proj2 (String.eqb_neq _ _) Hk).
Qed.

Lemma entry_insert_ne k k' x l : k ≠ k' → entry k (insert k' x l) = entry k l.
Proof.
  intros Hne. induction l as [|[k0 y] l IH]; simpl.
  - rewrite entry_cons. simpl. by rewrite (proj2 (String.eqb_neq k' k)) by congruence.
  - destruct (String.eqb_spec k0 k') as [->|Hk]; rewrite !entry_cons; simpl; [|by rewrite IH].
    by rewrite (proj2 (String.eqb_neq k' k)) by congruence.
Qed.

Create Rewrite HintDb obj.
#[export] Hint Rewrite entry_insert : obj.
#[export] Hint Rewrite entry_insert_ne using discriminate : obj.

Lemma keys_insert k x l k' : k' ∈ (insert k x l).*1 → k' = k ∨ k' ∈ l.*1.
Proof.
  induction l as [|[k0 y] l IH]; simpl; [set_solver|]. destruct (String.eqb k0 k); simpl.
  - intros [->|?]%elem_of_cons; [by left|]. right. by right.
  - intros [->|Hin]%elem_of_cons; [right; by left|]. destruct (IH Hin); [by left|]. right. by right.
Qed.

Lemma ok_insert k x l : json_ok (Obj l) = true → json_ok x = true → json_ok (Obj (insert k x l)) = true.
Proof.
  simpl. rewrite !andb_true_iff, !bool_decide_eq_true, !forallb_forall.
  intros [Hnd Hl] Hx. split.
  - clear Hl. induction l as [|[k0 y] l IH]; simpl; [apply NoDup_singleton|].
    simpl in Hnd. apply NoDup_cons in Hnd as [Hk Hnd]. destruct (String.eqb_spec k0 k) as [->|Hne].
    + simpl. by apply NoDup_cons.
    + simpl. apply NoDup_cons. split; [|by apply IH]. by intros [?|?]%keys_insert.
  - clear Hnd. intros kv Hin. induction l as [|[k0 y] l IH]; simpl in Hin.
    + by destruct Hin as [<-|[]].
    + destruct (String.eqb k0 k).
      * destruct Hin as [<-|Hin]; [done|]. apply Hl. by right.
      * destruct Hin as [<-|Hin]; [apply (Hl (k0, y)); by left|].
        apply IH; [|done]. intros ??. apply Hl. by right.
Qed.

Lemma ok_entry k l x : json_ok (Obj l) = true → entry k l = Some x → json_ok x = true.
Proof.
  simpl. rewrite andb_true_iff, forallb_forall. intros [_ Hl]. unfold entry.
  destruct (List.find _ l) as [kv|] eqn:Hf; simpl; [|done]. intros [= <-].
  apply List.find_some in Hf as [Hf _]. by apply (Hl kv).
Qed.

(** A map of strings as an object, and back ([HashMap<String, String>]). *)
Definition of_map `{HashIter string} (m : gmap string string) : json :=
  Obj (map (λ kv, (fst kv, Str (snd kv))) (hm_iter m)).

Fixpoint strings_of (l : list (string * json)) : option (list (string * string)) :=
  match l with
  | [] => Some []
  | (k, Str s) :: l' => match strings_of l' with Some r => Some ((k, s) :: r) | None => None end
  | _ => None
  end.
Definition to_map (v : json) : option (gmap string string) :=
  match v with
  | Obj l => match strings_of l with Some r => Some (list_to_map r) | None => None end
  | _ => None
  end.

Lemma ok_of_map `{HashIter string} m : json_ok (of_map m) = true.
Proof.
  simpl. rewrite andb_true_iff, bool_decide_eq_true, forallb_forall. split.
  - rewrite <- list_fmap_compose. change (NoDup ((hm_iter m).*1)). apply NoDup_hm_iter_keys.
  - intros kv (x & -> & _)%list_elem_of_In%list_elem_of_fmap. done.
Qed.

Lemma to_of_map `{HashIter string} m : to_map (of_map m) = Some m.
Proof.
  simpl. assert (Hs : ∀ l : list (string * string), strings_of (map (λ kv, (fst kv, Str (snd kv))) l) = Some l).
  { induction l as [|[k s] l IH]; simpl; [done|]. by rewrite IH. }
  rewrite Hs. f_equal. rewrite <- (list_to_map_to_list m) at 2.
  apply list_to_map_proper; [apply NoDup_hm_iter_keys|apply hm_iter_perm].
Qed.

(* ------------------------------------------------------------------ *)
(** ** Text *)

Class JsonCodec := {
  to_string : json → string;
  from_str : string → option json;
  codec_roundtrip : ∀ v, json_ok v = true → from_str (to_string v) = Some v;
  from_str_ok : ∀ s v, from_str s = Some v → json_ok v = true;
  empty_object : from_str "{}" = Some (Obj []);
}.

(** An instance: JSON with a comma before every item and no colons, and numbers between
    a hash and a quote. *)
Module Plain.
Definition comma : Ascii.ascii := Ascii.ascii_of_nat 44.
Definition quote : Ascii.ascii := Ascii.ascii_of_nat 34.

Fixpoint put (v : json) (rest : string) : string :=
  match v with
  | Null => String "n" rest
  | Bool b => String (if b then "t" else "f")%char rest
  | Num s => String "#" (JsonText.escape s (String quote rest))
  | Str s => String quote (JsonText.escape s (String quote rest))
  | Arr l => String "[" (List.fold_right (λ x r, String comma (put x r)) (String "]" rest) l)
  | Obj l => String "{" (List.fold_right (λ kv r, String comma (JsonText.escape (fst kv) (String quote (put (snd kv) r))))
                           (String "}" rest) l)
  end.

Fixpoint unescape (s acc : string) : option (string * string) :=
  match s with
  | EmptyString => None
  | String a s' =>
      if Ascii.eqb a JsonText.backslash then
        match s' with String b s'' => unescape s'' (String b acc) | EmptyString => None end
      else if Ascii.eqb a quote then Some (JsonText.str_rev acc EmptyString, s')
      else unescape s' (String a acc)
  end.

Fixpoint read (n : nat) (s : string) {struct n} : option (json * string) :=
  match n, s with
  | S n, String a s' =>
      if Ascii.eqb a "n" then Some (Null, s')
      else if Ascii.eqb a "t" then Some (Bool true, s')
      else if Ascii.eqb a "f" then Some (Bool false, s')
      else if Ascii.eqb a "#" then (λ r, (Num (fst r), snd r)) <$> unescape s' EmptyString
      else if Ascii.eqb a quote then (λ r, (Str (fst r), snd r)) <$> unescape s' EmptyString
      else if Ascii.eqb a "[" then (λ r, (Arr (fst r), snd r)) <$> read_items n s'
      else if Ascii.eqb a "{" then (λ r, (Obj (fst r), snd r)) <$> read_fields n s'
      else None
  | _, _ => None
  end
with read_items (n : nat) (s : string) {struct n} : option (list json * string) :=
  match n, s with
  | S n, String a s' =>
      if Ascii.eqb a "]" then Some ([], s')
      else if Ascii.eqb a comma then
        match read n s' with
        | Some (v, s1) => (λ r, (v :: fst r, snd r)) <$> read_items n s1
        | None => None
        end
      else None
  | _, _ => None
  end
with read_fields (n : nat) (s : string) {struct n} : option (list (string * json) * string) :=
  match n, s with
  | S n, String a s' =>
      if Ascii.eqb a "}" then Some ([], s')
      else if Ascii.eqb a comma then
        match unescape s' EmptyString with
        | Some (k, s1) =>
            match read n s1 with
            | Some (v, s2) => (λ r, ((k, v) :: fst r, snd r)) <$> read_fields n s2
            | None => None
            end
        | None => None
        end
      else None
  | _, _ => None
  end.

Lemma unescape_escape s rest acc :
  unescape (JsonText.escape s (String quote rest)) acc = Some (JsonText.str_rev (JsonText.str_rev s acc) EmptyString, rest).
Proof.
  revert acc. induction s as [|a s IH]; intros acc; simpl; [done|].
  destruct (Ascii.eqb a JsonText.quote || Ascii.eqb a JsonText.backslash) eqn:E; simpl; [apply IH|].
  apply orb_false_elim in E as [E ->]. change quote with JsonText.quote. rewrite E. apply IH.
Qed.

Lemma unescape_string s rest : unescape (JsonText.escape s (String quote rest)) EmptyString = Some (s, rest).
Proof. rewrite unescape_escape, JsonText.str_rev_rev. simpl. by rewrite JsonText.str_app_nil. Qed.

Lemma escape_length s rest : (String.length rest ≤ String.length (JsonText.escape s rest))%nat.
Proof. induction s as [|a s IH]; simpl; [done|]. destruct (_ || _); simpl; lia. Qed.

Lemma read_put v : ∀ rest n, (String.length (put v rest) ≤ n)%nat →
  read n (put v rest) = Some (v, rest) ∧ (String.length rest < String.length (put v rest))%nat.
Proof.
  induction v as [| | | |l IH|l IH] using json_nested_ind; intros rest [|n] Hn; simpl in Hn |- *; try lia.
  - split; [done|lia].
  - destruct b; split; (done || lia).
  - rewrite unescape_string. split; [done|]. pose proof (escape_length s (String quote rest)) as Hl. simpl in Hl. lia.
  - rewrite unescape_string. split; [done|]. pose proof (escape_length s (String quote rest)) as Hl. simpl in Hl. lia.
  - set (body := List.fold_right _ _ l).
    cut (read_items n body = Some (l, rest) ∧ (String.length rest < String.length body)%nat).
    { intros [-> ?]. split; [done|lia]. }
    subst body. assert (Hle := le_S_n _ _ Hn). clear Hn. revert n Hle.
    induction IH as [|x l Hx Hl IHl]; intros [|n] Hle; simpl in Hle |- *; try lia; [split; [done|lia]|].
    revert IHl Hle. set (tail := List.fold_right _ _ l). intros IHl Hle.
    destruct (Hx tail n) as [-> Hlt]; [lia|]. destruct (IHl n) as [Hr Hr']; [lia|].
    rewrite Hr. split; [done|lia].
  - set (body := List.fold_right _ _ l).
    cut (read_fields n body = Some (l, rest) ∧ (String.length rest < String.length body)%nat).
    { intros [-> ?]. split; [done|lia]. }
    subst body. assert (Hle := le_S_n _ _ Hn). clear Hn. revert n Hle.
    induction IH as [|[k x] l Hx Hl IHl]; intros [|n] Hle; simpl in Hle |- *; try lia; [split; [done|lia]|].
    rewrite unescape_string. simpl in Hx. revert IHl Hle. set (tail := List.fold_right _ _ l). intros IHl Hle.
    pose proof (escape_length k (String quote (put x tail))) as Hk. simpl in Hk.
    destruct (Hx tail n) as [-> Hlt]; [lia|]. destruct (IHl n) as [Hr Hr']; [lia|].
    rewrite Hr. split; [done|lia].
Qed.

Definition from_text (s : string) : option json :=
  if String.eqb s "{}" then Some (Obj []) else
  match read (String.length s) s with
  | Some (v, EmptyString) => if json_ok v then Some v else None
  | _ => None
  end.

Lemma put_not_braces v : put v EmptyString = "{}" → v = Obj [].
Proof. destruct v as [|[]| | | |[|[k x] l]]; simpl; done. Qed.

Lemma from_text_put v : json_ok v = true → from_text (put v EmptyString) = Some v.
Proof.
  intros Hv. unfold from_text. destruct (String.eqb_spec (put v EmptyString) "{}") as [->%put_not_braces|]; [done|].
  destruct (read_put v EmptyString _ (le_n _)) as [-> _]. by rewrite Hv.
Qed.

Lemma from_text_ok s v : from_text s = Some v → json_ok v = true.
Proof.
  unfold from_text. destruct (String.eqb s "{}"); [by intros [= <-]|].
  destruct (read _ _) as [[v' [|]]|]; try done. destruct (json_ok v') eqn:Hv; [|done]. by intros [= <-].
Qed.
End Plain.

Definition plain_codec : JsonCodec := {|
  to_string := λ v, Plain.put v EmptyString;
  from_str := Plain.from_text;
  codec_roundtrip := Plain.from_text_put;
  from_str_ok := Plain.from_text_ok;
  empty_object := eq_refl;
|}.
