(* ===== verification/CaseConvert.v ===== *)
(** * CaseConvert: JSON keys in snake case

    [case_convert.rs] of [chisl-common].  Only ASCII letters and digits matter to the
    conversion, and no byte of another character is one, so it runs over bytes. *)

From S2P Require Import Prelude.
From S2P Require Import Text.
From S2P Require Import JsonValue.

Definition is_upper (a : Ascii.ascii) : bool := (65 <=? byte_of a) && (byte_of a <=? 90).
Definition is_lower (a : Ascii.ascii) : bool := (97 <=? byte_of a) && (byte_of a <=? 122).
Definition is_digit (a : Ascii.ascii) : bool := (48 <=? byte_of a) && (byte_of a <=? 57).
Definition to_lower (a : Ascii.ascii) : Ascii.ascii := of_byte (byte_of a + 32).
Definition underscore : Ascii.ascii := Ascii.ascii_of_nat 95.

(** [prev]: the character before, as it was in the input. *)
Fixpoint camel_to_snake_from (prev : option Ascii.ascii) (s : string) : string :=
  match s with
  | EmptyString => EmptyString
  | String c s' =>
      let out := camel_to_snake_from (Some c) s' in
      if is_upper c then
        let prev_is_lower_or_digit := match prev with Some p => is_lower p || is_digit p | None => false end in
        let next_is_lower := match s' with String n _ => is_lower n | EmptyString => false end in
        let prev_is_upper := match prev with Some p => is_upper p | None => false end in
        if prev_is_lower_or_digit || (prev_is_upper && next_is_lower)
        then String underscore (String (to_lower c) out) else String (to_lower c) out
      else String c out
  end.
(* chisl-common/src/case_convert.rs:17-34 camel_to_snake *)
Definition camel_to_snake (input : string) : string := camel_to_snake_from None input.

(** [collect] into a map: a later entry replaces an earlier one of the same key. *)
Definition collect (l : list (string * json)) : list (string * json) :=
  foldl (λ m kv, insert (fst kv) (snd kv) m) [] l.

Definition new_key (k : string) : string := if String.eqb k "_meta" then k else camel_to_snake k.
(* chisl-common/src/case_convert.rs:42-64 normalize_keys_to_snake_case *)
Fixpoint normalize_keys_to_snake_case (value : json) : json :=
  match value with
  | Obj l => Obj (collect (map (λ kv, (new_key (fst kv),
      if String.eqb (fst kv) "_meta" then snd kv else normalize_keys_to_snake_case (snd kv))) l))
  | Arr items => Arr (map normalize_keys_to_snake_case items)
  | v => v
  end.

(* ------------------------------------------------------------------ *)
(** ** Converting twice *)

Fixpoint no_upper (s : string) : bool :=
  match s with EmptyString => true | String c s' => negb (is_upper c) && no_upper s' end.

Lemma to_lower_not_upper c : is_upper c = true → is_upper (to_lower c) = false.
Proof. destruct c as [[] [] [] [] [] [] [] []]; vm_compute; congruence. Qed.

Lemma camel_no_upper s : ∀ prev, no_upper (camel_to_snake_from prev s) = true.
Proof.
  induction s as [|c s IH]; intros prev; simpl; [done|].
  destruct (is_upper c) eqn:Hc.
  - destruct (_ || _); simpl; by rewrite to_lower_not_upper, IH.
  - simpl. by rewrite Hc, IH.
Qed.

Lemma camel_id s : ∀ prev, no_upper s = true → camel_to_snake_from prev s = s.
Proof.
  induction s as [|c s IH]; intros prev; simpl; [done|]. intros [Hc%negb_true_iff Hs]%andb_true_iff.
  by rewrite Hc, IH.
Qed.

Lemma new_key_twice k : new_key (new_key k) = new_key k.
Proof.
  unfold new_key. destruct (String.eqb k "_meta") eqn:Hk; [by rewrite Hk|].
  destruct (String.eqb (camel_to_snake k) "_meta"); [done|]. apply camel_id, camel_no_upper.
Qed.

Lemma insert_absent k x l : k ∉ l.*1 → insert k x l = l ++ [(k, x)].
Proof.
  induction l as [|[k' y] l IH]; simpl; [done|]. intros Hk. apply not_elem_of_cons in Hk as [Hne Hk].
  rewrite (proj2 (String.eqb_neq k' k)) by congruence. by rewrite IH.
Qed.

Lemma collect_onto l : ∀ m, NoDup (m.*1 ++ l.*1) → foldl (λ m kv, insert (fst kv) (snd kv) m) m l = m ++ l.
Proof.
  induction l as [|[k x] l IH]; intros m Hnd; simpl; [by rewrite app_nil_r|].
  rewrite insert_absent.
  - rewrite IH; [by rewrite <- app_assoc|]. rewrite fmap_app. simpl. by rewrite <- app_assoc.
  - apply NoDup_app in Hnd as (_ & Hd & _). intros Hk. apply (Hd k Hk). by left.
Qed.

Lemma collect_distinct l : NoDup l.*1 → collect l = l.
Proof. intros Hl. by apply collect_onto. Qed.

Lemma NoDup_insert k x l : NoDup l.*1 → NoDup (insert k x l).*1.
Proof.
  induction l as [|[k' y] l IH]; simpl; [intros _; apply NoDup_singleton|]. intros [Hk Hl]%NoDup_cons.
  destruct (String.eqb_spec k' k) as [->|Hne]; simpl.
  - by apply NoDup_cons.
  - apply NoDup_cons. split; [|by apply IH]. by intros [?|?]%keys_insert.
Qed.

Lemma elem_of_insert kv k x l : kv ∈ insert k x l → kv = (k, x) ∨ kv ∈ l.
Proof.
  induction l as [|[k' y] l IH]; simpl; [set_solver|].
  destruct (String.eqb k' k); rewrite !elem_of_cons; [tauto|]. intros [?|?]; [tauto|]. tauto.
Qed.

Lemma collect_spec (P : string * json → Prop) l : Forall P l → NoDup (collect l).*1 ∧ Forall P (collect l).
Proof.
  unfold collect. intros Hl. assert (Hm : NoDup ([] : list (string * json)).*1 ∧ Forall P []) by (split; constructor).
  revert Hm. generalize ([] : list (string * json)) as m. induction Hl as [|[k x] l Hx Hl IH]; intros m [Hnd Hm]; simpl; [done|].
  apply IH. split; [by apply NoDup_insert|]. apply Forall_forall. intros kv [->|Hin]%elem_of_insert; [done|].
  by eapply Forall_forall in Hm.
Qed.

(** Normalising a value twice is normalising it once. *)
Lemma normalize_twice v :
  normalize_keys_to_snake_case (normalize_keys_to_snake_case v) = normalize_keys_to_snake_case v.
Proof.
  induction v as [| | | |l IH|l IH] using json_nested_ind; try done.
  - simpl. f_equal. induction IH as [|x l Hx _ IHl]; simpl; [done|]. by rewrite Hx, IHl.
  - simpl. f_equal. set (l' := map _ l). set (norm := λ kv : string * json, (new_key (fst kv),
      if String.eqb (fst kv) "_meta" then snd kv else normalize_keys_to_snake_case (snd kv))).
    destruct (collect_spec (λ kv, norm kv = kv) l') as [Hnd Hfix].
    { subst l'. induction IH as [|[k x] l Hx _ IHl]; simpl; [constructor|]. constructor; [|done].
      unfold norm. simpl. rewrite new_key_twice. f_equal. destruct (String.eqb k "_meta") eqn:Hk.
      - unfold new_key. by rewrite Hk, Hk.
      - destruct (String.eqb (new_key k) "_meta"); [done|exact Hx]. }
    assert (Hmap : map norm (collect l') = collect l').
    { clear - Hfix. revert Hfix. generalize (collect l') as m. intros m Hm.
      induction Hm as [|kv m Hkv _ IHm]; simpl; [done|]. by rewrite Hkv, IHm. }
    rewrite Hmap. by apply collect_distinct.
Qed.

Example session_v2 : camel_to_snake "sessionV2" = "session_v2". Proof. reflexivity. Qed.
Example mcp_server : camel_to_snake "MCPServer" = "mcp_server". Proof. reflexivity. Qed.
