(* ===== verification/Common.v ===== *)
(** * Common: the types every crate shares

    [chisl-common]: the enums that are stored and sent by their [serde] name ([enums.rs]),
    identifiers ([id.rs]), records of [types.rs], team capability ([constants.rs]) and the
    encryption of secrets ([crypto.rs]; AES-GCM and base64 are the class [Aead]). *)

From S2P Require Import Prelude.
From S2P Require Import Text.
From S2P Require Import JsonValue.
From S2P Require Import TeamTypes.

(* ------------------------------------------------------------------ *)
(** ** Enums by name *)

(** An enum that [serde] writes as a string: its variants have distinct names. *)
Class SerdeEnum (A : Type) := {
  variants : list A;
  serde_name : A → string;
  variants_all : ∀ a, a ∈ variants;
  names_distinct : NoDup (map serde_name variants);
}.
Definition of_name {A} `{SerdeEnum A} (s : string) : option A := List.find (λ a, String.eqb (serde_name a) s) variants.

Section serde_enum.
Context {A : Type} `{SerdeEnum A}.
Lemma serde_name_inj (a b : A) : serde_name a = serde_name b → a = b.
Proof.
  intros Hab. pose proof (variants_all a) as Ha. pose proof (variants_all b) as Hb. pose proof names_distinct as Hnd.
  induction (variants (A:=A)) as [|x l IH]; [by apply elem_of_nil in Ha|]. simpl in Hnd. apply NoDup_cons in Hnd as [Hx Hnd].
  apply elem_of_cons in Ha as [->|Ha], Hb as [->|Hb]; [done|..|by apply IH]; destruct Hx; apply elem_of_map; eauto.
Qed.
Lemma of_name_Some s (a : A) : of_name s = Some a ↔ serde_name a = s.
Proof.
  unfold of_name. split.
  - intros [_ Hs]%find_Some_elem. by apply String.eqb_eq.
  - intros <-. destruct (List.find _ variants) as [b|] eqn:Hf.
    + apply find_Some_elem in Hf as [_ Hb%String.eqb_eq]. f_equal. by apply serde_name_inj.
    + rewrite find_None_elem in Hf. specialize (Hf a (variants_all a)). by rewrite String.eqb_refl in Hf.
Qed.
Lemma of_name_serde_name (a : A) : of_name (serde_name a) = Some a.
Proof. by apply of_name_Some. Qed.
End serde_enum.
#[export] Instance serde_enum_eq_dec {A} `{SerdeEnum A} : EqDecision A | 100.
Proof.
  intros a b. destruct (decide (serde_name a = serde_name b)) as [He|Hn]; [left; by apply serde_name_inj|right; by intros ->].
Defined.

(** Lists of distinct names by evaluation; every variant is in the list. *)
Ltac serde_enum_laws := first
  [ let a := fresh in intros a; destruct a; repeat (first [left; reflexivity|right])
  | apply (bool_decide_unpack _); vm_compute; exact I ].

Module AgentType.
(* chisl-common/src/enums.rs:8-22 AgentType *)
Inductive t := Acp | OpenclawGateway | Nanobot | Remote | Aionrs | Gemini.
(* chisl-common/src/enums.rs:36-45 AgentType::serde_name *)
Definition name (a : t) : string :=
  match a with
  | Acp => "acp" | OpenclawGateway => "openclaw-gateway" | Nanobot => "nanobot" | Remote => "remote"
  | Aionrs => "aionrs" | Gemini => "gemini"
  end.
#[global] Instance serde : SerdeEnum t.
Proof. refine {| variants := [Acp; OpenclawGateway; Nanobot; Remote; Aionrs; Gemini]; serde_name := name |}; serde_enum_laws. Defined.
(* chisl-common/src/enums.rs:25-34 AgentType::display_name *)
Definition display_name (a : t) : string :=
  match a with
  | Acp => "ACP" | OpenclawGateway => "OpenClaw Gateway" | Nanobot => "Nanobot" | Remote => "Remote"
  | Aionrs => "Aion CLI" | Gemini => "Gemini (legacy)"
  end.
(* chisl-common/src/enums.rs:65-74 AgentType::native_skills_dirs *)
Definition native_skills_dirs (a : t) : option (list string) :=
  match a with Aionrs => Some [".aionrs/skills"] | _ => None end.
(* chisl-common/src/enums.rs:86-102 AgentType::full_auto_mode_id *)
Definition full_auto_mode_id (a : t) (backend : option string) : string :=
  match a with
  | Acp =>
      match backend with
      | Some b =>
          if String.eqb b "claude" || String.eqb b "codebuddy" then "bypassPermissions"
          else if String.eqb b "codex" then "full-access"
          else if String.eqb b "opencode" then "build"
          else if String.eqb b "cursor" then "agent" else "yolo"
      | None => "yolo"
      end
  | _ => "yolo"
  end.
End AgentType.

#[export] Instance conversation_status_serde : SerdeEnum ConversationStatus.t.
Proof.
  refine {| variants := [ConversationStatus.Pending; ConversationStatus.Running; ConversationStatus.Finished];
            serde_name := λ s, match s with ConversationStatus.Pending => "pending" | ConversationStatus.Running => "running"
                                          | ConversationStatus.Finished => "finished" end |}; serde_enum_laws.
Defined.
Module ConversationSource.
(* chisl-common/src/enums.rs:117-120 ConversationSource *)
Inductive t := Aionui | Telegram.
#[global] Instance serde : SerdeEnum t.
Proof. refine {| variants := [Aionui; Telegram]; serde_name := λ s, match s with Aionui => "aionui" | Telegram => "telegram" end |}; serde_enum_laws. Defined.
End ConversationSource.
Module MessageType.
(* chisl-common/src/enums.rs:125-138 MessageType *)
Inductive t :=
| Text | Tips | ToolCall | ToolGroup | AgentStatus | Permission | AcpToolCall | Plan | Thinking | AvailableCommands
| SkillSuggest | CronTrigger.
#[global] Instance serde : SerdeEnum t.
Proof.
  refine {| variants := [Text; Tips; ToolCall; ToolGroup; AgentStatus; Permission; AcpToolCall; Plan; Thinking; AvailableCommands;
                         SkillSuggest; CronTrigger];
            serde_name := λ m, match m with
              | Text => "text" | Tips => "tips" | ToolCall => "tool_call" | ToolGroup => "tool_group" | AgentStatus => "agent_status"
              | Permission => "permission" | AcpToolCall => "acp_tool_call" | Plan => "plan" | Thinking => "thinking"
              | AvailableCommands => "available_commands" | SkillSuggest => "skill_suggest" | CronTrigger => "cron_trigger" end |};
    serde_enum_laws.
Defined.
End MessageType.
Module MessagePosition.
(* chisl-common/src/enums.rs:143-148 MessagePosition *)
Inductive t := Right | Left | Center | Pop.
#[global] Instance serde : SerdeEnum t.
Proof.
  refine {| variants := [Right; Left; Center; Pop];
            serde_name := λ p, match p with Right => "right" | Left => "left" | Center => "center" | Pop => "pop" end |}; serde_enum_laws.
Defined.
End MessagePosition.
Module MessageStatus.
(* chisl-common/src/enums.rs:153-158 MessageStatus *)
Inductive t := Finish | Pending | Error | Work.
#[global] Instance serde : SerdeEnum t.
Proof.
  refine {| variants := [Finish; Pending; Error; Work];
            serde_name := λ s, match s with Finish => "finish" | Pending => "pending" | Error => "error" | Work => "work" end |}; serde_enum_laws.
Defined.
End MessageStatus.
Module ProtocolType.
(* chisl-common/src/enums.rs:163-169 ProtocolType *)
Inductive t := OpenAI | Anthropic | Gemini | Unknown.
#[global] Instance serde : SerdeEnum t.
Proof.
  refine {| variants := [OpenAI; Anthropic; Gemini; Unknown];
            serde_name := λ s, match s with OpenAI => "openai" | Anthropic => "anthropic" | Gemini => "gemini" | Unknown => "unknown" end |}; serde_enum_laws.
Defined.
End ProtocolType.
Module RemoteAgentProtocol.
(* chisl-common/src/enums.rs:174-180 RemoteAgentProtocol *)
Inductive t := OpenClaw | OpenCode | ZeroClaw | Acp.
#[global] Instance serde : SerdeEnum t.
Proof.
  refine {| variants := [OpenClaw; OpenCode; ZeroClaw; Acp];
            serde_name := λ s, match s with OpenClaw => "openclaw" | OpenCode => "opencode" | ZeroClaw => "zeroclaw" | Acp => "acp" end |}; serde_enum_laws.
Defined.
End RemoteAgentProtocol.
Module RemoteAgentAuthType.
(* chisl-common/src/enums.rs:185-190 RemoteAgentAuthType *)
Inductive t := Bearer | Basic | Password | NoAuth.
#[global] Instance serde : SerdeEnum t.
Proof.
  refine {| variants := [Bearer; Basic; Password; NoAuth];
            serde_name := λ s, match s with Bearer => "bearer" | Basic => "basic" | Password => "password" | NoAuth => "none" end |}; serde_enum_laws.
Defined.
End RemoteAgentAuthType.
Module RemoteAgentStatus.
(* chisl-common/src/enums.rs:195-205 RemoteAgentStatus *)
Inductive t := Unknown | Connected | Pending | Reconnecting | Error.
#[global] Instance serde : SerdeEnum t.
Proof.
  refine {| variants := [Unknown; Connected; Pending; Reconnecting; Error];
            serde_name := λ s, match s with Unknown => "unknown" | Connected => "connected" | Pending => "pending"
                                          | Reconnecting => "reconnecting" | Error => "error" end |}; serde_enum_laws.
Defined.
End RemoteAgentStatus.
Module AgentKillReason.
(* chisl-common/src/enums.rs:210-223 AgentKillReason *)
Inductive t := IdleTimeout | TeamMcpRebuild | TeamDeleted | ConversationDeleted.
#[global] Instance serde : SerdeEnum t.
Proof.
  refine {| variants := [IdleTimeout; TeamMcpRebuild; TeamDeleted; ConversationDeleted];
            serde_name := λ s, match s with IdleTimeout => "idle_timeout" | TeamMcpRebuild => "team_mcp_rebuild"
                                          | TeamDeleted => "team_deleted" | ConversationDeleted => "conversation_deleted" end |}; serde_enum_laws.
Defined.
End AgentKillReason.
Module PreviewContentType.
(* chisl-common/src/enums.rs:228-239 PreviewContentType *)
Inductive t := Markdown | Diff | Code | Html | Pdf | Ppt | Word | Excel | Image | Url.
#[global] Instance serde : SerdeEnum t.
Proof.
  refine {| variants := [Markdown; Diff; Code; Html; Pdf; Ppt; Word; Excel; Image; Url];
            serde_name := λ s, match s with Markdown => "markdown" | Diff => "diff" | Code => "code" | Html => "html" | Pdf => "pdf"
                                          | Ppt => "ppt" | Word => "word" | Excel => "excel" | Image => "image" | Url => "url" end |}; serde_enum_laws.
Defined.
End PreviewContentType.
Module FileChangeOperation.
(* chisl-common/src/enums.rs:244-248 FileChangeOperation *)
Inductive t := Create | Modify | Delete.
#[global] Instance serde : SerdeEnum t.
Proof.
  refine {| variants := [Create; Modify; Delete];
            serde_name := λ s, match s with Create => "create" | Modify => "modify" | Delete => "delete" end |}; serde_enum_laws.
Defined.
End FileChangeOperation.
Module McpSource.
(* chisl-common/src/enums.rs:253-265 McpSource *)
Inductive t := Claude | Gemini | Qwen | Codex | CodeBuddy | OpenCode | Aionrs | Nanobot | Aionui.
#[global] Instance serde : SerdeEnum t.
Proof.
  refine {| variants := [Claude; Gemini; Qwen; Codex; CodeBuddy; OpenCode; Aionrs; Nanobot; Aionui];
            serde_name := λ s, match s with Claude => "claude" | Gemini => "gemini" | Qwen => "qwen" | Codex => "codex"
              | CodeBuddy => "codebuddy" | OpenCode => "opencode" | Aionrs => "aionrs" | Nanobot => "nanobot" | Aionui => "aionui" end |}; serde_enum_laws.
Defined.
End McpSource.
Module McpServerStatus.
(* chisl-common/src/enums.rs:270-275 McpServerStatus *)
Inductive t := Connected | Disconnected | Error | Testing.
#[global] Instance serde : SerdeEnum t.
Proof.
  refine {| variants := [Connected; Disconnected; Error; Testing];
            serde_name := λ s, match s with Connected => "connected" | Disconnected => "disconnected" | Error => "error" | Testing => "testing" end |}; serde_enum_laws.
Defined.
End McpServerStatus.

(* ------------------------------------------------------------------ *)
(** ** Identifiers *)

(** [u32] arithmetic. *)
(* chisl-common/src/id.rs:4-26 fnv1a_hex8 *)
Definition fnv1a_hex8 (input : list Z) : string :=
  let hash := foldl (λ h b, w32 (Z.lxor h b * 16777619)) 2166136261 input in
  hex_bytes (map (λ j, Z.land (Z.shiftr hash (24 - j * 8)) 255) [0; 1; 2; 3]).
(* chisl-common/src/enums.rs:47-51 AgentType::id *)
Definition agent_type_id (a : AgentType.t) : string := fnv1a_hex8 (bytes (AgentType.name a)).

(** The bytes of the random source and the UUID v7 it may take instead. *)
Record Entropy := mk_entropy { random : nat → list Z; uuid_v7 : string }.
(* chisl-common/src/id.rs:32-43 generate_id_with_length *)
Definition generate_id_with_length (e : Entropy) (length : option nat) : string :=
  match length with
  | Some len => if (len <? 36)%nat then of_bytes (take len (bytes (hex_bytes (random e ((len + 1) / 2)%nat)))) else uuid_v7 e
  | None => uuid_v7 e
  end.
(* chisl-common/src/id.rs:46-48 generate_id *)
Definition generate_id (e : Entropy) : string := generate_id_with_length e None.
(* chisl-common/src/id.rs:51-53 generate_short_id *)
Definition generate_short_id (e : Entropy) : string := generate_id_with_length e (Some 8%nat).
(* chisl-common/src/id.rs:56-58 generate_prefixed_id *)
Definition generate_prefixed_id (e : Entropy) (prefix : string) : string := prefix +:+ "_" +:+ uuid_v7 e.

(** The ids of the agent types are distinct. *)
Lemma agent_type_ids_distinct a b : agent_type_id a = agent_type_id b → a = b.
Proof. by destruct a, b; intros Hab; vm_compute in Hab. Qed.

(* ------------------------------------------------------------------ *)
(** ** Records *)

(* chisl-common/src/types.rs:12-15 EnvVar *)
Record EnvVar := mk_env_var { env_name : string; env_value : string }.
(* chisl-common/src/types.rs:22-27 CommandSpec *)
Record CommandSpec := mk_command_spec { command : string; args : list string; env : list EnvVar; cwd : option string }.
Module ProviderWithModel.
(* chisl-common/src/types.rs:44-48 ProviderWithModel *)
Record t := mk { provider_id : string; model : string; use_model : option string }.
End ProviderWithModel.
(* chisl-common/src/types.rs:75-79 ConfirmationOption *)
Record ConfirmationOption := mk_option { label : string; value : json; params : option (list (string * string)) }.
Module Confirmation.
(* chisl-common/src/types.rs:52-71 Confirmation *)
Record t := mk {
  id : string; call_id : string; title : option string; action : option string; description : string;
  command_type : option string; options : list ConfirmationOption; session_id : option string; parent_session_id : option string }.
End Confirmation.

(** The [derive]d [Serialize]. *)
Definition opt_str (o : option string) : json := match o with Some s => Str s | None => Null end.
Definition provider_json (m : ProviderWithModel.t) : json :=
  Obj [("provider_id", Str (ProviderWithModel.provider_id m)); ("model", Str (ProviderWithModel.model m));
       ("use_model", opt_str (ProviderWithModel.use_model m))].
(** The [derive]d [Deserialize]: a missing optional field is [None]; an array lists the
    fields. *)
Definition provider_of_json (v : json) : option ProviderWithModel.t :=
  match v with
  | Arr [Str p; Str m; Null] => Some (ProviderWithModel.mk p m None)
  | Arr [Str p; Str m; Str u] => Some (ProviderWithModel.mk p m (Some u))
  | _ =>
  match JsonValue.get "provider_id" v, JsonValue.get "model" v with
  | Some (Str p), Some (Str m) =>
      match JsonValue.get "use_model" v with
      | None | Some Null => Some (ProviderWithModel.mk p m None)
      | Some (Str u) => Some (ProviderWithModel.mk p m (Some u))
      | Some _ => None
      end
  | _, _ => None
  end
  end.
Lemma provider_json_roundtrip m : provider_of_json (provider_json m) = Some m.
Proof. by destruct m as [p m [u|]]. Qed.

(* chisl-common/src/constants.rs:36-36 TEAM_CAPABLE_BACKENDS *)
Definition TEAM_CAPABLE_BACKENDS : list string := ["claude"; "codex"; "gemini"; "aionrs"; "codebuddy"].
(* chisl-common/src/constants.rs:53-61 has_mcp_capability *)
Definition has_mcp_capability (agent_capabilities : option json) : bool :=
  match agent_capabilities with
  | None => false
  | Some caps => existsb (λ k, match JsonValue.get k caps with Some _ => true | None => false end)
                   ["mcp_capabilities"; "mcpCapabilities"; "mcp"]
  end.
(* chisl-common/src/constants.rs:44-49 is_team_capable *)
Definition is_team_capable (backend : string) (agent_capabilities : option json) : bool :=
  if existsb (String.eqb backend) TEAM_CAPABLE_BACKENDS then true else has_mcp_capability agent_capabilities.

(* ------------------------------------------------------------------ *)
(** ** Encryption of secrets *)

(** AES-256-GCM with a key of 32 bytes and a nonce of 12, and base64. *)
Class Aead := {
  seal : list Z → list Z → list Z → result (list Z) string;
  open : list Z → list Z → list Z → option (list Z);
  base64 : list Z → string;
  unbase64 : string → result (list Z) string;
  utf8_error : list Z → string;
  open_seal : ∀ key nonce plain cipher, seal key nonce plain = Ok cipher → open key nonce cipher = Some plain;
  unbase64_base64 : ∀ l, Forall (λ b, 0 ≤ b < 256) l → unbase64 (base64 l) = Ok l;
  seal_bytes : ∀ key nonce plain cipher, seal key nonce plain = Ok cipher → Forall (λ b, 0 ≤ b < 256) cipher;
}.

Section crypto.
Context `{Aead}.
(* chisl-common/src/crypto.rs:8-8 NONCE_SIZE *)
Definition NONCE_SIZE : nat := 12.
(* chisl-common/src/crypto.rs:9-9 KEY_SIZE *)
Definition KEY_SIZE : nat := 32.
(* chisl-common/src/crypto.rs:62-70 validate_key_size *)
Definition validate_key_size (key : list Z) : result unit AppError.t :=
  if negb (length key =? KEY_SIZE)%nat
  then Err (AppError.BadRequest ("AES-256 key must be exactly 32 bytes, got " +:+ show_usize (N.of_nat (length key))))
  else Ok tt.
(** [nonce]: what the random source gives. *)
(* chisl-common/src/crypto.rs:14-33 encrypt_string *)
Definition encrypt_string (nonce : list Z) (plaintext : string) (key : list Z) : result string AppError.t :=
  let? _ := validate_key_size key in
  let? ciphertext := res_map_err (λ e, AppError.Internal ("Encryption failed: " +:+ e)) (seal key nonce (bytes plaintext)) in
  Ok (base64 (nonce ++ ciphertext)).
(** The bytes of a Rust string are the UTF-8 of its characters. *)
Definition from_utf8 (l : list Z) : option string :=
  let s := of_bytes l in if forallb is_scalar (chars s) && String.eqb (from_chars (chars s)) s then Some s else None.
(* chisl-common/src/crypto.rs:38-60 decrypt_string *)
Definition decrypt_string (ciphertext : string) (key : list Z) : result string AppError.t :=
  let? _ := validate_key_size key in
  let? combined := res_map_err (λ e, AppError.BadRequest ("Invalid base64: " +:+ e)) (unbase64 ciphertext) in
  if (length combined <? NONCE_SIZE)%nat then Err (AppError.BadRequest "Ciphertext too short") else
  match open key (take NONCE_SIZE combined) (drop NONCE_SIZE combined) with
  | None => Err (AppError.BadRequest "Decryption failed: invalid key or corrupted data")
  | Some plain => match from_utf8 plain with
                  | Some s => Ok s
                  | None => Err (AppError.Internal ("Invalid UTF-8 in decrypted data: " +:+ utf8_error plain))
                  end
  end.

(** What was encrypted decrypts under the same key. *)
Lemma decrypt_encrypt nonce plaintext key c :
  length nonce = NONCE_SIZE → Forall (λ b, 0 ≤ b < 256) nonce → from_utf8 (bytes plaintext) = Some plaintext →
  encrypt_string nonce plaintext key = Ok c → decrypt_string c key = Ok plaintext.
Proof.
  intros Hn Hb Hutf. unfold encrypt_string, decrypt_string. destruct (validate_key_size key); [|done]. cbn [res_bind].
  destruct (seal key nonce (bytes plaintext)) as [cipher|] eqn:Hs; [|done]. cbn [res_map_err res_bind]. intros [= <-].
  rewrite unbase64_base64 by (apply Forall_app; split; [done|by eapply seal_bytes]). cbn [res_map_err res_bind].
  rewrite length_app, Hn. destruct (Nat.ltb_spec (NONCE_SIZE + length cipher) NONCE_SIZE); [lia|].
  rewrite <- Hn, take_app_length, drop_app_length, (open_seal _ _ _ _ Hs). by rewrite Hutf.
Qed.
End crypto.
