(* ===== verification/Paths.v ===== *)
(** * Paths: [std::path] on Unix

    A [Path] is what its [components] iterator gives, which is also what equality and
    [starts_with] of paths look at: repeated slashes and inner dots do not matter.  A
    canonical path is the list of its names ([abs]). *)

From S2P Require Import Prelude.
From S2P Require Import Text.

Definition slash : Ascii.ascii := Ascii.ascii_of_nat 47.
Inductive component := RootDir | CurDir | ParentDir | Normal (name : string).
#[export] Instance component_eq_dec : EqDecision component.
Proof. solve_decision. Defined.
Definition path := list component.

(** The text between slashes; [cur] is the segment being read. *)
Fixpoint segments_from (cur s : string) : list string :=
  match s with
  | EmptyString => [cur]
  | String a s' => if Ascii.eqb a slash then cur :: segments_from EmptyString s' else segments_from (cur +:+ String a EmptyString) s'
  end.
Definition segments (s : string) : list string := segments_from EmptyString s.
Definition segment (s : string) : option component :=
  if String.eqb s EmptyString || String.eqb s "." then None
  else if String.eqb s ".." then Some ParentDir else Some (Normal s).
(** [Path::new(s).components()]. *)
Definition components (s : string) : path :=
  match s with
  | EmptyString => []
  | String a s' =>
      if Ascii.eqb a slash then RootDir :: omap segment (segments s')
      else match segments s with
           | x :: rest => if String.eqb x "." then CurDir :: omap segment rest else omap segment (x :: rest)
           | [] => []
           end
  end.

Definition is_absolute (p : path) : bool := match p with RootDir :: _ => true | _ => false end.
Definition is_prefix {A} `{EqDecision A} (r p : list A) : bool := bool_decide (r `prefix_of` p).
Definition path_starts_with (p base : path) : bool := is_prefix base p.
Fixpoint strip {A} `{EqDecision A} (base p : list A) : option (list A) :=
  match base, p with
  | [], _ => Some p
  | b :: base, x :: p => if decide (b = x) then strip base p else None
  | _, [] => None
  end.
(** [Path::strip_prefix]. *)
Definition strip_path (p base : path) : option path := strip base p.
(** [Path::parent] and [Path::file_name]. *)
Definition path_parent (p : path) : option path :=
  match last p with None | Some RootDir => None | Some _ => Some (removelast p) end.
Definition file_name (p : path) : option string := match last p with Some (Normal n) => Some n | _ => None end.
(** [Path::join]: an absolute path replaces. *)
Definition join (p q : path) : path :=
  if is_absolute q then q else match p with [] => q | _ => p ++ List.filter (λ c, negb (bool_decide (c = CurDir))) q end.

Definition abs (l : list string) : path := RootDir :: map Normal l.
Definition render_component (c : component) : string :=
  match c with RootDir => EmptyString | CurDir => "." | ParentDir => ".." | Normal n => n end.
Definition render (p : path) : string :=
  match p with [RootDir] => "/" | _ => str_join "/" (map render_component p) end.

Lemma strip_Some {A} `{EqDecision A} (base p l : list A) : strip base p = Some l ↔ p = base ++ l.
Proof.
  revert p. induction base as [|b base IH]; intros p; simpl; [naive_solver|].
  destruct p as [|x p]; [naive_solver|]. case_decide as Hb; [|naive_solver]. subst x. rewrite IH. naive_solver.
Qed.
Lemma join_abs l n : join (abs l) [Normal n] = abs (l ++ [n]).
Proof. unfold join, abs. simpl. by rewrite map_app. Qed.
Lemma parent_abs l n : path_parent (abs (l ++ [n])) = Some (abs l).
Proof.
  unfold path_parent, abs. rewrite map_app, (app_comm_cons (map Normal l) [Normal n]). cbn [map]. rewrite last_snoc.
  by rewrite removelast_last.
Qed.
Lemma parent_root : path_parent (abs []) = None.
Proof. done. Qed.
Lemma file_name_abs l n : file_name (abs (l ++ [n])) = Some n.
Proof. unfold file_name, abs. rewrite map_app, (app_comm_cons (map Normal l) (map Normal [n])). cbn [map]. by rewrite last_snoc. Qed.
Lemma starts_with_abs l r : path_starts_with (abs l) (abs r) = is_prefix r l.
Proof.
  unfold path_starts_with, is_prefix, abs. apply bool_decide_ext. split.
  - intros [k Hk]. injection Hk as Hk. revert l Hk. induction r as [|x r IH]; intros l Hk; [by exists l|].
    destruct l as [|y l]; [done|]. injection Hk as -> Hk. destruct (IH l Hk) as [k' ->]. by exists k'.
  - intros [k ->]. exists (map Normal k). by rewrite map_app.
Qed.
Lemma strip_abs l r : strip_path (abs (r ++ l)) (abs r) = Some (map Normal l).
Proof. apply strip_Some. unfold abs. by rewrite map_app. Qed.

Example components_normalise : components "/a//b/./c/" = abs ["a"; "b"; "c"] ∧ components "./x/../y" = [CurDir; Normal "x"; ParentDir; Normal "y"].
Proof. done. Qed.
