(* ===== verification/FileSystem.v ===== *)
(** * FileSystem: [std::fs] on a tree with symbolic links

    The calls of [std::fs] the file service makes, as POSIX defines them: files,
    directories and symbolic links under their canonical names, resolution that follows at
    most forty links, creation through a dangling link, removal and renaming that do not
    follow the last one.  Permissions, hard links and concurrent processes are left out. *)

From S2P Require Import Prelude.
From S2P Require Import Text.
From S2P Require Import Paths.

Inductive node := File (content : string) | Dir | Link (target : path).
#[export] Instance node_eq_dec : EqDecision node.
Proof. solve_decision. Defined.
Abbreviation loc := (list string).
Abbreviation fs := (gmap (list string) node).

(** The root is a directory, and so is whatever has entries. *)
Definition fs_ok (f : fs) : Prop :=
  f !! [] = Some Dir ∧ ∀ p n, is_Some (f !! (p ++ [n])) → f !! p = Some Dir.

Inductive io_error := ENOENT | ENOTDIR | EEXIST | EISDIR | ELOOP | ENOTEMPTY | EINVAL.
Definition show_io_error (e : io_error) : string :=
  match e with
  | ENOENT => "No such file or directory (os error 2)" | EEXIST => "File exists (os error 17)"
  | ENOTDIR => "Not a directory (os error 20)" | EISDIR => "Is a directory (os error 21)"
  | EINVAL => "Invalid argument (os error 22)" | ENOTEMPTY => "Directory not empty (os error 39)"
  | ELOOP => "Too many levels of symbolic links (os error 40)"
  end.

Section walk.
Context (f : fs).
(** The walk from a directory along components.  With [missing] the last name need not
    exist.  [links] counts the links that may still be followed. *)
Fixpoint walk (missing : bool) (links : nat) : loc → path → result loc io_error :=
  fix go (cur : loc) (todo : path) : result loc io_error :=
    match todo with
    | [] => Ok cur
    | RootDir :: todo => go [] todo
    | CurDir :: todo => go cur todo
    | ParentDir :: todo => go (removelast cur) todo
    | Normal n :: todo =>
        match f !! (cur ++ [n]) with
        | None => if missing && bool_decide (todo = []) then Ok (cur ++ [n]) else Err ENOENT
        | Some (File _) => if bool_decide (todo = []) then Ok (cur ++ [n]) else Err ENOTDIR
        | Some Dir => go (cur ++ [n]) todo
        | Some (Link t) =>
            match links with
            | O => Err ELOOP
            | S links => walk missing links (if is_absolute t then [] else cur) (t ++ todo)
            end
        end
    end.
End walk.
Definition MAX_LINKS : nat := 40.

Section calls.
(** The current directory of the process. *)
Context (cwd : loc).
Definition from (p : path) : loc := if is_absolute p then [] else cwd.

(** [fs::canonicalize]. *)
Definition canonicalize (f : fs) (p : path) : result loc io_error :=
  match p with [] => Err ENOENT | _ => walk f false MAX_LINKS (from p) p end.
(** [fs::metadata]: what the path leads to. *)
Definition metadata (f : fs) (p : path) : result node io_error :=
  let? l := canonicalize f p in match f !! l with Some x => Ok x | None => Err ENOENT end.
Definition is_dir (f : fs) (p : path) : bool := match metadata f p with Ok Dir => true | _ => false end.
Definition is_file (f : fs) (p : path) : bool := match metadata f p with Ok (File _) => true | _ => false end.
Definition exists_ (f : fs) (p : path) : bool := match metadata f p with Ok _ => true | Err _ => false end.
(** [fs::read]. *)
Definition read (f : fs) (p : path) : result string io_error :=
  let? x := metadata f p in match x with File c => Ok c | _ => Err EISDIR end.

(** Where a file opened for writing is, or will be. *)
Definition target (f : fs) (p : path) : result loc io_error :=
  match p with [] => Err ENOENT | _ => walk f true MAX_LINKS (from p) p end.
(** [fs::write], [File::create] with some content: the file is created or truncated. *)
Definition write (p : path) (c : string) (f : fs) : fs * result unit io_error :=
  match target f p with
  | Err e => (f, Err e)
  | Ok l => match f !! l with
            | Some Dir => (f, Err EISDIR)
            | _ => (<[l := File c]> f, Ok tt)
            end
  end.
(** [OpenOptions::create_new]: the last name must not exist, not even as a link. *)
Definition entry (f : fs) (p : path) : result loc io_error :=
  match path_parent p, file_name p with
  | Some d, Some n => let? l := canonicalize f (match d with [] => [CurDir] | _ => d end) in
                      match f !! l with Some Dir => Ok (l ++ [n]) | _ => Err ENOTDIR end
  | _, _ => Err EEXIST
  end.
Definition create_new (p : path) (c : string) (f : fs) : fs * result unit io_error :=
  match entry f p with
  | Err e => (f, Err e)
  | Ok l => match f !! l with Some _ => (f, Err EEXIST) | None => (<[l := File c]> f, Ok tt) end
  end.
(** [fs::remove_file] and [fs::remove_dir_all]: a link is removed itself. *)
Definition below (l : loc) (q : loc) : bool := is_prefix l q.
Definition remove_file (p : path) (f : fs) : fs * result unit io_error :=
  match entry f p with
  | Err e => (f, Err e)
  | Ok l => match f !! l with
            | None => (f, Err ENOENT) | Some Dir => (f, Err EISDIR) | Some _ => (delete l f, Ok tt)
            end
  end.
Definition remove_dir_all (p : path) (f : fs) : fs * result unit io_error :=
  match entry f p with
  | Err e => (f, Err e)
  | Ok l => match f !! l with
            | None => (f, Err ENOENT)
            | Some Dir => (filter (λ kv, below l (kv.1) = false) f, Ok tt)
            | Some _ => (f, Err ENOTDIR)
            end
  end.
(** [fs::rename]: the subtree moves; a file or link at the new name is replaced. *)
Definition move (l l' : loc) (f : fs) : fs :=
  list_to_map (omap (λ kv, (λ t, (l' ++ t, kv.2)) <$> strip l kv.1) (map_to_list f)) ∪
  filter (λ kv, below l (kv.1) = false ∧ kv.1 ≠ l') f.
Definition rename (p p' : path) (f : fs) : fs * result unit io_error :=
  match entry f p, entry f p' with
  | Ok l, Ok l' =>
      match f !! l, f !! l' with
      | None, _ => (f, Err ENOENT)
      | Some x, y =>
          if below l l' then (f, if bool_decide (l = l') then Ok tt else Err EINVAL)
          else match x, y with
               | Dir, Some Dir => if bool_decide (filter (λ kv, below l' (kv.1) = true ∧ kv.1 ≠ l') f = ∅)
                                  then (move l l' f, Ok tt) else (f, Err ENOTEMPTY)
               | Dir, Some _ => (f, Err ENOTDIR)
               | _, Some Dir => (f, Err EISDIR)
               | _, _ => (move l l' f, Ok tt)
               end
      end
  | Err e, _ | _, Err e => (f, Err e)
  end.
(** [fs::copy]: the destination is opened and truncated before the source is read. *)
Definition copy (p p' : path) (f : fs) : fs * result unit io_error :=
  match metadata f p with
  | Err e => (f, Err e)
  | Ok (File _) =>
      match write p' EmptyString f with
      | (f1, Err e) => (f1, Err e)
      | (f1, Ok _) => match read f1 p with Ok c => write p' c f1 | Err e => (f1, Err e) end
      end
  | Ok _ => (f, Err EINVAL)
  end.
(** [fs::create_dir_all]: the missing directories along the path. *)
Fixpoint create_dirs (done todo : path) (f : fs) : fs * result unit io_error :=
  match todo with
  | [] => (f, Ok tt)
  | c :: todo =>
      let p := done ++ [c] in
      match metadata f p with
      | Ok Dir => create_dirs p todo f
      | Ok _ => (f, Err (if bool_decide (todo = []) then EEXIST else ENOTDIR))
      | Err ENOENT => match entry f p with
                      | Ok l => match f !! l with
                                | None => create_dirs p todo (<[l := Dir]> f)
                                | Some _ => (f, Err EEXIST)
                                end
                      | Err e => (f, Err e)
                      end
      | Err e => (f, Err e)
      end
  end.
Definition create_dir_all (p : path) (f : fs) : fs * result unit io_error := create_dirs [] p f.
End calls.

(* ------------------------------------------------------------------ *)
(** ** Where a walk ends *)

Lemma fs_ok_prefix f p q : fs_ok f → is_Some (f !! (p ++ q)) → q ≠ [] → f !! p = Some Dir.
Proof.
  intros [_ Hup]. induction q as [|n q IH] using rev_ind; [done|]. rewrite app_assoc. intros Hs _.
  specialize (Hup _ _ Hs). destruct (decide (q = [])) as [->|Hq]; [by rewrite app_nil_r in Hup|]. apply IH; [|done]. by rewrite Hup.
Qed.
Lemma fs_ok_removelast f p : fs_ok f → f !! p = Some Dir → f !! removelast p = Some Dir.
Proof.
  intros Hok Hp. destruct p as [|n p _] using rev_ind; [done|]. rewrite removelast_last.
  apply (fs_ok_prefix f p [n] Hok); [|done]. by rewrite Hp.
Qed.

(** A directory or a file, under the name it has without links. *)
Definition solid (f : fs) (l : loc) : Prop := ∃ x, f !! l = Some x ∧ ∀ t, x ≠ Link t.

(** Unfolding the walk by one name. *)
Lemma walk_nil f m k cur : walk f m k cur [] = Ok cur.
Proof. by destruct k. Qed.
Lemma walk_root f m k cur p : walk f m k cur (RootDir :: p) = walk f m k [] p.
Proof. by destruct k. Qed.
Lemma walk_cur f m k cur p : walk f m k cur (CurDir :: p) = walk f m k cur p.
Proof. by destruct k. Qed.
Lemma walk_parent f m k cur p : walk f m k cur (ParentDir :: p) = walk f m k (removelast cur) p.
Proof. by destruct k. Qed.
Lemma walk_normal f m k cur n p : walk f m k cur (Normal n :: p) =
  match f !! (cur ++ [n]) with
  | None => if m && bool_decide (p = []) then Ok (cur ++ [n]) else Err ENOENT
  | Some (File _) => if bool_decide (p = []) then Ok (cur ++ [n]) else Err ENOTDIR
  | Some Dir => walk f m k (cur ++ [n]) p
  | Some (Link t) => match k with O => Err ELOOP | S k => walk f m k (if is_absolute t then [] else cur) (t ++ p) end
  end.
Proof. destruct k; simpl; by destruct (f !! (cur ++ [n])) as [[| |]|]. Qed.

Lemma walk_ends f m : fs_ok f → ∀ k cur p l, f !! cur = Some Dir → walk f m k cur p = Ok l →
  solid f l ∨ (m = true ∧ ∃ d n, l = d ++ [n] ∧ f !! d = Some Dir ∧ f !! l = None).
Proof.
  intros Hok. induction k as [k IHk] using lt_wf_ind. intros cur p. revert cur.
  induction p as [|c p IHp]; intros cur l Hcur; [rewrite walk_nil; intros [= <-]; left; by exists Dir|].
  destruct c as [| | |n].
  - rewrite walk_root. apply IHp. apply Hok.
  - rewrite walk_cur. by apply IHp.
  - rewrite walk_parent. apply IHp. by apply fs_ok_removelast.
  - rewrite walk_normal. destruct (f !! (cur ++ [n])) as [[x| |t]|] eqn:Hn.
    + case_bool_decide; [|done]. intros [= <-]. left. by exists (File x).
    + by apply IHp.
    + destruct k as [|k]; [done|]. apply IHk; [lia|]. destruct (is_absolute t); [apply Hok|done].
    + destruct m; [|done]. simpl. case_bool_decide; [|done]. intros [= <-]. right. split; [done|]. by exists cur, n.
Qed.

(** A solid place is found under its own name. *)
Lemma walk_down f m k : ∀ q p, fs_ok f → f !! p = Some Dir → solid f (p ++ q) → walk f m k p (map Normal q) = Ok (p ++ q).
Proof.
  induction q as [|n q IH]; intros p Hok Hp Hs; [by rewrite walk_nil, app_nil_r|]. cbn [map]. rewrite walk_normal.
  replace (p ++ n :: q) with ((p ++ [n]) ++ q) in * by (by rewrite <- app_assoc).
  destruct Hs as (x&Hx&Hl). destruct (decide (q = [])) as [->|Hq].
  - rewrite app_nil_r in Hx. rewrite Hx. destruct x as [c| |t]; simpl; [by rewrite app_nil_r|by rewrite walk_nil, app_nil_r|by destruct (Hl t)].
  - rewrite (fs_ok_prefix f (p ++ [n]) q Hok) by (rewrite ?Hx; done). apply IH; [done| |by exists x].
    apply (fs_ok_prefix f _ q Hok); [by rewrite Hx|done].
Qed.

Section calls_facts.
Context (cwd : loc).
Definition at_home (f : fs) : Prop := fs_ok f ∧ f !! cwd = Some Dir.

Lemma canonicalize_solid f p l : at_home f → canonicalize cwd f p = Ok l → solid f l.
Proof.
  intros [Hok Hcwd]. unfold canonicalize. destruct p as [|c p]; [done|]. intros Hw.
  assert (f !! from cwd (c :: p) = Some Dir) as Hfrom by (unfold from; destruct (is_absolute _); [apply Hok|exact Hcwd]).
  by destruct (walk_ends f false Hok _ _ _ _ Hfrom Hw) as [?|[? _]].
Qed.
Lemma canonicalize_abs f l : fs_ok f → solid f l → canonicalize cwd f (abs l) = Ok l.
Proof.
  intros Hok Hs. unfold canonicalize, abs. rewrite walk_root. apply (walk_down f false MAX_LINKS l []); [done|apply Hok|done].
Qed.
Lemma metadata_abs f l x : fs_ok f → f !! l = Some x → (∀ t, x ≠ Link t) → metadata cwd f (abs l) = Ok x.
Proof. intros Hok Hl Hx. unfold metadata. rewrite canonicalize_abs; [|done|by exists x]. cbn [res_bind]. by rewrite Hl. Qed.
Lemma read_abs f l c : fs_ok f → f !! l = Some (File c) → read cwd f (abs l) = Ok c.
Proof. intros Hok Hl. unfold read. by rewrite (metadata_abs f l (File c)). Qed.

(** The entry of a canonical directory. *)
Lemma entry_abs f d n : fs_ok f → f !! d = Some Dir → entry cwd f (abs (d ++ [n])) = Ok (d ++ [n]).
Proof.
  intros Hok Hd. unfold entry. rewrite parent_abs, file_name_abs. cbn [abs map].
  change (RootDir :: map Normal d) with (abs d). rewrite canonicalize_abs; [|done|by exists Dir]. cbn [res_bind]. by rewrite Hd.
Qed.
Lemma entry_root f : entry cwd f (abs []) = Err EEXIST.
Proof. done. Qed.
(** A name that is free or no link is written in its place. *)
Lemma walk_entry f k q n : fs_ok f → ∀ p, f !! (p ++ q) = Some Dir → (∀ t, f !! ((p ++ q) ++ [n]) ≠ Some (Link t)) →
  walk f true k p (map Normal (q ++ [n])) = Ok ((p ++ q) ++ [n]).
Proof.
  intros Hok. induction q as [|x q IH]; intros p Hd Hn.
  - rewrite app_nil_r in *. simpl map. rewrite walk_normal. destruct (f !! (p ++ [n])) as [[c| |t]|] eqn:Hl; simpl; [done|by rewrite walk_nil|by destruct (Hn t)|done].
  - simpl app in *. cbn [map]. rewrite walk_normal. replace (p ++ x :: q) with ((p ++ [x]) ++ q) in * by (by rewrite <- app_assoc).
    assert (f !! (p ++ [x]) = Some Dir) as ->.
    { destruct (decide (q = [])) as [->|Hq]; [by rewrite app_nil_r in Hd|]. apply (fs_ok_prefix f _ q Hok); [by rewrite Hd|done]. }
    by apply IH.
Qed.
Lemma target_abs f d n : fs_ok f → f !! d = Some Dir → (∀ t, f !! (d ++ [n]) ≠ Some (Link t)) → target cwd f (abs (d ++ [n])) = Ok (d ++ [n]).
Proof. intros Hok Hd Hn. unfold target, abs. rewrite walk_root. by apply (walk_entry f MAX_LINKS d n Hok []). Qed.

(* ------------------------------------------------------------------ *)
(** ** What the calls leave *)

Lemma fs_ok_insert f d n x : fs_ok f → f !! d = Some Dir → f !! (d ++ [n]) ≠ Some Dir → fs_ok (<[d ++ [n] := x]> f).
Proof.
  intros Hok Hd Hn. destruct Hok as [Hroot Hup]. split.
  - rewrite lookup_insert_ne; [done|]. by destruct d.
  - intros p m Hs. assert (p ≠ d ++ [n]) as Hne.
    { intros ->. rewrite lookup_insert_ne in Hs; [by apply Hn, (Hup _ m)|]. intros Heq. apply (f_equal length) in Heq.
      rewrite !length_app in Heq. simpl in Heq. lia. }
    rewrite lookup_insert_ne by done. destruct (decide (d ++ [n] = p ++ [m])) as [Heq|Hneq].
    + apply app_inj_2 in Heq as [<- _]; [done|done].
    + apply (Hup p m). by rewrite lookup_insert_ne in Hs.
Qed.

(** [f'] has what [f] has; only the content of files may differ. *)
Definition same_kind (x y : node) : Prop := match x, y with File _, File _ => True | _, _ => x = y end.
Definition extends (f f' : fs) : Prop := ∀ q x, f !! q = Some x → ∃ y, f' !! q = Some y ∧ same_kind x y.
Lemma extends_refl f : extends f f.
Proof. intros q x Hx. exists x. split; [done|]. by destruct x. Qed.
Lemma extends_trans f g h : extends f g → extends g h → extends f h.
Proof.
  intros Hfg Hgh q x Hx. destruct (Hfg q x Hx) as (y&Hy&Hxy). destruct (Hgh q y Hy) as (z&Hz&Hyz). exists z. split; [done|].
  destruct x, y, z; simpl in *; congruence.
Qed.
Lemma extends_insert f l x : (∀ y, f !! l = Some y → same_kind y x) → extends f (<[l := x]> f).
Proof.
  intros Hl q y Hy. destruct (decide (l = q)) as [<-|Hne].
  - exists x. rewrite lookup_insert_eq. auto.
  - exists y. rewrite lookup_insert_ne by done. split; [done|]. by destruct y.
Qed.
Lemma walk_extends f f' : extends f f' → ∀ k cur p l, walk f false k cur p = Ok l → walk f' false k cur p = Ok l.
Proof.
  intros He. induction k as [k IHk] using lt_wf_ind. intros cur p. revert cur. induction p as [|c p IHp]; intros cur l; [by rewrite !walk_nil|].
  destruct c as [| | |n].
  - rewrite !walk_root. apply IHp.
  - rewrite !walk_cur. apply IHp.
  - rewrite !walk_parent. apply IHp.
  - rewrite !walk_normal. destruct (f !! (cur ++ [n])) as [x|] eqn:Hx; [|done]. destruct (He _ _ Hx) as (y&Hy&Hk). rewrite Hy.
    destruct x as [c| |t], y as [c'| |t']; simpl in Hk; try done; [apply IHp|].
    injection Hk as ->. destruct k as [|k]; [done|]. apply IHk. lia.
Qed.
Lemma canonicalize_extends f f' p l : extends f f' → canonicalize cwd f p = Ok l → canonicalize cwd f' p = Ok l.
Proof. intros He. unfold canonicalize. destruct p; [done|]. by apply walk_extends. Qed.

(** Writing a file in its place. *)
Lemma write_abs f d n c : fs_ok f → f !! d = Some Dir → (∀ t, f !! (d ++ [n]) ≠ Some (Link t)) →
  write cwd (abs (d ++ [n])) c f = match f !! (d ++ [n]) with Some Dir => (f, Err EISDIR) | _ => (<[d ++ [n] := File c]> f, Ok tt) end.
Proof. intros Hok Hd Hn. unfold write. by rewrite target_abs. Qed.
Lemma write_cases f d n c f' r : fs_ok f → f !! d = Some Dir → (∀ t, f !! (d ++ [n]) ≠ Some (Link t)) →
  write cwd (abs (d ++ [n])) c f = (f', r) → (f' = f ∧ r = Err EISDIR) ∨ (f' = <[d ++ [n] := File c]> f ∧ f !! (d ++ [n]) ≠ Some Dir ∧ r = Ok tt).
Proof. intros Hok Hd Hn. rewrite write_abs by done. destruct (f !! (d ++ [n])) as [[| |]|] eqn:Hl; intros [= <- <-]; [right..|left|right|right]; naive_solver. Qed.

(** Moving a subtree touches only what is below the two names. *)
Lemma move_lookup l l' f q : below l q = false → below l' q = false → move l l' f !! q = f !! q.
Proof.
  intros Hq Hq'. unfold move. rewrite lookup_union_r.
  - destruct (f !! q) as [x|] eqn:Hx.
    + apply map_lookup_filter_Some. split; [done|]. split; [done|]. simpl. intros ->.
      unfold below, is_prefix in Hq'. by rewrite bool_decide_true in Hq'.
    + apply map_lookup_filter_None. by left.
  - apply not_elem_of_list_to_map_1. intros ([k x]&Hk&Hin)%list_elem_of_fmap. simpl in Hk. subst k.
    apply list_elem_of_omap in Hin as ([p y]&_&Hs). simpl in Hs. destruct (strip l p) as [t|]; simplify_eq/=.
    unfold below, is_prefix in Hq'. rewrite bool_decide_true in Hq'; [done|]. by exists t.
Qed.
End calls_facts.
