(* ===== verification/FileService.v ===== *)
(** * FileService: files of the workspace behind a sandbox

    [chisl-file/src/path_safety.rs] and the operations of [service.rs] on the file system
    of [FileSystem].  An operation is a function on the service's state: the files, the
    cache of listings and the events that were broadcast. *)

From S2P Require Import Prelude.
From S2P Require Import Text.
From S2P Require Import TeamTypes.
From S2P Require Import Common.
From S2P Require Import Paths.
From S2P Require Import FileSystem.

(* chisl-file/src/types.rs:15-18 ContentUpdateOperation *)
Inductive ContentUpdateOperation := Write | Delete.
(* chisl-file/src/types.rs:29-35 DirOrFile *)
Inductive DirOrFile := mk_entry (name full_path relative_path : string) (is_dir : bool) (children : list DirOrFile).
(* chisl-file/src/types.rs:41-45 WorkspaceFlatFile *)
Record WorkspaceFlatFile := mk_flat { name : string; full_path : string; relative_path : string }.
Module ContentUpdateEvent.
(* chisl-file/src/types.rs:71-78 ContentUpdateEvent *)
Record t := mk { file_path : string; content : option string; workspace : string; relative_path : string; operation : ContentUpdateOperation }.
End ContentUpdateEvent.
(* chisl-file/src/types.rs:158-161 CopyResult *)
Record CopyResult := mk_copy { copied_files : list string; failed_files : list string }.

(* chisl-file/src/service.rs:25-25 MAX_FILE_SIZE *)
Definition MAX_FILE_SIZE : Z := 256 * 1024 * 1024.

Record Files := mk_files { files : fs; cache : gmap string (list WorkspaceFlatFile); sent : list ContentUpdateEvent.t }.
Definition set_files x s := mk_files x (cache s) (sent s).

Definition nul : Ascii.ascii := Ascii.ascii_of_nat 0.
Definition backslash : Ascii.ascii := Ascii.ascii_of_nat 92.
Definition quoted (p : string) : string := "'" +:+ p +:+ "'".

(* chisl-file/src/path_safety.rs:96-101 has_traversal *)
Definition has_traversal (p : string) : bool :=
  has_char nul p || existsb (λ c, bool_decide (c = ParentDir)) (components p).

Definition dot : Ascii.ascii := Ascii.ascii_of_nat 46.
(** [rfind('.')] with [split_at]: before the last dot, and from it on. *)
Fixpoint rsplit_dot (s : string) : option (string * string) :=
  match s with
  | EmptyString => None
  | String a s' => match rsplit_dot s' with
                   | Some (x, y) => Some (String a x, y)
                   | None => if Ascii.eqb a dot then Some (EmptyString, s) else None
                   end
  end.
(* chisl-file/src/service.rs:348-353 split_base_ext *)
Definition split_base_ext (n : string) : string * string :=
  match rsplit_dot n with
  | Some (base, ext) => if String.eqb base EmptyString then (n, EmptyString) else (base, ext)
  | None => (n, EmptyString)
  end.

Section service.
(** The current and the temporary directory, the roots of the sandbox. *)
Context (cwd : loc) (temp_dir : path) (allowed_roots : list path).
Abbreviation canonicalize := (canonicalize cwd).

(* ------------------------------------------------------------------ *)
(** ** Path safety *)

Definition outside {A} (p : string) : result A AppError.t :=
  Err (AppError.Forbidden ("path " +:+ quoted p +:+ " is outside the allowed sandbox")).
Definition within (f : fs) (l : loc) (root : path) : bool :=
  match canonicalize f root with Ok r => is_prefix r l | Err _ => false end.

(* chisl-file/src/path_safety.rs:15-36 validate_path *)
Definition validate_path (f : fs) (p : string) (roots : list path) : result loc AppError.t :=
  let? c := res_map_err (λ e, AppError.BadRequest ("cannot resolve path " +:+ quoted p +:+ ": " +:+ show_io_error e))
              (canonicalize f (components p)) in
  if existsb (within f c) roots then Ok c else outside p.
(* chisl-file/src/path_safety.rs:39-49 validate_path_with_extra_root *)
Definition validate_path_with_extra_root (f : fs) (p : string) (base_roots : list path) (extra : option path) : result loc AppError.t :=
  validate_path f p (base_roots ++ option_list extra).
(* chisl-file/src/path_safety.rs:61-88 validate_path_for_write *)
Definition validate_path_for_write (f : fs) (p : string) (roots : list path) : result loc AppError.t :=
  let c := components p in
  match path_parent c with
  | None => Err (AppError.BadRequest ("path " +:+ quoted p +:+ " has no parent directory"))
  | Some parent =>
      match file_name c with
      | None => Err (AppError.BadRequest ("path " +:+ quoted p +:+ " has no file name component"))
      | Some n =>
          let? d := res_map_err (λ e, AppError.BadRequest ("cannot resolve parent of " +:+ quoted p +:+ ": " +:+ show_io_error e))
                      (canonicalize f parent) in
          if existsb (within f d) roots then Ok (d ++ [n]) else outside p
      end
  end.
(* chisl-file/src/service.rs:91-97 allowed_roots_with_extra *)
Definition allowed_roots_with_extra (extra : option path) : list path := allowed_roots ++ option_list extra.
(* chisl-file/src/service.rs:99-115 path_uses_allowed_root *)
Definition path_uses_allowed_root (f : fs) (p : path) (extra : option path) : bool :=
  let candidate := if is_absolute p then p else join (abs cwd) p in
  existsb (λ root, match canonicalize f root with Ok r => path_starts_with candidate (abs r) | Err _ => false end)
    (allowed_roots_with_extra extra).

Definition traversal {A} (p : string) : result A AppError.t :=
  Err (AppError.BadRequest ("path " +:+ quoted p +:+ " contains invalid traversal patterns")).
Definition has_separator (s : string) : bool := has_char slash s || has_char backslash s.
Definition shown (l : loc) : string := render (abs l).
Definition internal {A} (what : string) (r : result A io_error) : result A AppError.t :=
  res_map_err (λ e, AppError.Internal (what +:+ ": " +:+ show_io_error e)) r.

(* ------------------------------------------------------------------ *)
(** ** Reading *)

(* chisl-file/src/service.rs:270-300 validate_file_for_read *)
Definition validate_file_for_read (f : fs) (l : loc) : result (option unit) AppError.t :=
  match metadata cwd f (abs l) with
  | Err ENOENT => Ok None
  | Err e => Err (AppError.Internal ("cannot read metadata for " +:+ quoted (shown l) +:+ ": " +:+ show_io_error e))
  | Ok (File c) =>
      if MAX_FILE_SIZE <? Z.of_nat (String.length c)
      then Err (AppError.BadRequest ("file " +:+ quoted (shown l) +:+ " exceeds 256 MB limit (" +:+
                                     show_usize (N.of_nat (String.length c)) +:+ " bytes)"))
      else Ok (Some tt)
  | Ok _ => Err (AppError.BadRequest ("path " +:+ quoted (shown l) +:+ " is a directory; expected a file"))
  end.
(* chisl-file/src/service.rs:317-326 read_file_buffer_sync *)
Definition read_file_buffer_sync (f : fs) (l : loc) : result (option string) AppError.t :=
  let? v := validate_file_for_read f l in
  match v with
  | None => Ok None
  | Some _ => res_map Some (internal ("cannot read file " +:+ quoted (shown l)) (read cwd f (abs l)))
  end.
(** [read_to_string] refuses what is not UTF-8. *)
(* chisl-file/src/service.rs:304-313 read_file_sync *)
Definition read_file_sync (f : fs) (l : loc) : result (option string) AppError.t :=
  let? v := validate_file_for_read f l in
  match v with
  | None => Ok None
  | Some _ =>
      let? c := internal ("cannot read file " +:+ quoted (shown l)) (read cwd f (abs l)) in
      match from_utf8 (bytes c) with
      | Some t => Ok (Some t)
      | None => Err (AppError.Internal ("cannot read file " +:+ quoted (shown l) +:+ ": stream did not contain valid UTF-8"))
      end
  end.
(** A path that does not exist, but could inside the sandbox, reads as nothing. *)
Definition read_at {A} (rd : fs → loc → result (option A) AppError.t) (p : string) (extra : option path) (f : fs) :
    result (option A) AppError.t :=
  if has_traversal p then traversal p else
  match validate_path_with_extra_root f p allowed_roots extra with
  | Ok c => rd f c
  | Err (AppError.BadRequest e) =>
      if is_ok (validate_path_for_write f p (allowed_roots_with_extra extra)) then Ok None
      else if path_uses_allowed_root f (components p) extra then Ok None
      else Err (AppError.BadRequest e)
  | Err e => Err e
  end.
(* chisl-file/src/service.rs:626-653 FileService::read_file *)
Definition read_file : string → option path → fs → result (option string) AppError.t := read_at read_file_sync.
(* chisl-file/src/service.rs:655-682 FileService::read_file_buffer *)
Definition read_file_buffer : string → option path → fs → result (option string) AppError.t := read_at read_file_buffer_sync.

(* ------------------------------------------------------------------ *)
(** ** Listing *)

(** [fs::read_dir]: names and what they are, a link as a link. *)
Definition read_dir (f : fs) (l : loc) : list (string * node) :=
  omap (λ kv, match strip l kv.1 with Some [n] => Some (n, kv.2) | _ => None end) (map_to_list f).
Definition entry_is_dir (e : DirOrFile) : bool := match e with mk_entry _ _ _ d _ => d end.
Definition entry_name (e : DirOrFile) : string := match e with mk_entry n _ _ _ _ => n end.
(** Directories first, then by name. *)
Definition entry_le (a b : DirOrFile) : Prop :=
  if Bool.eqb (entry_is_dir a) (entry_is_dir b) then Is_true (String.leb (entry_name a) (entry_name b)) else Is_true (entry_is_dir a).
#[local] Instance entry_le_dec a b : Decision (entry_le a b).
Proof. unfold entry_le. destruct (Bool.eqb _ _); apply _. Defined.
Definition is_directory (x : node) : bool := bool_decide (x = Dir).
Definition below_root (root l : loc) : string := render (default (abs l) (strip_path (abs l) (abs root))).
(* chisl-file/src/service.rs:174-208 read_children_sync *)
Definition read_children_sync (f : fs) (dir root : loc) : list DirOrFile :=
  merge_sort entry_le (map (λ nx, mk_entry nx.1 (shown (dir ++ [nx.1])) (below_root root (dir ++ [nx.1])) (is_directory nx.2) [])
    (read_dir f dir)).
(* chisl-file/src/service.rs:130-171 build_dir_tree_sync *)
Definition build_dir_tree_sync (f : fs) (dir root : loc) : result (list DirOrFile) AppError.t :=
  match f !! dir with
  | Some Dir =>
      Ok (merge_sort entry_le (map (λ nx, let l := dir ++ [nx.1] in
            mk_entry nx.1 (shown l) (below_root root l) (is_directory nx.2)
              (if is_directory nx.2 then read_children_sync f l root else [])) (read_dir f dir)))
  | Some _ => Err (AppError.BadRequest ("cannot read directory " +:+ quoted (shown dir) +:+ ": " +:+ show_io_error ENOTDIR))
  | None => Err (AppError.BadRequest ("cannot read directory " +:+ quoted (shown dir) +:+ ": " +:+ show_io_error ENOENT))
  end.
(* chisl-file/src/service.rs:584-590 FileService::get_files_by_dir *)
Definition get_files_by_dir (dir root : string) (f : fs) : result (list DirOrFile) AppError.t :=
  let? d := validate_path f dir allowed_roots in
  let? r := validate_path f root allowed_roots in
  build_dir_tree_sync f d r.

(* chisl-file/src/service.rs:22-22 MAX_WORKSPACE_FILES *)
Definition MAX_WORKSPACE_FILES : nat := N.to_nat 20000.
(** [walker]: the entries the [ignore] crate gives for a root. *)
(* chisl-file/src/service.rs:211-265 list_workspace_files_sync *)
Definition list_workspace_files_sync (walker : loc → list loc) (f : fs) (root : loc) : list WorkspaceFlatFile :=
  take MAX_WORKSPACE_FILES (omap (λ l, match metadata cwd f (abs l) with
    | Ok Dir | Err _ => None
    | Ok _ => Some (mk_flat (default EmptyString (file_name (abs l))) (shown l) (below_root root l))
    end) (walker root)).
(* chisl-file/src/service.rs:592-611 FileService::list_workspace_files *)
Definition list_workspace_files (walker : loc → list loc) (root : string) (s : Files) : Files * result (list WorkspaceFlatFile) AppError.t :=
  match validate_path (files s) root allowed_roots with
  | Err e => (s, Err e)
  | Ok r =>
      match cache s !! shown r with
      | Some l => (s, Ok l)
      | None => let l := list_workspace_files_sync walker (files s) r in
                (mk_files (files s) (<[shown r := l]> (cache s)) (sent s), Ok l)
      end
  end.

(* ------------------------------------------------------------------ *)
(** ** Writing *)

(* chisl-file/src/service.rs:330-334 write_file_sync *)
Definition write_file_sync (l : loc) (data : string) (f : fs) : fs * result bool AppError.t :=
  let '(f, r) := write cwd (abs l) data f in
  (f, res_map (λ _, true) (internal ("cannot write file " +:+ quoted (shown l)) r)).

(** The path below the workspace, or the whole path. *)
Definition relative_to (f : fs) (workspace : string) (l : loc) : string :=
  let base := match canonicalize f (components workspace) with Ok w => abs w | Err _ => components workspace end in
  render (default (abs l) (strip_path (abs l) base)).
(* chisl-file/src/service.rs:82-84 invalidate_cache *)
Definition invalidate_cache (root : string) (s : Files) : Files := mk_files (files s) (delete root (cache s)) (sent s).
(** The event, and the cache of the workspace. *)
Definition announce (workspace : string) (l : loc) (content : option string) (op : ContentUpdateOperation) (s : Files) : Files :=
  let s := mk_files (files s) (cache s)
             (sent s ++ [ContentUpdateEvent.mk (shown l) content workspace (relative_to (files s) workspace l) op]) in
  match canonicalize (files s) (components workspace) with
  | Ok w => invalidate_cache (shown w) s
  | Err _ => s
  end.

(* chisl-file/src/service.rs:684-729 FileService::write_file *)
Definition write_file (p data workspace : string) (s : Files) : Files * result bool AppError.t :=
  if has_traversal p then (s, traversal p) else
  match validate_path_for_write (files s) p allowed_roots with
  | Err e => (s, Err e)
  | Ok c =>
      let '(f, r) := write_file_sync c data (files s) in
      let s := set_files f s in
      match r with
      | Err e => (s, Err e)
      | Ok _ => (announce workspace c (from_utf8 (bytes data)) Write s, Ok true)
      end
  end.

(* chisl-file/src/service.rs:395-406 remove_entry_sync *)
Definition remove_entry_sync (l : loc) (f : fs) : fs * result unit AppError.t :=
  match metadata cwd f (abs l) with
  | Err e => (f, Err (AppError.NotFound ("cannot remove " +:+ quoted (shown l) +:+ ": " +:+ show_io_error e)))
  | Ok Dir => let '(f, r) := remove_dir_all cwd (abs l) f in (f, internal ("cannot remove directory " +:+ quoted (shown l)) r)
  | Ok _ => let '(f, r) := remove_file cwd (abs l) f in (f, internal ("cannot remove file " +:+ quoted (shown l)) r)
  end.
(* chisl-file/src/service.rs:786-828 FileService::remove_entry *)
Definition remove_entry (p workspace : string) (s : Files) : Files * result unit AppError.t :=
  if has_traversal p then (s, traversal p) else
  match validate_path (files s) p allowed_roots with
  | Err e => (s, Err e)
  | Ok c =>
      let '(f, r) := remove_entry_sync c (files s) in
      let s := set_files f s in
      match r with
      | Err e => (s, Err e)
      | Ok _ => (announce workspace c None Delete s, Ok tt)
      end
  end.

(* chisl-file/src/service.rs:409-432 rename_entry_sync *)
Definition rename_entry_sync (l : loc) (new_name : string) (f : fs) : fs * result path AppError.t :=
  match path_parent (abs l) with
  | None => (f, Err (AppError.BadRequest ("path " +:+ quoted (shown l) +:+ " has no parent")))
  | Some parent =>
      let new_path := join parent (components new_name) in
      if exists_ cwd f new_path then (f, Err (AppError.BadRequest ("target " +:+ quoted (render new_path) +:+ " already exists")))
      else
        let '(f, r) := rename cwd (abs l) new_path f in
        (f, res_map (λ _, new_path)
              (internal ("cannot rename " +:+ quoted (shown l) +:+ " to " +:+ quoted (render new_path)) r))
  end.
(* chisl-file/src/service.rs:830-855 FileService::rename_entry *)
Definition rename_entry (p new_name : string) (s : Files) : Files * result string AppError.t :=
  if has_traversal p then (s, traversal p) else
  if has_separator new_name
  then (s, Err (AppError.BadRequest ("new name " +:+ quoted new_name +:+ " must not contain path separators"))) else
  match validate_path (files s) p allowed_roots with
  | Err e => (s, Err e)
  | Ok c => let '(f, r) := rename_entry_sync c new_name (files s) in (set_files f s, res_map render r)
  end.

(* chisl-file/src/service.rs:435-445 copy_single_file_sync *)
Definition copy_single_file_sync (src : loc) (dest : path) (f : fs) : fs * result unit AppError.t :=
  let '(f, made) := match path_parent dest with
                    | Some parent => let '(f, r) := create_dir_all cwd parent f in
                                     (f, internal ("cannot create directory " +:+ quoted (render parent)) r)
                    | None => (f, Ok tt)
                    end in
  match made with
  | Err e => (f, Err e)
  | Ok _ => let '(f, r) := copy cwd (abs src) dest f in
            (f, internal ("cannot copy " +:+ quoted (shown src) +:+ " to " +:+ quoted (render dest)) r)
  end.
(** The place of a file below the workspace: its path below the source root, or its name. *)
Definition copied_as (source_root : option loc) (src : loc) : path :=
  let own := match file_name (abs src) with Some n => [Normal n] | None => [] end in
  match source_root with
  | Some sr => default own (strip_path (abs src) (abs sr))
  | None => own
  end.
Fixpoint copy_files (file_paths : list string) (ws : loc) (source_root : option loc) (f : fs) (copied failed : list string) : fs * CopyResult :=
  match file_paths with
  | [] => (f, mk_copy copied failed)
  | fp :: rest =>
      match validate_path f fp allowed_roots with
      | Ok src =>
          if is_file cwd f (abs src) then
            match copy_single_file_sync src (join (abs ws) (copied_as source_root src)) f with
            | (f, Ok _) => copy_files rest ws source_root f (copied ++ [fp]) failed
            | (f, Err _) => copy_files rest ws source_root f copied (failed ++ [fp])
            end
          else copy_files rest ws source_root f copied (failed ++ [fp])
      | Err _ => copy_files rest ws source_root f copied (failed ++ [fp])
      end
  end.
(* chisl-file/src/service.rs:731-784 FileService::copy_files_to_workspace *)
Definition copy_files_to_workspace (file_paths : list string) (workspace : string) (source_root : option string) (s : Files) :
    Files * result CopyResult AppError.t :=
  match validate_path (files s) workspace allowed_roots with
  | Err e => (s, Err e)
  | Ok ws =>
      match match source_root with Some sr => res_map Some (validate_path (files s) sr allowed_roots) | None => Ok None end with
      | Err e => (s, Err e)
      | Ok sr => let '(f, r) := copy_files file_paths ws sr (files s) [] [] in (set_files f s, Ok r)
      end
  end.

(* ------------------------------------------------------------------ *)
(** ** Temporary and uploaded files *)

Definition invalid_name {A} (n : string) : result A AppError.t :=
  Err (AppError.BadRequest ("file name " +:+ quoted n +:+ " contains invalid traversal patterns")).
Definition separators {A} (n : string) : result A AppError.t :=
  Err (AppError.BadRequest ("file name " +:+ quoted n +:+ " must not contain path separators")).
Definition aionui : path := join temp_dir [Normal "aionui"].
(* chisl-file/src/service.rs:857-887 FileService::create_temp_file *)
Definition create_temp_file (n : string) (s : Files) : Files * result string AppError.t :=
  if has_traversal n then (s, invalid_name n) else if has_separator n then (s, separators n) else
  let '(f, r) := create_dir_all cwd aionui (files s) in
  match internal "cannot create temp directory" r with
  | Err e => (set_files f s, Err e)
  | Ok _ =>
      let p := join aionui (components n) in
      let '(f, r) := write cwd p EmptyString f in
      (set_files f s, res_map (λ _, render p) (internal ("cannot create temp file " +:+ quoted (render p)) r))
  end.

(** The names that are tried: the own one, then with the numbers from 2 on. *)
Definition candidate (n : string) (counter : nat) : string :=
  match counter with
  | O | S O => n
  | _ => let '(base, ext) := split_base_ext n in base +:+ "(" +:+ show_usize (N.of_nat counter) +:+ ")" +:+ ext
  end.
(** [counter] is the number of the name that is tried; [fuel] those left. *)
Fixpoint upload_loop (fuel counter : nat) (dir : path) (n data : string) (f : fs) : fs * result string AppError.t :=
  let p := join dir (components (candidate n counter)) in
  match create_new cwd p data f with
  | (f, Ok _) => (f, Ok (render p))
  | (f, Err EEXIST) =>
      match fuel with
      | O => (f, Err (AppError.Internal ("too many name collisions for upload file " +:+ quoted n)))
      | S fuel => upload_loop fuel (S counter) dir n data f
      end
  | (f, Err e) => (f, Err (AppError.Internal ("cannot write upload file " +:+ quoted (render p) +:+ ": " +:+ show_io_error e)))
  end.
(* chisl-file/src/service.rs:889-975 FileService::create_upload_file *)
Definition create_upload_file (n data : string) (conversation_id : option string) (s : Files) : Files * result string AppError.t :=
  if String.eqb n EmptyString then (s, Err (AppError.BadRequest "file name must not be empty")) else
  if has_traversal n then (s, invalid_name n) else if has_separator n then (s, separators n) else
  match match conversation_id with
        | Some i => if String.eqb i EmptyString then Ok "general"
                    else if has_traversal i || has_separator i
                    then Err (AppError.BadRequest ("conversation id " +:+ quoted i +:+ " contains invalid characters"))
                    else Ok i
        | None => Ok "general"
        end with
  | Err e => (s, Err e)
  | Ok sub =>
      let dir := join aionui (components sub) in
      let '(f, r) := create_dir_all cwd dir (files s) in
      match internal "cannot create upload directory" r with
      | Err e => (set_files f s, Err e)
      | Ok _ => let '(f, r) := upload_loop 999 1 dir n data f in (set_files f s, r)
      end
  end.
End service.
