(* ===== verification/FileFacts.v ===== *)
(** * FileFacts: the sandbox holds, uploads overwrite nothing

    What is read lies inside the allowed roots, and what is written, removed, renamed or
    copied changes nothing outside them, as long as the sandbox has no symbolic links and
    no root is renamed; the examples at the end show what happens otherwise. *)

From S2P Require Import Prelude.
From S2P Require Import Text.
From S2P Require Import TeamTypes.
From S2P Require Import Common.
From S2P Require Import Paths.
From S2P Require Import FileSystem.
From S2P Require Import FileService.

Lemma is_prefix_spec {A} `{EqDecision A} (r p : list A) : is_prefix r p = true ↔ ∃ q, p = r ++ q.
Proof. unfold is_prefix. rewrite bool_decide_eq_true. done. Qed.

Section sandbox.
Context (cwd : loc) (temp_dir : path) (allowed_roots : list path).
Abbreviation canonicalize := (canonicalize cwd).

(** Below what a root leads to. *)
Definition inside_of (roots : list path) (f : fs) (l : loc) : Prop := ∃ root r q, root ∈ roots ∧ canonicalize f root = Ok r ∧ l = r ++ q.
Abbreviation inside := (inside_of allowed_roots).
Definition no_links (f : fs) : Prop := ∀ q t, inside f q → f !! q ≠ Some (Link t).

Lemma within_inside roots f l : existsb (within cwd f l) roots = true ↔ inside_of roots f l.
Proof.
  rewrite existsb_exists. unfold within, inside_of. split.
  - intros (root&Hin&Hw). destruct (canonicalize f root) as [r|] eqn:Hr; [|done]. apply is_prefix_spec in Hw as [q ->].
    exists root, r, q. split; [by apply list_elem_of_In|done].
  - intros (root&r&q&Hin&Hr&->). exists root. split; [by apply list_elem_of_In|]. rewrite Hr. apply is_prefix_spec. by exists q.
Qed.
Lemma inside_below roots f l q : inside_of roots f l → inside_of roots f (l ++ q).
Proof. intros (root&r&t&Hin&Hr&->). exists root, r, (t ++ q). by rewrite <- app_assoc. Qed.
Lemma outside_not_below f l q : inside f l → ¬ inside f q → below l q = false.
Proof.
  intros Hl Hq. destruct (below l q) eqn:Hb; [|done]. apply is_prefix_spec in Hb as [t ->]. by destruct Hq; apply inside_below.
Qed.

Lemma validate_path_sound roots f p l : at_home cwd f → validate_path cwd f p roots = Ok l →
  canonicalize f (components p) = Ok l ∧ solid f l ∧ inside_of roots f l.
Proof.
  intros Hh. unfold validate_path. destruct (canonicalize f (components p)) as [c|e] eqn:Hc; [|done]. cbn [res_map_err res_bind].
  destruct (existsb _ roots) eqn:Hin; [|done]. intros [= <-]. split; [done|]. split; [by eapply canonicalize_solid|]. by apply within_inside.
Qed.
Lemma validate_for_write_sound roots f p l : at_home cwd f → validate_path_for_write cwd f p roots = Ok l →
  ∃ d n, l = d ++ [n] ∧ solid f d ∧ inside_of roots f d.
Proof.
  intros Hh. unfold validate_path_for_write. destruct (path_parent _) as [parent|]; [|done]. destruct (file_name _) as [n|]; [|done].
  destruct (canonicalize f parent) as [d|] eqn:Hd; [|done]. cbn [res_map_err res_bind]. destruct (existsb _ roots) eqn:Hin; [|done].
  intros [= <-]. exists d, n. split; [done|]. split; [by eapply canonicalize_solid|by apply within_inside].
Qed.

(* ------------------------------------------------------------------ *)
(** ** Reading *)

Lemma read_file_buffer_sync_Some f l c : fs_ok f → solid f l → read_file_buffer_sync cwd f l = Ok (Some c) → f !! l = Some (File c).
Proof.
  intros Hok (x&Hx&Hl). unfold read_file_buffer_sync, validate_file_for_read, read. rewrite (metadata_abs cwd f l x) by done.
  destruct x as [c'| |t]; [|done|by destruct (Hl t)]. destruct (_ <? _); [done|]. cbn [res_bind res_map internal res_map_err].
  by intros [= <-].
Qed.
Lemma read_file_sync_Some f l c : fs_ok f → solid f l → read_file_sync cwd f l = Ok (Some c) → f !! l = Some (File c) ∧ from_utf8 (bytes c) = Some c.
Proof.
  intros Hok (x&Hx&Hl). unfold read_file_sync, validate_file_for_read, read. rewrite (metadata_abs cwd f l x) by done.
  destruct x as [c'| |t]; [|done|by destruct (Hl t)]. destruct (_ <? _); [done|]. cbn [res_bind internal res_map_err].
  assert (∀ s, from_utf8 (bytes s) = None ∨ from_utf8 (bytes s) = Some s) as Hu.
  { intros s. unfold from_utf8. rewrite of_bytes_bytes. destruct (_ && _); auto. }
  destruct (Hu c') as [Hn|Hs]; [by rewrite Hn|]. rewrite Hs. intros [= <-]. done.
Qed.
Lemma read_at_Some {A} rd p extra f (x : A) : read_at cwd allowed_roots rd p extra f = Ok (Some x) →
  ∃ l, validate_path cwd f p (allowed_roots ++ option_list extra) = Ok l ∧ rd f l = Ok (Some x).
Proof.
  unfold read_at, validate_path_with_extra_root. destruct (has_traversal p); [done|].
  destruct (validate_path _ _ _ _) as [l|e]; [by exists l|]. destruct e; try done. destruct (is_ok _); [done|]. by destruct (path_uses_allowed_root _ _ _ _ _).
Qed.

(* ------------------------------------------------------------------ *)
(** ** Changes *)

Definition unchanged_outside (f0 f f' : fs) : Prop := ∀ q, ¬ inside f0 q → f' !! q = f !! q.

Lemma write_outside f0 f d n c : fs_ok f → f !! d = Some Dir → inside f0 d → (∀ t, f !! (d ++ [n]) ≠ Some (Link t)) →
  unchanged_outside f0 f (fst (write cwd (abs (d ++ [n])) c f)).
Proof.
  intros Hok Hd Hin Hn q Hq. destruct (write cwd (abs (d ++ [n])) c f) as [f' r] eqn:Hw.
  destruct (write_cases cwd f d n c f' r Hok Hd Hn Hw) as [[-> _]|(->&_&_)]; [done|]. simpl. rewrite lookup_insert_ne; [done|].
  intros <-. by apply Hq, inside_below.
Qed.
Lemma remove_outside f l : fs_ok f → solid f l → inside f l → unchanged_outside f f (fst (remove_entry_sync cwd l f)).
Proof.
  intros Hok (x&Hx&Hl) Hin q Hq. pose proof (outside_not_below f l q Hin Hq) as Hb.
  assert (l ≠ q) as Hne by (intros <-; done).
  unfold remove_entry_sync. rewrite (metadata_abs cwd f l x) by done.
  assert (entry cwd f (abs l) = Ok l ∨ entry cwd f (abs l) = Err EEXIST) as He.
  { destruct l as [|n d _] using rev_ind; [by right|]. left. apply entry_abs; [done|]. apply (fs_ok_prefix f d [n] Hok); [by rewrite Hx|done]. }
  destruct x as [c| |t]; [| |by destruct (Hl t)].
  - unfold remove_file. destruct He as [->| ->]; [|done]. rewrite Hx. simpl. by rewrite lookup_delete_ne.
  - unfold remove_dir_all. destruct He as [->| ->]; [|done]. rewrite Hx. simpl.
    destruct (f !! q) as [y|] eqn:Hy; [by apply map_lookup_filter_Some|]. apply map_lookup_filter_None. by left.
Qed.

(** A new name without separators is a name, or stands for nothing new. *)
Lemma segments_from_plain cur s : has_char slash s = false → segments_from cur s = [cur +:+ s].
Proof.
  revert cur. induction s as [|a s IH]; intros cur; simpl; [by rewrite app_string_nil_r|].
  intros [Ha Hs]%orb_false_iff. destruct (Ascii.eqb_spec a slash) as [->|_]; [by rewrite ?Ascii.eqb_refl in Ha|].
  rewrite IH by done. by rewrite app_string_assoc.
Qed.
Lemma plain_components s : has_char slash s = false → components s = [] ∨ components s = [CurDir] ∨ components s = [ParentDir] ∨ components s = [Normal s].
Proof.
  intros Hs. unfold components. destruct s as [|a s]; [by left|].
  destruct (Ascii.eqb_spec a slash) as [->|_]; [simpl in Hs; by rewrite ?Ascii.eqb_refl in Hs|].
  unfold segments. rewrite segments_from_plain by done. rewrite app_string_empty.
  destruct (String.eqb_spec (String a s) ".") as [->|Hd]; [by right; left|]. cbn [omap list_omap].
  right. right. unfold omap, list_omap, segment. rewrite (proj2 (String.eqb_neq _ _) Hd).
  replace (String.eqb (String a s) EmptyString) with false by done. cbn [orb]. destruct (String.eqb (String a s) ".."); [by left|by right].
Qed.

Lemma join_nothing d p : is_absolute p = false → List.filter (λ c, negb (bool_decide (c = CurDir))) p = [] → join (abs d) p = abs d.
Proof. intros Hp Hf. unfold join. rewrite Hp, Hf. apply app_nil_r. Qed.
Lemma rename_outside f l n : fs_ok f → solid f l → inside f l → inside f (removelast l) → has_char slash n = false →
  unchanged_outside f f (fst (rename_entry_sync cwd l n f)).
Proof.
  intros Hok (x&Hx&Hlink) Hin Hpar Hn q Hq. unfold rename_entry_sync.
  destruct l as [|m d _] using rev_ind; [done|]. rewrite removelast_last in Hpar. rewrite parent_abs.
  assert (f !! d = Some Dir) as Hd by (apply (fs_ok_prefix f d [m] Hok); [by rewrite Hx|done]).
  assert (exists_ cwd f (abs d) = true) as Hex by (unfold exists_; by rewrite (metadata_abs cwd f d Dir)).
  assert (metadata cwd f (abs d ++ [ParentDir]) = Ok Dir) as Hup.
  { unfold metadata, FileSystem.canonicalize, abs, from. cbn [app is_absolute]. rewrite walk_root.
    assert (∀ k e, f !! (e ++ d) = Some Dir → walk f false k e (map Normal d ++ [ParentDir]) = Ok (removelast (e ++ d))) as Hw.
    { clear -Hok. intros k. induction d as [|y d IH]; intros e He; simpl app.
      - by rewrite walk_parent, walk_nil, app_nil_r.
      - cbn [map]. simpl app. rewrite walk_normal. replace (e ++ y :: d) with ((e ++ [y]) ++ d) in * by (by rewrite <- app_assoc).
        assert (f !! (e ++ [y]) = Some Dir) as ->.
        { destruct (decide (d = [])) as [->|Hd]; [by rewrite app_nil_r in He|]. apply (fs_ok_prefix f _ d Hok); [by rewrite He|done]. }
        by apply IH. }
    rewrite (Hw MAX_LINKS [] Hd). cbn [res_bind app]. by rewrite (fs_ok_removelast f d Hok Hd). }
  destruct (plain_components n Hn) as [->|[->|[->| ->]]].
  - rewrite (join_nothing d []) by done. by rewrite Hex.
  - rewrite (join_nothing d [CurDir]) by done. by rewrite Hex.
  - change (join (abs d) [ParentDir]) with (abs d ++ [ParentDir]). unfold exists_. by rewrite Hup.
  - rewrite join_abs. destruct (exists_ cwd f (abs (d ++ [n]))); [done|].
    unfold rename. rewrite !entry_abs by done. rewrite Hx.
    pose proof (outside_not_below f (d ++ [m]) q Hin Hq) as Hb.
    pose proof (outside_not_below f (d ++ [n]) q (inside_below _ f d [n] Hpar) Hq) as Hb'.
    destruct (below (d ++ [m]) (d ++ [n])); [done|].
    destruct x as [c| |t], (f !! (d ++ [n])) as [[| |]|]; simpl; try done; try (by apply move_lookup).
    case_bool_decide; simpl; [by apply move_lookup|done].
Qed.

(* ------------------------------------------------------------------ *)
(** ** Copying *)

(** What a copy may leave: more files and directories inside the roots. *)
Record grown (f0 f : fs) : Prop := {
  grown_ok : fs_ok f;
  grown_extends : extends f0 f;
  grown_outside : unchanged_outside f0 f0 f;
  grown_links : ∀ q t, inside f0 q → f !! q ≠ Some (Link t);
}.
Lemma grown_refl f : fs_ok f → no_links f → grown f f.
Proof. intros Hok Hl. split; [done|apply extends_refl|done|done]. Qed.
Lemma grown_insert f0 f d n x : grown f0 f → f !! d = Some Dir → inside f0 (d ++ [n]) → (∀ t, x ≠ Link t) →
  (∀ y, f !! (d ++ [n]) = Some y → same_kind y x ∧ y ≠ Dir) → grown f0 (<[d ++ [n] := x]> f).
Proof.
  intros [Hok He Ho Hl] Hd Hin Hx Hy. split.
  - apply fs_ok_insert; [done|done|]. intros Hn. by destruct (Hy _ Hn).
  - eapply extends_trans; [exact He|]. apply extends_insert. intros y Hyl. by destruct (Hy y Hyl).
  - intros q Hq. rewrite lookup_insert_ne; [by apply Ho|]. by intros <-.
  - intros q t Hq. destruct (decide (d ++ [n] = q)) as [<-|Hne]; [rewrite lookup_insert_eq|rewrite lookup_insert_ne by done; by apply Hl].
    intros [= ->]. by destruct (Hx t).
Qed.
Lemma grown_write f0 f d n c f' r : grown f0 f → f !! d = Some Dir → inside f0 (d ++ [n]) →
  write cwd (abs (d ++ [n])) c f = (f', r) → grown f0 f' ∧ f' !! d = Some Dir.
Proof.
  intros Hg Hd Hin Hw. pose proof (λ t, grown_links f0 f Hg (d ++ [n]) t Hin) as Hn.
  destruct (write_cases cwd f d n c f' r (grown_ok _ _ Hg) Hd Hn Hw) as [[-> _]|(->&Hnd&_)]; [done|]. split.
  - apply grown_insert; [done..|]. intros [c'| |t] Hy; [done|done|by destruct (Hn t)].
  - rewrite lookup_insert_ne; [done|]. intros Heq. apply (f_equal length) in Heq. rewrite length_app in Heq. simpl in Heq. lia.
Qed.
Lemma metadata_missing f d n : fs_ok f → f !! d = Some Dir → f !! (d ++ [n]) = None → metadata cwd f (abs (d ++ [n])) = Err ENOENT.
Proof.
  intros Hok Hd Hn. unfold metadata, FileSystem.canonicalize, abs. rewrite walk_root.
  assert (∀ q p, f !! (p ++ q) = Some Dir → f !! ((p ++ q) ++ [n]) = None → walk f false MAX_LINKS p (map Normal (q ++ [n])) = Err ENOENT) as Hw.
  { clear -Hok. induction q as [|x q IH]; intros p Hd Hn.
    - rewrite app_nil_r in Hn. simpl map. rewrite walk_normal. by rewrite Hn.
    - simpl app in *. cbn [map]. rewrite walk_normal. replace (p ++ x :: q) with ((p ++ [x]) ++ q) in * by (by rewrite <- app_assoc).
      assert (f !! (p ++ [x]) = Some Dir) as ->.
      { destruct (decide (q = [])) as [->|Hq]; [by rewrite app_nil_r in Hd|]. apply (fs_ok_prefix f _ q Hok); [by rewrite Hd|done]. }
      by apply IH. }
  by rewrite (Hw d []).
Qed.
Lemma grown_create f0 todo : ∀ dn f f' r, grown f0 f → f !! dn = Some Dir →
  (∀ k, k ≠ [] → k `prefix_of` todo → (∃ x, f !! (dn ++ k) = Some x ∧ ∀ t, x ≠ Link t) ∨ inside f0 (dn ++ k)) →
  create_dirs cwd (abs dn) (map Normal todo) f = (f', r) → grown f0 f' ∧ (r = Ok tt → f' !! (dn ++ todo) = Some Dir).
Proof.
  induction todo as [|n todo IH]; intros dn f f' r Hg Hd Hk; cbn [map create_dirs].
  - intros [= <- <-]. rewrite app_nil_r. done.
  - change (abs dn ++ [Normal n]) with (RootDir :: map Normal dn ++ map Normal [n]). rewrite <- map_app.
    change (RootDir :: map Normal (dn ++ [n])) with (abs (dn ++ [n])).
    replace (dn ++ n :: todo) with ((dn ++ [n]) ++ todo) by (by rewrite <- app_assoc).
    pose proof (grown_ok _ _ Hg) as Hok.
    assert (∀ k, k ≠ [] → k `prefix_of` todo → (∃ x, f !! ((dn ++ [n]) ++ k) = Some x ∧ ∀ t, x ≠ Link t) ∨ inside f0 ((dn ++ [n]) ++ k)) as Hk'.
    { intros k Hne Hpre. rewrite <- app_assoc. apply (Hk (n :: k)); [done|]. by apply prefix_cons. }
    specialize (Hk [n] ltac:(done) ltac:(by apply (prefix_cons n), prefix_nil)).
    destruct (f !! (dn ++ [n])) as [x|] eqn:Hx.
    + assert (∀ t, x ≠ Link t) as Hxl.
      { intros t ->. destruct Hk as [(y&[= <-]&Hy)|Hin]; [by destruct (Hy t)|by apply (grown_links _ _ Hg _ t Hin)]. }
      rewrite (metadata_abs cwd f _ x Hok Hx Hxl). destruct x as [c| |t]; [|by apply IH|by destruct (Hxl t)].
      intros [= <- <-]. split; [done|]. by case_bool_decide.
    + rewrite (metadata_missing f dn n Hok Hd Hx), (entry_abs cwd f dn n Hok Hd), Hx.
      assert (grown f0 (<[dn ++ [n] := Dir]> f)) as Hg'.
      { apply grown_insert; [done|done| |done|by rewrite Hx]. destruct Hk as [(y&Hy&_)|Hin]; [done|done]. }
      apply IH; [done|by rewrite lookup_insert_eq|]. intros k Hne Hpre. destruct (Hk' k Hne Hpre) as [(y&Hy&Hyl)|Hin]; [left|by right].
      exists y. rewrite lookup_insert_ne; [done|]. intros Heq. rewrite <- Heq, Hx in Hy. done.
Qed.
Lemma copied_as_names sr src : ∃ names, copied_as sr src = map Normal names.
Proof.
  assert (∃ names, match file_name (abs src) with Some n => [Normal n] | None => [] end = map Normal names) as [own Hown].
  { destruct (file_name (abs src)) as [n|]; [by exists [n]|by exists []]. }
  unfold copied_as. destruct sr as [r|]; [|by exists own]. destruct (strip_path (abs src) (abs r)) as [k|] eqn:Hk; [|by exists own].
  apply strip_Some in Hk. injection Hk as Hk. exists (drop (length r) src). simpl. revert src Hk Hown. induction r as [|x r IH]; intros src Hk Hown; simpl in *; [by rewrite drop_0|].
  destruct src as [|y src]; [done|]. injection Hk as _ Hk. simpl. clear IH Hown. revert src Hk. induction r as [|z r IH]; intros src Hk; simpl in *; [by rewrite drop_0|].
  destruct src as [|w src]; [done|]. injection Hk as _ Hk. by apply IH.
Qed.
Lemma join_names l names : join (abs l) (map Normal names) = abs (l ++ names).
Proof.
  unfold join, abs. destruct names as [|n names]; [simpl; by rewrite !app_nil_r|]. cbn [is_absolute map].
  rewrite map_app. cbn [map]. simpl. do 2 f_equal. f_equal. induction names as [|x names IH]; [done|]. simpl. by rewrite IH.
Qed.
(** The directories down to the workspace, and the places below it. *)
Lemma down_to f0 f ws rest : fs_ok f0 → solid f0 ws → inside f0 ws → grown f0 f → ∀ k, k `prefix_of` ws ++ rest →
  (∃ x, f !! k = Some x ∧ ∀ t, x ≠ Link t) ∨ inside f0 k.
Proof.
  intros Hok0 (w&Hw&Hwl) Hin Hg k Hk. destruct (prefix_weak_total k ws (ws ++ rest) Hk ltac:(by apply prefix_app_r)) as [[q ->]|[q ->]].
  - left. assert (∃ x, f0 !! k = Some x ∧ ∀ t, x ≠ Link t) as (x&Hx&Hxl).
    { destruct (decide (q = [])) as [->|Hq]; [rewrite app_nil_r in Hw; by exists w|]. exists Dir. split; [|done].
      apply (fs_ok_prefix f0 k q Hok0); [by rewrite Hw|done]. }
    destruct (grown_extends _ _ Hg k x Hx) as (y&Hy&Hxy). exists y. split; [done|]. intros t ->. destruct x; simpl in Hxy; [done|done|by destruct (Hxl target)].
  - right. by apply inside_below.
Qed.
Lemma grown_single f0 f ws sr src f' r : fs_ok f0 → solid f0 ws → inside f0 ws → grown f0 f →
  copy_single_file_sync cwd src (join (abs ws) (copied_as sr src)) f = (f', r) → grown f0 f'.
Proof.
  intros Hok0 Hs Hin Hg. destruct (copied_as_names sr src) as [names ->]. rewrite join_names. unfold copy_single_file_sync.
  assert (inside f0 (ws ++ names)) as Hdest by (by apply inside_below).
  pose proof (down_to f0 f ws names Hok0 Hs Hin Hg) as Hdown. revert Hdest Hdown. generalize (ws ++ names) as dest. intros dest Hdest Hdown.
  destruct dest as [|n d _] using rev_ind.
  - rewrite parent_root. unfold copy. destruct (metadata cwd f (abs src)) as [[c| |t]|]; try (by intros [= <- <-]).
    assert (∀ c, write cwd (abs []) c f = (f, Err EISDIR)) as Hw.
    { intros c'. unfold write, target, abs. simpl map. rewrite walk_root, walk_nil. by rewrite (proj1 (grown_ok _ _ Hg)). }
    rewrite Hw. by intros [= <- <-].
  - rewrite parent_abs. destruct (create_dir_all cwd (abs d) f) as [f1 r1] eqn:Hc.
    assert (grown f0 f1 ∧ (r1 = Ok tt → f1 !! d = Some Dir)) as [Hg1 Hd].
    { unfold create_dir_all, abs in Hc. cbn [create_dirs app] in Hc. 
      change [RootDir] with (abs []) in Hc. rewrite (metadata_abs cwd f [] Dir) in Hc; [|apply Hg|apply Hg|done].
      apply (grown_create f0 d [] f f1 r1) in Hc; [done|done|apply Hg|]. intros k _ Hk. apply Hdown. simpl. by apply prefix_app_r. }
    unfold internal. destruct r1 as [[]|e]; simpl; [|by intros [= <- <-]]. specialize (Hd eq_refl).
    unfold copy. destruct (metadata cwd f1 (abs src)) as [[c| |t]|]; try (by intros [= <- <-]).
    destruct (write cwd (abs (d ++ [n])) EmptyString f1) as [f2 r2] eqn:Hw2. destruct (grown_write f0 f1 d n _ f2 r2 Hg1 Hd Hdest Hw2) as [Hg2 Hd2].
    destruct r2; [|by intros [= <- <-]]. destruct (read cwd f2 (abs src)) as [c2|]; [|by intros [= <- <-]].
    destruct (write cwd (abs (d ++ [n])) c2 f2) as [f3 r3] eqn:Hw3. destruct (grown_write f0 f2 d n _ f3 r3 Hg2 Hd2 Hdest Hw3) as [Hg3 _].
    by intros [= <- <-].
Qed.
Lemma grown_copies f0 ws sr paths : fs_ok f0 → solid f0 ws → inside f0 ws → ∀ f copied failed f' r, grown f0 f →
  copy_files cwd allowed_roots paths ws sr f copied failed = (f', r) → grown f0 f'.
Proof.
  intros Hok0 Hs Hin. induction paths as [|p paths IH]; intros f copied failed f' r Hg; simpl; [by intros [= <- <-]|].
  destruct (validate_path cwd f p allowed_roots) as [src|]; [|by apply IH]. destruct (is_file cwd f (abs src)); [|by apply IH].
  destruct (copy_single_file_sync cwd src _ f) as [f1 r1] eqn:Hc. pose proof (grown_single _ _ _ _ _ _ _ Hok0 Hs Hin Hg Hc) as Hg1.
  destruct r1; by apply IH.
Qed.

(** Nothing is below a file. *)
Lemma walk_below_file f k d n : fs_ok f → ∀ x, f !! d = Some x → x ≠ Dir → (∀ t, x ≠ Link t) → walk f true k [] (map Normal (d ++ [n])) = Err ENOTDIR.
Proof.
  intros Hok x Hx Hd Hl. assert (∀ q p, f !! (p ++ q) = Some x → q ≠ [] → walk f true k p (map Normal (q ++ [n])) = Err ENOTDIR) as Hw.
  { induction q as [|y q IH]; intros p Hp Hne; [done|]. simpl app. cbn [map]. rewrite walk_normal.
    replace (p ++ y :: q) with ((p ++ [y]) ++ q) in Hp by (by rewrite <- app_assoc). destruct (decide (q = [])) as [->|Hq].
    - rewrite app_nil_r in Hp. rewrite Hp. by destruct x as [c| |t]; [|done|destruct (Hl t)].
    - rewrite (fs_ok_prefix f (p ++ [y]) q Hok) by (rewrite ?Hp; done). by apply IH. }
  apply (Hw d []); [done|]. intros ->. rewrite (proj1 Hok) in Hx. by injection Hx as <-.
Qed.

(* ------------------------------------------------------------------ *)
(** ** The requests that change files *)

Inductive request :=
  | WriteFile (p data workspace : string)
  | RemoveEntry (p workspace : string)
  | RenameEntry (p new_name : string)
  | CopyFilesToWorkspace (file_paths : list string) (workspace : string) (source_root : option string).
Definition handle (rq : request) (s : Files) : Files :=
  match rq with
  | WriteFile p data ws => fst (write_file cwd allowed_roots p data ws s)
  | RemoveEntry p ws => fst (remove_entry cwd allowed_roots p ws s)
  | RenameEntry p n => fst (rename_entry cwd allowed_roots p n s)
  | CopyFilesToWorkspace ps ws sr => fst (copy_files_to_workspace cwd allowed_roots ps ws sr s)
  end.
(** What is renamed is not a root. *)
Definition renames_no_root (rq : request) (f : fs) : Prop :=
  match rq with
  | RenameEntry p _ => ∀ l, canonicalize f (components p) = Ok l → inside f (removelast l)
  | _ => True
  end.
Lemma files_announce ws l c op s : files (announce cwd ws l c op s) = files s.
Proof. unfold announce. by destruct (FileSystem.canonicalize _ _ _). Qed.

(** C27: A request that writes, removes, renames or copies leaves every file and directory
    outside the allowed roots as it was, whatever paths it names - provided the roots hold
    no symbolic links and no root itself is renamed. *)
Theorem requests_stay_in_the_sandbox rq s : at_home cwd (files s) → no_links (files s) → renames_no_root rq (files s) →
  unchanged_outside (files s) (files s) (files (handle rq s)).
Proof.
  intros Hh Hnl Hroot. destruct rq as [p data ws|p ws|p n|ps ws sr]; simpl in *.
  - unfold write_file. destruct (has_traversal p); [done|]. destruct (validate_path_for_write _ _ _ _) as [c|e] eqn:Hv; [|done].
    destruct (validate_for_write_sound _ _ _ _ Hh Hv) as (d&n&->&Hd&Hin). unfold write_file_sync.
    destruct (write cwd (abs (d ++ [n])) data (files s)) as [f' r] eqn:Hw.
    assert (unchanged_outside (files s) (files s) f') as Hout.
    { destruct (decide (files s !! d = Some Dir)) as [Hdir|Hfile].
      - replace f' with (fst (write cwd (abs (d ++ [n])) data (files s))) by (by rewrite Hw).
        apply write_outside; [apply Hh|done|done|]. intros t. by apply Hnl, inside_below.
      - destruct Hd as (x&Hx&Hxl). unfold write, target, abs in Hw. rewrite walk_root in Hw.
        rewrite (walk_below_file _ _ d n (proj1 Hh) x Hx) in Hw; [by injection Hw as <- _| |done]. by intros ->. }
    destruct (internal _ r) as [[]|e]; simpl; [rewrite files_announce|]; exact Hout.
  - unfold remove_entry. destruct (has_traversal p); [done|]. destruct (validate_path _ _ _ _) as [c|e] eqn:Hv; [|done].
    destruct (validate_path_sound _ _ _ _ Hh Hv) as (_&Hs&Hin). pose proof (remove_outside _ _ (proj1 Hh) Hs Hin) as Hr.
    destruct (remove_entry_sync cwd c (files s)) as [f' [[]|e]]; simpl in *; [by rewrite files_announce|done].
  - unfold rename_entry. destruct (has_traversal p); [done|]. destruct (has_separator n) eqn:Hsep; [done|].
    apply orb_false_iff in Hsep as [Hsep _]. destruct (validate_path _ _ _ _) as [c|e] eqn:Hv; [|done].
    destruct (validate_path_sound _ _ _ _ Hh Hv) as (Hc&Hs&Hin).
    pose proof (rename_outside _ _ _ (proj1 Hh) Hs Hin (Hroot c Hc) Hsep) as Hr. by destruct (rename_entry_sync cwd c n (files s)) as [f' r].
  - unfold copy_files_to_workspace. destruct (validate_path cwd (files s) ws allowed_roots) as [w|e] eqn:Hv; [|done].
    destruct (validate_path_sound _ _ _ _ Hh Hv) as (_&Hs&Hin). destruct (match sr with Some _ => _ | None => _ end) as [r|e]; [|done].
    destruct (copy_files _ _ _ _ _ _ _ _) as [f' res] eqn:Hc. apply (grown_outside _ f').
    eapply (grown_copies (files s) w r ps); [apply Hh|done|done| |exact Hc]. apply grown_refl; [apply Hh|done].
Qed.

(** What a read answers is the content of a regular file inside the allowed roots or
    the extra root of the request, of at most 256 MB, and as text it is UTF-8. *)
Lemma reads_stay_in_the_sandbox p extra f c : at_home cwd f →
  (read_file cwd allowed_roots p extra f = Ok (Some c) ∨ read_file_buffer cwd allowed_roots p extra f = Ok (Some c)) →
  ∃ l, inside_of (allowed_roots ++ option_list extra) f l ∧ f !! l = Some (File c) ∧ Z.of_nat (String.length c) <= MAX_FILE_SIZE ∧
    (read_file cwd allowed_roots p extra f = Ok (Some c) → from_utf8 (bytes c) = Some c).
Proof.
  intros Hh Hr. assert (∃ l, inside_of (allowed_roots ++ option_list extra) f l ∧ solid f l ∧ f !! l = Some (File c) ∧ is_ok (validate_file_for_read cwd f l) = true) as (l&Hin&Hs&Hl&Hok).
  { destruct Hr as [Hr|Hr]; apply read_at_Some in Hr as (l&Hv&Hrd); destruct (validate_path_sound _ _ _ _ Hh Hv) as (_&Hs&Hin); exists l.
    - destruct (read_file_sync_Some f l c (proj1 Hh) Hs Hrd) as [Hl _]. repeat (split; [done|]). unfold read_file_sync in Hrd.
      by destruct (validate_file_for_read cwd f l).
    - pose proof (read_file_buffer_sync_Some f l c (proj1 Hh) Hs Hrd) as Hl. repeat (split; [done|]). unfold read_file_buffer_sync in Hrd.
      by destruct (validate_file_for_read cwd f l). }
  exists l. split; [done|]. split; [done|]. split.
  - revert Hok. unfold validate_file_for_read. rewrite (metadata_abs cwd f l (File c) (proj1 Hh) Hl ltac:(done)).
    destruct (Z.ltb_spec MAX_FILE_SIZE (Z.of_nat (String.length c))); [done|lia].
  - intros Hf. apply read_at_Some in Hf as (l'&Hv'&Hrd'). destruct (validate_path_sound _ _ _ _ Hh Hv') as (_&Hs'&_).
    by destruct (read_file_sync_Some f l' c (proj1 Hh) Hs' Hrd').
Qed.
End sandbox.

(* ------------------------------------------------------------------ *)
(** ** Uploads *)

Section uploads.
Context (cwd : loc) (temp_dir : path).

Lemma create_dirs_keeps todo : ∀ dn f f' r, create_dirs cwd dn todo f = (f', r) → f ⊆ f'.
Proof.
  induction todo as [|c todo IH]; intros dn f f' r; simpl; [by intros [= <- <-]|].
  destruct (metadata cwd f (dn ++ [c])) as [[x| |t]|e]; [by intros [= <- <-]|by apply IH|by intros [= <- <-]|].
  destruct e; try (by intros [= <- <-]). destruct (entry cwd f (dn ++ [c])) as [l|e]; [|by intros [= <- <-]].
  destruct (f !! l) eqn:Hl; [by intros [= <- <-]|]. intros Hc. apply IH in Hc. etrans; [|exact Hc]. by apply insert_subseteq.
Qed.
Lemma create_new_cases p c f f' r : create_new cwd p c f = (f', r) →
  (∃ e, r = Err e ∧ f' = f) ∨ (r = Ok tt ∧ ∃ l, entry cwd f p = Ok l ∧ f !! l = None ∧ f' = <[l := File c]> f).
Proof.
  unfold create_new. destruct (entry cwd f p) as [l|e]; [|intros [= <- <-]; left; by exists e].
  destruct (f !! l) eqn:Hl; intros [= <- <-]; [left; by exists EEXIST|right]. split; [done|]. by exists l.
Qed.
Lemma walk_snoc f n c : ∀ k cur d l, walk f false k cur d = Ok l → f !! l = Some Dir → f !! (l ++ [n]) = Some (File c) →
  walk f false k cur (d ++ [Normal n]) = Ok (l ++ [n]).
Proof.
  induction k as [k IHk] using lt_wf_ind. intros cur d. revert cur. induction d as [|x d IH]; intros cur l Hw Hl Hn.
  - rewrite walk_nil in Hw. injection Hw as ->. simpl app. rewrite walk_normal, Hn. by rewrite bool_decide_true.
  - simpl app. destruct x as [| | |m].
    + rewrite walk_root in *. by apply IH.
    + rewrite walk_cur in *. by apply IH.
    + rewrite walk_parent in *. by apply IH.
    + rewrite walk_normal in *. destruct (f !! (cur ++ [m])) as [[y| |t]|] eqn:Hm; [|by apply IH| |done].
      * case_bool_decide; [|done]. injection Hw as <-. by rewrite Hm in Hl.
      * destruct k as [|k]; [done|]. rewrite app_assoc. apply IHk; [lia|done..].
Qed.
(** The entry of a path, once it is a file, is what the path leads to. *)
Lemma entry_reads f p l c : entry cwd f p = Ok l → f !! l = None → read cwd (<[l := File c]> f) p = Ok c.
Proof.
  unfold entry. destruct (path_parent p) as [d|] eqn:Hd; [|done]. destruct (file_name p) as [n|] eqn:Hn; [|done].
  destruct (canonicalize cwd f _) as [q|e] eqn:Hq; [|done]. cbn [res_bind]. destruct (f !! q) as [[| |]|] eqn:Hdir; try done.
  intros [= <-] Hnone. set (f' := <[q ++ [n] := File c]> f).
  assert (f' !! (q ++ [n]) = Some (File c)) as Hc by apply lookup_insert_eq.
  assert (q ++ [n] ≠ q) as Hne by (intros Heq; apply (f_equal length) in Heq; rewrite length_app in Heq; simpl in Heq; lia).
  assert (f' !! q = Some Dir) as Hdir' by (unfold f'; by rewrite lookup_insert_ne).
  assert (extends f f') as He by (apply extends_insert; by rewrite Hnone).
  apply (canonicalize_extends cwd f f' _ _ He) in Hq.
  unfold file_name in Hn. destruct (last p) as [[| | |m]|] eqn:Hlast; try done. injection Hn as ->.
  unfold path_parent in Hd. rewrite Hlast in Hd. injection Hd as <-.
  apply last_Some in Hlast as [d Hp]. subst p. rewrite removelast_last in Hq.
  unfold read, metadata. assert (canonicalize cwd f' (d ++ [Normal n]) = Ok (q ++ [n])) as ->; [|cbn [res_bind]; by rewrite Hc].
  destruct d as [|x d].
  - unfold canonicalize in Hq |- *. unfold from in *. simpl is_absolute in *. rewrite walk_cur, walk_nil in Hq. injection Hq as <-.
    simpl app. rewrite walk_normal, Hc. by rewrite bool_decide_true.
  - unfold canonicalize in Hq |- *. cbn [app]. change (x :: d ++ [Normal n]) with ((x :: d) ++ [Normal n]).
    replace (from cwd ((x :: d) ++ [Normal n])) with (from cwd (x :: d)) by (by destruct x). by eapply walk_snoc.
Qed.

(** The place of the [k]-th name for an upload. *)
Definition place (dir : path) (n : string) (k : nat) : path := join dir (components (candidate n k)).
Lemma upload_loop_spec dir n data : ∀ fuel k f f' r, upload_loop cwd fuel k dir n data f = (f', r) →
  f ⊆ f' ∧ match r with
           | Ok p => ∃ j l, (k ≤ j ≤ k + fuel)%nat ∧ p = render (place dir n j) ∧ f !! l = None ∧ f' = <[l := File data]> f ∧
                            read cwd f' (place dir n j) = Ok data ∧
                            ∀ i, (k ≤ i < j)%nat → snd (create_new cwd (place dir n i) data f) = Err EEXIST
           | Err _ => f' = f
           end.
Proof.
  induction fuel as [|fuel IH]; intros k f f' r Hu; simpl in Hu; fold (place dir n k) in Hu;
    destruct (create_new cwd (place dir n k) data f) as [f1 [[]|e]] eqn:Hc;
    destruct (create_new_cases _ _ _ _ _ Hc) as [(e'&He&->)|(He&l&Hl&Hnone&->)]; try done.
  - injection Hu as <- <-. split; [by apply insert_subseteq|]. exists k, l. split; [lia|]. split; [done|]. split; [done|]. split; [done|].
    split; [by apply entry_reads|]. intros i Hi. lia.
  - destruct e; by injection Hu as <- <-.
  - injection Hu as <- <-. split; [by apply insert_subseteq|]. exists k, l. split; [lia|]. split; [done|]. split; [done|]. split; [done|].
    split; [by apply entry_reads|]. intros i Hi. lia.
  - destruct e; try (by injection Hu as <- <-). destruct (IH _ _ _ _ Hu) as [Hsub Hr]. split; [done|]. destruct r as [p|e2]; [|done].
    destruct Hr as (j&l&Hj&Hp&Hnone&Hf&Hread&Hbefore). exists j, l. split; [lia|]. split; [done|]. split; [done|]. split; [done|]. split; [done|].
    intros i Hi. destruct (decide (i = k)) as [->|Hne]; [by rewrite Hc|]. apply Hbefore. lia.
Qed.

(** An upload overwrites nothing: whatever was there stays as it was, and the path it
    answers leads to a new file with the data, under the first of the names [n], [n(2)],
    ..., [n(1000)] that is free. *)
Lemma uploads_overwrite_nothing n data conversation_id s s' r :
  create_upload_file cwd temp_dir n data conversation_id s = (s', r) →
  files s ⊆ files s' ∧
  ∀ p, r = Ok p → ∃ sub f j l, f ⊆ files s' ∧ files s ⊆ f ∧ (1 ≤ j ≤ 1000)%nat ∧
    p = render (place (join (aionui temp_dir) (components sub)) n j) ∧ f !! l = None ∧ files s' = <[l := File data]> f ∧
    read cwd (files s') (place (join (aionui temp_dir) (components sub)) n j) = Ok data ∧
    ∀ i, (1 ≤ i < j)%nat → snd (create_new cwd (place (join (aionui temp_dir) (components sub)) n i) data f) = Err EEXIST.
Proof.
  unfold create_upload_file. destruct (String.eqb n EmptyString); [intros [= <- <-]; split; [reflexivity|intros ? [=]]|].
  destruct (has_traversal n); [intros [= <- <-]; split; [reflexivity|intros ? [=]]|]. destruct (has_separator n); [intros [= <- <-]; split; [reflexivity|intros ? [=]]|].
  match goal with |- context [match ?x with Ok _ => _ | Err _ => _ end] => destruct x as [sub|e] end; [|intros [= <- <-]; split; [reflexivity|intros ? [=]]].
  destruct (create_dir_all cwd _ (files s)) as [f1 r1] eqn:Hd. apply create_dirs_keeps in Hd. unfold internal.
  destruct r1 as [[]|e]; cbn [res_map_err]; [|intros [= <- <-]; split; [exact Hd|intros ? [=]]].
  destruct (upload_loop cwd 999 1 _ n data f1) as [f2 r2] eqn:Hu. intros [= <- <-].
  destruct (upload_loop_spec _ _ _ _ _ _ _ _ Hu) as [Hsub Hr]. cbn [files set_files]. split; [by etrans|]. intros p ->.
  destruct Hr as (j&l&Hj&Hp&Hnone&Hf&Hread&Hbefore). exists sub, f1, j, l. split_and!; [done|done|lia|lia|done|done|done|done|done].
Qed.
End uploads.

(* ------------------------------------------------------------------ *)
(** ** On a small tree *)

(** [/work] is the root; a file and a directory in it, and a file beside it. *)
Definition work : loc := ["work"].
Definition small : fs :=
  <["home" :: [] := Dir]> (<[["home"; "key"] := File "secret"]> (<[["work"; "a.txt"] := File "one"]>
    (<[["work"; "sub"] := Dir]> (<[work := Dir]> (<[[] := Dir]> ∅))))).
Definition small_files : Files := mk_files small ∅ [].
Definition roots : list path := [abs work].

Lemma small_at_home : at_home work small.
Proof.
  split; [split; [done|]|done]. intros p n [x Hx]. assert (p ++ [n] ≠ []) as Hne by (by destruct p).
  unfold small in Hx. repeat match type of Hx with
  | <[?k := _]> _ !! _ = _ =>
      destruct (decide (k = p ++ [n])) as [Heq|Hn];
      [clear Hx; first [by destruct p | change k with (removelast k ++ [List.last k ""]) in Heq; apply app_inj_2 in Heq as [<- _]; [done|done]]
      | rewrite lookup_insert_ne in Hx by done; clear Hn]
  end. by rewrite lookup_empty in Hx.
Qed.
Lemma small_no_links : no_links work roots small.
Proof.
  intros q t _ Hq. unfold small in Hq. repeat (apply lookup_insert_Some in Hq as [[_ ?]|[_ Hq]]; [done|]). by rewrite lookup_empty in Hq.
Qed.
Lemma small_inside_work q : inside_of work roots small (work ++ q).
Proof. exists (abs work), work, q. split; [by apply list_elem_of_In; left|done]. Qed.

(** A rename, a copy of a file into a directory that does not exist yet, a removal. *)
Lemma requests_stay_in_the_sandbox_witness :
  unchanged_outside work roots small small (files (handle work roots (RenameEntry "/work/a.txt" "b.txt") small_files)) ∧
  unchanged_outside work roots small small
    (files (handle work roots (CopyFilesToWorkspace ["/work/a.txt"] "/work/sub" (Some "/work")) small_files)) ∧
  files (handle work roots (RenameEntry "/work/a.txt" "b.txt") small_files) !! ["work"; "b.txt"] = Some (File "one").
Proof.
  assert (renames_no_root work roots (RenameEntry "/work/a.txt" "b.txt") small) as Hr.
  { intros l Hl. replace l with ["work"; "a.txt"] by (vm_compute in Hl; congruence). apply (small_inside_work []). }
  split; [|split].
  - exact (requests_stay_in_the_sandbox work roots (RenameEntry "/work/a.txt" "b.txt") small_files small_at_home small_no_links Hr).
  - exact (requests_stay_in_the_sandbox work roots (CopyFilesToWorkspace ["/work/a.txt"] "/work/sub" (Some "/work")) small_files
             small_at_home small_no_links I).
  - vm_compute. reflexivity.
Defined.
Lemma reads_stay_in_the_sandbox_witness :
  read_file work roots "/work/sub/../a.txt" None small = Err (AppError.BadRequest "path '/work/sub/../a.txt' contains invalid traversal patterns") ∧
  ∃ l, inside_of work (roots ++ []) small l ∧ small !! l = Some (File "one") ∧ 3 <= MAX_FILE_SIZE ∧
    (read_file work roots "/work/a.txt" None small = Ok (Some "one") → from_utf8 (bytes "one") = Some "one").
Proof.
  split; [vm_compute; reflexivity|].
  apply (reads_stay_in_the_sandbox work roots "/work/a.txt" None small "one" small_at_home).
  left. vm_compute. reflexivity.
Defined.
Lemma uploads_overwrite_nothing_witness :
  let tmp := abs ["tmp"] in
  let s0 := mk_files (<[["tmp"] := Dir]> small) ∅ [] in
  let s1 := fst (create_upload_file work tmp "x.txt" "one" None s0) in
  let s2 := fst (create_upload_file work tmp "x.txt" "two" None s1) in
  snd (create_upload_file work tmp "x.txt" "two" None s1) = Ok "/tmp/aionui/general/x(2).txt" ∧ files s1 ⊆ files s2.
Proof.
  split; [vm_compute; reflexivity|].
  match goal with |- files ?x ⊆ files (fst ?y) =>
    destruct (uploads_overwrite_nothing work (abs ["tmp"]) "x.txt" "two" None x (fst y) (snd y)) as [H _]; [|exact H] end.
  apply surjective_pairing.
Defined.

(* ------------------------------------------------------------------ *)
(** ** Where the sandbox leaks *)

(** A file is written through a link whose target lies elsewhere: the parent of the path
    is checked, the link itself is not. *)
Example write_follows_a_link :
  let s := mk_files (<[["work"; "link"] := Link (abs ["home"; "key"])]> small) ∅ [] in
  files (fst (write_file work roots "/work/link" "mine" "/work" s)) !! ["home"; "key"] = Some (File "mine").
Proof. vm_compute. reflexivity. Qed.
(** Renaming a root moves it out of itself. *)
Example a_root_is_renamed :
  files (fst (rename_entry work roots "/work" "elsewhere" small_files)) !! ["elsewhere"; "a.txt"] = Some (File "one").
Proof. vm_compute. reflexivity. Qed.
(** Removing a link removes what it leads to, and leaves the link. *)
Example removing_a_link_removes_its_target :
  let s := mk_files (<[["work"; "link"] := Link (abs ["work"; "a.txt"])]> small) ∅ [] in
  let f := files (fst (remove_entry work roots "/work/link" "/work" s)) in
  f !! ["work"; "a.txt"] = None ∧ f !! ["work"; "link"] = Some (Link (abs ["work"; "a.txt"])).
Proof. vm_compute. done. Qed.
(** A file of the workspace copied into its own workspace is emptied, and counted as copied. *)
Example copying_onto_itself_empties :
  let r := copy_files_to_workspace work roots ["/work/a.txt"] "/work" (Some "/work") small_files in
  files (fst r) !! ["work"; "a.txt"] = Some (File "") ∧ res_map copied_files (snd r) = Ok ["/work/a.txt"].
Proof. vm_compute. done. Qed.
