(* ===== verification/TaskManager.v ===== *)
(** * TaskManager: one agent per conversation

    [WorkerTaskManagerImpl] ([chisl-ai-agent/src/task_manager.rs]) and the idle scanner
    ([idle_scanner.rs]).  A slot is a [OnceCell]: the first caller runs the factory, the
    others wait for it.  Requests overlap, so the manager is a machine whose steps are the
    accesses of the map and of a cell; what the factory gives, and when, is part of the
    step.  Agents and slots are numbered in the order in which they come to be. *)

From S2P Require Import Prelude.
From S2P Require Import Text.
From S2P Require Import TeamTypes.
From S2P Require Import Common.

(** [tokio::sync::OnceCell]: the permit to initialise is held by one caller. *)
Inductive Cell := Empty | Initialising (caller : nat) | Set_ (agent : nat).
#[export] Instance cell_eq_dec : EqDecision Cell.
Proof. solve_decision. Defined.

(** A call of [get_or_build_task]: it has its slot and waits for the cell, it runs the
    factory, or it has returned. *)
Inductive Call := Waiting (slot : nat) | Building (slot : nat) | Returned (slot : nat) (r : result nat AppError.t).
Definition slot_of (c : Call) : nat := match c with Waiting i | Building i | Returned i _ => i end.

(* chisl-ai-agent/src/task_manager.rs:77-80 WorkerTaskManagerImpl *)
Record Manager := mk_manager {
  tasks : gmap string nat;
  cells : gmap nat Cell;
  (** What the machine remembers: the conversation of each slot, the calls, the agents
      that were killed with the reason, the number of agents. *)
  owner : gmap nat string; calls : gmap nat Call; killed : list (nat * option AgentKillReason.t);
  agents : nat }.
(* chisl-ai-agent/src/task_manager.rs:83-88 WorkerTaskManagerImpl::new *)
Definition new : Manager := mk_manager ∅ ∅ ∅ ∅ [] 0.

Definition set_calls x m := mk_manager (tasks m) (cells m) (owner m) x (killed m) (agents m).
Definition set_cells x m := mk_manager (tasks m) x (owner m) (calls m) (killed m) (agents m).
Definition agent_in (c : option Cell) : option nat := match c with Some (Set_ a) => Some a | _ => None end.

(* chisl-ai-agent/src/task_manager.rs:91-93 initialised_instance *)
Definition initialised_instance (conversation_id : string) (m : Manager) : option nat :=
  i ← tasks m !! conversation_id; agent_in (cells m !! i).
(* chisl-ai-agent/src/task_manager.rs:98-100 WorkerTaskManagerImpl::get_task *)
Definition get_task (conversation_id : string) (m : Manager) : option nat := initialised_instance conversation_id m.

(** The slot of a conversation, made if there is none. *)
(* chisl-ai-agent/src/task_manager.rs:111-116 get_or_build_task (slot) *)
Definition slot (conversation_id : string) (m : Manager) : nat * Manager :=
  match tasks m !! conversation_id with
  | Some i => (i, m)
  | None => let i := size (owner m) in
      (i, mk_manager (<[conversation_id := i]> (tasks m)) (<[i := Empty]> (cells m)) (<[i := conversation_id]> (owner m))
            (calls m) (killed m) (agents m))
  end.
(** The call [c] begins. *)
(* chisl-ai-agent/src/task_manager.rs:102-116 get_or_build_task *)
Definition enter (c : nat) (conversation_id : string) (m : Manager) : option Manager :=
  match calls m !! c with
  | Some _ => None
  | None => let '(i, m) := slot conversation_id m in Some (set_calls (<[c := Waiting i]> (calls m)) m)
  end.
(** [get_or_try_init]: the call returns the instance, takes the permit, or goes on waiting. *)
(* chisl-ai-agent/src/task_manager.rs:118-123 get_or_build_task (permit) *)
Definition acquire (c : nat) (m : Manager) : option Manager :=
  match calls m !! c with
  | Some (Waiting i) =>
      match cells m !! i with
      | Some (Set_ a) => Some (set_calls (<[c := Returned i (Ok a)]> (calls m)) m)
      | Some Empty => Some (set_calls (<[c := Building i]> (calls m)) (set_cells (<[i := Initialising c]> (cells m)) m))
      | _ => None
      end
  | _ => None
  end.
(** The factory returns. *)
(* chisl-ai-agent/src/task_manager.rs:122-124 get_or_build_task (result) *)
Definition built (c : nat) (r : result unit AppError.t) (m : Manager) : option Manager :=
  match calls m !! c with
  | Some (Building i) =>
      match r with
      | Ok _ => let a := agents m in
                Some (mk_manager (tasks m) (<[i := Set_ a]> (cells m)) (owner m) (<[c := Returned i (Ok a)]> (calls m)) (killed m) (S a))
      | Err e => Some (set_calls (<[c := Returned i (Err e)]> (calls m)) (set_cells (<[i := Empty]> (cells m)) m))
      end
  | _ => None
  end.
(** A request that is given up gives back its permit. *)
Definition abandon (c : nat) (m : Manager) : option Manager :=
  match calls m !! c with
  | Some (Waiting _) => Some (set_calls (delete c (calls m)) m)
  | Some (Building i) => Some (set_calls (delete c (calls m)) (set_cells (<[i := Empty]> (cells m)) m))
  | _ => None
  end.

(* chisl-ai-agent/src/task_manager.rs:126-134 WorkerTaskManagerImpl::kill *)
Definition kill (conversation_id : string) (reason : option AgentKillReason.t) (m : Manager) : Manager :=
  match tasks m !! conversation_id with
  | None => m
  | Some i =>
      let dead := match agent_in (cells m !! i) with Some a => killed m ++ [(a, reason)] | None => killed m end in
      mk_manager (delete conversation_id (tasks m)) (cells m) (owner m) (calls m) dead (agents m)
  end.
(** Waiting for the end of the process is left out. *)
(* chisl-ai-agent/src/task_manager.rs:136-148 WorkerTaskManagerImpl::kill_and_wait *)
Definition kill_and_wait := kill.
(** The keys are collected first. *)
(* chisl-ai-agent/src/task_manager.rs:150-160 WorkerTaskManagerImpl::clear *)
Definition clear_keys (keys : list string) (m : Manager) : Manager := foldl (λ m k, kill k None m) m keys.
Definition clear (m : Manager) : Manager := clear_keys (map_to_list (tasks m)).*1 m.
(* chisl-ai-agent/src/task_manager.rs:162-164 WorkerTaskManagerImpl::active_count *)
Definition active_count (m : Manager) : nat :=
  length (List.filter (λ kv, bool_decide (is_Some (agent_in (cells m !! snd kv)))) (map_to_list (tasks m))).
(* chisl-ai-agent/src/task_manager.rs:188-196 on_conversation_deleted *)
Definition on_conversation_deleted (conversation_id : string) (m : Manager) : Manager :=
  kill conversation_id (Some AgentKillReason.ConversationDeleted) m.

(** What an agent tells about itself. *)
Record AgentInfo := mk_info { agent_type : AgentType.t; status : option ConversationStatus.t; last_activity_at : Z }.
Definition is_idle (now idle_threshold_ms : Z) (x : AgentInfo) : bool :=
  bool_decide (agent_type x = AgentType.Acp) && bool_decide (status x = Some ConversationStatus.Finished) &&
  (idle_threshold_ms <? now - last_activity_at x).
(* chisl-ai-agent/src/task_manager.rs:166-179 WorkerTaskManagerImpl::collect_idle *)
Definition collect_idle (info : nat → AgentInfo) (now idle_threshold_ms : Z) (m : Manager) : list string :=
  omap (λ kv, a ← agent_in (cells m !! snd kv); if is_idle now idle_threshold_ms (info a) then Some (fst kv) else None)
    (map_to_list (tasks m)).

(* chisl-ai-agent/src/idle_scanner.rs:10-10 DEFAULT_IDLE_TIMEOUT_SECS *)
Definition DEFAULT_IDLE_TIMEOUT_SECS : Z := 5 * 60.
(* chisl-ai-agent/src/idle_scanner.rs:13-13 SCAN_INTERVAL_SECS *)
Definition SCAN_INTERVAL_SECS : Z := 60.
(** The ids were collected by [collect_idle] in an earlier state. *)
Definition kill_idle (ids : list string) (m : Manager) : Manager := foldl (λ m k, kill k (Some AgentKillReason.IdleTimeout) m) m ids.
(* chisl-ai-agent/src/idle_scanner.rs:57-76 scan_and_cleanup *)
Definition scan_and_cleanup (info : nat → AgentInfo) (now threshold_ms : Z) (m : Manager) : Manager :=
  kill_idle (collect_idle info now threshold_ms m) m.
(** What wakes the scanner: its interval, or the shutdown signal with its value. *)
Inductive wakeup := Tick (info : nat → AgentInfo) (now : Z) | Shutdown (value : bool).
(* chisl-ai-agent/src/idle_scanner.rs:21-54 start_idle_scanner *)
Fixpoint start_idle_scanner (idle_timeout_secs : option Z) (events : list wakeup) (m : Manager) : Manager :=
  match events with
  | [] | Shutdown true :: _ => m
  | Shutdown false :: events => start_idle_scanner idle_timeout_secs events m
  | Tick info now :: events =>
      start_idle_scanner idle_timeout_secs events
        (scan_and_cleanup info now (default DEFAULT_IDLE_TIMEOUT_SECS idle_timeout_secs * 1000) m)
  end.

(* ------------------------------------------------------------------ *)
(** ** The machine *)

Inductive op :=
| Enter (c : nat) (k : string) | Acquire (c : nat) | Built (c : nat) (r : result unit AppError.t) | GiveUp (c : nat)
| Kill (k : string) (reason : option AgentKillReason.t).
(** [None]: the step is not possible. *)
Definition exec (o : op) (m : Manager) : option Manager :=
  match o with
  | Enter c k => enter c k m | Acquire c => acquire c m | Built c r => built c r m | GiveUp c => abandon c m
  | Kill k reason => Some (kill k reason m)
  end.
Fixpoint run (ops : list op) (m : Manager) : option Manager :=
  match ops with [] => Some m | o :: ops => m ← exec o m; run ops m end.
Lemma manager_run_app ops ops' m : run (ops ++ ops') m = (run ops m ≫= run ops').
Proof. revert m. induction ops as [|o ops IH]; intros m; simpl; [done|]. by destruct (exec o m); simpl. Qed.
Lemma manager_run_snoc ops o m : run (ops ++ [o]) m = (run ops m ≫= exec o).
Proof. rewrite manager_run_app. destruct (run ops m); [|done]. simpl. by destruct (exec o m0). Qed.

Definition known (m : Manager) (k : string) (i : nat) : Prop := tasks m !! k = Some i.
Record ok (m : Manager) : Prop := {
  ok_dense : ∀ i, is_Some (owner m !! i) ↔ (i < size (owner m))%nat;
  ok_cells : ∀ i, is_Some (cells m !! i) ↔ is_Some (owner m !! i);
  ok_tasks : ∀ k i, known m k i → owner m !! i = Some k;
  ok_calls : ∀ c x, calls m !! c = Some x → is_Some (owner m !! slot_of x);
  ok_building : ∀ c i, calls m !! c = Some (Building i) ↔ cells m !! i = Some (Initialising c);
  ok_agents : ∀ i a, cells m !! i = Some (Set_ a) → (a < agents m)%nat;
  ok_unique : ∀ i j a, cells m !! i = Some (Set_ a) → cells m !! j = Some (Set_ a) → i = j;
  ok_somewhere : ∀ a, (a < agents m)%nat → ∃ i, cells m !! i = Some (Set_ a);
  ok_returned : ∀ c i a, calls m !! c = Some (Returned i (Ok a)) → cells m !! i = Some (Set_ a);
  ok_killed : ∀ a r, (a, r) ∈ killed m → ∃ i k, cells m !! i = Some (Set_ a) ∧ owner m !! i = Some k ∧ ¬ known m k i }.

Lemma manager_new_ok : ok new.
Proof.
  split; cbn [new tasks cells owner calls killed agents known]; intros *;
    rewrite ?lookup_empty, ?map_size_empty, ?is_Some_alt; try done; try lia; [naive_solver lia..|].
  by intros ?%elem_of_nil.
Qed.

Lemma kill_ok k reason m : ok m → ok (kill k reason m).
Proof.
  intros I. unfold kill. destruct (tasks m !! k) as [i|] eqn:Hk; [|done].
  assert (∀ k' j, known (mk_manager (delete k (tasks m)) (cells m) (owner m) (calls m) (killed m) (agents m)) k' j → known m k' j) as Hless.
  { intros k' j. unfold known. cbn [tasks]. rewrite lookup_delete_Some. tauto. }
  destruct I. split; try done; cbn [tasks cells owner calls killed agents].
  - intros k' j Hj. apply ok_tasks0, Hless, Hj.
  - intros a r Har. assert ((a, r) ∈ killed m ∨ cells m !! i = Some (Set_ a)) as [Hin|Hc].
    { destruct (cells m !! i) as [[| |b]|]; cbn [agent_in] in Har; [by left..| |by left].
      apply elem_of_app in Har as [?|[= -> ->]%list_elem_of_singleton]; [by left|by right]. }
    + destruct (ok_killed0 a r Hin) as (j&k'&Hj&Ho&Hn). exists j, k'. split_and!; [done|done|]. intros Hj'. by apply Hn, Hless.
    + exists i, k. split_and!; [done|by apply ok_tasks0|]. unfold known. cbn [tasks]. by rewrite lookup_delete_eq.
Qed.

(** A new slot. *)
Lemma slot_ok k m : ok m → ok (snd (slot k m)) ∧ known (snd (slot k m)) k (fst (slot k m)) ∧ calls (snd (slot k m)) = calls m.
Proof.
  intros I. unfold slot. destruct (tasks m !! k) as [i|] eqn:Hk; [done|].
  set (i := size (owner m)).
  assert (owner m !! i = None) as Hown.
  { apply eq_None_not_Some. rewrite (ok_dense _ I). unfold i. lia. }
  assert (cells m !! i = None) as Hcell.
  { apply eq_None_not_Some. rewrite (ok_cells _ I), Hown. by intros [? ?]. }
  assert (∀ j c, <[i:=Empty]> (cells m) !! j = Some c → (j = i ∧ c = Empty) ∨ (j ≠ i ∧ cells m !! j = Some c)) as Hinv.
  { intros j c. rewrite lookup_insert_Some. naive_solver. }
  cbn [fst snd]. split; [|split; [|done]]; [|by unfold known; cbn [tasks]; rewrite lookup_insert_eq]. destruct I.
  split; cbn [tasks cells owner calls killed agents].
  - intros j. rewrite map_size_insert_None by done. fold i. destruct (decide (j = i)) as [->|Hne].
    + rewrite lookup_insert_eq. split; [lia|done].
    + rewrite lookup_insert_ne, ok_dense0 by done. unfold i in *. lia.
  - intros j. rewrite !lookup_insert_is_Some. specialize (ok_cells0 j). tauto.
  - intros k' j. unfold known. cbn [tasks]. rewrite lookup_insert_Some. intros [[<- <-]|[Hne Hj]]; [by rewrite lookup_insert_eq|].
    assert (owner m !! j = Some k') as Hj' by (by apply ok_tasks0). rewrite lookup_insert_ne; [done|]. intros <-. congruence.
  - intros c x Hx. rewrite lookup_insert_is_Some. right. split; [|by apply (ok_calls0 c)].
    intros Heq. specialize (ok_calls0 c x Hx). rewrite <- Heq, Hown in ok_calls0. by destruct ok_calls0.
  - intros c j. rewrite ok_building0. destruct (decide (j = i)) as [->|Hne].
    + rewrite Hcell, lookup_insert_eq. done.
    + by rewrite lookup_insert_ne.
  - intros j a [[_ ?]|[_ Hj]]%Hinv; [done|]. by apply (ok_agents0 j).
  - intros j j' a [[_ ?]|[_ Hj]]%Hinv [[_ ?]|[_ Hj']]%Hinv; [done..|]. by apply (ok_unique0 j j' a).
  - intros a Ha. destruct (ok_somewhere0 a Ha) as (j&Hj). exists j. rewrite lookup_insert_ne; [done|]. intros <-. congruence.
  - intros c j a Hc. specialize (ok_returned0 c j a Hc). rewrite lookup_insert_ne; [done|]. intros <-. congruence.
  - intros a r Har. destruct (ok_killed0 a r Har) as (j&k'&Hj&Ho&Hn). exists j, k'.
    assert (i ≠ j) as Hij by (intros <-; congruence). rewrite !lookup_insert_ne by done. split_and!; [done|done|].
    unfold known. cbn [tasks]. rewrite lookup_insert_Some. intros [[_ ?]|[_ ?]]; [done|]. by apply Hn.
Qed.

Lemma enter_ok c k m m' : ok m → enter c k m = Some m' → ok m'.
Proof.
  unfold enter. intros I. destruct (calls m !! c) eqn:Hc; [done|]. destruct (slot_ok k m I) as (I'&Hk&Hcalls).
  destruct (slot k m) as [i m1]. cbn [fst snd] in *. intros [= <-].
  assert (owner m1 !! i = Some k) as Ho by (by apply (ok_tasks _ I')). rewrite <- Hcalls in Hc.
  destruct I'. split; cbn [set_calls tasks cells owner calls killed agents]; try done.
  - intros c' x. rewrite lookup_insert_Some. intros [[_ <-]|[_ Hx]]; [by eexists|]. by apply (ok_calls0 c').
  - intros c' j. rewrite <- ok_building0, lookup_insert_Some. split; [intros [[_ ?]|[_ ?]]; done|].
    intros Hc'. right. split; [|done]. intros ->. congruence.
  - intros c' j a. rewrite lookup_insert_Some. intros [[_ ?]|[_ ?]]; [done|]. by apply (ok_returned0 c').
Qed.


(** A step of the call [c] on the cell [i] that it waits for or initialises. *)
Lemma cell_step_ok m c i old x next n : ok m → calls m !! c = Some old → slot_of old = i →
  (cells m !! i = Some Empty ∨ cells m !! i = Some (Initialising c)) →
  (∀ y, next = Some y → slot_of y = i) → (next = Some (Building i) ↔ x = Initialising c) → (∀ c', x = Initialising c' → c' = c) →
  (∀ a, next = Some (Returned i (Ok a)) → x = Set_ a) →
  match x with Set_ a => a = agents m ∧ n = S (agents m) | _ => n = agents m end →
  ok (mk_manager (tasks m) (<[i := x]> (cells m)) (owner m) (partial_alter (λ _, next) c (calls m)) (killed m) n).
Proof.
  intros I Hold Hslot Hcell Hnext Hbuild Hinit Hret Hagent.
  assert (∀ a, cells m !! i ≠ Some (Set_ a)) as Hnset by (intros a; destruct Hcell as [->| ->]; done).
  assert (agents m ≤ n)%nat as Hn by (destruct x as [| |a]; try lia; destruct Hagent; lia).
  assert (∀ j a, cells m !! j = Some (Set_ a) → <[i:=x]> (cells m) !! j = Some (Set_ a)) as Hkeep.
  { intros j a Hj. rewrite lookup_insert_ne; [done|]. intros <-. by apply Hnset in Hj. }
  assert (∀ j a, <[i:=x]> (cells m) !! j = Some (Set_ a) → (j = i ∧ x = Set_ a) ∨ cells m !! j = Some (Set_ a)) as Hinv.
  { intros j a. rewrite lookup_insert_Some. naive_solver. }
  assert (is_Some (owner m !! i)) as Hown by (rewrite <- Hslot; by apply (ok_calls _ I c)).
  destruct I. split; cbn [tasks cells owner calls killed agents]; try done.
  - intros j. rewrite lookup_insert_is_Some, ok_cells0. destruct (decide (i = j)) as [<-|]; tauto.
  - intros c' y. destruct (decide (c' = c)) as [->|Hne].
    + rewrite lookup_partial_alter_eq. intros Hy. by rewrite (Hnext y Hy).
    + rewrite lookup_partial_alter_ne by done. apply ok_calls0.
  - intros c' j. destruct (decide (c' = c)) as [->|Hne], (decide (j = i)) as [->|Hij].
    + rewrite lookup_partial_alter_eq, lookup_insert_eq, Hbuild. split; [by intros ->|by intros [= ->]].
    + rewrite lookup_partial_alter_eq, lookup_insert_ne by done. split.
      * intros Hb. by specialize (Hnext _ Hb).
      * intros Hj%ok_building0. rewrite Hold in Hj. injection Hj as ->. simpl in Hslot. congruence.
    + rewrite lookup_partial_alter_ne, lookup_insert_eq by done. split.
      * intros Hj%ok_building0. destruct Hcell as [Hc|Hc]; rewrite Hc in Hj; [done|]. by injection Hj as ->.
      * intros [= ->]. by destruct Hne; apply Hinit.
    + rewrite lookup_partial_alter_ne, lookup_insert_ne by done. apply ok_building0.
  - intros j a [[_ ->]|Hj]%Hinv; [destruct Hagent; lia|]. specialize (ok_agents0 j a Hj). lia.
  - intros j j' a [[-> ->]|Hj]%Hinv [[-> ?]|Hj']%Hinv; [done|..|by apply (ok_unique0 j j' a)].
    + destruct Hagent as [-> _]. specialize (ok_agents0 j' _ Hj'). lia.
    + subst x. destruct Hagent as [-> _]. specialize (ok_agents0 j _ Hj). lia.
  - intros a Ha. destruct (decide (a < agents m)%nat) as [Hl|Hl].
    + destruct (ok_somewhere0 a Hl) as (j&Hj). exists j. by apply Hkeep.
    + exists i. destruct x as [| |a']; [lia..|]. destruct Hagent as [-> ->]. rewrite lookup_insert_eq. do 2 f_equal. lia.
  - intros c' j a. destruct (decide (c' = c)) as [->|Hne].
    + rewrite lookup_partial_alter_eq. intros Hy. pose proof (Hnext _ Hy) as Hj. simpl in Hj. subst j.
      by rewrite lookup_insert_eq, (Hret a Hy).
    + rewrite lookup_partial_alter_ne by done. intros Hc'. by apply Hkeep, (ok_returned0 c').
  - intros a r Har. destruct (ok_killed0 a r Har) as (j&k&Hj&Ho&Hk). exists j, k. split_and!; [by apply Hkeep|done|done].
Qed.

Lemma insert_as_alter {A} (c : nat) (y : A) (m : gmap nat A) : <[c := y]> m = partial_alter (λ _, Some y) c m.
Proof. done. Qed.
Lemma delete_as_alter {A} (c : nat) (m : gmap nat A) : delete c m = partial_alter (λ _, None) c m.
Proof. done. Qed.

Lemma acquire_ok c m m' : ok m → acquire c m = Some m' → ok m'.
Proof.
  unfold acquire. intros I. destruct (calls m !! c) as [[i|i|i r]|] eqn:Hc; try done.
  destruct (cells m !! i) as [[|c'|a]|] eqn:Hi; try done; intros [= <-].
  - refine (cell_step_ok m c i (Waiting i) (Initialising c) (Some (Building i)) _ I Hc eq_refl (or_introl Hi) _ _ _ _ eq_refl);
      try naive_solver.
  - destruct I. split; cbn [set_calls tasks cells owner calls killed agents]; try done.
    + intros c' x. rewrite lookup_insert_Some. intros [[_ <-]|[_ Hx]]; [by apply (ok_calls0 c _ Hc)|by apply (ok_calls0 c')].
    + intros c' j. rewrite <- ok_building0, lookup_insert_Some. split; [intros [[_ ?]|[_ ?]]; done|].
      intros Hc'. right. split; [|done]. intros ->. congruence.
    + intros c' j b. rewrite lookup_insert_Some. intros [[_ [= <- <-]]|[_ ?]]; [done|by apply (ok_returned0 c')].
Qed.
Lemma built_ok c r m m' : ok m → built c r m = Some m' → ok m'.
Proof.
  unfold built. intros I. destruct (calls m !! c) as [[i|i|i ?]|] eqn:Hc; try done.
  pose proof (proj1 (ok_building _ I c i) Hc) as Hi. destruct r as [u|e]; intros [= <-].
  - refine (cell_step_ok m c i (Building i) (Set_ (agents m)) (Some (Returned i (Ok (agents m)))) _ I Hc eq_refl (or_intror Hi) _ _ _ _ (conj eq_refl eq_refl));
      try naive_solver.
  - refine (cell_step_ok m c i (Building i) Empty (Some (Returned i (Err e))) _ I Hc eq_refl (or_intror Hi) _ _ _ _ eq_refl);
      try naive_solver.
Qed.
Lemma abandon_ok c m m' : ok m → abandon c m = Some m' → ok m'.
Proof.
  unfold abandon. intros I. destruct (calls m !! c) as [[i|i|i ?]|] eqn:Hc; try done; intros [= <-].
  - destruct I. split; cbn [set_calls tasks cells owner calls killed agents]; try done.
    + intros c' x. rewrite lookup_delete_Some. intros [_ Hx]. by apply (ok_calls0 c').
    + intros c' j. rewrite <- ok_building0, lookup_delete_Some. split; [tauto|]. intros Hc'. split; [|done]. intros ->. congruence.
    + intros c' j b. rewrite lookup_delete_Some. intros [_ ?]. by apply (ok_returned0 c').
  - pose proof (proj1 (ok_building _ I c i) Hc) as Hi.
    refine (cell_step_ok m c i (Building i) Empty None _ I Hc eq_refl (or_intror Hi) _ _ _ _ eq_refl); try naive_solver.
Qed.
Lemma manager_exec_ok o m m' : ok m → exec o m = Some m' → ok m'.
Proof.
  intros I. destruct o; simpl; [by apply enter_ok|by apply acquire_ok|by apply built_ok|by apply abandon_ok|].
  intros [= <-]. by apply kill_ok.
Qed.
Lemma manager_run_ok ops : ∀ m m', ok m → run ops m = Some m' → ok m'.
Proof.
  induction ops as [|o ops IH]; intros m m' I; simpl; [by intros [= <-]|]. destruct (exec o m) as [m1|] eqn:Ho; [|done]. simpl.
  apply IH. by apply (manager_exec_ok o m).
Qed.

(* ------------------------------------------------------------------ *)
(** ** One agent per conversation *)

Definition agent_of (m : Manager) (k : string) (a : nat) : Prop := ∃ i, owner m !! i = Some k ∧ cells m !! i = Some (Set_ a).
Definition live (m : Manager) (a : nat) : Prop := a ∉ (killed m).*1.
(** No call of the slot is under way. *)
Definition unused (m : Manager) (i : nat) : Prop := ∀ c x, calls m !! c = Some x → slot_of x = i → ∃ r, x = Returned i r.
(** The agent of the conversation is there, or nobody is about to build it. *)
Definition settled (m : Manager) (k : string) : Prop :=
  ∀ i, known m k i → is_Some (agent_in (cells m !! i)) ∨ unused m i.

(** A slot that is not in the map any more is done with. *)
Definition gone (m : Manager) (i : nat) : Prop :=
  (∃ a, cells m !! i = Some (Set_ a) ∧ ¬ live m a) ∨ (agent_in (cells m !! i) = None ∧ unused m i).
Definition accounted (m : Manager) (k : string) : Prop := ∀ i, owner m !! i = Some k → known m k i ∨ gone m i.

(** A step of a call touches no slot that is gone. *)
Lemma step_gone m m' c x y i : calls m !! c = Some x → (∀ r, x ≠ Returned (slot_of x) r) →
  (∀ j, j ≠ slot_of x → cells m' !! j = cells m !! j) → (cells m !! slot_of x = cells m' !! slot_of x ∨ agent_in (cells m !! slot_of x) = None) →
  (calls m' = <[c := y]> (calls m) ∧ slot_of y = slot_of x ∨ calls m' = delete c (calls m)) → killed m' = killed m → gone m i → gone m' i.
Proof.
  intros Hc Hx Hcells Hsame Hcalls Hkilled [(a&Ha&Hd)|[Hn Hu]].
  - left. exists a. unfold live. rewrite Hkilled. split; [|done]. destruct (decide (i = slot_of x)) as [->|Hne]; [|by rewrite Hcells].
    destruct Hsame as [<-|Hnone]; [done|]. by rewrite Ha in Hnone.
  - assert (i ≠ slot_of x) as Hne.
    { intros ->. destruct (Hu c x Hc eq_refl) as [r Hr]. by apply (Hx r). }
    right. rewrite Hcells by done. split; [done|]. intros c' z Hz Hs. destruct Hcalls as [[Hcalls Hy]|Hcalls]; rewrite Hcalls in Hz.
    + apply lookup_insert_Some in Hz as [[_ <-]|[_ Hz]]; [congruence|by apply (Hu c')].
    + apply lookup_delete_Some in Hz as [_ Hz]. by apply (Hu c').
Qed.

Lemma acquire_gone c m m' i : acquire c m = Some m' → gone m i → gone m' i.
Proof.
  unfold acquire. destruct (calls m !! c) as [[j|j|j r]|] eqn:Hc; try done.
  destruct (cells m !! j) as [[|c'|a]|] eqn:Hj; try done; intros [= <-].
  - eapply (step_gone m _ c (Waiting j) (Building j)); try done; cbn [set_calls set_cells cells calls killed slot_of]; [by intros j' Hj'; rewrite lookup_insert_ne|by right; rewrite Hj|by left].
  - eapply (step_gone m _ c (Waiting j) (Returned j (Ok a))); try done; by left.
Qed.
Lemma built_gone c r m m' i : ok m → built c r m = Some m' → gone m i → gone m' i.
Proof.
  unfold built. intros I. destruct (calls m !! c) as [[j|j|j ?]|] eqn:Hc; try done.
  pose proof (proj1 (ok_building _ I c j) Hc) as Hj. destruct r as [u|e]; intros [= <-].
  - eapply (step_gone m _ c (Building j) (Returned j (Ok (agents m)))); try done; cbn [cells calls slot_of]; [by intros j' Hj'; rewrite lookup_insert_ne|by right; rewrite Hj|by left].
  - eapply (step_gone m _ c (Building j) (Returned j (Err e))); try done; cbn [set_calls set_cells cells calls slot_of]; [by intros j' Hj'; rewrite lookup_insert_ne|by right; rewrite Hj|by left].
Qed.
Lemma give_up_gone c m m' i : ok m → abandon c m = Some m' → gone m i → gone m' i.
Proof.
  unfold abandon. intros I. destruct (calls m !! c) as [[j|j|j ?]|] eqn:Hc; try done; intros [= <-].
  - eapply (step_gone m _ c (Waiting j) (Waiting j)); try done; [by left|by right].
  - pose proof (proj1 (ok_building _ I c j) Hc) as Hj.
    eapply (step_gone m _ c (Building j) (Building j)); try done; cbn [set_calls set_cells cells calls slot_of]; [by intros j' Hj'; rewrite lookup_insert_ne|by right; rewrite Hj|by right].
Qed.

Lemma enter_accounted c k' k m m' : ok m → enter c k' m = Some m' → accounted m k → accounted m' k.
Proof.
  unfold enter. intros I. destruct (calls m !! c) eqn:Hc; [done|]. pose proof (slot_ok k' m I) as (I'&Hk&_). revert I' Hk.
  unfold slot. intros I' Hk Hm HA i Hi. destruct (tasks m !! k') as [j|] eqn:Hj; injection Hm as <-; cbn [fst snd] in *.
  - destruct (HA i Hi) as [Hkn|Hg]; [by left|]. destruct (decide (i = j)) as [->|Hne].
    + left. pose proof (ok_tasks _ I k' j Hj) as Ho. cbn [owner set_calls] in Hi. rewrite Hi in Ho. by injection Ho as ->.
    + right. destruct Hg as [(a&Ha)|[Hn Hu]]; [left; by exists a|right]. split; [done|].
      intros c' x. cbn [set_calls calls]. rewrite lookup_insert_Some. intros [[_ <-]|[_ Hx]]; [intros Heq; simpl in Heq; congruence|by apply (Hu c')].
  - set (j := size (owner m)) in *. cbn [set_calls owner] in Hi. apply lookup_insert_Some in Hi as [[<- <-]|[Hne Hi]]; [by left|].
    destruct (HA i Hi) as [Hkn|Hg].
    + left. unfold known in *. cbn [set_calls tasks]. rewrite lookup_insert_ne; [done|]. intros ->. congruence.
    + right. destruct Hg as [(a&Ha&Hd)|[Hn Hu]].
      * left. exists a. cbn [set_calls cells]. by rewrite lookup_insert_ne.
      * right. cbn [set_calls cells calls]. rewrite lookup_insert_ne by done. split; [done|].
        intros c' x. cbn [set_calls calls]. rewrite lookup_insert_Some. intros [[_ <-]|[_ Hx]]; [intros Heq; simpl in Heq; congruence|by apply (Hu c')].
Qed.
Lemma kill_accounted k' r k m : ok m → (k' = k → settled m k) → accounted m k → accounted (kill k' r m) k.
Proof.
  intros I Hset HA i. unfold kill. destruct (tasks m !! k') as [j|] eqn:Hj; [|apply HA].
  set (dead := match agent_in (cells m !! j) with Some a => _ | None => _ end). cbn [owner]. intros Hi.
  assert (∀ a, ¬ live m a → a ∈ dead.*1) as Hmore.
  { intros a Ha. apply dec_stable in Ha. unfold dead. destruct (agent_in _); [|done]. rewrite fmap_app. apply elem_of_app. by left. }
  assert (gone m i → gone (mk_manager (delete k' (tasks m)) (cells m) (owner m) (calls m) dead (agents m)) i) as Hgone.
  { intros [(a&Ha&Hd)|Hd]; [|by right]. left. exists a. split; [done|]. unfold live. cbn [killed]. intros Hn. by apply Hn, Hmore. }
  destruct (HA i Hi) as [Hk|Hg]; [|right; by apply Hgone].
  destruct (decide (k' = k)) as [->|Hne]; [|left; unfold known in *; cbn [tasks]; by rewrite lookup_delete_ne].
  right. unfold known in Hk. rewrite Hj in Hk. injection Hk as ->.
  destruct (agent_in (cells m !! i)) as [a|] eqn:Ha; [|right; cbn [cells]; split; [done|]].
  - left. exists a. cbn [cells]. split; [|unfold live; cbn [killed]; intros Hn; apply Hn; unfold dead; rewrite fmap_app; apply elem_of_app; right; by left].
    destruct (cells m !! i) as [[| |b]|]; simpl in Ha; try done. by injection Ha as ->.
  - destruct (Hset eq_refl i Hj) as [[b Hb]|Hu]; [congruence|]. exact Hu.
Qed.

Lemma unchanged_accounted m m' k : owner m' = owner m → tasks m' = tasks m → (∀ i, gone m i → gone m' i) → accounted m k → accounted m' k.
Proof. intros Ho Ht Hg HA i. rewrite Ho. intros Hi. destruct (HA i Hi) as [Hk|Hd]; [left; unfold known in *; by rewrite Ht|right; by apply Hg]. Qed.
Lemma acquire_frame c m m' : acquire c m = Some m' → owner m' = owner m ∧ tasks m' = tasks m.
Proof. unfold acquire. repeat case_match; try done; by intros [= <-]. Qed.
Lemma built_frame c r m m' : built c r m = Some m' → owner m' = owner m ∧ tasks m' = tasks m.
Proof. unfold built. repeat case_match; try done; by intros [= <-]. Qed.
Lemma give_up_frame c m m' : abandon c m = Some m' → owner m' = owner m ∧ tasks m' = tasks m.
Proof. unfold abandon. repeat case_match; try done; by intros [= <-]. Qed.
Lemma exec_accounted o k m m' : ok m → exec o m = Some m' → (∀ r, o = Kill k r → settled m k) → accounted m k → accounted m' k.
Proof.
  intros I Ho Hset. destruct o as [c k'|c|c r|c|k' r]; simpl in Ho.
  - by apply (enter_accounted c k').
  - destruct (acquire_frame _ _ _ Ho). apply unchanged_accounted; [done..|]. intros i. by apply (acquire_gone c).
  - destruct (built_frame _ _ _ _ Ho). apply unchanged_accounted; [done..|]. intros i. by apply (built_gone c r).
  - destruct (give_up_frame _ _ _ Ho). apply unchanged_accounted; [done..|]. intros i. by apply (give_up_gone c).
  - injection Ho as <-. apply kill_accounted; [done|]. intros ->. by apply (Hset r).
Qed.

(** Every kill of the conversation in the history found its agent built or no call under way. *)
Definition kills_settled (ops : list op) (k : string) : Prop :=
  ∀ pre r post m, ops = pre ++ Kill k r :: post → run pre new = Some m → settled m k.

Lemma run_accounted k ops : ∀ m, kills_settled ops k → run ops new = Some m → accounted m k.
Proof.
  induction ops as [|o ops IH] using rev_ind; intros m Hk; [by intros [= <-] i; cbn [new owner]; rewrite lookup_empty|].
  rewrite manager_run_snoc. destruct (run ops new) as [m1|] eqn:Hr; [|done]. simpl. intros Ho.
  apply (exec_accounted o k m1 m); [by apply (manager_run_ok ops new); [apply manager_new_ok|]|done| |].
  - intros r ->. by apply (Hk ops r [] m1).
  - apply IH; [|done]. intros pre r post m' -> Hpre. apply (Hk pre r (post ++ [o]) m'); [by rewrite <- app_assoc|done].
Qed.

(** C23: as long as no kill of a conversation falls into the building of its agent, the
    conversation has at most one live agent, whatever requests overlap, fail, are given up
    or kill it: it is the one [get_task] finds, and every request that was given an agent
    still living was given this one. *)
Theorem one_agent_per_conversation ops m k : run ops new = Some m → kills_settled ops k →
  (∀ a, agent_of m k a → live m a → get_task k m = Some a) ∧
  (∀ c i a, calls m !! c = Some (Returned i (Ok a)) → owner m !! i = Some k → live m a → get_task k m = Some a).
Proof.
  intros Hr Hk. pose proof (run_accounted k ops m Hk Hr) as HA. assert (ok m) as I by (by apply (manager_run_ok ops new); [apply manager_new_ok|]).
  assert (∀ a, agent_of m k a → live m a → get_task k m = Some a) as Hone.
  { intros a (i&Ho&Hi) Hl. unfold get_task, initialised_instance. destruct (HA i Ho) as [Hkn|[(b&Hb&Hd)|[Hn _]]].
    - unfold known in Hkn. rewrite Hkn. simpl. by rewrite Hi.
    - rewrite Hi in Hb. by injection Hb as <-.
    - by rewrite Hi in Hn. }
  split; [done|]. intros c i a Hc Ho Hl. apply Hone; [|done]. exists i. split; [done|]. by apply (ok_returned _ I c).
Qed.

(** A call that waits can go on, or the call that builds for it can. *)
Lemma waiting_call_progresses ops m c i : run ops new = Some m → calls m !! c = Some (Waiting i) →
  is_Some (acquire c m) ∨ ∃ c', ∀ r, is_Some (built c' r m).
Proof.
  intros Hr Hc. assert (ok m) as I by (by apply (manager_run_ok ops new); [apply manager_new_ok|]).
  destruct (proj2 (ok_cells _ I i) (ok_calls _ I c _ Hc)) as [x Hx]. unfold acquire. rewrite Hc, Hx. destruct x as [|c'|a]; [by left; eexists| |by left; eexists].
  right. exists c'. intros r. unfold built. rewrite (proj2 (ok_building _ I c' i) Hx). by destruct r.
Qed.

Definition two_requests : list op :=
  [Enter 0 "c1"; Enter 1 "c1"; Acquire 0; Built 0 (Err (AppError.Internal "no")); Acquire 1; Built 1 (Ok tt); Kill "c2" None].
Lemma one_agent_per_conversation_witness :
  ∃ m, run two_requests new = Some m ∧ agent_of m "c1" 0 ∧ live m 0 ∧ get_task "c1" m = Some 0%nat.
Proof.
  eexists. split; [vm_compute; reflexivity|]. match goal with |- agent_of ?m _ _ ∧ _ => set (m0 := m) end.
  assert (agent_of m0 "c1" 0) as Ha by (exists 0%nat; done).
  assert (live m0 0) as Hl by (apply not_elem_of_nil). split; [exact Ha|]. split; [exact Hl|].
  refine (proj1 (one_agent_per_conversation two_requests m0 "c1" _ _) 0%nat Ha Hl); [vm_compute; reflexivity|].
  intros pre r post m Heq _. exfalso. unfold two_requests in Heq.
  repeat (destruct pre as [|? pre]; [discriminate|injection Heq as _ Heq]). by destruct pre.
Defined.

(** A kill that falls into the building of an agent does not reach it: the agent runs on,
    unknown to the manager, and the next request builds a second one. *)
Lemma kill_during_build_leaks :
  ∃ m, run [Enter 0 "c1"; Acquire 0; Kill "c1" (Some AgentKillReason.ConversationDeleted); Built 0 (Ok tt);
            Enter 1 "c1"; Acquire 1; Built 1 (Ok tt)] new = Some m ∧
    agent_of m "c1" 0 ∧ agent_of m "c1" 1 ∧ live m 0 ∧ live m 1 ∧ get_task "c1" m = Some 1%nat.
Proof.
  eexists. split; [vm_compute; reflexivity|].
  split_and!; [by exists 0%nat|by exists 1%nat|apply not_elem_of_nil|apply not_elem_of_nil|done].
Qed.
