(* ===== verification/AcpState.v ===== *)
(** * AcpState: the state of a session with an agent that speaks ACP

    [manager/acp/session.rs] of [chisl-ai-agent]: what the user wants ([Desired]), what
    the agent last reported ([Observed]), what it offers ([Advertised]), and the domain
    events the changes emit.  [mode_normalize.rs].  The types of the protocol schema are
    third-party: the fields the code uses are records, the rest is the class
    [AcpSchema]. *)

From S2P Require Import Prelude.
From S2P Require Import Text.

(* ------------------------------------------------------------------ *)
(** ** The protocol schema *)

Record SessionMode := mk_mode { mode_id : string; mode_name : string }.
Record SessionModeState := mk_modes { current_mode_id : string; available_modes : list SessionMode }.
Record ModelInfo := mk_model { model_id : string; model_name : string }.
Record SessionModelState := mk_models { current_model_id : string; available_models : list ModelInfo }.
Inductive SessionConfigKind := Select (current_value : string) | OtherKind.
Record SessionConfigOption := mk_config_option { option_id : string; kind : SessionConfigKind }.
Record AvailableCommand := mk_command { command_name : string; command_description : string }.

(** [usage_eqb] is the derived [PartialEq]; [usage_to_string] is
    [serde_json::to_string(..).unwrap_or_default()]. *)
Class AcpSchema := {
  UsageUpdate : Type;
  usage_eqb : UsageUpdate → UsageUpdate → bool;
  usage_to_string : UsageUpdate → string;
  usage_from_str : string → option UsageUpdate;
  AgentCapabilities : Type;
  load_session : AgentCapabilities → bool;
  AuthMethod : Type;
}.

(* chisl-api-types/src/agent_discovery.rs:64-86 BehaviorPolicy *)
Record BehaviorPolicy := mk_policy {
  supports_side_question : bool; self_identity_sticky : bool; session_load_via_meta_field : bool; supports_team : bool }.

(** The fields of [AgentMetadata] that the manager reads. *)
Record AgentMetadata := mk_metadata {
  backend : option string; yolo_id : option string; behavior_policy : BehaviorPolicy }.

Abbreviation Selections := (gmap string string).

(* chisl-ai-agent/src/manager/acp/mode_normalize.rs:3-31 normalize_requested_mode *)
Definition normalize_requested_mode (metadata : AgentMetadata) (mode : string) : string :=
  let trimmed := trim mode in
  if String.eqb trimmed EmptyString then EmptyString else
  match (if String.eqb trimmed "yolo" || String.eqb trimmed "yoloNoSandbox" then yolo_id metadata else None) with
  | Some native => native
  | None =>
      if bool_decide (backend metadata = Some "codex") && (String.eqb trimmed "default" || String.eqb trimmed "autoEdit")
      then "auto" else trimmed
  end.

(* chisl-ai-agent/src/manager/acp/mode_normalize.rs:40-42 agent_metadata_uses_meta_resume *)
Definition agent_metadata_uses_meta_resume (metadata : AgentMetadata) : bool :=
  session_load_via_meta_field (behavior_policy metadata).

(* chisl-ai-agent/src/manager/acp/agent_reconcile.rs:17-21 ReconcileAction *)
Inductive ReconcileAction := SetMode (mode : string) | SetModel (model : string) | SetConfigOption (key value : string).

Module AcpSessionEvent.
(* chisl-ai-agent/src/manager/acp/agent_event_tracker.rs:25-51 AcpSessionEvent *)
Inductive t :=
| SessionOpened | SessionAssigned (session_id : string)
| DesiredModeChanged (mode : string) | DesiredModelChanged (model : string)
| DesiredConfigChanged (selections : Selections)
| ObservedModeSynced (mode : string) | ObservedModelSynced (model : string)
| ObservedConfigSynced (selections : Selections) | ObservedContextUsageChanged (usage_json : string).
End AcpSessionEvent.

Section persisted.
Context `{AcpSchema}.
(* chisl-ai-agent/src/shared_kernel/snapshot.rs:18-23 PersistedSessionState *)
Record PersistedSessionState := mk_persisted {
  p_mode : option string; p_model : option string; p_config : Selections; p_usage : option UsageUpdate }.
End persisted.

Module AcpSession.
Section session.
Context `{AcpSchema}.

(* chisl-ai-agent/src/manager/acp/session.rs:15-19 Desired *)
Record Desired := mk_desired { d_mode : option string; d_model : option string; d_config : Selections }.
(* chisl-ai-agent/src/manager/acp/session.rs:23-27 Observed *)
Record Observed := mk_observed { o_mode : option string; o_model : option string; o_config : Selections }.
(* chisl-ai-agent/src/manager/acp/session.rs:31-39 Advertised *)
Record Advertised := mk_advertised {
  modes : option SessionModeState; models : option SessionModelState;
  config_options : option (list SessionConfigOption); context_usage : option UsageUpdate;
  agent_capabilities : option AgentCapabilities; auth_methods : option (list AuthMethod);
  available_commands : option (list AvailableCommand) }.

(** [CloseReason] is kept abstract here; it is [AcpErrors.CloseReason]. *)
Context {CloseReason : Type}.
(* chisl-ai-agent/src/manager/acp/session.rs:52-90 AcpSession *)
Record t := mk {
  session_id : option string; opened : bool; pending_session_new_prelude : bool;
  desired : Desired; observed : Observed; advertised : Advertised;
  pending_events : list AcpSessionEvent.t; pending_model_notice : option string;
  last_close_reason : option CloseReason }.

(** Assignments to one field. *)
Definition with_id x s := mk x (opened s) (pending_session_new_prelude s) (desired s) (observed s) (advertised s)
  (pending_events s) (pending_model_notice s) (last_close_reason s).
Definition with_opened x s := mk (session_id s) x (pending_session_new_prelude s) (desired s) (observed s) (advertised s)
  (pending_events s) (pending_model_notice s) (last_close_reason s).
Definition with_prelude x s := mk (session_id s) (opened s) x (desired s) (observed s) (advertised s)
  (pending_events s) (pending_model_notice s) (last_close_reason s).
Definition with_desired x s := mk (session_id s) (opened s) (pending_session_new_prelude s) x (observed s) (advertised s)
  (pending_events s) (pending_model_notice s) (last_close_reason s).
Definition with_observed x s := mk (session_id s) (opened s) (pending_session_new_prelude s) (desired s) x (advertised s)
  (pending_events s) (pending_model_notice s) (last_close_reason s).
Definition with_advertised x s := mk (session_id s) (opened s) (pending_session_new_prelude s) (desired s) (observed s) x
  (pending_events s) (pending_model_notice s) (last_close_reason s).
Definition with_events x s := mk (session_id s) (opened s) (pending_session_new_prelude s) (desired s) (observed s)
  (advertised s) x (pending_model_notice s) (last_close_reason s).
Definition with_notice x s := mk (session_id s) (opened s) (pending_session_new_prelude s) (desired s) (observed s)
  (advertised s) (pending_events s) x (last_close_reason s).
Definition with_reason x s := mk (session_id s) (opened s) (pending_session_new_prelude s) (desired s) (observed s)
  (advertised s) (pending_events s) (pending_model_notice s) x.
Definition push (e : AcpSessionEvent.t) (s : t) : t := with_events (pending_events s ++ [e]) s.
Definition push_if (b : bool) (e : AcpSessionEvent.t) (s : t) : t := if b then push e s else s.

Definition set_modes x a := mk_advertised x (models a) (config_options a) (context_usage a) (agent_capabilities a)
  (auth_methods a) (available_commands a).
Definition set_models x a := mk_advertised (modes a) x (config_options a) (context_usage a) (agent_capabilities a)
  (auth_methods a) (available_commands a).
Definition set_config_options x a := mk_advertised (modes a) (models a) x (context_usage a) (agent_capabilities a)
  (auth_methods a) (available_commands a).
Definition set_usage x a := mk_advertised (modes a) (models a) (config_options a) x (agent_capabilities a)
  (auth_methods a) (available_commands a).
Definition set_capabilities x a := mk_advertised (modes a) (models a) (config_options a) (context_usage a) x
  (auth_methods a) (available_commands a).
Definition set_auth x a := mk_advertised (modes a) (models a) (config_options a) (context_usage a) (agent_capabilities a)
  x (available_commands a).
Definition set_commands x a := mk_advertised (modes a) (models a) (config_options a) (context_usage a)
  (agent_capabilities a) (auth_methods a) x.

(* chisl-ai-agent/src/manager/acp/session.rs:93-113 new *)
Definition new (initial_mode initial_model : option string) (config_selections : Selections) : t :=
  mk None false false (mk_desired initial_mode initial_model config_selections) (mk_observed None None ∅)
    (mk_advertised None None None None None None None) [] None None.

(* ------------------------------------------------------------------ *)
(** ** The session id and the life cycle *)

(** [debug_assert_eq!] is not compiled into a release build. *)
(* chisl-ai-agent/src/manager/acp/session.rs:129-137 set_session_id *)
Definition set_session_id (sid : string) (s : t) : t :=
  match session_id s with
  | Some existing => s
  | None => push (AcpSessionEvent.SessionAssigned sid) (with_id (Some sid) s)
  end.

(* chisl-ai-agent/src/manager/acp/session.rs:145-151 clear_session_id *)
Definition clear_session_id (s : t) : t := with_reason None (with_opened false (with_id None s)).
(* chisl-ai-agent/src/manager/acp/session.rs:157-159 record_close_reason *)
Definition record_close_reason (reason : option CloseReason) (s : t) : t := with_reason reason s.
(* chisl-ai-agent/src/manager/acp/session.rs:170-172 take_close_reason *)
Definition take_close_reason (s : t) : t * option CloseReason := (with_reason None s, last_close_reason s).
(* chisl-ai-agent/src/manager/acp/session.rs:179-184 mark_opened *)
Definition mark_opened (s : t) : t :=
  if opened s then s else push AcpSessionEvent.SessionOpened (with_opened true s).
(* chisl-ai-agent/src/manager/acp/session.rs:188-190 mark_pending_session_new_prelude *)
Definition mark_pending_session_new_prelude (s : t) : t := with_prelude true s.
(* chisl-ai-agent/src/manager/acp/session.rs:194-196 take_pending_session_new_prelude *)
Definition take_pending_session_new_prelude (s : t) : t * bool := (with_prelude false s, pending_session_new_prelude s).

(* ------------------------------------------------------------------ *)
(** ** What the user wants *)

(* chisl-ai-agent/src/manager/acp/session.rs:526-532 is_mode_valid *)
Definition is_mode_valid (m : string) (s : t) : bool :=
  match modes (advertised s) with
  | None => true
  | Some st => match available_modes st with
      | [] => true
      | l => existsb (λ x, String.eqb (mode_id x) m) l
      end
  end.
(* chisl-ai-agent/src/manager/acp/session.rs:534-543 is_model_valid *)
Definition is_model_valid (m : string) (s : t) : bool :=
  match models (advertised s) with
  | None => true
  | Some st => match available_models st with
      | [] => true
      | l => existsb (λ x, String.eqb (model_id x) m) l
      end
  end.

(* chisl-ai-agent/src/manager/acp/session.rs:224-237 set_desired_mode *)
Definition set_desired_mode (mode : string) (s : t) : t * bool :=
  if String.eqb mode EmptyString then (s, false)
  else if negb (is_mode_valid mode s) then (s, false)
  else if bool_decide (d_mode (desired s) = Some mode) then (s, false)
  else (push (AcpSessionEvent.DesiredModeChanged mode)
          (with_desired (mk_desired (Some mode) (d_model (desired s)) (d_config (desired s))) s), true).
(* chisl-ai-agent/src/manager/acp/session.rs:242-255 set_desired_model *)
Definition set_desired_model (model : string) (s : t) : t * bool :=
  if String.eqb model EmptyString then (s, false)
  else if negb (is_model_valid model s) then (s, false)
  else if bool_decide (d_model (desired s) = Some model) then (s, false)
  else (push (AcpSessionEvent.DesiredModelChanged model)
          (with_desired (mk_desired (d_mode (desired s)) (Some model) (d_config (desired s))) s), true).
(* chisl-ai-agent/src/manager/acp/session.rs:258-266 set_desired_config *)
Definition set_desired_config (key value : string) (s : t) : t :=
  let changed := negb (bool_decide (d_config (desired s) !! key = Some value)) in
  let selections := <[key := value]> (d_config (desired s)) in
  push_if changed (AcpSessionEvent.DesiredConfigChanged selections)
    (with_desired (mk_desired (d_mode (desired s)) (d_model (desired s)) selections) s).

(* ------------------------------------------------------------------ *)
(** ** What the agent reports *)

Definition observe_mode (m : string) (s : t) : t :=
  with_observed (mk_observed (Some m) (o_model (observed s)) (o_config (observed s))) s.
Definition observe_model (m : string) (s : t) : t :=
  with_observed (mk_observed (o_mode (observed s)) (Some m) (o_config (observed s))) s.
Definition observe_config (c : Selections) (s : t) : t :=
  with_observed (mk_observed (o_mode (observed s)) (o_model (observed s)) c) s.
Definition advertise (f : Advertised → Advertised) (s : t) : t := with_advertised (f (advertised s)) s.

(* chisl-ai-agent/src/manager/acp/session.rs:332-345 apply_observed_mode *)
Definition apply_observed_mode (mode : string) (s : t) : t :=
  let changed := negb (bool_decide (o_mode (observed s) = Some mode)) in
  let available := default [] (available_modes <$> modes (advertised s)) in
  push_if changed (AcpSessionEvent.ObservedModeSynced mode)
    (advertise (set_modes (Some (mk_modes mode available))) (observe_mode mode s)).
(* chisl-ai-agent/src/manager/acp/session.rs:350-363 apply_observed_model *)
Definition apply_observed_model (model : string) (s : t) : t :=
  let changed := negb (bool_decide (o_model (observed s) = Some model)) in
  let available := default [] (available_models <$> models (advertised s)) in
  push_if changed (AcpSessionEvent.ObservedModelSynced model)
    (advertise (set_models (Some (mk_models model available))) (observe_model model s)).
(* chisl-ai-agent/src/manager/acp/session.rs:370-378 apply_observed_config *)
Definition apply_observed_config (key value : string) (s : t) : t :=
  let changed := negb (bool_decide (o_config (observed s) !! key = Some value)) in
  let selections := <[key := value]> (o_config (observed s)) in
  push_if changed (AcpSessionEvent.ObservedConfigSynced selections) (observe_config selections s).

(* chisl-ai-agent/src/manager/acp/session.rs:380-389 apply_advertised_modes *)
Definition apply_advertised_modes (st : SessionModeState) (s : t) : t :=
  let new_id := current_mode_id st in
  let changed := negb (bool_decide (o_mode (observed s) = Some new_id)) in
  push_if changed (AcpSessionEvent.ObservedModeSynced new_id)
    (advertise (set_modes (Some st)) (observe_mode new_id s)).
(* chisl-ai-agent/src/manager/acp/session.rs:391-400 apply_advertised_models *)
Definition apply_advertised_models (st : SessionModelState) (s : t) : t :=
  let new_id := current_model_id st in
  let changed := negb (bool_decide (o_model (observed s) = Some new_id)) in
  push_if changed (AcpSessionEvent.ObservedModelSynced new_id)
    (advertise (set_models (Some st)) (observe_model new_id s)).

(* chisl-ai-agent/src/manager/acp/session.rs:546-551 extract_config_current_value *)
Definition extract_config_current_value (k : SessionConfigKind) : option string :=
  match k with Select current => Some current | OtherKind => None end.
(* chisl-ai-agent/src/manager/acp/session.rs:404-412 apply_advertised_config_options (loop) *)
Fixpoint merge_options (options : list SessionConfigOption) (current : Selections) (changed : bool) : Selections * bool :=
  match options with
  | [] => (current, changed)
  | opt :: rest =>
      match extract_config_current_value (kind opt) with
      | Some value =>
          merge_options rest (<[option_id opt := value]> current)
            (changed || negb (bool_decide (current !! option_id opt = Some value)))
      | None => merge_options rest current changed
      end
  end.
(* chisl-ai-agent/src/manager/acp/session.rs:402-419 apply_advertised_config_options *)
Definition apply_advertised_config_options (options : list SessionConfigOption) (s : t) : t :=
  let '(current, changed) := merge_options options (o_config (observed s)) false in
  push_if changed (AcpSessionEvent.ObservedConfigSynced current)
    (advertise (set_config_options (Some options)) (observe_config current s)).

(* chisl-ai-agent/src/manager/acp/session.rs:421-423 apply_advertised_capabilities *)
Definition apply_advertised_capabilities (caps : AgentCapabilities) : t → t := advertise (set_capabilities (Some caps)).
(* chisl-ai-agent/src/manager/acp/session.rs:425-427 apply_advertised_auth_methods *)
Definition apply_advertised_auth_methods (l : list AuthMethod) : t → t := advertise (set_auth (Some l)).
(* chisl-ai-agent/src/manager/acp/session.rs:429-431 apply_advertised_commands *)
Definition apply_advertised_commands (l : list AvailableCommand) : t → t := advertise (set_commands (Some l)).

(* chisl-ai-agent/src/manager/acp/session.rs:437-445 apply_context_usage *)
Definition apply_context_usage (usage : UsageUpdate) (s : t) : t :=
  let changed := negb (match context_usage (advertised s) with Some u => usage_eqb u usage | None => false end) in
  push_if changed (AcpSessionEvent.ObservedContextUsageChanged (usage_to_string usage))
    (advertise (set_usage (Some usage)) s).

(* chisl-ai-agent/src/manager/acp/session.rs:451-466 preload_persisted *)
Definition preload_persisted (state : PersistedSessionState) (s : t) : t :=
  let s := match p_mode state with
    | Some mode => observe_mode mode (advertise (set_modes (Some (mk_modes mode []))) s) | None => s end in
  let s := match p_model state with
    | Some model => observe_model model (advertise (set_models (Some (mk_models model []))) s) | None => s end in
  let s := if bool_decide (p_config state = ∅) then s else observe_config (p_config state) s in
  match p_usage state with Some usage => advertise (set_usage (Some usage)) s | None => s end.

(* ------------------------------------------------------------------ *)
(** ** Reconciling and draining *)

Definition plan_mode (s : t) : list ReconcileAction :=
  match d_mode (desired s) with
  | Some m => if bool_decide (o_mode (observed s) = Some m) then [] else [SetMode m] | None => [] end.
Definition plan_model (s : t) : list ReconcileAction :=
  match d_model (desired s) with
  | Some m => if bool_decide (o_model (observed s) = Some m) then [] else [SetModel m] | None => [] end.
Definition plan_config `{HashIter string} (s : t) : list ReconcileAction :=
  omap (λ kv, if bool_decide (o_config (observed s) !! fst kv = Some (snd kv)) then None
              else Some (SetConfigOption (fst kv) (snd kv))) (hm_iter (d_config (desired s))).
(* chisl-ai-agent/src/manager/acp/session.rs:473-502 plan_reconcile *)
Definition plan_reconcile `{HashIter string} (s : t) : list ReconcileAction :=
  plan_mode s ++ plan_model s ++ plan_config s.

(* chisl-ai-agent/src/manager/acp/session.rs:507-509 drain_events *)
Definition drain_events (s : t) : t * list AcpSessionEvent.t := (with_events [] s, pending_events s).
(* chisl-ai-agent/src/manager/acp/session.rs:514-516 set_pending_model_notice *)
Definition set_pending_model_notice (model : string) (s : t) : t := with_notice (Some model) s.
(* chisl-ai-agent/src/manager/acp/session.rs:520-522 take_pending_model_notice *)
Definition take_pending_model_notice (s : t) : t * option string := (with_notice None s, pending_model_notice s).

(** The remaining methods read a field. *)
(* chisl-ai-agent/src/manager/acp/session.rs:201-203 desired_mode *)
Definition desired_mode (s : t) : option string := d_mode (desired s).
(* chisl-ai-agent/src/manager/acp/session.rs:209-211 desired_model *)
Definition desired_model (s : t) : option string := d_model (desired s).
(* chisl-ai-agent/src/manager/acp/session.rs:271-273 observed_mode *)
Definition observed_mode (s : t) : option string := o_mode (observed s).
(* chisl-ai-agent/src/manager/acp/session.rs:279-281 observed_model *)
Definition observed_model (s : t) : option string := o_model (observed s).
(* chisl-ai-agent/src/manager/acp/session.rs:294-296 model_info *)
Definition model_info (s : t) : option SessionModelState := models (advertised s).
End session.
End AcpSession.

(* ------------------------------------------------------------------ *)
(** ** Facts *)

Section facts.
Context `{AcpSchema} {CR : Type}.
Import AcpSession.
Abbreviation session := (AcpSession.t (CloseReason:=CR)).
Implicit Types s : session.

Lemma push_if_proj {A} (f : session → A) b e s :
  (∀ x s, f (with_events x s) = f s) → f (push_if b e s) = f s.
Proof. intros Hf. destruct b; [apply Hf|done]. Qed.

(** *** Reconciling *)

Definition apply_action (a : ReconcileAction) (s : session) : session :=
  match a with
  | SetMode m => apply_observed_mode m s
  | SetModel m => apply_observed_model m s
  | SetConfigOption k v => apply_observed_config k v s
  end.

Definition wanted (a : ReconcileAction) (s : session) : Prop :=
  match a with
  | SetMode m => d_mode (desired s) = Some m
  | SetModel m => d_model (desired s) = Some m
  | SetConfigOption k v => d_config (desired s) !! k = Some v
  end.
Definition seen (a : ReconcileAction) (s : session) : Prop :=
  match a with
  | SetMode m => o_mode (observed s) = Some m
  | SetModel m => o_model (observed s) = Some m
  | SetConfigOption k v => o_config (observed s) !! k = Some v
  end.

Lemma apply_action_desired a s : desired (apply_action a s) = desired s.
Proof. destruct a; simpl; unfold apply_observed_mode, apply_observed_model, apply_observed_config; by rewrite push_if_proj. Qed.

Lemma apply_action_observed a s : observed (apply_action a s) =
  match a with
  | SetMode m => mk_observed (Some m) (o_model (observed s)) (o_config (observed s))
  | SetModel m => mk_observed (o_mode (observed s)) (Some m) (o_config (observed s))
  | SetConfigOption k v => mk_observed (o_mode (observed s)) (o_model (observed s)) (<[k := v]> (o_config (observed s)))
  end.
Proof. destruct a; simpl; unfold apply_observed_mode, apply_observed_model, apply_observed_config; by rewrite push_if_proj. Qed.

Lemma elem_of_plan `{HashIter string} a s : a ∈ plan_reconcile s ↔ wanted a s ∧ ¬ seen a s.
Proof.
  assert (Hmode : a ∈ plan_mode s ↔ ∃ m, a = SetMode m ∧ wanted a s ∧ ¬ seen a s).
  { unfold plan_mode. destruct (d_mode (desired s)) as [m|] eqn:Hm; [case_bool_decide|];
      rewrite ?list_elem_of_singleton, ?elem_of_nil; (split; [|intros (m' & -> & Hw & Hs); simpl in *; congruence]); try done.
    intros ->. exists m. done. }
  assert (Hmodel : a ∈ plan_model s ↔ ∃ m, a = SetModel m ∧ wanted a s ∧ ¬ seen a s).
  { unfold plan_model. destruct (d_model (desired s)) as [m|] eqn:Hm; [case_bool_decide|];
      rewrite ?list_elem_of_singleton, ?elem_of_nil; (split; [|intros (m' & -> & Hw & Hs); simpl in *; congruence]); try done.
    intros ->. exists m. done. }
  assert (Hconfig : a ∈ plan_config s ↔ ∃ k v, a = SetConfigOption k v ∧ wanted a s ∧ ¬ seen a s).
  { unfold plan_config. rewrite list_elem_of_omap. split.
    - intros ([k v] & Hin%elem_of_hm_iter & Hx). case_bool_decide; [done|]. simplify_eq/=. by exists k, v.
    - intros (k & v & -> & Hw & Hs). exists (k, v). rewrite elem_of_hm_iter, bool_decide_false by done. done. }
  unfold plan_reconcile. rewrite !elem_of_app, Hmode, Hmodel, Hconfig. split.
  - intros [(? & _ & ?)|[(? & _ & ?)|(? & ? & _ & ?)]]; done.
  - intros Ha. destruct a; eauto 8.
Qed.

Lemma NoDup_plan `{HashIter string} s : NoDup (plan_reconcile s).
Proof.
  unfold plan_reconcile. apply NoDup_app. split; [|split].
  - unfold plan_mode. repeat case_match; repeat constructor; set_solver.
  - intros a Ha. unfold plan_mode in Ha. rewrite elem_of_app. unfold plan_model, plan_config. rewrite list_elem_of_omap.
    intros [Hb|(kv & _ & Hb)]; repeat case_match; set_solver.
  - apply NoDup_app. split; [|split].
    + unfold plan_model. repeat case_match; repeat constructor; set_solver.
    + intros a Ha. unfold plan_model in Ha. unfold plan_config. rewrite list_elem_of_omap.
      intros (kv & _ & Hb). repeat case_match; set_solver.
    + unfold plan_config. assert (Hk := NoDup_hm_iter_keys (d_config (desired s))). revert Hk.
      induction (hm_iter _) as [|[k v] l IH]; simpl; [constructor|]. intros [Hk Hl]%NoDup_cons.
      case_bool_decide; simpl; [by apply IH|]. apply NoDup_cons. split; [|by apply IH].
      rewrite list_elem_of_omap. intros ([k' v'] & Hin & Hx). case_bool_decide; [done|]. simplify_eq/=.
      apply Hk, list_elem_of_fmap. by exists (k, v).
Qed.

Lemma wanted_apply a b s : wanted a (apply_action b s) ↔ wanted a s.
Proof. destruct a; simpl; by rewrite apply_action_desired. Qed.

Lemma seen_apply a b s : wanted a s → wanted b s → seen a (apply_action b s) ↔ a = b ∨ seen a s.
Proof.
  intros Ha Hb. unfold seen at 1. rewrite apply_action_observed.
  destruct a, b; simpl in *; try (split; [by right|by intros [?|?]]).
  - split; [left; congruence|intros [?|?]; congruence].
  - split; [left; congruence|intros [?|?]; congruence].
  - destruct (decide (key = key0)) as [->|Hk].
    + rewrite lookup_insert_eq. split; [left; congruence|intros [?|?]; congruence].
    + rewrite lookup_insert_ne by done. split; [by right|intros [?|?]; [congruence|done]].
Qed.

Lemma apply_actions l : ∀ s, Forall (λ a, wanted a s) l →
  let s' := foldl (λ s a, apply_action a s) s l in
  desired s' = desired s ∧ ∀ a, wanted a s → seen a s' ↔ a ∈ l ∨ seen a s.
Proof.
  induction l as [|b l IH]; intros s Hl; simpl.
  - split; [done|]. intros a _. set_solver.
  - apply Forall_cons in Hl as [Hb Hl]. destruct (IH (apply_action b s)) as [Hd Hs].
    { eapply Forall_impl; [exact Hl|]. intros x. apply wanted_apply. }
    split; [by rewrite Hd, apply_action_desired|]. intros a Ha.
    rewrite Hs by by apply wanted_apply. rewrite seen_apply by done. set_solver.
Qed.

(** The actions of the plan that are carried out, in any order, are what the next plan
    leaves out. *)
Lemma plan_after `{HashIter string} l failed s : l ++ failed ≡ₚ plan_reconcile s →
  plan_reconcile (foldl (λ s a, apply_action a s) s l) ≡ₚ failed.
Proof.
  intros Hp. assert (Hin : ∀ a, a ∈ l ∨ a ∈ failed ↔ wanted a s ∧ ¬ seen a s).
  { intros a. by rewrite <- elem_of_plan, <- Hp, elem_of_app. }
  assert (Hnd : NoDup (l ++ failed)) by (rewrite Hp; apply NoDup_plan).
  apply NoDup_app in Hnd as (_ & Hdis & Hnf).
  destruct (apply_actions l s) as [Hd Hs].
  { apply Forall_forall. intros a Ha. apply Hin. by left. }
  apply NoDup_Permutation; [apply NoDup_plan|done|]. intros a. rewrite elem_of_plan.
  assert (Hw : wanted a (foldl (λ s a, apply_action a s) s l) ↔ wanted a s) by (destruct a; simpl; by rewrite Hd).
  rewrite Hw. split.
  - intros [Ha Hns]. rewrite Hs in Hns by done. destruct (proj2 (Hin a)); [|tauto|done]. tauto.
  - intros Hf. destruct (proj1 (Hin a) (or_intror Hf)) as [Ha Hns]. split; [done|]. rewrite Hs by done.
    intros [Hl|?]; [|done]. by apply (Hdis a).
Qed.
(** *** Any sequence of calls *)

Inductive call :=
| CSetSessionId (sid : string) | CClearSessionId | CRecordCloseReason (r : option CR) | CTakeCloseReason
| CMarkOpened | CMarkPrelude | CTakePrelude
| CSetDesiredMode (m : string) | CSetDesiredModel (m : string) | CSetDesiredConfig (k v : string)
| CObservedMode (m : string) | CObservedModel (m : string) | CObservedConfig (k v : string)
| CModes (st : SessionModeState) | CModels (st : SessionModelState) | COptions (l : list SessionConfigOption)
| CCapabilities (c : AgentCapabilities) | CAuthMethods (l : list AuthMethod) | CCommands (l : list AvailableCommand)
| CUsage (u : UsageUpdate) | CPreload (p : PersistedSessionState)
| CDrain | CSetNotice (m : string) | CTakeNotice.

Definition exec (c : call) (s : session) : session :=
  match c with
  | CSetSessionId sid => set_session_id sid s | CClearSessionId => clear_session_id s
  | CRecordCloseReason r => record_close_reason r s | CTakeCloseReason => fst (take_close_reason s)
  | CMarkOpened => mark_opened s | CMarkPrelude => mark_pending_session_new_prelude s
  | CTakePrelude => fst (take_pending_session_new_prelude s)
  | CSetDesiredMode m => fst (set_desired_mode m s) | CSetDesiredModel m => fst (set_desired_model m s)
  | CSetDesiredConfig k v => set_desired_config k v s
  | CObservedMode m => apply_observed_mode m s | CObservedModel m => apply_observed_model m s
  | CObservedConfig k v => apply_observed_config k v s
  | CModes st => apply_advertised_modes st s | CModels st => apply_advertised_models st s
  | COptions l => apply_advertised_config_options l s
  | CCapabilities c => apply_advertised_capabilities c s | CAuthMethods l => apply_advertised_auth_methods l s
  | CCommands l => apply_advertised_commands l s
  | CUsage u => apply_context_usage u s | CPreload p => preload_persisted p s
  | CDrain => fst (drain_events s) | CSetNotice m => set_pending_model_notice m s
  | CTakeNotice => fst (take_pending_model_notice s)
  end.

(** What the consumer has received when the calls are over and the rest is drained. *)
Definition drained (c : call) (s : session) : list AcpSessionEvent.t :=
  match c with CDrain => snd (drain_events s) | _ => [] end.
Fixpoint run_calls (cs : list call) (s : session) : session * list AcpSessionEvent.t :=
  match cs with
  | [] => (s, pending_events s)
  | c :: cs' => let '(s', es) := run_calls cs' (exec c s) in (s', drained c s ++ es)
  end.

(** *** The two layers agree *)

Definition coherent (s : session) : Prop :=
  o_mode (observed s) = current_mode_id <$> modes (advertised s) ∧
  o_model (observed s) = current_model_id <$> models (advertised s).

Lemma coherent_exec c s : coherent s → coherent (exec c s).
Proof.
  unfold coherent. intros [H1 H2].
  destruct c; simpl;
    unfold set_session_id, mark_opened, set_desired_mode, set_desired_model, set_desired_config, apply_observed_mode,
      apply_observed_model, apply_observed_config, apply_advertised_modes, apply_advertised_models, apply_context_usage,
      apply_advertised_config_options, preload_persisted;
    repeat match goal with |- context [let '(_, _) := merge_options ?a ?b ?c in _] => destruct (merge_options a b c) end;
    rewrite ?(push_if_proj observed), ?(push_if_proj advertised) by done;
    repeat case_match; done.
Qed.

(** *** The events tell everything *)

(** What the events are about; the usage as its text. *)
Record view := mk_view { v_desired : Desired; v_observed : Observed; v_usage : option string }.
Definition view_of (s : session) : view :=
  mk_view (desired s) (observed s) (usage_to_string <$> context_usage (advertised s)).

Definition tell (v : view) (e : AcpSessionEvent.t) : view :=
  let d := v_desired v in let o := v_observed v in
  match e with
  | AcpSessionEvent.DesiredModeChanged m => mk_view (mk_desired (Some m) (d_model d) (d_config d)) o (v_usage v)
  | AcpSessionEvent.DesiredModelChanged m => mk_view (mk_desired (d_mode d) (Some m) (d_config d)) o (v_usage v)
  | AcpSessionEvent.DesiredConfigChanged c => mk_view (mk_desired (d_mode d) (d_model d) c) o (v_usage v)
  | AcpSessionEvent.ObservedModeSynced m => mk_view d (mk_observed (Some m) (o_model o) (o_config o)) (v_usage v)
  | AcpSessionEvent.ObservedModelSynced m => mk_view d (mk_observed (o_mode o) (Some m) (o_config o)) (v_usage v)
  | AcpSessionEvent.ObservedConfigSynced c => mk_view d (mk_observed (o_mode o) (o_model o) c) (v_usage v)
  | AcpSessionEvent.ObservedContextUsageChanged u => mk_view d o (Some u)
  | _ => v
  end.

Definition not_preload (c : call) : Prop := match c with CPreload _ => False | _ => True end.

(** Equal usages have the same text. *)
Definition usage_text_faithful : Prop := ∀ u v, usage_eqb u v = true → usage_to_string u = usage_to_string v.

Lemma merge_options_unchanged l : ∀ current changed current',
  merge_options l current changed = (current', false) → changed = false ∧ current' = current.
Proof.
  induction l as [|o l IH]; intros current changed current'; simpl; [by intros [= -> ->]|].
  destruct (extract_config_current_value (kind o)) as [v|]; [|apply IH].
  intros [Hc ->]%IH. apply orb_false_elim in Hc as [-> Hc]. split; [done|].
  apply negb_false_iff, bool_decide_eq_true in Hc. by apply insert_id.
Qed.

(** The events a call adds, replayed on the view before it, give the view after it. *)
Lemma exec_told c s : usage_text_faithful → not_preload c → ∃ es,
  pending_events (exec c s) = (match c with CDrain => [] | _ => pending_events s ++ es end) ∧
  view_of (exec c s) = foldl tell (view_of s) es ∧ (c = CDrain → es = []).
Proof.
  intros Hu Hc.
  assert (Hnone : ∀ s', pending_events s' = pending_events s → view_of s' = view_of s → ∃ es,
    pending_events s' = pending_events s ++ es ∧ view_of s' = foldl tell (view_of s) es).
  { intros s' Hp Hv. exists []. by rewrite app_nil_r. }
  assert (Hpush : ∀ b e s', pending_events s' = pending_events s →
    (b = true → view_of s' = tell (view_of s) e) → (b = false → view_of s' = view_of s) → ∃ es,
    pending_events (push_if b e s') = pending_events s ++ es ∧ view_of (push_if b e s') = foldl tell (view_of s) es).
  { intros b e s' Hp Ht Hf. destruct b; simpl.
    - exists [e]. rewrite Hp. split; [done|]. simpl. rewrite <- Ht by done. done.
    - apply Hnone; auto. }
  assert (Hemit : ∀ e s', pending_events s' = pending_events s → view_of s' = tell (view_of s) e → ∃ es,
    pending_events (push e s') = pending_events s ++ es ∧ view_of (push e s') = foldl tell (view_of s) es).
  { intros e s' Hp Ht. by apply (Hpush true). }
  destruct c; try done; try (exists []; split; [done|by split]).
  all: match goal with |- context [exec ?c] => cut (∃ es, pending_events (exec c s) = pending_events s ++ es ∧
         view_of (exec c s) = foldl tell (view_of s) es); [intros (es & H1 & H2); exists es; by rewrite H1, H2|] end; simpl.
  all: try match goal with |- ∃ es, pending_events ?x = _ ∧ _ => apply (Hnone x); done end.
  - unfold set_session_id. destruct (session_id s); [by apply (Hnone s)|]. by apply Hemit.
  - unfold mark_opened. destruct (opened s); [by apply (Hnone s)|]. by apply Hemit.
  - unfold set_desired_mode. repeat case_match; cbn [fst]; try by apply (Hnone s). by apply Hemit.
  - unfold set_desired_model. repeat case_match; cbn [fst]; try by apply (Hnone s). by apply Hemit.
  - apply Hpush; [done..|]. rewrite negb_false_iff, bool_decide_eq_true. intros Hk.
    unfold view_of. simpl. rewrite insert_id by done. by destruct (desired s).
  - apply Hpush; [done..|]. rewrite negb_false_iff, bool_decide_eq_true. intros Hk.
    unfold view_of. simpl. rewrite <- Hk. by destruct (observed s).
  - apply Hpush; [done..|]. rewrite negb_false_iff, bool_decide_eq_true. intros Hk.
    unfold view_of. simpl. rewrite <- Hk. by destruct (observed s).
  - apply Hpush; [done..|]. rewrite negb_false_iff, bool_decide_eq_true. intros Hk.
    unfold view_of. simpl. rewrite insert_id by done. by destruct (observed s).
  - apply Hpush; [done..|]. rewrite negb_false_iff, bool_decide_eq_true. intros Hk.
    unfold view_of. simpl. rewrite <- Hk. by destruct (observed s).
  - apply Hpush; [done..|]. rewrite negb_false_iff, bool_decide_eq_true. intros Hk.
    unfold view_of. simpl. rewrite <- Hk. by destruct (observed s).
  - unfold apply_advertised_config_options. destruct (merge_options l (o_config (observed s)) false) as [cur ch] eqn:Hm.
    apply Hpush; [done..|]. intros ->. apply merge_options_unchanged in Hm as [_ ->].
    unfold view_of. simpl. by destruct (observed s).
  - apply Hpush; [done..|]. rewrite negb_false_iff. intros Hk. unfold view_of. simpl.
    destruct (context_usage (advertised s)) as [u0|]; [|done]. simpl. by rewrite (Hu _ _ Hk).
Qed.

(** *** Ids and usages in the events *)

Definition assign (o : option string) (e : AcpSessionEvent.t) : option string :=
  match e with AcpSessionEvent.SessionAssigned sid => Some sid | _ => o end.
Definition from_usage (e : AcpSessionEvent.t) : Prop :=
  match e with AcpSessionEvent.ObservedContextUsageChanged t => ∃ u, t = usage_to_string u | _ => True end.

Lemma exec_assigned c s o : ∃ es,
  pending_events (exec c s) = (match c with CDrain => [] | _ => pending_events s ++ es end) ∧
  Forall from_usage es ∧ (c = CDrain → es = []) ∧
  ((∀ sid, session_id s = Some sid → o = Some sid) → ∀ sid, session_id (exec c s) = Some sid → foldl assign o es = Some sid).
Proof.
  assert (Hnone : ∀ s', pending_events s' = pending_events s → session_id s' = session_id s ∨ session_id s' = None → ∃ es,
    pending_events s' = pending_events s ++ es ∧ Forall from_usage es ∧
    ((∀ sid, session_id s = Some sid → o = Some sid) → ∀ sid, session_id s' = Some sid → foldl assign o es = Some sid)).
  { intros s' Hp Hv. exists []. rewrite app_nil_r. split_and!; [done..|]. intros Ho sid Hs. apply Ho. destruct Hv; congruence. }
  assert (Hpush : ∀ b e s', pending_events s' = pending_events s → session_id s' = session_id s → from_usage e →
    assign o e = o → ∃ es, pending_events (push_if b e s') = pending_events s ++ es ∧ Forall from_usage es ∧
    ((∀ sid, session_id s = Some sid → o = Some sid) → ∀ sid, session_id (push_if b e s') = Some sid → foldl assign o es = Some sid)).
  { intros b e s' Hp Hi Hf Ho. destruct b; [|apply Hnone; auto]. exists [e]. simpl. rewrite Hp, Ho.
    split_and!; [done|by constructor|]. intros Hs sid. rewrite Hi. auto. }
  destruct c; try (exists []; split; [simpl; by rewrite ?app_nil_r|by split_and!]).
  all: match goal with |- context [exec ?c] => cut (∃ es, pending_events (exec c s) = pending_events s ++ es ∧
         Forall from_usage es ∧ ((∀ sid, session_id s = Some sid → o = Some sid) →
           ∀ sid, session_id (exec c s) = Some sid → foldl assign o es = Some sid));
         [intros (es & H1 & H2 & H3); exists es; by rewrite H1|] end; simpl.
  all: try (apply Hnone; [done|by (left + right)]).
  all: try (apply Hpush; [done..|]; done).
  - unfold set_session_id. destruct (session_id s) eqn:Hs; [apply Hnone; auto|].
    exists [AcpSessionEvent.SessionAssigned sid]. split; [done|]. split; [by repeat constructor|]. by intros _ ? [= <-].
  - unfold mark_opened. destruct (opened s); [apply Hnone; auto|]. by apply (Hpush true).
  - unfold set_desired_mode. repeat case_match; cbn [fst]; try (apply Hnone; by auto). by apply (Hpush true).
  - unfold set_desired_model. repeat case_match; cbn [fst]; try (apply Hnone; by auto). by apply (Hpush true).
  - unfold apply_advertised_config_options. destruct (merge_options _ _ _). by apply Hpush.
  - apply Hpush; [done..| |done]. simpl. by eexists.
  - unfold preload_persisted. repeat case_match; apply Hnone; auto.
Qed.

Lemma run_calls_assigned cs : ∀ s s' es o,
  run_calls cs s = (s', es) → Forall from_usage (pending_events s) →
  (∀ sid, session_id s = Some sid → foldl assign o (pending_events s) = Some sid) →
  Forall from_usage es ∧ ∀ sid, session_id s' = Some sid → foldl assign o es = Some sid.
Proof.
  induction cs as [|c cs IH]; intros s s' es o Hr Hu Ho; simpl in Hr; [by injection Hr as <- <-|].
  destruct (run_calls cs (exec c s)) as [s1 es1] eqn:Hr1. injection Hr as <- <-.
  destruct (exec_assigned c s (foldl assign o (pending_events s))) as (new & Hpe & Hun & Hd & Hid).
  specialize (Hid Ho). rewrite foldl_app, Forall_app.
  destruct (IH (exec c s) s1 es1 (foldl assign o (drained c s)) Hr1) as [H1 H2].
  - rewrite Hpe. destruct c; try (apply Forall_app; by split). done.
  - rewrite Hpe. intros sid Hs. specialize (Hid sid Hs).
    destruct c; simpl; rewrite ?foldl_app; try done. by rewrite (Hd eq_refl) in Hid.
  - split; [|done]. split; [|done]. by destruct c.
Qed.

Lemma run_calls_told cs s s' es :
  usage_text_faithful → Forall not_preload cs → coherent s → pending_events s = [] → run_calls cs s = (s', es) →
  view_of s' = foldl tell (view_of s) es ∧ coherent s'.
Proof.
  intros Hu Hcs Hs Hp Hr.
  assert (Hgen : ∀ v, view_of s = foldl tell v (pending_events s) → view_of s' = foldl tell v es ∧ coherent s').
  { clear Hp. revert s es Hs Hr. induction Hcs as [|c cs Hc _ IH]; intros s es Hs Hr v Hv; simpl in Hr.
    - by injection Hr as <- <-.
    - destruct (run_calls cs (exec c s)) as [s1 es1] eqn:Hr1. injection Hr as <- <-.
      destruct (exec_told c s Hu Hc) as (new & Hpe & Hview & Hd).
      destruct (IH (exec c s) es1 (coherent_exec c s Hs) Hr1 (foldl tell v (drained c s))) as [H1 H2].
      + rewrite Hview, Hpe, Hv. destruct c; simpl; rewrite ?foldl_app; try done. by rewrite (Hd eq_refl).
      + split; [|done]. by rewrite H1, <- foldl_app. }
  apply Hgen. by rewrite Hp.
Qed.

(** C33: the domain events tell everything and nothing else changes: whatever is called
    on the session but [preload_persisted], which restores without an event, its desired
    and observed layers and its usage are what replaying the events on the ones it
    started with gives, and its observed mode and model are the current ones of what it
    advertises all the time ([coherent] says nothing of configuration options). *)
Theorem events_tell_everything cs s :
  usage_text_faithful → Forall not_preload cs → coherent s → pending_events s = [] →
  let '(s', es) := run_calls cs s in
  view_of s' = foldl tell (view_of s) es ∧ coherent s'.
Proof. intros Hu Hcs Hs Hp. destruct (run_calls cs s) as [s' es] eqn:Hr. by apply (run_calls_told cs). Qed.
End facts.

(* ------------------------------------------------------------------ *)
(** ** Concrete runs *)

(** Usages are token counts; there is nothing in capabilities but [load_session]. *)
Definition token_schema : AcpSchema := {|
  UsageUpdate := Z;
  usage_eqb := Z.eqb;
  usage_to_string := show_i64;
  usage_from_str := λ s, match parse_i64 s with Ok n => Some n | Err _ => None end;
  AgentCapabilities := bool;
  load_session := id;
  AuthMethod := string;
|}.

Section witnesses.
#[local] Existing Instance token_schema.
#[local] Existing Instance hash_iter_canonical.
Import AcpSession.
Abbreviation session := (AcpSession.t (CloseReason:=unit)).

Definition plan_and_code : SessionModeState := mk_modes "code" [mk_mode "plan" "Plan"; mk_mode "code" "Code"].
Definition some_calls : list (call (CR:=unit)) :=
  [CModes plan_and_code; CSetDesiredMode "plan"; CSetDesiredMode "unknown"; CDrain; CObservedMode "plan";
   CObservedConfig "effort" "high"; CUsage 17; CUsage 17].

Lemma events_tell_everything_witness :
  let '(s', es) := run_calls some_calls (new None None ∅ : session) in
  es = [AcpSessionEvent.ObservedModeSynced "code"; AcpSessionEvent.DesiredModeChanged "plan";
        AcpSessionEvent.ObservedModeSynced "plan"; AcpSessionEvent.ObservedConfigSynced {["effort" := "high"]};
        AcpSessionEvent.ObservedContextUsageChanged "17"] ∧
  view_of s' = foldl tell (view_of (new None None ∅ : session)) es ∧ coherent s'.
Proof.
  pose proof (events_tell_everything some_calls (new None None ∅ : session)) as Hc.
  destruct (run_calls some_calls (new None None ∅ : session)) as [s' es] eqn:Hr.
  split; [|apply Hc].
  - replace es with (snd (run_calls some_calls (new None None ∅ : session))) by by rewrite Hr. vm_compute. reflexivity.
  - intros u v Huv. f_equal. by apply Z.eqb_eq.
  - by repeat constructor.
  - done.
  - done.
Defined.

(** The mode a session is created with is not checked against what the agent offers,
    neither then nor when the offer arrives. *)
Lemma initial_mode_is_not_checked :
  let s := apply_advertised_modes plan_and_code (new (Some "unknown") None ∅ : session) in
  is_mode_valid "unknown" s = false ∧ desired_mode s = Some "unknown" ∧ plan_reconcile s = [SetMode "unknown"].
Proof. done. Qed.
End witnesses.
