(* ===== verification/AgentEvents.v ===== *)
(** * AgentEvents: what an agent broadcasts

    The events of [protocol/events/]: the payloads the managers build, as records, and the
    event type.  A payload that no modelled manager builds or reads is a JSON value.  An
    ACP permission request stands for its tool-call id, all that is read of it. *)

From S2P Require Import Prelude.
From S2P Require Import Text.
From S2P Require Import JsonValue.
From S2P Require Import TeamTypes.
From S2P Require Import Common.
From S2P Require Import AcpState.

(* ------------------------------------------------------------------ *)
(** ** Sessions and turns *)

Module SessionStatusEventData.
(* chisl-ai-agent/src/protocol/events/mod.rs:83-88 SessionStatusEventData *)
Record t := mk { session_id : string; status : string; reason : option string }.
End SessionStatusEventData.
Module SessionIdleEventData.
(* chisl-ai-agent/src/protocol/events/mod.rs:91-95 SessionIdleEventData *)
Record t := mk { session_id : string; reason : string; at_ : Z }.
End SessionIdleEventData.
Module RetryEventData.
(* chisl-ai-agent/src/protocol/events/mod.rs:98-109 RetryEventData *)
Record t := mk {
  message_id : string; part_id : string; attempt : Z; reason : string; retry_after : option Z;
  provider_hint : option string; replay : option bool }.
End RetryEventData.
Module TypedErrorData.
(* chisl-ai-agent/src/protocol/events/mod.rs:112-118 TypedErrorData *)
Record t := mk { message : string; kind : string; metadata : option json; recoverable : bool }.
End TypedErrorData.
Module SessionErrorRecoveredEventData.
(* chisl-ai-agent/src/protocol/events/mod.rs:121-126 SessionErrorRecoveredEventData *)
Record t := mk { message_id : string; part_id : string; error : TypedErrorData.t; recovery_action : string }.
End SessionErrorRecoveredEventData.
Module OpencodeSessionCompactedData.
(* chisl-ai-agent/src/protocol/events/mod.rs:145-150 OpencodeSessionCompactedData *)
Record t := mk {
  summary : string; tokens_reclaimed : Z; original_start_message_id : string; original_end_message_id : string }.
End OpencodeSessionCompactedData.
Module AssistantModelInfoEventData.
(* chisl-ai-agent/src/protocol/events/mod.rs:176-180 AssistantModelInfoEventData *)
Record t := mk { message_id : string; provider_id : string; model_id : string }.
End AssistantModelInfoEventData.
Module ErrorEventData.
(* chisl-ai-agent/src/protocol/events/mod.rs:208-218 ErrorEventData *)
Record t := mk {
  message : string; code : option string; kind : option string; metadata : option json; recoverable : option bool }.
End ErrorEventData.
Module PlanEventData.
(* chisl-ai-agent/src/protocol/events/session_updates.rs:29-34 PlanEventData *)
Record t := mk { session_id : option string; entries : list json }.
End PlanEventData.

(* ------------------------------------------------------------------ *)
(** ** Sub-agents *)

Module OpencodeSubtaskPhase.
(* chisl-ai-agent/src/protocol/events/subtask.rs:46-50 OpencodeSubtaskPhase *)
Inductive t := Started | Progress | Completed.
End OpencodeSubtaskPhase.
Module OpencodeSubtaskStatus.
(* chisl-ai-agent/src/protocol/events/subtask.rs:54-58 OpencodeSubtaskStatus *)
Inductive t := Completed | Failed | Aborted.
#[global] Instance t_dec : EqDecision t.
Proof. solve_decision. Defined.
End OpencodeSubtaskStatus.
(* chisl-ai-agent/src/protocol/events/subtask.rs:61-72 OpencodeSubtaskLiveSummary *)
Record OpencodeSubtaskLiveSummary := mk_live_summary {
  sum_tool_calls_count : Z; sum_current_tool_name : option string; sum_last_event_at : Z }.
Module OpencodeSubtaskEventData.
(* chisl-ai-agent/src/protocol/events/subtask.rs:11-42 OpencodeSubtaskEventData *)
Record t := mk {
  parent_session_id : string; child_session_id : string; phase : OpencodeSubtaskPhase.t; agent_name : option string;
  live_summary : option OpencodeSubtaskLiveSummary; status : option OpencodeSubtaskStatus.t; summary : option string;
  started_at : option Z; completed_at : option Z }.
End OpencodeSubtaskEventData.

(* ------------------------------------------------------------------ *)
(** ** Tool calls *)

Module AcpToolCallSessionUpdateKind.
(* chisl-ai-agent/src/protocol/events/tool_call.rs:59-62 AcpToolCallSessionUpdateKind *)
Inductive t := ToolCall | ToolCallUpdate.
End AcpToolCallSessionUpdateKind.
Module AcpToolCallStatus.
(* chisl-ai-agent/src/protocol/events/tool_call.rs:66-71 AcpToolCallStatus *)
Inductive t := Pending | InProgress | Completed | Failed.
#[global] Instance t_dec : EqDecision t.
Proof. solve_decision. Defined.
End AcpToolCallStatus.
Module AcpToolCallKind.
(* chisl-ai-agent/src/protocol/events/tool_call.rs:75-79 AcpToolCallKind *)
Inductive t := Read | Edit | Execute.
End AcpToolCallKind.
Module AcpToolCallContentItem.
(* chisl-ai-agent/src/protocol/events/tool_call.rs:83-93 AcpToolCallContentItem *)
Inductive t := Content (text : string) | Diff (path : string) (old_text : option string) (new_text : string).
End AcpToolCallContentItem.
Module AcpToolCallUpdateData.
(* chisl-ai-agent/src/protocol/events/tool_call.rs:37-55 AcpToolCallUpdateData *)
Record t := mk {
  session_update : AcpToolCallSessionUpdateKind.t; tool_call_id : string; status : option AcpToolCallStatus.t;
  title : option string; kind : option AcpToolCallKind.t; raw_input : option json; raw_output : option json;
  content : option (list AcpToolCallContentItem.t); locations : option (list string) }.
End AcpToolCallUpdateData.
Module AcpToolCallEventData.
(* chisl-ai-agent/src/protocol/events/tool_call.rs:22-34 AcpToolCallEventData *)
Record t := mk {
  session_id : string; parent_session_id : option string; update : AcpToolCallUpdateData.t; meta : option json }.
End AcpToolCallEventData.
Module ToolInputPhase.
(* chisl-ai-agent/src/protocol/events/tool_streaming.rs:34-38 ToolInputPhase *)
Inductive t := Started | Delta | Ended.
End ToolInputPhase.
Module ToolInputEventData.
(* chisl-ai-agent/src/protocol/events/tool_streaming.rs:13-30 ToolInputEventData *)
Record t := mk {
  session_id : string; parent_session_id : option string; message_id : string; part_id : string;
  phase : ToolInputPhase.t; tool_name : option string; input_delta : option string; final_input : option json;
  started_at : option Z; completed_at : option Z }.
End ToolInputEventData.
Module ToolProgressEventData.
(* chisl-ai-agent/src/protocol/events/tool_streaming.rs:46-56 ToolProgressEventData *)
Record t := mk {
  session_id : string; parent_session_id : option string; message_id : string; part_id : string; tool_name : string;
  progress : json; at_ : Z }.
End ToolProgressEventData.

(* ------------------------------------------------------------------ *)
(** ** Events *)

Module AcpPermissionEventData.
(* chisl-ai-agent/src/protocol/events/permission.rs:10-13 AcpPermissionEventData *)
Inductive t := Request (tool_call_id : string) | Confirmed (c : Confirmation.t).
End AcpPermissionEventData.

Module AgentStreamEvent.
(* chisl-ai-agent/src/protocol/events/mod.rs:30-80 AgentStreamEvent *)
Inductive t :=
| Start (session_id : option string) | Text (content : string) | Tips (d : json) | ToolCall (d : json)
| AcpToolCall (d : AcpToolCallEventData.t) | ToolGroup (d : json) | AgentStatus (d : json) | Thinking (d : json)
| Plan (d : PlanEventData.t) | Permission (v : json) | AcpPermission (d : AcpPermissionEventData.t)
| SkillSuggest (d : json) | CronTrigger (d : json) | AcpModelInfo (v : json)
| AssistantModelInfo (d : AssistantModelInfoEventData.t) | AcpModeInfo (v : json) | AcpConfigOption (v : json)
| AcpSessionInfo (v : json) | AcpContextUsage (v : json) | AcpPromptHookWarning (v : json)
| SlashCommandsUpdated (v : json) | AvailableCommands (commands : list AvailableCommand)
| Finish (session_id : option string) | Error (d : ErrorEventData.t)
| System (v : json) | RequestTrace (v : json) | SessionAssigned (session_id : string)
| OpencodeSubtask (d : OpencodeSubtaskEventData.t) | ToolInput (d : ToolInputEventData.t)
| ToolProgress (d : ToolProgressEventData.t) | OpencodeSessionCompacted (d : OpencodeSessionCompactedData.t)
| SessionStatus (d : SessionStatusEventData.t) | SessionIdle (d : SessionIdleEventData.t) | Retry (d : RetryEventData.t)
| SessionErrorRecovered (d : SessionErrorRecoveredEventData.t) | VerifyResult (d : json).

(** An error without kind, metadata and recoverability. *)
Definition error_event (message : string) (code : option string) : t :=
  Error (ErrorEventData.mk message code None None None).

(** What ends a turn for whoever relays the stream. *)
Definition is_terminal (e : t) : bool :=
  match e with Finish _ => true | Error d => negb (bool_decide (is_Some (ErrorEventData.code d))) | _ => false end.
End AgentStreamEvent.
