(* ===== verification/OpenCode.v ===== *)
(** * OpenCode: reading the events of an OpenCode server

    The pure parts of the remote agent: sub-agents ([subagent.rs]), questions
    ([opencode_question.rs]), tool calls ([opencode_tool_call.rs]), streamed tool input and
    progress ([opencode_stream.rs]), models ([opencode_models.rs]), slash commands
    ([opencode_commands.rs]) and the query context of requests ([opencode_context.rs]). *)

From S2P Require Import Prelude.
From S2P Require Import Text.
From S2P Require Import Json.
From S2P Require Import JsonValue.
From S2P Require Import TeamTypes.
From S2P Require Import Common.
From S2P Require Import AgentEvents.

(** [Option::or_else], and the string of a field. *)
Definition or_else {A} (o o' : option A) : option A := match o with Some _ => o | None => o' end.
Infix "<|>" := or_else (at level 50, left associativity).
Definition field (k : string) (v : json) : option json := JsonValue.get k v.
Definition str_field (k : string) (v : json) : option string := field k v ≫= as_str.
Definition path_field (ks : list string) (v : json) : option json := foldl (λ o k, o ≫= field k) (Some v) ks.
(** [filter(|s| !s.is_empty())]. *)
Definition non_empty (o : option string) : option string :=
  match o with Some s => if String.eqb s EmptyString then None else Some s | None => None end.
Definition dash : Ascii.ascii := Ascii.ascii_of_nat 45.
Definition slash : Ascii.ascii := Ascii.ascii_of_nat 47.

(* ------------------------------------------------------------------ *)
(** ** Sub-agents *)

Module Subagent.
(* chisl-ai-agent/src/manager/remote/subagent.rs:41-53 ChildSession *)
Record ChildSession := mk_child {
  child_session_id : string; agent_name : option string; started_at_ms : Z; completed_at_ms : option Z;
  tool_calls_count : Z; current_tool_name : option string; last_event_at_ms : Z; seen_part_ids : gset string;
  status : option OpencodeSubtaskStatus.t }.

(** [by_id] of [ChildSessionRegistry]. *)
Abbreviation Registry := (gmap string ChildSession).
Definition u32_max : Z := 2 ^ 32 - 1.

(* chisl-ai-agent/src/manager/remote/subagent.rs:94-137 try_register_from_session_created *)
Definition try_register_from_session_created (props : json) (own_parent_session : string) (reg : Registry) (now_ms : Z) :
    option (ChildSession * Registry) :=
  let info := default props (field "info" props) in
  match str_field "id" info, str_field "parentID" info with
  | Some child_id, Some parent_id =>
      if negb (String.eqb parent_id own_parent_session) then None
      else match reg !! child_id with
      | Some _ => None
      | None =>
          let session := mk_child child_id (str_field "agent" info <|> str_field "agentName" info)
            (default now_ms (path_field ["time"; "created"] info ≫= as_i64)) None 0 None now_ms ∅ None in
          Some (session, <[child_id := session]> reg)
      end
  | _, _ => None
  end.

(* chisl-ai-agent/src/manager/remote/subagent.rs:143-170 note_tool_part *)
Definition note_tool_part (reg : Registry) (child_id part_id : string) (tool_name : option string) (now_ms : Z) :
    bool * Registry :=
  match reg !! child_id with
  | None => (false, reg)
  | Some child =>
      let changed_active := match current_tool_name child, tool_name with
        | None, Some _ => true
        | Some existing, Some n => negb (String.eqb existing n)
        | _, None => false end in
      let first_for_part := negb (bool_decide (part_id ∈ seen_part_ids child)) in
      let child' := mk_child (child_session_id child) (agent_name child) (started_at_ms child) (completed_at_ms child)
        (if first_for_part then Z.min (tool_calls_count child + 1) u32_max else tool_calls_count child)
        (if changed_active then tool_name else current_tool_name child) now_ms ({[part_id]} ∪ seen_part_ids child)
        (status child) in
      (first_for_part || changed_active, <[child_id := child']> reg)
  end.

(* chisl-ai-agent/src/manager/remote/subagent.rs:176-201 mark_completed *)
Definition mark_completed (reg : Registry) (child_id : string) (st : OpencodeSubtaskStatus.t) (now_ms : Z) :
    option (ChildSession * Registry) :=
  match reg !! child_id with
  | None => None
  | Some child =>
      if status child is Some _ then None else
      let child' := mk_child (child_session_id child) (agent_name child) (started_at_ms child) (Some now_ms)
        (tool_calls_count child) (current_tool_name child) now_ms (seen_part_ids child) (Some st) in
      Some (child', <[child_id := child']> reg)
  end.

(* chisl-ai-agent/src/manager/remote/subagent.rs:271-277 live_summary_of *)
Definition live_summary_of (c : ChildSession) : OpencodeSubtaskLiveSummary :=
  mk_live_summary (tool_calls_count c) (current_tool_name c) (last_event_at_ms c).
(* chisl-ai-agent/src/manager/remote/subagent.rs:204-223 emit_started *)
Definition emit_started (parent : string) (c : ChildSession) : AgentStreamEvent.t :=
  AgentStreamEvent.OpencodeSubtask (OpencodeSubtaskEventData.mk parent (child_session_id c) OpencodeSubtaskPhase.Started
    (agent_name c) (Some (live_summary_of c)) None None (Some (started_at_ms c)) None).
(* chisl-ai-agent/src/manager/remote/subagent.rs:226-246 emit_progress *)
Definition emit_progress (parent : string) (c : ChildSession) : AgentStreamEvent.t :=
  AgentStreamEvent.OpencodeSubtask (OpencodeSubtaskEventData.mk parent (child_session_id c) OpencodeSubtaskPhase.Progress
    (agent_name c) (Some (live_summary_of c)) None None (Some (started_at_ms c)) None).
(* chisl-ai-agent/src/manager/remote/subagent.rs:249-269 emit_completed *)
Definition emit_completed (parent : string) (c : ChildSession) (summary : option string) : AgentStreamEvent.t :=
  AgentStreamEvent.OpencodeSubtask (OpencodeSubtaskEventData.mk parent (child_session_id c) OpencodeSubtaskPhase.Completed
    (agent_name c) (Some (live_summary_of c)) (status c) summary (Some (started_at_ms c)) (completed_at_ms c)).
End Subagent.

(* ------------------------------------------------------------------ *)
(** ** Questions *)

Module OpencodeQuestion.
(* chisl-ai-agent/src/manager/remote/opencode_question.rs:51-51 QUESTION_REJECT_VALUE *)
Definition QUESTION_REJECT_VALUE : string := "__question_reject__".
(* chisl-ai-agent/src/manager/remote/opencode_question.rs:54-54 QUESTION_REJECT_LABEL *)
Definition QUESTION_REJECT_LABEL : string := "Reject".
(* chisl-ai-agent/src/manager/remote/opencode_question.rs:57-57 CALL_ID_PREFIX *)
Definition CALL_ID_PREFIX : string := "question-".
(* chisl-ai-agent/src/manager/remote/opencode_question.rs:62-62 QUESTION_ALL_VALUE *)
Definition QUESTION_ALL_VALUE : string := "__question_all__".
(* chisl-ai-agent/src/manager/remote/opencode_question.rs:66-66 QUESTION_FREEFORM_VALUE *)
Definition QUESTION_FREEFORM_VALUE : string := "__question_freeform__".

(* chisl-ai-agent/src/manager/remote/opencode_question.rs:70-81 ParsedQuestion *)
Record ParsedQuestion := mk_question {
  header : string; question : string; options : list (string * string); multiple : bool; custom : bool; secret : bool }.
(* chisl-ai-agent/src/manager/remote/opencode_question.rs:85-89 ParsedQuestionRequest *)
Record ParsedQuestionRequest := mk_request {
  request_id : string; session_id : option string; questions : list ParsedQuestion }.

(* chisl-ai-agent/src/manager/remote/opencode_question.rs:94-99 PendingQuestion *)
Record PendingQuestion := mk_pending {
  pending_request_id : string; pending_session_id : option string; answers : list (option (list string)) }.
(* chisl-ai-agent/src/manager/remote/opencode_question.rs:102-108 PendingQuestion::new *)
Definition new (req : ParsedQuestionRequest) : PendingQuestion :=
  mk_pending (request_id req) (session_id req) (replicate (length (questions req)) None).
(* chisl-ai-agent/src/manager/remote/opencode_question.rs:112-121 PendingQuestion::record *)
Definition record (index : nat) (labels : list string) (p : PendingQuestion) : PendingQuestion * bool :=
  match answers p !! index with
  | Some slot => (mk_pending (pending_request_id p) (pending_session_id p) (<[index := Some labels]> (answers p)),
                  negb (bool_decide (is_Some slot)))
  | None => (p, false)
  end.
(* chisl-ai-agent/src/manager/remote/opencode_question.rs:124-126 PendingQuestion::is_complete *)
Definition is_complete (p : PendingQuestion) : bool :=
  negb (bool_decide (answers p = [])) && forallb (λ o, bool_decide (is_Some o)) (answers p).
(* chisl-ai-agent/src/manager/remote/opencode_question.rs:130-135 PendingQuestion::collected *)
Definition collected (p : PendingQuestion) : list (list string) := map (default []) (answers p).

Definition parse_option (o : json) : option (string * string) :=
  (λ label, (label, default EmptyString (str_field "description" o))) <$> str_field "label" o.
Definition flag (k : string) (v : json) : bool := default false (field k v ≫= as_bool).
Definition parse_question (q : json) : ParsedQuestion :=
  mk_question (default EmptyString (str_field "header" q)) (default EmptyString (str_field "question" q))
    (match field "options" q ≫= as_array with Some l => omap parse_option (l : list json) | None => [] end)
    (flag "multiple" q) (flag "custom" q) (flag "secret" q && flag "custom" q).
(* chisl-ai-agent/src/manager/remote/opencode_question.rs:140-189 parse_question_request *)
Definition parse_question_request (props : json) : option ParsedQuestionRequest :=
  match str_field "id" props, field "questions" props ≫= as_array with
  | Some id, Some (q :: qs) => Some (mk_request id (str_field "sessionID" props) (map parse_question (q :: qs)))
  | _, _ => None
  end.

(* chisl-ai-agent/src/manager/remote/opencode_question.rs:192-194 question_call_id *)
Definition question_call_id (request_id : string) (index : nat) : string :=
  CALL_ID_PREFIX +:+ request_id +:+ "-" +:+ show_usize (N.of_nat index).
(* chisl-ai-agent/src/manager/remote/opencode_question.rs:197-199 is_question_call_id *)
Definition is_question_call_id (call_id : string) : bool := starts_with CALL_ID_PREFIX call_id.
(* chisl-ai-agent/src/manager/remote/opencode_question.rs:203-211 parse_question_call_id *)
Definition parse_question_call_id (call_id : string) : option (string * nat) :=
  match strip_prefix CALL_ID_PREFIX call_id with
  | None => None
  | Some rest =>
      match rsplit_once dash rest with
      | None => None
      | Some (request_id, index_str) =>
          if String.eqb request_id EmptyString then None
          else (λ n, (request_id, N.to_nat n)) <$> res_ok (parse_usize index_str)
      end
  end.

Definition quote : string := String JsonText.quote EmptyString.
Definition plain_option (label value : string) : ConfirmationOption := mk_option label (Str value) None.
Definition describe (q : ParsedQuestion) : string :=
  question q +:+
  foldr (λ o s, (if String.eqb (snd o) EmptyString then EmptyString else nl +:+ "• " +:+ fst o +:+ " — " +:+ snd o) +:+ s)
    EmptyString (options q) +:+
  (if multiple q then nl +:+ "(server allows multiple answers; pick one, several, or " +:+ quote +:+ "All" +:+ quote +:+ ")"
   else EmptyString) +:+
  (if custom q then nl +:+ "(server allows a custom answer" +:+ (if secret q then " (secret)" else EmptyString) +:+
     "; type your own or pick the closest option)" else EmptyString).
Definition question_options (q : ParsedQuestion) : list ConfirmationOption :=
  map (λ o, plain_option (fst o) (fst o)) (options q) ++
  (if custom q then [mk_option "Type a custom answer" (Str QUESTION_FREEFORM_VALUE)
     (Some (("kind", "freeform") :: if secret q then [("secret", "true")] else []))] else []) ++
  (if multiple q && negb (bool_decide (options q = [])) then [plain_option "All of the above" QUESTION_ALL_VALUE] else []) ++
  [plain_option QUESTION_REJECT_LABEL QUESTION_REJECT_VALUE].
(* chisl-ai-agent/src/manager/remote/opencode_question.rs:217-305 build_question_confirmations *)
Definition build_question_confirmations (req : ParsedQuestionRequest) : list Confirmation.t :=
  imap (λ index q,
    let call_id := question_call_id (request_id req) index in
    Confirmation.mk call_id call_id (Some (if String.eqb (header q) EmptyString then "OpenCode question" else header q))
      (Some "question") (describe q) None (question_options q) (session_id req) None) (questions req).
(* chisl-ai-agent/src/manager/remote/opencode_question.rs:308-318 build_question_reply_request *)
Definition build_question_reply_url (base_url request_id : string) : string :=
  base_url +:+ "/question/" +:+ request_id +:+ "/reply".
(* chisl-ai-agent/src/manager/remote/opencode_question.rs:321-323 build_question_reject_url *)
Definition build_question_reject_url (base_url request_id : string) : string :=
  base_url +:+ "/question/" +:+ request_id +:+ "/reject".
End OpencodeQuestion.

(* ------------------------------------------------------------------ *)
(** ** Tool calls *)

Module OpencodeToolCall.
(** [split_once("__")]: what follows the first. *)
Fixpoint after_underscores (s : string) : option string :=
  match s with
  | EmptyString => None
  | String _ s' => match strip_prefix "__" s with Some t => Some t | None => after_underscores s' end
  end.
(* chisl-ai-agent/src/manager/remote/opencode_tool_call.rs:213-217 strip_mcp_prefix *)
Definition strip_mcp_prefix (tool : string) : string :=
  default tool (strip_prefix "mcp__" tool ≫= after_underscores).
(* chisl-ai-agent/src/manager/remote/opencode_tool_call.rs:24-24 EDIT_TOOL_NAMES *)
Definition EDIT_TOOL_NAMES : list string := ["write"; "edit"; "multiedit"; "patch"; "delete"; "mv"; "move"].
(* chisl-ai-agent/src/manager/remote/opencode_tool_call.rs:28-31 is_edit_tool *)
Definition is_edit_tool (tool_name : string) : bool :=
  existsb (String.eqb (to_ascii_lowercase (strip_mcp_prefix tool_name))) EDIT_TOOL_NAMES.
(* chisl-ai-agent/src/manager/remote/opencode_tool_call.rs:39-52 extract_patch_from_completed *)
Definition extract_patch_from_completed (props : json) : option string :=
  match path_field ["part"; "state"] props with
  | Some state =>
      if String.eqb (default EmptyString (str_field "status" state)) "completed"
      then non_empty (path_field ["metadata"; "patch"] state ≫= as_str) else None
  | None => None
  end.
(* chisl-ai-agent/src/manager/remote/opencode_tool_call.rs:195-205 classify_tool_kind *)
Definition classify_tool_kind (tool : string) : AcpToolCallKind.t :=
  let bare := to_ascii_lowercase (strip_mcp_prefix tool) in
  if existsb (String.eqb bare) ["read"; "grep"; "glob"; "list"; "ls"; "find"; "ripgrep"; "webfetch"; "websearch"]
  then AcpToolCallKind.Read
  else if existsb (String.eqb bare) ["write"; "edit"; "multiedit"; "patch"; "delete"; "mv"; "move"] then AcpToolCallKind.Edit
  else AcpToolCallKind.Execute.
(* chisl-ai-agent/src/manager/remote/opencode_tool_call.rs:209-211 display_tool_name *)
Definition display_tool_name (tool : string) : string := strip_mcp_prefix tool.
(* chisl-ai-agent/src/manager/remote/opencode_tool_call.rs:219-221 is_empty_object *)
Definition is_empty_object (v : json) : bool := match v with Obj [] => true | _ => false end.

Definition status_of (status_str : string) (exit_code : option Z) : AcpToolCallStatus.t :=
  if String.eqb status_str "pending" then AcpToolCallStatus.Pending
  else if String.eqb status_str "running" then AcpToolCallStatus.InProgress
  else if String.eqb status_str "completed"
  then match exit_code with Some c => if c =? 0 then AcpToolCallStatus.Completed else AcpToolCallStatus.Failed
       | None => AcpToolCallStatus.Completed end
  else if String.eqb status_str "error" || String.eqb status_str "failed" then AcpToolCallStatus.Failed
  else AcpToolCallStatus.Pending.

(* chisl-ai-agent/src/manager/remote/opencode_tool_call.rs:71-190 translate_message_part_updated *)
Definition translate_message_part_updated (props : json) (session_id parent_session_id : option string) :
    option AcpToolCallEventData.t :=
  match field "part" props with
  | None => None
  | Some part =>
      if negb (bool_decide (str_field "type" part = Some "tool")) then None else
      let tool_name := default EmptyString (str_field "tool" part) in
      if eq_ignore_ascii_case tool_name "todowrite" then None else
      match str_field "callID" part with
      | None => None
      | Some call_id =>
          let state ks := path_field ("state" :: ks) part in
          let raw_input := match state ["input"] with
            | Some Null => None | Some v => if is_empty_object v then None else Some v | None => None end in
          let output_text := non_empty (state ["output"] ≫= as_str) <|> non_empty (state ["metadata"; "output"] ≫= as_str) in
          Some (AcpToolCallEventData.mk (default EmptyString session_id) parent_session_id
            (AcpToolCallUpdateData.mk AcpToolCallSessionUpdateKind.ToolCallUpdate call_id
              (Some (status_of (default "pending" (state ["status"] ≫= as_str)) (state ["metadata"; "exit"] ≫= as_i64)))
              ((state ["title"] ≫= as_str) <|> (state ["metadata"; "description"] ≫= as_str) <|> Some (display_tool_name tool_name))
              (Some (classify_tool_kind tool_name)) raw_input None
              ((λ text, [AcpToolCallContentItem.Content text]) <$> output_text) None) None)
      end
  end.
End OpencodeToolCall.

(* ------------------------------------------------------------------ *)
(** ** Streamed tool input and progress *)

Module OpencodeStream.
(* chisl-ai-agent/src/manager/remote/opencode_stream.rs:123-136 phase_for_event_type *)
Definition phase_for_event_type (event_type : string) : option ToolInputPhase.t :=
  let one_of := λ l, existsb (String.eqb event_type) l in
  if one_of ["session.next.tool.input.started"; "session.next.tool_input.started"; "message.next.tool.input.started"]
  then Some ToolInputPhase.Started
  else if one_of ["session.next.tool.input.delta"; "session.next.tool_input.delta"; "message.next.tool.input.delta"]
  then Some ToolInputPhase.Delta
  else if one_of ["session.next.tool.input.ended"; "session.next.tool_input.ended"; "message.next.tool.input.ended"]
  then Some ToolInputPhase.Ended
  else None.
(* chisl-ai-agent/src/protocol/events/tool_streaming.rs:68-97 normalize_progress_payload *)
Definition normalize_progress_payload (tool_name : string) (payload : json) : json :=
  if existsb (String.eqb tool_name) ["apply_patch"; "ApplyPatch"]
  then Obj (omap (λ k, (λ v, (k, v)) <$> field k payload)
              ["status"; "step"; "filesTouched"; "filesChanged"; "files_changed"; "summary"])
  else payload.

Definition message_of (props : json) : option string := str_field "messageID" props <|> str_field "message_id" props.
Definition part_of (props : json) : option string := str_field "partID" props <|> str_field "part_id" props.
(* chisl-ai-agent/src/manager/remote/opencode_stream.rs:32-82 translate_tool_input *)
Definition translate_tool_input (event_type : string) (props : json) (session_id : string) (parent : option string) :
    option AgentStreamEvent.t :=
  match phase_for_event_type event_type, message_of props, part_of props with
  | Some phase, Some message_id, Some part_id =>
      Some (AgentStreamEvent.ToolInput (ToolInputEventData.mk session_id parent message_id part_id phase
        ((field "toolName" props <|> field "tool_name" props) ≫= as_str)
        ((field "inputDelta" props <|> field "input_delta" props) ≫= as_str)
        (field "finalInput" props <|> field "final_input" props)
        ((field "startedAt" props <|> field "started_at" props) ≫= as_i64)
        ((field "completedAt" props <|> field "completed_at" props) ≫= as_i64)))
  | _, _, _ => None
  end.
(* chisl-ai-agent/src/manager/remote/opencode_stream.rs:86-121 translate_tool_progress *)
Definition translate_tool_progress (props : json) (session_id : string) (parent : option string) (now_ms : Z) :
    option AgentStreamEvent.t :=
  match message_of props, part_of props with
  | Some message_id, Some part_id =>
      let tool_name := default EmptyString ((field "toolName" props <|> field "tool_name" props) ≫= as_str) in
      Some (AgentStreamEvent.ToolProgress (ToolProgressEventData.mk session_id parent message_id part_id tool_name
        (normalize_progress_payload tool_name (default Null (field "progress" props)))
        (default now_ms (field "at" props ≫= as_i64))))
  | _, _ => None
  end.
End OpencodeStream.

(* ------------------------------------------------------------------ *)
(** ** Models *)

Module OpencodeModels.
Definition models_of (provider : json) : list (string * json) := default [] (field "models" provider ≫= as_object).
(** The models of a provider with their context windows. *)
Definition limits_of (provider : json) : list (string * Z) :=
  omap (λ kv, match path_field ["limit"; "context"] (snd kv) ≫= as_u64 with
              | Some ctx => if 0 <? ctx then Some (fst kv, ctx) else None | None => None end) (models_of provider).
(* chisl-ai-agent/src/manager/remote/opencode_models.rs:95-118 parse_context_limits *)
Definition parse_context_limits (body : json) : gmap string Z :=
  foldl (λ m kv, <[fst kv := snd kv]> m) ∅ (concat (map limits_of (default [] (field "providers" body ≫= as_array)))).

Record ModelInfoEntry := mk_entry { id : string; label : string }.
(* chisl-ai-agent/src/manager/remote/opencode_models.rs:61-90 parse_provider_model_entries *)
Definition parse_provider_model_entries (body : json) : list ModelInfoEntry :=
  let connected := match field "connected" body ≫= as_array with Some l => omap as_str (l : list json) | None => [] end in
  concat (map (λ provider,
    match str_field "id" provider with
    | Some provider_id =>
        if bool_decide (connected = []) || existsb (String.eqb provider_id) connected
        then map (λ kv, mk_entry (provider_id +:+ "::" +:+ fst kv)
                          ("[" +:+ provider_id +:+ "] " +:+ default (fst kv) (str_field "name" (snd kv)))) (models_of provider)
        else []
    | None => []
    end) (default [] (field "all" body ≫= as_array))).

(* chisl-ai-agent/src/manager/remote/opencode_models.rs:125-137 context_tokens_used *)
Definition context_tokens_used (tokens : json) : Z :=
  let at_ ks := default 0 (path_field ks tokens ≫= as_u64) in
  w64 (at_ ["input"] + at_ ["output"] + at_ ["reasoning"] + at_ ["cache"; "read"] + at_ ["cache"; "write"]).
End OpencodeModels.

(* ------------------------------------------------------------------ *)
(** ** Slash commands *)

Module OpencodeCommands.
(* chisl-ai-agent/src/manager/remote/opencode_commands.rs:25-39 OpenCodeCommand *)
Record OpenCodeCommand := mk_command {
  name : string; description : option string; template : option string; agent : option string; model : option string;
  source : option string; subtask : option bool }.

Definition is_name_char (a : Ascii.ascii) : bool :=
  let b := byte_of a in
  ((48 <=? b) && (b <=? 57)) || ((65 <=? b) && (b <=? 90)) || ((97 <=? b) && (b <=? 122)) || (b =? 95) || (b =? 45).
(** The text before the first character that no name has, and from it on. *)
Fixpoint split_name (s : string) : string * string :=
  match s with
  | EmptyString => (EmptyString, EmptyString)
  | String a s' => if is_name_char a then (λ '(x, y), (String a x, y)) (split_name s') else (EmptyString, s)
  end.
(* chisl-ai-agent/src/manager/remote/opencode_commands.rs:102-113 parse_invocation *)
Definition parse_invocation (content : string) : option (string * string) :=
  match strip_prefix "/" content with
  | None => None
  | Some rest => let '(name, args) := split_name rest in
                 if String.eqb name EmptyString then None else Some (name, trim args)
  end.

(** [\$(ARGUMENTS|[1-9])(\D|$)] on the characters of the template: the token and the rest
    from the character after it; [nd] is the digit class of the regular expressions. *)
Definition token_at (nd : Z → bool) (l : list Z) : option (option nat * list Z) :=
  let ends (l : list Z) := match l with [] => true | c :: _ => negb (nd c) end in
  match l with
  | 36 :: l' =>
      if bool_decide (take 9 l' = chars "ARGUMENTS") && ends (drop 9 l') then Some (None, drop 9 l')
      else match l' with
      | d :: l'' => if (49 <=? d) && (d <=? 57) && ends l'' then Some (Some (Z.to_nat (d - 49)), l'') else None
      | [] => None
      end
  | _ => None
  end.
Fixpoint expand_chars (fuel : nat) (nd : Z → bool) (args : string) (l : list Z) : list Z :=
  match fuel with
  | O => l
  | S fuel =>
      match l with
      | [] => []
      | c :: l' =>
          match token_at nd l with
          | Some (token, rest) =>
              let replacement := match token with None => args | Some i => default EmptyString (split_whitespace args !! i) end in
              (** The character after the token belongs to the match and is written back. *)
              chars replacement ++ match rest with [] => [] | t :: rest => t :: expand_chars fuel nd args rest end
          | None => c :: expand_chars fuel nd args l'
          end
      end
  end.
(* chisl-ai-agent/src/manager/remote/opencode_commands.rs:121-144 expand_template *)
Definition expand_template (nd : Z → bool) (template args : string) : string :=
  let l := chars template in from_chars (expand_chars (length l) nd args l).
End OpencodeCommands.

(* ------------------------------------------------------------------ *)
(** ** The query context of requests *)

Module RemoteAgentConfig.
(* chisl-ai-agent/src/manager/remote/agent.rs:235-247 RemoteAgentConfig *)
Record t := mk {
  remote_agent_id : string; protocol : string; url : string; auth_type : string; auth_token : option string;
  allow_insecure : bool; tool_host : string }.
End RemoteAgentConfig.
(* chisl-ai-agent/src/manager/remote/agent.rs:256-258 is_opencode_protocol *)
Definition is_opencode_protocol (protocol : string) : bool := String.eqb protocol "opencode".
(* chisl-ai-agent/src/manager/remote/agent.rs:252-254 is_server_tool_host *)
Definition is_server_tool_host (cfg : RemoteAgentConfig.t) : bool :=
  is_opencode_protocol (RemoteAgentConfig.protocol cfg) && String.eqb (RemoteAgentConfig.tool_host cfg) "server".

Module OpencodeContext.
Definition unreserved (b : Z) : bool :=
  ((65 <=? b) && (b <=? 90)) || ((97 <=? b) && (b <=? 122)) || ((48 <=? b) && (b <=? 57)) ||
  existsb (Z.eqb b) [45; 95; 46; 126; 47].
(** The upper-case digit of [{b:02X}]. *)
Definition upper_hex (n : Z) : Ascii.ascii := of_byte (if n <? 10 then 48 + n else 55 + n).
(* chisl-ai-agent/src/manager/remote/opencode_context.rs:11-22 encode_query_value *)
Fixpoint encode_query_value (s : string) : string :=
  match s with
  | EmptyString => EmptyString
  | String a s' =>
      let b := byte_of a in
      if unreserved b then String a (encode_query_value s')
      else String (of_byte 37) (String (upper_hex (b / 16)) (String (upper_hex (b mod 16)) (encode_query_value s')))
  end.
(* chisl-ai-agent/src/manager/remote/opencode_context.rs:25-34 server_directory *)
Definition server_directory (cfg : RemoteAgentConfig.t) (workspace : string) : option string :=
  if is_server_tool_host cfg then non_empty (Some (trim workspace)) else None.
Definition separator (url : string) : string := if contains url "?" then "&" else "?".
(* chisl-ai-agent/src/manager/remote/opencode_context.rs:48-56 append_v1_directory_value *)
Definition append_v1_directory_value (url : string) (directory : option string) : string :=
  match directory with
  | Some dir => if String.eqb (trim dir) EmptyString then url
                else url +:+ separator url +:+ "directory=" +:+ encode_query_value dir
  | None => url
  end.
(* chisl-ai-agent/src/manager/remote/opencode_context.rs:37-39 append_v1_directory *)
Definition append_v1_directory (url : string) (cfg : RemoteAgentConfig.t) (workspace : string) : string :=
  append_v1_directory_value url (server_directory cfg workspace).
(* chisl-ai-agent/src/manager/remote/opencode_context.rs:59-65 append_v2_location *)
Definition append_v2_location (url : string) (cfg : RemoteAgentConfig.t) (workspace : string) : string :=
  match server_directory cfg workspace with
  | Some dir => url +:+ separator url +:+ "location[directory]=" +:+ encode_query_value dir
  | None => url
  end.
End OpencodeContext.
