(* ===== verification/RemoteSse.v ===== *)
(** * RemoteSse: reading the event stream of an OpenCode server

    [run_event_reader] of [manager/remote/agent.rs] and what it is made of: the search for
    the end of a frame in the bytes received so far, the decoding of a frame into lines and
    of its [data:] lines into events, and the pass over the stream with its reasons to stop.
    What the agent does with an event is the class [EventSink], which [RemoteAgent] fills. *)

From S2P Require Import Prelude.
From S2P Require Import Text.
From S2P Require Import JsonValue.
From S2P Require Import TeamTypes.
From S2P Require Import Common.
From S2P Require Import AgentEvents.
From S2P Require Import OpenCode.

(* ------------------------------------------------------------------ *)
(** ** Frames *)

(** The first window of [haystack] equal to [needle]. *)
Fixpoint position_of (needle haystack : list Z) : option nat :=
  if bool_decide (take (length needle) haystack = needle) then Some 0%nat
  else match haystack with [] => None | _ :: rest => S <$> position_of needle rest end.
(* chisl-ai-agent/src/manager/remote/agent.rs:892-897 find_subsequence *)
Definition find_subsequence (haystack needle : list Z) : option nat :=
  if bool_decide (needle = []) || (length haystack <? length needle)%nat then None else position_of needle haystack.
Definition lf2 : list Z := [10; 10].
Definition crlf2 : list Z := [13; 10; 13; 10].
(* chisl-ai-agent/src/manager/remote/agent.rs:878-887 sse_frame_boundary *)
Definition sse_frame_boundary (buf : list Z) : option nat :=
  match find_subsequence buf lf2, find_subsequence buf crlf2 with
  | Some a, Some b => Some (Nat.min a b)
  | Some a, None => Some a
  | None, Some b => Some b
  | None, None => None
  end.
(** The first frame of the buffer without its boundary, and what is left. *)
(* chisl-ai-agent/src/manager/remote/agent.rs:802-819 run_event_reader *)
Definition take_frame (buffer : list Z) : option (list Z * list Z) :=
  match sse_frame_boundary buffer with
  | None => None
  | Some pos =>
      let boundary_len := if bool_decide (take 4 (drop pos buffer) = crlf2) then 4%nat else 2%nat in
      Some (take pos buffer, drop (pos + boundary_len) buffer)
  end.

(* chisl-ai-agent/src/manager/remote/agent.rs:902-923 normalise_sse_crlf *)
Fixpoint normalise_sse_crlf (s : string) : string :=
  match s with
  | String a s' =>
      if Ascii.eqb a carriage_return
      then match s' with
           | String b _ => if Ascii.eqb b newline then normalise_sse_crlf s' else String a (normalise_sse_crlf s')
           | EmptyString => String a EmptyString
           end
      else String a (normalise_sse_crlf s')
  | EmptyString => EmptyString
  end.
(** What a frame says: nothing when it is not text. *)
(* chisl-ai-agent/src/manager/remote/agent.rs:825-842 run_event_reader *)
Definition data_of_frame (frame : list Z) : list string :=
  match from_utf8 frame with
  | Some text => omap (strip_prefix "data: ") (lines (normalise_sse_crlf text))
  | None => []
  end.

(* ------------------------------------------------------------------ *)
(** ** A pass over the stream *)

(* chisl-ai-agent/src/manager/remote/agent.rs:273-281 unwrap_event *)
Definition unwrap_event (raw : json) : json :=
  match raw with Obj m => default (Obj m) (entry "payload" m) | other => other end.

Module ReaderExit.
(* chisl-ai-agent/src/manager/remote/agent.rs:685-696 ReaderExit *)
Inductive t := ConnectFailed | Eof | StreamError | HeartbeatTimeout | ServerDisposed.
#[global] Instance t_dec : EqDecision t.
Proof. solve_decision. Defined.
End ReaderExit.

(** What the stream gives within the heartbeat window. *)
Inductive received := Chunk (bytes : list Z) | Broken | Closed | Silence.

(** What the agent does with an event, and on the lifecycle events of the stream. *)
Class EventSink (S : Type) := {
  handle_opencode_sse_event : string → S → S;
  replay_pending_confirmations : S → S;
  mark_connected : S → S;
}.

Section reader.
Context `{JsonCodec} {Agent : Type} `{!EventSink Agent}.

(** The agent, and [saw_connected]. *)
Record pass := mk_pass { agent : Agent; saw_connected : bool }.

Definition event_type (data : string) : option string := from_str data ≫= (λ v, str_field "type" (unwrap_event v)).
(* chisl-ai-agent/src/manager/remote/agent.rs:842-864 run_event_reader *)
Definition on_data (data : string) (p : pass) : pass * option ReaderExit.t :=
  if bool_decide (event_type data = Some "server.connected") then
    (mk_pass (handle_opencode_sse_event data
       (if saw_connected p then replay_pending_confirmations (agent p) else mark_connected (agent p))) true, None)
  else if bool_decide (event_type data = Some "server.instance.disposed") then (p, Some ReaderExit.ServerDisposed)
  else (mk_pass (handle_opencode_sse_event data (agent p)) (saw_connected p), None).
Fixpoint on_all (ds : list string) (p : pass) : pass * option ReaderExit.t :=
  match ds with
  | [] => (p, None)
  | d :: ds => match on_data d p with (p, None) => on_all ds p | stop => stop end
  end.
(** The [while let] that drains the complete frames; every frame takes bytes. *)
(* chisl-ai-agent/src/manager/remote/agent.rs:802-868 run_event_reader *)
Fixpoint drain_frames (fuel : nat) (buffer : list Z) (p : pass) : list Z * (pass * option ReaderExit.t) :=
  match fuel with
  | O => (buffer, (p, None))
  | S fuel =>
      match take_frame buffer with
      | None => (buffer, (p, None))
      | Some (frame, rest) =>
          match on_all (data_of_frame frame) p with
          | (p, None) => drain_frames fuel rest p
          | stop => (rest, stop)
          end
      end
  end.
(* chisl-ai-agent/src/manager/remote/agent.rs:773-868 run_event_reader *)
Fixpoint read_loop (items : list received) (buffer : list Z) (p : pass) : pass * option ReaderExit.t :=
  match items with
  | [] => (p, None)
  | Silence :: _ => (p, Some ReaderExit.HeartbeatTimeout)
  | Closed :: _ => (p, Some ReaderExit.Eof)
  | Broken :: _ => (p, Some ReaderExit.StreamError)
  | Chunk chunk :: items =>
      let buffer := buffer ++ chunk in
      match drain_frames (length buffer) buffer p with
      | (buffer, (p, None)) => read_loop items buffer p
      | (_, stop) => stop
      end
  end.
(** [None]: the pass still waits for the stream; [stream] is [None] when the request fails. *)
(* chisl-ai-agent/src/manager/remote/agent.rs:738-869 run_event_reader *)
Definition run_event_reader (stream : option (list received)) (s : Agent) : Agent * option ReaderExit.t :=
  match stream with
  | None => (s, Some ReaderExit.ConnectFailed)
  | Some items => let '(p, exit) := read_loop items [] (mk_pass s false) in (agent p, exit)
  end.

End reader.

(* ------------------------------------------------------------------ *)
(** ** Where a frame ends *)

Definition window (needle l : list Z) (n : nat) : Prop := take (length needle) (drop n l) = needle.

Lemma position_of_Some needle l n : needle ≠ [] → position_of needle l = Some n →
  window needle l n ∧ ∀ m, (m < n)%nat → ¬ window needle l m.
Proof.
  intros Hne. revert n. induction l as [|x l IH]; intros n; cbn [position_of]; case_bool_decide as Hw; try done.
  - intros [= <-]. split; [by unfold window; rewrite drop_0|lia].
  - intros [= <-]. split; [by unfold window; rewrite drop_0|lia].
  - destruct (position_of needle l) as [m|]; [|done]. intros [= <-]. destruct (IH m eq_refl) as [H1 H2]. split; [done|].
    intros [|k] Hk; [by unfold window; rewrite drop_0|]. apply H2. lia.
Qed.
Lemma position_of_None needle l : needle ≠ [] → position_of needle l = None → ∀ m, ¬ window needle l m.
Proof.
  intros Hne. induction l as [|x l IH]; cbn [position_of]; case_bool_decide as Hw; try done; intros Hp m.
  - unfold window. by rewrite drop_nil, <- (drop_0 ([] : list Z)).
  - destruct (position_of needle l); [done|]. destruct m as [|m]; [by unfold window; rewrite drop_0|]. by apply IH.
Qed.
Lemma find_subsequence_position l needle : needle ≠ [] → find_subsequence l needle = position_of needle l.
Proof.
  intros Hne. unfold find_subsequence. rewrite bool_decide_eq_false_2 by done. simpl.
  destruct (Nat.ltb_spec (length l) (length needle)) as [Hlen|]; [|done]. destruct (position_of needle l) as [n|] eqn:Hp; [|done].
  apply position_of_Some in Hp as [Hw _]; [|done]. apply (f_equal length) in Hw. rewrite length_take, length_drop in Hw. lia.
Qed.

Lemma window_lookup needle l n : window needle l n ↔ ∀ i x, needle !! i = Some x → l !! (n + i)%nat = Some x.
Proof.
  unfold window. split.
  - intros Hw i x Hi. pose proof (lookup_lt_Some _ _ _ Hi). rewrite <- Hw in Hi. rewrite lookup_take in Hi.
    rewrite decide_True in Hi by done. by rewrite lookup_drop in Hi.
  - intros Hl. apply list_eq. intros i. destruct (decide (i < length needle)%nat) as [Hi|Hi].
    + apply lookup_lt_is_Some in Hi as [x Hx]. rewrite Hx, lookup_take, decide_True by (by eapply lookup_lt_Some).
      rewrite lookup_drop. by apply Hl.
    + rewrite lookup_take, decide_False by done. symmetry. by apply lookup_ge_None, Nat.nlt_ge.
Qed.
(** A frame ends at a blank line of either kind. *)
Definition ends_at (l : list Z) (n : nat) : Prop := window lf2 l n ∨ window crlf2 l n.
Lemma window_lf2 l n : window lf2 l n ↔ l !! n = Some 10 ∧ l !! S n = Some 10.
Proof.
  rewrite window_lookup. split.
  - intros Hw. pose proof (Hw 0%nat 10 eq_refl). pose proof (Hw 1%nat 10 eq_refl).
    by replace (n + 0)%nat with n in * by lia; replace (n + 1)%nat with (S n) in * by lia.
  - intros [H0 H1] [|[|i]] x; simpl; [intros [= <-]|intros [= <-]|done].
    + by replace (n + 0)%nat with n by lia.
    + by replace (n + 1)%nat with (S n) by lia.
Qed.
Lemma window_crlf2 l n : window crlf2 l n ↔
  l !! n = Some 13 ∧ l !! S n = Some 10 ∧ l !! S (S n) = Some 13 ∧ l !! S (S (S n)) = Some 10.
Proof.
  rewrite window_lookup. split.
  - intros Hw. pose proof (Hw 0%nat 13 eq_refl). pose proof (Hw 1%nat 10 eq_refl). pose proof (Hw 2%nat 13 eq_refl).
    pose proof (Hw 3%nat 10 eq_refl). replace (n + 0)%nat with n in * by lia. replace (n + 1)%nat with (S n) in * by lia.
    replace (n + 2)%nat with (S (S n)) in * by lia. by replace (n + 3)%nat with (S (S (S n))) in * by lia.
  - intros (H0&H1&H2&H3) [|[|[|[|i]]]] x; simpl; try done; intros [= <-].
    + by replace (n + 0)%nat with n by lia.
    + by replace (n + 1)%nat with (S n) by lia.
    + by replace (n + 2)%nat with (S (S n)) by lia.
    + by replace (n + 3)%nat with (S (S (S n))) by lia.
Qed.

Lemma boundary_Some l n : sse_frame_boundary l = Some n ↔ ends_at l n ∧ ∀ m, (m < n)%nat → ¬ ends_at l m.
Proof.
  unfold sse_frame_boundary, ends_at. rewrite !find_subsequence_position by done.
  destruct (position_of lf2 l) as [a|] eqn:Ha; [apply position_of_Some in Ha as [Ha1 Ha2]; [|done]|pose proof (position_of_None lf2 l) as Ha2];
    (destruct (position_of crlf2 l) as [b|] eqn:Hb; [apply position_of_Some in Hb as [Hb1 Hb2]; [|done]|pose proof (position_of_None crlf2 l) as Hb2]).
  - split.
    + intros [= <-]. split; [destruct (Nat.min_spec a b) as [[_ ->]|[_ ->]]; auto|]. intros m Hm [?|?]; [apply (Ha2 m)|apply (Hb2 m)]; auto; lia.
    + intros [Hn Hm]. f_equal. apply Nat.le_antisymm.
      * destruct Hn as [Hn|Hn]; [|]; apply Nat.nlt_ge; intros Hlt; [apply (Ha2 n)|apply (Hb2 n)]; auto; lia.
      * apply Nat.min_glb; apply Nat.nlt_ge; intros Hlt; eapply Hm; eauto.
  - specialize (Hb2 ltac:(done) Hb). split.
    + intros [= <-]. split; [auto|]. intros m Hm [?|?]; [by apply (Ha2 m)|by apply (Hb2 m)].
    + intros [[Hn|Hn] Hm]; [|by destruct (Hb2 n)]. f_equal. apply Nat.le_antisymm; apply Nat.nlt_ge; intros Hlt; [by apply (Ha2 n)|eapply Hm; eauto].
  - specialize (Ha2 ltac:(done) Ha). split.
    + intros [= <-]. split; [auto|]. intros m Hm [?|?]; [by apply (Ha2 m)|by apply (Hb2 m)].
    + intros [[Hn|Hn] Hm]; [by destruct (Ha2 n)|]. f_equal. apply Nat.le_antisymm; apply Nat.nlt_ge; intros Hlt; [by apply (Hb2 n)|eapply Hm; eauto].
  - specialize (Ha2 ltac:(done) Ha). specialize (Hb2 ltac:(done) Hb). split; [done|]. intros [[Hn|Hn] _]; [by destruct (Ha2 n)|by destruct (Hb2 n)].
Qed.

(** What has arrived already decides where its first frame ends. *)
Lemma boundary_app a b n : sse_frame_boundary a = Some n → sse_frame_boundary (a ++ b) = Some n.
Proof.
  rewrite !boundary_Some. unfold ends_at. setoid_rewrite window_lf2. setoid_rewrite window_crlf2.
  intros [Hn Hmin]. split.
  { destruct Hn as [(?&?)|(?&?&?&?)]; [left|right]; split_and!; by apply lookup_app_l_Some. }
  assert (S n < length a)%nat as Hlen.
  { destruct Hn as [(_&H1)|(_&H1&_)]; by apply lookup_lt_Some in H1. }
  intros m Hm [(H0&H1)|(H0&H1&H2&H3)].
  - apply (Hmin m Hm). left. rewrite lookup_app_l in H0, H1 by lia. done.
  - rewrite lookup_app_l in H0, H1, H2 by lia. destruct (decide (S (S (S m)) < length a)%nat) as [Hl|Hl].
    + apply (Hmin m Hm). right. rewrite lookup_app_l in H3 by lia. done.
    + assert (n = S m) as -> by lia. destruct Hn as [(_&Hn)|(Hn&_)]; congruence.
Qed.
Lemma take_frame_app a b f r : take_frame a = Some (f, r) → take_frame (a ++ b) = Some (f, r ++ b).
Proof.
  unfold take_frame. destruct (sse_frame_boundary a) as [n|] eqn:Hn; [|done]. rewrite (boundary_app a b n) by done.
  apply boundary_Some in Hn as [Hn _]. intros [= <- <-].
  assert (bool_decide (take 4 (drop n (a ++ b)) = crlf2) = bool_decide (take 4 (drop n a) = crlf2)) as ->.
  { apply bool_decide_ext. change (window crlf2 (a ++ b) n ↔ window crlf2 a n). rewrite !window_crlf2. split.
    - intros (H0&H1&H2&H3). destruct Hn as [Hn|Hn]; [|by apply window_crlf2].
      apply window_lf2 in Hn as [Hn _]. rewrite lookup_app_l in H0 by (by eapply lookup_lt_Some). congruence.
    - intros (?&?&?&?). split_and!; by apply lookup_app_l_Some. }
  assert (n + (if bool_decide (take 4 (drop n a) = crlf2) then 4 else 2) ≤ length a)%nat as Hlen.
  { case_bool_decide as Hc; [apply (window_crlf2 a n) in Hc as (_&_&_&Hc); apply lookup_lt_Some in Hc; lia|].
    destruct Hn as [Hn|Hn]; [|done]. apply window_lf2 in Hn as [_ Hn]. apply lookup_lt_Some in Hn. lia. }
  rewrite take_app_le, drop_app_le by lia. done.
Qed.
Lemma take_frame_length a f r : take_frame a = Some (f, r) → (length r < length a)%nat.
Proof.
  unfold take_frame. destruct (sse_frame_boundary a) as [n|] eqn:Hn; [|done]. apply boundary_Some in Hn as [Hn _].
  intros [= <- <-]. rewrite length_drop.
  assert (n < length a)%nat by (destruct Hn as [Hn|Hn]; [apply window_lf2 in Hn as [Hn _]|apply window_crlf2 in Hn as [Hn _]]; by apply lookup_lt_Some in Hn).
  case_bool_decide; lia.
Qed.

(* ------------------------------------------------------------------ *)
(** ** The frames of a buffer *)

Fixpoint frames (fuel : nat) (buffer : list Z) : list (list Z) * list Z :=
  match fuel with
  | O => ([], buffer)
  | S fuel => match take_frame buffer with
              | None => ([], buffer)
              | Some (f, rest) => let '(fs, r) := frames fuel rest in (f :: fs, r)
              end
  end.
Definition all_frames (buffer : list Z) : list (list Z) * list Z := frames (length buffer) buffer.

Lemma frames_fuel n m b : (length b ≤ n)%nat → (length b ≤ m)%nat → frames n b = frames m b.
Proof.
  revert m b. induction n as [|n IH]; intros m b Hn Hm.
  - destruct b; [|simpl in Hn; lia]. destruct m; done.
  - destruct m as [|m]; [destruct b; [done|simpl in Hm; lia]|]. simpl. destruct (take_frame b) as [[f r]|] eqn:Ht; [|done].
    apply take_frame_length in Ht. rewrite (IH m r) by lia. done.
Qed.
Lemma all_frames_eq b : all_frames b =
  match take_frame b with None => ([], b) | Some (f, r) => let '(fs, r') := all_frames r in (f :: fs, r') end.
Proof.
  unfold all_frames. destruct b as [|x b]; [done|]. cbn [length frames].
  destruct (take_frame (x :: b)) as [[f r]|] eqn:Ht; [|done]. apply take_frame_length in Ht. simpl in Ht.
  by rewrite (frames_fuel (length b) (length r) r) by lia.
Qed.
Lemma all_frames_app a b :
  all_frames (a ++ b) = let '(fs, r) := all_frames a in let '(gs, r') := all_frames (r ++ b) in (fs ++ gs, r').
Proof.
  remember (length a) as n eqn:Hn. revert a Hn. induction (lt_wf n) as [n _ IH]. intros a ->.
  rewrite (all_frames_eq a). destruct (take_frame a) as [[f r]|] eqn:Ht; [|by destruct (all_frames (a ++ b))].
  rewrite all_frames_eq, (take_frame_app a b f r Ht), (IH (length r) (take_frame_length a f r Ht) r eq_refl).
  destruct (all_frames r) as [fs r']. by destruct (all_frames (r' ++ b)).
Qed.

Section reading.
Context `{JsonCodec} {Agent : Type} `{!EventSink Agent}.
Implicit Types p : @pass Agent.

Lemma on_all_app a b p :
  on_all (a ++ b) p = match on_all a p with (p, None) => on_all b p | stop => stop end.
Proof. revert p. induction a as [|d a IH]; intros p; [done|]. simpl. destruct (on_data d p) as [p' [e|]]; [done|apply IH]. Qed.

Definition data_of (fs : list (list Z)) : list string := concat (map data_of_frame fs).

Lemma drain_frames_eq fuel b p : (length b ≤ fuel)%nat →
  snd (drain_frames fuel b p) = on_all (data_of (all_frames b).1) p ∧
  (snd (snd (drain_frames fuel b p)) = None → fst (drain_frames fuel b p) = (all_frames b).2).
Proof.
  revert b p. induction fuel as [|fuel IH]; intros b p Hl.
  - destruct b; [done|simpl in Hl; lia].
  - simpl. rewrite all_frames_eq. destruct (take_frame b) as [[f r]|] eqn:Ht; [|done].
    apply take_frame_length in Ht. specialize (IH r). destruct (all_frames r) as [fs r'].
    unfold data_of. cbn [fst snd map concat]. rewrite on_all_app.
    destruct (on_all (data_of_frame f) p) as [p' [e|]]; [done|]. apply IH. lia.
Qed.

(** How the stream is cut into chunks does not matter. *)
Lemma read_chunks cs b p : all_frames b = ([], b) →
  read_loop (map Chunk cs) b p = on_all (data_of (all_frames (b ++ concat cs)).1) p.
Proof.
  revert b p. induction cs as [|c cs IH]; intros b p Hb; [by rewrite app_nil_r, Hb|].
  cbn [map read_loop concat]. destruct (drain_frames_eq (length (b ++ c)) (b ++ c) p (le_n _)) as [H1 H2].
  destruct (drain_frames (length (b ++ c)) (b ++ c) p) as [b' [p' e]]. cbn [fst snd] in H1, H2.
  rewrite app_assoc, (all_frames_app (b ++ c)). pose proof (all_frames_app (b ++ c) []) as Hrest.
  rewrite app_nil_r in Hrest. destruct (all_frames (b ++ c)) as [fs r] eqn:Hf. cbn [fst snd] in H1, H2.
  rewrite app_nil_r in Hrest. assert (all_frames r = ([], r)) as Hr.
  { destruct (all_frames r) as [gs r']. injection Hrest as Hgs ->. f_equal.
    apply (app_inv_head fs). by rewrite app_nil_r. }
  destruct (all_frames (r ++ concat cs)) as [gs r'] eqn:Hg. cbn [fst]. unfold data_of in *. rewrite map_app, concat_app, on_all_app, <- H1.
  destruct e as [e|]; [done|]. rewrite (H2 eq_refl), IH by done. by rewrite Hg.
Qed.
End reading.

(* ------------------------------------------------------------------ *)
(** ** What a server sends *)

(** A frame as it is written: lines that end in [\n] or in [\r\n], and a blank line. *)
Record Frame := mk_frame { crlf : bool; body : list string }.
Definition eol (f : Frame) : string := if crlf f then String carriage_return nl else nl.
Definition line_ok (l : string) : bool :=
  bool_decide (from_utf8 (bytes l) = Some l) && negb (has_char newline l) && negb (has_char carriage_return l) &&
  negb (String.eqb l EmptyString).
Definition frame_ok (f : Frame) : bool := forallb line_ok (body f) && negb (bool_decide (body f = [])).
Definition text_of (f : Frame) : string := String.concat (eol f) (body f).
Definition wire (f : Frame) : list Z := bytes (text_of f +:+ eol f +:+ eol f).
(** The events of a frame. *)
Definition data_lines (f : Frame) : list string := omap (strip_prefix "data: ") (body f).

Lemma concat_cons2 sep l l' ls : String.concat sep (l :: l' :: ls) = l +:+ sep +:+ String.concat sep (l' :: ls).
Proof. done. Qed.

Lemma line_ok_true l : line_ok l = true →
  from_utf8 (bytes l) = Some l ∧ has_char newline l = false ∧ has_char carriage_return l = false ∧ l ≠ EmptyString.
Proof.
  unfold line_ok. rewrite !andb_true_iff, bool_decide_eq_true, !negb_true_iff, String.eqb_neq. tauto.
Qed.

(** *** The boundary *)

Lemma boundary_cons x l : ¬ ends_at (x :: l) 0 → sse_frame_boundary (x :: l) = S <$> sse_frame_boundary l.
Proof.
  intros H0. destruct (sse_frame_boundary l) as [n|] eqn:Hn; simpl.
  - apply boundary_Some in Hn as [H1 H2]. apply boundary_Some. split; [done|]. intros [|m] Hm; [done|]. apply H2. lia.
  - destruct (sse_frame_boundary (x :: l)) as [[|n]|] eqn:Hx; [by apply boundary_Some in Hx as [? _]| |done].
    apply boundary_Some in Hx as [H1 H2]. assert (sse_frame_boundary l = Some n) as Hs; [|by rewrite Hs in Hn].
    apply boundary_Some. split; [done|]. intros m Hm. apply (H2 (S m)). lia.
Qed.
Lemma ends_at_0 x l : ends_at (x :: l) 0 → x = 10 ∧ l !! 0%nat = Some 10 ∨ x = 13 ∧ l !! 0%nat = Some 10 ∧ l !! 1%nat = Some 13.
Proof. intros [Hw|Hw]; [apply window_lf2 in Hw as [[= ->] ?]|apply window_crlf2 in Hw as ([= ->]&?&?&_)]; auto. Qed.

Lemma byte_of_char a c : Ascii.eqb c a = false → byte_of a ≠ byte_of c.
Proof.
  intros Hne Hb. apply (f_equal of_byte) in Hb. rewrite !of_byte_of in Hb. subst. by rewrite Ascii.eqb_refl in Hne.
Qed.
Lemma boundary_skip s t : has_char newline s = false → has_char carriage_return s = false →
  sse_frame_boundary (bytes s ++ t) = Nat.add (String.length s) <$> sse_frame_boundary t.
Proof.
  induction s as [|a s IH]; [simpl; by destruct (sse_frame_boundary t)|]. cbn [has_char]. intros [Hn Hns]%orb_false_iff [Hc Hcs]%orb_false_iff.
  change (bytes (String a s) ++ t) with (byte_of a :: (bytes s ++ t)). rewrite boundary_cons.
  - rewrite IH by done. by destruct (sse_frame_boundary t).
  - apply byte_of_char in Hn, Hc. intros [[? _]|[? _]]%ends_at_0; [by apply Hn|by apply Hc].
Qed.

(** The first byte of a line. *)
Lemma line_head l t : line_ok l = true → ∃ b r, bytes l ++ t = b :: r ∧ b ≠ 10 ∧ b ≠ 13.
Proof.
  intros (_&Hn&Hc&He)%line_ok_true. destruct l as [|a l]; [done|]. cbn [has_char] in Hn, Hc.
  apply orb_false_iff in Hn as [Hn _], Hc as [Hc _]. exists (byte_of a), (bytes l ++ t). split; [done|].
  apply byte_of_char in Hn, Hc. done.
Qed.
Lemma boundary_eol f l t : line_ok l = true →
  sse_frame_boundary (bytes (eol f) ++ bytes l ++ t) = Nat.add (String.length (eol f)) <$> sse_frame_boundary (bytes l ++ t).
Proof.
  intros (b&r&Hl&H10&H13)%(line_head l t). rewrite Hl. unfold eol. destruct (crlf f).
  - change (bytes (String carriage_return nl) ++ b :: r) with (13 :: 10 :: b :: r).
    rewrite boundary_cons, boundary_cons; [by destruct (sse_frame_boundary (b :: r))| |];
      intros [(?&?)|(?&?&?)]%ends_at_0; simpl in *; congruence.
  - change (bytes nl ++ b :: r) with (10 :: b :: r). rewrite boundary_cons; [by destruct (sse_frame_boundary (b :: r))|].
    intros [(?&?)|(?&?&?)]%ends_at_0; simpl in *; congruence.
Qed.
Lemma boundary_blank f t : sse_frame_boundary (bytes (eol f +:+ eol f) ++ t) = Some 0%nat.
Proof.
  apply boundary_Some. split; [|lia]. unfold eol. destruct (crlf f); [right; by apply window_crlf2|left; by apply window_lf2].
Qed.
Lemma boundary_wire f t : frame_ok f = true → sse_frame_boundary (wire f ++ t) = Some (String.length (text_of f)).
Proof.
  unfold frame_ok, wire, text_of. rewrite andb_true_iff, negb_true_iff, bool_decide_eq_false. intros [Hb Hne].
  induction (body f) as [|l ls IH]; [done|]. cbn [forallb] in Hb. apply andb_true_iff in Hb as [Hl Hb].
  pose proof (line_ok_true l Hl) as (_&Hn&Hc&_). destruct ls as [|l' ls].
  - cbn [String.concat]. rewrite bytes_app, <- app_assoc, boundary_skip, boundary_blank by done. simpl. f_equal. lia.
  - rewrite concat_cons2. rewrite !app_string_assoc, bytes_app, <- app_assoc, boundary_skip by done.
    specialize (IH Hb ltac:(done)). rewrite bytes_app, <- app_assoc.
    assert (∃ x, bytes (String.concat (eol f) (l' :: ls) +:+ eol f +:+ eol f) ++ t = bytes l' ++ x) as [x Hx].
    { destruct ls as [|l2 ls]; [|rewrite concat_cons2, !app_string_assoc]; rewrite bytes_app, <- app_assoc; eauto. }
    cbn [forallb] in Hb. apply andb_true_iff in Hb as [Hl' _]. rewrite Hx, boundary_eol, <- Hx, IH by done. simpl. f_equal.
    rewrite !str_length_app. lia.
Qed.
Lemma take_frame_wire f t : frame_ok f = true → take_frame (wire f ++ t) = Some (bytes (text_of f), t).
Proof.
  intros Hok. unfold take_frame. rewrite boundary_wire by done. unfold wire. rewrite bytes_app, <- app_assoc.
  assert (∀ x : list Z, take (String.length (text_of f)) (bytes (text_of f) ++ x) = bytes (text_of f) ∧
          ∀ n, drop (String.length (text_of f) + n) (bytes (text_of f) ++ x) = drop n x) as Hx.
  { intros x. pose proof (bytes_length (text_of f)) as Hlen. unfold str_len in Hlen. rewrite <- Hlen. split.
    - by rewrite take_app_length.
    - intros n. by rewrite drop_app_add. }
  destruct (Hx (bytes (eol f +:+ eol f) ++ t)) as [-> Hd].
  pose proof (Hd 0%nat) as Hd0. rewrite Nat.add_0_r, drop_0 in Hd0. rewrite Hd0, Hd. unfold eol. by destruct (crlf f).
Qed.

(** *** The text *)

Lemma from_utf8_Some s : from_utf8 (bytes s) = Some s ↔ Forall (λ c, is_scalar c = true) (chars s) ∧ from_chars (chars s) = s.
Proof.
  unfold from_utf8. rewrite of_bytes_bytes. destruct (forallb is_scalar (chars s)) eqn:Hf; simpl.
  - destruct (String.eqb_spec (from_chars (chars s)) s) as [He|He]; split; try done; [|intros []; done].
    intros _. split; [|done]. apply Forall_forall. intros x Hx. apply (proj1 (forallb_forall _ _) Hf). by apply list_elem_of_In.
  - split; [done|]. intros [Hs _]. exfalso. apply not_true_iff_false in Hf. apply Hf, forallb_forall.
    intros x Hx%list_elem_of_In. by apply (proj1 (Forall_forall _ _) Hs).
Qed.
Lemma decode_chars cs x : Forall (λ c, is_scalar c = true) cs → decode (concat (map encode_char cs) ++ x) = cs ++ decode x.
Proof.
  induction 1 as [|c cs Hc _ IH]; [done|]. cbn [map concat]. by rewrite <- app_assoc, decode_encode_char, IH.
Qed.
Lemma from_utf8_app s t : from_utf8 (bytes s) = Some s → from_utf8 (bytes t) = Some t → from_utf8 (bytes (s +:+ t)) = Some (s +:+ t).
Proof.
  rewrite !from_utf8_Some. intros [Hs1 Hs2] [Ht1 Ht2].
  assert (bytes s = concat (map encode_char (chars s))) as Hb.
  { rewrite <- Hs2 at 1. unfold from_chars. apply bytes_of_bytes. clear Hs2.
    induction Hs1 as [|c cs Hc _ IH]; simpl; [done|]. apply Forall_app; auto using encode_char_bytes. }
  assert (chars (s +:+ t) = chars s ++ chars t) as Hc.
  { unfold chars at 1. rewrite bytes_app, Hb, decode_chars by done. done. }
  rewrite Hc. split; [by apply Forall_app|]. unfold from_chars in *. rewrite map_app, concat_app, of_bytes_app. by rewrite Hs2, Ht2.
Qed.
Lemma utf8_eol f : from_utf8 (bytes (eol f)) = Some (eol f).
Proof. unfold eol. by destruct (crlf f). Qed.
Lemma utf8_text f : forallb line_ok (body f) = true → from_utf8 (bytes (text_of f)) = Some (text_of f).
Proof.
  unfold text_of. induction (body f) as [|l ls IH]; [done|]. cbn [forallb]. intros [Hl Hb]%andb_true_iff.
  pose proof (line_ok_true l Hl) as [Hu _]. destruct ls as [|l' ls]; [done|]. rewrite concat_cons2.
  apply from_utf8_app; [done|]. apply from_utf8_app; [apply utf8_eol|by apply IH].
Qed.

(** *** The lines *)

Lemma normalise_line l t : has_char carriage_return l = false → normalise_sse_crlf (l +:+ t) = l +:+ normalise_sse_crlf t.
Proof.
  induction l as [|a l IH]; [done|]. cbn [has_char]. intros [Ha Hl]%orb_false_iff. rewrite !app_string_cons. cbn [normalise_sse_crlf].
  rewrite Ascii.eqb_sym in Ha. by rewrite Ha, IH.
Qed.
Lemma normalise_eol f t : normalise_sse_crlf (eol f +:+ t) = String newline (normalise_sse_crlf t).
Proof. unfold eol. by destruct (crlf f). Qed.
Lemma lines_text f : frame_ok f = true → lines (normalise_sse_crlf (text_of f)) = body f.
Proof.
  unfold frame_ok, text_of. rewrite andb_true_iff, negb_true_iff, bool_decide_eq_false. intros [Hb Hne].
  induction (body f) as [|l ls IH]; [done|]. cbn [forallb] in Hb. apply andb_true_iff in Hb as [Hl Hb].
  pose proof (line_ok_true l Hl) as (_&Hn&Hc&He). destruct ls as [|l' ls].
  - cbn [String.concat]. rewrite <- (app_string_nil_r l) at 1. rewrite normalise_line, app_string_nil_r by done. by apply lines_last.
  - rewrite concat_cons2, normalise_line, normalise_eol by done. rewrite lines_line by (split; [done|by apply no_char_strip_last]).
    f_equal. by apply IH.
Qed.
Lemma data_of_wire f : frame_ok f = true → data_of_frame (bytes (text_of f)) = data_lines f.
Proof.
  intros Hok. unfold data_of_frame, data_lines. rewrite utf8_text by (by apply andb_true_iff in Hok as [? _]).
  by rewrite lines_text.
Qed.

Section delivery.
Context `{JsonCodec} {Agent : Type} `{!EventSink Agent}.

Lemma all_frames_wire fs tail : forallb frame_ok fs = true → take_frame tail = None →
  (all_frames (concat (map wire fs) ++ tail)).1 = map (λ f, bytes (text_of f)) fs.
Proof.
  intros Hok Ht. induction fs as [|f fs IH]; cbn [map concat].
  - rewrite app_nil_l. by rewrite all_frames_eq, Ht.
  - cbn [forallb] in Hok. apply andb_true_iff in Hok as [Hf Hok].
    rewrite <- app_assoc, all_frames_eq, take_frame_wire by done. specialize (IH Hok).
    destruct (all_frames (concat (map wire fs) ++ tail)) as [gs r]. cbn [fst] in *. by rewrite IH.
Qed.

(** C13: a server that writes frames ([\n] or [\r\n] lines, then a blank line) on the stream has the
    agent handle exactly the events of their [data:] lines, each once and in the order they were
    written, however the network cuts the bytes into chunks, be it inside a character or inside
    the blank line, and whatever unfinished frame follows; the pass ends where the first
    [server.instance.disposed] stands, and otherwise keeps waiting for the stream. *)
Theorem sse_delivers (fs : list Frame) (chunks : list (list Z)) (tail : list Z) (s : Agent) :
  forallb frame_ok fs = true → take_frame tail = None → concat chunks = concat (map wire fs) ++ tail →
  run_event_reader (Some (map Chunk chunks)) s =
    let '(p, exit) := on_all (concat (map data_lines fs)) (mk_pass s false) in (agent p, exit).
Proof.
  intros Hok Ht Hc. unfold run_event_reader. rewrite read_chunks by done. rewrite app_nil_l, Hc, all_frames_wire by done.
  unfold data_of. rewrite map_map. rewrite (map_ext_in _ data_lines); [done|].
  intros f Hf. apply data_of_wire. by apply (proj1 (forallb_forall _ _) Hok).
Qed.
End delivery.

(* ------------------------------------------------------------------ *)
(** ** On an agent that keeps what it is given *)

Module Kept.
#[local] Existing Instance plain_codec.
#[local] Instance kept : EventSink (list string) := {|
  handle_opencode_sse_event d s := s ++ [d];
  replay_pending_confirmations s := s ++ ["replay"];
  mark_connected s := s ++ ["connected"] |}.

Definition event (ty : string) : string := to_string (Obj [("payload", Obj [("type", Str ty)])]).
Definition two_frames : list Frame :=
  [mk_frame true ["id: 1"; "data: " +:+ event "server.connected"]; mk_frame false ["data: " +:+ event "é"]].
(** Three chunks: the first cut is inside [\r\n\r\n], the second inside the two bytes of [é]. *)
Definition sent : list Z := concat (map wire two_frames) ++ [100; 97].
Definition three_chunks : list (list Z) := [take 59 sent; take 44 (drop 59 sent); drop 103 sent].

Example kept_events : run_event_reader (Some (map Chunk three_chunks)) [] =
  (["connected"; event "server.connected"; event "é"], None).
Proof. vm_compute. reflexivity. Qed.
End Kept.

Section kept_witness.
#[local] Existing Instance plain_codec.
#[local] Existing Instance Kept.kept.
Lemma sse_delivers_witness :
  forallb frame_ok Kept.two_frames = true ∧ take_frame [100; 97] = None ∧ concat Kept.three_chunks = Kept.sent ∧
  run_event_reader (Some (map Chunk Kept.three_chunks)) [] =
    let '(p, exit) := on_all (concat (map data_lines Kept.two_frames)) (mk_pass [] false) in (agent p, exit).
Proof.
  split; [vm_compute; reflexivity|]. split; [vm_compute; reflexivity|]. split; [vm_compute; reflexivity|].
  apply (sse_delivers Kept.two_frames Kept.three_chunks [100; 97]); vm_compute; reflexivity.
Defined.
End kept_witness.

Section replay.
Context `{JsonCodec}.
(** A pass that is told once that it is connected replays nothing: the cards that wait for an
    answer are not announced again after a reconnection, which starts a new pass. *)
#[local] Instance noting : EventSink bool := {|
  handle_opencode_sse_event _ s := s; replay_pending_confirmations _ := true; mark_connected s := s |}.
Lemma reconnecting_replays_nothing ds : (length (filter (λ d, event_type d = Some "server.connected") ds) ≤ 1)%nat →
  agent (fst (on_all ds (mk_pass false false))) = false.
Proof.
  assert (∀ saw, (length (filter (λ d, event_type d = Some "server.connected") ds) ≤ if saw : bool then 0 else 1)%nat →
          agent (fst (on_all ds (mk_pass false saw))) = false) as Hsaw; [|by apply (Hsaw false)].
  induction ds as [|d ds IH]; intros saw; [done|]. rewrite filter_cons. cbn [on_all]. unfold on_data. cbn [saw_connected agent].
  destruct (decide (event_type d = Some "server.connected")) as [He|He].
  - rewrite bool_decide_eq_true_2 by done. destruct saw; cbn [length]; [lia|]. intros Hl. apply (IH true). lia.
  - rewrite bool_decide_eq_false_2 by done. intros Hl. case_bool_decide; [done|]. by apply IH.
Qed.
End replay.
