(* ===== verification/AcpErrors.v ===== *)
(** * AcpErrors: what goes wrong with an ACP agent, and what the user is told

    [protocol/error.rs], [manager/acp/stderr_error_extractor.rs],
    [manager/acp/agent_close.rs] and the error helpers of [manager/acp/agent.rs].  The
    SDK's error has a code, a message and JSON data; its code is a number with names for
    some values. *)

From S2P Require Import Prelude.
From S2P Require Import Text.
From S2P Require Import JsonValue.
From S2P Require Import TeamTypes.

Module AgentKillReason.
(* chisl-common/src/enums.rs:210-223 AgentKillReason *)
Inductive t := IdleTimeout | TeamMcpRebuild | TeamDeleted | ConversationDeleted.
End AgentKillReason.

(* chisl-ai-agent/src/protocol/error.rs:140-147 format_exit_detail *)
Definition format_exit_detail (exit_code : option Z) (signal : option string) : string :=
  match exit_code, signal with
  | Some code, Some sig => " (exit code " +:+ show_i64 code +:+ ", " +:+ sig +:+ ")"
  | Some code, None => " (exit code " +:+ show_i64 code +:+ ")"
  | None, Some sig => " (" +:+ sig +:+ ")"
  | None, None => EmptyString
  end.

Module CloseReason.
(* chisl-ai-agent/src/protocol/error.rs:23-47 CloseReason *)
Inductive t :=
| UserCancel
| Killed (reason : option AgentKillReason.t)
| ProcessExited (exit_code : option Z) (signal : option string) (redacted_summary : string)
| Failed (display : string).
(* chisl-ai-agent/src/protocol/error.rs:53-77 CloseReason::user_facing_message *)
Definition user_facing_message (r : t) : string :=
  match r with
  | UserCancel => "Conversation cancelled"
  | Killed (Some AgentKillReason.IdleTimeout) => "Agent killed: idle timeout"
  | Killed (Some AgentKillReason.TeamMcpRebuild) => "Agent killed: team MCP rebuild"
  | Killed (Some AgentKillReason.TeamDeleted) => "Agent killed: team deleted"
  | Killed (Some AgentKillReason.ConversationDeleted) => "Agent killed: conversation deleted"
  | Killed None => "Agent killed"
  | ProcessExited exit_code signal redacted_summary =>
      let detail := format_exit_detail exit_code signal in
      if String.eqb redacted_summary EmptyString then "Agent process exited" +:+ detail
      else "Agent process exited" +:+ detail +:+ ": " +:+ redacted_summary
  | Failed display => display
  end.
End CloseReason.

(** The codes of JSON-RPC and of ACP. *)
Inductive ErrorCode :=
| AuthRequired | ResourceNotFound | MethodNotFound | InvalidParams | ParseError | InvalidRequest
| InternalError | OtherCode (code : Z).
Definition code_number (c : ErrorCode) : Z :=
  match c with
  | ParseError => -32700 | InvalidRequest => -32600 | MethodNotFound => -32601 | InvalidParams => -32602
  | InternalError => -32603 | AuthRequired => -32000 | ResourceNotFound => -32002 | OtherCode n => n
  end.
Record SdkError := mk_sdk_error { code : ErrorCode; message : string; data : option json }.

(* chisl-ai-agent/src/protocol/error.rs:156-162 SDK_DEFAULT_MESSAGES *)
Definition SDK_DEFAULT_MESSAGES : list string :=
  ["Parse error"; "Invalid request"; "Method not found"; "Invalid params"; "Internal error"].


Module AcpError.
Section acp_error.
Context `{JsonCodec}.
(* chisl-ai-agent/src/protocol/error.rs:86-135 AcpError *)
Inductive t :=
| SpawnFailed (message : string)
| StartupCrash (exit_code : option Z) (signal : option string) (stderr : string)
| Disconnected (exit_code : option Z) (signal : option string) (stderr : string)
| AuthRequired | SessionNotFound (session_id : string) | MethodNotFound (method : string)
| InvalidParams (message : string) | AgentInternal (message : string) (code : Z) (data : option json)
| NotConnected | InitTimeout (timeout_secs : Z).

(* chisl-ai-agent/src/protocol/error.rs:164-212 Display for AcpError *)
Definition to_string (e : t) : string :=
  match e with
  | SpawnFailed m => "Failed to spawn agent process: " +:+ m
  | StartupCrash exit_code signal _ =>
      "Agent process exited before initialize handshake completed" +:+ format_exit_detail exit_code signal
  | Disconnected exit_code signal _ => "Agent process disconnected" +:+ format_exit_detail exit_code signal
  | AuthRequired => "Authentication required"
  | SessionNotFound sid => "Session not found: " +:+ sid
  | MethodNotFound m => "Method not supported: " +:+ m
  | InvalidParams m => "Invalid parameters: " +:+ m
  | AgentInternal m code data =>
      let trimmed := trim m in
      let is_default := String.eqb trimmed EmptyString ||
        existsb (λ d, eq_ignore_ascii_case d trimmed) SDK_DEFAULT_MESSAGES in
      (if is_default then "Agent internal error (code " +:+ show_i64 code +:+ ")" else trimmed) +:+
      match data with Some d => " (" +:+ JsonValue.to_string d +:+ ")" | None => EmptyString end
  | NotConnected => "ACP protocol not connected"
  | InitTimeout secs => "Initialize handshake timed out after " +:+ show_i64 secs +:+ "s"
  end.

(* chisl-ai-agent/src/protocol/error.rs:217-226 is_retryable *)
Definition is_retryable (e : t) : bool :=
  match e with
  | SpawnFailed _ | StartupCrash _ _ _ | Disconnected _ _ _ | AgentInternal _ _ _ | InitTimeout _ => true
  | _ => false
  end.

(* chisl-ai-agent/src/protocol/error.rs:291-302 extract_session_not_found *)
Definition extract_session_not_found (data : option json) : option string :=
  value ← data;
  obj ← match value with Obj _ => Some value | Str s => from_str s | _ => None end;
  e ← get "error" obj;
  msg ← as_str e;
  rest ← strip_prefix "Session not found: " msg;
  let sid := trim rest in
  if String.eqb sid EmptyString then None else Some sid.

(* chisl-ai-agent/src/protocol/error.rs:238-283 from_sdk *)
Definition from_sdk (err : SdkError) (context : string) : t :=
  let internal := AgentInternal (message err) (code_number (code err)) (data err) in
  match code err with
  | AcpErrors.AuthRequired => AuthRequired
  | ResourceNotFound => SessionNotFound context
  | AcpErrors.MethodNotFound => MethodNotFound context
  | AcpErrors.InvalidParams =>
      match extract_session_not_found (data err) with
      | Some sid => SessionNotFound sid
      | None => InvalidParams (message err)
      end
  | ParseError | InvalidRequest | InternalError =>
      match extract_session_not_found (data err) with Some sid => SessionNotFound sid | None => internal end
  | OtherCode n =>
      if (n =? -32001) || (n =? -32002) then SessionNotFound context
      else match extract_session_not_found (data err) with Some sid => SessionNotFound sid | None => internal end
  end.

(* chisl-ai-agent/src/protocol/error.rs:311-341 From<AcpError> for AppError *)
Definition to_app (err : t) : AppError.t :=
  match err with
  | SpawnFailed _ | StartupCrash _ _ _ | Disconnected _ _ _ => AppError.BadGateway (to_string err)
  | AuthRequired => AppError.Unauthorized "Agent requires authentication"
  | SessionNotFound _ => AppError.NotFound (to_string err)
  | MethodNotFound _ | InvalidParams _ => AppError.BadRequest (to_string err)
  | AgentInternal _ _ _ => AppError.BadGateway (to_string err)
  | NotConnected => AppError.Internal "ACP protocol not connected"
  | InitTimeout _ => AppError.BadGateway (to_string err)
  end.
End acp_error.
End AcpError.

(* ------------------------------------------------------------------ *)
(** ** The agent's standard error *)

Module StderrExtractor.
(* chisl-ai-agent/src/manager/acp/stderr_error_extractor.rs:17-36 ERROR_KEYWORDS *)
Definition ERROR_KEYWORDS : list string :=
  ["usage limit"; "rate limit"; "exceeded"; "unauthorized"; "forbidden"; "network"; "timeout";
   "connection refused"; "connection reset"; "tls"; "dns"; "credentials"; "api key"; "quota"; "billing"].
(* chisl-ai-agent/src/manager/acp/stderr_error_extractor.rs:38-38 MAX_MESSAGE_CHARS *)
Definition MAX_MESSAGE_CHARS : nat := 240.

Definition is_ascii_alphabetic (c : Z) : bool := ((65 <=? c) && (c <=? 90)) || ((97 <=? c) && (c <=? 122)).

(** [skipping]: inside an escape sequence. *)
Fixpoint strip_ansi_chars (skipping : bool) (l : list Z) : list Z :=
  match l with
  | [] => []
  | c :: l' =>
      if skipping then strip_ansi_chars (negb (is_ascii_alphabetic c)) l'
      else if c =? 27 then
        match l' with
        | 91 :: l'' => strip_ansi_chars true l''
        | _ => c :: strip_ansi_chars false l'
        end
      else c :: strip_ansi_chars false l'
  end.
(* chisl-ai-agent/src/manager/acp/stderr_error_extractor.rs:45-61 strip_ansi *)
Definition strip_ansi (s : string) : string := from_chars (strip_ansi_chars false (chars s)).

(** [rsplit_once] at a colon and a space: what follows the last one. *)
Fixpoint after_last_colon (l : list Z) : option (list Z) :=
  match l with
  | [] => None
  | c :: l' =>
      match after_last_colon l' with
      | Some tail => Some tail
      | None => match l' with 32 :: l'' => if c =? 58 then Some l'' else None | _ => None end
      end
  end.
(* chisl-ai-agent/src/manager/acp/stderr_error_extractor.rs:68-74 message_tail *)
Definition message_tail (stripped_line : string) : string :=
  trim (match after_last_colon (chars stripped_line) with Some tail => from_chars tail | None => stripped_line end).

Section extractor.
Context `{Unicode}.
(* chisl-ai-agent/src/manager/acp/stderr_error_extractor.rs:76-78 matches_allowlist *)
Definition matches_allowlist (line_lower : string) : bool := existsb (contains line_lower) ERROR_KEYWORDS.

(* chisl-ai-agent/src/manager/acp/stderr_error_extractor.rs:89-94 extract_error_message (lines) *)
Definition stripped_lines (stderr_tail : string) : list string :=
  List.filter (λ l, negb (String.eqb l EmptyString)) (map (λ l, trim (strip_ansi l)) (lines stderr_tail)).
(* chisl-ai-agent/src/manager/acp/stderr_error_extractor.rs:118-124 extract_error_message (truncated) *)
Definition truncated (tail : string) : string :=
  if (MAX_MESSAGE_CHARS <? length (chars tail))%nat
  then from_chars (take (MAX_MESSAGE_CHARS - 1) (chars tail) ++ [8230]) else tail.

Definition is_error_line (line : string) : bool :=
  contains (to_lowercase line) "error" && matches_allowlist (to_lowercase line).
(* chisl-ai-agent/src/manager/acp/stderr_error_extractor.rs:84-126 extract_error_message *)
Definition extract_error_message (stderr_tail : string) : option string :=
  if String.eqb (trim stderr_tail) EmptyString then None else
  let lines := rev (stripped_lines stderr_tail) in
  line ← match List.find is_error_line lines with
         | Some line => Some line
         | None => List.find (λ line, matches_allowlist (to_lowercase line)) lines
         end;
  Some (truncated (message_tail line)).
End extractor.
End StderrExtractor.

(* ------------------------------------------------------------------ *)
(** ** Why a turn failed *)

(** [ExitStatus]: the code, and on Unix the signal. *)
Record ExitStatus := mk_exit { exit_code : option Z; exit_signal : option Z }.
(* chisl-ai-agent/src/manager/acp/agent.rs:64-76 exit_status_parts *)
Definition exit_status_parts (exit : option ExitStatus) : option Z * option string :=
  match exit with
  | None => (None, None)
  | Some status =>
      match exit_signal status with
      | Some sig => (exit_code status, Some ("signal:" +:+ show_i64 sig))
      | None => (exit_code status, None)
      end
  end.

(** [split_once] at the first colon that a space follows. *)
Fixpoint after_first_colon (s : string) : option string :=
  match s with
  | EmptyString => None
  | String a s' =>
      match s' with
      | String b s'' => if (byte_of a =? 58) && (byte_of b =? 32) then Some s'' else after_first_colon s'
      | EmptyString => None
      end
  end.
(* chisl-ai-agent/src/manager/acp/agent.rs:39-45 user_facing_message *)
Definition user_facing_message (err : AppError.t) : string :=
  default (AppError.to_string err) (after_first_colon (AppError.to_string err)).

(** The process of the agent: its exit status once it has exited, and the last
    [STDERR_PEEK_LINES] lines of its standard error. *)
Record Process := mk_process { exit_status : option ExitStatus; stderr_tail : string }.

Section close.
Context `{Unicode}.
(* chisl-ai-agent/src/manager/acp/agent_close.rs:40-61 augment_with_stderr *)
Definition augment_with_stderr (process : Process) (err : AppError.t) : option string :=
  let display := AppError.to_string err in
  if starts_with "Bad gateway: Agent internal error (code " display && ends_with_char (Ascii.ascii_of_nat 41) display
  then StderrExtractor.extract_error_message (stderr_tail process) else None.

(* chisl-ai-agent/src/manager/acp/agent_close.rs:81-104 build_close_reason_from_error *)
Definition build_close_reason_from_error (process : Process) (err : AppError.t) : CloseReason.t :=
  match exit_status process with
  | Some status =>
      let '(exit_code, signal) := exit_status_parts (Some status) in
      let redacted_summary := default EmptyString (StderrExtractor.extract_error_message (stderr_tail process)) in
      CloseReason.ProcessExited exit_code signal redacted_summary
  | None =>
      match augment_with_stderr process err with
      | Some augmented => CloseReason.Failed augmented
      | None => CloseReason.Failed (user_facing_message err)
      end
  end.
End close.

(* ------------------------------------------------------------------ *)
(** ** What may be shown *)

Section redaction.
Context `{Unicode}.
Import StderrExtractor.

Definition allowed (line : string) : bool := matches_allowlist (to_lowercase line).
(** The lines of the output that may be shown. *)
Definition allowed_lines (tail : string) : list string :=
  if String.eqb (trim tail) EmptyString then [] else List.filter allowed (stripped_lines tail).

Lemma find_filter {A} (p q : A → bool) l :
  (∀ x, q x = true → p x = true) → List.find q (List.filter p l) = List.find q l.
Proof.
  intros Hqp. induction l as [|x l IH]; simpl; [done|]. destruct (q x) eqn:Hq.
  - rewrite Hqp by done. simpl. by rewrite Hq.
  - destruct (p x); simpl; [by rewrite Hq|done].
Qed.

Lemma filter_rev {A} (p : A → bool) l : List.filter p (rev l) = rev (List.filter p l).
Proof.
  induction l as [|x l IH]; simpl; [done|]. rewrite List.filter_app, IH. simpl.
  destruct (p x); simpl; [done|]. by rewrite app_nil_r.
Qed.

Lemma extract_from_allowed tail :
  extract_error_message tail =
    (line ← match List.find is_error_line (rev (allowed_lines tail)) with
            | Some line => Some line
            | None => head (rev (allowed_lines tail))
            end; Some (truncated (message_tail line))).
Proof.
  unfold extract_error_message, allowed_lines. destruct (String.eqb (trim tail) EmptyString); [done|].
  rewrite <- filter_rev. rewrite (find_filter allowed is_error_line).
  - f_equal. destruct (List.find is_error_line _); [done|].
    induction (rev (stripped_lines tail)) as [|x l IH]; simpl; [done|]. unfold allowed in *.
    by destruct (matches_allowlist (to_lowercase x)).
  - intros x. unfold is_error_line. by intros [_ ?]%andb_true_iff.
Qed.

Lemma truncated_length tail :
  Forall (λ c, is_scalar c = true) (chars tail) → (length (chars (truncated tail)) ≤ MAX_MESSAGE_CHARS)%nat.
Proof.
  intros Hs. unfold truncated. destruct (Nat.ltb_spec MAX_MESSAGE_CHARS (length (chars tail))); [|lia].
  rewrite chars_from_chars; [rewrite length_app, length_take; change (length [8230]) with 1%nat; unfold MAX_MESSAGE_CHARS; lia|].
  apply Forall_app. split; [by apply Forall_take|]. by constructor.
Qed.

(** C35: the message shown for a failed turn says nothing about the agent's standard
    error but what its allowlisted lines say: two processes that ended alike and whose
    outputs have the same allowlisted lines give the same message; what is shown of the
    output is the (cut) tail of one such line, an error line if there is one, and
    nothing of it is shown when no line is allowlisted. *)
Theorem only_allowlisted_output_is_shown p p' err :
  exit_status p = exit_status p' → allowed_lines (stderr_tail p) = allowed_lines (stderr_tail p') →
  CloseReason.user_facing_message (build_close_reason_from_error p err) =
    CloseReason.user_facing_message (build_close_reason_from_error p' err) ∧
  match extract_error_message (stderr_tail p) with
  | Some m => ∃ line, line ∈ allowed_lines (stderr_tail p) ∧ m = truncated (message_tail line) ∧
      (existsb is_error_line (allowed_lines (stderr_tail p)) = true → is_error_line line = true)
  | None => allowed_lines (stderr_tail p) = []
  end.
Proof.
  intros He Ha.
  assert (Hx : extract_error_message (stderr_tail p) = extract_error_message (stderr_tail p'))
    by by rewrite !extract_from_allowed, Ha.
  split.
  - unfold build_close_reason_from_error, augment_with_stderr. by rewrite He, Hx.
  - rewrite extract_from_allowed. destruct (List.find is_error_line _) as [line|] eqn:Hf; simpl.
    + apply find_Some_elem in Hf as [Hin Hl]. exists line. split; [|done].
      by rewrite list_elem_of_In, List.in_rev, <- list_elem_of_In.
    + destruct (rev (allowed_lines (stderr_tail p))) as [|line l] eqn:Hr; simpl.
      * by rewrite <- (rev_involutive (allowed_lines _)), Hr.
      * exists line. split; [rewrite list_elem_of_In, List.in_rev, Hr; by left|]. split; [done|].
        intros (x & Hin & Hx')%existsb_exists. rewrite List.in_rev, Hr, <- list_elem_of_In in Hin.
        rewrite find_None_elem in Hf. by rewrite Hf in Hx'.
Qed.
End redaction.

Section witnesses.
#[local] Existing Instance ascii_unicode.

(** An agent that hit its usage limit, with a secret on another line. *)
Definition failed_with (secret : string) : Process :=
  mk_process (Some (mk_exit (Some 1) None))
    ("DEBUG net: token=" +:+ secret +:+ nl +:+ "ERROR codex::thread: usage limit exceeded" +:+ nl).

Lemma only_allowlisted_output_is_shown_witness :
  CloseReason.user_facing_message (build_close_reason_from_error (failed_with "a") AppError.RateLimited) =
    "Agent process exited (exit code 1): usage limit exceeded" ∧
  CloseReason.user_facing_message (build_close_reason_from_error (failed_with "a") AppError.RateLimited) =
    CloseReason.user_facing_message (build_close_reason_from_error (failed_with "bc") AppError.RateLimited).
Proof.
  split; [vm_compute; reflexivity|].
  assert (Ha : allowed_lines (stderr_tail (failed_with "a")) = allowed_lines (stderr_tail (failed_with "bc")))
    by (vm_compute; reflexivity).
  exact (proj1 (only_allowlisted_output_is_shown (failed_with "a") (failed_with "bc") AppError.RateLimited eq_refl Ha)).
Defined.

(** An allowlisted line is shown from its last colon on, whatever stands there. *)
Lemma allowlisted_line_may_hold_a_secret :
  StderrExtractor.extract_error_message "ERROR invalid credentials: eyJhbGciOi" = Some "eyJhbGciOi".
Proof. vm_compute. reflexivity. Qed.
End witnesses.
