(* ===== verification/AcpRuntime.v ===== *)
(** * AcpRuntime: the runtime every agent manager holds, and permission requests

    [agent_runtime.rs] (the status of the turn and the broadcast of stream events),
    [manager/acp/permission_router.rs].
    Payloads that the modelled code neither builds nor reads are JSON values. *)

From S2P Require Import Prelude.
From S2P Require Import Text.
From S2P Require Import JsonValue.
From S2P Require Import TeamTypes.
From S2P Require Import AcpState.
From S2P Require Import AgentEvents.

Module AgentRuntime.
(** The events broadcast so far, oldest first. *)
(* chisl-ai-agent/src/agent_runtime.rs:22-28 AgentRuntime *)
Record t := mk { status : option ConversationStatus.t; last_activity : TimestampMs; events : list AgentStreamEvent.t }.

(* chisl-ai-agent/src/agent_runtime.rs:36-45 new *)
Definition new (now : TimestampMs) : t := mk None now [].
(* chisl-ai-agent/src/agent_runtime.rs:80-82 bump_activity *)
Definition bump_activity (now : TimestampMs) (r : t) : t := mk (status r) now (events r).
Definition is_finished (r : t) : bool := bool_decide (status r = Some ConversationStatus.Finished).
(* chisl-ai-agent/src/agent_runtime.rs:87-94 transition_to *)
Definition transition_to (st : ConversationStatus.t) (r : t) : t :=
  if is_finished r then r else mk (Some st) (last_activity r) (events r).
(* chisl-ai-agent/src/agent_runtime.rs:99-102 reset_for_new_turn *)
Definition reset_for_new_turn (st : ConversationStatus.t) (r : t) : t := mk (Some st) (last_activity r) (events r).
(* chisl-ai-agent/src/agent_runtime.rs:104-106 emit *)
Definition emit (e : AgentStreamEvent.t) (r : t) : t := mk (status r) (last_activity r) (events r ++ [e]).
(* chisl-ai-agent/src/agent_runtime.rs:110-125 emit_finish *)
Definition emit_finish (session_id : option string) (r : t) : t :=
  if is_finished r then r
  else emit (AgentStreamEvent.Finish session_id) (mk (Some ConversationStatus.Finished) (last_activity r) (events r)).
(* chisl-ai-agent/src/agent_runtime.rs:129-148 emit_error *)
Definition emit_error (message : string) (r : t) : t :=
  if is_finished r then r
  else emit (AgentStreamEvent.error_event message None) (mk (Some ConversationStatus.Finished) (last_activity r) (events r)).
End AgentRuntime.

(* ------------------------------------------------------------------ *)
(** ** Permission requests *)

Module PermissionDecision.
(* chisl-ai-agent/src/protocol/acp.rs:66-71 PermissionDecision *)
Inductive t := Selected (option_id : string) | Cancelled.
End PermissionDecision.

Module PermissionRouter.
(** A request: its number stands for its one-shot channel; the call it is about; the
    title of the tool. *)
(* chisl-ai-agent/src/protocol/acp.rs:58-63 PermissionRequest *)
Record request := mk_request { channel : nat; call_id : string; title : option string }.

(* chisl-ai-agent/src/manager/acp/permission_router.rs:16-16 AUTO_APPROVE_PREFIXES *)
Definition AUTO_APPROVE_PREFIXES : list string := ["mcp__aionui-team__"; "mcp__aionui-team-guide__"].
(* chisl-ai-agent/src/manager/acp/permission_router.rs:132-135 is_auto_approve_tool *)
Definition is_auto_approve_tool (r : request) : bool :=
  let title := default EmptyString (title r) in existsb (λ prefix, starts_with prefix title) AUTO_APPROVE_PREFIXES.

(** Where the handler task is between its locks: waiting, about to announce a request
    it has registered. *)
Inductive phase := Waiting | Announcing (r : request).

(** [queue] is [permission_rx]; [answers] are the decisions handed to the channels;
    [gone] are the channels whose receiver was dropped, for which [send] fails. *)
(* chisl-ai-agent/src/manager/acp/permission_router.rs:23-30 PermissionRouter *)
Record t := mk {
  queue : list request; pending : gmap string request; closing : bool; handler : phase;
  answers : list (nat * PermissionDecision.t); gone : gset nat; runtime : AgentRuntime.t }.

Definition set_queue x s := mk x (pending s) (closing s) (handler s) (answers s) (gone s) (runtime s).
Definition set_pending x s := mk (queue s) x (closing s) (handler s) (answers s) (gone s) (runtime s).
Definition set_handler x s := mk (queue s) (pending s) (closing s) x (answers s) (gone s) (runtime s).
Definition set_runtime x s := mk (queue s) (pending s) (closing s) (handler s) (answers s) (gone s) x.
Definition drop_receiver i s := mk (queue s) (pending s) (closing s) (handler s) (answers s) ({[i]} ∪ gone s) (runtime s).
Definition send (r : request) (d : PermissionDecision.t) (s : t) : t :=
  mk (queue s) (pending s) (closing s) (handler s) (answers s ++ [(channel r, d)]) (gone s) (runtime s).

(* chisl-ai-agent/src/manager/acp/permission_router.rs:34-40 new *)
Definition new (now : TimestampMs) : t := mk [] ∅ false Waiting [] ∅ (AgentRuntime.new now).

(** One turn of the loop up to the release of the lock. *)
(* chisl-ai-agent/src/manager/acp/permission_router.rs:57-75 start (receive and register) *)
Definition receive (now : TimestampMs) (s : t) : t :=
  match handler s, queue s with
  | Waiting, r :: rest =>
      let s1 := set_runtime (AgentRuntime.bump_activity now (runtime s)) (set_queue rest s) in
      if is_auto_approve_tool r then send r (PermissionDecision.Selected "allow_always") s1
      else
        let s2 := set_pending (<[call_id r := r]> (pending s)) s1 in
        set_handler (Announcing r)
          (match pending s !! call_id r with Some p => send p PermissionDecision.Cancelled s2 | None => s2 end)
  | _, _ => s
  end.

(** The rest of the turn; [heard]: whether the broadcast has a receiver. *)
(* chisl-ai-agent/src/manager/acp/permission_router.rs:77-85 start (announce) *)
Definition announce (heard : bool) (s : t) : t :=
  match handler s with
  | Announcing r =>
      let s := set_handler Waiting s in
      if heard then set_runtime (AgentRuntime.emit (AgentStreamEvent.AcpPermission (AcpPermissionEventData.Request (call_id r))) (runtime s)) s
      else match pending s !! call_id r with
           | Some p => send p PermissionDecision.Cancelled (set_pending (delete (call_id r) (pending s)) s)
           | None => s
           end
  | Waiting => s
  end.

(* chisl-ai-agent/src/manager/acp/permission_router.rs:91-112 confirm *)
Definition confirm (call_id option_id : string) (s : t) : t * result unit AppError.t :=
  match pending s !! call_id with
  | None => (s, Err (AppError.BadRequest ("Pending ACP permission not found: " +:+ call_id)))
  | Some p =>
      let s := set_pending (delete call_id (pending s)) s in
      (send p (PermissionDecision.Selected option_id) s,
       if bool_decide (channel p ∈ gone s)
       then Err (AppError.BadRequest ("Pending ACP permission expired: " +:+ call_id)) else Ok tt)
  end.

(* chisl-ai-agent/src/manager/acp/permission_router.rs:115-119 cancel_all *)
Definition cancel_all `{HashIter request} (s : t) : t :=
  foldl (λ s kv, send (snd kv) PermissionDecision.Cancelled s) (set_pending ∅ s) (hm_iter (pending s)).
(* chisl-ai-agent/src/manager/acp/permission_router.rs:127-129 set_closing *)
Definition set_closing (s : t) : t := mk (queue s) (pending s) true (handler s) (answers s) (gone s) (runtime s).
(* chisl-ai-agent/src/manager/acp/permission_router.rs:122-124 is_closing *)
Definition is_closing (s : t) : bool := closing s.

(** What happens to the router: a request arrives, the handler task goes on, the user
    confirms, the manager stops or is killed, a receiver is dropped. *)
Inductive event :=
| Arrive (r : request) | Receive (now : TimestampMs) | Announce (heard : bool)
| Confirm (call_id option_id : string) | CancelAll | SetClosing | DropReceiver (i : nat).

Definition step `{HashIter request} (e : event) (s : t) : t :=
  match e with
  | Arrive r => set_queue (queue s ++ [r]) s
  | Receive now => receive now s
  | Announce heard => announce heard s
  | Confirm call_id option_id => fst (confirm call_id option_id s)
  | CancelAll => cancel_all s
  | SetClosing => set_closing s
  | DropReceiver i => drop_receiver i s
  end.
Definition steps `{HashIter request} (es : list event) (s : t) : t := foldl (λ s e, step e s) s es.

(* ------------------------------------------------------------------ *)
(** ** Every request is decided once, by the user *)

Section facts.
Context `{HashIter request}.

Definition arrivals (es : list event) : list request := omap (λ e, match e with Arrive r => Some r | _ => None end) es.

(** The channels of the registered requests. *)
Definition registered (m : gmap string request) : list nat := channel <$> (map_to_list m).*2.

Lemma registered_insert k r m : m !! k = None → registered (<[k := r]> m) ≡ₚ channel r :: registered m.
Proof. intros Hk. unfold registered. by rewrite map_to_list_insert. Qed.

Lemma registered_delete k r m : m !! k = Some r → registered m ≡ₚ channel r :: registered (delete k m).
Proof. intros Hk. unfold registered. by rewrite <- (map_to_list_delete m k r Hk). Qed.

Lemma registered_replace k r p m : m !! k = Some p → channel p :: registered (<[k := r]> m) ≡ₚ channel r :: registered m.
Proof.
  intros Hk. rewrite <- insert_delete_eq, registered_insert by apply lookup_delete_eq.
  rewrite (registered_delete k p m Hk). apply Permutation_swap.
Qed.

Definition channels (s : t) : list nat := map channel (queue s) ++ registered (pending s) ++ (answers s).*1.

Lemma answered_send r d s : (answers (send r d s)).*1 = (answers s).*1 ++ [channel r].
Proof. unfold send. simpl answers. by rewrite fmap_app. Qed.

(** What a decision may be. *)
Definition justified (es : list event) (r : request) (d : PermissionDecision.t) : Prop :=
  match d with
  | PermissionDecision.Cancelled => True
  | PermissionDecision.Selected o =>
      is_auto_approve_tool r = true ∧ o = "allow_always" ∨ Confirm (call_id r) o ∈ es
  end.

Record invariant (es : list event) (s : t) : Prop := {
  inv_channels : channels s ≡ₚ map channel (arrivals es);
  inv_queue r : r ∈ queue s → r ∈ arrivals es;
  inv_pending k r : pending s !! k = Some r → call_id r = k ∧ r ∈ arrivals es;
  inv_answers i d : (i, d) ∈ answers s → ∃ r, r ∈ arrivals es ∧ channel r = i ∧ justified es r d;
}.

Lemma justified_snoc es e r d : justified es r d → justified (es ++ [e]) r d.
Proof. destruct d; simpl; [|done]. intros [?|?]; [by left|right]. apply elem_of_app. by left. Qed.

Lemma arrivals_snoc es e : arrivals (es ++ [e]) = arrivals es ++ arrivals [e].
Proof. apply omap_app. Qed.

Lemma invariant_quiet es e s : arrivals [e] = [] → invariant es s → invariant (es ++ [e]) s.
Proof.
  intros He [H1 H2 H3 H4]. assert (Ha : arrivals (es ++ [e]) = arrivals es) by (by rewrite arrivals_snoc, He, app_nil_r).
  split; rewrite ?Ha; try done. intros i d Hd. destruct (H4 i d Hd) as (r & ? & ? & ?).
  exists r. eauto using justified_snoc.
Qed.

(** Deciding a request moves its channel to the answers. *)
Lemma invariant_send es r d s s' :
  queue s' = queue s → answers s' = answers s ++ [(channel r, d)] →
  registered (pending s) ≡ₚ channel r :: registered (pending s') → (∀ k x, pending s' !! k = Some x → pending s !! k = Some x) →
  r ∈ arrivals es → justified es r d → invariant es s → invariant es s'.
Proof.
  intros Hq Ha Hreg Hsub Hr Hj [H1 H2 H3 H4]. split.
  - rewrite <- H1. unfold channels. rewrite Hq, Ha, Hreg, fmap_app. simpl. solve_Permutation.
  - by rewrite Hq.
  - intros k x Hx. by apply H3, Hsub.
  - intros i d'. rewrite Ha, elem_of_app, list_elem_of_singleton. intros [Hin|[= -> ->]]; [by apply H4|]. eauto.
Qed.

Lemma invariant_cancel_all es s : invariant es s → invariant es (cancel_all s).
Proof.
  intros Hi. unfold cancel_all.
  assert (Hgen : ∀ l s', (∀ k r, (k, r) ∈ l → call_id r = k ∧ r ∈ arrivals es) → pending s' = ∅ →
    (∀ r, r ∈ queue s' → r ∈ arrivals es) →
    (∀ i d, (i, d) ∈ answers s' → ∃ r, r ∈ arrivals es ∧ channel r = i ∧ justified es r d) →
    map channel (queue s') ++ (channel <$> l.*2) ++ (answers s').*1 ≡ₚ map channel (arrivals es) →
    invariant es (foldl (λ s kv, send (snd kv) PermissionDecision.Cancelled s) s' l)).
  { induction l as [|[k r] l IH]; intros s' Hl Hp Hq Ha Hc; simpl.
    - split; try done.
      + unfold channels. rewrite Hp. unfold registered. by rewrite map_to_list_empty.
      + intros k r. by rewrite Hp, lookup_empty.
    - apply IH; simpl; try done.
      + intros k' r' Hin. apply Hl. by right.
      + intros i d. rewrite elem_of_app, list_elem_of_singleton. intros [?|[= -> ->]]; [by apply Ha|].
        exists r. split; [|done]. by apply (Hl k r); left.
      + rewrite <- Hc, fmap_app. simpl. solve_Permutation. }
  destruct Hi as [H1 H2 H3 H4]. apply Hgen; try done.
  - intros k r Hin%elem_of_hm_iter. by apply H3.
  - rewrite <- H1. unfold channels, registered. by rewrite hm_iter_perm.
Qed.

Lemma invariant_receive es now s : invariant es s → invariant es (receive now s).
Proof.
  intros Hi. unfold receive. destruct (handler s); [|done]. destruct (queue s) as [|r rest] eqn:Hq; [done|].
  destruct Hi as [H1 H2 H3 H4]. unfold channels in H1. rewrite Hq in H1, H2.
  assert (Hr : r ∈ arrivals es) by (apply H2; by left).
  destruct (is_auto_approve_tool r) eqn:Hauto.
  - split; simpl; try done.
    + rewrite <- H1. unfold channels. rewrite answered_send. simpl. solve_Permutation.
    + intros x Hx. apply H2. by right.
    + intros i d. rewrite elem_of_app, list_elem_of_singleton. intros [?|[= -> ->]]; [by apply H4|].
      exists r. split_and!; [done..|by left].
  - assert (Hpend : ∀ k x, <[call_id r := r]> (pending s) !! k = Some x → call_id x = k ∧ x ∈ arrivals es).
    { intros k x [[<- <-]|[_ Hx]]%lookup_insert_Some; [done|by apply H3]. }
    assert (Hq' : ∀ x, x ∈ rest → x ∈ arrivals es) by (intros x Hx; apply H2; by right).
    destruct (pending s !! call_id r) as [p|] eqn:Hp; split; simpl; try done.
    + rewrite <- H1. unfold channels. simpl queue. simpl pending.
      match goal with |- context [answers ?x] => replace (answers x) with (answers s ++ [(channel p, PermissionDecision.Cancelled)]) by done end.
      rewrite fmap_app. simpl.
      pose proof (registered_replace (call_id r) r p (pending s) Hp) as Hreg.
      transitivity (channel p :: registered (<[call_id r := r]> (pending s)) ++ map channel rest ++ (answers s).*1);
        [solve_Permutation|]. rewrite app_comm_cons, Hreg. solve_Permutation.
    + intros i d. rewrite elem_of_app, list_elem_of_singleton. intros [?|[= -> ->]]; [by apply H4|].
      exists p. split_and!; [by eapply H3|done..].
    + rewrite <- H1. unfold channels. simpl. rewrite registered_insert by done. solve_Permutation.
Qed.

Lemma invariant_step es e s : invariant es s → invariant (es ++ [e]) (step e s).
Proof.
  intros Hi. destruct e as [r|now|heard|cid o| | |i]; simpl.
  - destruct Hi as [H1 H2 H3 H4].
    assert (Ha : arrivals (es ++ [Arrive r]) = arrivals es ++ [r]) by apply arrivals_snoc.
    split; simpl; rewrite ?Ha.
    + unfold channels. simpl. rewrite !map_app, <- H1. unfold channels. simpl. solve_Permutation.
    + intros x. rewrite !elem_of_app, !list_elem_of_singleton. intros [?|?]; [left; by apply H2|by right].
    + intros k x Hx. destruct (H3 k x Hx). split; [done|]. apply elem_of_app. by left.
    + intros i d Hd. destruct (H4 i d Hd) as (x & ? & ? & ?). exists x.
      split_and!; [apply elem_of_app; by left|done|by apply justified_snoc].
  - by apply invariant_quiet, invariant_receive.
  - apply invariant_quiet; [done|]. unfold announce. destruct (handler s) as [|r]; [done|].
    destruct heard; [by destruct Hi|].
    simpl. destruct (pending s !! call_id r) as [p|] eqn:Hp; [|by destruct Hi].
    apply (invariant_send es p PermissionDecision.Cancelled s); try done.
    + by apply registered_delete.
    + intros k x. simpl. by intros [_ ?]%lookup_delete_Some.
    + by apply (inv_pending es s Hi (call_id r)).
  - unfold confirm. destruct (pending s !! cid) as [p|] eqn:Hp; [|by apply invariant_quiet].
    assert (Hip := inv_pending es s Hi cid p Hp).
    apply (invariant_send (es ++ [Confirm cid o]) p (PermissionDecision.Selected o) s); try done.
    + by apply registered_delete.
    + intros k x. simpl. by intros [_ ?]%lookup_delete_Some.
    + rewrite arrivals_snoc. apply elem_of_app. left. apply Hip.
    + right. apply elem_of_app. right. destruct Hip as [-> _]. by left.
    + by apply invariant_quiet.
  - by apply invariant_quiet, invariant_cancel_all.
  - apply invariant_quiet; [done|]. by destruct Hi.
  - apply invariant_quiet; [done|]. by destruct Hi.
Qed.

Lemma invariant_steps es : ∀ es0 s, invariant es0 s → invariant (es0 ++ es) (steps es s).
Proof.
  induction es as [|e es IH]; intros es0 s Hi; simpl; [by rewrite app_nil_r|].
  rewrite cons_middle, app_assoc. by apply IH, invariant_step.
Qed.

Lemma invariant_new now : invariant [] (new now).
Proof.
  split; simpl; try done. intros i d Hd. by apply elem_of_nil in Hd.
Qed.

(** C34: a permission request of the agent is decided at most once and never lost:
    whatever arrives, is confirmed or cancelled in whatever order, each request is
    waiting in the queue, registered under its call, or decided; it is granted an
    option only if the user chose this option for its call, or if the tool is one of
    the team's own, which are always allowed. *)
Theorem requests_are_decided_once now es :
  NoDup (map channel (arrivals es)) →
  let s := steps es (new now) in
  NoDup (answers s).*1 ∧
  ∀ r, r ∈ arrivals es →
    (r ∈ queue s ∨ pending s !! call_id r = Some r ∨ ∃ d, (channel r, d) ∈ answers s) ∧
    ∀ o, (channel r, PermissionDecision.Selected o) ∈ answers s →
      is_auto_approve_tool r = true ∧ o = "allow_always" ∨ Confirm (call_id r) o ∈ es.
Proof.
  intros Hnd s. destruct (invariant_steps es [] (new now) (invariant_new now)) as [H1 H2 H3 H4].
  fold s in H1, H2, H3, H4. simpl in H1, H2, H3, H4.
  assert (Hch : NoDup (channels s)) by by rewrite H1.
  assert (Hinj : ∀ r r', r ∈ arrivals es → r' ∈ arrivals es → channel r = channel r' → r = r').
  { intros r r' Hr Hr' Heq. revert Hnd Hr Hr'. clear - Heq. induction (arrivals es) as [|x l IH]; [set_solver|].
    simpl. intros [Hx Hl]%NoDup_cons. rewrite elem_of_cons. intros [->|Hr]; rewrite elem_of_cons.
    - intros [->|Hr']; [done|]. destruct Hx. rewrite Heq. apply elem_of_map. eauto.
    - intros [->|Hr']; [|by apply IH]. destruct Hx. rewrite <- Heq. apply elem_of_map. eauto. }
  split; [by apply NoDup_app in Hch as (_ & _ & (_ & _ & Hch)%NoDup_app)|].
  intros r Hr. split.
  - assert (Hin : channel r ∈ channels s) by (rewrite H1; apply elem_of_map; eauto).
    unfold channels in Hin. rewrite !elem_of_app in Hin. destruct Hin as [Hin|[Hin|Hin]].
    + apply elem_of_map in Hin as (x & Heq & Hx). left. by rewrite (Hinj r x Hr (H2 x Hx) Heq).
    + unfold registered in Hin. apply list_elem_of_fmap in Hin as (x & Heq & Hx).
      apply list_elem_of_fmap in Hx as ([k x'] & -> & Hx). apply elem_of_map_to_list in Hx. simpl in Heq.
      destruct (H3 k x' Hx) as [Hk Hx']. right; left. by rewrite (Hinj r x' Hr Hx' Heq), Hk.
    + apply list_elem_of_fmap in Hin as ([i d] & Heq & Hd). right; right. exists d. by rewrite Heq.
  - intros o Ho. destruct (H4 _ _ Ho) as (x & Hx & Heq & Hj). by rewrite (Hinj r x Hr Hx ltac:(done)).
Qed.
End facts.

Section witnesses.
#[local] Instance iter : HashIter request := hash_iter_canonical request.
Definition asks : request := mk_request 0 "call-1" (Some "Write file").
Definition asks_team : request := mk_request 1 "call-2" (Some "mcp__aionui-team__send").
Definition asks_again : request := mk_request 2 "call-1" (Some "Write file").

Definition some_events : list event :=
  [Arrive asks; Arrive asks_team; Receive 5; Announce true; Receive 6; Arrive asks_again; Receive 7;
   Announce true; Confirm "call-1" "allow_once"].

Lemma requests_are_decided_once_witness :
  answers (steps some_events (new 0)) =
    [(1, PermissionDecision.Selected "allow_always"); (0, PermissionDecision.Cancelled);
     (2, PermissionDecision.Selected "allow_once")]%nat ∧
  NoDup (answers (steps some_events (new 0))).*1.
Proof.
  split; [vm_compute; reflexivity|].
  refine (proj1 (requests_are_decided_once 0 some_events _)).
  apply (bool_decide_eq_true_1 (NoDup [0%nat; 1%nat; 2%nat])). reflexivity.
Defined.

(** A request that arrives after the shutdown began is still registered and announced;
    nothing decides it any more. *)
Lemma closing_router_still_routes :
  let s := steps [SetClosing; CancelAll; Arrive asks; Receive 5; Announce true] (new 0) in
  is_closing s = true ∧ pending s !! "call-1" = Some asks ∧
  AgentRuntime.events (runtime s) = [AgentStreamEvent.AcpPermission (AcpPermissionEventData.Request "call-1")].
Proof. vm_compute. done. Qed.
End witnesses.
End PermissionRouter.
