(* ===== verification/AcpManager.v ===== *)
(** * AcpManager: opening a session with an ACP agent, and a turn

    [manager/acp/agent.rs], [agent_session_flow.rs], [agent_reconcile.rs],
    [agent_event_tracker.rs], [hooks.rs] and the request path of [protocol/acp.rs], as
    programs of [Threads] over the manager's state.  The agent process is a parameter
    ([AcpAgent]): whatever it answers to each request, from a state of its own.  A lock
    section is one step; the session lock is held by whoever opens a session, so only
    requests that do not take it run in between. *)

From S2P Require Import Prelude.
From S2P Require Import Text.
From S2P Require Import Threads.
From S2P Require Import JsonValue.
From S2P Require Import CaseConvert.
From S2P Require Import TeamTypes.
From S2P Require Import AcpState.
From S2P Require Import AcpErrors.
From S2P Require Import AgentEvents.
From S2P Require Import AcpRuntime.
Import AcpSession.

(* ------------------------------------------------------------------ *)
(** ** The agent *)

Record SessionResponse := mk_response {
  rsp_models : option SessionModelState; rsp_modes : option SessionModeState;
  rsp_config_options : option (list SessionConfigOption) }.
Inductive StopReason := EndTurn | MaxTokens | MaxTurnRequests | Refusal | StopCancelled.

(** [on_new_session] is told the session to resume, if any ([_meta]); [on_prompt] also
    tells what is broadcast while it runs. *)
Class AcpAgent := {
  Cli : Type;
  is_connected : Cli → bool;
  on_new_session : option string → Cli → Cli * result (string * SessionResponse) SdkError;
  on_load_session : string → Cli → Cli * result SessionResponse SdkError;
  on_set_mode : string → string → Cli → Cli * result unit SdkError;
  on_set_model : string → string → Cli → Cli * result unit SdkError;
  on_set_config : string → string → string → Cli → Cli * result unit SdkError;
  on_prompt : string → string → Cli → Cli * result StopReason SdkError;
  prompt_events : string → string → Cli → list AgentStreamEvent.t;
  on_cancel : string → Cli → Cli;
  process_of : Cli → Process;
}.

(** [serde] on the types of the schema. *)
Class AcpSerde `{AcpSchema} := {
  modes_to_value : SessionModeState → json;
  modes_from_value : json → option SessionModeState;
  models_from_value : json → option SessionModelState;
  options_to_value : list SessionConfigOption → json;
  options_from_value : json → option (list SessionConfigOption);
  usage_from_value : json → option UsageUpdate;
}.

Section manager.
Context `{AcpAgent} `{AcpSerde} `{JsonCodec} `{Unicode} `{HashIter string} `{HashIter PermissionRouter.request}.
(** The catalog row of the agent, and [inject_first_message_prefix] for its parameters,
    which reads the skill files. *)
Context (metadata : AgentMetadata) (inject_first_message_prefix : string → string).
Abbreviation session := (AcpSession.t (CloseReason:=CloseReason.t)).

(** The router holds the runtime they share; [m_domain] is what was sent to the
    persistence consumer. *)
(* chisl-ai-agent/src/manager/acp/agent.rs:108-153 AcpAgentManager *)
Record manager := mk_manager {
  m_session : session; m_router : PermissionRouter.t; m_domain : list AcpSessionEvent.t; m_cli : Cli }.
Definition set_session x s := mk_manager x (m_router s) (m_domain s) (m_cli s).
Definition set_router x s := mk_manager (m_session s) x (m_domain s) (m_cli s).
Definition set_cli x s := mk_manager (m_session s) (m_router s) (m_domain s) x.
Definition on_runtime (f : AgentRuntime.t → AgentRuntime.t) s :=
  set_router (PermissionRouter.set_runtime (f (PermissionRouter.runtime (m_router s))) (m_router s)) s.
Definition events_of s := AgentRuntime.events (PermissionRouter.runtime (m_router s)).
Definition status_of s := AgentRuntime.status (PermissionRouter.runtime (m_router s)).

Abbreviation M := (prog manager AppError.t).

(* chisl-ai-agent/src/manager/acp/agent_event_tracker.rs:143-147 commit_session_changes *)
Definition commit_session_changes (s : manager) : manager :=
  let '(ss, es) := drain_events (m_session s) in mk_manager ss (m_router s) (m_domain s ++ es) (m_cli s).

(** A section under the write lock that ends in [commit_session_changes]. *)
Definition update (f : session → session) : M unit :=
  atomic (λ s, (commit_session_changes (set_session (f (m_session s)) s), Ok tt)).
Definition read {A} (f : session → A) : M A := atomic (st_get (λ s, f (m_session s))).
Definition modify {E} (f : manager → manager) : prog manager E unit := atomic (st_modify f).
Definition emit (e : AgentStreamEvent.t) : M unit := modify (on_runtime (AgentRuntime.emit e)).

(* chisl-ai-agent/src/protocol/acp.rs:299-309 send_request *)
Definition send_request {A} (call : Cli → Cli * result A SdkError) (method : string) : prog manager AcpError.t A :=
  atomic (λ s, if is_connected (m_cli s)
               then let '(cli, r) := call (m_cli s) in (set_cli cli s, res_map_err (λ e, AcpError.from_sdk e method) r)
               else (s, Err AcpError.NotConnected)).
(** [.map_err(AppError::from)?] *)
Definition app {A} (p : prog manager AcpError.t A) : M A :=
  await r := attempt p in match r with Ok a => ret a | Err e => fail (AcpError.to_app e) end.

(* ------------------------------------------------------------------ *)
(** ** Reconciling *)

(** A request of the reconcile loop: a session the agent does not know aborts, any other
    failure is skipped, and success is recorded by [f]. *)
Definition reconcile_request (p : prog manager AcpError.t unit) (f : session → session) : M unit :=
  await r := attempt p in
  match r with
  | Ok _ => update f
  | Err (AcpError.SessionNotFound sid) => fail (AcpError.to_app (AcpError.SessionNotFound sid))
  | Err _ => ret tt
  end.

(* chisl-ai-agent/src/manager/acp/agent_reconcile.rs:48-159 reconcile_session (loop body) *)
Definition reconcile_action (session_id : string) (action : ReconcileAction) : M unit :=
  match action with
  | SetMode mode =>
      let normalized := normalize_requested_mode metadata mode in
      if String.eqb normalized EmptyString then ret tt
      else reconcile_request (send_request (on_set_mode session_id normalized) "session/set_mode")
             (apply_observed_mode normalized)
  | SetModel model =>
      reconcile_request (send_request (on_set_model session_id model) "session/set_model")
        (λ s, let s := apply_observed_model model s in
              if self_identity_sticky (behavior_policy metadata) then set_pending_model_notice model s else s)
  | SetConfigOption key value =>
      reconcile_request (send_request (on_set_config session_id key value) "session/set_config_option")
        (apply_observed_config key value)
  end.
(* chisl-ai-agent/src/manager/acp/agent_reconcile.rs:39-163 reconcile_session *)
Definition reconcile_session (session_id : string) : M unit :=
  await actions := read plan_reconcile in
  for_each (reconcile_action session_id) actions.

(* ------------------------------------------------------------------ *)
(** ** Opening a session *)

(* chisl-ai-agent/src/manager/acp/agent_session_flow.rs:24-26 is_session_not_found *)
Definition is_session_not_found (err : AppError.t) : bool :=
  match err with AppError.NotFound msg => starts_with "Session not found" msg | _ => false end.

(* chisl-ai-agent/src/manager/acp/agent.rs:96-100 sdk_to_snake_value *)
Definition sdk_to_snake_value (v : json) : json := normalize_keys_to_snake_case v.
(** [serde] of [ModelInfoPayload]. *)
Definition model_info_payload (st : SessionModelState) : json :=
  let label := default (current_model_id st)
    (model_name <$> List.find (λ m, String.eqb (model_id m) (current_model_id st)) (available_models st)) in
  Obj [("current_model_id", Str (current_model_id st)); ("current_model_label", Str label);
       ("available_models", Arr (map (λ m, Obj [("id", Str (model_id m)); ("label", Str (model_name m))])
                                   (available_models st)))].
(* chisl-ai-agent/src/manager/acp/agent_session_flow.rs:285-337 emit_snapshot_events *)
Definition snapshot_events (s : session) : list AgentStreamEvent.t :=
  match models (advertised s) with
  | Some st => [AgentStreamEvent.AcpModelInfo (sdk_to_snake_value (model_info_payload st))] | None => [] end ++
  match modes (advertised s) with
  | Some st => [AgentStreamEvent.AcpModeInfo (sdk_to_snake_value (modes_to_value st))] | None => [] end ++
  match config_options (advertised s) with
  | Some l => [AgentStreamEvent.AcpConfigOption (sdk_to_snake_value (Obj [("config_options", options_to_value l)]))]
  | None => [] end ++
  match available_commands (advertised s) with
  | Some l => [AgentStreamEvent.AvailableCommands l] | None => [] end.
Definition emit_snapshot_events : M unit :=
  modify (λ s, foldl (λ s e, on_runtime (AgentRuntime.emit e) s) s (snapshot_events (m_session s))).

Definition apply_opt {A} (f : A → session → session) (o : option A) (s : session) : session :=
  match o with Some a => f a s | None => s end.
Definition apply_response (r : SessionResponse) (s : session) : session :=
  apply_opt apply_advertised_config_options (rsp_config_options r)
    (apply_opt apply_advertised_modes (rsp_modes r) (apply_opt apply_advertised_models (rsp_models r) s)).

(* chisl-ai-agent/src/manager/acp/agent_session_flow.rs:34-71 open_session_new *)
Definition open_session_new : M string :=
  await response := app (send_request (on_new_session None) "session/new") in
  let sid := fst response in
  await_ update (λ s, mark_pending_session_new_prelude (set_session_id sid (apply_response (snd response) s))) in
  await_ emit_snapshot_events in
  await_ emit (AgentStreamEvent.SessionAssigned sid) in
  await_ reconcile_session sid in
  ret sid.

(* chisl-ai-agent/src/manager/acp/agent_session_flow.rs:77-90 rebuild_after_session_not_found *)
Definition rebuild_after_session_not_found : M string :=
  await_ update clear_session_id in open_session_new.

(** [match p.await { Ok(a) => k(a), Err(e) if is_session_not_found(&e) => rebuild, Err(e) => Err(e) }] *)
Definition or_rebuild {A} (p : M A) (k : A → M string) : M string :=
  await r := attempt p in
  match r with
  | Ok a => k a
  | Err e => if is_session_not_found e then rebuild_after_session_not_found else fail e
  end.

(** What the database remembers overrides what the agent says is current. *)
Definition override_current (mode model : option string) (r : SessionResponse) : SessionResponse :=
  mk_response ((λ st, mk_models (default (current_model_id st) model) (available_models st)) <$> rsp_models r)
    ((λ st, mk_modes (default (current_mode_id st) mode) (available_modes st)) <$> rsp_modes r)
    (rsp_config_options r).

(* chisl-ai-agent/src/manager/acp/agent_session_flow.rs:109-223 open_session_resume *)
Definition open_session_resume (session_id : string) : M string :=
  if agent_metadata_uses_meta_resume metadata then
    or_rebuild (app (send_request (on_new_session (Some session_id)) "session/new")) (λ response,
      let new_sid := fst response in
      await_ update (λ s, set_session_id new_sid (apply_response (snd response) s)) in
      await_ emit_snapshot_events in
      await_ (if String.eqb new_sid session_id then ret tt else emit (AgentStreamEvent.SessionAssigned new_sid)) in
      or_rebuild (reconcile_session new_sid) (λ _, ret new_sid))
  else
    await info := read (λ s, (default false (load_session <$> agent_capabilities (advertised s)),
                              current_mode_id <$> modes (advertised s), current_model_id <$> models (advertised s))) in
    let '(supports_load, preloaded_mode, preloaded_model) := info in
    if supports_load : bool then
      or_rebuild (app (send_request (on_load_session session_id) "session/load")) (λ response,
        await_ update (λ s, set_session_id session_id
                              (apply_response (override_current preloaded_mode preloaded_model response) s)) in
        await_ emit_snapshot_events in
        or_rebuild (reconcile_session session_id) (λ _, ret session_id))
    else
      await_ update (set_session_id session_id) in
      await_ emit_snapshot_events in
      or_rebuild (reconcile_session session_id) (λ _, ret session_id).

(* chisl-ai-agent/src/manager/acp/agent.rs:487-508 ensure_session_opened *)
Definition ensure_session_opened : M string :=
  await st := read (λ s, (AcpSession.session_id s, opened s)) in
  await sid := match st with
               | (None, _) => open_session_new
               | (Some sid, false) => open_session_resume sid
               | (Some sid, true) => ret sid
               end in
  await_ update mark_opened in
  ret sid.

(* chisl-ai-agent/src/manager/acp/agent.rs:545-553 warmup_session *)
Definition warmup_session : M unit := await_ ensure_session_opened in ret tt.

(* ------------------------------------------------------------------ *)
(** ** A turn *)

(* chisl-ai-agent/src/manager/acp/agent_session_flow.rs:369-381 event_is_user_visible_output *)
Definition event_is_user_visible_output (e : AgentStreamEvent.t) : bool :=
  match e with
  | AgentStreamEvent.Text _ | AgentStreamEvent.Thinking _ | AgentStreamEvent.ToolCall _
  | AgentStreamEvent.AcpToolCall _ | AgentStreamEvent.ToolGroup _ | AgentStreamEvent.Plan _
  | AgentStreamEvent.Permission _ | AgentStreamEvent.AcpPermission _ => true
  | _ => false
  end.
(** The capacity of the broadcast: a receiver that missed events gets [Lagged] first. *)
Definition CHANNEL_CAPACITY : nat := 256.
(* chisl-ai-agent/src/manager/acp/agent_session_flow.rs:351-365 is_empty_turn *)
Definition is_empty_turn (unread : list AgentStreamEvent.t) : bool :=
  if (CHANNEL_CAPACITY <? length unread)%nat then false
  else negb (existsb event_is_user_visible_output unread).

(* chisl-ai-agent/src/manager/acp/agent_session_flow.rs:386-403 empty_finish_diagnostic_message *)
Definition empty_finish_diagnostic_message (r : StopReason) : string :=
  match r with
  | MaxTokens => "The model reached its output token limit before producing any reply. " +:+
                 "Try asking a shorter question or raising the model's max output."
  | MaxTurnRequests => "The model hit the per-turn request cap before producing any reply. " +:+
                       "Try a simpler request or restart the conversation."
  | Refusal => "The model refused to continue without producing a reply."
  | _ => "The model finished without producing any reply. " +:+
         "This usually means the request returned an empty response — " +:+
         "try resending the message or switching model/provider."
  end.

(** The answer to [session/prompt], the events of the turn broadcast before it. *)
Definition prompt_request (sid content : string) : prog manager AcpError.t StopReason :=
  await_ modify (λ s, if is_connected (m_cli s)
                      then foldl (λ s e, on_runtime (AgentRuntime.emit e) s) s (prompt_events sid content (m_cli s)) else s) in
  send_request (on_prompt sid content) "session/prompt".

(* chisl-ai-agent/src/manager/acp/agent_session_flow.rs:226-280 prompt_existing_session *)
Definition prompt_existing_session (content : string) (sid : string) : M unit :=
  await probe := atomic (st_get (λ s, length (events_of s))) in
  await_ emit (AgentStreamEvent.Start (Some sid)) in
  await stop_reason := app (prompt_request sid content) in
  await_ modify (λ s,
    if match stop_reason with StopCancelled => false | _ => true end && is_empty_turn (drop probe (events_of s))
    then on_runtime (AgentRuntime.emit (AgentStreamEvent.error_event (empty_finish_diagnostic_message stop_reason)
                       (Some "acp.empty_finish"))) s
    else s) in
  emit (AgentStreamEvent.Finish (Some sid)).

(* chisl-ai-agent/src/capability/model_identity_reminder.rs:10-20 render_model_identity_reminder *)
Definition render_model_identity_reminder (label : string) : string :=
  "<system-reminder>" +:+ nl +:+
  "Model switch: The active model has been changed to " +:+ label +:+ " via the /model command. " +:+
  "You are now running as " +:+ label +:+ ". " +:+
  "The earlier " +:+ String (Ascii.ascii_of_nat 34) "You are powered by" +:+ String (Ascii.ascii_of_nat 34)
  " text in the system prompt is cached from session start and no longer reflects the actual model. " +:+
  "When asked which model you are, answer " +:+ label +:+ "." +:+ nl +:+
  "</system-reminder>" +:+ nl +:+ nl.

(* chisl-ai-agent/src/manager/acp/hooks.rs:19-40 SessionNewPreludeHook::pre_send *)
Definition session_new_prelude (s : session) (prompt : string) : session * string :=
  let '(s, pending) := take_pending_session_new_prelude s in
  (s, if pending : bool then inject_first_message_prefix prompt else prompt).
(* chisl-ai-agent/src/manager/acp/hooks.rs:48-67 ModelIdentityReminderHook::pre_send *)
Definition model_identity_reminder (s : session) (prompt : string) : session * string :=
  match take_pending_model_notice s with
  | (s, None) => (s, prompt)
  | (s, Some model) =>
      let label := default model (info ← model_info s;
        model_name <$> List.find (λ m, String.eqb (model_id m) model) (available_models info)) in
      (s, render_model_identity_reminder label +:+ prompt)
  end.
(* chisl-ai-agent/src/capability/prompt_pipeline.rs:46-52 PromptPipeline::pre_send *)
Definition pre_send (s : session) (prompt : string) : session * string :=
  let '(s, prompt) := session_new_prelude s prompt in model_identity_reminder s prompt.

(* chisl-ai-agent/src/manager/acp/agent.rs:516-538 ensure_session_and_send *)
Definition ensure_session_and_send (content : string) : M unit :=
  await sid := ensure_session_opened in
  await_ modify (on_runtime (AgentRuntime.reset_for_new_turn ConversationStatus.Running)) in
  await content := atomic (λ s,
    let '(ss, transformed) := pre_send (m_session s) content in
    (commit_session_changes (set_session ss s), Ok transformed)) in
  prompt_existing_session content sid.

(* chisl-ai-agent/src/manager/acp/agent.rs:583-622 send_message *)
Definition send_message (now : TimestampMs) (content : string) : M unit :=
  await_ modify (on_runtime (AgentRuntime.bump_activity now)) in
  await result := attempt (ensure_session_and_send content) in
  match result with
  | Ok _ => await_ modify (on_runtime (AgentRuntime.emit_finish None)) in ret tt
  | Err err =>
      await close_reason := atomic (st_get (λ s, build_close_reason_from_error (process_of (m_cli s)) err)) in
      await_ modify (λ s, set_session (record_close_reason (Some close_reason) (m_session s)) s) in
      await_ modify (on_runtime (AgentRuntime.emit_error (CloseReason.user_facing_message close_reason))) in
      fail err
  end.

(* ------------------------------------------------------------------ *)
(** ** The other requests *)

Definition cancel_notification (s : manager) : manager :=
  match AcpSession.session_id (m_session s) with
  | Some sid => if is_connected (m_cli s) then set_cli (on_cancel sid (m_cli s)) s else s
  | None => s
  end.
(* chisl-ai-agent/src/manager/acp/agent.rs:625-652 cancel *)
Definition cancel : M unit :=
  await_ modify cancel_notification in
  await_ modify (λ s, set_router (PermissionRouter.cancel_all (m_router s)) s) in
  await_ modify (λ s, set_session (record_close_reason (Some CloseReason.UserCancel) (m_session s)) s) in
  await_ modify (on_runtime (AgentRuntime.reset_for_new_turn ConversationStatus.Finished)) in
  emit (AgentStreamEvent.Finish None).

(** [locked]: whether the session lock is taken at the two [try_] calls; the process is
    killed by a task of its own. *)
(* chisl-ai-agent/src/manager/acp/agent.rs:654-708 kill *)
Definition kill (locked : bool * bool) (reason : option AgentKillReason.t) : M unit :=
  await_ modify (λ s, set_router (PermissionRouter.set_closing (m_router s)) s) in
  await_ modify (λ s, if fst locked then s else cancel_notification s) in
  await_ modify (λ s, set_router (PermissionRouter.cancel_all (m_router s)) s) in
  let close_reason := CloseReason.Killed reason in
  await_ modify (λ s, if snd locked then s
                      else set_session (record_close_reason (Some close_reason) (m_session s)) s) in
  modify (on_runtime (AgentRuntime.emit_error (CloseReason.user_facing_message close_reason))).

(** A reconcile whose failure is only logged. *)
Definition reconcile_best_effort (sid : string) : M unit :=
  await_ attempt (F:=AppError.t) (reconcile_session sid) in ret tt.

(* chisl-ai-agent/src/manager/acp/agent.rs:358-392 set_mode *)
Definition set_mode (mode : string) : M unit :=
  let normalized_mode := normalize_requested_mode metadata mode in
  if String.eqb normalized_mode EmptyString then ret tt else
  await sid := read AcpSession.session_id in
  await_ update (λ s, fst (set_desired_mode normalized_mode s)) in
  match sid with Some sid => reconcile_best_effort sid | None => ret tt end.

(* chisl-ai-agent/src/manager/acp/agent.rs:401-422 set_model *)
Definition set_model (model_id : string) : M unit :=
  await sid := read AcpSession.session_id in
  await_ update (λ s, fst (set_desired_model model_id s)) in
  match sid with
  | Some sid => reconcile_best_effort sid
  | None => fail (AppError.BadRequest "No active session")
  end.

(* chisl-ai-agent/src/manager/acp/agent.rs:321-341 mode *)
Definition mode : M string :=
  read (λ s,
    let desired := m ← desired_mode s;
      let n := normalize_requested_mode metadata m in if String.eqb n EmptyString then None else Some n in
    match current_mode_id <$> modes (advertised s) with
    | Some m => m
    | None => default (normalize_requested_mode metadata "default") desired
    end).

(** A session id restored from the database, before the first turn. *)
(* chisl-ai-agent/src/manager/acp/agent.rs:455-459 set_session_id *)
Definition restore_session_id (sid : string) : M unit :=
  modify (λ s, set_session (fst (drain_events (set_session_id sid (m_session s)))) s).

(* chisl-ai-agent/src/manager/acp/agent.rs:78-89 confirm_option_id *)
Definition confirm_option_id (data : json) : option string :=
  match data with
  | Str v => Some v
  | Obj _ =>
      v ← match get "option_id" data with
          | Some v => Some v
          | None => match get "optionId" data with Some v => Some v | None => get "value" data end
          end;
      as_str v
  | _ => None
  end.
(* chisl-ai-agent/src/manager/acp/agent.rs:728-740 confirm *)
Definition confirm (call_id : string) (data : json) : M unit :=
  match confirm_option_id data with
  | None => fail (AppError.BadRequest "ACP confirmation requires an option_id string")
  | Some option_id =>
      atomic (λ s, let '(router, r) := PermissionRouter.confirm call_id option_id (m_router s) in (set_router router s, r))
  end.

(* chisl-ai-agent/src/manager/acp/agent_event_tracker.rs:92-133 apply_event_to_session *)
Definition apply_event_to_session (event : AgentStreamEvent.t) : M unit :=
  match event with
  | AgentStreamEvent.AcpModeInfo value =>
      match modes_from_value value with
      | Some st => update (apply_advertised_modes st)
      | None => match get "currentModeId" value ≫= as_str with
                | Some current_id => update (apply_observed_mode current_id)
                | None => ret tt
                end
      end
  | AgentStreamEvent.AcpModelInfo value =>
      match models_from_value value with Some st => update (apply_advertised_models st) | None => ret tt end
  | AgentStreamEvent.AcpConfigOption value =>
      match options_from_value value with Some l => update (apply_advertised_config_options l) | None => ret tt end
  | AgentStreamEvent.AcpContextUsage value =>
      match usage_from_value value with Some u => update (apply_context_usage u) | None => ret tt end
  | AgentStreamEvent.AvailableCommands l => update (apply_advertised_commands l)
  | _ => ret tt
  end.

(** What [new] and [init] make of the parameters of the session. *)
(* chisl-ai-agent/src/manager/acp/agent.rs:238-262 new (session) *)
Definition initial_session (snapshot : option PersistedSessionState) (session_mode current_model_id : option string) : session :=
  let initial_mode :=
    m ← match (snapshot ≫= p_mode) with
        | Some m => Some (normalize_requested_mode metadata m)
        | None => normalize_requested_mode metadata <$> session_mode
        end;
    if String.eqb m EmptyString then None else Some m in
  let initial_model :=
    match (snapshot ≫= p_model) with
    | Some m => Some m
    | None => m ← current_model_id; if String.eqb m EmptyString then None else Some m
    end in
  AcpSession.new initial_mode initial_model (default ∅ (p_config <$> snapshot)).
(* chisl-ai-agent/src/manager/acp/agent.rs:289-317 init (session) *)
Definition init_session (snapshot : option PersistedSessionState) (caps : option AgentCapabilities)
    (auth : option (list AuthMethod)) (s : session) : session :=
  apply_opt apply_advertised_auth_methods auth (apply_opt apply_advertised_capabilities caps
    (match snapshot with Some p => fst (drain_events (preload_persisted p s)) | None => s end)).
End manager.
