(* ===== verification/AcpManagerFacts.v ===== *)
(** * AcpManagerFacts: what opening, reconciling and a turn achieve

    Equations of the manager's programs when they run alone, whatever the agent
    answers, and the theorems about them. *)

From S2P Require Import Prelude.
From S2P Require Import Text.
From S2P Require Import Threads.
From S2P Require Import JsonValue.
From S2P Require Import TeamTypes.
From S2P Require Import AcpState.
From S2P Require Import AcpErrors.
From S2P Require Import AgentEvents.
From S2P Require Import AcpRuntime.
From S2P Require Import AcpManager.
Import AcpSession.

Section facts.
Context `{AcpAgent} `{AcpSerde} `{JsonCodec} `{Unicode} `{HashIter string} `{HashIter PermissionRouter.request}.
Context (metadata : AgentMetadata).
Abbreviation session := (AcpSession.t (CloseReason:=CloseReason.t)).
Implicit Types s : manager.

Lemma run_update {A} (f : session → session) (k : unit → prog manager AppError.t A) s :
  run (bind (update f) k) s = run (k tt) (commit_session_changes (AcpManager.set_session (f (m_session s)) s)).
Proof. done. Qed.
Lemma run_session_read {A B} (f : session → B) (k : B → prog manager AppError.t A) s :
  run (bind (read f) k) s = run (k (f (m_session s))) s.
Proof. done. Qed.
Lemma run_modify {A E} (f : manager → manager) (k : unit → prog manager E A) s :
  run (bind (modify f) k) s = run (k tt) (f s).
Proof. done. Qed.
Lemma run_attempt_bind {E F A B} (p : prog manager E A) (k : result A E → prog manager F B) s :
  run (bind (attempt p) k) s = run (k (snd (run p s))) (fst (run p s)).
Proof. rewrite run_bind. unfold st_bind. rewrite run_attempt. unfold st_try. by destruct (run p s). Qed.
Lemma run_lifted {A} (p : prog manager AcpError.t A) s :
  run (app p) s = (fst (run p s), res_map_err AcpError.to_app (snd (run p s))).
Proof. unfold app. rewrite run_attempt_bind. by destruct (snd (run p s)). Qed.
Lemma run_lifted_bind {A B} (p : prog manager AcpError.t A) (k : A → prog manager AppError.t B) s :
  run (bind (app p) k) s = match snd (run p s) with
    | Ok a => run (k a) (fst (run p s)) | Err e => (fst (run p s), Err (AcpError.to_app e)) end.
Proof. rewrite run_bind. unfold st_bind. rewrite run_lifted. by destruct (snd (run p s)). Qed.
Lemma run_send {A} (call : Cli → Cli * result A SdkError) method s :
  run (send_request call method) s =
    if is_connected (m_cli s)
    then (set_cli (fst (call (m_cli s))) s, res_map_err (λ e, AcpError.from_sdk e method) (snd (call (m_cli s))))
    else (s, Err AcpError.NotConnected).
Proof. unfold send_request. rewrite run_atomic. destruct (is_connected _); [|done]. by destruct (call _). Qed.

Lemma run_bind_ok {A B} (p : prog manager AppError.t A) (k : A → prog manager AppError.t B) s s' b :
  run (bind p k) s = (s', Ok b) → ∃ s1 a, run p s = (s1, Ok a) ∧ run (k a) s1 = (s', Ok b).
Proof. rewrite run_bind. unfold st_bind. destruct (run p s) as [s1 [a|e]]; [by eauto|done]. Qed.

Lemma run_assoc {A B D} (p : prog manager AppError.t A) (q : A → prog manager AppError.t B) (k : B → prog manager AppError.t D) s :
  run (bind p (λ a, bind (q a) k)) s = run (bind (bind p q) k) s.
Proof. rewrite !run_bind. unfold st_bind. rewrite run_bind. unfold st_bind. destruct (run p s) as [s1 [a|e]]; [|done]. by rewrite run_bind. Qed.

(** *** Requests leave the session alone *)

Lemma send_session {A} (call : Cli → Cli * result A SdkError) method s :
  m_session (fst (run (send_request call method) s)) = m_session s.
Proof. rewrite run_send. by destruct (is_connected _). Qed.

(* ------------------------------------------------------------------ *)
(** ** Reconciling *)

Lemma plan_ext (ss ss' : session) :
  desired ss = desired ss' → observed ss = observed ss' → plan_reconcile ss = plan_reconcile ss'.
Proof. intros Hd Ho. unfold plan_reconcile, plan_mode, plan_model, plan_config. by rewrite Hd, Ho. Qed.

(** The mode asked for is the one the agent knows it by. *)
Definition native_mode (ss : session) : Prop :=
  ∀ m, d_mode (desired ss) = Some m → normalize_requested_mode metadata m = m ∧ m ≠ EmptyString.
(** An agent that answers every request to change a setting with success. *)
Definition accepting : Prop :=
  ∀ cli, is_connected cli = true ∧ (∀ sid m, snd (on_set_mode sid m cli) = Ok tt) ∧
    (∀ sid m, snd (on_set_model sid m cli) = Ok tt) ∧ (∀ sid k v, snd (on_set_config sid k v cli) = Ok tt).

Definition same_wish (s s' : manager) : Prop := desired (m_session s') = desired (m_session s).

(** One action: carried out and observed, or refused, or the session is unknown. *)
Lemma reconcile_action_spec sid a s s' r :
  run (reconcile_action metadata sid a) s = (s', r) → (∀ m, a = SetMode m → normalize_requested_mode metadata m = m ∧ m ≠ EmptyString) →
  same_wish s s' ∧
  match r with
  | Ok _ => observed (m_session s') = observed (apply_action a (m_session s)) ∨
            observed (m_session s') = observed (m_session s) ∧ ¬ accepting
  | Err e => is_session_not_found e = true ∧ observed (m_session s') = observed (m_session s) ∧ ¬ accepting
  end.
Proof.
  intros Hrun Ha.
  assert (Hreq : ∀ (p : prog manager AcpError.t unit) f,
    run (reconcile_request p f) s = (s', r) → m_session (fst (run p s)) = m_session s →
    (accepting → snd (run p s) = Ok tt) →
    desired (f (m_session s)) = desired (m_session s) →
    observed (f (m_session s)) = observed (apply_action a (m_session s)) →
    same_wish s s' ∧ match r with
      | Ok _ => observed (m_session s') = observed (apply_action a (m_session s)) ∨
                observed (m_session s') = observed (m_session s) ∧ ¬ accepting
      | Err e => is_session_not_found e = true ∧ observed (m_session s') = observed (m_session s) ∧ ¬ accepting end).
  { intros p f Hr Hs Hacc Hd Ho. unfold reconcile_request in Hr. rewrite run_attempt_bind in Hr. unfold same_wish.
    destruct (snd (run p s)) as [[]|e] eqn:Hp.
    - injection Hr as <- <-. simpl. rewrite Hs. split; [done|by left].
    - assert (Hna : ¬ accepting) by (intros Hx; by specialize (Hacc Hx)).
      destruct e; simpl in Hr; injection Hr as <- <-; rewrite Hs; split; try done; by right. }
  destruct a as [m|m|k v]; unfold reconcile_action in Hrun; cbv zeta in Hrun.
  - destruct (Ha m eq_refl) as [Hm Hne]. rewrite Hm in Hrun. rewrite (proj2 (String.eqb_neq _ _) Hne) in Hrun.
    apply (Hreq _ _ Hrun); try done; [apply send_session| |apply (apply_action_desired (SetMode m))].
    intros Hacc. rewrite run_send. destruct (Hacc (m_cli s)) as (-> & Hx & _). simpl. by rewrite Hx.
  - apply (Hreq _ _ Hrun); [apply send_session| | |].
    + intros Hacc. rewrite run_send. destruct (Hacc (m_cli s)) as (-> & _ & Hx & _). simpl. by rewrite Hx.
    + destruct (self_identity_sticky _); apply (apply_action_desired (SetModel m)).
    + by destruct (self_identity_sticky _).
  - apply (Hreq _ _ Hrun); try done; [apply send_session| |apply (apply_action_desired (SetConfigOption k v))].
    intros Hacc. rewrite run_send. destruct (Hacc (m_cli s)) as (-> & _ & _ & Hx). simpl. by rewrite Hx.
Qed.

Definition apply_all (l : list ReconcileAction) (ss : session) : session := foldl (λ ss a, apply_action a ss) ss l.

Lemma apply_all_ext l : ∀ ss ss', observed ss = observed ss' → observed (apply_all l ss) = observed (apply_all l ss').
Proof. induction l as [|a l IH]; intros ss ss' Ho; simpl; [done|]. apply IH. by rewrite !apply_action_observed, Ho. Qed.

Lemma apply_all_desired l : ∀ ss, desired (apply_all l ss) = desired ss.
Proof. induction l as [|a l IH]; intros ss; simpl; [done|]. by rewrite IH, apply_action_desired. Qed.

Lemma reconcile_loop sid l : ∀ s s' r,
  run (for_each (reconcile_action metadata sid) l) s = (s', r) →
  (∀ m, SetMode m ∈ l → normalize_requested_mode metadata m = m ∧ m ≠ EmptyString) →
  ∃ applied left, applied ++ left ≡ₚ l ∧ same_wish s s' ∧
    observed (m_session s') = observed (apply_all applied (m_session s)) ∧
    match r with
    | Ok _ => accepting → left = []
    | Err e => is_session_not_found e = true ∧ left ≠ [] ∧ ¬ accepting
    end.
Proof.
  induction l as [|a l IH]; intros s s' r Hrun Hl.
  { injection Hrun as <- <-. exists [], []. done. }
  simpl in Hrun. rewrite run_bind in Hrun. unfold st_bind in Hrun.
  destruct (run (reconcile_action metadata sid a) s) as [s1 r1] eqn:He1.
  apply reconcile_action_spec in He1 as [Hw Hr1]; [|intros m ->; apply Hl; by left].
  destruct r1 as [[]|e].
  - destruct (IH s1 s' r Hrun) as (applied & left & Hp & Hw1 & Ho & Hr); [intros m Hm; apply Hl; by right|].
    assert (Hw2 : same_wish s s') by (unfold same_wish in *; congruence).
    destruct Hr1 as [Ho1|[Ho1 Hna]].
    + exists (a :: applied), left. simpl. rewrite Hp. split; [done|]. split; [done|]. split; [|done].
      rewrite Ho. by apply apply_all_ext.
    + exists applied, (a :: left). split; [by rewrite <- Hp, Permutation_middle|]. split; [done|].
      split; [rewrite Ho; by apply apply_all_ext|]. destruct r; [done|]. by destruct Hr.
  - injection Hrun as <- <-. destruct Hr1 as (Hs & Ho & Hna). exists [], (a :: l). done.
Qed.

(** Reconciling brings the agent to what the user wants, as far as the agent lets
    it.  Whatever the agent answers, the settings that remain to be reconciled are
    exactly the planned ones it did not accept, the wishes are untouched, and an agent
    that accepts every change leaves nothing to reconcile; reconciling fails only when
    the agent does not know the session. *)
Lemma reconcile_converges sid s s' r :
  run (reconcile_session metadata sid) s = (s', r) → native_mode (m_session s) →
  ∃ applied left, applied ++ left ≡ₚ plan_reconcile (m_session s) ∧ plan_reconcile (m_session s') ≡ₚ left ∧
    desired (m_session s') = desired (m_session s) ∧
    match r with
    | Ok _ => accepting → plan_reconcile (m_session s') = []
    | Err e => is_session_not_found e = true ∧ left ≠ [] ∧ ¬ accepting
    end.
Proof.
  intros Hrun Hn. unfold reconcile_session in Hrun. rewrite run_session_read in Hrun.
  destruct (reconcile_loop sid _ s s' r Hrun) as (applied & left & Hp & Hw & Ho & Hr).
  { intros m [Hm _]%elem_of_plan. by apply Hn. }
  assert (Hplan : plan_reconcile (m_session s') ≡ₚ left).
  { rewrite (plan_ext (m_session s') (apply_all applied (m_session s))).
    - by apply plan_after.
    - by rewrite Hw, apply_all_desired.
    - done. }
  exists applied, left. split_and!; [done..|]. destruct r; [|done]. intros Hacc.
  rewrite (Hr Hacc) in Hplan. by apply Permutation_nil_r in Hplan.
Qed.

(* ------------------------------------------------------------------ *)
(** ** Opening *)

(** Programs that leave the id and the life cycle of the session alone and only add
    domain events. *)
Definition ident (ss : session) : option string * bool * bool :=
  (AcpSession.session_id ss, opened ss, pending_session_new_prelude ss).
Definition steady (s s' : manager) : Prop :=
  ident (m_session s') = ident (m_session s) ∧ m_domain s `prefix_of` m_domain s'.
Definition keeps {A} (p : prog manager AppError.t A) : Prop := ∀ s, steady s (fst (run p s)).

Lemma steady_refl s : steady s s. Proof. done. Qed.
Lemma steady_trans s1 s2 s3 : steady s1 s2 → steady s2 s3 → steady s1 s3.
Proof. intros [H1' H2'] [H3' H4']. split; [congruence|by etrans]. Qed.
Lemma steady_commit s (ss : session) :
  ident ss = ident (m_session s) → steady s (commit_session_changes (AcpManager.set_session ss s)).
Proof. intros Hi. split; [exact Hi|]. by apply prefix_app_r. Qed.

Lemma keeps_bind {A B} (p : prog manager AppError.t A) (k : A → prog manager AppError.t B) :
  keeps p → (∀ a, keeps (k a)) → keeps (bind p k).
Proof.
  intros Hp Hk s. rewrite run_bind. unfold st_bind. specialize (Hp s).
  destruct (run p s) as [s1 [a|e]]; cbn [fst] in *; [|done]. eapply steady_trans; [exact Hp|apply Hk].
Qed.
Lemma keeps_ret {A} (a : A) : keeps (ret a). Proof. intros s. apply steady_refl. Qed.
Lemma keeps_update f : (∀ ss, ident (f ss) = ident ss) → keeps (update f).
Proof. intros Hf s. apply steady_commit, Hf. Qed.
Lemma keeps_runtime (f : AgentRuntime.t → AgentRuntime.t) : keeps (modify (on_runtime f)).
Proof. intros s. by split. Qed.
Lemma keeps_session_read {A} (f : session → A) : keeps (read f). Proof. intros s. apply steady_refl. Qed.
Lemma keeps_for_each {A} (body : A → prog manager AppError.t unit) l : (∀ a, keeps (body a)) → keeps (for_each body l).
Proof. intros Hb. induction l as [|a l IH]; simpl; [apply keeps_ret|]. by apply keeps_bind. Qed.

Lemma ident_push_if b e ss : ident (push_if b e ss) = ident ss. Proof. by destruct b. Qed.
Lemma ident_action a ss : ident (apply_action a ss) = ident ss.
Proof. destruct a; simpl; unfold apply_observed_mode, apply_observed_model, apply_observed_config; by rewrite ident_push_if. Qed.
Lemma ident_options l ss : ident (apply_advertised_config_options l ss) = ident ss.
Proof. unfold apply_advertised_config_options. destruct (merge_options _ _ _). by rewrite ident_push_if. Qed.
Lemma ident_modes st ss : ident (apply_advertised_modes st ss) = ident ss.
Proof. unfold apply_advertised_modes. by rewrite ident_push_if. Qed.
Lemma ident_models st ss : ident (apply_advertised_models st ss) = ident ss.
Proof. unfold apply_advertised_models. by rewrite ident_push_if. Qed.
Lemma ident_response r ss : ident (apply_response r ss) = ident ss.
Proof.
  unfold apply_response. destruct (rsp_config_options r), (rsp_modes r), (rsp_models r); simpl;
    by rewrite ?ident_options, ?ident_modes, ?ident_models.
Qed.

Lemma keeps_request (call : Cli → Cli * result unit SdkError) method f :
  (∀ ss, ident (f ss) = ident ss) → keeps (reconcile_request (send_request call method) f).
Proof.
  intros Hf s. unfold reconcile_request. rewrite run_attempt_bind, run_send.
  destruct (is_connected _); [destruct (snd (call (m_cli s))) as [[]|e]|]; cbn [fst snd res_map_err]; try by split.
  - split; [apply Hf|]. by apply prefix_app_r.
  - destruct (AcpError.from_sdk e method); by split.
Qed.

Lemma keeps_reconcile sid : keeps (reconcile_session metadata sid).
Proof.
  apply keeps_bind; [apply keeps_session_read|]. intros actions. apply keeps_for_each. intros [m|m|k v]; unfold reconcile_action.
  - destruct (String.eqb _ _); [apply keeps_ret|]. apply keeps_request.
    intros ss. apply (ident_action (SetMode _)).
  - apply keeps_request. intros ss.
    destruct (self_identity_sticky _); apply (ident_action (SetModel m)).
  - apply keeps_request. intros ss. apply (ident_action (SetConfigOption k v)).
Qed.

Lemma keeps_snapshot : keeps emit_snapshot_events.
Proof.
  intros s. simpl. assert (Hl : ∀ l s', steady s s' → steady s (foldl (λ s e, on_runtime (AgentRuntime.emit e) s) s' l)).
  { induction l as [|e l IH]; intros s' Hs; simpl; [done|]. apply IH. eapply steady_trans; [exact Hs|by split]. }
  apply Hl, steady_refl.
Qed.
Lemma keeps_emit e : keeps (emit e). Proof. apply keeps_runtime. Qed.
Create HintDb keeps.
Hint Resolve keeps_reconcile keeps_snapshot keeps_runtime keeps_ret keeps_emit : keeps.

(** [ident] after opening a new session from an unnamed one. *)
Lemma open_session_new_ident s s' r :
  run (open_session_new metadata) s = (s', r) → AcpSession.session_id (m_session s) = None →
  opened (m_session s') = opened (m_session s) ∧
  match r with Ok sid => AcpSession.session_id (m_session s') = Some sid | Err _ => True end.
Proof.
  intros Hrun Hid. unfold open_session_new in Hrun. rewrite run_lifted_bind in Hrun.
  pose proof (send_session (on_new_session None) "session/new" s) as Hp.
  destruct (run (send_request (on_new_session None) "session/new") s) as [s0 [[sid rsp]|e]]; cbn [fst snd] in Hp, Hrun;
    cbv beta iota zeta in Hrun; [|apply pair_eq in Hrun as [<- <-]; by rewrite Hp].
  rewrite run_update in Hrun. revert Hrun. set (s1 := commit_session_changes _). intros Hrun.
  assert (Hi1 : ident (m_session s1) = (Some sid, opened (m_session s), true)).
  { subst s1. unfold commit_session_changes. simpl. rewrite Hp. unfold set_session_id.
    pose proof (ident_response rsp (m_session s)) as Hr. unfold ident in Hr. injection Hr as Hr1 Hr2 _.
    rewrite Hr1, Hid. unfold ident. simpl. by rewrite Hr2. }
  match type of Hrun with run ?q _ = _ => assert (Hk : keeps q) end.
  { repeat (apply keeps_bind; [auto with keeps|intros _]); auto with keeps. }
  destruct (Hk s1) as [Hks _]. rewrite Hrun, Hi1 in Hks. unfold ident in Hks. injection Hks as Hk1 Hk2 _.
  split; [done|]. destruct r as [sid'|]; [|done].
  apply run_bind_ok in Hrun as (s2 & [] & _ & Hrun). apply run_bind_ok in Hrun as (s3 & [] & _ & Hrun).
  apply run_bind_ok in Hrun as (s4 & [] & _ & Hrun). by injection Hrun as _ <-.
Qed.

Lemma rebuild_ident s s' r :
  run (rebuild_after_session_not_found metadata) s = (s', r) →
  opened (m_session s') = false ∧
  match r with Ok sid => AcpSession.session_id (m_session s') = Some sid | Err _ => True end.
Proof. unfold rebuild_after_session_not_found. rewrite run_update. intros Hrun. by apply open_session_new_ident in Hrun. Qed.

Lemma run_or_rebuild {A} (p : prog manager AppError.t A) k s s' r :
  run (or_rebuild metadata p k) s = (s', r) →
  (∃ s1 a, run p s = (s1, Ok a) ∧ run (k a) s1 = (s', r)) ∨
  (∃ s1 e, run p s = (s1, Err e) ∧ is_session_not_found e = true ∧
           run (rebuild_after_session_not_found metadata) s1 = (s', r)) ∨
  (∃ e, run p s = (s', Err e) ∧ is_session_not_found e = false ∧ r = Err e).
Proof.
  unfold or_rebuild. rewrite run_attempt_bind. destruct (run p s) as [s1 [a|e]]; cbn [fst snd]; intros Hrun.
  - left. eauto.
  - right. destruct (is_session_not_found e) eqn:He; [left; eauto|right]. injection Hrun as <- <-. eauto.
Qed.

Lemma app_send_session {A} (call : Cli → Cli * result A SdkError) method s s' r :
  run (app (send_request call method)) s = (s', r) → m_session s' = m_session s.
Proof. rewrite run_lifted. intros [<- _]%pair_eq. apply send_session. Qed.

(** What opening may leave: not marked as opened yet, and named by the id it returns,
    or still by [old] if that is allowed. *)
Definition opening (old : option string) (s' : manager) (r : result string AppError.t) : Prop :=
  opened (m_session s') = false ∧
  match r with
  | Ok sid => AcpSession.session_id (m_session s') = Some sid ∨
              (agent_metadata_uses_meta_resume metadata = true ∧ AcpSession.session_id (m_session s') = old)
  | Err _ => True
  end.

Lemma opening_rebuild old s s' r :
  run (rebuild_after_session_not_found metadata) s = (s', r) → opening old s' r.
Proof. intros [Ho Hr]%rebuild_ident. split; [done|]. destruct r; [by left|done]. Qed.

(** The end of every way to resume. *)
Lemma opening_reconcile old sid s s' r :
  run (or_rebuild metadata (reconcile_session metadata sid) (λ _, ret sid)) s = (s', r) →
  opened (m_session s) = false →
  (AcpSession.session_id (m_session s) = Some sid ∨
   agent_metadata_uses_meta_resume metadata = true ∧ AcpSession.session_id (m_session s) = old) →
  opening old s' r.
Proof.
  intros Hrun Ho Hid. destruct (keeps_reconcile sid s) as [Hk _].
  apply run_or_rebuild in Hrun as [(s1 & [] & Hp & Hrun)|[(s1 & e & Hp & _ & Hrun)|(e & Hp & _ & ->)]].
  - apply pair_eq in Hrun as [-> <-]. rewrite Hp in Hk. unfold ident in Hk. injection Hk as Hk1 Hk2 _.
    split; [by rewrite Hk2|]. by rewrite Hk1.
  - by eapply opening_rebuild.
  - rewrite Hp in Hk. unfold ident in Hk. injection Hk as Hk1 Hk2 _. split; [by rewrite Hk2|done].
Qed.

Lemma opening_tail old sid (p : prog manager AppError.t unit) s s' r :
  run (await_ p in or_rebuild metadata (reconcile_session metadata sid) (λ _, ret sid)) s = (s', r) →
  keeps p → opened (m_session s) = false →
  (AcpSession.session_id (m_session s) = Some sid ∨
   agent_metadata_uses_meta_resume metadata = true ∧ AcpSession.session_id (m_session s) = old) →
  opening old s' r.
Proof.
  intros Hrun Hp Ho Hid. rewrite run_bind in Hrun. unfold st_bind in Hrun. destruct (Hp s) as [Hi _].
  destruct (run p s) as [s0 [[]|e]]; unfold ident in Hi; injection Hi as Hp1 Hp2 _.
  - apply (opening_reconcile old sid s0); [done|by rewrite Hp2|by rewrite Hp1].
  - apply pair_eq in Hrun as [-> <-]. split; [by rewrite Hp2|done].
Qed.

Lemma resume_ident sid s s' r :
  run (open_session_resume metadata sid) s = (s', r) →
  AcpSession.session_id (m_session s) = Some sid → opened (m_session s) = false → opening (Some sid) s' r.
Proof.
  intros Hrun Hid Ho.
  assert (Hset : ∀ rsp x (s1 : manager), m_session s1 = m_session s →
    fst (ident (m_session (commit_session_changes (AcpManager.set_session (set_session_id x (apply_response rsp (m_session s1))) s1))))
      = (Some sid, false)).
  { intros rsp x s1 Hs1. unfold commit_session_changes. simpl. rewrite Hs1. unfold set_session_id.
    pose proof (ident_response rsp (m_session s)) as Hr. unfold ident in Hr. injection Hr as Hr1 Hr2 _.
    rewrite Hr1, Hid. unfold ident. simpl. by rewrite Hr1, Hr2, Hid, Ho. }
  assert (Hfail : ∀ (s1 : manager) (e : AppError.t), m_session s1 = m_session s → opening (Some sid) s1 (Err e)).
  { intros s1 e Hs1. split; [by rewrite Hs1|done]. }
  unfold open_session_resume in Hrun. destruct (agent_metadata_uses_meta_resume metadata) eqn:Hmeta.
  - apply run_or_rebuild in Hrun as [(s1 & rsp & Hp & Hrun)|[(s1 & e & _ & _ & Hrun)|(e & Hp & _ & ->)]].
    + apply app_send_session in Hp. cbv zeta in Hrun. rewrite run_update in Hrun.
      specialize (Hset (snd rsp) (fst rsp) s1 Hp). revert Hrun. set (s2 := commit_session_changes _) in *.
      change (fst (ident (m_session s2)) = (Some sid, false)) in Hset. unfold ident in Hset. injection Hset as H1' H2'.
      intros Hrun. rewrite run_assoc in Hrun. apply (opening_tail (Some sid)) in Hrun; [done| |done|by right].
      apply keeps_bind; [apply keeps_snapshot|]. intros []. destruct (String.eqb _ _); auto with keeps.
    + by eapply opening_rebuild.
    + apply Hfail. by eapply app_send_session.
  - rewrite run_session_read in Hrun. destruct (default false _).
    + apply run_or_rebuild in Hrun as [(s1 & rsp & Hp & Hrun)|[(s1 & e & _ & _ & Hrun)|(e & Hp & _ & ->)]].
      * apply app_send_session in Hp. rewrite run_update in Hrun.
        set (rsp' := override_current _ _ _) in Hrun. specialize (Hset rsp' sid s1 Hp).
        unfold ident in Hset. injection Hset as H1' H2'. apply (opening_tail (Some sid)) in Hrun; [done|apply keeps_snapshot|done|by left].
      * by eapply opening_rebuild.
      * apply Hfail. by eapply app_send_session.
    + rewrite run_update in Hrun. apply (opening_tail (Some sid)) in Hrun; [done|apply keeps_snapshot| |].
      * unfold commit_session_changes. simpl. unfold set_session_id. by rewrite Hid.
      * left. unfold commit_session_changes. simpl. unfold set_session_id. by rewrite Hid.
Qed.

(** What [ensure_session_opened] leaves, whatever the agent answers: a session that is
    open already is not touched and the agent not asked; otherwise either the session is
    open under the id returned (or, for agents that resume by [session/new], still under
    the id it was resumed from), or the error leaves it unopened. *)
Lemma opening_outcome s s' r :
  run (ensure_session_opened metadata) s = (s', r) →
  (opened (m_session s) = true → AcpSession.session_id (m_session s) ≠ None) →
  match AcpSession.session_id (m_session s), opened (m_session s) with
  | Some sid, true => r = Ok sid ∧ m_cli s' = m_cli s ∧ opened (m_session s') = true
  | old, _ =>
      match r with
      | Ok sid => opened (m_session s') = true ∧
          (AcpSession.session_id (m_session s') = Some sid ∨
           agent_metadata_uses_meta_resume metadata = true ∧ AcpSession.session_id (m_session s') = old)
      | Err _ => opened (m_session s') = false
      end
  end.
Proof.
  intros Hrun Hinv. unfold ensure_session_opened in Hrun. rewrite run_session_read in Hrun.
  assert (Hmark : ∀ (p : prog manager AppError.t string) old,
    run (await sid := p in await_ update mark_opened in ret sid) s = (s', r) →
    (∀ s1 r1, run p s = (s1, r1) → opening old s1 r1) →
    match r with
    | Ok sid => opened (m_session s') = true ∧ (AcpSession.session_id (m_session s') = Some sid ∨
        agent_metadata_uses_meta_resume metadata = true ∧ AcpSession.session_id (m_session s') = old)
    | Err _ => opened (m_session s') = false end).
  { intros p old Hp Hop. rewrite run_bind in Hp. unfold st_bind in Hp. destruct (run p s) as [s1 [sid|e]].
    - destruct (Hop _ _ eq_refl) as [Ho Hid]. rewrite run_update in Hp. injection Hp as <- <-.
      unfold commit_session_changes. simpl. unfold mark_opened. rewrite Ho. simpl. by split.
    - destruct (Hop _ _ eq_refl) as [Ho _]. by injection Hp as <- <-. }
  destruct (AcpSession.session_id (m_session s)) as [sid|] eqn:Hid; [destruct (opened (m_session s)) eqn:Ho|].
  - injection Hrun as <- <-. split_and!; [done..|].
    unfold commit_session_changes. simpl. unfold mark_opened. by rewrite Ho.
  - apply (Hmark _ (Some sid) Hrun). intros s1 r1 H1'. by apply (resume_ident sid s).
  - assert (Hno : opened (m_session s) = false) by (destruct (opened (m_session s)); [by destruct Hinv|done]).
    apply (Hmark _ None Hrun). intros s1 r1 [Ho Hs]%open_session_new_ident; [|done].
    split; [by rewrite Ho|]. destruct r1; [by left|done].
Qed.

(** *** A session the agent forgot *)

(** How the agent answers the attempt to resume [old]. *)
Definition resume_answer (ss : session) (old : string) (cli : Cli) : Cli * option SdkError :=
  if agent_metadata_uses_meta_resume metadata
  then let '(cli, r) := on_new_session (Some old) cli in (cli, match r with Ok _ => None | Err e => Some e end)
  else let '(cli, r) := on_load_session old cli in (cli, match r with Ok _ => None | Err e => Some e end).
Definition can_resume (ss : session) : bool :=
  agent_metadata_uses_meta_resume metadata || default false (load_session <$> agent_capabilities (advertised ss)).
Definition resume_method : string := if agent_metadata_uses_meta_resume metadata then "session/new" else "session/load".

Lemma not_found_app x : is_session_not_found (AcpError.to_app (AcpError.SessionNotFound x)) = true.
Proof. reflexivity. Qed.

Lemma or_rebuild_stale {A} (call : Cli → Cli * result A SdkError) method k s cli e x :
  is_connected (m_cli s) = true → call (m_cli s) = (cli, Err e) → AcpError.from_sdk e method = AcpError.SessionNotFound x →
  run (or_rebuild metadata (app (send_request call method)) k) s =
    run (rebuild_after_session_not_found metadata) (set_cli cli s).
Proof.
  intros Hcon Hcall He. unfold or_rebuild. rewrite run_attempt_bind, run_lifted, run_send, Hcon, Hcall.
  cbn [fst snd res_map_err]. rewrite He. cbn [res_map_err]. by rewrite not_found_app.
Qed.

(** An accepting agent lets every reconcile through. *)
Lemma reconcile_accepting sid s : accepting → ∃ s', run (reconcile_session metadata sid) s = (s', Ok tt).
Proof.
  intros Hacc. unfold reconcile_session. rewrite run_session_read. generalize (plan_reconcile (m_session s)) as l. intros l.
  assert (Hreq : ∀ (call : Cli → Cli * result unit SdkError) method f s,
    is_connected (m_cli s) = true → snd (call (m_cli s)) = Ok tt →
    ∃ s', run (reconcile_request (send_request call method) f) s = (s', Ok tt)).
  { intros call method f s0 Hc Hr. unfold reconcile_request. rewrite run_attempt_bind, run_send, Hc.
    cbn [fst snd]. rewrite Hr. cbn [res_map_err]. by eexists. }
  revert s. induction l as [|a l IH]; intros s; [by exists s|]. simpl for_each. rewrite run_bind. unfold st_bind.
  assert (Ha : ∃ s1, run (reconcile_action metadata sid a) s = (s1, Ok tt)).
  { destruct (Hacc (m_cli s)) as (Hc & Hm & Hmo & Hco). destruct a; unfold reconcile_action; cbv zeta.
    - destruct (String.eqb _ _); [by exists s|]. by apply Hreq.
    - by apply Hreq.
    - by apply Hreq. }
  destruct Ha as [s1 ->]. apply IH.
Qed.

(** A [session/new] that succeeds with an accepting agent. *)
Lemma open_session_new_ok s cli sid rsp :
  accepting → AcpSession.session_id (m_session s) = None → on_new_session None (m_cli s) = (cli, Ok (sid, rsp)) →
  ∃ s', run (open_session_new metadata) s = (s', Ok sid) ∧
    ident (m_session s') = (Some sid, opened (m_session s), true) ∧
    AcpSessionEvent.SessionAssigned sid ∈ m_domain s'.
Proof.
  intros Hacc Hid Hnew. unfold open_session_new. rewrite run_lifted_bind, run_send.
  destruct (Hacc (m_cli s)) as (-> & _). rewrite Hnew. cbn [fst snd res_map_err]. cbv zeta. rewrite run_update.
  set (s1 := commit_session_changes _).
  assert (Hi1 : ident (m_session s1) = (Some sid, opened (m_session s), true) ∧ AcpSessionEvent.SessionAssigned sid ∈ m_domain s1).
  { subst s1. unfold commit_session_changes. simpl. unfold set_session_id.
    pose proof (ident_response rsp (m_session s)) as Hr. unfold ident in Hr. injection Hr as Hr1 Hr2 _.
    rewrite Hr1, Hid. simpl. split; [unfold ident; simpl; by rewrite Hr2|]. rewrite !elem_of_app, list_elem_of_singleton. tauto. }
  destruct Hi1 as [Hi1 Hd]. pose proof (keeps_snapshot s1) as [Hs2 Hd2].
  rewrite run_bind. unfold st_bind. destruct (run emit_snapshot_events s1) as [s2 [[]|e]] eqn:Hq; [|by apply (f_equal snd) in Hq].
  cbn [fst] in Hs2, Hd2. rewrite run_bind. unfold st_bind.
  change (run (emit ?e) s2) with (on_runtime (AgentRuntime.emit (AgentStreamEvent.SessionAssigned sid)) s2, @Ok unit AppError.t tt).
  cbv beta iota. set (s3 := on_runtime _ s2). destruct (reconcile_accepting sid s3 Hacc) as [s4 H4'].
  pose proof (keeps_reconcile sid s3) as [Hs4 Hd4]. rewrite run_bind. unfold st_bind. rewrite H4' in *. cbn [fst] in Hs4, Hd4.
  exists s4. split; [done|]. split; [by rewrite Hs4, <- Hi1, <- Hs2|].
  destruct Hd4 as [l4 ->]. apply elem_of_app. left. change (m_domain s3) with (m_domain s2).
  destruct Hd2 as [l2 ->]. apply elem_of_app. by left.
Qed.

(** A session the agent has forgotten is replaced.  When the attempt to resume is
    answered in any of the forms that mean the session is not known, opening succeeds
    all the same if the agent can start a new session: the new id is returned, stored in
    the session and told to whoever persists it, the session is open, and the next
    prompt carries the prelude of a first message. *)
Lemma stale_session_is_rebuilt s old cli e x cli' sid rsp :
  AcpSession.session_id (m_session s) = Some old → opened (m_session s) = false →
  can_resume (m_session s) = true → resume_answer (m_session s) old (m_cli s) = (cli, Some e) →
  AcpError.from_sdk e resume_method = AcpError.SessionNotFound x →
  on_new_session None cli = (cli', Ok (sid, rsp)) → accepting →
  ∃ s', run (ensure_session_opened metadata) s = (s', Ok sid) ∧
    AcpSession.session_id (m_session s') = Some sid ∧ opened (m_session s') = true ∧
    pending_session_new_prelude (m_session s') = true ∧ AcpSessionEvent.SessionAssigned sid ∈ m_domain s'.
Proof.
  intros Hid Ho Hcan Hans Hx Hnew Hacc. destruct (Hacc (m_cli s)) as (Hcon & _).
  unfold ensure_session_opened. rewrite run_session_read. cbv beta. rewrite Hid, Ho. cbv beta iota.
  assert (Hres : run (open_session_resume metadata old) s = run (rebuild_after_session_not_found metadata) (set_cli cli s)).
  { unfold open_session_resume, can_resume, resume_answer, resume_method in *.
    destruct (agent_metadata_uses_meta_resume metadata).
    - apply (or_rebuild_stale _ _ _ _ cli e x); [done| |done].
      destruct (on_new_session (Some old) (m_cli s)) as [c [a|e']]; congruence.
    - rewrite run_session_read. simpl in Hcan. rewrite Hcan. cbv beta iota.
      apply (or_rebuild_stale _ _ _ _ cli e x); [done| |done].
      destruct (on_load_session old (m_cli s)) as [c [a|e']]; congruence. }
  rewrite run_bind. unfold st_bind. rewrite Hres. unfold rebuild_after_session_not_found. rewrite run_update.
  set (s1 := commit_session_changes _).
  destruct (open_session_new_ok s1 cli' sid rsp Hacc eq_refl Hnew) as (s2 & -> & Hi2 & Hd2).
  unfold ident in Hi2. injection Hi2 as Hid2 Ho2 Hp2. rewrite run_update. eexists. split; [reflexivity|].
  unfold commit_session_changes. simpl. unfold mark_opened. rewrite Ho2. simpl. split_and!; [done..|].
  apply elem_of_app. by left.
Qed.
End facts.

(* ------------------------------------------------------------------ *)
(** ** A turn *)

Section turn.
Context `{AcpAgent} `{AcpSerde} `{JsonCodec} `{Unicode} `{HashIter string} `{HashIter PermissionRouter.request}.
Context (metadata : AgentMetadata) (inject : string → string).
Implicit Types s : manager.

Definition emit_all (l : list AgentStreamEvent.t) (s : manager) : manager :=
  foldl (λ s e, on_runtime (AgentRuntime.emit e) s) s l.
Lemma emit_all_events l : ∀ s, events_of (emit_all l s) = events_of s ++ l ∧ status_of (emit_all l s) = status_of s ∧
  m_session (emit_all l s) = m_session s ∧ m_cli (emit_all l s) = m_cli s ∧ m_domain (emit_all l s) = m_domain s.
Proof.
  induction l as [|e l IH]; intros s; simpl; [by rewrite app_nil_r|].
  destruct (IH (on_runtime (AgentRuntime.emit e) s)) as (-> & -> & -> & -> & ->). split_and!; try done.
  unfold events_of. simpl. by rewrite <- app_assoc.
Qed.

(** The diagnostic of a turn that ends without anything to show. *)
Definition empty_turn_error (stop : StopReason) (turn : list AgentStreamEvent.t) : list AgentStreamEvent.t :=
  if match stop with StopCancelled => false | _ => true end && is_empty_turn turn
  then [AgentStreamEvent.error_event (empty_finish_diagnostic_message stop) (Some "acp.empty_finish")] else [].

(** The answer of the agent to a prompt, and what it broadcasts before. *)
Definition prompt_answer (sid prompt : string) (cli : Cli) : list AgentStreamEvent.t * Cli * result StopReason AcpError.t :=
  if is_connected cli
  then (prompt_events sid prompt cli, fst (on_prompt sid prompt cli),
        res_map_err (λ e, AcpError.from_sdk e "session/prompt") (snd (on_prompt sid prompt cli)))
  else ([], cli, Err AcpError.NotConnected).

Lemma prompt_request_run sid prompt s :
  run (prompt_request sid prompt) s =
    let '(es, cli, r) := prompt_answer sid prompt (m_cli s) in (set_cli cli (emit_all es s), r).
Proof.
  unfold prompt_request, prompt_answer. rewrite run_modify. destruct (is_connected (m_cli s)) eqn:Hc.
  - rewrite run_send. destruct (emit_all_events (prompt_events sid prompt (m_cli s)) s) as (_ & _ & _ & Hcli & _).
    unfold emit_all in *. by rewrite Hcli, Hc.
  - rewrite run_send, Hc. simpl. by destruct s.
Qed.

Lemma prompt_existing_run content sid s s' r :
  run (prompt_existing_session content sid) s = (s', r) →
  let '(es, cli, answer) := prompt_answer sid content (m_cli s) in
  let turn := AgentStreamEvent.Start (Some sid) :: es in
  m_session s' = m_session s ∧ m_cli s' = cli ∧ m_domain s' = m_domain s ∧ status_of s' = status_of s ∧
  match answer with
  | Ok stop => r = Ok tt ∧
      events_of s' = events_of s ++ turn ++ empty_turn_error stop turn ++ [AgentStreamEvent.Finish (Some sid)]
  | Err e => r = Err (AcpError.to_app e) ∧ events_of s' = events_of s ++ turn
  end.
Proof.
  unfold prompt_existing_session. change (run (bind ?p ?k) s) with (run (k (length (events_of s))) s).
  cbv beta. unfold emit at 1. rewrite run_modify, run_lifted_bind, prompt_request_run.
  set (s1 := on_runtime _ s). change (m_cli s1) with (m_cli s).
  destruct (prompt_answer sid content (m_cli s)) as [[es cli] answer]. cbv beta zeta iota. cbn [fst snd].
  destruct (emit_all_events es s1) as (He & Hst & Hse & Hcl & Hdo).
  assert (He1 : events_of s1 = events_of s ++ [AgentStreamEvent.Start (Some sid)]) by done.
  set (s2 := emit_all es s1) in *. rewrite He1, <- app_assoc in He. simpl in He.
  destruct answer as [stop|e].
  2: { intros [<- <-]%pair_eq. by split_and!. }
  rewrite run_modify. intros [<- <-]%pair_eq.
  change (events_of (set_cli cli s2)) with (events_of s2). rewrite He, drop_app_length.
  unfold empty_turn_error.
  destruct (_ && is_empty_turn _); (split_and!; try done); unfold events_of in *; simpl; rewrite He, <- ?app_assoc; done.
Qed.

Lemma emit_error_run m s :
  m_session (on_runtime (AgentRuntime.emit_error m) s) = m_session s ∧
  status_of (on_runtime (AgentRuntime.emit_error m) s) = Some ConversationStatus.Finished ∧
  events_of (on_runtime (AgentRuntime.emit_error m) s) =
    events_of s ++ if bool_decide (status_of s = Some ConversationStatus.Finished) then [] else [AgentStreamEvent.error_event m None].
Proof.
  unfold status_of, events_of. simpl. unfold AgentRuntime.emit_error, AgentRuntime.is_finished.
  destruct (bool_decide _) eqn:Hb; simpl; [|done]. apply bool_decide_eq_true in Hb. by rewrite app_nil_r.
Qed.

(** C32: what a turn does that runs to its end with no cancel or kill acting on the agent
    meanwhile - a cancel broadcasts its own finish at once and keeps the turn from
    broadcasting another -, whatever the agent answers.  When the session cannot be
    opened, its error is returned, the reason recorded, and nothing else is broadcast
    than one error - and not even that when the previous turn left the runtime finished.
    Once it is open, the prompt the hooks made is sent; its events follow a start, and
    the turn ends with a finish, after a diagnostic if there is nothing to show, or with
    the error of the reason recorded.  Every way leaves the runtime finished. *)
Theorem send_message_outcome now content s s' r s1 r1 :
  run (send_message metadata inject now content) s = (s', r) →
  run (ensure_session_opened metadata) (on_runtime (AgentRuntime.bump_activity now) s) = (s1, r1) →
  status_of s' = Some ConversationStatus.Finished ∧
  let failed e cli := build_close_reason_from_error (process_of cli) e in
  match r1 with
  | Err e => r = Err e ∧ m_session s' = record_close_reason (Some (failed e (m_cli s1))) (m_session s1) ∧
      events_of s' = events_of s1 ++
        if bool_decide (status_of s1 = Some ConversationStatus.Finished) then []
        else [AgentStreamEvent.error_event (CloseReason.user_facing_message (failed e (m_cli s1))) None]
  | Ok sid =>
      let '(ss, prompt) := pre_send inject (m_session s1) content in
      let '(es, cli, answer) := prompt_answer sid prompt (m_cli s1) in
      let turn := AgentStreamEvent.Start (Some sid) :: es in
      m_cli s' = cli ∧
      match answer with
      | Ok stop => r = Ok tt ∧ m_session s' = fst (drain_events ss) ∧
          events_of s' = events_of s1 ++ turn ++ empty_turn_error stop turn ++
            [AgentStreamEvent.Finish (Some sid); AgentStreamEvent.Finish None]
      | Err e => let e := AcpError.to_app e in
          r = Err e ∧ m_session s' = record_close_reason (Some (failed e cli)) (fst (drain_events ss)) ∧
          events_of s' = events_of s1 ++ turn ++ [AgentStreamEvent.error_event (CloseReason.user_facing_message (failed e cli)) None]
      end
  end.
Proof.
  unfold send_message. rewrite run_modify, run_attempt_bind. set (s0 := on_runtime _ s).
  unfold ensure_session_and_send. intros Hrun Hopen. cbv zeta.
  destruct r1 as [sid|e].
  2: { rewrite run_bind in Hrun. unfold st_bind in Hrun. rewrite Hopen in Hrun. cbn [fst snd] in Hrun.
       set (c := build_close_reason_from_error (process_of (m_cli s1)) e).
       set (s2 := AcpManager.set_session (record_close_reason (Some c) (m_session s1)) s1).
       destruct (emit_error_run (CloseReason.user_facing_message c) s2) as (H1' & H2' & Hs3').
       assert (Hs : s' = on_runtime (AgentRuntime.emit_error (CloseReason.user_facing_message c)) s2)
         by by apply (f_equal fst) in Hrun.
       apply (f_equal snd) in Hrun. rewrite Hs. by split_and!. }
  rewrite run_bind in Hrun. unfold st_bind in Hrun. rewrite Hopen, run_modify in Hrun.
  set (s2 := on_runtime _ s1) in Hrun.
  change (run (bind ?p ?k) s2) with (run (bind p k) s2) in Hrun. revert Hrun.
  rewrite run_bind. unfold st_bind. rewrite run_atomic. change (m_session s2) with (m_session s1).
  destruct (pre_send inject (m_session s1) content) as [ss prompt]. cbv beta iota zeta.
  set (s3 := commit_session_changes _).
  assert (Hs3 : m_session s3 = fst (drain_events ss) ∧ events_of s3 = events_of s1 ∧ m_cli s3 = m_cli s1 ∧
    status_of s3 = Some ConversationStatus.Running) by by split_and!.
  destruct Hs3 as (H3s & H3e & H3c & H3st). pose proof (prompt_existing_run prompt sid s3) as Hp.
  destruct (run (prompt_existing_session prompt sid) s3) as [s4 r4]. specialize (Hp _ _ eq_refl).
  rewrite H3c in Hp. destruct (prompt_answer sid prompt (m_cli s1)) as [[es cli] answer]. cbv zeta in Hp.
  destruct Hp as (H4s & H4c & _ & H4st & Hans). rewrite H3s in H4s. rewrite H3st in H4st. rewrite H3e in Hans. cbn [fst snd].
  destruct answer as [stop|e]; destruct Hans as [-> He].
  - intros [<- <-]%pair_eq. unfold status_of, events_of in *. simpl.
    unfold AgentRuntime.emit_finish, AgentRuntime.is_finished. rewrite H4st. simpl. rewrite He. split_and!; try done.
    by rewrite <- !app_assoc.
  - rewrite <- H4c. set (c := build_close_reason_from_error _ _). intros Hrun.
    set (s5 := AcpManager.set_session (record_close_reason (Some c) (m_session s4)) s4).
    destruct (emit_error_run (CloseReason.user_facing_message c) s5) as (H1' & H2' & H3').
    assert (Hs : s' = on_runtime (AgentRuntime.emit_error (CloseReason.user_facing_message c)) s5)
      by by apply (f_equal fst) in Hrun.
    apply (f_equal snd) in Hrun. rewrite Hs, H1', H2', H3'. change (status_of s5) with (status_of s4).
    change (events_of s5) with (events_of s4). rewrite H4st, He.
    unfold s5. simpl. rewrite H4s, <- app_assoc. by split_and!.
Qed.
End turn.

(* ------------------------------------------------------------------ *)
(** ** An agent to run *)

(** It knows some sessions, gives ids from a list, and is in a mode. *)
Record toy := mk_toy { known : list string; ids : list string; toy_mode : string }.
Definition unknown_session : SdkError := mk_sdk_error AcpErrors.InvalidParams "Invalid params"
  (Some (Obj [("error", Str "Session not found: s-old")])).
Definition no_response : SessionResponse := mk_response None None None.

(** [renames]: whether it resumes a session under a new id; [at_load]: the mode a loaded
    session is in. *)
Definition toy_agent (renames : bool) (at_load : string) (refuses_prompts : bool) : AcpAgent := {|
  Cli := toy;
  is_connected := λ _, true;
  on_new_session := λ resume t,
    let fresh := default "s-last" (head (ids t)) in
    match resume with
    | Some old => if bool_decide (old ∈ known t)
                  then if renames then (mk_toy (fresh :: known t) (tail (ids t)) (toy_mode t), Ok (fresh, no_response))
                       else (t, Ok (old, no_response))
                  else (t, Err unknown_session)
    | None => (mk_toy (fresh :: known t) (tail (ids t)) (toy_mode t), Ok (fresh, no_response))
    end;
  on_load_session := λ sid t,
    if bool_decide (sid ∈ known t)
    then (mk_toy (known t) (ids t) at_load, Ok (mk_response None (Some (mk_modes at_load [])) None))
    else (t, Err unknown_session);
  on_set_mode := λ sid m t, (mk_toy (known t) (ids t) m, Ok tt);
  on_set_model := λ _ _ t, (t, Ok tt);
  on_set_config := λ _ _ _ t, (t, Ok tt);
  on_prompt := λ sid _ t,
    if refuses_prompts then (t, Err (mk_sdk_error InternalError "Internal error" None)) else (t, Ok EndTurn);
  prompt_events := λ _ content _, [AgentStreamEvent.Text content];
  on_cancel := λ _ t, t;
  process_of := λ _, mk_process None EmptyString;
|}.

Definition plain_policy (meta : bool) : AgentMetadata := mk_metadata None None (mk_policy false false meta false).
Definition toy_serde : @AcpSerde token_schema := {|
  modes_to_value := λ st, Obj [("currentModeId", Str (current_mode_id st))];
  modes_from_value := λ _, None; models_from_value := λ _, None;
  options_to_value := λ _, Arr []; options_from_value := λ v, match v with Arr [] => Some [] | _ => None end;
  usage_from_value := λ _, None |}.

Section runs.
#[local] Existing Instance token_schema.
#[local] Existing Instance toy_serde.
#[local] Existing Instance plain_codec.
#[local] Existing Instance ascii_unicode.
#[local] Instance strings_iter : HashIter string := hash_iter_canonical string.
#[local] Instance requests_iter : HashIter PermissionRouter.request := hash_iter_canonical _.

Section with_agent.
Context `{AcpAgent}.
Abbreviation session := (AcpSession.t (CloseReason:=CloseReason.t)).
(** A manager whose session was restored from the database. *)
Definition restored (mode : option string) (loads : bool) (cli : Cli) : manager :=
  let p := mk_persisted mode None ∅ None in
  mk_manager (AcpSession.with_events [] (set_session_id "s-old"
    (init_session (Some p) (Some loads) None (initial_session (plain_policy false) (Some p) None None))))
    (PermissionRouter.new 0) [] cli.
End with_agent.

#[local] Instance forgetful : AcpAgent := toy_agent false "default" false.
Lemma toy_accepts renames at_load refuses : @accepting (toy_agent renames at_load refuses).
Proof. done. Qed.

Definition forgets_all : @Cli forgetful := mk_toy [] ["s-new"] "default".
Definition has_new : @Cli forgetful := mk_toy ["s-new"] [] "default".

Lemma stale_session_is_rebuilt_witness :
  ∃ s', run (ensure_session_opened (plain_policy false)) (restored None true forgets_all) = (s', Ok "s-new") ∧
    AcpSession.session_id (m_session s') = Some "s-new" ∧ opened (m_session s') = true ∧
    pending_session_new_prelude (m_session s') = true ∧ AcpSessionEvent.SessionAssigned "s-new" ∈ m_domain s'.
Proof.
  apply (stale_session_is_rebuilt (plain_policy false) (restored None true forgets_all)
           "s-old" forgets_all unknown_session "s-old" has_new "s-new" no_response);
    try reflexivity. apply toy_accepts.
Defined.

(** A session that wants a mode, a model and an option the agent has not reported. *)
Definition wishful : manager :=
  mk_manager (AcpSession.new (Some "plan") (Some "m1") {["effort" := "high"]}) (PermissionRouter.new 0) [] has_new.

Lemma reconcile_converges_witness :
  plan_reconcile (m_session wishful) = [SetMode "plan"; SetModel "m1"; SetConfigOption "effort" "high"] ∧
  ∃ applied left, applied ++ left ≡ₚ plan_reconcile (m_session wishful) ∧
    plan_reconcile (m_session (fst (run (reconcile_session (plain_policy false) "s-new") wishful))) ≡ₚ left ∧
    desired (m_session (fst (run (reconcile_session (plain_policy false) "s-new") wishful))) = desired (m_session wishful) ∧
    match snd (run (reconcile_session (plain_policy false) "s-new") wishful) with
    | Ok _ => accepting →
        plan_reconcile (m_session (fst (run (reconcile_session (plain_policy false) "s-new") wishful))) = []
    | Err e => is_session_not_found e = true ∧ left ≠ [] ∧ ¬ accepting
    end.
Proof.
  split; [reflexivity|].
  apply (reconcile_converges (plain_policy false) "s-new" wishful); [by destruct (run _ wishful)|].
  intros m [= <-]. split; [reflexivity|discriminate].
Defined.

(** An agent that resumes a session under a new id: the id is used for this turn only;
    it is neither stored in the session nor told to the persistence consumer, and the
    next turn goes to the old id again. *)
Lemma renamed_session_is_forgotten :
  let agent := toy_agent true "default" false in
  let s0 := @restored agent None true (mk_toy ["s-old"] ["s-new"] "default") in
  let '(s1, r1) := run (@ensure_session_opened agent _ _ _ _ (plain_policy true)) s0 in
  let r2 := snd (run (@ensure_session_opened agent _ _ _ _ (plain_policy true)) s1) in
  r1 = Ok "s-new" ∧ r2 = Ok "s-old" ∧ m_domain s1 = [AcpSessionEvent.SessionOpened] ∧
  AcpSession.session_id (m_session s1) = Some "s-old".
Proof. vm_compute. done. Qed.

(** The mode remembered in the database overrides the one the agent reports when it
    loads the session: the agent stays in its default mode, the session says the
    remembered mode is observed, and nothing is left to reconcile. *)
Lemma remembered_mode_is_not_set :
  let agent := toy_agent false "default" false in
  let s0 := @restored agent (Some "plan") true (mk_toy ["s-old"] [] "default") in
  let '(s1, r1) := run (@ensure_session_opened agent _ _ _ _ (plain_policy false)) s0 in
  r1 = Ok "s-old" ∧ desired_mode (m_session s1) = Some "plan" ∧ observed_mode (m_session s1) = Some "plan" ∧
  plan_reconcile (m_session s1) = [] ∧ toy_mode (m_cli s1) = "default".
Proof. vm_compute. done. Qed.
(** A turn that goes well, in a manager whose runtime is fresh. *)
Definition no_prefix : string → string := id.
Definition greeting := run (send_message (plain_policy false) no_prefix 5 "hi") (restored None true forgets_all).
Lemma send_message_outcome_witness :
  status_of (fst greeting) = Some ConversationStatus.Finished.
Proof.
  exact (proj1 (send_message_outcome (plain_policy false) no_prefix 5 "hi" (restored None true forgets_all)
    (fst greeting) (snd greeting) _ _ (surjective_pairing _) (surjective_pairing _))).
Defined.

(** It is announced as finished twice, with the session and without. *)
Lemma finish_is_broadcast_twice :
  events_of (fst greeting) =
    [AgentStreamEvent.SessionAssigned "s-new"; AgentStreamEvent.Start (Some "s-new"); AgentStreamEvent.Text "hi";
     AgentStreamEvent.Finish (Some "s-new"); AgentStreamEvent.Finish None].
Proof. vm_compute. reflexivity. Qed.

(** The connection is lost: the first turn that finds the session closed says so, the
    next one broadcasts nothing at all. *)
Lemma failed_opening_is_silent :
  let agent := {| is_connected := λ _, false; on_new_session := @on_new_session forgetful;
    on_load_session := @on_load_session forgetful; on_set_mode := @on_set_mode forgetful;
    on_set_model := @on_set_model forgetful; on_set_config := @on_set_config forgetful;
    on_prompt := @on_prompt forgetful; prompt_events := @prompt_events forgetful;
    on_cancel := @on_cancel forgetful; process_of := @process_of forgetful |} in
  let send := @send_message agent _ _ _ _ _ (plain_policy false) no_prefix in
  let '(s1, r1) := run (send 5 "hi") (@restored agent None true (forgets_all : @Cli agent)) in
  let '(s2, r2) := run (send 6 "hello?") s1 in
  r1 = r2 ∧ is_ok r1 = false ∧ length (events_of s1) = 1%nat ∧ events_of s2 = events_of s1.
Proof. vm_compute. done. Qed.
End runs.
