(* ===== verification/Sql.v ===== *)
(** * Sql: statements on a table

    A table is the list of its rows in rowid order.  [sql_update] and [sql_delete] are
    UPDATE and DELETE with a WHERE clause, [rows_affected] what they report, and
    [order_by_desc] a descending ORDER BY (rows with equal keys keep their order). *)

From S2P Require Import Prelude.
From S2P Require Import TeamTypes.

Definition sql_update {A} (p : A → bool) (f : A → A) (rows : list A) : list A :=
  map (λ r, if p r then f r else r) rows.
Definition sql_delete {A} (p : A → bool) (rows : list A) : list A :=
  List.filter (λ r, negb (p r)) rows.
Definition rows_affected {A} (p : A → bool) (rows : list A) : nat := length (List.filter p rows).
Definition order_by_desc {A} (key : A → Z) (rows : list A) : list A := sort_by (λ r, - key r) rows.

Definition fk_violation : DbError.t := DbError.Query "FOREIGN KEY constraint failed".

(** [if result.rows_affected() == 0 { return Err(NotFound) }] *)
Definition or_not_found (n : nat) (what : string) : result unit DbError.t :=
  match n with O => Err (DbError.NotFound what) | S _ => Ok tt end.

Section facts.
Context {A : Type}.
Implicit Types (p q : A → bool) (rows : list A).

Lemma rows_affected_zero p rows : rows_affected p rows = 0%nat ↔ ∀ r, r ∈ rows → p r = false.
Proof.
  unfold rows_affected. induction rows as [|r rows IH]; simpl.
  - split; [|done]. by intros _ r ?%elem_of_nil.
  - destruct (p r) eqn:Hp; simpl.
    + split; [done|]. intros H. specialize (H r ltac:(by left)). congruence.
    + rewrite IH. split; intros H x.
      * intros [->|Hx]%elem_of_cons; auto.
      * intros Hx. apply H. by right.
Qed.

Lemma elem_of_sql_update p f rows r' :
  r' ∈ sql_update p f rows ↔ ∃ r, r ∈ rows ∧ r' = if p r then f r else r.
Proof. unfold sql_update. rewrite elem_of_map. naive_solver. Qed.

Lemma elem_of_sql_delete p rows r : r ∈ sql_delete p rows ↔ r ∈ rows ∧ p r = false.
Proof. unfold sql_delete. rewrite elem_of_filter_list. by rewrite negb_true_iff. Qed.

Lemma elem_of_order_by_desc key rows (r : A) : r ∈ order_by_desc key rows ↔ r ∈ rows.
Proof. apply elem_of_sort_by. Qed.

(** An UPDATE that does not touch the column [g]. *)
Lemma map_sql_update {B} (g : A → B) p f rows :
  (∀ r, g (f r) = g r) → map g (sql_update p f rows) = map g rows.
Proof.
  intros Hf. unfold sql_update. rewrite map_map. apply map_ext. intros r. case_match; auto.
Qed.

Lemma sql_update_none p f rows : (∀ r, r ∈ rows → p r = false) → sql_update p f rows = rows.
Proof.
  intros H. unfold sql_update. induction rows as [|r rows IH]; simpl; [done|].
  rewrite H by left. f_equal. apply IH. intros x Hx. apply H. by right.
Qed.

Lemma sql_update_twice p q f rows :
  (∀ r, f (f r) = f r) → (∀ r, q (f r) = q r) →
  sql_update q f (sql_update p f rows) = sql_update (λ r, p r || q r) f rows.
Proof.
  intros Hf Hq. unfold sql_update. rewrite map_map. apply map_ext. intros r.
  destruct (p r); simpl; [|done]. rewrite Hq, Hf. by case_match.
Qed.

Lemma sql_update_ext p q f rows :
  (∀ r, r ∈ rows → p r = q r) → sql_update p f rows = sql_update q f rows.
Proof. intros H. unfold sql_update. apply map_ext_in. intros r Hr%list_elem_of_In. by rewrite H. Qed.

Lemma NoDup_sql_delete {B} (g : A → B) p rows : NoDup (map g rows) → NoDup (map g (sql_delete p rows)).
Proof. apply NoDup_map_filter. Qed.

(** A row is found by its key. *)
Lemma find_key {B} `{EqDecision B} (g : A → B) p rows r :
  NoDup (map g rows) → (∀ x, p x = true ↔ g x = g r) → r ∈ rows → List.find p rows = Some r.
Proof.
  intros Hnd Hp. induction rows as [|x rows IH]; simpl; [by intros ?%elem_of_nil|].
  simpl in Hnd. apply NoDup_cons in Hnd as [Hx Hnd]. intros [<-|Hr]%elem_of_cons.
  - by rewrite (proj2 (Hp r) eq_refl).
  - destruct (p x) eqn:Hpx; [|by apply IH]. apply Hp in Hpx. destruct Hx. rewrite Hpx.
    apply elem_of_map. eauto.
Qed.

Lemma key_unique {B} (g : A → B) rows r r' :
  NoDup (map g rows) → r ∈ rows → r' ∈ rows → g r = g r' → r = r'.
Proof.
  induction rows as [|x rows IH]; simpl; [by intros _ ?%elem_of_nil|].
  intros [Hx Hnd]%NoDup_cons Hr Hr' Hg.
  apply elem_of_cons in Hr as [->|Hr], Hr' as [->|Hr']; [done|..|by apply IH]; destruct Hx;
    apply elem_of_map; [exists r'|exists r]; done.
Qed.
End facts.
