(* ===== verification/AcpSync.v ===== *)
(** * AcpSync: what is remembered of an ACP session

    The table [acp_session] ([chisl-db/src/models/acp_session.rs],
    [repository/acp_session.rs], [repository/sqlite_acp_session.rs]) and the consumer of
    the domain events of a session ([persistence/acp_session_sync.rs]).  The consumer is
    a machine over what it can receive: an event, its deadline, the end of the channel.
    The runtime state is stored inside a JSON text ([JsonCodec]).  Its two theorems: what
    is in the database when the consumer ends is what the events say, however the
    deadline falls; and the database agrees with the session, across any number of
    restarts that preload it. *)

From S2P Require Import Prelude.
From S2P Require Import Text.
From S2P Require Import JsonValue.
From S2P Require Import TeamTypes.
From S2P Require Import Sql.
From S2P Require Import AcpState.

Module AcpSessionRow.
(* chisl-db/src/models/acp_session.rs:9-20 AcpSessionRow *)
Record t := mk {
  conversation_id : string; agent_backend : string; agent_source : string; agent_id : string;
  session_id : option string; session_status : string; session_config : string;
  last_active_at : option TimestampMs; suspended_at : option TimestampMs }.
Definition set_session_id x now r := mk (conversation_id r) (agent_backend r) (agent_source r) (agent_id r)
  (Some x) (session_status r) (session_config r) (Some now) (suspended_at r).
Definition set_config x now r := mk (conversation_id r) (agent_backend r) (agent_source r) (agent_id r)
  (session_id r) (session_status r) x (Some now) (suspended_at r).
End AcpSessionRow.

(** The decoded [session_config.runtime] (the type of the same name in the agent crate
    is [AcpState.PersistedSessionState]). *)
Module RuntimeState.
(* chisl-db/src/repository/acp_session.rs:36-45 PersistedSessionState *)
Record t := mk {
  current_mode_id : option string; current_model_id : option string;
  config_selections_json : option string; context_usage_json : option string }.
Definition empty : t := mk None None None None.
End RuntimeState.

Module SaveRuntimeStateParams.
(** The outer [None] leaves a field alone, the inner one clears it. *)
(* chisl-db/src/repository/acp_session.rs:52-57 SaveRuntimeStateParams *)
Record t := mk {
  current_mode_id : option (option string); current_model_id : option (option string);
  config_selections_json : option (option string); context_usage_json : option (option string) }.
Definition default : t := mk None None None None.
(* chisl-db/src/repository/acp_session.rs:60-65 is_empty *)
Definition is_empty (p : t) : bool :=
  match p with mk None None None None => true | _ => false end.
End SaveRuntimeStateParams.

Module AcpSessionRepo.
Section repo.
Context `{JsonCodec}.
(** What [serde_json] says about a text that is not JSON. *)
Context (parse_error : string → string).
Abbreviation SQL := (ST (list AcpSessionRow.t) DbError.t).

Definition is_row (conversation_id : string) (r : AcpSessionRow.t) : bool :=
  String.eqb (AcpSessionRow.conversation_id r) conversation_id.
(* chisl-db/src/repository/sqlite_acp_session.rs:30-36 get *)
Definition get (conversation_id : string) : SQL (option AcpSessionRow.t) := λ rows,
  (rows, Ok (List.find (is_row conversation_id) rows)).
(* chisl-db/src/repository/sqlite_acp_session.rs:38-67 create *)
Definition create (now : TimestampMs) (conversation_id agent_backend agent_source agent_id : string) :
    SQL AcpSessionRow.t := λ rows,
  if existsb (is_row conversation_id) rows
  then (rows, Err (DbError.Conflict ("acp_session row for conversation '" +:+ conversation_id +:+ "' already exists")))
  else
    let rows := rows ++ [AcpSessionRow.mk conversation_id agent_backend agent_source agent_id None "idle" "{}" (Some now) None] in
    (rows, match List.find (is_row conversation_id) rows with
           | Some r => Ok r
           | None => Err (DbError.Init ("create did not produce acp_session row for '" +:+ conversation_id +:+ "'"))
           end).
(* chisl-db/src/repository/sqlite_acp_session.rs:69-78 update_session_id *)
Definition update_session_id (now : TimestampMs) (conversation_id session_id : string) : SQL bool := λ rows,
  (sql_update (is_row conversation_id) (AcpSessionRow.set_session_id session_id now) rows,
   Ok (0 <? rows_affected (is_row conversation_id) rows)%nat).
(* chisl-db/src/repository/sqlite_acp_session.rs:80-86 delete *)
Definition delete (conversation_id : string) : SQL bool := λ rows,
  (sql_delete (is_row conversation_id) rows, Ok (0 <? rows_affected (is_row conversation_id) rows)%nat).

Definition runtime_of (v : json) : RuntimeState.t :=
  match JsonValue.get "runtime" v with
  | Some rt => RuntimeState.mk (JsonValue.get "current_mode_id" rt ≫= as_str) (JsonValue.get "current_model_id" rt ≫= as_str)
                 (to_string <$> JsonValue.get "config_selections" rt) (to_string <$> JsonValue.get "context_usage" rt)
  | None => RuntimeState.empty
  end.
(* chisl-db/src/repository/sqlite_acp_session.rs:88-114 load_runtime_state *)
Definition load_runtime_state (conversation_id : string) : SQL (option RuntimeState.t) := λ rows,
  (rows, match List.find (is_row conversation_id) rows with
         | None => Ok None
         | Some r => match from_str (AcpSessionRow.session_config r) with
                     | Some v => Ok (Some (runtime_of v))
                     | None => Err (DbError.Init ("invalid session_config JSON: " +:+ parse_error (AcpSessionRow.session_config r)))
                     end
         end).

Definition put_text (k : string) (p : option (option string)) (l : list (string * json)) : list (string * json) :=
  match p with Some (Some v) => insert k (Str v) l | Some None => remove k l | None => l end.
Definition put_json (k : string) (p : option (option string)) (l : list (string * json)) :
    result (list (string * json)) DbError.t :=
  match p with
  | Some (Some t) => match from_str t with
      | Some v => Ok (insert k v l)
      | None => Err (DbError.Init ("invalid " +:+ k +:+ " JSON: " +:+ parse_error t)) end
  | Some None => Ok (remove k l)
  | None => Ok l
  end.
(** The configuration as an object, [{}] if it is not JSON, and its [runtime], made if
    it is missing. *)
Definition config_object (t : string) : result (list (string * json) * list (string * json)) DbError.t :=
  match default (Obj []) (from_str t) with
  | Obj l => match default (Obj []) (entry "runtime" l) with
             | Obj rt => Ok (l, rt)
             | _ => Err (DbError.Init "session_config.runtime is not a JSON object")
             end
  | _ => Err (DbError.Init "session_config is not a JSON object")
  end.
Definition merged_config (p : SaveRuntimeStateParams.t) (t : string) : result string DbError.t :=
  let? c := config_object t in
  let rt := put_text "current_model_id" (SaveRuntimeStateParams.current_model_id p)
              (put_text "current_mode_id" (SaveRuntimeStateParams.current_mode_id p) (snd c)) in
  let? rt := put_json "config_selections" (SaveRuntimeStateParams.config_selections_json p) rt in
  let? rt := put_json "context_usage" (SaveRuntimeStateParams.context_usage_json p) rt in
  Ok (to_string (Obj (insert "runtime" (Obj rt) (fst c)))).
(* chisl-db/src/repository/sqlite_acp_session.rs:116-206 save_runtime_state *)
Definition save_runtime_state (now : TimestampMs) (conversation_id : string) (p : SaveRuntimeStateParams.t) : SQL bool := λ rows,
  if SaveRuntimeStateParams.is_empty p then (rows, Ok true) else
  match List.find (is_row conversation_id) rows with
  | None => (rows, Ok false)
  | Some r => match merged_config p (AcpSessionRow.session_config r) with
      | Err e => (rows, Err e)
      | Ok c => (sql_update (is_row conversation_id) (AcpSessionRow.set_config c now) rows,
                 Ok (0 <? rows_affected (is_row conversation_id) rows)%nat)
      end
  end.
End repo.
End AcpSessionRepo.

(* ------------------------------------------------------------------ *)
(** ** The consumer *)

Module AcpSessionSync.
Section sync.
Context `{AcpSchema} `{JsonCodec} `{HashIter string}.
Context (parse_error : string → string).
Abbreviation rows := (list AcpSessionRow.t).

(* chisl-ai-agent/src/persistence/acp_session_sync.rs:27-27 DEBOUNCE_WINDOW *)
Definition DEBOUNCE_WINDOW : Z := 500.
(** [PendingUpdate] has the fields of its save parameters. *)
(* chisl-ai-agent/src/persistence/acp_session_sync.rs:135-140 PendingUpdate *)
Definition PendingUpdate : Type := SaveRuntimeStateParams.t.
(* chisl-ai-agent/src/persistence/acp_session_sync.rs:143-148 is_empty *)
Definition is_empty (p : PendingUpdate) : bool := SaveRuntimeStateParams.is_empty p.
(* chisl-ai-agent/src/persistence/acp_session_sync.rs:150-157 as_save_params *)
Definition as_save_params (p : PendingUpdate) : SaveRuntimeStateParams.t := p.

(* chisl-ai-agent/src/persistence/acp_session_sync.rs:159-184 merge_from_domain_event *)
Definition merge_from_domain_event (e : AcpSessionEvent.t) (p : PendingUpdate) : PendingUpdate * bool :=
  let '(SaveRuntimeStateParams.mk mode model config usage) := p in
  match e with
  | AcpSessionEvent.ObservedModeSynced mode => (SaveRuntimeStateParams.mk (Some (Some mode)) model config usage, true)
  | AcpSessionEvent.ObservedModelSynced model => (SaveRuntimeStateParams.mk mode (Some (Some model)) config usage, true)
  | AcpSessionEvent.ObservedConfigSynced selections =>
      (SaveRuntimeStateParams.mk mode model (Some (Some (to_string (of_map selections)))) usage, true)
  | AcpSessionEvent.ObservedContextUsageChanged usage_json =>
      (SaveRuntimeStateParams.mk mode model config (Some (Some usage_json)), true)
  | _ => (p, false)
  end.

(** The local variables of the task. *)
Record consumer := mk_consumer { pending : PendingUpdate; flush_at : option Z }.
Definition started : consumer := mk_consumer SaveRuntimeStateParams.default None.

(** What the task wakes up for; [broken]: the statement fails in the database. *)
Inductive wake := Recv (e : AcpSessionEvent.t) | Deadline | Closed.
Record input := mk_input { at_ms : TimestampMs; what : wake; broken : bool }.

(* chisl-ai-agent/src/persistence/acp_session_sync.rs:247-266 flush *)
Definition flush (now : TimestampMs) (broken : bool) (cid : string) (p : PendingUpdate) (db : rows) : PendingUpdate * rows :=
  if is_empty p then (p, db) else
  (SaveRuntimeStateParams.default,
   if broken then db else fst (AcpSessionRepo.save_runtime_state parse_error now cid (as_save_params p) db)).

(** One turn of the loop; the task has returned when there is no state left. *)
(* chisl-ai-agent/src/persistence/acp_session_sync.rs:193-245 domain_event_consumer *)
Definition domain_event_consumer (cid : string) (i : input) (s : consumer) (db : rows) : option consumer * rows :=
  match what i with
  | Deadline =>
      match flush_at s with
      | Some d => if d <=? at_ms i
                  then let '(p, db) := flush (at_ms i) (broken i) cid (pending s) db in (Some (mk_consumer p None), db)
                  else (Some s, db)
      | None => (Some s, db)
      end
  | Recv (AcpSessionEvent.SessionAssigned sid) =>
      (Some s, if broken i then db else fst (AcpSessionRepo.update_session_id (at_ms i) cid sid db))
  | Recv e =>
      let '(p, changed) := merge_from_domain_event e (pending s) in
      (Some (mk_consumer p (if changed then Some (at_ms i + DEBOUNCE_WINDOW) else flush_at s)), db)
  | Closed => (None, snd (flush (at_ms i) (broken i) cid (pending s) db))
  end.

Fixpoint consume (cid : string) (ins : list input) (s : consumer) (db : rows) : option consumer * rows :=
  match ins with
  | [] => (Some s, db)
  | i :: rest => match domain_event_consumer cid i s db with
                | (Some s, db) => consume cid rest s db
                | (None, db) => (None, db)
                end
  end.

(** The tasks by conversation; the previous one is aborted where it waits. *)
(* chisl-ai-agent/src/persistence/acp_session_sync.rs:121-130 attach *)
Definition attach (cid : string) (active : gmap string consumer) : gmap string consumer := <[cid := started]> active.

(* chisl-ai-agent/src/persistence/acp_session_sync.rs:64-97 load_snapshot_state *)
Definition load_snapshot_state (cid : string) (db : rows) : option PersistedSessionState :=
  match snd (AcpSessionRepo.load_runtime_state parse_error cid db) with
  | Ok (Some row) =>
      Some (mk_persisted (RuntimeState.current_mode_id row) (RuntimeState.current_model_id row)
        (default ∅ ((RuntimeState.config_selections_json row ≫= from_str) ≫= to_map))
        (RuntimeState.context_usage_json row ≫= usage_from_str))
  | _ => None
  end.
(* chisl-ai-agent/src/persistence/acp_session_sync.rs:102-115 load_session_id *)
Definition load_session_id (cid : string) (db : rows) : option string :=
  match snd (AcpSessionRepo.get cid db) with Ok (Some row) => AcpSessionRow.session_id row | _ => None end.
(* chisl-ai-agent/src/persistence/acp_session_sync.rs:46-58 load_persisted *)
Definition load_persisted (cid : string) (db : rows) : option RuntimeState.t :=
  match snd (AcpSessionRepo.load_runtime_state parse_error cid db) with Ok state => state | Err _ => None end.
End sync.
End AcpSessionSync.

(* ------------------------------------------------------------------ *)
(** ** What a partial update leaves *)

Section saving.
Context `{JsonCodec} (parse_error : string → string).
Implicit Types l rt : list (string * json).

Lemma entry_remove k k' l : entry k (remove k' l) = if String.eqb k k' then None else entry k l.
Proof.
  unfold remove. induction l as [|[k0 x] l IH]; simpl; [by destruct (String.eqb k k')|].
  destruct (String.eqb_spec k0 k') as [->|Hne]; simpl; rewrite !entry_cons; simpl.
  - rewrite IH. rewrite (String.eqb_sym k' k). by destruct (String.eqb k k').
  - rewrite IH. destruct (String.eqb_spec k0 k) as [->|]; [|done]. by rewrite (proj2 (String.eqb_neq _ _) Hne).
Qed.
Lemma ok_remove k l : json_ok (Obj l) = true → json_ok (Obj (remove k l)) = true.
Proof.
  simpl. rewrite !andb_true_iff, !bool_decide_eq_true, !forallb_forall. intros [Hnd Hl]. split.
  - by apply NoDup_map_filter.
  - intros kv [Hin _]%List.filter_In. by apply Hl.
Qed.

Lemma entry_put_text k p l k' : k ≠ k' → entry k' (AcpSessionRepo.put_text k p l) = entry k' l.
Proof.
  intros Hne. destruct p as [[v|]|]; simpl; [by rewrite entry_insert_ne| |done].
  rewrite entry_remove. by rewrite (proj2 (String.eqb_neq k' k)).
Qed.
Lemma text_put_text k p l : entry k (AcpSessionRepo.put_text k p l) ≫= as_str = default (entry k l ≫= as_str) p.
Proof. destruct p as [[v|]|]; simpl; [by rewrite entry_insert|by rewrite entry_remove, String.eqb_refl|done]. Qed.
Lemma ok_put_text k p l : json_ok (Obj l) = true → json_ok (Obj (AcpSessionRepo.put_text k p l)) = true.
Proof. intros Hl. destruct p as [[v|]|]; [by apply ok_insert|by apply ok_remove|done]. Qed.

(** A text as it comes back from the database. *)
Definition normal (t : string) : string := match from_str t with Some v => to_string v | None => t end.
Definition text_ok (p : option (option string)) : Prop := ∀ t, p = Some (Some t) → from_str t ≠ None.

Lemma put_json_ok k p l : text_ok p → json_ok (Obj l) = true → ∃ l',
  AcpSessionRepo.put_json parse_error k p l = Ok l' ∧ json_ok (Obj l') = true ∧
  (∀ k', k ≠ k' → entry k' l' = entry k' l) ∧
  to_string <$> entry k l' = default (to_string <$> entry k l) (option_map (option_map normal) p).
Proof.
  intros Hp Hl. destruct p as [[t|]|]; simpl.
  - destruct (from_str t) as [v|] eqn:Ht; [|by destruct (Hp t)]. exists (insert k v l). split; [done|].
    split; [apply ok_insert; [done|by eapply from_str_ok]|]. split; [intros; by apply entry_insert_ne|].
    rewrite entry_insert. simpl. unfold normal. by rewrite Ht.
  - exists (remove k l). split; [done|]. split; [by apply ok_remove|]. split.
    + intros k' Hk. rewrite entry_remove. by rewrite (proj2 (String.eqb_neq k' k)).
    + by rewrite entry_remove, String.eqb_refl.
  - by exists l.
Qed.

(** The fields an update sets replace those of the stored state. *)
Definition overlay (p : SaveRuntimeStateParams.t) (st : RuntimeState.t) : RuntimeState.t :=
  RuntimeState.mk
    (default (RuntimeState.current_mode_id st) (SaveRuntimeStateParams.current_mode_id p))
    (default (RuntimeState.current_model_id st) (SaveRuntimeStateParams.current_model_id p))
    (default (RuntimeState.config_selections_json st) (option_map (option_map normal) (SaveRuntimeStateParams.config_selections_json p)))
    (default (RuntimeState.context_usage_json st) (option_map (option_map normal) (SaveRuntimeStateParams.context_usage_json p))).
Definition params_ok (p : SaveRuntimeStateParams.t) : Prop :=
  text_ok (SaveRuntimeStateParams.config_selections_json p) ∧ text_ok (SaveRuntimeStateParams.context_usage_json p).

(** A configuration the repository can decode and update. *)
Definition config_ok (t : string) : Prop :=
  ∃ l, from_str t = Some (Obj l) ∧ match entry "runtime" l with None | Some (Obj _) => True | _ => False end.

Lemma merged_config_ok p t : config_ok t → params_ok p → ∃ t',
  AcpSessionRepo.merged_config parse_error p t = Ok t' ∧ config_ok t' ∧
  AcpSessionRepo.runtime_of <$> from_str t' = overlay p ∘ AcpSessionRepo.runtime_of <$> from_str t.
Proof.
  intros (l & Ht & Hrt) [Hc Hu]. assert (Hl := from_str_ok _ _ Ht).
  assert (∃ rt, AcpSessionRepo.config_object t = Ok (l, rt) ∧ json_ok (Obj rt) = true ∧
    AcpSessionRepo.runtime_of (Obj l) = AcpSessionRepo.runtime_of (Obj [("runtime", Obj rt)])) as (rt & Hco & Hok & Hst).
  { unfold AcpSessionRepo.config_object, AcpSessionRepo.runtime_of. rewrite Ht. simpl.
    destruct (entry "runtime" l) as [[| | | | |rt]|] eqn:He; try done; simpl; [|by exists []].
    exists rt. split; [done|]. split; [exact (ok_entry "runtime" l (Obj rt) Hl He)|done]. }
  unfold AcpSessionRepo.merged_config. rewrite Hco. simpl.
  set (rt1 := AcpSessionRepo.put_text "current_model_id" _ _).
  assert (Hok1 : json_ok (Obj rt1) = true) by by apply ok_put_text, ok_put_text.
  destruct (put_json_ok "config_selections" _ rt1 Hc Hok1) as (rt2 & -> & Hok2 & Hne2 & Heq2). simpl.
  destruct (put_json_ok "context_usage" _ rt2 Hu Hok2) as (rt3 & -> & Hok3 & Hne3 & Heq3). simpl.
  assert (Hok4 : json_ok (Obj (insert "runtime" (Obj rt3) l)) = true) by by apply ok_insert.
  eexists. split; [done|]. split.
  - eexists. split; [by apply codec_roundtrip|]. by rewrite entry_insert.
  - rewrite codec_roundtrip, Ht by done. cbn [fmap option_fmap option_map compose]. rewrite Hst. f_equal.
    unfold AcpSessionRepo.runtime_of. unfold JsonValue.get at 1. rewrite entry_insert. cbn [JsonValue.get].
    unfold overlay. simpl.
    rewrite Heq3, (Hne3 "config_selections"), Heq2, !Hne3, !Hne2 by done. subst rt1.
    rewrite !entry_put_text, !text_put_text, ?entry_put_text by done. done.
Qed.
End saving.

(* ------------------------------------------------------------------ *)
(** ** What the consumer leaves in the database *)

Section consuming.
Context `{AcpSchema} `{JsonCodec} `{HashIter string} (parse_error : string → string) (cid : string).
Import AcpSessionSync.
#[local] Arguments of_map : simpl never.
Implicit Types (db : list AcpSessionRow.t) (st : RuntimeState.t).

(** The row of the conversation, by what is read of it. *)
Definition has_row (st : RuntimeState.t) (sid : option string) db : Prop := ∃ r,
  List.find (AcpSessionRepo.is_row cid) db = Some r ∧ AcpSessionRow.session_id r = sid ∧
  config_ok (AcpSessionRow.session_config r) ∧
  AcpSessionRepo.runtime_of <$> from_str (AcpSessionRow.session_config r) = Some st.
Definition others_kept db db' : Prop := ∀ c, c ≠ cid →
  List.find (AcpSessionRepo.is_row c) db' = List.find (AcpSessionRepo.is_row c) db.

Lemma find_update c f db : (∀ r, AcpSessionRow.conversation_id (f r) = AcpSessionRow.conversation_id r) →
  List.find (AcpSessionRepo.is_row c) (sql_update (AcpSessionRepo.is_row cid) f db) =
    (if String.eqb c cid then f <$> List.find (AcpSessionRepo.is_row c) db else List.find (AcpSessionRepo.is_row c) db).
Proof.
  intros Hf. unfold AcpSessionRepo.is_row, sql_update.
  induction db as [|r db IH]; simpl; [by destruct (String.eqb c cid)|].
  destruct (String.eqb_spec (AcpSessionRow.conversation_id r) cid) as [Hr|Hr].
  - rewrite Hf, Hr. rewrite (String.eqb_sym c cid) in *. destruct (String.eqb cid c); [done|]. apply IH.
  - destruct (String.eqb_spec (AcpSessionRow.conversation_id r) c) as [<-|]; [|apply IH].
    by rewrite (proj2 (String.eqb_neq _ _) Hr).
Qed.

Lemma load_has_row st sid db : has_row st sid db →
  load_persisted parse_error cid db = Some st ∧ load_session_id cid db = sid.
Proof.
  intros (r & Hr & Hs & _ & Hst). unfold load_persisted, load_session_id, AcpSessionRepo.load_runtime_state, AcpSessionRepo.get.
  rewrite Hr. simpl. split; [|done]. destruct (from_str _); [|done]. by injection Hst as ->.
Qed.

Lemma save_row now p st sid db : has_row st sid db → params_ok p →
  has_row (overlay p st) sid (fst (AcpSessionRepo.save_runtime_state parse_error now cid p db)) ∧
  others_kept db (fst (AcpSessionRepo.save_runtime_state parse_error now cid p db)).
Proof.
  intros (r & Hr & Hs & Hc & Hst) Hp. unfold AcpSessionRepo.save_runtime_state.
  destruct (SaveRuntimeStateParams.is_empty p) eqn:He.
  { split; [|done]. exists r. split_and!; try done. destruct p as [[|] [|] [|] [|]]; try done. by destruct st. }
  rewrite Hr. destruct (merged_config_ok parse_error p _ Hc Hp) as (t' & -> & Hc' & Hst'). simpl. split.
  - exists (AcpSessionRow.set_config t' now r). split_and!; try done.
    + rewrite find_update by done. by rewrite String.eqb_refl, Hr.
    + simpl. by rewrite Hst', option_fmap_compose, Hst.
  - intros c Hne. rewrite find_update by done. by rewrite (proj2 (String.eqb_neq _ _) Hne).
Qed.

Lemma assign_row now x st sid db : has_row st sid db →
  has_row st (Some x) (fst (AcpSessionRepo.update_session_id now cid x db)) ∧
  others_kept db (fst (AcpSessionRepo.update_session_id now cid x db)).
Proof.
  intros (r & Hr & Hs & Hc & Hst). simpl. split.
  - exists (AcpSessionRow.set_session_id x now r). split_and!; try done.
    rewrite find_update by done. by rewrite String.eqb_refl, Hr.
  - intros c Hne. rewrite find_update by done. by rewrite (proj2 (String.eqb_neq _ _) Hne).
Qed.

(** What one event is remembered as. *)
Definition remember st (e : AcpSessionEvent.t) : RuntimeState.t :=
  let '(RuntimeState.mk mode model config usage) := st in
  match e with
  | AcpSessionEvent.ObservedModeSynced m => RuntimeState.mk (Some m) model config usage
  | AcpSessionEvent.ObservedModelSynced m => RuntimeState.mk mode (Some m) config usage
  | AcpSessionEvent.ObservedConfigSynced c => RuntimeState.mk mode model (Some (to_string (of_map c))) usage
  | AcpSessionEvent.ObservedContextUsageChanged u => RuntimeState.mk mode model config (Some (normal u))
  | _ => st
  end.
(** The usage of an event is JSON. *)
Definition event_ok (e : AcpSessionEvent.t) : Prop :=
  match e with AcpSessionEvent.ObservedContextUsageChanged u => from_str u ≠ None | _ => True end.

Lemma normal_to_string v : json_ok v = true → normal (to_string v) = to_string v.
Proof. intros Hv. unfold normal. by rewrite codec_roundtrip. Qed.

Lemma merge_overlay e p st : event_ok e → params_ok p →
  params_ok (fst (merge_from_domain_event e p)) ∧
  overlay (fst (merge_from_domain_event e p)) st = remember (overlay p st) e.
Proof.
  intros He [Hc Hu]. destruct p as [pm pmo pc pu]. destruct e; simpl in *; try by repeat split.
  - split; [|unfold overlay; simpl; by rewrite normal_to_string by apply ok_of_map]. split; [|done].
    intros t [= <-]. by rewrite codec_roundtrip by apply ok_of_map.
  - split; [|done]. split; [done|]. by intros t [= <-].
Qed.

(** The events an input sequence brings. *)
Definition received (i : input) : option AcpSessionEvent.t := match what i with Recv e => Some e | _ => None end.
Definition running (i : input) : Prop := broken i = false ∧ what i ≠ Closed.

(** What is stored with what is pending over it is what the events say, and something
    is pending only while the deadline is set. *)
Definition keeps_up (st : RuntimeState.t) (sid : option string) (c : consumer) db : Prop :=
  ∃ stored, has_row stored sid db ∧ params_ok (pending c) ∧ overlay (pending c) stored = st ∧
    (flush_at c = None → SaveRuntimeStateParams.is_empty (pending c) = true).

Lemma flush_row now p st sid db : has_row st sid db → params_ok p →
  fst (flush parse_error now false cid p db) = SaveRuntimeStateParams.default ∧
  has_row (overlay p st) sid (snd (flush parse_error now false cid p db)) ∧
  others_kept db (snd (flush parse_error now false cid p db)).
Proof.
  intros Hr Hp. unfold flush, AcpSessionSync.is_empty. destruct (SaveRuntimeStateParams.is_empty p) eqn:He.
  - destruct p as [[|] [|] [|] [|]]; try done. split; [done|]. split; [|done]. by destruct st.
  - split; [done|]. by apply save_row.
Qed.

Lemma consumer_step i c st sid db : keeps_up st sid c db → running i →
  match received i with Some e => event_ok e | None => True end → ∃ c' db',
  domain_event_consumer parse_error cid i c db = (Some c', db') ∧ others_kept db db' ∧
  keeps_up (match received i with Some e => remember st e | None => st end)
           (match received i with Some e => assign sid e | None => sid end) c' db'.
Proof.
  intros (stored & Hr & Hp & Ho & Hf) [Hb Hw] He. destruct i as [now [e| |] b]; cbn [broken what] in *; subst b; [| |done].
  - assert (Hmerge : (∀ x, e ≠ AcpSessionEvent.SessionAssigned x) →
      domain_event_consumer parse_error cid (mk_input now (Recv e) false) c db =
      (Some (mk_consumer (fst (merge_from_domain_event e (pending c)))
        (if snd (merge_from_domain_event e (pending c)) then Some (now + DEBOUNCE_WINDOW) else flush_at c)), db)).
    { intros Hne. unfold domain_event_consumer. cbn [what]. destruct (pending c) as [pm pmo pc pu]. destruct e; try done. by destruct (Hne session_id). }
    destruct (merge_overlay e (pending c) stored He Hp) as [Hp' Ho'].
    assert (Hput : (∀ x, e ≠ AcpSessionEvent.SessionAssigned x) → ∃ c' db',
      domain_event_consumer parse_error cid (mk_input now (Recv e) false) c db = (Some c', db') ∧ others_kept db db' ∧
      keeps_up (remember st e) sid c' db').
    { intros Hne. rewrite Hmerge by done. eexists _, _. split; [done|]. split; [done|]. exists stored.
      split; [exact Hr|]. split; [exact Hp'|]. split; [by rewrite <- Ho, <- Ho'|].
      revert Hf. cbn [flush_at pending]. destruct (pending c). by destruct e. }
    destruct e; try by apply Hput.
    destruct (assign_row now session_id stored sid db Hr) as [Hr' Hk]. eexists _, _. split; [done|]. split; [done|].
    exists stored. split; [done|]. split_and!; [exact Hp|rewrite Ho; by destruct st|done].
  - unfold domain_event_consumer; cbn [what at_ms broken received]. destruct (flush_at c) as [d|] eqn:Hd.
    + destruct (d <=? now).
      * destruct (flush_row now (pending c) stored sid db Hr Hp) as (Hfp & Hrow & Hk).
        destruct (flush _ _ _ _ _ _) as [p db']. cbn [fst snd] in *. subst p. eexists _, _. split; [done|]. split; [done|].
        exists (overlay (pending c) stored). split; [done|]. split_and!; [done..| |done]. subst st. by destruct (overlay _ _).
      * eexists _, _. split; [done|]. split; [done|]. exists stored. rewrite Hd. by split_and!.
    + eexists _, _. split; [done|]. split; [done|]. exists stored. rewrite Hd. by split_and!.
Qed.

Lemma consume_all ins : ∀ c st sid db, keeps_up st sid c db → Forall running ins → Forall event_ok (omap received ins) →
  ∃ c' db', consume parse_error cid ins c db = (Some c', db') ∧ others_kept db db' ∧
    keeps_up (foldl remember st (omap received ins)) (foldl assign sid (omap received ins)) c' db'.
Proof.
  induction ins as [|i ins IH]; intros c st sid db Hk Hi He; [by eexists _, _|].
  apply List.Forall_cons_iff in Hi as [Hi Hins]. simpl in He.
  destruct (consumer_step i c st sid db Hk Hi) as (c1 & db1 & Hc1 & Ho1 & Hk1).
  { destruct (received i); [|done]. by apply List.Forall_cons_iff in He as [? _]. }
  simpl. rewrite Hc1. destruct (IH c1 _ _ db1 Hk1 Hins) as (c2 & db2 & -> & Ho2 & Hk2).
  { destruct (received i); [|done]. by apply List.Forall_cons_iff in He as [_ ?]. }
  eexists _, _. split; [done|]. split; [intros x Hx; by rewrite Ho2, Ho1|]. by destruct (received i).
Qed.

Lemma consume_app ins1 ins2 : ∀ c db c1 db1, consume parse_error cid ins1 c db = (Some c1, db1) →
  consume parse_error cid (ins1 ++ ins2) c db = consume parse_error cid ins2 c1 db1.
Proof.
  induction ins1 as [|i ins1 IH]; intros c db c1 db1 Hc; simpl in *; [by injection Hc as -> ->|].
  destruct (domain_event_consumer _ _ _ _ _) as [[c'|] db']; [by apply IH|done].
Qed.

Lemma consume_closed ins now st sid db :
  has_row st sid db → Forall running ins → Forall event_ok (omap received ins) →
  ∃ c db1 db', consume parse_error cid ins started db = (Some c, db1) ∧
    consume parse_error cid (ins ++ [mk_input now Closed false]) started db = (None, db') ∧
    has_row (foldl remember st (omap received ins)) (foldl assign sid (omap received ins)) db' ∧
    (flush_at c = None → load_persisted parse_error cid db1 = load_persisted parse_error cid db') ∧
    others_kept db db1 ∧ others_kept db db'.
Proof.
  intros Hr Hi He.
  assert (Hk : keeps_up st sid started db) by (exists st; split_and!; try done; by destruct st).
  destruct (consume_all ins started st sid db Hk Hi He) as (c & db1 & Hc & Ho & stored & Hr1 & Hp1 & Ho1 & Hf1).
  destruct (flush_row now (pending c) stored _ db1 Hr1 Hp1) as (_ & Hr2 & Ho2). rewrite Ho1 in Hr2.
  exists c, db1, (snd (flush parse_error now false cid (pending c) db1)).
  split; [done|]. split; [by rewrite (consume_app ins _ _ _ _ _ Hc)|]. split_and!; [done| |done|].
  - intros Hn%Hf1. destruct (load_has_row _ _ _ Hr1) as [-> _], (load_has_row _ _ _ Hr2) as [-> _]. rewrite <- Ho1.
    destruct (pending c) as [[|] [|] [|] [|]]; try done. by destruct stored.
  - intros x Hx. by rewrite Ho2, Ho.
Qed.

(** Nothing that was observed is lost to the debounce.  However the events are cut
    by the deadline, the state stored when the channel has closed is what remembering
    them one by one gives, and so is the session id; already before that, whenever no
    deadline is set; the rows of other conversations stay as they are. *)
Lemma consumer_remembers_everything ins now st sid db :
  has_row st sid db → Forall running ins → Forall event_ok (omap received ins) →
  ∃ c db1 db', consume parse_error cid ins started db = (Some c, db1) ∧
    consume parse_error cid (ins ++ [mk_input now Closed false]) started db = (None, db') ∧
    load_persisted parse_error cid db' = Some (foldl remember st (omap received ins)) ∧
    load_session_id cid db' = foldl assign sid (omap received ins) ∧
    (flush_at c = None → load_persisted parse_error cid db1 = load_persisted parse_error cid db') ∧
    others_kept db db1 ∧ others_kept db db'.
Proof.
  intros Hr Hi He. destruct (consume_closed ins now st sid db Hr Hi He) as (c & db1 & db' & H1' & H2' & Hrow & H3' & H4' & H5').
  apply load_has_row in Hrow as [Hl Hs]. exists c, db1, db'. by split_and!.
Qed.
End consuming.

(* ------------------------------------------------------------------ *)
(** ** The database agrees with the session *)

Section agreement.
Context `{AcpSchema} `{JsonCodec} `{HashIter string} (parse_error : string → string) (cid : string) {CR : Type}.
Import AcpSession AcpSessionSync.
#[local] Arguments of_map : simpl never.
Abbreviation session := (AcpSession.t (CloseReason:=CR)).
Implicit Types (s : session) (db : list AcpSessionRow.t) (st : RuntimeState.t).

(** Equal usages have the same text, which is JSON, and is read back as it was also
    after a round through the database. *)
Definition usage_text_roundtrip : Prop :=
  usage_text_faithful ∧ ∀ u, from_str (usage_to_string u) ≠ None ∧ usage_from_str (normal (usage_to_string u)) = Some u.

(** What a session should be restored to. *)
Definition observed_of s : PersistedSessionState :=
  mk_persisted (o_mode (observed s)) (o_model (observed s)) (o_config (observed s)) (context_usage (advertised s)).
(** The row can be read and updated, the stored state is what the session has observed,
    and the stored id the one of the session, if it has one. *)
Definition agrees db s : Prop :=
  (∃ st sid, has_row cid st sid db) ∧ load_snapshot_state parse_error cid db = Some (observed_of s) ∧
  ∀ sid, AcpSession.session_id s = Some sid → load_session_id cid db = Some sid.

Definition decoded st : PersistedSessionState :=
  mk_persisted (RuntimeState.current_mode_id st) (RuntimeState.current_model_id st)
    (default ∅ ((RuntimeState.config_selections_json st ≫= from_str) ≫= to_map))
    (RuntimeState.context_usage_json st ≫= usage_from_str).
Lemma load_decoded st sid db : has_row cid st sid db → load_snapshot_state parse_error cid db = Some (decoded st).
Proof.
  intros (r & Hr & _ & _ & Hst). unfold load_snapshot_state, AcpSessionRepo.load_runtime_state. rewrite Hr. simpl.
  destruct (from_str _); [|done]. by injection Hst as ->.
Qed.

(** Remembering an event is seeing what it tells. *)
Definition shows (p : PersistedSessionState) (v : view) : Prop :=
  p_mode p = o_mode (v_observed v) ∧ p_model p = o_model (v_observed v) ∧ p_config p = o_config (v_observed v) ∧
  p_usage p = (v_usage v ≫= λ t, usage_from_str (normal t)).
Lemma remember_shows st v es : shows (decoded st) v → shows (decoded (foldl remember st es)) (foldl tell v es).
Proof.
  revert st v. induction es as [|e es IH]; intros st v Hs; simpl; [done|]. apply IH.
  destruct Hs as (H1' & H2' & H3' & H4'). destruct st as [m mo c u]. destruct e; split_and!; simpl in *; try done.
  rewrite codec_roundtrip by apply ok_of_map. change (default ∅ (to_map (of_map selections)) = selections). by rewrite to_of_map.
Qed.

Lemma shows_observed s : usage_text_roundtrip → shows (observed_of s) (view_of s).
Proof.
  intros [_ Hu]. split_and!; try done. simpl. destruct (context_usage (advertised s)) as [u|]; [|done]. simpl.
  by destruct (Hu u) as [_ ->].
Qed.
Lemma shows_unique s p : usage_text_roundtrip → shows p (view_of s) → p = observed_of s.
Proof.
  intros Hu (H1' & H2' & H3' & H4'). destruct (shows_observed s Hu) as (_ & _ & _ & H5'). destruct p as [m mo c u].
  simpl in *. unfold observed_of. congruence.
Qed.

Lemma observed_inj s s' : observed_of s = observed_of s' → observed s = observed s'.
Proof.
  intros Ho. assert (Hm := f_equal p_mode Ho). assert (Hmo := f_equal p_model Ho). assert (Hc := f_equal p_config Ho).
  simpl in *. destruct (observed s), (observed s'). simpl in *. by subst.
Qed.

(** *** Fresh and restored sessions *)

Lemma find_snoc_none {A} (p : A → bool) l x : List.find p l = None → p x = true → List.find p (l ++ [x]) = Some x.
Proof. induction l as [|y l IH]; simpl; [by intros _ ->|]. destruct (p y); [done|]. apply IH. Qed.

Lemma agrees_created now backend source agent db m mo c :
  Forall (λ r, AcpSessionRow.conversation_id r ≠ cid) db →
  agrees (fst (AcpSessionRepo.create now cid backend source agent db)) (AcpSession.new m mo c : session).
Proof.
  intros Hdb. unfold AcpSessionRepo.create.
  assert (Hno : existsb (AcpSessionRepo.is_row cid) db = false ∧ List.find (AcpSessionRepo.is_row cid) db = None).
  { unfold AcpSessionRepo.is_row. induction Hdb as [|r db Hr _ [IH1 IH2]]; simpl; [done|].
    by rewrite (proj2 (String.eqb_neq _ _) Hr), IH1. }
  destruct Hno as [-> Hno]. cbn [fst].
  assert (Hr : has_row cid RuntimeState.empty None
    (db ++ [AcpSessionRow.mk cid backend source agent None "idle" "{}" (Some now) None])).
  { eexists. split; [apply find_snoc_none; [done|apply String.eqb_refl]|].
    simpl. rewrite empty_object. split_and!; [done| |done]. exists []. by rewrite empty_object. }
  split; [by eexists _, _|]. split; [by rewrite (load_decoded _ _ _ Hr)|done].
Qed.

(** A restart: the next session preloads what is stored. *)
Definition restart (p : PersistedSessionState) (m mo : option string) (c : Selections) : session :=
  fst (drain_events (preload_persisted p (AcpSession.new m mo c))).
Lemma restart_observed p m mo c :
  observed_of (restart p m mo c) = p ∧ coherent (restart p m mo c) ∧ pending_events (restart p m mo c) = [] ∧
  AcpSession.session_id (restart p m mo c) = None.
Proof.
  destruct p as [[pm|] [pmo|] pc [pu|]]; unfold restart, preload_persisted, observed_of, coherent; simpl;
    case_bool_decide as Hc; simpl; rewrite ?Hc; done.
Qed.

(** C31: resuming restores what was observed.  Start from a session that agrees with its
    row - a new one whose row was just created, or a restored one - and call anything on
    it but another preload.  One consumer receives its events with the debounce deadlines
    falling anywhere and none of its writes failing ([running]).  When the channel has
    closed, because the manager of the session is gone, the row agrees with the session
    again, so what is stored is the mode, model, configuration and usage it observed last
    and its id; and a session that preloads it has observed the same and agrees with the
    row in turn.  Nothing is said of the row before: it may lag by a debounce interval. *)
Theorem resume_restores_what_was_observed cs s s' es ins now db m mo c :
  usage_text_roundtrip → agrees db s → coherent s → pending_events s = [] → Forall not_preload cs →
  run_calls cs s = (s', es) → omap received ins = es → Forall running ins →
  ∃ db', consume parse_error cid (ins ++ [mk_input now Closed false]) started db = (None, db') ∧ agrees db' s' ∧
    ∃ p, load_snapshot_state parse_error cid db' = Some p ∧ agrees db' (restart p m mo c) ∧
      observed (restart p m mo c) = observed s' ∧ coherent (restart p m mo c) ∧
      context_usage (advertised (restart p m mo c)) = context_usage (advertised s').
Proof.
  intros Hu ((st & sid & Hrow) & Hload & Hid) Hcoh Hpe Hcs Hrun Hes Hins.
  destruct (run_calls_told cs s s' es (proj1 Hu) Hcs Hcoh Hpe Hrun) as [Hview _].
  destruct (load_has_row parse_error cid _ _ _ Hrow) as [_ Hsid]. rewrite Hsid in Hid.
  destruct (run_calls_assigned cs s s' es sid Hrun) as [Hfu Hids]; [by rewrite Hpe|by rewrite Hpe|].
  destruct (consume_closed parse_error cid ins now st sid db Hrow Hins) as (_ & _ & db' & _ & Hc & Hrow' & _).
  { rewrite Hes. eapply Forall_impl; [exact Hfu|]. intros []; simpl; try done. intros [u ->]. apply Hu. }
  rewrite Hes in Hrow'. destruct (load_has_row parse_error cid _ _ _ Hrow') as [_ Hsid'].
  assert (Hobs : load_snapshot_state parse_error cid db' = Some (observed_of s')).
  { rewrite (load_decoded _ _ _ Hrow'). f_equal. apply shows_unique; [done|]. rewrite Hview. apply remember_shows.
    rewrite (load_decoded _ _ _ Hrow) in Hload. apply (inj Some) in Hload as ->. by apply shows_observed. }
  destruct (restart_observed (observed_of s') m mo c) as (Ho & Hco & _ & Hno).
  exists db'. split; [done|]. split; [|exists (observed_of s'); split; [done|]].
  - split; [by eexists _, _|]. split; [done|]. intros x Hx. rewrite Hsid'. by apply Hids.
  - split; [|split_and!; [|done|]].
    + split; [by eexists _, _|]. split; [by rewrite Ho|]. by rewrite Hno.
    + by apply observed_inj.
    + by apply (f_equal p_usage) in Ho.
Qed.
End agreement.

(* ------------------------------------------------------------------ *)
(** ** Concrete runs *)

(** Usages are the literals of JSON numbers. *)
Definition json_tokens : AcpSchema := {|
  UsageUpdate := string;
  usage_eqb := String.eqb;
  usage_to_string := λ n, @to_string plain_codec (Num n);
  usage_from_str := λ s, match @from_str plain_codec s with Some (Num n) => Some n | _ => None end;
  AgentCapabilities := bool;
  load_session := id;
  AuthMethod := string;
|}.

Section witnesses.
#[local] Existing Instance json_tokens.
#[local] Existing Instance plain_codec.
#[local] Existing Instance hash_iter_canonical.
Import AcpSession AcpSessionSync.
Abbreviation session := (AcpSession.t (CloseReason:=unit)).
Definition no_message : string → string := λ _, EmptyString.

Definition fresh_db : list AcpSessionRow.t := fst (AcpSessionRepo.create 1 "conv-1" "claude" "builtin" "a1" []).
Definition observing : list input :=
  [mk_input 10 (Recv (AcpSessionEvent.SessionAssigned "s-1")) false;
   mk_input 20 (Recv (AcpSessionEvent.ObservedModeSynced "plan")) false;
   mk_input 600 Deadline false;
   mk_input 610 (Recv (AcpSessionEvent.ObservedModeSynced "code")) false].

Lemma fresh_row : has_row "conv-1" RuntimeState.empty None fresh_db.
Proof.
  eexists. split; [reflexivity|]. split; [reflexivity|]. split; [|reflexivity]. exists []. by split.
Qed.

Lemma consumer_remembers_everything_witness :
  ∃ c db1 db', consume no_message "conv-1" observing started fresh_db = (Some c, db1) ∧
    consume no_message "conv-1" (observing ++ [mk_input 700 Closed false]) started fresh_db = (None, db') ∧
    load_persisted no_message "conv-1" db' = Some (RuntimeState.mk (Some "code") None None None) ∧
    load_session_id "conv-1" db' = Some "s-1" ∧
    (flush_at c = None → load_persisted no_message "conv-1" db1 = load_persisted no_message "conv-1" db') ∧
    others_kept "conv-1" fresh_db db1 ∧ others_kept "conv-1" fresh_db db'.
Proof.
  apply (consumer_remembers_everything no_message "conv-1" observing 700 RuntimeState.empty None fresh_db).
  - exact fresh_row.
  - repeat constructor; done.
  - repeat constructor.
Defined.

Definition some_calls : list (call (CR:=unit)) :=
  [CSetSessionId "s-1"; CModes (mk_modes "code" []); CSetDesiredMode "plan"; CDrain; CObservedMode "plan";
   CObservedConfig "effort" "high"; CUsage "17"].
Definition at_once (es : list AcpSessionEvent.t) : list input := map (λ e, mk_input 10 (Recv e) false) es.
Lemma at_once_received es : omap received (at_once es) = es ∧ Forall running (at_once es).
Proof. induction es as [|e es [IH1 IH2]]; [done|]. split; [|by constructor].
  change (e :: omap received (at_once es) = e :: es). by rewrite IH1.
Qed.
Definition their_inputs : list input := at_once (snd (run_calls some_calls (new None None ∅ : session))).

Lemma json_tokens_roundtrip : usage_text_roundtrip.
Proof.
  assert (Hn : ∀ n, from_str (to_string (Num n)) = Some (Num n)) by (intros n; by apply codec_roundtrip).
  split; [by intros u v Huv%String.eqb_eq; subst|]. intros u. cbn [usage_to_string usage_from_str json_tokens].
  rewrite Hn. split; [done|]. unfold normal. rewrite Hn. by rewrite Hn.
Qed.

Lemma resume_restores_what_was_observed_witness :
  let s' := fst (run_calls some_calls (new None None ∅ : session)) in
  observed s' = mk_observed (Some "plan") None {["effort" := "high"]} ∧
  ∃ db', consume no_message "conv-1" (their_inputs ++ [mk_input 900 Closed false]) started fresh_db = (None, db') ∧
    agrees no_message "conv-1" db' s' ∧
    ∃ p, load_snapshot_state no_message "conv-1" db' = Some p ∧
      agrees no_message "conv-1" db' (restart p None None ∅ : session) ∧
      observed (restart p None None ∅ : session) = observed s' ∧ coherent (restart p None None ∅ : session) ∧
      context_usage (advertised (restart p None None ∅ : session)) = context_usage (advertised s').
Proof.
  split; [vm_compute; reflexivity|].
  apply (resume_restores_what_was_observed no_message "conv-1" some_calls (new None None ∅)
           _ (snd (run_calls some_calls (new None None ∅ : session)))).
  - exact json_tokens_roundtrip.
  - by apply agrees_created.
  - done.
  - done.
  - by repeat constructor.
  - apply surjective_pairing.
  - apply at_once_received.
  - apply at_once_received.
Defined.

(** A flush the database refuses is not tried again: what was pending is gone. *)
Lemma refused_flush_is_lost :
  let '(c, db) := consume no_message "conv-1"
      [mk_input 20 (Recv (AcpSessionEvent.ObservedModeSynced "plan")) false; mk_input 600 Deadline true;
       mk_input 5000 Deadline false; mk_input 9000 Closed false] started fresh_db in
  load_persisted no_message "conv-1" db = Some RuntimeState.empty.
Proof. vm_compute. reflexivity. Qed.

(** Attaching again aborts the task of the previous manager with what it has pending. *)
Lemma attach_drops_pending (pending_c : consumer) active :
  active !! "conv-1" = Some pending_c → attach "conv-1" active !! "conv-1" = Some started.
Proof. intros _. apply lookup_insert_eq. Qed.

(** A row whose configuration has no [runtime] is not reported as absent. *)
Lemma missing_runtime_is_a_state :
  snd (AcpSessionRepo.load_runtime_state no_message "conv-1" fresh_db) = Ok (Some RuntimeState.empty).
Proof. reflexivity. Qed.
End witnesses.
