(* ===== verification/ChannelTypes.v ===== *)
(** * ChannelTypes: the data of the messaging channels

    [types.rs], [error.rs] and [constants.rs] of [chisl-channel], the row models of
    [chisl-db] and the event payloads of [chisl-api-types].  Times are milliseconds. *)

From S2P Require Import Prelude.
From S2P Require Import Text.
From S2P Require Import TeamTypes.
From S2P Require Import TeamEvents.

Module PluginType.
(* chisl-channel/src/types.rs:16-22 PluginType *)
Inductive t := Telegram | Slack | Discord.
#[export] Instance eq_dec : EqDecision t.
Proof. solve_decision. Defined.
(* chisl-channel/src/types.rs:24-32 Display for PluginType *)
Definition to_string (p : t) : string :=
  match p with Telegram => "telegram" | Slack => "slack" | Discord => "discord" end.
(* chisl-channel/src/types.rs:36-43 PluginType::from_str_opt *)
Definition from_str_opt (s : string) : option t :=
  if String.eqb s "telegram" then Some Telegram
  else if String.eqb s "slack" then Some Slack
  else if String.eqb s "discord" then Some Discord
  else None.
End PluginType.

Module PluginStatus.
(* chisl-channel/src/types.rs:60-69 PluginStatus *)
Inductive t := Created | Initializing | Ready | Starting | Running | Stopping | Stopped | Error.
#[export] Instance eq_dec : EqDecision t.
Proof. solve_decision. Defined.
(* chisl-channel/src/types.rs:71-84 Display for PluginStatus *)
Definition to_string (p : t) : string :=
  match p with
  | Created => "created" | Initializing => "initializing" | Ready => "ready"
  | Starting => "starting" | Running => "running" | Stopping => "stopping"
  | Stopped => "stopped" | Error => "error"
  end.
(* chisl-channel/src/types.rs:88-100 PluginStatus::from_str_opt *)
Definition from_str_opt (s : string) : option t :=
  List.find (λ p, String.eqb s (to_string p))
    [Created; Initializing; Ready; Starting; Running; Stopping; Stopped; Error].
End PluginStatus.

Module PairingStatus.
(* chisl-channel/src/types.rs:110-115 PairingStatus *)
Inductive t := Pending | Approved | Rejected | Expired.
#[export] Instance eq_dec : EqDecision t.
Proof. solve_decision. Defined.
(* chisl-channel/src/types.rs:117-126 Display for PairingStatus *)
Definition to_string (p : t) : string :=
  match p with
  | Pending => "pending" | Approved => "approved" | Rejected => "rejected" | Expired => "expired"
  end.
(* chisl-channel/src/types.rs:130-138 PairingStatus::from_str_opt *)
Definition from_str_opt (s : string) : option t :=
  List.find (λ p, String.eqb s (to_string p)) [Pending; Approved; Rejected; Expired].
End PairingStatus.

Lemma plugin_type_roundtrip p : PluginType.from_str_opt (PluginType.to_string p) = Some p.
Proof. by destruct p. Qed.
Lemma plugin_status_roundtrip p : PluginStatus.from_str_opt (PluginStatus.to_string p) = Some p.
Proof. by destruct p. Qed.
Lemma pairing_status_roundtrip p : PairingStatus.from_str_opt (PairingStatus.to_string p) = Some p.
Proof. by destruct p. Qed.
#[export] Instance pairing_status_inj : Inj (=) (=) PairingStatus.to_string.
Proof. by intros [] []. Qed.

(* ------------------------------------------------------------------ *)
(** ** Errors *)

Module ChannelError.
(** The [serde_json] error inside [Json] is third-party; its [Display] text is kept. *)
(* chisl-channel/src/error.rs:8-59 ChannelError *)
Inductive t :=
| PluginNotFound (m : string) | InvalidPluginType (m : string) | PluginAlreadyRunning (m : string)
| InvalidConfig (m : string) | ConnectionFailed (m : string) | PairingNotFound (m : string)
| PairingExpired (m : string) | PairingAlreadyProcessed (m : string) | UserNotFound (m : string)
| UserNotAuthorized (m : string) | SessionNotFound (m : string) | EncryptionFailed (m : string)
| DecryptionFailed (m : string) | PlatformApi (m : string) | MessageSendFailed (m : string)
| Database (e : DbError.t) | Json (e : string).
(* chisl-channel/src/error.rs:9-58 Display for ChannelError *)
Definition to_string (e : t) : string :=
  match e with
  | PluginNotFound m => "Plugin not found: " +:+ m
  | InvalidPluginType m => "Invalid plugin type: " +:+ m
  | PluginAlreadyRunning m => "Plugin already running: " +:+ m
  | InvalidConfig m => "Invalid plugin configuration: " +:+ m
  | ConnectionFailed m => "Plugin connection failed: " +:+ m
  | PairingNotFound m => "Pairing code not found: " +:+ m
  | PairingExpired m => "Pairing code expired: " +:+ m
  | PairingAlreadyProcessed m => "Pairing code already processed: " +:+ m
  | UserNotFound m => "User not found: " +:+ m
  | UserNotAuthorized m => "User not authorized: " +:+ m
  | SessionNotFound m => "Session not found: " +:+ m
  | EncryptionFailed m => "Credential encryption failed: " +:+ m
  | DecryptionFailed m => "Credential decryption failed: " +:+ m
  | PlatformApi m => "Platform API error: " +:+ m
  | MessageSendFailed m => "Message send failed: " +:+ m
  | Database e => DbError.to_string e
  | Json e => "JSON error: " +:+ e
  end.
(* chisl-channel/src/error.rs:61-83 From<ChannelError> for AppError *)
Definition to_app (e : t) : AppError.t :=
  match e with
  | PluginNotFound m | PairingNotFound m | UserNotFound m | SessionNotFound m => AppError.NotFound m
  | InvalidPluginType m | InvalidConfig m | PairingExpired m | PairingAlreadyProcessed m =>
      AppError.BadRequest m
  | PluginAlreadyRunning m => AppError.Conflict m
  | ConnectionFailed m | PlatformApi m => AppError.BadGateway m
  | UserNotAuthorized m => AppError.Forbidden m
  | EncryptionFailed m | DecryptionFailed m | MessageSendFailed m => AppError.Internal m
  | Database e => DbError.to_app e
  | Json e => AppError.Internal ("JSON error: " +:+ e)
  end.
End ChannelError.

(* ------------------------------------------------------------------ *)
(** ** Rows *)

Module ChannelPluginRow.
(* chisl-db/src/models/channel.rs:9-21 ChannelPluginRow *)
Record t := mk {
  id : string; type : string; name : string; enabled : bool; config : string;
  status : option string; last_connected : option TimestampMs;
  created_at : TimestampMs; updated_at : TimestampMs }.
End ChannelPluginRow.

Module AssistantUserRow.
(* chisl-db/src/models/channel.rs:28-36 AssistantUserRow *)
Record t := mk {
  id : string; platform_user_id : string; platform_type : string; display_name : option string;
  authorized_at : TimestampMs; last_active : option TimestampMs; session_id : option string }.
End AssistantUserRow.

Module AssistantSessionRow.
(* chisl-db/src/models/channel.rs:44-53 AssistantSessionRow *)
Record t := mk {
  id : string; user_id : string; agent_type : string; conversation_id : option string;
  workspace : option string; chat_id : option string;
  created_at : TimestampMs; last_activity : TimestampMs }.
End AssistantSessionRow.

Module PairingCodeRow.
(* chisl-db/src/models/channel.rs:60-68 PairingCodeRow *)
Record t := mk {
  code : string; platform_user_id : string; platform_type : string; display_name : option string;
  requested_at : TimestampMs; expires_at : TimestampMs; status : string }.
Definition set_status (st : string) (r : t) : t :=
  mk (code r) (platform_user_id r) (platform_type r) (display_name r) (requested_at r) (expires_at r) st.
End PairingCodeRow.

(* ------------------------------------------------------------------ *)
(** ** Constants *)

(* chisl-channel/src/constants.rs:8-8 PAIRING_CODE_LENGTH *)
Definition PAIRING_CODE_LENGTH : nat := 6.
(* chisl-channel/src/constants.rs:11-11 PAIRING_CODE_TTL *)
Definition PAIRING_CODE_TTL : Z := 10 * 60 * 1000.
(* chisl-channel/src/constants.rs:22-22 STREAM_THROTTLE_INTERVAL *)
Definition STREAM_THROTTLE_INTERVAL : Z := 500.

(* ------------------------------------------------------------------ *)
(** ** Messages and actions *)

Module ParseMode.
(* chisl-channel/src/types.rs:347-351 ParseMode *)
Inductive t := HTML | MarkdownV2 | Markdown.
End ParseMode.

Module ActionButton.
(* chisl-channel/src/types.rs:355-360 ActionButton *)
Record t := mk { label : string; action : string; params : option (gmap string string) }.
(** A button without parameters. *)
Definition plain (label action : string) : t := mk label action None.
End ActionButton.

Module ActionCategory.
(* chisl-channel/src/types.rs:388-392 ActionCategory *)
Inductive t := Platform | System | Chat.
End ActionCategory.

Module ActionContext.
(* chisl-channel/src/types.rs:396-404 ActionContext *)
Record t := mk {
  platform : PluginType.t; user_id : string; chat_id : string;
  message_id : option string; session_id : option string }.
End ActionContext.

Module UnifiedAction.
(* chisl-channel/src/types.rs:376-383 UnifiedAction *)
Record t := mk {
  action : string; category : ActionCategory.t; params : option (gmap string string);
  context : ActionContext.t }.
End UnifiedAction.

Module ActionBehavior.
(* chisl-channel/src/types.rs:427-434 ActionBehavior *)
Inductive t := Send | Edit | Answer.
End ActionBehavior.

Module ActionResponse.
(* chisl-channel/src/types.rs:408-422 ActionResponse *)
Record t := mk {
  text : option string; parse_mode : option ParseMode.t;
  buttons : option (list (list ActionButton.t)); keyboard : option (list (list ActionButton.t));
  behavior : ActionBehavior.t; toast : option string; edit_message_id : option string }.
(** A text that is sent as a new message, with rows of buttons. *)
Definition send (text : string) (buttons : option (list (list ActionButton.t))) : t :=
  mk (Some text) None buttons None ActionBehavior.Send None None.
(** Only a toast. *)
Definition only_toast (b : ActionBehavior.t) (toast : string) : t := mk None None None None b (Some toast) None.
End ActionResponse.

Module UnifiedUser.
(* chisl-channel/src/types.rs:253-260 UnifiedUser *)
Record t := mk {
  id : string; username : option string; display_name : string; avatar_url : option string }.
End UnifiedUser.

Module MessageContentType.
(* chisl-channel/src/types.rs:275-285 MessageContentType *)
Inductive t := Text | Photo | Document | Voice | Audio | Video | Sticker | Action | Command.
End MessageContentType.

Module UnifiedAttachment.
(* chisl-channel/src/types.rs:289-300 UnifiedAttachment *)
Record t := mk {
  file_id : option string; file_name : option string; mime_type : option string;
  file_size : option Z; url : option string }.
End UnifiedAttachment.

Module UnifiedMessageContent.
(* chisl-channel/src/types.rs:264-270 UnifiedMessageContent *)
Record t := mk {
  content_type : MessageContentType.t; text : string; attachments : option (list UnifiedAttachment.t) }.
End UnifiedMessageContent.

Module UnifiedIncomingMessage.
(** The platform's own message, kept in [raw] for diagnosis, is left out. *)
(* chisl-channel/src/types.rs:236-249 UnifiedIncomingMessage *)
Record t := mk {
  id : string; platform : PluginType.t; chat_id : string; user : UnifiedUser.t;
  content : UnifiedMessageContent.t; timestamp : Z; reply_to_message_id : option string;
  action : option UnifiedAction.t }.
End UnifiedIncomingMessage.

Module OutgoingMessageType.
(* chisl-channel/src/types.rs:338-343 OutgoingMessageType *)
Inductive t := Text | Image | File | Buttons.
End OutgoingMessageType.

Module ChannelMediaAction.
(* chisl-channel/src/types.rs:364-368 ChannelMediaAction *)
Record t := mk { url : string; label : option string }.
End ChannelMediaAction.

Module UnifiedOutgoingMessage.
(* chisl-channel/src/types.rs:308-333 UnifiedOutgoingMessage *)
Record t := mk {
  message_type : OutgoingMessageType.t; text : option string; parse_mode : option ParseMode.t;
  buttons : option (list (list ActionButton.t)); keyboard : option (list (list ActionButton.t));
  image_url : option string; file_url : option string; file_name : option string;
  media_actions : option (list ChannelMediaAction.t); reply_to_message_id : option string;
  silent : option bool }.
(** Only a text, only a text with buttons. *)
Definition plain (text : string) : t :=
  mk OutgoingMessageType.Text (Some text) None None None None None None None None None.
End UnifiedOutgoingMessage.

(* chisl-api-types/src/channel.rs:206-234 channel event payloads *)
Inductive ChannelPayload :=
| PairingRequestedPayload (code platform_user_id platform_type : string)
    (display_name : option string) (expires_at : TimestampMs)
| UserAuthorizedPayload (id platform_user_id platform_type : string) (display_name : option string).

Abbreviation ChannelEvent := (WebSocketMessage.t ChannelPayload).
