(* ===== verification/ChannelRepo.v ===== *)
(** * ChannelRepo: the tables of the messaging channels

    [SqliteChannelRepository] ([chisl-db/src/repository/sqlite_channel.rs], the
    implementation of [repository/channel.rs]) on four tables, with the PRIMARY KEY,
    UNIQUE, FOREIGN KEY and CHECK constraints of migrations 001 and 002.  A statement
    is one indivisible operation; the methods that run several are programs of
    [Threads], since the pool has several connections.  The conversations, which
    belong to another component, are the list of their ids.  I/O failures of [sqlx]
    are not modelled. *)

From S2P Require Import Prelude.
From S2P Require Import Text.
From S2P Require Import Threads.
From S2P Require Import Sql.
From S2P Require Import TeamTypes.
From S2P Require Import TeamRepo.
From S2P Require Import ChannelTypes.

Record ChannelDb := mk_channel_db {
  tbl_plugins : list ChannelPluginRow.t;
  tbl_users : list AssistantUserRow.t;
  tbl_sessions : list AssistantSessionRow.t;
  tbl_pairings : list PairingCodeRow.t;
  conversation_ids : list string }.

Definition set_plugins (l : list ChannelPluginRow.t) (db : ChannelDb) : ChannelDb :=
  mk_channel_db l (tbl_users db) (tbl_sessions db) (tbl_pairings db) (conversation_ids db).
Definition set_users (l : list AssistantUserRow.t) (db : ChannelDb) : ChannelDb :=
  mk_channel_db (tbl_plugins db) l (tbl_sessions db) (tbl_pairings db) (conversation_ids db).
Definition set_sessions (l : list AssistantSessionRow.t) (db : ChannelDb) : ChannelDb :=
  mk_channel_db (tbl_plugins db) (tbl_users db) l (tbl_pairings db) (conversation_ids db).
Definition set_pairings (l : list PairingCodeRow.t) (db : ChannelDb) : ChannelDb :=
  mk_channel_db (tbl_plugins db) (tbl_users db) (tbl_sessions db) l (conversation_ids db).

(** [WHERE platform_user_id = ? AND platform_type = ?], [WHERE user_id = ? AND chat_id = ?]. *)
Definition is_platform_user (platform_user_id platform_type : string) (r : AssistantUserRow.t) : bool :=
  String.eqb (AssistantUserRow.platform_user_id r) platform_user_id &&
  String.eqb (AssistantUserRow.platform_type r) platform_type.
Definition in_chat (user_id chat_id : string) (r : AssistantSessionRow.t) : bool :=
  String.eqb (AssistantSessionRow.user_id r) user_id &&
  bool_decide (AssistantSessionRow.chat_id r = Some chat_id).
Definition is_session (id : string) (r : AssistantSessionRow.t) : bool :=
  String.eqb (AssistantSessionRow.id r) id.
Definition is_user (id : string) (r : AssistantUserRow.t) : bool := String.eqb (AssistantUserRow.id r) id.
Definition is_code (code : string) (r : PairingCodeRow.t) : bool := String.eqb (PairingCodeRow.code r) code.
Definition is_plugin (id : string) (r : ChannelPluginRow.t) : bool := String.eqb (ChannelPluginRow.id r) id.

Module UpdatePluginStatusParams.
(* chisl-db/src/repository/channel.rs:108-112 UpdatePluginStatusParams *)
Record t := mk { status : option string; last_connected : option TimestampMs; enabled : option bool }.
End UpdatePluginStatusParams.

Module SqliteChannelRepository.
Abbreviation SQL := (ST ChannelDb DbError.t).

(* chisl-db/src/repository/sqlite_channel.rs:23-28 get_all_plugins *)
Definition get_all_plugins : SQL (list ChannelPluginRow.t) := λ db,
  (db, Ok (sort_by ChannelPluginRow.created_at (tbl_plugins db))).

(* chisl-db/src/repository/sqlite_channel.rs:30-36 get_plugin *)
Definition get_plugin (id : string) : SQL (option ChannelPluginRow.t) := λ db,
  (db, Ok (List.find (is_plugin id) (tbl_plugins db))).

(* chisl-db/src/repository/sqlite_channel.rs:38-64 upsert_plugin *)
Definition upsert_plugin (row : ChannelPluginRow.t) : SQL unit := λ db,
  let set_excluded (r : ChannelPluginRow.t) :=
    ChannelPluginRow.mk (ChannelPluginRow.id r) (ChannelPluginRow.type row) (ChannelPluginRow.name row)
      (ChannelPluginRow.enabled row) (ChannelPluginRow.config row) (ChannelPluginRow.status row)
      (ChannelPluginRow.last_connected row) (ChannelPluginRow.created_at r)
      (ChannelPluginRow.updated_at row) in
  match List.find (is_plugin (ChannelPluginRow.id row)) (tbl_plugins db) with
  | Some _ =>
      (set_plugins (sql_update (is_plugin (ChannelPluginRow.id row)) set_excluded (tbl_plugins db)) db, Ok tt)
  | None => (set_plugins (tbl_plugins db ++ [row]) db, Ok tt)
  end.

(** The clock is read only when there is something to set. *)
(* chisl-db/src/repository/sqlite_channel.rs:66-105 update_plugin_status *)
Definition update_plugin_status (now : TimestampMs) (id : string) (p : UpdatePluginStatusParams.t) :
    SQL unit := λ db,
  match p with
  | UpdatePluginStatusParams.mk None None None => (db, Ok tt)
  | UpdatePluginStatusParams.mk status last_connected enabled =>
      let set_clauses (r : ChannelPluginRow.t) :=
        ChannelPluginRow.mk (ChannelPluginRow.id r) (ChannelPluginRow.type r) (ChannelPluginRow.name r)
          (default (ChannelPluginRow.enabled r) enabled) (ChannelPluginRow.config r)
          (match status with Some s => Some s | None => ChannelPluginRow.status r end)
          (match last_connected with Some t => Some t | None => ChannelPluginRow.last_connected r end)
          (ChannelPluginRow.created_at r) now in
      (set_plugins (sql_update (is_plugin id) set_clauses (tbl_plugins db)) db,
       or_not_found (rows_affected (is_plugin id) (tbl_plugins db)) ("Plugin '" +:+ id +:+ "' not found"))
  end.

(* chisl-db/src/repository/sqlite_channel.rs:107-116 delete_plugin *)
Definition delete_plugin (id : string) : SQL unit := λ db,
  (set_plugins (sql_delete (is_plugin id) (tbl_plugins db)) db,
   or_not_found (rows_affected (is_plugin id) (tbl_plugins db)) ("Plugin '" +:+ id +:+ "' not found")).

(* chisl-db/src/repository/sqlite_channel.rs:120-125 get_all_users *)
Definition get_all_users : SQL (list AssistantUserRow.t) := λ db,
  (db, Ok (order_by_desc AssistantUserRow.authorized_at (tbl_users db))).

(* chisl-db/src/repository/sqlite_channel.rs:127-141 get_user_by_platform *)
Definition get_user_by_platform (platform_user_id platform_type : string) :
    SQL (option AssistantUserRow.t) := λ db,
  (db, Ok (List.find (is_platform_user platform_user_id platform_type) (tbl_users db))).

(* chisl-db/src/repository/sqlite_channel.rs:143-170 create_user *)
Definition create_user (row : AssistantUserRow.t) : SQL unit := λ db,
  let same r := is_user (AssistantUserRow.id row) r ||
    is_platform_user (AssistantUserRow.platform_user_id row) (AssistantUserRow.platform_type row) r in
  if existsb same (tbl_users db)
  then (db, Err (DbError.Conflict ("User '" +:+ AssistantUserRow.platform_user_id row +:+
    "' on platform '" +:+ AssistantUserRow.platform_type row +:+ "' already exists")))
  else (set_users (tbl_users db ++ [row]) db, Ok tt).

(* chisl-db/src/repository/sqlite_channel.rs:172-182 update_user_last_active *)
Definition update_user_last_active (id : string) (last_active : TimestampMs) : SQL unit := λ db,
  let f (r : AssistantUserRow.t) :=
    AssistantUserRow.mk (AssistantUserRow.id r) (AssistantUserRow.platform_user_id r)
      (AssistantUserRow.platform_type r) (AssistantUserRow.display_name r)
      (AssistantUserRow.authorized_at r) (Some last_active) (AssistantUserRow.session_id r) in
  (set_users (sql_update (is_user id) f (tbl_users db)) db,
   or_not_found (rows_affected (is_user id) (tbl_users db)) ("User '" +:+ id +:+ "' not found")).

(** [ON DELETE CASCADE] removes the user's sessions. *)
(* chisl-db/src/repository/sqlite_channel.rs:184-193 delete_user *)
Definition delete_user (id : string) : SQL unit := λ db,
  let of_user r := String.eqb (AssistantSessionRow.user_id r) id in
  (set_sessions (match rows_affected (is_user id) (tbl_users db) with
                 | O => tbl_sessions db | S _ => sql_delete of_user (tbl_sessions db) end)
     (set_users (sql_delete (is_user id) (tbl_users db)) db),
   or_not_found (rows_affected (is_user id) (tbl_users db)) ("User '" +:+ id +:+ "' not found")).

(* chisl-db/src/repository/sqlite_channel.rs:197-203 get_all_sessions *)
Definition get_all_sessions : SQL (list AssistantSessionRow.t) := λ db,
  (db, Ok (order_by_desc AssistantSessionRow.last_activity (tbl_sessions db))).

(* chisl-db/src/repository/sqlite_channel.rs:205-211 get_session *)
Definition get_session (id : string) : SQL (option AssistantSessionRow.t) := λ db,
  (db, Ok (List.find (is_session id) (tbl_sessions db))).

(** The columns that updates of a session set. *)
Definition touch (agent_type conversation_id : option string) (now : TimestampMs)
    (r : AssistantSessionRow.t) : AssistantSessionRow.t :=
  AssistantSessionRow.mk (AssistantSessionRow.id r) (AssistantSessionRow.user_id r)
    (default (AssistantSessionRow.agent_type r) agent_type)
    (match conversation_id with Some c => Some c | None => AssistantSessionRow.conversation_id r end)
    (AssistantSessionRow.workspace r) (AssistantSessionRow.chat_id r)
    (AssistantSessionRow.created_at r) now.

(* chisl-db/src/repository/sqlite_channel.rs:220-227 get_or_create_session (SELECT) *)
Definition find_session (user_id chat_id : string) : SQL (option AssistantSessionRow.t) := λ db,
  (db, Ok (List.find (in_chat user_id chat_id) (tbl_sessions db))).

(* chisl-db/src/repository/sqlite_channel.rs:232-236 get_or_create_session (UPDATE) *)
Definition touch_session (id : string) (now : TimestampMs) : SQL unit := λ db,
  (set_sessions (sql_update (is_session id) (touch None None now) (tbl_sessions db)) db, Ok tt).

(* chisl-db/src/repository/sqlite_channel.rs:245-260 get_or_create_session (INSERT) *)
Definition insert_session (row : AssistantSessionRow.t) : SQL unit := λ db,
  if existsb (is_session (AssistantSessionRow.id row)) (tbl_sessions db)
  then (db, Err (DbError.Query "UNIQUE constraint failed: assistant_sessions.id"))
  else if negb (existsb (is_user (AssistantSessionRow.user_id row)) (tbl_users db)) ||
          match AssistantSessionRow.conversation_id row with
          | Some c => negb (bool_decide (c ∈ conversation_ids db))
          | None => false
          end
  then (db, Err fk_violation)
  else (set_sessions (tbl_sessions db ++ [row]) db, Ok tt).

(* chisl-db/src/repository/sqlite_channel.rs:265-279 update_session_activity *)
Definition update_session_activity (id : string) (last_activity : TimestampMs) : SQL unit := λ db,
  (set_sessions (sql_update (is_session id) (touch None None last_activity) (tbl_sessions db)) db,
   or_not_found (rows_affected (is_session id) (tbl_sessions db)) ("Session '" +:+ id +:+ "' not found")).

(* chisl-db/src/repository/sqlite_channel.rs:281-297 update_session_conversation *)
Definition update_session_conversation (now : TimestampMs) (id conversation_id : string) : SQL unit := λ db,
  if (0 <? rows_affected (is_session id) (tbl_sessions db))%nat &&
     negb (bool_decide (conversation_id ∈ conversation_ids db))
  then (db, Err fk_violation)
  else (set_sessions (sql_update (is_session id) (touch None (Some conversation_id) now) (tbl_sessions db)) db,
        or_not_found (rows_affected (is_session id) (tbl_sessions db)) ("Session '" +:+ id +:+ "' not found")).

(* chisl-db/src/repository/sqlite_channel.rs:299-315 update_session_agent_type *)
Definition update_session_agent_type (now : TimestampMs) (id agent_type : string) : SQL unit := λ db,
  (set_sessions (sql_update (is_session id) (touch (Some agent_type) None now) (tbl_sessions db)) db,
   or_not_found (rows_affected (is_session id) (tbl_sessions db)) ("Session '" +:+ id +:+ "' not found")).

(* chisl-db/src/repository/sqlite_channel.rs:317-323 delete_sessions_by_user *)
Definition delete_sessions_by_user (user_id : string) : SQL unit := λ db,
  (set_sessions (sql_delete (λ r, String.eqb (AssistantSessionRow.user_id r) user_id) (tbl_sessions db)) db, Ok tt).

(* chisl-db/src/repository/sqlite_channel.rs:325-335 delete_session_by_user_chat *)
Definition delete_session_by_user_chat (user_id chat_id : string) : SQL unit := λ db,
  (set_sessions (sql_delete (in_chat user_id chat_id) (tbl_sessions db)) db, Ok tt).

(* chisl-db/src/repository/sqlite_channel.rs:339-363 create_pairing *)
Definition create_pairing (row : PairingCodeRow.t) : SQL unit := λ db,
  if existsb (is_code (PairingCodeRow.code row)) (tbl_pairings db)
  then (db, Err (DbError.Conflict ("Pairing code '" +:+ PairingCodeRow.code row +:+ "' already exists")))
  else match PairingStatus.from_str_opt (PairingCodeRow.status row) with
       | None => (db, Err (DbError.Query "CHECK constraint failed: assistant_pairing_codes"))
       | Some _ => (set_pairings (tbl_pairings db ++ [row]) db, Ok tt)
       end.

Definition is_pending (r : PairingCodeRow.t) : bool := String.eqb (PairingCodeRow.status r) "pending".

(* chisl-db/src/repository/sqlite_channel.rs:365-374 get_pending_pairings *)
Definition get_pending_pairings : SQL (list PairingCodeRow.t) := λ db,
  (db, Ok (order_by_desc PairingCodeRow.requested_at (List.filter is_pending (tbl_pairings db)))).

(* chisl-db/src/repository/sqlite_channel.rs:376-382 get_pairing_by_code *)
Definition get_pairing_by_code (code : string) : SQL (option PairingCodeRow.t) := λ db,
  (db, Ok (List.find (is_code code) (tbl_pairings db))).

(* chisl-db/src/repository/sqlite_channel.rs:384-394 update_pairing_status *)
Definition update_pairing_status (code status : string) : SQL unit := λ db,
  match rows_affected (is_code code) (tbl_pairings db), PairingStatus.from_str_opt status with
  | S _, None => (db, Err (DbError.Query "CHECK constraint failed: assistant_pairing_codes"))
  | n, _ =>
      (set_pairings (sql_update (is_code code) (PairingCodeRow.set_status status) (tbl_pairings db)) db,
       or_not_found n ("Pairing code '" +:+ code +:+ "' not found"))
  end.

Definition is_overdue (now : TimestampMs) (r : PairingCodeRow.t) : bool :=
  is_pending r && (PairingCodeRow.expires_at r <=? now).

(* chisl-db/src/repository/sqlite_channel.rs:396-406 cleanup_expired_pairings *)
Definition cleanup_expired_pairings (now : TimestampMs) : SQL Z := λ db,
  (set_pairings (sql_update (is_overdue now) (PairingCodeRow.set_status "expired") (tbl_pairings db)) db,
   Ok (Z.of_nat (rows_affected (is_overdue now) (tbl_pairings db)))).
End SqliteChannelRepository.

(* ------------------------------------------------------------------ *)
(** ** The state the channel services share, and calls on it *)

(** The database with the clock and the identifier generator, and the events sent. *)
Record channel := mk_channel { ch_store : Store ChannelDb; ch_events : list ChannelEvent }.
Definition set_store (st : Store ChannelDb) (s : channel) : channel := mk_channel st (ch_events s).
Definition db_of (s : channel) : ChannelDb := st_db (ch_store s).
Definition set_db (db : ChannelDb) (s : channel) : channel :=
  set_store (mk_store db (st_ticks (ch_store s)) (st_ids (ch_store s))) s.

Section calls.
Context `{Ambient}.
Abbreviation M := (prog channel ChannelError.t).

(** [self.repo.f(..).await?] *)
Definition repo {A} (m : ST ChannelDb DbError.t A) : M A :=
  atomic (st_map_err ChannelError.Database (st_on db_of set_db m)).
Definition now : M TimestampMs := atomic (st_on ch_store set_store now_ms).
Definition fresh_id : M string := atomic (st_on ch_store set_store generate_id).
Definition broadcast (e : ChannelEvent) : M unit :=
  atomic (st_modify (λ s, mk_channel (ch_store s) (ch_events s ++ [e]))).

Definition ch_tick (s : channel) : channel := set_store (tick (ch_store s)) s.
Definition ch_bump (s : channel) : channel := set_store (bump_id (ch_store s)) s.

(** The errors of the statements are converted as the callers do. *)
(* chisl-db/src/repository/sqlite_channel.rs:213-263 get_or_create_session *)
Definition get_or_create_session (user_id chat_id : string) (new_row : AssistantSessionRow.t) :
    M AssistantSessionRow.t :=
  await existing := repo (SqliteChannelRepository.find_session user_id chat_id) in
  match existing with
  | Some row =>
      await t := now in
      await_ repo (SqliteChannelRepository.touch_session (AssistantSessionRow.id row) t) in
      ret (SqliteChannelRepository.touch None None t row)
  | None =>
      await_ repo (SqliteChannelRepository.insert_session new_row) in
      ret new_row
  end.

(** Calls when nothing interferes. *)
Lemma set_db_id s : set_db (db_of s) s = s.
Proof. by destruct s as [[]]. Qed.

Lemma run_repo {A B} (m : ST ChannelDb DbError.t A) (f : A → M B) s :
  run (bind (repo m) f) s =
  match m (db_of s) with
  | (db', Ok a) => run (f a) (set_db db' s)
  | (db', Err e) => (set_db db' s, Err (ChannelError.Database e))
  end.
Proof.
  unfold repo. rewrite run_call. unfold st_bind, st_map_err, st_on.
  by destruct (m (db_of s)) as [db' [a|e]].
Qed.
Lemma run_repo_last {A} (m : ST ChannelDb DbError.t A) s :
  run (repo m) s = (set_db (fst (m (db_of s))) s, res_map_err ChannelError.Database (snd (m (db_of s)))).
Proof. unfold repo. rewrite run_atomic. unfold st_map_err, st_on. by destruct (m (db_of s)). Qed.
Lemma run_repo_try {A B E} (m : ST ChannelDb DbError.t A) (f : result A ChannelError.t → prog channel E B) s :
  run (bind (attempt (repo m)) f) s =
  run (f (res_map_err ChannelError.Database (snd (m (db_of s))))) (set_db (fst (m (db_of s))) s).
Proof.
  rewrite run_bind. unfold st_bind. rewrite run_attempt. unfold st_try. by rewrite run_repo_last.
Qed.
Lemma run_now {B} (f : TimestampMs → M B) s :
  run (bind now f) s = run (f (time_at (st_ticks (ch_store s)))) (ch_tick s).
Proof. done. Qed.
Lemma run_fresh {B} (f : string → M B) s :
  run (bind fresh_id f) s = run (f (id_at (st_ids (ch_store s)))) (ch_bump s).
Proof. done. Qed.
Lemma run_read {A B} (g : ChannelDb → A) (f : A → M B) s :
  run (bind (repo (λ db, (db, Ok (g db)))) f) s = run (f (g (db_of s))) s.
Proof. by rewrite run_repo, set_db_id. Qed.
End calls.
