(* ===== verification/ChannelPairing.v ===== *)
(** * ChannelPairing: authorising the users of a messaging platform

    [PairingService] ([chisl-channel/src/pairing.rs]) and the revocation handler of
    [routes.rs].  A stranger gets a six-digit code, an administrator approves or
    rejects it, unapproved codes expire.  Methods are programs of [Threads]: what is
    shown of every interleaving uses [safe], what is shown of a single call uses
    [run]. *)

From S2P Require Import Prelude.
From S2P Require Import Text.
From S2P Require Import Threads.
From S2P Require Import Sql.
From S2P Require Import TeamTypes.
From S2P Require Import TeamRepo.
From S2P Require Import TeamEvents.
From S2P Require Import ChannelTypes.
From S2P Require Import ChannelRepo.

(** [u32::from_le_bytes] *)
Fixpoint from_le_bytes (bs : list Z) : Z :=
  match bs with
  | [] => 0
  | b :: bs' => b + 256 * from_le_bytes bs'
  end.

(** [format!("{num:0>width$}")] *)
Definition zero_padded (width : nat) (num : Z) : string :=
  let s := show_i64 num in String.concat EmptyString (repeat "0" (width - str_len s)) +:+ s.

(** The four bytes come from [getrandom], or its error. *)
(* chisl-channel/src/pairing.rs:19-24 generate_pairing_code *)
Definition generate_pairing_code (bytes : result (list Z) string) : result string ChannelError.t :=
  match bytes with
  | Err e => Err (ChannelError.InvalidConfig ("RNG failure: " +:+ e))
  | Ok bs => Ok (zero_padded PAIRING_CODE_LENGTH (from_le_bytes bs `mod` 10 ^ Z.of_nat PAIRING_CODE_LENGTH))
  end.

Module PairingService.
Import SqliteChannelRepository.
Section service.
Context `{Ambient}.
Abbreviation M := (prog channel ChannelError.t).

(* chisl-channel/src/pairing.rs:212-234 get_valid_pending_pairing *)
Definition get_valid_pending_pairing (code : string) : M PairingCodeRow.t :=
  await row := repo (get_pairing_by_code code) in
  match row with
  | None => fail (ChannelError.PairingNotFound code)
  | Some row =>
      if negb (String.eqb (PairingCodeRow.status row) (PairingStatus.to_string PairingStatus.Pending))
      then fail (ChannelError.PairingAlreadyProcessed code)
      else
        await t := now in
        if PairingCodeRow.expires_at row <=? t then
          await_ attempt (repo (update_pairing_status code (PairingStatus.to_string PairingStatus.Expired))) in
          fail (ChannelError.PairingExpired code)
        else ret row
  end.

Definition is_of_user (platform_user_id platform_type : string) (r : PairingCodeRow.t) : bool :=
  String.eqb (PairingCodeRow.platform_user_id r) platform_user_id &&
  String.eqb (PairingCodeRow.platform_type r) platform_type.

(* chisl-channel/src/pairing.rs:240-254 expire_user_pending_codes *)
Definition expire_user_pending_codes (platform_user_id platform_type : string) : M unit :=
  await pending := repo get_pending_pairings in
  for_each (λ row,
    if is_of_user platform_user_id platform_type row
    then repo (update_pairing_status (PairingCodeRow.code row) (PairingStatus.to_string PairingStatus.Expired))
    else ret tt) pending.

(* chisl-channel/src/pairing.rs:51-96 request_pairing *)
Definition request_pairing (bytes : result (list Z) string) (platform_user_id platform_type : string)
    (display_name : option string) : M string :=
  await_ expire_user_pending_codes platform_user_id platform_type in
  await code := Done (generate_pairing_code bytes) in
  await t := now in
  let expires_at := t + PAIRING_CODE_TTL in
  await_ repo (create_pairing (PairingCodeRow.mk code platform_user_id platform_type display_name
    t expires_at (PairingStatus.to_string PairingStatus.Pending))) in
  await_ broadcast (WebSocketMessage.new "channel.pairing-requested"
    (PairingRequestedPayload code platform_user_id platform_type display_name expires_at)) in
  ret code.

(* chisl-channel/src/pairing.rs:104-145 approve_pairing *)
Definition approve_pairing (code : string) : M unit :=
  await row := get_valid_pending_pairing code in
  await t := now in
  await user_id := fresh_id in
  let uid := PairingCodeRow.platform_user_id row in
  let ptype := PairingCodeRow.platform_type row in
  let name := PairingCodeRow.display_name row in
  await_ repo (create_user (AssistantUserRow.mk user_id uid ptype name t None None)) in
  await_ repo (update_pairing_status code (PairingStatus.to_string PairingStatus.Approved)) in
  broadcast (WebSocketMessage.new "channel.user-authorized" (UserAuthorizedPayload user_id uid ptype name)).

(* chisl-channel/src/pairing.rs:151-160 reject_pairing *)
Definition reject_pairing (code : string) : M unit :=
  await_ get_valid_pending_pairing code in
  repo (update_pairing_status code (PairingStatus.to_string PairingStatus.Rejected)).

(* chisl-channel/src/pairing.rs:163-169 get_pending_pairings *)
Definition get_pending_pairings : M (list PairingCodeRow.t) :=
  await rows := repo SqliteChannelRepository.get_pending_pairings in
  await t := now in
  ret (List.filter (λ r, t <? PairingCodeRow.expires_at r) rows).

(* chisl-channel/src/pairing.rs:172-175 is_user_authorized *)
Definition is_user_authorized (platform_user_id platform_type : string) : M bool :=
  await user := repo (get_user_by_platform platform_user_id platform_type) in
  ret (bool_decide (is_Some user)).

(* chisl-channel/src/pairing.rs:180-187 get_internal_user_id *)
Definition get_internal_user_id (platform_user_id platform_type : string) : M (option string) :=
  await user := repo (get_user_by_platform platform_user_id platform_type) in
  ret (AssistantUserRow.id <$> user).

(** One turn of the cleanup task. *)
(* chisl-channel/src/pairing.rs:192-209 start_cleanup_timer *)
Definition cleanup_tick : M unit :=
  await t := now in
  await_ attempt (F:=ChannelError.t) (repo (cleanup_expired_pairings t)) in
  ret tt.

(* chisl-channel/src/routes.rs:447-464 revoke_user *)
Definition revoke_user (user_id : string) : M unit :=
  await_ repo (delete_sessions_by_user user_id) in
  repo (delete_user user_id).
End service.

(** The calls that reach the service: strangers and users writing to the bot, the
    administrator, the cleanup timer. *)
Inductive request :=
| RequestPairing (bytes : result (list Z) string) (platform_user_id platform_type : string)
    (display_name : option string)
| Approve (code : string)
| Reject (code : string)
| CleanupTick
| Revoke (user_id : string).

Definition handler `{Ambient} (r : request) : prog channel ChannelError.t (option string) :=
  match r with
  | RequestPairing bytes pid ptype name =>
      await code := request_pairing bytes pid ptype name in ret (Some code)
  | Approve code => await_ approve_pairing code in ret None
  | Reject code => await_ reject_pairing code in ret None
  | CleanupTick => await_ cleanup_tick in ret None
  | Revoke user_id => await_ revoke_user user_id in ret None
  end.

(* ------------------------------------------------------------------ *)
(** ** Whatever interleaves *)

Definition row_identity (r : PairingCodeRow.t) : string * string :=
  (PairingCodeRow.platform_user_id r, PairingCodeRow.platform_type r).
Definition user_identity (u : AssistantUserRow.t) : string * string :=
  (AssistantUserRow.platform_user_id u, AssistantUserRow.platform_type u).
Definition same_code (r r' : PairingCodeRow.t) : Prop :=
  PairingCodeRow.code r' = PairingCodeRow.code r ∧ row_identity r' = row_identity r.

(** Codes stay with the user they were made for, and a code that was processed is not
    pending again. *)
Definition codes_kept (db db' : ChannelDb) : Prop :=
  ∀ r, r ∈ tbl_pairings db → ∃ r', r' ∈ tbl_pairings db' ∧ same_code r r' ∧
    (is_pending r' = true → is_pending r = true).
#[export] Instance codes_kept_preorder : PreOrder codes_kept.
Proof.
  split.
  - intros db r Hr. by exists r.
  - intros db1 db2 db3 H12 H23 r Hr. destruct (H12 r Hr) as (r2 & Hr2 & [Hc2 Hi2] & Hp2).
    destruct (H23 r2 Hr2) as (r3 & Hr3 & [Hc3 Hi3] & Hp3).
    exists r3. split_and!; [done|split; congruence|auto].
Qed.

Definition R (s s' : channel) : Prop := codes_kept (db_of s) (db_of s').
#[export] Instance R_preorder : PreOrder R.
Proof. unfold R. split; [by intros s|]. intros s1 s2 s3 H12 H23. by etrans. Qed.

Section justified.
(** The users and codes of the start; the identities that asked for a code, and the
    codes the administrator approves. *)
Context (db0 : ChannelDb) (asked : string * string → Prop) (approves : string → Prop).

Record justified (db : ChannelDb) : Prop := {
  just_users u : u ∈ tbl_users db → u ∈ tbl_users db0 ∨
    ∃ r, r ∈ tbl_pairings db ∧ approves (PairingCodeRow.code r) ∧ row_identity r = user_identity u;
  just_codes r : r ∈ tbl_pairings db →
    (∃ r0, r0 ∈ tbl_pairings db0 ∧ same_code r0 r) ∨ asked (row_identity r) }.

Lemma just_refl : justified db0.
Proof. split; [by left|]. intros r Hr. left. by exists r. Qed.

(** A statement that keeps both. *)
Definition keeps_codes {A} (m : ST ChannelDb DbError.t A) (db : ChannelDb) : Prop :=
  justified (fst (m db)) ∧ codes_kept db (fst (m db)).

Lemma keeps_read {A} (m : ST ChannelDb DbError.t A) db : fst (m db) = db → justified db → keeps_codes m db.
Proof. unfold keeps_codes. intros ->. by split. Qed.
Lemma keeps_same db : justified db → justified db ∧ codes_kept db db.
Proof. by split. Qed.

Lemma keeps_relabel p st db :
  justified db → String.eqb st "pending" = false →
  let db' := set_pairings (sql_update p (PairingCodeRow.set_status st) (tbl_pairings db)) db in
  justified db' ∧ codes_kept db db'.
Proof.
  intros [Hu Hc] Hst db'.
  assert (Hk : codes_kept db db').
  { intros r Hr. exists (if p r then PairingCodeRow.set_status st r else r). split_and!.
    - simpl. apply elem_of_sql_update. eauto.
    - by destruct (p r).
    - destruct (p r); [|done]. unfold is_pending. simpl. by rewrite Hst. }
  split; [|done]. split; simpl.
  - intros u Hin. destruct (Hu u Hin) as [?|(r & Hr & Ha & Hi)]; [by left|right].
    destruct (Hk r Hr) as (r' & Hr' & [Hc' Hi'] & _). exists r'. split_and!; [done| |]; congruence.
  - intros r' (r & Hr & ->)%elem_of_sql_update. destruct (Hc r Hr) as [(r0 & H0 & Hs)|Ha];
      [left; exists r0; split; [done|]|right]; by destruct (p r).
Qed.

Lemma keeps_status code st db :
  justified db → String.eqb st "pending" = false → keeps_codes (update_pairing_status code st) db.
Proof.
  intros Hj Hst. unfold keeps_codes, update_pairing_status.
  destruct (rows_affected _ _), (PairingStatus.from_str_opt st); simpl;
    first [by apply keeps_relabel|by apply keeps_same].
Qed.

Lemma keeps_cleanup t db : justified db → keeps_codes (cleanup_expired_pairings t) db.
Proof. intros Hj. by apply keeps_relabel. Qed.

Lemma keeps_create_pairing row db :
  justified db → asked (row_identity row) → keeps_codes (create_pairing row) db.
Proof.
  intros Hj Ha. pose proof Hj as [Hu Hc]. unfold keeps_codes, create_pairing.
  destruct (existsb _ _); [by apply keeps_same|].
  destruct (PairingStatus.from_str_opt _); [|by apply keeps_same]. simpl.
  split; [split; simpl|].
  - intros u Hin. destruct (Hu u Hin) as [?|(r & Hr & ?)]; [by left|right]. exists r.
    split; [apply elem_of_app; by left|done].
  - intros r [Hr| ->%list_elem_of_singleton]%elem_of_app; [by apply Hc|by right].
  - intros r Hr. exists r. split; [simpl; apply elem_of_app; by left|done].
Qed.

Lemma keeps_create_user row r db :
  justified db → r ∈ tbl_pairings db → approves (PairingCodeRow.code r) →
  row_identity r = user_identity row → keeps_codes (create_user row) db.
Proof.
  intros Hj Hr Ha Hi. pose proof Hj as [Hu Hc]. unfold keeps_codes, create_user.
  destruct (existsb _ _); [by apply keeps_same|]. simpl.
  split; [split; simpl; [|done]|by intros x Hx; exists x].
  intros u [Hin| ->%list_elem_of_singleton]%elem_of_app; [by apply Hu|right; eauto].
Qed.

Lemma keeps_fewer_users db db' :
  justified db → tbl_pairings db' = tbl_pairings db → (∀ u, u ∈ tbl_users db' → u ∈ tbl_users db) →
  justified db' ∧ codes_kept db db'.
Proof.
  intros [Hu Hc] Hp Hus. split; [split|]; rewrite ?Hp; [intros u Hin; apply Hu; auto|done|].
  intros x Hx. exists x. by rewrite Hp.
Qed.

Lemma keeps_delete_user id db : justified db → keeps_codes (delete_user id) db.
Proof. intros Hj. apply keeps_fewer_users; [done..|]. intros u. simpl. by intros [? _]%elem_of_sql_delete. Qed.
Lemma keeps_delete_sessions id db : justified db → keeps_codes (delete_sessions_by_user id) db.
Proof. intros Hj. by apply keeps_fewer_users. Qed.

(** *** Methods *)

Context `{Ambient}.
Definition I (s : channel) : Prop := justified (db_of s).

Lemma safe_repo {A B} (m : ST ChannelDb DbError.t A) (f : A → prog channel ChannelError.t B) Q s0 :
  (∀ s, R s0 s → I s → keeps_codes m (db_of s) ∧
     match snd (m (db_of s)) with
     | Ok a => safe I R (f a) Q (set_db (fst (m (db_of s))) s)
     | Err e => ∀ s', R s0 s' → Q (Err (ChannelError.Database e)) s'
     end) →
  safe I R (bind (repo m) f) Q s0.
Proof.
  intros Hm. apply (safe_call I R). intros s HR HI. destruct (Hm s HR HI) as [[Hj Hk] Hf].
  unfold st_map_err, st_on. destruct (m (db_of s)) as [db' r]; simpl in *. split_and!; [done..|].
  destruct r as [a|e]; [done|]. intros s' HR' _. apply Hf. transitivity s; [done|].
  by transitivity (set_db db' s).
Qed.

Lemma safe_now {B} (f : TimestampMs → prog channel ChannelError.t B) Q s0 :
  (∀ t s, R s0 s → I s → safe I R (f t) Q s) → safe I R (bind now f) Q s0.
Proof.
  intros Hf. apply (safe_call I R). intros s HR HI. split_and!; [done|by intros r Hr; exists r|].
  apply (safe_mono I R _ _ s); [by intros r Hr; exists r|]. by apply Hf.
Qed.
Lemma safe_fresh {B} (f : string → prog channel ChannelError.t B) Q s0 :
  (∀ i s, R s0 s → I s → safe I R (f i) Q s) → safe I R (bind fresh_id f) Q s0.
Proof.
  intros Hf. apply (safe_call I R). intros s HR HI. split_and!; [done|by intros r Hr; exists r|].
  apply (safe_mono I R _ _ s); [by intros r Hr; exists r|]. by apply Hf.
Qed.

Lemma safe_repo_last {A} (m : ST ChannelDb DbError.t A) s0 :
  (∀ s, R s0 s → I s → keeps_codes m (db_of s)) → safe I R (repo m) (λ _ _, True) s0.
Proof.
  intros Hm s HR HI. destruct (Hm s HR HI) as [Hj Hk]. simpl. unfold st_map_err, st_on.
  destruct (m (db_of s)) as [db' r]; simpl in *. by split_and!.
Qed.
Lemma safe_repo_try {A B E} (m : ST ChannelDb DbError.t A)
    (f : result A ChannelError.t → prog channel E B) Q s0 :
  (∀ s, R s0 s → I s → keeps_codes m (db_of s)) →
  (∀ r s, R s0 s → I s → safe I R (f r) Q s) →
  safe I R (bind (attempt (repo m)) f) Q s0.
Proof.
  intros Hm Hf s HR HI. destruct (Hm s HR HI) as [Hj Hk]. simpl. unfold st_map_err, st_on.
  destruct (m (db_of s)) as [db' r]; simpl in *. split_and!; [done..|].
  apply Hf; [|done]. transitivity s; [done|]. exact Hk.
Qed.
Lemma safe_broadcast e s0 : safe I R (broadcast e) (λ _ _, True) s0.
Proof. intros s HR HI. simpl. split_and!; [done|by intros r Hr; exists r|done]. Qed.
#[local] Arguments safe : simpl never.
#[local] Arguments bind : simpl never.
#[local] Arguments repo : simpl never.
#[local] Arguments now : simpl never.
Lemma safe_finish {A B} (p : prog channel ChannelError.t A) (g : A → B) s0 :
  safe I R p (λ _ _, True) s0 → safe I R (await a := p in ret (g a)) (λ _ _, True) s0.
Proof. intros Hp. apply (safe_bind I R). eapply (safe_post I R); [|exact Hp]. by intros [] s _ _. Qed.

Lemma safe_get_valid code s0 :
  safe I R (get_valid_pending_pairing code) (λ r s,
    match r with
    | Ok row => PairingCodeRow.code row = code ∧ ∃ r', r' ∈ tbl_pairings (db_of s) ∧ same_code row r'
    | Err _ => True
    end) s0.
Proof.
  unfold get_valid_pending_pairing. apply safe_repo. intros s HR HI.
  split; [by apply keeps_read|]. simpl.
  destruct (List.find (is_code code) (tbl_pairings (db_of s))) as [row|] eqn:Hf; [|done].
  apply find_Some_elem in Hf as [Hin Hc]. apply String.eqb_eq in Hc.
  destruct (negb _); [done|]. apply safe_now. intros t s1 HR1 HI1.
  case_match.
  - apply safe_repo_try; [|done]. intros s2 _ HI2. by apply keeps_status.
  - apply (safe_ret I R). intros s2 HR2 _. split; [done|].
    destruct (HR1 row Hin) as (r1 & Hin1 & [Hc1 Hi1] & _).
    destruct (HR2 r1 Hin1) as (r2 & Hin2 & [Hc2 Hi2] & _).
    exists r2. split; [done|]. split; congruence.
Qed.

Lemma safe_expire pid ptype s0 : safe I R (expire_user_pending_codes pid ptype) (λ _ _, True) s0.
Proof.
  unfold expire_user_pending_codes. apply safe_repo. intros s HR HI.
  split; [by apply keeps_read|]. simpl. apply (safe_for_each I R _ _ (λ _, True)); [|done].
  intros row s1 _ _. destruct (is_of_user _ _ _).
  - eapply (safe_post I R); [|apply safe_repo_last; intros s2 _ HI2; by apply keeps_status]. by intros [].
  - by apply (safe_ret I R).
Qed.

Lemma safe_request bytes pid ptype name s0 :
  asked (pid, ptype) → safe I R (request_pairing bytes pid ptype name) (λ _ _, True) s0.
Proof.
  intros Ha. unfold request_pairing. apply (safe_bind I R). eapply (safe_post I R); [|apply safe_expire].
  intros [] s HI _; [|done]. destruct (generate_pairing_code bytes) as [code|e]; [|done].
  apply safe_now. intros t s1 _ _. apply safe_repo. intros s2 _ HI2.
  split; [by apply keeps_create_pairing|]. case_match; [|done]. apply safe_finish, safe_broadcast.
Qed.

Lemma safe_approve code s0 : approves code → safe I R (approve_pairing code) (λ _ _, True) s0.
Proof.
  intros Ha. unfold approve_pairing. apply (safe_bind I R). eapply (safe_post I R); [|apply safe_get_valid].
  intros [row|e] s _; [|done]. intros (Hc & r & Hr & Hs). subst code.
  apply safe_now. intros t s1 HR1 _. apply safe_fresh. intros user_id s2 HR2 _.
  apply safe_repo. intros s3 HR3 HI3. split.
  - destruct (HR1 r Hr) as (r1 & H1 & Hs1 & _). destruct (HR2 r1 H1) as (r2 & H2 & Hs2 & _).
    destruct (HR3 r2 H2) as (r3 & H3 & Hs3 & _). unfold same_code in *. destruct_and!.
    apply (keeps_create_user _ r3); [done|done| |].
    + by replace (PairingCodeRow.code r3) with (PairingCodeRow.code row) by congruence.
    + unfold user_identity. simpl. unfold row_identity in *. congruence.
  - case_match; [|done]. apply safe_repo. intros s4 _ HI4. split; [by apply keeps_status|].
    case_match; [|done]. apply safe_broadcast.
Qed.

Lemma safe_reject code s0 : safe I R (reject_pairing code) (λ _ _, True) s0.
Proof.
  unfold reject_pairing. apply (safe_bind I R). eapply (safe_post I R); [|apply safe_get_valid].
  intros [row|e] s _ _; [|done]. apply safe_repo_last. intros s1 _ HI1. by apply keeps_status.
Qed.

Lemma safe_handler r s0 :
  (∀ bytes pid ptype name, r = RequestPairing bytes pid ptype name → asked (pid, ptype)) →
  (∀ code, r = Approve code → approves code) →
  safe I R (handler r) (λ _ _, True) s0.
Proof.
  intros Hask Happ. destruct r as [bytes pid ptype name|code|code| |id]; unfold handler; apply safe_finish.
  - eapply safe_request. eauto.
  - eapply safe_approve. eauto.
  - apply safe_reject.
  - unfold cleanup_tick. apply safe_now. intros t s1 _ _. apply safe_repo_try; [|done].
    intros s2 _ HI2. by apply keeps_cleanup.
  - unfold revoke_user. apply safe_repo. intros s _ HI. split; [by apply keeps_delete_sessions|]. simpl.
    apply safe_repo_last. intros s1 _ HI1. by apply keeps_delete_user.
Qed.
End justified.
(** C8: whatever requests, approvals, rejections, revocations and cleanups run at the
    same time and however their steps interleave, a user is authorised only if the
    administrator approved a code that was made for this very user of this platform,
    by a request for them or before the start; and no code is made over to another
    user or becomes pending again. *)
Theorem only_approved_users `{Ambient} s es p :
  Pool.steps handler es (Pool.new s) = Some p →
  (∀ u, u ∈ tbl_users (db_of (Pool.shared p)) → u ∈ tbl_users (db_of s) ∨
     ∃ r, r ∈ tbl_pairings (db_of (Pool.shared p)) ∧ row_identity r = user_identity u ∧
       Pool.Begin (Approve (PairingCodeRow.code r)) ∈ es ∧
       ((∃ r0, r0 ∈ tbl_pairings (db_of s) ∧ same_code r0 r) ∨
        ∃ bytes name, Pool.Begin (RequestPairing bytes (user_identity u).1 (user_identity u).2 name) ∈ es)) ∧
  codes_kept (db_of s) (db_of (Pool.shared p)).
Proof.
  intros Hp.
  set (asked := λ i : string * string, ∃ bytes name, Pool.Begin (RequestPairing bytes i.1 i.2 name) ∈ es).
  set (approves := λ c, Pool.Begin (Approve c) ∈ es).
  destruct (Pool.pool_safe handler (I (db_of s) asked approves) R es s p) as [[Hu Hc] HR]; [|by apply just_refl|done|].
  { intros r s' Hr _. apply safe_handler; unfold asked, approves; [|by intros code ->].
    intros bytes pid ptype name ->. eauto. }
  split; [|done]. intros u Hin. destruct (Hu u Hin) as [?|(r & Hr & Ha & Hi)]; [by left|right].
  exists r. split_and!; [done..|]. rewrite <- Hi. by apply Hc.
Qed.

(* ------------------------------------------------------------------ *)
(** ** One call at a time *)

Section alone.
Context `{Ambient}.
Implicit Types s : channel.

Abbreviation users s := (tbl_users (db_of s)).
Abbreviation codes s := (tbl_pairings (db_of s)).
Abbreviation time_of s := (time_at (st_ticks (ch_store s))).

Lemma is_code_refl r : is_code (PairingCodeRow.code r) r = true.
Proof. apply String.eqb_refl. Qed.

Lemma code_exists code s row :
  List.find (is_code code) (codes s) = Some row → rows_affected (is_code code) (codes s) ≠ 0%nat.
Proof.
  intros [Hin Hc]%find_Some_elem Hz. rewrite rows_affected_zero in Hz. by rewrite (Hz _ Hin) in Hc.
Qed.

Lemma set_status_ok code st row s :
  List.find (is_code code) (codes s) = Some row → is_Some (PairingStatus.from_str_opt st) →
  update_pairing_status code st (db_of s) =
  (set_pairings (sql_update (is_code code) (PairingCodeRow.set_status st) (codes s)) (db_of s), Ok tt).
Proof.
  intros Hf [p Hp]. unfold update_pairing_status. pose proof (code_exists _ _ _ Hf).
  destruct (rows_affected _ _); [done|]. by rewrite Hp.
Qed.

(** What [approve_pairing] and [reject_pairing] go on from. *)
Lemma run_get_valid code s :
  run (get_valid_pending_pairing code) s =
  match List.find (is_code code) (codes s) with
  | None => (s, Err (ChannelError.PairingNotFound code))
  | Some row =>
      if negb (String.eqb (PairingCodeRow.status row) "pending")
      then (s, Err (ChannelError.PairingAlreadyProcessed code))
      else if PairingCodeRow.expires_at row <=? time_of s
      then (set_db (set_pairings (sql_update (is_code code) (PairingCodeRow.set_status "expired") (codes s))
                      (db_of s)) (ch_tick s), Err (ChannelError.PairingExpired code))
      else (ch_tick s, Ok row)
  end.
Proof.
  unfold get_valid_pending_pairing, get_pairing_by_code. rewrite run_read.
  destruct (List.find (is_code code) (codes s)) as [row|] eqn:Hf; [|done]. simpl PairingStatus.to_string.
  destruct (negb _); [done|]. rewrite run_now. destruct (_ <=? _); [|done].
  rewrite run_repo_try. simpl db_of. rewrite (set_status_ok _ _ row) by (done || by eexists). done.
Qed.

Lemma create_user_taken row s :
  user_identity row ∈ map user_identity (users s) →
  ∃ m, create_user row (db_of s) = (db_of s, Err (DbError.Conflict m)).
Proof.
  intros (u & Hi & Hu)%elem_of_map. unfold create_user. rewrite (proj2 (existsb_exists _ _)); [eauto|].
  exists u. split; [by apply list_elem_of_In|]. unfold user_identity in Hi. injection Hi as -> ->.
  unfold is_platform_user. by rewrite !String.eqb_refl, orb_true_r.
Qed.

Lemma create_user_new row s :
  user_identity row ∉ map user_identity (users s) →
  AssistantUserRow.id row ∉ map AssistantUserRow.id (users s) →
  create_user row (db_of s) = (set_users (users s ++ [row]) (db_of s), Ok tt).
Proof.
  intros Hi Hid. unfold create_user. destruct (existsb _ _) eqn:He; [|done].
  apply existsb_exists in He as (u & Hu & He). apply list_elem_of_In in Hu.
  apply orb_true_iff in He as [He|[H1 H2]%andb_true_iff].
  - apply String.eqb_eq in He. destruct Hid. apply elem_of_map. eauto.
  - apply String.eqb_eq in H1, H2. destruct Hi. apply elem_of_map. exists u. split; [|done].
    unfold user_identity. congruence.
Qed.

(** C9: approving a code, on every branch: an unknown or already processed code is
    refused without effect; a code whose time is over is marked as expired; a code of
    a user who is authorised already is refused and stays pending; any other code
    makes its user an authorised one, is marked as approved and announced. *)
Theorem approve_pairing_outcome code s :
  let run_it := run (approve_pairing code) s in
  match List.find (is_code code) (codes s) with
  | None => run_it = (s, Err (ChannelError.PairingNotFound code))
  | Some row =>
      (PairingCodeRow.status row ≠ "pending" →
         run_it = (s, Err (ChannelError.PairingAlreadyProcessed code))) ∧
      (PairingCodeRow.status row = "pending" → PairingCodeRow.expires_at row ≤ time_of s →
         ∃ s', run_it = (s', Err (ChannelError.PairingExpired code)) ∧ users s' = users s ∧
           codes s' = sql_update (is_code code) (PairingCodeRow.set_status "expired") (codes s)) ∧
      (PairingCodeRow.status row = "pending" → time_of s < PairingCodeRow.expires_at row →
         row_identity row ∈ map user_identity (users s) →
         ∃ s' m, run_it = (s', Err (ChannelError.Database (DbError.Conflict m))) ∧ db_of s' = db_of s) ∧
      (PairingCodeRow.status row = "pending" → time_of s < PairingCodeRow.expires_at row →
         row_identity row ∉ map user_identity (users s) →
         id_at (st_ids (ch_store s)) ∉ map AssistantUserRow.id (users s) →
         ∃ s' u, run_it = (s', Ok tt) ∧ users s' = users s ++ [u] ∧ user_identity u = row_identity row ∧
           AssistantUserRow.display_name u = PairingCodeRow.display_name row ∧
           codes s' = sql_update (is_code code) (PairingCodeRow.set_status "approved") (codes s) ∧
           tbl_sessions (db_of s') = tbl_sessions (db_of s) ∧
           ch_events s' = ch_events s ++ [WebSocketMessage.new "channel.user-authorized"
             (UserAuthorizedPayload (AssistantUserRow.id u) (row_identity row).1 (row_identity row).2
                (PairingCodeRow.display_name row))])
  end.
Proof.
  cbv zeta. unfold approve_pairing. rewrite run_bind. unfold st_bind. rewrite run_get_valid.
  destruct (List.find (is_code code) (codes s)) as [row|] eqn:Hf; [|done]. split; [|split; [|split]].
  - intros Hp%String.eqb_neq. by rewrite Hp.
  - intros -> Ht%Z.leb_le. rewrite Ht. simpl. by eexists.
  - intros -> Ht%Z.leb_gt Hi. rewrite Ht. simpl negb. cbv iota. rewrite run_now, run_fresh, run_repo.
    set (u := AssistantUserRow.mk _ _ _ _ _ _ _).
    destruct (create_user_taken u (ch_bump (ch_tick (ch_tick s))) Hi) as [m Hm].
    exists (ch_bump (ch_tick (ch_tick s))), m. by rewrite Hm.
  - intros -> Ht%Z.leb_gt Hi Hid. rewrite Ht. simpl negb. cbv iota. rewrite run_now, run_fresh, run_repo.
    set (u := AssistantUserRow.mk _ _ _ _ _ _ _).
    rewrite (create_user_new u (ch_bump (ch_tick (ch_tick s)))) by done.
    rewrite run_repo, (set_status_ok _ _ row) by (done || by eexists).
    by do 2 eexists.
Qed.

(** *** Requesting a code *)

Definition pending_of (pid ptype : string) (r : PairingCodeRow.t) : bool :=
  is_pending r && is_of_user pid ptype r.

(** The codes after the pending ones of a user have expired. *)
Definition expired_codes (pid ptype : string) (rows : list PairingCodeRow.t) : list PairingCodeRow.t :=
  sql_update (pending_of pid ptype) (PairingCodeRow.set_status "expired") rows.

Lemma expire_loop pid ptype l : ∀ s,
  (∀ r, r ∈ l → PairingCodeRow.code r ∈ map PairingCodeRow.code (codes s)) →
  run (for_each (λ row, if is_of_user pid ptype row
        then repo (update_pairing_status (PairingCodeRow.code row) "expired") else ret tt) l) s =
  (set_db (set_pairings (sql_update
     (λ r, existsb (λ x, is_of_user pid ptype x && is_code (PairingCodeRow.code x) r) l)
     (PairingCodeRow.set_status "expired") (codes s)) (db_of s)) s, Ok tt).
Proof.
  induction l as [|row l IH]; intros s Hl; simpl for_each.
  { simpl. f_equal. unfold sql_update. rewrite map_id. destruct s as [[[]]]; reflexivity. }
  assert (Hl' : ∀ s', map PairingCodeRow.code (codes s') = map PairingCodeRow.code (codes s) →
    ∀ r, r ∈ l → PairingCodeRow.code r ∈ map PairingCodeRow.code (codes s')).
  { intros s' -> r Hr. apply Hl. by right. }
  destruct (is_of_user pid ptype row) eqn:Hu.
  - destruct (proj1 (elem_of_map _ _ _) (Hl row ltac:(by left))) as (r0 & Hc0 & H0).
    destruct (List.find (is_code (PairingCodeRow.code row)) (codes s)) as [r1|] eqn:Hf.
    2:{ pose proof (proj1 (find_None_elem _ _) Hf r0 H0) as Hn. rewrite Hc0, is_code_refl in Hn. done. }
    rewrite run_repo, (set_status_ok _ _ r1) by (done || by eexists).
    rewrite IH by (apply Hl'; simpl; by apply map_sql_update).
    f_equal. apply (f_equal (λ rows, set_db (set_pairings rows (db_of s)) s)).
    etransitivity; [by apply sql_update_twice|]. apply sql_update_ext. intros r _. simpl. by rewrite Hu.
  - unfold ret. change (bind (Done (Ok tt)) ?f) with (f tt). cbv beta. rewrite IH by by apply Hl'.
    f_equal. apply (f_equal (λ rows, set_db (set_pairings rows (db_of s)) s)).
    apply sql_update_ext. intros r _. simpl. by rewrite Hu.
Qed.

Lemma expire_run pid ptype s :
  NoDup (map PairingCodeRow.code (codes s)) →
  run (expire_user_pending_codes pid ptype) s =
  (set_db (set_pairings (expired_codes pid ptype (codes s)) (db_of s)) s, Ok tt).
Proof.
  intros Hnd. unfold expire_user_pending_codes, SqliteChannelRepository.get_pending_pairings.
  rewrite run_read. simpl PairingStatus.to_string. set (l := order_by_desc _ _).
  assert (Hl : ∀ r, r ∈ l ↔ r ∈ codes s ∧ is_pending r = true).
  { intros r. unfold l. by rewrite elem_of_order_by_desc, elem_of_filter_list. }
  rewrite expire_loop.
  2:{ intros r [Hr _]%Hl. apply elem_of_map. eauto. }
  f_equal. apply (f_equal (λ rows, set_db (set_pairings rows (db_of s)) s)).
  apply sql_update_ext. intros r Hr.
  unfold pending_of.
  destruct (is_pending r && is_of_user pid ptype r) eqn:Hp.
  - apply andb_true_iff in Hp as [Hp Hu]. apply existsb_exists. exists r.
    rewrite <- list_elem_of_In, Hl, is_code_refl, Hu. done.
  - apply not_true_is_false. intros (x & Hx & [Hu Hc]%andb_true_iff)%existsb_exists.
    apply list_elem_of_In, Hl in Hx as [Hx Hxp]. apply String.eqb_eq in Hc.
    rewrite (key_unique _ _ _ _ Hnd Hr Hx Hc), Hxp, Hu in Hp. done.
Qed.

(** A request leaves the user with no other pending code: the earlier ones have
    expired, and the new one is pending for ten minutes, announced and returned.  When
    no random code can be made, or the code was given out before, the request fails
    and the user is left without a pending code.  Nothing else changes. *)
Lemma request_pairing_run bytes pid ptype name s :
  NoDup (map PairingCodeRow.code (codes s)) →
  let old := expired_codes pid ptype (codes s) in
  match generate_pairing_code bytes with
  | Err e => ∃ s', run (request_pairing bytes pid ptype name) s = (s', Err e) ∧
      db_of s' = set_pairings old (db_of s)
  | Ok code =>
      if bool_decide (code ∈ map PairingCodeRow.code (codes s))
      then ∃ s' m, run (request_pairing bytes pid ptype name) s =
             (s', Err (ChannelError.Database (DbError.Conflict m))) ∧ db_of s' = set_pairings old (db_of s)
      else let expires_at := time_of s + 600000 in
           let row := PairingCodeRow.mk code pid ptype name (time_of s) expires_at "pending" in
           ∃ s', run (request_pairing bytes pid ptype name) s = (s', Ok code) ∧
             db_of s' = set_pairings (old ++ [row]) (db_of s) ∧
             ch_events s' = ch_events s ++ [WebSocketMessage.new "channel.pairing-requested"
               (PairingRequestedPayload code pid ptype name expires_at)]
  end.
Proof.
  intros Hnd old. unfold request_pairing. rewrite run_bind. unfold st_bind. rewrite expire_run by done.
  fold old. destruct (generate_pairing_code bytes) as [code|e]; [|by eexists].
  set (s1 := set_db _ s). change (bind (Done (Ok code)) ?f) with (f code). cbv beta. rewrite run_now, run_repo.
  unfold create_pairing. simpl PairingCodeRow.code. simpl PairingCodeRow.status.
  assert (He : existsb (is_code code) (codes (ch_tick s1)) =
    bool_decide (code ∈ map PairingCodeRow.code (codes s))).
  { rewrite <- (map_sql_update PairingCodeRow.code (pending_of pid ptype)
      (PairingCodeRow.set_status "expired") (codes s)) by done.
    fold (expired_codes pid ptype (codes s)). fold old. change (codes (ch_tick s1)) with old.
    apply eq_bool_prop_intro. rewrite !Is_true_true, existsb_exists, bool_decide_eq_true, elem_of_map.
    unfold is_code. setoid_rewrite String.eqb_eq. setoid_rewrite <- list_elem_of_In. split; intros (x & ? & ?); eauto. }
  change (tbl_pairings (db_of (ch_tick s1))) with (codes (ch_tick s1)). rewrite He.
  destruct (bool_decide _); [by do 2 eexists|]. by eexists.
Qed.

(** *** One pending code at a time *)

(** Codes are distinct and no user has two pending ones. *)
Definition one_pending (rows : list PairingCodeRow.t) : Prop :=
  NoDup (map PairingCodeRow.code rows) ∧
  ∀ r r', r ∈ rows → r' ∈ rows → is_pending r = true → is_pending r' = true →
    row_identity r = row_identity r' → r = r'.

Lemma one_pending_relabel p st rows :
  String.eqb st "pending" = false → one_pending rows →
  one_pending (sql_update p (PairingCodeRow.set_status st) rows).
Proof.
  intros Hst [Hnd Hone]. split; [by rewrite map_sql_update|].
  assert (Hback : ∀ r, r ∈ sql_update p (PairingCodeRow.set_status st) rows → is_pending r = true → r ∈ rows).
  { intros r (x & Hx & ->)%elem_of_sql_update. destruct (p x); [|done]. unfold is_pending. simpl. by rewrite Hst. }
  intros r r' Hr Hr' Hp Hp'. apply Hone; auto.
Qed.

Lemma is_of_user_identity pid ptype r : is_of_user pid ptype r = true ↔ row_identity r = (pid, ptype).
Proof.
  unfold is_of_user, row_identity. rewrite andb_true_iff, !String.eqb_eq. split; [intros [-> ->]|intros [= -> ->]]; done.
Qed.

Lemma one_pending_new pid ptype row rows :
  one_pending rows → row_identity row = (pid, ptype) →
  PairingCodeRow.code row ∉ map PairingCodeRow.code rows →
  one_pending (expired_codes pid ptype rows ++ [row]).
Proof.
  intros Hone Hi Hc. destruct (one_pending_relabel (pending_of pid ptype) "expired" rows eq_refl Hone) as [Hnd Ho].
  assert (Hnone : ∀ r, r ∈ expired_codes pid ptype rows → is_pending r = true → row_identity r ≠ (pid, ptype)).
  { intros r (x & Hx & ->)%elem_of_sql_update. destruct (pending_of pid ptype x) eqn:Hp; [done|].
    intros Hpx Hix%is_of_user_identity. unfold pending_of in Hp. by rewrite Hpx, Hix in Hp. }
  split.
  - rewrite map_app. apply NoDup_app. split_and!; [done| |apply NoDup_singleton].
    intros c Hc' ->%list_elem_of_singleton. apply Hc. unfold expired_codes in Hc'. by rewrite map_sql_update in Hc'.
  - intros r r' [Hr| ->%list_elem_of_singleton]%elem_of_app [Hr'| ->%list_elem_of_singleton]%elem_of_app Hp Hp' Heq.
    + by apply Ho.
    + destruct (Hnone r Hr Hp). by rewrite Heq.
    + destruct (Hnone r' Hr' Hp'). by rewrite <- Heq.
    + done.
Qed.

Definition relabelled (rows rows' : list PairingCodeRow.t) : Prop :=
  rows' = rows ∨ ∃ p st, String.eqb st "pending" = false ∧
    rows' = sql_update p (PairingCodeRow.set_status st) rows.

Lemma relabelled_status code st s s' :
  String.eqb st "pending" = false → codes s' = codes s →
  relabelled (codes s) (codes (set_db (fst (update_pairing_status code st (db_of s'))) s')).
Proof.
  intros Hst Hs. unfold update_pairing_status, relabelled.
  destruct (rows_affected _ _), (PairingStatus.from_str_opt st); simpl; rewrite ?Hs; eauto.
Qed.

Lemma approve_relabels code s : relabelled (codes s) (codes (fst (run (approve_pairing code) s))).
Proof.
  unfold approve_pairing. rewrite run_bind. unfold st_bind. rewrite run_get_valid.
  destruct (List.find _ _) as [row|]; [|by left]. destruct (negb _); [by left|].
  destruct (_ <=? _); [by right; exists (is_code code), "expired"|]. rewrite run_now, run_fresh, run_repo.
  set (u := AssistantUserRow.mk _ _ _ _ _ _ _). unfold create_user. destruct (existsb _ _); [by left|].
  rewrite run_repo. set (s1 := set_db _ _).
  pose proof (relabelled_status code "approved" s s1 eq_refl eq_refl) as Hr.
  change (PairingStatus.to_string PairingStatus.Approved) with "approved".
  by destruct (update_pairing_status code "approved" (db_of s1)) as [db [[]|e]].
Qed.

Lemma reject_relabels code s : relabelled (codes s) (codes (fst (run (reject_pairing code) s))).
Proof.
  unfold reject_pairing. rewrite run_bind. unfold st_bind. rewrite run_get_valid.
  destruct (List.find _ _) as [row|]; [|by left]. destruct (negb _); [by left|].
  destruct (_ <=? _); [by right; exists (is_code code), "expired"|]. rewrite run_repo_last.
  by apply (relabelled_status code "rejected" s (ch_tick s)).
Qed.

Lemma run_ret_after {A B} (p : prog channel ChannelError.t A) (g : A → B) s :
  fst (run (await a := p in ret (g a)) s) = fst (run p s).
Proof. rewrite run_bind. unfold st_bind. by destruct (run p s) as [s' []]. Qed.

Lemma one_pending_request bytes pid ptype name s :
  one_pending (codes s) → one_pending (codes (fst (run (request_pairing bytes pid ptype name) s))).
Proof.
  intros Hone. pose proof (request_pairing_run bytes pid ptype name s (proj1 Hone)) as Ho. cbv zeta in Ho.
  assert (Hx : one_pending (expired_codes pid ptype (codes s))) by by apply one_pending_relabel.
  destruct (generate_pairing_code bytes) as [code|e]; [|destruct Ho as (s' & -> & Hs); cbn [fst]; by rewrite Hs].
  destruct (bool_decide _) eqn:Hc; [destruct Ho as (s' & m & -> & Hs); cbn [fst]; by rewrite Hs|].
  apply bool_decide_eq_false in Hc. destruct Ho as (s' & -> & Hs & _).
  cbn [fst]. rewrite Hs. by apply one_pending_new.
Qed.

Lemma one_pending_handler r s : one_pending (codes s) → one_pending (codes (fst (run (handler r) s))).
Proof.
  intros Hone. unfold handler.
  destruct r as [bytes pid ptype name|code|code| |id]; rewrite run_ret_after.
  - by apply one_pending_request.
  - destruct (approve_relabels code s) as [->|(p & st & Hst & ->)]; [done|by apply one_pending_relabel].
  - destruct (reject_relabels code s) as [->|(p & st & Hst & ->)]; [done|by apply one_pending_relabel].
  - unfold cleanup_tick. rewrite run_now, run_repo_try. by apply one_pending_relabel.
  - unfold revoke_user. rewrite run_repo. unfold delete_sessions_by_user. rewrite run_repo_last. done.
Qed.

(** Requests served one after another. *)
Fixpoint serve (rs : list request) (s : channel) : channel :=
  match rs with
  | [] => s
  | r :: rs' => serve rs' (fst (run (handler r) s))
  end.

Definition pending_codes (pid ptype : string) (s : channel) : list string :=
  map PairingCodeRow.code (List.filter (pending_of pid ptype) (codes s)).

(** As long as requests are served one after another a user never has two pending
    codes, whatever is asked, approved, rejected, revoked or cleaned up. *)
Lemma one_code_at_a_time rs s :
  one_pending (codes s) → ∀ pid ptype, (length (pending_codes pid ptype (serve rs s)) ≤ 1)%nat.
Proof.
  intros Hone. assert (Hs : one_pending (codes (serve rs s))).
  { revert s Hone. induction rs as [|r rs IH]; intros s Hone; simpl; [done|]. by apply IH, one_pending_handler. }
  intros pid ptype. unfold pending_codes. rewrite length_map. destruct Hs as [Hnd Ho].
  assert (Hf : NoDup (map PairingCodeRow.code (List.filter (pending_of pid ptype) (codes (serve rs s)))))
    by by apply NoDup_map_filter.
  destruct (List.filter _ _) as [|r1 [|r2 l]] eqn:He; simpl; [lia..|].
  assert (Hin : ∀ r, r ∈ r1 :: r2 :: l → r ∈ codes (serve rs s) ∧ pending_of pid ptype r = true).
  { intros r Hr. rewrite <- He in Hr. by apply elem_of_filter_list in Hr. }
  destruct (Hin r1 ltac:(by left)) as [H1 [P1 U1%is_of_user_identity]%andb_true_iff].
  destruct (Hin r2 ltac:(by right; left)) as [H2 [P2 U2%is_of_user_identity]%andb_true_iff].
  rewrite (Ho r1 r2 H1 H2 P1 P2) in Hf by congruence. simpl in Hf.
  apply NoDup_cons in Hf as [Hf _]. destruct Hf. by left.
Qed.
End alone.

(* ------------------------------------------------------------------ *)
(** ** Concrete runs *)

Section witnesses.
#[local] Existing Instance counting.

Definition no_channel : channel := mk_channel (mk_store (mk_channel_db [] [] [] [] []) 0 0) [].
Definition alice_asks : request := RequestPairing (Ok [93; 13; 0; 0]) "42" "telegram" (Some "Alice").
Definition alice_asks_again : request := RequestPairing (Ok [7; 0; 0; 0]) "42" "telegram" (Some "Alice").

Example code_of_3421 : generate_pairing_code (Ok [93; 13; 0; 0]) = Ok "003421".
Proof. by vm_compute. Qed.

(** Two messages of a stranger that are handled at the same time leave two pending
    codes: each request looks for earlier codes before the other has stored its own. *)
Definition overlap : list (Pool.event (Req:=request)) :=
  Pool.Begin alice_asks :: Pool.Begin alice_asks_again ::
  concat (repeat [Pool.Resume 0; Pool.Resume 1] 4).
Lemma overlapping_requests_leave_two_codes :
  ∃ p, Pool.steps handler overlap (Pool.new no_channel) = Some p ∧
    Pool.result_of 0 p = Some (Ok (Some "003421")) ∧ Pool.result_of 1 p = Some (Ok (Some "000007")) ∧
    pending_codes "42" "telegram" (Pool.shared p) = ["003421"; "000007"].
Proof.
  assert (H : (λ p, (Pool.result_of 0 p, Pool.result_of 1 p, pending_codes "42" "telegram" (Pool.shared p))) <$>
    Pool.steps handler overlap (Pool.new no_channel) =
    Some (Some (Ok (Some "003421")), Some (Ok (Some "000007")), ["003421"; "000007"])) by by vm_compute.
  destruct (Pool.steps handler overlap (Pool.new no_channel)) as [p|]; [|done].
  injection H as H0 H1 H2. by exists p.
Qed.

Definition approval : list (Pool.event (Req:=request)) :=
  Pool.Begin alice_asks :: repeat (Pool.Resume 0) 4 ++ Pool.Begin (Approve "003421") :: repeat (Pool.Resume 1) 7.

Lemma only_approved_users_witness :
  ∃ p u, Pool.steps handler approval (Pool.new no_channel) = Some p ∧ tbl_users (db_of (Pool.shared p)) = [u] ∧
    user_identity u = ("42", "telegram") ∧
    ∃ r, r ∈ tbl_pairings (db_of (Pool.shared p)) ∧ row_identity r = user_identity u ∧
      Pool.Begin (Approve (PairingCodeRow.code r)) ∈ approval.
Proof.
  assert (H : (λ p, map user_identity (tbl_users (db_of (Pool.shared p)))) <$>
    Pool.steps handler approval (Pool.new no_channel) = Some [("42", "telegram")]) by by vm_compute.
  destruct (Pool.steps handler approval (Pool.new no_channel)) as [p|] eqn:Hp; [|discriminate H].
  injection H as H. destruct (tbl_users (db_of (Pool.shared p))) as [|u [|]] eqn:Hu;
    [discriminate H| |discriminate H].
  assert (Hi : user_identity u = ("42", "telegram")) 
    by exact (f_equal (List.hd (EmptyString, EmptyString)) H).
  exists p, u. split; [reflexivity|]. split; [exact Hu|]. split; [exact Hi|].
  destruct (proj1 (only_approved_users no_channel approval p Hp) u) as [Hn|(r & Hr & Hri & Ha & _)].
  - rewrite Hu. by left.
  - destruct (proj1 (elem_of_nil _) Hn).
  - exists r. exact (conj Hr (conj Hri Ha)).
Defined.

Definition asked_once : channel := fst (run (handler alice_asks) no_channel).

Lemma approve_pairing_outcome_witness :
  ∃ s' u, run (approve_pairing "003421") asked_once = (s', Ok tt) ∧ tbl_users (db_of s') = [u] ∧
    user_identity u = ("42", "telegram").
Proof.
  pose proof (approve_pairing_outcome "003421" asked_once) as Ho. cbv zeta in Ho.
  destruct (List.find (is_code "003421") (tbl_pairings (db_of asked_once))) as [row|] eqn:Hf; [|by vm_compute in Hf].
  destruct Ho as (_ & _ & _ & Ho). vm_compute in Hf. injection Hf as <-.
  destruct Ho as (s' & u & Hr & Hu & Hi & _).
  - reflexivity.
  - by vm_compute.
  - apply not_elem_of_nil.
  - apply not_elem_of_nil.
  - by exists s', u.
Defined.

Lemma one_code_at_a_time_witness :
  pending_codes "42" "telegram" (serve [alice_asks; alice_asks_again] no_channel) = ["000007"] ∧
  (length (pending_codes "42" "telegram" (serve [alice_asks; alice_asks_again] no_channel)) ≤ 1)%nat.
Proof.
  split; [by vm_compute|]. apply (one_code_at_a_time [alice_asks; alice_asks_again] no_channel).
  split; [constructor|]. by intros r r' ?%elem_of_nil.
Defined.
End witnesses.
End PairingService.
