(* ===== verification/ChannelSession.v ===== *)
(** * ChannelSession: sessions, settings and the handling of incoming messages

    [SessionManager] ([session.rs]), [ChannelSettingsService] ([channel_settings.rs])
    and [ActionExecutor] ([action.rs]) of [chisl-channel]: what a message of a user
    does, from the authorisation check to a reply or a dispatch to the agent. *)

From S2P Require Import Prelude.
From S2P Require Import Text.
From S2P Require Import Threads.
From S2P Require Import Sql.
From S2P Require Import TeamTypes.
From S2P Require Import TeamRepo.
From S2P Require Import ChannelTypes.
From S2P Require Import ChannelRepo.
From S2P Require Import ChannelPairing.

Module SessionManager.
Import SqliteChannelRepository.
Section sessions.
Context `{Ambient}.
Abbreviation M := (prog channel ChannelError.t).

Definition new_session_row (id user_id chat_id agent_type : string) (workspace : option string)
    (t : TimestampMs) : AssistantSessionRow.t :=
  AssistantSessionRow.mk id user_id agent_type None workspace (Some chat_id) t t.

(* chisl-channel/src/session.rs:32-61 get_or_create_session *)
Definition get_or_create_session (user_id chat_id agent_type : string) (workspace : option string) :
    M AssistantSessionRow.t :=
  await t := now in
  await id := fresh_id in
  ChannelRepo.get_or_create_session user_id chat_id (new_session_row id user_id chat_id agent_type workspace t).

(* chisl-channel/src/session.rs:64-67 get_active_sessions *)
Definition get_active_sessions : M (list AssistantSessionRow.t) := repo get_all_sessions.

(* chisl-channel/src/session.rs:73-106 reset_session *)
Definition reset_session (user_id chat_id agent_type : string) (workspace : option string) :
    M AssistantSessionRow.t :=
  await_ repo (delete_session_by_user_chat user_id chat_id) in
  await t := now in
  await id := fresh_id in
  ChannelRepo.get_or_create_session user_id chat_id (new_session_row id user_id chat_id agent_type workspace t).

(* chisl-channel/src/session.rs:109-118 update_agent_type *)
Definition update_agent_type (session_id agent_type : string) : M unit :=
  await t := now in repo (update_session_agent_type t session_id agent_type).

(* chisl-channel/src/session.rs:123-127 cleanup_user_sessions *)
Definition cleanup_user_sessions (user_id : string) : M unit := repo (delete_sessions_by_user user_id).

Fixpoint clear_each (cleared_users : gset string) (sessions : list AssistantSessionRow.t) : M unit :=
  match sessions with
  | [] => ret tt
  | session :: sessions' =>
      let user_id := AssistantSessionRow.user_id session in
      if decide (user_id ∈ cleared_users) then clear_each cleared_users sessions'
      else
        await_ repo (delete_sessions_by_user user_id) in
        clear_each ({[user_id]} ∪ cleared_users) sessions'
  end.
(* chisl-channel/src/session.rs:133-143 clear_all_sessions *)
Definition clear_all_sessions : M unit :=
  await sessions := repo get_all_sessions in
  clear_each ∅ sessions.

(* chisl-channel/src/session.rs:146-148 get_session_by_id *)
Definition get_session_by_id (session_id : string) : M (option AssistantSessionRow.t) :=
  repo (get_session session_id).

(* chisl-channel/src/session.rs:154-165 bind_conversation *)
Definition bind_conversation (session_id conversation_id : string) : M unit :=
  await t := now in repo (update_session_conversation t session_id conversation_id).
End sessions.
End SessionManager.

(* ------------------------------------------------------------------ *)
(** ** Settings *)

(** [serde_json::from_str(text).unwrap_or_default()[key].as_str()]: the string under
    [key] when the text is a JSON object that has one. *)
Class PreferenceJson := { json_str : string → string → option string }.

Module ChannelSettingsService.
Section settings.
(** The values of [client_preferences]. *)
Context `{PreferenceJson} (get_by_key : string → option string).

(* chisl-channel/src/channel_settings.rs:27-30 ResolvedAgentConfig *)
Record ResolvedAgentConfig := mk_agent_config { agent_type : string; backend : option string }.
(* chisl-channel/src/channel_settings.rs:34-38 ResolvedModelConfig *)
Record ResolvedModelConfig := mk_model_config {
  provider_id : string; model : string; use_model : option string }.

(* chisl-channel/src/channel_settings.rs:116-118 agent_key *)
Definition agent_key (platform : PluginType.t) : string :=
  "assistant." +:+ PluginType.to_string platform +:+ ".agent".
(* chisl-channel/src/channel_settings.rs:120-122 model_key *)
Definition model_key (platform : PluginType.t) : string :=
  "assistant." +:+ PluginType.to_string platform +:+ ".defaultModel".

(* chisl-channel/src/channel_settings.rs:124-129 default_agent_config *)
Definition default_agent_config : ResolvedAgentConfig := mk_agent_config "aionrs" None.

(* chisl-channel/src/channel_settings.rs:135-146 backend_to_agent_type *)
Definition backend_to_agent_type (backend : string) : string :=
  if String.eqb backend "aionrs" || String.eqb backend "aion-cli" then "aionrs"
  else if String.eqb backend "openclaw-gateway" then "openclaw-gateway"
  else if String.eqb backend "nanobot" then "nanobot"
  else if String.eqb backend "remote" then "remote"
  else "acp".

(* chisl-channel/src/channel_settings.rs:52-84 get_agent_config *)
Definition get_agent_config (platform : PluginType.t) : ResolvedAgentConfig :=
  match get_by_key (agent_key platform) with
  | None => default_agent_config
  | Some value =>
      match json_str value "agent_type" with
      | Some at_ => mk_agent_config at_ (if String.eqb at_ "acp" then json_str value "backend" else None)
      | None =>
          let raw_backend := default "aionrs" (json_str value "backend") in
          let agent_type := backend_to_agent_type raw_backend in
          mk_agent_config agent_type (if String.eqb agent_type "acp" then Some raw_backend else None)
      end
  end.

(* chisl-channel/src/channel_settings.rs:89-113 get_model_config *)
Definition get_model_config (platform : PluginType.t) : option ResolvedModelConfig :=
  match get_by_key (model_key platform) with
  | None => None
  | Some value =>
      let provider_id := default EmptyString (json_str value "id") in
      let use_model := json_str value "use_model" in
      if String.eqb provider_id EmptyString && negb (bool_decide (is_Some use_model)) then None
      else Some (mk_model_config provider_id (default EmptyString use_model) use_model)
  end.
End settings.
End ChannelSettingsService.

(* ------------------------------------------------------------------ *)
(** ** Incoming messages *)

Module ActionExecutor.
(* chisl-channel/src/action.rs:19-31 MessageResult *)
Inductive MessageResult :=
| Action (response : ActionResponse.t)
| Dispatched (session_id : string) (conversation_id : option string)
| AlreadyProcessing.

(* chisl-channel/src/action.rs:457-489 build_pairing_response *)
Definition build_pairing_response (code : string) : ActionResponse.t :=
  ActionResponse.send
    ("Welcome! To use this bot, you need authorization." +:+ nl +:+ nl +:+
     "Your pairing code: *" +:+ code +:+ "*" +:+ nl +:+ nl +:+
     "Share this code with the admin, who can approve it in Settings → Channel → Pairing Requests." +:+ nl +:+
     "The code expires in 10 minutes.")
    (Some [[ActionButton.plain "Refresh Code" "pairing.refresh";
            ActionButton.plain "Check Status" "pairing.check";
            ActionButton.plain "Help" "pairing.help"]]).

(* chisl-channel/src/action.rs:491-535 build_help_response *)
Definition build_help_response : ActionResponse.t :=
  ActionResponse.send
    ("How can I help?" +:+ nl +:+ "Choose an option below or just send me a message.")
    (Some [[ActionButton.plain "New Session" "session.new";
            ActionButton.plain "Session Status" "session.status"];
           [ActionButton.plain "Features" "help.features"; ActionButton.plain "Tips" "help.tips"];
           [ActionButton.plain "Switch Agent" "agent.show"]]).

(* chisl-channel/src/action.rs:537-547 build_unknown_action_response *)
Definition build_unknown_action_response (action : string) : ActionResponse.t :=
  ActionResponse.send ("Unknown action: " +:+ action) None.

(** [&session.id[..8]]: identifiers are UUIDs of 36 ASCII characters. *)
Definition short_id (id : string) : string := String.substring 0 8 id.

Section executor.
Context `{Ambient} `{PreferenceJson} (prefs : string → option string) (default_agent_type : string).
Abbreviation M := (prog channel ChannelError.t).
Abbreviation agent_type_of platform :=
  (ChannelSettingsService.agent_type (ChannelSettingsService.get_agent_config prefs platform)).

(** The random bytes of the code a handler may have to make. *)
Context (bytes : result (list Z) string).

(* chisl-channel/src/action.rs:115-133 handle_unauthorized *)
Definition handle_unauthorized (platform_user_id platform_type display_name : string) : M ActionResponse.t :=
  await code := PairingService.request_pairing bytes platform_user_id platform_type (Some display_name) in
  ret (build_pairing_response code).

(* chisl-channel/src/action.rs:150-218 handle_platform_action *)
Definition handle_platform_action (action : UnifiedAction.t) : M ActionResponse.t :=
  let name := UnifiedAction.action action in
  let context := UnifiedAction.context action in
  let user_id := ActionContext.user_id context in
  let platform := PluginType.to_string (ActionContext.platform context) in
  if String.eqb name "pairing.show" || String.eqb name "pairing.refresh" then
    await code := PairingService.request_pairing bytes user_id platform None in
    ret (build_pairing_response code)
  else if String.eqb name "pairing.check" then
    await authorized := PairingService.is_user_authorized user_id platform in
    ret (if authorized : bool
         then ActionResponse.send "You are authorized! Send a message to start chatting." None
         else ActionResponse.send
           "Still waiting for approval. Ask the admin to check Settings → Channel."
           (Some [[ActionButton.plain "Refresh" "pairing.refresh";
                   ActionButton.plain "Check Again" "pairing.check"]]))
  else if String.eqb name "pairing.help" then
    ret (ActionResponse.send
      ("To use this bot, you need authorization:" +:+ nl +:+
       "1. Send any message to get a 6-digit pairing code" +:+ nl +:+
       "2. Share this code with the admin" +:+ nl +:+
       "3. Admin approves in Settings → Channel" +:+ nl +:+
       "4. You're ready to chat!") None)
  else ret (build_unknown_action_response name).

Definition agent_button (label agent_type : string) : ActionButton.t :=
  ActionButton.mk label "agent.select" (Some {["agentType" := agent_type]}).

(* chisl-channel/src/action.rs:222-393 handle_system_action *)
Definition handle_system_action (action : UnifiedAction.t) (internal_user_id : string) : M ActionResponse.t :=
  let name := UnifiedAction.action action in
  let chat_id := ActionContext.chat_id (UnifiedAction.context action) in
  let platform := ActionContext.platform (UnifiedAction.context action) in
  if String.eqb name "session.new" then
    await session := SessionManager.reset_session internal_user_id chat_id (agent_type_of platform) None in
    ret (ActionResponse.send
      ("New session created." +:+ nl +:+ "Agent: " +:+ AssistantSessionRow.agent_type session +:+ nl +:+
       "Session: " +:+ short_id (AssistantSessionRow.id session))
      (Some [[ActionButton.plain "Help" "help.show"]]))
  else if String.eqb name "session.status" then
    await session := SessionManager.get_or_create_session internal_user_id chat_id (agent_type_of platform) None in
    ret (ActionResponse.send
      ("Session: " +:+ short_id (AssistantSessionRow.id session) +:+ nl +:+
       "Agent: " +:+ AssistantSessionRow.agent_type session +:+ nl +:+
       "Created: " +:+ show_i64 (AssistantSessionRow.created_at session) +:+ nl +:+
       "Last active: " +:+ show_i64 (AssistantSessionRow.last_activity session))
      (Some [[ActionButton.plain "New Session" "session.new"]]))
  else if String.eqb name "help.show" then ret build_help_response
  else if String.eqb name "help.features" then
    ret (ActionResponse.send
      ("Features:" +:+ nl +:+ "• AI chat with multiple backends" +:+ nl +:+
       "• Tool execution with auto-approval" +:+ nl +:+ "• Session isolation per chat" +:+ nl +:+
       "• Agent switching") None)
  else if String.eqb name "help.pairing" then
    ret (ActionResponse.send
      ("Pairing:" +:+ nl +:+
       "Send any message → get a 6-digit code → admin approves → you're in!") None)
  else if String.eqb name "help.tips" then
    ret (ActionResponse.send
      ("Tips:" +:+ nl +:+ "• Start a new session to clear context" +:+ nl +:+
       "• Use /help to see available commands" +:+ nl +:+
       "• In group chats, @mention the bot") None)
  else if String.eqb name "settings.show" then
    ret (ActionResponse.send
      ("Settings are managed in the desktop app." +:+ nl +:+
       "Go to Settings → Channel to configure plugins and manage users.") None)
  else if String.eqb name "agent.show" then
    ret (ActionResponse.send "Available agents:"
      (Some [[agent_button "Gemini" "gemini"; agent_button "ACP" "acp"]]))
  else if String.eqb name "agent.select" then
    let agent_type := default default_agent_type
      (match UnifiedAction.params action with Some p => p !! "agentType" | None => None end) in
    await session := SessionManager.get_or_create_session internal_user_id chat_id agent_type None in
    await_ SessionManager.update_agent_type (AssistantSessionRow.id session) agent_type in
    ret (ActionResponse.mk (Some ("Agent switched to: " +:+ agent_type)) None None None ActionBehavior.Send
      (Some ("Switched to " +:+ agent_type)) None)
  else ret (build_unknown_action_response name).

(** The call id and value of a confirmation are only logged. *)
(* chisl-channel/src/action.rs:397-452 handle_chat_action *)
Definition handle_chat_action (action : UnifiedAction.t) : M ActionResponse.t :=
  let name := UnifiedAction.action action in
  if bool_decide (name ∈ ["chat.send"; "chat.regenerate"; "chat.continue"])
  then ret (ActionResponse.only_toast ActionBehavior.Send "Processing...")
  else if String.eqb name "action.copy"
  then ret (ActionResponse.only_toast ActionBehavior.Answer "Copied to clipboard")
  else if String.eqb name "system.confirm"
  then ret (ActionResponse.only_toast ActionBehavior.Answer "Confirmed")
  else ret (build_unknown_action_response name).

(* chisl-channel/src/action.rs:136-146 route_action *)
Definition route_action (action : UnifiedAction.t) (internal_user_id : string) : M ActionResponse.t :=
  match UnifiedAction.category action with
  | ActionCategory.Platform => handle_platform_action action
  | ActionCategory.System => handle_system_action action internal_user_id
  | ActionCategory.Chat => handle_chat_action action
  end.

(* chisl-channel/src/action.rs:68-111 handle_incoming_message *)
Definition handle_incoming_message (msg : UnifiedIncomingMessage.t) : M MessageResult :=
  let platform_type := PluginType.to_string (UnifiedIncomingMessage.platform msg) in
  let user_id := UnifiedUser.id (UnifiedIncomingMessage.user msg) in
  let chat_id := UnifiedIncomingMessage.chat_id msg in
  await internal_user_id := PairingService.get_internal_user_id user_id platform_type in
  match internal_user_id with
  | None =>
      await response := handle_unauthorized user_id platform_type
        (UnifiedUser.display_name (UnifiedIncomingMessage.user msg)) in
      ret (Action response)
  | Some internal_user_id =>
      match UnifiedIncomingMessage.action msg with
      | Some action =>
          await response := route_action action internal_user_id in
          ret (Action response)
      | None =>
          await session := SessionManager.get_or_create_session internal_user_id chat_id
            (agent_type_of (UnifiedIncomingMessage.platform msg)) None in
          ret (Dispatched (AssistantSessionRow.id session) (AssistantSessionRow.conversation_id session))
      end
  end.
End executor.
End ActionExecutor.

(* ------------------------------------------------------------------ *)
(** ** Sessions of a chat *)

Section session_facts.
Context `{Ambient}.
Import SqliteChannelRepository.
Implicit Types s : channel.
Abbreviation sessions s := (tbl_sessions (db_of s)).
Abbreviation users s := (tbl_users (db_of s)).
Abbreviation time_of s := (time_at (st_ticks (ch_store s))).
Abbreviation next_id s := (id_at (st_ids (ch_store s))).

(** Session ids are distinct, no two sessions are for the same user and chat, and
    every session belongs to a user. *)
Record sessions_ok (db : ChannelDb) : Prop := {
  so_ids : NoDup (map AssistantSessionRow.id (tbl_sessions db));
  so_chats r r' : r ∈ tbl_sessions db → r' ∈ tbl_sessions db → is_Some (AssistantSessionRow.chat_id r) →
    AssistantSessionRow.user_id r = AssistantSessionRow.user_id r' →
    AssistantSessionRow.chat_id r = AssistantSessionRow.chat_id r' → r = r' }.

(** The identifier the generator gives next is not used. *)
Definition id_unused s : Prop := next_id s ∉ map AssistantSessionRow.id (sessions s).

(** What [get_or_create_session] does when nothing interferes: the session of the chat
    is returned with its activity touched; otherwise a new one is stored, for a user
    who exists. *)
Lemma get_or_create_run user_id chat_id agent_type ws s :
  id_unused s →
  let found := List.find (in_chat user_id chat_id) (sessions s) in
  let m := run (SessionManager.get_or_create_session user_id chat_id agent_type ws) s in
  match found with
  | Some r => ∃ s' t, m = (s', Ok (touch None None t r)) ∧ st_ids (ch_store s') = S (st_ids (ch_store s)) ∧
      db_of s' = set_sessions (sql_update (is_session (AssistantSessionRow.id r)) (touch None None t) (sessions s)) (db_of s)
  | None =>
      let r := SessionManager.new_session_row (next_id s) user_id chat_id agent_type ws (time_of s) in
      if existsb (is_user user_id) (users s)
      then ∃ s', m = (s', Ok r) ∧ st_ids (ch_store s') = S (st_ids (ch_store s)) ∧
             db_of s' = set_sessions (sessions s ++ [r]) (db_of s)
      else ∃ s', m = (s', Err (ChannelError.Database fk_violation)) ∧ db_of s' = db_of s
  end.
Proof.
  intros Hid. cbv zeta. unfold SessionManager.get_or_create_session, get_or_create_session, find_session.
  rewrite run_now, run_fresh, run_read. change (sessions (ch_bump (ch_tick s))) with (sessions s).
  destruct (List.find _ _) as [r|] eqn:Hf.
  - rewrite run_now, run_repo. unfold touch_session. by do 2 eexists.
  - rewrite run_repo. unfold insert_session. simpl AssistantSessionRow.id. simpl AssistantSessionRow.user_id.
    simpl AssistantSessionRow.conversation_id. rewrite orb_false_r.
    assert (existsb (is_session (next_id s)) (sessions s) = false) as Hn.
    { apply not_true_is_false. intros (r & Hr & Hi)%existsb_exists. apply String.eqb_eq in Hi.
      apply Hid, elem_of_map. exists r. by rewrite list_elem_of_In. }
    change (tbl_sessions (db_of (ch_bump (ch_tick s)))) with (sessions s).
    change (st_ids (ch_store (ch_tick s))) with (st_ids (ch_store s)). rewrite Hn.
    change (tbl_users (db_of (ch_bump (ch_tick s)))) with (users s).
    destruct (existsb _ (users s)); [by eexists|]. simpl negb. cbv iota. by eexists.
Qed.

Lemma in_chat_spec user_id chat_id r :
  in_chat user_id chat_id r = true ↔
  AssistantSessionRow.user_id r = user_id ∧ AssistantSessionRow.chat_id r = Some chat_id.
Proof. unfold in_chat. by rewrite andb_true_iff, String.eqb_eq, bool_decide_eq_true. Qed.

Lemma ok_touch p t db :
  sessions_ok db → sessions_ok (set_sessions (sql_update p (touch None None t) (tbl_sessions db)) db).
Proof.
  intros [Hi Hc]. split; simpl; [by rewrite map_sql_update|].
  intros r r' (x & Hx & ->)%elem_of_sql_update (y & Hy & ->)%elem_of_sql_update Hch Hu Hcc.
  assert (x = y) as ->; [|done]. apply Hc; [done|done|..]; by destruct (p x), (p y).
Qed.

Lemma sessions_ok_new r db :
  sessions_ok db → AssistantSessionRow.id r ∉ map AssistantSessionRow.id (tbl_sessions db) →
  (∀ x, x ∈ tbl_sessions db → AssistantSessionRow.user_id x = AssistantSessionRow.user_id r →
     AssistantSessionRow.chat_id x ≠ AssistantSessionRow.chat_id r) →
  sessions_ok (set_sessions (tbl_sessions db ++ [r]) db).
Proof.
  intros [Hi Hc] Hid Hnew. split; simpl.
  - rewrite map_app. apply NoDup_app. split_and!; [done| |apply NoDup_singleton].
    by intros x Hx ->%list_elem_of_singleton.
  - intros x y [Hx| ->%list_elem_of_singleton]%elem_of_app [Hy| ->%list_elem_of_singleton]%elem_of_app Hs Hu Hcc.
    + by apply Hc.
    + by destruct (Hnew x Hx Hu).
    + destruct (Hnew y Hy); congruence.
    + done.
Qed.

Lemma ok_delete p db : sessions_ok db → sessions_ok (set_sessions (sql_delete p (tbl_sessions db)) db).
Proof.
  intros [Hi Hc]. split; simpl; [by apply NoDup_sql_delete|].
  intros r r' [Hr _]%elem_of_sql_delete [Hr' _]%elem_of_sql_delete. by apply Hc.
Qed.

(** The generator does not repeat an identifier of the table. *)
Definition ids_fresh s : Prop :=
  ∀ n, (st_ids (ch_store s) ≤ n)%nat → id_at n ∉ map AssistantSessionRow.id (sessions s).

Lemma ids_fresh_unused s : ids_fresh s → id_unused s.
Proof. intros Hf. by apply Hf. Qed.

Lemma ids_fresh_next s s' :
  ids_fresh s → st_ids (ch_store s') = S (st_ids (ch_store s)) →
  (∀ x, x ∈ map AssistantSessionRow.id (sessions s') →
     x ∈ map AssistantSessionRow.id (sessions s) ∨ x = next_id s) → ids_fresh s'.
Proof.
  intros Hf Hn Hx n Hle. rewrite Hn in Hle. intros [Hin|Heq]%Hx; [apply (Hf n); [lia|done]|].
  apply (inj id_at) in Heq. lia.
Qed.

Lemma find_in_chat user_id chat_id r s :
  sessions_ok (db_of s) → r ∈ sessions s → in_chat user_id chat_id r = true →
  List.find (in_chat user_id chat_id) (sessions s) = Some r.
Proof.
  intros [_ Hc] Hr Hin. destruct (List.find _ _) as [x|] eqn:Hf.
  - apply find_Some_elem in Hf as [Hx Hxc]. f_equal. apply in_chat_spec in Hin as [Hu Hch], Hxc as [Hxu Hxc].
    apply Hc; [done|done|rewrite Hxc; eauto|congruence|congruence].
  - rewrite find_None_elem in Hf. specialize (Hf r Hr). congruence.
Qed.

(** One resolution of the session of a chat. *)
Lemma get_or_create_step user_id chat_id agent_type ws s :
  sessions_ok (db_of s) → ids_fresh s → existsb (is_user user_id) (users s) = true →
  ∃ s' r, run (SessionManager.get_or_create_session user_id chat_id agent_type ws) s = (s', Ok r) ∧
    sessions_ok (db_of s') ∧ ids_fresh s' ∧ users s' = users s ∧ r ∈ sessions s' ∧
    in_chat user_id chat_id r = true ∧
    (∀ x, in_chat user_id chat_id x = false → x ∈ sessions s → x ∈ sessions s') ∧
    match List.find (in_chat user_id chat_id) (sessions s) with
    | Some r0 => ∃ t, r = touch None None t r0
    | None => AssistantSessionRow.agent_type r = agent_type ∧ AssistantSessionRow.conversation_id r = None ∧
              AssistantSessionRow.id r = next_id s
    end.
Proof.
  intros Hok Hfr Hu.
  pose proof (get_or_create_run user_id chat_id agent_type ws s (ids_fresh_unused s Hfr)) as Hrun. cbv zeta in Hrun.
  destruct (List.find _ _) as [r|] eqn:Hf.
  - pose proof (find_Some_elem _ _ _ Hf) as [Hr Hin]. destruct Hrun as (s' & t & Hrun & Hn & Hdb).
    exists s', (touch None None t r). split; [done|].
    split; [rewrite Hdb; by apply ok_touch|]. split; [|rewrite Hdb; split_and!; [done| |done| |eauto]].
    + apply (ids_fresh_next s); [done|done|]. rewrite Hdb. simpl. rewrite map_sql_update by done. by left.
    + simpl. apply elem_of_sql_update. exists r. unfold is_session. by rewrite String.eqb_refl.
    + intros x Hx Hxs. simpl. apply elem_of_sql_update. exists x. split; [done|].
      unfold is_session. destruct (String.eqb_spec (AssistantSessionRow.id x) (AssistantSessionRow.id r)) as [He|]; [|done].
      rewrite (key_unique _ _ _ _ (so_ids _ Hok) Hxs Hr He) in Hx. congruence.
  - rewrite Hu in Hrun. destruct Hrun as (s' & Hrun & Hn & Hdb).
    set (r := SessionManager.new_session_row _ _ _ _ _ _) in *. exists s', r. split; [done|].
    split; [|split; [|rewrite Hdb; split_and!; [done| | | |done..]]].
    + rewrite Hdb. apply sessions_ok_new; [done|by apply Hfr|]. intros x Hx Hxu Hxc. rewrite find_None_elem in Hf.
      specialize (Hf x Hx). rewrite (proj2 (in_chat_spec _ _ _)) in Hf; [done|]. by split.
    + apply (ids_fresh_next s); [done|done|]. rewrite Hdb. simpl. intros x.
      rewrite map_app, elem_of_app. intros [?| ->%list_elem_of_singleton]; [by left|by right].
    + simpl. apply elem_of_app. right. by left.
    + by apply in_chat_spec.
    + intros x _ Hx. simpl. apply elem_of_app. by left.
Qed.

Lemma reset_run user_id chat_id agent_type ws s :
  run (SessionManager.reset_session user_id chat_id agent_type ws) s =
  run (SessionManager.get_or_create_session user_id chat_id agent_type ws)
    (set_db (set_sessions (sql_delete (in_chat user_id chat_id) (sessions s)) (db_of s)) s).
Proof. unfold SessionManager.reset_session. by rewrite run_repo. Qed.

Lemma no_session_left user_id chat_id rows :
  List.find (in_chat user_id chat_id) (sql_delete (in_chat user_id chat_id) rows) = None.
Proof. apply find_None_elem. by intros r [_ ?]%elem_of_sql_delete. Qed.

(** A chat of an authorised user has one session.  Resolving it gives a session of
    this user and chat and disturbs no other; resolving it again, whatever agent is
    asked for, gives the same session with its agent and conversation; resetting it
    removes that session and gives a new one without a conversation. *)
Lemma session_of_chat user_id chat_id agent_type ws s :
  sessions_ok (db_of s) → ids_fresh s → existsb (is_user user_id) (users s) = true →
  ∃ s1 r1, run (SessionManager.get_or_create_session user_id chat_id agent_type ws) s = (s1, Ok r1) ∧
    sessions_ok (db_of s1) ∧ in_chat user_id chat_id r1 = true ∧
    (∀ x, in_chat user_id chat_id x = false → x ∈ sessions s → x ∈ sessions s1) ∧
    ∀ agent_type' ws',
      (∃ s2 t, run (SessionManager.get_or_create_session user_id chat_id agent_type' ws') s1 =
                 (s2, Ok (touch None None t r1))) ∧
      (∃ s3 r3, run (SessionManager.reset_session user_id chat_id agent_type' ws') s1 = (s3, Ok r3) ∧
         sessions_ok (db_of s3) ∧ in_chat user_id chat_id r3 = true ∧
         AssistantSessionRow.conversation_id r3 = None ∧ AssistantSessionRow.agent_type r3 = agent_type' ∧
         AssistantSessionRow.id r3 ≠ AssistantSessionRow.id r1 ∧
         List.find (in_chat user_id chat_id) (sessions s3) = Some r3).
Proof.
  intros Hok Hfr Hu.
  destruct (get_or_create_step user_id chat_id agent_type ws s Hok Hfr Hu)
    as (s1 & r1 & Hrun & Hok1 & Hfr1 & Hu1 & Hr1 & Hc1 & Hoth & _).
  exists s1, r1. split_and!; [done..|]. intros agent_type' ws'. rewrite <- Hu1 in Hu. split.
  - destruct (get_or_create_step user_id chat_id agent_type' ws' s1 Hok1 Hfr1 Hu)
      as (s2 & r2 & Hrun2 & _ & _ & _ & _ & _ & _ & Hr2).
    rewrite (find_in_chat _ _ _ _ Hok1 Hr1 Hc1) in Hr2. destruct Hr2 as [t ->]. by exists s2, t.
  - rewrite reset_run. set (s' := set_db _ s1).
    destruct (get_or_create_step user_id chat_id agent_type' ws' s')
      as (s3 & r3 & Hrun3 & Hok3 & _ & _ & Hr3 & Hc3 & _ & Hnew).
    + by apply ok_delete.
    + intros n Hn (x & Hx & [Hin _]%elem_of_sql_delete)%elem_of_map. apply (Hfr1 n Hn), elem_of_map. eauto.
    + done.
    + change (sessions s') with (sql_delete (in_chat user_id chat_id) (sessions s1)) in Hnew.
      rewrite no_session_left in Hnew. destruct Hnew as (Ha & Hcv & Hi).
      exists s3, r3. split_and!; [done..| |by apply find_in_chat]. rewrite Hi. intros Heq.
      apply (Hfr1 _ (le_n _)). change (next_id s') with (next_id s1) in Heq. rewrite Heq. apply elem_of_map. eauto.
Qed.

(* ------------------------------------------------------------------ *)
(** ** Strangers *)

(** C10: a message of somebody who is not authorised, whatever text or action it
    carries, is answered with a fresh pairing code, stored as pending for the sender; it
    fails when no code can be drawn, or when the code drawn is in the table already.
    In every case it is not dispatched to the agent, no user, session, plugin or
    conversation is created or changed, and codes of other users stay as they are. *)
Theorem strangers_only_get_codes `{PreferenceJson} prefs agent bytes msg s :
  let pid := UnifiedUser.id (UnifiedIncomingMessage.user msg) in
  let ptype := PluginType.to_string (UnifiedIncomingMessage.platform msg) in
  NoDup (map PairingCodeRow.code (tbl_pairings (db_of s))) →
  existsb (is_platform_user pid ptype) (users s) = false →
  ∃ s' r, run (ActionExecutor.handle_incoming_message prefs agent bytes msg) s = (s', r) ∧
    users s' = users s ∧ sessions s' = sessions s ∧
    tbl_plugins (db_of s') = tbl_plugins (db_of s) ∧
    conversation_ids (db_of s') = conversation_ids (db_of s) ∧
    (∀ x, PairingService.is_of_user pid ptype x = false →
       x ∈ tbl_pairings (db_of s') ↔ x ∈ tbl_pairings (db_of s)) ∧
    match generate_pairing_code bytes with
    | Err e => r = Err e
    | Ok code =>
        if bool_decide (code ∈ map PairingCodeRow.code (tbl_pairings (db_of s)))
        then ∃ m, r = Err (ChannelError.Database (DbError.Conflict m))
        else r = Ok (ActionExecutor.Action (ActionExecutor.build_pairing_response code)) ∧
             ∃ x, x ∈ tbl_pairings (db_of s') ∧ PairingCodeRow.code x = code ∧
               PairingService.is_of_user pid ptype x = true ∧ PairingCodeRow.status x = "pending"
    end.
Proof.
  intros pid ptype Hnd Hno. unfold ActionExecutor.handle_incoming_message, PairingService.get_internal_user_id.
  fold pid ptype. unfold get_user_by_platform.
  assert (Hf : List.find (is_platform_user pid ptype) (users s) = None).
  { apply find_None_elem. intros u Hu. apply not_true_is_false. intros Ht.
    assert (existsb (is_platform_user pid ptype) (users s) = true); [|congruence].
    apply existsb_exists. exists u. by rewrite <- list_elem_of_In. }
  assert (Hold : ∀ x, PairingService.is_of_user pid ptype x = false →
    x ∈ PairingService.expired_codes pid ptype (tbl_pairings (db_of s)) ↔ x ∈ tbl_pairings (db_of s)).
  { intros x Hx. unfold PairingService.expired_codes. rewrite elem_of_sql_update. split.
    - intros (y & Hy & ->). destruct (PairingService.pending_of pid ptype y) eqn:Hp; [|done].
      unfold PairingService.pending_of in Hp. apply andb_true_iff in Hp as [_ Hp]. unfold PairingService.is_of_user in *.
      simpl in Hx. congruence.
    - intros Hin. exists x. unfold PairingService.pending_of. by rewrite Hx, andb_false_r. }
  rewrite run_bind. unfold st_bind at 1. rewrite run_read, Hf. simpl run at 1. cbv iota.
  unfold ActionExecutor.handle_unauthorized. rewrite !run_bind. unfold st_bind.
  rewrite run_bind. unfold st_bind.
  pose proof (PairingService.request_pairing_run bytes pid ptype
    (Some (UnifiedUser.display_name (UnifiedIncomingMessage.user msg))) s Hnd) as Hr. cbv zeta in Hr.
  destruct (generate_pairing_code bytes) as [code|e].
  - destruct (bool_decide _).
    + destruct Hr as (s' & m & -> & Hdb). do 2 eexists. split; [done|]. rewrite Hdb.
      split_and!; [done..|exact Hold|by eexists].
    + destruct Hr as (s' & -> & Hdb & _). do 2 eexists. split; [done|]. rewrite Hdb.
      split_and!; [done..| |done|].
      * intros x Hx. simpl. rewrite elem_of_app, Hold by done. split; [|by left].
        intros [?| ->%list_elem_of_singleton]; [done|]. unfold PairingService.is_of_user in Hx. simpl in Hx.
        by rewrite !String.eqb_refl in Hx.
      * eexists. split; [apply elem_of_app; right; by apply list_elem_of_singleton|].
        split_and!; [done| |done]. unfold PairingService.is_of_user. simpl. by rewrite !String.eqb_refl.
  - destruct Hr as (s' & -> & Hdb). do 2 eexists. split; [done|]. rewrite Hdb. by split_and!; [..|exact Hold|].
Qed.
End session_facts.

(* ------------------------------------------------------------------ *)
(** ** Concrete runs *)

Section witnesses.
#[local] Existing Instance counting.

Definition alice : AssistantUserRow.t := AssistantUserRow.mk "u1" "42" "telegram" (Some "Alice") 1000 None None.
Definition with_alice : channel := mk_channel (mk_store (mk_channel_db [] [alice] [] [] []) 0 0) [].

Lemma with_alice_ok : sessions_ok (db_of with_alice) ∧ ids_fresh with_alice.
Proof.
  split; [split|]; [constructor| |]; [by intros r r' ?%elem_of_nil|]. intros n _. apply not_elem_of_nil.
Qed.

Lemma session_of_chat_witness :
  ∃ s1 r1, run (SessionManager.get_or_create_session "u1" "group" "aionrs" None) with_alice = (s1, Ok r1) ∧
    in_chat "u1" "group" r1 = true ∧
    ∃ s2 t, run (SessionManager.get_or_create_session "u1" "group" "acp" None) s1 =
      (s2, Ok (SqliteChannelRepository.touch None None t r1)).
Proof.
  destruct (session_of_chat "u1" "group" "aionrs" None with_alice (proj1 with_alice_ok) (proj2 with_alice_ok) eq_refl)
    as (s1 & r1 & Hr & _ & Hc & _ & Hagain).
  exists s1, r1. split; [exact Hr|]. split; [exact Hc|]. exact (proj1 (Hagain "acp" None)).
Defined.

(** Two messages of one chat that are handled at the same time make two sessions: the
    table has no constraint, and each looks for a session before the other stores its
    own. *)
Definition chat_handler (chat_id : string) : prog channel ChannelError.t AssistantSessionRow.t :=
  SessionManager.get_or_create_session "u1" chat_id "aionrs" None.
Definition two_messages : list (Pool.event (Req:=string)) :=
  Pool.Begin "group" :: Pool.Begin "group" :: concat (repeat [Pool.Resume 0; Pool.Resume 1] 4).
Lemma overlapping_messages_make_two_sessions :
  ∃ p, Pool.steps chat_handler two_messages (Pool.new with_alice) = Some p ∧
    map AssistantSessionRow.chat_id (tbl_sessions (db_of (Pool.shared p))) = [Some "group"; Some "group"] ∧
    map AssistantSessionRow.user_id (tbl_sessions (db_of (Pool.shared p))) = ["u1"; "u1"].
Proof.
  assert (H : (λ p, (map AssistantSessionRow.chat_id (tbl_sessions (db_of (Pool.shared p))),
                     map AssistantSessionRow.user_id (tbl_sessions (db_of (Pool.shared p))))) <$>
    Pool.steps chat_handler two_messages (Pool.new with_alice) =
    Some ([Some "group"; Some "group"], ["u1"; "u1"])) by by vm_compute.
  destruct (Pool.steps chat_handler two_messages (Pool.new with_alice)) as [p|]; [|discriminate H].
  exists p. injection H as H0 H1. by split_and!.
Qed.

(** A reply button pressed by somebody who is not authorised. *)
#[local] Instance no_preferences : PreferenceJson := {| json_str := λ _ _, None |}.
Definition pressed (uid : string) : UnifiedIncomingMessage.t :=
  UnifiedIncomingMessage.mk "m1" PluginType.Telegram "chat" (UnifiedUser.mk uid None "Bob" None)
    (UnifiedMessageContent.mk MessageContentType.Action EmptyString None) 0 None
    (Some (UnifiedAction.mk "session.new" ActionCategory.System None
       (ActionContext.mk PluginType.Telegram "42" "chat" None None))).

Lemma strangers_only_get_codes_witness :
  ∃ s' r, run (ActionExecutor.handle_incoming_message (λ _, None) "aionrs" (Ok [7; 0; 0; 0]) (pressed "43")) with_alice
      = (s', r) ∧ tbl_sessions (db_of s') = [] ∧
    r = Ok (ActionExecutor.Action (ActionExecutor.build_pairing_response "000007")).
Proof.
  destruct (strangers_only_get_codes (λ _, None) "aionrs" (Ok [7; 0; 0; 0]) (pressed "43") with_alice)
    as (s' & r & Hr & _ & Hs & _ & _ & _ & Hcode & _); [constructor|by vm_compute|].
  exists s', r. split_and!; [exact Hr|exact Hs|exact Hcode].
Defined.
End witnesses.
