(* ===== verification/ChannelRelay.v ===== *)
(** * ChannelRelay: relaying the agent's stream to a messaging platform

    [ChannelStreamRelay] ([stream_relay.rs]), the stream part of
    [ChannelMessageService] ([message_service.rs]) and [formatter.rs] of
    [chisl-channel].  The stream is the list of what the relay receives, each with
    the time it is received at and the time an edit takes; the calls of the platform
    are the list of what is sent.  The result of an edit is ignored by the code. *)

From S2P Require Import Prelude.
From S2P Require Import Text.
From S2P Require Import ChannelTypes.

(* ------------------------------------------------------------------ *)
(** ** Texts *)

(** [str::replace] of one character. *)
Fixpoint replace_char (a : Ascii.ascii) (by_ s : string) : string :=
  match s with
  | EmptyString => EmptyString
  | String b s' => if Ascii.eqb a b then by_ +:+ replace_char a by_ s' else String b (replace_char a by_ s')
  end.

Definition amp : Ascii.ascii := Ascii.ascii_of_nat 38.
Definition lt_ : Ascii.ascii := Ascii.ascii_of_nat 60.
Definition gt_ : Ascii.ascii := Ascii.ascii_of_nat 62.

(* chisl-channel/src/formatter.rs:42-44 escape_html *)
Definition escape_html (text : string) : string :=
  replace_char gt_ "&gt;" (replace_char lt_ "&lt;" (replace_char amp "&amp;" text)).

(** The substitutions of [markdown_to_telegram_html] are regular expressions of the
    [regex] crate, applied to the escaped text. *)
Class MarkdownRegex := { apply_markdown : string → string }.

(* chisl-channel/src/formatter.rs:11-16 format_text_for_platform *)
Definition format_text_for_platform `{MarkdownRegex} (text : string) (platform : PluginType.t) : string :=
  match platform with
  | PluginType.Telegram => apply_markdown (escape_html text)
  | _ => escape_html text
  end.

(* chisl-channel/src/message_service.rs:215-229 build_thinking_message *)
Definition build_thinking_message : UnifiedOutgoingMessage.t := UnifiedOutgoingMessage.plain "⏳ Thinking...".

(* chisl-channel/src/message_service.rs:233-263 build_final_message *)
Definition build_final_message (text : string) : UnifiedOutgoingMessage.t :=
  UnifiedOutgoingMessage.mk OutgoingMessageType.Buttons (Some text) None
    (Some [[ActionButton.plain "🔄 Regenerate" "chat.regenerate";
            ActionButton.plain "▶️ Continue" "chat.continue";
            ActionButton.plain "➕ New Session" "session.new"]])
    None None None None None None None.

(* chisl-channel/src/message_service.rs:266-280 build_streaming_message *)
Definition build_streaming_message (text : string) : UnifiedOutgoingMessage.t := UnifiedOutgoingMessage.plain text.

(* ------------------------------------------------------------------ *)
(** ** Events *)

(** The events the relay reacts to; all others are [Other]. *)
Inductive AgentStreamEvent :=
| Text (content : string) | Finish | Error (message : string) | Thinking (content : string)
| ToolCall (name status : string) | Other.

Module StreamAction.
(* chisl-channel/src/message_service.rs:319-330 StreamAction *)
Inductive t :=
| AppendText (chunk : string) | Finish | Error (msg : string) | Thinking (content : string)
| ToolCall (name status : string).
End StreamAction.

(* chisl-channel/src/message_service.rs:165-211 process_stream_event *)
Definition process_stream_event (e : AgentStreamEvent) : option StreamAction.t :=
  match e with
  | Text content => Some (StreamAction.AppendText content)
  | Finish => Some StreamAction.Finish
  | Error message => Some (StreamAction.Error message)
  | Thinking content => Some (StreamAction.Thinking content)
  | ToolCall name status => Some (StreamAction.ToolCall name status)
  | Other => None
  end.

(** What [rx.recv()] gives: an event, the end of the stream, or word that the relay was
    too slow and missed some. *)
Inductive received := Event (e : AgentStreamEvent) | Closed | Lagged (n : Z).
Record timed := mk_timed { at_ : Z; takes : Z; got : received }.

(** A call of the platform, when it is made, and whether the throttle let it pass. *)
Record call := mk_call { called_at : Z; throttled : bool; message : UnifiedOutgoingMessage.t }.

Module RelayConfig.
(* chisl-channel/src/stream_relay.rs:16-21 RelayConfig *)
Record t := mk { platform : PluginType.t; plugin_id : string; chat_id : string; throttle_ms : Z }.
End RelayConfig.

Section relay.
Context `{MarkdownRegex}.
Context (config : RelayConfig.t).
Abbreviation format text := (format_text_for_platform text (RelayConfig.platform config)).

(* chisl-channel/src/stream_relay.rs:166-175 send_final_edit *)
Definition send_final_edit (t : Z) (text_buffer : string) (has_content : bool) : list call :=
  if has_content then [mk_call t false (build_final_message (format text_buffer))] else [].

(* chisl-channel/src/stream_relay.rs:87-157 run_editable (loop) *)
Fixpoint relay_loop (text_buffer : string) (last_edit : Z) (has_content : bool) (rx : list timed) : list call :=
  match rx with
  | [] => []
  | x :: rx' =>
      let t := at_ x in
      match got x with
      | Event e =>
          match process_stream_event e with
          | Some (StreamAction.AppendText chunk) =>
              let text_buffer := text_buffer +:+ chunk in
              if RelayConfig.throttle_ms config <=? t - last_edit
              then mk_call t true (build_streaming_message (format text_buffer)) ::
                   relay_loop text_buffer (t + takes x) true rx'
              else relay_loop text_buffer last_edit true rx'
          | Some (StreamAction.Thinking _) => relay_loop text_buffer last_edit has_content rx'
          | Some (StreamAction.ToolCall name _) =>
              mk_call t false (build_streaming_message ("⏳ " +:+ name +:+ "...")) ::
              relay_loop text_buffer last_edit has_content rx'
          | Some StreamAction.Finish => send_final_edit t text_buffer has_content
          | Some (StreamAction.Error msg) => [mk_call t false (UnifiedOutgoingMessage.plain ("❌ " +:+ msg))]
          | None => relay_loop text_buffer last_edit has_content rx'
          end
      | Closed => send_final_edit t text_buffer has_content
      | Lagged _ => relay_loop text_buffer last_edit has_content rx'
      end
  end.

(** [sent]: whether the placeholder could be sent; [start]: when the loop starts. *)
(* chisl-channel/src/stream_relay.rs:67-164 run_editable *)
Definition run_editable (start : Z) (sent : bool) (rx : list timed) : list call :=
  mk_call start false build_thinking_message ::
  if sent then relay_loop EmptyString (start - RelayConfig.throttle_ms config) false rx else [].

(* ------------------------------------------------------------------ *)
(** ** What reaches the chat *)

Definition is_end (r : received) : bool :=
  match r with Event Finish | Event (Error _) | Closed => true | _ => false end.
Definition chunks (rx : list timed) : list string :=
  omap (λ x, match got x with Event (Text c) => Some c | _ => None end) rx.

(** The edit that shows all the text received up to [y], after [before] and [rx]; and
    the one that shows the tool that [y] starts. *)
Definition text_edit (before : string) (rx : list timed) (y : timed) : call :=
  mk_call (at_ y) true
    (build_streaming_message (format (before +:+ String.concat EmptyString (chunks (rx ++ [y]))))).
Definition tool_edit (y : timed) (name : string) : call :=
  mk_call (at_ y) false (build_streaming_message ("⏳ " +:+ name +:+ "...")).
Definition is_text (y : timed) : bool := match got y with Event (Text _) => true | _ => false end.

(** The edits there would be without a throttle: one per piece of text, with
    everything received so far, and one per tool, each at the time of its event. *)
Fixpoint every_edit (before : string) (rx : list timed) : list call :=
  match rx with
  | [] => []
  | y :: rx' =>
      match got y with
      | Event (Text c) => text_edit before [] y :: every_edit (before +:+ c) rx'
      | Event (ToolCall name _) => tool_edit y name :: every_edit before rx'
      | _ => every_edit before rx'
      end
  end.

(** A piece of text whose edit is left out arrived less than the throttle after the
    end of an earlier text edit, or than the time [last] the relay starts from. *)
Definition left_out_by_throttle (before : string) (last : Z) (rx : list timed) (edits : list call) : Prop :=
  ∀ p y q, rx = p ++ y :: q → is_text y = true →
    text_edit before p y ∈ edits ∨
    (∃ p1 z p2, p = p1 ++ z :: p2 ∧ is_text z = true ∧ text_edit before p1 z ∈ edits ∧
       at_ y - (at_ z + takes z) < RelayConfig.throttle_ms config) ∨
    at_ y - last < RelayConfig.throttle_ms config.

Definition last_call (x : timed) (text : string) (any : bool) : list call :=
  match got x with
  | Event (Error msg) => [mk_call (at_ x) false (UnifiedOutgoingMessage.plain ("❌ " +:+ msg))]
  | _ => send_final_edit (at_ x) text any
  end.

Lemma concat_cons c l : String.concat EmptyString (c :: l) = c +:+ String.concat EmptyString l.
Proof. destruct l; simpl; [by rewrite app_string_nil_r|done]. Qed.

Lemma chunks_text y c rx : got y = Event (Text c) → chunks (y :: rx) = c :: chunks rx.
Proof. intros Hy. unfold chunks. simpl. by rewrite Hy. Qed.

Lemma chunks_skip y rx : chunks [y] = [] → chunks (y :: rx) = chunks rx.
Proof. unfold chunks. simpl. by destruct (got y) as [[]| |]. Qed.

Lemma text_edit_text before y0 c0 p y :
  got y0 = Event (Text c0) → text_edit before (y0 :: p) y = text_edit (before +:+ c0) p y.
Proof.
  intros Hg. unfold text_edit. by rewrite <- app_comm_cons, (chunks_text y0 c0), concat_cons, app_string_assoc.
Qed.

Lemma text_edit_skip before y0 p y :
  chunks [y0] = [] → text_edit before (y0 :: p) y = text_edit before p y.
Proof. intros Hg. unfold text_edit. by rewrite <- app_comm_cons, (chunks_skip y0). Qed.

Lemma skip_no_text y : chunks [y] = [] → is_text y = false.
Proof. unfold chunks, is_text. simpl. by destruct (got y) as [[]| |]. Qed.

(** What is left out after the first event, seen from before it. *)
Lemma left_out_skip before last y pre edits edits' :
  chunks [y] = [] → (∀ c, c ∈ edits → c ∈ edits') →
  left_out_by_throttle before last pre edits → left_out_by_throttle before last (y :: pre) edits'.
Proof.
  intros Hy Hin Hl [|y0 p] z q Heq Hz; simplify_eq/=.
  { by rewrite (skip_no_text _ Hy) in Hz. }
  rewrite (text_edit_skip _ _ _ _ Hy).
  destruct (Hl p z q eq_refl Hz) as [?|[(p1 & x & p2 & -> & Hx & Hin' & Hlt)|?]]; [auto| |auto].
  right; left. exists (y0 :: p1), x, p2. rewrite (text_edit_skip _ _ _ _ Hy). split_and!; auto.
Qed.

Lemma left_out_text before last last' y c0 pre edits edits' :
  got y = Event (Text c0) → (∀ c, c ∈ edits → c ∈ edits') →
  (text_edit before [] y ∈ edits' ∧ last' = at_ y + takes y ∨
   at_ y - last < RelayConfig.throttle_ms config ∧ last' = last) →
  left_out_by_throttle (before +:+ c0) last' pre edits → left_out_by_throttle before last (y :: pre) edits'.
Proof.
  intros Hy Hin Hcase Hl [|y0 p] z q Heq Hz; simplify_eq/=.
  { destruct Hcase as [[? _]|[? _]]; auto. }
  rewrite (text_edit_text _ _ _ _ _ Hy).
  destruct (Hl p z q eq_refl Hz) as [?|[(p1 & x & p2 & -> & Hx & Hin' & Hlt)|Hlt]]; [auto| |].
  - right; left. exists (y0 :: p1), x, p2. rewrite (text_edit_text _ _ _ _ _ Hy). split_and!; auto.
  - destruct Hcase as [[Hed ->]|[? ->]]; [|auto]. right; left. exists [], y0, p. split_and!; try done.
    unfold is_text. by rewrite Hy.
Qed.

Definition is_tool_edit (c : call) : Prop := throttled c = false.
#[local] Instance is_tool_edit_dec c : Decision (is_tool_edit c) := bool_eq_dec (throttled c) false.

Lemma relay_loop_calls pre x post : ∀ before last_edit any,
  Forall (λ y, is_end (got y) = false) pre → is_end (got x) = true →
  ∃ edits, relay_loop before last_edit any (pre ++ x :: post) =
      edits ++ last_call x (before +:+ String.concat EmptyString (chunks pre))
                 (any || bool_decide (chunks pre ≠ [])) ∧
    edits `sublist_of` every_edit before pre ∧
    filter is_tool_edit edits = filter is_tool_edit (every_edit before pre) ∧
    left_out_by_throttle before last_edit pre edits.
Proof.
  induction pre as [|y pre IH]; intros before last_edit any Hpre Hx.
  { exists []. simpl. rewrite app_string_nil_r, orb_false_r. split_and!; [|done..|by intros []].
    unfold last_call. destruct (got x) as [[]| |]; done. }
  apply Forall_cons in Hpre as [Hy Hpre].
  assert (Hskip : chunks [y] = [] → every_edit before (y :: pre) = every_edit before pre →
      relay_loop before last_edit any ((y :: pre) ++ x :: post) =
      relay_loop before last_edit any (pre ++ x :: post) → ∃ edits,
      relay_loop before last_edit any ((y :: pre) ++ x :: post) =
        edits ++ last_call x (before +:+ String.concat EmptyString (chunks (y :: pre)))
                   (any || bool_decide (chunks (y :: pre) ≠ [])) ∧
      edits `sublist_of` every_edit before (y :: pre) ∧
      filter is_tool_edit edits = filter is_tool_edit (every_edit before (y :: pre)) ∧
      left_out_by_throttle before last_edit (y :: pre) edits).
  { intros Hc Hev Heq. destruct (IH before last_edit any Hpre Hx) as (edits & He & Hsub & Htool & Hleft).
    exists edits. rewrite (chunks_skip y pre Hc), Heq, He, Hev. split_and!; [done..|].
    by apply (left_out_skip before last_edit y pre edits). }
  destruct (got y) as [[c0| |m|th|name st|]| |n] eqn:Hg; try done;
    try (apply Hskip; [unfold chunks| |]; simpl; by rewrite ?Hg).
  - destruct (IH (before +:+ c0) (at_ y + takes y) true Hpre Hx) as (e1 & H1 & S1 & T1 & L1).
    destruct (IH (before +:+ c0) last_edit true Hpre Hx) as (e2 & H2 & S2 & T2 & L2).
    rewrite (chunks_text y c0 pre Hg), concat_cons, <- app_string_assoc, bool_decide_true, orb_true_r by done.
    simpl. rewrite Hg. simpl. destruct (Z.leb_spec (RelayConfig.throttle_ms config) (at_ y - last_edit)).
    + exists (text_edit before [] y :: e1). rewrite H1. split_and!.
      * unfold text_edit. by rewrite app_nil_l, (chunks_text y c0 [] Hg).
      * by constructor.
      * rewrite !filter_cons_False by done. done.
      * apply (left_out_text before last_edit (at_ y + takes y) y c0 pre e1); [done|by right| |done].
        left. split; [by left|done].
    + exists e2. rewrite H2. split_and!; [done|by constructor|by rewrite filter_cons_False by done|].
      apply (left_out_text before last_edit last_edit y c0 pre e2); [done|done|by right|done].
  - destruct (IH before last_edit any Hpre Hx) as (e1 & H1 & S1 & T1 & L1).
    assert (Hch : chunks [y] = []) by (unfold chunks; simpl; by rewrite Hg).
    rewrite (chunks_skip y pre Hch). simpl. rewrite Hg. simpl. rewrite H1.
    exists (tool_edit y name :: e1). split_and!; [done|by constructor| |].
    + rewrite !filter_cons_True by done. by rewrite T1.
    + by apply (left_out_skip before last_edit y pre e1); [|by right|].
Qed.

(** Throttled edits, in the order they are made. *)
Definition throttled_times (l : list call) : list Z := called_at <$> filter (λ c, throttled c = true) l.

Lemma HdRel_later (d a b : Z) l : a <= b → HdRel (λ x y, d <= y - x) b l → HdRel (λ x y, d <= y - x) a l.
Proof. intros Hab Hl. destruct Hl; constructor. lia. Qed.

Lemma relay_loop_throttle rx : ∀ before last_edit any,
  Forall (λ x, 0 <= takes x) rx →
  Sorted (λ a b, RelayConfig.throttle_ms config <= b - a)
    (last_edit :: throttled_times (relay_loop before last_edit any rx)).
Proof.
  induction rx as [|x rx IH]; intros before last_edit any Ht; [by repeat constructor|].
  apply Forall_cons in Ht as [Hx Ht]. simpl.
  destruct (got x) as [[c0| |m|th|name st|]| |n]; simpl; try (by apply IH).
  - destruct (Z.leb_spec (RelayConfig.throttle_ms config) (at_ x - last_edit)); [|by apply IH].
    unfold throttled_times. rewrite filter_cons_True by done. simpl.
    specialize (IH (before +:+ c0) (at_ x + takes x) true Ht).
    apply Sorted_inv in IH as [Hs Hh]. constructor; [constructor; [exact Hs|]|by constructor].
    eapply HdRel_later; [|exact Hh]. lia.
  - unfold send_final_edit. destruct any; repeat constructor.
  - repeat constructor.
  - unfold send_final_edit. destruct any; repeat constructor.
Qed.

(** C11: the chat sees the whole answer.  Whatever the stream carries up to its first
    end (a finish, an error or the stream being closed), when the placeholder could
    be sent: the edits before the end are, in order and each at the time of its
    event, one for every tool that runs and ones with exactly the text received up
    to that event; a piece of text has no edit of its own only when it arrives less
    than the throttle after an earlier text edit was through; the last call shows the
    complete text, or the agent's error, and there is none when the stream ends
    without any text; what comes after the end is not looked at; and two edits that
    show text are at least the throttle apart. *)
Theorem relay_delivers (start : Z) (pre : list timed) (x : timed) (post : list timed)
    (Hpre : Forall (λ y, is_end (got y) = false) pre) (Hx : is_end (got x) = true)
    (Htakes : Forall (λ y, 0 <= takes y) (pre ++ x :: post)) :
  ∃ edits,
    run_editable start true (pre ++ x :: post) =
      mk_call start false build_thinking_message :: edits ++
      last_call x (String.concat EmptyString (chunks pre)) (bool_decide (chunks pre ≠ [])) ∧
    edits `sublist_of` every_edit EmptyString pre ∧
    filter is_tool_edit edits = filter is_tool_edit (every_edit EmptyString pre) ∧
    left_out_by_throttle EmptyString (start - RelayConfig.throttle_ms config) pre edits ∧
    Sorted (λ a b, RelayConfig.throttle_ms config <= b - a)
      (throttled_times (run_editable start true (pre ++ x :: post))).
Proof.
  destruct (relay_loop_calls pre x post EmptyString (start - RelayConfig.throttle_ms config) false Hpre Hx)
    as (edits & He & Hsub & Htool & Hleft).
  exists edits. unfold run_editable. split_and!; [by rewrite He|done..|].
  pose proof (relay_loop_throttle _ EmptyString (start - RelayConfig.throttle_ms config) false Htakes) as Hs.
  by apply Sorted_inv in Hs as [Hs _].
Qed.
End relay.

Section example.
#[local] Instance no_markdown : MarkdownRegex := {| apply_markdown := id |}.
Definition example_config : RelayConfig.t := RelayConfig.mk PluginType.Telegram "telegram" "chat-1" 500.
Definition example_stream : list timed :=
  [mk_timed 10 5 (Event (Text "a<")); mk_timed 100 5 (Event (Text "b")); mk_timed 120 5 (Event (ToolCall "grep" "running"));
   mk_timed 700 5 (Event (Text "c"))].

Lemma relay_delivers_witness :
  (λ c, (called_at c, UnifiedOutgoingMessage.text (message c))) <$>
    run_editable example_config 0 true (example_stream ++ mk_timed 800 0 (Event Finish) :: []) =
  [(0, Some "⏳ Thinking..."); (10, Some "a&lt;"); (120, Some "⏳ grep..."); (700, Some "a&lt;bc");
   (800, Some "a&lt;bc")] ∧
  ∃ edits,
    run_editable example_config 0 true (example_stream ++ mk_timed 800 0 (Event Finish) :: []) =
      mk_call 0 false build_thinking_message :: edits ++
      last_call example_config (mk_timed 800 0 (Event Finish)) (String.concat EmptyString (chunks example_stream))
        (bool_decide (chunks example_stream ≠ [])) ∧
    edits `sublist_of` every_edit example_config EmptyString example_stream ∧
    filter is_tool_edit edits = filter is_tool_edit (every_edit example_config EmptyString example_stream) ∧
    left_out_by_throttle example_config EmptyString (0 - RelayConfig.throttle_ms example_config) example_stream edits ∧
    Sorted (λ a b, RelayConfig.throttle_ms example_config <= b - a)
      (throttled_times (run_editable example_config 0 true (example_stream ++ mk_timed 800 0 (Event Finish) :: []))).
Proof.
  split; [vm_compute; reflexivity|].
  apply (relay_delivers example_config 0 example_stream (mk_timed 800 0 (Event Finish)) []).
  - by repeat constructor.
  - reflexivity.
  - repeat constructor; simpl; lia.
Defined.
End example.
