(* ===== verification/ConvRepo.v ===== *)
(** * ConvRepo: conversations, messages and artifacts in the database

    [SqliteConversationRepository] ([chisl-db/src/repository/sqlite_conversation.rs], the
    implementation of [repository/conversation.rs]) on the three tables of migration 001
    with their keys and checks.  A method is one operation: those that run two statements
    read first.  [serde_json] and the JSON functions of SQLite read a text through
    [JsonCodec].  The theorem about the cursor pagination: walking the pages lists every
    conversation once, in order. *)

From S2P Require Import Prelude.
From S2P Require Import Text.
From S2P Require Import JsonValue.
From S2P Require Import TeamTypes.
From S2P Require Import Sql.
From Stdlib Require Import Ascii.

Module ConversationRow.
(* chisl-db/src/models/conversation.rs:13-34 ConversationRow *)
Record t := mk {
  id : string; user_id : string; name : string; type : string; extra : string; model : option string;
  status : option string; source : option string; channel_chat_id : option string; pinned : bool;
  pinned_at : option TimestampMs; created_at : TimestampMs; updated_at : TimestampMs }.
End ConversationRow.

Module MessageRow.
(* chisl-db/src/models/message.rs:12-29 MessageRow *)
Record t := mk {
  id : string; conversation_id : string; msg_id : option string; type : string; content : string;
  position : option string; status : option string; hidden : bool; created_at : TimestampMs }.
End MessageRow.

Module ConversationArtifactRow.
(* chisl-db/src/models/conversation_artifact.rs:6-15 ConversationArtifactRow *)
Record t := mk {
  id : string; conversation_id : string; cron_job_id : option string; kind : string; status : string;
  payload : string; created_at : TimestampMs; updated_at : TimestampMs }.
End ConversationArtifactRow.

Module ConversationRowUpdate.
(* chisl-db/src/repository/conversation.rs:200-208 ConversationRowUpdate *)
Record t := mk {
  name : option string; pinned : option bool; pinned_at : option (option TimestampMs); model : option (option string);
  extra : option string; status : option string; updated_at : option TimestampMs }.
Definition is_empty (u : t) : bool :=
  match u with mk None None None None None None None => true | _ => false end.
End ConversationRowUpdate.

Module MessageRowUpdate.
(* chisl-db/src/repository/conversation.rs:212-216 MessageRowUpdate *)
Record t := mk { content : option string; status : option (option string); hidden : option bool }.
End MessageRowUpdate.

Module ConversationFilters.
(* chisl-db/src/repository/conversation.rs:177-188 ConversationFilters *)
Record t := mk {
  cursor : option string; limit : Z; source : option string; cron_job_id : option string; pinned : option bool }.
(* chisl-db/src/repository/conversation.rs:191-193 effective_limit *)
Definition effective_limit (f : t) : Z := if limit f =? 0 then 20 else limit f.
Definition with_cursor (c : option string) (f : t) : t := mk c (limit f) (source f) (cron_job_id f) (pinned f).
End ConversationFilters.

Module MessageSearchRow.
(* chisl-db/src/repository/conversation.rs:221-241 MessageSearchRow *)
Record t := mk {
  message_id : string; type : string; content : string; created_at : TimestampMs; conversation_id : string;
  conversation_name : string; conversation_type : string; conversation_extra : string;
  conversation_model : option string; conversation_status : option string; conversation_source : option string;
  conversation_channel_chat_id : option string; conversation_pinned : bool;
  conversation_pinned_at : option TimestampMs; conversation_created_at : TimestampMs;
  conversation_updated_at : TimestampMs }.
End MessageSearchRow.

(* chisl-common/src/pagination.rs:5-9 PaginatedResult *)
Record PaginatedResult (A : Type) := mk_page { items : list A; total : nat; has_more : bool }.
Arguments mk_page {A}.
Arguments items {A}.
Arguments total {A}.
Arguments has_more {A}.

(* chisl-db/src/repository/conversation.rs:160-164 SortOrder *)
Inductive SortOrder := Asc | Desc.

Record ConvDb := mk_conv_db {
  tbl_conversations : list ConversationRow.t; tbl_messages : list MessageRow.t;
  tbl_artifacts : list ConversationArtifactRow.t; tbl_user_ids : list string }.
Definition set_conversations x db := mk_conv_db x (tbl_messages db) (tbl_artifacts db) (tbl_user_ids db).
Definition set_messages x db := mk_conv_db (tbl_conversations db) x (tbl_artifacts db) (tbl_user_ids db).
Definition set_artifacts x db := mk_conv_db (tbl_conversations db) (tbl_messages db) x (tbl_user_ids db).

(* ------------------------------------------------------------------ *)
(** ** Order and patterns of SQLite *)

(** [ORDER BY a, b] on an integer and a text, which is compared byte by byte. *)
Definition key_le (a b : Z * string) : bool := (fst a <? fst b) || ((fst a =? fst b) && String.leb (snd a) (snd b)).
Definition order_asc {A} (key : A → Z * string) (l : list A) : list A := merge_sort (λ a b, Is_true (key_le (key a) (key b))) l.
Definition order_desc {A} (key : A → Z * string) (l : list A) : list A := merge_sort (λ a b, Is_true (key_le (key b) (key a))) l.

(** [LIKE] without an escape character: letters of ASCII match either case, [_] takes
    one UTF-8 character. *)
Definition to_upper_ascii (a : Ascii.ascii) : Ascii.ascii :=
  let n := Ascii.nat_of_ascii a in if (97 <=? n)%nat && (n <=? 122)%nat then Ascii.ascii_of_nat (n - 32) else a.
Fixpoint skip_continuation (s : string) : string :=
  match s with
  | String a s' => let n := Ascii.nat_of_ascii a in if (128 <=? n)%nat && (n <? 192)%nat then skip_continuation s' else s
  | EmptyString => EmptyString
  end.
Fixpoint like (p s : string) {struct p} : bool :=
  match p with
  | EmptyString => match s with EmptyString => true | _ => false end
  | String c p' =>
      if Ascii.eqb c "%"%char then
        (fix any (s : string) : bool := like p' s || match s with String _ s' => any s' | EmptyString => false end) s
      else match s with
           | EmptyString => false
           | String a s' => if Ascii.eqb c "_"%char then like p' (skip_continuation s')
                            else Ascii.eqb (to_upper_ascii c) (to_upper_ascii a) && like p' s'
           end
  end.

(** [LIMIT ? OFFSET ?], and the row fetched beyond the page. *)
Definition page_of {A} (size : Z) (rows : list A) : list A * bool :=
  let has_more := size <? Z.of_nat (length rows) in (if has_more then removelast rows else rows, has_more).

Module ConversationRepo.
Section repo.
Context `{JsonCodec}.
Abbreviation SQL := (ST ConvDb DbError.t).

Definition is_conversation (i : string) (r : ConversationRow.t) : bool := String.eqb (ConversationRow.id r) i.
Definition is_message (i : string) (r : MessageRow.t) : bool := String.eqb (MessageRow.id r) i.
Definition is_artifact (conversation_id i : string) (r : ConversationArtifactRow.t) : bool :=
  String.eqb (ConversationArtifactRow.conversation_id r) conversation_id && String.eqb (ConversationArtifactRow.id r) i.
Definition of_conversation (i : string) (r : MessageRow.t) : bool := String.eqb (MessageRow.conversation_id r) i.

Definition constraint (what : string) : DbError.t := DbError.Query (what +:+ " constraint failed").
Definition one_of (l : list string) (s : string) : bool := existsb (String.eqb s) l.
Definition conversation_status_ok (s : option string) : bool :=
  match s with Some s => one_of ["pending"; "running"; "finished"] s | None => false end.
Definition message_ok (position status : option string) : bool :=
  match position with Some p => one_of ["left"; "right"; "center"; "pop"] p | None => true end &&
  match status with Some s => one_of ["finish"; "pending"; "error"; "work"] s | None => true end.

(* chisl-db/src/repository/sqlite_conversation.rs:27-34 get *)
Definition get (id : string) : SQL (option ConversationRow.t) := λ db,
  (db, Ok (List.find (is_conversation id) (tbl_conversations db))).

(* chisl-db/src/repository/sqlite_conversation.rs:36-60 create *)
Definition create (row : ConversationRow.t) : SQL unit := λ db,
  if existsb (is_conversation (ConversationRow.id row)) (tbl_conversations db)
  then (db, Err (constraint "UNIQUE"))
  else if negb (conversation_status_ok (ConversationRow.status row)) then (db, Err (constraint "CHECK"))
  else if negb (one_of (tbl_user_ids db) (ConversationRow.user_id row)) then (db, Err fk_violation)
  else (set_conversations (tbl_conversations db ++ [row]) db, Ok tt).

Definition apply_update (u : ConversationRowUpdate.t) (r : ConversationRow.t) : ConversationRow.t :=
  ConversationRow.mk (ConversationRow.id r) (ConversationRow.user_id r)
    (default (ConversationRow.name r) (ConversationRowUpdate.name u)) (ConversationRow.type r)
    (default (ConversationRow.extra r) (ConversationRowUpdate.extra u))
    (default (ConversationRow.model r) (ConversationRowUpdate.model u))
    (match ConversationRowUpdate.status u with Some s => Some s | None => ConversationRow.status r end)
    (ConversationRow.source r) (ConversationRow.channel_chat_id r)
    (default (ConversationRow.pinned r) (ConversationRowUpdate.pinned u))
    (default (ConversationRow.pinned_at r) (ConversationRowUpdate.pinned_at u))
    (ConversationRow.created_at r) (default (ConversationRow.updated_at r) (ConversationRowUpdate.updated_at u)).
(* chisl-db/src/repository/sqlite_conversation.rs:62-115 update *)
Definition update (id : string) (u : ConversationRowUpdate.t) : SQL unit := λ db,
  if ConversationRowUpdate.is_empty u then (db, Ok tt) else
  let n := rows_affected (is_conversation id) (tbl_conversations db) in
  match n, ConversationRowUpdate.status u with
  | S _, Some s => if conversation_status_ok (Some s)
      then (set_conversations (sql_update (is_conversation id) (apply_update u) (tbl_conversations db)) db, Ok tt)
      else (db, Err (constraint "CHECK"))
  | _, _ => (set_conversations (sql_update (is_conversation id) (apply_update u) (tbl_conversations db)) db,
             or_not_found n ("Conversation '" +:+ id +:+ "' not found"))
  end.

(** The messages and artifacts go with it. *)
(* chisl-db/src/repository/sqlite_conversation.rs:117-128 delete *)
Definition delete (id : string) : SQL unit := λ db,
  let n := rows_affected (is_conversation id) (tbl_conversations db) in
  (match n with
   | O => db
   | S _ => mk_conv_db (sql_delete (is_conversation id) (tbl_conversations db))
              (sql_delete (of_conversation id) (tbl_messages db))
              (sql_delete (λ a, String.eqb (ConversationArtifactRow.conversation_id a) id) (tbl_artifacts db)) (tbl_user_ids db)
   end, or_not_found n ("Conversation '" +:+ id +:+ "' not found")).

(** [json_extract(extra, '$.k') = v]; [None] is the error of a text that is not JSON. *)
Definition json_extract_is (k v extra : string) : option bool :=
  o ← from_str extra; Some (match JsonValue.get k o with Some (Str s) => String.eqb s v | _ => false end).
Definition has_cron_job (cron_job_id : string) (r : ConversationRow.t) : option bool :=
  a ← json_extract_is "cronJobId" cron_job_id (ConversationRow.extra r);
  b ← json_extract_is "cron_job_id" cron_job_id (ConversationRow.extra r); Some (a || b).
(** A statement fails when [json_extract] meets such a text. *)
Definition malformed {A} : result A DbError.t := Err (DbError.Query "malformed JSON").
Definition readable (r : ConversationRow.t) : bool := match from_str (ConversationRow.extra r) with Some _ => true | None => false end.

(* chisl-db/src/repository/sqlite_conversation.rs:675-691 append_filter_conditions *)
Definition filter_conditions (f : ConversationFilters.t) (r : ConversationRow.t) : bool :=
  match ConversationFilters.source f with Some s => bool_decide (ConversationRow.source r = Some s) | None => true end &&
  match ConversationFilters.cron_job_id f with Some c => default false (has_cron_job c r) | None => true end &&
  match ConversationFilters.pinned f with Some p => Bool.eqb (ConversationRow.pinned r) p | None => true end.
(* chisl-db/src/repository/sqlite_conversation.rs:694-706 build_count_sql *)
Definition selected (user_id : string) (f : ConversationFilters.t) (r : ConversationRow.t) : bool :=
  String.eqb (ConversationRow.user_id r) user_id && filter_conditions f r.
Definition position_of (r : ConversationRow.t) : Z * string := (ConversationRow.updated_at r, ConversationRow.id r).
Definition key_lt (a b : Z * string) : bool := (fst a <? fst b) || ((fst a =? fst b) && String.ltb (snd a) (snd b)).
(** A cursor that is not in the table is compared with NULL. *)
(* chisl-db/src/repository/sqlite_conversation.rs:143-153 list_paginated (cursor) *)
Definition below_cursor (f : ConversationFilters.t) (db : ConvDb) (r : ConversationRow.t) : bool :=
  match ConversationFilters.cursor f with
  | None => true
  | Some c => match List.find (is_conversation c) (tbl_conversations db) with
              | Some cr => key_lt (position_of r) (position_of cr)
              | None => false
              end
  end.
(* chisl-db/src/repository/sqlite_conversation.rs:130-189 list_paginated *)
Definition list_paginated (user_id : string) (f : ConversationFilters.t) : SQL (PaginatedResult ConversationRow.t) := λ db,
  let limit := ConversationFilters.effective_limit f in
  let fetch_limit := w32 (limit + 1) in
  if match ConversationFilters.cron_job_id f with Some _ => true | None => false end &&
     existsb (λ r, String.eqb (ConversationRow.user_id r) user_id && negb (readable r)) (tbl_conversations db)
  then (db, malformed)
  else
    let all := List.filter (selected user_id f) (tbl_conversations db) in
    let rows := take (Z.to_nat fetch_limit) (order_desc position_of (List.filter (below_cursor f db) all)) in
    let '(rows, has_more) := page_of limit rows in
    (db, Ok (mk_page rows (length all) has_more)).

(* chisl-db/src/repository/sqlite_conversation.rs:193-214 find_by_source_and_chat *)
Definition find_by_source_and_chat (user_id source chat_id agent_type : string) : SQL (option ConversationRow.t) := λ db,
  (db, Ok (head (order_by_desc ConversationRow.updated_at (List.filter (λ r,
     String.eqb (ConversationRow.user_id r) user_id && bool_decide (ConversationRow.source r = Some source) &&
     bool_decide (ConversationRow.channel_chat_id r = Some chat_id) && String.eqb (ConversationRow.type r) agent_type)
     (tbl_conversations db))))).

(* chisl-db/src/repository/sqlite_conversation.rs:216-230 list_by_cron_job *)
Definition list_by_cron_job (user_id cron_job_id : string) : SQL (list ConversationRow.t) := λ db,
  let mine := List.filter (λ r, String.eqb (ConversationRow.user_id r) user_id) (tbl_conversations db) in
  if negb (forallb readable mine) then (db, malformed)
  else (db, Ok (order_by_desc ConversationRow.updated_at (List.filter (λ r, default false (has_cron_job cron_job_id r)) mine))).

(* chisl-db/src/repository/sqlite_conversation.rs:232-269 list_associated *)
Definition list_associated (user_id conversation_id : string) : SQL (list ConversationRow.t) := λ db,
  match List.find (λ r, is_conversation conversation_id r && String.eqb (ConversationRow.user_id r) user_id) (tbl_conversations db) with
  | None => (db, Err (DbError.NotFound ("Conversation '" +:+ conversation_id +:+ "' not found")))
  | Some target =>
      match (v ← from_str (ConversationRow.extra target); w ← JsonValue.get "workspace" v; as_str w) with
      | None => (db, Ok [])
      | Some workspace =>
          if String.eqb workspace EmptyString then (db, Ok []) else
          let others := List.filter (λ r, String.eqb (ConversationRow.user_id r) user_id &&
                                          negb (is_conversation conversation_id r)) (tbl_conversations db) in
          if negb (forallb readable others) then (db, malformed)
          else (db, Ok (order_by_desc ConversationRow.updated_at
                 (List.filter (λ r, default false (json_extract_is "workspace" workspace (ConversationRow.extra r))) others)))
      end
  end.

(* ------------------------------------------------------------------ *)
(** ** Messages *)

Definition shown (r : MessageRow.t) : bool := negb (one_of ["cron_trigger"; "skill_suggest"] (MessageRow.type r)).
Definition written (r : MessageRow.t) : Z * string := (MessageRow.created_at r, MessageRow.id r).
Definition order_messages (o : SortOrder) (l : list MessageRow.t) : list MessageRow.t :=
  match o with Asc => order_asc written l | Desc => order_desc written l end.
(* chisl-db/src/repository/sqlite_conversation.rs:273-322 get_messages *)
Definition get_messages (conv_id : string) (page page_size : Z) (order : SortOrder) : SQL (PaginatedResult MessageRow.t) := λ db,
  let effective_page := if page =? 0 then 1 else page in
  let effective_size := if page_size =? 0 then 50 else page_size in
  let offset := w32 ((effective_page - 1) * effective_size) in
  let fetch_limit := w32 (effective_size + 1) in
  let all := List.filter (λ r, of_conversation conv_id r && shown r) (tbl_messages db) in
  let rows := take (Z.to_nat fetch_limit) (drop (Z.to_nat offset) (order_messages order all)) in
  let '(rows, has_more) := page_of effective_size rows in
  (db, Ok (mk_page rows (length all) has_more)).

(* chisl-db/src/repository/sqlite_conversation.rs:324-344 insert_message *)
Definition insert_message (m : MessageRow.t) : SQL unit := λ db,
  if existsb (is_message (MessageRow.id m)) (tbl_messages db) then (db, Err (constraint "UNIQUE"))
  else if negb (message_ok (MessageRow.position m) (MessageRow.status m)) then (db, Err (constraint "CHECK"))
  else if negb (existsb (is_conversation (MessageRow.conversation_id m)) (tbl_conversations db)) then (db, Err fk_violation)
  else (set_messages (tbl_messages db ++ [m]) db, Ok tt).

Definition apply_message_update (u : MessageRowUpdate.t) (r : MessageRow.t) : MessageRow.t :=
  MessageRow.mk (MessageRow.id r) (MessageRow.conversation_id r) (MessageRow.msg_id r) (MessageRow.type r)
    (default (MessageRow.content r) (MessageRowUpdate.content u)) (MessageRow.position r)
    (default (MessageRow.status r) (MessageRowUpdate.status u))
    (default (MessageRow.hidden r) (MessageRowUpdate.hidden u)) (MessageRow.created_at r).
(* chisl-db/src/repository/sqlite_conversation.rs:346-382 update_message *)
Definition update_message (id : string) (u : MessageRowUpdate.t) : SQL unit := λ db,
  match u with
  | MessageRowUpdate.mk None None None => (db, Ok tt)
  | _ =>
      let n := rows_affected (is_message id) (tbl_messages db) in
      if negb (message_ok None (default None (MessageRowUpdate.status u))) && (0 <? n)%nat then (db, Err (constraint "CHECK"))
      else (set_messages (sql_update (is_message id) (apply_message_update u) (tbl_messages db)) db,
            or_not_found n ("Message '" +:+ id +:+ "' not found"))
  end.

(* chisl-db/src/repository/sqlite_conversation.rs:384-391 delete_messages_by_conversation *)
Definition delete_messages_by_conversation (conv_id : string) : SQL unit := λ db,
  (set_messages (sql_delete (of_conversation conv_id) (tbl_messages db)) db, Ok tt).

(* chisl-db/src/repository/sqlite_conversation.rs:393-410 get_message_by_msg_id *)
Definition get_message_by_msg_id (conv_id msg_id msg_type : string) : SQL (option MessageRow.t) := λ db,
  (db, Ok (List.find (λ r, of_conversation conv_id r && bool_decide (MessageRow.msg_id r = Some msg_id) &&
                           String.eqb (MessageRow.type r) msg_type) (tbl_messages db))).
(* chisl-db/src/repository/sqlite_conversation.rs:412-419 get_message_by_id *)
Definition get_message_by_id (conv_id id : string) : SQL (option MessageRow.t) := λ db,
  (db, Ok (List.find (λ r, of_conversation conv_id r && is_message id r) (tbl_messages db))).
(* chisl-db/src/repository/sqlite_conversation.rs:421-430 delete_message *)
Definition delete_message (id : string) : SQL unit := λ db,
  (set_messages (sql_delete (is_message id) (tbl_messages db)) db,
   or_not_found (rows_affected (is_message id) (tbl_messages db)) ("message '" +:+ id +:+ "' not found")).

Definition search_row (m : MessageRow.t) (c : ConversationRow.t) : MessageSearchRow.t :=
  MessageSearchRow.mk (MessageRow.id m) (MessageRow.type m) (MessageRow.content m) (MessageRow.created_at m)
    (ConversationRow.id c) (ConversationRow.name c) (ConversationRow.type c) (ConversationRow.extra c)
    (ConversationRow.model c) (ConversationRow.status c) (ConversationRow.source c) (ConversationRow.channel_chat_id c)
    (ConversationRow.pinned c) (ConversationRow.pinned_at c) (ConversationRow.created_at c) (ConversationRow.updated_at c).
Definition found (user_id pattern : string) (db : ConvDb) : list MessageSearchRow.t :=
  omap (λ m, c ← List.find (is_conversation (MessageRow.conversation_id m)) (tbl_conversations db);
             if String.eqb (ConversationRow.user_id c) user_id && like pattern (MessageRow.content m)
             then Some (search_row m c) else None) (tbl_messages db).
(* chisl-db/src/repository/sqlite_conversation.rs:432-496 search_messages *)
Definition search_messages (user_id keyword : string) (page page_size : Z) : SQL (PaginatedResult MessageSearchRow.t) := λ db,
  let effective_page := if page =? 0 then 1 else page in
  let effective_size := if page_size =? 0 then 20 else page_size in
  let offset := w32 ((effective_page - 1) * effective_size) in
  let fetch_limit := w32 (effective_size + 1) in
  let all := found user_id ("%" +:+ keyword +:+ "%") db in
  let rows := take (Z.to_nat fetch_limit) (drop (Z.to_nat offset) (order_by_desc MessageSearchRow.created_at all)) in
  let has_more := effective_size <? Z.of_nat (length rows) in
  (db, Ok (mk_page (if has_more then take (Z.to_nat effective_size) rows else rows) (length all) has_more)).

(* ------------------------------------------------------------------ *)
(** ** Artifacts *)

Definition artifact_made (r : ConversationArtifactRow.t) : Z * string :=
  (ConversationArtifactRow.created_at r, ConversationArtifactRow.id r).
(* chisl-db/src/repository/sqlite_conversation.rs:498-509 list_artifacts *)
Definition list_artifacts (conversation_id : string) : SQL (list ConversationArtifactRow.t) := λ db,
  (db, Ok (order_asc artifact_made
     (List.filter (λ r, String.eqb (ConversationArtifactRow.conversation_id r) conversation_id) (tbl_artifacts db)))).
(* chisl-db/src/repository/sqlite_conversation.rs:511-525 get_artifact *)
Definition get_artifact (conversation_id artifact_id : string) : SQL (option ConversationArtifactRow.t) := λ db,
  (db, Ok (List.find (is_artifact conversation_id artifact_id) (tbl_artifacts db))).
Definition artifact_ok (r : ConversationArtifactRow.t) : bool :=
  one_of ["cron_trigger"; "skill_suggest"] (ConversationArtifactRow.kind r) &&
  one_of ["active"; "pending"; "dismissed"; "saved"] (ConversationArtifactRow.status r).
(** The time of creation stays when the row was there. *)
Definition excluded (a r : ConversationArtifactRow.t) : ConversationArtifactRow.t :=
  ConversationArtifactRow.mk (ConversationArtifactRow.id r) (ConversationArtifactRow.conversation_id a)
    (ConversationArtifactRow.cron_job_id a) (ConversationArtifactRow.kind a) (ConversationArtifactRow.status a)
    (ConversationArtifactRow.payload a) (ConversationArtifactRow.created_at r) (ConversationArtifactRow.updated_at a).
(* chisl-db/src/repository/sqlite_conversation.rs:527-554 upsert_artifact *)
Definition upsert_artifact (a : ConversationArtifactRow.t) : SQL ConversationArtifactRow.t := λ db,
  let same r := String.eqb (ConversationArtifactRow.id r) (ConversationArtifactRow.id a) in
  if negb (artifact_ok a) then (db, Err (constraint "CHECK"))
  else if negb (existsb (is_conversation (ConversationArtifactRow.conversation_id a)) (tbl_conversations db))
  then (db, Err fk_violation)
  else
    let rows := if existsb same (tbl_artifacts db) then sql_update same (excluded a) (tbl_artifacts db) else tbl_artifacts db ++ [a] in
    (set_artifacts rows db,
     match List.find (is_artifact (ConversationArtifactRow.conversation_id a) (ConversationArtifactRow.id a)) rows with
     | Some r => Ok r
     | None => Err (DbError.Init ("upsert artifact did not produce row for id '" +:+ ConversationArtifactRow.id a +:+ "'"))
     end).
Definition with_status (status : string) (updated_at : TimestampMs) (r : ConversationArtifactRow.t) : ConversationArtifactRow.t :=
  ConversationArtifactRow.mk (ConversationArtifactRow.id r) (ConversationArtifactRow.conversation_id r)
    (ConversationArtifactRow.cron_job_id r) (ConversationArtifactRow.kind r) status (ConversationArtifactRow.payload r)
    (ConversationArtifactRow.created_at r) updated_at.
(* chisl-db/src/repository/sqlite_conversation.rs:556-580 update_artifact_status *)
Definition update_artifact_status (conversation_id artifact_id status : string) (updated_at : TimestampMs) :
    SQL (option ConversationArtifactRow.t) := λ db,
  let p := is_artifact conversation_id artifact_id in
  match rows_affected p (tbl_artifacts db) with
  | O => (db, Ok None)
  | S _ => if negb (one_of ["active"; "pending"; "dismissed"; "saved"] status) then (db, Err (constraint "CHECK"))
           else let rows := sql_update p (with_status status updated_at) (tbl_artifacts db) in
                (set_artifacts rows db, Ok (List.find p rows))
  end.
(* chisl-db/src/repository/sqlite_conversation.rs:582-607 mark_skill_suggest_artifacts_saved *)
Definition mark_skill_suggest_artifacts_saved (cron_job_id : string) (updated_at : TimestampMs) :
    SQL (list ConversationArtifactRow.t) := λ db,
  let p r := String.eqb (ConversationArtifactRow.kind r) "skill_suggest" &&
             bool_decide (ConversationArtifactRow.cron_job_id r = Some cron_job_id) in
  let rows := sql_update (λ r, p r && negb (String.eqb (ConversationArtifactRow.status r) "saved"))
                (with_status "saved" updated_at) (tbl_artifacts db) in
  (set_artifacts rows db, Ok (order_asc artifact_made (List.filter p rows))).
(* chisl-db/src/repository/sqlite_conversation.rs:609-616 delete_artifacts_by_conversation *)
Definition delete_artifacts_by_conversation (conversation_id : string) : SQL unit := λ db,
  (set_artifacts (sql_delete (λ r, String.eqb (ConversationArtifactRow.conversation_id r) conversation_id) (tbl_artifacts db)) db, Ok tt).
(* chisl-db/src/repository/sqlite_conversation.rs:618-629 list_legacy_cron_trigger_messages *)
Definition list_legacy_cron_trigger_messages (conversation_id : string) : SQL (list MessageRow.t) := λ db,
  (db, Ok (order_asc written (List.filter (λ r, of_conversation conversation_id r &&
                                                String.eqb (MessageRow.type r) "cron_trigger") (tbl_messages db)))).
End repo.
End ConversationRepo.

(* ------------------------------------------------------------------ *)
(** ** Walking the pages *)

Section pages.
Context `{JsonCodec}.
Import ConversationRepo.
Implicit Types (r c : ConversationRow.t) (l : list ConversationRow.t) (f : ConversationFilters.t) (db : ConvDb).

Lemma key_le_total a b : key_le a b = true ∨ key_le b a = true.
Proof.
  unfold key_le. destruct (Z.lt_trichotomy (fst a) (fst b)) as [Hl|[He|Hl]].
  - left. by rewrite (proj2 (Z.ltb_lt _ _)).
  - rewrite He, Z.ltb_irrefl, Z.eqb_refl. simpl. apply String.leb_total.
  - right. by rewrite (proj2 (Z.ltb_lt _ _)).
Qed.
Lemma key_le_trans a b (c : Z * string) : key_le a b = true → key_le b c = true → key_le a c = true.
Proof.
  unfold key_le. rewrite !orb_true_iff, !andb_true_iff, !Z.ltb_lt, !Z.eqb_eq.
  intros [?|[? Hab]] [?|[? Hbc]]; [left; lia..|]. right. split; [lia|].
  assert (Ht : ∀ s t, Is_true (String.leb s t) ↔ String.leb s t = true) by (intros; by rewrite Is_true_true).
  apply Ht. apply Ht in Hab, Hbc. by apply (transitivity (R := String.le) Hab Hbc).
Qed.
Lemma leb_eqb_ltb s t : String.leb s t = true → s ≠ t → String.ltb s t = true.
Proof.
  unfold String.leb, String.ltb. destruct (String.compare s t) eqn:Hc; try done.
  by apply String.compare_eq_iff in Hc as ->.
Qed.
Lemma ltb_leb_false s t : String.leb s t = true → String.ltb t s = false.
Proof. unfold String.leb, String.ltb. rewrite (String.compare_antisym t s). by destruct (String.compare s t). Qed.

(** In a table with distinct ids what is not below a row and not the row is above it. *)
Definition below c r : bool := key_lt (position_of r) (position_of c).
Definition desc r c : Prop := Is_true (key_le (position_of c) (position_of r)).
#[local] Instance desc_total : Total desc.
Proof. intros r c. unfold desc. rewrite !Is_true_true. destruct (key_le_total (position_of r) (position_of c)); auto. Qed.
#[local] Instance desc_trans : Transitive desc.
Proof. intros r c d. unfold desc. rewrite !Is_true_true. intros H1 H2. by eapply key_le_trans. Qed.

Lemma desc_below r c : desc c r → ConversationRow.id r ≠ ConversationRow.id c → below c r = true.
Proof.
  unfold desc, below, key_le, key_lt. rewrite Is_true_true, !orb_true_iff, !andb_true_iff. simpl.
  intros [?|[? Hl]] Hne; [by left|]. right. split; [done|]. by apply leb_eqb_ltb.
Qed.
Lemma desc_not_below r c : desc r c → below c r = false.
Proof.
  unfold desc, below, key_le, key_lt. rewrite Is_true_true, !orb_true_iff, !andb_true_iff. simpl.
  rewrite Z.ltb_lt, Z.eqb_eq. intros [?|[He Hl]].
  - rewrite (proj2 (Z.ltb_ge _ _)), (proj2 (Z.eqb_neq _ _)) by lia. done.
  - rewrite He, Z.ltb_irrefl, Z.eqb_refl. simpl. by apply ltb_leb_false.
Qed.

Lemma reflexivity_desc r : desc r r.
Proof. unfold desc. rewrite Is_true_true. by destruct (key_le_total (position_of r) (position_of r)). Qed.

Lemma order_desc_spec l : order_desc position_of l ≡ₚ l ∧ StronglySorted desc (order_desc position_of l).
Proof.
  split; [apply merge_sort_Permutation|]. unfold order_desc. apply (StronglySorted_merge_sort desc).
Qed.

Lemma desc_antisym l r c : NoDup (map ConversationRow.id l) → r ∈ l → c ∈ l → desc r c → desc c r → r = c.
Proof.
  intros Hnd Hr Hc H1 H2. apply (key_unique ConversationRow.id l); try done.
  destruct (decide (ConversationRow.id r = ConversationRow.id c)) as [|Hne]; [done|].
  apply (desc_below c r) in H1; [|done]. apply desc_not_below in H2. congruence.
Qed.

Lemma sorted_below l pre c suf : NoDup (map ConversationRow.id l) →
  order_desc position_of l = pre ++ c :: suf →
  order_desc position_of (List.filter (below c) l) = suf.
Proof.
  intros Hnd Ho. destruct (order_desc_spec l) as [Hp Hs]. rewrite Ho in Hp, Hs.
  assert (Hnd' : NoDup (map ConversationRow.id (pre ++ c :: suf))) by (by rewrite Hp).
  apply StronglySorted_app in Hs as (Hps & _ & Hsc). apply StronglySorted_cons in Hsc as [Hcs Hsuf].
  assert (Hf : List.filter (below c) (pre ++ c :: suf) = suf).
  { rewrite map_app in Hnd'. apply NoDup_app in Hnd' as (_ & _ & Hndc). simpl in Hndc. apply NoDup_cons in Hndc as [Hc _].
    rewrite List.filter_app, filter_false; [|intros x Hx; apply desc_not_below, Hps; [done|by left]]. simpl.
    rewrite (desc_not_below c c) by apply reflexivity_desc. apply filter_true. intros x Hx.
    rewrite Forall_forall in Hcs. apply desc_below; [by apply Hcs|]. intros He. apply Hc. rewrite <- He.
    apply elem_of_map. by exists x. }
  destruct (order_desc_spec (List.filter (below c) l)) as [Hp2 Hs2].
  assert (Hperm : order_desc position_of (List.filter (below c) l) ≡ₚ suf).
  { by rewrite Hp2, <- Hf, (filter_permutation (below c) _ _ Hp). }
  apply (StronglySorted_unique_strong desc); try done. intros x y Hx Hy. apply (desc_antisym l); [done|..].
  - rewrite <- Hp, elem_of_app. right. right. by rewrite <- Hperm.
  - rewrite <- Hp, elem_of_app. right. by right.
Qed.

(** What a client does: ask for the page after the last conversation it has seen. *)
Fixpoint walk (fuel : nat) (user_id : string) f db : option (list ConversationRow.t) :=
  match fuel with
  | O => None
  | S fuel =>
      match snd (list_paginated user_id f db) with
      | Ok p =>
          if has_more p
          then match last (items p) with
               | Some r => app (items p) <$> walk fuel user_id (ConversationFilters.with_cursor (Some (ConversationRow.id r)) f) db
               | None => None
               end
          else Some (items p)
      | Err _ => None
      end
  end.

(** The cron filter can be evaluated on the user's conversations. *)
Definition extras_readable (user_id : string) f db : Prop :=
  ConversationFilters.cron_job_id f = None ∨
  Forall (λ r, ConversationRow.user_id r = user_id → readable r = true) (tbl_conversations db).

Lemma readable_filter user_id f db : extras_readable user_id f db →
  match ConversationFilters.cron_job_id f with Some _ => true | None => false end &&
    existsb (λ r, String.eqb (ConversationRow.user_id r) user_id && negb (readable r)) (tbl_conversations db) = false.
Proof.
  intros [->|Hall]; [done|]. apply andb_false_iff. right. apply not_true_is_false.
  intros (r & Hr%list_elem_of_In & [Hu Hn]%andb_true_iff)%existsb_exists. rewrite Forall_forall in Hall.
  apply String.eqb_eq in Hu. by rewrite (Hall r Hr Hu) in Hn.
Qed.

Lemma page_of_take {A} (n : nat) (l : list A) :
  page_of (Z.of_nat n) (take (S n) l) = (take n l, (n <? length l)%nat).
Proof.
  unfold page_of. rewrite length_take. destruct (Nat.ltb_spec n (length l)) as [Hl|Hl].
  - rewrite (proj2 (Z.ltb_lt _ _)) by lia. f_equal. destruct (lookup_lt_is_Some_2 l n Hl) as [x Hx].
    rewrite (take_S_r _ _ _ Hx). by rewrite removelast_last.
  - rewrite (proj2 (Z.ltb_ge _ _)) by lia. by rewrite !take_ge by lia.
Qed.

(** The page after [pre] when [pre ++ suf] is the whole list. *)
Lemma page_after user_id f db pre suf : let l := List.filter (selected user_id f) (tbl_conversations db) in
  NoDup (map ConversationRow.id (tbl_conversations db)) → extras_readable user_id f db →
  0 <= ConversationFilters.limit f < 2 ^ 32 - 1 → order_desc position_of l = pre ++ suf →
  ConversationFilters.cursor f = ConversationRow.id <$> last pre →
  let n := Z.to_nat (ConversationFilters.effective_limit f) in
  snd (list_paginated user_id f db) = Ok (mk_page (take n suf) (length l) (n <? length suf)%nat) ∧ (0 < n)%nat.
Proof.
  intros l Hnd Hread Hlim Ho Hcur n.
  assert (Hn : 0 < ConversationFilters.effective_limit f < 2 ^ 32 - 1).
  { unfold ConversationFilters.effective_limit. destruct (Z.eqb_spec (ConversationFilters.limit f) 0); lia. }
  assert (Hndl : NoDup (map ConversationRow.id l)) by by apply NoDup_map_filter.
  assert (Hrows : order_desc position_of (List.filter (below_cursor f db) l) = suf).
  { unfold below_cursor. rewrite Hcur. destruct (last pre) as [c|] eqn:Hl.
    - apply last_Some in Hl as [pre0 ->]. rewrite <- app_assoc in Ho. simpl in Ho. simpl.
      assert (Hc : c ∈ l) by (destruct (order_desc_spec l) as [Hp _]; rewrite <- Hp, Ho; set_solver).
      rewrite (find_key ConversationRow.id (is_conversation (ConversationRow.id c)) _ c); try done.
      + by apply (sorted_below l pre0 c suf).
      + intros x. apply String.eqb_eq.
      + by apply elem_of_filter_list in Hc as [? _].
    - apply last_None in Hl as ->. simpl in *. by rewrite filter_true. }
  split; [|lia]. unfold list_paginated. rewrite (readable_filter _ _ _ Hread). fold l. rewrite Hrows.
  unfold w32. rewrite Z.mod_small by lia.
  replace (Z.to_nat (ConversationFilters.effective_limit f + 1)) with (S n) by lia.
  replace (ConversationFilters.effective_limit f) with (Z.of_nat n) by lia.
  by rewrite page_of_take.
Qed.

(** C39: the pages of the repository list every conversation once.  A caller that starts
    without a cursor and asks for the page after the last row of the one before, until
    there is no more, has been given exactly the conversations of the user that pass the
    filters, each once, latest update first and in the order of ids among equal times; it
    asks at most once more than there are conversations.  The table does not change
    between its calls, the extras of the user's rows are readable, and one more than the
    limit fits in 32 bits.  (The service leaves rows out of a page it passes on.) *)
Theorem walk_lists_everything user_id f db :
  NoDup (map ConversationRow.id (tbl_conversations db)) → extras_readable user_id f db →
  0 <= ConversationFilters.limit f < 2 ^ 32 - 1 → ConversationFilters.cursor f = None →
  walk (S (length (tbl_conversations db))) user_id f db =
    Some (order_desc position_of (List.filter (selected user_id f) (tbl_conversations db))).
Proof.
  intros Hnd Hread Hlim Hcur. set (l := order_desc _ _).
  cut (∀ fuel pre suf f', l = pre ++ suf → (length suf < fuel)%nat →
    f' = ConversationFilters.with_cursor (ConversationRow.id <$> last pre) f → walk fuel user_id f' db = Some suf).
  { intros Hgen. apply (Hgen _ [] l f); [done| |by destruct f; simpl in *; subst].
    unfold l. rewrite (Permutation_length (proj1 (order_desc_spec _))). pose proof (List.filter_length_le (selected user_id f) (tbl_conversations db)). lia. }
  induction fuel as [|fuel IH]; intros pre suf f' Hl Hfuel ->; [lia|]. simpl.
  destruct (page_after user_id (ConversationFilters.with_cursor (ConversationRow.id <$> last pre) f) db pre suf) as [-> Hn];
    [done..|]. cbn [has_more items]. set (n := Z.to_nat _) in *.
  destruct (Nat.ltb_spec n (length suf)) as [Hlt|Hge]; [|by rewrite take_ge].
  destruct (last (take n suf)) as [r|] eqn:Hr.
  - rewrite (IH (pre ++ take n suf) (drop n suf)).
    + simpl. by rewrite take_drop.
    + by rewrite <- app_assoc, take_drop.
    + rewrite length_drop. lia.
    + by rewrite last_app, Hr.
  - apply last_None in Hr. apply (f_equal length) in Hr. rewrite length_take in Hr. simpl in Hr. lia.
Qed.
End pages.

(* ------------------------------------------------------------------ *)
(** ** Concrete runs *)

Section witnesses.
#[local] Existing Instance plain_codec.
Import ConversationRepo.
Definition chat (id : string) (updated : Z) : ConversationRow.t :=
  ConversationRow.mk id "u1" "Chat" "acp" "{}" None (Some "finished") None None false None 0 updated.
Definition three_chats : ConvDb := mk_conv_db [chat "a" 5; chat "b" 7; chat "c" 5] [] [] ["u1"].
Definition two_per_page (cursor : option string) : ConversationFilters.t := ConversationFilters.mk cursor 2 None None None.

Lemma walk_lists_everything_witness :
  order_desc position_of (List.filter (selected "u1" (two_per_page None)) (tbl_conversations three_chats)) =
    [chat "b" 7; chat "c" 5; chat "a" 5] ∧
  walk 4 "u1" (two_per_page None) three_chats =
    Some (order_desc position_of (List.filter (selected "u1" (two_per_page None)) (tbl_conversations three_chats))).
Proof.
  split; [vm_compute; reflexivity|].
  apply (walk_lists_everything "u1" (two_per_page None) three_chats); try done.
  - simpl. repeat (apply NoDup_cons; split; [set_solver|]). apply NoDup_nil_2.
  - by left.
Defined.

(** A cursor that was deleted meanwhile ends the walk as if there were nothing left. *)
Lemma deleted_cursor_ends_the_walk :
  snd (list_paginated "u1" (two_per_page (Some "gone")) three_chats) = Ok (mk_page [] 3 false).
Proof. vm_compute. reflexivity. Qed.

(** The keyword of a search is a pattern: a percent sign finds everything. *)
Lemma keyword_is_a_pattern : like ("%" +:+ "50%" +:+ "%") "about 50 cats" = true.
Proof. vm_compute. reflexivity. Qed.
End witnesses.
