(* ===== verification/ConvMiddleware.v ===== *)
(** * ConvMiddleware: what is done with a finished answer

    [chisl-conversation/src/response_middleware.rs]: think tags are removed, commands for
    scheduled jobs are found, executed and removed.  The five expressions of the [regex]
    crate are the class [ResponseRegex]; the job service, which the cron component
    implements, is a record of operations over a state of its own. *)

From S2P Require Import Prelude.
From S2P Require Import Text.

Record CronCreateParams := mk_create {
  c_name : string; c_schedule : string; c_schedule_description : string; c_message : string }.
Record CronUpdateParams := mk_update {
  u_job_id : string; u_name : string; u_schedule : string; u_schedule_description : string; u_message : string }.
(* chisl-conversation/src/response_middleware.rs:44-49 CronCommand *)
Inductive CronCommand :=
| Create (p : CronCreateParams) | Update (p : CronUpdateParams) | List | Delete (id : string).

(** The matches of an expression in a text, and the text without them.  [is_match] says
    whether there is a match; without one [replace_all] changes nothing. *)
Record Regex (C : Type) := mk_regex {
  captures_iter : string → list C;
  is_match : string → bool;
  replace_all : string → string;
  is_match_spec : ∀ s, is_match s = true ↔ captures_iter s ≠ [];
  replace_all_none : ∀ s, is_match s = false → replace_all s = s;
}.
Arguments captures_iter {C}.
Arguments is_match {C}.
Arguments replace_all {C}.

(** With the groups that are read: the body of a block, the id and the body, the id. *)
Class ResponseRegex := {
  THINK_TAG_RE : Regex unit;
  CRON_CREATE_RE : Regex string;
  CRON_UPDATE_RE : Regex (string * string);
  CRON_LIST_RE : Regex unit;
  CRON_DELETE_RE : Regex string;
}.

(* chisl-conversation/src/response_middleware.rs:198-201 CronCommandResult *)
Record CronCommandResult := mk_command_result { success : bool; message : string }.
(** The service the middleware was given, over the state it acts on. *)
(* chisl-conversation/src/response_middleware.rs:208-221 ICronService *)
Record ICronService (S : Type) := mk_service {
  create_job : string → string → CronCreateParams → S → S * CronCommandResult;
  update_job : string → string → CronUpdateParams → S → S * CronCommandResult;
  list_jobs : string → string → S → S * CronCommandResult;
  delete_job : string → string → S → S * CronCommandResult }.
Arguments create_job {S}.
Arguments update_job {S}.
Arguments list_jobs {S}.
Arguments delete_job {S}.

Record CronCommandFields := mk_fields {
  f_name : option string; f_schedule : option string; f_schedule_description : option string; f_message : option string }.

(* chisl-conversation/src/response_middleware.rs:141-152 parse_cron_command_body (line) *)
Definition read_field (line : string) (f : CronCommandFields) : CronCommandFields :=
  let line := trim line in
  match strip_prefix "name:" line with
  | Some v => mk_fields (Some (trim v)) (f_schedule f) (f_schedule_description f) (f_message f)
  | None =>
  match strip_prefix "schedule_description:" line with
  | Some v => mk_fields (f_name f) (f_schedule f) (Some (trim v)) (f_message f)
  | None =>
  match strip_prefix "schedule:" line with
  | Some v => mk_fields (f_name f) (Some (trim v)) (f_schedule_description f) (f_message f)
  | None =>
  match strip_prefix "message:" line with
  | Some v => mk_fields (f_name f) (f_schedule f) (f_schedule_description f) (Some (trim v))
  | None => f
  end end end end.
(* chisl-conversation/src/response_middleware.rs:140-165 parse_cron_command_body *)
Definition parse_cron_command_body (body : string) : option CronCommandFields :=
  Some (foldl (λ f l, read_field l f) (mk_fields None None None None) (lines body)).
(* chisl-conversation/src/response_middleware.rs:167-175 parse_cron_create_body *)
Definition parse_cron_create_body (body : string) : option CronCreateParams :=
  f ← parse_cron_command_body body; schedule ← f_schedule f;
  Some (mk_create (default EmptyString (f_name f)) schedule (default EmptyString (f_schedule_description f))
          (default EmptyString (f_message f))).
(* chisl-conversation/src/response_middleware.rs:177-190 parse_cron_update_body *)
Definition parse_cron_update_body (job_id body : string) : option CronUpdateParams :=
  if String.eqb job_id EmptyString then None else
  f ← parse_cron_command_body body; name ← f_name f; schedule ← f_schedule f;
  description ← f_schedule_description f; message ← f_message f;
  Some (mk_update job_id name schedule description message).

Section middleware.
Context `{ResponseRegex}.

(* chisl-conversation/src/response_middleware.rs:18-20 strip_think_tags *)
Definition strip_think_tags (text : string) : string := replace_all THINK_TAG_RE text.
(* chisl-conversation/src/response_middleware.rs:71-104 detect_cron_commands *)
Definition detect_cron_commands (text : string) : list CronCommand :=
  omap (λ body, Create <$> parse_cron_create_body body) (captures_iter CRON_CREATE_RE text) ++
  omap (λ m, Update <$> parse_cron_update_body (trim (fst m)) (snd m)) (captures_iter CRON_UPDATE_RE text) ++
  (if is_match CRON_LIST_RE text then [List] else []) ++
  omap (λ m, let id := trim m in if String.eqb id EmptyString then None else Some (Delete id))
    (captures_iter CRON_DELETE_RE text).
(* chisl-conversation/src/response_middleware.rs:107-112 has_cron_commands *)
Definition has_cron_commands (text : string) : bool :=
  is_match CRON_CREATE_RE text || is_match CRON_UPDATE_RE text || is_match CRON_LIST_RE text || is_match CRON_DELETE_RE text.
(* chisl-conversation/src/response_middleware.rs:115-121 strip_cron_commands *)
Definition strip_cron_commands (text : string) : string :=
  replace_all CRON_DELETE_RE (replace_all CRON_LIST_RE (replace_all CRON_UPDATE_RE (replace_all CRON_CREATE_RE text))).

(* chisl-conversation/src/response_middleware.rs:229-236 MiddlewareResult *)
Record MiddlewareResult := mk_result { r_message : string; display_message : option string; system_responses : list string }.

Context {S : Type}.
Definition execute (svc : ICronService S) (user_id conversation_id : string) (c : CronCommand) (s : S) : S * CronCommandResult :=
  match c with
  | Create p => create_job svc user_id conversation_id p s
  | Update p => update_job svc user_id conversation_id p s
  | List => list_jobs svc user_id conversation_id s
  | Delete id => delete_job svc user_id id s
  end.
Definition response_text (r : CronCommandResult) : string :=
  (if success r then "[System: " else "[System Error: ") +:+ message r +:+ "]".
Fixpoint execute_all (svc : ICronService S) (user_id conversation_id : string) (cs : list CronCommand) (s : S) : S * list string :=
  match cs with
  | [] => (s, [])
  | c :: cs => let '(s, r) := execute svc user_id conversation_id c s in
               let '(s, rs) := execute_all svc user_id conversation_id cs s in (s, response_text r :: rs)
  end.
(* chisl-conversation/src/response_middleware.rs:285-319 execute_cron_commands *)
Definition execute_cron_commands (svc : option (ICronService S)) (user_id conversation_id : string)
    (commands : list CronCommand) (s : S) : S * list string :=
  match svc with
  | None => (s, ["[System: Cron service is not available]"])
  | Some svc => execute_all svc user_id conversation_id commands s
  end.

(* chisl-conversation/src/response_middleware.rs:258-282 process *)
Definition process (svc : option (ICronService S)) (text user_id conversation_id : string) (s : S) : S * MiddlewareResult :=
  let cleaned := strip_think_tags text in
  if negb (has_cron_commands cleaned) then (s, mk_result cleaned None [])
  else
    let commands := detect_cron_commands cleaned in
    let display := strip_cron_commands cleaned in
    let '(s, responses) := execute_cron_commands svc user_id conversation_id commands s in
    (s, mk_result display (Some display) responses).

(* ------------------------------------------------------------------ *)
(** ** Facts *)

Lemma is_match_none {C} (r : Regex C) s : is_match r s = false → captures_iter r s = [].
Proof.
  intros Hm. destruct (captures_iter r s) as [|c l] eqn:Hc; [done|]. assert (Hne : captures_iter r s ≠ []) by (by rewrite Hc).
  apply is_match_spec in Hne. congruence.
Qed.

(** The quick check misses no command. *)
Lemma quick_check_is_complete text : has_cron_commands text = false →
  detect_cron_commands text = [] ∧ strip_cron_commands text = text.
Proof.
  unfold has_cron_commands, detect_cron_commands, strip_cron_commands. rewrite !orb_false_iff. intros (((H1&H2)&H3)&H4).
  rewrite (is_match_none _ _ H1), (is_match_none _ _ H2), (is_match_none _ _ H4), H3. split; [done|].
  by rewrite (replace_all_none _ CRON_CREATE_RE text H1), (replace_all_none _ CRON_UPDATE_RE text H2),
    (replace_all_none _ CRON_LIST_RE text H3), (replace_all_none _ CRON_DELETE_RE text H4).
Qed.

Lemma execute_all_length svc u c cs : ∀ s, length (snd (execute_all svc u c cs s)) = length cs.
Proof.
  induction cs as [|x cs IH]; intros s; simpl; [done|]. destruct (execute svc u c x s) as [s1 r].
  specialize (IH s1). destruct (execute_all svc u c cs s1) as [s2 rs]. simpl in *. by rewrite IH.
Qed.

(** Without a command nothing is executed and nothing but the think tags removed. *)
Lemma process_plain svc text u c s :
  is_match THINK_TAG_RE text = false → has_cron_commands text = false → process svc text u c s = (s, mk_result text None []).
Proof.
  intros Ht Hc. unfold process, strip_think_tags. by rewrite (replace_all_none _ THINK_TAG_RE text Ht), Hc.
Qed.
End middleware.

(* ------------------------------------------------------------------ *)
(** ** An instance: scanning for the literal brackets *)

Module Scan.
(** What matches at the start of a text, with what follows. *)
Definition matcher (C : Type) : Type := string → option (C * string).
Inductive piece (C : Type) := Lit (a : Ascii.ascii) | Match (c : C).
Arguments Lit {C}.
Arguments Match {C}.
Fixpoint pieces {C} (m : matcher C) (n : nat) (s : string) : list (piece C) :=
  match n, s with
  | S n, String a s' => match m s with Some (c, rest) => Match c :: pieces m n rest | None => Lit a :: pieces m n s' end
  | _, _ => []
  end.
Definition found {C} (p : piece C) : option C := match p with Match c => Some c | Lit _ => None end.
Fixpoint literals {C} (l : list (piece C)) : string :=
  match l with [] => EmptyString | Lit a :: l => String a (literals l) | Match _ :: l => literals l end.
Definition all {C} (m : matcher C) (s : string) : list (piece C) := pieces m (String.length s) s.
Definition matches {C} (m : matcher C) (s : string) : list C := omap found (all m s).

Lemma no_match {C} (m : matcher C) n : ∀ s, (String.length s ≤ n)%nat → omap found (pieces m n s) = [] → literals (pieces m n s) = s.
Proof.
  induction n as [|n IH]; intros [|a s]; simpl; try done; [lia|]. intros Hn.
  destruct (m (String a s)) as [[c rest]|]; simpl; [done|]. intros Hf. rewrite IH; [done|lia|done].
Qed.

Definition some_match {C} (m : matcher C) (s : string) : bool := match matches m s with [] => false | _ => true end.
Definition without {C} (m : matcher C) (s : string) : string := literals (all m s).
Lemma some_match_spec {C} (m : matcher C) s : some_match m s = true ↔ matches m s ≠ [].
Proof. unfold some_match. by destruct (matches m s). Qed.
Lemma without_none {C} (m : matcher C) s : some_match m s = false → without m s = s.
Proof. unfold some_match. destruct (matches m s) eqn:Hm; [|done]. intros _. by apply no_match. Qed.
Definition regex {C} (m : matcher C) : Regex C :=
  mk_regex C (matches m) (some_match m) (without m) (some_match_spec m) (without_none m).

(** Up to the first occurrence of a text. *)
Fixpoint until (close s : string) : option (string * string) :=
  match strip_prefix close s with
  | Some rest => Some (EmptyString, rest)
  | None => match s with
            | EmptyString => None
            | String a s' => match until close s' with Some (b, rest) => Some (String a b, rest) | None => None end
            end
  end.
Definition block (open close : string) : matcher string := λ s,
  r ← strip_prefix open s; b ← until close r; Some (trim (fst b), snd b).
Definition literal (t : string) : matcher unit := λ s, r ← strip_prefix t s; Some (tt, r).
(** [X: id]: the id goes up to the bracket and is not empty. *)
Definition tagged (open : string) : matcher string := λ s,
  r ← strip_prefix open s; b ← until "]" r;
  if String.eqb (fst b) EmptyString then None else Some b.
Definition updates : matcher (string * string) := λ s,
  t ← tagged "[CRON_UPDATE:" s; b ← until "[/CRON_UPDATE]" (snd t); Some ((fst t, trim (fst b)), snd b).
Definition think : matcher unit := λ s,
  r ← match strip_prefix "<think>" s with Some r => Some r | None => strip_prefix "<thinking>" s end;
  match until "</think>" r, until "</thinking>" r with
  | Some (b, x), Some (b', x') => Some (tt, if (String.length b <=? String.length b')%nat then x else x')
  | Some (_, x), None | None, Some (_, x) => Some (tt, x)
  | None, None => None
  end.

Definition scan_regex : ResponseRegex := {|
  THINK_TAG_RE := regex think;
  CRON_CREATE_RE := regex (block "[CRON_CREATE]" "[/CRON_CREATE]");
  CRON_UPDATE_RE := regex updates;
  CRON_LIST_RE := regex (literal "[CRON_LIST]");
  CRON_DELETE_RE := regex (tagged "[CRON_DELETE:") |}.
End Scan.

Section examples.
#[local] Existing Instance Scan.scan_regex.

Example commands_found :
  detect_cron_commands ("Sure. [CRON_CREATE] name: Daily" +:+ nl +:+ "schedule: 0 9 * * *" +:+ nl +:+
    "[/CRON_CREATE] Done [CRON_LIST][CRON_DELETE: j1 ]") =
  [Create (mk_create "Daily" "0 9 * * *" EmptyString EmptyString); List; Delete "j1"].
Proof. vm_compute. reflexivity. Qed.

(** A block without a schedule is removed from the answer and nobody is told. *)
Lemma incomplete_command_vanishes :
  let text := "[CRON_CREATE]" +:+ nl +:+ "name: Daily" +:+ nl +:+ "[/CRON_CREATE]ok" in
  has_cron_commands text = true ∧ detect_cron_commands text = [] ∧ strip_cron_commands text = "ok".
Proof. vm_compute. done. Qed.
End examples.
