(* ===== verification/ConvCron.v ===== *)
(** * ConvCron: what the job service writes to conversations

    The middleware hands the commands of an answer to the job service of [chisl-cron],
    whose methods bind jobs to conversations: the id of the job goes into the extra of a
    row, which need not be the row of the conversation the answer belongs to.
    [bind_cron_job_to_conversation] is that write; [rebinds] is what any number of such
    writes may do to the table; a [CronCommands] is a job service whose methods do nothing
    else to it.  [CronBinding.v] shows it of the service of [chisl-cron]. *)

From S2P Require Import Prelude.
From S2P Require Import Text.
From S2P Require Import JsonValue.
From S2P Require Import TeamTypes.
From S2P Require Import Sql.
From S2P Require Import ConvRepo.
From S2P Require Import ConvMiddleware.
Implicit Types (r : ConversationRow.t) (rows : list ConversationRow.t).

Section bind.
Context `{JsonCodec}.

(** [from_str(&row.extra).unwrap_or_else(|_| json!({}))]. *)
Definition row_extra r : json := default (Obj []) (from_str (ConversationRow.extra r)).
Definition row_of (id : string) rows : option ConversationRow.t := List.find (ConversationRepo.is_conversation id) rows.

Definition extra_update (extra : string) (now : TimestampMs) : ConversationRowUpdate.t :=
  ConversationRowUpdate.mk None None None None (Some extra) None (Some now).
(** The errors of the database are only logged by the callers. *)
(* chisl-cron/src/executor.rs:224-283 bind_cron_job_to_conversation *)
Definition bind_cron_job_to_conversation (conversation_id cron_job_id : string) (now : TimestampMs) rows : list ConversationRow.t :=
  match row_of conversation_id rows with
  | None => rows
  | Some row =>
      let extra := row_extra row in
      let current := match get "cron_job_id" extra ≫= as_str with
                     | Some i => Some i | None => get "cronJobId" extra ≫= as_str end in
      if bool_decide (current = Some cron_job_id) then rows else
      let obj := default [] (as_object extra) in
      let obj := insert "cronJobId" (Str cron_job_id) (insert "cron_job_id" (Str cron_job_id) obj) in
      sql_update (ConversationRepo.is_conversation conversation_id)
        (ConversationRepo.apply_update (extra_update (to_string (Obj obj)) now)) rows
  end.

(** The extra of a row is the text of an object. *)
Definition object_text (t : string) : Prop := ∃ o, from_str t = Some (Obj o).
Lemma object_written o : json_ok (Obj o) = true → object_text (to_string (Obj o)).
Proof. intros Ho. exists o. by apply codec_roundtrip. Qed.

(** All columns but [extra] and [updated_at] are kept, and what is written is an object. *)
Record bound_row r r' : Prop := {
  bound_rest : r' = ConversationRepo.apply_update (extra_update (ConversationRow.extra r') (ConversationRow.updated_at r')) r;
  bound_object : ConversationRow.extra r' = ConversationRow.extra r ∨ object_text (ConversationRow.extra r') }.
(** All keys of the extra are kept but the two that name the job. *)
Definition keeps_keys r r' : Prop :=
  ∀ k, k ≠ "cron_job_id" → k ≠ "cronJobId" → get k (row_extra r') = get k (row_extra r).
Record rebinds rows rows' : Prop := {
  rebinds_rows : Forall2 bound_row rows rows';
  rebinds_keys : ∀ i r r', row_of i rows = Some r → row_of i rows' = Some r' → keeps_keys r r' }.

Lemma bound_row_refl r : bound_row r r.
Proof. split; [by destruct r|by left]. Qed.
Lemma bound_row_id r r' : bound_row r r' → ConversationRow.id r' = ConversationRow.id r.
Proof. by intros [-> _]. Qed.
Lemma bound_row_trans r1 r2 r3 : bound_row r1 r2 → bound_row r2 r3 → bound_row r1 r3.
Proof.
  intros [H1 O1] [H2 O2]. split; [by rewrite H2, H1|]. destruct O2 as [->|?]; [done|by right].
Qed.
Lemma rebinds_refl rows : rebinds rows rows.
Proof. split; [apply Forall_Forall2_diag, Forall_forall; intros; apply bound_row_refl|]. intros i r r' -> [= ->]. done. Qed.
Lemma rebinds_find i rows rows' : Forall2 bound_row rows rows' →
  option_Forall2 bound_row (row_of i rows) (row_of i rows').
Proof.
  unfold row_of. induction 1 as [|r r' rows rows' Hr _ IH]; simpl; [constructor|].
  unfold ConversationRepo.is_conversation at 1 3. rewrite (bound_row_id _ _ Hr). destruct (String.eqb _ _); [by constructor|done].
Qed.
Lemma rebinds_trans rows1 rows2 rows3 : rebinds rows1 rows2 → rebinds rows2 rows3 → rebinds rows1 rows3.
Proof.
  intros [H1 K1] [H2 K2]. assert (Transitive bound_row) by (intros x y z; apply bound_row_trans). split; [by etrans|].
  intros i r1 r3 Hr1 Hr3 k Hk Hk'. pose proof (rebinds_find i _ _ H1) as Hf. rewrite Hr1 in Hf.
  destruct (row_of i rows2) as [r2|] eqn:Hr2; [|inversion Hf]. by rewrite (K2 i r2 r3), (K1 i r1 r2).
Qed.
Lemma rebinds_ids rows rows' : rebinds rows rows' → map ConversationRow.id rows' = map ConversationRow.id rows.
Proof. intros [Hf _]. induction Hf as [|r r' rows rows' Hr _ IH]; simpl; [done|]. by rewrite IH, (bound_row_id _ _ Hr). Qed.

Lemma row_extra_ok r : json_ok (row_extra r) = true.
Proof. unfold row_extra. destruct (from_str _) as [v|] eqn:Hv; [by apply (from_str_ok (ConversationRow.extra r))|done]. Qed.

(** One binding is a rebinding. *)
Lemma bind_rebinds conversation_id job now rows : rebinds rows (bind_cron_job_to_conversation conversation_id job now rows).
Proof.
  unfold bind_cron_job_to_conversation. destruct (row_of conversation_id rows) as [row|] eqn:Hrow; [|apply rebinds_refl].
  destruct (bool_decide _); [apply rebinds_refl|]. set (obj := default [] _).
  assert (json_ok (Obj obj) = true) as Hobj.
  { pose proof (row_extra_ok row) as Hok. unfold obj. by destruct (row_extra row). }
  set (bound := insert "cronJobId" _ _).
  assert (json_ok (Obj bound) = true) as Hbound by (by repeat apply ok_insert).
  assert (Hone : ∀ r, bound_row r (ConversationRepo.apply_update (extra_update (to_string (Obj bound)) now) r)).
  { intros r. split; [done|]. right. by apply object_written. }
  split.
  - clear Hrow. unfold sql_update. induction rows as [|r rows IH]; simpl; constructor; [|done].
    destruct (ConversationRepo.is_conversation conversation_id r); [apply Hone|apply bound_row_refl].
  - intros i r r' Hr Hr' k Hk Hk'. unfold row_of, sql_update in *. revert Hr Hr'.
    assert (Hsame : row_extra (ConversationRepo.apply_update (extra_update (to_string (Obj bound)) now) row) = Obj bound).
    { unfold row_extra. simpl. by rewrite codec_roundtrip. }
    assert (Hkeys : get k (Obj bound) = get k (row_extra row)).
    { unfold bound. simpl. rewrite !entry_insert_ne by done. unfold obj. by destruct (row_extra row). }
    revert Hrow. induction rows as [|x rows IH]; simpl; [done|]. unfold ConversationRepo.is_conversation in *. simpl.
    destruct (String.eqb_spec (ConversationRow.id x) conversation_id) as [Hx|Hx]; simpl.
    + intros [= ->]. destruct (String.eqb_spec (ConversationRow.id row) i) as [Hi|Hi].
      * intros [= <-] [= <-]. by rewrite Hsame.
      * intros Hr Hr'. assert (r' = r) as ->; [|done]. clear IH. induction rows as [|y rows IH]; [done|]. simpl in *.
        destruct (String.eqb_spec (ConversationRow.id y) conversation_id) as [Hy|Hy]; simpl in Hr'.
        -- rewrite (proj2 (String.eqb_neq (ConversationRow.id y) i)) in Hr, Hr' by congruence. by apply IH.
        -- destruct (String.eqb _ i); [congruence|by apply IH].
    + intros Hf. destruct (String.eqb (ConversationRow.id x) i); [by intros [= <-] [= <-]|]. by apply IH.
Qed.
Lemma bind_all_rebinds {A} (f : A → string * string * TimestampMs) l : ∀ rows,
  rebinds rows (foldl (λ rows a, let '(c, j, t) := f a in bind_cron_job_to_conversation c j t rows) rows l).
Proof.
  induction l as [|a l IH]; intros rows; simpl; [apply rebinds_refl|]. destruct (f a) as [[c j] t].
  eapply rebinds_trans; [apply bind_rebinds|apply IH].
Qed.

(** On the database: what is written is an update of the repository. *)
Lemma bind_is_update conversation_id job now db :
  bind_cron_job_to_conversation conversation_id job now (tbl_conversations db) = tbl_conversations db ∨
  ∃ extra, bind_cron_job_to_conversation conversation_id job now (tbl_conversations db) =
    tbl_conversations (fst (ConversationRepo.update conversation_id (extra_update extra now) db)).
Proof.
  unfold bind_cron_job_to_conversation. destruct (row_of _ _) as [row|]; [|by left]. destruct (bool_decide _); [by left|].
  right. eexists. unfold ConversationRepo.update. simpl. by destruct (rows_affected _ _).
Qed.

(** A job service: its methods act on a state of its own and on the table, where they
    bind jobs to conversations and nothing else. *)
Record CronCommands (S : Type) := mk_commands {
  service : ICronService (S * list ConversationRow.t);
  binds_only : ∀ user_id conversation_id c s rows,
    rebinds rows (snd (fst (execute service user_id conversation_id c (s, rows)))) }.
Arguments service {S}.
Arguments binds_only {S}.

(** What handing an answer to the service may do to the table: nothing without a service. *)
Record served {S} (svc : option (CronCommands S)) rows rows' : Prop := {
  served_rebinds : rebinds rows rows';
  served_by_none : svc = None → rows' = rows }.
Lemma served_refl {S} (svc : option (CronCommands S)) rows : served svc rows rows.
Proof. split; [apply rebinds_refl|done]. Qed.
Lemma served_trans {S} (svc : option (CronCommands S)) rows1 rows2 rows3 :
  served svc rows1 rows2 → served svc rows2 rows3 → served svc rows1 rows3.
Proof. intros [H1 N1] [H2 N2]. split; [by eapply rebinds_trans|]. intros Hn. by rewrite N2, N1. Qed.

Lemma commands_served `{ResponseRegex} {S} (svc : option (CronCommands S)) u c cs : ∀ (s : S) rows,
  served svc rows (snd (fst (execute_cron_commands (service <$> svc) u c cs (s, rows)))).
Proof.
  destruct svc as [svc|]; simpl; [|intros; apply served_refl]. intros s rows. split; [|done].
  revert s rows. induction cs as [|x cs IH]; intros s1 rows1; simpl; [apply rebinds_refl|].
  pose proof (binds_only svc u c x s1 rows1) as Hx. destruct (execute (service svc) u c x (s1, rows1)) as [[s2 rows2] r]. simpl in Hx.
  specialize (IH s2 rows2). destruct (execute_all (service svc) u c cs (s2, rows2)) as [[s3 rows3] rs]. by eapply rebinds_trans.
Qed.
Lemma process_served `{ResponseRegex} {S} (svc : option (CronCommands S)) text u c (s : S) rows :
  served svc rows (snd (fst (process (service <$> svc) text u c (s, rows)))).
Proof.
  unfold process. destruct (negb _); [apply served_refl|].
  pose proof (commands_served svc u c (detect_cron_commands (strip_think_tags text)) s rows) as Hall.
  by destruct (execute_cron_commands _ _ _ _ _) as [[s' rows'] rs].
Qed.
End bind.
Arguments mk_commands {_ S}.
Arguments service {_ S}.
