(* ===== verification/ConvRelay.v ===== *)
(** * ConvRelay: the stream of an agent becomes the messages of a conversation

    [chisl-conversation/src/stream_relay.rs]: a task takes the events of a turn, sends
    each to the WebSocket clients and writes what they say into the table of messages.
    A step of the task is one received event; the clock is read once per step.  What is
    sent is kept as data ([payload]); [forward_to_websocket] writes it as JSON.  The
    theorems are in [ConvRelayFacts]. *)

From S2P Require Import Prelude.
From S2P Require Import Text.
From S2P Require Import JsonValue.
From S2P Require Import CaseConvert.
From S2P Require Import TeamTypes.
From S2P Require Import ConvRepo.
From S2P Require Import ConvMiddleware.
From S2P Require Import ConvCron.

(* ------------------------------------------------------------------ *)
(** ** Events *)

(* chisl-ai-agent/src/protocol/events/mod.rs:176-180 AssistantModelInfoEventData *)
Record ModelInfo := mk_model_info { message_id : string; provider_id : string; model_id : string }.
(* chisl-ai-agent/src/protocol/events/tool_call.rs:116-120 ToolCallStatus *)
Inductive ToolCallStatus := ToolRunning | ToolCompleted | ToolError.
(* chisl-ai-agent/src/protocol/events/tool_call.rs:66-71 AcpToolCallStatus *)
Inductive AcpToolCallStatus := AcpPending | AcpInProgress | AcpCompleted | AcpFailed.
(* chisl-ai-agent/src/protocol/events/tool_call.rs:59-62 AcpToolCallSessionUpdateKind *)
Inductive AcpToolCallSessionUpdateKind := KToolCall | KToolCallUpdate.

Module ToolCallEventData.
(* chisl-ai-agent/src/protocol/events/tool_call.rs:7-19 ToolCallEventData *)
Record t := mk {
  call_id : string; name : string; args : json; status : ToolCallStatus; input : option json;
  output : option string; description : option string }.
End ToolCallEventData.
Module ToolGroupEntry.
(* chisl-ai-agent/src/protocol/events/tool_call.rs:124-130 ToolGroupEntry *)
Record t := mk { call_id : string; name : string; status : ToolCallStatus; description : option string }.
End ToolGroupEntry.
(** [value] is what [serde] makes of it. *)
Module AcpToolCallEventData.
(* chisl-ai-agent/src/protocol/events/tool_call.rs:22-34 AcpToolCallEventData *)
Record t := mk {
  tool_call_id : string; session_update : AcpToolCallSessionUpdateKind; status : option AcpToolCallStatus; value : json }.
End AcpToolCallEventData.

(** The events the relay looks into; [Other] are the rest. *)
Inductive RelayEvent :=
| Thinking (content : string) (subject : option string) (duration : option Z) (status : option string)
| Text (content : string) | Finish | Error (message : string)
| ToolCall (d : ToolCallEventData.t) | AcpToolCall (d : AcpToolCallEventData.t)
| ToolGroup (entries : list ToolGroupEntry.t) | AssistantModelInfo (m : ModelInfo) | Other (event : json).

Definition status_json (s : ToolCallStatus) : json :=
  Str (match s with ToolRunning => "running" | ToolCompleted => "completed" | ToolError => "error" end).
Definition opt_field {A} (k : string) (f : A → json) (o : option A) : list (string * json) :=
  match o with Some a => [(k, f a)] | None => [] end.
(** [serde] of the two. *)
Definition tool_call_json (d : ToolCallEventData.t) : json :=
  Obj ([("call_id", Str (ToolCallEventData.call_id d)); ("name", Str (ToolCallEventData.name d));
        ("args", ToolCallEventData.args d); ("status", status_json (ToolCallEventData.status d))] ++
       opt_field "input" id (ToolCallEventData.input d) ++ opt_field "output" Str (ToolCallEventData.output d) ++
       opt_field "description" Str (ToolCallEventData.description d)).
Definition tool_group_json (l : list ToolGroupEntry.t) : json :=
  Arr (map (λ e, Obj [("call_id", Str (ToolGroupEntry.call_id e)); ("name", Str (ToolGroupEntry.name e));
                      ("status", status_json (ToolGroupEntry.status e));
                      ("description", match ToolGroupEntry.description e with Some d => Str d | None => Null end)]) l).

(** What is broadcast: an event under a message id, a text that replaces a message, the
    answer to a command, the end of the turn. *)
Inductive payload :=
| Forward (msg_id : string) (e : RelayEvent)
| TextOverride (msg_id text : string) (hidden : bool)
| SystemResponse (msg_id text : string)
| TurnCompleted.

(* ------------------------------------------------------------------ *)
(** ** The relay *)

(* chisl-conversation/src/stream_relay.rs:24-24 FLUSH_INTERVAL *)
Definition FLUSH_INTERVAL : Z := 20.
Module TextSegment.
(* chisl-conversation/src/stream_relay.rs:27-33 TextSegmentState *)
Record t := mk { id : string; buffer : string; created_at : Z; record_created : bool; flush_counter : Z }.
End TextSegment.
Module ThinkingSegment.
(* chisl-conversation/src/stream_relay.rs:41-45 ThinkingSegmentState *)
Record t := mk { id : string; buffer : string; started_at : Z }.
End ThinkingSegment.

Section relay.
Context `{JsonCodec} `{ResponseRegex} `{Unicode} {S : Type}.
(** The fields of [StreamRelay]; [short_id n] is the n-th id that is minted. *)
Context (conversation_id msg_id user_id : string) (cron_service : option (CronCommands S)) (complete_turn : bool)
  (short_id : nat → string).

(** What the relay acts on: ids minted so far, the database, the state of the job
    service, what was broadcast.  The job service also acts on the conversations. *)
Record env := mk_env { minted : nat; db : ConvDb; cron : S; sent : list payload }.
Definition set_db x e := mk_env (minted e) x (cron e) (sent e).
(** The local variables of [consume]. *)
Record loop := mk_loop {
  full_text_buffer : string; text_segments : list string; active_text : option TextSegment.t;
  active_thinking : option ThinkingSegment.t; used_primary_msg_id : bool; current_model : option ModelInfo }.
Definition start : loop := mk_loop EmptyString [] None None false None.
Definition set_active_text x l := mk_loop (full_text_buffer l) (text_segments l) x (active_thinking l) (used_primary_msg_id l) (current_model l).
Definition set_active_thinking x l := mk_loop (full_text_buffer l) (text_segments l) (active_text l) x (used_primary_msg_id l) (current_model l).
Definition set_used x l := mk_loop (full_text_buffer l) (text_segments l) (active_text l) (active_thinking l) x (current_model l).
Definition set_segments x l := mk_loop (full_text_buffer l) x (active_text l) (active_thinking l) (used_primary_msg_id l) (current_model l).
Definition set_full x l := mk_loop x (text_segments l) (active_text l) (active_thinking l) (used_primary_msg_id l) (current_model l).
Definition set_model x l := mk_loop (full_text_buffer l) (text_segments l) (active_text l) (active_thinking l) (used_primary_msg_id l) x.

Definition send (p : payload) (e : env) : env := mk_env (minted e) (db e) (cron e) (sent e ++ [p]).
(** A statement whose failure is only logged. *)
Definition run_sql {A} (m : ST ConvDb DbError.t A) (e : env) : env := set_db (fst (m (db e))) e.
Definition query {A} (m : ST ConvDb DbError.t A) (e : env) : result A DbError.t := snd (m (db e)).
Definition mint (e : env) : env * string := (mk_env (Datatypes.S (minted e)) (db e) (cron e) (sent e), short_id (minted e)).

(* chisl-conversation/src/stream_relay.rs:306-313 mint_segment_msg_id *)
Definition mint_segment_msg_id (l : loop) (e : env) : loop * env * string :=
  if used_primary_msg_id l then let '(e, i) := mint e in (l, e, i) else (set_used true l, e, msg_id).
(* chisl-conversation/src/stream_relay.rs:322-344 forward_to_websocket_with_msg_id *)
Definition forward_to_websocket_with_msg_id (i : string) (ev : RelayEvent) (e : env) : env := send (Forward i ev) e.
(* chisl-conversation/src/stream_relay.rs:317-319 forward_to_websocket *)
Definition forward_to_websocket (ev : RelayEvent) (e : env) : env := forward_to_websocket_with_msg_id msg_id ev e.

(* chisl-conversation/src/stream_relay.rs:352-367 build_text_content_json *)
Definition build_text_content_json (buffer : string) (model : option ModelInfo) : string :=
  to_string (match model with
  | Some m => Obj [("content", Str buffer);
                   ("model", Obj [("provider_id", Str (provider_id m)); ("model_id", Str (model_id m))]);
                   ("_opencode", Obj [("message_id", Str (message_id m))])]
  | None => Obj [("content", Str buffer)]
  end).

Definition row (i : string) (type content status : string) (created_at : Z) : MessageRow.t :=
  MessageRow.mk i conversation_id (Some i) type content (Some "left") (Some status) false created_at.
Definition insert (r : MessageRow.t) (e : env) : env := run_sql (ConversationRepo.insert_message r) e.
Definition update (i : string) (content : option string) (status : string) (hidden : option bool) (e : env) : env :=
  run_sql (ConversationRepo.update_message i (MessageRowUpdate.mk content (Some (Some status)) hidden)) e.

(* chisl-conversation/src/stream_relay.rs:369-402 flush_text_segment *)
Definition flush_text_segment (seg : TextSegment.t) (model : option ModelInfo) (e : env) : TextSegment.t * env :=
  if String.eqb (TextSegment.buffer seg) EmptyString then (seg, e) else
  let content := build_text_content_json (TextSegment.buffer seg) model in
  if TextSegment.record_created seg then (seg, update (TextSegment.id seg) (Some content) "work" None e)
  else (TextSegment.mk (TextSegment.id seg) (TextSegment.buffer seg) (TextSegment.created_at seg) true (TextSegment.flush_counter seg),
        insert (row (TextSegment.id seg) "text" content "work" (TextSegment.created_at seg)) e).

(* chisl-conversation/src/stream_relay.rs:405-443 finalize_text_segment *)
Definition finalize_text_segment (seg : TextSegment.t) (status : string) (model : option ModelInfo) (e : env) : option string * env :=
  if String.eqb (TextSegment.buffer seg) EmptyString then (None, e) else
  let content := build_text_content_json (TextSegment.buffer seg) model in
  (Some (TextSegment.id seg),
   if TextSegment.record_created seg then update (TextSegment.id seg) (Some content) status (Some false) e
   else insert (row (TextSegment.id seg) "text" content status (TextSegment.created_at seg)) e).

(* chisl-conversation/src/stream_relay.rs:582-595 close_active_text_segment *)
Definition close_active_text_segment (status : string) (l : loop) (e : env) : loop * env :=
  match active_text l with
  | None => (l, e)
  | Some seg =>
      let '(closed, e) := finalize_text_segment seg status (current_model l) e in
      (set_segments (text_segments l ++ option_list closed) (set_active_text None l), e)
  end.

(* chisl-conversation/src/stream_relay.rs:815-823 send_thinking_done *)
Definition send_thinking_done (i : string) (duration : Z) (e : env) : env :=
  forward_to_websocket_with_msg_id i (Thinking EmptyString None (Some duration) (Some "done")) e.
Definition show_duration (d : Z) : json := Num (show_i64 d).
(* chisl-conversation/src/stream_relay.rs:543-579 complete_active_thinking *)
Definition complete_active_thinking (now : Z) (l : loop) (e : env) : loop * env :=
  match active_thinking l with
  | None => (l, e)
  | Some seg =>
      let l := set_active_thinking None l in
      let duration_ms := Z.max (now - ThinkingSegment.started_at seg) 0 in
      let e := send_thinking_done (ThinkingSegment.id seg) duration_ms e in
      if String.eqb (ThinkingSegment.buffer seg) EmptyString then (l, e) else
      let content := to_string (Obj ([("content", Str (ThinkingSegment.buffer seg)); ("status", Str "done");
                                     ("duration_ms", show_duration duration_ms)] ++
                       opt_field "_opencode" (λ m, Obj [("message_id", Str (message_id m))]) (current_model l))) in
      (l, insert (row (ThinkingSegment.id seg) "thinking" content "finish" (ThinkingSegment.started_at seg)) e)
  end.

(* ------------------------------------------------------------------ *)
(** ** Tool calls *)

Definition is_null (v : json) : bool := match v with Null => true | _ => false end.
(** The fields of the new object that are not null over those of the old one. *)
Definition overlay_fields (base new : list (string * json)) : list (string * json) :=
  foldl (λ b kv, if is_null (snd kv) then b else JsonValue.insert (fst kv) (snd kv) b) base new.
Definition parse_or_null (t : string) : json := default Null (from_str t).
(* chisl-conversation/src/stream_relay.rs:725-736 merge_json_content *)
Definition merge_json_content (existing_json new_json : string) : string :=
  to_string (match parse_or_null existing_json, parse_or_null new_json with
             | Obj base, Obj new => Obj (overlay_fields base new)
             | base, _ => base
             end).

(* chisl-conversation/src/stream_relay.rs:599-674 persist_tool_call *)
Definition persist_tool_call (now : Z) (d : ToolCallEventData.t) (e : env) : env :=
  let i := ToolCallEventData.call_id d in
  if String.eqb (trim i) EmptyString then e else
  let status := match ToolCallEventData.status d with ToolRunning => "work" | ToolCompleted => "finish" | ToolError => "error" end in
  let content := to_string (tool_call_json d) in
  match query (ConversationRepo.get_message_by_msg_id conversation_id i "tool_call") e with
  | Ok (Some existing) => update i (Some (merge_json_content (MessageRow.content existing) content)) status None e
  | _ => insert (row i "tool_call" content status now) e
  end.

(* chisl-conversation/src/stream_relay.rs:741-765 merge_acp_tool_call_content *)
Definition merge_acp_tool_call_content (i : string) (update_value : json) (e : env) : string :=
  match query (ConversationRepo.get_message_by_msg_id conversation_id i "acp_tool_call") e with
  | Ok (Some existing) =>
      let base := parse_or_null (MessageRow.content existing) in
      to_string (match base, JsonValue.get "update" base, JsonValue.get "update" update_value with
                 | Obj l, Some (Obj old), Some (Obj new) => Obj (JsonValue.insert "update" (Obj (overlay_fields old new)) l)
                 | _, _, _ => base
                 end)
  | _ => to_string update_value
  end.
(* chisl-conversation/src/stream_relay.rs:679-721 persist_acp_tool_call *)
Definition persist_acp_tool_call (now : Z) (d : AcpToolCallEventData.t) (e : env) : env :=
  let i := AcpToolCallEventData.tool_call_id d in
  let status := match AcpToolCallEventData.status d with
                | Some AcpPending | None => "work" | Some AcpInProgress => "work"
                | Some AcpCompleted => "finish" | Some AcpFailed => "error" end in
  let value := normalize_keys_to_snake_case (AcpToolCallEventData.value d) in
  match AcpToolCallEventData.session_update d with
  | KToolCall => insert (row i "acp_tool_call" (to_string value) status now) e
  | KToolCallUpdate => update i (Some (merge_acp_tool_call_content i value e)) status None e
  end.

(* chisl-conversation/src/stream_relay.rs:769-812 persist_tool_group *)
Definition persist_tool_group (now : Z) (entries : list ToolGroupEntry.t) (e : env) : env :=
  let all_done := forallb (λ x, match ToolGroupEntry.status x with ToolCompleted | ToolError => true | ToolRunning => false end) entries in
  let status := if all_done then "finish" else "work" in
  let content := to_string (tool_group_json entries) in
  let '(e, group_id) := match entries with x :: _ => (e, ToolGroupEntry.call_id x) | [] => mint e end in
  match query (ConversationRepo.get_message_by_msg_id conversation_id group_id "tool_group") e with
  | Ok (Some _) => update group_id (Some content) status None e
  | _ => insert (row group_id "tool_group" content status now) e
  end.

(* ------------------------------------------------------------------ *)
(** ** The end of a turn *)

(* chisl-conversation/src/stream_relay.rs:825-833 process_final_text *)
Definition process_final_text (text : string) (e : env) : env * MiddlewareResult :=
  let '((c, rows), r) := process (service <$> cron_service) text user_id conversation_id (cron e, tbl_conversations (db e)) in
  (mk_env (minted e) (set_conversations rows (db e)) c (sent e), r).
(* chisl-conversation/src/stream_relay.rs:835-844 send_final_text_override *)
Definition send_final_text_override (i text : string) (hidden : bool) (e : env) : env := send (TextOverride i text hidden) e.
(* chisl-conversation/src/stream_relay.rs:846-856 send_system_responses *)
Fixpoint send_system_responses (responses : list string) (e : env) : env :=
  match responses with
  | [] => e
  | r :: rest => let '(e, i) := mint e in send_system_responses rest (send (SystemResponse i r) e)
  end.

Definition hide_segment (status : string) (e : env) (i : string) : env :=
  send_final_text_override i EmptyString true (update i None status (Some true) e).
Definition is_error (ev : RelayEvent) : bool := match ev with Error _ => true | _ => false end.
Definition final_status (ev : RelayEvent) : string := if is_error ev then "error" else "finish".
(* chisl-conversation/src/stream_relay.rs:447-540 finalize *)
Definition finalize (now : Z) (text : string) (segments : list string) (ev : RelayEvent) (model : option ModelInfo) (e : env) :
    env * list string :=
  let status := final_status ev in
  if negb (String.eqb text EmptyString) then
    let '(e, processed) := process_final_text text e in
    let final_text := trim (r_message processed) in
    let hidden := String.eqb final_text EmptyString in
    let e := match segments with
      | primary :: rest =>
          if negb (String.eqb (r_message processed) text) || hidden then
            let e := update primary (Some (build_text_content_json final_text model)) status (Some hidden) e in
            let e := send_final_text_override primary (r_message processed) hidden e in
            foldl (hide_segment status) e rest
          else foldl (λ e i, update i None status (Some false) e) e segments
      | [] => if hidden then e else insert (row msg_id "text" (build_text_content_json final_text model) status now) e
      end in
    (send_system_responses (system_responses processed) e, system_responses processed)
  else match ev with
       | Error m =>
           let '(e, i) := mint e in
           (insert (MessageRow.mk i conversation_id None "tips" (to_string (Obj [("content", Str m); ("type", Str "error")]))
                      (Some "left") (Some "error") false now) e, [])
       | _ => (e, [])
       end.

(* chisl-conversation/src/stream_relay.rs:864-888 complete_conversation *)
Definition complete_conversation (now : Z) (e : env) : env :=
  send TurnCompleted (run_sql (ConversationRepo.update conversation_id
    (ConversationRowUpdate.mk None None None None None (Some "finished") (Some now))) e).

(** [None]: the loop goes on; otherwise the system responses of the outcome. *)
Definition finish_turn (now : Z) (ev : RelayEvent) (l : loop) (e : env) : env * list string :=
  let '(e, outcome) := finalize now (full_text_buffer l) (text_segments l) ev (current_model l) e in
  (if complete_turn then complete_conversation now e else e, outcome).

(** Before a tool call: both segments are closed. *)
Definition close_segments (now : Z) (status : string) (l : loop) (e : env) : loop * env :=
  let '(l, e) := complete_active_thinking now l e in close_active_text_segment status l e.

(* chisl-conversation/src/stream_relay.rs:118-141 consume (Thinking) *)
Definition on_thinking (now : Z) (content : string) (subject : option string) (duration : option Z) (status : option string)
    (l : loop) (e : env) : loop * env :=
  if bool_decide (status = Some "done") then complete_active_thinking now l e else
  let '(l, e) := close_active_text_segment "finish" l e in
  let '(l, e, seg) := match active_thinking l with
    | Some seg => (l, e, seg)
    | None => let '(l, e, i) := mint_segment_msg_id l e in (l, e, ThinkingSegment.mk i EmptyString now)
    end in
  let seg := ThinkingSegment.mk (ThinkingSegment.id seg) (ThinkingSegment.buffer seg +:+ content) (ThinkingSegment.started_at seg) in
  (set_active_thinking (Some seg) l, forward_to_websocket_with_msg_id (ThinkingSegment.id seg) (Thinking content subject duration status) e).

(* chisl-conversation/src/stream_relay.rs:142-181 consume (Text) *)
Definition on_text (now : Z) (content : string) (l : loop) (e : env) : loop * env :=
  let '(l, e) := complete_active_thinking now l e in
  let '(l, e, seg, is_new) := match active_text l with
    | Some seg => (l, e, seg, false)
    | None => let '(l, e, i) := mint_segment_msg_id l e in (l, e, TextSegment.mk i EmptyString now false 0, true)
    end in
  let i := TextSegment.id seg in
  let e := match is_new, current_model l with
           | true, Some model => forward_to_websocket_with_msg_id i (AssistantModelInfo model) e | _, _ => e end in
  let e := forward_to_websocket_with_msg_id i (Text content) e in
  let l := set_full (full_text_buffer l +:+ content) l in
  let n := TextSegment.flush_counter seg + 1 in
  let seg := TextSegment.mk i (TextSegment.buffer seg +:+ content) (TextSegment.created_at seg) (TextSegment.record_created seg) n in
  if FLUSH_INTERVAL <=? n then
    let '(seg, e) := flush_text_segment seg (current_model l) e in
    (set_active_text (Some (TextSegment.mk i (TextSegment.buffer seg) (TextSegment.created_at seg) (TextSegment.record_created seg) 0)) l, e)
  else (set_active_text (Some seg) l, e).

Inductive received := Event (ev : RelayEvent) | Lagged | Closed.

(* chisl-conversation/src/stream_relay.rs:117-302 consume (match) *)
Definition consume_step (now : Z) (r : received) (l : loop) (e : env) : env * (loop + list string) :=
  match r with
  | Lagged => (e, inl l)
  | Closed => let '(l, e) := close_segments now "finish" l e in
              let '(e, outcome) := finish_turn now Finish l e in (e, inr outcome)
  | Event ev =>
      match ev with
      | Thinking content subject duration status => let '(l, e) := on_thinking now content subject duration status l e in (e, inl l)
      | Text content => let '(l, e) := on_text now content l e in (e, inl l)
      | Finish | Error _ =>
          let '(l, e) := close_segments now (final_status ev) l e in
          let e := forward_to_websocket ev e in
          let '(e, outcome) := finish_turn now ev l e in (e, inr outcome)
      | ToolCall d => let '(l, e) := close_segments now "finish" l e in
                      (persist_tool_call now d (forward_to_websocket ev e), inl l)
      | AcpToolCall d => let '(l, e) := close_segments now "finish" l e in
                         (persist_acp_tool_call now d (forward_to_websocket ev e), inl l)
      | ToolGroup entries => let '(l, e) := close_segments now "finish" l e in
                             (persist_tool_group now entries (forward_to_websocket ev e), inl l)
      | AssistantModelInfo m => (forward_to_websocket ev e, inl (set_model (Some m) l))
      | Other _ => (forward_to_websocket ev e, inl l)
      end
  end.

(* chisl-conversation/src/stream_relay.rs:116-303 consume (loop) *)
Fixpoint consume_from (rs : list (Z * received)) (l : loop) (e : env) : env * (loop + list string) :=
  match rs with
  | [] => (e, inl l)
  | (now, r) :: rs => match consume_step now r l e with
                      | (e, inl l) => consume_from rs l e
                      | (e, inr outcome) => (e, inr outcome)
                      end
  end.
(* chisl-conversation/src/stream_relay.rs:100-304 consume *)
Definition consume (rs : list (Z * received)) (e : env) : env * (loop + list string) := consume_from rs start e.
End relay.
