(* ===== verification/ConvRelayFacts.v ===== *)
(** * ConvRelayFacts: what a turn leaves in the table of messages

    [heard] folds the events of a turn into the answer they make: runs of text, each with
    the model known when the run ended, and the run that is still open.  The invariant
    [inv] relates it to the variables of the loop, to the text rows of the database and
    to what was streamed to the clients; the theorem at the end says what the table holds
    when the turn is over. *)

From S2P Require Import Prelude.
From S2P Require Import Text.
From S2P Require Import JsonValue.
From S2P Require Import CaseConvert.
From S2P Require Import TeamTypes.
From S2P Require Import Sql.
From S2P Require Import ConvRepo.
From S2P Require Import ConvMiddleware.
From S2P Require Import ConvCron.
From S2P Require Import ConvRelay.

(** The answer of a turn: the runs of text that ended, the chunks of the open run. *)
Record Answer := mk_answer { closed : list (string * option ModelInfo); pending : list string; model : option ModelInfo }.
Definition joined (l : list string) : string := foldr String.append EmptyString l.
Definition close (a : Answer) : Answer :=
  mk_answer (if String.eqb (joined (pending a)) EmptyString then closed a else closed a ++ [(joined (pending a), model a)])
    [] (model a).
Definition hear (a : Answer) (r : received) : Answer :=
  match r with
  | Event (Text t) => mk_answer (closed a) (pending a ++ [t]) (model a)
  | Event (AssistantModelInfo m) => mk_answer (closed a) (pending a) (Some m)
  | Event (Thinking _ _ _ s) => if bool_decide (s = Some "done") then a else close a
  | Event (ToolCall _) | Event (AcpToolCall _) | Event (ToolGroup _) => close a
  | _ => a
  end.
Definition heard (rs : list (Z * received)) : Answer := foldl (λ a r, hear a (snd r)) (mk_answer [] [] None) rs.
Definition words (a : Answer) : string := joined (map fst (closed a)) +:+ joined (pending a).

(** The event a turn ends with, as [finalize] takes it. *)
Definition ending (r : received) : option RelayEvent :=
  match r with Event Finish | Closed => Some Finish | Event (Error m) => Some (Error m) | _ => None end.
(** The message id a tool event writes under. *)
Definition tool_id (r : received) : option string :=
  match r with
  | Event (ToolCall d) => Some (ToolCallEventData.call_id d)
  | Event (AcpToolCall d) => Some (AcpToolCallEventData.tool_call_id d)
  | Event (ToolGroup (x :: _)) => Some (ToolGroupEntry.call_id x)
  | _ => None
  end.

(** The text a client has received under a message id. *)
Fixpoint streamed (i : string) (l : list payload) : string :=
  match l with
  | [] => EmptyString
  | Forward j (Text t) :: l => if String.eqb j i then t +:+ streamed i l else streamed i l
  | _ :: l => streamed i l
  end.
Lemma streamed_app i l l' : streamed i (l ++ l') = streamed i l +:+ streamed i l'.
Proof.
  induction l as [|p l IH]; [done|]. destruct p as [j []| | |]; simpl; try done.
  destruct (String.eqb j i); [|done]. by rewrite IH, app_string_assoc.
Qed.
Lemma joined_app l l' : joined (l ++ l') = joined l +:+ joined l'.
Proof. induction l as [|s l IH]; [done|]. simpl. by rewrite IH, app_string_assoc. Qed.

Lemma Forall2_impl_elem {A B} (P Q : A → B → Prop) l k :
  Forall2 P l k → (∀ x y, x ∈ l → P x y → Q x y) → Forall2 Q l k.
Proof.
  induction 1 as [|x y l k Hxy _ IH]; intros Hi; constructor; [apply Hi; [by left|done]|].
  apply IH. intros u v Hu. apply Hi. by right.
Qed.

Definition is_text (r : MessageRow.t) : bool := String.eqb (MessageRow.type r) "text".
Definition text_rows (db : ConvDb) : list MessageRow.t := List.filter is_text (tbl_messages db).
Definition message_ids (db : ConvDb) : list string := map MessageRow.id (tbl_messages db).
Definition has_conversation (c : string) (db : ConvDb) : Prop :=
  existsb (ConversationRepo.is_conversation c) (tbl_conversations db) = true.

(* ------------------------------------------------------------------ *)
(** ** The statements of the relay *)

Section statements.
Context `{JsonCodec} {S : Type}.
Abbreviation env := (ConvRelay.env (S := S)).
Implicit Types (r : MessageRow.t) (e : env).

Lemma text_rows_update p u l : List.filter is_text (sql_update p (ConversationRepo.apply_message_update u) l) =
  sql_update p (ConversationRepo.apply_message_update u) (List.filter is_text l).
Proof.
  unfold sql_update. induction l as [|r l IH]; simpl; [done|].
  replace (is_text (if p r then ConversationRepo.apply_message_update u r else r)) with (is_text r) by (by destruct (p r)).
  destruct (is_text r); simpl; by rewrite IH.
Qed.

Definition status_ok (s : string) : Prop := ConversationRepo.message_ok None (Some s) = true.
Lemma update_text_rows i c s h e : status_ok s →
  text_rows (db (update i c s h e)) = sql_update (ConversationRepo.is_message i)
    (ConversationRepo.apply_message_update (MessageRowUpdate.mk c (Some (Some s)) h)) (text_rows (db e)) ∧
  message_ids (db (update i c s h e)) = message_ids (db e) ∧
  tbl_conversations (db (update i c s h e)) = tbl_conversations (db e) ∧
  minted (update i c s h e) = minted e ∧ cron (update i c s h e) = cron e ∧ sent (update i c s h e) = sent e.
Proof.
  intros Hs. unfold update, run_sql, ConversationRepo.update_message. cbn [fst snd default].
  unfold status_ok in Hs. destruct c as [c|]; cbn [from_option id MessageRowUpdate.status]; rewrite Hs; cbn [negb andb fst];
    unfold text_rows, message_ids; cbn [db set_db set_messages tbl_messages tbl_conversations minted cron sent];
    rewrite text_rows_update, map_sql_update by done; done.
Qed.

Lemma insert_frame r e :
  (is_text r = false → text_rows (db (ConvRelay.insert r e)) = text_rows (db e)) ∧
  (∀ i, i ∈ message_ids (db (ConvRelay.insert r e)) → i ∈ message_ids (db e) ∨ i = MessageRow.id r) ∧
  tbl_conversations (db (ConvRelay.insert r e)) = tbl_conversations (db e) ∧
  minted (ConvRelay.insert r e) = minted e ∧ cron (ConvRelay.insert r e) = cron e ∧ sent (ConvRelay.insert r e) = sent e.
Proof.
  unfold ConvRelay.insert, run_sql, ConversationRepo.insert_message. cbn [db set_db minted cron sent].
  repeat case_match; cbn [fst]; try (split_and!; [done|tauto|done..]).
  unfold text_rows, message_ids, set_messages. cbn [tbl_messages tbl_conversations]. split_and!; [|  |done..].
  - intros Ht. rewrite List.filter_app. simpl. by rewrite Ht, app_nil_r.
  - intros i. rewrite map_app, elem_of_app. cbn [map]. rewrite list_elem_of_singleton. tauto.
Qed.

Lemma insert_text_row r e : is_text r = true → MessageRow.id r ∉ message_ids (db e) →
  ConversationRepo.message_ok (MessageRow.position r) (MessageRow.status r) = true →
  has_conversation (MessageRow.conversation_id r) (db e) →
  text_rows (db (ConvRelay.insert r e)) = text_rows (db e) ++ [r].
Proof.
  intros Ht Hi Hok Hc. unfold ConvRelay.insert, run_sql, ConversationRepo.insert_message. cbn [db set_db].
  rewrite Hok. unfold has_conversation in Hc. rewrite Hc. cbn [negb].
  destruct (existsb _ (tbl_messages (db e))) eqn:Hex; cbn [fst].
  - exfalso. apply Hi. apply existsb_exists in Hex as (x & Hx & He). apply String.eqb_eq in He. rewrite <- He.
    unfold message_ids. apply elem_of_map. exists x. split; [done|]. by apply list_elem_of_In.
  - unfold text_rows, set_messages. cbn [tbl_messages]. rewrite List.filter_app. simpl. by rewrite Ht.
Qed.

(** An update hits the row of its id and no other. *)
Lemma sql_update_middle i u (A B : list MessageRow.t) r : MessageRow.id r = i →
  i ∉ map MessageRow.id A → i ∉ map MessageRow.id B →
  sql_update (ConversationRepo.is_message i) (ConversationRepo.apply_message_update u) (A ++ r :: B) =
  A ++ ConversationRepo.apply_message_update u r :: B.
Proof.
  intros Hr HA HB. assert (∀ l, i ∉ map MessageRow.id l →
    sql_update (ConversationRepo.is_message i) (ConversationRepo.apply_message_update u) l = l) as Hnone.
  { intros l Hl. apply sql_update_none. intros x Hx. apply String.eqb_neq. intros He. apply Hl. apply elem_of_map.
    by exists x. }
  pose proof (Hnone A HA) as HA'. pose proof (Hnone B HB) as HB'. unfold sql_update in *.
  rewrite map_app. cbn [map]. rewrite HA', HB'. unfold ConversationRepo.is_message. by rewrite Hr, String.eqb_refl.
Qed.
End statements.

(* ------------------------------------------------------------------ *)
(** ** The invariant of the loop *)

(** What the flushes have written of an open run: they come every twenty chunks. *)
Definition flushed (p : list string) : string := joined (take (20 * (length p / 20)) p).
Lemma flushed_snoc p t : flushed (p ++ [t]) =
  if FLUSH_INTERVAL <=? Z.of_nat (length p mod 20) + 1 then joined (p ++ [t]) else flushed p.
Proof.
  unfold flushed, FLUSH_INTERVAL. rewrite length_app. simpl length.
  pose proof (Nat.div_mod_eq (length p) 20) as Hd. pose proof (Nat.mod_upper_bound (length p) 20 ltac:(lia)) as Hm.
  set (q := (length p / 20)%nat) in *. set (m := (length p mod 20)%nat) in *.
  destruct (Z.leb_spec 20 (Z.of_nat m + 1)) as [Hl|Hl].
  - replace ((length p + 1) / 20)%nat with (q + 1)%nat by (apply (Nat.div_unique _ _ _ 0); lia).
    rewrite take_ge; [done|]. rewrite length_app. simpl. lia.
  - replace ((length p + 1) / 20)%nat with q by (apply (Nat.div_unique _ _ _ (m + 1)); lia).
    by rewrite take_app_le by lia.
Qed.
Lemma flush_count p (t : string) : Z.of_nat (length (p ++ [t]) mod 20) =
  if FLUSH_INTERVAL <=? Z.of_nat (length p mod 20) + 1 then 0 else Z.of_nat (length p mod 20) + 1.
Proof.
  unfold FLUSH_INTERVAL. rewrite length_app. simpl length.
  pose proof (Nat.div_mod_eq (length p) 20) as Hd. pose proof (Nat.mod_upper_bound (length p) 20 ltac:(lia)) as Hm.
  set (q := (length p / 20)%nat) in *. set (m := (length p mod 20)%nat) in *.
  destruct (Z.leb_spec 20 (Z.of_nat m + 1)) as [Hl|Hl].
  - replace ((length p + 1) mod 20)%nat with 0%nat by (apply (Nat.mod_unique _ _ (q + 1)); lia). done.
  - replace ((length p + 1) mod 20)%nat with (m + 1)%nat by (apply (Nat.mod_unique _ _ q); lia). lia.
Qed.

Section turn.
Context `{JsonCodec} `{ResponseRegex} `{Unicode} {S : Type}.
Context (conversation_id msg_id user_id : string) (cron_service : option (CronCommands S)) (complete_turn : bool)
  (short_id : nat → string).
Abbreviation env := (ConvRelay.env (S := S)).
Abbreviation row := (ConvRelay.row conversation_id).
Abbreviation content := build_text_content_json.
(** The state the turn starts in. *)
Context (e0 : env).
Implicit Types (r : MessageRow.t) (e : env) (a : Answer) (rows : list MessageRow.t).

(** The ids of the turn: its message id and the ids it may mint. *)
Definition mine (i : string) : Prop := i = msg_id ∨ ∃ k, (minted e0 ≤ k)%nat ∧ i = short_id k.
Definition taken (l : loop) e (i : string) : Prop :=
  (used_primary_msg_id l = true ∧ i = msg_id) ∨ ∃ k, (minted e0 ≤ k < minted e)%nat ∧ i = short_id k.

Definition segment_row (r : MessageRow.t) (s : string * option ModelInfo) : Prop :=
  ∃ status at_, r = row (MessageRow.id r) "text" (content (fst s) (snd s)) status at_.
Definition told e (r : MessageRow.t) (s : string * option ModelInfo) : Prop :=
  segment_row r s ∧ streamed (MessageRow.id r) (sent e) = fst s.

Definition open_segment a rows (l : loop) e (seg : TextSegment.t) : Prop :=
  TextSegment.buffer seg = joined (pending a) ∧ TextSegment.flush_counter seg = Z.of_nat (length (pending a) mod 20) ∧
  taken l e (TextSegment.id seg) ∧ TextSegment.id seg ∉ text_segments l ∧
  streamed (TextSegment.id seg) (sent e) = joined (pending a) ∧
  if TextSegment.record_created seg
  then flushed (pending a) ≠ EmptyString ∧ ∃ m at_, text_rows (db e) =
    text_rows (db e0) ++ rows ++ [row (TextSegment.id seg) "text" (content (flushed (pending a)) m) "work" at_]
  else text_rows (db e) = text_rows (db e0) ++ rows ∧ TextSegment.id seg ∉ message_ids (db e) ∧ flushed (pending a) = EmptyString.

Record inv a (l : loop) e rows : Prop := {
  inv_conversation : has_conversation conversation_id (db e);
  inv_table : tbl_conversations (db e) = tbl_conversations (db e0);
  inv_cron : cron e = cron e0;
  inv_minted : (minted e0 ≤ minted e)%nat;
  inv_old : ∀ i, mine i → i ∉ map MessageRow.id (text_rows (db e0));
  inv_unused : ∀ i, mine i → ¬ taken l e i → i ∉ message_ids (db e) ∧ streamed i (sent e) = EmptyString;
  inv_model : current_model l = model a;
  inv_full : full_text_buffer l = words a;
  inv_segments : map MessageRow.id rows = text_segments l;
  inv_rows : Forall2 (told e) rows (closed a);
  inv_nodup : NoDup (text_segments l);
  inv_taken : ∀ i, i ∈ text_segments l → taken l e i;
  inv_thinking : ∀ seg, active_thinking l = Some seg → taken l e (ThinkingSegment.id seg) ∧ active_text l = None;
  inv_open : match active_text l with
             | None => pending a = [] ∧ text_rows (db e) = text_rows (db e0) ++ rows
             | Some seg => open_segment a rows l e seg
             end }.

(** The texts of the rows an update of a tool message must not hit. *)
Definition not_ours (i : string) : Prop := ¬ mine i ∧ i ∉ map MessageRow.id (text_rows (db e0)).

Lemma taken_mine l e i : taken l e i → mine i.
Proof. intros [[_ ->]|(k&Hk&->)]; [by left|]. right. exists k. split; [lia|done]. Qed.

(** A step that leaves the text rows alone; [X] are the ids of the rows it may add. *)
Definition quiet (X : string → Prop) e e' : Prop :=
  text_rows (db e') = text_rows (db e) ∧ tbl_conversations (db e') = tbl_conversations (db e) ∧
  cron e' = cron e ∧ (minted e ≤ minted e')%nat ∧
  (∀ i, i ∈ message_ids (db e') → i ∈ message_ids (db e) ∨ X i) ∧ (∀ i, streamed i (sent e') = streamed i (sent e)).
Definition nothing (i : string) : Prop := False.

Lemma quiet_refl X e : quiet X e e.
Proof. unfold quiet. naive_solver. Qed.
Lemma quiet_trans X e1 e2 e3 : quiet X e1 e2 → quiet X e2 e3 → quiet X e1 e3.
Proof. intros (A1&A2&A3&A4&A5&A6) (B1&B2&B3&B4&B5&B6). split_and!; [congruence..|lia|naive_solver|congruence]. Qed.
Lemma quiet_weaken (X Y : string → Prop) e e' : (∀ i, X i → Y i) → quiet X e e' → quiet Y e e'.
Proof. intros HX (A1&A2&A3&A4&A5&A6). split_and!; naive_solver. Qed.

Lemma quiet_send X p e : (∀ i, streamed i [p] = EmptyString) → quiet X e (send p e).
Proof.
  intros Hp. split_and!; try done; [naive_solver|]. intros i. cbn [send sent]. by rewrite streamed_app, Hp, app_string_nil_r.
Qed.
Lemma quiet_forward X i ev e : (∀ t, ev ≠ Text t) → quiet X e (forward_to_websocket_with_msg_id i ev e).
Proof. intros Hev. apply quiet_send. intros j. destruct ev; try done. by destruct (Hev content). Qed.
Lemma quiet_insert r e : is_text r = false → quiet (eq (MessageRow.id r)) e (ConvRelay.insert r e).
Proof.
  intros Ht. destruct (insert_frame r e) as (A1&A2&A3&A4&A5&A6).
  split_and!; [auto|done|done|lia| |congruence]. intros i Hi. destruct (A2 i Hi); auto.
Qed.
Lemma quiet_update X i c s h e : status_ok s → i ∉ map MessageRow.id (text_rows (db e)) → quiet X e (update i c s h e).
Proof.
  intros Hs Hi. destruct (update_text_rows i c s h e Hs) as (A1&A2&A3&A4&A5&A6).
  split_and!; [|done|done|lia|rewrite A2; auto|congruence]. rewrite A1. apply sql_update_none.
  intros x Hx. apply String.eqb_neq. intros He. apply Hi. apply elem_of_map. by exists x.
Qed.

Lemma taken_mono l e e' i : (minted e ≤ minted e')%nat → taken l e i → taken l e' i.
Proof. intros Hle [?|(k&?&->)]; [by left|]. right. exists k. split; [lia|done]. Qed.
Lemma told_quiet e e' r s : (∀ i, streamed i (sent e') = streamed i (sent e)) → told e r s → told e' r s.
Proof. intros Hs [? He]. split; [done|]. by rewrite Hs. Qed.
Lemma has_conversation_eq (d d' : ConvDb) c : tbl_conversations d' = tbl_conversations d → has_conversation c d → has_conversation c d'.
Proof. unfold has_conversation. by intros ->. Qed.

Lemma inv_quiet (X : string → Prop) a l e e' rows : quiet X e e' → (∀ i, X i → mine i → taken l e' i) →
  ((∃ i, X i) → active_text l = None) → inv a l e rows → inv a l e' rows.
Proof.
  intros (Ht&Hc&Hcr&Hm&Hids&Hstr) HX Hact I. pose proof (λ i, taken_mono l e e' i Hm) as Hmono. destruct I. split; try done.
  - by apply (has_conversation_eq (db e)).
  - congruence.
  - congruence.
  - lia.
  - intros i Hi Hn. rewrite Hstr. destruct (inv_unused0 i Hi) as [Hfree Hsilent]; [auto|]. split; [|done].
    intros [?|?]%Hids; [done|]. auto.
  - eapply Forall2_impl; [exact inv_rows0|]. intros r s. by apply told_quiet.
  - auto.
  - intros seg Hseg. destruct (inv_thinking0 seg Hseg). auto.
  - destruct (active_text l) as [seg|] eqn:Hs; [|by rewrite Ht].
    destruct inv_open0 as (B1&B2&B3&B4&B5&B6). rewrite <- Hstr in B5. split_and!; auto.
    destruct (TextSegment.record_created seg).
    + destruct B6 as (?&m&t&B6). split; [done|]. exists m, t. by rewrite Ht.
    + destruct B6 as (B6&B7&B8). rewrite Ht. split_and!; try done. intros [?|?]%Hids; [done|].
      discriminate Hact. eauto.
Qed.

(** The ids of the text rows are those from before the turn and ids of the turn. *)
Lemma text_row_ids a l e rows : inv a l e rows → ∀ i, i ∈ map MessageRow.id (text_rows (db e)) →
  i ∈ map MessageRow.id (text_rows (db e0)) ∨ i ∈ text_segments l ∨ ∃ seg, active_text l = Some seg ∧ i = TextSegment.id seg.
Proof.
  intros I i Hi. pose proof (inv_segments _ _ _ _ I) as Hseg. pose proof (inv_open _ _ _ _ I) as Ho. rewrite <- Hseg.
  destruct (active_text l) as [seg|].
  - destruct Ho as (_&_&_&_&_&Ho). destruct (TextSegment.record_created seg).
    + destruct Ho as (_&m&t&Ho). rewrite Ho, !map_app, !elem_of_app in Hi. cbn [map] in Hi. rewrite list_elem_of_singleton in Hi.
      destruct Hi as [?|[?|Hi]]; [by left|by right; left|]. right. right. by exists seg.
    + destruct Ho as (Ho&_). rewrite Ho, map_app, elem_of_app in Hi. tauto.
  - destruct Ho as (_&Ho). rewrite Ho, map_app, elem_of_app in Hi. tauto.
Qed.
Lemma not_ours_text_row a l e rows i : inv a l e rows → not_ours i → i ∉ map MessageRow.id (text_rows (db e)).
Proof.
  intros I [Hm Hn] Hi. destruct (text_row_ids _ _ _ _ I i Hi) as [?|[Ht|(seg&Hs&->)]]; [done|..].
  - apply Hm, (taken_mine l e), (inv_taken _ _ _ _ I), Ht.
  - pose proof (inv_open _ _ _ _ I) as Ho. rewrite Hs in Ho. apply Hm, (taken_mine l e), Ho.
Qed.

(** Minted ids are distinct. *)
Hypothesis short_id_inj : ∀ j k, short_id j = short_id k → j = k.
Hypothesis short_id_other : ∀ k, short_id k ≠ msg_id.

Abbreviation mint_segment := (mint_segment_msg_id msg_id short_id).
Lemma mint_segment_fresh l e : (minted e0 ≤ minted e)%nat → let '(l', e', i) := mint_segment l e in
  mine i ∧ ¬ taken l e i ∧ (∀ j, taken l' e' j ↔ taken l e j ∨ j = i) ∧ quiet nothing e e' ∧ db e' = db e ∧
  l' = set_used true l.
Proof using short_id_inj short_id_other.
  intros Hle. unfold mint_segment_msg_id. destruct (used_primary_msg_id l) eqn:Hu; unfold mint.
  - split_and!.
    + right. exists (minted e). done.
    + intros [[_ Hm]|(k&Hk&Hi)]; [by apply short_id_other in Hm|]. apply short_id_inj in Hi. lia.
    + intros j. unfold taken. cbn [minted]. split.
      * intros [?|(k&Hk&->)]; [by left; left|]. destruct (decide (k = minted e)) as [->|]; [by right|].
        left. right. exists k. split; [lia|done].
      * intros [[?|(k&Hk&->)] | ->]; [by left|right..]; [exists k|exists (minted e)]; (split; [lia|done]).
    + split_and!; try done; [simpl; lia|intros i Hi; by left].
    + done.
    + destruct l; simpl in *. by subst.
  - split_and!.
    + by left.
    + intros [[Hf _]|(k&_&Hi)]; [congruence|]. by symmetry in Hi; apply short_id_other in Hi.
    + intros j. unfold taken. cbn [set_used used_primary_msg_id]. rewrite Hu. naive_solver.
    + apply quiet_refl.
    + done.
    + done.
Qed.

(** An update of the last text row. *)
Lemma update_open_row i c st h e rows c0 st0 at_ : status_ok st → h ≠ Some true →
  i ∉ map MessageRow.id (text_rows (db e0)) → i ∉ map MessageRow.id rows →
  text_rows (db e) = text_rows (db e0) ++ rows ++ [row i "text" c0 st0 at_] →
  text_rows (db (update i (Some c) st h e)) = text_rows (db e0) ++ rows ++ [row i "text" c st at_].
Proof.
  intros Hs Hh Hold Hnew Hrows. destruct (update_text_rows i (Some c) st h e Hs) as (A1&_). rewrite A1, Hrows.
  rewrite app_assoc, sql_update_middle, <- app_assoc; [|done|by rewrite map_app, elem_of_app; tauto|apply not_elem_of_nil].
  unfold ConversationRepo.apply_message_update. simpl. by destruct h as [[]|].
Qed.

Lemma words_close a : words (close a) = words a.
Proof.
  unfold words, close. destruct (String.eqb_spec (joined (pending a)) EmptyString) as [He|He]; cbn [closed pending].
  - by rewrite He.
  - rewrite map_app, joined_app. simpl. by rewrite !app_string_nil_r.
Qed.
Lemma app_string_empty_inv s t : s +:+ t = EmptyString → s = EmptyString.
Proof. destruct s; [done|]. by rewrite app_string_cons. Qed.
Lemma flushed_empty p : joined p = EmptyString → flushed p = EmptyString.
Proof.
  unfold flushed. intros Hp. rewrite <- (take_drop (20 * (length p / 20)) p), joined_app in Hp.
  by apply app_string_empty_inv in Hp.
Qed.

(** Closing the open run: its row gets the whole text. *)
Lemma close_text_inv status a l e rows : status_ok status → inv a l e rows →
  ∃ rows', inv (close a) (fst (close_active_text_segment conversation_id status l e))
             (snd (close_active_text_segment conversation_id status l e)) rows' ∧
    active_text (fst (close_active_text_segment conversation_id status l e)) = None ∧
    active_thinking (fst (close_active_text_segment conversation_id status l e)) = active_thinking l.
Proof.
  intros Hs I. unfold close_active_text_segment. pose proof (inv_open _ _ _ _ I) as Ho.
  destruct (active_text l) as [seg|] eqn:Hact.
  2:{ exists rows. destruct Ho as [Hp _]. replace (close a) with a; [done|]. unfold close. rewrite Hp. simpl.
      destruct a; simpl in *. by rewrite Hp. }
  destruct Ho as (Hbuf&_&Htk&Hnew&Hstr&Ho). unfold finalize_text_segment. rewrite Hbuf.
  destruct (String.eqb_spec (joined (pending a)) EmptyString) as [He|He].
  - exists rows. cbn [fst snd option_list app]. split; [|done]. rewrite app_nil_r. destruct I. unfold close. rewrite He. simpl.
    split; simpl; try done.
    + rewrite inv_full0. unfold words. by rewrite He.
    + intros s Hth. destruct (inv_thinking0 s Hth). done.
    + split; [done|]. destruct (TextSegment.record_created seg); [|naive_solver].
      destruct Ho as [Hf _]. by rewrite flushed_empty in Hf.
  - pose proof (words_close a) as Hw. revert Hw. unfold close. rewrite (proj2 (String.eqb_neq _ _) He). intros Hw.
    cbn [fst snd option_list].
    set (i := TextSegment.id seg) in *. rewrite (inv_model _ _ _ _ I).
    set (e' := if TextSegment.record_created seg then _ else _).
    assert (∃ at_, text_rows (db e') = text_rows (db e0) ++ rows ++ [row i "text" (content (joined (pending a)) (model a)) status at_] ∧
      (∀ j, j ∈ message_ids (db e') → j ∈ message_ids (db e) ∨ j = i) ∧
      tbl_conversations (db e') = tbl_conversations (db e) ∧ minted e' = minted e ∧ cron e' = cron e ∧ sent e' = sent e)
      as (t&Hrows&Hids&Hc&Hm&Hcr&Hse).
    { unfold e'. destruct (TextSegment.record_created seg).
      - destruct Ho as (_&m&t&Ho). exists t. set (c := content (joined (pending a)) (model a)).
        destruct (update_text_rows i (Some c) status (Some false) e Hs) as (_&A2&A3&A4&A5&A6). rewrite A2. split; [|tauto].
        apply (update_open_row _ _ _ _ e _ (content (flushed (pending a)) m) "work"); try done.
        + by apply (inv_old _ _ _ _ I), (taken_mine l e).
        + by rewrite (inv_segments _ _ _ _ I).
      - destruct Ho as (Ho&Hfree&_). exists (TextSegment.created_at seg).
        set (r := row i "text" _ status _). destruct (insert_frame r e) as (_&A2&A3&A4&A5&A6).
        split; [|tauto]. rewrite insert_text_row; [by rewrite Ho, <- app_assoc|done|done| |apply I].
        cbn [MessageRow.position MessageRow.status r row]. exact Hs. }
    assert (∀ j, taken (set_segments (text_segments l ++ [i]) (set_active_text None l)) e' j ↔ taken l e j) as Htaken.
    { intros j. unfold taken. rewrite Hm. done. }
    assert (has_conversation conversation_id (db e')) as Hconv by (apply (has_conversation_eq (db e)); [done|apply I]).
    exists (rows ++ [row i "text" (content (joined (pending a)) (model a)) status t]). split; [|done].
    clearbody e'. destruct I. split; simpl; try done.
    + congruence.
    + congruence.
    + lia.
    + intros j Hj Hn. rewrite Htaken in Hn. destruct (inv_unused0 j Hj Hn) as [Hfree Hmute]. rewrite Hse. split; [|done].
      intros [?| ->]%Hids; [done|]. done.
    + by rewrite inv_full0.
    + rewrite map_app, inv_segments0. done.
    + apply Forall2_app; [|apply List.Forall2_cons; [|apply List.Forall2_nil]].
      * eapply Forall2_impl; [exact inv_rows0|]. intros r s. apply told_quiet. by rewrite Hse.
      * split; [by exists status, t|]. simpl. by rewrite Hse.
    + apply NoDup_app. split_and!; [done| |apply NoDup_singleton]. intros j Hj ->%list_elem_of_singleton. done.
    + intros j. rewrite Htaken, elem_of_app, list_elem_of_singleton. intros [?| ->]; auto.
    + intros s Hth. destruct (inv_thinking0 s Hth). by rewrite Htaken.
Qed.

(** What the relay keeps about a thinking segment matters to no text row. *)
Lemma inv_set_thinking a l e rows x :
  (∀ seg, x = Some seg → taken l e (ThinkingSegment.id seg) ∧ active_text l = None) →
  inv a l e rows → inv a (set_active_thinking x l) e rows.
Proof. intros Hx I. destruct I. by split. Qed.

Lemma thinking_row_no_text i c s t : is_text (row i "thinking" c s t) = false.
Proof. done. Qed.
Abbreviation complete_thinking := (complete_active_thinking conversation_id).
Lemma complete_thinking_inv now a l e rows : inv a l e rows →
  inv a (fst (complete_thinking now l e)) (snd (complete_thinking now l e)) rows ∧
  active_thinking (fst (complete_thinking now l e)) = None ∧
  active_text (fst (complete_thinking now l e)) = active_text l.
Proof.
  intros I. unfold complete_active_thinking. destruct (active_thinking l) as [seg|] eqn:Hth; [|done].
  destruct (inv_thinking _ _ _ _ I seg Hth) as [Htk Hno].
  assert (inv a (set_active_thinking None l) (send_thinking_done (ThinkingSegment.id seg)
    (Z.max (now - ThinkingSegment.started_at seg) 0) e) rows) as Hsent.
  { apply inv_set_thinking; [done|]. eapply (inv_quiet nothing); [by apply quiet_forward|done|by intros [? []]|done]. }
  cbv zeta. destruct (String.eqb _ _); cbn [fst snd]; (split; [|done]); [done|].
  eapply (inv_quiet _ _ _ _ _ _ (quiet_insert _ _ (thinking_row_no_text _ _ _ _))); [|done|done].
  intros i <- _. done.
Qed.

Lemma close_segments_inv now status a l e rows : status_ok status → inv a l e rows →
  let le := close_segments conversation_id now status l e in
  ∃ rows', inv (close a) (fst le) (snd le) rows' ∧ active_text (fst le) = None ∧ active_thinking (fst le) = None.
Proof.
  intros Hs I. unfold close_segments. destruct (complete_thinking_inv now a l e rows I) as (I1&Hth&_).
  destruct (complete_active_thinking conversation_id now l e) as [l1 e1]. cbn [fst snd] in *.
  destruct (close_text_inv status a l1 e1 rows Hs I1) as (rows'&I2&Hno&Hth2). exists rows'. by rewrite Hth2.
Qed.

(** Without an open run there is nothing to close. *)
Lemma close_nothing a : pending a = [] → close a = a.
Proof. intros Hp. unfold close. rewrite Hp. simpl. destruct a; simpl in *. by rewrite Hp. Qed.

(** A new id: nothing but the set of used ids changes. *)
Lemma inv_mint a l e rows : inv a l e rows → active_text l = None → let '(l', e', i) := mint_segment l e in
  inv a l' e' rows ∧ taken l' e' i ∧ i ∉ text_segments l' ∧ i ∉ message_ids (db e') ∧ streamed i (sent e') = EmptyString ∧
  active_text l' = None ∧ active_thinking l' = active_thinking l ∧ current_model l' = current_model l.
Proof using short_id_inj short_id_other.
  intros I Hno. pose proof (mint_segment_fresh l e (inv_minted _ _ _ _ I)) as Hf.
  destruct (mint_segment l e) as [[l' e'] i]. destruct Hf as (Hmine&Hnew&Htaken&Hq&Hdb& ->).
  destruct (inv_unused _ _ _ _ I i Hmine Hnew) as [Hfree Hmute]. destruct Hq as (_&_&Hcr&Hm&_&Hstr).
  split; [|split_and!].
  - pose proof (inv_open _ _ _ _ I) as Ho. rewrite Hno in Ho. destruct I. split; simpl; try done; rewrite ?Hdb; try done.
    + congruence.
    + lia.
    + intros j Hj Hn. rewrite Htaken in Hn. rewrite Hstr. apply inv_unused0; tauto.
    + eapply Forall2_impl; [exact inv_rows0|]. intros r s. by apply told_quiet.
    + intros j Hj. apply Htaken. left. auto.
    + intros s Hs. destruct (inv_thinking0 s Hs). split; [|done]. apply Htaken. by left.
    + by rewrite Hno.
  - apply Htaken. by right.
  - simpl. intros Hi. apply Hnew, (inv_taken _ _ _ _ I), Hi.
  - by rewrite Hdb.
  - by rewrite Hstr.
  - done.
  - done.
  - done.
Qed.

Abbreviation thinking_step := (on_thinking conversation_id msg_id short_id).
Lemma on_thinking_inv now c j d s a l e rows : inv a l e rows →
  ∃ rows', inv (hear a (Event (Thinking c j d s))) (fst (thinking_step now c j d s l e)) (snd (thinking_step now c j d s l e)) rows'.
Proof using short_id_inj short_id_other.
  intros I. unfold on_thinking, hear. destruct (bool_decide (s = Some "done")).
  { exists rows. by apply complete_thinking_inv. }
  destruct (close_text_inv "finish" a l e rows eq_refl I) as (rows'&I1&Hno&_).
  destruct (close_active_text_segment conversation_id "finish" l e) as [l1 e1]. cbn [fst snd] in *. exists rows'.
  destruct (active_thinking l1) as [seg|] eqn:Hth.
  - destruct (inv_thinking _ _ _ _ I1 seg Hth). cbn [fst snd].
    eapply (inv_quiet nothing); [by apply quiet_forward|done|by intros [? []]|].
    apply inv_set_thinking; [|done]. by intros ? [= <-].
  - pose proof (inv_mint _ l1 e1 rows' I1 Hno) as Hm. destruct (mint_segment l1 e1) as [[l2 e2] i].
    destruct Hm as (I2&Htk&_&_&_&Hno2&_&_). cbn [fst snd].
    eapply (inv_quiet nothing); [by apply quiet_forward|done|by intros [? []]|].
    apply inv_set_thinking; [|done]. by intros ? [= <-].
Qed.

Lemma inv_open_text a l e rows seg : inv a l e rows → active_thinking l = None → open_segment a rows l e seg →
  inv a (set_active_text (Some seg) l) e rows.
Proof. intros I Hth Ho. destruct I. split; try done. simpl. intros s Hs. congruence. Qed.

(** The part of [on_text] after the segment is there. *)
Definition push_text (content : string) (seg : TextSegment.t) (l : loop) (e : env) : loop * env :=
  let i := TextSegment.id seg in
  let e := forward_to_websocket_with_msg_id i (Text content) e in
  let l := set_full (full_text_buffer l +:+ content) l in
  let n := TextSegment.flush_counter seg + 1 in
  let seg := TextSegment.mk i (TextSegment.buffer seg +:+ content) (TextSegment.created_at seg) (TextSegment.record_created seg) n in
  if FLUSH_INTERVAL <=? n then
    let '(seg, e) := flush_text_segment conversation_id seg (current_model l) e in
    (set_active_text (Some (TextSegment.mk i (TextSegment.buffer seg) (TextSegment.created_at seg) (TextSegment.record_created seg) 0)) l, e)
  else (set_active_text (Some seg) l, e).

(** Text sent under the id of the open run. *)
Lemma streamed_text i t l : streamed i (l ++ [Forward i (Text t)]) = streamed i l +:+ t.
Proof. rewrite streamed_app. simpl. by rewrite String.eqb_refl, app_string_nil_r. Qed.
Lemma streamed_other i j t l : i ≠ j → streamed j (l ++ [Forward i (Text t)]) = streamed j l.
Proof. intros Hij. rewrite streamed_app. simpl. by rewrite (proj2 (String.eqb_neq _ _) Hij), app_string_nil_r. Qed.

(** The frame of a chunk: text goes out under the id [i], whose row may be written. *)
Lemma inv_chunk t a l e e' rows seg seg' : inv a l e rows → active_text l = Some seg → TextSegment.id seg' = TextSegment.id seg →
  tbl_conversations (db e') = tbl_conversations (db e) → minted e' = minted e → cron e' = cron e →
  sent e' = sent e ++ [Forward (TextSegment.id seg) (Text t)] →
  (∀ j, j ∈ message_ids (db e') → j ∈ message_ids (db e) ∨ j = TextSegment.id seg) →
  open_segment (hear a (Event (Text t))) rows l e' seg' →
  inv (hear a (Event (Text t))) (set_active_text (Some seg') (set_full (full_text_buffer l +:+ t) l)) e' rows.
Proof.
  intros I Hact Hid Hc Hm Hcr Hse Hids Hopen.
  assert (∀ j, taken l e' j ↔ taken l e j) as Htaken by (intros j; unfold taken; by rewrite Hm).
  pose proof (inv_open _ _ _ _ I) as Ho. rewrite Hact in Ho. destruct Ho as (_&_&Htk&Hnew&_). destruct I. split; simpl; try done.
  - by apply (has_conversation_eq (db e)).
  - congruence.
  - congruence.
  - lia.
  - intros j Hj Hn. change (¬ taken l e' j) in Hn. rewrite Htaken in Hn. destruct (inv_unused0 j Hj Hn) as [Hfree Hmute].
    assert (TextSegment.id seg ≠ j) as Hne by (intros <-; done).
    rewrite Hse, streamed_other by done. split; [|done]. intros [?| ->]%Hids; done.
  - rewrite inv_full0. unfold words. simpl. rewrite joined_app. simpl. by rewrite app_string_nil_r, app_string_assoc.
  - eapply Forall2_impl_elem; [exact inv_rows0|]. intros r s Hr [Hrow Hstr]. split; [done|].
    rewrite Hse, streamed_other; [done|]. intros Heq. apply Hnew. rewrite <- inv_segments0, Heq. apply elem_of_map. by exists r.
  - intros j Hj. apply Htaken. auto.
  - intros s Hs. destruct (inv_thinking0 s Hs). congruence.
Qed.

Lemma push_text_inv t a l e rows seg : inv a l e rows → active_text l = Some seg →
  inv (hear a (Event (Text t))) (fst (push_text t seg l e)) (snd (push_text t seg l e)) rows.
Proof.
  intros I Hact. pose proof (inv_open _ _ _ _ I) as Ho. rewrite Hact in Ho. destruct Ho as (Hbuf&Hcnt&Htk&Hnew&Hstr&Ho).
  unfold push_text. cbv zeta. rewrite Hcnt, Hbuf. set (i := TextSegment.id seg) in *.
  set (e1 := forward_to_websocket_with_msg_id i (Text t) e).
  assert (joined (pending a) +:+ t = joined (pending a ++ [t])) as Hj by (by rewrite joined_app; simpl; rewrite app_string_nil_r).
  pose proof (flush_count (pending a) t) as Hcount. pose proof (flushed_snoc (pending a) t) as Hfl.
  rewrite Hj. unfold flush_text_segment. cbn [TextSegment.buffer TextSegment.record_created TextSegment.id TextSegment.created_at].
  assert (∀ j, taken l e1 j ↔ taken l e j) as Htaken by done.
  assert (streamed i (sent e1) = joined (pending a ++ [t])) as Hstr1.
  { unfold e1. cbn [forward_to_websocket_with_msg_id send sent]. by rewrite streamed_text, Hstr, Hj. }
  destruct (FLUSH_INTERVAL <=? Z.of_nat (length (pending a) mod 20) + 1).
  2:{ cbn [fst snd]. apply (inv_chunk t a l e e1 rows seg); try done; [by left|].
      split_and!; try done. cbn [TextSegment.record_created TextSegment.id hear pending]. rewrite Hfl. exact Ho. }
  destruct (String.eqb_spec (joined (pending a ++ [t])) EmptyString) as [He|He].
  { cbn [fst snd]. apply (inv_chunk t a l e e1 rows seg); try done; [by left|]. cbn [TextSegment.buffer TextSegment.created_at TextSegment.record_created].
    split_and!; try done. cbn [TextSegment.record_created TextSegment.id hear pending]. rewrite Hfl, He.
    destruct (TextSegment.record_created seg); [|by destruct Ho as (?&?&_)].
    destruct Ho as [Hne _]. rewrite <- Hj in He. apply app_string_empty_inv, flushed_empty in He. done. }
  cbn [current_model set_full]. rewrite (inv_model _ _ _ _ I).
  set (c := content (joined (pending a ++ [t])) (model a)).
  destruct (TextSegment.record_created seg) eqn:Hcr; cbn [fst snd].
  - destruct Ho as (_&m&at_&Ho). destruct (update_text_rows i (Some c) "work" None e1 eq_refl) as (_&A2&A3&A4&A5&A6).
    apply (inv_chunk t a l e _ rows seg); try done; [intros j; rewrite A2; by left|].
    unfold open_segment. cbn [TextSegment.buffer TextSegment.created_at TextSegment.record_created TextSegment.id TextSegment.flush_counter].
    split_and!; try done; cbn [hear pending]; rewrite Hfl; [done|]. exists (model a), at_. apply (update_open_row _ _ _ _ e1 _ (content (flushed (pending a)) m) "work"); try done.
    + by apply (inv_old _ _ _ _ I), (taken_mine l e).
    + by rewrite (inv_segments _ _ _ _ I).
  - destruct Ho as (Ho&Hfree&_). set (r := row i "text" c "work" (TextSegment.created_at seg)).
    destruct (insert_frame r e1) as (_&A2&A3&A4&A5&A6).
    apply (inv_chunk t a l e _ rows seg); try done. cbn [TextSegment.buffer TextSegment.created_at].
    unfold open_segment. cbn [TextSegment.buffer TextSegment.created_at TextSegment.record_created TextSegment.id TextSegment.flush_counter].
    split_and!; try done; cbn [hear pending]; rewrite Hfl; [done|]. exists (model a), (TextSegment.created_at seg).
    rewrite insert_text_row; [|done|done|done|by apply (has_conversation_eq (db e)); [|apply I]].
    change (text_rows (db e1)) with (text_rows (db e)). by rewrite Ho, <- app_assoc.
Qed.

Abbreviation text_step := (on_text conversation_id msg_id short_id).
Lemma on_text_inv now t a l e rows : inv a l e rows →
  inv (hear a (Event (Text t))) (fst (text_step now t l e)) (snd (text_step now t l e)) rows.
Proof using short_id_inj short_id_other.
  intros I. unfold on_text. destruct (complete_thinking_inv now a l e rows I) as (I1&Hth&Htext).
  destruct (complete_active_thinking conversation_id now l e) as [l1 e1]. cbn [fst snd] in *.
  destruct (active_text l1) as [seg|] eqn:Hact; [exact (push_text_inv t a l1 e1 rows seg I1 Hact)|].
  pose proof (inv_mint _ l1 e1 rows I1 Hact) as Hm. pose proof (inv_open _ _ _ _ I1) as Ho. rewrite Hact in Ho.
  assert (db (snd (fst (mint_segment l1 e1))) = db e1) as Hdb.
  { unfold mint_segment_msg_id. by destruct (used_primary_msg_id l1). }
  destruct (mint_segment l1 e1) as [[l2 e2] i]. cbn [fst snd] in Hdb. destruct Hm as (I2&Htk&Hnew&Hfree&Hmute&Hno&Hth2&_).
  set (seg := TextSegment.mk i EmptyString now false 0). cbn [TextSegment.id seg].
  set (e3 := match current_model l2 with Some _ => _ | None => e2 end).
  assert (quiet nothing e2 e3) as Hq by (unfold e3; destruct (current_model l2); [by apply quiet_forward|apply quiet_refl]).
  assert (inv a l2 e3 rows) as I3 by (eapply inv_quiet; [exact Hq|done|by intros [? []]|done]).
  refine (push_text_inv t a (set_active_text (Some seg) l2) e3 rows seg _ eq_refl).
  apply inv_open_text; [done|congruence|]. destruct Hq as (Ht&_&_&Hmi&Hids&Hstr). destruct Ho as (Hp&Hrows).
  unfold open_segment. rewrite Hp. cbn [seg TextSegment.buffer TextSegment.flush_counter TextSegment.id TextSegment.record_created].
  split_and!; try done; [by apply (taken_mono l2 e2)|by rewrite Hstr|by rewrite Ht, Hdb|]. by intros [?|[]]%Hids.
Qed.

(* ------------------------------------------------------------------ *)
(** ** Tools *)

Lemma quiet_tool_insert i ty c st now e : ty ≠ "text" → quiet (eq i) e (ConvRelay.insert (row i ty c st now) e).
Proof. intros Hty. apply (quiet_insert (row i ty c st now)). by apply String.eqb_neq. Qed.
Lemma persist_tool_call_quiet now d e : ToolCallEventData.call_id d ∉ map MessageRow.id (text_rows (db e)) →
  quiet (eq (ToolCallEventData.call_id d)) e (persist_tool_call conversation_id now d e).
Proof.
  intros Hi. unfold persist_tool_call. destruct (String.eqb _ _); [apply quiet_refl|].
  destruct (query _ e) as [[x|]|]; [|by apply quiet_tool_insert..]. apply quiet_update; [|done]. by destruct (ToolCallEventData.status d).
Qed.
Lemma persist_acp_tool_call_quiet now d e : AcpToolCallEventData.tool_call_id d ∉ map MessageRow.id (text_rows (db e)) →
  quiet (eq (AcpToolCallEventData.tool_call_id d)) e (persist_acp_tool_call conversation_id now d e).
Proof.
  intros Hi. unfold persist_acp_tool_call. destruct (AcpToolCallEventData.session_update d).
  - by apply quiet_tool_insert.
  - apply quiet_update; [|done]. by destruct (AcpToolCallEventData.status d) as [[]|].
Qed.
Abbreviation group_id := (λ (entries : list ToolGroupEntry.t) (e : env),
  match entries with x :: _ => ToolGroupEntry.call_id x | [] => short_id (minted e) end).
Lemma persist_tool_group_quiet now entries e : group_id entries e ∉ map MessageRow.id (text_rows (db e)) →
  quiet (eq (group_id entries e)) e (persist_tool_group conversation_id short_id now entries e) ∧
  (entries = [] → minted (persist_tool_group conversation_id short_id now entries e) = Datatypes.S (minted e)).
Proof.
  intros Hi. unfold persist_tool_group.
  set (st := if forallb _ entries then "finish" else "work"). assert (status_ok st) as Hst by (unfold st; by destruct (forallb _ entries)).
  clearbody st. destruct entries as [|x entries]; cbn [mint].
  - set (e1 := mk_env _ _ _ _).
    assert (quiet (eq (short_id (minted e))) e e1) as Hq by (split_and!; try done; [simpl; lia|by left]).
    destruct (query _ e1) as [[y|]|]; (split; [apply (quiet_trans _ _ e1); [done|]|intros _]).
    + by apply quiet_update.
    + by rewrite (proj1 (proj2 (proj2 (proj2 (update_text_rows _ _ st None e1 Hst))))).
    + by apply quiet_tool_insert.
    + by rewrite (proj1 (proj2 (proj2 (proj2 (insert_frame _ e1))))).
    + by apply quiet_tool_insert.
    + by rewrite (proj1 (proj2 (proj2 (proj2 (insert_frame _ e1))))).
  - split; [|done]. destruct (query _ e) as [[y|]|]; [|by apply quiet_tool_insert..]. by apply quiet_update.
Qed.

Abbreviation step := (consume_step conversation_id msg_id user_id cron_service complete_turn short_id).
(** Before a tool is written both segments are closed; its row is then no text row. *)
Lemma tool_inv (persist : env → env) i now ev a l e rows : inv a l e rows → (∀ t, ev ≠ Text t) →
  (∀ e1, i e1 ∉ map MessageRow.id (text_rows (db e1)) → quiet (eq (i e1)) e1 (persist e1)) →
  (∀ l1 e1 rows1, inv (close a) l1 e1 rows1 →
    i e1 ∉ map MessageRow.id (text_rows (db e1)) ∧ (mine (i e1) → taken l1 (persist e1) (i e1))) →
  let '(l1, e1) := close_segments conversation_id now "finish" l e in
  ∃ rows', inv (close a) l1 (persist (forward_to_websocket msg_id ev e1)) rows'.
Proof.
  intros I Hev Hp Hi. destruct (close_segments_inv now "finish" a l e rows eq_refl I) as (rows1&I1&Hno&_).
  destruct (close_segments conversation_id now "finish" l e) as [l1 e1]. cbn [fst snd] in *.
  set (e2 := forward_to_websocket msg_id ev e1).
  assert (inv (close a) l1 e2 rows1) as I2 by (eapply (inv_quiet nothing); [by apply quiet_forward|done|by intros [? []]|done]).
  destruct (Hi l1 e2 rows1 I2) as [Hnew Htk]. exists rows1. eapply inv_quiet; [by apply Hp| |done|done]. by intros j <-.
Qed.

Lemma next_id_free a l e rows : inv a l e rows → short_id (minted e) ∉ map MessageRow.id (text_rows (db e)).
Proof using short_id_inj short_id_other.
  intros I Hi. destruct (inv_unused _ _ _ _ I (short_id (minted e))) as [Hfree _].
  - right. exists (minted e). split; [apply I|done].
  - intros [[_ Hm]|(k&Hk&He)]; [by apply short_id_other in Hm|]. apply short_id_inj in He. lia.
  - apply Hfree. apply elem_of_map in Hi as (x&->&Hx). apply elem_of_filter_list in Hx as [Hx _]. apply elem_of_map. by exists x.
Qed.

Lemma step_inv now rc a l e rows : inv a l e rows → ending rc = None → (∀ i, tool_id rc = Some i → not_ours i) →
  ∃ l' e' rows', step now rc l e = (e', inl l') ∧ inv (hear a rc) l' e' rows'.
Proof using short_id_inj short_id_other.
  intros I Hend Htool. destruct rc as [ev| |]; [|by exists l, e, rows|done].
  assert (∀ ev', (∀ t, ev' ≠ Text t) → inv a l (forward_to_websocket msg_id ev' e) rows) as Hfwd.
  { intros ev' Hev. eapply (inv_quiet nothing); [by apply quiet_forward|done|by intros [? []]|done]. }
  destruct ev as [c j d s|t| |m|d|d|entries|m|o]; try done; cbn [consume_step].
  - destruct (on_thinking_inv now c j d s a l e rows I) as (rows'&I').
    destruct (thinking_step now c j d s l e) as [l' e']. eauto.
  - pose proof (on_text_inv now t a l e rows I) as I'. destruct (text_step now t l e) as [l' e']. eauto.
  - pose proof (tool_inv (persist_tool_call conversation_id now d) (λ _, ToolCallEventData.call_id d) now (ToolCall d) a l e rows I) as Ht.
    destruct (close_segments conversation_id now "finish" l e) as [l1 e1].
    destruct Ht as (rows'&I'); [done|intros; by apply persist_tool_call_quiet| |by eauto].
    intros l2 e2 rows2 I2. specialize (Htool _ eq_refl). split; [by apply (not_ours_text_row _ _ _ _ _ I2)|by destruct Htool].
  - pose proof (tool_inv (persist_acp_tool_call conversation_id now d) (λ _, AcpToolCallEventData.tool_call_id d) now (AcpToolCall d) a l e rows I) as Ht.
    destruct (close_segments conversation_id now "finish" l e) as [l1 e1].
    destruct Ht as (rows'&I'); [done|intros; by apply persist_acp_tool_call_quiet| |by eauto].
    intros l2 e2 rows2 I2. specialize (Htool _ eq_refl). split; [by apply (not_ours_text_row _ _ _ _ _ I2)|by destruct Htool].
  - pose proof (tool_inv (persist_tool_group conversation_id short_id now entries) (group_id entries) now (ToolGroup entries) a l e rows I) as Ht.
    destruct (close_segments conversation_id now "finish" l e) as [l1 e1].
    destruct Ht as (rows'&I'); [done|intros; by apply persist_tool_group_quiet| |by eauto].
    intros l2 e2 rows2 I2. destruct entries as [|x entries].
    + pose proof (next_id_free _ _ _ _ I2) as Hfree. split; [done|]. intros _.
      pose proof (proj2 (persist_tool_group_quiet now [] e2 Hfree) eq_refl) as Hm.
      right. exists (minted e2). rewrite Hm. split; [split; [apply I2|lia]|done].
    + specialize (Htool _ eq_refl). split; [by apply (not_ours_text_row _ _ _ _ _ I2)|by destruct Htool].
  - eexists _, _, rows. split; [done|]. pose proof (Hfwd (AssistantModelInfo m)) as I'.
    destruct I'; [done|]. by split.
  - eexists _, _, rows. split; [done|]. by apply Hfwd.
Qed.

Lemma consume_from_inv rs : ∀ a l e rows, inv a l e rows → Forall (λ x, ending (snd x) = None) rs →
  (∀ x i, x ∈ rs → tool_id (snd x) = Some i → not_ours i) →
  ∃ l' e' rows', inv (foldl (λ a x, hear a (snd x)) a rs) l' e' rows' ∧
    ∀ more, consume_from conversation_id msg_id user_id cron_service complete_turn short_id (rs ++ more) l e =
            consume_from conversation_id msg_id user_id cron_service complete_turn short_id more l' e'.
Proof using short_id_inj short_id_other.
  induction rs as [|[now rc] rs IH]; intros a l e rows I Hend Htool; simpl; [by exists l, e, rows|].
  apply List.Forall_cons_iff in Hend as [Hr Hend].
  destruct (step_inv now rc a l e rows I Hr) as (l1&e1&rows1&Hstep&I1); [intros i; apply (Htool (now, rc)); by left|].
  destruct (IH _ _ _ _ I1 Hend) as (l2&e2&rows2&I2&Heq); [intros x i Hx; apply Htool; by right|].
  exists l2, e2, rows2. split; [done|]. intros more. by rewrite Hstep.
Qed.

(* ------------------------------------------------------------------ *)
(** ** The end of the turn *)

(** [e'] differs from [e] in the text rows, by what [f] makes of them, in the rows that
    are no text, and in what was sent besides text. *)
Definition rewrites (f : list MessageRow.t → list MessageRow.t) e e' : Prop :=
  text_rows (db e') = f (text_rows (db e)) ∧ cron e' = cron e ∧ (∀ i, streamed i (sent e') = streamed i (sent e)).
Lemma rewrites_trans f g e1 e2 e3 : rewrites f e1 e2 → rewrites g e2 e3 → rewrites (λ x, g (f x)) e1 e3.
Proof. intros (A1&A2&A3) (B1&B2&B3). split_and!; [by rewrite B1, A1|congruence|congruence]. Qed.
Lemma rewrites_quiet X e e' : quiet X e e' → rewrites id e e'.
Proof. intros (A1&_&A2&_&_&A3). done. Qed.
Lemma rewrites_update i c s h e : status_ok s → rewrites (sql_update (ConversationRepo.is_message i)
  (ConversationRepo.apply_message_update (MessageRowUpdate.mk c (Some (Some s)) h))) e (update i c s h e).
Proof. intros Hs. destruct (update_text_rows i c s h e Hs) as (A1&_&_&_&A5&A6). split_and!; [done|done|congruence]. Qed.

(** The rows of a list of ids, updated one after the other. *)
Lemma rewrites_fold (f : env → string → env) u :
  (∀ e i, rewrites (sql_update (ConversationRepo.is_message i) (ConversationRepo.apply_message_update u)) e (f e i)) →
  ∀ todo e A, text_rows (db e) = A ++ todo → NoDup (map MessageRow.id todo) →
  (∀ i, i ∈ map MessageRow.id todo → i ∉ map MessageRow.id A) →
  rewrites (λ _, A ++ map (ConversationRepo.apply_message_update u) todo) e (foldl f e (map MessageRow.id todo)).
Proof.
  intros Hf todo. induction todo as [|r todo IH]; intros e A Hrows Hnd Hfree; simpl; [done|].
  simpl in Hnd. apply NoDup_cons in Hnd as [Hr Hnd]. destruct (Hf e (MessageRow.id r)) as (B1&B2&B3).
  rewrite Hrows, sql_update_middle in B1; [|done|by apply Hfree; left|done].
  destruct (IH (f e (MessageRow.id r)) (A ++ [ConversationRepo.apply_message_update u r])) as (C1&C2&C3).
  - by rewrite B1, <- app_assoc.
  - done.
  - intros i Hi. rewrite map_app, elem_of_app. intros [HA|Hi2]; [by apply (Hfree i); [right|]|].
    apply list_elem_of_singleton in Hi2. apply Hr. by rewrite Hi2 in Hi.
  - split_and!; [|congruence|congruence]. by rewrite C1, <- app_assoc.
Qed.

Lemma rewrites_hide status e i : status_ok status → rewrites (sql_update (ConversationRepo.is_message i)
  (ConversationRepo.apply_message_update (MessageRowUpdate.mk None (Some (Some status)) (Some true)))) e (hide_segment status e i).
Proof.
  intros Hs. unfold hide_segment, send_final_text_override.
  apply (rewrites_trans _ id _ _ _ (rewrites_update i None status (Some true) e Hs)).
  apply (rewrites_quiet nothing), quiet_send. done.
Qed.
Lemma rewrites_responses rs : ∀ e, rewrites id e (send_system_responses short_id rs e).
Proof.
  induction rs as [|r rs IH]; intros e; simpl; [done|]. eapply (rewrites_trans id id); [|apply IH].
  split_and!; [done|done|]. intros i. simpl. by rewrite streamed_app, app_string_nil_r.
Qed.
Lemma rewrites_complete now e : rewrites id e (complete_conversation conversation_id now e).
Proof.
  unfold complete_conversation. eapply (rewrites_trans id id); [|by apply (rewrites_quiet nothing), quiet_send].
  unfold run_sql, ConversationRepo.update. cbn [ConversationRowUpdate.is_empty ConversationRowUpdate.status].
  destruct (rows_affected _ _); [done|]. by destruct (ConversationRepo.conversation_status_ok _).
Qed.

(** What the rows of an answer show when the turn is over: every run as it was streamed,
    or, when the middleware changed the answer, the new text in the first row, hidden if
    blank, and the others hidden. *)
Definition blank (t : string) : bool := String.eqb (trim t) EmptyString.
Definition final_view a (message : string) : list (string * bool) :=
  if String.eqb message (words a) && negb (blank message) then map (λ s, (content (fst s) (snd s), false)) (closed a)
  else match closed a with
       | [] => []
       | _ :: rest => (content (trim message) (model a), blank message) :: map (λ s, (content (fst s) (snd s), true)) rest
       end.
Definition view r : string * bool := (MessageRow.content r, MessageRow.hidden r).
Definition finished (status : string) r : Prop :=
  MessageRow.conversation_id r = conversation_id ∧ MessageRow.msg_id r = Some (MessageRow.id r) ∧ MessageRow.type r = "text" ∧
  MessageRow.position r = Some "left" ∧ MessageRow.status r = Some status.
(** The rows [rows'] show [view'], finished, under the ids of [rows]. *)
Definition leaves (status : string) rows rows' (view' : list (string * bool)) : Prop :=
  map view rows' = view' ∧ Forall (finished status) rows' ∧ map MessageRow.id rows' = map MessageRow.id rows.

Lemma leaves_nil status : leaves status [] [] [].
Proof. done. Qed.
Lemma leaves_row status c h r s : segment_row r s →
  leaves status [r] [ConversationRepo.apply_message_update (MessageRowUpdate.mk c (Some (Some status)) (Some h)) r]
    [(default (content (fst s) (snd s)) c, h)].
Proof.
  intros (st&at_& ->). split_and!; [|by repeat constructor|done]. by destruct c.
Qed.
Lemma leaves_cons status r r' rows rows' v vs : leaves status [r] [r'] [v] → leaves status rows rows' vs →
  leaves status (r :: rows) (r' :: rows') (v :: vs).
Proof.
  intros (A1&A2&A3) (B1&B2&B3). simpl in A1, A3. apply List.Forall_cons_iff in A2 as [A2 _].
  split_and!; simpl; [by rewrite B1; congruence|by constructor|by rewrite B3; congruence].
Qed.
Lemma leaves_all status h rows segs : Forall2 segment_row rows segs →
  leaves status rows (map (ConversationRepo.apply_message_update (MessageRowUpdate.mk None (Some (Some status)) (Some h))) rows)
    (map (λ s, (content (fst s) (snd s), h)) segs).
Proof.
  induction 1 as [|r s rows segs Hr _ IH]; [apply leaves_nil|]. simpl. apply leaves_cons; [|done].
  by apply (leaves_row status None).
Qed.

Lemma told_rows e rows segs : Forall2 (told e) rows segs → Forall2 segment_row rows segs.
Proof. intros Ht. eapply Forall2_impl; [exact Ht|]. by intros r s []. Qed.

(** The rewriting of [finalize] for an answer with words. *)
Definition rewrite_segments (status text : string) (segments : list string) (model : option ModelInfo) (message : string) (e : env) : env :=
  let final_text := trim message in
  let hidden := String.eqb final_text EmptyString in
  match segments with
  | primary :: rest =>
      if negb (String.eqb message text) || hidden then
        let e := update primary (Some (content final_text model)) status (Some hidden) e in
        let e := send_final_text_override primary message hidden e in
        foldl (hide_segment status) e rest
      else foldl (λ e i, update i None status (Some false) e) e segments
  | [] => e
  end.

Lemma rewrite_segments_view status a l e0' e rows message :
  status_ok status → inv a l e0' rows → text_rows (db e) = text_rows (db e0') → active_text l = None → closed a ≠ [] →
  let e' := rewrite_segments status (words a) (text_segments l) (model a) message e in
  ∃ rows', rewrites (λ _, text_rows (db e0) ++ rows') e e' ∧ leaves status rows rows' (final_view a message).
Proof.
  intros Hs I Hdb Hno Hne. pose proof (inv_open _ _ _ _ I) as Ho. rewrite Hno, <- Hdb in Ho. destruct Ho as [_ Hrows].
  pose proof (told_rows _ _ _ (inv_rows _ _ _ _ I)) as Htold. pose proof (inv_nodup _ _ _ _ I) as Hnd.
  assert (∀ i, i ∈ map MessageRow.id rows → i ∉ map MessageRow.id (text_rows (db e0))) as Hold.
  { intros i. rewrite (inv_segments _ _ _ _ I). intros Hi. apply (inv_old _ _ _ _ I), (taken_mine l e0'), (inv_taken _ _ _ _ I), Hi. }
  rewrite <- (inv_segments _ _ _ _ I) in Hnd |- *. clear I Hno. unfold rewrite_segments, final_view, blank. cbv zeta.
  destruct Htold as [|r s rows segs Hr Htold]; [done|]. cbn [map].
  rewrite <- (negb_involutive (String.eqb message (words a) && _)), negb_andb, negb_involutive.
  destruct (negb (String.eqb message (words a)) || String.eqb (trim message) EmptyString); cbn [negb].
  - cbn [map] in Hnd. apply NoDup_cons in Hnd as [Hr1 Hnd].
    set (u1 := MessageRowUpdate.mk (Some (content (trim message) (model a))) (Some (Some status)) (Some (String.eqb (trim message) EmptyString))).
    set (u2 := MessageRowUpdate.mk None (Some (Some status)) (Some true)).
    exists (ConversationRepo.apply_message_update u1 r :: map (ConversationRepo.apply_message_update u2) rows). split.
    + set (e1 := update (MessageRow.id r) _ status _ e).
      assert (rewrites (λ _, text_rows (db e0) ++ ConversationRepo.apply_message_update u1 r :: rows) e e1) as (B1&B2&B3).
      { destruct (rewrites_update (MessageRow.id r) (Some (content (trim message) (model a))) status (Some (String.eqb (trim message) EmptyString)) e Hs)
          as (C1&C2&C3). split_and!; [|done|done]. unfold e1. rewrite C1, Hrows. apply sql_update_middle; [done|apply Hold; by left|done]. }
      set (e2 := send_final_text_override _ _ _ e1).
      assert (rewrites id e1 e2) as (C1&C2&C3) by (by apply (rewrites_quiet nothing), quiet_send).
      destruct (rewrites_fold (hide_segment status) u2 (λ e i, rewrites_hide status e i Hs) rows e2
        (text_rows (db e0) ++ [ConversationRepo.apply_message_update u1 r])) as (D1&D2&D3); [..|split_and!; [|congruence..]].
      * by rewrite C1, B1, <- app_assoc.
      * done.
      * intros i Hi. rewrite map_app, elem_of_app. intros [HT|Hi2]; [by apply (Hold i); [right|]|].
        apply list_elem_of_singleton in Hi2. by rewrite Hi2 in Hi.
      * by rewrite D1, <- app_assoc.
    + apply leaves_cons; [by apply (leaves_row status (Some _) _ r s)|by apply leaves_all].
  - set (u := MessageRowUpdate.mk None (Some (Some status)) (Some false)).
    exists (map (ConversationRepo.apply_message_update u) (r :: rows)). split.
    + exact (rewrites_fold (λ e i, update i None status (Some false) e) u (λ e i, rewrites_update i None status (Some false) e Hs)
        (r :: rows) e _ Hrows Hnd Hold).
    + by apply (leaves_all status false (r :: rows) (s :: segs)), List.Forall2_cons.
Qed.

Lemma final_status_ok ev : status_ok (final_status ev).
Proof. unfold final_status. by destruct (is_error ev). Qed.
Lemma joined_nonempty segs : Forall (λ s : string * option ModelInfo, fst s ≠ EmptyString) segs →
  joined (map fst segs) = EmptyString → segs = [].
Proof. intros [|s l Hs _]; [done|]. simpl. by intros ?%app_string_empty_inv. Qed.

Abbreviation processed := (λ text,
  process (service <$> cron_service) text user_id conversation_id (cron e0, tbl_conversations (db e0))).
Lemma finish_turn_view now ev a l e rows : inv a l e rows → active_text l = None →
  Forall (λ s, fst s ≠ EmptyString) (closed a) → ending (Event ev) ≠ None →
  let res := processed (words a) in let silent := String.eqb (words a) EmptyString in
  ∃ e' rows', finish_turn conversation_id msg_id user_id cron_service complete_turn short_id now ev l e =
      (e', if silent then [] else system_responses (snd res)) ∧
    text_rows (db e') = text_rows (db e0) ++ rows' ∧
    leaves (final_status ev) rows rows' (final_view a (r_message (snd res))) ∧
    (∀ i, streamed i (sent e') = streamed i (sent e)) ∧ cron e' = (if silent then cron e0 else fst (fst res)).
Proof.
  intros I Hno Hne Hev. pose proof (inv_open _ _ _ _ I) as Ho. rewrite Hno in Ho. destruct Ho as [Hp Hrows].
  assert (joined (map fst (closed a)) = words a) as Hw by (unfold words; by rewrite Hp; simpl; rewrite app_string_nil_r).
  unfold finish_turn, finalize. rewrite (inv_full _ _ _ _ I), (inv_model _ _ _ _ I). cbv zeta.
  assert (∀ e2 out, ∃ e3, (if complete_turn then complete_conversation conversation_id now e2 else e2, out : list string) = (e3, out) ∧ rewrites id e2 e3) as Hcomplete.
  { intros e2 out. eexists. split; [reflexivity|]. destruct complete_turn; [apply rewrites_complete|done]. }
  destruct (String.eqb_spec (words a) EmptyString) as [He|He]; cbn [negb].
  - rewrite He in Hw. apply joined_nonempty in Hw as Hc; [|done].
    assert (rows = []) as -> by (pose proof (inv_rows _ _ _ _ I) as Hr; rewrite Hc in Hr; by inversion Hr).
    assert (∃ e2, (match ev with
       | Error m => let '(e4, i) := mint short_id e in
           (ConvRelay.insert (MessageRow.mk i conversation_id None "tips" (to_string (Obj [("content", Str m); ("type", Str "error")]))
              (Some "left") (Some "error") false now) e4, [])
       | _ => (e, []) end) = (e2, [] : list string) ∧ rewrites id e e2) as (e2&Hfin&Hq).
    { destruct ev; try (by exists e). eexists. cbn [mint]. split; [reflexivity|].
      eapply (rewrites_trans id id); [|eapply rewrites_quiet, quiet_insert; done]. done. }
    rewrite Hfin. destruct (Hcomplete e2 []) as (e3&Heq&Hq2). exists e3, [].
    destruct (rewrites_trans _ _ _ _ _ Hq Hq2) as (B1&B2&B3). rewrite Heq.
    assert (leaves (final_status ev) [] [] (final_view a (r_message (snd (processed (words a)))))) as Hl.
    { unfold final_view. rewrite Hc. simpl. destruct (_ && _); apply leaves_nil. }
    exact (conj eq_refl (conj (eq_trans B1 Hrows) (conj Hl (conj B3 (eq_trans B2 (inv_cron _ _ _ _ I)))))).
  - assert (closed a ≠ []) as Hc by (intros Hc; rewrite Hc in Hw; by simpl in Hw).
    unfold process_final_text. rewrite (inv_cron _ _ _ _ I).
    rewrite (inv_table _ _ _ _ I). destruct (process _ (words a) _ _ _) as [[s' table] res]. cbn [fst snd].
    set (e1 := mk_env (minted e) (set_conversations table (db e)) s' (sent e)).
    destruct (rewrite_segments_view (final_status ev) a l e e1 rows (r_message res) (final_status_ok ev) I eq_refl Hno Hc) as (rows'&Hre&Hl).
    set (e2 := rewrite_segments (final_status ev) (words a) (text_segments l) (model a) (r_message res) e1) in Hre.
    destruct (Hcomplete (send_system_responses short_id (system_responses res) e2) (system_responses res)) as (e3&Heq&Hq).
    destruct (rewrites_trans _ _ _ _ _ (rewrites_trans _ _ _ _ _ Hre (rewrites_responses _ e2)) Hq) as (B1&B2&B3).
    exists e3, rows'. refine (conj _ (conj B1 (conj Hl (conj B3 B2)))). rewrite <- Heq. unfold e2, rewrite_segments.
    pose proof (inv_segments _ _ _ _ I) as Hseg. pose proof (inv_rows _ _ _ _ I) as Hr.
    destruct Hr as [|r s rows segs _ _]; [done|]. rewrite <- Hseg. done.
Qed.

(** The runs that ended are not empty, and with the open one they are all the text. *)
Definition text_of (x : Z * received) : option string := match snd x with Event (Text t) => Some t | _ => None end.
Lemma close_nonempty a : Forall (λ s, fst s ≠ EmptyString) (closed a) → Forall (λ s, fst s ≠ EmptyString) (closed (close a)).
Proof.
  intros Ha. unfold close. destruct (String.eqb_spec (joined (pending a)) EmptyString); [done|]. simpl.
  apply Forall_app. split; [done|]. by repeat constructor.
Qed.
Lemma hear_facts a x : Forall (λ s, fst s ≠ EmptyString) (closed a) →
  Forall (λ s, fst s ≠ EmptyString) (closed (hear a (snd x))) ∧
  words (hear a (snd x)) = words a +:+ joined (option_list (text_of x)).
Proof.
  intros Ha. destruct x as [now [ev| |]]; [|simpl; by rewrite app_string_nil_r..].
  assert (words a +:+ EmptyString = words a) as Hw by apply app_string_nil_r.
  destruct ev; cbn [snd hear text_of option_list joined foldr]; rewrite ?Hw; rewrite ?words_close; try done; try (by split; [apply close_nonempty|]).
  - destruct (bool_decide _); [done|]. rewrite words_close. by split; [apply close_nonempty|].
  - split; [done|]. unfold words. cbn [closed pending]. by rewrite joined_app, app_string_assoc.
Qed.
Lemma heard_facts rs : ∀ a, Forall (λ s, fst s ≠ EmptyString) (closed a) →
  Forall (λ s, fst s ≠ EmptyString) (closed (foldl (λ a x, hear a (snd x)) a rs)) ∧
  words (foldl (λ a x, hear a (snd x)) a rs) = words a +:+ joined (omap text_of rs).
Proof.
  induction rs as [|x rs IH]; intros a Ha; [by simpl; rewrite app_string_nil_r|]. cbn [foldl omap list_omap].
  destruct (hear_facts a x Ha) as [Hc Hw]. destruct (IH _ Hc) as [Hc2 Hw2]. split; [done|].
  rewrite Hw2, Hw, app_string_assoc. f_equal. destruct (text_of x); simpl; [by rewrite app_string_nil_r|done].
Qed.

Lemma start_inv : (∀ i, mine i → i ∉ message_ids (db e0) ∧ streamed i (sent e0) = EmptyString) →
  has_conversation conversation_id (db e0) → inv (mk_answer [] [] None) start e0 [].
Proof.
  intros Hfree Hc. split; try done.
  - intros i Hi Hold. destruct (Hfree i Hi) as [Hn _]. apply Hn. apply elem_of_map in Hold as (r&->&Hr).
    apply elem_of_filter_list in Hr as [Hr _]. apply elem_of_map. by exists r.
  - intros i Hi _. by apply Hfree.
  - constructor.
  - by intros i ?%elem_of_nil.
  - split; [done|]. by rewrite app_nil_r.
Qed.

(** The last event: both segments are closed, then the turn is finished. *)
Lemma last_step now last ev a l e rows : inv a l e rows → ending last = Some ev →
  ∃ l1 e1 rows1, inv (close a) l1 e1 rows1 ∧ active_text l1 = None ∧
    step now last l e = (let '(e', outcome) := finish_turn conversation_id msg_id user_id cron_service complete_turn short_id now ev l1 e1 in
                         (e', inr outcome)).
Proof.
  intros I Hl. destruct last as [ev'| |]; [destruct ev'; try done|done|]; injection Hl as <-; cbn [consume_step].
  - destruct (close_segments_inv now "finish" a l e rows eq_refl I) as (rows1&I1&Hno&_). cbn [final_status is_error].
    destruct (close_segments conversation_id now "finish" l e) as [l1 e1]. cbn [fst snd] in *.
    exists l1, (forward_to_websocket msg_id Finish e1), rows1. split; [|done].
    eapply (inv_quiet nothing); [by apply quiet_forward|done|by intros [? []]|done].
  - destruct (close_segments_inv now "error" a l e rows eq_refl I) as (rows1&I1&Hno&_). cbn [final_status is_error].
    destruct (close_segments conversation_id now "error" l e) as [l1 e1]. cbn [fst snd] in *.
    exists l1, (forward_to_websocket msg_id (Error message) e1), rows1. split; [|done].
    eapply (inv_quiet nothing); [by apply quiet_forward|done|by intros [? []]|done].
  - destruct (close_segments_inv now "finish" a l e rows eq_refl I) as (rows1&I1&Hno&_).
    destruct (close_segments conversation_id now "finish" l e) as [l1 e1]. by exists l1, e1, rows1.
Qed.

(** C12: a turn that ends (an event, an error or a closed channel) leaves in the
    conversation exactly the answer that was streamed: one text row per run of text
    between thoughts and tools, in the order of the runs, under ids of the turn, finished,
    with the text the clients received under that id and the model known then; when the
    middleware changes the answer the first row holds the new text, hidden if blank, and
    the others are hidden.  The text rows of before are as they were, the runs are all the
    text of the turn, and the outcome is the answers to the commands in it. *)
Theorem relay_persists_the_answer rs now last ev :
  ending last = Some ev → Forall (λ x, ending (snd x) = None) rs →
  (∀ x i, x ∈ rs → tool_id (snd x) = Some i → not_ours i) →
  (∀ i, mine i → i ∉ message_ids (db e0) ∧ streamed i (sent e0) = EmptyString) →
  has_conversation conversation_id (db e0) →
  let a := close (heard rs) in
  let res := process (service <$> cron_service) (joined (omap text_of rs)) user_id conversation_id
    (cron e0, tbl_conversations (db e0)) in
  let silent := String.eqb (joined (omap text_of rs)) EmptyString in
  ∃ e' rows, consume conversation_id msg_id user_id cron_service complete_turn short_id (rs ++ [(now, last)]) e0 =
      (e', inr (if silent then [] else system_responses (snd res))) ∧
    text_rows (db e') = text_rows (db e0) ++ rows ∧ map view rows = final_view a (r_message (snd res)) ∧
    Forall (finished (final_status ev)) rows ∧ NoDup (map MessageRow.id rows) ∧ Forall mine (map MessageRow.id rows) ∧
    Forall2 (λ r s, streamed (MessageRow.id r) (sent e') = fst s) rows (closed a) ∧
    joined (map fst (closed a)) = joined (omap text_of rs) ∧ cron e' = (if silent then cron e0 else fst (fst res)).
Proof using short_id_inj short_id_other.
  intros Hlast Hrs Htool Hfree Hconv.
  destruct (consume_from_inv rs _ _ _ _ (start_inv Hfree Hconv) Hrs Htool) as (l1&e1&rows1&I1&Hrun).
  destruct (last_step now last ev _ _ _ _ I1 Hlast) as (l2&e2&rows2&I2&Hno&Hstep).
  destruct (heard_facts rs (mk_answer [] [] None) ltac:(constructor)) as [Hne Hw]. change (foldl _ _ rs) with (heard rs) in *.
  pose proof (words_close (heard rs)) as Hwc. rewrite Hw in Hwc. change (words (close (heard rs)) = joined (omap text_of rs)) in Hwc.
  assert (ending (Event ev) ≠ None) as Hev by (destruct last as [[]| |]; try done; by injection Hlast as <-).
  destruct (finish_turn_view now ev _ l2 e2 rows2 I2 Hno (close_nonempty _ Hne) Hev) as (e'&rows'&Hfin&Hrows&(Hview&Hdone&Hids)&Hstr&Hcr).
  rewrite Hwc in *. exists e', rows'. cbv zeta. unfold consume. rewrite Hrun. cbn [consume_from]. rewrite Hstep, Hfin.
  pose proof (inv_segments _ _ _ _ I2) as Hseg. rewrite Hids.
  refine (conj eq_refl (conj Hrows (conj Hview (conj Hdone (conj _ (conj _ (conj _ (conj _ Hcr)))))))).
  - rewrite Hseg. apply I2.
  - rewrite Hseg. apply Forall_forall. intros i Hi. apply (taken_mine l2 e2), (inv_taken _ _ _ _ I2), Hi.
  - assert (∀ P Q : list MessageRow.t, map MessageRow.id P = map MessageRow.id Q → Forall2 (told e2) Q (closed (close (heard rs))) →
      Forall2 (λ r s, streamed (MessageRow.id r) (sent e') = fst s) P (closed (close (heard rs)))) as Hmap.
    { clear -Hstr. intros P Q HPQ HQ. revert P HPQ. induction HQ as [|r s Q segs [_ Hr] _ IH]; intros [|x P] HPQ; try done; constructor.
      - simpl in HPQ. injection HPQ as Hx _. by rewrite Hstr, Hx.
      - apply IH. by injection HPQ. }
    by apply (Hmap rows' rows2), I2.
  - rewrite <- Hwc. unfold words. pose proof (inv_open _ _ _ _ I2) as Ho. rewrite Hno in Ho. destruct Ho as [-> _]. simpl.
    by rewrite app_string_nil_r.
Qed.
End turn.

(* ------------------------------------------------------------------ *)
(** ** Concrete turns *)

Section witnesses.
#[local] Existing Instance plain_codec.
#[local] Existing Instance Scan.scan_regex.
#[local] Existing Instance ascii_unicode.

Fixpoint ticks (n : nat) : string := match n with O => EmptyString | Datatypes.S n => String (Ascii.ascii_of_nat 43) (ticks n) end.
Lemma ticks_inj j : ∀ k, ticks j = ticks k → j = k.
Proof. induction j as [|j IH]; intros [|k]; simpl; try done. injection 1. auto. Qed.
Definition chats : ConvDb := mk_conv_db [chat "c1" 5; chat "c2" 6] [] [] ["u1"].
Definition before : ConvRelay.env (S := unit) := mk_env 0 chats tt [].
Definition run (rs : list (Z * received)) (e : ConvRelay.env (S := unit)) :=
  consume "c1" "m1" "u1" None true ticks rs e.
Definition call (i : string) (st : ToolCallStatus) : received :=
  Event (ToolCall (ToolCallEventData.mk i "ls" Null st None None None)).
Definition turn : list (Z * received) :=
  [(1, Event (Text "Let me ")); (2, Event (Text "look.")); (3, call "t1" ToolRunning); (4, call "t1" ToolCompleted);
   (5, Event (AssistantModelInfo (mk_model_info "a" "p" "m"))); (6, Event (Text "Two files."))].
Lemma chats_unused i : mine "m1" ticks before i → i ∉ message_ids (db before) ∧ streamed i (sent before) = EmptyString.
Proof. intros _. split; [apply not_elem_of_nil|done]. Qed.
Lemma turn_tools x i : x ∈ turn → tool_id (snd x) = Some i → not_ours "m1" ticks before i.
Proof.
  intros Hx Hi. assert (i = "t1") as ->.
  { unfold turn in Hx. repeat (apply elem_of_cons in Hx as [->|Hx]; [by simplify_eq/=|]). by apply elem_of_nil in Hx. }
  split; [|apply not_elem_of_nil]. intros [?|([|k]&_&Hk)]; discriminate.
Qed.

Lemma relay_persists_the_answer_witness :
  ∃ e' rows, run (turn ++ [(7, Event Finish)]) before = (e', inr []) ∧ text_rows (db e') = rows ∧
    map view rows = [(build_text_content_json "Let me look." None, false);
                     (build_text_content_json "Two files." (Some (mk_model_info "a" "p" "m")), false)].
Proof.
  destruct (relay_persists_the_answer "c1" "m1" "u1" None true ticks before (λ j k, ticks_inj j k)
    ltac:(by intros [|k]) turn 7 (Event Finish) Finish eq_refl ltac:(by repeat constructor) turn_tools chats_unused eq_refl)
    as (e'&rows&Hrun&Hrows&Hview&_).
  exists e', rows. split; [exact Hrun|]. split; [exact Hrows|]. rewrite Hview. vm_compute. reflexivity.
Defined.

(** A tool call whose id is the id of a message of another conversation is not saved. *)
Lemma reused_call_id_is_lost :
  let other := MessageRow.mk "t1" "c2" (Some "t1") "tool_call" "{}" (Some "left") (Some "finish") false 0 in
  let e := mk_env 0 (set_messages [other] chats) tt [] in
  tbl_messages (db (fst (run [(1, call "t1" ToolCompleted)] e))) = [other].
Proof. vm_compute. reflexivity. Qed.

(** An update of an ACP tool call is written by id alone, into any conversation. *)
Lemma acp_update_hits_other_conversation :
  let other := MessageRow.mk "t1" "c2" (Some "t1") "text" "{}" (Some "left") (Some "finish") false 0 in
  let e := mk_env 0 (set_messages [other] chats) tt [] in
  map MessageRow.status (tbl_messages (db (fst (run [(1, Event (AcpToolCall
    (AcpToolCallEventData.mk "t1" KToolCallUpdate (Some AcpFailed) (Obj []))))] e)))) = [Some "error"].
Proof. vm_compute. reflexivity. Qed.
End witnesses.
