(* ===== verification/ConvConvert.v ===== *)
(** * ConvConvert: from rows to responses

    [chisl-conversation/src/convert.rs], [skill_snapshot.rs] and [task_options.rs] with the
    response types of [chisl-api-types/src/conversation.rs]: how rows become what clients
    see, the frozen list of skills of a conversation, and the model an agent is built with.
    What the host answers is the class [Host]. *)

From S2P Require Import Prelude.
From S2P Require Import Text.
From S2P Require Import JsonValue.
From S2P Require Import TeamTypes.
From S2P Require Import Common.
From S2P Require Import Paths.
From S2P Require Import ConvRepo.

(** What lies outside the crate: the messages of [serde_json], directories, the root of
    the data directory, minted ids, the skills installed, the catalog of agents (id and
    native skill directories of a built-in row). *)
Class Host := {
  parse_error : string → string;
  is_dir : string → bool;
  workspace_root : string;
  create_dir_all : string → result unit string;
  short_id : nat → string;
  message_uuid : nat → string;
  auto_inject_names : list string;
  resolve_skills : list string → list string;
  find_builtin_by_backend : string → result (option (string * option string)) DbError.t;
}.

Module ConversationResponse.
(* chisl-api-types/src/conversation.rs:127-144 ConversationResponse *)
Record t := mk {
  id : string; name : string; type : AgentType.t; model : option ProviderWithModel.t; status : ConversationStatus.t;
  source : option ConversationSource.t; pinned : bool; pinned_at : option TimestampMs; channel_chat_id : option string;
  created_at : TimestampMs; modified_at : TimestampMs; extra : json }.
End ConversationResponse.
Module MessageResponse.
(* chisl-api-types/src/conversation.rs:151-161 MessageResponse *)
Record t := mk {
  id : string; conversation_id : string; msg_id : option string; type : MessageType.t; content : json;
  position : option MessagePosition.t; status : option MessageStatus.t; hidden : bool; created_at : TimestampMs }.
End MessageResponse.
Module ConversationArtifactKind.
(* chisl-api-types/src/conversation.rs:175-178 ConversationArtifactKind *)
Inductive t := CronTrigger | SkillSuggest.
#[global] Instance serde : SerdeEnum t.
Proof.
  refine {| variants := [CronTrigger; SkillSuggest];
            serde_name := λ k, match k with CronTrigger => "cron_trigger" | SkillSuggest => "skill_suggest" end |}; serde_enum_laws.
Defined.
End ConversationArtifactKind.
Module ConversationArtifactStatus.
(* chisl-api-types/src/conversation.rs:183-188 ConversationArtifactStatus *)
Inductive t := Active | Pending | Dismissed | Saved.
#[global] Instance serde : SerdeEnum t.
Proof.
  refine {| variants := [Active; Pending; Dismissed; Saved];
            serde_name := λ s, match s with Active => "active" | Pending => "pending" | Dismissed => "dismissed" | Saved => "saved" end |};
    serde_enum_laws.
Defined.
End ConversationArtifactStatus.
Module ConversationArtifactResponse.
(* chisl-api-types/src/conversation.rs:192-201 ConversationArtifactResponse *)
Record t := mk {
  id : string; conversation_id : string; cron_job_id : option string; kind : ConversationArtifactKind.t;
  status : ConversationArtifactStatus.t; payload : json; created_at : TimestampMs; updated_at : TimestampMs }.
End ConversationArtifactResponse.
Module MessageSearchItem.
(* chisl-api-types/src/conversation.rs:208-214 MessageSearchItem *)
Record t := mk {
  message_id : string; message_type : string; message_created_at : TimestampMs; preview_text : string;
  conversation : ConversationResponse.t }.
End MessageSearchItem.

Definition get_str (k : string) (v : json) : option string := JsonValue.get k v ≫= as_str.
(** [Option::transpose] after [map]. *)
Definition transpose {A B E} (f : A → result B E) (o : option A) : result (option B) E :=
  match o with Some a => res_map Some (f a) | None => Ok None end.
(** [collect::<Result<Vec<_>, _>>]. *)
Fixpoint collect {A B E} (f : A → result B E) (l : list A) : result (list B) E :=
  match l with [] => Ok [] | a :: l => let? b := f a in let? r := collect f l in Ok (b :: r) end.

Section convert.
Context `{JsonCodec} `{Host}.

(** [serde_json::from_str::<Value>] with the message of an error. *)
Definition parse_json (what t : string) : result json AppError.t :=
  match from_str t with Some v => Ok v | None => Err (AppError.Internal ("Invalid " +:+ what +:+ " JSON: " +:+ parse_error t)) end.
(* chisl-conversation/src/convert.rs:138-141 string_to_enum *)
Definition string_to_enum {A} `{SerdeEnum A} (s : string) : result A AppError.t :=
  match of_name s with
  | Some a => Ok a
  | None => Err (AppError.Internal ("Invalid enum value '" +:+ s +:+ "': " +:+ parse_error s))
  end.
Definition or_key (k k' : string) (v : json) : option json :=
  match JsonValue.get k v with Some x => Some x | None => JsonValue.get k' v end.
(* chisl-conversation/src/convert.rs:95-133 parse_provider_with_model *)
Definition parse_provider_with_model (s : string) : result ProviderWithModel.t AppError.t :=
  let? v := parse_json "model" s in
  let use_model := or_key "use_model" "useModel" v ≫= as_str in
  match or_key "provider_id" "providerId" v ≫= as_str with
  | Some p => Ok (ProviderWithModel.mk p (default EmptyString (get_str "model" v)) use_model)
  | None =>
      match get_str "id" v with
      | Some i => Ok (ProviderWithModel.mk i (default EmptyString use_model) use_model)
      | None => Err (AppError.Internal ("Model JSON missing both 'provider_id'/'providerId' and 'id': " +:+ s))
      end
  end.

(** The status of a row: missing and empty mean finished. *)
Definition status_of (s : option string) : result ConversationStatus.t AppError.t :=
  match s with
  | None => Ok ConversationStatus.Finished
  | Some s => if String.eqb s EmptyString then Ok ConversationStatus.Finished else string_to_enum s
  end.
(** The workspace of a remote conversation that is not a directory here is replaced. *)
Definition with_workspace (r : ConversationRow.t) (extra : json) : json :=
  match extra with
  | Obj o =>
      match get_str "workspace" extra with
      | Some w => if String.eqb (ConversationRow.type r) "remote" && is_dir workspace_root && negb (String.eqb w EmptyString) && negb (is_dir w)
                  then Obj (insert "workspace" (Str workspace_root) o) else extra
      | None => extra
      end
  | _ => extra
  end.
Definition is_temporary (extra : json) : bool :=
  let ws := default EmptyString (get_str "workspace" extra) in
  negb (String.eqb ws EmptyString) && path_starts_with (components ws) (components workspace_root).
Definition with_flag (extra : json) : json :=
  match extra with Obj o => Obj (insert "is_temporary_workspace" (Bool (is_temporary extra)) o) | _ => extra end.
(* chisl-conversation/src/convert.rs:33-86 row_to_response_with_extra *)
Definition row_to_response_with_extra (r : ConversationRow.t) (extra : json) : result ConversationResponse.t AppError.t :=
  let extra := with_flag (with_workspace r extra) in
  let? a := string_to_enum (ConversationRow.type r) in
  let? st := status_of (ConversationRow.status r) in
  let? m := transpose parse_provider_with_model (ConversationRow.model r) in
  Ok (ConversationResponse.mk (ConversationRow.id r) (ConversationRow.name r) a m st
        (ConversationRow.source r ≫= of_name) (ConversationRow.pinned r) (ConversationRow.pinned_at r)
        (ConversationRow.channel_chat_id r) (ConversationRow.created_at r) (ConversationRow.updated_at r) extra).
(* chisl-conversation/src/convert.rs:17-21 row_to_response *)
Definition row_to_response (r : ConversationRow.t) : result ConversationResponse.t AppError.t :=
  let? extra := parse_json "extra" (ConversationRow.extra r) in row_to_response_with_extra r extra.

(* chisl-conversation/src/convert.rs:144-165 row_to_message_response *)
Definition row_to_message_response (r : MessageRow.t) : result MessageResponse.t AppError.t :=
  let? ty := string_to_enum (MessageRow.type r) in
  let? p := transpose string_to_enum (MessageRow.position r) in
  let? st := transpose string_to_enum (MessageRow.status r) in
  let? c := parse_json "message content" (MessageRow.content r) in
  Ok (MessageResponse.mk (MessageRow.id r) (MessageRow.conversation_id r) (MessageRow.msg_id r) ty c p st
        (MessageRow.hidden r) (MessageRow.created_at r)).
(* chisl-conversation/src/convert.rs:168-184 row_to_artifact_response *)
Definition row_to_artifact_response (r : ConversationArtifactRow.t) : result ConversationArtifactResponse.t AppError.t :=
  let? k := string_to_enum (ConversationArtifactRow.kind r) in
  let? st := string_to_enum (ConversationArtifactRow.status r) in
  let? p := parse_json "artifact payload" (ConversationArtifactRow.payload r) in
  Ok (ConversationArtifactResponse.mk (ConversationArtifactRow.id r) (ConversationArtifactRow.conversation_id r)
        (ConversationArtifactRow.cron_job_id r) k st p (ConversationArtifactRow.created_at r) (ConversationArtifactRow.updated_at r)).

(* ------------------------------------------------------------------ *)
(** ** Search previews *)

Definition normalized (s : string) : string := str_join " " (split_whitespace s).
Fixpoint collect_strings (v : json) : list string :=
  match v with
  | Str s => let t := trim s in if String.eqb t EmptyString then [] else [t]
  | Arr l => concat (map collect_strings l)
  | Obj l => concat (map (λ kv, collect_strings (snd kv)) l)
  | _ => []
  end.
(* chisl-conversation/src/convert.rs:191-228 extract_preview_text *)
Definition extract_preview_text (raw_content : string) : string :=
  match from_str raw_content with
  | Some v => let n := normalized (str_join " " (collect_strings v)) in
              if String.eqb n EmptyString then normalized raw_content else n
  | None => normalized raw_content
  end.
(* chisl-conversation/src/convert.rs:231-258 search_row_to_item *)
Definition search_row_to_item (r : MessageSearchRow.t) : result MessageSearchItem.t AppError.t :=
  let? c := row_to_response (ConversationRow.mk (MessageSearchRow.conversation_id r) EmptyString
    (MessageSearchRow.conversation_name r) (MessageSearchRow.conversation_type r) (MessageSearchRow.conversation_extra r)
    (MessageSearchRow.conversation_model r) (MessageSearchRow.conversation_status r) (MessageSearchRow.conversation_source r)
    (MessageSearchRow.conversation_channel_chat_id r) (MessageSearchRow.conversation_pinned r)
    (MessageSearchRow.conversation_pinned_at r) (MessageSearchRow.conversation_created_at r)
    (MessageSearchRow.conversation_updated_at r)) in
  Ok (MessageSearchItem.mk (MessageSearchRow.message_id r) (MessageSearchRow.type r) (MessageSearchRow.created_at r)
        (extract_preview_text (MessageSearchRow.content r)) c).

(* ------------------------------------------------------------------ *)
(** ** The snapshot of skills *)

(** A [BTreeSet] of strings, in order. *)
Definition sorted_set (l : list string) : list string := merge_sort (λ a b, Is_true (String.leb a b)) (remove_dups l).
(* chisl-conversation/src/skill_snapshot.rs:13-25 compute_initial_skills *)
Definition compute_initial_skills (auto_inject preset_enabled exclude_auto_inject : list string) : list string :=
  sorted_set (List.filter (λ n, negb (bool_decide (n ∈ exclude_auto_inject))) auto_inject ++ preset_enabled).
(** [from_value::<Vec<String>>]. *)
Definition strings_in (v : json) : option (list string) := match v with Arr l => mapM as_str l | _ => None end.
(* chisl-conversation/src/skill_snapshot.rs:56-60 take_string_array *)
Definition take_string_array (o : list (string * json)) (k : string) : list (string * json) * list string :=
  (remove k o, default [] (entry k o ≫= strings_in)).
Definition skills_json (l : list string) : json := Arr (map Str l).
Definition has_key (k : string) (o : list (string * json)) : bool := match entry k o with Some _ => true | None => false end.
(* chisl-conversation/src/skill_snapshot.rs:34-54 backfill_skills_if_missing *)
Definition backfill_skills_if_missing (extra : json) (auto_inject_now : list string) : json * bool :=
  match extra with
  | Obj o =>
      let '(o, legacy_enabled) := take_string_array o "enabled_skills" in
      let '(o, legacy_excluded) := take_string_array o "exclude_builtin_skills" in
      let had_legacy := negb (bool_decide (legacy_enabled = [])) || negb (bool_decide (legacy_excluded = [])) || has_key "loaded_skills" o in
      let o := remove "loaded_skills" o in
      let needs_compute := negb (has_key "skills" o) in
      (Obj (if needs_compute then insert "skills" (skills_json (compute_initial_skills auto_inject_now legacy_enabled legacy_excluded)) o else o),
       needs_compute || had_legacy)
  | _ => (extra, false)
  end.

(* ------------------------------------------------------------------ *)
(** ** The model of an agent *)

(* chisl-conversation/src/task_options.rs:42-48 empty_provider_model *)
Definition empty_provider_model : ProviderWithModel.t := ProviderWithModel.mk EmptyString EmptyString None.
(* chisl-conversation/src/task_options.rs:56-90 parse_provider_with_model_loose *)
Definition parse_provider_with_model_loose (raw : string) : option ProviderWithModel.t :=
  v ← from_str raw;
  match provider_of_json v with
  | Some m => Some m
  | None =>
      let p := default EmptyString (match or_key "provider_id" "providerId" v with Some x => Some x | None => JsonValue.get "id" v end ≫= as_str) in
      if String.eqb p EmptyString then None
      else Some (ProviderWithModel.mk p (default EmptyString (get_str "model" v)) (or_key "use_model" "useModel" v ≫= as_str))
  end.
(* chisl-conversation/src/task_options.rs:28-33 provider_model_from_conversation_row *)
Definition provider_model_from_conversation_row (r : ConversationRow.t) : ProviderWithModel.t :=
  default empty_provider_model (ConversationRow.model r ≫= parse_provider_with_model_loose).
End convert.

(** A stored model is read as it was written, by both parsers. *)
Lemma provider_json_ok m : json_ok (provider_json m) = true.
Proof. by destruct m as [p m [u|]]. Qed.
Lemma parse_provider_written `{JsonCodec} `{Host} m : parse_provider_with_model (to_string (provider_json m)) = Ok m.
Proof. unfold parse_provider_with_model, parse_json. rewrite codec_roundtrip by apply provider_json_ok. by destruct m as [p m [u|]]. Qed.
Lemma loose_written `{JsonCodec} m : parse_provider_with_model_loose (to_string (provider_json m)) = Some m.
Proof. unfold parse_provider_with_model_loose. rewrite codec_roundtrip by apply provider_json_ok. cbn [mbind option_bind]. by rewrite provider_json_roundtrip. Qed.
