(* ===== verification/ConvService.v ===== *)
(** * ConvService: the requests on conversations

    [ConversationService] of [chisl-conversation/src/service.rs]: creating, reading,
    changing and deleting conversations, their messages and artifacts, confirmations, and
    sending a message, whose turn runs in the background.  A method is a computation on
    the service's world: the database, the rows of ACP sessions, the live agents, the turns
    that were spawned, and the log of what was sent elsewhere. *)

From S2P Require Import Prelude.
From S2P Require Import Text.
From S2P Require Import TeamTypes.
From S2P Require Import ConvRepo.
From S2P Require Import ConvMiddleware.
From S2P Require Import ConvCron.
From S2P Require Import ConvRelay.
From S2P Require Import AcpSync.
From S2P Require Import JsonValue.
From S2P Require Import Common.
From S2P Require Import ConvConvert.

Module CreateConversationRequest.
(* chisl-api-types/src/conversation.rs:11-18 CreateConversationRequest *)
Record t := mk {
  type : AgentType.t; name : option string; model : option ProviderWithModel.t; source : option ConversationSource.t;
  channel_chat_id : option string; extra : json }.
End CreateConversationRequest.
Module UpdateConversationRequest.
(* chisl-api-types/src/conversation.rs:25-30 UpdateConversationRequest *)
Record t := mk { name : option string; pinned : option bool; model : option ProviderWithModel.t; extra : option json }.
End UpdateConversationRequest.
(* chisl-api-types/src/conversation.rs:38-42 CloneConversationRequest *)
Record CloneConversationRequest := mk_clone { conversation : CreateConversationRequest.t; preserve_session_key : bool }.
Module ListConversationsQuery.
(* chisl-api-types/src/conversation.rs:82-88 ListConversationsQuery *)
Record t := mk { cursor : option string; limit : option Z; source : option string; cron_job_id : option string; pinned : option bool }.
End ListConversationsQuery.
Module SendMessageRequest.
(* chisl-api-types/src/conversation.rs:48-56 SendMessageRequest *)
Record t := mk { content : string; files : list string; inject_skills : list string; hidden : bool }.
End SendMessageRequest.
(* chisl-api-types/src/conversation.rs:92-96 ListMessagesQuery *)
Record ListMessagesQuery := mk_messages_query { page : option Z; page_size : option Z; order : option string }.
(* chisl-api-types/src/conversation.rs:106-110 SearchMessagesQuery *)
Record SearchMessagesQuery := mk_search { keyword : string; search_page : option Z; search_page_size : option Z }.
(* chisl-api-types/src/confirmation.rs:8-13 ConfirmRequest *)
Record ConfirmRequest := mk_confirm { confirm_msg_id : string; data : json; always_allow : bool }.
Module SendMessageData.
(* chisl-ai-agent/src/types.rs:10-28 SendMessageData *)
Record t := mk { content : string; msg_id : string; files : list string; inject_skills : list string; opencode_message_id : option string }.
End SendMessageData.
Module BuildTaskOptions.
(* chisl-ai-agent/src/types.rs:32-44 BuildTaskOptions *)
Record t := mk { agent_type : AgentType.t; workspace : string; model : ProviderWithModel.t; conversation_id : string; extra : json }.
End BuildTaskOptions.

(** What the service asks of an agent, and the factory that builds one. *)
Class Agents := {
  Agent : Type;
  build : BuildTaskOptions.t → result Agent AppError.t;
  agent_workspace : Agent → string;
  get_confirmations : Agent → list Confirmation.t;
  agent_confirm : string → string → json → bool → Agent → Agent * result unit AppError.t;
  agent_check_approval : string → option string → Agent → bool;
  agent_cancel : Agent → Agent * result unit AppError.t;
}.

(** What leaves the service, in order: broadcasts, links of skills, prompts to agents,
    kills, the hooks of other services. *)
Inductive Effect :=
| ListChanged (conversation_id action : string) (source : option ConversationSource.t)
| UserCreated (conversation_id msg_id content : string) (hidden : bool) (created_at : TimestampMs)
| ArtifactChanged (a : ConversationArtifactResponse.t)
| ConfirmationRemove (conversation_id id : string)
| MessageStream (row : MessageRow.t) (msg_id : string) (data : json)
| Relayed (conversation_id : string) (p : payload)
| LinkSkills (workspace : string) (dirs skills : list string)
| Prompt (conversation_id : string) (d : SendMessageData.t)
| KillTask (conversation_id : string)
| OnUpdated (conversation_id : string)
| OnDeleted (conversation_id : string)
| MessageRemoved (conversation_id msg_id : string).

(** A request fails with an error, or its task panics. *)
Inductive failure := Failed (e : AppError.t) | Panicked.
(** The turn a message spawned. *)
Record Turn := mk_turn { turn_conversation : string; turn_user : string; turn_request : SendMessageRequest.t; turn_opencode_id : option string }.

(* chisl-conversation/src/service.rs:39-39 MAX_CRON_CONTINUATIONS_PER_TURN *)
Definition MAX_CRON_CONTINUATIONS_PER_TURN : nat := 4.

(** [extra\[k\] = v]: [null] becomes an object, anything but an object panics. *)
Definition index_assign (k : string) (v x : json) : option json :=
  match x with Obj o => Some (Obj (insert k v o)) | Null => Some (Obj [(k, v)]) | _ => None end.
Definition map_object (f : list (string * json) → list (string * json)) (v : json) : json :=
  match v with Obj o => Obj (f o) | _ => v end.
(* chisl-conversation/src/service.rs:2038-2044 merge_json *)
Definition merge_json (base patch : json) : json :=
  match base, patch with
  | Obj b, Obj p => Obj (foldl (λ o kv, insert (fst kv) (snd kv) o) b p)
  | _, _ => base
  end.
(** The [?] form that [PathBuf::push] gives to two texts. *)
Definition push_path (base x : string) : string :=
  match x with
  | String a _ => if Ascii.eqb a (Ascii.ascii_of_nat 47) then x
                  else if String.eqb base EmptyString then x
                  else if ends_with_char (Ascii.ascii_of_nat 47) base then base +:+ x else base +:+ "/" +:+ x
  | EmptyString => if String.eqb base EmptyString || ends_with_char (Ascii.ascii_of_nat 47) base then base else base +:+ "/"
  end.
(* chisl-conversation/src/service.rs:1931-1939 conversation_label *)
Definition conversation_label (a : AgentType.t) (backend : option json) : string :=
  match a, backend with
  | AgentType.Acp, Some (Str s) => if String.eqb s EmptyString then serde_name a else s
  | _, _ => serde_name a
  end.
(* chisl-conversation/src/service.rs:307-316 take_string_array *)
Fixpoint take_first_array (keys : list string) (o : list (string * json)) : list (string * json) * list string :=
  match keys with
  | [] => (o, [])
  | k :: keys => match entry k o ≫= strings_in with
                 | Some l => (remove k o, l)
                 | None => take_first_array keys (remove k o)
                 end
  end.
(* chisl-conversation/src/service.rs:1895-1921 backfill_cron_job_id_alias *)
Definition backfill_cron_job_id_alias (extra : json) : json * bool :=
  match extra with
  | Obj o =>
      match match entry "cron_job_id" o ≫= as_str with Some c => Some c | None => entry "cronJobId" o ≫= as_str end with
      | Some c =>
          let stale k o := negb (bool_decide (entry k o ≫= as_str = Some c)) in
          let m := stale "cron_job_id" o in
          let o := if m then insert "cron_job_id" (Str c) o else o in
          let m' := stale "cronJobId" o in
          (Obj (if m' then insert "cronJobId" (Str c) o else o), m || m')
      | None => (extra, false)
      end
  | _ => (extra, false)
  end.

Module ConversationService.
Section service.
Context `{JsonCodec} `{ResponseRegex} `{Unicode} `{Host} `{Agents} {S : Type}.
Context (cron_service : option (CronCommands S)).

Record Svc := mk_svc {
  db : ConvDb; acp_sessions : list AcpSessionRow.t; tasks : gmap string Agent; cron : S; minted : nat;
  turns : list Turn; effects : list Effect }.
Definition set_db x s := mk_svc x (acp_sessions s) (tasks s) (cron s) (minted s) (turns s) (effects s).
Definition set_acp x s := mk_svc (db s) x (tasks s) (cron s) (minted s) (turns s) (effects s).
Definition set_tasks x s := mk_svc (db s) (acp_sessions s) x (cron s) (minted s) (turns s) (effects s).
Definition add_effect e s := mk_svc (db s) (acp_sessions s) (tasks s) (cron s) (minted s) (turns s) (effects s ++ [e]).
Definition add_turn t s := mk_svc (db s) (acp_sessions s) (tasks s) (cron s) (minted s) (turns s ++ [t]) (effects s).
Abbreviation M := (ST Svc failure).

Definition fail {A} (e : AppError.t) : M A := st_fail (Failed e).
Definition answer {A} (r : result A AppError.t) : M A := st_lift (res_map_err Failed r).
Definition sql {A} (m : ST ConvDb DbError.t A) : M A := st_on db set_db (st_map_err (λ e, Failed (DbError.to_app e)) m).
Definition tell (e : Effect) : M unit := st_modify (add_effect e).
(** A result that is only logged. *)
Definition ignore {A} (m : M A) : M unit := λ s, (fst (m s), Ok tt).
(* chisl-conversation/src/service.rs:177-179 mint_msg_id *)
Definition mint_msg_id : M string := λ s,
  (mk_svc (db s) (acp_sessions s) (tasks s) (cron s) (Datatypes.S (minted s)) (turns s) (effects s), Ok (short_id (minted s))).
Definition not_found {A} (id : string) : M A := fail (AppError.NotFound ("Conversation " +:+ id +:+ " not found")).
(** The conversation of a user. *)
Definition own (user_id id : string) : M ConversationRow.t :=
  let! r := sql (ConversationRepo.get id) in
  match r with
  | Some r => if String.eqb (ConversationRow.user_id r) user_id then st_ret r else not_found id
  | None => not_found id
  end.
(* chisl-conversation/src/service.rs:1842-1850 broadcast_list_changed *)
Definition broadcast_list_changed (id action : string) (source : option ConversationSource.t) : M unit := tell (ListChanged id action source).

Definition update_row (id : string) (extra status : option string) (updated_at : option TimestampMs) : M unit :=
  sql (ConversationRepo.update id (ConversationRowUpdate.mk None None None None extra status updated_at)).

(* ------------------------------------------------------------------ *)
(** ** Creating *)

Definition acp_call {A} (what : string) (m : ST (list AcpSessionRow.t) DbError.t A) : M A :=
  st_on acp_sessions set_acp (st_map_err (λ e, Failed (AppError.Internal (what +:+ ": " +:+ DbError.to_string e))) m).
Definition nonempty (o : option string) : option string :=
  match o with Some s => if String.eqb s EmptyString then None else Some s | None => None end.
(* chisl-conversation/src/service.rs:412-478 create_acp_session_row *)
Definition create_acp_session_row (now : TimestampMs) (id : string) (extra : json) : M unit :=
  let backend := default EmptyString (get_str "backend" extra) in
  let agent_source := default "builtin" (get_str "agent_source" extra) in
  let! agent_id := match nonempty (get_str "agent_id" extra) with
    | Some i => st_ret i
    | None => if negb (String.eqb backend EmptyString) && String.eqb agent_source "builtin"
              then answer (res_map (λ r, match r with Some (i, _) => i | None => EmptyString end)
                             (res_map_err (λ e, AppError.Internal ("agent_metadata lookup: " +:+ DbError.to_string e)) (find_builtin_by_backend backend)))
              else st_ret EmptyString
    end in
  let! _ := acp_call "Failed to create acp_session row" (AcpSessionRepo.create now id backend agent_source agent_id) in
  let mode := nonempty (get_str "current_mode_id" extra) in
  let model := nonempty (get_str "current_model_id" extra) in
  match mode, model with
  | None, None => st_ret tt
  | _, _ =>
      do! acp_call "Failed to seed acp_session runtime state"
            (AcpSessionRepo.save_runtime_state parse_error now id (SaveRuntimeStateParams.mk (Some <$> mode) (Some <$> model) None None)) in
      st_ret tt
  end.

(* chisl-conversation/src/service.rs:1948-1964 native_skills_dirs *)
Definition native_skills_dirs (a : AgentType.t) (backend : option json) : option (list string) :=
  let bundled := AgentType.native_skills_dirs a in
  match a, backend with
  | AgentType.Acp, Some (Str vendor) =>
      if String.eqb vendor EmptyString then bundled
      else match find_builtin_by_backend vendor with
           | Ok (Some (_, Some raw)) => from_str raw ≫= strings_in
           | _ => None
           end
  | _, _ => bundled
  end.
(** The workspace of a conversation that names none. *)
Definition provision (id : string) (a : AgentType.t) (extra : json) : M (json * option string) :=
  match nonempty (get_str "workspace" extra) with
  | Some _ => st_ret (extra, None)
  | None =>
      let ws := push_path (push_path workspace_root "conversations")
                  (conversation_label a (JsonValue.get "backend" extra) +:+ "-temp-" +:+ id) in
      match create_dir_all ws with
      | Err e => fail (AppError.Internal ("Failed to create workspace: " +:+ e))
      | Ok _ => match index_assign "workspace" (Str ws) extra with
                | Some extra => st_ret (extra, Some ws)
                | None => st_fail Panicked
                end
      end
  end.
(** The fields that only the request has are taken out. *)
Definition take_request_fields (preserve_session_key : bool) (extra : json) : json * list string * list string :=
  match extra with
  | Obj o =>
      let '(o, preset) := take_first_array ["preset_enabled_skills"; "enabled_skills"] (remove "custom_workspace" o) in
      let '(o, exclude) := take_first_array ["exclude_auto_inject_skills"; "exclude_builtin_skills"] o in
      let o := remove "loaded_skills" o in
      (Obj (if preserve_session_key then o else remove "sessionKey" o), preset, exclude)
  | _ => (extra, [], [])
  end.
Definition link_skills (ws : option string) (a : AgentType.t) (extra : json) (initial_skills : list string) : M unit :=
  match ws, native_skills_dirs a (JsonValue.get "backend" extra) with
  | Some ws, Some dirs =>
      let resolved := resolve_skills initial_skills in
      if bool_decide (initial_skills = []) || bool_decide (resolved = []) then st_ret tt else tell (LinkSkills ws dirs resolved)
  | _, _ => st_ret tt
  end.
Definition only_aionrs {A} (type : string) : M A :=
  fail (AppError.BadRequest ("top-level `model` is only accepted for aionrs conversations; pass model via `extra` for " +:+ type)).
(* chisl-conversation/src/service.rs:233-409 create_inner *)
Definition create_inner (user_id : string) (req : CreateConversationRequest.t) (preserve_session_key : bool) (now : TimestampMs) :
    M ConversationResponse.t :=
  let a := CreateConversationRequest.type req in
  let! id := mint_msg_id in
  if negb (bool_decide (a = AgentType.Aionrs)) && bool_decide (is_Some (CreateConversationRequest.model req)) then only_aionrs (serde_name a) else
  let extra := if bool_decide (a = AgentType.Aionrs) then map_object (remove "model") (CreateConversationRequest.extra req)
               else CreateConversationRequest.extra req in
  let! p := provision id a extra in
  let '(extra, preset, exclude) := take_request_fields preserve_session_key (fst p) in
  let initial_skills := compute_initial_skills auto_inject_names preset exclude in
  do! link_skills (snd p) a extra initial_skills in
  let extra := map_object (insert "skills" (skills_json initial_skills)) extra in
  let row := ConversationRow.mk id user_id (default EmptyString (CreateConversationRequest.name req)) (serde_name a) (to_string extra)
               ((λ m, to_string (provider_json m)) <$> CreateConversationRequest.model req)
               (Some (serde_name ConversationStatus.Pending))
               (Some (serde_name (default ConversationSource.Aionui (CreateConversationRequest.source req))))
               (CreateConversationRequest.channel_chat_id req) false None now now in
  do! sql (ConversationRepo.create row) in
  do! (if bool_decide (a = AgentType.Acp) then create_acp_session_row now id extra else st_ret tt) in
  let! response := answer (row_to_response row) in
  do! broadcast_list_changed (ConversationResponse.id response) "created" (ConversationResponse.source response) in
  st_ret response.
(* chisl-conversation/src/service.rs:225-231 create *)
Definition create (user_id : string) (req : CreateConversationRequest.t) (now : TimestampMs) : M ConversationResponse.t :=
  create_inner user_id req false now.
(* chisl-conversation/src/service.rs:786-793 clone_create *)
Definition clone_create (user_id : string) (req : CloneConversationRequest) (now : TimestampMs) : M ConversationResponse.t :=
  create_inner user_id (conversation req) (preserve_session_key req) now.

(* ------------------------------------------------------------------ *)
(** ** Reading *)

(** A failing write is only logged. *)
(* chisl-conversation/src/service.rs:1863-1892 backfill_extra_inplace *)
Definition backfill_extra_inplace (id : string) (extra : json) : M json :=
  let '(extra, mutated) := backfill_skills_if_missing extra auto_inject_names in
  let '(extra, mutated') := backfill_cron_job_id_alias extra in
  if mutated || mutated' then do! ignore (update_row id (Some (to_string extra)) None None) in st_ret extra else st_ret extra.
(* chisl-conversation/src/service.rs:485-497 get *)
Definition get (user_id id : string) : M ConversationResponse.t :=
  let! r := own user_id id in
  let! extra := answer (parse_json "extra" (ConversationRow.extra r)) in
  let! extra := backfill_extra_inplace (ConversationRow.id r) extra in
  answer (row_to_response_with_extra r extra).
(** Rows that cannot be read are left out. *)
Fixpoint list_rows (rows : list ConversationRow.t) : M (list ConversationResponse.t) :=
  match rows with
  | [] => st_ret []
  | r :: rows =>
      match from_str (ConversationRow.extra r) with
      | None => list_rows rows
      | Some extra =>
          let! extra := backfill_extra_inplace (ConversationRow.id r) extra in
          let! items := list_rows rows in
          st_ret (match row_to_response_with_extra r extra with Ok x => x :: items | Err _ => items end)
      end
  end.
(* chisl-conversation/src/service.rs:501-550 list *)
Definition list (user_id : string) (q : ListConversationsQuery.t) : M (PaginatedResult ConversationResponse.t) :=
  let filters := ConversationFilters.mk (ListConversationsQuery.cursor q) (default 0 (ListConversationsQuery.limit q))
                   (ListConversationsQuery.source q) (ListConversationsQuery.cron_job_id q) (ListConversationsQuery.pinned q) in
  let! r := sql (ConversationRepo.list_paginated user_id filters) in
  let! items := list_rows (items r) in
  st_ret (mk_page items (total r) (has_more r)).
(* chisl-conversation/src/service.rs:823-828 list_associated *)
Definition list_associated (user_id id : string) : M (Datatypes.list ConversationResponse.t) :=
  let! rows := sql (ConversationRepo.list_associated user_id id) in answer (collect row_to_response rows).
(* chisl-conversation/src/service.rs:831-840 list_by_cron_job *)
Definition list_by_cron_job (user_id cron_job_id : string) : M (Datatypes.list ConversationResponse.t) :=
  let! rows := sql (ConversationRepo.list_by_cron_job user_id cron_job_id) in answer (collect row_to_response rows).

(* chisl-conversation/src/service.rs:847-883 list_messages *)
Definition list_messages (user_id id : string) (q : ListMessagesQuery) : M (PaginatedResult MessageResponse.t) :=
  do! own user_id id in
  let o := match order q with Some o => if String.eqb o "DESC" || String.eqb o "desc" then Desc else Asc | None => Asc end in
  let! r := sql (ConversationRepo.get_messages id (default 1 (page q)) (default 50 (page_size q)) o) in
  let! items := answer (collect row_to_message_response (items r)) in
  st_ret (mk_page items (total r) (has_more r)).
(* chisl-conversation/src/service.rs:2016-2035 legacy_cron_trigger_to_artifact *)
Definition legacy_cron_trigger_to_artifact (r : MessageRow.t) : result ConversationArtifactResponse.t AppError.t :=
  let? v := parse_json "legacy cron trigger payload" (MessageRow.content r) in
  Ok (ConversationArtifactResponse.mk ("legacy-cron-trigger:" +:+ MessageRow.id r) (MessageRow.conversation_id r)
        (or_key "cron_job_id" "cronJobId" v ≫= as_str) ConversationArtifactKind.CronTrigger ConversationArtifactStatus.Active v
        (MessageRow.created_at r) (MessageRow.created_at r)).
Definition artifact_key (a : ConversationArtifactResponse.t) : Z * string :=
  (ConversationArtifactResponse.created_at a, ConversationArtifactResponse.id a).
(* chisl-conversation/src/service.rs:886-921 list_artifacts *)
Definition list_artifacts (user_id id : string) : M (Datatypes.list ConversationArtifactResponse.t) :=
  do! own user_id id in
  let! rows := sql (ConversationRepo.list_artifacts id) in
  let! items := answer (collect row_to_artifact_response rows) in
  let! legacy := sql (ConversationRepo.list_legacy_cron_trigger_messages id) in
  st_ret (order_asc artifact_key (items ++ omap (λ r, res_ok (legacy_cron_trigger_to_artifact r)) legacy)).
(* chisl-conversation/src/service.rs:959-987 search_messages *)
Definition search_messages (user_id : string) (q : SearchMessagesQuery) : M (PaginatedResult MessageSearchItem.t) :=
  if String.eqb (trim (keyword q)) EmptyString then fail (AppError.BadRequest "keyword must not be empty") else
  let! r := sql (ConversationRepo.search_messages user_id (keyword q) (default 1 (search_page q)) (default 20 (search_page_size q))) in
  let! items := answer (collect search_row_to_item (items r)) in
  st_ret (mk_page items (total r) (has_more r)).

(* ------------------------------------------------------------------ *)
(** ** Changing *)

(* chisl-conversation/src/service.rs:558-675 update *)
Definition update (user_id id : string) (req : UpdateConversationRequest.t) (now : TimestampMs) : M ConversationResponse.t :=
  let! existing := own user_id id in
  if bool_decide (is_Some (UpdateConversationRequest.extra req ≫= JsonValue.get "skills"))
  then fail (AppError.BadRequest "extra.skills is immutable post-creation") else
  let! existing_type := answer (string_to_enum (ConversationRow.type existing)) in
  if negb (bool_decide (existing_type = AgentType.Aionrs)) && bool_decide (is_Some (UpdateConversationRequest.model req))
  then only_aionrs (ConversationRow.type existing) else
  let merged_extra := (λ patch,
    let merged := merge_json (default (Obj []) (from_str (ConversationRow.extra existing))) patch in
    to_string (if bool_decide (existing_type = AgentType.Aionrs) then map_object (remove "model") merged else merged))
    <$> UpdateConversationRequest.extra req in
  let pinned_at := (λ p : bool, if p then Some now else None) <$> UpdateConversationRequest.pinned req in
  let model_json := (λ m, to_string (provider_json m)) <$> UpdateConversationRequest.model req in
  let model_changed := match model_json with
                       | Some j => negb (bool_decide (ConversationRow.model existing = Some j)) | None => false end in
  do! sql (ConversationRepo.update id (ConversationRowUpdate.mk (UpdateConversationRequest.name req)
        (UpdateConversationRequest.pinned req) pinned_at (Some <$> model_json) merged_extra None (Some now))) in
  do! (if model_changed then do! tell (KillTask id) in st_modify (λ s, set_tasks (base.delete id (tasks s)) s) else st_ret tt) in
  let! updated := sql (ConversationRepo.get id) in
  match updated with
  | None => fail (AppError.Internal "Conversation vanished after update")
  | Some r =>
      let! response := answer (row_to_response r) in
      do! broadcast_list_changed id "updated" (ConversationResponse.source response) in
      do! tell (OnUpdated id) in
      st_ret response
  end.

(** The row of a conversation, whoever's it is. *)
Definition existing_row (id : string) : M ConversationRow.t :=
  let! r := sql (ConversationRepo.get id) in match r with Some r => st_ret r | None => not_found id end.
Definition stored_extra (r : ConversationRow.t) : json := default (Obj []) (from_str (ConversationRow.extra r)).
(* chisl-conversation/src/service.rs:683-705 update_extra *)
Definition update_extra (id : string) (patch : json) (now : TimestampMs) : M unit :=
  let! r := existing_row id in
  update_row id (Some (to_string (merge_json (stored_extra r) patch))) None (Some now).
(* chisl-conversation/src/service.rs:710-720 broadcast_conversation_updated *)
Definition broadcast_conversation_updated (id : string) : M unit :=
  let! r := existing_row id in
  let! response := answer (row_to_response_with_extra r (stored_extra r)) in
  broadcast_list_changed id "updated" (ConversationResponse.source response).
(* chisl-conversation/src/service.rs:722-732 save_acp_runtime_mode *)
Definition save_acp_runtime_mode (id mode : string) (now : TimestampMs) : M unit :=
  do! acp_call "Failed to persist runtime mode"
        (AcpSessionRepo.save_runtime_state parse_error now id (SaveRuntimeStateParams.mk (Some (Some mode)) None None None)) in
  st_ret tt.
(* chisl-conversation/src/service.rs:738-776 delete *)
Definition delete (user_id id : string) : M unit :=
  let! existing := own user_id id in
  do! sql (ConversationRepo.delete id) in
  do! ignore (acp_call "" (AcpSessionRepo.delete id)) in
  do! tell (OnDeleted id) in
  broadcast_list_changed id "deleted" (ConversationRow.source existing ≫= of_name).
(* chisl-conversation/src/service.rs:797-820 reset *)
Definition reset (user_id id : string) (now : TimestampMs) : M unit :=
  do! own user_id id in
  do! sql (ConversationRepo.delete_messages_by_conversation id) in
  do! sql (ConversationRepo.delete_artifacts_by_conversation id) in
  update_row id None (Some (serde_name ConversationStatus.Pending)) (Some now).
(* chisl-conversation/src/service.rs:924-956 update_artifact *)
Definition update_artifact (user_id id artifact_id : string) (status : ConversationArtifactStatus.t) (now : TimestampMs) :
    M ConversationArtifactResponse.t :=
  do! own user_id id in
  let! r := sql (ConversationRepo.update_artifact_status id artifact_id (serde_name status) now) in
  match r with
  | None => fail (AppError.NotFound ("Artifact " +:+ artifact_id +:+ " not found"))
  | Some r =>
      let! response := answer (row_to_artifact_response r) in
      do! tell (ArtifactChanged response) in
      st_ret response
  end.
(* chisl-conversation/src/service.rs:1679-1698 insert_raw_message *)
Definition insert_raw_message (r : MessageRow.t) : M unit :=
  do! sql (ConversationRepo.insert_message r) in
  tell (MessageStream r (default (MessageRow.id r) (MessageRow.msg_id r)) (default (Str (MessageRow.content r)) (from_str (MessageRow.content r)))).

(* ------------------------------------------------------------------ *)
(** ** Confirmations *)

Definition get_task (id : string) : M (option Agent) := st_get (λ s, tasks s !! id).
Definition put_task (id : string) (a : Agent) : M unit := st_modify (λ s, set_tasks (<[id := a]> (tasks s)) s).
Definition confirmation_of (call_id : string) (a : Agent) : option string :=
  Confirmation.id <$> List.find (λ c, String.eqb (Confirmation.call_id c) call_id) (get_confirmations a).
Definition no_agent {A} : M A := fail (AppError.NotFound "No active agent for this conversation").
(* chisl-conversation/src/service.rs:994-1012 list_confirmations *)
Definition list_confirmations (user_id id : string) : M (Datatypes.list Confirmation.t) :=
  do! own user_id id in
  let! a := get_task id in st_ret (match a with Some a => get_confirmations a | None => [] end).
(** The call of the agent, which keeps its effect when it fails. *)
Definition confirm_with (id msg_id call_id : string) (d : json) (always : bool) (a : Agent) : M unit :=
  do! put_task id (fst (agent_confirm msg_id call_id d always a)) in answer (snd (agent_confirm msg_id call_id d always a)).
Definition remove_card (id : string) (conf : option string) : M unit :=
  match conf with Some c => tell (ConfirmationRemove id c) | None => st_ret tt end.
(* chisl-conversation/src/service.rs:1018-1054 confirm *)
Definition confirm (user_id id call_id : string) (req : ConfirmRequest) : M unit :=
  do! own user_id id in
  let! a := get_task id in
  match a with
  | None => no_agent
  | Some a =>
      do! confirm_with id (confirm_msg_id req) call_id (data req) (always_allow req) a in
      remove_card id (confirmation_of call_id a)
  end.
(* chisl-conversation/src/service.rs:1057-1076 check_approval *)
Definition check_approval (user_id id action : string) (command_type : option string) : M bool :=
  do! own user_id id in
  let! a := get_task id in
  st_ret (match a with Some a => agent_check_approval action command_type a | None => false end).

(* ------------------------------------------------------------------ *)
(** ** Sending *)

(* chisl-conversation/src/service.rs:1770-1795 build_task_options *)
Definition build_task_options (r : ConversationRow.t) : M BuildTaskOptions.t :=
  let! a := answer (string_to_enum (ConversationRow.type r)) in
  let! extra := answer (parse_json "extra" (ConversationRow.extra r)) in
  let extra := map_object (λ o, match entry "user_id" o with Some _ => o | None => insert "user_id" (Str (ConversationRow.user_id r)) o end) extra in
  st_ret (BuildTaskOptions.mk a (default EmptyString (get_str "workspace" extra)) (provider_model_from_conversation_row r)
            (ConversationRow.id r) extra).
(** The agent of the task manager, built if there is none. *)
Definition get_or_build_task (id : string) (o : BuildTaskOptions.t) : M Agent :=
  let! a := get_task id in
  match a with
  | Some a => st_ret a
  | None => let! a := answer (build o) in do! put_task id a in st_ret a
  end.
(* chisl-conversation/src/service.rs:1803-1839 maybe_persist_workspace *)
Definition maybe_persist_workspace (id stored resolved : string) (now : TimestampMs) : M unit :=
  if String.eqb resolved EmptyString || String.eqb resolved stored then st_ret tt else
  let! r := sql (ConversationRepo.get id) in
  match r with
  | None => fail (AppError.Internal "Conversation vanished during workspace sync")
  | Some r => match index_assign "workspace" (Str resolved) (stored_extra r) with
              | None => st_fail Panicked
              | Some extra => update_row id (Some (to_string extra)) None (Some now)
              end
  end.
(** The agent of a row, its workspace written back. *)
(* chisl-conversation/src/service.rs:1560-1568 send_message (agent) *)
Definition ready_agent (r : ConversationRow.t) (now : TimestampMs) : M Agent :=
  let id := ConversationRow.id r in
  let! o := build_task_options r in
  let! a := get_or_build_task id o in
  do! maybe_persist_workspace id (BuildTaskOptions.workspace o) (agent_workspace a) now in
  st_ret a.
(* chisl-conversation/src/service.rs:195-214 get_or_build_agent *)
Definition get_or_build_agent (id : string) (now : TimestampMs) : M Agent :=
  let! a := get_task id in
  match a with Some a => st_ret a | None => let! r := existing_row id in ready_agent r now end.

(** ** The session of a remote agent

    The routes leave out who asks: these operations have no user.  [reply] is what the
    agent answers for its server. *)
(* chisl-conversation/src/service.rs:189-193 task *)
Definition task (id : string) : M Agent :=
  let! a := get_task id in
  match a with Some a => st_ret a | None => fail (AppError.NotFound ("No active agent for conversation '" +:+ id +:+ "'")) end.
(* chisl-conversation/src/service_ops.rs:57-70 resolve_opencode_message_id *)
Definition resolve_opencode_message_id (id row_id : string) : M string :=
  let! r := sql (ConversationRepo.get_message_by_id id row_id) in
  match r with
  | None => fail (AppError.NotFound ("Message '" +:+ row_id +:+ "' not found"))
  | Some r =>
      let content := default Null (from_str (MessageRow.content r)) in
      match JsonValue.get "_opencode" content ≫= get_str "message_id" with
      | Some m => st_ret m
      | None => fail (AppError.BadRequest "This message is not editable/deletable on the remote server")
      end
  end.
(* chisl-conversation/src/service_ops.rs:74-88 delete_remote_message *)
Definition delete_remote_message (id row_id : string) (reply : result unit AppError.t) : M unit :=
  do! resolve_opencode_message_id id row_id in
  do! task id in
  do! answer reply in
  do! ignore (sql (ConversationRepo.delete_message row_id)) in
  tell (MessageRemoved id row_id).
(* chisl-conversation/src/service_ops.rs:146-160 revert_remote_session *)
Definition revert_remote_session (id row_id : string) (reply : result unit AppError.t) (now : TimestampMs) : M unit :=
  do! resolve_opencode_message_id id row_id in
  do! task id in
  do! answer reply in
  do! update_extra id (Obj [("is_reverted", Bool true); ("revert_message_id", Str row_id)]) now in
  broadcast_conversation_updated id.
(* chisl-conversation/src/service_ops.rs:163-174 unrevert_remote_session *)
Definition unrevert_remote_session (id : string) (reply : result unit AppError.t) (now : TimestampMs) : M unit :=
  do! task id in
  do! answer reply in
  do! update_extra id (Obj [("is_reverted", Bool false); ("revert_message_id", Null)]) now in
  broadcast_conversation_updated id.
(* chisl-conversation/src/service.rs:1734-1757 warmup *)
Definition warmup (user_id id : string) (now : TimestampMs) : M unit :=
  let! r := own user_id id in do! ready_agent r now in st_ret tt.
(* chisl-conversation/src/service.rs:1702-1727 cancel *)
Definition cancel (user_id id : string) : M unit :=
  do! own user_id id in
  let! a := get_task id in
  match a with
  | None => st_ret tt
  | Some a => do! put_task id (fst (agent_cancel a)) in answer (snd (agent_cancel a))
  end.

Definition gemini_archived : string :=
  "This conversation was created with the legacy Gemini runtime, which has been removed. Please start a new conversation with the Gemini ACP backend to continue.".
Definition user_content (content : string) (opencode_message_id : option string) : json :=
  Obj (("content", Str content) ::
       match opencode_message_id with Some m => [("_opencode", Obj [("message_id", Str m)])] | None => [] end).
(** Up to the agent: the checks and the message of the user. *)
(* chisl-conversation/src/service.rs:1467-1558 send_message (checks) *)
Definition accept_message (user_id id : string) (req : SendMessageRequest.t) (now : TimestampMs) :
    M (ConversationRow.t * string * option string) :=
  if String.eqb (trim (SendMessageRequest.content req)) EmptyString then fail (AppError.BadRequest "Message content must not be empty") else
  let! r := own user_id id in
  if String.eqb (ConversationRow.type r) "gemini" then fail (AppError.ConversationArchived gemini_archived) else
  let! st := answer (status_of (ConversationRow.status r)) in
  if bool_decide (st = ConversationStatus.Running) then fail (AppError.Conflict "Conversation is already processing a message") else
  let! i := mint_msg_id in
  let! n := st_get minted in
  let m := if String.eqb (ConversationRow.type r) "remote" then Some ("msg_" +:+ message_uuid n) else None in
  do! sql (ConversationRepo.insert_message (MessageRow.mk i id (Some i) "text" (to_string (user_content (SendMessageRequest.content req) m))
             (Some "right") (Some "finish") (SendMessageRequest.hidden req) now)) in
  do! tell (UserCreated id i (SendMessageRequest.content req) (SendMessageRequest.hidden req) now) in
  st_ret (r, i, m).
(** The agent is ready: the conversation is running and the turn is spawned. *)
(* chisl-conversation/src/service.rs:1572-1597 send_message (dispatch) *)
Definition dispatch_message (user_id id : string) (req : SendMessageRequest.t) (m : option string) (now : TimestampMs) : M unit :=
  do! update_row id None (Some (serde_name ConversationStatus.Running)) (Some now) in
  st_modify (add_turn (mk_turn id user_id req m)).
(* chisl-conversation/src/service.rs:1467-1670 send_message *)
Definition send_message (user_id id : string) (req : SendMessageRequest.t) (now now' : TimestampMs) : M string :=
  let! accepted := accept_message user_id id req now in
  let '(r, i, m) := accepted in
  do! ready_agent r now' in
  do! dispatch_message user_id id req m now' in
  st_ret i.
(* chisl-conversation/src/service.rs:1087-1135 resubmit_shell *)
Definition resubmit_shell (user_id id call_id modified_command : string) (now now' : TimestampMs) : M unit :=
  do! own user_id id in
  let! a := get_task id in
  match a with
  | None => no_agent
  | Some a =>
      do! confirm_with id EmptyString call_id (Str "reject") false a in
      let! a := get_task id in
      do! remove_card id (a ≫= confirmation_of call_id) in
      do! send_message user_id id (SendMessageRequest.mk modified_command [] [] false) now now' in
      st_ret tt
  end.

(* ------------------------------------------------------------------ *)
(** ** The turn in the background *)

(* chisl-conversation/src/service.rs:1982-2014 persist_session_key *)
Definition persist_session_key (id key : string) (now : TimestampMs) : M unit :=
  let! r := sql (ConversationRepo.get id) in
  match r with
  | None => st_ret tt
  | Some r =>
      if bool_decide (get_str "sessionKey" (stored_extra r) = Some key) then st_ret tt else
      match index_assign "sessionKey" (Str key) (stored_extra r) with
      | None => st_fail Panicked
      | Some extra => ignore (update_row id (Some (to_string extra)) None (Some now))
      end
  end.
(** The relay runs on its part of the world. *)
Definition with_relay {A} (id : string) (f : ConvRelay.env (S:=S) → ConvRelay.env (S:=S) * A) : M A := λ s,
  let '(e, a) := f (mk_env (minted s) (db s) (cron s) []) in
  (mk_svc (ConvRelay.db e) (acp_sessions s) (tasks s) (ConvRelay.cron e) (ConvRelay.minted e) (turns s)
     (effects s ++ map (Relayed id) (sent e)), Ok a).
(** What the agent gives back for one prompt: its events, and its session key and the
    time when they have ended. *)
Record Reply := mk_reply { events : Datatypes.list (Z * ConvRelay.received); session_key : option string; ended_at : TimestampMs }.
(** How a turn stands: it waits for an agent, or it has come to its end. *)
Inductive Progress := Streaming | Completed.
(** [fuel]: the prompts that are left. *)
(* chisl-conversation/src/service.rs:1609-1663 send_message (loop) *)
Fixpoint turn_loop (fuel : nat) (user_id id : string) (d : SendMessageData.t) (replies : Datatypes.list Reply) : M Progress :=
  match fuel, replies with
  | O, _ => st_ret Completed
  | Datatypes.S _, [] => do! tell (Prompt id d) in st_ret Streaming
  | Datatypes.S fuel, reply :: replies =>
      do! tell (Prompt id d) in
      let! outcome := with_relay id (consume id (SendMessageData.msg_id d) user_id cron_service false short_id (events reply)) in
      match outcome with
      | inl _ => st_ret Streaming
      | inr responses =>
          do! match session_key reply with Some k => persist_session_key id k (ended_at reply) | None => st_ret tt end in
          if bool_decide (responses = []) then st_ret Completed else
          let! i := mint_msg_id in
          turn_loop fuel user_id id (SendMessageData.mk (str_join nl responses) i [] [] None) replies
      end
  end.
(* chisl-conversation/src/service.rs:1598-1666 send_message (background) *)
Definition run_turn (t : Turn) (replies : Datatypes.list Reply) (now : TimestampMs) : M Progress :=
  let id := turn_conversation t in
  let! i := mint_msg_id in
  let! p := turn_loop MAX_CRON_CONTINUATIONS_PER_TURN (turn_user t) id
    (SendMessageData.mk (SendMessageRequest.content (turn_request t)) i (SendMessageRequest.files (turn_request t))
       (SendMessageRequest.inject_skills (turn_request t)) (turn_opencode_id t)) replies in
  match p with
  | Streaming => st_ret Streaming
  | Completed => do! with_relay id (λ e, (complete_conversation id now e, tt)) in st_ret Completed
  end.
End service.
End ConversationService.
