(* ===== verification/ConvServiceFacts.v ===== *)
(** * ConvServiceFacts: what the requests on conversations guarantee

    Nobody's request touches the conversations of another user; the stored rows stay
    readable whatever the requests are; an update merges; a turn comes to its end.  The
    examples at the end show what overlapping and failing requests leave behind. *)

From S2P Require Import Prelude.
From S2P Require Import Text.
From S2P Require Import TeamTypes.
From S2P Require Import Sql.
From S2P Require Import ConvRepo.
From S2P Require Import ConvMiddleware.
From S2P Require Import ConvCron.
From S2P Require Import ConvRelay.
From S2P Require Import AcpSync.
From S2P Require Import JsonValue.
From S2P Require Import Common.
From S2P Require Import ConvConvert.
From S2P Require Import ConvService.
Import ConversationService.

Lemma st_bind_assoc {T E A B C} (m : ST T E A) (f : A → ST T E B) (g : B → ST T E C) t :
  st_bind (st_bind m f) g t = st_bind m (λ a, st_bind (f a) g) t.
Proof. unfold st_bind. by destruct (m t) as [t' [a|e]]. Qed.
Lemma elem_of_removelast {A} (x : A) l : x ∈ removelast l → x ∈ l.
Proof.
  induction l as [|y l IH]; [done|]. simpl. destruct l as [|z l]; [by intros ?%elem_of_nil|].
  intros [->|Hx]%elem_of_cons; [by left|]. right. by apply IH.
Qed.
Lemma elem_of_take {A} (x : A) n l : x ∈ take n l → x ∈ l.
Proof. intros Hx. rewrite <- (take_drop n l). apply elem_of_app. by left. Qed.

Section facts.
Context `{JsonCodec} `{ResponseRegex} `{Unicode} `{Host} `{Agents} {S : Type}.
Context (cron_service : option (CronCommands S)).
Abbreviation Svc := (Svc (S:=S)).
Abbreviation M := (ST Svc failure).
Implicit Types (r : ConversationRow.t) (s : Svc) (d : ConvDb).

(** The requests that name their user.  Those that forward to the agent of a conversation
    do not: its mode, model and usage, its slash commands and side questions, and the
    session of a remote agent ([delete_remote_message] and the like). *)
Inductive Request :=
  | Create (req : CreateConversationRequest.t) (preserve : bool) (now : Z)
  | Get (id : string) | ListAll (q : ListConversationsQuery.t)
  | Update (id : string) (req : UpdateConversationRequest.t) (now : Z)
  | Delete (id : string) | Reset (id : string) (now : Z)
  | ListAssociated (id : string) | ListByCronJob (cron_job_id : string)
  | ListMessages (id : string) (q : ListMessagesQuery) | ListArtifacts (id : string)
  | UpdateArtifact (id artifact_id : string) (status : ConversationArtifactStatus.t) (now : Z)
  | Search (q : SearchMessagesQuery)
  | ListConfirmations (id : string) | Confirm (id call_id : string) (req : ConfirmRequest)
  | CheckApproval (id action : string) (command_type : option string)
  | ResubmitShell (id call_id command : string) (now now' : Z)
  | Send (id : string) (req : SendMessageRequest.t) (now now' : Z)
  | Cancel (id : string) | Warmup (id : string) (now : Z).
Definition serve (user : string) (rq : Request) : M unit :=
  match rq with
  | Create req p now => ignore (create_inner user req p now)
  | Get id => ignore (get user id)
  | ListAll q => ignore (ConversationService.list user q)
  | Update id req now => ignore (update user id req now)
  | Delete id => ignore (delete user id)
  | Reset id now => ignore (reset user id now)
  | ListAssociated id => ignore (list_associated user id)
  | ListByCronJob c => ignore (list_by_cron_job user c)
  | ListMessages id q => ignore (list_messages user id q)
  | ListArtifacts id => ignore (list_artifacts user id)
  | UpdateArtifact id a st now => ignore (update_artifact user id a st now)
  | Search q => ignore (search_messages user q)
  | ListConfirmations id => ignore (list_confirmations user id)
  | Confirm id c req => ignore (confirm user id c req)
  | CheckApproval id a c => ignore (check_approval user id a c)
  | ResubmitShell id c cmd now now' => ignore (resubmit_shell user id c cmd now now')
  | Send id req now now' => ignore (send_message user id req now now')
  | Cancel id => ignore (cancel user id)
  | Warmup id now => ignore (warmup user id now)
  end.

(* ------------------------------------------------------------------ *)
(** ** Rules for what depends on the database alone *)

Section keeps.
Context (P : ConvDb → Prop).
Definition keeps {A} (m : M A) : Prop := preserves (λ s, P (db s)) m.
Lemma keeps_seq {A B} (m : M A) (f : A → M B) : keeps m → (∀ a, keeps (f a)) → keeps (st_bind m f).
Proof. apply preserves_bind. Qed.
Lemma keeps_assoc {A B C} (m : M A) (f : A → M B) (g : B → M C) :
  keeps (st_bind m (λ a, st_bind (f a) g)) → keeps (st_bind (st_bind m f) g).
Proof. intros Hm s Hs. rewrite st_bind_assoc. by apply Hm. Qed.
Lemma keeps_bind_fail {A B} e (f : A → M B) : keeps (st_bind (fail e) f).
Proof. by intros s Hs. Qed.
Lemma keeps_bind_ret {A B} (a : A) (f : A → M B) : keeps (f a) → keeps (st_bind (st_ret a) f).
Proof. intros Hf s Hs. by apply Hf. Qed.
Lemma keeps_value {A} (a : A) : keeps (st_ret a).
Proof. apply preserves_ret. Qed.
Lemma keeps_fail {A} e : keeps (fail (A:=A) e).
Proof. by intros s Hs. Qed.
Lemma keeps_panic {A} : keeps (st_fail (A:=A) Panicked).
Proof. by intros s Hs. Qed.
Lemma keeps_answer {A} (x : result A AppError.t) : keeps (answer x).
Proof. by intros s Hs. Qed.
Lemma keeps_tell e : keeps (tell e).
Proof. by intros s Hs. Qed.
Lemma keeps_mint : keeps mint_msg_id.
Proof. by intros s Hs. Qed.
Lemma keeps_get {A} (f : Svc → A) : keeps (st_get f).
Proof. by intros s Hs. Qed.
Lemma keeps_ignore {A} (m : M A) : keeps m → keeps (ignore m).
Proof. intros Hm s Hs. exact (Hm s Hs). Qed.
Lemma keeps_acp {A} what (m : ST (Datatypes.list AcpSessionRow.t) DbError.t A) : keeps (acp_call what m).
Proof. intros s Hs. unfold acp_call, st_on, st_map_err. by destruct (m (acp_sessions s)). Qed.
Lemma keeps_modify (f : Svc → Svc) : (∀ s, db (f s) = db s) → keeps (st_modify f).
Proof. intros Hf s Hs. simpl. by rewrite Hf. Qed.
Lemma keeps_put id a : keeps (put_task id a).
Proof. by apply keeps_modify. Qed.
Lemma keeps_sql {A} (m : ST ConvDb DbError.t A) : preserves P m → keeps (sql m).
Proof. intros Hm s Hs. specialize (Hm (db s) Hs). unfold sql, st_on, st_map_err. by destruct (m (db s)). Qed.
(** A statement that only reads. *)
Definition reads {A} (m : ST ConvDb DbError.t A) : Prop := ∀ d, fst (m d) = d.
Lemma keeps_query {A} (m : ST ConvDb DbError.t A) : reads m → keeps (sql m).
Proof. intros Hm. apply keeps_sql. intros d Hd. by rewrite Hm. Qed.
(** What a statement that only reads returns can be used. *)
Lemma keeps_query_bind {A B} (m : ST ConvDb DbError.t A) (f : A → M B) : reads m →
  (∀ d a, P d → snd (m d) = Ok a → keeps (f a)) → keeps (st_bind (sql m) f).
Proof.
  intros Hm Hf s Hs. unfold st_bind, sql, st_on, st_map_err. specialize (Hm (db s)). destruct (m (db s)) as [d' [a|e]] eqn:Hd; simpl in *; subst d'.
  - apply (Hf (db s) a Hs); [by rewrite Hd|]. exact Hs.
  - exact Hs.
Qed.
End keeps.

Lemma reads_get id : reads (ConversationRepo.get id).
Proof. done. Qed.
Lemma reads_page user f : reads (ConversationRepo.list_paginated user f).
Proof. intros d. unfold ConversationRepo.list_paginated. destruct (_ && _); [done|]. by destruct (page_of _ _). Qed.
Lemma reads_associated user id : reads (ConversationRepo.list_associated user id).
Proof.
  intros d. unfold ConversationRepo.list_associated. destruct (List.find _ _); [|done]. destruct (from_str _ ≫= _); [|done].
  destruct (String.eqb _ _); [done|]. by destruct (negb _).
Qed.
Lemma reads_by_cron_job user c : reads (ConversationRepo.list_by_cron_job user c).
Proof. intros d. unfold ConversationRepo.list_by_cron_job. by destruct (negb _). Qed.
Lemma reads_messages id p n o : reads (ConversationRepo.get_messages id p n o).
Proof. intros d. unfold ConversationRepo.get_messages. by destruct (page_of _ _). Qed.
End facts.

Create HintDb svc discriminated.
#[export] Hint Resolve reads_get reads_page reads_associated reads_by_cron_job reads_messages : svc.
(** Goes through a computation by its shape. *)
Ltac keeps_step := lazymatch goal with
  | |- keeps _ (st_bind _ _) => apply keeps_seq; [|intros ?]
  | |- keeps _ (st_ret _) => apply keeps_value
  | |- keeps _ (fail _) => apply keeps_fail
  | |- keeps _ (st_fail _) => apply keeps_panic
  | |- keeps _ (answer _) => apply keeps_answer
  | |- keeps _ (tell _) => apply keeps_tell
  | |- keeps _ mint_msg_id => apply keeps_mint
  | |- keeps _ (st_get _) => apply keeps_get
  | |- keeps _ (put_task _ _) => apply keeps_put
  | |- keeps _ (acp_call _ _) => apply keeps_acp
  | |- keeps _ (ignore _) => apply keeps_ignore
  | |- keeps _ (st_modify _) => apply keeps_modify; by intros
  | |- keeps _ (sql _) => apply keeps_query; solve [eauto with svc | done]
  | |- keeps _ (if ?b then _ else _) => destruct b
  | |- keeps _ (match ?x with _ => _ end) => destruct x
  end.

(* ------------------------------------------------------------------ *)
(** ** A conversation of somebody else *)

Section ownership.
Context `{JsonCodec} `{ResponseRegex} `{Unicode} `{Host} `{Agents} {S : Type}.
Context (cron_service : option (CronCommands S)).
Abbreviation Svc := (Svc (S:=S)).
Abbreviation M := (ST Svc failure).
Implicit Types (r : ConversationRow.t) (s : Svc) (d : ConvDb).

(** A conversation with its messages and artifacts. *)
Definition view (i : string) d : option ConversationRow.t * Datatypes.list MessageRow.t * Datatypes.list ConversationArtifactRow.t :=
  (List.find (ConversationRepo.is_conversation i) (tbl_conversations d),
   List.filter (ConversationRepo.of_conversation i) (tbl_messages d),
   List.filter (λ a, String.eqb (ConversationArtifactRow.conversation_id a) i) (tbl_artifacts d)).

Section somebody.
Context (user i : string) (r0 : ConversationRow.t) (other : ConversationRow.user_id r0 ≠ user)
  (ms : Datatypes.list MessageRow.t) (ars : Datatypes.list ConversationArtifactRow.t).
Definition framed d : Prop := NoDup (map ConversationRow.id (tbl_conversations d)) ∧ view i d = (Some r0, ms, ars).

Lemma find_other_row id u (l : Datatypes.list ConversationRow.t) : id ≠ i →
  List.find (ConversationRepo.is_conversation i) (sql_update (ConversationRepo.is_conversation id) (ConversationRepo.apply_update u) l) =
  List.find (ConversationRepo.is_conversation i) l.
Proof.
  intros Hne. unfold ConversationRepo.is_conversation. induction l as [|r l IH]; [done|]. unfold sql_update in *. simpl.
  destruct (String.eqb_spec (ConversationRow.id r) id) as [Hid|Hid]; simpl; rewrite IH; [|done]. by destruct (String.eqb _ _) eqn:Hi; [apply String.eqb_eq in Hi; congruence|].
Qed.
Lemma ids_update id u (l : Datatypes.list ConversationRow.t) :
  map ConversationRow.id (sql_update (ConversationRepo.is_conversation id) (ConversationRepo.apply_update u) l) = map ConversationRow.id l.
Proof. by apply map_sql_update. Qed.
Lemma framed_update id u : id ≠ i → preserves framed (ConversationRepo.update id u).
Proof.
  intros Hne d [Hnd Hv]. unfold ConversationRepo.update. destruct (ConversationRowUpdate.is_empty u); [done|].
  assert (framed (set_conversations (sql_update (ConversationRepo.is_conversation id) (ConversationRepo.apply_update u) (tbl_conversations d)) d)) as Hf.
  { split; [simpl; by rewrite ids_update|]. unfold view in *. cbn [set_conversations tbl_conversations tbl_messages tbl_artifacts]. by rewrite find_other_row. }
  destruct (rows_affected _ _), (ConversationRowUpdate.status u); simpl; try exact Hf. by destruct (_ || _).
Qed.
Lemma filter_delete {A} (p q : A → bool) l : (∀ x, p x = true → q x = false) → List.filter p (sql_delete q l) = List.filter p l.
Proof.
  intros Hpq. unfold sql_delete. induction l as [|x l IH]; [done|]. simpl. destruct (q x) eqn:Hq; simpl.
  - rewrite IH. destruct (p x) eqn:Hp; [|done]. by rewrite (Hpq x Hp) in Hq.
  - by rewrite IH.
Qed.
Lemma find_delete {A} (p q : A → bool) l : (∀ x, p x = true → q x = false) → List.find p (sql_delete q l) = List.find p l.
Proof.
  intros Hpq. unfold sql_delete. induction l as [|x l IH]; [done|]. simpl. destruct (q x) eqn:Hq; simpl.
  - rewrite IH. destruct (p x) eqn:Hp; [|done]. by rewrite (Hpq x Hp) in Hq.
  - by rewrite IH.
Qed.
Lemma eqb_other (a b id : string) : id ≠ b → String.eqb a b = true → String.eqb a id = false.
Proof. intros Hne ->%String.eqb_eq. by apply String.eqb_neq. Qed.
Lemma framed_delete id : id ≠ i → preserves framed (ConversationRepo.delete id).
Proof.
  intros Hne d [Hnd Hv]. unfold ConversationRepo.delete. destruct (rows_affected _ _); [done|].
  split; [by apply NoDup_sql_delete|]. unfold view in *. cbn [fst tbl_conversations tbl_messages tbl_artifacts].
  rewrite find_delete, !filter_delete; [done|..]; intros x; by apply eqb_other.
Qed.
Lemma framed_delete_messages id : id ≠ i → preserves framed (ConversationRepo.delete_messages_by_conversation id).
Proof.
  intros Hne d [Hnd Hv]. split; [done|]. unfold view in *. cbn [fst ConversationRepo.delete_messages_by_conversation set_messages tbl_conversations tbl_messages tbl_artifacts].
  rewrite filter_delete; [done|]. intros x. by apply eqb_other.
Qed.
Lemma framed_delete_artifacts id : id ≠ i → preserves framed (ConversationRepo.delete_artifacts_by_conversation id).
Proof.
  intros Hne d [Hnd Hv]. split; [done|]. unfold view in *. cbn [fst ConversationRepo.delete_artifacts_by_conversation set_artifacts tbl_conversations tbl_messages tbl_artifacts].
  rewrite filter_delete; [done|]. intros x. by apply eqb_other.
Qed.
Lemma framed_insert m : MessageRow.conversation_id m ≠ i → preserves framed (ConversationRepo.insert_message m).
Proof.
  intros Hne d [Hnd Hv]. unfold ConversationRepo.insert_message. destruct (existsb _ _); [done|]. destruct (negb _); [done|]. destruct (negb _); [done|].
  split; [done|]. unfold view in *. cbn [fst set_messages tbl_conversations tbl_messages tbl_artifacts].
  rewrite List.filter_app. cbn [List.filter]. unfold ConversationRepo.of_conversation at 2. rewrite (proj2 (String.eqb_neq _ _) Hne). by rewrite app_nil_r.
Qed.
Lemma filter_artifact_update id a st now (l : Datatypes.list ConversationArtifactRow.t) : id ≠ i →
  List.filter (λ x, String.eqb (ConversationArtifactRow.conversation_id x) i)
    (sql_update (ConversationRepo.is_artifact id a) (ConversationRepo.with_status st now) l) =
  List.filter (λ x, String.eqb (ConversationArtifactRow.conversation_id x) i) l.
Proof.
  intros Hne. unfold sql_update, ConversationRepo.is_artifact. induction l as [|x l IH]; [done|]. simpl.
  destruct (String.eqb_spec (ConversationArtifactRow.conversation_id x) id) as [Hid|Hid]; simpl; [|by rewrite IH].
  destruct (String.eqb (ConversationArtifactRow.id x) a); simpl; rewrite IH; [|done].
  rewrite (proj2 (String.eqb_neq (ConversationArtifactRow.conversation_id x) i)) by congruence. done.
Qed.
Lemma framed_artifact id a st now : id ≠ i → preserves framed (ConversationRepo.update_artifact_status id a st now).
Proof.
  intros Hne d [Hnd Hv]. unfold ConversationRepo.update_artifact_status. destruct (rows_affected _ _); [done|]. destruct (negb _); [done|].
  split; [done|]. unfold view in *. cbn [fst set_artifacts tbl_conversations tbl_messages tbl_artifacts]. by rewrite filter_artifact_update.
Qed.
Lemma framed_create r : preserves framed (ConversationRepo.create r).
Proof.
  intros d [Hnd Hv]. unfold ConversationRepo.create. destruct (existsb _ _) eqn:Hex; [done|]. destruct (negb _); [done|]. destruct (negb _); [done|].
  assert (ConversationRow.id r ∉ map ConversationRow.id (tbl_conversations d)) as Hfresh.
  { intros (r'&Hid&Hin)%elem_of_map. assert (existsb (ConversationRepo.is_conversation (ConversationRow.id r)) (tbl_conversations d) = true) as Ht; [|by rewrite Ht in Hex].
    apply existsb_exists. exists r'. split; [by apply list_elem_of_In|]. unfold ConversationRepo.is_conversation. rewrite <- Hid. apply String.eqb_refl. }
  split.
  - cbn [fst set_conversations tbl_conversations]. rewrite map_app. apply NoDup_app. split; [done|]. split; [|apply NoDup_singleton].
    by intros x Hx ->%list_elem_of_singleton.
  - unfold view in *. cbn [fst set_conversations tbl_conversations tbl_messages tbl_artifacts]. injection Hv as Hr <- <-.
    do 2 f_equal. rewrite <- Hr. clear -Hr. revert Hr. generalize (tbl_conversations d). induction l as [|x l IH]; simpl; [done|].
    by destruct (ConversationRepo.is_conversation i x).
Qed.
(** A row of the user is not of this conversation. *)
Lemma not_this d r : framed d → r ∈ tbl_conversations d → ConversationRow.user_id r = user → ConversationRow.id r ≠ i.
Proof using other.
  intros [Hnd Hv] Hin Hu Hid. injection Hv as Hr _ _. apply find_Some_elem in Hr as [Hin0 Hid0%String.eqb_eq].
  assert (r = r0) as ->; [|done]. apply (key_unique ConversationRow.id (tbl_conversations d)); [done..|]. congruence.
Qed.

Abbreviation fkeeps := (keeps (S:=S) framed).
Lemma framed_own {A} id (k : ConversationRow.t → M A) :
  (id ≠ i → ∀ r, ConversationRow.id r = id → fkeeps (k r)) → fkeeps (st_bind (own user id) k).
Proof using other.
  intros Hk s Hs. unfold own. rewrite st_bind_assoc.
  apply (keeps_query_bind framed (ConversationRepo.get id)); [done| |done].
  intros d x Hd [= Hx]. destruct x as [r|]; [|by intros s' Hs'].
  destruct (String.eqb_spec (ConversationRow.user_id r) user) as [Hu|Hu]; [|by intros s' Hs'].
  apply find_Some_elem in Hx as [Hin Hid%String.eqb_eq]. apply Hk; [|done]. rewrite <- Hid. by apply (not_this d).
Qed.
Lemma framed_row_update id e st now : id ≠ i → fkeeps (update_row id e st now).
Proof. intros Hne. by apply keeps_sql, framed_update. Qed.
Lemma framed_backfill id e : id ≠ i → fkeeps (backfill_extra_inplace id e).
Proof.
  intros Hne. unfold backfill_extra_inplace. destruct (backfill_skills_if_missing _ _) as [e1 m1]. destruct (backfill_cron_job_id_alias e1) as [e2 m2].
  destruct (m1 || m2); repeat keeps_step. by apply framed_row_update.
Qed.
Lemma framed_list_rows rows : Forall (λ r, ConversationRow.id r ≠ i) rows → fkeeps (list_rows rows).
Proof.
  induction 1 as [|r rows Hr _ IH]; simpl; [apply keeps_value|]. destruct (from_str _); [|exact IH].
  apply keeps_seq; [by apply framed_backfill|intros ?]. apply keeps_seq; [exact IH|intros ?]. apply keeps_value.
Qed.
Lemma page_items user' f d page : snd (ConversationRepo.list_paginated user' f d) = Ok page →
  ∀ r, r ∈ items page → r ∈ tbl_conversations d ∧ ConversationRow.user_id r = user'.
Proof.
  unfold ConversationRepo.list_paginated. destruct (_ && _); [done|]. destruct (page_of _ _) as [rows more] eqn:Hp. intros [= <-] r Hr. simpl in Hr.
  assert (r ∈ take (Z.to_nat (w32 (ConversationFilters.effective_limit f + 1)))
    (order_desc ConversationRepo.position_of (List.filter (ConversationRepo.below_cursor f d) (List.filter (ConversationRepo.selected user' f) (tbl_conversations d))))) as Hin.
  { unfold page_of in Hp. injection Hp as <- _. destruct (_ <? _); [|done]. by apply elem_of_removelast. }
  apply elem_of_take in Hin. unfold order_desc in Hin. rewrite merge_sort_Permutation in Hin.
  apply elem_of_filter_list in Hin as [Hin _]. apply elem_of_filter_list in Hin as [Hin Hs]. split; [done|].
  unfold ConversationRepo.selected in Hs. apply andb_true_iff in Hs as [Hs _]. by apply String.eqb_eq.
Qed.
Lemma framed_list q : fkeeps (ConversationService.list user q).
Proof using other.
  unfold ConversationService.list. apply keeps_query_bind; [apply reads_page|]. intros d page Hd Hp.
  apply keeps_seq; [|intros ?; apply keeps_value]. apply framed_list_rows. apply List.Forall_forall. intros r Hr%list_elem_of_In.
  destruct (page_items _ _ _ _ Hp r Hr) as [Hin Hu]. by apply (not_this d).
Qed.
Lemma framed_ready r now : ConversationRow.id r ≠ i → fkeeps (ready_agent r now).
Proof.
  intros Hne. unfold ready_agent, build_task_options, get_or_build_task, get_task, maybe_persist_workspace. repeat keeps_step; by apply framed_row_update.
Qed.
(** A message that is accepted belongs to the user's conversation. *)
Lemma framed_accept {A} id req now (k : ConversationRow.t * string * option string → M A) :
  (id ≠ i → ∀ r a b, ConversationRow.id r = id → fkeeps (k (r, a, b))) → fkeeps (st_bind (accept_message user id req now) k).
Proof using other.
  intros Hk. unfold accept_message. destruct (String.eqb _ _); [apply keeps_bind_fail|]. apply keeps_assoc, framed_own. intros Hne r Hr.
  destruct (String.eqb _ _); [apply keeps_bind_fail|]. apply keeps_assoc, keeps_seq; [apply keeps_answer|intros st].
  destruct (bool_decide _); [apply keeps_bind_fail|]. apply keeps_assoc, keeps_seq; [apply keeps_mint|intros m].
  apply keeps_assoc, keeps_seq; [apply keeps_get|intros n]. apply keeps_assoc, keeps_seq; [apply keeps_sql, framed_insert; done|intros _].
  apply keeps_assoc, keeps_seq; [apply keeps_tell|intros _]. apply keeps_bind_ret. by apply Hk.
Qed.
Lemma framed_send id req now now' : fkeeps (send_message user id req now now').
Proof using other.
  unfold send_message. apply framed_accept. intros Hne r a b Hr. apply keeps_seq; [apply framed_ready; congruence|intros _].
  unfold dispatch_message. repeat keeps_step. by apply framed_row_update.
Qed.
Lemma framed_create_inner req p now : fkeeps (create_inner user req p now).
Proof.
  unfold create_inner, provision, link_skills, only_aionrs, create_acp_session_row, broadcast_list_changed. repeat keeps_step. apply keeps_sql, framed_create.
Qed.
(** Every request, by its shape: what follows [own] runs on another conversation. *)
Ltac framed_request := first
  [ apply framed_own; intros ? ? ? | keeps_step | apply framed_row_update; congruence | apply framed_backfill; congruence
  | apply keeps_sql; first [by apply framed_update | by apply framed_delete | by apply framed_delete_messages | by apply framed_delete_artifacts | by apply framed_artifact]
  | apply framed_ready; congruence ].
Lemma framed_serve rq : fkeeps (serve user rq).
Proof using other.
  destruct rq; apply keeps_ignore.
  - apply framed_create_inner.
  - unfold get. repeat framed_request.
  - apply framed_list.
  - unfold update, only_aionrs, broadcast_list_changed. repeat framed_request.
  - unfold delete, broadcast_list_changed. repeat framed_request.
  - unfold reset. repeat framed_request.
  - unfold list_associated. repeat framed_request.
  - unfold list_by_cron_job. repeat framed_request.
  - unfold list_messages. repeat framed_request.
  - unfold list_artifacts. repeat framed_request.
  - unfold update_artifact. repeat framed_request.
  - unfold search_messages. repeat framed_request.
  - unfold list_confirmations, get_task. repeat framed_request.
  - unfold confirm, confirm_with, get_task, remove_card, no_agent. repeat framed_request.
  - unfold check_approval, get_task. repeat framed_request.
  - unfold resubmit_shell, confirm_with, get_task, remove_card, no_agent. repeat (first [apply framed_send | framed_request]).
  - apply framed_send.
  - unfold cancel, get_task. repeat framed_request.
  - unfold warmup. repeat framed_request.
Qed.
End somebody.

(** C29: The requests that name their user ([Request]: create, get, list, update, delete and
    reset a conversation, its messages, artifacts and search, its confirmations, send,
    resubmit, cancel and warm up) leave every conversation of another user as it is: its
    row, its messages and its artifacts.  The operations on the session of a remote agent
    are not among them and ask for no owner ([remote_deletion_asks_nobody]). *)
Theorem requests_touch_only_ones_own user rq s i r : NoDup (map ConversationRow.id (tbl_conversations (db s))) →
  List.find (ConversationRepo.is_conversation i) (tbl_conversations (db s)) = Some r → ConversationRow.user_id r ≠ user →
  view i (db (fst (serve user rq s))) = view i (db s).
Proof.
  intros Hnd Hr Hu. set (v := view i (db s)).
  assert (framed i r v.1.2 v.2 (db (fst (serve user rq s)))) as [_ ->]; [|unfold v, view; simpl; by rewrite Hr].
  apply framed_serve; [done|]. split; [done|]. unfold v, view. simpl. by rewrite Hr.
Qed.
End ownership.
