(* ===== verification/ConvServiceRows.v ===== *)
(** * ConvServiceRows: stored conversations stay readable

    A row is well typed when its type, status, extra and model parse; every request and
    every turn in the background keeps all rows well typed, and a well-typed row of a user
    is what [get] answers.  Then: an update merges, and a turn comes to its end. *)

From S2P Require Import Prelude.
From S2P Require Import Text.
From S2P Require Import TeamTypes.
From S2P Require Import Sql.
From S2P Require Import ConvRepo.
From S2P Require Import ConvMiddleware.
From S2P Require Import ConvCron.
From S2P Require Import ConvRelay.
From S2P Require Import AcpSync.
From S2P Require Import JsonValue.
From S2P Require Import Common.
From S2P Require Import ConvConvert.
From S2P Require Import ConvService.
From S2P Require Import ConvServiceFacts.
Import ConversationService.

(* ------------------------------------------------------------------ *)
(** ** The relay leaves the conversations alone, but for the job service *)

Section relay.
Context `{JsonCodec} `{ResponseRegex} `{Unicode} {S : Type}.
Context (conversation_id msg_id user_id : string) (cron_service : option (CronCommands S)) (short_id : nat → string).
Abbreviation env := (ConvRelay.env (S:=S)).
Definition conversations (e : env) := tbl_conversations (ConvRelay.db e).
Lemma insert_conversations r (e : env) : conversations (ConvRelay.insert r e) = conversations e.
Proof. unfold ConvRelay.insert, run_sql, ConversationRepo.insert_message, conversations. simpl. destruct (existsb _ _); [done|]. destruct (negb _); [done|]. by destruct (negb _). Qed.
Lemma update_conversations i c st h (e : env) : conversations (ConvRelay.update i c st h e) = conversations e.
Proof. unfold ConvRelay.update, run_sql, ConversationRepo.update_message, conversations. simpl. destruct c, h; simpl; by destruct (_ && _). Qed.
Lemma close_conversations st l (e : env) : conversations (snd (close_active_text_segment conversation_id st l e)) = conversations e.
Proof.
  unfold close_active_text_segment, finalize_text_segment. destruct (active_text l) as [seg|]; [|done]. destruct (String.eqb _ _); [done|].
  destruct (TextSegment.record_created seg); simpl; [apply update_conversations|apply insert_conversations].
Qed.
Lemma thinking_conversations now l (e : env) : conversations (snd (complete_active_thinking conversation_id now l e)) = conversations e.
Proof.
  unfold complete_active_thinking. destruct (active_thinking l) as [seg|]; [|done]. destruct (String.eqb _ _); [done|]. simpl. by rewrite insert_conversations.
Qed.
Lemma segments_conversations now st l (e : env) : conversations (snd (close_segments conversation_id now st l e)) = conversations e.
Proof.
  unfold close_segments. pose proof (thinking_conversations now l e) as Ht. destruct (complete_active_thinking _ _ _ _) as [l1 e1]. rewrite <- Ht.
  apply close_conversations.
Qed.
Lemma flush_conversations seg m (e : env) : conversations (snd (flush_text_segment conversation_id seg m e)) = conversations e.
Proof.
  unfold flush_text_segment. destruct (String.eqb _ _); [done|]. destruct (TextSegment.record_created seg); simpl; [apply update_conversations|apply insert_conversations].
Qed.
Lemma mint_segment_conversations l (e : env) :
  let '(_, e', _) := mint_segment_msg_id msg_id short_id l e in conversations e' = conversations e.
Proof. unfold mint_segment_msg_id. by destruct (used_primary_msg_id l). Qed.
Lemma on_thinking_conversations now c j d st l (e : env) :
  conversations (snd (on_thinking conversation_id msg_id short_id now c j d st l e)) = conversations e.
Proof.
  unfold on_thinking. destruct (bool_decide _); [apply thinking_conversations|].
  pose proof (close_conversations "finish" l e) as Hc. destruct (close_active_text_segment _ _ _ _) as [l1 e1]. rewrite <- Hc. simpl.
  destruct (active_thinking l1); [done|]. pose proof (mint_segment_conversations l1 e1) as Hm. by destruct (mint_segment_msg_id _ _ _ _) as [[l2 e2] i].
Qed.
Lemma on_text_conversations now c l (e : env) :
  conversations (snd (on_text conversation_id msg_id short_id now c l e)) = conversations e.
Proof.
  unfold on_text. pose proof (thinking_conversations now l e) as Ht. destruct (complete_active_thinking _ _ _ _) as [l1 e1]. rewrite <- Ht. simpl.
  assert (∀ l2 (e2 : env) seg new m, conversations (snd (let e := match new, current_model l2 with
      | true, Some model => forward_to_websocket_with_msg_id m (AssistantModelInfo model) e2 | _, _ => e2 end in
    let e := forward_to_websocket_with_msg_id m (Text c) e in
    let l := set_full (full_text_buffer l2 +:+ c) l2 in
    let n := TextSegment.flush_counter seg + 1 in
    let seg := TextSegment.mk m (TextSegment.buffer seg +:+ c) (TextSegment.created_at seg) (TextSegment.record_created seg) n in
    if FLUSH_INTERVAL <=? n then
      let '(seg, e) := flush_text_segment conversation_id seg (current_model l) e in
      (set_active_text (Some (TextSegment.mk m (TextSegment.buffer seg) (TextSegment.created_at seg) (TextSegment.record_created seg) 0)) l, e)
    else (set_active_text (Some seg) l, e))) = conversations e2) as Hrest.
  { intros l2 e2 seg new m. cbv zeta. destruct (FLUSH_INTERVAL <=? _).
    - match goal with |- context [flush_text_segment conversation_id ?sg ?md ?ee] => pose proof (flush_conversations sg md ee) as Hf; destruct (flush_text_segment conversation_id sg md ee) as [sg' e'] end.
      simpl in *. rewrite Hf. by destruct new, (current_model l2).
    - simpl. by destruct new, (current_model l2). }
  destruct (active_text l1) as [seg|]; [apply (Hrest l1 e1 seg false)|].
  pose proof (mint_segment_conversations l1 e1) as Hm. destruct (mint_segment_msg_id _ _ _ _) as [[l2 e2] i]. rewrite <- Hm.
  apply (Hrest l2 e2 (TextSegment.mk i EmptyString now false 0) true).
Qed.
Lemma tool_conversations now d (e : env) : conversations (persist_tool_call conversation_id now d e) = conversations e.
Proof.
  unfold persist_tool_call. destruct (String.eqb _ _); [done|]. destruct (query _ _) as [[x|]|]; [apply update_conversations|apply insert_conversations..].
Qed.
Lemma acp_tool_conversations now d (e : env) : conversations (persist_acp_tool_call conversation_id now d e) = conversations e.
Proof. unfold persist_acp_tool_call. destruct (AcpToolCallEventData.session_update d); [apply insert_conversations|apply update_conversations]. Qed.
Lemma tool_group_conversations now l (e : env) : conversations (persist_tool_group conversation_id short_id now l e) = conversations e.
Proof.
  unfold persist_tool_group. destruct l as [|x l]; cbn [mint]; destruct (query _ _) as [[y|]|]; by rewrite ?update_conversations, ?insert_conversations.
Qed.
Lemma responses_conversations rs : ∀ e : env, conversations (send_system_responses short_id rs e) = conversations e.
Proof. induction rs as [|r rs IH]; intros e; [done|]. simpl. by rewrite IH. Qed.
Lemma fold_conversations {A} (f : env → A → env) l : (∀ e x, conversations (f e x) = conversations e) → ∀ e, conversations (foldl f e l) = conversations e.
Proof. intros Hf. induction l as [|x l IH]; intros e; [done|]. simpl. by rewrite IH. Qed.
(** Where the text goes to the middleware, its commands may bind jobs to conversations. *)
Abbreviation rebound e e' := (served cron_service (conversations e) (conversations e')).
Lemma rebound_same e e' : conversations e' = conversations e → rebound e e'.
Proof. intros ->. apply served_refl. Qed.
Lemma finalize_conversations now text segs ev m (e : env) :
  rebound e (fst (finalize conversation_id msg_id user_id cron_service short_id now text segs ev m e)).
Proof.
  unfold finalize. destruct (negb _).
  - unfold process_final_text. pose proof (process_served cron_service text user_id conversation_id (ConvRelay.cron e) (conversations e)) as Hp.
    unfold conversations in Hp at 2. destruct (process _ _ _ _ _) as [[c rows] p]. cbn [fst snd] in *.
    set (e1 := mk_env _ _ c _). change (rebound e e1) in Hp.
    match goal with |- rebound _ ?e2 => assert (conversations e2 = conversations e1) as Hsame; [|unfold conversations in *; rewrite Hsame; exact Hp] end.
    rewrite responses_conversations. destruct segs as [|x rest].
    + destruct (String.eqb _ _); [done|]. by rewrite insert_conversations.
    + destruct (_ || _).
      * rewrite fold_conversations; [etrans; [apply (update_conversations x)|done]|]. intros e' i. unfold hide_segment. apply (update_conversations i).
      * rewrite fold_conversations; [done|]. intros e' i. apply update_conversations.
  - apply rebound_same. destruct ev; try done. simpl. by rewrite insert_conversations.
Qed.
Lemma finish_conversations now ev l (e : env) :
  rebound e (fst (finish_turn conversation_id msg_id user_id cron_service false short_id now ev l e)).
Proof.
  unfold finish_turn. pose proof (finalize_conversations now (full_text_buffer l) (text_segments l) ev (current_model l) e) as Hf.
  by destruct (finalize _ _ _ _ _ _ _ _ _ _ _) as [e' o].
Qed.
Lemma step_conversations now rc l (e : env) :
  rebound e (fst (consume_step conversation_id msg_id user_id cron_service false short_id now rc l e)).
Proof.
  assert (∀ st l (e : env), conversations (snd (close_segments conversation_id now st l e)) = conversations e) as Hs by (intros; apply segments_conversations).
  assert (∀ ev st (f : env → env), (∀ e : env, conversations (f e) = conversations e) →
    rebound e (fst (let '(l, e) := close_segments conversation_id now st l e in let e := f e in
       let '(e, o) := finish_turn conversation_id msg_id user_id cron_service false short_id now ev l e in (e, @inr loop _ o)))) as Hend.
  { intros ev st f Hf. specialize (Hs st l e). destruct (close_segments _ _ _ _ _) as [l1 e1]. rewrite <- Hs. cbn [snd]. rewrite <- (Hf e1). cbv zeta.
    pose proof (finish_conversations now ev l1 (f e1)) as Hfin. by destruct (finish_turn _ _ _ _ _ _ _ _ _ _) as [e2 o]. }
  assert (∀ st (f : env → env), (∀ e : env, conversations (f e) = conversations e) →
    rebound e (fst (let '(l, e) := close_segments conversation_id now st l e in (f e, @inl _ (Datatypes.list string) l)))) as Htool.
  { intros st f Hf. apply rebound_same. specialize (Hs st l e). destruct (close_segments _ _ _ _ _) as [l1 e1]. rewrite <- Hs. apply Hf. }
  destruct rc as [ev| |]; [|by apply rebound_same|by apply (Hend Finish "finish" (λ e, e))].
  destruct ev; cbn [consume_step].
  all: try (by apply rebound_same).
  all: try (by apply (Hend _ _ (λ e, forward_to_websocket msg_id _ e))).
  all: try (by apply Htool; intros e'; rewrite ?tool_conversations, ?acp_tool_conversations, ?tool_group_conversations).
  all: apply rebound_same; match goal with
    | |- context [on_text ?a ?b ?c ?d ?x ?y ?z] => pose proof (on_text_conversations d x y z) as Ht; by destruct (on_text a b c d x y z)
    | |- context [on_thinking ?a ?b ?c ?d ?x ?y ?j ?w ?u ?v] => pose proof (on_thinking_conversations d x y j w u v) as Ht; by destruct (on_thinking a b c d x y j w u v)
    end.
Qed.
Lemma consume_conversations rs : ∀ l (e : env),
  rebound e (fst (consume_from conversation_id msg_id user_id cron_service false short_id rs l e)).
Proof.
  induction rs as [|[now rc] rs IH]; intros l e; [by apply rebound_same|]. simpl. pose proof (step_conversations now rc l e) as Hs.
  destruct (consume_step _ _ _ _ _ _ _ _ _ _) as [e1 [l1|o]]; simpl in *; [|done]. by eapply served_trans.
Qed.
End relay.

(* ------------------------------------------------------------------ *)
(** ** Well-typed rows *)

Lemma ok_removed k l : json_ok (Obj l) = true → json_ok (Obj (remove k l)) = true.
Proof.
  simpl. rewrite !andb_true_iff, !bool_decide_eq_true, !forallb_forall. intros [Hnd Hl]. unfold remove. split.
  - clear Hl. induction l as [|kv l IH]; simpl; [done|]. simpl in Hnd. apply NoDup_cons in Hnd as [Hk Hnd].
    destruct (negb _); simpl; [|by apply IH]. apply NoDup_cons. split; [|by apply IH]. contradict Hk.
    apply list_elem_of_fmap in Hk as (x&Hx&Hin). apply list_elem_of_fmap. exists x. split; [done|]. by apply elem_of_filter_list in Hin as [? _].
  - intros kv [Hin _]%List.filter_In. by apply Hl.
Qed.
Lemma ok_merge p : ∀ b, json_ok (Obj b) = true → forallb (λ kv, json_ok (snd kv)) p = true →
  json_ok (Obj (foldl (λ o kv, insert (fst kv) (snd kv) o) b p)) = true.
Proof.
  induction p as [|kv p IH]; intros b Hb Hp; [done|]. simpl in Hp. apply andb_true_iff in Hp as [Hkv Hp]. simpl foldl.
  apply IH; [|done]. by apply ok_insert.
Qed.
Lemma skills_ok l : json_ok (skills_json l) = true.
Proof. simpl. rewrite forallb_forall. by intros x (y&<-&_)%List.in_map_iff. Qed.

Section readable.
Context `{JsonCodec} `{ResponseRegex} `{Unicode} `{Host} `{Agents} {S : Type}.
Context (cron_service : option (CronCommands S)).
Abbreviation Svc := (Svc (S:=S)).
Abbreviation M := (ST Svc failure).
Implicit Types (r : ConversationRow.t) (s : Svc) (d : ConvDb).

Definition model_text (m : string) : Prop := is_ok (parse_provider_with_model m) = true.
Record well_typed_row r : Prop := {
  typed_type : is_Some (of_name (A:=AgentType.t) (ConversationRow.type r));
  typed_status : is_ok (status_of (ConversationRow.status r)) = true;
  typed_extra : object_text (ConversationRow.extra r);
  typed_model : ∀ m, ConversationRow.model r = Some m → model_text m;
}.
Definition well_typed d : Prop := Forall well_typed_row (tbl_conversations d).
Abbreviation wkeeps := (keeps (S:=S) well_typed).

Lemma stored_object r : well_typed_row r → ∃ o, stored_extra r = Obj o ∧ json_ok (Obj o) = true.
Proof. intros [_ _ [o Ho] _]. exists o. unfold stored_extra. rewrite Ho. split; [done|]. by apply (from_str_ok (ConversationRow.extra r)). Qed.
Lemma model_written p : model_text (to_string (provider_json p)).
Proof. unfold model_text. by rewrite parse_provider_written. Qed.

(** What an update may write. *)
Definition fine (u : ConversationRowUpdate.t) : Prop :=
  (∀ t, ConversationRowUpdate.extra u = Some t → object_text t) ∧ (∀ m, ConversationRowUpdate.model u = Some (Some m) → model_text m).
Lemma apply_well_typed u r : fine u → (∀ st, ConversationRowUpdate.status u = Some st → ConversationRepo.conversation_status_ok (Some st) = true) →
  well_typed_row r → well_typed_row (ConversationRepo.apply_update u r).
Proof.
  intros [He Hm] Hst [Ht Hs Hx Hmod]. destruct u as [n p pa m e st ua]. split; cbn [ConversationRepo.apply_update ConversationRow.type ConversationRow.status ConversationRow.extra ConversationRow.model
    ConversationRowUpdate.status ConversationRowUpdate.extra ConversationRowUpdate.model] in *; [done|..].
  - destruct st as [st|]; [|done]. specialize (Hst st eq_refl). simpl in Hst. unfold ConversationRepo.one_of in Hst. simpl in Hst.
    rewrite !orb_true_iff, !String.eqb_eq in Hst. destruct Hst as [->|[->|[->|?]]]; [vm_compute; done..|done].
  - destruct e as [e|]; [by apply He|done].
  - destruct m as [[m|]|]; simpl; intros m' Hm'; [injection Hm' as <-; by apply Hm|done|by apply Hmod].
Qed.
Lemma well_typed_update id u : fine u → preserves well_typed (ConversationRepo.update id u).
Proof.
  intros Hu d Hd. unfold ConversationRepo.update. destruct (ConversationRowUpdate.is_empty u); [done|].
  assert (∀ l, Forall well_typed_row l → (∀ st, ConversationRowUpdate.status u = Some st → ConversationRepo.conversation_status_ok (Some st) = true ∨ rows_affected (ConversationRepo.is_conversation id) l = 0%nat) →
    Forall well_typed_row (sql_update (ConversationRepo.is_conversation id) (ConversationRepo.apply_update u) l)) as Hall.
  { intros l Hl Hst. apply List.Forall_forall. intros x Hx%list_elem_of_In. apply elem_of_sql_update in Hx as (r&Hr&->).
    rewrite List.Forall_forall in Hl. assert (well_typed_row r) as Hrow by (by apply Hl, list_elem_of_In).
    destruct (ConversationRepo.is_conversation id r) eqn:Hid; [|done]. apply apply_well_typed; [done| |done].
    intros st Hs. destruct (Hst st Hs) as [?|Hz]; [done|]. rewrite rows_affected_zero in Hz. by rewrite (Hz r Hr) in Hid. }
  destruct (rows_affected _ _) eqn:Hn, (ConversationRowUpdate.status u) as [st|] eqn:Hst; simpl; try (apply Hall; [done|naive_solver]).
  destruct (_ || _) eqn:Hok; [|done]. apply Hall; [done|]. intros st' [= <-]. by left.
Qed.
Lemma well_typed_row_update id e st now : (∀ t, e = Some t → object_text t) → wkeeps (update_row id e st now).
Proof. intros He. by apply keeps_sql, well_typed_update. Qed.
Lemma well_typed_found d id r : well_typed d → List.find (ConversationRepo.is_conversation id) (tbl_conversations d) = Some r → well_typed_row r.
Proof. intros Hd [Hin _]%find_Some_elem. unfold well_typed in Hd. rewrite List.Forall_forall in Hd. by apply Hd, list_elem_of_In. Qed.
Lemma well_typed_insert m : preserves well_typed (ConversationRepo.insert_message m).
Proof. intros d Hd. unfold ConversationRepo.insert_message. destruct (existsb _ _); [done|]. destruct (negb _); [done|]. by destruct (negb _). Qed.
Lemma well_typed_delete id : preserves well_typed (ConversationRepo.delete id).
Proof.
  intros d Hd. unfold ConversationRepo.delete. destruct (rows_affected _ _); [done|]. unfold well_typed in *. simpl. unfold sql_delete.
  rewrite List.Forall_forall in Hd |- *. intros r [Hr _]%List.filter_In. by apply Hd.
Qed.
Lemma well_typed_artifact id a st now : preserves well_typed (ConversationRepo.update_artifact_status id a st now).
Proof. intros d Hd. unfold ConversationRepo.update_artifact_status. destruct (rows_affected _ _); [done|]. by destruct (negb _). Qed.
Lemma well_typed_create r : well_typed_row r → preserves well_typed (ConversationRepo.create r).
Proof.
  intros Hr d Hd. unfold ConversationRepo.create. destruct (existsb _ _); [done|]. destruct (negb _); [done|]. destruct (negb _); [done|].
  unfold well_typed in *. simpl. apply List.Forall_app. split; [done|]. by apply List.Forall_cons.
Qed.

(** What a row that was read gives to the rest. *)
Lemma typed_get {B} id (f : option ConversationRow.t → M B) :
  (∀ o, (∀ r, o = Some r → well_typed_row r ∧ ConversationRow.id r = id) → wkeeps (f o)) → wkeeps (st_bind (sql (ConversationRepo.get id)) f).
Proof.
  intros Hf. apply keeps_query_bind; [done|]. intros d o Hd [= <-]. apply Hf. intros r Hr. split; [by eapply well_typed_found|].
  apply find_Some_elem in Hr as [_ Hid]. by apply String.eqb_eq.
Qed.
Lemma typed_own {B} user id (f : ConversationRow.t → M B) : (∀ r, well_typed_row r → ConversationRow.id r = id → wkeeps (f r)) → wkeeps (st_bind (own user id) f).
Proof.
  intros Hf. apply keeps_assoc, typed_get. intros [r|] Hr; [|apply keeps_bind_fail]. destruct (Hr r eq_refl) as [Ht Hid].
  destruct (String.eqb _ _); [|apply keeps_bind_fail]. apply keeps_bind_ret. by apply Hf.
Qed.
Lemma typed_existing {B} id (f : ConversationRow.t → M B) : (∀ r, well_typed_row r → ConversationRow.id r = id → wkeeps (f r)) → wkeeps (st_bind (existing_row id) f).
Proof.
  intros Hf. apply keeps_assoc, typed_get. intros [r|] Hr; [|apply keeps_bind_fail]. destruct (Hr r eq_refl) as [Ht Hid]. apply keeps_bind_ret. by apply Hf.
Qed.
Lemma typed_answer {A B} (x : result A AppError.t) (f : A → M B) : (∀ a, x = Ok a → wkeeps (f a)) → wkeeps (st_bind (answer x) f).
Proof. intros Hf s Hs. unfold st_bind, answer, st_lift. destruct x as [a|e]; simpl; [by apply (Hf a)|done]. Qed.
Lemma parse_object r e : well_typed_row r → parse_json "extra" (ConversationRow.extra r) = Ok e → ∃ o, e = Obj o ∧ json_ok (Obj o) = true.
Proof. intros [_ _ [o Ho] _]. unfold parse_json. rewrite Ho. intros [= <-]. exists o. split; [done|]. by apply (from_str_ok (ConversationRow.extra r)). Qed.

(** Objects stay objects. *)
Lemma backfill_object o auto : json_ok (Obj o) = true →
  ∃ o', fst (backfill_skills_if_missing (Obj o) auto) = Obj o' ∧ json_ok (Obj o') = true.
Proof.
  intros Ho. unfold backfill_skills_if_missing, take_string_array. cbv zeta.
  set (o1 := remove "loaded_skills" (remove "exclude_builtin_skills" (remove "enabled_skills" o))).
  assert (json_ok (Obj o1) = true) as Ho1 by (by repeat apply ok_removed).
  destruct (negb (has_key "skills" o1)); cbn [fst]; eexists; (split; [reflexivity|]); [apply ok_insert; [done|apply skills_ok]|done].
Qed.
Lemma alias_object o : json_ok (Obj o) = true → ∃ o', fst (backfill_cron_job_id_alias (Obj o)) = Obj o' ∧ json_ok (Obj o') = true.
Proof.
  intros Ho. unfold backfill_cron_job_id_alias. case_match; [|by exists o]. cbv zeta. cbn [fst].
  match goal with |- context [if ?b then insert "cron_job_id" _ _ else _] => destruct b end;
    match goal with |- context [if ?b then insert "cronJobId" _ _ else _] => destruct b end;
    eexists; (split; [reflexivity|]); repeat (apply ok_insert; [|done]); done.
Qed.
Definition backfilled o : json := fst (backfill_cron_job_id_alias (fst (backfill_skills_if_missing (Obj o) auto_inject_names))).
Lemma backfilled_object o : json_ok (Obj o) = true → ∃ o', backfilled o = Obj o' ∧ json_ok (Obj o') = true.
Proof. intros Ho. unfold backfilled. destruct (backfill_object o auto_inject_names Ho) as (o1&->&Ho1). by apply alias_object. Qed.
Lemma backfill_returns id o s : snd (backfill_extra_inplace id (Obj o) s) = Ok (backfilled o).
Proof.
  unfold backfill_extra_inplace, backfilled. destruct (backfill_skills_if_missing _ _) as [e1 m1]. cbn [fst]. destruct (backfill_cron_job_id_alias e1) as [e2 m2].
  by destruct (m1 || m2).
Qed.
Lemma typed_backfill id o : json_ok (Obj o) = true → wkeeps (backfill_extra_inplace id (Obj o)).
Proof.
  intros Ho. destruct (backfilled_object o Ho) as (o'&Ho'&Hok). unfold backfilled in Ho'. unfold backfill_extra_inplace.
  destruct (backfill_skills_if_missing _ _) as [e1 m1]. cbn [fst] in Ho'. destruct (backfill_cron_job_id_alias e1) as [e2 m2]. cbn [fst] in Ho'. subst e2.
  destruct (m1 || m2); [|apply keeps_value]. apply keeps_seq; [|intros; apply keeps_value]. apply keeps_ignore, well_typed_row_update.
  intros t [= <-]. by apply object_written.
Qed.
Lemma typed_list_rows rows : Forall well_typed_row rows → wkeeps (list_rows rows).
Proof.
  induction 1 as [|r rows Hr _ IH]; simpl; [apply keeps_value|]. destruct (from_str (ConversationRow.extra r)) as [e|] eqn:He; [|exact IH].
  destruct Hr as [_ _ [o Ho] _]. rewrite He in Ho. injection Ho as ->.
  apply keeps_seq; [apply typed_backfill; by apply (from_str_ok _ _ He)|intros ?]. apply keeps_seq; [exact IH|intros ?]. apply keeps_value.
Qed.
Lemma typed_list user q : wkeeps (ConversationService.list user q).
Proof.
  unfold ConversationService.list. apply keeps_query_bind; [apply reads_page|]. intros d page Hd Hp.
  apply keeps_seq; [|intros ?; apply keeps_value]. apply typed_list_rows. apply List.Forall_forall. intros r Hr%list_elem_of_In.
  destruct (page_items _ _ _ _ Hp r Hr) as [Hin _]. unfold well_typed in Hd. rewrite List.Forall_forall in Hd. by apply Hd, list_elem_of_In.
Qed.
Lemma assigned k x r : well_typed_row r → ∃ o, index_assign k (Str x) (stored_extra r) = Some (Obj o) ∧ json_ok (Obj o) = true.
Proof. intros Hr. destruct (stored_object r Hr) as (o&->&Ho). eexists. split; [reflexivity|]. by apply ok_insert. Qed.
Lemma typed_persist id st res now : wkeeps (maybe_persist_workspace id st res now).
Proof.
  unfold maybe_persist_workspace. destruct (_ || _); [apply keeps_value|]. apply typed_get. intros [r|] Hr; [|apply keeps_fail].
  destruct (assigned "workspace" res r) as (o&->&Ho); [by apply Hr|]. apply well_typed_row_update. intros t [= <-]. by apply object_written.
Qed.
Lemma typed_session_key id key now : wkeeps (persist_session_key id key now).
Proof.
  unfold persist_session_key. apply typed_get. intros [r|] Hr; [|apply keeps_value]. destruct (bool_decide _); [apply keeps_value|].
  destruct (assigned "sessionKey" key r) as (o&->&Ho); [by apply Hr|]. apply keeps_ignore, well_typed_row_update. intros t [= <-]. by apply object_written.
Qed.
Lemma typed_ready r now : wkeeps (ready_agent r now).
Proof. unfold ready_agent, build_task_options, get_or_build_task, get_task. repeat (first [apply typed_persist | keeps_step]). Qed.
Lemma typed_send user id req now now' : wkeeps (send_message user id req now now').
Proof.
  unfold send_message, accept_message, dispatch_message. repeat (first [apply typed_ready | apply keeps_sql, well_typed_insert | by apply well_typed_row_update
    | (* the row is not looked at *) match goal with |- keeps _ (own _ _) => unfold own, not_found end | keeps_step]).
Qed.
Lemma typed_merge r patch f : well_typed_row r → json_ok patch = true → (∀ o, json_ok (Obj o) = true → json_ok (Obj (f o)) = true) →
  object_text (to_string (map_object f (merge_json (stored_extra r) patch))).
Proof.
  intros Hr Hp Hf. destruct (stored_object r Hr) as (o&->&Ho). destruct patch; simpl; try (by apply object_written, Hf).
  apply object_written, Hf, ok_merge; [done|]. simpl in Hp. by apply andb_true_iff in Hp as [_ ?].
Qed.
Lemma map_object_id v : map_object (λ o, o) v = v.
Proof. by destruct v. Qed.
Lemma typed_update user id req now : (∀ p, UpdateConversationRequest.extra req = Some p → json_ok p = true) → wkeeps (update user id req now).
Proof.
  intros Hreq. unfold update, only_aionrs, broadcast_list_changed. apply typed_own. intros r Hr Hid. destruct (bool_decide _); [apply keeps_fail|].
  apply keeps_seq; [apply keeps_answer|intros ty]. destruct (_ && _); [apply keeps_fail|]. apply keeps_seq; [|intros; repeat keeps_step].
  apply keeps_sql, well_typed_update. split; cbn [ConversationRowUpdate.extra ConversationRowUpdate.model]; intros t Ht.
  - destruct (UpdateConversationRequest.extra req) as [p|]; [|done]. injection Ht as <-. fold (stored_extra r).
    destruct (bool_decide _); [by apply (typed_merge r p (remove "model")); [done|by apply Hreq|intros; apply ok_removed]|].
    rewrite <- (map_object_id (merge_json _ _)). by apply (typed_merge r p (λ o, o)); [done|by apply Hreq|].
  - destruct (UpdateConversationRequest.model req) as [m|]; [|done]. injection Ht as <-. apply model_written.
Qed.
Lemma take_first_ok keys : ∀ o, json_ok (Obj o) = true → json_ok (Obj (fst (take_first_array keys o))) = true.
Proof.
  induction keys as [|k keys IH]; intros o Ho; [done|]. cbn [take_first_array].
  destruct (entry k o ≫= strings_in); [by apply ok_removed|]. by apply IH, ok_removed.
Qed.
Lemma request_fields_object pres o : json_ok (Obj o) = true →
  ∃ o' ps ex, take_request_fields pres (Obj o) = (Obj o', ps, ex) ∧ json_ok (Obj o') = true.
Proof.
  intros Ho. unfold take_request_fields.
  pose proof (take_first_ok ["preset_enabled_skills"; "enabled_skills"] (remove "custom_workspace" o) (ok_removed _ _ Ho)) as H1'.
  destruct (take_first_array ["preset_enabled_skills"; "enabled_skills"] _) as [o1 ps]. cbn [fst] in H1'.
  pose proof (take_first_ok ["exclude_auto_inject_skills"; "exclude_builtin_skills"] o1 H1') as H2'.
  destruct (take_first_array ["exclude_auto_inject_skills"; "exclude_builtin_skills"] o1) as [o2 ex]. cbn [fst] in H2'. cbv zeta.
  do 3 eexists. split; [reflexivity|]. destruct pres; repeat apply ok_removed; done.
Qed.
Lemma typed_provision {B} id a e (f : json * option string → M B) : json_ok e = true →
  (∀ o ws, json_ok (Obj o) = true → wkeeps (f (Obj o, ws))) → wkeeps (st_bind (provision id a e) f).
Proof.
  intros He Hf. unfold provision. destruct (nonempty (get_str "workspace" e)) as [w|] eqn:Hw.
  - apply keeps_bind_ret. destruct e as [| | | | |o]; try done. by apply Hf.
  - cbv zeta. destruct (create_dir_all _); [|apply keeps_bind_fail].
    destruct e as [| | | | |o]; cbn [index_assign]; try (by intros ? ?).
    + apply keeps_bind_ret. by apply Hf.
    + apply keeps_bind_ret. apply Hf. by apply ok_insert.
Qed.
Lemma typed_create user req p now : json_ok (CreateConversationRequest.extra req) = true → wkeeps (create_inner user req p now).
Proof.
  intros He. unfold create_inner, only_aionrs. apply keeps_seq; [apply keeps_mint|intros id]. destruct (_ && _); [apply keeps_fail|].
  apply typed_provision.
  { destruct (bool_decide _); [|done]. destruct (CreateConversationRequest.extra req); try done. by apply ok_removed. }
  intros o ws Ho. cbn [fst snd]. destruct (request_fields_object p o Ho) as (o'&ps&ex&->&Ho').
  set (o2 := insert "skills" (skills_json (compute_initial_skills auto_inject_names ps ex)) o').
  assert (json_ok (Obj o2) = true) as Ho2 by (apply ok_insert; [done|apply skills_ok]). cbn [map_object]. fold o2.
  apply keeps_seq; [unfold link_skills; repeat keeps_step|intros _]. apply keeps_seq.
  - apply keeps_sql, well_typed_create. split; cbn [ConversationRow.type ConversationRow.status ConversationRow.extra ConversationRow.model].
    + rewrite of_name_serde_name. by eexists.
    + done.
    + by apply object_written.
    + intros m Hm. destruct (CreateConversationRequest.model req); [|done]. injection Hm as <-. apply model_written.
  - intros _. unfold create_acp_session_row, broadcast_list_changed. repeat keeps_step.
Qed.

(** Every request whose values are parsed JSON. *)
Definition request_ok (rq : Request) : Prop :=
  match rq with
  | Create req _ _ => json_ok (CreateConversationRequest.extra req) = true
  | Update _ req _ => ∀ p, UpdateConversationRequest.extra req = Some p → json_ok p = true
  | _ => True
  end.
Ltac typed_request := first
  [ apply typed_own; intros ? ? ? | by apply well_typed_row_update | apply typed_ready | apply typed_send
  | apply keeps_sql; first [ apply well_typed_delete | apply well_typed_artifact | by intros ? ? ] | keeps_step ].
Lemma typed_serve user rq : request_ok rq → wkeeps (serve user rq).
Proof.
  intros Hrq. destruct rq; cbn [serve]; apply keeps_ignore.
  - by apply typed_create.
  - unfold get. apply typed_own. intros r Hr _. apply typed_answer. intros e He. destruct (parse_object r e Hr He) as (o&->&Ho).
    apply keeps_seq; [by apply typed_backfill|intros ?; apply keeps_answer].
  - apply typed_list.
  - by apply typed_update.
  - unfold delete, broadcast_list_changed. repeat typed_request.
  - unfold reset. repeat typed_request.
  - unfold list_associated. repeat typed_request.
  - unfold list_by_cron_job. repeat typed_request.
  - unfold list_messages. repeat typed_request.
  - unfold list_artifacts. repeat typed_request.
  - unfold update_artifact. repeat typed_request.
  - unfold search_messages. repeat typed_request.
  - unfold list_confirmations, get_task. repeat typed_request.
  - unfold confirm, confirm_with, get_task, remove_card, no_agent. repeat typed_request.
  - unfold check_approval, get_task. repeat typed_request.
  - unfold resubmit_shell, confirm_with, get_task, remove_card, no_agent. repeat typed_request.
  - apply typed_send.
  - unfold cancel, get_task. repeat typed_request.
  - unfold warmup. repeat typed_request.
Qed.

(* ------------------------------------------------------------------ *)
(** ** What runs without a request *)

Lemma typed_bound r r' : bound_row r r' → well_typed_row r → well_typed_row r'.
Proof. intros [-> Ho] [Ht Hs Hx Hm]. split; simpl in *; [done..| |done]. by destruct Ho as [->|?]. Qed.
Lemma typed_rebinds rows rows' : rebinds rows rows' → Forall well_typed_row rows → Forall well_typed_row rows'.
Proof.
  intros [Hb _] Hs. revert Hs. induction Hb as [|r r' rows rows' Hr _ IH]; [done|]. intros [Hrow Hrows]%List.Forall_cons_iff.
  constructor; [by eapply typed_bound|auto].
Qed.
Lemma typed_relay {A} id (f : ConvRelay.env (S:=S) → ConvRelay.env (S:=S) * A) :
  (∀ e, served cron_service (conversations e) (conversations (fst (f e)))) → wkeeps (with_relay id f).
Proof.
  intros Hf s Hs. unfold with_relay. specialize (Hf (mk_env (minted s) (db s) (cron s) [])). destruct (f _) as [e a].
  by eapply typed_rebinds; [apply Hf|].
Qed.
Lemma typed_turn_loop fuel : ∀ user id dm replies, wkeeps (turn_loop cron_service fuel user id dm replies).
Proof.
  induction fuel as [|fuel IH]; intros user id dm replies; [apply keeps_value|]. simpl. destruct replies as [|reply replies]; [repeat keeps_step|].
  apply keeps_seq; [apply keeps_tell|intros _]. apply keeps_seq; [apply typed_relay; intros e; apply consume_conversations|intros o].
  destruct o as [l|responses]; [apply keeps_value|]. apply keeps_seq; [destruct (session_key reply); [apply typed_session_key|apply keeps_value]|intros _].
  destruct (bool_decide _); [apply keeps_value|]. apply keeps_seq; [apply keeps_mint|intros i]. apply IH.
Qed.
Lemma typed_complete id now : wkeeps (with_relay id (λ e, (complete_conversation id now e, tt))).
Proof.
  intros s Hs. unfold with_relay.
  assert (fine (ConversationRowUpdate.mk None None None None None (Some "finished") (Some now))) as Hf by done.
  apply (well_typed_update id _ Hf _ Hs).
Qed.
Lemma typed_run_turn t replies now : wkeeps (run_turn cron_service t replies now).
Proof.
  unfold run_turn. apply keeps_seq; [apply keeps_mint|intros i]. apply keeps_seq; [apply typed_turn_loop|intros [|]]; [apply keeps_value|].
  apply keeps_seq; [apply typed_complete|intros; apply keeps_value].
Qed.

(** Requests, turns and what other components ask for. *)
Inductive Op :=
  | ByUser (user : string) (rq : Request) | BackgroundTurn (t : Turn) (replies : Datatypes.list Reply) (now : Z)
  | UpdateExtra (id : string) (patch : json) (now : Z) | InsertRaw (m : MessageRow.t) | BuildAgent (id : string) (now : Z)
  | Announce (id : string) | SaveMode (id mode : string) (now : Z)
  | DeleteRemote (id row_id : string) (reply : result unit AppError.t)
  | Revert (id row_id : string) (reply : result unit AppError.t) (now : Z)
  | Unrevert (id : string) (reply : result unit AppError.t) (now : Z).
Definition op_ok (o : Op) : Prop :=
  match o with ByUser _ rq => request_ok rq | UpdateExtra _ patch _ => json_ok patch = true | _ => True end.
Definition exec (o : Op) : M unit :=
  match o with
  | ByUser user rq => serve user rq
  | BackgroundTurn t replies now => ignore (run_turn cron_service t replies now)
  | UpdateExtra id patch now => ignore (update_extra id patch now)
  | InsertRaw m => ignore (insert_raw_message m)
  | BuildAgent id now => ignore (get_or_build_agent id now)
  | Announce id => ignore (broadcast_conversation_updated id)
  | SaveMode id mode now => ignore (save_acp_runtime_mode id mode now)
  | DeleteRemote id row_id reply => ignore (delete_remote_message id row_id reply)
  | Revert id row_id reply now => ignore (revert_remote_session id row_id reply now)
  | Unrevert id reply now => ignore (unrevert_remote_session id reply now)
  end.
Definition run (ops : Datatypes.list Op) s : Svc := foldl (λ s o, fst (exec o s)) s ops.
Lemma typed_update_extra id patch now : json_ok patch = true → wkeeps (update_extra id patch now).
Proof.
  intros Hp. unfold update_extra. apply typed_existing. intros r Hr _. apply well_typed_row_update. intros t [= <-].
  rewrite <- (map_object_id (merge_json _ _)). by apply typed_merge.
Qed.
Lemma typed_announce id : wkeeps (broadcast_conversation_updated id).
Proof. unfold broadcast_conversation_updated, existing_row, not_found, broadcast_list_changed. repeat keeps_step. Qed.
Lemma typed_delete_message i : preserves well_typed (ConversationRepo.delete_message i).
Proof. by intros d Hd. Qed.
Lemma typed_resolve id row_id : wkeeps (resolve_opencode_message_id id row_id).
Proof. unfold resolve_opencode_message_id. repeat keeps_step. Qed.
Lemma typed_task id : wkeeps (task id).
Proof. unfold task, get_task. repeat keeps_step. Qed.
Lemma typed_exec o : op_ok o → wkeeps (exec o).
Proof.
  intros Ho. destruct o; cbn [exec]; [by apply typed_serve|apply keeps_ignore..].
  - apply typed_run_turn.
  - by apply typed_update_extra.
  - unfold insert_raw_message. apply keeps_seq; [apply keeps_sql, well_typed_insert|intros; apply keeps_tell].
  - unfold get_or_build_agent, get_task, existing_row, not_found. repeat (first [apply typed_ready|keeps_step]).
  - apply typed_announce.
  - unfold save_acp_runtime_mode. repeat keeps_step.
  - unfold delete_remote_message. repeat (first [apply typed_resolve|apply typed_task|apply keeps_sql, typed_delete_message|keeps_step]).
  - unfold revert_remote_session. repeat (first [apply typed_resolve|apply typed_task|by apply typed_update_extra|apply typed_announce|keeps_step]).
  - unfold unrevert_remote_session. repeat (first [apply typed_task|by apply typed_update_extra|apply typed_announce|keeps_step]).
Qed.
Lemma typed_run ops : ∀ s, well_typed (db s) → Forall op_ok ops → well_typed (db (run ops s)).
Proof.
  induction ops as [|o ops IH]; intros s Hs Hops; [done|]. apply List.Forall_cons_iff in Hops as [Ho Hops]. simpl. apply IH; [|done]. by apply typed_exec.
Qed.

(** What a well-typed row is shown as. *)
Record shows (r : ConversationRow.t) (x : ConversationResponse.t) : Prop := {
  shows_id : ConversationResponse.id x = ConversationRow.id r;
  shows_name : ConversationResponse.name x = ConversationRow.name r;
  shows_type : serde_name (ConversationResponse.type x) = ConversationRow.type r;
  shows_status : status_of (ConversationRow.status r) = Ok (ConversationResponse.status x);
  shows_model : transpose parse_provider_with_model (ConversationRow.model r) = Ok (ConversationResponse.model x);
  shows_extra : ∃ o, ConversationResponse.extra x = Obj o;
}.
Lemma typed_response r o : well_typed_row r → ∃ x, row_to_response_with_extra r (Obj o) = Ok x ∧ shows r x.
Proof.
  intros [[a Ha] Hst _ Hm]. unfold row_to_response_with_extra, string_to_enum. rewrite Ha. cbn [res_bind].
  destruct (status_of (ConversationRow.status r)) as [st|] eqn:Hs; [|done]. cbn [res_bind].
  destruct (transpose parse_provider_with_model (ConversationRow.model r)) as [m|] eqn:Hmod.
  - assert (∃ o', with_workspace r (Obj o) = Obj o') as [o' ->].
    { unfold with_workspace. destruct (get_str _ _); [|by eexists]. destruct (_ && _); by eexists. }
    cbn [res_bind]. eexists. split; [reflexivity|]. split; cbn; [done|done|exact (proj1 (of_name_Some _ a) Ha)|done|done|by eexists].
  - destruct (ConversationRow.model r) as [m|]; [|done]. specialize (Hm m eq_refl). unfold model_text in Hm. simpl in Hmod.
    by destruct (parse_provider_with_model m).
Qed.
Lemma get_answers s r : well_typed (db s) → List.find (ConversationRepo.is_conversation (ConversationRow.id r)) (tbl_conversations (db s)) = Some r →
  ∃ x, snd (get (ConversationRow.user_id r) (ConversationRow.id r) s) = Ok x ∧ shows r x.
Proof.
  intros Hs Hr. assert (well_typed_row r) as Hrow by by eapply well_typed_found. unfold get, own, ConversationRepo.get, sql, st_on, st_map_err.
  unfold st_bind at 1. unfold st_bind at 1. simpl. rewrite Hr. simpl. rewrite String.eqb_refl. simpl.
  destruct Hrow as [Ht Hst [o Ho] Hm]. assert (well_typed_row r) as Hrow by (split; [done..|by exists o|done]).
  unfold st_bind, answer, parse_json, st_lift. rewrite Ho. simpl.
  match goal with |- context [backfill_extra_inplace ?i ?e ?t] => pose proof (backfill_returns i o t) as Hb; destruct (backfill_extra_inplace i e t) as [s1 x1] end.
  simpl in Hb. subst x1. destruct (backfilled_object o (from_str_ok _ _ Ho)) as (o'&->&_).
  destruct (typed_response r o' Hrow) as (x&->&Hx). by exists x.
Qed.

(** C28: Whatever requests, turns of agents and updates by other components follow one
    another, every stored conversation stays readable: its owner's [get] answers it, with
    its name, type, status and model as stored and an object as its extra. *)
Theorem stored_conversations_stay_readable ops s r : well_typed (db s) → Forall op_ok ops →
  List.find (ConversationRepo.is_conversation (ConversationRow.id r)) (tbl_conversations (db (run ops s))) = Some r →
  ∃ x, snd (get (ConversationRow.user_id r) (ConversationRow.id r) (run ops s)) = Ok x ∧ shows r x.
Proof. intros Hs Hops Hr. apply get_answers; [|done]. by apply typed_run. Qed.

(* ------------------------------------------------------------------ *)
(** ** An update merges *)

Lemma sql_ok {A} (m : ST ConvDb DbError.t A) s d a : m (db s) = (d, Ok a) → sql m s = (set_db d s, Ok a).
Proof. intros Hm. unfold sql, st_on, st_map_err. by rewrite Hm. Qed.
Lemma set_db_same s : set_db (db s) s = s.
Proof. by destruct s. Qed.
Lemma get_row_ok id s : sql (ConversationRepo.get id) s = (s, Ok (List.find (ConversationRepo.is_conversation id) (tbl_conversations (db s)))).
Proof. rewrite (sql_ok _ s (db s) (List.find (ConversationRepo.is_conversation id) (tbl_conversations (db s)))) by done. by rewrite set_db_same. Qed.
Lemma own_ok user id s r : List.find (ConversationRepo.is_conversation id) (tbl_conversations (db s)) = Some r → ConversationRow.user_id r = user →
  own user id s = (s, Ok r).
Proof.
  intros Hr Hu. unfold own. rewrite (st_bind_ok _ _ _ _ _ (get_row_ok id s)). rewrite Hr. by rewrite (proj2 (String.eqb_eq _ _) Hu).
Qed.
Lemma found_affected id (l : Datatypes.list ConversationRow.t) r : List.find (ConversationRepo.is_conversation id) l = Some r →
  rows_affected (ConversationRepo.is_conversation id) l ≠ 0%nat.
Proof. intros [Hin Hid]%find_Some_elem Hz. rewrite rows_affected_zero in Hz. by rewrite (Hz r Hin) in Hid. Qed.
Lemma found_after_update id u (l : Datatypes.list ConversationRow.t) r : List.find (ConversationRepo.is_conversation id) l = Some r →
  List.find (ConversationRepo.is_conversation id) (sql_update (ConversationRepo.is_conversation id) (ConversationRepo.apply_update u) l) =
  Some (ConversationRepo.apply_update u r).
Proof.
  unfold sql_update, ConversationRepo.is_conversation. induction l as [|x l IH]; [done|]. simpl.
  destruct (String.eqb (ConversationRow.id x) id) eqn:Hx; [|rewrite Hx; exact IH]. intros [= ->]. simpl. by rewrite Hx.
Qed.

Lemma entry_removed k k' l : entry k (remove k' l) = if String.eqb k k' then None else entry k l.
Proof.
  induction l as [|[k0 v] l IH]; simpl; [by destruct (String.eqb k k')|]. rewrite entry_cons. cbn [fst snd]. destruct (String.eqb_spec k0 k') as [->|Hne]; simpl.
  - rewrite IH. destruct (String.eqb_spec k k') as [->|Hk]; [done|]. by rewrite (proj2 (String.eqb_neq k' k)) by congruence.
  - rewrite entry_cons. simpl. rewrite IH. destruct (String.eqb_spec k0 k) as [->|Hk]; [|done]. by rewrite (proj2 (String.eqb_neq k k')).
Qed.
Lemma entry_missing k l : k ∉ l.*1 → entry k l = None.
Proof.
  induction l as [|[k0 v] l IH]; [done|]. rewrite entry_cons. simpl. intros [Hne Hk]%not_elem_of_cons.
  rewrite (proj2 (String.eqb_neq k0 k)) by congruence. by apply IH.
Qed.
Lemma entry_merged k p : ∀ b, NoDup p.*1 →
  entry k (foldl (λ o kv, insert (fst kv) (snd kv) o) b p) = match entry k p with Some v => Some v | None => entry k b end.
Proof.
  induction p as [|[k0 v] p IH]; intros b Hnd; [done|]. simpl in Hnd. apply NoDup_cons in Hnd as [Hk Hnd]. simpl foldl. rewrite IH by done. rewrite entry_cons. simpl.
  destruct (String.eqb_spec k0 k) as [->|Hne]; [by rewrite entry_missing, entry_insert|]. destruct (entry k p); [done|]. apply entry_insert_ne. congruence.
Qed.
(** What a patch has to say about a key. *)
Definition patched (req : UpdateConversationRequest.t) (k : string) : option json := UpdateConversationRequest.extra req ≫= JsonValue.get k.
Definition model_changes (req : UpdateConversationRequest.t) r : bool :=
  match UpdateConversationRequest.model req with
  | Some m => negb (bool_decide (ConversationRow.model r = Some (to_string (provider_json m)))) | None => false end.
Lemma merge_entries a r req : well_typed_row r → (∀ p, UpdateConversationRequest.extra req = Some p → json_ok p = true) →
  ∃ o o', from_str (ConversationRow.extra r) = Some (Obj o) ∧
    from_str (default (ConversationRow.extra r) ((λ patch, to_string (if bool_decide (a = AgentType.Aionrs)
      then map_object (remove "model") (merge_json (stored_extra r) patch) else merge_json (stored_extra r) patch)) <$> UpdateConversationRequest.extra req)) = Some (Obj o') ∧
    ∀ k, k ≠ "model" ∨ a ≠ AgentType.Aionrs ∨ UpdateConversationRequest.extra req = None →
      entry k o' = match patched req k with Some v => Some v | None => entry k o end.
Proof.
  intros Hr Hp. destruct Hr as [_ _ [o Ho] _]. pose proof (from_str_ok _ _ Ho) as Hok. exists o. unfold patched.
  destruct (UpdateConversationRequest.extra req) as [p|]; [|by exists o]. specialize (Hp p eq_refl).
  cbn [fmap option_fmap option_map default from_option mbind option_bind]. unfold stored_extra. rewrite Ho. change (default (Obj []) (Some (Obj o))) with (Obj o).
  assert (∃ o1, merge_json (Obj o) p = Obj o1 ∧ json_ok (Obj o1) = true ∧ ∀ k, entry k o1 = match JsonValue.get k p with Some v => Some v | None => entry k o end) as (o1&->&Hok1&He).
  { destruct p as [| | | | |p]; simpl; try by exists o. simpl in Hp. apply andb_true_iff in Hp as [Hnd%bool_decide_eq_true Hp]. eexists. split; [reflexivity|].
    split; [by apply ok_merge|]. intros k. by apply entry_merged. }
  destruct (bool_decide (a = AgentType.Aionrs)) eqn:Ha.
  - exists (remove "model" o1). split; [done|]. split; [apply codec_roundtrip; by apply ok_removed|]. intros k [Hk|[Hk|Hk]]; [|by rewrite bool_decide_eq_true in Ha|done].
    rewrite entry_removed, (proj2 (String.eqb_neq _ _) Hk). apply He.
  - exists o1. split; [done|]. split; [by apply codec_roundtrip|]. intros k _. apply He.
Qed.

(** An update that is allowed changes exactly what it names: the fields of the request
    replace those of the row, the patch is laid over the stored extra key by key, the skills
    stay as they were frozen, other conversations are untouched; the answer shows the row
    that is stored then, and the agent is killed exactly when the model changes. *)
Lemma update_merges user id req now s r : well_typed_row r →
  List.find (ConversationRepo.is_conversation id) (tbl_conversations (db s)) = Some r → ConversationRow.user_id r = user →
  (∀ p, UpdateConversationRequest.extra req = Some p → json_ok p = true) → patched req "skills" = None →
  (UpdateConversationRequest.model req = None ∨ ConversationRow.type r = "aionrs") →
  ∃ x r' o o', snd (update user id req now s) = Ok x ∧
    let s' := fst (update user id req now s) in
    List.find (ConversationRepo.is_conversation id) (tbl_conversations (db s')) = Some r' ∧ shows r' x ∧
    ConversationRow.name r' = default (ConversationRow.name r) (UpdateConversationRequest.name req) ∧
    ConversationRow.model r' = match UpdateConversationRequest.model req with Some m => Some (to_string (provider_json m)) | None => ConversationRow.model r end ∧
    from_str (ConversationRow.extra r) = Some (Obj o) ∧ from_str (ConversationRow.extra r') = Some (Obj o') ∧
    entry "skills" o' = entry "skills" o ∧
    (∀ k, k ≠ "model" → entry k o' = match patched req k with Some v => Some v | None => entry k o end) ∧
    (∀ i, i ≠ id → List.find (ConversationRepo.is_conversation i) (tbl_conversations (db s')) = List.find (ConversationRepo.is_conversation i) (tbl_conversations (db s))) ∧
    effects s' = effects s ++ (if model_changes req r then [KillTask id] else []) ++ [ListChanged id "updated" (ConversationResponse.source x); OnUpdated id].
Proof.
  intros Hr Hfind Hu Hp Hsk Hmod. destruct (typed_type r Hr) as [a Ha].
  destruct (merge_entries a r req Hr Hp) as (o&o'&Ho&Ho'&He).
  pose proof (proj1 (of_name_Some (ConversationRow.type r) a) Ha) as Hname.
  assert (negb (bool_decide (a = AgentType.Aionrs)) && bool_decide (is_Some (UpdateConversationRequest.model req)) = false) as Hallowed.
  { destruct Hmod as [->|Hty]; [by rewrite andb_false_r|]. rewrite Hty in Ha. injection Ha as <-. done. }
  set (u := ConversationRowUpdate.mk (UpdateConversationRequest.name req) (UpdateConversationRequest.pinned req)
     ((λ p : bool, if p then Some now else None) <$> UpdateConversationRequest.pinned req)
     (Some <$> ((λ m, to_string (provider_json m)) <$> UpdateConversationRequest.model req))
     ((λ patch, to_string (if bool_decide (a = AgentType.Aionrs) then map_object (remove "model") (merge_json (stored_extra r) patch) else merge_json (stored_extra r) patch))
        <$> UpdateConversationRequest.extra req) None (Some now)).
  set (r' := ConversationRepo.apply_update u r).
  assert (well_typed_row r') as Hr'.
  { apply apply_well_typed; [|done|done]. split; cbn [u ConversationRowUpdate.extra ConversationRowUpdate.model]; intros t Ht.
    - exists o'. destruct (UpdateConversationRequest.extra req); [|done]. simpl in Ht, Ho'. injection Ht as <-. exact Ho'.
    - destruct (UpdateConversationRequest.model req) as [m|]; [|done]. injection Ht as <-. apply model_written. }
  set (d' := set_conversations (sql_update (ConversationRepo.is_conversation id) (ConversationRepo.apply_update u) (tbl_conversations (db s))) (db s)).
  assert (ConversationRepo.update id u (db s) = (d', Ok tt)) as Hupd.
  { unfold ConversationRepo.update. assert (ConversationRowUpdate.is_empty u = false) as ->.
    { unfold u. by destruct (UpdateConversationRequest.name req), (UpdateConversationRequest.pinned req), (UpdateConversationRequest.model req), (UpdateConversationRequest.extra req). }
    change (ConversationRowUpdate.status u) with (@None string). destruct (rows_affected _ _) eqn:Hn; [by apply (found_affected _ _ _ Hfind) in Hn|done]. }
  set (s1 := set_db d' s).
  set (s2 := if model_changes req r then set_tasks (base.delete id (tasks s1)) (add_effect (KillTask id) s1) else s1).
  assert (db s2 = d') as Hdb by (unfold s2; by destruct (model_changes req r)).
  assert (List.find (ConversationRepo.is_conversation id) (tbl_conversations d') = Some r') as Hfind' by (by apply found_after_update).
  destruct (typed_response r' o' Hr') as (x&Hx&Hshows).
  assert (row_to_response r' = Ok x) as Hresp.
  { unfold row_to_response, parse_json. replace (from_str (ConversationRow.extra r')) with (Some (Obj o')) by (symmetry; exact Ho'). exact Hx. }
  assert (update user id req now s = (add_effect (OnUpdated id) (add_effect (ListChanged id "updated" (ConversationResponse.source x)) s2), Ok x)) as ->.
  { unfold update. rewrite (st_bind_ok _ _ _ _ _ (own_ok user id s r Hfind Hu)). unfold patched in Hsk. rewrite Hsk. rewrite bool_decide_false by (by intros [??]).
    rewrite (st_bind_ok _ _ s s a) by (unfold answer, string_to_enum, st_lift; by rewrite Ha). rewrite Hallowed. cbv zeta.
    rewrite (st_bind_ok _ _ s s1 tt) by (apply sql_ok; exact Hupd).
    rewrite (st_bind_ok _ _ s1 s2 tt); [|unfold s2, model_changes; destruct (UpdateConversationRequest.model req) as [m|]; [|done]; cbn [fmap option_fmap option_map]; by repeat case_bool_decide].
    rewrite (st_bind_ok _ _ _ _ _ (get_row_ok id s2)), Hdb, Hfind'.
    rewrite (st_bind_ok _ _ s2 s2 x) by (unfold answer, st_lift; by rewrite Hresp). done. }
  exists x, r', o, o'. cbn [fst snd]. cbn [db add_effect]. rewrite Hdb. split; [done|]. split; [done|]. split; [done|]. split; [done|].
  split; [by unfold r', u; destruct (UpdateConversationRequest.model req)|]. split; [done|]. split; [exact Ho'|].
  split; [|split; [|split]].
  - rewrite He by (by left). by rewrite Hsk.
  - intros k Hk. apply He. by left.
  - intros i Hi. apply find_other_row. congruence.
  - cbn [effects add_effect]. unfold s2. destruct (model_changes req r); simpl; by rewrite <- ?app_assoc.
Qed.
End readable.
