(* ===== verification/ConvTurns.v ===== *)
(** * ConvTurns: turns in the background, and what goes wrong between requests

    A turn prompts its agent at most four times and leaves its conversation finished.  Then
    the instances on which the witnesses of the service evaluate, and examples of what
    overlapping, failing and odd requests leave behind. *)

From S2P Require Import Prelude.
From S2P Require Import Text.
From S2P Require Import TeamTypes.
From S2P Require Import Sql.
From S2P Require Import ConvRepo.
From S2P Require Import ConvMiddleware.
From S2P Require Import ConvCron.
From S2P Require Import ConvRelay.
From S2P Require Import ConvRelayFacts.
From S2P Require Import AcpSync.
From S2P Require Import JsonValue.
From S2P Require Import Common.
From S2P Require Import ConvConvert.
From S2P Require Import ConvService.
From S2P Require Import ConvServiceFacts.
From S2P Require Import ConvServiceRows.
Import ConversationService.

Section turns.
Context `{JsonCodec} `{ResponseRegex} `{Unicode} `{Host} `{Agents} {S : Type}.
Context (cron_service : option (CronCommands S)).
Abbreviation Svc := (Svc (S:=S)).
Abbreviation M := (ST Svc failure).
Implicit Types (r : ConversationRow.t) (s : Svc).

(** The stream of a reply reaches its end. *)
Definition ends (reply : Reply) : Prop := Exists (λ x, is_Some (ending (snd x))) (events reply).
Lemma step_ends c m u now rc l (e : ConvRelay.env (S:=S)) : is_Some (ending rc) →
  ∃ e' o, consume_step c m u cron_service false short_id now rc l e = (e', inr o).
Proof.
  intros [ev Hev]. destruct rc as [v| |]; [destruct v; try done|done|]; simpl;
    destruct (close_segments _ _ _ _ _) as [l1 e1]; destruct (finish_turn _ _ _ _ _ _ _ _ _ _) as [e2 o]; eauto.
Qed.
Lemma consume_ends c m u rs : Exists (λ x, is_Some (ending (snd x))) rs → ∀ l (e : ConvRelay.env (S:=S)),
  ∃ e' o, consume_from c m u cron_service false short_id rs l e = (e', inr o).
Proof.
  intros Hex. induction Hex as [[now rc] rs Hrc|[now rc] rs _ IH]; intros l e; simpl in *.
  - destruct (step_ends c m u now rc l e Hrc) as (e'&o&->). eauto.
  - destruct (consume_step _ _ _ _ _ _ _ _ _ _) as [e' [l'|o]]; [apply IH|eauto].
Qed.

(** What a turn may do to the table: write to its own row and, where there is a job
    service, bind jobs to other conversations. *)
Definition only_bound r r' : Prop := bound_row r r' ∧ keeps_keys r r'.
Abbreviation row_in i s := (row_of i (tbl_conversations (db s))).
Record only_row (id : string) (s s' : Svc) : Prop := {
  only_ids : map ConversationRow.id (tbl_conversations (db s')) = map ConversationRow.id (tbl_conversations (db s));
  only_other : ∀ i, i ≠ id → option_Forall2 only_bound (row_in i s) (row_in i s');
  only_unserved : cron_service = None → ∀ i, i ≠ id → row_in i s' = row_in i s;
}.
Lemma only_bound_refl (o : option ConversationRow.t) : option_Forall2 only_bound o o.
Proof. destruct o; constructor. split; [apply bound_row_refl|done]. Qed.
Lemma only_row_kept id s s' :
  map ConversationRow.id (tbl_conversations (db s')) = map ConversationRow.id (tbl_conversations (db s)) →
  (∀ i, i ≠ id → row_in i s' = row_in i s) → only_row id s s'.
Proof. intros Hids Hkept. split; [done| |done]. intros i Hi. rewrite (Hkept i Hi). apply only_bound_refl. Qed.
Lemma only_row_same id s s' : tbl_conversations (db s') = tbl_conversations (db s) → only_row id s s'.
Proof. intros Heq. apply only_row_kept; [by rewrite Heq|]. intros i _. by rewrite Heq. Qed.
Lemma only_row_served id s s' : served cron_service (tbl_conversations (db s)) (tbl_conversations (db s')) → only_row id s s'.
Proof.
  intros [Hr Hn]. split; [by apply rebinds_ids| |intros Hno i _; by rewrite Hn]. intros i _.
  pose proof (rebinds_find i _ _ (rebinds_rows _ _ Hr)) as Hf. pose proof (rebinds_keys _ _ Hr i) as Hk.
  destruct Hf as [r r' Hb|]; constructor. split; [done|]. by apply Hk.
Qed.
Lemma only_bound_trans (o1 o2 o3 : option ConversationRow.t) :
  option_Forall2 only_bound o1 o2 → option_Forall2 only_bound o2 o3 → option_Forall2 only_bound o1 o3.
Proof.
  intros [r1 r2 [B1 K1]|]; inversion 1 as [? r3 [B2 K2]|]; subst; constructor. split; [by eapply bound_row_trans|].
  intros k Hk Hk'. by rewrite (K2 k), (K1 k).
Qed.
Lemma only_row_trans id s1 s2 s3 : only_row id s1 s2 → only_row id s2 s3 → only_row id s1 s3.
Proof.
  intros [H1' H2' H3'] [H4' H5' H6']. split; [congruence| |intros Hn i Hi; by rewrite H6', H3'].
  intros i Hi. eapply only_bound_trans; eauto.
Qed.
Lemma updated_row id u s : only_row id s (set_db (fst (ConversationRepo.update id u (db s))) s).
Proof.
  unfold ConversationRepo.update. destruct (ConversationRowUpdate.is_empty u); [by apply only_row_same|].
  assert (only_row id s (set_db (set_conversations (sql_update (ConversationRepo.is_conversation id) (ConversationRepo.apply_update u) (tbl_conversations (db s))) (db s)) s)) as Hu.
  { apply only_row_kept; [apply ids_update|]. intros i Hi. apply find_other_row. congruence. }
  destruct (rows_affected _ _), (ConversationRowUpdate.status u); simpl; try exact Hu. destruct (_ || _); [exact Hu|by apply only_row_same].
Qed.

Lemma relay_spec {A} id (f : ConvRelay.env (S:=S) → ConvRelay.env (S:=S) * A) s e a :
  f (mk_env (minted s) (db s) (cron s) []) = (e, a) → served cron_service (tbl_conversations (db s)) (conversations e) →
  ∃ s', with_relay id f s = (s', Ok a) ∧ only_row id s s' ∧ effects s' = effects s ++ map (Relayed id) (sent e).
Proof. intros Hf Hc. eexists. unfold with_relay. rewrite Hf. split; [reflexivity|]. split; [by apply only_row_served|done]. Qed.
Lemma session_key_spec id key now s : well_typed (db s) →
  ∃ s', persist_session_key id key now s = (s', Ok tt) ∧ only_row id s s' ∧ effects s' = effects s.
Proof.
  intros Hs. unfold persist_session_key. rewrite (st_bind_ok _ _ _ _ _ (get_row_ok id s)).
  destruct (List.find _ _) as [r|] eqn:Hr; [|exists s; split; [done|split; [by apply only_row_same|done]]].
  destruct (bool_decide _); [exists s; split; [done|split; [by apply only_row_same|done]]|].
  destruct (assigned "sessionKey" key r) as (o&->&_); [by eapply well_typed_found|].
  set (u := ConversationRowUpdate.mk None None None None (Some (to_string (Obj o))) None (Some now)).
  exists (set_db (fst (ConversationRepo.update id u (db s))) s). split; [|split; [apply updated_row|done]].
  unfold ignore, update_row, sql, st_on, st_map_err. fold u. by destruct (ConversationRepo.update id u (db s)) as [d x].
Qed.

Definition is_prompt (id : string) (e : Effect) : bool := match e with Prompt i _ => String.eqb i id | _ => false end.
Definition prompts (id : string) (es : Datatypes.list Effect) : nat := length (List.filter (is_prompt id) es).
Lemma prompts_app id l l' : prompts id (l ++ l') = (prompts id l + prompts id l')%nat.
Proof. unfold prompts. by rewrite List.filter_app, length_app. Qed.
Lemma prompts_relayed id c ps : prompts id (map (Relayed c) ps) = 0%nat.
Proof. by induction ps. Qed.
Lemma turn_loop_ends fuel : ∀ user id dm replies s, well_typed (db s) → (fuel ≤ length replies)%nat → Forall ends replies →
  ∃ s' es, turn_loop cron_service fuel user id dm replies s = (s', Ok Completed) ∧ only_row id s s' ∧
    effects s' = effects s ++ es ∧ (min fuel 1 ≤ prompts id es ≤ fuel)%nat.
Proof.
  induction fuel as [|fuel IH]; intros user id dm replies s Hs Hlen Hends.
  - exists s, []. split; [done|]. split; [by apply only_row_same|]. rewrite app_nil_r. split; [done|]. unfold prompts. simpl. lia.
  - destruct replies as [|reply replies]; [simpl in Hlen; lia|]. apply List.Forall_cons_iff in Hends as [Hend Hends]. cbn [turn_loop].
    set (s1 := add_effect (Prompt id dm) s). rewrite (st_bind_ok _ _ s s1 tt) by done.
    destruct (consume_ends id (SendMessageData.msg_id dm) user (events reply) Hend start (mk_env (minted s1) (db s1) (cron s1) [])) as (e&o&He).
    pose proof (consume_conversations id (SendMessageData.msg_id dm) user cron_service short_id (events reply) start (mk_env (minted s1) (db s1) (cron s1) [])) as Hc.
    rewrite He in Hc. cbn [fst] in Hc. destruct (relay_spec id _ s1 e (inr o) He Hc) as (s2&Hs2&Hrow2&Heff2). rewrite (st_bind_ok _ _ _ _ _ Hs2).
    assert (well_typed (db s2)) as Ht2.
    { pose proof (typed_relay cron_service id (consume_from id (SendMessageData.msg_id dm) user cron_service false short_id (events reply) start) (λ e', consume_conversations _ _ _ cron_service _ _ _ e') s1 Hs) as Ht.
      by rewrite Hs2 in Ht. }
    assert (∃ s3, (match session_key reply with Some k => persist_session_key id k (ended_at reply) | None => st_ret tt end) s2 = (s3, Ok tt) ∧
      only_row id s2 s3 ∧ effects s3 = effects s2 ∧ well_typed (db s3)) as (s3&Hs3&Hrow3&Heff3&Ht3).
    { destruct (session_key reply) as [k|]; [|exists s2; split; [done|split; [by apply only_row_same|done]]].
      destruct (session_key_spec id k (ended_at reply) s2 Ht2) as (s3&Hs3&Hrow3&Heff3). exists s3. do 3 (split; [done|]).
      pose proof (typed_session_key id k (ended_at reply) s2 Ht2) as Ht. by rewrite Hs3 in Ht. }
    rewrite (st_bind_ok _ _ _ _ _ Hs3).
    assert (only_row id s s3) as Hrow by (eapply only_row_trans; [|exact Hrow3]; eapply only_row_trans; [|exact Hrow2]; by apply only_row_same).
    assert (effects s3 = effects s ++ Prompt id dm :: map (Relayed id) (sent e)) as Heff.
    { rewrite Heff3, Heff2. unfold s1. cbn [effects add_effect]. by rewrite <- app_assoc. }
    assert (prompts id (Prompt id dm :: map (Relayed id) (sent e)) = 1%nat) as Hone.
    { unfold prompts. simpl. rewrite String.eqb_refl. simpl. f_equal. apply prompts_relayed. }
    destruct (bool_decide (o = [])).
    + exists s3, (Prompt id dm :: map (Relayed id) (sent e)). split; [done|]. split; [done|]. split; [done|]. rewrite Hone. lia.
    + rewrite (st_bind_ok _ _ s3 (fst (mint_msg_id s3)) (short_id (minted s3))) by done.
      destruct (IH user id (SendMessageData.mk (str_join nl o) (short_id (minted s3)) [] [] None) replies (fst (mint_msg_id s3)) Ht3 ltac:(simpl in Hlen; lia) Hends)
        as (s'&es&Hl&Hrow'&Heff'&Hn).
      exists s', ((Prompt id dm :: map (Relayed id) (sent e)) ++ es). split; [exact Hl|]. split; [eapply only_row_trans; [exact Hrow|eapply only_row_trans; [|exact Hrow']; by apply only_row_same]|].
      split; [rewrite Heff'; cbn [effects fst mint_msg_id]; rewrite Heff; by rewrite <- app_assoc|]. rewrite prompts_app, Hone. lia.
Qed.

(** C30: A turn comes to its end once the streams of its agent do: the agent is prompted at
    least once and at most four times, however many commands its answers hold; then the
    conversation is finished and the clients are told last.  The commands of an answer may
    bind a job to another conversation, which writes the id of the job into the extra of
    that row and moves its time of update; but for that no other conversation's row has
    changed, and without a job service none has. *)
Theorem turn_ends t replies now s r : well_typed (db s) →
  row_in (turn_conversation t) s = Some r →
  (MAX_CRON_CONTINUATIONS_PER_TURN ≤ length replies)%nat → Forall ends replies →
  ∃ s' es, run_turn cron_service t replies now s = (s', Ok Completed) ∧
    effects s' = effects s ++ es ++ [Relayed (turn_conversation t) TurnCompleted] ∧
    (1 ≤ prompts (turn_conversation t) es ≤ MAX_CRON_CONTINUATIONS_PER_TURN)%nat ∧
    (∃ r', row_in (turn_conversation t) s' = Some r' ∧
           ConversationRow.status r' = Some (serde_name ConversationStatus.Finished)) ∧
    (∀ i, i ≠ turn_conversation t → option_Forall2 only_bound (row_in i s) (row_in i s')) ∧
    (cron_service = None → ∀ i, i ≠ turn_conversation t → row_in i s' = row_in i s).
Proof.
  intros Hs Hr Hlen Hends. set (id := turn_conversation t) in *. unfold run_turn. fold id.
  rewrite (st_bind_ok _ _ s (fst (mint_msg_id s)) (short_id (minted s))) by done.
  match goal with |- context [turn_loop _ _ ?u _ ?dm _] =>
    destruct (turn_loop_ends MAX_CRON_CONTINUATIONS_PER_TURN u id dm replies (fst (mint_msg_id s)) Hs Hlen Hends) as (s1&es&Hl&Hrow&Heff&Hn) end.
  rewrite (st_bind_ok _ _ _ _ _ Hl).
  assert (∃ r1, List.find (ConversationRepo.is_conversation id) (tbl_conversations (db s1)) = Some r1) as [r1 Hr1].
  { destruct (List.find (ConversationRepo.is_conversation id) (tbl_conversations (db s1))) as [r1|] eqn:Hf; [by exists r1|].
    apply find_Some_elem in Hr as [Hin Hid%String.eqb_eq]. exfalso.
    assert (id ∈ map ConversationRow.id (tbl_conversations (db s1))) as Hin1.
    { rewrite (only_ids _ _ _ Hrow). rewrite <- Hid. apply elem_of_map. by exists r. }
    apply elem_of_map in Hin1 as (r1&Hid1&Hin1). rewrite find_None_elem in Hf. specialize (Hf r1 Hin1). unfold ConversationRepo.is_conversation in Hf.
    by rewrite <- Hid1, String.eqb_refl in Hf. }
  set (u := ConversationRowUpdate.mk None None None None None (Some "finished") (Some now)).
  assert (ConversationRepo.update id u (db s1) =
    (set_conversations (sql_update (ConversationRepo.is_conversation id) (ConversationRepo.apply_update u) (tbl_conversations (db s1))) (db s1), Ok tt)) as Hu.
  { unfold ConversationRepo.update. simpl. destruct (rows_affected _ _) eqn:Hz; [by apply (found_affected _ _ _ Hr1) in Hz|done]. }
  set (d1 := set_conversations (sql_update (ConversationRepo.is_conversation id) (ConversationRepo.apply_update u) (tbl_conversations (db s1))) (db s1)) in *.
  set (s2 := mk_svc d1 (acp_sessions s1) (tasks s1) (cron s1) (minted s1) (turns s1) (effects s1 ++ [Relayed id TurnCompleted])).
  assert (with_relay id (λ e, (complete_conversation id now e, tt)) s1 = (s2, Ok tt)) as Hc.
  { assert (fst (ConversationRepo.update id u (db s1)) = d1) as Hd by (by rewrite Hu). unfold s2. rewrite <- Hd. reflexivity. }
  exists s2, es. rewrite (st_bind_ok _ _ _ _ _ Hc). split; [done|]. unfold s2, d1. cbn [effects db].
  split; [rewrite Heff; cbn [effects fst mint_msg_id]; by rewrite <- app_assoc|]. split; [unfold MAX_CRON_CONTINUATIONS_PER_TURN in *; lia|]. split.
  - exists (ConversationRepo.apply_update u r1). split; [by apply found_after_update|done].
  - assert (∀ i, i ≠ id → row_in i s2 = row_in i s1) as Hother by (intros i Hi; apply find_other_row; congruence).
    split; [intros i Hi|intros Hno i Hi]; change (set_conversations _ _) with (db s2); rewrite (Hother i Hi).
    + by apply (only_other _ _ _ Hrow).
    + by apply (only_unserved _ _ _ Hrow).
Qed.
End turns.

(* ------------------------------------------------------------------ *)
(** ** A small world *)

Definition plain_host : Host := {|
  parse_error := λ t, "expected value"; is_dir := λ _, true; workspace_root := "/data"; create_dir_all := λ _, Ok tt;
  short_id := λ n, "id" +:+ ticks n; message_uuid := λ n, ticks n; auto_inject_names := ["todo"; "cron"]; resolve_skills := λ l, l;
  find_builtin_by_backend := λ _, Ok None |}.
(** Agents with pending confirmations; [confirm] takes the confirmed one out. *)
Definition calm_agents : Agents := {|
  Agent := Datatypes.list Confirmation.t;
  build := λ o, if String.eqb (BuildTaskOptions.workspace o) "/broken" then Err (AppError.Internal "no such agent")
                else Ok [Confirmation.mk "conf" "call" None None "run" None [] None None];
  agent_workspace := λ _, EmptyString; get_confirmations := λ a, a;
  agent_confirm := λ _ c _ _ a, (List.filter (λ x, negb (String.eqb (Confirmation.call_id x) c)) a, Ok tt);
  agent_check_approval := λ _ _ _, false; agent_cancel := λ a, (a, Ok tt) |}.
#[local] Existing Instance plain_codec.
#[local] Existing Instance Scan.scan_regex.
#[local] Existing Instance ascii_unicode.
#[local] Existing Instance plain_host.
#[local] Existing Instance calm_agents.
Definition world : Type := Svc (S := unit).
Definition nobody : world := mk_svc (mk_conv_db [] [] [] ["u1"; "u2"]) [] ∅ tt 0 [] [].
Definition wanted (a : AgentType.t) (extra : json) : CreateConversationRequest.t := CreateConversationRequest.mk a (Some "Chat") None None None extra.
Definition hello (t : string) : SendMessageRequest.t := SendMessageRequest.mk t [] [] false.
Definition byu1 (rq : Request) : Op := ByUser "u1" rq.
Definition only_text (t : string) : Reply := mk_reply [(1, Event (Text t)); (2, Event Finish)] (Some "key") 3.
(** A conversation of each user; the first one has been sent a message. *)
Definition two_chats : Datatypes.list Op :=
  [byu1 (Create (wanted AgentType.Acp (Obj [])) false 1); ByUser "u2" (Create (wanted AgentType.Aionrs (Obj [("workspace", Str "/ws")])) false 2);
   byu1 (Send (short_id 0) (hello "hi") 3 4)].
Definition chatting : world := run None two_chats nobody.
Lemma two_chats_ok : Forall op_ok two_chats.
Proof. repeat constructor. Qed.
Lemma nobody_well_typed : well_typed (db nobody).
Proof. constructor. Qed.
Lemma chatting_well_typed : well_typed (db chatting).
Proof. apply typed_run; [apply nobody_well_typed|apply two_chats_ok]. Qed.
Abbreviation row_of i s := (List.find (ConversationRepo.is_conversation i) (tbl_conversations (db s))).

Lemma row_found i (s : world) r : row_of i s = Some r → ConversationRow.id r = i.
Proof. intros [_ Hid]%find_Some_elem. by apply String.eqb_eq. Qed.
Lemma chatting_rows : ∃ r1 r2, row_of "id" chatting = Some r1 ∧ ConversationRow.user_id r1 = "u1" ∧ ConversationRow.type r1 = "acp" ∧
  row_of "id+" chatting = Some r2 ∧ ConversationRow.user_id r2 = "u2".
Proof.
  destruct (row_of "id" chatting) as [r1|] eqn:H1; [|vm_compute in H1; discriminate].
  destruct (row_of "id+" chatting) as [r2|] eqn:H2; [|vm_compute in H2; discriminate].
  exists r1, r2. split; [done|]. split; [vm_compute in H1; by injection H1 as <-|]. split; [vm_compute in H1; by injection H1 as <-|].
  split; [done|]. vm_compute in H2. by injection H2 as <-.
Qed.
Lemma chatting_run : chatting = run None two_chats nobody.
Proof. reflexivity. Qed.
Lemma chatting_ids : NoDup (map ConversationRow.id (tbl_conversations (db chatting))).
Proof. apply (bool_decide_unpack _). vm_compute. exact I. Qed.

Lemma requests_touch_only_ones_own_witness :
  view "id+" (db (fst (serve "u1" (Delete "id") chatting))) = view "id+" (db chatting) ∧
  view "id+" (db (fst (serve "u1" (Delete "id+") chatting))) = view "id+" (db chatting) ∧
  row_of "id" (fst (serve "u1" (Delete "id") chatting)) = None.
Proof.
  destruct chatting_rows as (r1&r2&_&_&_&H2&Hu). split; [|split].
  - apply (requests_touch_only_ones_own "u1" (Delete "id") chatting "id+" r2 chatting_ids H2). rewrite Hu. discriminate.
  - apply (requests_touch_only_ones_own "u1" (Delete "id+") chatting "id+" r2 chatting_ids H2). rewrite Hu. discriminate.
  - vm_compute. reflexivity.
Defined.
Lemma stored_conversations_stay_readable_witness :
  ∃ r x, row_of "id" chatting = Some r ∧ snd (get (ConversationRow.user_id r) (ConversationRow.id r) chatting) = Ok x ∧ shows r x.
Proof.
  destruct chatting_rows as (r1&r2&H1&_). pose proof (row_found _ _ _ H1) as Hid.
  destruct (stored_conversations_stay_readable None two_chats nobody r1 nobody_well_typed two_chats_ok) as (x&Hx&Hs).
  - rewrite Hid, <- chatting_run. exact H1.
  - rewrite <- chatting_run in Hx. exists r1, x. split; [exact H1|]. split; [exact Hx|exact Hs].
Defined.
Definition renaming : UpdateConversationRequest.t := UpdateConversationRequest.mk (Some "New") None None (Some (Obj [("color", Str "red")])).
Lemma update_merges_witness :
  ∃ x o', snd (update "u1" "id" renaming 9 chatting) = Ok x ∧ ConversationResponse.name x = "New" ∧
    entry "color" o' = Some (Str "red") ∧ entry "workspace" o' = Some (Str "/data/conversations/acp-temp-id").
Proof.
  destruct chatting_rows as (r1&r2&H1&Hu&_).
  destruct (update_merges "u1" "id" renaming 9 chatting r1) as (x&r'&o&o'&Hx&Hr'&Hs&Hn&_&Ho&Ho'&_&He&_).
  - exact (well_typed_found _ _ _ chatting_well_typed H1).
  - exact H1.
  - exact Hu.
  - intros p [= <-]. reflexivity.
  - reflexivity.
  - left. reflexivity.
  - exists x, o'. split; [exact Hx|]. split; [rewrite (shows_name _ _ Hs); exact Hn|]. split; [apply (He "color"); discriminate|].
    rewrite (He "workspace") by discriminate. vm_compute in H1. injection H1 as <-. vm_compute in Ho. by injection Ho as <-.
Defined.
Definition the_turn : Turn := mk_turn "id" "u1" (hello "hi") None.
(* ------------------------------------------------------------------ *)
(** ** What goes wrong *)

(** An extra that is not an object makes the request panic, after the directory is made. *)
Example odd_extra_panics : snd (create "u1" (wanted AgentType.Acp (Str "x")) 1 nobody) = Err Panicked.
Proof. vm_compute. reflexivity. Qed.
(** The directory of a conversation is named by the request: it may lie anywhere. *)
Example backend_names_the_directory :
  res_map (λ x, get_str "workspace" (ConversationResponse.extra x)) (snd (create "u1" (wanted AgentType.Acp (Obj [("backend", Str "/etc/x")])) 1 nobody)) =
  Ok (Some "/etc/x-temp-id").
Proof. vm_compute. reflexivity. Qed.
(** With both names of a request field, the second stays in the row. *)
Example legacy_field_is_stored :
  res_map (λ x, JsonValue.get "enabled_skills" (ConversationResponse.extra x))
    (snd (create "u1" (wanted AgentType.Acp (Obj [("preset_enabled_skills", skills_json ["a"]); ("enabled_skills", skills_json ["b"])])) 1 nobody)) =
  Ok (Some (skills_json ["b"])).
Proof. vm_compute. reflexivity. Qed.
(** Until the first message has its agent, a second one is accepted as well: two turns run. *)
Example overlapping_messages_both_run :
  let s := fst (create "u1" (wanted AgentType.Acp (Obj [])) 1 nobody) in
  let s := fst (accept_message "u1" "id" (hello "one") 2 s) in
  let s := fst (accept_message "u1" "id" (hello "two") 3 s) in
  let s := fst (dispatch_message "u1" "id" (hello "one") None 4 s) in
  let s := fst (dispatch_message "u1" "id" (hello "two") None 5 s) in
  map (λ t, SendMessageRequest.content (turn_request t)) (turns s) = ["one"; "two"].
Proof. vm_compute. reflexivity. Qed.
(** A message whose agent cannot be built fails, and is stored all the same. *)
Example refused_message_is_stored :
  let s := fst (create "u1" (wanted AgentType.Acp (Obj [("workspace", Str "/broken")])) 1 nobody) in
  let r := send_message "u1" "id" (hello "hi") 2 3 s in
  snd r = Err (Failed (AppError.Internal "no such agent")) ∧ length (tbl_messages (db (fst r))) = 1%nat.
Proof. vm_compute. done. Qed.
(** While the turn that asks for an approval runs, resubmitting its command rejects the
    approval and is then refused; the card of the approval is not removed. *)
Example resubmit_is_refused :
  let r := resubmit_shell "u1" "id" "call" "ls" 5 6 chatting in
  snd r = Err (Failed (AppError.Conflict "Conversation is already processing a message")) ∧
  snd (list_confirmations "u1" "id" (fst r)) = Ok [] ∧
  List.filter (λ e, match e with ConfirmationRemove _ _ => true | _ => false end) (effects (fst r)) = [].
Proof. vm_compute. done. Qed.
(** Deleting a message of a remote agent names no user: a message of anybody's conversation
    goes, as long as its agent is running. *)
Definition remote_message : MessageRow.t :=
  MessageRow.mk "m1" "id" (Some "m1") "text" (to_string (Obj [("_opencode", Obj [("message_id", Str "msg_1")])])) (Some "left") (Some "finish") false 5.
Example remote_deletion_asks_nobody :
  let s := fst (insert_raw_message remote_message chatting) in
  let r := delete_remote_message "id" "m1" (Ok tt) s in
  existsb (ConversationRepo.is_message "m1") (tbl_messages (db s)) = true ∧ snd r = Ok tt ∧
  existsb (ConversationRepo.is_message "m1") (tbl_messages (db (fst r))) = false.
Proof. vm_compute. done. Qed.
(** Of four rounds of commands that ask for a continuation, the agent is told the results
    of three: the fourth prompt is the last. *)
Example fourth_result_is_dropped :
  let r := run_turn None the_turn (repeat (only_text "[CRON_LIST]") 5) 9 chatting in
  snd r = Ok Completed ∧ prompts "id" (effects (fst r)) = 4%nat ∧
  length (List.filter (λ e, match e with Relayed _ (SystemResponse _ _) => true | _ => false end) (effects (fst r))) = 4%nat.
Proof. vm_compute. done. Qed.
