(* ===== verification/CronBinding.v ===== *)
(** * CronBinding: the job service behind the commands of an answer

    The implementation of [ICronService] by the service of [chisl-cron]: the commands of
    an answer become requests of the service, whose bindings of jobs to conversations
    ([BindConversation] in its log) are carried out on the table of conversations.  It does
    nothing else to that table, so it is a [CronCommands], the interface the relay and the
    turns are proved against; the examples show what a binding does to another
    conversation. *)

From S2P Require Import Prelude.
From S2P Require Import Text.
From S2P Require Import JsonValue.
From S2P Require Import TeamTypes.
From S2P Require Import TeamRepo.
From S2P Require Import CronTypes.
From S2P Require Import CronRepo.
From S2P Require Import CronScheduler.
From S2P Require Import CronService.
From S2P Require Import Common.
From S2P Require Import ConvRepo.
From S2P Require Import ConvMiddleware.
From S2P Require Import ConvCron.
From S2P Require Import ConvConvert.

Section binding.
Context `{JsonCodec} {Db : Type} {CJ : CronJson} {CC : CronCrate} {CR : ICronRepository Db} {AM : Ambient}.

(** The service and the conversations its executor reads and writes. *)
Definition World : Type := CronService.cron Db * list ConversationRow.t.
Implicit Types (w : World) (row : ConversationRow.t).

(** [now_ms()] is read when a binding is written. *)
Definition bind_job (b : string * string) w : World :=
  let '(s, rows) := w in
  match CronService.now s with
  | (s, Ok t) => (s, bind_cron_job_to_conversation (fst b) (snd b) t rows)
  | (s, Err _) => (s, rows)
  end.
Definition bindings (l : list CronService.effect) : list (string * string) :=
  omap (λ e, match e with BindConversation c j => Some (c, j) | _ => None end) l.
(** A method of the service, with the bindings it asks its executor for; neither the
    timers nor the events it sends after them look at the conversations. *)
Definition on_service {A} (m : ST (CronService.cron Db) CronError.t A) w : World * result A CronError.t :=
  let '(s, rows) := w in
  let '(s', r) := m s in
  (foldl (λ w b, bind_job b w) (s', rows) (bindings (drop (length (CronService.log s)) (CronService.log s'))), r).

(* chisl-cron/src/service.rs:1081-1089 get_string *)
Fixpoint get_string (extra : json) (keys : list string) : option string :=
  match keys with
  | [] => None
  | k :: keys => match get_str k extra with
                 | Some t => if String.eqb t EmptyString then get_string extra keys else Some t
                 | None => get_string extra keys
                 end
  end.
Definition or_else {A} (o o' : option A) : option A := match o with Some _ => o | None => o' end.

(* chisl-cron/src/service.rs:1009-1080 build_agent_config_from_conversation *)
Definition build_agent_config_from_conversation row : string * option CronAgentConfigDto.t :=
  let extra := row_extra row in
  let model_resolved := provider_model_from_conversation_row row in
  let model := if String.eqb (ProviderWithModel.provider_id model_resolved) EmptyString then None else Some model_resolved in
  let backend :=
    if String.eqb (ConversationRow.type row) "aionrs"
    then default "aionrs" (or_else (ProviderWithModel.provider_id <$> model) (get_string extra ["backend"]))
    else default (ConversationRow.type row) (or_else (get_string extra ["backend"]) (ProviderWithModel.provider_id <$> model)) in
  let preset_assistant_id := get_string extra ["preset_assistant_id"; "presetAssistantId"] in
  let custom_agent_id := or_else (get_string extra ["custom_agent_id"; "customAgentId"]) preset_assistant_id in
  let is_preset := (λ _, true) <$> preset_assistant_id in
  let preset_agent_type := (λ _, backend) <$> preset_assistant_id in
  let agent_type_enum : option AgentType.t := of_name (ConversationRow.type row) in
  let full_auto_mode := AgentType.full_auto_mode_id (default AgentType.Acp agent_type_enum) (Some backend) in
  let cli_path := or_else (get_string extra ["cli_path"; "cliPath"])
    (gateway ← JsonValue.get "gateway" extra; or_key "cli_path" "cliPath" gateway ≫= as_str) in
  let model_id := or_else (get_string extra ["current_model_id"; "currentModelId"])
    (value ← model; or_else (ProviderWithModel.use_model value)
       (if String.eqb (ProviderWithModel.model value) EmptyString then None else Some (ProviderWithModel.model value))) in
  (ConversationRow.type row,
   Some (CronAgentConfigDto.mk backend
     (default (ConversationRow.name row) (get_string extra ["agent_name"; "agentName"]))
     cli_path is_preset custom_agent_id preset_agent_type (Some full_auto_mode) model_id None
     (get_string extra ["workspace"]))).

(* chisl-cron/src/service.rs:829-898 ICronService::create_job *)
Definition create_job (user_id conversation_id : string) (params : CronCreateParams) w : World * CronCommandResult :=
  let schedule := CronScheduleDto.Cron (c_schedule params) None (Some (c_schedule_description params)) in
  let '(agent_type, conversation_title, agent_config) :=
    match row_of conversation_id (snd w) with
    | Some row => let '(agent_type, agent_config) := build_agent_config_from_conversation row in
                  (agent_type, Some (ConversationRow.name row), agent_config)
    | None => ("acp", None, None)
    end in
  let req := CreateCronJobRequest.mk (c_name params) None schedule None (Some (c_message params)) conversation_id
    conversation_title agent_type "agent" (Some "existing") agent_config in
  match on_service (CronService.add_job req) w with
  | (w, Ok job) => (bind_job (conversation_id, CronJob.id job) w,
                    mk_command_result true ("Created cron job '" +:+ CronJob.name job +:+ "' (" +:+ CronJob.id job +:+ ")"))
  | (w, Err e) => (w, mk_command_result false (CronError.to_string e))
  end.
(* chisl-cron/src/service.rs:900-947 ICronService::update_job *)
Definition update_job (user_id conversation_id : string) (params : CronUpdateParams) w : World * CronCommandResult :=
  let schedule := CronScheduleDto.Cron (u_schedule params) None (Some (u_schedule_description params)) in
  let req := UpdateCronJobRequest.mk (Some (u_name params)) None None (Some schedule) (Some (u_message params)) None None None None in
  match on_service (CronService.update_job (u_job_id params) req) w with
  | (w, Ok job) => (bind_job (conversation_id, CronJob.id job) w,
                    mk_command_result true ("Updated cron job '" +:+ CronJob.name job +:+ "' (" +:+ CronJob.id job +:+ ")"))
  | (w, Err e) => (w, mk_command_result false (CronError.to_string e))
  end.
Definition job_line (j : CronJob.t) : string :=
  "- " +:+ CronJob.name j +:+ " (" +:+ CronJob.id j +:+ ") [" +:+ (if CronJob.enabled j then "enabled" else "disabled") +:+ "]".
(* chisl-cron/src/service.rs:949-990 ICronService::list_jobs *)
Definition list_jobs (user_id conversation_id : string) w : World * CronCommandResult :=
  match on_service (CronService.list_jobs (Some conversation_id)) w with
  | (w, Ok []) => (w, mk_command_result true ("No cron jobs found for conversation '" +:+ conversation_id +:+ "'."))
  | (w, Ok jobs) => (w, mk_command_result true ("Found " +:+ show_i64 (Z.of_nat (length jobs)) +:+ " cron job(s) for conversation '" +:+
                      conversation_id +:+ "':" +:+ nl +:+ str_join nl (map job_line jobs)))
  | (w, Err e) => (w, mk_command_result false (CronError.to_string e))
  end.
(* chisl-cron/src/service.rs:991-1006 ICronService::delete_job *)
Definition delete_job (user_id job_id : string) w : World * CronCommandResult :=
  match on_service (CronService.remove_job job_id) w with
  | (w, Ok _) => (w, mk_command_result true ("Deleted cron job '" +:+ job_id +:+ "'"))
  | (w, Err e) => (w, mk_command_result false (CronError.to_string e))
  end.
(* chisl-cron/src/service.rs:827-1007 ICronService for CronService *)
Definition cron_service : ICronService World := mk_service World create_job update_job list_jobs delete_job.

(* ------------------------------------------------------------------ *)
(** ** What it does to the conversations *)

Lemma bind_job_rebinds b w : rebinds (snd w) (snd (bind_job b w)).
Proof. destruct w as [s rows]. apply bind_rebinds. Qed.
Lemma on_service_rebinds {A} (m : ST (CronService.cron Db) CronError.t A) w : rebinds (snd w) (snd (fst (on_service m w))).
Proof.
  destruct w as [s rows]. unfold on_service. destruct (m s) as [s' r]. simpl. set (bs := bindings _). clearbody bs.
  change rows with (snd (s', rows)) at 1. generalize (s', rows) as w. induction bs as [|b bs IH]; intros w; simpl; [apply rebinds_refl|].
  eapply rebinds_trans; [apply bind_job_rebinds|apply IH].
Qed.
Lemma cron_service_binds_only user_id conversation_id c w :
  rebinds (snd w) (snd (fst (execute cron_service user_id conversation_id c w))).
Proof.
  destruct c as [p|p| |i]; cbn [execute cron_service ConvMiddleware.create_job ConvMiddleware.update_job ConvMiddleware.list_jobs ConvMiddleware.delete_job].
  - unfold create_job. destruct (match row_of _ _ with Some _ => _ | None => _ end) as [[a t] g]. set (m := CronService.add_job _).
    pose proof (on_service_rebinds m w) as Hm. destruct (on_service m w) as [w' [job|e]]; [|done].
    eapply rebinds_trans; [apply Hm|apply bind_job_rebinds].
  - unfold update_job. set (m := CronService.update_job _ _).
    pose proof (on_service_rebinds m w) as Hm. destruct (on_service m w) as [w' [job|e]]; [|done].
    eapply rebinds_trans; [apply Hm|apply bind_job_rebinds].
  - unfold list_jobs. set (m := CronService.list_jobs _). pose proof (on_service_rebinds m w) as Hm.
    by destruct (on_service m w) as [w' [[|job jobs]|e]].
  - unfold delete_job. set (m := CronService.remove_job _). pose proof (on_service_rebinds m w) as Hm.
    by destruct (on_service m w) as [w' [u|e]].
Qed.
(** The service as the interface of the turns. *)
Definition cron_commands : CronCommands (CronService.cron Db) :=
  mk_commands cron_service (λ u c x s rows, cron_service_binds_only u c x (s, rows)).
End binding.

(* ------------------------------------------------------------------ *)
(** ** A turn that edits somebody else's job *)

From S2P Require Import ConvRelay.
From S2P Require Import ConvService.
From S2P Require Import ConvServiceFacts.
From S2P Require Import ConvServiceRows.
From S2P Require Import ConvTurns.

Section examples.
#[local] Existing Instance plain_codec.
#[local] Existing Instance Scan.scan_regex.
#[local] Existing Instance ascii_unicode.
#[local] Existing Instance plain_host.
#[local] Existing Instance calm_agents.
#[local] Existing Instance config_text.
#[local] Existing Instance minute_crate.
#[local] Existing Instance counting.

(** A job of the conversation of the second user. *)
Definition their_job : CronJob.t :=
  CronJob.mk "cron_x" "report" true (CronSchedule.Every 60000 None) "go" ExecutionMode.Existing
    None "id+" None "acp" CreatedBy.User None None 1 2 (Some 60001) None None None 0 0 3.
Definition jobs_stored : CronService.cron SqliteCronRepository.CronDb := mk_cron (mk_store [cron_job_to_row their_job] 0 0) ∅ ∅ [].
Definition with_jobs : ConversationService.Svc (S := CronService.cron SqliteCronRepository.CronDb) :=
  ConversationService.mk_svc (ConversationService.db chatting) (ConversationService.acp_sessions chatting) (ConversationService.tasks chatting)
    jobs_stored (ConversationService.minted chatting) [] [].
Definition editing : string :=
  "[CRON_UPDATE: cron_x]" +:+ nl +:+ "name: mine" +:+ nl +:+ "schedule: * * * * *" +:+ nl +:+
  "schedule_description: often" +:+ nl +:+ "message: x" +:+ nl +:+ "[/CRON_UPDATE]".
Definition edited := ConversationService.run_turn (Some cron_commands) the_turn (repeat (only_text editing) 4) 9 with_jobs.
Definition job_named (i : string) (s : ConversationService.Svc (S := CronService.cron SqliteCronRepository.CronDb)) : option json :=
  r ← ConvCron.row_of i (tbl_conversations (ConversationService.db s)); get "cron_job_id" (row_extra r).

(** The turn of the first user rewrites the job of the second and binds it to both
    conversations: the commands look neither at the user nor at the job's conversation. *)
Lemma others_job_is_taken_over :
  snd edited = Ok ConversationService.Completed ∧
  map CronJobRow.name (st_db (CronService.store (ConversationService.cron (fst edited)))) = ["mine"] ∧
  job_named "id+" with_jobs = None ∧
  job_named "id+" (fst edited) = Some (Str "cron_x") ∧ job_named "id" (fst edited) = Some (Str "cron_x").
Proof. vm_compute. done. Qed.

Lemma with_jobs_db : ConversationService.db with_jobs = ConversationService.db chatting.
Proof. reflexivity. Qed.
Lemma row_found_by i rows : List.find (ConversationRepo.is_conversation i) rows = ConvCron.row_of i rows.
Proof. reflexivity. Qed.
Lemma turn_ends_witness :
  ∃ s' es r2 r2', edited = (s', Ok ConversationService.Completed) ∧ (1 ≤ prompts "id" es ≤ 4)%nat ∧
    ConvCron.row_of "id+" (tbl_conversations (ConversationService.db with_jobs)) = Some r2 ∧
    ConvCron.row_of "id+" (tbl_conversations (ConversationService.db s')) = Some r2' ∧ only_bound r2 r2'.
Proof.
  destruct chatting_rows as (r1&r2&H1&_&_&H2&_). pose proof chatting_well_typed as Ht.
  rewrite <- with_jobs_db in Ht. rewrite <- with_jobs_db, row_found_by in H1, H2.
  destruct (turn_ends (Some cron_commands) the_turn (repeat (only_text editing) 4) 9 with_jobs r1 Ht H1)
    as (s'&es&Hr&_&Hn&_&Hother&_).
  - unfold MAX_CRON_CONTINUATIONS_PER_TURN. simpl. lia.
  - repeat (apply List.Forall_cons; [apply Exists_cons; right; apply Exists_cons; left; by eexists|]). apply List.Forall_nil.
  - specialize (Hother "id+" ltac:(done)). rewrite H2 in Hother.
    destruct (ConvCron.row_of "id+" (tbl_conversations (ConversationService.db s'))) as [r2'|] eqn:H2'; [|inversion Hother].
    exists s', es, r2, r2'. split; [exact Hr|]. split; [exact Hn|]. split; [exact H2|]. split; [exact H2'|]. by inversion Hother.
Defined.
End examples.
