(* ===== verification/RemoteState.v ===== *)
(** * RemoteState: the state of a remote agent

    [RemoteState] of [manager/remote/agent.rs], its fields grouped by what they are for, and
    the functions of that file that only read values: statuses, errors, catalogues,
    permission targets and blessings, the posting of a permission reply.  What an operation
    does besides changing the state is a list of effects, in order; a spawned request is the
    effect, its completion a step of its own ([RemotePrompts]). *)

From S2P Require Import Prelude.
From S2P Require Import Text.
From S2P Require Import Json.
From S2P Require Import JsonValue.
From S2P Require Import TeamTypes.
From S2P Require Import Common.
From S2P Require Import AgentEvents.
From S2P Require Import AcpRuntime.
From S2P Require Import OpenCode.
Import OpencodeQuestion(PendingQuestion).

(* ------------------------------------------------------------------ *)
(** ** Statuses and errors *)

(** [contains] of one of several. *)
Definition contains_any (s : string) (l : list string) : bool := existsb (contains s) l.
Definition one_of (s : string) (l : list string) : bool := existsb (String.eqb s) l.

(* chisl-ai-agent/src/manager/remote/agent.rs:396-406 opencode_status *)
Definition opencode_status (raw : option string) : string * option string :=
  match raw with
  | None => ("idle", None)
  | Some s =>
      if one_of s ["busy"; "running"] then ("running", None)
      else if String.eqb s "idle" then ("idle", None)
      else if String.eqb s "aborting" then ("aborting", None)
      else if String.eqb s "aborted" then ("aborted", Some "aborted")
      else if one_of s ["error"; "errored"] then ("errored", Some "errored")
      else ("idle", Some s)
  end.
(* chisl-ai-agent/src/manager/remote/agent.rs:408-418 opencode_idle_reason *)
Definition opencode_idle_reason (props : json) : string :=
  match str_field "reason" props with
  | None => "completed"
  | Some s =>
      if one_of s ["completed"; "aborted"; "errored"; "compacted"] then s
      else if contains s "abort" then "aborted"
      else if contains s "error" then "errored"
      else if contains s "compact" then "compacted"
      else "completed"
  end.
(* chisl-ai-agent/src/manager/remote/agent.rs:420-436 retry_reason *)
Definition retry_reason (raw : option string) : string :=
  match raw with
  | None => "unknown"
  | Some s =>
      if one_of s ["rate_limit"; "transient"; "tool_error"; "provider_error"; "context_overflow"] then s
      else if contains_any s ["rate"; "limit"] then "rate_limit"
      else if contains s "context" then "context_overflow"
      else if contains s "tool" then "tool_error"
      else if contains s "provider" then "provider_error"
      else if contains_any s ["timeout"; "temporary"; "transient"] then "transient"
      else "unknown"
  end.

Fixpoint redact_words (redact_next : bool) (words : list string) : list string :=
  match words with
  | [] => []
  | w :: words =>
      if redact_next then "[REDACTED]" :: redact_words false words
      else if eq_ignore_ascii_case w "Bearer" then "[REDACTED]" :: redact_words true words
      else (if starts_with "sk-" w then "[REDACTED]" else w) :: redact_words false words
  end.
(* chisl-ai-agent/src/manager/remote/agent.rs:438-459 redact_sensitive_text *)
Definition redact_sensitive_text (input : string) : string := str_join " " (redact_words false (split_whitespace input)).
(* chisl-ai-agent/src/manager/remote/agent.rs:461-463 truncate_500 *)
Definition truncate_500 (input : string) : string := from_chars (take 500 (chars input)).

Section errors.
Context `{Unicode}.
Definition error_kind (name raw_message combined_lower : string) : string :=
  if contains_any combined_lower ["context"; "window"] then "context_overflow"
  else if contains combined_lower "maximum context" || (contains combined_lower "token" && contains combined_lower "limit")
  then "context_overflow"
  else if String.eqb name "ProviderAuthError" then "provider_auth"
  else if String.eqb name "ContextOverflowError" then "context_overflow"
  else if String.eqb name "MessageOutputLengthError" then "output_length"
  else if String.eqb name "MessageAbortedError" then "aborted"
  else if String.eqb name "StructuredOutputError" then "structured_output"
  else if String.eqb name "APIError" then "api"
  else if contains (to_lowercase raw_message) "auth" then "provider_auth"
  else if contains (to_lowercase raw_message) "abort" then "aborted"
  else "unknown".
Definition error_metadata (data : json) : list (string * json) :=
  let number k o := match o ≫= as_u64 with Some n => [(k, num n)] | None => [] end in
  let text k o := match o ≫= as_str with Some s => [(k, Str s)] | None => [] end in
  text "body" ((λ b, Str (redact_sensitive_text (truncate_500 b))) <$> str_field "body" data) ++
  number "limit" (field "limit" data) ++
  match field "partial" data <|> field "partialJson" data with Some p => [("partial", p)] | None => [] end ++
  text "provider_id" (field "providerID" data <|> field "providerId" data) ++
  text "schema" (field "schema" data <|> field "schemaName" data) ++
  number "status_code" (field "statusCode" data <|> field "status_code" data) ++ number "used" (field "used" data).
(* chisl-ai-agent/src/manager/remote/agent.rs:465-546 typed_error_from_props *)
Definition typed_error_from_props (props : json) : TypedErrorData.t :=
  let error := default Null (field "error" props) in
  let name := default EmptyString ((field "name" error <|> field "type" error) ≫= as_str) in
  let data := default error (field "data" error) in
  let raw_message := default "OpenCode session error"
    (((field "message" data <|> field "message" error) ≫= as_str) <|> str_field "error" props) in
  let combined_lower := to_lowercase (raw_message +:+ " " +:+ default EmptyString (str_field "body" data)) in
  let metadata := error_metadata data in
  TypedErrorData.mk (redact_sensitive_text (truncate_500 raw_message)) (error_kind name raw_message combined_lower)
    (match metadata with [] => None | _ => Some (Obj metadata) end)
    (default false ((field "recoverable" props ≫= as_bool) <|> (field "recoverable" data ≫= as_bool))).
End errors.

(* ------------------------------------------------------------------ *)
(** ** Catalogues and requests *)

(* chisl-api-types/src/acp.rs:55-60 AgentModeOption *)
Record AgentModeOption := mk_mode_option { mode_option_id : string; mode_name : option string; mode_description : option string }.
(* chisl-api-types/src/acp.rs:68-72 RemoteSkillInfo *)
Record RemoteSkillInfo := mk_skill_info { skill_name : string; skill_description : option string }.

(* chisl-ai-agent/src/manager/remote/agent.rs:1005-1018 default_opencode_agent_modes *)
Definition default_opencode_agent_modes : list AgentModeOption :=
  [mk_mode_option "build" (Some "Build") None; mk_mode_option "plan" (Some "Plan") None].
(** Adds a mode to those seen. *)
Definition add_mode (modes : list AgentModeOption) (item : json) : list AgentModeOption :=
  if default false (field "hidden" item ≫= as_bool) then modes
  else if negb (match str_field "mode" item with Some m => one_of m ["primary"; "all"] | None => false end) then modes
  else match non_empty (str_field "name" item) with
  | None => modes
  | Some id => if one_of id (map mode_option_id modes) then modes
               else modes ++ [mk_mode_option id (Some id) (str_field "description" item)]
  end.
(* chisl-ai-agent/src/manager/remote/agent.rs:1020-1053 parse_opencode_agent_modes *)
Definition parse_opencode_agent_modes (body : json) : list AgentModeOption :=
  foldl add_mode default_opencode_agent_modes (default [] (as_array body)).
Definition add_skill (skills : list RemoteSkillInfo) (item : json) : list RemoteSkillInfo :=
  match non_empty (str_field "name" item) with
  | None => skills
  | Some n => if one_of n (map skill_name skills) then skills else skills ++ [mk_skill_info n (str_field "description" item)]
  end.
(* chisl-ai-agent/src/manager/remote/agent.rs:1059-1078 parse_opencode_skills *)
Definition parse_opencode_skills (body : json) : list RemoteSkillInfo := foldl add_skill [] (default [] (as_array body)).

(* chisl-ai-agent/src/manager/remote/agent.rs:971-973 normalize_base_url *)
Definition normalize_base_url (url : string) : string := trim_end_matches slash (trim url).
(** [/doc] of the server, when it could be read. *)
(* chisl-ai-agent/src/manager/remote/agent.rs:937-969 resolve_event_path *)
Definition resolve_event_path (doc : option json) : string :=
  let has k := match doc ≫= (λ d : json, field "paths" d ≫= as_object) with
               | Some paths => existsb (λ kv : string * json, String.eqb (fst kv) k) paths | None => false end in
  if has "/global/event" then "/global/event" else if has "/event" then "/event" else "/global/event".
Fixpoint after (x : string) (l : list string) : option string :=
  match l with
  | [] => None
  | y :: l => if String.eqb x y then head l else after x l
  end.
(* chisl-ai-agent/src/manager/remote/agent.rs:982-992 next_opencode_message_id *)
Definition next_opencode_message_id (messages : json) (message_id : string) : option string :=
  match as_array messages with
  | Some l => after message_id (omap (λ m, path_field ["info"; "id"] m ≫= as_str) (l : list json))
  | None => None
  end.
Section auth.
(** Base64 of a text. *)
Context (base64 : string → string).
(* chisl-ai-agent/src/manager/remote/agent.rs:994-1003 build_auth_header *)
Definition build_auth_header (auth_type : string) (auth_token : option string) : option string :=
  match non_empty auth_token with
  | None => None
  | Some token =>
      if one_of auth_type ["bearer"; "Bearer"] then Some ("Bearer " +:+ token)
      else if one_of auth_type ["basic"; "Basic"] then Some ("Basic " +:+ base64 token)
      else if one_of auth_type ["password"; "Password"] then Some ("Basic " +:+ base64 ("opencode:" +:+ token))
      else None
  end.
End auth.
(* chisl-ai-agent/src/manager/remote/agent.rs:285-294 strip_sync_version_suffix *)
Definition strip_sync_version_suffix (event_type : string) : string :=
  match rsplit_once (Ascii.ascii_of_nat 46) event_type with
  | Some (stem, suffix) =>
      if negb (String.eqb suffix EmptyString) && forallb (λ b, (48 <=? b) && (b <=? 57)) (bytes suffix) then stem else event_type
  | None => event_type
  end.
(* chisl-ai-agent/src/manager/remote/agent.rs:6686-6689 extract_opencode_todo_entries *)
Definition extract_opencode_todo_entries (props : json) : option (list json) := field "todos" props ≫= as_array.

(* ------------------------------------------------------------------ *)
(** ** Prompts *)

(* chisl-ai-agent/src/manager/remote/agent.rs:569-569 QUESTION_DEDUP_CAP *)
Definition QUESTION_DEDUP_CAP : nat := 1024.
(* chisl-ai-agent/src/manager/remote/agent.rs:574-574 DEFAULT_PROMPT_TIMEOUT_MS *)
Definition DEFAULT_PROMPT_TIMEOUT_MS : Z := 60000.
Definition i64_max : Z := 2 ^ 63 - 1.
Definition i64_min : Z := - 2 ^ 63.
(** [saturating_add] and [saturating_sub] of an [i64]. *)
Definition sat (x : Z) : Z := Z.max i64_min (Z.min x i64_max).

(* chisl-ai-agent/src/manager/remote/agent.rs:612-623 prompt_kind_for *)
Definition prompt_kind_for (call_id : string) (action : option string) : string :=
  if OpencodeQuestion.is_question_call_id call_id then "question"
  else if starts_with "elicit-" call_id then "mcp_elicitation"
  else if starts_with "shell-" call_id then "run_shell"
  else default "permission" action.
(* chisl-ai-agent/src/manager/remote/agent.rs:632-648 meta_marker_for *)
Definition meta_marker_for `{JsonCodec} (tool_call_id : option string) (patterns : list string) (expires_at_ms : Z) : string :=
  nl +:+ "[[chisl-meta:" +:+ to_string (Obj (
    [("expires_at_ms", num (w64 expires_at_ms))] ++
    (if bool_decide (patterns = []) then [] else [("patterns", Arr (map Str patterns))]) ++
    match tool_call_id with Some t => [("tool_call_id", Str t)] | None => [] end)) +:+ "]]".
(* chisl-ai-agent/src/manager/remote/agent.rs:652-662 prune_replied_map *)
Definition prune_replied_map `{HashIter Z} (cap : nat) (m : gmap string Z) : gmap string Z :=
  if (size m <=? cap)%nat then m
  else foldl (λ m kv, delete (fst kv) m) m (take (size m - cap) (sort_by snd (hm_iter m))).

(* chisl-ai-agent/src/shared_kernel/approval.rs:7-13 approval_key *)
Definition approval_key (action command_type : option string) : string :=
  match action, command_type with
  | Some a, Some ct => a +:+ ":" +:+ ct
  | Some a, None => a
  | None, _ => EmptyString
  end.
(* chisl-ai-agent/src/manager/remote/agent.rs:1276-1278 shell_approval_key *)
Definition shell_approval_key : string := approval_key (Some "run_shell") (Some "run_shell").
(* chisl-ai-agent/src/manager/remote/agent.rs:1284-1286 fs_approval_key *)
Definition fs_approval_key : string := approval_key (Some "fs_destructive") (Some "fs_destructive").

(* chisl-ai-agent/src/manager/remote/agent.rs:1293-1301 extract_permission_target_path *)
Definition extract_permission_target_path (metadata : json) : option string :=
  non_empty ((field "filepath" metadata <|> field "path" metadata <|> field "parentDir" metadata) ≫= as_str).
(* chisl-ai-agent/src/manager/remote/agent.rs:1308-1321 path_is_under_blessed *)
Definition path_is_under_blessed (target : string) (prefixes : gset string) : bool :=
  let normalized_target := trim_end_matches slash target in
  existsb (λ prefix,
    let p := trim_end_matches slash prefix in
    String.eqb normalized_target p ||
    match strip_prefix p normalized_target with Some rest => starts_with "/" rest | None => false end) (elements prefixes).
(* chisl-ai-agent/src/manager/remote/agent.rs:1328-1353 session_or_ancestor_blessed *)
Definition session_or_ancestor_blessed (session_id : string) (blessed : gset string) (registry : Subagent.Registry) : bool :=
  bool_decide (session_id ∈ blessed) ||
  match registry !! session_id with Some c => bool_decide (Subagent.child_session_id c ∈ blessed) | None => false end.

(* ------------------------------------------------------------------ *)
(** ** Replying to a permission *)

Module PermissionReplyOutcome.
(* chisl-ai-agent/src/manager/remote/agent.rs:1150-1159 PermissionReplyOutcome *)
Inductive t := Delivered (endpoint : string) (via_fallback : bool) | Failed.
End PermissionReplyOutcome.

(* chisl-ai-agent/src/manager/remote/agent.rs:1118-1127 build_permission_reply_request *)
Definition build_permission_reply_request (base_url request_id decision : string) : string * json :=
  (base_url +:+ "/permission/" +:+ request_id +:+ "/reply", Obj [("reply", Str decision)]).
(* chisl-ai-agent/src/manager/remote/agent.rs:1133-1145 build_permission_respond_fallback_request *)
Definition build_permission_respond_fallback_request (base_url session_id request_id decision : string) : string * json :=
  (base_url +:+ "/session/" +:+ session_id +:+ "/permissions/" +:+ request_id, Obj [("response", Str decision)]).
(** [post] says whether the server acknowledges a request; what is posted is returned. *)
(* chisl-ai-agent/src/manager/remote/agent.rs:1177-1272 post_permission_reply_with_fallback *)
Definition post_permission_reply_with_fallback (post : string → json → bool) (base_url : string) (directory : option string)
    (request_id : string) (session_id : option string) (decision : string) : list (string * json) * PermissionReplyOutcome.t :=
  let '(url, body) := build_permission_reply_request base_url request_id decision in
  let url := OpencodeContext.append_v1_directory_value url directory in
  if post url body then ([(url, body)], PermissionReplyOutcome.Delivered url false)
  else match non_empty session_id with
  | None => ([(url, body)], PermissionReplyOutcome.Failed)
  | Some sid =>
      let '(fb_url, fb_body) := build_permission_respond_fallback_request base_url sid request_id decision in
      let fb_url := OpencodeContext.append_v1_directory_value fb_url directory in
      ([(url, body); (fb_url, fb_body)],
       if post fb_url fb_body then PermissionReplyOutcome.Delivered fb_url true else PermissionReplyOutcome.Failed)
  end.

(* ------------------------------------------------------------------ *)
(** ** The state *)

Module ShellApproval.
(* chisl-ai-agent/src/manager/remote/local_fs_mcp/shell.rs:45-50 ShellApproval *)
Inductive t := Allow | Reject | TimedOut.
#[global] Instance t_dec : EqDecision t.
Proof. solve_decision. Defined.
End ShellApproval.

(* chisl-ai-agent/src/manager/remote/opencode_payloads.rs:111-116 PromptModel *)
Record PromptModel := mk_prompt_model { provider_id : string; model_id : string }.
Module OpencodePromptRequest.
(** Its one part is a text. *)
(* chisl-ai-agent/src/manager/remote/opencode_payloads.rs:49-75 OpencodePromptRequest *)
Record t := mk {
  text : string; message_id : option string; system : option string; model : option PromptModel; agent : option string;
  skills : list string }.
End OpencodePromptRequest.
Module OpencodeCommandRequest.
(* chisl-ai-agent/src/manager/remote/opencode_payloads.rs:244-250 OpencodeCommandRequest *)
Record t := mk { command : string; agent : option string; model : option string }.
End OpencodeCommandRequest.

(** What an operation does besides changing the state. *)
Inductive Effect :=
| Emit (e : AgentStreamEvent.t)
(** Calls of the delta batcher ([AgentDelta]). *)
| PushDelta (message_id part_id fld delta : string) (is_reasoning : bool) | FlushPart (part_id : string) | FlushAll
(** Calls of the slot of the server ([TurnSlot]). *)
| AcquireTurn | ReleaseTurn
(** The oneshot of a parked tool call. *)
| AnswerShell (call_id : string) (d : ShellApproval.t) | AnswerElicitation (call_id : string) (payload : option json)
(** Spawned requests: [post_permission_reply_with_fallback] and the question endpoints. *)
| ReplyPermission (request_id : string) (session_id : option string) (decision : string)
| ReplyQuestion (request_id : string) (answers : list (list string)) | RejectQuestion (request_id : string)
| AbortSession (session_id : string)
(** Requests an operation waits for. *)
| PromptAsync (session_id : string) (body : OpencodePromptRequest.t) | PromptV2 (session_id content : string)
| RunCommand (session_id : string) (body : OpencodeCommandRequest.t) | WsSend (payload : json)
(** [conversation.extra.sessionKey]. *)
| PersistSessionKey (session_id : string)
(** Spawned work after an edit. *)
| CaptureEditInverse (tool_call_id patch : string) | RunVerification (tool_call_id : string).

(* chisl-ai-agent/src/manager/remote/agent.rs:49-68 RemoteState *)
Record Turn := mk_turn {
  has_messages : bool; root_turn_active : bool; finished_current_user_turn : bool }.
Definition set_has_messages x t := mk_turn x (root_turn_active t) (finished_current_user_turn t).
Definition set_root_turn_active x t := mk_turn (has_messages t) x (finished_current_user_turn t).
Definition set_finished_current_user_turn x t := mk_turn (has_messages t) (root_turn_active t) x.

(* chisl-ai-agent/src/manager/remote/agent.rs:113-126 RemoteState *)
Record Cards := mk_cards {
  confirmations : list Confirmation.t; pending_shell_approvals : gset string; pending_elicitations : gset string;
  pending_questions : gmap string PendingQuestion }.
Definition set_confirmations x c := mk_cards x (pending_shell_approvals c) (pending_elicitations c) (pending_questions c).
Definition set_pending_shell_approvals x c := mk_cards (confirmations c) x (pending_elicitations c) (pending_questions c).
Definition set_pending_elicitations x c := mk_cards (confirmations c) (pending_shell_approvals c) x (pending_questions c).
Definition set_pending_questions x c := mk_cards (confirmations c) (pending_shell_approvals c) (pending_elicitations c) x.

(* chisl-ai-agent/src/manager/remote/agent.rs:143-160 RemoteState *)
Record Blessings := mk_blessings {
  approval_memory : gmap string bool; auto_accept_paths : gset string; auto_accept_sessions : gset string }.
Definition set_approval_memory x b := mk_blessings x (auto_accept_paths b) (auto_accept_sessions b).
Definition set_auto_accept_paths x b := mk_blessings (approval_memory b) x (auto_accept_sessions b).
Definition set_auto_accept_sessions x b := mk_blessings (approval_memory b) (auto_accept_paths b) x.

(* chisl-ai-agent/src/manager/remote/agent.rs:127-142 RemoteState *)
Record Replied := mk_replied {
  recently_replied_permissions : gmap string Z; requeued_permissions : gset string;
  recently_replied_questions : gmap string Z }.
Definition set_recently_replied_permissions x r := mk_replied x (requeued_permissions r) (recently_replied_questions r).
Definition set_requeued_permissions x r := mk_replied (recently_replied_permissions r) x (recently_replied_questions r).
Definition set_recently_replied_questions x r := mk_replied (recently_replied_permissions r) (requeued_permissions r) x.

(* chisl-ai-agent/src/manager/remote/agent.rs:201-224 RemoteState *)
Record Deadlines := mk_deadlines {
  prompt_expiries : gmap string Z; prompt_tool_call_ids : gmap string string;
  prompt_patterns : gmap string (list string) }.
Definition set_prompt_expiries x d := mk_deadlines x (prompt_tool_call_ids d) (prompt_patterns d).
Definition set_prompt_tool_call_ids x d := mk_deadlines (prompt_expiries d) x (prompt_patterns d).
Definition set_prompt_patterns x d := mk_deadlines (prompt_expiries d) (prompt_tool_call_ids d) x.

(* chisl-ai-agent/src/manager/remote/agent.rs:70-71 RemoteState *)
Record Link := mk_link {
  session_key : option string; connection_status : RemoteAgentStatus.t; opencode_session_id : option string;
  last_sync_seqs : gmap string Z }.
Definition set_session_key x l := mk_link x (connection_status l) (opencode_session_id l) (last_sync_seqs l).
Definition set_connection_status x l := mk_link (session_key l) x (opencode_session_id l) (last_sync_seqs l).
Definition set_opencode_session_id x l := mk_link (session_key l) (connection_status l) x (last_sync_seqs l).
Definition set_last_sync_seqs x l := mk_link (session_key l) (connection_status l) (opencode_session_id l) x.

(* chisl-ai-agent/src/manager/remote/agent.rs:72-81 RemoteState *)
Record Parts := mk_parts {
  reasoning_parts : gset string; model_info_emitted : gset string; opencode_tool_call_ids : gset string }.
Definition set_reasoning_parts x p := mk_parts x (model_info_emitted p) (opencode_tool_call_ids p).
Definition set_model_info_emitted x p := mk_parts (reasoning_parts p) x (opencode_tool_call_ids p).
Definition set_opencode_tool_call_ids x p := mk_parts (reasoning_parts p) (model_info_emitted p) x.

(* chisl-ai-agent/src/manager/remote/agent.rs:172-187 RemoteState *)
Record Family := mk_family {
  child_sessions : Subagent.Registry; last_subtask_progress_ms : gmap string Z }.
Definition set_child_sessions x f := mk_family x (last_subtask_progress_ms f).
Definition set_last_subtask_progress_ms x f := mk_family (child_sessions f) x.

(* chisl-ai-agent/src/manager/remote/agent.rs:82-112 RemoteState *)
Record Catalog := mk_catalog {
  desired_model : option json; desired_agent : option string;
  opencode_commands : option (list OpencodeCommands.OpenCodeCommand); opencode_agents : option (list AgentModeOption);
  opencode_skills : option (list RemoteSkillInfo); model_context_limits : option (gmap string Z);
  v2_prompt_available : bool }.
Definition set_desired_model x c := mk_catalog x (desired_agent c) (opencode_commands c) (opencode_agents c) (opencode_skills c) (model_context_limits c) (v2_prompt_available c).
Definition set_desired_agent x c := mk_catalog (desired_model c) x (opencode_commands c) (opencode_agents c) (opencode_skills c) (model_context_limits c) (v2_prompt_available c).
Definition set_opencode_commands x c := mk_catalog (desired_model c) (desired_agent c) x (opencode_agents c) (opencode_skills c) (model_context_limits c) (v2_prompt_available c).
Definition set_opencode_agents x c := mk_catalog (desired_model c) (desired_agent c) (opencode_commands c) x (opencode_skills c) (model_context_limits c) (v2_prompt_available c).
Definition set_opencode_skills x c := mk_catalog (desired_model c) (desired_agent c) (opencode_commands c) (opencode_agents c) x (model_context_limits c) (v2_prompt_available c).
Definition set_model_context_limits x c := mk_catalog (desired_model c) (desired_agent c) (opencode_commands c) (opencode_agents c) (opencode_skills c) x (v2_prompt_available c).
Definition set_v2_prompt_available x c := mk_catalog (desired_model c) (desired_agent c) (opencode_commands c) (opencode_agents c) (opencode_skills c) (model_context_limits c) x.

(** [owed]: the turns that have ended whose [Finish] waits for the buffered text to be flushed. *)
Record RemoteAgent := mk_agent {
  turn : Turn; cards : Cards; blessings : Blessings; replied : Replied; deadlines : Deadlines; link : Link; parts : Parts; family : Family; catalog : Catalog; status : option ConversationStatus.t; last_activity : Z;
  owed : list (option string); log : list Effect }.
Definition on_turn (f : Turn → Turn) (a : RemoteAgent) := mk_agent (f (turn a)) (cards a) (blessings a) (replied a) (deadlines a) (link a) (parts a) (family a) (catalog a) (status a) (last_activity a) (owed a) (log a).
Definition on_cards (f : Cards → Cards) (a : RemoteAgent) := mk_agent (turn a) (f (cards a)) (blessings a) (replied a) (deadlines a) (link a) (parts a) (family a) (catalog a) (status a) (last_activity a) (owed a) (log a).
Definition on_blessings (f : Blessings → Blessings) (a : RemoteAgent) := mk_agent (turn a) (cards a) (f (blessings a)) (replied a) (deadlines a) (link a) (parts a) (family a) (catalog a) (status a) (last_activity a) (owed a) (log a).
Definition on_replied (f : Replied → Replied) (a : RemoteAgent) := mk_agent (turn a) (cards a) (blessings a) (f (replied a)) (deadlines a) (link a) (parts a) (family a) (catalog a) (status a) (last_activity a) (owed a) (log a).
Definition on_deadlines (f : Deadlines → Deadlines) (a : RemoteAgent) := mk_agent (turn a) (cards a) (blessings a) (replied a) (f (deadlines a)) (link a) (parts a) (family a) (catalog a) (status a) (last_activity a) (owed a) (log a).
Definition on_link (f : Link → Link) (a : RemoteAgent) := mk_agent (turn a) (cards a) (blessings a) (replied a) (deadlines a) (f (link a)) (parts a) (family a) (catalog a) (status a) (last_activity a) (owed a) (log a).
Definition on_parts (f : Parts → Parts) (a : RemoteAgent) := mk_agent (turn a) (cards a) (blessings a) (replied a) (deadlines a) (link a) (f (parts a)) (family a) (catalog a) (status a) (last_activity a) (owed a) (log a).
Definition on_family (f : Family → Family) (a : RemoteAgent) := mk_agent (turn a) (cards a) (blessings a) (replied a) (deadlines a) (link a) (parts a) (f (family a)) (catalog a) (status a) (last_activity a) (owed a) (log a).
Definition on_catalog (f : Catalog → Catalog) (a : RemoteAgent) := mk_agent (turn a) (cards a) (blessings a) (replied a) (deadlines a) (link a) (parts a) (family a) (f (catalog a)) (status a) (last_activity a) (owed a) (log a).
Definition on_status (f : option ConversationStatus.t → option ConversationStatus.t) (a : RemoteAgent) := mk_agent (turn a) (cards a) (blessings a) (replied a) (deadlines a) (link a) (parts a) (family a) (catalog a) (f (status a)) (last_activity a) (owed a) (log a).
Definition on_last_activity (f : Z → Z) (a : RemoteAgent) := mk_agent (turn a) (cards a) (blessings a) (replied a) (deadlines a) (link a) (parts a) (family a) (catalog a) (status a) (f (last_activity a)) (owed a) (log a).
Definition on_log (f : list Effect → list Effect) (a : RemoteAgent) := mk_agent (turn a) (cards a) (blessings a) (replied a) (deadlines a) (link a) (parts a) (family a) (catalog a) (status a) (last_activity a) (owed a) (f (log a)).
Definition on_owed (f : list (option string) → list (option string)) (a : RemoteAgent) := mk_agent (turn a) (cards a) (blessings a) (replied a) (deadlines a) (link a) (parts a) (family a) (catalog a) (status a) (last_activity a) (f (owed a)) (log a).

Definition emit (e : AgentStreamEvent.t) : RemoteAgent → RemoteAgent := on_log (λ l, l ++ [Emit e]).
Definition perform (e : Effect) : RemoteAgent → RemoteAgent := on_log (λ l, l ++ [e]).
Definition perform_all (es : list Effect) : RemoteAgent → RemoteAgent := on_log (λ l, l ++ es).
(** [runtime.transition_to] and [bump_activity]. *)
Definition transition_to (st : ConversationStatus.t) : RemoteAgent → RemoteAgent :=
  on_status (λ o, AgentRuntime.status (AgentRuntime.transition_to st (AgentRuntime.mk o 0 []))).
Definition bump_activity (now : Z) : RemoteAgent → RemoteAgent := on_last_activity (λ _, now).

(* chisl-ai-agent/src/manager/remote/agent.rs:1806-1888 RemoteAgentManager::new_with_history *)
Definition new_with_history (workspace : string) (resume_session_id : option string) (now : Z) : RemoteAgent :=
  let normalized_workspace := trim_end_matches slash workspace in
  mk_agent (mk_turn false false false) (mk_cards [] ∅ ∅ ∅)
    (mk_blessings ∅ (if starts_with "/" normalized_workspace then {[normalized_workspace]} else ∅) ∅)
    (mk_replied ∅ ∅ ∅) (mk_deadlines ∅ ∅ ∅) (mk_link None RemoteAgentStatus.Unknown resume_session_id ∅)
    (mk_parts ∅ ∅ ∅) (mk_family ∅ ∅) (mk_catalog None None None None None None false) None now [] [].

(** When HashMap iteration yields exactly one sub-agent still at work. *)
(* chisl-ai-agent/src/manager/remote/agent.rs:1371-1383 infer_parent_for_active_subagent *)
Definition infer_parent_for_active_subagent `{HashIter Subagent.ChildSession} (a : RemoteAgent) : option string :=
  match omap (λ kv, match Subagent.status (snd kv) with None => Some (Subagent.child_session_id (snd kv)) | Some _ => None end)
          (hm_iter (child_sessions (family a))) with
  | [c] => Some c
  | _ => None
  end.
