(* ===== verification/RemotePrompts.v ===== *)
(** * RemotePrompts: what a remote agent asks the user

    Permissions of the server, shell commands and file operations of the local tools,
    elicitations and questions: how they are put to the user, answered ([confirm]), settled
    by the clock ([sweep_expired_prompts]) and by the end of a turn
    ([reject_pending_confirmations]), in [manager/remote/agent.rs].

    A parked tool call is its id in [pending_shell_approvals] or [pending_elicitations]; what
    its oneshot gets is an effect.  The code takes some locks with [try_write] and goes on
    without them: whether it gets them is an argument.  All [now_ms()] of an operation are
    one instant, [now]. *)

From S2P Require Import Prelude.
From S2P Require Import Text.
From S2P Require Import JsonValue.
From S2P Require Import TeamTypes.
From S2P Require Import Common.
From S2P Require Import AgentEvents.
From S2P Require Import OpenCode.
From S2P Require Import RemoteState.
Import OpencodeQuestion(PendingQuestion, QUESTION_REJECT_VALUE, is_question_call_id, parse_question_call_id).

Module McpRequestContext.
(* chisl-ai-agent/src/manager/remote/local_fs_mcp/shell.rs:60-63 McpRequestContext *)
Record t := mk { session_id : option string; parent_session_id : option string }.
End McpRequestContext.
Module PendingPromptInfo.
(* chisl-ai-agent/src/manager/remote/agent.rs:595-604 PendingPromptInfo *)
Record t := mk {
  call_id : string; request_kind : string; expires_at_ms : option Z; tool_call_id : option string; patterns : list string;
  session_id : option string; parent_session_id : option string; title : option string }.
End PendingPromptInfo.

Section prompts.
Context `{JsonCodec} `{HashIter Z} `{HashIter unit} `{HashIter PendingQuestion} `{HashIter Subagent.ChildSession}.
Context (cfg : RemoteAgentConfig.t).

Definition opencode : bool := is_opencode_protocol (RemoteAgentConfig.protocol cfg).
(** The ids of parked calls in the order the map yields them. *)
Definition set_iter (s : gset string) : list string := (hm_iter (gset_to_gmap tt s)).*1.

Definition is_for (id : string) (c : Confirmation.t) : bool := String.eqb (Confirmation.call_id c) id.
Definition find_card (id : string) (a : RemoteAgent) : option Confirmation.t := List.find (is_for id) (confirmations (cards a)).
Definition keep_cards (p : Confirmation.t → bool) : RemoteAgent → RemoteAgent :=
  on_cards (λ c, set_confirmations (List.filter p (confirmations c)) c).
Definition drop_card (id : string) : RemoteAgent → RemoteAgent := keep_cards (λ c, negb (is_for id c)).
(** Replaces the card of the same id. *)
Definition queue_card (c : Confirmation.t) (a : RemoteAgent) : RemoteAgent :=
  on_cards (λ k, set_confirmations (confirmations k ++ [c]) k) (drop_card (Confirmation.call_id c) a).
Definition announce (c : Confirmation.t) : RemoteAgent → RemoteAgent :=
  emit (AgentStreamEvent.AcpPermission (AcpPermissionEventData.Confirmed c)).
(** Not a card of question request [rid]. *)
Definition not_of_request (rid : string) (c : Confirmation.t) : bool :=
  match parse_question_call_id (Confirmation.call_id c) with Some (r, _) => negb (String.eqb r rid) | None => true end.

Definition on_shells (f : gset string → gset string) : RemoteAgent → RemoteAgent :=
  on_cards (λ c, set_pending_shell_approvals (f (pending_shell_approvals c)) c).
Definition on_elicitations (f : gset string → gset string) : RemoteAgent → RemoteAgent :=
  on_cards (λ c, set_pending_elicitations (f (pending_elicitations c)) c).
Definition on_questions (f : gmap string PendingQuestion → gmap string PendingQuestion) : RemoteAgent → RemoteAgent :=
  on_cards (λ c, set_pending_questions (f (pending_questions c)) c).
Definition on_replied_permissions (f : gmap string Z → gmap string Z) : RemoteAgent → RemoteAgent :=
  on_replied (λ r, set_recently_replied_permissions (f (recently_replied_permissions r)) r).
Definition on_replied_questions (f : gmap string Z → gmap string Z) : RemoteAgent → RemoteAgent :=
  on_replied (λ r, set_recently_replied_questions (f (recently_replied_questions r)) r).
Definition remember (key : string) : RemoteAgent → RemoteAgent :=
  on_blessings (λ b, set_approval_memory (<[key := true]> (approval_memory b)) b).
(** The three [remove]s of a prompt that was settled. *)
Definition forget_deadline (id : string) : RemoteAgent → RemoteAgent :=
  on_deadlines (λ d, mk_deadlines (delete id (prompt_expiries d)) (delete id (prompt_tool_call_ids d)) (delete id (prompt_patterns d))).
Definition set_deadline (id : string) (at_ : Z) : RemoteAgent → RemoteAgent :=
  on_deadlines (λ d, set_prompt_expiries (<[id := at_]> (prompt_expiries d)) d).
Definition stamp_question (now : Z) (rid : string) : RemoteAgent → RemoteAgent :=
  on_replied_questions (λ m, prune_replied_map QUESTION_DEDUP_CAP (<[rid := now]> m)).
Definition root_session (a : RemoteAgent) : option string := opencode_session_id (link a).

(* chisl-ai-agent/src/manager/remote/agent.rs:3296-3342 spawn_permission_response *)
Definition spawn_permission_response (can_read : bool) (request_id : string) (session_id : option string) (reply : string)
    (a : RemoteAgent) : RemoteAgent :=
  if opencode
  then perform (ReplyPermission request_id (session_id <|> (if can_read then root_session a else None)) reply) a else a.
(* chisl-ai-agent/src/manager/remote/agent.rs:3348-3387 spawn_question_reply *)
Definition spawn_question_reply (request_id : string) (answers : list (list string)) (a : RemoteAgent) : RemoteAgent :=
  if opencode then perform (ReplyQuestion request_id answers) a else a.
(* chisl-ai-agent/src/manager/remote/agent.rs:3390-3421 spawn_question_reject *)
Definition spawn_question_reject (request_id : string) (a : RemoteAgent) : RemoteAgent :=
  if opencode then perform (RejectQuestion request_id) a else a.
(** A reply to a question that did not get through forgets its stamp. *)
(* chisl-ai-agent/src/manager/remote/agent.rs:3363-3384 spawn_question_reply *)
Definition question_reply_settled (request_id : string) (delivered : bool) : RemoteAgent → RemoteAgent :=
  on_replied_questions (λ m, if delivered then m else delete request_id m).

(* ------------------------------------------------------------------ *)
(** ** Asking *)


Definition choice (label value : string) : ConfirmationOption := mk_option label (Str value) None.
(** The session and the parent a prompt of a local tool is shown under. *)
Definition attribution (ctx : McpRequestContext.t) (a : RemoteAgent) : option string * option string :=
  let session := McpRequestContext.session_id ctx <|> root_session a in
  let parent := McpRequestContext.parent_session_id ctx in
  match McpRequestContext.session_id ctx, parent, infer_parent_for_active_subagent a with
  | None, None, Some child => (Some child, Some child)
  | _, _, _ => (session, parent)
  end.
Definition remembered (key : string) (a : RemoteAgent) : bool := default false (approval_memory (blessings a) !! key).
(** Queues the card of a tool call, parks the call and announces the card. *)
Definition park (c : Confirmation.t) (a : RemoteAgent) : RemoteAgent :=
  announce c (on_shells (λ s, {[Confirmation.call_id c]} ∪ s) (queue_card c a)).

(** [Some]: the tool goes on at once; otherwise it waits for its [AnswerShell]. *)
(* chisl-ai-agent/src/manager/remote/agent.rs:1393-1508 RemoteShellApprover::approve_shell_with_context *)
Definition approve_shell_with_context (uuid shell_hint command cwd : string) (ctx : McpRequestContext.t) (a : RemoteAgent) :
    RemoteAgent * option ShellApproval.t :=
  if remembered shell_approval_key a then (a, Some ShellApproval.Allow) else
  let call_id := "shell-" +:+ uuid in
  let '(session_id, parent) := attribution ctx a in
  (park (Confirmation.mk call_id call_id (Some "Run a command on your machine?") (Some "run_shell")
     (shell_hint +:+ " — " +:+ cwd +:+ nl +:+ nl +:+ "$ " +:+ command) (Some "run_shell")
     [choice "Allow once" "once"; choice "Skip shell prompts (this session)" "always"; choice "Reject" "reject"]
     session_id parent) a, None).
(* chisl-ai-agent/src/manager/remote/agent.rs:1513-1627 RemoteShellApprover::approve_fs_action *)
Definition approve_fs_action (uuid action detail cwd : string) (ctx : McpRequestContext.t) (a : RemoteAgent) :
    RemoteAgent * option ShellApproval.t :=
  if remembered fs_approval_key a then (a, Some ShellApproval.Allow) else
  let call_id := "fsop-" +:+ uuid in
  let '(session_id, parent) := attribution ctx a in
  let title := if String.eqb action "delete_file" then "Delete a file on your machine?"
               else if String.eqb action "rename" then "Rename/move a file on your machine?" else "Modify files on your machine?" in
  (park (Confirmation.mk call_id call_id (Some title) (Some action)
     (action +:+ ": " +:+ detail +:+ nl +:+ nl +:+ "in " +:+ cwd) (Some "fs_destructive")
     [choice "Allow once" "once"; choice "Skip file-change prompts (this session)" "always"; choice "Reject" "reject"]
     session_id parent) a, None).
(** The wait of a parked command that no one answered in time. *)
(* chisl-ai-agent/src/manager/remote/agent.rs:1493-1504 RemoteShellApprover::approve_shell_with_context *)
Definition shell_wait_over (call_id : string) (a : RemoteAgent) : RemoteAgent :=
  if bool_decide (call_id ∈ pending_shell_approvals (cards a))
  then perform (AnswerShell call_id ShellApproval.TimedOut) (drop_card call_id (on_shells (λ s, s ∖ {[call_id]}) a)) else a.
(* chisl-ai-agent/src/manager/remote/agent.rs:1646-1724 RemoteShellApprover::request_elicitation *)
Definition request_elicitation (now : Z) (uuid tool_name message : string) (requested_schema : option json)
    (ctx : McpRequestContext.t) (a : RemoteAgent) : RemoteAgent :=
  let call_id := "elicit-" +:+ uuid in
  let c := Confirmation.mk call_id call_id (Some (tool_name +:+ ": input required")) (Some "mcp_elicitation") message
    (Some "mcp_elicitation")
    [mk_option "Submit" (Str "submit") ((λ s, [("schema", to_string s)]) <$> requested_schema); choice "Cancel" "cancel"]
    (McpRequestContext.session_id ctx) (McpRequestContext.parent_session_id ctx) in
  announce c (set_deadline call_id (sat (now + DEFAULT_PROMPT_TIMEOUT_MS))
    (on_elicitations (λ s, {[call_id]} ∪ s) (queue_card c a))).

(* ------------------------------------------------------------------ *)
(** ** Deadlines *)

(* chisl-ai-agent/src/manager/remote/agent.rs:6379-6473 synthesize_timeout_reject *)
Definition synthesize_timeout_reject (now : Z) (can_write : bool) (call_id : string) (a : RemoteAgent) : RemoteAgent :=
  let http fallback a := if opencode then perform (ReplyPermission call_id fallback "reject") a else a in
  if negb can_write then http None a
  else if bool_decide (call_id ∈ pending_shell_approvals (cards a)) then
    forget_deadline call_id (perform (AnswerShell call_id ShellApproval.Reject)
      (drop_card call_id (on_shells (λ s, s ∖ {[call_id]}) a)))
  else if bool_decide (call_id ∈ pending_elicitations (cards a)) then
    forget_deadline call_id (perform (AnswerElicitation call_id None)
      (drop_card call_id (on_elicitations (λ s, s ∖ {[call_id]}) a)))
  else match (if is_question_call_id call_id then parse_question_call_id call_id else None) with
  | Some (request_id, _) =>
      spawn_question_reject request_id (forget_deadline call_id (stamp_question now request_id
        (keep_cards (not_of_request request_id) (on_questions (delete request_id) a))))
  | None =>
      let fallback := (find_card call_id a ≫= Confirmation.session_id) <|> root_session a in
      http fallback (forget_deadline call_id (on_replied_permissions (<[call_id := now]>) (drop_card call_id a)))
  end.
(* chisl-ai-agent/src/manager/remote/agent.rs:6334-6373 sweep_expired_prompts *)
Definition sweep_expired_prompts (now : Z) (can_read : bool) (can_write : string → bool) (a : RemoteAgent) :
    RemoteAgent * list string :=
  if negb can_read then (a, []) else
  let expired := (List.filter (λ kv, snd kv <=? now) (hm_iter (prompt_expiries (deadlines a)))).*1 in
  (foldl (λ a id, synthesize_timeout_reject now (can_write id) id a) a expired, expired).

(* ------------------------------------------------------------------ *)
(** ** The end of a turn *)

(* chisl-ai-agent/src/manager/remote/agent.rs:6537-6675 reject_pending_confirmations *)
Definition reject_pending_confirmations (now : Z) (a : RemoteAgent) : RemoteAgent :=
  let c := cards a in
  if bool_decide (confirmations c = []) && bool_decide (pending_shell_approvals c = ∅) && bool_decide (pending_elicitations c = ∅)
  then a else
  let shells := set_iter (pending_shell_approvals c) in
  let elicitations := set_iter (pending_elicitations c) in
  let opencode_call_ids := List.filter (λ k, negb (one_of (Confirmation.call_id k) (shells ++ elicitations)) &&
                                             negb (is_question_call_id (Confirmation.call_id k))) (confirmations c) in
  let question_ids := (hm_iter (pending_questions c)).*1 in
  let a := on_replied_questions (λ m, prune_replied_map QUESTION_DEDUP_CAP (foldl (λ m id, <[id := now]> m) m question_ids)) a in
  let a := on_deadlines (λ _, mk_deadlines ∅ ∅ ∅) a in
  let a := on_cards (λ _, mk_cards [] ∅ ∅ ∅) a in
  let a := foldl (λ a id, spawn_question_reject id a) a question_ids in
  let a := perform_all (map (λ id, AnswerShell id ShellApproval.Reject) shells ++
                        map (λ id, AnswerElicitation id None) elicitations) a in
  if opencode
  then perform_all (map (λ k, ReplyPermission (Confirmation.call_id k) (Confirmation.session_id k <|> root_session a) "reject")
                        opencode_call_ids) a
  else a.
(* chisl-ai-agent/src/manager/remote/agent.rs:6515-6535 replay_pending_confirmations *)
Definition replay_pending_confirmations (a : RemoteAgent) : RemoteAgent :=
  foldl (λ a c, announce c a) a (confirmations (cards a)).

(* ------------------------------------------------------------------ *)
(** ** Answering *)

Definition wire_values : list string := ["once"; "always"; "reject"; "allow_dir"; "allow_session"].
Definition raw_reply_of (data : json) : option string := as_str data <|> str_field "value" data.
(* chisl-ai-agent/src/manager/remote/agent.rs:5864-5878 confirm *)
Definition reply_of (data : json) (always_allow : bool) : string :=
  let fallback := if always_allow then "always" else "once" in
  match raw_reply_of data with Some r => if one_of r wire_values then r else fallback | None => fallback end.
Definition extra (k : string) (data : json) : option string := (path_field ["params"; k] data <|> field k data) ≫= as_str.

(** A question of a request: the card goes, the answer is kept until all are there. *)
(* chisl-ai-agent/src/manager/remote/agent.rs:5953-6005 confirm *)
Definition confirm_question (now : Z) (call_id request_id : string) (index : nat) (raw_reply : option string) (a : RemoteAgent) :
    RemoteAgent :=
  let a := drop_card call_id a in
  let chosen := default EmptyString raw_reply in
  if String.eqb chosen QUESTION_REJECT_VALUE then
    spawn_question_reject request_id (stamp_question now request_id
      (keep_cards (not_of_request request_id) (on_questions (delete request_id) a)))
  else match pending_questions (cards a) !! request_id with
  | None => a
  | Some p =>
      let '(p, _) := OpencodeQuestion.record index [chosen] p in
      let a := on_questions (<[request_id := p]>) a in
      if OpencodeQuestion.is_complete p
      then spawn_question_reply request_id (OpencodeQuestion.collected p)
             (stamp_question now request_id (on_questions (delete request_id) a))
      else a
  end.
(** What is done under the first lock: the answer is dealt with, or a permission of the server
    is left, with its card. *)
(* chisl-ai-agent/src/manager/remote/agent.rs:5899-6037 confirm *)
Definition confirm_locked (now : Z) (call_id : string) (data : json) (reply : string) (a : RemoteAgent) :
    RemoteAgent * option (option Confirmation.t) :=
  if bool_decide (call_id ∈ pending_shell_approvals (cards a)) then
    let a := on_shells (λ s, s ∖ {[call_id]}) a in
    let a := if String.eqb reply "always"
             then remember (if starts_with "fsop-" call_id then fs_approval_key else shell_approval_key) a else a in
    (perform (AnswerShell call_id (if String.eqb reply "reject" then ShellApproval.Reject else ShellApproval.Allow))
       (drop_card call_id a), None)
  else if bool_decide (call_id ∈ pending_elicitations (cards a)) then
    (perform (AnswerElicitation call_id
        (if one_of reply ["cancel"; "reject"] then None else Some (default data (field "payload" data))))
       (drop_card call_id (on_elicitations (λ s, s ∖ {[call_id]}) a)), None)
  else match (if is_question_call_id call_id then parse_question_call_id call_id else None) with
  | Some (request_id, index) => (confirm_question now call_id request_id index (raw_reply_of data) a, None)
  | None =>
      let card := find_card call_id a in
      let a := match card with
               | Some c => if String.eqb reply "always" then remember (approval_key (Confirmation.action c) (Confirmation.command_type c)) a else a
               | None => a end in
      (drop_card call_id a, Some card)
  end.

(** The cards a blessing covers besides the one that was answered. *)
Definition covered (call_id : string) (a : RemoteAgent) (c : Confirmation.t) : bool :=
  negb (is_for call_id c) &&
  ((negb (bool_decide (auto_accept_paths (blessings a) = ∅)) &&
    path_is_under_blessed (Confirmation.description c) (auto_accept_paths (blessings a))) ||
   match Confirmation.session_id c with
   | Some sid => session_or_ancestor_blessed sid (auto_accept_sessions (blessings a)) (child_sessions (family a))
   | None => false
   end).
(* chisl-ai-agent/src/manager/remote/agent.rs:6040-6112 confirm *)
Definition bless_and_drain (now : Z) (call_id : string) (data : json) (reply : string) (a : RemoteAgent) :
    RemoteAgent * list (string * option string) :=
  let a := if String.eqb reply "allow_dir"
    then match extra "path" data with
         | Some p => on_blessings (λ b, set_auto_accept_paths ({[trim_end_matches slash p]} ∪ auto_accept_paths b) b) a
         | None => a end
    else match extra "sessionID" data with
         | Some sid => on_blessings (λ b, set_auto_accept_sessions ({[sid]} ∪ auto_accept_sessions b) b) a
         | None => a end in
  let to_drain := map (λ c, (Confirmation.call_id c, Confirmation.session_id c)) (List.filter (covered call_id a) (confirmations (cards a))) in
  let a := keep_cards (λ c, negb (is_for call_id c) && negb (covered call_id a c)) a in
  (on_replied_permissions (λ m, foldl (λ m d, <[fst d := now]> m) m to_drain) a, to_drain).

Definition REPLY_DEDUP_TTL_MS : Z := 60000.
(** [true]: the id was replied to a moment ago; otherwise it is stamped. *)
(* chisl-ai-agent/src/manager/remote/agent.rs:6114-6150 confirm *)
Definition check_replied (now : Z) (call_id : string) (a : RemoteAgent) : RemoteAgent * bool :=
  let recent := prune_replied_map QUESTION_DEDUP_CAP
    (filter (λ kv, sat (now - snd kv) < REPLY_DEDUP_TTL_MS) (recently_replied_permissions (replied a))) in
  match recent !! call_id with
  | Some _ => (on_replied_permissions (λ _, recent) a, true)
  | None => (on_replied_permissions (λ _, <[call_id := now]> recent) a, false)
  end.

(** Which of its locks a call of [confirm] gets. *)
Record Locks := mk_locks { first_write : bool; second_write : bool; third_write : bool; last_read : bool }.
Definition all_free : Locks := mk_locks true true true true.

(** The reply that is under way, with the card to put back. *)
Record InFlight := mk_in_flight { reply_call_id : string; requeue_card : option Confirmation.t }.

(* chisl-ai-agent/src/manager/remote/agent.rs:5850-6290 confirm *)
Definition confirm (now : Z) (l : Locks) (call_id : string) (data : json) (always_allow : bool) (a : RemoteAgent) :
    RemoteAgent * option InFlight :=
  let reply := reply_of data always_allow in
  match (if first_write l then confirm_locked now call_id data reply a else (a, Some None)) with
  | (a, None) => (a, None)
  | (a, Some card) =>
      let '(a, drain_now) :=
        if one_of reply ["allow_dir"; "allow_session"] && second_write l then bless_and_drain now call_id data reply a else (a, []) in
      if negb opencode then (a, None) else
      let '(a, already_replied) := if third_write l then check_replied now call_id a else (a, false) in
      if already_replied then (a, None) else
      let wire_reply := if one_of reply ["allow_dir"; "allow_session"] then "once" else reply in
      let a := foldl (λ a d, spawn_permission_response (last_read l) (fst d) (snd d) "once" a) a drain_now in
      let fallback_session := (card ≫= Confirmation.session_id) <|> (if last_read l then root_session a else None) in
      (perform (ReplyPermission call_id fallback_session wire_reply) a, Some (mk_in_flight call_id card))
  end.
(** The end of the task [confirm] spawns: a reply that reached no endpoint puts its card back, once. *)
(* chisl-ai-agent/src/manager/remote/agent.rs:6215-6278 confirm *)
Definition permission_reply_settled (f : InFlight) (outcome : PermissionReplyOutcome.t) (a : RemoteAgent) : RemoteAgent :=
  let id := reply_call_id f in
  let a := on_replied_permissions (delete id) a in
  match outcome with
  | PermissionReplyOutcome.Delivered _ _ => on_replied (λ r, set_requeued_permissions (requeued_permissions r ∖ {[id]}) r) a
  | PermissionReplyOutcome.Failed =>
      let first_requeue := negb (bool_decide (id ∈ requeued_permissions (replied a))) in
      let a := on_replied (λ r, set_requeued_permissions ({[id]} ∪ requeued_permissions r) r) a in
      match requeue_card f, first_requeue with
      | Some card, true =>
          let a := match find_card id a with
                   | Some _ => a
                   | None => on_cards (λ k, set_confirmations (confirmations k ++ [card]) k) a end in
          announce card a
      | _, _ => a
      end
  end.

(* ------------------------------------------------------------------ *)
(** ** Looking *)

(* chisl-ai-agent/src/manager/remote/agent.rs:6303-6326 get_pending_prompts *)
Definition get_pending_prompts (can_read : bool) (a : RemoteAgent) : list PendingPromptInfo.t :=
  if negb can_read then [] else
  map (λ c, let id := Confirmation.call_id c in
    PendingPromptInfo.mk id (prompt_kind_for id (Confirmation.action c)) (prompt_expiries (deadlines a) !! id)
      (prompt_tool_call_ids (deadlines a) !! id) (default [] (prompt_patterns (deadlines a) !! id))
      (Confirmation.session_id c) (Confirmation.parent_session_id c) (Confirmation.title c)) (confirmations (cards a)).
(* chisl-ai-agent/src/manager/remote/agent.rs:6292-6297 get_confirmations *)
Definition get_confirmations (can_read : bool) (a : RemoteAgent) : list Confirmation.t :=
  if can_read then confirmations (cards a) else [].
(* chisl-ai-agent/src/manager/remote/agent.rs:6485-6493 check_approval *)
Definition check_approval (can_read : bool) (action : string) (command_type : option string) (a : RemoteAgent) : bool :=
  can_read && remembered (approval_key (Some action) command_type) a.
End prompts.
