(* ===== verification/RemoteEvents.v ===== *)
(** * RemoteEvents: what a remote agent does with the events of its server

    [handle_opencode_sse_event] of [manager/remote/agent.rs]: which sessions' events concern
    the agent ([gate]), one definition per kind of event, what is fetched again after a gap
    ([backfill_child_sessions], [backfill_sync_history]), and the agent as the
    [RemoteSse.EventSink] its reader feeds.  What the surroundings decide while an event is
    handled (the clock, the locks that are free, a fetched table) is a [Moment]. *)

From S2P Require Import Prelude.
From S2P Require Import Text.
From S2P Require Import TeamTypes.
From S2P Require Import JsonValue.
From S2P Require Import Common.
From S2P Require Import AgentEvents.
From S2P Require Import OpenCode.
From S2P Require Import RemoteSse.
From S2P Require Import RemoteState.
From S2P Require Import RemotePrompts.
Import OpencodeQuestion(PendingQuestion).

(** [now_ms()]; whether the sweep gets the state to read, and to write for a prompt; whether a
    reply sent without a prompt does; what [fetch_context_limits] returns; whether something else
   happens while the handler waits for [flush_all]. *)
Record Moment := mk_moment {
  now : Z; can_read : bool; can_write : string → bool; reply_can_read : bool; fetched_limits : gmap string Z;
  flush_waits : bool }.

(** Whose event it is. *)
Record Scope := mk_scope { session_id : option string; is_child : bool; parent_session_id : option string }.

(** [a] or [b] of an object, whichever there is first, as a string. *)
Definition either_str (a b : string) (v : json) : string := default EmptyString ((field a v <|> field b v) ≫= as_str).

(* chisl-ai-agent/src/manager/remote/agent.rs:3581-3600 context_limit_for *)
Definition context_limit_for (fetched : gmap string Z) (model_id : string) (a : RemoteAgent) : RemoteAgent * Z :=
  match model_context_limits (catalog a) with
  | Some cached => (a, default 0 (cached !! model_id))
  | None => (on_catalog (set_model_context_limits (Some fetched)) a, default 0 (fetched !! model_id))
  end.
(** [HashSet::insert]. *)
Definition insert_new (x : string) (s : gset string) : gset string * bool := ({[x]} ∪ s, negb (bool_decide (x ∈ s))).

(** What follows when the buffered text is flushed. *)
(* chisl-ai-agent/src/manager/remote/agent.rs:3796-3799 emit_root_turn_finish *)
Definition announce_finish (session_id : option string) (a : RemoteAgent) : RemoteAgent :=
  perform ReleaseTurn (transition_to ConversationStatus.Finished (emit (AgentStreamEvent.Finish session_id) a)).
(** The state is locked for the flags only.  When something else happens before [flush_all]
    returns, the rest of the method is owed: [finish_flushed] below. *)
(* chisl-ai-agent/src/manager/remote/agent.rs:3779-3800 emit_root_turn_finish *)
Definition emit_root_turn_finish (m : Moment) (session_id : option string) (a : RemoteAgent) : RemoteAgent :=
  if negb (root_turn_active (turn a)) then a else
  let a := perform FlushAll (on_turn (λ t, set_finished_current_user_turn true (set_root_turn_active false t)) a) in
  if flush_waits m then on_owed (λ l, l ++ [session_id]) a else announce_finish session_id a.
(** [flush_all] returns to the [i]-th handler that waits for it. *)
(* chisl-ai-agent/src/manager/remote/agent.rs:3795-3799 emit_root_turn_finish *)
Definition finish_flushed (i : nat) (a : RemoteAgent) : RemoteAgent :=
  match owed a !! i with
  | Some session_id => announce_finish session_id (on_owed (λ l, delete i l) a)
  | None => a
  end.
(** [mark_completed] and, when it marked something, the event. *)
(* chisl-ai-agent/src/manager/remote/agent.rs:2338-2354 handle_opencode_sse_event *)
Definition child_done (child_id parent : option string) (st : OpencodeSubtaskStatus.t) (now : Z) (summary : option string)
    (a : RemoteAgent) : RemoteAgent :=
  match child_id, parent with
  | Some child_id, Some parent =>
      match Subagent.mark_completed (child_sessions (family a)) child_id st now with
      | Some (child, reg) => emit (Subagent.emit_completed parent child summary) (on_family (set_child_sessions reg) a)
      | None => a
      end
  | _, _ => a
  end.
(* chisl-ai-agent/src/manager/remote/agent.rs:3260-3280 tick_subagent_progress *)
Definition tick_subagent_progress (now : Z) (parent_id child_id part_id : string) (tool_name : option string) (a : RemoteAgent) :
    RemoteAgent :=
  let '(changed, reg) := Subagent.note_tool_part (child_sessions (family a)) child_id part_id tool_name now in
  let last_ms := default 0 (last_subtask_progress_ms (family a) !! child_id) in
  let a := on_family (set_child_sessions reg) a in
  match reg !! child_id with
  | Some child =>
      if changed && (500 <=? sat (now - last_ms))
      then emit (Subagent.emit_progress parent_id child)
             (on_family (λ f, set_last_subtask_progress_ms (<[child_id := now]> (last_subtask_progress_ms f)) f) a)
      else a
  | None => a
  end.

(** An entry of [/sync/history]. *)
(* chisl-ai-agent/src/manager/remote/opencode_sync.rs:23-29 SyncEvent *)
Record SyncEvent := mk_sync_event { sync_id : string; aggregate_id : string; seq : Z; event_type : string; data : json }.
(* chisl-ai-agent/src/manager/remote/opencode_sync.rs:67-91 parse_sync_events *)
Definition parse_sync_events (val : json) : result (list SyncEvent) AppError.t :=
  match as_array val with
  | None => Err (AppError.BadGateway "OpenCode sync/history response was not an array")
  | Some arr =>
      let text k item := default EmptyString (str_field k item) in
      Ok (map (λ item, mk_sync_event (text "id" item) (text "aggregate_id" item) (default 0 (field "seq" item ≫= as_u64))
                (text "type" item) (default Null (field "data" item))) arr)
  end.

Section events.
Context `{JsonCodec} `{Unicode} `{HashIter Z} `{HashIter unit} `{HashIter PendingQuestion} `{HashIter Subagent.ChildSession}.
Context (cfg : RemoteAgentConfig.t).

(* ------------------------------------------------------------------ *)
(** ** The session *)

(* chisl-ai-agent/src/manager/remote/agent.rs:2303-2328 handle_opencode_sse_event *)
Definition on_busy (m : Moment) (s : Scope) (a : RemoteAgent) : RemoteAgent :=
  let a := emit (AgentStreamEvent.Start (session_id s)) (bump_activity (now m) a) in
  let a := on_link (λ l, set_connection_status RemoteAgentStatus.Connected
             (match session_id s with Some sid => set_session_key (Some sid) l | None => l end)) a in
  if negb (is_child s) && negb (finished_current_user_turn (turn a)) then on_turn (set_root_turn_active true) a else a.
(* chisl-ai-agent/src/manager/remote/agent.rs:2329-2358 handle_opencode_sse_event *)
Definition on_idle (m : Moment) (s : Scope) (a : RemoteAgent) : RemoteAgent :=
  if is_child s then child_done (session_id s) (parent_session_id s) OpencodeSubtaskStatus.Completed (now m) None a
  else emit_root_turn_finish m (session_id s) a.
(* chisl-ai-agent/src/manager/remote/agent.rs:2291-2361 handle_opencode_sse_event *)
Definition on_session_status (m : Moment) (s : Scope) (props : json) (a : RemoteAgent) : RemoteAgent :=
  let status_type := path_field ["status"; "type"] props ≫= as_str in
  let a := match session_id s with
           | Some sid => let '(status, reason) := opencode_status status_type in
                         emit (AgentStreamEvent.SessionStatus (SessionStatusEventData.mk sid status reason)) a
           | None => a end in
  match status_type with
  | Some st => if String.eqb st "busy" then on_busy m s a else if String.eqb st "idle" then on_idle m s a else a
  | None => a
  end.
(* chisl-ai-agent/src/manager/remote/agent.rs:2362-2394 handle_opencode_sse_event *)
Definition on_session_idle (m : Moment) (s : Scope) (props : json) (a : RemoteAgent) : RemoteAgent :=
  let a := match session_id s with
           | Some sid => emit (AgentStreamEvent.SessionIdle (SessionIdleEventData.mk sid (opencode_idle_reason props)
                                (default (now m) (field "at" props ≫= as_i64)))) a
           | None => a end in
  on_idle m s a.
(* chisl-ai-agent/src/manager/remote/agent.rs:2395-2467 handle_opencode_sse_event *)
Definition on_session_error (m : Moment) (s : Scope) (props : json) (a : RemoteAgent) : RemoteAgent :=
  let e := typed_error_from_props props in
  if is_child s then
    child_done (session_id s) (parent_session_id s) OpencodeSubtaskStatus.Failed (now m) (Some (TypedErrorData.message e)) a
  else
    let message_id := either_str "messageID" "messageId" props in
    let part_id := either_str "partID" "partId" props in
    if TypedErrorData.recoverable e && negb (String.eqb message_id EmptyString) && negb (String.eqb part_id EmptyString) then
      emit (AgentStreamEvent.SessionErrorRecovered (SessionErrorRecoveredEventData.mk message_id part_id e
        (default "retry" ((field "recoveryAction" props <|> field "recovery_action" props) ≫= as_str)))) a
    else
      transition_to ConversationStatus.Finished (emit (AgentStreamEvent.Error (ErrorEventData.mk (TypedErrorData.message e) None
        (Some (TypedErrorData.kind e)) (TypedErrorData.metadata e) (Some (TypedErrorData.recoverable e)))) a).
(* chisl-ai-agent/src/manager/remote/agent.rs:2468-2516 handle_opencode_sse_event *)
Definition on_retried (props : json) (a : RemoteAgent) : RemoteAgent :=
  let error := default Null (field "error" props) in
  let of_either a b := default EmptyString ((field a props <|> field b props <|> field a error <|> field b error) ≫= as_str) in
  let message_id := of_either "messageID" "messageId" in
  let part_id := of_either "partID" "partId" in
  if String.eqb message_id EmptyString || String.eqb part_id EmptyString then a else
  emit (AgentStreamEvent.Retry (RetryEventData.mk message_id part_id (default 1 (field "attempt" props ≫= as_u64))
    (retry_reason ((field "reason" props <|> field "reason" error <|> field "type" error) ≫= as_str))
    ((field "retryAfter" props <|> field "retry_after" props) ≫= as_u64)
    ((field "providerHint" props <|> field "provider_hint" props <|> field "providerID" error <|> field "providerId" error) ≫= as_str)
    None)) a.
(* chisl-ai-agent/src/manager/remote/agent.rs:2517-2547 handle_opencode_sse_event *)
Definition on_model_switched (props : json) (a : RemoteAgent) : RemoteAgent :=
  let of_model k d := default d (path_field ["model"; k] props ≫= as_str) in
  let provider_id := of_model "providerID" "opencode-go" in
  let model_id := of_model "id" EmptyString in
  emit (AgentStreamEvent.AcpModelInfo (Obj [("current_model_id", Str model_id);
                                            ("current_model_label", Str (provider_id +:+ "/" +:+ model_id))]))
    (on_catalog (set_desired_model (Some (Obj [("modelID", Str model_id); ("providerID", Str provider_id);
                                               ("variant", Str (of_model "variant" "default"))]))) a).
(* chisl-ai-agent/src/manager/remote/agent.rs:2548-2555 handle_opencode_sse_event *)
Definition on_agent_switched (props : json) (a : RemoteAgent) : RemoteAgent :=
  let agent := default "build" (str_field "agent" props) in
  emit (AgentStreamEvent.AcpModeInfo (Obj [("mode", Str agent)])) (on_catalog (set_desired_agent (Some agent)) a).
(* chisl-ai-agent/src/manager/remote/agent.rs:3202-3228 handle_opencode_sse_event *)
Definition on_compacted (props : json) (a : RemoteAgent) : RemoteAgent :=
  emit (AgentStreamEvent.OpencodeSessionCompacted (OpencodeSessionCompactedData.mk
    (default EmptyString (str_field "summary" props)) (default 0 (field "tokensReclaimed" props ≫= as_u64))
    (default EmptyString (path_field ["originalRange"; "startMessageId"] props ≫= as_str))
    (default EmptyString (path_field ["originalRange"; "endMessageId"] props ≫= as_str)))) a.

(* ------------------------------------------------------------------ *)
(** ** Messages *)

(* chisl-ai-agent/src/manager/remote/agent.rs:2556-2577 handle_opencode_sse_event *)
Definition on_part_delta (props : json) (a : RemoteAgent) : RemoteAgent :=
  match str_field "field" props, str_field "delta" props with
  | Some fld, Some delta =>
      if negb (String.eqb fld "text") then a else
      let part_id := default EmptyString (str_field "partID" props) in
      perform (PushDelta (default EmptyString (str_field "messageID" props)) part_id fld delta
                (bool_decide (part_id ∈ reasoning_parts (parts a)))) a
  | _, _ => a
  end.
Definition with_kind (k : AcpToolCallSessionUpdateKind.t) (d : AcpToolCallEventData.t) : AcpToolCallEventData.t :=
  let u := AcpToolCallEventData.update d in
  AcpToolCallEventData.mk (AcpToolCallEventData.session_id d) (AcpToolCallEventData.parent_session_id d)
    (AcpToolCallUpdateData.mk k (AcpToolCallUpdateData.tool_call_id u) (AcpToolCallUpdateData.status u)
      (AcpToolCallUpdateData.title u) (AcpToolCallUpdateData.kind u) (AcpToolCallUpdateData.raw_input u)
      (AcpToolCallUpdateData.raw_output u) (AcpToolCallUpdateData.content u) (AcpToolCallUpdateData.locations u))
    (AcpToolCallEventData.meta d).
(* chisl-ai-agent/src/manager/remote/agent.rs:2597-2715 handle_opencode_sse_event *)
Definition on_tool_part (m : Moment) (s : Scope) (props part : json) (a : RemoteAgent) : RemoteAgent :=
  match OpencodeToolCall.translate_message_part_updated props (session_id s) (parent_session_id s) with
  | None => a
  | Some event =>
      let id := AcpToolCallUpdateData.tool_call_id (AcpToolCallEventData.update event) in
      let '(seen, is_first) := insert_new id (opencode_tool_call_ids (parts a)) in
      let a := on_parts (set_opencode_tool_call_ids seen) a in
      let a := emit (AgentStreamEvent.AcpToolCall (if is_first then with_kind AcpToolCallSessionUpdateKind.ToolCall event else event)) a in
      let a := match is_child s, session_id s, parent_session_id s with
               | true, Some child_id, Some parent_id =>
                   tick_subagent_progress (now m) parent_id child_id (default EmptyString (str_field "callID" part)) (str_field "tool" part) a
               | _, _, _ => a end in
      if OpencodeToolCall.is_edit_tool (default EmptyString (str_field "tool" part)) then
        perform (RunVerification id)
          (match OpencodeToolCall.extract_patch_from_completed props with Some patch => perform (CaptureEditInverse id patch) a | None => a end)
      else a
  end.
(* chisl-ai-agent/src/manager/remote/agent.rs:2578-2719 handle_opencode_sse_event *)
Definition on_part_updated (m : Moment) (s : Scope) (props : json) (a : RemoteAgent) : RemoteAgent :=
  match field "part" props with
  | None => a
  | Some part =>
      let part_id := str_field "id" part in
      let a := match part_id with Some id => perform (FlushPart id) a | None => a end in
      match str_field "type" part with
      | Some ty =>
          if String.eqb ty "reasoning" then
            match part_id with
            | Some id => on_parts (λ p, set_reasoning_parts ({[id]} ∪ reasoning_parts p) p) a
            | None => a end
          else if String.eqb ty "tool" then on_tool_part m s props part a
          else a
      | None => a
      end
  end.
(* chisl-ai-agent/src/manager/remote/agent.rs:2720-2789 handle_opencode_sse_event *)
Definition on_message_updated (m : Moment) (s : Scope) (props : json) (a : RemoteAgent) : RemoteAgent :=
  match field "info" props with
  | None => a
  | Some info =>
      if negb (bool_decide (str_field "role" info = Some "assistant")) then a else
      let a := match str_field "id" info, str_field "modelID" info, str_field "providerID" info with
        | Some message_id, Some model_id, Some provider_id =>
            let '(emitted, fresh) := insert_new message_id (model_info_emitted (parts a)) in
            let a := on_parts (set_model_info_emitted emitted) a in
            if fresh then emit (AgentStreamEvent.AssistantModelInfo (AssistantModelInfoEventData.mk message_id provider_id model_id)) a else a
        | _, _, _ => a end in
      if bool_decide (str_field "finish" info = Some "stop") && negb (is_child s) then
        let a := match field "tokens" info with
          | Some tokens =>
              let used := OpencodeModels.context_tokens_used tokens in
              if 0 <? used then
                let '(a, size) := match str_field "modelID" info with
                  | Some model_id => context_limit_for (fetched_limits m) model_id a | None => (a, 0) end in
                emit (AgentStreamEvent.AcpContextUsage (Obj [("size", num size); ("used", num used)])) a
              else a
          | None => a end in
        emit_root_turn_finish m (session_id s) a
      else a
  end.
(* chisl-ai-agent/src/manager/remote/agent.rs:2790-2803 handle_opencode_sse_event *)
Definition on_todo_updated (s : Scope) (props : json) (a : RemoteAgent) : RemoteAgent :=
  match extract_opencode_todo_entries props with
  | Some entries => emit (AgentStreamEvent.Plan (PlanEventData.mk (session_id s) entries)) a
  | None => a
  end.
Definition emit_some (e : option AgentStreamEvent.t) (a : RemoteAgent) : RemoteAgent := match e with Some e => emit e a | None => a end.
(* chisl-ai-agent/src/manager/remote/agent.rs:3005-3041 handle_opencode_sse_event *)
Definition on_tool_stream (m : Moment) (s : Scope) (event_type : string) (is_progress : bool) (props : json) (a : RemoteAgent) : RemoteAgent :=
  match session_id s with
  | None => a
  | Some sid => emit_some (if is_progress then OpencodeStream.translate_tool_progress props sid (parent_session_id s) (now m)
                           else OpencodeStream.translate_tool_input event_type props sid (parent_session_id s)) a
  end.

(* ------------------------------------------------------------------ *)
(** ** Prompts *)

Definition strings_of (v : option json) : list string := omap as_str (default [] (v ≫= as_array)).
(** The command, the description, the file; or what there is of the metadata and the patterns. *)
(* chisl-ai-agent/src/manager/remote/agent.rs:2889-2907 handle_opencode_sse_event *)
Definition permission_text (metadata : json) (patterns : list string) : string :=
  let shown := str_field "command" metadata <|> str_field "description" metadata <|> str_field "filePath" metadata <|>
               extract_permission_target_path metadata in
  match shown with
  | Some t => t
  | None => match as_object metadata with
            | Some (_ :: _) => to_string metadata
            | _ => str_join ", " patterns end
  end.
(* chisl-ai-agent/src/manager/remote/agent.rs:2917-2955 handle_opencode_sse_event *)
Definition permission_options (s : Scope) (target_path : option string) : list ConfirmationOption :=
  [choice "Allow once" "once"] ++
  match target_path with
  | Some p => [mk_option "Allow this directory tree (session)" (Str "allow_dir") (Some [("path", p)])] | None => [] end ++
  match session_id s, parent_session_id s with
  | Some sid, Some _ => [mk_option "Allow rest of this sub-agent" (Str "allow_session") (Some [("sessionID", sid)])] | _, _ => [] end ++
  [choice "Allow always" "always"; choice "Reject" "reject"].
(** Whether the user has allowed the directory or the session before. *)
(* chisl-ai-agent/src/manager/remote/agent.rs:2850-2863 handle_opencode_sse_event *)
Definition auto_accept_hit (s : Scope) (target_path : option string) (a : RemoteAgent) : bool :=
  match target_path with Some t => path_is_under_blessed t (auto_accept_paths (blessings a)) | None => false end ||
  match session_id s with
  | Some sid => session_or_ancestor_blessed sid (auto_accept_sessions (blessings a)) (child_sessions (family a))
  | None => false end.
(* chisl-ai-agent/src/manager/remote/agent.rs:2804-3004 handle_opencode_sse_event *)
Definition on_permission_asked (m : Moment) (s : Scope) (props : json) (a : RemoteAgent) : RemoteAgent :=
  match str_field "id" props with
  | None => a
  | Some request_id =>
      let permission := default EmptyString (str_field "permission" props) in
      let metadata := default (Obj []) (field "metadata" props) in
      let patterns := strings_of (field "patterns" props) in
      let tool_call_id := (field "toolCallID" props <|> field "tool_call_id" props <|> field "messageID" props) ≫= as_str in
      let target_path := extract_permission_target_path metadata in
      if auto_accept_hit s target_path a then
        on_replied_permissions (<[request_id := now m]>) (spawn_permission_response cfg (reply_can_read m) request_id (session_id s) "once" a)
      else
      let expires_at_ms := sat (now m + DEFAULT_PROMPT_TIMEOUT_MS) in
      let c := Confirmation.mk request_id request_id
        (Some (if String.eqb permission EmptyString then "OpenCode permission request" else "OpenCode wants to: " +:+ permission))
        (Some permission) (permission_text metadata patterns +:+ meta_marker_for tool_call_id patterns expires_at_ms)
        (Some permission) (permission_options s target_path) (session_id s) (parent_session_id s) in
      let note := λ d, mk_deadlines (<[request_id := expires_at_ms]> (prompt_expiries d))
        (match tool_call_id with Some t => <[request_id := t]> (prompt_tool_call_ids d) | None => prompt_tool_call_ids d end)
        (if bool_decide (patterns = []) then prompt_patterns d else <[request_id := patterns]> (prompt_patterns d)) in
      announce c (on_deadlines note (queue_card c a))
  end.
(** [requestID] or [id] of an answer. *)
Definition answered_id (props : json) : option string := str_field "requestID" props <|> str_field "id" props.
(* chisl-ai-agent/src/manager/remote/agent.rs:3150-3178 handle_opencode_sse_event *)
Definition on_permission_replied (m : Moment) (props : json) (a : RemoteAgent) : RemoteAgent :=
  match answered_id props with
  | Some id => on_replied_permissions (<[id := now m]>) (drop_card id a)
  | None => a
  end.
(* chisl-ai-agent/src/manager/remote/agent.rs:3042-3102 handle_opencode_sse_event *)
Definition on_question_asked (m : Moment) (props : json) (a : RemoteAgent) : RemoteAgent :=
  match OpencodeQuestion.parse_question_request props with
  | None => a
  | Some parsed =>
      let id := OpencodeQuestion.request_id parsed in
      if bool_decide (is_Some (recently_replied_questions (replied a) !! id)) || bool_decide (is_Some (pending_questions (cards a) !! id)) then a else
      let cs := OpencodeQuestion.build_question_confirmations parsed in
      let expires := sat (now m + DEFAULT_PROMPT_TIMEOUT_MS) in
      let a := on_questions (<[id := OpencodeQuestion.new parsed]>) a in
      let a := foldl (λ a c, set_deadline (Confirmation.call_id c) expires (queue_card c a)) a cs in
      foldl (λ a c, announce c a) a cs
  end.
(* chisl-ai-agent/src/manager/remote/agent.rs:3103-3133 handle_opencode_sse_event *)
Definition on_question_closed (m : Moment) (props : json) (a : RemoteAgent) : RemoteAgent :=
  match answered_id props with
  | Some id => stamp_question (now m) id (keep_cards (not_of_request id) (on_questions (delete id) a))
  | None => a
  end.

(* ------------------------------------------------------------------ *)
(** ** Dispatch *)

Definition tool_input_events : list string :=
  ["session.next.tool.input.started"; "session.next.tool.input.delta"; "session.next.tool.input.ended";
   "session.next.tool_input.started"; "session.next.tool_input.delta"; "session.next.tool_input.ended";
   "message.next.tool.input.started"; "message.next.tool.input.delta"; "message.next.tool.input.ended"].
Definition tool_progress_events : list string :=
  ["session.next.tool.progress"; "session.next.tool_progress"; "message.next.tool.progress"].
(** An event of another kind is at most logged. *)
(* chisl-ai-agent/src/manager/remote/agent.rs:2290-3255 handle_opencode_sse_event *)
Definition dispatch (m : Moment) (s : Scope) (event_type : string) (props : json) (a : RemoteAgent) : RemoteAgent :=
  if String.eqb event_type "session.status" then on_session_status m s props a
  else if String.eqb event_type "session.idle" then on_session_idle m s props a
  else if String.eqb event_type "session.error" then on_session_error m s props a
  else if String.eqb event_type "session.next.retried" then on_retried props a
  else if String.eqb event_type "session.next.model.switched" then on_model_switched props a
  else if String.eqb event_type "session.next.agent.switched" then on_agent_switched props a
  else if String.eqb event_type "message.part.delta" then on_part_delta props a
  else if String.eqb event_type "message.part.updated" then on_part_updated m s props a
  else if String.eqb event_type "message.updated" then on_message_updated m s props a
  else if String.eqb event_type "todo.updated" then on_todo_updated s props a
  else if String.eqb event_type "permission.asked" then on_permission_asked m s props a
  else if one_of event_type tool_input_events then on_tool_stream m s event_type false props a
  else if one_of event_type tool_progress_events then on_tool_stream m s event_type true props a
  else if String.eqb event_type "question.asked" then on_question_asked m props a
  else if one_of event_type ["question.replied"; "question.rejected"] then on_question_closed m props a
  else if one_of event_type ["models-dev.refreshed"; "catalog.model.updated"] then on_catalog (set_model_context_limits None) a
  else if String.eqb event_type "permission.replied" then on_permission_replied m props a
  else if String.eqb event_type "skill.updated" then on_catalog (set_opencode_skills None) a
  else if String.eqb event_type "session.compacted" then on_compacted props a
  else a.
(** [None]: the event is of a session that is not the agent's, or was consumed by the
    registration of a child. *)
(* chisl-ai-agent/src/manager/remote/agent.rs:2239-2288 handle_opencode_sse_event *)
Definition gate (m : Moment) (event_type : string) (props : json) (a : RemoteAgent) : RemoteAgent * option Scope :=
  match str_field "sessionID" props with
  | None => (a, Some (mk_scope None false None))
  | Some sid =>
      let own := root_session a in
      let matches_own := bool_decide (own = Some sid) in
      let registered := bool_decide (is_Some (child_sessions (family a) !! sid)) in
      let born := if String.eqb event_type "session.created" && negb matches_own
        then match own with
             | Some own_id => (λ r, (own_id, r)) <$> Subagent.try_register_from_session_created props own_id (child_sessions (family a)) (now m)
             | None => None end
        else None in
      match born with
      | Some (own_id, (child, reg)) => (emit (Subagent.emit_started own_id child) (on_family (set_child_sessions reg) a), None)
      | None => if negb matches_own && negb registered then (a, None)
                else (a, Some (mk_scope (Some sid) (negb matches_own && registered) (if matches_own then None else own)))
      end
  end.
(* chisl-ai-agent/src/manager/remote/agent.rs:2186-2203 handle_opencode_sse_event *)
Definition on_sync (raw : json) (a : RemoteAgent) : RemoteAgent :=
  match path_field ["syncEvent"; "aggregateID"] raw ≫= as_str, path_field ["syncEvent"; "seq"] raw ≫= as_u64 with
  | Some agg, Some seq => on_link (λ l, set_last_sync_seqs
      (<[agg := match last_sync_seqs l !! agg with Some s => Z.max s seq | None => seq end]> (last_sync_seqs l)) l) a
  | _, _ => a
  end.
(* chisl-ai-agent/src/manager/remote/agent.rs:2170-3254 handle_opencode_sse_event *)
Definition handle_opencode_sse_event (m : Moment) (data : string) (a : RemoteAgent) : RemoteAgent :=
  match (unwrap_event <$> from_str data) with
  | None => a
  | Some raw =>
      match str_field "type" raw with
      | None => a
      | Some event_type =>
          if String.eqb event_type "sync" then on_sync raw a else
          match field "properties" raw with
          | None => a
          | Some props =>
              let '(a, _) := sweep_expired_prompts cfg (now m) (can_read m) (can_write m) a in
              match gate m event_type props a with
              | (a, None) => a
              | (a, Some s) => dispatch m s event_type props a
              end
          end
      end
  end.

(* ------------------------------------------------------------------ *)
(** ** The reader *)

(** What a reconnecting reader fetched. *)
(* chisl-ai-agent/src/manager/remote/agent.rs:2130-2168 backfill_child_sessions *)
Definition backfill_child_sessions (now : Z) (children : list json) (a : RemoteAgent) : RemoteAgent :=
  if negb (opencode cfg) then a else
  match root_session a with
  | None => a
  | Some parent => foldl (λ a child,
      match Subagent.try_register_from_session_created child parent (child_sessions (family a)) now with
      | Some (c, reg) => emit (Subagent.emit_started parent c) (on_family (set_child_sessions reg) a)
      | None => a end) a children
  end.
Definition cursor (agg : string) (a : RemoteAgent) : option Z := last_sync_seqs (link a) !! agg.
Definition is_new (ev : SyncEvent) (a : RemoteAgent) : bool :=
  match cursor (aggregate_id ev) a with Some c => c <? seq ev | None => true end.
Definition advance (ev : SyncEvent) : RemoteAgent → RemoteAgent :=
  on_link (λ l, set_last_sync_seqs (<[aggregate_id ev :=
    match last_sync_seqs l !! aggregate_id ev with Some s => Z.max s (seq ev) | None => seq ev end]> (last_sync_seqs l)) l).
(** [history] is [Err] when the request fails. *)
(* chisl-ai-agent/src/manager/remote/agent.rs:4858-4905 backfill_sync_history *)
Definition backfill_sync_history (m : Moment) (history : result (list SyncEvent) AppError.t) (a : RemoteAgent) : RemoteAgent :=
  if bool_decide (last_sync_seqs (link a) = ∅) then a else
  match history with
  | Err _ => a
  | Ok events =>
      let a := foldl (λ a ev, if is_new ev a
        then handle_opencode_sse_event m (to_string (Obj [("properties", data ev); ("type", Str (strip_sync_version_suffix (event_type ev)))])) a
        else a) a events in
      foldl (λ a ev, advance ev a) a events
  end.

(** The agent its reader feeds. *)
(* chisl-ai-agent/src/manager/remote/agent.rs:842-864 run_event_reader *)
#[global] Instance remote_sink (m : Moment) : EventSink RemoteAgent := {|
  RemoteSse.handle_opencode_sse_event := handle_opencode_sse_event m;
  RemoteSse.replay_pending_confirmations := RemotePrompts.replay_pending_confirmations;
  RemoteSse.mark_connected := on_link (set_connection_status RemoteAgentStatus.Connected) |}.
End events.
