(* ===== verification/RemoteTurns.v ===== *)
(** * RemoteTurns: the user's side of a remote agent

    Sending a message, cancelling, closing and the settings of [manager/remote/agent.rs].
    The answers of the server to the requests of one operation are a [Server]; the waiting
    for the slot of the server ([TurnSlot]) is the effect [AcquireTurn]. *)

From S2P Require Import Prelude.
From S2P Require Import Text.
From S2P Require Import TeamTypes.
From S2P Require Import JsonValue.
From S2P Require Import Common.
From S2P Require Import AgentEvents.
From S2P Require Import OpenCode.
From S2P Require Import RemoteState.
From S2P Require Import RemotePrompts.
From S2P Require Import ConvRepo.
Import OpencodeQuestion(PendingQuestion).
Import OpencodeCommands(OpenCodeCommand).

Module SendMessageData.
(* chisl-ai-agent/src/types.rs:10-28 SendMessageData *)
Record t := mk {
  content : string; msg_id : string; files : list string; inject_skills : list string;
  opencode_message_id : option string }.
End SendMessageData.

(** What the server answers: the catalogues it is asked for when they are not cached, the
    session it creates, the outcomes of the requests; [ws] is [None] without a WebSocket.
    [local_tools] is the hint about the local tools and [transcript] what
    [build_context_transcript_prefix] reads. *)
Record Server := mk_server {
  commands_of : list OpenCodeCommand; agents_of : list AgentModeOption; skills_of : list RemoteSkillInfo;
  models_of : list OpencodeModels.ModelInfoEntry; created : result string AppError.t;
  prompted : result unit AppError.t; prompted_v2 : result unit AppError.t; commanded : result unit AppError.t;
  ws : option (result unit AppError.t); local_tools : string; transcript : option (list MessageRow.t) }.

(** [model_id] and the provider before it. *)
Fixpoint split_colons (s : string) : option (string * string) :=
  match strip_prefix "::" s with
  | Some rest => Some (EmptyString, rest)
  | None => match s with EmptyString => None | String a s => (λ '(x, y), (String a x, y)) <$> split_colons s end
  end.
(* chisl-ai-agent/src/manager/remote/opencode_payloads.rs:404-428 DesiredModel *)
Definition desired_model_of (provider_id model_id : string) : json :=
  Obj [("modelID", Str model_id); ("providerID", Str provider_id); ("variant", Str "default")].

Section turns.
Context `{JsonCodec} `{HashIter Z} `{HashIter unit} `{HashIter PendingQuestion}.
Context (cfg : RemoteAgentConfig.t) (conversation_id : string).
(** The digit class of the regular expressions. *)
Context (nd : Z → bool).

(* ------------------------------------------------------------------ *)
(** ** Catalogues *)

(* chisl-ai-agent/src/manager/remote/agent.rs:3460-3478 ensure_opencode_commands *)
Definition ensure_opencode_commands (fetched : list OpenCodeCommand) (a : RemoteAgent) : RemoteAgent * list OpenCodeCommand :=
  match opencode_commands (catalog a) with
  | Some cached => (a, cached)
  | None => (on_catalog (set_opencode_commands (Some fetched)) a, fetched)
  end.
(* chisl-ai-agent/src/manager/remote/agent.rs:3482-3526 ensure_opencode_agents *)
Definition ensure_opencode_agents (fetched : list AgentModeOption) (a : RemoteAgent) : RemoteAgent * list AgentModeOption :=
  match opencode_agents (catalog a) with
  | Some cached => (a, cached)
  | None => (on_catalog (set_opencode_agents (Some fetched)) a, fetched)
  end.
(* chisl-ai-agent/src/manager/remote/agent.rs:3531-3575 ensure_opencode_skills *)
Definition ensure_opencode_skills (fetched : list RemoteSkillInfo) (a : RemoteAgent) : RemoteAgent * list RemoteSkillInfo :=
  match opencode_skills (catalog a) with
  | Some cached => (a, cached)
  | None => (on_catalog (set_opencode_skills (Some fetched)) a, fetched)
  end.
(* chisl-ai-agent/src/manager/remote/agent.rs:3614-3619 get_skills_impl *)
Definition get_skills_impl (s : Server) (a : RemoteAgent) : RemoteAgent * list RemoteSkillInfo :=
  if opencode cfg then ensure_opencode_skills (skills_of s) a else (a, []).
(* chisl-ai-agent/src/manager/remote/agent.rs:3622-3638 emit_model_info *)
Definition emit_model_info (s : Server) (a : RemoteAgent) : RemoteAgent :=
  match models_of s with
  | [] => a
  | models => emit (AgentStreamEvent.AcpModelInfo (Obj [
      ("available_models", Arr (map (λ m, Obj [("id", Str (OpencodeModels.id m)); ("label", Str (OpencodeModels.label m))]) models));
      ("current_model_id", Null); ("current_model_label", Null)])) a
  end.
(* chisl-ai-agent/src/manager/remote/agent.rs:5395-5425 set_model *)
Definition set_model (model_id : string) (a : RemoteAgent) : RemoteAgent :=
  if negb (opencode cfg) then a else
  let '(provider_id, actual) := match split_colons model_id with
    | Some pm => pm
    | None => (default "opencode-go" (desired_model (catalog a) ≫= str_field "providerID"), model_id) end in
  on_catalog (set_desired_model (Some (desired_model_of provider_id actual))) a.
(* chisl-ai-agent/src/manager/remote/agent.rs:5457-5480 set_mode *)
Definition set_mode (s : Server) (mode : string) (a : RemoteAgent) : RemoteAgent * result unit AppError.t :=
  if negb (opencode cfg) then
    (a, Err (AppError.BadRequest ("Mode switching is not supported for remote protocol '" +:+ RemoteAgentConfig.protocol cfg +:+ "'")))
  else
  let normalized := trim mode in
  let '(a, available) := ensure_opencode_agents (agents_of s) a in
  if negb (one_of normalized (map mode_option_id available))
  then (a, Err (AppError.BadRequest ("Unsupported OpenCode mode '" +:+ normalized +:+ "'")))
  else (emit (AgentStreamEvent.AcpModeInfo (Obj [("mode", Str normalized)])) (on_catalog (set_desired_agent (Some normalized)) a), Ok tt).
(* chisl-api-types/src/acp.rs:46-51 AgentModeResponse *)
Record AgentModeResponse := mk_mode_response { current_mode : string; initialized : bool; available_modes : option (list AgentModeOption) }.
(* chisl-ai-agent/src/manager/remote/agent.rs:5487-5502 mode *)
Definition mode (s : Server) (a : RemoteAgent) : RemoteAgent * AgentModeResponse :=
  let '(a, available) := ensure_opencode_agents (agents_of s) a in
  (a, match desired_agent (catalog a) with
      | Some m => mk_mode_response m true (Some available)
      | None => mk_mode_response "build" false (Some available) end).

(* ------------------------------------------------------------------ *)
(** ** The prompt *)

(** A row of the conversation as a line of the transcript. *)
(* chisl-ai-agent/src/manager/remote/agent.rs:5329-5364 build_context_transcript_prefix *)
Definition transcript_line (row : MessageRow.t) : option string :=
  let position := default EmptyString (MessageRow.position row) in
  let type := MessageRow.type row in
  let spoken speaker := match from_str (MessageRow.content row) with
    | Some parsed => let text := trim (default EmptyString (str_field "content" parsed)) in
                     if String.eqb text EmptyString then None else Some (speaker +:+ ": " +:+ text)
    | None => None end in
  if String.eqb position "right" && String.eqb type "text" then spoken "[USER]"
  else if String.eqb position "left" && String.eqb type "text" then spoken "[ASSISTANT]"
  else if String.eqb position "left" && String.eqb type "thinking" then Some "[ASSISTANT][thinking]"
  else if String.eqb position "left" && String.eqb type "tool_call" then
    Some ("[ASSISTANT][used tool: " +:+ default "tool" (from_str (MessageRow.content row) ≫= (λ v : json, str_field "name" v)) +:+ "]")
  else None.
(** Without the line of the message that is about to be sent. *)
Definition without_prompt (lines : list string) : list string :=
  match last lines with Some l => if starts_with "[USER]:" l then take (length lines - 1) lines else lines | None => lines end.
(* chisl-ai-agent/src/manager/remote/agent.rs:5312-5387 build_context_transcript_prefix *)
Definition build_context_transcript_prefix (rows : option (list MessageRow.t)) : option string :=
  match rows with
  | None => None
  | Some items =>
      match without_prompt (omap transcript_line items) with
      | [] => None
      | lines => Some ("<chisl-context>" +:+ nl +:+
          "The OpenCode session backing this conversation was reset, so the server has no memory of the prior turns. The conversation so far on the user's machine was:"
          +:+ nl +:+ nl +:+ str_join nl lines +:+ nl +:+ "</chisl-context>" +:+ nl +:+ nl +:+
          "Continue from this context. The next message is the user's new prompt.")
      end
  end.

(** The session, and whether it is new. *)
(* chisl-ai-agent/src/manager/remote/agent.rs:5043-5063 opencode_send_after_acquire *)
Definition session_for_prompt (s : Server) (a : RemoteAgent) : RemoteAgent * result (string * bool) AppError.t :=
  match root_session a with
  | Some id => (a, Ok (id, false))
  | None => match created s with
            | Ok id => (perform (PersistSessionKey id) (on_link (set_opencode_session_id (Some id)) a), Ok (id, true))
            | Err e => (a, Err e) end
  end.
(** A command the catalogue has is expanded, with its own agent and model. *)
(* chisl-ai-agent/src/manager/remote/agent.rs:5077-5101 opencode_send_after_acquire *)
Definition expand (s : Server) (content : string) (a : RemoteAgent) : RemoteAgent * (string * option string * option string) :=
  match OpencodeCommands.parse_invocation content with
  | None => (a, (content, None, None))
  | Some (name, args) =>
      let '(a, cmds) := ensure_opencode_commands (commands_of s) a in
      match List.find (λ c, String.eqb (OpencodeCommands.name c) name) cmds with
      | None => (a, (content, None, None))
      | Some c =>
          (a, (match OpencodeCommands.template c with
               | Some t => OpencodeCommands.expand_template nd t args
               | None => if String.eqb args EmptyString then OpencodeCommands.name c else args end,
               OpencodeCommands.agent c, OpencodeCommands.model c))
      end
  end.
(* chisl-ai-agent/src/manager/remote/agent.rs:5107-5120 opencode_send_after_acquire *)
Definition override_model (m : string) : json :=
  let '(provider_id, model_id) := match split_colons m with Some pm => pm | None => ("opencode-go", m) end in
  desired_model_of provider_id model_id.
(* chisl-ai-agent/src/manager/remote/agent.rs:5193-5205 opencode_send_after_acquire *)
Definition prompt_model (m : json) : option PromptModel :=
  match str_field "modelID" m <|> str_field "id" m with
  | Some model_id => Some (mk_prompt_model (default "opencode-go" (str_field "providerID" m)) model_id)
  | None => None
  end.
Definition prefixed (context_prefix : option string) (content : string) : string :=
  match context_prefix with
  | Some p => if String.eqb p EmptyString then content else p +:+ nl +:+ nl +:+ content
  | None => content
  end.
(* chisl-ai-agent/src/manager/remote/agent.rs:5013-5255 opencode_send_after_acquire *)
Definition opencode_send_after_acquire (s : Server) (content : string) (opencode_message_id : option string)
    (inject_skills : list string) (a : RemoteAgent) : RemoteAgent * result unit AppError.t :=
  match session_for_prompt s a with
  | (a, Err e) => (a, Err e)
  | (a, Ok (session_id, session_just_created)) =>
      let context_prefix := if session_just_created then build_context_transcript_prefix (transcript s) else None in
      let '(a, (expanded, override_agent, m)) := expand s content a in
      let model := (override_model <$> m) <|> desired_model (catalog a) in
      let agent := override_agent <|> desired_agent (catalog a) in
      let body := OpencodePromptRequest.mk (prefixed context_prefix expanded)
        (if session_just_created
         then match opencode_message_id with Some mid => if starts_with "msg" mid then Some mid else None | None => None end
         else None)
        (if is_server_tool_host cfg then None else Some (local_tools s)) (model ≫= prompt_model) agent inject_skills in
      (perform (PromptAsync session_id body) a, prompted s)
  end.
Definition release_on_error (r : RemoteAgent * result unit AppError.t) : RemoteAgent * result unit AppError.t :=
  match r with (a, Err e) => (perform ReleaseTurn a, Err e) | ok => ok end.
(* chisl-ai-agent/src/manager/remote/agent.rs:4975-5007 opencode_send *)
Definition opencode_send (s : Server) (content : string) (opencode_message_id : option string) (inject_skills : list string)
    (a : RemoteAgent) : RemoteAgent * result unit AppError.t :=
  release_on_error (opencode_send_after_acquire s content opencode_message_id inject_skills (perform AcquireTurn a)).
(* chisl-ai-agent/src/manager/remote/agent.rs:4908-4965 opencode_send_command *)
Definition opencode_send_command (s : Server) (command_line : string) (a : RemoteAgent) : RemoteAgent * result unit AppError.t :=
  release_on_error (match session_for_prompt s (perform AcquireTurn a) with
  | (a, Err e) => (a, Err e)
  | (a, Ok (session_id, _)) =>
      let model_str := desired_model (catalog a) ≫= (λ m, (field "id" m <|> field "modelID" m) ≫= as_str) in
      (perform (RunCommand session_id (OpencodeCommandRequest.mk command_line (desired_agent (catalog a)) model_str)) a, commanded s)
  end).
(* chisl-ai-agent/src/manager/remote/agent.rs:4775-4782 is_v2_prompt_unavailable *)
Definition is_v2_prompt_unavailable (e : AppError.t) : bool :=
  match e with AppError.BadGateway msg => contains_any msg ["503"; "404"; "501"; "not available"] | _ => false end.
(* chisl-ai-agent/src/manager/remote/agent.rs:4786-4809 dispatch_opencode_prompt *)
Definition dispatch_opencode_prompt (s : Server) (content : string) (opencode_message_id : option string) (inject_skills : list string)
    (a : RemoteAgent) : RemoteAgent * result unit AppError.t :=
  if negb (v2_prompt_available (catalog a)) then opencode_send s content opencode_message_id inject_skills a else
  match session_for_prompt s a with
  | (a, Err e) => (a, Err e)
  | (a, Ok (session_id, _)) =>
      let a := perform (PromptV2 session_id content) a in
      match prompted_v2 s with
      | Ok _ => (a, Ok tt)
      | Err e => if is_v2_prompt_unavailable e
                 then opencode_send s content opencode_message_id inject_skills (on_catalog (set_v2_prompt_available false) a)
                 else (a, Err e)
      end
  end.
(* chisl-ai-agent/src/manager/remote/agent.rs:3740-3757 ws_send *)
Definition ws_send (s : Server) (payload : json) (a : RemoteAgent) : RemoteAgent * result unit AppError.t :=
  match ws s with
  | None => (a, Err (AppError.Internal "WebSocket not connected"))
  | Some r => (perform (WsSend payload) a, r)
  end.

(* ------------------------------------------------------------------ *)
(** ** The operations *)

(** A message of a user starts a new turn. *)
(* chisl-ai-agent/src/manager/remote/agent.rs:5571-5592 send_message *)
Definition begin_turn (now : Z) (a : RemoteAgent) : RemoteAgent :=
  transition_to ConversationStatus.Running
    (on_turn (λ t, set_finished_current_user_turn false (set_has_messages true t))
       (reject_pending_confirmations cfg now (bump_activity now a))).
(** The first message of an OpenCode conversation announces the models; then a slash command the server
    knows is run there, other slash commands and messages with skills go the first way, plain
    text the second way where it is available. *)
(* chisl-ai-agent/src/manager/remote/agent.rs:5571-5654 send_message *)
Definition send_message (s : Server) (now : Z) (d : SendMessageData.t) (a : RemoteAgent) : RemoteAgent * result unit AppError.t :=
  let is_first := negb (has_messages (turn a)) in
  let a := begin_turn now a in
  let content := SendMessageData.content d in
  if opencode cfg then
    let a := if is_first then emit_model_info s a else a in
    let is_slash := starts_with "/" content in
    let send a := if is_slash || negb (bool_decide (SendMessageData.inject_skills d = []))
      then opencode_send s content (SendMessageData.opencode_message_id d) (SendMessageData.inject_skills d) a
      else dispatch_opencode_prompt s content (SendMessageData.opencode_message_id d) (SendMessageData.inject_skills d) a in
    match (if is_slash then OpencodeCommands.parse_invocation content else None) with
    | Some (name, args) =>
        let '(a, cmds) := ensure_opencode_commands (commands_of s) a in
        if existsb (λ c, String.eqb (OpencodeCommands.name c) name) cmds
        then opencode_send_command s (if String.eqb args EmptyString then "/" +:+ name else "/" +:+ name +:+ " " +:+ args) a
        else send a
    | None => send a
    end
  else if is_first then
    ws_send s (Obj [("data", Obj [("conversationId", Str conversation_id); ("message", Str content); ("msgId", Str (SendMessageData.msg_id d))]);
                    ("type", Str "sessionsReset")]) a
  else
    ws_send s (Obj [("data", Obj (
      (if bool_decide (SendMessageData.files d = []) then [] else [("files", Arr (map Str (SendMessageData.files d)))]) ++
      [("message", Str content); ("msgId", Str (SendMessageData.msg_id d))] ++
      match session_key (link a) with Some k => [("sessionKey", Str k)] | None => [] end)); ("type", Str "sendMessage")]) a.
(* chisl-ai-agent/src/manager/remote/agent.rs:5656-5720 cancel *)
Definition cancel (s : Server) (now : Z) (a : RemoteAgent) : RemoteAgent * result unit AppError.t :=
  if opencode cfg then
    match root_session a with
    | None => (a, Ok tt)
    | Some session_id => (perform ReleaseTurn (reject_pending_confirmations cfg now (perform (AbortSession session_id) a)), Ok tt)
    end
  else match ws s with
  | None => (a, Err (AppError.Conflict "WebSocket not connected; nothing to cancel"))
  | Some _ => match ws_send s (Obj [("data", Obj []); ("type", Str "session/cancel")]) a with
              | (a, Ok _) => (reject_pending_confirmations cfg now a, Ok tt)
              | (a, Err e) => (a, Err e) end
  end.
(** The parked calls of a closed agent: dropping a sender is a rejection, a decline. *)
(* chisl-ai-agent/src/manager/remote/agent.rs:5722-5835 kill *)
Definition kill (can_write : bool) (a : RemoteAgent) : RemoteAgent :=
  let c := cards a in
  let a := if can_write
    then perform_all (map (λ id, AnswerShell id ShellApproval.Reject) (set_iter (pending_shell_approvals c)) ++
                      map (λ id, AnswerElicitation id None) (set_iter (pending_elicitations c)))
           (on_deadlines (λ _, mk_deadlines ∅ ∅ ∅) (on_cards (λ _, mk_cards [] ∅ ∅ ∅) a))
    else a in
  perform ReleaseTurn a.

(* ------------------------------------------------------------------ *)
(** ** Events over a WebSocket *)

Definition replace_card (c : Confirmation.t) (l : list Confirmation.t) : list Confirmation.t :=
  match list_find (λ x, Confirmation.call_id x = Confirmation.call_id c) l with Some (i, _) => <[i := c]> l | None => l ++ [c] end.
(* chisl-ai-agent/src/manager/remote/agent.rs:3706-3737 update_state_from_event *)
Definition update_state_from_event (e : AgentStreamEvent.t) (a : RemoteAgent) : RemoteAgent :=
  let key o := on_link (λ l, match o with Some sid => set_session_key (Some sid) l | None => l end) in
  match e with
  | AgentStreamEvent.Start sid => key sid (transition_to ConversationStatus.Running a)
  | AgentStreamEvent.Finish sid => key sid (transition_to ConversationStatus.Finished a)
  | AgentStreamEvent.Error _ => transition_to ConversationStatus.Finished a
  | AgentStreamEvent.AcpPermission (AcpPermissionEventData.Confirmed c) =>
      on_cards (λ k, set_confirmations (replace_card c (confirmations k)) k) a
  | _ => a
  end.
(** An event that could be read. *)
(* chisl-ai-agent/src/manager/remote/agent.rs:3690-3704 handle_raw_event *)
Definition handle_raw_event (e : AgentStreamEvent.t) (a : RemoteAgent) : RemoteAgent := emit e (update_state_from_event e a).
(* chisl-ai-agent/src/manager/remote/agent.rs:3681-3687 run_ws_reader *)
Definition ws_reader_over (a : RemoteAgent) : RemoteAgent :=
  let a := on_link (set_connection_status RemoteAgentStatus.Error) a in
  if bool_decide (status a = Some ConversationStatus.Running) then transition_to ConversationStatus.Finished a else a.
End turns.
