(* ===== verification/RemoteFrames.v ===== *)
(** * RemoteFrames: what the steps of a remote agent leave alone

    What the theorems of [RemoteFacts] observe of the state of a remote agent (the calls that
    wait and were answered, the turn, the [Finish]es), and [quiet]: a step that changes none of
    it.  Every handler but those of the turn's start and end is quiet. *)

From S2P Require Import Prelude.
From S2P Require Import Text.
From S2P Require Import TeamTypes.
From S2P Require Import JsonValue.
From S2P Require Import Common.
From S2P Require Import AgentEvents.
From S2P Require Import OpenCode.
From S2P Require Import RemoteSse.
From S2P Require Import RemoteState.
From S2P Require Import RemotePrompts.
From S2P Require Import RemoteEvents.
From S2P Require Import RemoteTurns.
Import OpencodeQuestion(PendingQuestion).

(* ------------------------------------------------------------------ *)
(** ** What is observed *)

Definition ind (P : Prop) `{Decision P} : nat := if decide P then 1 else 0.
(** How often call [id] was answered, whether it waits for an answer. *)
Definition answers (id : string) (e : Effect) : bool :=
  match e with AnswerShell i _ | AnswerElicitation i _ => String.eqb i id | _ => false end.
Definition answered (id : string) (l : list Effect) : nat := length (List.filter (answers id) l).
Definition waiting (id : string) (c : Cards) : nat :=
  ind (id ∈ pending_shell_approvals c) + ind (id ∈ pending_elicitations c).
Definition calls (id : string) (a : RemoteAgent) : nat := answered id (log a) + waiting id (cards a).
Definition is_finish (e : Effect) : bool := match e with Emit (AgentStreamEvent.Finish _) => true | _ => false end.
Definition finishes (a : RemoteAgent) : nat := length (List.filter is_finish (log a)).

(** Effects that answer no parked call and end no turn for who relays the stream. *)
Definition inert (e : Effect) : Prop :=
  match e with AnswerShell _ _ | AnswerElicitation _ _ => False | Emit ev => AgentStreamEvent.is_terminal ev = false | _ => True end.

(** Nothing happens to the parked calls, the turn and what is remembered. *)
Record quiet (a b : RemoteAgent) : Prop := mk_quiet {
  q_shells : pending_shell_approvals (cards b) = pending_shell_approvals (cards a);
  q_elicitations : pending_elicitations (cards b) = pending_elicitations (cards a);
  q_turn : turn b = turn a; q_memory : approval_memory (blessings b) = approval_memory (blessings a);
  q_status : status b = status a; q_owed : owed b = owed a;
  q_log : ∃ es, log b = log a ++ es ∧ Forall inert es }.

Lemma still_refl a : quiet a a.
Proof. split; try done. exists []. by rewrite app_nil_r. Qed.
Lemma still_trans a b c : quiet a b → quiet b c → quiet a c.
Proof.
  intros [Hs He Ht Hm Hst Ho (es & Hl & Hi)] [Hs' He' Ht' Hm' Hst' Ho' (es' & Hl' & Hi')]. split; try congruence.
  exists (es ++ es'). rewrite Hl', Hl, app_assoc. split; [done|]. by apply Forall_app.
Qed.
#[global] Instance quiet_preorder : PreOrder quiet.
Proof. split; [exact still_refl | exact still_trans]. Qed.

Lemma quiet_log a b es : quiet a b → Forall inert es → quiet a (perform_all es b).
Proof.
  intros Hq Hes. apply (still_trans a b); [done|]. split; try done. by exists es.
Qed.
Lemma quiet_perform a b e : quiet a b → inert e → quiet a (perform e b).
Proof. intros Hq He. apply (quiet_log a b [e]); [done|]. by constructor. Qed.
Lemma quiet_emit a b e : quiet a b → AgentStreamEvent.is_terminal e = false → quiet a (emit e b).
Proof. intros Hq He. by apply (quiet_perform a b (Emit e)). Qed.

(** An update of what is not observed. *)
Ltac unobserved := intros [Hs He Ht Hm Hst Ho Hl]; by split.
Lemma quiet_link a b f : quiet a b → quiet a (on_link f b). Proof. unobserved. Qed.
Lemma quiet_parts a b f : quiet a b → quiet a (on_parts f b). Proof. unobserved. Qed.
Lemma quiet_family a b f : quiet a b → quiet a (on_family f b). Proof. unobserved. Qed.
Lemma quiet_catalog a b f : quiet a b → quiet a (on_catalog f b). Proof. unobserved. Qed.
Lemma quiet_deadlines a b f : quiet a b → quiet a (on_deadlines f b). Proof. unobserved. Qed.
Lemma quiet_replied a b f : quiet a b → quiet a (on_replied f b). Proof. unobserved. Qed.
Lemma quiet_activity a b f : quiet a b → quiet a (on_last_activity f b). Proof. unobserved. Qed.
Lemma quiet_confirmations a b f : quiet a b → quiet a (on_cards (λ c, set_confirmations (f c) c) b). Proof. unobserved. Qed.
Lemma quiet_questions a b f : quiet a b → quiet a (on_questions f b). Proof. unobserved. Qed.
Lemma quiet_paths a b f : quiet a b → quiet a (on_blessings (λ c, set_auto_accept_paths (f c) c) b). Proof. unobserved. Qed.
Lemma quiet_sessions a b f : quiet a b → quiet a (on_blessings (λ c, set_auto_accept_sessions (f c) c) b). Proof. unobserved. Qed.
Lemma quiet_foldl {A} (f : RemoteAgent → A → RemoteAgent) l a b :
  quiet a b → (∀ c x, quiet c (f c x)) → quiet a (foldl f b l).
Proof.
  intros Hq Hf. revert b Hq. induction l as [|x l IH]; intros b Hq; [done|]. simpl. apply IH. by apply (still_trans a b).
Qed.

Create HintDb quiet.
#[export] Hint Resolve still_refl quiet_perform quiet_emit quiet_link quiet_parts quiet_family quiet_catalog quiet_deadlines
  quiet_replied quiet_activity quiet_confirmations quiet_questions quiet_paths quiet_sessions : quiet.
#[export] Hint Extern 1 (inert _) => exact I : quiet.
#[export] Hint Extern 1 (inert _) => reflexivity : quiet.
#[export] Hint Extern 1 (AgentStreamEvent.is_terminal _ = false) => reflexivity : quiet.
Ltac quietly := repeat case_match; simplify_eq; eauto 25 with quiet.

Lemma quiet_keep a b p : quiet a b → quiet a (keep_cards p b). Proof. unfold keep_cards. quietly. Qed.
Lemma quiet_drop a b id : quiet a b → quiet a (drop_card id b). Proof. unfold drop_card. by apply quiet_keep. Qed.
Lemma quiet_queue a b c : quiet a b → quiet a (queue_card c b).
Proof. intros Hq. unfold queue_card. apply quiet_confirmations. by apply quiet_drop. Qed.
Lemma quiet_announce a b c : quiet a b → quiet a (announce c b). Proof. unfold announce. quietly. Qed.
Lemma quiet_forget a b id : quiet a b → quiet a (forget_deadline id b). Proof. unfold forget_deadline. quietly. Qed.
Lemma quiet_deadline a b id t : quiet a b → quiet a (set_deadline id t b). Proof. unfold set_deadline. quietly. Qed.
Lemma quiet_replied_permissions a b f : quiet a b → quiet a (on_replied_permissions f b).
Proof. unfold on_replied_permissions. quietly. Qed.
Lemma quiet_replied_questions a b f : quiet a b → quiet a (on_replied_questions f b).
Proof. unfold on_replied_questions. quietly. Qed.
Lemma quiet_bump a b t : quiet a b → quiet a (bump_activity t b). Proof. unfold bump_activity. quietly. Qed.
#[export] Hint Resolve quiet_keep quiet_drop quiet_queue quiet_announce quiet_forget quiet_deadline quiet_replied_permissions
  quiet_replied_questions quiet_bump : quiet.

Section handlers.
Context `{JsonCodec} `{Unicode} `{HashIter Z} `{HashIter unit} `{HashIter PendingQuestion} `{HashIter Subagent.ChildSession}.
Context (cfg : RemoteAgentConfig.t).
Implicit Types (a b : RemoteAgent).

Lemma quiet_permission_response a b r i s p : quiet a b → quiet a (spawn_permission_response cfg r i s p b).
Proof. unfold spawn_permission_response. quietly. Qed.
Lemma quiet_question_reply a b i l : quiet a b → quiet a (spawn_question_reply cfg i l b).
Proof. unfold spawn_question_reply. quietly. Qed.
Lemma quiet_question_reject a b i : quiet a b → quiet a (spawn_question_reject cfg i b).
Proof. unfold spawn_question_reject. quietly. Qed.
Lemma quiet_stamp a b n i : quiet a b → quiet a (stamp_question n i b).
Proof. unfold stamp_question. quietly. Qed.
#[local] Hint Resolve quiet_permission_response quiet_question_reply quiet_question_reject quiet_stamp : quiet.

Lemma quiet_child_done a b c p st n sm : quiet a b → quiet a (child_done c p st n sm b).
Proof. unfold child_done. quietly. Qed.
Lemma quiet_tick a b n p c i t : quiet a b → quiet a (tick_subagent_progress n p c i t b).
Proof. unfold tick_subagent_progress. quietly. Qed.
Lemma quiet_emit_some a b o : quiet a b → (∀ e, o = Some e → AgentStreamEvent.is_terminal e = false) → quiet a (emit_some o b).
Proof. intros Hq Ho. unfold emit_some. destruct o; [|done]. apply quiet_emit; auto. Qed.
#[local] Hint Resolve quiet_child_done quiet_tick : quiet.

Lemma quiet_retried p a : quiet a (on_retried p a). Proof. unfold on_retried. quietly. Qed.
Lemma quiet_model_switched p a : quiet a (on_model_switched p a). Proof. unfold on_model_switched. quietly. Qed.
Lemma quiet_agent_switched p a : quiet a (on_agent_switched p a). Proof. unfold on_agent_switched. quietly. Qed.
Lemma quiet_compacted p a : quiet a (on_compacted p a). Proof. unfold on_compacted. quietly. Qed.
Lemma quiet_part_delta p a : quiet a (on_part_delta p a). Proof. unfold on_part_delta. quietly. Qed.
Lemma quiet_tool_part m s p q a : quiet a (on_tool_part m s p q a).
Proof. unfold on_tool_part. quietly. Qed.
Lemma quiet_part_updated m s p a : quiet a (on_part_updated m s p a).
Proof.
  unfold on_part_updated. repeat case_match; eauto 6 with quiet; (eapply still_trans; [|apply quiet_tool_part]); eauto with quiet.
Qed.
Lemma quiet_todo s p a : quiet a (on_todo_updated s p a). Proof. unfold on_todo_updated. quietly. Qed.
Lemma quiet_tool_stream m s t (pr : bool) p a : quiet a (on_tool_stream m s t pr p a).
Proof.
  unfold on_tool_stream. destruct (session_id s); [|done]. apply quiet_emit_some; [done|].
  intros e. unfold OpencodeStream.translate_tool_progress, OpencodeStream.translate_tool_input.
  intros He. repeat case_match; simplify_eq; done.
Qed.
Lemma quiet_permission_asked m s p a : quiet a (on_permission_asked cfg m s p a).
Proof. unfold on_permission_asked. quietly. Qed.
Lemma quiet_permission_replied m p a : quiet a (on_permission_replied m p a).
Proof. unfold on_permission_replied. quietly. Qed.
Lemma quiet_question_asked m p a : quiet a (on_question_asked m p a).
Proof.
  unfold on_question_asked. repeat case_match; try done.
  apply quiet_foldl; [|eauto with quiet]. apply quiet_foldl; eauto with quiet.
Qed.
Lemma quiet_question_closed m p a : quiet a (on_question_closed m p a).
Proof. unfold on_question_closed. quietly. Qed.
Lemma quiet_session_error m s p a : is_child s = true → quiet a (on_session_error m s p a).
Proof. intros Hc. unfold on_session_error. rewrite Hc. quietly. Qed.
Lemma quiet_idle m s a : is_child s = true → quiet a (on_idle m s a).
Proof. intros Hc. unfold on_idle. rewrite Hc. quietly. Qed.
Lemma quiet_busy m s a : is_child s = true → quiet a (on_busy m s a).
Proof. intros Hc. unfold on_busy. rewrite Hc. simpl. eauto with quiet. Qed.
Lemma quiet_session_idle m s p a : is_child s = true → quiet a (on_session_idle m s p a).
Proof.
  intros Hc. unfold on_session_idle. eapply still_trans; [|by apply quiet_idle]. quietly.
Qed.
Lemma quiet_session_status m s p a : is_child s = true → quiet a (on_session_status m s p a).
Proof.
  intros Hc. unfold on_session_status. repeat case_match; eauto with quiet;
    (eapply still_trans; [|by (apply quiet_busy || apply quiet_idle)]); eauto with quiet.
Qed.
Lemma quiet_message_updated m s p a : is_child s = true → quiet a (on_message_updated m s p a).
Proof. intros Hc. unfold on_message_updated. rewrite Hc. repeat (case_match; simplify_eq; eauto 8 with quiet); cbn [negb] in *; rewrite ?andb_false_r in *; done. Qed.

(** What an event does to the turn: nothing, end it, begin it or fail it. *)
Inductive turned (a : RemoteAgent) : RemoteAgent → Prop :=
| turned_quiet b : quiet a b → turned a b
| turned_finish b m sid : quiet a b → turned a (emit_root_turn_finish m sid b)
| turned_armed b : quiet a b → finished_current_user_turn (turn b) = false → turned a (on_turn (set_root_turn_active true) b)
| turned_failed b d : quiet a b → turned a (transition_to ConversationStatus.Finished (emit (AgentStreamEvent.Error d) b)).

Lemma turned_busy m s a b : quiet a b → turned a (on_busy m s b).
Proof.
  intros Hq. unfold on_busy. case_match; [|apply turned_quiet; eauto with quiet].
  apply turned_armed; [eauto with quiet|]. by destruct (is_child s), (finished_current_user_turn _) eqn:Hf.
Qed.
Lemma turned_idle m s a b : quiet a b → turned a (on_idle m s b).
Proof. intros Hq. unfold on_idle. destruct (is_child s); [apply turned_quiet; eauto with quiet | by apply turned_finish]. Qed.
Lemma turned_status m s p a : turned a (on_session_status m s p a).
Proof.
  unfold on_session_status. repeat case_match;
    first [apply turned_busy | apply turned_idle | apply turned_quiet]; eauto with quiet.
Qed.
Lemma turned_error m s p a : turned a (on_session_error m s p a).
Proof.
  destruct (is_child s) eqn:Hc; [by apply turned_quiet, quiet_session_error|]. unfold on_session_error. rewrite Hc.
  case_match; [apply turned_quiet; eauto with quiet | by apply turned_failed].
Qed.
Lemma turned_message m s p a : turned a (on_message_updated m s p a).
Proof.
  unfold on_message_updated, context_limit_for.
  repeat case_match; simplify_eq; first [apply turned_finish | apply turned_quiet]; eauto 8 with quiet.
Qed.
Lemma turned_dispatch m s ty p a : turned a (dispatch cfg m s ty p a).
Proof.
  unfold dispatch.
  repeat (case_match; [first [apply turned_status | apply turned_error | apply turned_message | idtac]|]);
  first [apply turned_idle; quietly | apply turned_quiet];
  first [apply quiet_retried | apply quiet_model_switched | apply quiet_agent_switched | apply quiet_part_delta
    | apply quiet_part_updated | apply quiet_todo | apply quiet_permission_asked | apply quiet_tool_stream
    | apply quiet_question_asked | apply quiet_question_closed | apply quiet_permission_replied | apply quiet_compacted
    | eauto with quiet].
Qed.
Lemma quiet_dispatch_child m s ty p a : is_child s = true → quiet a (dispatch cfg m s ty p a).
Proof.
  intros Hc. unfold dispatch.
  repeat (case_match; [first [by apply quiet_session_status | by apply quiet_session_idle | by apply quiet_session_error
    | by apply quiet_message_updated | apply quiet_retried | apply quiet_model_switched | apply quiet_agent_switched | apply quiet_part_delta
    | apply quiet_part_updated | apply quiet_todo | apply quiet_permission_asked | apply quiet_tool_stream
    | apply quiet_question_asked | apply quiet_question_closed | apply quiet_permission_replied | apply quiet_compacted
    | eauto with quiet]|]). done.
Qed.
Lemma quiet_gate m ty p a : quiet a (gate m ty p a).1.
Proof. unfold gate. repeat case_match; cbn [fst]; eauto with quiet. Qed.
Lemma gate_same m ty p a s : (gate m ty p a).2 = Some s → (gate m ty p a).1 = a.
Proof. unfold gate. repeat case_match; cbn [fst snd]; done. Qed.
End handlers.

(* ------------------------------------------------------------------ *)
(** ** Answering parked calls *)

Lemma ind_union id x (X : gset string) : x ∉ X → ind (id ∈ {[x]} ∪ X) = (ind (x = id) + ind (id ∈ X))%nat.
Proof. intros Hx. unfold ind. repeat case_decide; set_solver. Qed.
Lemma ind_remove id x (X : gset string) : x ∈ X → (ind (x = id) + ind (id ∈ X ∖ {[x]}))%nat = ind (id ∈ X).
Proof. intros Hx. unfold ind. repeat case_decide; set_solver. Qed.
Lemma remove_absent id (X : gset string) : id ∉ X → X ∖ {[id]} = X.
Proof. set_solver. Qed.
Lemma answered_app id l l' : answered id (l ++ l') = (answered id l + answered id l')%nat.
Proof. unfold answered. by rewrite List.filter_app, length_app. Qed.
Lemma answered_inert id es : Forall inert es → answered id es = 0%nat.
Proof.
  unfold answered. induction 1 as [|e es He _ IH]; [done|]. cbn [List.filter].
  by destruct e.
Qed.
Lemma eqb_ind i id : (if String.eqb i id then 1 else 0)%nat = ind (i = id).
Proof. unfold ind. by destruct (String.eqb_spec i id); case_decide. Qed.
Lemma answered_one id e : answered id [e] = if answers id e then 1%nat else 0%nat.
Proof. unfold answered. simpl. by destruct (answers id e). Qed.

Lemma filter_none {A} (p : A → bool) l : (∀ x, x ∈ l → p x = false) → List.filter p l = [].
Proof.
  induction l as [|x l IH]; intros Hl; [done|]. cbn [List.filter]. rewrite Hl by set_solver. apply IH. set_solver.
Qed.

(** No parked call is lost or answered twice; only calls in [P] are allowed; unless [M], nothing
    more is remembered. *)
Record grows (P : string → Prop) (M : Prop) (a b : RemoteAgent) : Prop := mk_grows {
  g_calls : ∀ id, calls id b = calls id a;
  g_allowed : ∀ id, AnswerShell id ShellApproval.Allow ∈ log b → AnswerShell id ShellApproval.Allow ∈ log a ∨ P id;
  g_memory : ∀ k, approval_memory (blessings b) !! k = Some true → approval_memory (blessings a) !! k = Some true ∨ M }.
Lemma grows_refl P M a : grows P M a a.
Proof. split; auto. Qed.
Lemma grows_trans P M a b c : grows P M a b → grows P M b c → grows P M a c.
Proof.
  intros [Hc Ha Hm] [Hc' Ha' Hm']. split.
  - intros id. by rewrite Hc'.
  - intros id [Hin|]%Ha'; [by apply Ha | by right].
  - intros k [Hin|]%Hm'; [by apply Hm | by right].
Qed.
Lemma grows_weaken (P Q : string → Prop) (M N : Prop) a b : grows P M a b → (∀ id, P id → Q id) → (M → N) → grows Q N a b.
Proof. intros [Hc Ha Hm] HP HM. split; [done|intros id [|]%Ha; auto|intros k [|]%Hm; auto]. Qed.
(** Besides, the turn is as it was, and no [Finish] was sent or came to be owed. *)
Record steady (P : string → Prop) (M : Prop) (a b : RemoteAgent) : Prop := mk_steady {
  k_grows : grows P M a b;
  k_turn : turn b = turn a; k_owed : owed b = owed a;
  k_finishes : finishes b = finishes a }.
Lemma stays_refl P M a : steady P M a a.
Proof. split; [apply grows_refl | done..]. Qed.
Lemma stays_trans P M a b c : steady P M a b → steady P M b c → steady P M a c.
Proof. intros [Hc Ht Ho Hf] [Hc' Ht' Ho' Hf']. split; [by apply (grows_trans _ _ a b) | congruence..]. Qed.
Lemma steady_weaken (P Q : string → Prop) (M N : Prop) a b : steady P M a b → (∀ id, P id → Q id) → (M → N) → steady Q N a b.
Proof. intros [Hg Ht Ho Hf] HP HM. split; [by apply (grows_weaken P Q M N) | done..]. Qed.
(** None is allowed and nothing is remembered. *)
Abbreviation kept := (steady (λ _, False) False).
#[global] Instance kept_preorder : PreOrder kept.
Proof. split; [intros a; apply stays_refl | intros a b c; apply stays_trans]. Qed.
Lemma steady_remember (P : string → Prop) (M : Prop) a b k : steady P M a b → M → steady P M a (remember k b).
Proof. intros [[Hc Ha Hm] Ht Ho Hf] HM. split; [split|done..]; [done | done | intros k' _; by right]. Qed.
Lemma not_allowed_inert id es : Forall inert es → AnswerShell id ShellApproval.Allow ∉ es.
Proof. intros He Hin. by apply (proj1 (List.Forall_forall _ _) He (AnswerShell id ShellApproval.Allow)), list_elem_of_In. Qed.
Lemma no_finish_inert es : Forall inert es → List.filter is_finish es = [].
Proof. induction 1 as [|e es He _ IH]; [done|]. cbn [List.filter]. destruct e; try done. by match goal with Hi : inert (Emit ?ev) |- _ => destruct ev end. Qed.
Lemma quiet_kept a b : quiet a b → kept a b.
Proof.
  intros [Hs He Ht Hm Hst Ho (es & Hl & Hi)]. split; [split|done|done|].
  - intros id. unfold calls, waiting. rewrite Hs, He, Hl, answered_app, (answered_inert id es) by done. lia.
  - intros id. rewrite Hl, elem_of_app. intros [|Hin]; [by left|]. by apply not_allowed_inert in Hin.
  - intros k. rewrite Hm. by left.
  - unfold finishes. rewrite Hl, List.filter_app, (no_finish_inert es) by done. by rewrite app_nil_r.
Qed.

(** One call that waits is answered. *)
Definition answer_of (id : string) (b c : Cards) (e : Effect) : Prop :=
  match e with
  | AnswerShell i _ => i = id ∧ id ∈ pending_shell_approvals b ∧
      pending_shell_approvals c = pending_shell_approvals b ∖ {[id]} ∧ pending_elicitations c = pending_elicitations b
  | AnswerElicitation i _ => i = id ∧ id ∈ pending_elicitations b ∧
      pending_elicitations c = pending_elicitations b ∖ {[id]} ∧ pending_shell_approvals c = pending_shell_approvals b
  | _ => False
  end.
Lemma answered_calls b c id e : answer_of id (cards b) (cards c) e → log c = log b ++ [e] → ∀ j, calls j c = calls j b.
Proof.
  intros He Hl j. unfold calls, waiting. rewrite Hl, answered_app, answered_one.
  destruct e; try done; destruct He as (-> & Hin & -> & ->); simpl; rewrite eqb_ind; pose proof (ind_remove j _ _ Hin); lia.
Qed.
Lemma kept_answered b c id e : answer_of id (cards b) (cards c) e → log c = log b ++ [e] → e ≠ AnswerShell id ShellApproval.Allow →
  approval_memory (blessings c) = approval_memory (blessings b) → (turn c, owed c) = (turn b, owed b) → kept b c.
Proof.
  intros He Hl Hd Hm Ht. split; [split|by injection Ht..|].
  - by apply (answered_calls b c id e).
  - intros i. rewrite Hl, elem_of_app, list_elem_of_singleton. intros [|<-]; [by left|]. by destruct He as (-> & _).
  - intros k. rewrite Hm. by left.
  - unfold finishes. rewrite Hl, List.filter_app. destruct e; try done; by rewrite app_nil_r.
Qed.

Lemma answered_map_shell d id l : NoDup l → answered id (map (λ i, AnswerShell i d) l) = ind (id ∈ l).
Proof.
  unfold answered. induction 1 as [|x l Hx _ IH]; [done|]. cbn [map List.filter answers].
  destruct (String.eqb_spec x id) as [->|Hne]; cbn [length]; rewrite IH; unfold ind; repeat case_decide; set_solver.
Qed.
Lemma answered_map_elicitation id l : NoDup l → answered id (map (λ i, AnswerElicitation i None) l) = ind (id ∈ l).
Proof.
  unfold answered. induction 1 as [|x l Hx _ IH]; [done|]. cbn [map List.filter answers].
  destruct (String.eqb_spec x id) as [->|Hne]; cbn [length]; rewrite IH; unfold ind; repeat case_decide; set_solver.
Qed.

Section parked.
Context `{HashIter unit}.
Lemma elem_of_set_iter id (s : gset string) : id ∈ set_iter s ↔ id ∈ s.
Proof.
  unfold set_iter. rewrite list_elem_of_fmap. split.
  - intros ([i []] & -> & Hin). apply elem_of_hm_iter, lookup_gset_to_gmap_Some in Hin. apply Hin.
  - intros Hid. exists (id, tt). split; [done|]. by apply elem_of_hm_iter, lookup_gset_to_gmap_Some.
Qed.
Lemma NoDup_set_iter (s : gset string) : NoDup (set_iter s).
Proof. apply NoDup_hm_iter_keys. Qed.
Lemma ind_set_iter id (s : gset string) : ind (id ∈ set_iter s) = ind (id ∈ s).
Proof. unfold ind. pose proof (elem_of_set_iter id s). repeat case_decide; tauto. Qed.
(** Every call that waits is turned down. *)
Definition turn_down (c : Cards) : list Effect :=
  map (λ id, AnswerShell id ShellApproval.Reject) (set_iter (pending_shell_approvals c)) ++
  map (λ id, AnswerElicitation id None) (set_iter (pending_elicitations c)).
Lemma answered_turn_down id c : answered id (turn_down c) = waiting id c.
Proof.
  unfold turn_down, waiting. rewrite answered_app, answered_map_shell, answered_map_elicitation by apply NoDup_set_iter.
  by rewrite !ind_set_iter.
Qed.
Lemma turn_down_elem e c : e ∈ turn_down c →
  (∃ id, e = AnswerShell id ShellApproval.Reject) ∨ ∃ id, e = AnswerElicitation id None.
Proof. unfold turn_down. rewrite elem_of_app, !list_elem_of_In, !in_map_iff. naive_solver. Qed.
(** All are turned down at once; what else is done in the same step answers nothing. *)
Lemma kept_turned_down b c es es' : log c = log b ++ es ++ turn_down (cards b) ++ es' → Forall inert es → Forall inert es' →
  pending_shell_approvals (cards c) = ∅ → pending_elicitations (cards c) = ∅ →
  approval_memory (blessings c) = approval_memory (blessings b) → (turn c, owed c) = (turn b, owed b) → kept b c.
Proof.
  intros Hl Hi Hi' Hs He Hm Ht. split; [split|by injection Ht..|].
  - intros id. unfold calls. rewrite Hl, !answered_app, answered_turn_down, (answered_inert id es), (answered_inert id es') by done.
    unfold waiting at 2. rewrite Hs, He. unfold ind. rewrite !decide_False by set_solver. lia.
  - intros id. rewrite Hl, !elem_of_app. intros [|[Hin|[Hin|Hin]]]; [by left| | |].
    + by apply not_allowed_inert in Hin.
    + apply turn_down_elem in Hin. naive_solver.
    + by apply not_allowed_inert in Hin.
  - intros k. rewrite Hm. by left.
  - unfold finishes. rewrite Hl, !List.filter_app, (no_finish_inert es), (no_finish_inert es') by done. rewrite app_nil_r. cbn [app].
    enough (List.filter is_finish (turn_down (cards b)) = []) as -> by (by rewrite app_nil_r).
    apply filter_none. intros e [[i ->]|[i ->]]%turn_down_elem; done.
Qed.
End parked.
