(* ===== verification/RemoteFacts.v ===== *)
(** * RemoteFacts: what a remote agent guarantees

    Runs ([run]) of the operations of a remote agent: a parked call is answered once and no
    command is allowed that the user did not approve; a turn ends once, on a word of the
    root session; other sessions' events do not disturb it; an expired prompt is settled. *)

From S2P Require Import Prelude.
From S2P Require Import Text.
From S2P Require Import TeamTypes.
From S2P Require Import JsonValue.
From S2P Require Import Common.
From S2P Require Import AgentEvents.
From S2P Require Import OpenCode.
From S2P Require Import RemoteSse.
From S2P Require Import RemoteState.
From S2P Require Import RemotePrompts.
From S2P Require Import RemoteEvents.
From S2P Require Import RemoteTurns.
From S2P Require Import RemoteFrames.
Import OpencodeQuestion(PendingQuestion, is_question_call_id, parse_question_call_id).

Section operations.
Context `{JsonCodec} `{Unicode} `{HashIter Z} `{HashIter unit} `{HashIter PendingQuestion} `{HashIter Subagent.ChildSession}.
Context (cfg : RemoteAgentConfig.t).
Implicit Types (a b : RemoteAgent).

#[local] Hint Resolve quiet_permission_response quiet_question_reply quiet_question_reject quiet_stamp : quiet.

(* ------------------------------------------------------------------ *)
(** ** Each operation *)

Lemma kept_after a b c : kept a b → quiet b c → kept a c.
Proof. intros Hk Hq. by rewrite Hk, (quiet_kept _ _ Hq). Qed.

(** What answers a call is done to the rest of the state in the same step. *)
Lemma kept_synthesize now w id a : kept a (synthesize_timeout_reject cfg now w id a).
Proof.
  unfold synthesize_timeout_reject. destruct w; cbn [negb]; [|apply quiet_kept; quietly].
  case_bool_decide as Hs; [|case_bool_decide as He; [|apply quiet_kept; repeat case_match; eauto 9 with quiet]].
  - apply (kept_after _ (perform (AnswerShell id ShellApproval.Reject) (drop_card id (on_shells (λ s, s ∖ {[id]}) a)))); [|eauto with quiet].
    by apply (kept_answered _ _ id (AnswerShell id ShellApproval.Reject)).
  - apply (kept_after _ (perform (AnswerElicitation id None) (drop_card id (on_elicitations (λ s, s ∖ {[id]}) a)))); [|eauto with quiet].
    by apply (kept_answered _ _ id (AnswerElicitation id None)).
Qed.
Lemma kept_sweep now r w a : kept a (sweep_expired_prompts cfg now r w a).1.
Proof.
  unfold sweep_expired_prompts. destruct r; cbn [negb fst]; [|done].
  generalize (List.filter (λ kv : string * Z, kv.2 <=? now) (hm_iter (prompt_expiries (deadlines a)))).*1.
  intros l. revert a. induction l as [|id l IH]; intros a; [done|]. cbn [foldl]. by rewrite <- IH, <- kept_synthesize.
Qed.
Lemma perform_all_twice es es' a : perform_all es' (perform_all es a) = perform_all (es ++ es') a.
Proof. unfold perform_all, on_log. simpl. by rewrite app_assoc. Qed.
Lemma question_rejects ids a :
  foldl (λ a id, spawn_question_reject cfg id a) a ids = perform_all (if opencode cfg then map RejectQuestion ids else []) a.
Proof.
  unfold spawn_question_reject. destruct (opencode cfg).
  - revert a. induction ids as [|id ids IH]; intros a; cbn [foldl map].
    + unfold perform_all, on_log. rewrite app_nil_r. by destruct a.
    + rewrite IH. apply (perform_all_twice [RejectQuestion id]).
  - unfold perform_all, on_log. rewrite app_nil_r. induction ids; cbn [foldl]; [by destruct a | done].
Qed.
Lemma inert_map {A} (f : A → Effect) l : (∀ x, inert (f x)) → Forall inert (map f l).
Proof. intros Hf. induction l; constructor; auto. Qed.
(** What [reject_pending_confirmations] does: nothing, or everything that waits is turned down. *)
Lemma reject_cases now a :
  let b := reject_pending_confirmations cfg now a in
  b = a ∨ ∃ es es',
    log b = log a ++ es ++ turn_down (cards a) ++ es' ∧ Forall inert es ∧ Forall inert es' ∧
    cards b = mk_cards [] ∅ ∅ ∅ ∧ deadlines b = mk_deadlines ∅ ∅ ∅ ∧ blessings b = blessings a ∧ (turn b, owed b) = (turn a, owed a).
Proof.
  cbn zeta. unfold reject_pending_confirmations. case_match; [by left|right]. cbn zeta. rewrite question_rejects, perform_all_twice.
  exists (if opencode cfg then map RejectQuestion (hm_iter (pending_questions (cards a))).*1 else []).
  case_match.
  - eexists. rewrite perform_all_twice. split; [unfold turn_down, perform_all, on_log; simpl; by rewrite <- !app_assoc|].
    split; [by apply inert_map|]. split; [by apply inert_map|]. done.
  - exists []. split; [unfold turn_down, perform_all, on_log; simpl; by rewrite <- !app_assoc, app_nil_r|]. done.
Qed.
Lemma kept_reject now a : kept a (reject_pending_confirmations cfg now a).
Proof.
  destruct (reject_cases now a) as [->|(es & es' & Hl & Hi & Hi' & Hc & _ & Hb & Ht)]; [done|].
  apply (kept_turned_down _ _ es es'); rewrite ?Hc, ?Hb; done.
Qed.
Lemma kept_kill w a : kept a (kill w a).
Proof.
  unfold kill. destruct w; [|apply quiet_kept; eauto with quiet].
  apply (kept_turned_down _ _ [] [ReleaseTurn]); try done; [|by constructor].
  unfold turn_down. simpl. by rewrite <- !app_assoc.
Qed.
Lemma kept_wait_over id a : kept a (shell_wait_over id a).
Proof.
  unfold shell_wait_over. case_bool_decide; [|done]. by apply (kept_answered _ _ id (AnswerShell id ShellApproval.TimedOut)).
Qed.
Lemma kept_reject_after now a b : quiet a b → kept a (reject_pending_confirmations cfg now b).
Proof. intros Hq. by rewrite <- kept_reject, <- (quiet_kept _ _ Hq). Qed.
Lemma kept_cancel s now a : kept a (cancel cfg s now a).1.
Proof.
  unfold cancel, ws_send. repeat case_match; simplify_eq; cbn [fst]; try done.
  - eapply kept_after; [|by apply quiet_perform; [apply still_refl|]]. apply kept_reject_after. eauto with quiet.
  - apply kept_reject_after. eauto with quiet.
  - apply quiet_kept. eauto with quiet.
Qed.
Lemma quiet_settled f o a : quiet a (permission_reply_settled f o a).
Proof. unfold permission_reply_settled. quietly. Qed.
Lemma quiet_backfill now cs a : quiet a (backfill_child_sessions cfg now cs a).
Proof.
  unfold backfill_child_sessions. repeat case_match; try done. apply quiet_foldl; [done|]. intros c x. quietly.
Qed.
Lemma quiet_set_model m a : quiet a (set_model cfg m a). Proof. unfold set_model. quietly. Qed.
Lemma quiet_set_mode s m a : quiet a (set_mode cfg s m a).1.
Proof. unfold set_mode, ensure_opencode_agents. repeat case_match; simplify_eq; cbn [fst]; eauto with quiet. Qed.

(** ** Answers of the user *)

Lemma kept_steady P M a b : kept a b → steady P M a b.
Proof. intros Hk. by apply (steady_weaken _ _ _ _ _ _ Hk). Qed.
Lemma steady_quiet P M a b c : steady P M a b → quiet b c → steady P M a c.
Proof.
  intros Hs Hq. apply (stays_trans _ _ a b); [done|]. by apply kept_steady, quiet_kept.
Qed.
Definition given_leave (id reply : string) (i : string) : Prop := i = id ∧ reply ≠ "reject".
Lemma steady_shell_answer a b id reply :
  let d := if String.eqb reply "reject" then ShellApproval.Reject else ShellApproval.Allow in
  answer_of id (cards a) (cards b) (AnswerShell id d) → log b = log a ++ [AnswerShell id d] → (turn b, owed b) = (turn a, owed a) →
  (∀ k, approval_memory (blessings b) !! k = Some true → approval_memory (blessings a) !! k = Some true ∨ reply = "always") →
  steady (given_leave id reply) (reply = "always") a b.
Proof.
  intros d He Hl Ht Hm. split; [split|by injection Ht..|].
  - by apply (answered_calls _ _ id (AnswerShell id d)).
  - intros i. rewrite Hl, elem_of_app, list_elem_of_singleton. intros [|Heq]; [by left|]. right. subst d.
    destruct (String.eqb_spec reply "reject"); simplify_eq. by split.
  - done.
  - unfold finishes. rewrite Hl, List.filter_app. simpl. by rewrite app_nil_r.
Qed.
Lemma quiet_confirm_question now id rid i raw a : quiet a (confirm_question cfg now id rid i raw a).
Proof. unfold confirm_question. repeat case_match; simplify_eq; eauto 9 with quiet. Qed.
Lemma steady_confirm_locked now id data reply a :
  steady (given_leave id reply) (reply = "always") a (confirm_locked cfg now id data reply a).1.
Proof.
  unfold confirm_locked. case_bool_decide as Hs; [|case_bool_decide as He]; cbn [fst].
  - apply steady_shell_answer; [by destruct (String.eqb reply "always") .. |].
    intros k. destruct (String.eqb_spec reply "always"); [by right | by left].
  - apply kept_steady, (kept_answered _ _ id (AnswerElicitation id (if one_of reply ["cancel"; "reject"] then None else Some (default data (field "payload" data)))));
      done.
  - destruct (if is_question_call_id id then _ else _) as [[rid i]|]; cbn [fst].
    + apply kept_steady, quiet_kept, quiet_confirm_question.
    + eapply steady_quiet; [|apply quiet_drop, still_refl]. destruct (find_card id a); [|apply stays_refl].
      destruct (String.eqb_spec reply "always"); [|apply stays_refl]. apply steady_remember; [apply stays_refl | done].
Qed.
Lemma quiet_bless now id data reply a : quiet a (bless_and_drain now id data reply a).1.
Proof. unfold bless_and_drain. cbn [fst]. repeat case_match; eauto 9 with quiet. Qed.
Lemma quiet_check_replied now id a : quiet a (check_replied now id a).1.
Proof. unfold check_replied. repeat case_match; cbn [fst]; eauto with quiet. Qed.
Lemma steady_confirm now l id data al a :
  steady (given_leave id (reply_of data al)) (reply_of data al = "always") a (confirm cfg now l id data al a).1.
Proof.
  unfold confirm. set (reply := reply_of data al).
  pose proof (steady_confirm_locked now id data reply a) as Hlocked.
  set (r := if first_write l then _ else _).
  assert (steady (given_leave id reply) (reply = "always") a r.1) as Hr by (subst r; case_match; [done | apply stays_refl]).
  destruct r as [b [card|]]; cbn [fst] in *; [|done].
  set (d := if one_of reply _ && _ then _ else _).
  assert (quiet b d.1) as Hd by (subst d; case_match; [apply quiet_bless | done]).
  destruct d as [c drain]. cbn [fst] in Hd. case_match; [by apply (steady_quiet _ _ _ b)|].
  set (k := if third_write l then _ else _).
  assert (quiet c k.1) as Hk by (subst k; case_match; [apply quiet_check_replied | done]).
  destruct k as [e already]. cbn [fst] in Hk. apply (steady_quiet _ _ _ b); [done|]. rewrite Hd, Hk. case_match; [done|]. cbn [fst].
  apply quiet_perform; [|done]. apply quiet_foldl; eauto with quiet.
Qed.

(** ** Events and turns *)

Lemma answered_perform_all id es a : Forall (λ e, answers id e = false) es → answered id (log a ++ es) = answered id (log a).
Proof.
  intros Hes. rewrite answered_app. unfold answered at 2. rewrite filter_none; [simpl; lia|].
  intros e He. apply (proj1 (List.Forall_forall _ _) Hes). by rewrite <- list_elem_of_In.
Qed.
(** A step that touches no parked call and answers none. *)
Lemma grows_apart P M a b es : cards b = cards a → blessings b = blessings a → log b = log a ++ es →
  Forall (λ e, ∀ id, answers id e = false) es → grows P M a b.
Proof.
  intros Hc Hb Hl Hes. split.
  - intros id. unfold calls. rewrite Hc, Hl, answered_perform_all; [done|]. apply (Forall_impl _ _ _ Hes). auto.
  - intros id. rewrite Hl, elem_of_app. intros [|Hin]; [by left|].
    pose proof (proj1 (List.Forall_forall _ _) Hes _ (proj1 (list_elem_of_In _ _) Hin) id) as He. simpl in He.
    by rewrite String.eqb_refl in He.
  - intros k. rewrite Hb. by left.
Qed.
Lemma grows_none P M a b : grows (λ _, False) False a b → grows P M a b.
Proof. intros Hg. by apply (grows_weaken _ _ _ _ _ _ Hg). Qed.
Lemma grows_then P M a b c : kept a b → grows P M b c → grows P M a c.
Proof. intros Hk Hg. apply (grows_trans _ _ a b); [|done]. by apply (kept_steady P M) in Hk as [Hk _ _ _]. Qed.
Lemma grows_turned a b : turned a b → grows (λ _, False) False a b.
Proof.
  intros [c Hq|c m sid Hq|c Hq Hf|c d Hq]; [by apply k_grows, quiet_kept|..]; apply (grows_then _ _ _ c);
    try (by apply quiet_kept).
  - unfold emit_root_turn_finish. case_match; [apply grows_refl|]. destruct (flush_waits m).
    { by apply (grows_apart _ _ _ _ [FlushAll]); [..|repeat constructor]. }
    apply (grows_apart _ _ _ _ [FlushAll; Emit (AgentStreamEvent.Finish sid); ReleaseTurn]); [done | done | | by repeat constructor].
    simpl. by rewrite <- !app_assoc.
  - by apply (grows_apart _ _ _ _ []); [..|rewrite app_nil_r|].
  - by apply (grows_apart _ _ _ _ [Emit (AgentStreamEvent.Error d)]); [..|repeat constructor].
Qed.
(** What is left of an event once it is read. *)
Definition handled m ty props a : RemoteAgent :=
  let b := (sweep_expired_prompts cfg (now m) (can_read m) (can_write m) a).1 in
  match gate m ty props b with (c, None) => c | (c, Some s) => dispatch cfg m s ty props c end.
Definition reads (data ty : string) (props : json) : Prop :=
  ty ≠ "sync" ∧ ∃ raw, unwrap_event <$> from_str data = Some raw ∧ str_field "type" raw = Some ty ∧ field "properties" raw = Some props.
Lemma handle_reads m data ty props a : reads data ty props → handle_opencode_sse_event cfg m data a = handled m ty props a.
Proof.
  intros [Hs (raw & Hr & Ht & Hp)]. unfold handle_opencode_sse_event, handled. rewrite Hr, Ht, Hp.
  rewrite (proj2 (String.eqb_neq _ _) Hs). by destruct (sweep_expired_prompts _ _ _ _ a).
Qed.
Lemma handle_cases m data a :
  quiet a (handle_opencode_sse_event cfg m data a) ∨ ∃ ty props, handle_opencode_sse_event cfg m data a = handled m ty props a.
Proof.
  destruct (unwrap_event <$> from_str data) as [raw|] eqn:Hr; [|left; unfold handle_opencode_sse_event; by rewrite Hr].
  destruct (str_field "type" raw) as [ty|] eqn:Ht; [|left; unfold handle_opencode_sse_event; by rewrite Hr, Ht].
  destruct (String.eqb_spec ty "sync") as [->|Hs].
  { left. unfold handle_opencode_sse_event. rewrite Hr, Ht. simpl. unfold on_sync. repeat case_match; eauto with quiet. }
  destruct (field "properties" raw) as [props|] eqn:Hp.
  - right. exists ty, props. apply handle_reads. split; [done|]. by exists raw.
  - left. unfold handle_opencode_sse_event. by rewrite Hr, Ht, (proj2 (String.eqb_neq _ _) Hs), Hp.
Qed.
Lemma handled_turned m ty props a : turned (sweep_expired_prompts cfg (now m) (can_read m) (can_write m) a).1 (handled m ty props a).
Proof.
  unfold handled. set (b := (sweep_expired_prompts _ _ _ _ a).1). pose proof (quiet_gate m ty props b) as Hq.
  destruct (gate m ty props b) as [c [s|]] eqn:Hg; [|by apply turned_quiet].
  pose proof (gate_same m ty props b s) as Hc. rewrite Hg in Hc. cbn in Hc. rewrite (Hc eq_refl). apply turned_dispatch.
Qed.
Lemma grows_event m data a : grows (λ _, False) False a (handle_opencode_sse_event cfg m data a).
Proof.
  destruct (handle_cases m data a) as [Hq|(ty & props & ->)]; [by apply k_grows, quiet_kept|].
  apply (grows_then _ _ _ _ _ (kept_sweep (now m) (can_read m) (can_write m) a)), grows_turned, handled_turned.
Qed.
Lemma grows_foldl {A} P M (f : RemoteAgent → A → RemoteAgent) l a : (∀ b x, grows P M b (f b x)) → grows P M a (foldl f a l).
Proof.
  intros Hf. revert a. induction l as [|x l IH]; intros a; [apply grows_refl|]. simpl. by apply (grows_trans _ _ _ (f a x)).
Qed.
Lemma grows_history m h a : grows (λ _, False) False a (backfill_sync_history cfg m h a).
Proof.
  unfold backfill_sync_history. repeat case_match; try apply grows_refl.
  eapply grows_trans; [|apply grows_foldl; intros b ev; apply k_grows, quiet_kept; unfold advance; eauto with quiet].
  apply grows_foldl. intros b ev. case_match; [apply grows_event | apply grows_refl].
Qed.

Lemma grows_announce sid a : grows (λ _, False) False a (announce_finish sid a).
Proof.
  apply (grows_apart _ _ _ _ [Emit (AgentStreamEvent.Finish sid); ReleaseTurn]); [done | done | | by repeat constructor].
  simpl. by rewrite <- !app_assoc.
Qed.

(** The turn: at most one [Finish] more, and none once there was one; those owed are to come. *)
Definition sane a : Prop := root_turn_active (turn a) = true → finished_current_user_turn (turn a) = false.
Definition pot a : nat :=
  (finishes a + length (owed a) + (if finished_current_user_turn (turn a) then 0 else 1))%nat.
Definition ends a b : Prop := sane a → sane b ∧ (pot b ≤ pot a)%nat.
#[local] Instance ends_preorder : PreOrder ends.
Proof. split; [by intros a Ha|]. intros a b c Hab Hbc Ha. destruct (Hab Ha) as [Hb ?], (Hbc Hb). split; [done|lia]. Qed.
Lemma ends_steady P M a b : steady P M a b → ends a b.
Proof. intros [_ Ht Ho Hf] Ha. unfold sane, pot in *. rewrite Ht, Ho, Hf. split; [done|lia]. Qed.
Lemma finishes_perform a e : finishes (perform e a) = (finishes a + if is_finish e then 1 else 0)%nat.
Proof. unfold finishes. simpl. rewrite List.filter_app, length_app. simpl. by destruct (is_finish e). Qed.
Lemma ends_turned a b : turned a b → ends a b.
Proof.
  assert (∀ c, quiet a c → ends a c) as Hends by (intros c Hc; by apply (ends_steady (λ _, False) False), quiet_kept).
  intros [c Hq|c m sid Hq|c Hq Hf|c d Hq]; [by apply Hends|..]; transitivity c; auto.
  - unfold emit_root_turn_finish. destruct (root_turn_active (turn c)) eqn:Hr; [|done]. cbn [negb]. intros Hs. specialize (Hs Hr).
    destruct (flush_waits m); (split; [done|]); unfold pot, finishes; simpl; rewrite ?List.filter_app, ?length_app; simpl; rewrite Hs; lia.
  - intros _. split; [by intros _|]. done.
  - apply (ends_steady (λ _, False) False). split; [|done|done|].
    + apply (grows_apart _ _ _ _ [Emit (AgentStreamEvent.Error d)]); [..|repeat constructor]; done.
    + unfold finishes. simpl. rewrite List.filter_app. simpl. by rewrite app_nil_r.
Qed.
Lemma ends_event m data a : ends a (handle_opencode_sse_event cfg m data a).
Proof.
  destruct (handle_cases m data a) as [Hq|(ty & props & ->)]; [by apply (ends_steady (λ _, False) False), quiet_kept|].
  transitivity (sweep_expired_prompts cfg (now m) (can_read m) (can_write m) a).1.
  - by apply (ends_steady (λ _, False) False), kept_sweep.
  - apply ends_turned, handled_turned.
Qed.
Lemma ends_foldl {A} (f : RemoteAgent → A → RemoteAgent) l a : (∀ b x, ends b (f b x)) → ends a (foldl f a l).
Proof. intros Hf. revert a. induction l as [|x l IH]; intros a; [done|]. simpl. by rewrite <- (IH (f a x)), <- (Hf a x). Qed.
Lemma ends_quiet a b : quiet a b → ends a b.
Proof. intros Hq. by apply (ends_steady (λ _, False) False), quiet_kept. Qed.
Lemma ends_history m h a : ends a (backfill_sync_history cfg m h a).
Proof.
  unfold backfill_sync_history. repeat case_match; try done.
  etransitivity; [|apply ends_foldl; intros b ev; apply ends_quiet; unfold advance; eauto with quiet].
  apply ends_foldl. intros b ev. case_match; [apply ends_event | done].
Qed.

(** A call that is parked waits from then on. *)
Lemma waits_more a b id e : calls id a = 0%nat → log b = log a ++ [e] → (∀ j, answers j e = false) →
  pending_shell_approvals (cards b) = {[id]} ∪ pending_shell_approvals (cards a) ∧ pending_elicitations (cards b) = pending_elicitations (cards a) ∨
  pending_elicitations (cards b) = {[id]} ∪ pending_elicitations (cards a) ∧ pending_shell_approvals (cards b) = pending_shell_approvals (cards a) →
  ∀ j, calls j b = (calls j a + ind (id = j))%nat.
Proof.
  intros Hid Hl He Hw j. assert ((id ∉ pending_shell_approvals (cards a)) ∧ (id ∉ pending_elicitations (cards a))) as [Hs Hel].
  { revert Hid. unfold calls, waiting, ind. repeat case_decide; [lia..|]. done. }
  unfold calls, waiting. rewrite Hl, answered_app, answered_one, He.
  destruct Hw as [[-> ->]|[-> ->]]; rewrite ind_union by done; lia.
Qed.
Lemma park_waits id c a : Confirmation.call_id c = id → calls id a = 0%nat → ∀ j, calls j (park c a) = (calls j a + ind (id = j))%nat.
Proof. intros <- Hid. by eapply waits_more; [|reflexivity| |left]. Qed.
Lemma input_waits now u t msg s ctx a : calls ("elicit-" +:+ u) a = 0%nat →
  ∀ j, calls j (request_elicitation now u t msg s ctx a) = (calls j a + ind ("elicit-" +:+ u = j))%nat.
Proof. intros Hid. by eapply waits_more; [|reflexivity| |right]. Qed.
(* ------------------------------------------------------------------ *)
(** ** The clock *)

Lemma synthesize_apart now w id a : let b := synthesize_timeout_reject cfg now w id a in
  link b = link a ∧ family b = family a ∧ blessings b = blessings a.
Proof.
  cbn zeta. unfold synthesize_timeout_reject, spawn_question_reject. by repeat case_match.
Qed.
Lemma sweep_apart now r w a : let b := (sweep_expired_prompts cfg now r w a).1 in
  link b = link a ∧ family b = family a ∧ blessings b = blessings a.
Proof.
  cbn zeta. unfold sweep_expired_prompts. destruct r; cbn [negb fst]; [|done].
  generalize (List.filter (λ kv : string * Z, kv.2 <=? now) (hm_iter (prompt_expiries (deadlines a)))).*1.
  intros l. revert a. induction l as [|id l IH]; intros a; [done|]. cbn [foldl].
  destruct (IH (synthesize_timeout_reject cfg now (w id) id a)) as (-> & -> & ->). apply synthesize_apart.
Qed.
Lemma synthesize_settles now id a : let b := synthesize_timeout_reject cfg now true id a in
  prompt_expiries (deadlines b) = delete id (prompt_expiries (deadlines a)) ∧
  pending_shell_approvals (cards b) = pending_shell_approvals (cards a) ∖ {[id]} ∧
  (∀ c, c ∈ confirmations (cards b) → c ∈ confirmations (cards a) ∧ Confirmation.call_id c ≠ id).
Proof.
  cbn zeta. unfold synthesize_timeout_reject. cbn [negb].
  assert (∀ c, c ∈ List.filter (λ c, negb (is_for id c)) (confirmations (cards a)) → c ∈ confirmations (cards a) ∧ Confirmation.call_id c ≠ id) as Hdrop.
  { intros c [Hin Hid]%list_elem_of_In%filter_In. split; [by apply list_elem_of_In|]. intros <-. unfold is_for in Hid. by rewrite String.eqb_refl in Hid. }
  case_bool_decide as Hs; [by split_and!|].
  rewrite remove_absent by done.
  case_bool_decide; [by split_and!|].
  destruct (if is_question_call_id id then parse_question_call_id id else None) as [[rid i]|] eqn:Hq.
  - unfold spawn_question_reject. assert (parse_question_call_id id = Some (rid, i)) as Hp by (by destruct (is_question_call_id id)).
    enough (∀ c, c ∈ List.filter (not_of_request rid) (confirmations (cards a)) → c ∈ confirmations (cards a) ∧ Confirmation.call_id c ≠ id)
      by (destruct (opencode cfg); by split_and!).
    intros c [Hin Hid]%list_elem_of_In%filter_In. split; [by apply list_elem_of_In|]. intros <-. unfold not_of_request in Hid.
    rewrite Hp, String.eqb_refl in Hid. done.
  - destruct (opencode cfg); by split_and!.
Qed.
Lemma sweep_settles now l a : let b := foldl (λ a id, synthesize_timeout_reject cfg now true id a) a l in
  (∀ id t, prompt_expiries (deadlines b) !! id = Some t → prompt_expiries (deadlines a) !! id = Some t ∧ id ∉ l) ∧
  (∀ id, id ∈ pending_shell_approvals (cards b) → id ∈ pending_shell_approvals (cards a) ∧ id ∉ l) ∧
  (∀ c, c ∈ confirmations (cards b) → c ∈ confirmations (cards a) ∧ Confirmation.call_id c ∉ l).
Proof.
  cbn zeta. revert a. induction l as [|i l IH]; intros a; cbn [foldl]; [set_solver|].
  destruct (synthesize_settles now i a) as (He & Hs & Hc). destruct (IH (synthesize_timeout_reject cfg now true i a)) as (IHe & IHs & IHc).
  split_and!.
  - intros id t [Hl Hn]%IHe. rewrite He in Hl. apply lookup_delete_Some in Hl as [Hne Hl]. set_solver.
  - intros id [Hl Hn]%IHs. rewrite Hs in Hl. set_solver.
  - intros c [Hl Hn]%IHc. apply Hc in Hl. set_solver.
Qed.

(* ------------------------------------------------------------------ *)
(** ** Operations *)

Context (conversation_id : string) (nd : Z → bool).
(** The calls of the agent: of the local tools ([Ask_shell], [Ask_fs], [Ask_input], [Wait_over]),
    of the server ([Event], [Backfill], [History], [Replay], the ends of spawned requests) and
    of the user; [Flushed]: a handler that waited for the buffered text goes on.  An agent
    whose protocol is not OpenCode's is connected over a WebSocket instead ([connect]):
    [Ws_event] and [Ws_over] are the messages and the end of its reader. *)
Inductive Op :=
| Ask_shell (uuid shell_hint command cwd : string) (ctx : McpRequestContext.t)
| Ask_fs (uuid action detail cwd : string) (ctx : McpRequestContext.t)
| Ask_input (now : Z) (uuid tool_name message : string) (schema : option json) (ctx : McpRequestContext.t)
| Wait_over (call_id : string)
| Event (m : Moment) (data : string)
| Backfill (now : Z) (children : list json) | History (m : Moment) (h : result (list SyncEvent) AppError.t)
| Reply_settled (f : InFlight) (o : PermissionReplyOutcome.t) | Question_settled (request_id : string) (delivered : bool)
| Answer (now : Z) (l : Locks) (call_id : string) (data : json) (always_allow : bool)
| Sweep (now : Z) (r : bool) (w : string → bool)
| Send (s : Server) (now : Z) (d : SendMessageData.t) | Cancel (s : Server) (now : Z) | Kill (w : bool)
| Set_model (model_id : string) | Set_mode (s : Server) (m : string)
| Replay | Flushed (i : nat) | Ws_event (e : AgentStreamEvent.t) | Ws_over.
Definition perform_op (op : Op) (a : RemoteAgent) : RemoteAgent :=
  match op with
  | Ask_shell u h c d ctx => (approve_shell_with_context u h c d ctx a).1
  | Ask_fs u k d c ctx => (approve_fs_action u k d c ctx a).1
  | Ask_input n u t m s ctx => request_elicitation n u t m s ctx a
  | Wait_over id => shell_wait_over id a
  | Event m d => handle_opencode_sse_event cfg m d a
  | Backfill n cs => backfill_child_sessions cfg n cs a
  | History m h => backfill_sync_history cfg m h a
  | Reply_settled f o => permission_reply_settled f o a
  | Question_settled i d => question_reply_settled i d a
  | Answer n l i d al => (confirm cfg n l i d al a).1
  | Sweep n r w => (sweep_expired_prompts cfg n r w a).1
  | Send s n d => (send_message cfg conversation_id nd s n d a).1
  | Cancel s n => (cancel cfg s n a).1
  | Kill w => kill w a
  | Set_model m => set_model cfg m a
  | Set_mode s m => (set_mode cfg s m a).1
  | Replay => replay_pending_confirmations a
  | Flushed i => finish_flushed i a
  | Ws_event e => if opencode cfg then a else handle_raw_event e a
  | Ws_over => if opencode cfg then a else ws_reader_over a
  end.
Definition run (ops : list Op) (a : RemoteAgent) : RemoteAgent := foldl (λ a op, perform_op op a) a ops.
(** The call an operation parks. *)
Definition parks (op : Op) (a : RemoteAgent) : option string :=
  match op with
  | Ask_shell u _ _ _ _ => if remembered shell_approval_key a then None else Some ("shell-" +:+ u)
  | Ask_fs u _ _ _ _ => if remembered fs_approval_key a then None else Some ("fsop-" +:+ u)
  | Ask_input _ u _ _ _ _ => Some ("elicit-" +:+ u)
  | _ => None
  end.
Fixpoint parked (ops : list Op) (a : RemoteAgent) : list string :=
  match ops with
  | [] => []
  | op :: ops => option_list (parks op a) ++ parked ops (perform_op op a)
  end.

(** An operation of a local tool that parks its call. *)
Lemma ask_waits op a id : parks op a = Some id → calls id a = 0%nat → ∀ j, calls j (perform_op op a) = (calls j a + ind (id = j))%nat.
Proof.
  intros Hp Hid. destruct op; cbn [parks perform_op] in *; simplify_eq; [| |by apply input_waits].
  all: unfold approve_shell_with_context, approve_fs_action; case_match; simplify_eq; destruct (attribution ctx a); by apply park_waits.
Qed.
Lemma ask_apart op a : is_Some (parks op a) →
  (∀ id, AnswerShell id ShellApproval.Allow ∈ log (perform_op op a) → AnswerShell id ShellApproval.Allow ∈ log a) ∧
  blessings (perform_op op a) = blessings a ∧ (turn (perform_op op a), owed (perform_op op a)) = (turn a, owed a) ∧ finishes (perform_op op a) = finishes a.
Proof.
  intros [id Hp]. destruct op; cbn [parks perform_op] in *; simplify_eq;
    try (unfold approve_shell_with_context, approve_fs_action; case_match; simplify_eq; destruct (attribution ctx a); cbn [fst]).
  all: repeat split; try (intros i; cbn; rewrite elem_of_app, list_elem_of_singleton; by intros [|]).
  all: unfold finishes; cbn; rewrite List.filter_app; simpl; by rewrite app_nil_r.
Qed.

(** Sending: after the turn has begun, only requests are made. *)
Lemma quiet_session s a : quiet a (session_for_prompt s a).1.
Proof. unfold session_for_prompt. repeat case_match; cbn [fst]; eauto with quiet. Qed.
Lemma quiet_expand s c a : quiet a (expand nd s c a).1.
Proof. unfold expand, ensure_opencode_commands. repeat case_match; simplify_eq; cbn [fst]; eauto with quiet. Qed.
Lemma quiet_release a r : quiet a r.1 → quiet a (release_on_error r).1.
Proof. intros Hq. unfold release_on_error. destruct r as [b [x|e]]; cbn [fst] in *; eauto with quiet. Qed.
Lemma quiet_send_acquired s c i sk a : quiet a (opencode_send_after_acquire cfg nd s c i sk a).1.
Proof.
  unfold opencode_send_after_acquire. pose proof (quiet_session s a) as Hs.
  destruct (session_for_prompt s a) as [b [[sid fresh]|e]]; cbn [fst] in *; [|done].
  pose proof (quiet_expand s c b) as He. destruct (expand nd s c b) as [d [[x o] m]]; cbn [fst] in *.
  rewrite Hs, He. eauto with quiet.
Qed.
Lemma quiet_prompt_send s c i sk a : quiet a (opencode_send cfg nd s c i sk a).1.
Proof. unfold opencode_send. apply quiet_release. rewrite <- quiet_send_acquired. eauto with quiet. Qed.
Lemma quiet_send_command s c a : quiet a (opencode_send_command s c a).1.
Proof.
  unfold opencode_send_command. apply quiet_release. pose proof (quiet_session s (perform AcquireTurn a)) as Hs.
  assert (quiet a (perform AcquireTurn a)) as Ha by eauto with quiet.
  destruct (session_for_prompt s (perform AcquireTurn a)) as [b [[sid fresh]|e]]; cbn [fst] in *; rewrite Ha, Hs; eauto with quiet.
Qed.
Lemma quiet_dispatch_prompt s c i sk a : quiet a (dispatch_opencode_prompt cfg nd s c i sk a).1.
Proof.
  unfold dispatch_opencode_prompt. case_match; [apply quiet_prompt_send|]. pose proof (quiet_session s a) as Hs.
  destruct (session_for_prompt s a) as [b [[sid fresh]|e]]; cbn [fst] in *; [|done]. rewrite Hs.
  repeat case_match; cbn [fst]; eauto with quiet. rewrite <- quiet_prompt_send. eauto with quiet.
Qed.
Lemma quiet_ws_send s p a : quiet a (ws_send s p a).1.
Proof. unfold ws_send. case_match; cbn [fst]; eauto with quiet. Qed.
Lemma quiet_sent s now d a : quiet (begin_turn cfg now a) (send_message cfg conversation_id nd s now d a).1.
Proof.
  unfold send_message. set (b := begin_turn cfg now a).
  repeat case_match; try apply quiet_ws_send; unfold ensure_opencode_commands, emit_model_info in *; repeat case_match; simplify_eq;
    (eapply still_trans; [|first [apply quiet_send_command | apply quiet_prompt_send | apply quiet_dispatch_prompt]]); eauto with quiet.
Qed.
Lemma grows_begin now a : grows (λ _, False) False a (begin_turn cfg now a).
Proof.
  unfold begin_turn. eapply grows_then; [apply (kept_reject_after now a (bump_activity now a)); eauto with quiet|].
  apply (grows_apart _ _ _ _ []); [done | done | by rewrite app_nil_r | done].
Qed.

(* ------------------------------------------------------------------ *)
(** ** Runs *)

(** The user said of the call that it may go on, that the answer is to be remembered. *)
Definition leave (op : Op) (id : string) : Prop :=
  ∃ now l data al, op = Answer now l id data al ∧ reply_of data al ≠ "reject".
Definition always (op : Op) : Prop := ∃ now l id data al, op = Answer now l id data al ∧ reply_of data al = "always".
Definition is_send (op : Op) : bool := match op with Send _ _ _ => true | _ => false end.

(** What may end the turn. *)
Definition may_end (op : Op) : bool :=
  match op with Event _ _ | History _ _ | Flushed _ | Ws_event _ => true | _ => false end.
Lemma quiet_replay a : quiet a (replay_pending_confirmations a).
Proof. unfold replay_pending_confirmations. apply quiet_foldl; eauto with quiet. Qed.
Lemma kept_ws_over a : kept a (ws_reader_over a).
Proof.
  unfold ws_reader_over. case_match; [|apply quiet_kept; eauto with quiet].
  split; [|done..]. by apply (grows_apart _ _ _ _ []); [..|rewrite app_nil_r|].
Qed.
Lemma grows_ws_event e a : grows (λ _, False) False a (handle_raw_event e a).
Proof.
  unfold handle_raw_event. apply (grows_trans _ _ _ (update_state_from_event e a)).
  - unfold update_state_from_event. repeat case_match; try apply grows_refl;
      (split; [done|by left|by left]).
  - by apply (grows_apart _ _ _ _ [Emit e]); [..|repeat constructor].
Qed.
Lemma ws_event_turn e a : turn (handle_raw_event e a) = turn a.
Proof. unfold handle_raw_event, update_state_from_event. by repeat case_match. Qed.
Lemma op_steady op a : parks op a = None → is_send op = false → may_end op = false →
  steady (leave op) (always op) a (perform_op op a).
Proof.
  intros Hp Hs He. destruct op; cbn [parks perform_op is_send may_end] in *; try done.
  all: try (apply kept_steady; first [apply kept_wait_over | apply kept_sweep | apply kept_cancel | apply kept_kill
    | apply quiet_kept; first [apply quiet_backfill | apply quiet_settled | apply quiet_set_model | apply quiet_set_mode | apply quiet_replay]]; fail).
  - unfold approve_shell_with_context. case_match; [apply stays_refl | done].
  - unfold approve_fs_action. case_match; [apply stays_refl | done].
  - unfold question_reply_settled. apply kept_steady, quiet_kept. eauto with quiet.
  - eapply steady_weaken; [apply steady_confirm| |].
    + intros i [-> Hr]. by repeat eexists.
    + intros Hr. by repeat eexists.
  - destruct (opencode cfg); [apply stays_refl|apply kept_steady, kept_ws_over].
Qed.
Lemma op_grows op a : parks op a = None → grows (leave op) (always op) a (perform_op op a).
Proof.
  intros Hp. destruct (is_send op) eqn:Hs.
  - destruct op; try done. cbn [perform_op]. eapply grows_trans; [apply grows_none, grows_begin|].
    apply (k_grows _ _ _ _ (kept_steady _ _ _ _ (quiet_kept _ _ (quiet_sent _ _ _ _)))).
  - destruct op; try (apply k_grows, op_steady; done); cbn [perform_op]; apply grows_none.
    + apply grows_event.
    + apply grows_history.
    + unfold finish_flushed. case_match; [|apply grows_refl].
      eapply grows_trans; [|apply grows_announce]. by apply (grows_apart _ _ _ _ []); [..|rewrite app_nil_r|].
    + destruct (opencode cfg); [apply grows_refl|apply grows_ws_event].
Qed.
Lemma op_allowed op a : (∀ id, AnswerShell id ShellApproval.Allow ∈ log (perform_op op a) → AnswerShell id ShellApproval.Allow ∈ log a ∨ leave op id) ∧
  (∀ k, approval_memory (blessings (perform_op op a)) !! k = Some true → approval_memory (blessings a) !! k = Some true ∨ always op).
Proof.
  destruct (parks op a) as [id|] eqn:Hp; [|by destruct (op_grows op a Hp)].
  destruct (ask_apart op a) as (Ha & Hb & _); [by rewrite Hp|]. rewrite Hb. auto.
Qed.
Lemma ends_flushed i a : ends a (finish_flushed i a).
Proof.
  unfold finish_flushed. destruct (owed a !! i) as [sid|] eqn:Hi; [|done]. intros Ha. split; [done|].
  unfold pot, announce_finish. rewrite finishes_perform. cbn [is_finish]. unfold emit, transition_to, on_status, on_log, on_owed, finishes. simpl.
  rewrite List.filter_app, length_app, length_delete by done. apply lookup_lt_Some in Hi. simpl. lia.
Qed.
Lemma op_ends op a : is_send op = false → (∀ e, op = Ws_event e → opencode cfg = true) → ends a (perform_op op a).
Proof.
  intros Hs Hcfg. destruct (parks op a) as [id|] eqn:Hp.
  - destruct (ask_apart op a) as (_ & _ & Ht & Hf); [by rewrite Hp|].
    injection Ht as Ht Ho. intros Ha. unfold sane, pot in *. rewrite Ht, Ho, Hf. split; [done|lia].
  - destruct op; try (by eapply ends_steady, op_steady); cbn [perform_op];
      [apply ends_event | apply ends_history | apply ends_flushed | by rewrite (Hcfg _ eq_refl)].
Qed.
Lemma send_turn s now d a : finished_current_user_turn (turn (send_message cfg conversation_id nd s now d a).1) = false.
Proof. by rewrite (q_turn _ _ (quiet_sent s now d a)). Qed.
Lemma op_sane op a : sane a → sane (perform_op op a).
Proof.
  intros Ha. destruct (is_send op) eqn:Hs; [destruct op; try done; intros _; apply send_turn|].
  destruct (may_end op) eqn:He; [|apply op_ends; [done| |done]; by intros e ->].
  destruct op; try done; try (by apply op_ends). cbn [perform_op]. destruct (opencode cfg); [done|].
  unfold sane. by rewrite ws_event_turn.
Qed.
Lemma ops_app ops ops' a : run (ops ++ ops') a = run ops' (run ops a).
Proof. apply foldl_app. Qed.
Lemma run_calls ops a : NoDup (parked ops a) → (∀ id, id ∈ parked ops a → calls id a = 0%nat) →
  ∀ id, calls id (run ops a) = (calls id a + ind (id ∈ parked ops a))%nat.
Proof.
  revert a. induction ops as [|op ops IH]; intros a Hnd Hfresh id; [cbn [parked run foldl]; unfold ind; rewrite decide_False by set_solver; lia|].
  cbn [parked run foldl] in *. fold (run ops (perform_op op a)). destruct (parks op a) as [i|] eqn:Hp; cbn [option_list app] in *.
  - apply NoDup_cons in Hnd as [Hi Hnd]. pose proof (ask_waits op a i Hp (Hfresh i ltac:(set_solver))) as Hw.
    rewrite IH; [|done|].
    + rewrite Hw. unfold ind. repeat case_decide; set_solver by lia.
    + intros j Hj. rewrite Hw, Hfresh by set_solver. unfold ind. rewrite decide_False; [done|]. by intros ->.
  - destruct (op_grows op a Hp) as [Hc _ _]. rewrite IH, Hc; [done|done|]. intros j Hj. rewrite Hc. by apply Hfresh.
Qed.
Lemma run_allowed ops a id : AnswerShell id ShellApproval.Allow ∈ log (run ops a) →
  AnswerShell id ShellApproval.Allow ∈ log a ∨ ∃ op, op ∈ ops ∧ leave op id.
Proof.
  revert a. induction ops as [|op ops IH]; intros a; [by left|]. cbn [run foldl]. intros [Hin|(o & Ho & Hl)]%IH.
  - apply (op_allowed op a) in Hin as [|]; [by left|]. right. exists op. set_solver.
  - right. exists o. set_solver.
Qed.
Lemma run_memory ops a k : approval_memory (blessings (run ops a)) !! k = Some true →
  approval_memory (blessings a) !! k = Some true ∨ ∃ op, op ∈ ops ∧ always op.
Proof.
  revert a. induction ops as [|op ops IH]; intros a; [by left|]. cbn [run foldl]. intros [Hin|(o & Ho & Hl)]%IH.
  - apply (op_allowed op a) in Hin as [|]; [by left|]. right. exists op. set_solver.
  - right. exists o. set_solver.
Qed.
Lemma run_ends ops a : opencode cfg = true → Forall (λ op, is_send op = false) ops → ends a (run ops a).
Proof.
  intros Hcfg Hops. revert a. induction Hops as [|op ops Hop _ IH]; intros a; [done|]. cbn [run foldl].
  by rewrite <- (IH (perform_op op a)), <- (op_ends op a Hop (λ _ _, Hcfg)).
Qed.
Lemma run_sane ops a : sane a → sane (run ops a).
Proof. revert a. induction ops as [|op ops IH]; intros a Ha; [done|]. cbn [run foldl]. by apply IH, op_sane. Qed.

(* ------------------------------------------------------------------ *)
(** ** The theorems *)

Section from_the_start.
Context (workspace : string) (resume : option string) (start : Z).
Definition born : RemoteAgent := new_with_history workspace resume start.
Lemma sane_born : sane born. Proof. done. Qed.

(** C14: whatever calls, events, answers, timeouts, new messages, cancellations and the closing of the
    agent follow one another: a call of a local tool that was parked for the user still waits,
    or it was answered, and then exactly once; nothing else is ever answered. *)
Theorem parked_calls_answered_once (ops : list Op) : NoDup (parked ops born) →
  ∀ id, (answered id (log (run ops born)) + waiting id (cards (run ops born)))%nat = ind (id ∈ parked ops born).
Proof. intros Hnd id. by apply (run_calls ops born Hnd). Qed.

(** C15: whatever happens to an agent, a parked command or file operation only goes on when the user answered
    that very call, otherwise than by a rejection; and a command or file operation only goes on without
    being shown when the user answered some prompt before with "always". *)
Theorem nothing_runs_without_leave (ops : list Op) :
  (∀ id, AnswerShell id ShellApproval.Allow ∈ log (run ops born) →
     ∃ now l data al, Answer now l id data al ∈ ops ∧ reply_of data al ≠ "reject") ∧
  (∀ uuid hint command cwd ctx, (approve_shell_with_context uuid hint command cwd ctx (run ops born)).2 = Some ShellApproval.Allow →
     ∃ now l id data al, Answer now l id data al ∈ ops ∧ reply_of data al = "always") ∧
  (∀ uuid action detail cwd ctx, (approve_fs_action uuid action detail cwd ctx (run ops born)).2 = Some ShellApproval.Allow →
     ∃ now l id data al, Answer now l id data al ∈ ops ∧ reply_of data al = "always").
Proof.
  assert (∀ k, remembered k (run ops born) = true → ∃ now l id data al, Answer now l id data al ∈ ops ∧ reply_of data al = "always") as Hmem.
  { intros k Hk. unfold remembered in Hk. destruct (approval_memory _ !! k) as [v|] eqn:Hv; [|done]. cbn in Hk. subst v.
    apply run_memory in Hv as [Hv|(op & Hin & n & l & id & d & al & -> & Hr)]; [done|]. by exists n, l, id, d, al. }
  split_and!.
  - intros id [Hin|(op & Hin & n & l & d & al & -> & Hr)]%run_allowed; [by apply not_elem_of_nil in Hin|]. by exists n, l, d, al.
  - intros u h c d ctx. unfold approve_shell_with_context. case_match eqn:Hr; [intros _; by apply (Hmem _ Hr)|]. by destruct (attribution _ _).
  - intros u k c d ctx. unfold approve_fs_action. case_match eqn:Hr; [intros _; by apply (Hmem _ Hr)|]. by destruct (attribution _ _).
Qed.

(** C16: an agent of an OpenCode server, between two messages of the user: besides the
    ends of earlier turns that still waited for their text to be flushed when the
    first message came, the end of a turn is announced at most once, and not at all
    when the turn had ended before: [busy] and [idle] in any number and order, of the
    root session or of sub-agents, do not end the next turn. *)
Theorem one_finish_per_turn (ops ops' : list Op) : opencode cfg = true → Forall (λ op, is_send op = false) ops' →
  (finishes (run (ops ++ ops') born) ≤ finishes (run ops born) + length (owed (run ops born)) +
   if finished_current_user_turn (turn (run ops born)) then 0 else 1)%nat.
Proof.
  intros Hcfg Hops. rewrite ops_app.
  destruct (run_ends ops' (run ops born) Hcfg Hops (run_sane ops born sane_born)) as [_ Hp].
  unfold pot in Hp. lia.
Qed.
End from_the_start.

(** An event of a session that is neither the agent's nor a sub-agent's changes nothing besides the
    prompts the clock settles with every event; an event of a sub-agent, whatever it says,
    leaves the turn, its status, the waiting calls and the memory as they are and is never the
    end of the turn for who relays the stream. *)
Lemma other_sessions_apart (m : Moment) (data ty sid : string) (props : json) (a : RemoteAgent) :
  reads data ty props → str_field "sessionID" props = Some sid → root_session a ≠ Some sid →
  let b := (sweep_expired_prompts cfg (now m) (can_read m) (can_write m) a).1 in
  (child_sessions (family a) !! sid = None → ty ≠ "session.created" → handle_opencode_sse_event cfg m data a = b) ∧
  (is_Some (child_sessions (family a) !! sid) → quiet b (handle_opencode_sse_event cfg m data a)).
Proof.
  intros Hr Hs Hown b. rewrite (handle_reads m data ty props a Hr). unfold handled. fold b.
  destruct (sweep_apart (now m) (can_read m) (can_write m) a) as (Hl & Hf & _). fold b in Hl, Hf.
  assert (bool_decide (root_session b = Some sid) = false) as Hb by (apply bool_decide_eq_false; unfold root_session in *; by rewrite Hl).
  split.
  - intros Hc Hty. unfold gate. rewrite Hs, Hb, Hf, Hc, (proj2 (String.eqb_neq _ _) Hty). done.
  - intros Hc. pose proof (quiet_gate m ty props b) as Hq. destruct (gate m ty props b) as [c [s|]] eqn:Hg; cbn [fst] in Hq; [|done].
    rewrite Hq. apply quiet_dispatch_child. revert Hg. unfold gate. rewrite Hs, Hb, Hf, (bool_decide_eq_true_2 _ Hc).
    intros Hg. repeat case_match; simplify_eq; done.
Qed.

(** The root session is done: it is idle, or its answer has stopped. *)
Definition says_done (ty : string) (props : json) : bool :=
  if String.eqb ty "session.idle" then true
  else if String.eqb ty "session.status" then bool_decide (path_field ["status"; "type"] props ≫= as_str = Some "idle")
  else if String.eqb ty "message.updated" then
    match field "info" props with
    | Some info => bool_decide (str_field "role" info = Some "assistant") && bool_decide (str_field "finish" info = Some "stop")
    | None => false end
  else false.
Lemma root_finish m sid a b : quiet a b → root_turn_active (turn a) = true → flush_waits m = false →
  let c := emit_root_turn_finish m sid b in
  (∃ es, Forall inert es ∧ log c = log a ++ es ++ [FlushAll; Emit (AgentStreamEvent.Finish sid); ReleaseTurn]) ∧
  root_turn_active (turn c) = false ∧ finished_current_user_turn (turn c) = true ∧
  status c = status (transition_to ConversationStatus.Finished a).
Proof.
  intros [Hs He Ht Hm Hst Ho (es & Hl & Hi)] Hr Hw. cbn zeta. unfold emit_root_turn_finish. rewrite Ht, Hr, Hw. cbn [negb]. split_and!; try done.
  - exists es. split; [done|]. simpl. rewrite Hl, <- !app_assoc. done.
  - simpl. by rewrite Hst.
Qed.
Lemma done_dispatch m s ty props a : is_child s = false → says_done ty props = true →
  ∃ b, quiet a b ∧ dispatch cfg m s ty props a = emit_root_turn_finish m (session_id s) b.
Proof.
  intros Hc. unfold says_done. destruct (String.eqb_spec ty "session.idle") as [->|_];
    [|destruct (String.eqb_spec ty "session.status") as [->|_]; [|destruct (String.eqb_spec ty "message.updated") as [->|_]; [|done]]].
  - intros _. change (dispatch cfg m s "session.idle" props a) with (on_session_idle m s props a). unfold on_session_idle, on_idle.
    rewrite Hc. eexists. split; [|reflexivity]. case_match; eauto with quiet.
  - intros Hd%bool_decide_eq_true. change (dispatch cfg m s "session.status" props a) with (on_session_status m s props a).
    unfold on_session_status. rewrite Hd. cbn [String.eqb Ascii.eqb Bool.eqb]. unfold on_idle. rewrite Hc.
    eexists. split; [|reflexivity]. repeat case_match; eauto with quiet.
  - destruct (field "info" props) as [info|] eqn:Hi; [|done]. intros [Hr%bool_decide_eq_true Hf%bool_decide_eq_true]%andb_true_iff.
    change (dispatch cfg m s "message.updated" props a) with (on_message_updated m s props a). unfold on_message_updated.
    rewrite Hi, Hr, Hf, Hc, !bool_decide_eq_true_2 by done. cbn [negb andb].
    eexists. split; [|reflexivity]. unfold context_limit_for. repeat case_match; simplify_eq; eauto 8 with quiet.
Qed.

(** When the root session says that it is done (it is idle, or its answer has stopped) and the turn has
    begun, the buffered text is flushed, then the end of the turn is announced, then the slot of
    the server is freed (here when nothing else happens until the flush is over); until the next message no such word has any
    effect on the turn. *)
Lemma root_session_ends_the_turn (m : Moment) (data ty sid : string) (props : json) (a : RemoteAgent) :
  reads data ty props → str_field "sessionID" props = Some sid → root_session a = Some sid → says_done ty props = true →
  flush_waits m = false →
  let b := (sweep_expired_prompts cfg (now m) (can_read m) (can_write m) a).1 in
  let c := handle_opencode_sse_event cfg m data a in
  if root_turn_active (turn a) then
    (∃ es, Forall inert es ∧ log c = log b ++ es ++ [FlushAll; Emit (AgentStreamEvent.Finish (Some sid)); ReleaseTurn]) ∧
    root_turn_active (turn c) = false ∧ finished_current_user_turn (turn c) = true ∧
    status c = status (transition_to ConversationStatus.Finished b)
  else quiet b c.
Proof.
  intros Hr Hs Hown Hd Hw b c. destruct (sweep_apart (now m) (can_read m) (can_write m) a) as (Hl & _ & _). fold b in Hl.
  assert (turn b = turn a) as Ht by apply kept_sweep. rewrite <- Ht.
  assert (∃ d, quiet b d ∧ c = emit_root_turn_finish m (Some sid) d) as (d & Hq & ->).
  { subst c. rewrite (handle_reads m data ty props a Hr). unfold handled. fold b. unfold gate.
    rewrite Hs. unfold root_session in *. rewrite Hl, Hown, bool_decide_eq_true_2 by done. cbn [negb andb].
    rewrite andb_false_r. by apply done_dispatch. }
  destruct (root_turn_active (turn b)) eqn:Hact; [by apply root_finish|].
  unfold emit_root_turn_finish. rewrite (q_turn _ _ Hq), Hact. done.
Qed.

(** When the state is not locked, every event (and every call of the sweep) settles the prompts whose time
    is over: no deadline that has passed is left, their cards are gone and no command waits for
    them. *)
Lemma expired_prompts_are_settled (now : Z) (a : RemoteAgent) (id : string) (deadline : Z) :
  prompt_expiries (deadlines a) !! id = Some deadline → deadline ≤ now →
  let b := (sweep_expired_prompts cfg now true (λ _, true) a).1 in
  (∀ i t, prompt_expiries (deadlines b) !! i = Some t → now < t) ∧
  id ∉ pending_shell_approvals (cards b) ∧ (∀ c, c ∈ confirmations (cards b) → Confirmation.call_id c ≠ id).
Proof.
  intros Hid Hdl b. unfold b, sweep_expired_prompts. cbn [negb fst].
  set (l := (List.filter (λ kv : string * Z, kv.2 <=? now) (hm_iter (prompt_expiries (deadlines a)))).*1).
  assert (∀ i t, prompt_expiries (deadlines a) !! i = Some t → t ≤ now → i ∈ l) as Hexp.
  { intros i t Hi Ht. apply list_elem_of_fmap. exists (i, t). split; [done|]. apply list_elem_of_In, filter_In. split; [|simpl; lia].
    by apply list_elem_of_In, elem_of_hm_iter. }
  destruct (sweep_settles now l a) as (He & Hsh & Hc). split_and!.
  - intros i t [Hi Hn]%He. destruct (decide (t ≤ now)); [|lia]. by destruct Hn; apply (Hexp i t).
  - intros [_ Hn]%Hsh. destruct Hn. by apply (Hexp id deadline).
  - intros c [_ Hn]%Hc <-. destruct Hn. by apply (Hexp (Confirmation.call_id c) deadline).
Qed.
End operations.
