(* ===== verification/RemoteExamples.v ===== *)
(** * RemoteExamples: a remote agent at work

    Witnesses of the theorems of [RemoteFacts] on concrete runs, and runs that show where the
    agent does other than its comments say. *)

From S2P Require Import Prelude.
From S2P Require Import Text.
From S2P Require Import TeamTypes.
From S2P Require Import JsonValue.
From S2P Require Import Common.
From S2P Require Import AgentEvents.
From S2P Require Import OpenCode.
From S2P Require Import RemoteSse.
From S2P Require Import RemoteState.
From S2P Require Import RemotePrompts.
From S2P Require Import RemoteEvents.
From S2P Require Import RemoteTurns.
From S2P Require Import RemoteFrames.
From S2P Require Import RemoteFacts.
Import OpencodeQuestion(PendingQuestion).

Module RemoteScene.
#[local] Existing Instance plain_codec.
#[local] Existing Instance ascii_unicode.
#[global] Instance times_in_order : HashIter Z := hash_iter_canonical Z.
#[global] Instance ids_in_order : HashIter unit := hash_iter_canonical unit.
#[global] Instance questions_in_order : HashIter PendingQuestion := hash_iter_canonical PendingQuestion.
#[global] Instance children_in_order : HashIter Subagent.ChildSession := hash_iter_canonical Subagent.ChildSession.

Definition cfg : RemoteAgentConfig.t := RemoteAgentConfig.mk "r1" "opencode" "http://s" "none" None false "local".
Definition ascii_digit (c : Z) : bool := (48 <=? c) && (c <=? 57).
Definition at_ (t : Z) : Moment := mk_moment t true (λ _, true) true ∅ false.
Definition wire (ty : string) (props : list (string * json)) : string :=
  to_string (Obj [("properties", Obj props); ("type", Str ty)]).
Definition of_session (sid : string) (props : list (string * json)) : list (string * json) := ("sessionID", Str sid) :: props.
Definition status_props (sid st : string) : list (string * json) := of_session sid [("status", Obj [("type", Str st)])].
Definition says (t : Z) (sid st : string) : Op := Event (at_ t) (wire "session.status" (status_props sid st)).
(** The same, when something else happens while the handler waits for the flush. *)
Definition says_slowly (t : Z) (sid st : string) : Op :=
  Event (mk_moment t true (λ _, true) true ∅ true) (wire "session.status" (status_props sid st)).
Definition no_ctx : McpRequestContext.t := McpRequestContext.mk None None.
Definition ask (uuid : string) : Op := Ask_shell uuid "sh" "ls" "/ws" no_ctx.
Definition answer (t : Z) (id reply : string) : Op := Answer t all_free id (Str reply) false.
Definition server : Server :=
  mk_server [] [] [] [] (Ok "root") (Ok tt) (Ok tt) (Ok tt) None "use the local tools" None.
Definition say (t : Z) (text : string) : Op := Send server t (SendMessageData.mk text "m" [] [] None).
Notation after ops := (run cfg "c" ascii_digit ops (born "/ws" (Some "root") 0)).
Definition finish_of (e : Effect) : option string := match e with Emit (AgentStreamEvent.Finish o) => o | _ => None end.
Definition child_born : Op := Event (at_ 5) (wire "session.created" (of_session "kid" [("info", Obj [("id", Str "kid"); ("parentID", Str "root")])])).
End RemoteScene.

Section witnesses.
Import RemoteScene.
#[local] Existing Instance plain_codec.
#[local] Existing Instance ascii_unicode.

Definition two_calls : list Op :=
  [say 1 "hi"; ask "a"; ask "b"; answer 2 "shell-b" "once"; answer 3 "shell-b" "once"; Cancel server 4; answer 5 "shell-a" "once"].
Example two_calls_answers :
  List.filter (λ e, match e with AnswerShell _ _ => true | _ => false end) (log (after two_calls)) =
    [AnswerShell "shell-b" ShellApproval.Allow; AnswerShell "shell-a" ShellApproval.Reject].
Proof. vm_compute. reflexivity. Qed.
Lemma parked_calls_answered_once_witness :
  parked cfg "c" ascii_digit two_calls (born "/ws" (Some "root") 0) = ["shell-a"; "shell-b"] ∧
  ∀ id, (answered id (log (after two_calls)) + waiting id (cards (after two_calls)))%nat =
    ind (id ∈ parked cfg "c" ascii_digit two_calls (born "/ws" (Some "root") 0)).
Proof.
  split; [vm_compute; reflexivity|].
  apply (parked_calls_answered_once cfg "c" ascii_digit "/ws" (Some "root") 0 two_calls).
  apply (bool_decide_unpack _). vm_compute. exact I.
Defined.
Lemma nothing_runs_without_leave_witness :
  AnswerShell "shell-b" ShellApproval.Allow ∈ log (after two_calls) ∧
  ∃ now l data al, Answer now l "shell-b" data al ∈ two_calls ∧ reply_of data al ≠ "reject".
Proof.
  assert (AnswerShell "shell-b" ShellApproval.Allow ∈ log (after two_calls)) as Hin.
  { apply (list_elem_of_lookup_2 _ 4). vm_compute. reflexivity. }
  split; [exact Hin|]. unfold after in Hin.
  exact (proj1 (nothing_runs_without_leave cfg "c" ascii_digit "/ws" (Some "root") 0 two_calls) "shell-b" Hin).
Defined.

Definition a_turn : list Op := [say 1 "hi"; says 2 "root" "busy"; says 3 "root" "idle"].
Definition stragglers : list Op := [says 4 "root" "busy"; says 5 "root" "idle"; says 6 "kid" "idle"].
Lemma one_finish_per_turn_witness :
  Forall (λ op, is_send op = false) stragglers ∧ finishes (after a_turn) = 1%nat ∧
  (finishes (after (a_turn ++ stragglers)) ≤ finishes (after a_turn) + length (owed (after a_turn)) +
   if finished_current_user_turn (turn (after a_turn)) then 0 else 1)%nat.
Proof.
  split; [by repeat constructor|]. split; [vm_compute; reflexivity|].
  apply (one_finish_per_turn cfg "c" ascii_digit "/ws" (Some "root") 0 a_turn stragglers); [reflexivity|by repeat constructor].
Defined.

Definition with_child : RemoteAgent := after [say 1 "hi"; says 2 "root" "busy"; child_born].
Lemma other_sessions_apart_witness :
  is_Some (child_sessions (family with_child) !! "kid") ∧
  quiet (sweep_expired_prompts cfg 9 true (λ _, true) with_child).1
    (handle_opencode_sse_event cfg (at_ 9) (wire "session.status" (status_props "kid" "idle")) with_child).
Proof.
  assert (is_Some (child_sessions (family with_child) !! "kid")) as Hk by (vm_compute; by eexists).
  split; [exact Hk|].
  apply (other_sessions_apart cfg (at_ 9) (wire "session.status" (status_props "kid" "idle")) "session.status" "kid"
    (Obj (status_props "kid" "idle")) with_child); [|vm_compute; reflexivity|vm_compute; discriminate|exact Hk].
  split; [discriminate|]. eexists. split; [vm_compute; reflexivity|]. split; vm_compute; reflexivity.
Defined.
Lemma root_session_ends_the_turn_witness :
  let a := after [say 1 "hi"; says 2 "root" "busy"] in
  let c := handle_opencode_sse_event cfg (at_ 3) (wire "session.status" (status_props "root" "idle")) a in
  root_turn_active (turn a) = true ∧
  root_turn_active (turn c) = false ∧ finished_current_user_turn (turn c) = true.
Proof.
  intros a c. assert (root_turn_active (turn a) = true) as Ha by (vm_compute; reflexivity). split; [exact Ha|].
  pose proof (root_session_ends_the_turn cfg (at_ 3) (wire "session.status" (status_props "root" "idle")) "session.status" "root"
    (Obj (status_props "root" "idle")) a) as Hthm. cbn zeta in Hthm. fold c in Hthm. rewrite Ha in Hthm.
  destruct Hthm as (_ & Hr & Hf & _); [|vm_compute; reflexivity..|by split].
  split; [discriminate|]. eexists. split; [vm_compute; reflexivity|]. split; vm_compute; reflexivity.
Defined.

Definition with_prompt : RemoteAgent := after
  [say 1 "hi"; Event (at_ 1000) (wire "permission.asked" (of_session "root" [("id", Str "per_1"); ("permission", Str "edit")]))].
Lemma expired_prompt_example :
  prompt_expiries (deadlines with_prompt) !! "per_1" = Some 61000 ∧
  (∀ c, c ∈ confirmations (cards (sweep_expired_prompts cfg 61000 true (λ _, true) with_prompt).1) → Confirmation.call_id c ≠ "per_1").
Proof.
  assert (prompt_expiries (deadlines with_prompt) !! "per_1" = Some 61000) as Hp by (vm_compute; reflexivity).
  split; [exact Hp|]. apply (expired_prompts_are_settled cfg 61000 with_prompt "per_1" 61000 Hp). lia.
Qed.
End witnesses.

(* ------------------------------------------------------------------ *)
(** ** Where the code does otherwise *)

Section surprises.
Import RemoteScene.
#[local] Existing Instance plain_codec.
#[local] Existing Instance ascii_unicode.

Definition posted (e : Effect) : option (string * string) := match e with ReplyPermission id _ d => Some (id, d) | _ => None end.
Definition posts (a : RemoteAgent) : list (string * string) := omap posted (log a).
Definition asked (t : Z) (sid id permission : string) (metadata : list (string * json)) : Op :=
  Event (at_ t) (wire "permission.asked" (of_session sid [("id", Str id); ("metadata", Obj metadata); ("permission", Str permission)])).
Definition card_ids (a : RemoteAgent) : list string := map Confirmation.call_id (confirmations (cards a)).

(** The status is absorbing: the second turn of a conversation runs as finished. *)
Example second_turn_looks_finished :
  RemoteState.status (after (a_turn ++ [say 10 "again"; says 11 "root" "busy"])) = Some ConversationStatus.Finished.
Proof. vm_compute. reflexivity. Qed.
(** A cancelled turn stays armed: its late [idle] ends the next turn before the server has begun it. *)
Example cancelled_turn_ends_the_next :
  finishes (after [say 1 "hi"; says 2 "root" "busy"; Cancel server 3; say 4 "next"]) = 0%nat ∧
  finishes (after [say 1 "hi"; says 2 "root" "busy"; Cancel server 3; say 4 "next"; says 5 "root" "idle"]) = 1%nat.
Proof. split; vm_compute; reflexivity. Qed.
(** The end of a turn whose text is still being flushed when the next message comes is announced in
    the next turn, which it ends for who relays the stream before the server has begun it. *)
Definition late_end : list Op := [say 1 "hi"; says 2 "root" "busy"; says_slowly 3 "root" "idle"; say 4 "next"].
Example late_finish_ends_the_next_turn :
  finishes (after late_end) = 0%nat ∧ owed (after late_end) = [Some "root"] ∧
  finishes (after (late_end ++ [Flushed 0])) = 1%nat ∧
  finishes (after (late_end ++ [Flushed 0; says 5 "root" "busy"; says 6 "root" "idle"])) = 2%nat.
Proof. split_and!; vm_compute; reflexivity. Qed.
(** An error of the root session neither disarms the turn nor frees the slot. *)
Example error_keeps_the_slot :
  let a := after [say 1 "hi"; says 2 "root" "busy"; Event (at_ 3) (wire "session.error" (of_session "root" []))] in
  RemoteState.status a = Some ConversationStatus.Finished ∧ root_turn_active (turn a) = true ∧
  existsb (λ e, match e with AcquireTurn => true | _ => false end) (log a) = true ∧
  existsb (λ e, match e with ReleaseTurn => true | _ => false end) (log a) = false.
Proof. cbn zeta. split_and!; vm_compute; reflexivity. Qed.
(** Cancelling an elicitation delivers the answer "cancel" as the input. *)
Example cancelled_input_is_delivered :
  last (log (after [Ask_input 1 "a" "tool" "name?" None no_ctx; answer 2 "elicit-a" "cancel"])) =
    Some (AnswerElicitation "elicit-a" (Some (Str "cancel"))).
Proof. vm_compute. reflexivity. Qed.
(** A prompt that was answered in time is rejected when its time is over. *)
Example answered_prompt_times_out :
  posts (after [asked 1000 "root" "per_1" "edit" []; answer 2000 "per_1" "once"; says 61000 "root" "busy"]) =
    [("per_1", "once"); ("per_1", "reject")].
Proof. vm_compute. reflexivity. Qed.
(** A permission in an allowed directory is answered again with every event that repeats it. *)
Example repeated_permission_is_answered_twice :
  posts (after [asked 1 "root" "per_1" "edit" [("path", Str "/ws/f")]; asked 2 "root" "per_1" "edit" [("path", Str "/ws/f")]]) =
    [("per_1", "once"); ("per_1", "once")].
Proof. vm_compute. reflexivity. Qed.
(** Paths are compared as they are written. *)
Example parent_of_a_blessed_directory : path_is_under_blessed "/ws/../etc/passwd" {["/ws"]} = true.
Proof. vm_compute. reflexivity. Qed.
(** Allowing a sub-agent takes away the card of its command, which goes on waiting, and answers it
    to the server as a permission. *)
Example blessing_strands_a_command :
  let kid_ctx := McpRequestContext.mk (Some "kid") (Some "root") in
  let a := after [say 1 "hi"; says 2 "root" "busy"; child_born; Ask_shell "a" "sh" "ls" "/ws" kid_ctx; asked 6 "kid" "per_1" "edit" [];
     Answer 7 all_free "per_1" (Obj [("params", Obj [("sessionID", Str "kid")]); ("value", Str "allow_session")]) false] in
  card_ids a = [] ∧ posts a = [("shell-a", "once"); ("per_1", "once")] ∧ elements (pending_shell_approvals (cards a)) = ["shell-a"].
Proof. cbn zeta. split_and!; vm_compute; reflexivity. Qed.
(** "Always" for a permission the server names [run_shell] lets local commands run unasked. *)
Example server_permission_silences_the_shell :
  (approve_shell_with_context "x" "sh" "rm -r ." "/ws" no_ctx (after [asked 1 "root" "per_1" "run_shell" []; answer 2 "per_1" "always"])).2 =
    Some ShellApproval.Allow.
Proof. vm_compute. reflexivity. Qed.
(** While somebody else holds the state, the answer to a command is lost, and posted to the server. *)
Example locked_state_loses_the_answer :
  let a := after [ask "a"; Answer 2 (mk_locks false true true true) "shell-a" (Str "once") false] in
  posts a = [("shell-a", "once")] ∧ elements (pending_shell_approvals (cards a)) = ["shell-a"].
Proof. cbn zeta. split; vm_compute; reflexivity. Qed.
(** Whatever is not a known answer is a leave. *)
Example unknown_answer_is_leave : last (log (after [ask "a"; answer 2 "shell-a" "no, never"])) = Some (AnswerShell "shell-a" ShellApproval.Allow).
Proof. vm_compute. reflexivity. Qed.
(** The verification of an edit runs with every update of the tool call, finished or not. *)
Definition edit_update (t : Z) (st : string) : Op :=
  Event (at_ t) (wire "message.part.updated" (of_session "root" [("part", Obj [("callID", Str "c1"); ("id", Str "p1"); ("messageID", Str "m1");
    ("sessionID", Str "root"); ("state", Obj [("input", Obj []); ("status", Str st)]); ("tool", Str "edit"); ("type", Str "tool")])])).
Example unfinished_edit_is_verified :
  List.filter (λ e, match e with RunVerification _ => true | _ => false end) (log (after [edit_update 1 "pending"; edit_update 2 "running"])) =
    [RunVerification "c1"; RunVerification "c1"].
Proof. vm_compute. reflexivity. Qed.
(** A deleted message is not noticed. *)
Lemma removed_message_is_ignored m s props a : dispatch cfg m s "message.removed" props a = a.
Proof. reflexivity. Qed.
(** The second of two adjacent placeholders stays as it is. *)
Example adjacent_placeholders : OpencodeCommands.expand_template ascii_digit "$1$2" "a b" = "a$2".
Proof. vm_compute. reflexivity. Qed.
End surprises.
