(* ===== verification/TurnSlot.v ===== *)
(** * TurnSlot: taking turns on an OpenCode server

    [manager/remote/opencode_mcp.rs]: which conversation owns the name of the local tools on a
    server, and the signal that has the conversations of one server take turns
    ([acquire_turn], [release_turn]).  The calls of [acquire_turn] interleave at their awaits:
    a call is [Checking] when it is about to lock [active], [Waiting] on its [Notified],
    [Expired] when its time is over, and [Inside] once it has returned.  [tokio]'s [Notify]
    is what it is documented to be: [notify_one] wakes the call that waits longest, or leaves a permit
    that the next [enable] takes. *)

From S2P Require Import Prelude.
From S2P Require Import Text.
From S2P Require Import JsonValue.

(* ------------------------------------------------------------------ *)
(** ** Owners of the name *)

Module SlotOwner.
(* chisl-ai-agent/src/manager/remote/opencode_mcp.rs:140-143 SlotOwner *)
Record t := mk { conversation_id : string; port : Z }.
End SlotOwner.
Abbreviation SlotOwners := (gmap string SlotOwner.t).
(* chisl-ai-agent/src/manager/remote/opencode_mcp.rs:197-204 owns_slot *)
Definition owns_slot (base_url conversation_id : string) (port : Z) (m : SlotOwners) : bool :=
  match m !! base_url with
  | Some s => String.eqb (SlotOwner.conversation_id s) conversation_id && (SlotOwner.port s =? port)
  | None => false
  end.
(* chisl-ai-agent/src/manager/remote/opencode_mcp.rs:206-216 claim_slot *)
Definition claim_slot (base_url conversation_id : string) (port : Z) : SlotOwners → SlotOwners :=
  <[base_url := SlotOwner.mk conversation_id port]>.
(* chisl-ai-agent/src/manager/remote/opencode_mcp.rs:221-234 release_slot_if_owner *)
Definition release_slot_if_owner (base_url conversation_id : string) (m : SlotOwners) : SlotOwners * bool :=
  match m !! base_url with
  | None => (m, false)
  | Some owner => if String.eqb (SlotOwner.conversation_id owner) conversation_id then (delete base_url m, true) else (m, false)
  end.
(* chisl-ai-agent/src/manager/remote/opencode_mcp.rs:404-412 stale_mcp_names_from_status *)
Definition stale_mcp_names_from_status (body : json) : list string :=
  match as_object body with
  | Some obj => List.filter (starts_with "aionui-local-fs") obj.*1
  | None => []
  end.

(** What a release leaves: another owner's claim, and nobody's own. *)
Lemma release_slot_spec url c m :
  let '(m', released) := release_slot_if_owner url c m in
  (∀ p, owns_slot url c p m' = false) ∧ (∀ u d p, d ≠ c ∨ u ≠ url → owns_slot u d p m' = owns_slot u d p m) ∧
  released = match m !! url with Some o => String.eqb (SlotOwner.conversation_id o) c | None => false end.
Proof.
  unfold release_slot_if_owner. destruct (m !! url) as [o|] eqn:Hm; [destruct (String.eqb_spec (SlotOwner.conversation_id o) c) as [<-|Hne]|].
  - split; [intros p; unfold owns_slot; by rewrite lookup_delete_eq|]. split; [|done]. intros u d p Hd. unfold owns_slot.
    destruct (decide (u = url)) as [->|Hu]; [|by rewrite lookup_delete_ne]. rewrite lookup_delete_eq, Hm.
    destruct Hd as [Hd|]; [|done]. by rewrite (proj2 (String.eqb_neq _ _)) by done.
  - split; [|done]. intros p. unfold owns_slot. rewrite Hm. by rewrite (proj2 (String.eqb_neq _ _) Hne).
  - split; [|done]. intros p. unfold owns_slot. by rewrite Hm.
Qed.

(* ------------------------------------------------------------------ *)
(** ** The signal *)

Module Call.
Inductive phase := Checking | Waiting | Expired | Inside.
#[global] Instance phase_dec : EqDecision phase.
Proof. solve_decision. Defined.
Record t := mk { conversation : string; at_ : phase }.
Definition move (p : phase) (c : t) : t := mk (conversation c) p.
End Call.

(** [active] and [notify], with the notifications a release still owes, the calls, and the
    conversations whose turn is under way. *)
(* chisl-ai-agent/src/manager/remote/opencode_mcp.rs:149-154 TurnSignal *)
Record TurnSignal := mk_signal {
  active : option string; permit : bool; armed : list nat; owed : nat; calls : gmap nat Call.t; under_way : gset string }.
Definition new_signal : TurnSignal := mk_signal None false [] 0 ∅ ∅.

(** The turn of [c] is its own from now on. *)
Definition enter (k : nat) (c : Call.t) (s : TurnSignal) : TurnSignal :=
  mk_signal (Some (Call.conversation c)) (permit s) (armed s) (owed s) (<[k := Call.move Call.Inside c]> (calls s))
    ({[Call.conversation c]} ∪ under_way s).
(** A turn of the loop; a permit has the call look again at once. *)
(* chisl-ai-agent/src/manager/remote/opencode_mcp.rs:249-287 acquire_turn *)
Definition check (k : nat) (c : Call.t) (s : TurnSignal) : TurnSignal :=
  match active s with
  | None => enter k c s
  | Some id =>
      if String.eqb id (Call.conversation c) then enter k c s
      else if permit s then mk_signal (active s) false (armed s) (owed s) (calls s) (under_way s)
      else mk_signal (active s) (permit s) (armed s ++ [k]) (owed s) (<[k := Call.move Call.Waiting c]> (calls s)) (under_way s)
  end.
(** The timeout of a call that waits. *)
(* chisl-ai-agent/src/manager/remote/opencode_mcp.rs:281-284 acquire_turn *)
Definition expire (k : nat) (c : Call.t) (s : TurnSignal) : TurnSignal :=
  mk_signal (active s) (permit s) (List.filter (λ i, negb (Nat.eqb i k)) (armed s)) (owed s)
    (<[k := Call.move Call.Expired c]> (calls s)) (under_way s).
(* chisl-ai-agent/src/manager/remote/opencode_mcp.rs:306-316 release_turn *)
Definition release_turn (conversation_id : string) (s : TurnSignal) : TurnSignal :=
  let under_way := under_way s ∖ {[conversation_id]} in
  if bool_decide (active s = Some conversation_id)
  then mk_signal None (permit s) (armed s) (S (owed s)) (calls s) under_way
  else mk_signal (active s) (permit s) (armed s) (owed s) (calls s) under_way.
(** [notify_one]. *)
Definition notify_one (s : TurnSignal) : TurnSignal :=
  match armed s with
  | k :: rest => mk_signal (active s) (permit s) rest (owed s) (alter (Call.move Call.Checking) k (calls s)) (under_way s)
  | [] => mk_signal (active s) true [] (owed s) (calls s) (under_way s)
  end.

Inductive Act :=
| Begin (k : nat) (conversation_id : string) | Check_ (k : nat) | Expire (k : nat) | Force (k : nat)
| Release (conversation_id : string) | Notify.
Definition call_in (k : nat) (p : Call.phase) (s : TurnSignal) : option Call.t :=
  match calls s !! k with Some c => if bool_decide (Call.at_ c = p) then Some c else None | None => None end.
(** [None]: the act cannot happen now. *)
(* chisl-ai-agent/src/manager/remote/opencode_mcp.rs:247-301 acquire_turn *)
Definition act (a : Act) (s : TurnSignal) : option TurnSignal :=
  match a with
  | Begin k c => match calls s !! k with
                 | Some _ => None
                 | None => Some (mk_signal (active s) (permit s) (armed s) (owed s) (<[k := Call.mk c Call.Checking]> (calls s)) (under_way s))
                 end
  | Check_ k => (λ c, check k c s) <$> call_in k Call.Checking s
  | Expire k => (λ c, expire k c s) <$> call_in k Call.Waiting s
  | Force k => (λ c, enter k c s) <$> call_in k Call.Expired s
  | Release c => Some (release_turn c s)
  | Notify => match owed s with
              | S n => Some (notify_one (mk_signal (active s) (permit s) (armed s) n (calls s) (under_way s)))
              | O => None
              end
  end.

(** The signals of all servers. *)
Abbreviation Signals := (gmap string TurnSignal).
(* chisl-ai-agent/src/manager/remote/opencode_mcp.rs:172-182 turn_signal_for *)
Definition turn_signal_for (base_url : string) (m : Signals) : TurnSignal := default new_signal (m !! base_url).
Definition act_at (base_url : string) (a : Act) (m : Signals) : option Signals :=
  (λ s, <[base_url := s]> m) <$> act a (turn_signal_for base_url m).
Fixpoint run (acts : list (string * Act)) (m : Signals) : option Signals :=
  match acts with
  | [] => Some m
  | (url, a) :: acts => match act_at url a m with Some m => run acts m | None => None end
  end.

(* ------------------------------------------------------------------ *)
(** ** Facts *)

Lemma run_invariant (I : TurnSignal → Prop) (ok : Act → Prop) acts m m' :
  I new_signal → (∀ a s s', ok a → I s → act a s = Some s' → I s') →
  (∀ url a, (url, a) ∈ acts → ok a) → (∀ url, I (turn_signal_for url m)) → run acts m = Some m' → ∀ url, I (turn_signal_for url m').
Proof.
  intros Hnew Hstep. revert m. induction acts as [|[u a] acts IH]; intros m Hok Hm; simpl; [by intros [= <-]|].
  unfold act_at. destruct (act a (turn_signal_for u m)) as [s|] eqn:Ha; [|done]. cbn. apply IH; [set_solver|].
  intros url. unfold turn_signal_for. destruct (decide (u = url)) as [<-|Hne].
  - rewrite lookup_insert_eq. cbn. apply (Hstep a (turn_signal_for u m)); [apply (Hok u); set_solver | done | done].
  - rewrite lookup_insert_ne by done. apply Hm.
Qed.

(** Who waits will look again: a free slot is not waited for in vain. *)
Definition attended (s : TurnSignal) : Prop :=
  active s = None → armed s ≠ [] → (0 < owed s)%nat ∨ ∃ k c, call_in k Call.Checking s = Some c.
(** The armed calls are those that wait. *)
Definition queue_ok (s : TurnSignal) : Prop := NoDup (armed s) ∧ ∀ k, k ∈ armed s ↔ ∃ c, call_in k Call.Waiting s = Some c.
(** Without timeouts: a turn under way is the active one. *)
Definition exclusive (s : TurnSignal) : Prop := ∀ c, c ∈ under_way s → active s = Some c.
Definition patient (a : Act) : Prop := match a with Force _ => False | _ => True end.
Lemma exclusive_act a s s' : patient a → exclusive s → act a s = Some s' → exclusive s'.
Proof.
  assert (∀ k c, exclusive s → (active s = None ∨ active s = Some (Call.conversation c)) → exclusive (enter k c s)) as Henter.
  { intros k c Hx Ha d Hd. cbn in *. apply elem_of_union in Hd as [->%elem_of_singleton|Hd]; [done|]. rewrite <- (Hx d Hd).
    apply Hx in Hd. destruct Ha as [Ha|Ha]; congruence. }
  intros Hp Hx Ha. destruct a; cbn [act] in Ha; try done.
  - by case_match; simplify_eq.
  - destruct (call_in k Call.Checking s) as [c|]; simplify_eq/=. unfold check. destruct (active s) as [id|] eqn:Hact.
    + destruct (String.eqb_spec id (Call.conversation c)) as [->|]; [apply Henter; auto|]. by case_match; intros d Hd; cbn in *; rewrite ?Hact; rewrite <- (Hx d Hd).
    + apply Henter; auto.
  - by destruct (call_in k Call.Waiting s); simplify_eq/=.
  - simplify_eq. unfold release_turn. case_bool_decide as Hact; intros d Hd; cbn in *; apply elem_of_difference in Hd as [Hd Hn]; specialize (Hx d Hd); [|done].
    rewrite Hact in Hx. simplify_eq. set_solver.
  - destruct (owed s); [done|]. simplify_eq. unfold notify_one. cbn. by case_match.
Qed.

Definition phase_of (k : nat) (m : gmap nat Call.t) : option Call.phase := Call.at_ <$> m !! k.
Lemma call_in_phase k p s c : call_in k p s = Some c ↔ calls s !! k = Some c ∧ Call.at_ c = p.
Proof. unfold call_in. destruct (calls s !! k) as [d|]; [case_bool_decide|]; naive_solver. Qed.
Lemma in_phase k p s : (∃ c, call_in k p s = Some c) ↔ phase_of k (calls s) = Some p.
Proof.
  unfold phase_of. split.
  - intros [c [-> <-]%call_in_phase]. done.
  - destruct (calls s !! k) as [c|] eqn:Hc; [|done]. intros [= <-]. exists c. by apply call_in_phase.
Qed.
Lemma phase_of_insert i k c m : phase_of i (<[k := c]> m) = if decide (k = i) then Some (Call.at_ c) else phase_of i m.
Proof. unfold phase_of. rewrite lookup_insert. by case_decide. Qed.
Lemma phase_of_alter i k p m : phase_of i (alter (Call.move p) k m) = if decide (k = i) then (λ _, p) <$> m !! i else phase_of i m.
Proof. unfold phase_of. rewrite lookup_alter. case_decide; [subst; by destruct (m !! i) | done]. Qed.

(** Moving a call that does not wait to another phase, or one that is in the queue. *)
Lemma queue_moved s s' k c p : queue_ok s → phase_of k (calls s) ≠ Some Call.Waiting → p ≠ Call.Waiting →
  armed s' = armed s → calls s' = <[k := c]> (calls s) → Call.at_ c = p → queue_ok s'.
Proof.
  intros [Hnd Hq] Hk Hp Ha Hc Hcp. split; [by rewrite Ha|]. intros i. rewrite Ha, in_phase, Hc, phase_of_insert, Hq, in_phase.
  case_decide; [subst|done]. naive_solver.
Qed.
Lemma queue_act a s s' : queue_ok s → act a s = Some s' → queue_ok s'.
Proof.
  intros Hok Ha. assert (∀ k c, phase_of k (calls s) ≠ Some Call.Waiting → queue_ok (enter k c s)) as Henter.
  { intros k c Hk. by apply (queue_moved s (enter k c s) k (Call.move Call.Inside c) Call.Inside). }
  destruct a; cbn [act] in Ha.
  - destruct (calls s !! k) as [d|] eqn:Hk; [done|]. simplify_eq. eapply (queue_moved s _ k _ Call.Checking); try done. unfold phase_of. by rewrite Hk.
  - destruct (call_in k Call.Checking s) as [c|] eqn:Hk; [|done]. simplify_eq/=.
    assert (phase_of k (calls s) = Some Call.Checking) as Hp by (apply in_phase; by exists c). unfold check.
    destruct (active s) as [id|]; [case_match; [|case_match; [done|]]|]; try (apply Henter; by rewrite Hp).
    destruct Hok as [Hnd Hq]. split; cbn [armed calls].
    + apply NoDup_app. split; [done|]. split; [|apply NoDup_singleton]. intros i Hi%Hq%in_phase ->%list_elem_of_singleton. congruence.
    + intros i. rewrite elem_of_app, list_elem_of_singleton, in_phase. cbn [calls]. rewrite phase_of_insert, Hq, in_phase.
      case_decide; naive_solver.
  - destruct (call_in k Call.Waiting s) as [c|] eqn:Hk; [|done]. simplify_eq/=. destruct Hok as [Hnd Hq]. split; cbn [armed expire].
    + by apply NoDup_ListNoDup, List.NoDup_filter, NoDup_ListNoDup.
    + intros i. rewrite list_elem_of_In, filter_In, <- list_elem_of_In, Hq, !in_phase. cbn [calls expire]. rewrite phase_of_insert. cbn.
      destruct (Nat.eqb_spec i k); case_decide; naive_solver.
  - destruct (call_in k Call.Expired s) as [c|] eqn:Hk; [|done]. simplify_eq/=. apply Henter.
    assert (phase_of k (calls s) = Some Call.Expired) as -> by (apply in_phase; by exists c). done.
  - simplify_eq. unfold release_turn. by case_bool_decide.
  - destruct (owed s) as [|n]; [done|]. simplify_eq. unfold notify_one. cbn [armed].
    destruct Hok as [Hnd Hq]. destruct (armed s) as [|k rest] eqn:Har; [exact (conj Hnd Hq)|].
    apply NoDup_cons in Hnd as [Hk Hnd]. split; cbn [armed]; [done|]. intros i. rewrite in_phase. cbn [calls]. rewrite phase_of_alter.
    specialize (Hq i). rewrite in_phase, elem_of_cons in Hq. case_decide as Hi; [subst i|naive_solver].
    split; [done|]. by destruct (calls s !! k).
Qed.
Lemma attended_act a s s' : queue_ok s → attended s → act a s = Some s' → attended s'.
Proof.
  intros [Hnd Hq] Hat Ha. 
  assert (∀ k, phase_of k (calls s') = Some Call.Checking → attended s') as Hchecking.
  { intros k Hk _ _. right. exists k. by apply in_phase. }
  destruct a; cbn [act] in Ha.
  - destruct (calls s !! k) as [d|] eqn:Hk; [done|]. simplify_eq. apply (Hchecking k). cbn [calls]. rewrite phase_of_insert. by rewrite decide_True.
  - destruct (call_in k Call.Checking s) as [c|] eqn:Hk; [|done]. simplify_eq/=. unfold check.
    destruct (active s) as [id|] eqn:Hact; [|done]. case_match; [done|]. case_match; intros Hn; cbn in Hn; congruence.
  - destruct (call_in k Call.Waiting s) as [c|] eqn:Hk; [|done]. simplify_eq/=. intros Hn Hne. cbn [active armed owed expire] in *.
    destruct Hat as [|(i & d & Hi)]; [done|by intros Hnil; rewrite Hnil in Hne|by left|]. apply (Hchecking i); [|done..].
    cbn [calls expire]. rewrite phase_of_insert. apply call_in_phase in Hi as [Hi Hd], Hk as [Hk Hc].
    case_decide; [subst; congruence|]. unfold phase_of. by rewrite Hi, <- Hd.
  - by destruct (call_in k Call.Expired s); simplify_eq/=.
  - simplify_eq. unfold release_turn. case_bool_decide; [intros _ _; left; cbn; lia|]. done.
  - destruct (owed s) as [|n] eqn:Ho; [done|]. simplify_eq. unfold notify_one in *. cbn [armed] in *. destruct (armed s) as [|k rest] eqn:Har; [by intros _ []|].
    apply (Hchecking k). cbn [calls]. rewrite phase_of_alter, decide_True by done.
    destruct (proj1 (Hq k)) as [c [Hk _]%call_in_phase]; [set_solver|]. by rewrite Hk.
Qed.

Lemma queue_new : queue_ok new_signal ∧ attended new_signal.
Proof.
  split; [|by intros _ []]. split; [apply NoDup_nil_2|]. intros k. rewrite in_phase. split; [by intros ?%not_elem_of_nil|].
  unfold phase_of. cbn [calls new_signal]. by rewrite lookup_empty.
Qed.

(** C17: on a server, as long as no call's ten minutes are over, the turns of two conversations are never
    under way at once, however the calls of [acquire_turn] and [release_turn] of any
    conversations, on this server and on others, interleave. *)
Theorem one_turn_at_a_time (acts : list (string * Act)) (m : Signals) (base_url c d : string) :
  (∀ url a, (url, a) ∈ acts → patient a) → run acts ∅ = Some m →
  c ∈ under_way (turn_signal_for base_url m) → d ∈ under_way (turn_signal_for base_url m) → c = d.
Proof.
  intros Hp Hr Hc Hd. assert (∀ url, exclusive (turn_signal_for url m)) as Hx.
  { apply (run_invariant exclusive patient acts ∅ m); [by intros ? | exact exclusive_act | done | intros url; unfold turn_signal_for; by rewrite lookup_empty | done]. }
  specialize (Hx base_url). apply Hx in Hc, Hd. congruence.
Qed.

(** A call of [acquire_turn] that waits for a server that is free is not forgotten: whatever happened
    before, also timeouts, the notification that is owed and the check it leads to, or a check
    that is under way, take the slot. *)
Lemma free_slot_is_taken (acts : list (string * Act)) (m : Signals) (base_url : string) :
  run acts ∅ = Some m → active (turn_signal_for base_url m) = None → armed (turn_signal_for base_url m) ≠ [] →
  ∃ (next : list Act) (k : nat) m', (length next ≤ 1)%nat ∧ run (map (pair base_url) (next ++ [Check_ k])) m = Some m' ∧
    is_Some (active (turn_signal_for base_url m')).
Proof.
  intros Hr Hfree Hwait. set (s := turn_signal_for base_url m) in *.
  assert (queue_ok s ∧ attended s) as [Hq Hat].
  { apply (run_invariant (λ s, queue_ok s ∧ attended s) (λ _, True) acts ∅ m); [| |done| |done].
    - exact queue_new.
    - intros a s1 s2 _ [Hq Hat] Ha. split; [by apply (queue_act a s1) | by apply (attended_act a s1)].
    - intros url. unfold turn_signal_for. rewrite lookup_empty. exact queue_new. }
  assert (∀ (w : Signals) k, phase_of k (calls (turn_signal_for base_url w)) = Some Call.Checking → active (turn_signal_for base_url w) = None →
    ∃ w', run [(base_url, Check_ k)] w = Some w' ∧ is_Some (active (turn_signal_for base_url w'))) as Hcheck.
  { intros w k Hk%in_phase Hw. destruct Hk as [c Hk]. cbn. unfold act_at. cbn [act]. rewrite Hk. cbn. unfold check. rewrite Hw. cbn.
    eexists. split; [done|]. unfold turn_signal_for at 1. rewrite lookup_insert_eq. by eexists. }
  destruct (Hat Hfree Hwait) as [Ho|(k & c & Hk)].
  - destruct (armed s) as [|k rest] eqn:Har; [done|]. destruct (owed s) as [|n] eqn:Hn; [lia|].
    set (s1 := notify_one (mk_signal (active s) (permit s) (armed s) n (calls s) (under_way s))).
    destruct (Hcheck (<[base_url := s1]> m) k) as (m' & Hr' & Ht).
    + unfold turn_signal_for. rewrite lookup_insert_eq. cbn. subst s1. unfold notify_one. cbn [armed]. rewrite Har. cbn [calls].
      rewrite phase_of_alter, decide_True by done. destruct (proj1 (proj2 Hq k)) as [c [Hk _]%call_in_phase]; [rewrite Har; set_solver|]. by rewrite Hk.
    + unfold turn_signal_for. rewrite lookup_insert_eq. cbn. subst s1. unfold notify_one. cbn [armed]. by rewrite Har.
    + exists [Notify], k, m'. split; [done|]. split; [|done]. cbn [map app run]. unfold act_at at 1. cbn [act]. fold s. rewrite Hn. cbn.
      exact Hr'.
  - destruct (Hcheck m k) as (m' & Hr' & Ht); [|done|].
    + apply in_phase. by exists c.
    + exists [], k, m'. split; [simpl; lia|]. by split.
Qed.

(* ------------------------------------------------------------------ *)
(** ** Runs *)

Definition on_server (acts : list Act) : list (string * Act) := map (pair "http://s") acts.
Definition two_conversations : list Act := [Begin 0 "a"; Check_ 0; Begin 1 "b"; Check_ 1; Release "a"; Notify; Check_ 1].
Lemma one_turn_at_a_time_witness :
  ∃ m, run (on_server two_conversations) ∅ = Some m ∧ "b" ∈ under_way (turn_signal_for "http://s" m) ∧
  ∀ d, d ∈ under_way (turn_signal_for "http://s" m) → "b" = d.
Proof.
  destruct (run (on_server two_conversations) ∅) as [m|] eqn:Hr; [|vm_compute in Hr; discriminate].
  assert ("b" ∈ under_way (turn_signal_for "http://s" m)) as Hb.
  { apply (bool_decide_unpack _). vm_compute in Hr. injection Hr as <-. vm_compute. exact I. }
  exists m. split; [done|]. split; [exact Hb|]. intros d.
  refine (one_turn_at_a_time (on_server two_conversations) m "http://s" "b" d _ Hr Hb).
  intros url a Hin. unfold on_server in Hin. apply list_elem_of_In, in_map_iff in Hin as (x & [= _ ->] & Hx).
  repeat (destruct Hx as [<-|Hx]; [exact I|]). destruct Hx.
Defined.
Definition released_while_waited : list Act := [Begin 0 "a"; Check_ 0; Begin 1 "b"; Check_ 1; Begin 2 "c"; Check_ 2; Expire 1; Release "a"].
Lemma free_slot_is_taken_witness :
  ∃ m, run (on_server released_while_waited) ∅ = Some m ∧ armed (turn_signal_for "http://s" m) = [2%nat] ∧
  ∃ (next : list Act) (k : nat) m', (length next ≤ 1)%nat ∧ run (map (pair "http://s") (next ++ [Check_ k])) m = Some m' ∧
    is_Some (active (turn_signal_for "http://s" m')).
Proof.
  destruct (run (on_server released_while_waited) ∅) as [m|] eqn:Hr; [|vm_compute in Hr; discriminate].
  assert (active (turn_signal_for "http://s" m) = None ∧ armed (turn_signal_for "http://s" m) = [2%nat]) as [Ha Hw].
  { vm_compute in Hr. injection Hr as <-. split; vm_compute; reflexivity. }
  exists m. split; [done|]. split; [exact Hw|]. apply (free_slot_is_taken (on_server released_while_waited) m "http://s" Hr Ha).
  rewrite Hw. discriminate.
Defined.
(** A call whose time is over takes the slot of whoever has it by then: [a]'s turn has ended, [c]'s has
    begun, and [b] enters besides it. *)
Example expired_call_enters_besides_another :
  (λ m, elements (under_way (turn_signal_for "http://s" m))) <$>
    run (on_server [Begin 0 "a"; Check_ 0; Begin 1 "b"; Check_ 1; Begin 2 "c"; Check_ 2; Expire 1; Release "a"; Notify; Check_ 2; Force 1]) ∅
  = Some ["c"; "b"].
Proof. vm_compute. reflexivity. Qed.
