(* ===== verification/Realtime.v ===== *)
(** * Realtime: the WebSocket connections

    [chisl-realtime]: the registry of connections with its heartbeat ([manager.rs]), and the
    loops of a connection ([handler.rs]).  Broadcasts and heartbeats visit the connections one
    at a time while connections come, speak and go: a run interleaves their steps with those
    of the sockets.  The channel of a connection holds [PER_CONNECTION_BUFFER] messages and
    is named after the connection's id.  Outside the crate are the router, the token
    validator and [serde]'s reading of a message. *)

From S2P Require Import Prelude.
From S2P Require Import Text.
From S2P Require Import JsonValue.

(* ------------------------------------------------------------------ *)
(** ** Messages *)

Module WebSocketMessage.
(* chisl-api-types/src/websocket.rs:8-11 WebSocketMessage *)
Record t := mk { name : string; data : json }.
End WebSocketMessage.

Module WebSocketCloseCode.
(* chisl-realtime/src/types.rs:31-36 WebSocketCloseCode *)
Inductive t := NormalClosure | PolicyViolation.
(* chisl-realtime/src/types.rs:40-42 as_u16 *)
Definition as_u16 (c : t) : Z := match c with NormalClosure => 1000 | PolicyViolation => 1008 end.
End WebSocketCloseCode.

Module WsOutbound.
(* chisl-realtime/src/types.rs:21-26 WsOutbound *)
Inductive t := Text (text : string) | Close (code : WebSocketCloseCode.t) (reason : string).
End WsOutbound.

(** What goes over the socket ([axum]'s [Message]), to the client and from it. *)
Module Frame.
Inductive t := Text (text : string) | Close (code : Z) (reason : string).
End Frame.
Module Incoming.
Inductive t := Text (text : string) | Close | Other | Error.
End Incoming.

(* chisl-realtime/src/handler.rs:122-140 send_loop *)
Definition frame (outbound : WsOutbound.t) : Frame.t :=
  match outbound with
  | WsOutbound.Text text => Frame.Text text
  | WsOutbound.Close code reason => Frame.Close (WebSocketCloseCode.as_u16 code) reason
  end.

(* chisl-realtime/src/types.rs:56-56 HEARTBEAT_INTERVAL *)
Definition HEARTBEAT_INTERVAL : Z := 30 * 10 ^ 9.
(* chisl-realtime/src/types.rs:59-59 HEARTBEAT_TIMEOUT *)
Definition HEARTBEAT_TIMEOUT : Z := 60 * 10 ^ 9.
(* chisl-realtime/src/types.rs:62-62 PER_CONNECTION_BUFFER *)
Definition PER_CONNECTION_BUFFER : nat := 64.

(** [duration_since] of two instants, in nanoseconds: zero when the second is later. *)
Definition duration_since (now earlier : Z) : Z := Z.max 0 (now - earlier).

(** [serde_json::from_str::<WebSocketMessage<Value>>]. *)
Class MessageText := message_from_str : string → option WebSocketMessage.t.

(* ------------------------------------------------------------------ *)
(** ** State *)

Module ClientInfo.
(* chisl-realtime/src/types.rs:46-53 ClientInfo *)
Record t := mk { token : string; last_ping : Z; tx : Z }.
Definition touch (now : Z) (c : t) : t := mk (token c) now (tx c).
End ClientInfo.

(** A bounded channel; [rx] is whether its receiver exists. *)
Module Channel.
Record t := mk { queue : list WsOutbound.t; rx : bool }.
Definition closed : t := mk [] false.
End Channel.
Inductive SendResult := Sent | Full | Closed.

(** The task of a socket: its receive loop runs, has ended, or the send loop is aborted too. *)
Inductive SocketPhase := Receiving | Left | Aborted.

Inductive Work := Broadcast (text : string) | Heartbeat (now : Z).
(** A loop over the connections: those it began with, those visited, those it will remove. *)
Inductive Task := Iterating (w : Work) (start seen : gset Z) (marked : list Z) | Removing (marked : list Z).

(* chisl-realtime/src/manager.rs:21-24 WebSocketManager *)
Record Server := mk_server {
  connections : gmap Z ClientInfo.t; next_id : Z;
  channels : gmap Z Channel.t; sockets : gmap Z SocketPhase; tasks : gmap nat Task }.
(* chisl-realtime/src/manager.rs:27-32 new *)
Definition new_server : Server := mk_server ∅ 1 ∅ ∅ ∅.

Definition with_connections f s := mk_server (f (connections s)) (next_id s) (channels s) (sockets s) (tasks s).
Definition with_channels f s := mk_server (connections s) (next_id s) (f (channels s)) (sockets s) (tasks s).
Definition with_sockets f s := mk_server (connections s) (next_id s) (channels s) (f (sockets s)) (tasks s).
Definition with_tasks f s := mk_server (connections s) (next_id s) (channels s) (sockets s) (f (tasks s)).

(** What can be seen from outside: a message is in a channel, a frame is on a socket, the
    router is called, a socket is turned away. *)
Inductive Out :=
| Queued (id : Z) (m : WsOutbound.t) | Wrote (id : Z) (f : Frame.t)
| Routed (id : Z) (name : string) (data : json) | Refused (frames : list Frame.t).

(** [try_send]. *)
Definition try_send (tx : Z) (m : WsOutbound.t) (s : Server) : Server * list Out * SendResult :=
  match channels s !! tx with
  | Some (Channel.mk queue true) =>
      if Nat.ltb (length queue) PER_CONNECTION_BUFFER
      then (with_channels <[tx := Channel.mk (queue ++ [m]) true]> s, [Queued tx m], Sent)
      else (s, [], Full)
  | _ => (s, [], Closed)
  end.

(* ------------------------------------------------------------------ *)
(** ** The manager *)

(* chisl-realtime/src/manager.rs:35-45 add_client *)
Definition add_client (token : string) (tx now : Z) (s : Server) : Server * Z :=
  let id := next_id s in
  (mk_server (<[id := ClientInfo.mk token now tx]> (connections s)) (w64 (id + 1)) (channels s) (sockets s) (tasks s), id).
(* chisl-realtime/src/manager.rs:48-52 remove_client *)
Definition remove_client (conn_id : Z) : Server → Server := with_connections (delete conn_id).
(* chisl-realtime/src/manager.rs:55-59 update_last_ping *)
Definition update_last_ping (conn_id now : Z) : Server → Server := with_connections (alter (ClientInfo.touch now) conn_id).
(* chisl-realtime/src/manager.rs:62-64 client_count *)
Definition client_count (s : Server) : nat := size (connections s).

(* chisl-realtime/src/manager.rs:117-130 send_raw_to *)
Definition send_raw_to (conn_id : Z) (outbound : WsOutbound.t) (s : Server) : Server * list Out :=
  match connections s !! conn_id with
  | Some client =>
      match try_send (ClientInfo.tx client) outbound s with
      | (s, o, Closed) => (remove_client conn_id s, o)
      | (s, o, _) => (s, o)
      end
  | None => (s, [])
  end.

Section Manager.
Context {SJ : JsonCodec} {MT : MessageText}.

(** [serde_json::to_string] of a message. *)
Definition message_text (m : WebSocketMessage.t) : string :=
  to_string (Obj [("name", Str (WebSocketMessage.name m)); ("data", WebSocketMessage.data m)]).
(* chisl-realtime/src/manager.rs:99-112 send_to *)
Definition send_to (conn_id : Z) (msg : WebSocketMessage.t) : Server → Server * list Out :=
  send_raw_to conn_id (WsOutbound.Text (message_text msg)).

(** What a visit meets outside: the validator, and the wall clock (nanoseconds since 1970). *)
Record Env := mk_env { token_validator : string → bool; wall : Z }.

(** A connection of the loop of [broadcast_all]; the flag has it removed after the loop. *)
(* chisl-realtime/src/manager.rs:70-96 broadcast_all *)
Definition visit_broadcast (text : string) (client : ClientInfo.t) (s : Server) : Server * list Out * bool :=
  match try_send (ClientInfo.tx client) (WsOutbound.Text text) s with
  | (s, o, Closed) => (s, o, true)
  | (s, o, _) => (s, o, false)
  end.

(* chisl-realtime/src/manager.rs:165-221 heartbeat_tick *)
Definition timestamp (wall : Z) : Z :=
  let duration := Z.max 0 wall in w64 (duration / 10 ^ 9 * 1000 + duration mod 10 ^ 9 / 10 ^ 6).
Definition auth_expired (message : string) : string :=
  message_text (WebSocketMessage.mk "auth-expired" (Obj [("message", Str message)])).
Definition ping (wall : Z) : string :=
  message_text (WebSocketMessage.mk "ping" (Obj [("timestamp", num (timestamp wall))])).
(* chisl-realtime/src/manager.rs:165-221 heartbeat_tick *)
Definition visit_heartbeat (now : Z) (e : Env) (client : ClientInfo.t) (s : Server) : Server * list Out * bool :=
  let tx := ClientInfo.tx client in
  if HEARTBEAT_TIMEOUT <? duration_since now (ClientInfo.last_ping client) then
    let '(s, o, _) := try_send tx (WsOutbound.Close WebSocketCloseCode.PolicyViolation "heartbeat timeout") s in
    (s, o, true)
  else if negb (token_validator e (ClientInfo.token client)) then
    let '(s, o1, _) := try_send tx (WsOutbound.Text (auth_expired "Token expired")) s in
    let '(s, o2, _) := try_send tx (WsOutbound.Close WebSocketCloseCode.PolicyViolation "token expired") s in
    (s, o1 ++ o2, true)
  else
    match try_send tx (WsOutbound.Text (ping (wall e))) s with
    | (s, o, Closed) => (s, o, true)
    | (s, o, _) => (s, o, false)
    end.

Definition visit (w : Work) (e : Env) : ClientInfo.t → Server → Server * list Out * bool :=
  match w with Broadcast text => visit_broadcast text | Heartbeat now => visit_heartbeat now e end.

(* ------------------------------------------------------------------ *)
(** ** A connection *)

Definition quoted (s : string) : string := String (Ascii.ascii_of_nat 34) (s +:+ String (Ascii.ascii_of_nat 34) EmptyString).
(* chisl-realtime/src/handler.rs:202-211 send_error_response *)
Definition send_error_response (conn_id : Z) : Server → Server * list Out :=
  send_raw_to conn_id (WsOutbound.Text (to_string (Obj
    [("error", Str "Invalid message format");
     ("expected", Str ("{ " +:+ quoted "name" +:+ ": " +:+ quoted "event-name" +:+ ", " +:+ quoted "data" +:+ ": {...} }"))]))).

(* chisl-realtime/src/handler.rs:223-248 handle_subscribe_show_open *)
Definition show_open_request (data : json) : WebSocketMessage.t :=
  let id := default "" (get "id" data ≫= as_str) in
  let inner := default Null (get "data" data) in
  let properties := default [] (get "properties" inner ≫= as_array) in
  let has p := existsb (λ v, match as_str v with Some s => String.eqb s p | None => false end) properties in
  let is_file_mode := has "openFile" && negb (has "openDirectory") in
  WebSocketMessage.mk "show-open-request"
    (Obj [("id", Str id); ("isFileMode", Bool is_file_mode); ("properties", Arr properties)]).

(* chisl-realtime/src/handler.rs:177-199 handle_text_message *)
Definition handle_text_message (conn_id : Z) (text : string) (now : Z) (s : Server) : Server * list Out :=
  match message_from_str text with
  | None => send_error_response conn_id s
  | Some (WebSocketMessage.mk name data) =>
      if String.eqb name "pong" then (update_last_ping conn_id now s, [])
      else if String.eqb name "subscribe-show-open" then send_to conn_id (show_open_request data) s
      else (s, [Routed conn_id name data])
  end.

(** The receive loop takes one item of the stream. *)
(* chisl-realtime/src/handler.rs:147-174 recv_loop *)
Definition receive (conn_id : Z) (result : Incoming.t) (now : Z) (s : Server) : Server * list Out :=
  match result with
  | Incoming.Text text => handle_text_message conn_id text now s
  | Incoming.Close | Incoming.Error => (with_sockets <[conn_id := Left]> s, [])
  | Incoming.Other => (s, [])
  end.

(* chisl-realtime/src/handler.rs:95-101 send_close_no_token *)
Definition no_token_frames : list Frame.t :=
  [Frame.Close (WebSocketCloseCode.as_u16 WebSocketCloseCode.PolicyViolation) "no token provided"].
(* chisl-realtime/src/handler.rs:104-114 send_auth_expired_and_close *)
Definition auth_expired_frames : list Frame.t :=
  [Frame.Text (auth_expired "Token expired or invalid");
   Frame.Close (WebSocketCloseCode.as_u16 WebSocketCloseCode.PolicyViolation) "authentication failed"].

(** [handle_socket] up to its loops; [leave] is what it does after the receive loop. *)
(* chisl-realtime/src/handler.rs:67-92 handle_socket *)
Definition handle_socket (token : option string) (e : Env) (now : Z) (s : Server) : Server * list Out :=
  match token with
  | None => (s, [Refused no_token_frames])
  | Some token =>
      if negb (token_validator e token) then (s, [Refused auth_expired_frames])
      else
        let tx := next_id s in
        let '(s, conn_id) := add_client token tx now (with_channels <[tx := Channel.mk [] true]> s) in
        (with_sockets <[conn_id := Receiving]> s, [])
  end.

(** The send loop takes one message; it ends when the socket does not take it, and when the
    channel is empty and the registry, the only sender, does not have the connection. *)
(* chisl-realtime/src/handler.rs:122-140 send_loop *)
Definition forward (conn_id : Z) (written : bool) (s : Server) : option (Server * list Out) :=
  match channels s !! conn_id with
  | Some (Channel.mk (m :: queue) true) =>
      if written then Some (with_channels <[conn_id := Channel.mk queue true]> s, [Wrote conn_id (frame m)])
      else Some (with_channels <[conn_id := Channel.closed]> s, [])
  | Some (Channel.mk [] true) =>
      match connections s !! conn_id with
      | None => Some (with_channels <[conn_id := Channel.closed]> s, [])
      | Some _ => None
      end
  | _ => None
  end.

(* ------------------------------------------------------------------ *)
(** ** Runs *)

Inductive Act :=
| Connect (token : option string) (e : Env) (now : Z)
| Receive (id : Z) (result : Incoming.t) (now : Z)
| Abort_ (id : Z) | Unregister (id : Z)
| Forward (id : Z) (written : bool)
| Begin (i : nat) (w : Work) | Visit (i : nat) (id : Z) (e : Env) | EndVisits (i : nat) | Removal (i : nat) | End_ (i : nat).

(** Every connection the loop began with is visited or gone. *)
Definition covered (start seen : gset Z) (s : Server) : bool :=
  bool_decide ((start ∖ seen) ∩ dom (connections s) = ∅).

(** [None]: the act cannot happen now. *)
(* chisl-realtime/src/manager.rs:70-96 broadcast_all *)
Definition visit_act (i : nat) (id : Z) (e : Env) (s : Server) : option (Server * list Out) :=
  match tasks s !! i with
  | Some (Iterating w start seen marked) =>
      if bool_decide (id ∈ seen) then None
      else match connections s !! id with
           | Some client =>
               let '(s, o, remove) := visit w e client s in
               Some (with_tasks <[i := Iterating w start ({[id]} ∪ seen) (if remove then marked ++ [id] else marked)]> s, o)
           | None => None
           end
  | _ => None
  end.
(* chisl-realtime/src/handler.rs:67-92 handle_socket *)
Definition leave_act (id : Z) (unregister : bool) (s : Server) : option (Server * list Out) :=
  match sockets s !! id, unregister with
  | Some Left, false => Some (with_sockets <[id := Aborted]> (with_channels (alter (λ _, Channel.closed) id) s), [])
  | Some Aborted, true => Some (with_sockets (delete id) (remove_client id s), [])
  | _, _ => None
  end.
Definition act (a : Act) (s : Server) : option (Server * list Out) :=
  match a with
  | Connect token e now => Some (handle_socket token e now s)
  | Receive id result now => match sockets s !! id with Some Receiving => Some (receive id result now s) | _ => None end
  | Abort_ id => leave_act id false s
  | Unregister id => leave_act id true s
  | Forward id written => forward id written s
  | Begin i w => match tasks s !! i with
                 | None => Some (with_tasks <[i := Iterating w (dom (connections s)) ∅ []]> s, [])
                 | Some _ => None
                 end
  | Visit i id e => visit_act i id e s
  | EndVisits i => match tasks s !! i with
                   | Some (Iterating w start seen marked) =>
                       if covered start seen s then Some (with_tasks <[i := Removing marked]> s, []) else None
                   | _ => None
                   end
  | Removal i => match tasks s !! i with
                 | Some (Removing (id :: marked)) => Some (with_tasks <[i := Removing marked]> (remove_client id s), [])
                 | _ => None
                 end
  | End_ i => match tasks s !! i with Some (Removing []) => Some (with_tasks (delete i) s, []) | _ => None end
  end.

Fixpoint run (acts : list Act) (s : Server) : option (Server * list Out) :=
  match acts with
  | [] => Some (s, [])
  | a :: acts =>
      match act a s with
      | Some (s, o) => match run acts s with Some (s, o') => Some (s, o ++ o') | None => None end
      | None => None
      end
  end.
End Manager.

(* ------------------------------------------------------------------ *)
(** ** What an act does to one connection *)

Section Facts.
Context {SJ : JsonCodec} {MT : MessageText}.
Implicit Types (s : Server) (o : list Out).

Definition queued (id : Z) : list Out → list WsOutbound.t :=
  omap (λ e, match e with Queued i m => if i =? id then Some m else None | _ => None end).
Definition wrote (id : Z) : list Out → list Frame.t :=
  omap (λ e, match e with Wrote i f => if i =? id then Some f else None | _ => None end).
Lemma queued_app id o o' : queued id (o ++ o') = queued id o ++ queued id o'.
Proof. apply omap_app. Qed.
Lemma wrote_app id o o' : wrote id (o ++ o') = wrote id o ++ wrote id o'.
Proof. apply omap_app. Qed.

Definition open (id : Z) (q : list WsOutbound.t) s : Prop := channels s !! id = Some (Channel.mk q true).

(** Messages are appended to the channel, as far as there is room. *)
Inductive pushed (id : Z) s s' o : Prop :=
| Pushed_none : channels s' !! id = channels s !! id → queued id o = [] → wrote id o = [] → pushed id s s' o
| Pushed_some q : open id q s → open id (q ++ queued id o) s' → wrote id o = [] →
    (length (q ++ queued id o) ≤ PER_CONNECTION_BUFFER)%nat → pushed id s s' o.
Lemma pushed_nothing id s s' : channels s' = channels s → pushed id s s' [].
Proof. intros Hc. apply Pushed_none; by rewrite ?Hc. Qed.
Lemma pushed_eq id s s1 s' o : pushed id s s1 o → channels s' = channels s1 → pushed id s s' o.
Proof. intros [H1 H2 H3|q H1 H2 H3 H4] Hc; [apply Pushed_none|apply (Pushed_some _ _ _ _ q)]; unfold open in *; by rewrite ?Hc. Qed.
Lemma pushed_trans id s1 s2 s3 o1 o2 : pushed id s1 s2 o1 → pushed id s2 s3 o2 → pushed id s1 s3 (o1 ++ o2).
Proof.
  intros [H1 Hq1 Hw1|q H1 H1' Hw1 Hl1] [H2 Hq2 Hw2|q' H2 H2' Hw2 Hl2].
  - apply Pushed_none; rewrite ?queued_app, ?wrote_app, ?Hq1, ?Hw1, ?Hq2, ?Hw2; [congruence|done..].
  - apply (Pushed_some _ _ _ _ q'); unfold open in *; rewrite ?queued_app, ?wrote_app, ?Hq1, ?Hw1, ?Hw2; [congruence|done..].
  - apply (Pushed_some _ _ _ _ q); unfold open in *; rewrite ?queued_app, ?wrote_app, ?Hq2, ?Hw1, ?Hw2, ?app_nil_r; [done|congruence|done..].
  - assert (q' = q ++ queued id o1) as -> by (unfold open in *; congruence).
    apply (Pushed_some _ _ _ _ q); rewrite ?queued_app, ?wrote_app, ?Hw1, ?Hw2, ?app_assoc; done.
Qed.

Lemma try_send_spec tx m s :
  let '(s', o, r) := try_send tx m s in
  connections s' = connections s ∧ next_id s' = next_id s ∧ sockets s' = sockets s ∧ tasks s' = tasks s ∧
  (∀ id, pushed id s s' o) ∧ (r = Closed → ∀ q, ¬ open tx q s).
Proof.
  unfold try_send. destruct (channels s !! tx) as [[q b]|] eqn:Hc; [destruct b|].
  - destruct (Nat.ltb_spec (length q) PER_CONNECTION_BUFFER) as [Hl|]; split_and!; try done; [|by intros; apply pushed_nothing].
    intros id. destruct (decide (tx = id)) as [<-|Hne].
    + apply (Pushed_some _ _ _ _ q); unfold open; cbn; rewrite ?Z.eqb_refl, ?lookup_insert_eq; [done..|rewrite length_app; cbn; lia].
    + apply Pushed_none; cbn; rewrite ?(proj2 (Z.eqb_neq tx id)), ?lookup_insert_ne by done; done.
  - split_and!; try done; [by intros; apply pushed_nothing|]. unfold open. intros; congruence.
  - split_and!; try done; [by intros; apply pushed_nothing|]. unfold open. intros; congruence.
Qed.

(** [try_send] by its specification. *)
Ltac sends := repeat match goal with |- context [try_send ?tx ?m ?s] =>
  let H := fresh "Hsend" in pose proof (try_send_spec tx m s) as H;
  destruct (try_send tx m s) as [[? ?] []]; destruct H as (? & ? & ? & ? & ? & ?) end.

Lemma visit_spec w e c s :
  let '(s', o, remove) := visit w e c s in
  connections s' = connections s ∧ next_id s' = next_id s ∧ sockets s' = sockets s ∧ tasks s' = tasks s ∧
  (∀ id, pushed id s s' o) ∧
  (remove = true → (∃ now, w = Heartbeat now ∧
     (HEARTBEAT_TIMEOUT < duration_since now (ClientInfo.last_ping c) ∨ token_validator e (ClientInfo.token c) = false))
     ∨ ∀ q, ¬ open (ClientInfo.tx c) q s) ∧
  (∀ now, w = Heartbeat now → HEARTBEAT_TIMEOUT < duration_since now (ClientInfo.last_ping c) ∨ token_validator e (ClientInfo.token c) = false →
     remove = true).
Proof.
  destruct w as [text|now]; cbn.
  - unfold visit_broadcast. sends; split_and!; naive_solver.
  - unfold visit_heartbeat. destruct (Z.ltb_spec HEARTBEAT_TIMEOUT (duration_since now (ClientInfo.last_ping c))) as [Ht|Ht].
    { sends; split_and!; naive_solver. }
    destruct (token_validator e (ClientInfo.token c)) eqn:Hv; cbn [negb].
    + sends; split_and!; try done; try (intros; right; auto); intros ? [= ->] [?|?]; first [lia|done].
    + sends; split_and!; try congruence; try (by intros; eapply pushed_trans); intros; auto; left; by exists now; auto.
Qed.

(** A connection that is removed because its channel does not take messages. *)
Definition dropped (k : Z) s s' : Prop :=
  ∃ c, connections s !! k = Some c ∧ (∀ q, ¬ open (ClientInfo.tx c) q s) ∧ connections s' = delete k (connections s).
Lemma send_raw_to_spec k m s s' o : send_raw_to k m s = (s', o) →
  next_id s' = next_id s ∧ sockets s' = sockets s ∧ tasks s' = tasks s ∧ (∀ id, pushed id s s' o) ∧
  (connections s' = connections s ∨ dropped k s s').
Proof.
  unfold send_raw_to. destruct (connections s !! k) as [c|] eqn:Hk; [|intros [= <- <-]; split_and!; auto; intros; by apply pushed_nothing].
  sends; intros [= <- <-]; cbn; split_and!; auto.
  - intros id. by eapply pushed_eq.
  - right. exists c. split; [done|]. split; [auto|]. cbn. congruence.
Qed.

(** A [pong]. *)
Definition pong (result : Incoming.t) : bool :=
  match result with
  | Incoming.Text text => match message_from_str text with Some m => String.eqb (WebSocketMessage.name m) "pong" | None => false end
  | _ => false
  end.
Lemma receive_spec k result now s s' o : receive k result now s = (s', o) →
  next_id s' = next_id s ∧ tasks s' = tasks s ∧ (∀ id, pushed id s s' o) ∧
  (sockets s' = sockets s ∨ sockets s' = <[k := Left]> (sockets s)) ∧
  ((pong result = false ∧ connections s' = connections s) ∨
   (pong result = true ∧ connections s' = alter (ClientInfo.touch now) k (connections s)) ∨ dropped k s s').
Proof.
  intros H. destruct result as [text| | |]; cbn in H |- *; try (simplify_eq; split_and!; auto; intros; by apply pushed_nothing).
  unfold handle_text_message in H. destruct (message_from_str text) as [[name data]|] eqn:Hm; cbn.
  - destruct (String.eqb_spec name "pong") as [->|Hn].
    { simplify_eq. split_and!; auto. intros; by apply pushed_nothing. }
    destruct (String.eqb name "subscribe-show-open").
    + apply send_raw_to_spec in H as (?&?&?&?&[?|?]); split_and!; auto.
    + simplify_eq. split_and!; auto. intros; apply Pushed_none; done.
  - apply send_raw_to_spec in H as (?&?&?&?&[?|?]); split_and!; auto.
Qed.

(** The channel of a connection. *)
Inductive channel_step (id : Z) (a : Act) s s' o : Prop :=
| Channel_pushed : pushed id s s' o → channel_step id a s s' o
| Channel_popped m q : open id (m :: q) s → open id q s' → queued id o = [] → wrote id o = [frame m] → channel_step id a s s' o
| Channel_closed : a = Abort_ id ∨ a = Forward id false ∨ connections s !! id = None →
    is_Some (channels s !! id) → channels s' !! id = Some Channel.closed → queued id o = [] → wrote id o = [] → channel_step id a s s' o
| Channel_made token e now : a = Connect (Some token) e now → token_validator e token = true → id = next_id s → open id [] s' →
    queued id o = [] → wrote id o = [] → channel_step id a s s' o.

Lemma with_connections_pushed id f s : pushed id s (with_connections f s) [].
Proof. by apply pushed_nothing. Qed.
Lemma with_tasks_pushed id f s : pushed id s (with_tasks f s) [].
Proof. by apply pushed_nothing. Qed.

Lemma visit_act_spec i k e s s' o : visit_act i k e s = Some (s', o) →
  ∃ w start seen marked c (remove : bool), tasks s !! i = Some (Iterating w start seen marked) ∧ connections s !! k = Some c ∧
    tasks s' = <[i := Iterating w start ({[k]} ∪ seen) (if remove then marked ++ [k] else marked)]> (tasks s) ∧
    connections s' = connections s ∧ next_id s' = next_id s ∧ sockets s' = sockets s ∧ (∀ id, pushed id s s' o) ∧
    (remove = true → (∃ now, w = Heartbeat now ∧
       (HEARTBEAT_TIMEOUT < duration_since now (ClientInfo.last_ping c) ∨ token_validator e (ClientInfo.token c) = false))
       ∨ ∀ q, ¬ open (ClientInfo.tx c) q s) ∧
    (∀ now, w = Heartbeat now → HEARTBEAT_TIMEOUT < duration_since now (ClientInfo.last_ping c) ∨ token_validator e (ClientInfo.token c) = false →
       remove = true).
Proof.
  unfold visit_act. destruct (tasks s !! i) as [[w start seen marked|]|] eqn:Hi; [|done|done]. case_bool_decide; [done|].
  destruct (connections s !! k) as [c|] eqn:Hk; [|done]. pose proof (visit_spec w e c s) as Hv.
  destruct (visit w e c s) as [[s1 o1] remove]. destruct Hv as (Hc & Hn & Hs & Ht & Hp & Hr & Hr'). intros [= <- <-].
  exists w, start, seen, marked, c, remove. cbn. rewrite Hc, Hn, Hs, Ht. split_and!; auto.
  intros id. by eapply pushed_eq.
Qed.

Lemma channel_act id a s s' o : act a s = Some (s', o) → channel_step id a s s' o.
Proof.
  intros H. destruct a; cbn [act] in H.
  - simplify_eq. unfold handle_socket in H. destruct token as [token|]; [destruct (token_validator e token) eqn:Hv|]; cbn in H; simplify_eq;
      [|apply Channel_pushed, Pushed_none; done..].
    destruct (decide (next_id s = id)) as [<-|Hne].
    + eapply Channel_made; [done..| |done|done]. unfold open. cbn. apply lookup_insert_eq.
    + apply Channel_pushed, Pushed_none; [|done..]. cbn. by apply lookup_insert_ne.
  - destruct (sockets s !! id0) as [[]|]; simplify_eq. apply receive_spec in H as (_ & _ & Hp & _). apply Channel_pushed, Hp.
  - unfold leave_act in H. destruct (sockets s !! id0) as [[]|]; simplify_eq. destruct (decide (id0 = id)) as [->|].
    + destruct (channels s !! id) as [ch|] eqn:Hc.
      * apply Channel_closed; [by left|by eexists| |done..]. cbn. by rewrite lookup_alter, decide_True, Hc.
      * apply Channel_pushed, Pushed_none; [|done..]. cbn. by rewrite lookup_alter, decide_True, Hc.
    + apply Channel_pushed, Pushed_none; [|done..]. cbn. by apply lookup_alter_ne.
  - unfold leave_act in H. destruct (sockets s !! id0) as [[]|]; simplify_eq. by apply Channel_pushed, pushed_nothing.
  - unfold forward in H. destruct (channels s !! id0) as [[[|m q] []]|] eqn:Hc; simplify_eq.
    + destruct (connections s !! id0) eqn:Hk; simplify_eq. destruct (decide (id0 = id)) as [->|].
      * apply Channel_closed; eauto. cbn. apply lookup_insert_eq.
      * apply Channel_pushed, Pushed_none; [|done..]. cbn. by apply lookup_insert_ne.
    + destruct (decide (id0 = id)) as [->|Hne]; destruct written; simplify_eq.
      * eapply Channel_popped; [exact Hc|unfold open; cbn; apply lookup_insert_eq|done|]. cbn. by rewrite Z.eqb_refl.
      * apply Channel_closed; eauto. cbn. apply lookup_insert_eq.
      * apply Channel_pushed, Pushed_none; cbn; [by apply lookup_insert_ne|done|]. by rewrite (proj2 (Z.eqb_neq _ _) Hne).
      * apply Channel_pushed, Pushed_none; [|done..]. cbn. by apply lookup_insert_ne.
  - case_match; simplify_eq. apply Channel_pushed, with_tasks_pushed.
  - apply visit_act_spec in H as (?&?&?&?&?&?&_&_&_&_&_&_&Hp&_). apply Channel_pushed, Hp.
  - repeat case_match; simplify_eq. apply Channel_pushed, with_tasks_pushed.
  - repeat case_match; simplify_eq. by apply Channel_pushed, pushed_nothing.
  - repeat case_match; simplify_eq. apply Channel_pushed, with_tasks_pushed.
Qed.

(** A connection of the registry. *)
Inductive connection_step (id : Z) (a : Act) s s' : Prop :=
| Connection_same : connections s' !! id = connections s !! id → connection_step id a s s'
| Connection_pong result now c : a = Receive id result now → pong result = true → connections s !! id = Some c →
    connections s' !! id = Some (ClientInfo.touch now c) → connection_step id a s s'
| Connection_made token e now : a = Connect (Some token) e now → token_validator e token = true → id = next_id s →
    connections s' !! id = Some (ClientInfo.mk token now id) → connection_step id a s s'
| Connection_gone :
    a = Unregister id ∨ (∃ i marked, a = Removal i ∧ tasks s !! i = Some (Removing (id :: marked))) ∨
    (∃ c, connections s !! id = Some c ∧ ∀ q, ¬ open (ClientInfo.tx c) q s) →
    connections s' !! id = None → connection_step id a s s'.

Lemma connection_act id a s s' o : act a s = Some (s', o) → connection_step id a s s'.
Proof.
  intros H. destruct a; cbn [act] in H.
  - simplify_eq. unfold handle_socket in H. destruct token as [token|]; [destruct (token_validator e token) eqn:Hv|]; cbn in H; simplify_eq;
      [|by apply Connection_same..].
    destruct (decide (next_id s = id)) as [<-|Hne]; [eapply Connection_made; [done..|apply lookup_insert_eq]|].
    apply Connection_same. by apply lookup_insert_ne.
  - destruct (sockets s !! id0) as [[]|]; simplify_eq. apply receive_spec in H as (_ & _ & _ & _ & [[_ Hc]|[[Hp Hc]|(c & Hk & Hcl & Hc)]]).
    + apply Connection_same. by rewrite Hc.
    + destruct (decide (id0 = id)) as [->|]; [|apply Connection_same; rewrite Hc; by apply lookup_alter_ne].
      destruct (connections s !! id) as [c|] eqn:Hid; [|apply Connection_same; by rewrite Hc, lookup_alter, decide_True, Hid].
      eapply Connection_pong; [done..|]. by rewrite Hc, lookup_alter, decide_True, Hid.
    + destruct (decide (id0 = id)) as [->|]; [|apply Connection_same; rewrite Hc; by apply lookup_delete_ne].
      apply Connection_gone; [right; right; by exists c|]. by rewrite Hc, lookup_delete_eq.
  - unfold leave_act in H. destruct (sockets s !! id0) as [[]|]; simplify_eq. by apply Connection_same.
  - unfold leave_act in H. destruct (sockets s !! id0) as [[]|]; simplify_eq. destruct (decide (id0 = id)) as [->|].
    + apply Connection_gone; [by left|]. apply lookup_delete_eq.
    + apply Connection_same. by apply lookup_delete_ne.
  - unfold forward in H. repeat case_match; simplify_eq; by apply Connection_same.
  - case_match; simplify_eq. by apply Connection_same.
  - apply visit_act_spec in H as (?&?&?&?&?&?&_&_&_&Hc&_). apply Connection_same. by rewrite Hc.
  - repeat case_match; simplify_eq. by apply Connection_same.
  - destruct (tasks s !! i) as [[|[|k marked]]|] eqn:Hi; simplify_eq. destruct (decide (k = id)) as [->|].
    + apply Connection_gone; [right; left; by exists i, marked|]. apply lookup_delete_eq.
    + apply Connection_same. by apply lookup_delete_ne.
  - repeat case_match; simplify_eq. by apply Connection_same.
Qed.

(** A loop over the connections. *)
Definition expired (now : Z) (e : Env) (c : ClientInfo.t) : Prop :=
  HEARTBEAT_TIMEOUT < duration_since now (ClientInfo.last_ping c) ∨ token_validator e (ClientInfo.token c) = false.
Inductive task_step (i : nat) (a : Act) s s' : Prop :=
| Task_same : tasks s' !! i = tasks s !! i → task_step i a s s'
| Task_begun w : a = Begin i w → tasks s !! i = None → tasks s' !! i = Some (Iterating w (dom (connections s)) ∅ []) → task_step i a s s'
| Task_visited k e w start seen marked c (remove : bool) : a = Visit i k e → tasks s !! i = Some (Iterating w start seen marked) →
    connections s !! k = Some c →
    tasks s' !! i = Some (Iterating w start ({[k]} ∪ seen) (if remove then marked ++ [k] else marked)) →
    (remove = true → (∃ now, w = Heartbeat now ∧ expired now e c) ∨ ∀ q, ¬ open (ClientInfo.tx c) q s) →
    (∀ now, w = Heartbeat now → expired now e c → remove = true) → task_step i a s s'
| Task_turned w start seen marked : a = EndVisits i → tasks s !! i = Some (Iterating w start seen marked) →
    covered start seen s = true → tasks s' !! i = Some (Removing marked) → task_step i a s s'
| Task_removed k marked : a = Removal i → tasks s !! i = Some (Removing (k :: marked)) → connections s' !! k = None →
    tasks s' !! i = Some (Removing marked) → task_step i a s s'
| Task_ended : a = End_ i → tasks s !! i = Some (Removing []) → tasks s' !! i = None → task_step i a s s'.

Lemma task_act i a s s' o : act a s = Some (s', o) → task_step i a s s'.
Proof.
  intros H. destruct a; cbn [act] in H.
  - simplify_eq. unfold handle_socket in H. apply Task_same. destruct token as [token|]; [destruct (token_validator e token)|]; cbn in H; by simplify_eq.
  - destruct (sockets s !! id) as [[]|]; simplify_eq. apply receive_spec in H as (_ & Ht & _). apply Task_same. by rewrite Ht.
  - unfold leave_act in H. destruct (sockets s !! id) as [[]|]; simplify_eq. by apply Task_same.
  - unfold leave_act in H. destruct (sockets s !! id) as [[]|]; simplify_eq. by apply Task_same.
  - unfold forward in H. repeat case_match; simplify_eq; by apply Task_same.
  - destruct (tasks s !! i0) eqn:Hi; simplify_eq. destruct (decide (i0 = i)) as [->|].
    + eapply Task_begun; [done..|]. apply lookup_insert_eq.
    + apply Task_same. by apply lookup_insert_ne.
  - apply visit_act_spec in H as (w&start&seen&marked&c&remove&Hi&Hk&Ht&_&_&_&_&Hr&Hr'). destruct (decide (i0 = i)) as [->|].
    + eapply Task_visited; [done..| |exact Hr|exact Hr']. by rewrite Ht, lookup_insert_eq.
    + apply Task_same. rewrite Ht. by apply lookup_insert_ne.
  - destruct (tasks s !! i0) as [[w start seen marked|]|] eqn:Hi; simplify_eq. destruct (covered start seen s) eqn:Hc; simplify_eq.
    destruct (decide (i0 = i)) as [->|].
    + eapply Task_turned; [done..|]. apply lookup_insert_eq.
    + apply Task_same. by apply lookup_insert_ne.
  - destruct (tasks s !! i0) as [[|[|k marked]]|] eqn:Hi; simplify_eq. destruct (decide (i0 = i)) as [->|].
    + eapply Task_removed; [done..|apply lookup_delete_eq|]. apply lookup_insert_eq.
    + apply Task_same. by apply lookup_insert_ne.
  - destruct (tasks s !! i0) as [[|[|]]|] eqn:Hi; simplify_eq. destruct (decide (i0 = i)) as [->|].
    + apply Task_ended; [done..|]. apply lookup_delete_eq.
    + apply Task_same. by apply lookup_delete_ne.
Qed.

(* ------------------------------------------------------------------ *)
(** ** Well-formed servers *)

Definition marked_of (t : Task) : list Z := match t with Iterating _ _ _ marked | Removing marked => marked end.
(** Ids from the next one on are unused, a connection's channel has its id, and channels
    are within their bound. *)
Record wf s : Prop := mk_wf {
  wf_fresh : ∀ id, next_id s ≤ id → connections s !! id = None ∧ channels s !! id = None;
  wf_tx : ∀ id c, connections s !! id = Some c → ClientInfo.tx c = id;
  wf_bound : ∀ id ch, channels s !! id = Some ch → (length (Channel.queue ch) ≤ PER_CONNECTION_BUFFER)%nat;
  wf_marked : ∀ i t k, tasks s !! i = Some t → k ∈ marked_of t → k < next_id s;
  wf_pos : 1 ≤ next_id s }.
(** [n] more acts do not exhaust the ids. *)
Definition room (n : nat) s : Prop := next_id s + Z.of_nat n < 2 ^ 64.

Lemma next_id_act a s s' o : act a s = Some (s', o) → wf s → room 1 s →
  next_id s' = next_id s + match a with Connect (Some token) e _ => if token_validator e token then 1 else 0 | _ => 0 end.
Proof.
  intros H Hwf Hr. assert (next_id s' = next_id s → next_id s' = next_id s + 0) as Hsame by lia. destruct a; cbn [act] in H.
  - simplify_eq. unfold handle_socket in H. destruct token as [token|]; [destruct (token_validator e token)|]; cbn in H; simplify_eq; cbn; [|lia..].
    apply Z.mod_small. pose proof (wf_pos s Hwf). unfold room in Hr. lia.
  - destruct (sockets s !! id) as [[]|]; simplify_eq. apply receive_spec in H as (Hn & _). auto.
  - unfold leave_act in H. destruct (sockets s !! id) as [[]|]; simplify_eq. auto.
  - unfold leave_act in H. destruct (sockets s !! id) as [[]|]; simplify_eq. auto.
  - unfold forward in H. repeat case_match; simplify_eq; auto.
  - case_match; simplify_eq. auto.
  - apply visit_act_spec in H as (?&?&?&?&?&?&_&_&_&_&Hn&_). auto.
  - repeat case_match; simplify_eq. auto.
  - repeat case_match; simplify_eq. auto.
  - repeat case_match; simplify_eq. auto.
Qed.
Lemma next_id_grows a s s' o : act a s = Some (s', o) → wf s → room 1 s → next_id s ≤ next_id s' ≤ next_id s + 1.
Proof. intros H Hwf Hr. rewrite (next_id_act a s s' o H Hwf Hr). repeat case_match; lia. Qed.

Lemma wf_act a s s' o : act a s = Some (s', o) → wf s → room 1 s → wf s'.
Proof.
  intros H Hwf Hr. pose proof (next_id_grows a s s' o H Hwf Hr) as Hn. pose proof (next_id_act a s s' o H Hwf Hr) as Hnext.
  destruct Hwf as [Hf Ht Hb Hm Hp]. constructor.
  - intros id Hid. destruct (Hf id) as [Hc Hch]; [lia|]. split.
    + destruct (connection_act id a s s' o H) as [E|? ? ? ? ? E|? ? ? -> Hv -> E|? E]; try congruence. rewrite Hv in Hnext. lia.
    + destruct (channel_act id a s s' o H) as [[E|]|? ? E|_ [? E]|? ? ? -> Hv -> E]; unfold open in *; try congruence. rewrite Hv in Hnext. lia.
  - intros id c E'. destruct (connection_act id a s s' o H) as [E|? ? ? ? ? E0 E|? ? ? ? ? ? E|? E]; rewrite E in E'; simplify_eq; cbn; eauto.
  - intros id ch E'. destruct (channel_act id a s s' o H) as [[E|q Ho E]|? q Ho E|? ? E|? ? ? ? ? ? E]; unfold open in *; rewrite E in E'; simplify_eq; cbn; eauto; try lia.
    apply Hb in Ho. cbn in Ho. lia.
  - intros i t k E' Hk. assert (∀ t, tasks s !! i = Some t → k ∈ marked_of t → k < next_id s') as Hold by (intros t' Et' Hk'; specialize (Hm i t' k Et' Hk'); lia).
    destruct (task_act i a s s' o H) as [E|? ? ? E|k' ? ? ? ? ? c [] ? ? ? E ? ?|? ? ? ? ? ? ? E|k' ? ? ? ? E|? ? E]; rewrite E in E'; simplify_eq; cbn in *; eauto.
    + by apply not_elem_of_nil in Hk.
    + apply elem_of_app in Hk as [Hk| ->%list_elem_of_singleton]; [eauto|]. destruct (decide (next_id s ≤ k')) as [Hge|]; [|lia].
      destruct (Hf k' Hge). congruence.
    + eapply Hold; [done|]. by right.
  - lia.
Qed.

Lemma wf_new : wf new_server.
Proof. constructor; cbn; try (intros * H; by rewrite lookup_empty in H); [intros; by rewrite !lookup_empty|done]. Qed.

Lemma run_cons a acts s s' o : run (a :: acts) s = Some (s', o) →
  ∃ s1 o1 o2, act a s = Some (s1, o1) ∧ run acts s1 = Some (s', o2) ∧ o = o1 ++ o2.
Proof.
  cbn. destruct (act a s) as [[s1 o1]|]; [|done]. destruct (run acts s1) as [[s2 o2]|] eqn:Hr; [|done].
  intros [= <- <-]. by exists s1, o1, o2.
Qed.
(** What every act of a run keeps, given what was to be seen so far. *)
Lemma run_keeps (I : Server → list Out → Prop) acts s s' o o0 :
  (∀ a s s' o o', a ∈ acts → act a s = Some (s', o') → wf s → room 1 s → I s o → I s' (o ++ o')) →
  wf s → room (length acts) s → I s o0 → run acts s = Some (s', o) →
  wf s' ∧ next_id s' ≤ next_id s + Z.of_nat (length acts) ∧ I s' (o0 ++ o).
Proof.
  revert s o o0. induction acts as [|a acts IH]; intros s o o0 Hstep Hwf Hroom HI Hr; [cbn in Hr; simplify_eq; rewrite app_nil_r; split_and!; [done|cbn; lia|done]|].
  apply run_cons in Hr as (s1 & o1 & o2 & Ha & Hr & ->). unfold room in *. cbn [length] in Hroom.
  pose proof (next_id_grows a s s1 o1 Ha Hwf ltac:(unfold room; lia)). rewrite app_assoc.
  destruct (IH s1 o2 (o0 ++ o1)) as (? & ? & ?); [| | lia | |done|split_and!; [done|cbn [length]; lia|done]].
  - intros ? ? ? ? ? Hin. apply Hstep. by right.
  - apply (wf_act a s s1 o1 Ha Hwf). unfold room. lia.
  - eapply Hstep; [by left|done|done|unfold room; lia|done].
Qed.

(** *** Delivery *)

(** What a channel has taken is on the socket, then still in the channel; once the channel
    is closed the rest is lost. *)
Definition delivered s o : Prop := ∀ id, ∃ rest, map frame (queued id o) = wrote id o ++ rest ∧
  (∀ q, open id q s → rest = map frame q) ∧ (channels s !! id = None → queued id o = []).
Lemma delivered_act a s s' o o' : act a s = Some (s', o') → wf s → delivered s o → delivered s' (o ++ o').
Proof.
  intros H Hwf Hd id. destruct (Hd id) as (rest & Heq & Hopen & Hnone).
  destruct (channel_act id a s s' o' H) as [[Hc Hq Hw|q Ho Ho' Hw _]|m q Ho Ho' Hq Hw|_ _ Hc Hq Hw|token e now _ _ -> Ho' Hq Hw];
    rewrite queued_app, wrote_app, ?Hq, ?Hw, ?app_nil_r; unfold open in *.
  - exists rest. rewrite Hc. repeat split; auto.
  - specialize (Hopen q Ho). subst rest. exists (map frame (q ++ queued id o')). rewrite !map_app, Heq, app_assoc. split; [done|]. split; [|congruence].
    rewrite Ho'. intros ? [= <-]. by rewrite map_app.
  - specialize (Hopen _ Ho). subst rest. exists (map frame q). rewrite Heq, <- app_assoc. split; [done|]. split; [|congruence].
    rewrite Ho'. by intros ? [= <-].
  - exists rest. rewrite Hc. split; [done|]. split; [|done]. by intros ? [= ].
  - destruct (wf_fresh s Hwf (next_id s)) as [_ Hch]; [lia|]. rewrite (Hnone Hch) in Heq |- *. exists rest. split; [done|].
    split; [|done]. rewrite Ho'. intros ? [= <-]. symmetry in Heq. by apply app_eq_nil in Heq as [_ ->].
Qed.

(** Every connection gets the messages its channel took, unchanged and in their order: whatever
    connections, broadcasts and heartbeats do, what is on its socket followed by what waits in its
    channel is what was sent to it, and never more than sixty-four messages wait; of a channel that is closed, the socket has a prefix. *)
Lemma messages_arrive_in_order (acts : list Act) s o (id : Z) :
  Z.of_nat (length acts) < 2 ^ 64 - 1 → run acts new_server = Some (s, o) →
  (wrote id o `prefix_of` map frame (queued id o)) ∧
  ∀ ch, channels s !! id = Some ch → (length (Channel.queue ch) ≤ PER_CONNECTION_BUFFER)%nat ∧
    (Channel.rx ch = true → map frame (queued id o) = wrote id o ++ map frame (Channel.queue ch)).
Proof.
  intros Hlen Hr. destruct (run_keeps delivered acts new_server s o []) as (Hwf & _ & Hd).
  - intros ? ? ? ? ? _ Ha Hwf _. by eapply delivered_act.
  - exact wf_new.
  - unfold room. cbn. lia.
  - intros k. exists []. done.
  - done.
  - destruct (Hd id) as (rest & Heq & Hopen & _). cbn [app] in *. split; [by exists rest|]. intros ch Hch.
    split; [by apply (wf_bound s Hwf id)|]. intros Hrx. rewrite Heq. f_equal. apply Hopen. unfold open. rewrite Hch. destruct ch. by cbn in *; subst.
Qed.

(** *** The heartbeat closes *)

(** The heartbeat [i] of [now] will have removed the connection when it is over. *)
Definition doomed (Q : ClientInfo.t → Prop) (i : nat) (now id : Z) s : Prop :=
  id < next_id s ∧ ∀ c, connections s !! id = Some c → Q c ∧ ∃ t, tasks s !! i = Some t ∧
    match t with
    | Iterating w start seen marked => w = Heartbeat now ∧ id ∈ start ∧ (id ∈ seen → id ∈ marked)
    | Removing marked => id ∈ marked
    end.
Lemma doomed_act Q i now id a s s' o : act a s = Some (s', o) → wf s → room 1 s →
  (∀ e c, a = Visit i id e → Q c → expired now e c) →
  (∀ r t c, a = Receive id r t → pong r = true → Q c → Q (ClientInfo.touch t c)) →
  doomed Q i now id s → doomed Q i now id s'.
Proof.
  intros H Hwf Hroom Hvisit Hpong [Hid Hd]. pose proof (next_id_grows a s s' o H Hwf Hroom) as Hn. split; [lia|]. intros c Hc.
  assert (∃ c0, connections s !! id = Some c0 ∧ (Q c0 → Q c)) as (c0 & Hc0 & HQ).
  { destruct (connection_act id a s s' o H) as [E|r t c0 Ha Hp E0 E|? ? ? _ _ -> _|? E]; [exists c; split; [congruence|done]| |lia|congruence].
    exists c0. split; [done|]. intros HQ. rewrite E in Hc. simplify_eq. by eapply Hpong. }
  destruct (Hd c0 Hc0) as [HQ0 (t & Ht & Hm)]. split; [auto|].
  destruct (task_act i a s s' o H) as [E|w _ E|k e w start seen marked c1 remove Ha E0 E1 E _ Hr|w start seen marked _ E0 Hcov E|k marked _ E0 Hk E|_ E0 E].
  - exists t. by rewrite E.
  - congruence.
  - rewrite Ht in E0. simplify_eq. destruct Hm as (-> & Hin & Hseen). eexists. split; [exact E|]. split; [done|]. split; [done|].
    intros [->%elem_of_singleton|Hs]%elem_of_union.
    + rewrite (Hr now eq_refl); [set_solver|]. simplify_eq. by apply Hvisit.
    + destruct remove; set_solver.
  - rewrite Ht in E0. simplify_eq. destruct Hm as (-> & Hin & Hseen). eexists. split; [exact E|]. apply Hseen. unfold covered in Hcov.
    apply bool_decide_eq_true in Hcov. destruct (decide (id ∈ seen)); [done|]. apply elem_of_dom_2 in Hc0. set_solver.
  - rewrite Ht in E0. simplify_eq. eexists. split; [exact E|]. apply elem_of_cons in Hm as [->|]; [congruence|done].
  - rewrite Ht in E0. simplify_eq. by apply not_elem_of_nil in Hm.
Qed.

(** C21: when a heartbeat is over, each connection is gone that had been silent for more than sixty seconds
    when the heartbeat began and did not answer during it, and each whose token the validator refuses when
    the heartbeat visits it; whatever connections, broadcasts and other heartbeats do in between. *)
Theorem heartbeat_removes_the_expired (before acts : list Act) s s' o o' (i : nat) (now id : Z) c :
  Z.of_nat (length before + length acts) < 2 ^ 64 - 2 → run before new_server = Some (s, o) →
  connections s !! id = Some c →
  run (Begin i (Heartbeat now) :: acts) s = Some (s', o') → tasks s' !! i = None →
  (HEARTBEAT_TIMEOUT < duration_since now (ClientInfo.last_ping c) ∧ ∀ r t, Receive id r t ∈ acts → pong r = false) ∨
  (∀ e, Visit i id e ∈ acts → token_validator e (ClientInfo.token c) = false) →
  connections s' !! id = None.
Proof.
  intros Hlen Hb Hc Hr Hend Hcause.
  destruct (run_keeps (λ _ _, True) before new_server s o []) as (Hwf & Hnext & _); [done|exact wf_new|unfold room; cbn; lia|done|done|].
  cbn in Hnext. set (Q := λ d, ClientInfo.token d = ClientInfo.token c ∧
    ((∃ r t, Receive id r t ∈ acts ∧ pong r = true) ∨ ClientInfo.last_ping d = ClientInfo.last_ping c)).
  assert (doomed Q i now id s').
  { apply run_cons in Hr as (s1 & o1 & o2 & Ha & Hr & ->). pose proof (wf_act _ _ _ _ Ha Hwf ltac:(unfold room; lia)) as Hwf1.
    cbn [act] in Ha. destruct (tasks s !! i) eqn:Hi; [done|]. simplify_eq.
    apply (run_keeps (λ s _, doomed Q i now id s) acts _ s' o2 []) in Hr as (_ & _ & ?); [done| |done|unfold room; cbn; lia|].
    - intros a s2 s3 _ o3 Hin Ha Hwf2 Hroom. apply (doomed_act Q i now id a s2 s3 o3); try done.
      + intros e d -> [Ht Hp]. unfold expired. rewrite Ht. destruct Hcause as [[Hl Hnone]|Hv]; [left|right; by apply Hv].
        destruct Hp as [(r & t & Hrt & Hpt)| ->]; [|done]. by rewrite (Hnone r t Hrt) in Hpt.
      + intros r t d -> Hp [Ht _]. split; [done|]. left. by exists r, t.
    - split; cbn.
      + destruct (decide (next_id s ≤ id)) as [Hge|]; [|lia]. destruct (wf_fresh s Hwf id Hge). congruence.
      + intros d Hd. assert (d = c) as -> by congruence. split; [split; [done|by right]|]. eexists. rewrite lookup_insert_eq. split; [done|].
        split; [done|]. split; [by apply elem_of_dom_2 in Hc|]. by intros ?%not_elem_of_empty. }
  destruct (connections s' !! id) as [d|] eqn:Hd; [|done]. destruct H as [_ H]. destruct (H d Hd) as [_ (t & Ht & _)]. congruence.
Qed.

(** *** The heartbeat keeps *)

(** What happens around the connection [id]: its client answers in time (a heartbeat begins
    no later than a timeout after the last answer), its token stays valid, its socket takes
    what it is given and is not closed. *)
Fixpoint timely (id : Z) (token : string) (deadline : Z) (acts : list Act) : bool :=
  match acts with
  | [] => true
  | a :: acts =>
      match a with
      | Begin _ (Heartbeat now) => (now <=? deadline) && timely id token deadline acts
      | Visit _ k e => (negb (k =? id) || token_validator e token) && timely id token deadline acts
      | Forward k written => (negb (k =? id) || written) && timely id token deadline acts
      | Receive k result now =>
          if k =? id then
            match result with
            | Incoming.Close | Incoming.Error => false
            | _ => if pong result then (deadline <=? now + HEARTBEAT_TIMEOUT) && timely id token (now + HEARTBEAT_TIMEOUT) acts
                   else timely id token deadline acts
            end
          else timely id token deadline acts
      | _ => timely id token deadline acts
      end
  end.
Definition steady (id : Z) (token : string) (deadline : Z) s : Prop :=
  id < next_id s ∧
  (∃ c q, connections s !! id = Some c ∧ ClientInfo.token c = token ∧ ClientInfo.last_ping c + HEARTBEAT_TIMEOUT = deadline ∧ open id q s) ∧
  sockets s !! id = Some Receiving ∧
  (∀ i t, tasks s !! i = Some t → id ∉ marked_of t ∧ ∀ now start seen marked, t = Iterating (Heartbeat now) start seen marked → now ≤ deadline).

Lemma socket_act id a s s' o : act a s = Some (s', o) → wf s → room 1 s → id < next_id s → sockets s !! id = Some Receiving →
  sockets s' !! id = Some Receiving ∨ ∃ now, a = Receive id Incoming.Close now ∨ a = Receive id Incoming.Error now.
Proof.
  intros H Hwf Hroom Hid Hs. destruct a; cbn [act] in H.
  - simplify_eq. left. unfold handle_socket in H. destruct token as [token|]; [destruct (token_validator e token)|]; cbn in H; simplify_eq; cbn; [|done..].
    rewrite lookup_insert_ne; [done|lia].
  - destruct (sockets s !! id0) as [[]|] eqn:Hs0; simplify_eq. destruct (decide (id0 = id)) as [->|Hne].
    + destruct result as [text| | |]; [left|right; eauto|left|right; eauto]; cbn in H; [|by simplify_eq].
      unfold handle_text_message in H. repeat case_match; simplify_eq; try done; apply send_raw_to_spec in H as (_ & -> & _); done.
    + left. apply receive_spec in H as (_ & _ & _ & [->| ->] & _); [done|]. by rewrite lookup_insert_ne.
  - left. unfold leave_act in H. destruct (sockets s !! id0) as [[]|] eqn:Hs0; simplify_eq. cbn. rewrite lookup_insert_ne; [done|]. intros ->; congruence.
  - left. unfold leave_act in H. destruct (sockets s !! id0) as [[]|] eqn:Hs0; simplify_eq. cbn. rewrite lookup_delete_ne; [done|]. intros ->; congruence.
  - left. unfold forward in H. by repeat case_match; simplify_eq.
  - left. by repeat case_match; simplify_eq.
  - left. apply visit_act_spec in H as (?&?&?&?&?&?&_&_&_&_&_& -> &_). done.
  - left. by repeat case_match; simplify_eq.
  - left. by repeat case_match; simplify_eq.
  - left. by repeat case_match; simplify_eq.
Qed.

Lemma leave_act_phase id b s s' o : leave_act id b s = Some (s', o) → sockets s !! id ≠ Some Receiving.
Proof. unfold leave_act. by destruct (sockets s !! id) as [[]|]. Qed.

(** The deadline after an act. *)
Definition deadline_after (id : Z) (deadline : Z) (a : Act) : Z :=
  match a with Receive k r now => if (k =? id) && pong r then now + HEARTBEAT_TIMEOUT else deadline | _ => deadline end.
Lemma timely_cons id token deadline a acts : timely id token deadline (a :: acts) = true →
  timely id token (deadline_after id deadline a) acts = true ∧ deadline ≤ deadline_after id deadline a ∧
  (∀ i now, a = Begin i (Heartbeat now) → now ≤ deadline) ∧ (∀ i e, a = Visit i id e → token_validator e token = true) ∧
  (a ≠ Forward id false) ∧ (∀ now, a ≠ Receive id Incoming.Close now ∧ a ≠ Receive id Incoming.Error now).
Proof.
  destruct a as [| k r now| | |k written|i [|now]|i k e| | |]; cbn; intros H; split_and!; try done; try (intros; split; congruence); try lia.
  all: try (intros; simplify_eq; rewrite ?Z.eqb_refl in H; cbn in H; apply andb_true_iff in H as [H1 H2]; first [done | lia]).
  - revert H. destruct (k =? id); [|done]. destruct r as [text| | |]; try done. cbn. case_match; [|done]. by intros [_ ?]%andb_true_iff.
  - revert H. destruct (k =? id); cbn; [|lia]. destruct r as [text| | |]; cbn; try done. case_match; lia.
  - intros t. split; intros [= -> -> _]; rewrite Z.eqb_refl in H; done.
  - intros [= -> ->]. by rewrite Z.eqb_refl in H.
Qed.

Lemma steady_act id token deadline a acts s s' o : act a s = Some (s', o) → wf s → room 1 s →
  timely id token deadline (a :: acts) = true → steady id token deadline s → steady id token (deadline_after id deadline a) s'.
Proof.
  intros H Hwf Hroom (_ & Hle & Hbegin & Hvalid & Hforward & Hclose)%timely_cons (Hid & (c & q & Hc & Htok & Hdl & Hq) & Hs & Ht).
  pose proof (next_id_grows a s s' o H Hwf Hroom). pose proof (wf_tx s Hwf id c Hc) as Htx.
  assert (sockets s' !! id = Some Receiving) as Hs'.
  { destruct (socket_act id a s s' o H Hwf Hroom Hid Hs) as [?|[now [->| ->]]]; [done|destruct (Hclose now); done..]. }
  assert (∃ q', open id q' s') as [q' Hq'].
  { destruct (channel_act id a s s' o H) as [[E|? _ ? _ _]|? ? _ ? _ _|[->|[->|?]] _ _ _ _|? ? ? _ _ -> _ _ _]; try done; try lia; try congruence; try (by eexists).
    - exists q. unfold open. by rewrite E.
    - cbn [act] in H. by apply leave_act_phase in H. }
  split; [lia|]. split; [|split; [done|]].
  - destruct (connection_act id a s s' o H) as [E|r t c0 -> Hp E0 E|? ? ? _ _ -> _|[->|[(i & marked & -> & E)|(c0 & E & Hn)]] _].
    + exists c, q'. rewrite E. split_and!; try done. destruct a; try done. cbn. destruct ((id0 =? id) && pong result) eqn:Hb; [|done].
      apply andb_true_iff in Hb as [->%Z.eqb_eq Hp]. cbn [act] in H. rewrite Hs in H.
      injection H as H. apply receive_spec in H as (_&_&_&_&[[? _]|[[_ Hc']|(c1 & E1 & Hn & _)]]); [congruence| |].
      * rewrite Hc', lookup_alter, decide_True, Hc in E by done. cbn in E. injection E as E. by rewrite <- E.
      * simplify_eq. by destruct (Hn q).
    + exists (ClientInfo.touch t c0), q'. simplify_eq. split_and!; try done. cbn. by rewrite Z.eqb_refl, Hp.
    + lia.
    + cbn [act] in H. by apply leave_act_phase in H.
    + destruct (Ht i _ E) as [Hm _]. exfalso. apply Hm. by left.
    + simplify_eq. by destruct (Hn q).
  - intros i t Et. assert (∀ t, tasks s !! i = Some t → id ∉ marked_of t ∧ ∀ now start seen marked, t = Iterating (Heartbeat now) start seen marked →
        now ≤ deadline_after id deadline a) as Hold.
    { intros t0 Et0. destruct (Ht i t0 Et0) as [? Hb]. split; [done|]. intros * Et1. specialize (Hb _ _ _ _ Et1). lia. }
    destruct (task_act i a s s' o H) as [E|w -> E0 E|k e w start seen marked c1 remove -> E0 E1 E Hr _|w start seen marked _ E0 Hcov E|k marked _ E0 Hk E|_ E0 E];
      rewrite E in Et; simplify_eq; cbn [marked_of].
    + by apply Hold.
    + split; [apply not_elem_of_nil|]. intros now ? ? ? [= -> _ _ _]. specialize (Hbegin i now eq_refl). cbn. lia.
    + destruct (Hold _ E0) as [Hm Hb]. cbn [marked_of] in Hm. split; [|intros * [= -> _ _ _]; by eapply Hb].
      destruct remove; [|done]. intros [?|Hk%list_elem_of_singleton]%elem_of_app; [done|]. subst k.
      destruct (Hr eq_refl) as [(now & -> & [Hl|Hv])|Hn].
      * specialize (Hb now _ _ _ eq_refl). cbn in Hb. simplify_eq. unfold duration_since, HEARTBEAT_TIMEOUT in *. lia.
      * rewrite E1 in Hc. simplify_eq. by rewrite (Hvalid i e eq_refl) in Hv.
      * simplify_eq. by destruct (Hn q).
    + destruct (Hold _ E0) as [Hm _]. done.
    + destruct (Hold _ E0) as [Hm _]. cbn in Hm. set_solver.
Qed.

Lemma run_steady id token deadline acts s s' o : run acts s = Some (s', o) → wf s → room (length acts) s →
  timely id token deadline acts = true → steady id token deadline s → ∃ deadline', steady id token deadline' s'.
Proof.
  revert deadline s o. induction acts as [|a acts IH]; intros deadline s o Hr Hwf Hroom Ht Hs; [cbn in Hr; simplify_eq; by exists deadline|].
  apply run_cons in Hr as (s1 & o1 & o2 & Ha & Hr & ->). unfold room in *. cbn [length] in Hroom.
  pose proof (next_id_grows a s s1 o1 Ha Hwf ltac:(unfold room; lia)). eapply IH; [exact Hr| |lia|by apply timely_cons in Ht as [Ht _]|].
  - eapply wf_act; [done..|unfold room; lia].
  - eapply steady_act; [done..|unfold room; lia|done|done].
Qed.

(** C22: a client with a valid token stays: once it is connected, and for as long as every heartbeat begins
    no later than sixty seconds after its last answer, the validator accepts its token, its socket takes the
    frames and neither closes nor fails, no heartbeat and no broadcast of whatever interleaving removes it. *)
Theorem answering_client_stays (before acts : list Act) s s' o o' (token : string) (e : Env) (now : Z) :
  Z.of_nat (length before + length acts) < 2 ^ 64 - 2 → run before new_server = Some (s, o) →
  (∀ i t start seen marked, tasks s !! i = Some (Iterating (Heartbeat t) start seen marked) → t ≤ now) →
  token_validator e token = true → timely (next_id s) token (now + HEARTBEAT_TIMEOUT) acts = true →
  run (Connect (Some token) e now :: acts) s = Some (s', o') →
  ∃ c, connections s' !! next_id s = Some c ∧ ClientInfo.token c = token.
Proof.
  intros Hlen Hb Htasks Hv Ht Hr.
  destruct (run_keeps (λ _ _, True) before new_server s o []) as (Hwf & Hnext & _); [done|exact wf_new|unfold room; cbn; lia|done|done|].
  cbn in Hnext. apply run_cons in Hr as (s1 & o1 & o2 & Ha & Hr & ->).
  pose proof (wf_act _ _ _ _ Ha Hwf ltac:(unfold room; lia)) as Hwf1. pose proof (next_id_act _ _ _ _ Ha Hwf ltac:(unfold room; lia)) as Hn1.
  cbn in Hn1. rewrite Hv in Hn1. destruct (run_steady (next_id s) token (now + HEARTBEAT_TIMEOUT) acts s1 s' o2 Hr Hwf1) as (d & _ & (c & q & Hc & Htok & _) & _).
  - unfold room. lia.
  - done.
  - cbn [act] in Ha. simplify_eq. unfold handle_socket in Ha. rewrite Hv in Ha. cbn in Ha. simplify_eq. cbn in *. split; [cbn; lia|]. split_and!; cbn.
    + exists (ClientInfo.mk token now (next_id s)), []. rewrite lookup_insert_eq. split_and!; try done. unfold open. cbn. apply lookup_insert_eq.
    + apply lookup_insert_eq.
    + intros i t Hit. split.
      * intros Hin. pose proof (wf_marked s Hwf i t _ Hit Hin). lia.
      * intros t' start seen marked ->. specialize (Htasks _ _ _ _ _ Hit). unfold HEARTBEAT_TIMEOUT. lia.
  - by exists c.
Qed.

(** *** The router *)

Lemma sockets_act id a s s' o : act a s = Some (s', o) → is_Some (sockets s' !! id) →
  is_Some (sockets s !! id) ∨ ∃ token e now, a = Connect (Some token) e now ∧ token_validator e token = true.
Proof.
  intros H Hs. destruct a; cbn [act] in H.
  - simplify_eq. unfold handle_socket in H. destruct token as [token|]; [destruct (token_validator e token) eqn:Hv|]; cbn in H; simplify_eq; [right; eauto|by left..].
  - destruct (sockets s !! id0) as [[]|] eqn:Hs0; simplify_eq. left. apply receive_spec in H as (_ & _ & _ & [E|E] & _); rewrite E in Hs; [done|].
    destruct (decide (id0 = id)) as [->|]; [by eexists|]. by rewrite lookup_insert_ne in Hs.
  - unfold leave_act in H. destruct (sockets s !! id0) as [[]|] eqn:Hs0; simplify_eq. left. cbn in Hs.
    destruct (decide (id0 = id)) as [->|]; [by eexists|]. by rewrite lookup_insert_ne in Hs.
  - unfold leave_act in H. destruct (sockets s !! id0) as [[]|] eqn:Hs0; simplify_eq. left. cbn in Hs.
    destruct (decide (id0 = id)) as [->|]; [by eexists|]. by rewrite lookup_delete_ne in Hs.
  - left. unfold forward in H. by repeat case_match; simplify_eq.
  - left. by repeat case_match; simplify_eq.
  - left. apply visit_act_spec in H as (?&?&?&?&?&?&_&_&_&_&_&E&_). by rewrite E in Hs.
  - left. by repeat case_match; simplify_eq.
  - left. by repeat case_match; simplify_eq.
  - left. by repeat case_match; simplify_eq.
Qed.
(** Nothing reaches a receive loop, and so the router, unless a socket was admitted with a
    token the validator accepted. *)
Lemma only_admitted_sockets_speak acts s o id : run acts new_server = Some (s, o) → is_Some (sockets s !! id) →
  ∃ token e now, Connect (Some token) e now ∈ acts ∧ token_validator e token = true.
Proof.
  assert (∀ s0 s o, run acts s0 = Some (s, o) → is_Some (sockets s !! id) → is_Some (sockets s0 !! id) ∨
    ∃ token e now, Connect (Some token) e now ∈ acts ∧ token_validator e token = true) as Hrun.
  { clear s o. induction acts as [|a acts IH]; intros s0 s o Hr Hs; [cbn in Hr; simplify_eq; by left|].
    apply run_cons in Hr as (s1 & o1 & o2 & Ha & Hr & ->). destruct (IH s1 s o2 Hr Hs) as [H1|(token & e & now & Hin & Hv)].
    - destruct (sockets_act id a s0 s1 o1 Ha H1) as [|(token & e & now & -> & Hv)]; [by left|]. right. exists token, e, now. split; [by left|done].
    - right. exists token, e, now. split; [by right|done]. }
  intros Hr Hs. destruct (Hrun _ _ _ Hr Hs) as [[? H]|]; [cbn in H; by rewrite lookup_empty in H|done].
Qed.
(** A socket that is turned away is told so and leaves no trace. *)
Lemma handle_socket_refuses token e now s : (∀ t, token = Some t → token_validator e t = false) →
  handle_socket token e now s = (s, [Refused (match token with None => no_token_frames | Some _ => auth_expired_frames end)]).
Proof. intros H. destruct token as [t|]; [|done]. cbn. by rewrite (H t eq_refl). Qed.
End Facts.

(* ------------------------------------------------------------------ *)
(** ** Runs *)

Section Runs.
#[local] Existing Instance plain_codec.
(** A reading of messages: an object with a name and data. *)
#[local] Instance plain_messages : MessageText := λ text,
  v ← from_str text; n ← get "name" v ≫= as_str; d ← get "data" v; Some (WebSocketMessage.mk n d).
Definition seconds (n : Z) : Z := n * 10 ^ 9.
Definition trusting : Env := mk_env (λ _, true) 0.
Definition refusing : Env := mk_env (λ _, false) 0.
Definition says (name : string) : Incoming.t := Incoming.Text (message_text (WebSocketMessage.mk name Null)).

(** Two clients; the second answers the heartbeat of thirty seconds, the first does not. *)
Definition two_clients : list Act :=
  [Connect (Some "a") trusting 0; Connect (Some "b") trusting 0; Begin 0 (Heartbeat (seconds 30)); Visit 0 1 trusting; Visit 0 2 trusting;
   EndVisits 0; End_ 0; Forward 1 true; Forward 2 true; Receive 2 (says "pong") (seconds 31)].
Definition next_heartbeat : list Act := [Visit 1 2 trusting; Visit 1 1 trusting; EndVisits 1; Removal 1; End_ 1].

Example first_client_is_removed :
  (λ r, (map fst (map_to_list (connections (fst r))), wrote 2 (snd r))) <$> run (two_clients ++ Begin 1 (Heartbeat (seconds 61)) :: next_heartbeat) new_server =
  Some ([2], [Frame.Text (ping 0)]).
Proof. by vm_compute. Qed.

Lemma messages_arrive_in_order_witness :
  let r := default (new_server, []) (run two_clients new_server) in
  wrote 2 (snd r) = [Frame.Text (ping 0)] ∧ wrote 2 (snd r) `prefix_of` map frame (queued 2 (snd r)).
Proof.
  intros r. split; [by vm_compute|]. apply (messages_arrive_in_order two_clients (fst r) (snd r) 2); [by vm_compute|]. by vm_compute.
Defined.
Lemma heartbeat_removes_the_expired_witness :
  let s := fst (default (new_server, []) (run two_clients new_server)) in
  let s' := fst (default (new_server, []) (run (Begin 1 (Heartbeat (seconds 61)) :: next_heartbeat) s)) in
  connections s !! 1 = Some (ClientInfo.mk "a" 0 1) ∧ connections s' !! 1 = None.
Proof.
  intros s s'. split; [by vm_compute|].
  apply (heartbeat_removes_the_expired two_clients next_heartbeat s s' (snd (default (new_server, []) (run two_clients new_server)))
    (snd (default (new_server, []) (run (Begin 1 (Heartbeat (seconds 61)) :: next_heartbeat) s))) 1 (seconds 61) 1 (ClientInfo.mk "a" 0 1));
    [by vm_compute|by vm_compute|by vm_compute|by vm_compute|by vm_compute|].
  left. split; [by vm_compute|]. intros r t Hin. apply list_elem_of_In in Hin. repeat (destruct Hin as [Hin|Hin]; [discriminate Hin|]). destruct Hin.
Defined.
Definition an_answer : list Act :=
  [Receive 1 (says "pong") (seconds 45); Begin 0 (Heartbeat (seconds 90)); Visit 0 1 trusting; EndVisits 0; End_ 0].
Lemma answering_client_stays_witness :
  let s' := fst (default (new_server, []) (run (Connect (Some "a") trusting 0 :: an_answer) new_server)) in
  ∃ c, connections s' !! 1 = Some c ∧ ClientInfo.token c = "a".
Proof.
  intros s'.
  apply (answering_client_stays [] an_answer new_server s' [] (snd (default (new_server, []) (run (Connect (Some "a") trusting 0 :: an_answer) new_server))) "a" trusting 0);
    [by vm_compute|by vm_compute| |by vm_compute|by vm_compute|by vm_compute].
  intros i t start seen marked H. cbn in H. by rewrite lookup_empty in H.
Defined.

(** A connection that the heartbeat removed for its token still reaches the router. *)
Example refused_client_is_still_heard :
  (λ r, (client_count (fst r), last (snd r))) <$>
    run [Connect (Some "a") trusting 0; Begin 0 (Heartbeat (seconds 30)); Visit 0 1 refusing; EndVisits 0; Removal 0; End_ 0;
         Receive 1 (says "chat.send") (seconds 31)] new_server =
  Some (0%nat, Some (Routed 1 "chat.send" Null)).
Proof. by vm_compute. Qed.
(** A client whose channel is full is removed without being told. *)
Definition sixty_four_broadcasts : list Act :=
  concat (map (λ i, [Begin i (Broadcast "x"); Visit i 1 trusting; EndVisits i; End_ i]) (seq 0 64)).
Example full_channel_hides_the_close :
  (λ r, (client_count (fst r), existsb (λ m, match m with WsOutbound.Close _ _ => true | _ => false end) (queued 1 (snd r)))) <$>
    run (Connect (Some "a") trusting 0 :: sixty_four_broadcasts ++ [Begin 64 (Heartbeat (seconds 61)); Visit 64 1 trusting; EndVisits 64; Removal 64; End_ 64]) new_server =
  Some (0%nat, false).
Proof. by vm_compute. Qed.
End Runs.
