(* ===== verification/PluginRegistry.v ===== *)
(** * PluginRegistry: the channel of the OpenCode plugin

    [manager/remote/plugin]: what the registry keeps per remote agent ([registry.rs]:
    connection, audits, approver, pushes, voice modes), the streams of events that replay
    and follow it, the handlers of [server.rs] that record what the plugin reports, and the
    debouncing of workspace changes.  A toggle of the voice mode ([services/remote.rs]) and
    the opening of a stream take the registry's lock several times: a run interleaves these
    steps.  An approver is named by a number; the receivers are those of [tokio]'s broadcast
    channel: each gets every push after it subscribed, the oldest lost once
    [PUSH_CHANNEL_CAP] wait. *)

From S2P Require Import Prelude.
From S2P Require Import Text.
From S2P Require Import JsonValue.

(* ------------------------------------------------------------------ *)
(** ** Data *)

Module PluginAuditRecord.
(* chisl-ai-agent/src/manager/remote/plugin/protocol.rs:156-166 PluginAuditRecord *)
Record t := mk { kind : string; tool : option string; session_id : option string; call_id : option string; at_ms : Z; summary : string }.
End PluginAuditRecord.
Module PluginPushEvent.
(* chisl-ai-agent/src/manager/remote/plugin/protocol.rs:175-178 PluginPushEvent *)
Record t := mk { event : string; data : json }.
End PluginPushEvent.

(* chisl-ai-agent/src/manager/remote/plugin/registry.rs:35-35 AUDIT_RING_CAP *)
Definition AUDIT_RING_CAP : nat := 500.
(* chisl-ai-agent/src/manager/remote/plugin/registry.rs:41-41 HELLO_CONNECTED_GRACE_MS *)
Definition HELLO_CONNECTED_GRACE_MS : Z := 60000.
(* chisl-ai-agent/src/manager/remote/plugin/registry.rs:47-47 PUSH_CHANNEL_CAP *)
Definition PUSH_CHANNEL_CAP : nat := 256.
(* chisl-ai-agent/src/manager/remote/plugin/registry.rs:55-55 STICKY_VOICE_MODE_CAP *)
Definition STICKY_VOICE_MODE_CAP : nat := 64.

Module PluginConnectionState.
(* chisl-ai-agent/src/manager/remote/plugin/registry.rs:78-85 PluginConnectionState *)
Record t := mk {
  last_hello_at_ms : option Z; plugin_version : option string; opencode_version : option string;
  hooks : list string; events_stream_open : bool; hello_count : Z }.
Definition new : t := mk None None None [] false 0.
(* chisl-ai-agent/src/manager/remote/plugin/registry.rs:90-96 is_connected *)
Definition is_connected (now_ms : Z) (s : t) : bool :=
  events_stream_open s ||
  match last_hello_at_ms s with Some t => Z.max 0 (now_ms - t) <=? HELLO_CONNECTED_GRACE_MS | None => false end.
End PluginConnectionState.

Module StickyVoiceMode.
(* chisl-ai-agent/src/manager/remote/plugin/registry.rs:125-128 StickyVoiceMode *)
Record t := mk { session_key : string; event : PluginPushEvent.t }.
End StickyVoiceMode.

(** A receiver of the broadcast channel: what waits for it and how many it missed. *)
Module Receiver.
Record t (A : Type) := mk { pending : list A; lagged : nat }.
Arguments mk {A} _ _.
Arguments pending {A} _.
Arguments lagged {A} _.
Definition new {A} : t A := mk [] 0.
Definition send {A} (cap : nat) (e : A) (r : t A) : t A :=
  if Nat.leb cap (length (pending r)) then mk (tail (pending r) ++ [e]) (S (lagged r)) else mk (pending r ++ [e]) (lagged r).
End Receiver.

Module AgentEntry.
(* chisl-ai-agent/src/manager/remote/plugin/registry.rs:104-117 AgentEntry *)
Record t := mk {
  state : PluginConnectionState.t; audit : list PluginAuditRecord.t; receivers : gmap nat (Receiver.t PluginPushEvent.t);
  shell_approver : option nat; voice_sticky : list StickyVoiceMode.t }.
Definition new : t := mk PluginConnectionState.new [] ∅ None [].
Definition with_state f e := mk (f (state e)) (audit e) (receivers e) (shell_approver e) (voice_sticky e).
Definition with_audit f e := mk (state e) (f (audit e)) (receivers e) (shell_approver e) (voice_sticky e).
Definition with_receivers f e := mk (state e) (audit e) (f (receivers e)) (shell_approver e) (voice_sticky e).
Definition with_approver a e := mk (state e) (audit e) (receivers e) a (voice_sticky e).
Definition with_sticky f e := mk (state e) (audit e) (receivers e) (shell_approver e) (f (voice_sticky e)).
End AgentEntry.
Abbreviation PluginRegistry := (gmap string AgentEntry.t).

(* ------------------------------------------------------------------ *)
(** ** The registry *)

(* chisl-ai-agent/src/manager/remote/plugin/registry.rs:167-180 entry_mut *)
Definition entry_mut (agent_id : string) (f : AgentEntry.t → AgentEntry.t) (r : PluginRegistry) : PluginRegistry :=
  <[agent_id := f (default AgentEntry.new (r !! agent_id))]> r.
(* chisl-ai-agent/src/manager/remote/plugin/registry.rs:193-214 record_hello *)
Definition record_hello (agent_id plugin_version : string) (opencode_version : option string) (hooks : list string) (now : Z) :
    PluginRegistry → PluginRegistry :=
  let is_probe := String.eqb plugin_version "0.0.0" && match hooks with [] => true | _ => false end in
  entry_mut agent_id (AgentEntry.with_state (λ s,
    let '(v, o, h) :=
      if negb is_probe || match PluginConnectionState.plugin_version s with None => true | Some _ => false end
      then (Some plugin_version, opencode_version, hooks)
      else (PluginConnectionState.plugin_version s, PluginConnectionState.opencode_version s, PluginConnectionState.hooks s) in
    PluginConnectionState.mk (Some (Z.max 0 now)) v o h (PluginConnectionState.events_stream_open s) (w64 (PluginConnectionState.hello_count s + 1)))).
(* chisl-ai-agent/src/manager/remote/plugin/registry.rs:216-220 set_events_stream_open *)
Definition set_events_stream_open (agent_id : string) (open : bool) : PluginRegistry → PluginRegistry :=
  entry_mut agent_id (AgentEntry.with_state (λ s,
    PluginConnectionState.mk (PluginConnectionState.last_hello_at_ms s) (PluginConnectionState.plugin_version s)
      (PluginConnectionState.opencode_version s) (PluginConnectionState.hooks s) open (PluginConnectionState.hello_count s))).
(* chisl-ai-agent/src/manager/remote/plugin/registry.rs:222-224 connection_state *)
Definition connection_state (agent_id : string) (r : PluginRegistry) : PluginConnectionState.t :=
  default PluginConnectionState.new (AgentEntry.state <$> r !! agent_id).
(* chisl-ai-agent/src/manager/remote/plugin/registry.rs:228-231 connected *)
Definition connected (agent_id : string) (now : Z) (r : PluginRegistry) : bool :=
  PluginConnectionState.is_connected (Z.max 0 now) (connection_state agent_id r).
(* chisl-ai-agent/src/manager/remote/plugin/registry.rs:237-244 record_audit *)
Definition record_audit (agent_id : string) (record : PluginAuditRecord.t) : PluginRegistry → PluginRegistry :=
  entry_mut agent_id (AgentEntry.with_audit (λ audit,
    (if Nat.eqb (length audit) AUDIT_RING_CAP then tail audit else audit) ++ [record])).
(* chisl-ai-agent/src/manager/remote/plugin/registry.rs:248-253 audit_records *)
Definition audit_records (agent_id : string) (r : PluginRegistry) : list PluginAuditRecord.t :=
  default [] (AgentEntry.audit <$> r !! agent_id).
(* chisl-ai-agent/src/manager/remote/plugin/registry.rs:255-258 audit_count *)
Definition audit_count (agent_id : string) (r : PluginRegistry) : nat := length (audit_records agent_id r).
(* chisl-ai-agent/src/manager/remote/plugin/registry.rs:268-275 register_shell_approver *)
Definition register_shell_approver (agent_id : string) (approver : nat) (r : PluginRegistry) : PluginRegistry :=
  if String.eqb agent_id "" then r else entry_mut agent_id (AgentEntry.with_approver (Some approver)) r.
(* chisl-ai-agent/src/manager/remote/plugin/registry.rs:277-284 unregister_shell_approver *)
Definition unregister_shell_approver (agent_id : string) (r : PluginRegistry) : PluginRegistry :=
  if String.eqb agent_id "" then r else entry_mut agent_id (AgentEntry.with_approver None) r.
(* chisl-ai-agent/src/manager/remote/plugin/registry.rs:286-289 shell_approver *)
Definition shell_approver (agent_id : string) (r : PluginRegistry) : option nat := r !! agent_id ≫= AgentEntry.shell_approver.
(* chisl-ai-agent/src/manager/remote/plugin/registry.rs:297-302 push *)
Definition push (agent_id : string) (e : PluginPushEvent.t) : PluginRegistry → PluginRegistry :=
  alter (AgentEntry.with_receivers (fmap (Receiver.send PUSH_CHANNEL_CAP e))) agent_id.
(* chisl-ai-agent/src/manager/remote/plugin/registry.rs:308-322 subscribe *)
Definition subscribe (agent_id : string) (k : nat) : PluginRegistry → PluginRegistry :=
  entry_mut agent_id (AgentEntry.with_receivers <[k := Receiver.new]>).
Definition unsubscribe (agent_id : string) (k : nat) : PluginRegistry → PluginRegistry :=
  entry_mut agent_id (AgentEntry.with_receivers (delete k)).

(** The first entry of the session gets the event, if there is one. *)
Fixpoint overwrite (key : string) (e : PluginPushEvent.t) (l : list StickyVoiceMode.t) : option (list StickyVoiceMode.t) :=
  match l with
  | [] => None
  | s :: l => if String.eqb (StickyVoiceMode.session_key s) key then Some (StickyVoiceMode.mk (StickyVoiceMode.session_key s) e :: l)
              else (λ l, s :: l) <$> overwrite key e l
  end.
(* chisl-ai-agent/src/manager/remote/plugin/registry.rs:332-343 set_sticky_voice_mode *)
Definition set_sticky (key : string) (e : PluginPushEvent.t) (l : list StickyVoiceMode.t) : list StickyVoiceMode.t :=
  match overwrite key e l with
  | Some l => l
  | None => (if Nat.leb STICKY_VOICE_MODE_CAP (length l) then tail l else l) ++ [StickyVoiceMode.mk key e]
  end.
(* chisl-ai-agent/src/manager/remote/plugin/registry.rs:332-343 set_sticky_voice_mode *)
Definition set_sticky_voice_mode (agent_id key : string) (e : PluginPushEvent.t) : PluginRegistry → PluginRegistry :=
  entry_mut agent_id (AgentEntry.with_sticky (set_sticky key e)).
(* chisl-ai-agent/src/manager/remote/plugin/registry.rs:349-354 sticky_voice_mode *)
Definition sticky_voice_mode (agent_id : string) (r : PluginRegistry) : list PluginPushEvent.t :=
  default [] ((λ e, map StickyVoiceMode.event (AgentEntry.voice_sticky e)) <$> r !! agent_id).

(* ------------------------------------------------------------------ *)
(** ** Requests of the plugin *)

(** [str::is_char_boundary]. *)
Definition is_char_boundary (s : string) (i : nat) : bool :=
  Nat.eqb i 0 || Nat.eqb i (length (bytes s)) || match bytes s !! i with Some b => negb ((128 <=? b) && (b <? 192)) | None => false end.
(** The largest boundary up to [cut]. *)
Fixpoint boundary (s : string) (cut : nat) : nat :=
  match cut with O => O | S n => if is_char_boundary s cut then cut else boundary s n end.
Definition ellipsis : string := from_chars [8230].
(* chisl-ai-agent/src/manager/remote/plugin/server.rs:772-782 truncate_summary *)
Definition truncate_at (max : nat) (s : string) : string :=
  if Nat.leb (length (bytes s)) max then s else of_bytes (take (boundary s max) (bytes s)) +:+ ellipsis.
(* chisl-ai-agent/src/manager/remote/plugin/server.rs:772-782 truncate_summary *)
Definition truncate_summary : string → string := truncate_at 2048.
(* chisl-ai-agent/src/manager/remote/plugin/server.rs:897-907 truncate_command_preview *)
Definition truncate_command_preview : string → string := truncate_at 80.

(** The agent of a request; [None] is the answer 401. *)
(* chisl-ai-agent/src/manager/remote/plugin/server.rs:424-445 resolve_agent_or_unauth *)
Definition resolve_agent_or_unauth (resolve : string → option string) (authorization : option string) : option string :=
  match authorization ≫= strip_prefix "Bearer " with
  | Some token =>
      if String.eqb token "" then None else if Nat.ltb (length (bytes token)) 8 then None else resolve token
  | None => None
  end.

Module PluginResultRequest.
(* chisl-ai-agent/src/manager/remote/plugin/protocol.rs:84-115 PluginResultRequest *)
Inductive t :=
| ToolBefore (tool session_id call_id : string) (args : json)
| ToolAfter (tool session_id call_id : string) (args : json) (title : option string) (output_len : option Z)
    (output_preview : option string) (metadata : option json)
| Event (event : json)
| PermissionAsk (permission : json).
End PluginResultRequest.

(** What a reported event has the renderer told: a change of the workspace goes to the
    debouncer, a notification goes out at once. *)
Inductive Reaction := WorkspaceChange (payload : json) | Notify (name : string) (payload : json).
Definition optional (k : string) (v : option string) : list (string * json) := match v with Some s => [(k, Str s)] | None => [] end.
Definition field (path : list string) (v : json) : option string :=
  foldl (λ v k, v ≫= get k) (Some v) path ≫= as_str.
(* chisl-ai-agent/src/manager/remote/plugin/server.rs:791-809 react_workspace_change *)
Definition react_workspace_change (agent_id : string) (event : json) : Reaction :=
  WorkspaceChange (Obj ([("agent_id", Str agent_id)] ++ optional "event" (field ["properties"; "event"] event) ++
    optional "file" (field ["properties"; "file"] event))).
(* chisl-ai-agent/src/manager/remote/plugin/server.rs:815-836 react_session_health *)
Definition react_session_health (agent_id : string) (session_id : option string) (kind : string) (message : option string) : Reaction :=
  Notify "remote.sessionHealth" (Obj ([("agent_id", Str agent_id); ("kind", Str kind)] ++
    optional "message" ((λ m, from_chars (take 512 (List.filter (λ c, negb (is_control c) || (c =? 10) || (c =? 9)) (chars m)))) <$> message) ++
    optional "session_id" session_id)).
(* chisl-ai-agent/src/manager/remote/plugin/server.rs:642-770 handle_result *)
Definition reactions (agent_id : string) (event : json) : list Reaction :=
  let event_type := default "unknown" (field ["type"] event) in
  let sid := field ["properties"; "sessionID"] event in
  if String.eqb event_type "file.watcher.updated" then [react_workspace_change agent_id event]
  else if String.eqb event_type "session.idle" then [react_session_health agent_id sid "idle" None]
  else if String.eqb event_type "session.error" then [react_session_health agent_id sid "error" (field ["properties"; "error"; "message"] event)]
  else [].
(* chisl-ai-agent/src/manager/remote/plugin/server.rs:642-770 handle_result *)
Definition result_record (req : PluginResultRequest.t) (now : Z) : PluginAuditRecord.t :=
  let record kind tool session_id call_id summary :=
    PluginAuditRecord.mk kind tool session_id call_id (Z.max 0 now) (truncate_summary summary) in
  match req with
  | PluginResultRequest.ToolBefore tool sid cid _ => record "tool.before" (Some tool) (Some sid) (Some cid) ("tool.before " +:+ tool)
  | PluginResultRequest.ToolAfter tool sid cid _ _ output_len _ _ =>
      record "tool.after" (Some tool) (Some sid) (Some cid)
        ("tool.after " +:+ tool +:+ match output_len with Some n => " " +:+ show_i64 n +:+ "B" | None => "" end)
  | PluginResultRequest.Event event =>
      record "event" None (field ["properties"; "sessionID"] event) None ("event " +:+ default "unknown" (field ["type"] event))
  | PluginResultRequest.PermissionAsk p =>
      record "permission.ask" (Some (default "unknown" (field ["tool"] p))) (field ["sessionID"] p) (field ["callID"] p)
        "permission.ask (passthrough)"
  end.
(** The registry, the reactions, which come before the record, and the status of the answer. *)
(* chisl-ai-agent/src/manager/remote/plugin/server.rs:642-770 handle_result *)
Definition handle_result (agent_id : string) (req : PluginResultRequest.t) (now : Z) (r : PluginRegistry) :
    PluginRegistry * list Reaction * option string :=
  (record_audit agent_id (result_record req now) r,
   match req with PluginResultRequest.Event event => reactions agent_id event | _ => [] end,
   match req with PluginResultRequest.PermissionAsk _ => Some "ask" | _ => None end).

(* ------------------------------------------------------------------ *)
(** ** Streams of events *)

Module EventsStream.
Inductive item := Ping | Item (e : PluginPushEvent.t).
(** What the opening has done, and at last what is sent before the receiver is asked. *)
(* chisl-ai-agent/src/manager/remote/plugin/server.rs:505-511 PluginEventsState *)
Inductive phase := Guarded | Subscribed | Live (todo : list item).
Record t := mk { agent_id : string; at_ : phase }.
End EventsStream.
Record Plugin := mk_plugin { registry : PluginRegistry; streams : gmap nat EventsStream.t }.
Definition new_plugin : Plugin := mk_plugin ∅ ∅.
Definition on_registry (f : PluginRegistry → PluginRegistry) (p : Plugin) : Plugin := mk_plugin (f (registry p)) (streams p).

(* chisl-ai-agent/src/services/remote.rs:705-780 set_voice_mode *)
Definition voice_mode (session_id : option string) (enabled : bool) : PluginPushEvent.t :=
  PluginPushEvent.mk "voice_mode" (Obj
    [("data", Obj [("enabled", Bool enabled); ("sessionID", match session_id with Some s => Str s | None => Null end)]);
     ("type", Str "voice_mode")]).
(* chisl-ai-agent/src/services/remote.rs:705-780 set_voice_mode *)
Definition voice_audit (session_id : option string) (enabled : bool) (now : Z) : PluginAuditRecord.t :=
  let on := if enabled then "on" else "off" in
  PluginAuditRecord.mk "voice_mode" None session_id None (Z.max 0 now)
    (match session_id with Some sid => "voice " +:+ on +:+ " for session " +:+ sid | None => "voice " +:+ on +:+ " for all sessions" end).

(** The steps of [set_voice_mode] of an agent that exists are [VoicePush], [VoiceSticky],
    [VoiceAudit]; those of the opening of a stream are [Guard], [Subscribe_], [Snapshot].
    [Next] is a poll of the stream, [Drop_] the end of the response. *)
Inductive PluginAct :=
| VoicePush (agent_id : string) (session_id : option string) (enabled : bool)
| VoiceSticky (agent_id : string) (session_id : option string) (enabled : bool)
| VoiceAudit (agent_id : string) (session_id : option string) (enabled : bool) (now : Z)
| Hello (agent_id plugin_version : string) (opencode_version : option string) (hooks : list string) (now : Z)
| Result_ (agent_id : string) (req : PluginResultRequest.t) (now : Z)
| Audit (agent_id : string) (record : PluginAuditRecord.t)
| Register (agent_id : string) (approver : nat) | Unregister_ (agent_id : string)
| Guard (k : nat) (agent_id : string) | Subscribe_ (k : nat) | Snapshot (k : nat) | Next (k : nat) (now : Z) | Drop_ (k : nat).

(* chisl-ai-agent/src/manager/remote/plugin/server.rs:545-568 PluginEventsStream *)
Definition next_event (k : nat) (now : Z) (p : Plugin) : option (Plugin * PluginPushEvent.t) :=
  match streams p !! k with
  | Some (EventsStream.mk agent_id (EventsStream.Live (i :: todo))) =>
      Some (mk_plugin (registry p) (<[k := EventsStream.mk agent_id (EventsStream.Live todo)]> (streams p)),
            match i with EventsStream.Ping => PluginPushEvent.mk "ping" (Obj [("at", num now)]) | EventsStream.Item e => e end)
  | Some (EventsStream.mk agent_id (EventsStream.Live [])) =>
      match (AgentEntry.receivers <$> registry p !! agent_id) ≫= (.!! k) with
      | Some (Receiver.mk pending (S _)) =>
          Some (on_registry (entry_mut agent_id (AgentEntry.with_receivers <[k := Receiver.mk pending 0]>)) p, PluginPushEvent.mk "lagged" (Obj []))
      | Some (Receiver.mk (e :: pending) O) =>
          Some (on_registry (entry_mut agent_id (AgentEntry.with_receivers <[k := Receiver.mk pending 0]>)) p, e)
      | _ => None
      end
  | _ => None
  end.
(** [None]: the act cannot happen now.  The event is what a poll sends. *)
(* chisl-ai-agent/src/manager/remote/plugin/server.rs:513-574 PluginEventsStream *)
Definition plugin_act (a : PluginAct) (p : Plugin) : option (Plugin * option PluginPushEvent.t) :=
  let done := λ p, Some (p, None) in
  match a with
  | VoicePush agent sid enabled => done (on_registry (push agent (voice_mode sid enabled)) p)
  | VoiceSticky agent sid enabled => done (on_registry (set_sticky_voice_mode agent (default "" sid) (voice_mode sid enabled)) p)
  | VoiceAudit agent sid enabled now => done (on_registry (record_audit agent (voice_audit sid enabled now)) p)
  | Hello agent v o h now => done (on_registry (record_hello agent v o h now) p)
  | Result_ agent req now => done (on_registry (λ r, fst (fst (handle_result agent req now r))) p)
  | Audit agent record => done (on_registry (record_audit agent record) p)
  | Register agent approver => done (on_registry (register_shell_approver agent approver) p)
  | Unregister_ agent => done (on_registry (unregister_shell_approver agent) p)
  | Guard k agent =>
      match streams p !! k with
      | None => done (mk_plugin (set_events_stream_open agent true (registry p)) (<[k := EventsStream.mk agent EventsStream.Guarded]> (streams p)))
      | Some _ => None
      end
  | Subscribe_ k =>
      match streams p !! k with
      | Some (EventsStream.mk agent EventsStream.Guarded) =>
          done (mk_plugin (subscribe agent k (registry p)) (<[k := EventsStream.mk agent EventsStream.Subscribed]> (streams p)))
      | _ => None
      end
  | Snapshot k =>
      match streams p !! k with
      | Some (EventsStream.mk agent EventsStream.Subscribed) =>
          done (mk_plugin (registry p) (<[k := EventsStream.mk agent (EventsStream.Live
            (EventsStream.Ping :: map EventsStream.Item (sticky_voice_mode agent (registry p))))]> (streams p)))
      | _ => None
      end
  | Next k now => (λ r, (fst r, Some (snd r))) <$> next_event k now p
  | Drop_ k =>
      match streams p !! k with
      | Some (EventsStream.mk agent _) =>
          done (mk_plugin (set_events_stream_open agent false (unsubscribe agent k (registry p))) (delete k (streams p)))
      | None => None
      end
  end.
(** The events sent on each stream, in order. *)
Fixpoint plugin_run (acts : list PluginAct) (p : Plugin) : option (Plugin * list (nat * PluginPushEvent.t)) :=
  match acts with
  | [] => Some (p, [])
  | a :: acts =>
      match plugin_act a p with
      | Some (p, e) =>
          match plugin_run acts p with
          | Some (p, sent) => Some (p, (match a, e with Next k _, Some e => [(k, e)] | _, _ => [] end) ++ sent)
          | None => None
          end
      | None => None
      end
  end.

(* ------------------------------------------------------------------ *)
(** ** Changes of the workspace *)

Module WorkspaceDebounce.
(* chisl-ai-agent/src/manager/remote/plugin/server.rs:144-159 WorkspaceDebounce *)
Record t := mk { pending : option json; started_at_ms : Z; generation : Z }.
Definition new : t := mk None 0 0.
End WorkspaceDebounce.
(* chisl-ai-agent/src/manager/remote/plugin/server.rs:138-138 WORKSPACE_DEBOUNCE_MS *)
Definition WORKSPACE_DEBOUNCE_MS : Z := 250.
(** The windows of the agents and the timers that sleep, each with the generation it took. *)
Record Debouncer := mk_debouncer { windows : gmap string WorkspaceDebounce.t; timers : list (string * Z) }.
Definition new_debouncer : Debouncer := mk_debouncer ∅ [].
(* chisl-ai-agent/src/manager/remote/plugin/server.rs:161-221 debounce_workspace_change *)
Definition debounce_workspace_change (agent_id : string) (payload : json) (now : Z) (d : Debouncer) : Debouncer :=
  let now := Z.max 0 now in
  let entry := default WorkspaceDebounce.new (windows d !! agent_id) in
  if match WorkspaceDebounce.pending entry with None => true | Some _ => false end ||
     (WORKSPACE_DEBOUNCE_MS <=? Z.max 0 (now - WorkspaceDebounce.started_at_ms entry))
  then
    let generation := w64 (WorkspaceDebounce.generation entry + 1) in
    mk_debouncer (<[agent_id := WorkspaceDebounce.mk (Some payload) now generation]> (windows d)) (timers d ++ [(agent_id, generation)])
  else
    mk_debouncer (<[agent_id := WorkspaceDebounce.mk (Some payload) (WorkspaceDebounce.started_at_ms entry) (WorkspaceDebounce.generation entry)]> (windows d))
      (timers d).
(** A timer wakes; what it tells the renderer. *)
(* chisl-ai-agent/src/manager/remote/plugin/server.rs:161-221 debounce_workspace_change *)
Definition timer_fires (n : nat) (d : Debouncer) : option (Debouncer * list (string * json)) :=
  match timers d !! n with
  | Some (agent_id, expected) =>
      let timers := take n (timers d) ++ drop (S n) (timers d) in
      match windows d !! agent_id with
      | Some w => if WorkspaceDebounce.generation w =? expected
                  then Some (mk_debouncer (delete agent_id (windows d)) timers,
                             match WorkspaceDebounce.pending w with Some p => [(agent_id, p)] | None => [] end)
                  else Some (mk_debouncer (windows d) timers, [])
      | None => Some (mk_debouncer (windows d) timers, [])
      end
  | None => None
  end.
Inductive DebounceAct := Change (agent_id : string) (payload : json) (now : Z) | Fire (n : nat).
Fixpoint debounce (acts : list DebounceAct) (d : Debouncer) : option (Debouncer * list (string * json)) :=
  match acts with
  | [] => Some (d, [])
  | a :: acts =>
      match (match a with Change agent payload now => Some (debounce_workspace_change agent payload now d, []) | Fire n => timer_fires n d end) with
      | Some (d, told) => match debounce acts d with Some (d, told') => Some (d, told ++ told') | None => None end
      | None => None
      end
  end.

(* ------------------------------------------------------------------ *)
(** ** Lists that keep their last entries *)

Section LastN.
Context {A : Type}.
Definition last_n (n : nat) (l : list A) : list A := drop (length l - n) l.
Lemma length_last_n n l : length (last_n n l) = min n (length l).
Proof. unfold last_n. rewrite length_drop. lia. Qed.
Lemma last_n_all n l : (length l ≤ n)%nat → last_n n l = l.
Proof. intros H. unfold last_n. by replace (length l - n)%nat with 0%nat by lia. Qed.
Lemma tail_drop n (l : list A) : tail (drop n l) = drop (S n) l.
Proof. revert n. induction l as [|x l IH]; intros [|n]; try done. simpl. apply IH. Qed.
(** Another entry pushes out the oldest once there are [n]. *)
Lemma last_n_snoc n l x : (0 < n)%nat →
  last_n n (l ++ [x]) = (if Nat.eqb (length (last_n n l)) n then tail (last_n n l) else last_n n l) ++ [x].
Proof.
  intros Hn. rewrite length_last_n. destruct (Nat.eqb_spec (min n (length l)) n) as [H|H].
  - unfold last_n. rewrite tail_drop, length_app. cbn. rewrite drop_app_le by lia. repeat f_equal. lia.
  - rewrite !last_n_all by (rewrite ?length_app; cbn; lia). done.
Qed.
End LastN.

(* ------------------------------------------------------------------ *)
(** ** Facts *)

(** *** Audits *)

Definition recorded (agent : string) (a : PluginAct) : list PluginAuditRecord.t :=
  match a with
  | VoiceAudit ag sid enabled now => if String.eqb ag agent then [voice_audit sid enabled now] else []
  | Result_ ag req now => if String.eqb ag agent then [result_record req now] else []
  | Audit ag record => if String.eqb ag agent then [record] else []
  | _ => []
  end.
Definition entry_of (agent : string) (r : PluginRegistry) : AgentEntry.t := default AgentEntry.new (r !! agent).
Lemma entry_of_mut agent ag f r : entry_of agent (entry_mut ag f r) = if String.eqb ag agent then f (entry_of agent r) else entry_of agent r.
Proof.
  unfold entry_of, entry_mut. destruct (String.eqb_spec ag agent) as [->|Hne]; [by rewrite lookup_insert_eq|by rewrite lookup_insert_ne].
Qed.
Lemma entry_of_push agent ag e r :
  entry_of agent (push ag e r) = if String.eqb ag agent then AgentEntry.with_receivers (fmap (Receiver.send PUSH_CHANNEL_CAP e)) (entry_of agent r) else entry_of agent r.
Proof.
  unfold entry_of, push. destruct (String.eqb_spec ag agent) as [->|Hne]; [|by rewrite lookup_alter_ne].
  rewrite lookup_alter, decide_True by done. destruct (r !! agent); [done|]. cbn. unfold AgentEntry.new, AgentEntry.with_receivers. cbn. by rewrite fmap_empty.
Qed.
Lemma audit_records_entry agent r : audit_records agent r = AgentEntry.audit (entry_of agent r).
Proof. unfold audit_records, entry_of. by destruct (r !! agent). Qed.

Lemma next_event_spec k now p p' e : next_event k now p = Some (p', e) →
  (registry p' = registry p) ∨ ∃ agent f, registry p' = entry_mut agent (AgentEntry.with_receivers f) (registry p).
Proof. unfold next_event. intros H. repeat (case_match; simplify_eq/=); eauto. Qed.
(** An act leaves the parts of an entry alone that it is not about. *)
Ltac entry_cases H :=
  try (injection H as <- <-; cbn [on_registry registry]);
  unfold set_sticky_voice_mode, handle_result, record_audit, record_hello, register_shell_approver, unregister_shell_approver;
  rewrite ?entry_of_push; try (case_match; [done|]); rewrite ?entry_of_mut; try (by case_match);
  try (repeat case_match; simplify_eq/=; unfold set_events_stream_open, subscribe, unsubscribe; rewrite ?entry_of_mut; by repeat case_match);
  match type of H with _ <$> next_event ?k ?now ?p = _ =>
    let Hn := fresh "Hn" in destruct (next_event k now p) as [[? ?]|] eqn:Hn; simplify_eq/=;
    apply next_event_spec in Hn as [->|(? & ? & ->)]; [done|]; rewrite entry_of_mut; by case_match
  end.
Lemma audit_act agent a p p' e : plugin_act a p = Some (p', e) →
  AgentEntry.audit (entry_of agent (registry p')) =
    foldl (λ l x, (if Nat.eqb (length l) AUDIT_RING_CAP then tail l else l) ++ [x]) (AgentEntry.audit (entry_of agent (registry p))) (recorded agent a).
Proof.
  intros H. destruct a; cbn [plugin_act recorded] in *; entry_cases H.
Qed.
Lemma plugin_run_cons a acts p p' sent : plugin_run (a :: acts) p = Some (p', sent) →
  ∃ p1 e sent', plugin_act a p = Some (p1, e) ∧ plugin_run acts p1 = Some (p', sent') ∧
    sent = (match a, e with Next k _, Some e => [(k, e)] | _, _ => [] end) ++ sent'.
Proof.
  cbn. destruct (plugin_act a p) as [[p1 e]|]; [|done]. destruct (plugin_run acts p1) as [[p2 sent']|] eqn:Hr; [|done].
  intros [= <- <-]. by exists p1, e, sent'.
Qed.

(** The audit log of an agent is the last five hundred records made for it, in their order, whatever the
    plugins, the streams and the users do. *)
Lemma audit_keeps_the_latest (acts : list PluginAct) p sent (agent : string) :
  plugin_run acts new_plugin = Some (p, sent) →
  audit_records agent (registry p) = last_n AUDIT_RING_CAP (concat (map (recorded agent) acts)).
Proof.
  rewrite audit_records_entry. set (ring := λ (l : list PluginAuditRecord.t) x, (if Nat.eqb (length l) AUDIT_RING_CAP then tail l else l) ++ [x]).
  assert (∀ l k, foldl ring (last_n AUDIT_RING_CAP k) l = last_n AUDIT_RING_CAP (k ++ l)) as Hring.
  { induction l as [|x l IH]; intros k; [by rewrite app_nil_r|]. cbn [foldl]. unfold ring at 2.
    rewrite <- last_n_snoc by (unfold AUDIT_RING_CAP; lia). rewrite IH, <- app_assoc. done. }
  assert (∀ acts p0 p sent k, plugin_run acts p0 = Some (p, sent) → AgentEntry.audit (entry_of agent (registry p0)) = last_n AUDIT_RING_CAP k →
    AgentEntry.audit (entry_of agent (registry p)) = last_n AUDIT_RING_CAP (k ++ concat (map (recorded agent) acts))) as Hrun.
  { clear acts p sent. intros acts. induction acts as [|a acts IH]; intros p0 p sent k Hr Hk; [cbn in Hr; simplify_eq; by rewrite app_nil_r|].
    apply plugin_run_cons in Hr as (p1 & e & sent' & Ha & Hr & _). cbn. rewrite app_assoc. apply (IH p1 p sent'); [done|].
    rewrite (audit_act agent a p0 p1 e Ha), Hk. apply Hring. }
  intros Hr. by apply (Hrun acts new_plugin p sent []).
Qed.

(** *** Voice modes *)

Definition keys (l : list StickyVoiceMode.t) : list string := map StickyVoiceMode.session_key l.
Lemma keys_cons s l : keys (s :: l) = StickyVoiceMode.session_key s :: keys l.
Proof. done. Qed.
Arguments keys : simpl never.
Lemma overwrite_some key e l l' : overwrite key e l = Some l' →
  key ∈ keys l ∧ keys l' = keys l ∧
  ∀ s, s ∈ l' → (NoDup (keys l) → StickyVoiceMode.session_key s = key → StickyVoiceMode.event s = e) ∧ (StickyVoiceMode.session_key s ≠ key → s ∈ l).
Proof.
  revert l'. induction l as [|x l IH]; intros l'; cbn; rewrite ?keys_cons; [done|]. destruct (String.eqb_spec (StickyVoiceMode.session_key x) key) as [Hx|Hx].
  - intros [= <-]. rewrite keys_cons. cbn. split; [subst; by left|]. split; [done|]. intros s [->|Hs]%elem_of_cons; cbn; [split; [done|congruence]|].
    split; [|intros _; by right]. intros [Hnot _]%NoDup_cons Hk. exfalso. apply Hnot. rewrite Hx, <- Hk. by apply list_elem_of_fmap_2.
  - destruct (overwrite key e l) as [l1|]; [|done]. cbn. intros [= <-]. rewrite keys_cons. destruct (IH l1 eq_refl) as (Hin & Hk & Hs). split; [by right|]. split; [by rewrite Hk|].
    intros s [->|Hin']%elem_of_cons; [split; [done|intros _; by left]|]. destruct (Hs s Hin') as [H1 H2]. split; [|intros Hne; right; auto].
    intros [_ Hnd]%NoDup_cons. auto.
Qed.
Lemma overwrite_none key e l : overwrite key e l = None → key ∉ keys l.
Proof.
  induction l as [|x l IH]; cbn; rewrite ?keys_cons; [intros _; apply not_elem_of_nil|]. destruct (String.eqb_spec (StickyVoiceMode.session_key x) key) as [Hx|Hx]; [done|].
  destruct (overwrite key e l); [done|]. intros _. apply not_elem_of_cons. split; [done|]. auto.
Qed.

Definition set_all (sets : list (string * PluginPushEvent.t)) : list StickyVoiceMode.t := foldl (λ l s, set_sticky (fst s) (snd s) l) [] sets.
Definition last_set (key : string) (sets : list (string * PluginPushEvent.t)) : option PluginPushEvent.t :=
  snd <$> last (List.filter (λ s, String.eqb (fst s) key) sets).
Lemma last_set_snoc key sets k e : last_set key (sets ++ [(k, e)]) = if String.eqb k key then Some e else last_set key sets.
Proof. unfold last_set. rewrite List.filter_app. cbn. destruct (String.eqb k key); [by rewrite last_snoc|by rewrite app_nil_r]. Qed.

(** What the sticky list holds: one entry per session, at most [STICKY_VOICE_MODE_CAP], each
    with the latest toggle, and every session as long as there were no more than that. *)
Lemma sticky_spec sets : let l := set_all sets in
  NoDup (keys l) ∧ (length l ≤ STICKY_VOICE_MODE_CAP)%nat ∧
  (∀ s, s ∈ l → last_set (StickyVoiceMode.session_key s) sets = Some (StickyVoiceMode.event s)) ∧
  (∀ k, k ∈ keys l → k ∈ sets.*1) ∧
  ((size (list_to_set sets.*1 : gset string) ≤ STICKY_VOICE_MODE_CAP)%nat → ∀ k, k ∈ sets.*1 → k ∈ keys l).
Proof.
  induction sets as [|[k e] sets IH] using rev_ind; cbn.
  { split; [apply NoDup_nil_2|]. split; [unfold STICKY_VOICE_MODE_CAP; lia|]. split; [by intros s ?%not_elem_of_nil|]. done. }
  unfold set_all. rewrite foldl_app. cbn. fold (set_all sets). set (l := set_all sets) in *.
  destruct IH as (Hnd & Hlen & Hlast & Hsub & Hall). unfold set_sticky. rewrite fmap_app. destruct (overwrite k e l) as [l'|] eqn:Ho.
  - apply overwrite_some in Ho as (Hk & Hkeys & Hs). rewrite Hkeys. split; [done|]. split; [|split; [|split]].
    + apply (f_equal length) in Hkeys. unfold keys in Hkeys. rewrite !length_map in Hkeys. lia.
    + intros s Hin. rewrite last_set_snoc. destruct (Hs s Hin) as [H1 H2]. destruct (String.eqb_spec k (StickyVoiceMode.session_key s)) as [->|Hne]; [f_equal; symmetry; auto|auto].
    + intros k' Hk'. apply elem_of_app. left. auto.
    + intros Hsize k' Hk'. apply elem_of_app in Hk' as [Hk'|Hk']; [|cbn in Hk'; apply list_elem_of_singleton in Hk' as ->; done].
      apply Hall; [|done]. etrans; [|exact Hsize]. apply subseteq_size. set_solver.
  - apply overwrite_none in Ho. set (l' := if Nat.leb STICKY_VOICE_MODE_CAP (length l) then tail l else l).
    assert (∀ s, s ∈ l' → s ∈ l) as Hl'. { intros s. subst l'. destruct (Nat.leb _ _); [|done]. destruct l; [done|]. intros ?. by right. }
    assert (keys (l' ++ [StickyVoiceMode.mk k e]) = keys l' ++ [k]) as -> by (unfold keys; by rewrite map_app).
    assert (NoDup (keys l') ∧ ∀ x, x ∈ keys l' → x ∈ keys l) as [Hnd' Hsub'].
    { subst l'. destruct (Nat.leb _ _); [|done]. destruct l as [|x l0]; [done|]. cbn in *. apply NoDup_cons in Hnd as [_ ?]. split; [done|]. intros ??. by right. }
    split; [|split; [|split; [|split]]].
    + apply NoDup_app. split; [done|]. split; [|apply NoDup_singleton]. intros x Hx ->%list_elem_of_singleton. auto.
    + rewrite length_app. cbn. subst l'. destruct (Nat.leb_spec STICKY_VOICE_MODE_CAP (length l)); [destruct l; cbn in *; unfold STICKY_VOICE_MODE_CAP in *; lia|lia].
    + intros s [Hin|Hin]%elem_of_app.
      * rewrite last_set_snoc, (proj2 (String.eqb_neq _ _)); [auto|]. intros ->. apply Ho. apply Hl' in Hin. by apply list_elem_of_fmap_2.
      * apply list_elem_of_singleton in Hin as ->. cbn. by rewrite last_set_snoc, String.eqb_refl.
    + intros x [Hx|Hx]%elem_of_app; apply elem_of_app; [left; auto|right; done].
    + intros Hsize x Hx. apply elem_of_app. apply elem_of_app in Hx as [Hx|Hx]; [|right; done]. left.
      assert (size (list_to_set sets.*1 : gset string) ≤ STICKY_VOICE_MODE_CAP)%nat as Hsize'.
      { etrans; [|exact Hsize]. apply subseteq_size. set_solver. }
      subst l'. destruct (Nat.leb_spec STICKY_VOICE_MODE_CAP (length l)) as [Hfull|]; [exfalso|by apply Hall].
      assert (list_to_set (k :: keys l) ⊆ (list_to_set (sets.*1 ++ [k]) : gset string)) as Hle by set_solver.
      apply subseteq_size in Hle. rewrite size_list_to_set in Hle by (apply NoDup_cons; done). cbn in Hle. unfold keys in Hle. rewrite length_map in Hle.
      change [(k, e)].*1 with [k] in Hsize. lia.
Qed.
Definition sets (agent : string) (a : PluginAct) : list (string * PluginPushEvent.t) :=
  match a with VoiceSticky ag sid enabled => if String.eqb ag agent then [(default "" sid, voice_mode sid enabled)] else [] | _ => [] end.
Lemma sticky_act agent a p p' e : plugin_act a p = Some (p', e) →
  AgentEntry.voice_sticky (entry_of agent (registry p')) =
    foldl (λ l s, set_sticky (fst s) (snd s) l) (AgentEntry.voice_sticky (entry_of agent (registry p))) (sets agent a).
Proof.
  intros H. destruct a; cbn [plugin_act sets] in *; entry_cases H.
Qed.
(** What a stream that opens now replays: for each session of the agent the latest toggle,
    for all of them as long as there were at most sixty-four. *)
Lemma replay_is_the_latest acts p sent agent : plugin_run acts new_plugin = Some (p, sent) →
  let toggles := concat (map (sets agent) acts) in let l := AgentEntry.voice_sticky (entry_of agent (registry p)) in
  sticky_voice_mode agent (registry p) = map StickyVoiceMode.event l ∧ NoDup (keys l) ∧
  (∀ s, s ∈ l → last_set (StickyVoiceMode.session_key s) toggles = Some (StickyVoiceMode.event s)) ∧
  ((size (list_to_set toggles.*1 : gset string) ≤ STICKY_VOICE_MODE_CAP)%nat → ∀ k, k ∈ toggles.*1 → k ∈ keys l).
Proof.
  intros Hr toggles l. split; [unfold sticky_voice_mode; subst l; unfold entry_of; by destruct (registry p !! agent)|].
  assert (∀ acts p0 p sent, plugin_run acts p0 = Some (p, sent) → AgentEntry.voice_sticky (entry_of agent (registry p)) =
    foldl (λ l s, set_sticky (fst s) (snd s) l) (AgentEntry.voice_sticky (entry_of agent (registry p0))) (concat (map (sets agent) acts))) as Hrun.
  { clear. intros acts. induction acts as [|a acts IH]; intros p0 p sent Hr; [cbn in Hr; by simplify_eq|].
    apply plugin_run_cons in Hr as (p1 & e & sent' & Ha & Hr & _). cbn. rewrite foldl_app, <- (sticky_act agent a p0 p1 e Ha). by eapply IH. }
  specialize (Hrun acts new_plugin p sent Hr). assert (l = set_all toggles) as -> by exact Hrun.
  destruct (sticky_spec toggles) as (H1 & _ & H2 & _ & H3). auto.
Qed.

(** *** Streams *)

Definition receiver_of (agent : string) (k : nat) (p : Plugin) : option (Receiver.t PluginPushEvent.t) := AgentEntry.receivers (entry_of agent (registry p)) !! k.
(** The stream is open, has missed nothing and will not in [n] more pushes; the items are
    what it will send. *)
Definition live (agent : string) (k : nat) (items : list EventsStream.item) (n : nat) (p : Plugin) : Prop :=
  ∃ todo pending, streams p !! k = Some (EventsStream.mk agent (EventsStream.Live todo)) ∧
    receiver_of agent k p = Some (Receiver.mk pending 0) ∧ items = todo ++ map EventsStream.Item pending ∧
    (length pending + n ≤ PUSH_CHANNEL_CAP)%nat.
Definition pushes (agent : string) (a : PluginAct) : list PluginPushEvent.t :=
  match a with VoicePush ag sid enabled => if String.eqb ag agent then [voice_mode sid enabled] else [] | _ => [] end.
Definition shows (i : EventsStream.item) (e : PluginPushEvent.t) : Prop :=
  match i with EventsStream.Ping => PluginPushEvent.event e = "ping" | EventsStream.Item e' => e = e' end.
Definition sent_on (k : nat) (sent : list (nat * PluginPushEvent.t)) : list PluginPushEvent.t :=
  omap (λ s, if Nat.eqb (fst s) k then Some (snd s) else None) sent.

(** What an act does to a receiver. *)
Lemma receiver_act agent k a p p' e : plugin_act a p = Some (p', e) → (∀ now, a ≠ Next k now) → a ≠ Drop_ k → a ≠ Subscribe_ k →
  receiver_of agent k p' = foldl (λ r e, Receiver.send PUSH_CHANNEL_CAP e <$> r) (receiver_of agent k p) (pushes agent a).
Proof.
  intros H Hnext Hdrop Hsub. unfold receiver_of. destruct a; cbn [plugin_act pushes] in *.
  all: try (entry_cases H; fail).
  - injection H as <- <-. cbn [on_registry registry]. rewrite entry_of_push. case_match; [|done]. cbn. by rewrite lookup_fmap.
  - destruct (streams p !! k0) as [[ag []]|]; simplify_eq/=. unfold subscribe. rewrite entry_of_mut. case_match; [|done]. cbn.
    rewrite lookup_insert_ne; [done|]. intros ->. done.
  - destruct (next_event k0 now p) as [[p1 e1]|] eqn:Hn; simplify_eq/=. assert (k0 ≠ k) by (intros ->; by apply (Hnext now)).
    unfold next_event in Hn. repeat (case_match; simplify_eq/=); rewrite ?entry_of_mut; try case_match; try done; cbn; by rewrite lookup_insert_ne.
  - destruct (streams p !! k0) as [[ag ph]|]; simplify_eq/=. assert (k0 ≠ k) by (intros ->; done). unfold set_events_stream_open, unsubscribe.
    rewrite !entry_of_mut. case_match; [|done]. cbn. by rewrite lookup_delete_ne.
Qed.
Lemma streams_act k a p p' e : plugin_act a p = Some (p', e) → is_Some (streams p !! k) →
  (∀ now, a ≠ Next k now) → a ≠ Drop_ k → a ≠ Subscribe_ k → a ≠ Snapshot k → streams p' !! k = streams p !! k.
Proof.
  intros H Hk Hnext Hdrop Hsub Hsnap. destruct a; cbn [plugin_act] in H; unfold on_registry in H; try (by simplify_eq/=).
  - destruct (streams p !! k0) eqn:Hk0; simplify_eq/=. apply lookup_insert_ne. intros ->. rewrite Hk0 in Hk. by destruct Hk.
  - destruct (streams p !! k0) as [[ag []]|]; simplify_eq/=. apply lookup_insert_ne. intros ->. done.
  - destruct (streams p !! k0) as [[ag []]|]; simplify_eq/=. apply lookup_insert_ne. intros ->. done.
  - destruct (next_event k0 now p) as [[p1 e1]|] eqn:Hn; simplify_eq/=. assert (k0 ≠ k) by (intros ->; by apply (Hnext now)).
    unfold next_event in Hn. repeat (case_match; simplify_eq/=); try done; by apply lookup_insert_ne.
  - destruct (streams p !! k0) as [[ag ph]|]; simplify_eq/=. apply lookup_delete_ne. intros ->. done.
Qed.

Lemma live_act agent k items n a p p' e : plugin_act a p = Some (p', e) → a ≠ Drop_ k → live agent k items (length (pushes agent a) + n) p →
  ∃ now_sent items', items ++ map EventsStream.Item (pushes agent a) = now_sent ++ items' ∧ live agent k items' n p' ∧
    Forall2 shows now_sent (sent_on k (match a, e with Next j _, Some e => [(j, e)] | _, _ => [] end)).
Proof.
  intros H Hdrop (todo & pending & Hs & Hr & -> & Hn).
  assert ((∃ now, a = Next k now) ∨ ∀ now, a ≠ Next k now) as [[now ->]|Hnext'].
  { destruct a; try (right; congruence). destruct (decide (k0 = k)) as [->|]; [left; eauto|right; congruence]. }
  - cbn [plugin_act pushes length map] in *. destruct (next_event k now p) as [[p1 e1]|] eqn:He; simplify_eq/=. rewrite Nat.eqb_refl, app_nil_r.
    unfold next_event in He. rewrite Hs in He. destruct todo as [|i todo].
    + assert ((AgentEntry.receivers <$> registry p !! agent) ≫= (.!! k) = Some (Receiver.mk pending 0)) as Hr'.
      { unfold receiver_of, entry_of in Hr. by destruct (registry p !! agent). }
      rewrite Hr' in He. destruct pending as [|e0 pending]; [done|]. simplify_eq/=. exists [EventsStream.Item e1], (map EventsStream.Item pending).
      split; [done|]. split; [|by repeat constructor]. exists [], pending. cbn. split; [done|]. split; [|split; [done|lia]].
      unfold receiver_of. cbn. rewrite entry_of_mut, String.eqb_refl. cbn. apply lookup_insert_eq.
    + simplify_eq/=. exists [i], (todo ++ map EventsStream.Item pending). split; [done|]. split; [|constructor; [by destruct i|constructor]].
      exists todo, pending. cbn. split; [apply lookup_insert_eq|]. done.
  - assert (a ≠ Subscribe_ k ∧ a ≠ Snapshot k) as [Hsub Hsnap]. { split; intros ->; cbn in H; by rewrite Hs in H. }
    exists [], (todo ++ map EventsStream.Item (pending ++ pushes agent a)). split; [by rewrite map_app, <- app_assoc|]. split.
    + exists todo, (pending ++ pushes agent a). split; [|split; [|split; [done|rewrite length_app; lia]]].
      * by rewrite (streams_act k a p p' e H) by (done || by eexists).
      * rewrite (receiver_act agent k a p p' e H) by done. rewrite Hr. destruct a; cbn [pushes]; try (cbn; by rewrite app_nil_r).
        cbn [pushes] in Hn. destruct (String.eqb agent_id agent) eqn:Hag; [|by rewrite app_nil_r]. cbn [length foldl fmap option_fmap option_map] in *.
        unfold Receiver.send. cbn [Receiver.pending Receiver.lagged]. destruct (Nat.leb_spec PUSH_CHANNEL_CAP (length pending)); [lia|done].
    + destruct a, e; try constructor. cbn. destruct (Nat.eqb_spec k0 k) as [->|]; [by destruct (Hnext' now)|constructor].
Qed.

(** A stream that is open misses nothing: whatever else happens, it sends what it still had to replay and then
    every push made to its agent, in their order and once, as long as no more than two hundred and
    fifty-six pushes come before it is read. *)
Lemma open_stream_misses_nothing (agent : string) (k : nat) (items : list EventsStream.item) (acts : list PluginAct) p p' sent :
  live agent k items (length (concat (map (pushes agent) acts))) p → Drop_ k ∉ acts → plugin_run acts p = Some (p', sent) →
  ∃ now_sent items', items ++ map EventsStream.Item (concat (map (pushes agent) acts)) = now_sent ++ items' ∧
    Forall2 shows now_sent (sent_on k sent) ∧ live agent k items' 0 p'.
Proof.
  revert items p sent. induction acts as [|a acts IH]; intros items p sent Hl Hd Hr.
  { cbn in *. simplify_eq. exists [], items. rewrite app_nil_r. split; [done|]. split; [constructor|done]. }
  apply plugin_run_cons in Hr as (p1 & e & sent' & Ha & Hr & ->). apply not_elem_of_cons in Hd as [Hd Hd']. cbn [map concat] in *. rewrite length_app in Hl.
  destruct (live_act agent k items _ a p p1 e Ha ltac:(congruence) Hl) as (s1 & items1 & Heq & Hl1 & Hs1).
  destruct (IH items1 p1 sent' Hl1 Hd' Hr) as (s2 & items2 & Heq2 & Hs2 & Hl2). exists (s1 ++ s2), items2.
  split; [rewrite map_app, app_assoc, Heq, <- !app_assoc; by f_equal|]. split; [|done]. unfold sent_on in *. rewrite omap_app. by apply Forall2_app.
Qed.

(** *** Changes of the workspace *)

Definition of_agent (agent : string) : list (string * json) → list json := omap (λ t, if String.eqb (fst t) agent then Some (snd t) else None).
Definition changes (acts : list DebounceAct) : list (string * json) :=
  omap (λ a, match a with Change agent payload _ => Some (agent, payload) | Fire _ => None end) acts.
(** What an agent's change will have been told as once its window, if any, is over. *)
Definition final (agent : string) (d : Debouncer) (told : list (string * json)) : option json :=
  match windows d !! agent with Some w => WorkspaceDebounce.pending w | None => last (of_agent agent told) end.
(** Every window has its timer. *)
Definition timed (d : Debouncer) : Prop :=
  ∀ agent w, windows d !! agent = Some w → is_Some (WorkspaceDebounce.pending w) ∧ (agent, WorkspaceDebounce.generation w) ∈ timers d.

Lemma change_spec agent payload now d : timed d →
  let d' := debounce_workspace_change agent payload now d in
  timed d' ∧ ∀ ag told, final ag d' told = if String.eqb agent ag then Some payload else final ag d told.
Proof.
  intros Ht. unfold debounce_workspace_change. set (entry := default _ _).
  destruct (_ || _) eqn:Hnew; split.
  - intros ag w Hw. cbn in Hw |- *. apply lookup_insert_Some in Hw as [[<- <-]|[Hne Hw]]; cbn; [split; [by eexists|apply elem_of_app; right; by left]|].
    destruct (Ht ag w Hw) as [Hp Hin]. split; [done|]. apply elem_of_app. by left.
  - intros ag told. unfold final. cbn. destruct (String.eqb_spec agent ag) as [->|Hne]; [by rewrite lookup_insert_eq|by rewrite lookup_insert_ne].
  - apply orb_false_iff in Hnew as [Hp _]. intros ag w Hw. cbn in Hw |- *. apply lookup_insert_Some in Hw as [[<- <-]|[Hne Hw]]; cbn; [|by apply Ht].
    split; [by eexists|]. subst entry. destruct (windows d !! agent) as [w|] eqn:Hw; [|done]. by apply Ht.
  - intros ag told. unfold final. cbn. destruct (String.eqb_spec agent ag) as [->|Hne]; [by rewrite lookup_insert_eq|by rewrite lookup_insert_ne].
Qed.
Lemma elem_of_removed {A} (l : list A) n x y : l !! n = Some y → x ∈ l → x ≠ y → x ∈ take n l ++ drop (S n) l.
Proof. intros Hn Hx Hne. rewrite <- (take_drop_middle l n y Hn) in Hx. set_solver. Qed.
Lemma fire_spec n d d' told : timed d → timer_fires n d = Some (d', told) →
  timed d' ∧ ∀ ag told0, final ag d' (told0 ++ told) = final ag d told0.
Proof.
  intros Ht. unfold timer_fires. destruct (timers d !! n) as [[agent g]|] eqn:Hn; [|done].
  assert (∀ ag w, windows d !! ag = Some w → (ag ≠ agent ∨ WorkspaceDebounce.generation w ≠ g) →
    is_Some (WorkspaceDebounce.pending w) ∧ (ag, WorkspaceDebounce.generation w) ∈ take n (timers d) ++ drop (S n) (timers d)) as Hkeep.
  { intros ag w Hw Hne. destruct (Ht ag w Hw) as [Hp Hin]. split; [done|]. eapply elem_of_removed; [done..|]. destruct Hne; congruence. }
  destruct (windows d !! agent) as [w|] eqn:Hw; [destruct (Z.eqb_spec (WorkspaceDebounce.generation w) g) as [Hg|Hg]|]; intros [= <- <-].
  - destruct (Ht agent w Hw) as [[p Hp] _]. rewrite Hp. split.
    + intros ag w' Hw'. cbn in Hw'. apply lookup_delete_Some in Hw' as [Hne Hw']. apply Hkeep; auto.
    + intros ag told0. unfold final. cbn. destruct (decide (agent = ag)) as [->|Hne].
      * rewrite lookup_delete_eq, Hw, Hp. unfold of_agent. rewrite omap_app. cbn. rewrite String.eqb_refl. by rewrite last_snoc.
      * rewrite lookup_delete_ne by done. destruct (windows d !! ag); [done|]. unfold of_agent. rewrite omap_app. cbn.
        rewrite (proj2 (String.eqb_neq _ _) Hne). by rewrite app_nil_r.
  - split; [|intros; by rewrite app_nil_r]. intros ag w' Hw'. cbn in Hw'. apply Hkeep; [done|]. destruct (decide (ag = agent)) as [->|]; [|by left]. right. congruence.
  - split; [|intros; by rewrite app_nil_r]. intros ag w' Hw'. cbn in Hw'. apply Hkeep; [done|]. left. congruence.
Qed.

(** However changes of workspaces and the timers that forward them follow one another, and however late
    a timer wakes: once no timer sleeps, the last change the renderer was told of an agent's workspace is the last that was reported. *)
Lemma last_change_is_told (acts : list DebounceAct) d told (agent : string) :
  debounce acts new_debouncer = Some (d, told) → timers d = [] →
  last (of_agent agent told) = last (of_agent agent (changes acts)).
Proof.
  assert (∀ acts d0 d told0 told before, debounce acts d0 = Some (d, told) → timed d0 → final agent d0 told0 = last (of_agent agent before) →
    timed d ∧ final agent d (told0 ++ told) = last (of_agent agent (before ++ changes acts))) as Hrun.
  { clear. intros acts. induction acts as [|a acts IH]; intros d0 d told0 told before Hr Ht Hf; [cbn in *; simplify_eq; by rewrite !app_nil_r|].
    cbn in Hr. destruct a as [ag payload now|n].
    - destruct (debounce acts _) as [[d1 told1]|] eqn:Hd; [|done]. injection Hr as <- <-. cbn [app]. destruct (change_spec ag payload now d0 Ht) as [Ht1 Hf1].
      destruct (IH _ d1 told0 told1 (before ++ [(ag, payload)]) Hd Ht1) as [? IHf]; [|rewrite <- app_assoc in IHf; done].
      rewrite Hf1. unfold of_agent. rewrite omap_app. cbn. destruct (String.eqb ag agent); [by rewrite last_snoc|by rewrite app_nil_r].
    - destruct (timer_fires n d0) as [[d1 told1]|] eqn:Hfire; [|done]. destruct (debounce acts d1) as [[d2 told2]|] eqn:Hd; [|done]. injection Hr as <- <-.
      destruct (fire_spec n d0 d1 told1 Ht Hfire) as [Ht1 Hf1]. rewrite app_assoc. apply (IH d1 d2 (told0 ++ told1) told2 before Hd Ht1). by rewrite Hf1. }
  intros Hr Hnone. destruct (Hrun acts new_debouncer d [] told [] Hr) as [Ht Hf]; [intros ag w Hw; cbn in Hw; by rewrite lookup_empty in Hw|done|].
  cbn in Hf. rewrite <- Hf. unfold final. destruct (windows d !! agent) as [w|] eqn:Hw; [|done].
  destruct (Ht agent w Hw) as [_ Hin]. rewrite Hnone in Hin. by apply not_elem_of_nil in Hin.
Qed.

(** *** Summaries *)

Lemma boundary_le s cut : (boundary s cut ≤ cut)%nat.
Proof. induction cut as [|n IH]; cbn [boundary]; [done|]. case_match; lia. Qed.
Lemma boundary_ok s cut : is_char_boundary s (boundary s cut) = true.
Proof. induction cut as [|n IH]; cbn [boundary]; [done|]. by case_match. Qed.
(** A summary is the text, or its start, cut between two characters, with an ellipsis. *)
Lemma truncate_at_spec max s :
  (truncate_at max s = s ∧ (length (bytes s) ≤ max)%nat) ∨
  ∃ n, truncate_at max s = of_bytes (take n (bytes s)) +:+ ellipsis ∧ (n ≤ max)%nat ∧ is_char_boundary s n = true.
Proof.
  unfold truncate_at. destruct (Nat.leb_spec (length (bytes s)) max) as [H|H]; [by left|]. right. exists (boundary s max).
  split; [done|]. split; [apply boundary_le|apply boundary_ok].
Qed.

(* ------------------------------------------------------------------ *)
(** ** Runs *)

Definition opened : list PluginAct := [Guard 0 "a"; Subscribe_ 0; Snapshot 0].
Local Notation outcome acts := (plugin_run acts new_plugin).

Lemma audit_keeps_the_latest_witness :
  let r := default (new_plugin, []) (outcome (VoiceAudit "a" None true 5 :: opened ++ [Result_ "a" (PluginResultRequest.PermissionAsk Null) 7])) in
  map PluginAuditRecord.kind (audit_records "a" (registry (fst r))) = ["voice_mode"; "permission.ask"].
Proof.
  intros r. rewrite (audit_keeps_the_latest (VoiceAudit "a" None true 5 :: opened ++ [Result_ "a" (PluginResultRequest.PermissionAsk Null) 7]) (fst r) (snd r) "a").
  - by vm_compute.
  - by vm_compute.
Defined.
Lemma open_stream_misses_nothing_witness :
  let p := fst (default (new_plugin, []) (outcome opened)) in
  let acts := [VoicePush "a" (Some "s") true; Next 0 3; Next 0 4] in
  ∃ now_sent items', [EventsStream.Ping; EventsStream.Item (voice_mode (Some "s") true)] = now_sent ++ items' ∧
    Forall2 shows now_sent (sent_on 0 (snd (default (p, []) (plugin_run acts p)))).
Proof.
  intros p acts.
  destruct (open_stream_misses_nothing "a" 0 [EventsStream.Ping] acts p (fst (default (p, []) (plugin_run acts p))) (snd (default (p, []) (plugin_run acts p))))
    as (now_sent & items' & Heq & Hs & _).
  - exists [EventsStream.Ping], []. split; [by vm_compute|]. split; [by vm_compute|]. split; [done|]. apply Nat.leb_le. by vm_compute.
  - intros Hin. apply list_elem_of_In in Hin. repeat (destruct Hin as [Hin|Hin]; [discriminate Hin|]). destruct Hin.
  - by vm_compute.
  - exists now_sent, items'. split; [exact Heq|exact Hs].
Defined.
Lemma last_change_is_told_witness :
  let acts := [Change "a" (Str "1") 0; Change "b" (Str "2") 1; Change "a" (Str "3") 300; Fire 1; Fire 0; Fire 0] in
  last (of_agent "a" (snd (default (new_debouncer, []) (debounce acts new_debouncer)))) = Some (Str "3").
Proof.
  intros acts. rewrite (last_change_is_told acts (fst (default (new_debouncer, []) (debounce acts new_debouncer)))
    (snd (default (new_debouncer, []) (debounce acts new_debouncer))) "a"); by vm_compute.
Defined.

(** A toggle between the opening of a stream and its record is lost on that stream: it was
    pushed before the stream subscribed and recorded after the stream had read the list. *)
Example toggle_missed_by_a_new_stream :
  (λ r, (sent_on 0 (snd r), AgentEntry.voice_sticky (entry_of "a" (registry (fst r))))) <$>
    outcome ([VoicePush "a" None true] ++ opened ++ [VoiceSticky "a" None true; Next 0 1]) =
  Some ([PluginPushEvent.mk "ping" (Obj [("at", num 1)])], [StickyVoiceMode.mk "" (voice_mode None true)]).
Proof. by vm_compute. Qed.
(** A plugin that reconnects before its old stream is dropped is shown as disconnected. *)
Example old_stream_hides_the_new_one :
  (λ r, connected "a" 100000 (registry (fst r))) <$>
    outcome (Hello "a" "1.0.0" None ["h"] 0 :: opened ++ [Guard 1 "a"; Subscribe_ 1; Snapshot 1; Drop_ 0]) = Some false.
Proof. by vm_compute. Qed.
(** A conversation that closes takes the approver of the one that has replaced it. *)
Example closing_takes_anothers_approver :
  (λ r, shell_approver "a" (registry (fst r))) <$> outcome [Register "a" 1; Register "a" 2; Unregister_ "a"] = Some None.
Proof. by vm_compute. Qed.
