(* ===== verification/PluginBg.v ===== *)
(** * PluginBg: background processes of the OpenCode plugin

    [manager/remote/plugin/bg.rs] and the routes of [server.rs] that use it: the ring buffer of
    a process, the start with its approval and its limit, the monitor that drives the child,
    stopping, reading and tailing.  A child is a process of the machine: it writes to its two
    pipes, closes them and ends when it likes; a reader task per pipe decodes what it reads
    into the channel of the monitor.  A run interleaves the steps of the calls, which take the
    manager's lock one at a time and may run on several threads, with those of the monitors,
    the readers, the children and the tails.  Times are in milliseconds. *)

From S2P Require Import Prelude.
From S2P Require Import Text.
From S2P Require Import JsonValue.
From S2P Require Import PluginRegistry.

(* ------------------------------------------------------------------ *)
(** ** Decoding *)

Definition continuation (b : Z) : bool := (128 <=? b) && (b <? 192).
(** The second byte a first byte allows. *)
Definition second_ok (b c : Z) : bool :=
  if b =? 224 then (160 <=? c) && (c <? 192)
  else if b =? 237 then (128 <=? c) && (c <? 160)
  else if b =? 240 then (144 <=? c) && (c <? 192)
  else if b =? 244 then (128 <=? c) && (c <? 144)
  else continuation c.
Definition replacement : list Z := [239; 191; 189].
(** [String::from_utf8_lossy], the bytes of the text: what is not a character, as far as it
    could be the beginning of one, is a replacement character. *)
Fixpoint lossy (l : list Z) : list Z :=
  match l with
  | [] => []
  | b :: l1 =>
      if b <? 128 then b :: lossy l1
      else if (194 <=? b) && (b <? 224) then
        match l1 with
        | c :: l2 => if continuation c then b :: c :: lossy l2 else replacement ++ lossy l1
        | [] => replacement
        end
      else if (224 <=? b) && (b <? 240) then
        match l1 with
        | c :: l2 =>
            if second_ok b c then
              match l2 with
              | d :: l3 => if continuation d then b :: c :: d :: lossy l3 else replacement ++ lossy l2
              | [] => replacement
              end
            else replacement ++ lossy l1
        | [] => replacement
        end
      else if (240 <=? b) && (b <? 245) then
        match l1 with
        | c :: l2 =>
            if second_ok b c then
              match l2 with
              | d :: l3 =>
                  if continuation d then
                    match l3 with
                    | e :: l4 => if continuation e then b :: c :: d :: e :: lossy l4 else replacement ++ lossy l3
                    | [] => replacement
                    end
                  else replacement ++ lossy l2
              | [] => replacement
              end
            else replacement ++ lossy l1
        | [] => replacement
        end
      else replacement ++ lossy l1
  end.
Definition from_utf8_lossy (l : list Z) : string := of_bytes (lossy l).

(* ------------------------------------------------------------------ *)
(** ** Data *)

(* chisl-ai-agent/src/manager/remote/plugin/bg.rs:81-81 MAX_BG_PROCESSES_PER_AGENT *)
Definition MAX_BG_PROCESSES_PER_AGENT : nat := 8.
(* chisl-ai-agent/src/manager/remote/plugin/bg.rs:86-86 BG_RING_CAP_BYTES *)
Definition BG_RING_CAP_BYTES : Z := 512 * 1024.
(* chisl-ai-agent/src/manager/remote/plugin/bg.rs:91-91 DEFAULT_BG_TIMEOUT_SECS *)
Definition DEFAULT_BG_TIMEOUT_SECS : Z := 7200.
(* chisl-ai-agent/src/manager/remote/plugin/bg.rs:96-96 MAX_BG_TIMEOUT_SECS *)
Definition MAX_BG_TIMEOUT_SECS : Z := 86400.
(* chisl-ai-agent/src/manager/remote/plugin/bg.rs:100-100 MAX_TERMINAL_RECORDS *)
Definition MAX_TERMINAL_RECORDS : nat := 16.
(* chisl-ai-agent/src/manager/remote/plugin/bg.rs:105-105 OUTPUT_CHANNEL_CAP *)
Definition OUTPUT_CHANNEL_CAP : nat := 256.
(* chisl-ai-agent/src/manager/remote/plugin/bg.rs:110-110 READ_CHUNK *)
Definition READ_CHUNK : nat := 8192.
Definition DRIVE_CHANNEL_CAP : nat := 32.

Module BgError.
(* chisl-ai-agent/src/manager/remote/plugin/bg.rs:119-134 BgError *)
Inductive t := Denied | NoApprover | ApprovalTimedOut | LimitExceeded (n : nat) | NotFound (id : string) | Spawn (msg : string) | Invalid (msg : string).
(* chisl-ai-agent/src/manager/remote/plugin/bg.rs:138-148 code *)
Definition code (e : t) : string :=
  match e with
  | Denied => "denied" | NoApprover => "no_approver" | ApprovalTimedOut => "approval_timeout" | LimitExceeded _ => "limit_exceeded"
  | NotFound _ => "not_found" | Spawn _ => "spawn_failed" | Invalid _ => "invalid"
  end.
End BgError.

Module BgStatus.
(* chisl-ai-agent/src/manager/remote/plugin/protocol.rs:188-192 BgStatus *)
Inductive t := Running | Exited | Killed.
#[global] Instance t_dec : EqDecision t.
Proof. solve_decision. Defined.
End BgStatus.

Module BgProcessInfo.
(* chisl-ai-agent/src/manager/remote/plugin/protocol.rs:200-222 BgProcessInfo *)
Record t := mk {
  id : string; name : option string; command : string; cwd : string; session_id : string; status : BgStatus.t;
  exit_code : option Z; started_at_ms : Z; ended_at_ms : option Z; output_bytes : Z; truncated : bool }.
End BgProcessInfo.

Module StartRequest.
(* chisl-ai-agent/src/manager/remote/plugin/protocol.rs:230-263 BgRequest *)
Record t := mk {
  command : string; cwd : option string; session_id : string; call_id : option string; name : option string; timeout_secs : option Z }.
End StartRequest.

(* ------------------------------------------------------------------ *)
(** ** The ring buffer *)

Module RingBuffer.
(* chisl-ai-agent/src/manager/remote/plugin/bg.rs:159-175 RingBuffer *)
Record t := mk { inner : list Z; cap : Z; base_offset : Z; total_written : Z; truncated : bool }.
Definition u64_max : Z := 2 ^ 64 - 1.
Definition saturating_add (a b : Z) : Z := Z.min (a + b) u64_max.
(* chisl-ai-agent/src/manager/remote/plugin/bg.rs:178-186 new *)
Definition new (cap : Z) : t := mk [] cap 0 0 false.
(* chisl-ai-agent/src/manager/remote/plugin/bg.rs:196-205 append *)
Definition push_byte (r : t) (b : Z) : t :=
  if Z.of_nat (length (inner r)) =? cap r
  then mk (tail (inner r) ++ [b]) (cap r) (saturating_add (base_offset r) 1) (total_written r) true
  else mk (inner r ++ [b]) (cap r) (base_offset r) (total_written r) (truncated r).
(* chisl-ai-agent/src/manager/remote/plugin/bg.rs:193-206 append *)
Definition append (chunk : string) (r : t) : t :=
  let l := bytes chunk in
  foldl push_byte (mk (inner r) (cap r) (base_offset r) (saturating_add (total_written r) (Z.of_nat (length l))) (truncated r)) l.
(* chisl-ai-agent/src/manager/remote/plugin/bg.rs:214-223 read_from *)
Definition read_from (start : Z) (r : t) : list Z * Z :=
  let end_ := base_offset r + Z.of_nat (length (inner r)) in
  if end_ <=? start then ([], end_)
  else (drop (Z.to_nat (Z.max start (base_offset r) - base_offset r)) (inner r), end_).
End RingBuffer.

(* ------------------------------------------------------------------ *)
(** ** Processes *)

Module BgProcess.
(** [stop] is the value of the watch channel; [output_tx] is whether the sender to the tails exists. *)
(* chisl-ai-agent/src/manager/remote/plugin/bg.rs:240-263 BgProcess *)
Record t := mk { info_ : BgProcessInfo.t; ring : RingBuffer.t; output_tx : bool; stop : bool; timeout_secs : Z }.
(* chisl-ai-agent/src/manager/remote/plugin/bg.rs:268-282 info *)
Definition info (p : t) : BgProcessInfo.t :=
  let i := info_ p in
  BgProcessInfo.mk (BgProcessInfo.id i) (BgProcessInfo.name i) (BgProcessInfo.command i) (BgProcessInfo.cwd i) (BgProcessInfo.session_id i)
    (BgProcessInfo.status i) (BgProcessInfo.exit_code i) (BgProcessInfo.started_at_ms i) (BgProcessInfo.ended_at_ms i)
    (RingBuffer.total_written (ring p)) (RingBuffer.truncated (ring p)).
Definition status (p : t) : BgStatus.t := BgProcessInfo.status (info_ p).
Definition running (p : t) : bool := bool_decide (status p = BgStatus.Running).
End BgProcess.
Abbreviation AgentTable := (gmap string BgProcess.t).

(** The machine's side of a process: what its pipes hold that is not read yet, whether they
    are still open, and how it ended ([Some None]: waiting for it fails). *)
Module Child.
Record pipe := mk_pipe { unread : list Z; open : bool }.
Record t := mk { pipes : list pipe; ended : option (option (option Z)) }.
Definition spawned : t := mk [mk_pipe [] true; mk_pipe [] true] None.
End Child.

Module DriveOutcome.
(* chisl-ai-agent/src/manager/remote/plugin/bg.rs:932-937 DriveOutcome *)
Inductive t := Exited (code : option Z) | KilledByStop | KilledByTimeout | SpawnError.
End DriveOutcome.

(** A monitor: it drives the child, only waits for it, has its outcome, or has recorded it. *)
Module Monitor.
Inductive phase := Driving | Waiting | Finishing (outcome : DriveOutcome.t) | Pruning.
Record t := mk { agent : string; child : Child.t; out : list string; readers : list bool; deadline : Z; at_ : phase }.
End Monitor.

(** A call of [start]. *)
Module Call.
Inductive phase :=
| Approving | Allowed | Counted | Spawned (id : string) (now : Z) (timeout_secs : Z) | Done (r : result BgProcessInfo.t BgError.t).
Record t := mk { agent : string; req : StartRequest.t; cwd : string; at_ : phase }.
End Call.
Module ShellApproval.
(* chisl-ai-agent/src/manager/remote/local_fs_mcp/shell.rs:45-50 ShellApproval *)
Inductive t := Allow | Reject | TimedOut.
End ShellApproval.

(** A tail: it has been asked for, has subscribed, forwards what comes, is over. *)
Module Tail.
Inductive phase := Opening | Subscribed | Live (offset : Z) | Over.
Record t := mk { agent : string; process_id : string; from_offset : Z; rx : Receiver.t string; at_ : phase }.
Definition move (p : phase) (t : t) := mk (agent t) (process_id t) (from_offset t) (rx t) p.
End Tail.

Record Bg := mk_bg {
  agents : gmap string AgentTable; monitors : gmap string Monitor.t; calls : gmap nat Call.t; tails : gmap nat Tail.t; registry : PluginRegistry }.
Definition new_bg : Bg := mk_bg ∅ ∅ ∅ ∅ ∅.
Definition with_agents f b := mk_bg (f (agents b)) (monitors b) (calls b) (tails b) (registry b).
Definition with_monitors f b := mk_bg (agents b) (f (monitors b)) (calls b) (tails b) (registry b).
Definition with_calls f b := mk_bg (agents b) (monitors b) (f (calls b)) (tails b) (registry b).
Definition with_tails f b := mk_bg (agents b) (monitors b) (calls b) (f (tails b)) (registry b).
Definition with_registry f b := mk_bg (agents b) (monitors b) (calls b) (tails b) (f (registry b)).

(* chisl-ai-agent/src/manager/remote/plugin/bg.rs:341-350 with_agent_table *)
Definition with_agent_table (agent_id : string) (f : AgentTable → AgentTable) : Bg → Bg :=
  with_agents (λ m, <[agent_id := f (default ∅ (m !! agent_id))]> m).
Definition process (agent_id process_id : string) (b : Bg) : option BgProcess.t := agents b !! agent_id ≫= (.!! process_id).
(* chisl-ai-agent/src/manager/remote/plugin/bg.rs:380-393 with_process *)
Definition with_process (agent_id process_id : string) (f : BgProcess.t → BgProcess.t) : Bg → Bg :=
  with_agents (alter (alter f process_id) agent_id).

(* chisl-ai-agent/src/manager/remote/plugin/bg.rs:830-840 command_preview *)
Definition command_preview : string → string := truncate_at 80.
(* chisl-ai-agent/src/manager/remote/plugin/bg.rs:879-889 truncate_for_audit *)
Definition truncate_for_audit : string → string := truncate_at 2048.
(* chisl-ai-agent/src/manager/remote/plugin/bg.rs:842-845 clamp_timeout *)
Definition clamp_timeout (requested : option Z) : Z := Z.min (Z.max (default DEFAULT_BG_TIMEOUT_SECS requested) 1) MAX_BG_TIMEOUT_SECS.
(** The directories of the machine: which paths are one, and their canonical form. *)
Record Dirs := mk_dirs { is_dir : string → bool; canonicalize : string → option string }.
(* chisl-ai-agent/src/manager/remote/plugin/bg.rs:847-858 resolve_cwd *)
Definition resolve_cwd (d : Dirs) (request_cwd : option string) (default_cwd : string) : string :=
  match request_cwd with
  | Some req => if is_dir d req then default req (canonicalize d req) else default_cwd
  | None => default_cwd
  end.
(* chisl-ai-agent/src/manager/remote/plugin/bg.rs:860-877 audit_bg *)
Definition audit_bg (agent_id kind session_id : string) (call_id : option string) (summary : string) (now : Z) : Bg → Bg :=
  with_registry (record_audit agent_id (PluginAuditRecord.mk kind (Some "bg") (Some session_id) call_id (Z.max 0 now) (truncate_for_audit summary))).

(** The oldest terminal records go until [MAX_TERMINAL_RECORDS] are left. *)
Definition ended_at (p : BgProcess.t) : Z :=
  default (BgProcessInfo.started_at_ms (BgProcess.info_ p)) (BgProcessInfo.ended_at_ms (BgProcess.info_ p)).
(* chisl-ai-agent/src/manager/remote/plugin/bg.rs:357-378 prune_terminal *)
Definition prune_table `{HashIter BgProcess.t} (t : AgentTable) : AgentTable :=
  let terminal := map (λ kv, (fst kv, ended_at (snd kv))) (List.filter (λ kv, negb (BgProcess.running (snd kv))) (hm_iter t)) in
  if Nat.leb (length terminal) MAX_TERMINAL_RECORDS then t
  else foldr (λ kv, delete (fst kv)) t (take (length terminal - MAX_TERMINAL_RECORDS) (sort_by snd terminal)).
(* chisl-ai-agent/src/manager/remote/plugin/bg.rs:357-378 prune_terminal *)
Definition prune_terminal `{HashIter BgProcess.t} (agent_id : string) : Bg → Bg := with_agent_table agent_id prune_table.

(* ------------------------------------------------------------------ *)
(** ** Starting *)

Definition call_at (k : nat) (p : Call.phase) (c : Call.t) : Bg → Bg :=
  with_calls <[k := Call.mk (Call.agent c) (Call.req c) (Call.cwd c) p]>.
(** The request up to the question to the user. *)
(* chisl-ai-agent/src/manager/remote/plugin/bg.rs:401-437 start *)
Definition request (k : nat) (agent_id : string) (req : StartRequest.t) (d : Dirs) (default_cwd : string) (b : Bg) : Bg :=
  let c := Call.mk agent_id req (resolve_cwd d (StartRequest.cwd req) default_cwd) Call.Approving in
  match shell_approver agent_id (registry b) with
  | None => call_at k (Call.Done (Err BgError.NoApprover)) c b
  | Some _ =>
      if String.eqb (trim (StartRequest.command req)) "" then call_at k (Call.Done (Err (BgError.Invalid "command must not be empty"))) c b
      else call_at k Call.Approving c b
  end.
(* chisl-ai-agent/src/manager/remote/plugin/bg.rs:437-462 start *)
Definition approved (k : nat) (answer : ShellApproval.t) (now : Z) (c : Call.t) (b : Bg) : Bg :=
  let denied e summary :=
    call_at k (Call.Done (Err e)) c
      (audit_bg (Call.agent c) "bg.denied" (StartRequest.session_id (Call.req c)) (StartRequest.call_id (Call.req c)) summary now b) in
  match answer with
  | ShellApproval.Allow => call_at k Call.Allowed c b
  | ShellApproval.Reject => denied BgError.Denied "user rejected"
  | ShellApproval.TimedOut => denied BgError.ApprovalTimedOut "approval timed out"
  end.
Definition running_count (agent_id : string) (b : Bg) : nat :=
  size (filter (λ kv, BgProcess.running (snd kv) = true) (default ∅ (agents b !! agent_id))).
(* chisl-ai-agent/src/manager/remote/plugin/bg.rs:464-479 start *)
Definition count (k : nat) (c : Call.t) (b : Bg) : Bg :=
  let n := running_count (Call.agent c) b in
  if Nat.leb MAX_BG_PROCESSES_PER_AGENT n then call_at k (Call.Done (Err (BgError.LimitExceeded n))) c b else call_at k Call.Counted c b.
(** The child and its monitor; [instant] is the monotonic clock. *)
(* chisl-ai-agent/src/manager/remote/plugin/bg.rs:481-531 start *)
Definition spawn (k : nat) (id : string) (now instant : Z) (spawned : result unit string) (c : Call.t) (b : Bg) : Bg :=
  match spawned with
  | Err e => call_at k (Call.Done (Err (BgError.Spawn e))) c b
  | Ok _ =>
      let timeout_secs := clamp_timeout (StartRequest.timeout_secs (Call.req c)) in
      call_at k (Call.Spawned id (Z.max 0 now) timeout_secs) c
        (with_monitors <[id := Monitor.mk (Call.agent c) Child.spawned [] [true; true] (instant + timeout_secs * 1000) Monitor.Driving]> b)
  end.
(* chisl-ai-agent/src/manager/remote/plugin/bg.rs:496-583 start *)
Definition insert_process (k : nat) (id : string) (started timeout_secs now : Z) (c : Call.t) (b : Bg) : Bg :=
  let req := Call.req c in
  let info := BgProcessInfo.mk id (StartRequest.name req) (StartRequest.command req) (Call.cwd c) (StartRequest.session_id req)
    BgStatus.Running None started None 0 false in
  let b := with_agent_table (Call.agent c) <[id := BgProcess.mk info (RingBuffer.new BG_RING_CAP_BYTES) true false timeout_secs]> b in
  let b := audit_bg (Call.agent c) "bg.start" (StartRequest.session_id req) (StartRequest.call_id req) (command_preview (StartRequest.command req)) now b in
  call_at k (Call.Done (Ok (default info (BgProcess.info <$> process (Call.agent c) id b)))) c b.

(* ------------------------------------------------------------------ *)
(** ** The monitor *)

(** A chunk goes to the ring and to the tails that have subscribed. *)
(* chisl-ai-agent/src/manager/remote/plugin/bg.rs:1028-1037 append_chunk *)
Definition append_chunk (agent_id process_id : string) (b : Bg) (chunk : string) : Bg :=
  match process agent_id process_id b with
  | Some p =>
      let b := with_process agent_id process_id (λ p,
        BgProcess.mk (BgProcess.info_ p) (RingBuffer.append chunk (BgProcess.ring p)) (BgProcess.output_tx p) (BgProcess.stop p) (BgProcess.timeout_secs p)) b in
      if BgProcess.output_tx p
      then with_tails (fmap (λ t,
        if String.eqb (Tail.agent t) agent_id && String.eqb (Tail.process_id t) process_id &&
           match Tail.at_ t with Tail.Subscribed | Tail.Live _ => true | _ => false end
        then Tail.mk (Tail.agent t) (Tail.process_id t) (Tail.from_offset t) (Receiver.send OUTPUT_CHANNEL_CAP chunk (Tail.rx t)) (Tail.at_ t)
        else t)) b
      else b
  | None => b
  end.
Definition monitor_at (id : string) (p : Monitor.phase) (m : Monitor.t) : Bg → Bg :=
  with_monitors <[id := Monitor.mk (Monitor.agent m) (Monitor.child m) (Monitor.out m) (Monitor.readers m) (Monitor.deadline m) p]>.
Definition killed (m : Monitor.t) : Monitor.t :=
  Monitor.mk (Monitor.agent m) (Child.mk (Child.pipes (Monitor.child m)) (Some (Some None))) (Monitor.out m) (Monitor.readers m) (Monitor.deadline m) (Monitor.at_ m).
Definition with_out (out : list string) (m : Monitor.t) : Monitor.t :=
  Monitor.mk (Monitor.agent m) (Monitor.child m) out (Monitor.readers m) (Monitor.deadline m) (Monitor.at_ m).
(** A turn of the loop: the arms are tried in the order of the source; [None] when none is
    ready. *)
(* chisl-ai-agent/src/manager/remote/plugin/bg.rs:939-1011 drive_child *)
Definition drive (id : string) (instant : Z) (m : Monitor.t) (b : Bg) : option Bg :=
  match Monitor.at_ m, Child.ended (Monitor.child m) with
  | Monitor.Driving, Some (Some code) =>
      Some (monitor_at id (Monitor.Finishing (DriveOutcome.Exited code)) (with_out [] m) (foldl (append_chunk (Monitor.agent m) id) b (Monitor.out m)))
  | Monitor.Driving, Some None => Some (monitor_at id (Monitor.Finishing DriveOutcome.SpawnError) m b)
  | Monitor.Driving, None =>
      match Monitor.out m with
      | chunk :: out => Some (monitor_at id Monitor.Driving (with_out out m) (append_chunk (Monitor.agent m) id b chunk))
      | [] =>
          if forallb negb (Monitor.readers m) then Some (monitor_at id Monitor.Waiting m b)
          else if Monitor.deadline m <=? instant then Some (monitor_at id (Monitor.Finishing DriveOutcome.KilledByTimeout) (killed m) b)
          else if default false (BgProcess.stop <$> process (Monitor.agent m) id b)
          then Some (monitor_at id (Monitor.Finishing DriveOutcome.KilledByStop) (killed m) b)
          else None
      end
  | Monitor.Waiting, Some (Some code) => Some (monitor_at id (Monitor.Finishing (DriveOutcome.Exited code)) m b)
  | Monitor.Waiting, Some None => Some (monitor_at id (Monitor.Finishing DriveOutcome.SpawnError) m b)
  | _, _ => None
  end.
(* chisl-ai-agent/src/manager/remote/plugin/bg.rs:590-653 spawn_monitor *)
Definition ended_process (outcome : DriveOutcome.t) (now : Z) (p : BgProcess.t) : BgProcess.t :=
  let '(status, exit_code) :=
    match outcome with DriveOutcome.Exited code => (BgStatus.Exited, code) | _ => (BgStatus.Killed, None) end in
  let i := BgProcess.info_ p in
  BgProcess.mk (BgProcessInfo.mk (BgProcessInfo.id i) (BgProcessInfo.name i) (BgProcessInfo.command i) (BgProcessInfo.cwd i) (BgProcessInfo.session_id i)
      status exit_code (BgProcessInfo.started_at_ms i) (Some (Z.max 0 now)) (BgProcessInfo.output_bytes i) (BgProcessInfo.truncated i))
    (BgProcess.ring p) false true (BgProcess.timeout_secs p).
(* chisl-ai-agent/src/manager/remote/plugin/bg.rs:590-653 spawn_monitor *)
Definition finish (id : string) (outcome : DriveOutcome.t) (now : Z) (m : Monitor.t) (b : Bg) : Bg :=
  let prev := BgProcess.info_ <$> process (Monitor.agent m) id b in
  let b := with_process (Monitor.agent m) id (ended_process outcome now) b in
  let audit_kind :=
    match outcome with DriveOutcome.KilledByTimeout => "bg.timeout" | DriveOutcome.Exited _ => "bg.exit" | _ => "bg.stop" end in
  monitor_at id Monitor.Pruning m
    (audit_bg (Monitor.agent m) audit_kind (default "" (BgProcessInfo.session_id <$> prev)) None
      (command_preview (default "" (BgProcessInfo.command <$> prev))) now b).

(** A reader takes some bytes of its pipe, or ends with it. *)
(* chisl-ai-agent/src/manager/remote/plugin/bg.rs:1039-1056 spawn_reader *)
Definition reader_step (n len : nat) (m : Monitor.t) : option Monitor.t :=
  match Monitor.at_ m, Monitor.readers m !! n, Child.pipes (Monitor.child m) !! n with
  | Monitor.Driving, Some true, Some pipe =>
      match Child.unread pipe with
      | [] => if Child.open pipe then None
              else Some (Monitor.mk (Monitor.agent m) (Monitor.child m) (Monitor.out m) (<[n := false]> (Monitor.readers m)) (Monitor.deadline m) (Monitor.at_ m))
      | _ =>
          if Nat.ltb (length (Monitor.out m)) DRIVE_CHANNEL_CAP && Nat.leb 1 len && Nat.leb len READ_CHUNK then
            Some (Monitor.mk (Monitor.agent m)
              (Child.mk (<[n := Child.mk_pipe (drop len (Child.unread pipe)) (Child.open pipe)]> (Child.pipes (Monitor.child m))) (Child.ended (Monitor.child m)))
              (Monitor.out m ++ [from_utf8_lossy (take len (Child.unread pipe))]) (Monitor.readers m) (Monitor.deadline m) (Monitor.at_ m))
          else None
      end
  | _, _, _ => None
  end.
(** What the child does. *)
Inductive ChildAct := Writes (n : nat) (data : list Z) | Closes (n : nat) | Ends (result : option (option Z)).
Definition child_step (a : ChildAct) (c : Child.t) : option Child.t :=
  match a with
  | Writes n data => match Child.pipes c !! n with
                     | Some (Child.mk_pipe unread true) => Some (Child.mk (<[n := Child.mk_pipe (unread ++ data) true]> (Child.pipes c)) (Child.ended c))
                     | _ => None
                     end
  | Closes n => match Child.pipes c !! n with
                | Some p => Some (Child.mk (<[n := Child.mk_pipe (Child.unread p) false]> (Child.pipes c)) (Child.ended c))
                | None => None
                end
  | Ends r => match Child.ended c with None => Some (Child.mk (Child.pipes c) (Some r)) | Some _ => None end
  end.

(* ------------------------------------------------------------------ *)
(** ** Stopping, reading, tailing *)

(** [stop] sets the flag, then looks every twenty milliseconds. *)
(* chisl-ai-agent/src/manager/remote/plugin/bg.rs:664-692 stop *)
Definition stop_signal (agent_id process_id : string) : Bg → Bg :=
  with_process agent_id process_id (λ p, BgProcess.mk (BgProcess.info_ p) (BgProcess.ring p) (BgProcess.output_tx p) true (BgProcess.timeout_secs p)).
(* chisl-ai-agent/src/manager/remote/plugin/bg.rs:664-692 stop *)
Definition stop_poll (agent_id process_id : string) (elapsed : Z) (b : Bg) : option (result BgProcessInfo.t BgError.t) :=
  match process agent_id process_id b with
  | None => Some (Err (BgError.NotFound process_id))
  | Some p => if negb (BgProcess.running p) then Some (Ok (BgProcess.info p))
              else if 5000 <? elapsed then Some (Ok (BgProcess.info p)) else None
  end.
(* chisl-ai-agent/src/manager/remote/plugin/bg.rs:699-704 list *)
Definition list_ `{HashIter BgProcess.t} (agent_id : string) (b : Bg) : list BgProcessInfo.t :=
  map (λ kv, BgProcess.info (snd kv)) (hm_iter (default ∅ (agents b !! agent_id))).
(* chisl-ai-agent/src/manager/remote/plugin/bg.rs:712-718 read *)
Definition read (agent_id process_id : string) (offset : Z) (b : Bg) : result (string * Z * BgProcessInfo.t) BgError.t :=
  match process agent_id process_id b with
  | None => Err (BgError.NotFound process_id)
  | Some p => let '(l, next_offset) := RingBuffer.read_from offset (BgProcess.ring p) in Ok (from_utf8_lossy l, next_offset, BgProcess.info p)
  end.
(** The processes [kill_all_for_agent] stops one after the other, and those of [kill_all]. *)
(* chisl-ai-agent/src/manager/remote/plugin/bg.rs:746-763 kill_all_for_agent *)
Definition to_kill `{HashIter BgProcess.t} (agent_id : string) (b : Bg) : list string :=
  map fst (List.filter (λ kv, BgProcess.running (snd kv)) (hm_iter (default ∅ (agents b !! agent_id)))).
(* chisl-ai-agent/src/manager/remote/plugin/bg.rs:768-778 kill_all *)
Definition to_kill_everywhere `{HashIter BgProcess.t} `{HashIter AgentTable} (b : Bg) : list (string * string) :=
  concat (map (λ kv, map (pair (fst kv)) (to_kill (fst kv) b)) (hm_iter (agents b))).

Inductive TailEvent := Chunk (data : string) (offset : Z) | Done_ (exit_code : option Z) (status : BgStatus.t) | TailError (message : string).
Definition tail_at (k : nat) (t : Tail.t) : Bg → Bg := with_tails <[k := t]>.
(* chisl-ai-agent/src/manager/remote/plugin/bg.rs:728-735 subscribe_output *)
Definition subscribe_output (agent_id process_id : string) (b : Bg) : result unit BgError.t :=
  match process agent_id process_id b with
  | None => Err (BgError.NotFound process_id)
  | Some p => if BgProcess.output_tx p then Ok tt else Err (BgError.Invalid "process has no live output (already terminal)")
  end.
(** [BgError]'s [Display] of the errors of a tail. *)
Definition tail_message (e : BgError.t) : string :=
  match e with BgError.NotFound id => "process not found: " +:+ id | BgError.Invalid m => "invalid request: " +:+ m | _ => "" end.
(** A step of the task of a tail; [None] when it waits. *)
(* chisl-ai-agent/src/manager/remote/plugin/server.rs:1056-1171 bg_tail_stream *)
Definition tail_step (k : nat) (t : Tail.t) (b : Bg) : option (Bg * list TailEvent) :=
  let over := tail_at k (Tail.move Tail.Over t) b in
  match Tail.at_ t with
  | Tail.Opening =>
      match subscribe_output (Tail.agent t) (Tail.process_id t) b with
      | Err e => Some (over, [TailError (tail_message e)])
      | Ok _ => Some (tail_at k (Tail.mk (Tail.agent t) (Tail.process_id t) (Tail.from_offset t) Receiver.new Tail.Subscribed) b, [])
      end
  | Tail.Subscribed =>
      match read (Tail.agent t) (Tail.process_id t) (Tail.from_offset t) b with
      | Err e => Some (over, [TailError (tail_message e)])
      | Ok (output, _, info) =>
          let replay := if String.eqb output "" then [] else [Chunk output (Tail.from_offset t)] in
          if bool_decide (BgProcessInfo.status info ≠ BgStatus.Running)
          then Some (over, replay ++ [Done_ (BgProcessInfo.exit_code info) (BgProcessInfo.status info)])
          else Some (tail_at k (Tail.move (Tail.Live (Tail.from_offset t)) t) b, replay)
      end
  | Tail.Live offset =>
      match Tail.rx t with
      | Receiver.mk pending (S _) =>
          Some (tail_at k (Tail.mk (Tail.agent t) (Tail.process_id t) (Tail.from_offset t) (Receiver.mk pending 0) (Tail.Live offset)) b,
                [TailError "tail lagged; re-read with offset"])
      | Receiver.mk (chunk :: pending) O =>
          let offset := RingBuffer.saturating_add offset (Z.of_nat (length (bytes chunk))) in
          Some (tail_at k (Tail.mk (Tail.agent t) (Tail.process_id t) (Tail.from_offset t) (Receiver.mk pending 0) (Tail.Live offset)) b, [Chunk chunk offset])
      | Receiver.mk [] O =>
          if default false (BgProcess.output_tx <$> process (Tail.agent t) (Tail.process_id t) b) then None
          else match read (Tail.agent t) (Tail.process_id t) offset b with
               | Ok (_, _, info) => Some (over, [Done_ (BgProcessInfo.exit_code info) (BgProcessInfo.status info)])
               | Err _ => Some (over, [])
               end
      end
  | Tail.Over => None
  end.

(* ------------------------------------------------------------------ *)
(** ** Runs *)

Inductive Act :=
| Request (k : nat) (agent_id : string) (req : StartRequest.t) (d : Dirs) (default_cwd : string)
| Answer (k : nat) (answer : ShellApproval.t) (now : Z) | Count (k : nat)
| Spawn (k : nat) (id : string) (now instant : Z) (spawned : result unit string) | Insert_ (k : nat) (now : Z)
| Drive (id : string) (instant : Z) | Finish (id : string) (now : Z) | Prune (id : string)
| Reads (id : string) (n len : nat) | Does (id : string) (a : ChildAct)
| Stop (agent_id process_id session_id : string) (now : Z) | KillSignal (agent_id process_id : string)
| TailOpen (k : nat) (agent_id process_id : string) (from_offset : Z) | TailStep (k : nat)
| Registry (a : PluginAct).

(** [Uuid::new_v4] gives an id that no process, monitor or call has. *)
Definition fresh_id (id : string) (b : Bg) : bool :=
  bool_decide (monitors b !! id = None) && bool_decide (map_Forall (λ _ (t : AgentTable), t !! id = None) (agents b)) &&
  forallb (λ kc, match Call.at_ (snd kc) with Call.Spawned i _ _ => negb (String.eqb i id) | _ => true end) (map_to_list (calls b)).
(** [None]: the act cannot happen now.  The events are those of a tail. *)
(* chisl-ai-agent/src/manager/remote/plugin/server.rs:962-1048 handle_bg *)
Definition act `{HashIter BgProcess.t} (a : Act) (b : Bg) : option (Bg * list (nat * TailEvent)) :=
  let quiet := λ b : option Bg, (λ b, (b, [])) <$> b in
  match a with
  | Request k agent_id req d default_cwd => quiet (match calls b !! k with None => Some (request k agent_id req d default_cwd b) | Some _ => None end)
  | Answer k answer now => quiet (c ← calls b !! k; match Call.at_ c with Call.Approving => Some (approved k answer now c b) | _ => None end)
  | Count k => quiet (c ← calls b !! k; match Call.at_ c with Call.Allowed => Some (count k c b) | _ => None end)
  | Spawn k id now instant spawned =>
      quiet (c ← calls b !! k;
        match Call.at_ c with Call.Counted => if fresh_id id b then Some (spawn k id now instant spawned c b) else None | _ => None end)
  | Insert_ k now => quiet (c ← calls b !! k;
      match Call.at_ c with Call.Spawned id started timeout_secs => Some (insert_process k id started timeout_secs now c b) | _ => None end)
  | Drive id instant => quiet (m ← monitors b !! id; drive id instant m b)
  | Finish id now => quiet (m ← monitors b !! id; match Monitor.at_ m with Monitor.Finishing outcome => Some (finish id outcome now m b) | _ => None end)
  | Prune id => quiet (m ← monitors b !! id;
      match Monitor.at_ m with Monitor.Pruning => Some (with_monitors (delete id) (prune_terminal (Monitor.agent m) b)) | _ => None end)
  | Reads id n len => quiet (m ← monitors b !! id; m' ← reader_step n len m; Some (with_monitors <[id := m']> b))
  | Does id a => quiet (m ← monitors b !! id; c ← child_step a (Monitor.child m);
      Some (with_monitors <[id := Monitor.mk (Monitor.agent m) c (Monitor.out m) (Monitor.readers m) (Monitor.deadline m) (Monitor.at_ m)]> b))
  | Stop agent_id process_id session_id now =>
      quiet (Some (stop_signal agent_id process_id (with_registry (record_audit agent_id
        (PluginAuditRecord.mk "bg.stop" (Some "bg") (Some session_id) None (Z.max 0 now) ("process " +:+ process_id))) b)))
  | KillSignal agent_id process_id => quiet (Some (stop_signal agent_id process_id b))
  | TailOpen k agent_id process_id from =>
      quiet (match tails b !! k, process agent_id process_id b with
             | None, Some _ => Some (tail_at k (Tail.mk agent_id process_id from Receiver.new Tail.Opening) b)
             | _, _ => None
             end)
  | TailStep k => t ← tails b !! k; r ← tail_step k t b; Some (fst r, map (pair k) (snd r))
  | Registry a => match plugin_act a (mk_plugin (registry b) ∅) with Some (p, _) => Some (with_registry (λ _, PluginRegistry.registry p) b, []) | None => None end
  end.
Fixpoint run `{HashIter BgProcess.t} (acts : list Act) (b : Bg) : option (Bg * list (nat * TailEvent)) :=
  match acts with
  | [] => Some (b, [])
  | a :: acts => match act a b with
                 | Some (b, o) => match run acts b with Some (b, o') => Some (b, o ++ o') | None => None end
                 | None => None
                 end
  end.

(* ------------------------------------------------------------------ *)
(** ** The ring buffer *)

Module RingFacts.
Import RingBuffer.
(** The ring after all of [l]. *)
Record holds (l : list Z) (r : t) : Prop := mk_holds {
  holds_inner : inner r = last_n (Z.to_nat (cap r)) l;
  holds_base : base_offset r = Z.of_nat (length l) - Z.of_nat (length (inner r));
  holds_truncated : truncated r = (cap r <? Z.of_nat (length l)) }.
Lemma push_byte_holds l r b : 0 < cap r → Z.of_nat (length l) < u64_max → holds l r → holds (l ++ [b]) (push_byte r b) ∧ cap (push_byte r b) = cap r.
Proof.
  intros Hcap Hlen [Hi Hb Ht]. pose proof (length_last_n (Z.to_nat (cap r)) l) as Hli. rewrite <- Hi in Hli. unfold push_byte, saturating_add.
  assert (last_n (Z.to_nat (cap r)) (l ++ [b]) = (if Nat.eqb (length (inner r)) (Z.to_nat (cap r)) then tail (inner r) else inner r) ++ [b]) as Hsnoc.
  { rewrite Hi. apply last_n_snoc. lia. }
  destruct (Z.eqb_spec (Z.of_nat (length (inner r))) (cap r)) as [Hf|Hf]; (split; [constructor|done]); cbn [inner cap base_offset truncated].
  - rewrite Hsnoc. destruct (Nat.eqb_spec (length (inner r)) (Z.to_nat (cap r))); [done|lia].
  - rewrite !length_app. cbn. assert (length (tail (inner r)) = length (inner r) - 1)%nat as -> by (destruct (inner r); cbn; lia). lia.
  - symmetry. apply Z.ltb_lt. rewrite length_app. cbn. lia.
  - rewrite Hsnoc. destruct (Nat.eqb_spec (length (inner r)) (Z.to_nat (cap r))); [lia|done].
  - rewrite !length_app. cbn. lia.
  - rewrite Ht, length_app. cbn. destruct (Z.ltb_spec (cap r) (Z.of_nat (length l))), (Z.ltb_spec (cap r) (Z.of_nat (length l + 1))); lia.
Qed.
Lemma append_holds l r chunk : 0 < cap r → Z.of_nat (length l + length (bytes chunk)) ≤ u64_max → holds l r →
  holds (l ++ bytes chunk) (append chunk r) ∧ cap (append chunk r) = cap r ∧
  total_written (append chunk r) = saturating_add (total_written r) (Z.of_nat (length (bytes chunk))).
Proof.
  intros Hcap. assert (∀ k l r0, holds l r0 → cap r0 = cap r → Z.of_nat (length l + length k) ≤ u64_max →
    holds (l ++ k) (foldl push_byte r0 k) ∧ cap (foldl push_byte r0 k) = cap r ∧ total_written (foldl push_byte r0 k) = total_written r0) as Hfold.
  { induction k as [|b k IH]; intros l0 r0 Hh Hc Hlen; cbn; [by rewrite app_nil_r|]. cbn [length] in Hlen.
    destruct (push_byte_holds l0 r0 b) as [Hh1 Hc1]; [lia|lia|done|].
    destruct (IH (l0 ++ [b]) (push_byte r0 b) Hh1) as (H1 & H2 & H3); [lia|rewrite length_app; cbn; lia|].
    rewrite <- app_assoc in H1. rewrite H3. split; [done|]. split; [done|]. unfold push_byte. by case_match. }
  intros Hlen [Hi Hb Ht]. unfold append. apply Hfold; done.
Qed.
(** A read gives what is left of the output from the offset on, and the offset of its end. *)
Lemma read_holds l r start : 0 < cap r → holds l r → 0 ≤ start →
  read_from start r = (drop (Z.to_nat (Z.max start (base_offset r))) l, Z.of_nat (length l)).
Proof.
  intros Hcap [Hi Hb Ht] Hs. unfold read_from. rewrite Hb. assert (length (inner r) ≤ length l)%nat as Hle by (rewrite Hi, length_last_n; lia).
  replace (Z.of_nat (length l) - Z.of_nat (length (inner r)) + Z.of_nat (length (inner r))) with (Z.of_nat (length l)) by lia.
  destruct (Z.leb_spec (Z.of_nat (length l)) start) as [H|H]; f_equal.
  - symmetry. apply drop_ge. lia.
  - assert (inner r = drop (length l - length (inner r)) l) as Hd. { rewrite Hi at 1. unfold last_n. f_equal. rewrite Hi, length_last_n. lia. }
    assert (∀ n, drop n (inner r) = drop (n + (length l - length (inner r))) l) as -> by (intros n; rewrite Hd at 1; rewrite drop_drop; f_equal; lia).
    f_equal. lia.
Qed.
End RingFacts.


(* ------------------------------------------------------------------ *)
(** ** What an act does to a process *)

Section Facts.
Context `{HashIter BgProcess.t}.
Implicit Types (b : Bg).

Definition info_of (ag id : string) b : option BgProcessInfo.t := BgProcess.info_ <$> process ag id b.
Lemma process_agents ag id b b' : agents b' = agents b → process ag id b' = process ag id b.
Proof. unfold process. by intros ->. Qed.
Lemma process_with ag id ag' id' f b :
  process ag id (with_process ag' id' f b) = if String.eqb ag' ag && String.eqb id' id then f <$> process ag id b else process ag id b.
Proof.
  unfold process, with_process. cbn. destruct (String.eqb_spec ag' ag) as [->|Hne]; [|by rewrite lookup_alter_ne].
  rewrite lookup_alter, decide_True by done. destruct (agents b !! ag) as [t|]; cbn; [|by case_match].
  destruct (String.eqb_spec id' id) as [->|Hne]; [by rewrite lookup_alter, decide_True|by rewrite lookup_alter_ne].
Qed.
Lemma info_with ag id ag' id' f b : (∀ p, BgProcess.info_ (f p) = BgProcess.info_ p) → info_of ag id (with_process ag' id' f b) = info_of ag id b.
Proof. intros Hf. unfold info_of. rewrite process_with. case_match; [|done]. destruct (process ag id b); cbn; [by rewrite Hf|done]. Qed.
Lemma info_append ag id ag' id' b chunk : info_of ag id (append_chunk ag' id' b chunk) = info_of ag id b.
Proof.
  unfold append_chunk. destruct (process ag' id' b) as [p|]; [|done].
  assert (∀ b', info_of ag id (with_process ag' id' (λ p, BgProcess.mk (BgProcess.info_ p) (RingBuffer.append chunk (BgProcess.ring p))
    (BgProcess.output_tx p) (BgProcess.stop p) (BgProcess.timeout_secs p)) b') = info_of ag id b') as Hw by (intros; by apply info_with).
  destruct (BgProcess.output_tx p); [|apply Hw]. rewrite <- (Hw b). done.
Qed.
Lemma info_appends ag id ag' id' chunks b : info_of ag id (foldl (append_chunk ag' id') b chunks) = info_of ag id b.
Proof. revert b. induction chunks as [|c chunks IH]; intros b; [done|]. cbn. by rewrite IH, info_append. Qed.
Lemma append_rest ag id b chunk : monitors (append_chunk ag id b chunk) = monitors b ∧ calls (append_chunk ag id b chunk) = calls b.
Proof. unfold append_chunk. by repeat case_match. Qed.
Lemma appends_rest ag id chunks b : monitors (foldl (append_chunk ag id) b chunks) = monitors b ∧ calls (foldl (append_chunk ag id) b chunks) = calls b.
Proof.
  revert b. induction chunks as [|c chunks IH]; intros b; [done|]. cbn. destruct (IH (append_chunk ag id b c)) as [-> ->]. apply append_rest.
Qed.

Definition terminal (p : BgProcess.t) : Prop := BgProcess.running p = false.
Lemma lookup_deletes {V} id (l : list (string * Z)) (t : gmap string V) :
  foldr (λ kv, delete (fst kv)) t l !! id = if bool_decide (id ∈ l.*1) then None else t !! id.
Proof.
  induction l as [|[i z] l IH]; cbn; [by rewrite bool_decide_eq_false_2 by apply not_elem_of_nil|]. destruct (decide (i = id)) as [->|Hne].
  - rewrite lookup_delete_eq, bool_decide_eq_true_2; [done|by left].
  - rewrite lookup_delete_ne, IH by done. rewrite (bool_decide_ext (id ∈ i :: l.*1) (id ∈ l.*1)); [done|]. rewrite elem_of_cons. naive_solver.
Qed.
(** Pruning removes nothing that runs, and leaves at most sixteen records that do not. *)
Lemma prune_spec t id : prune_table t !! id = t !! id ∨ (prune_table t !! id = None ∧ ∃ p, t !! id = Some p ∧ terminal p).
Proof.
  unfold prune_table. set (l := map _ _). case_match; [by left|]. rewrite lookup_deletes. case_bool_decide as Hin; [|by left]. right. split; [done|].
  apply list_elem_of_fmap in Hin as ([i z] & -> & Hin). apply elem_of_take in Hin as (n & Hn & _). apply list_elem_of_lookup_2 in Hn.
  apply elem_of_sort_by in Hn. subst l. apply elem_of_map in Hn as ([i' p] & [= -> ->] & Hp). apply elem_of_filter_list in Hp as [Hp Hr].
  apply elem_of_hm_iter in Hp. exists p. split; [done|]. unfold terminal. cbn in Hr. by apply negb_true_iff.
Qed.

(** The record of a process: the act leaves it alone, puts it in, ends it or prunes it. *)
Inductive process_step (ag id : string) (a : Act) b b' : Prop :=
| Process_same : info_of ag id b' = info_of ag id b → process_step ag id a b b'
| Process_inserted k now c started timeout_secs p : a = Insert_ k now → calls b !! k = Some c → Call.at_ c = Call.Spawned id started timeout_secs →
    Call.agent c = ag → process ag id b' = Some p → BgProcess.running p = true →
    BgProcess.info_ p = BgProcessInfo.mk id (StartRequest.name (Call.req c)) (StartRequest.command (Call.req c)) (Call.cwd c)
      (StartRequest.session_id (Call.req c)) BgStatus.Running None started None 0 false → process_step ag id a b b'
| Process_ended now m outcome p : a = Finish id now → monitors b !! id = Some m → Monitor.at_ m = Monitor.Finishing outcome → Monitor.agent m = ag →
    process ag id b = Some p → process ag id b' = Some (ended_process outcome now p) → process_step ag id a b b'
| Process_pruned k p : a = Prune k → process ag id b = Some p → terminal p → process ag id b' = None → process_step ag id a b b'.

Lemma process_insert ag id ag' id' p b :
  process ag id (with_agent_table ag' <[id' := p]> b) = if String.eqb ag' ag && String.eqb id' id then Some p else process ag id b.
Proof.
  unfold process, with_agent_table. cbn. destruct (String.eqb_spec ag' ag) as [->|Hne]; [|by rewrite lookup_insert_ne].
  rewrite lookup_insert_eq. cbn. destruct (String.eqb_spec id' id) as [->|Hne]; [by rewrite lookup_insert_eq|]. rewrite lookup_insert_ne by done.
  by destruct (agents b !! ag).
Qed.
Ltac same := apply Process_same; reflexivity.
Lemma process_act ag id a b b' o : act a b = Some (b', o) → process_step ag id a b b'.
Proof.
  intros Ha. destruct a; cbn [act] in Ha.
  - destruct (calls b !! k); simplify_eq/=. unfold request. repeat case_match; same.
  - destruct (calls b !! k) as [c|]; simplify_eq/=. destruct (Call.at_ c); simplify_eq/=. unfold approved. case_match; same.
  - destruct (calls b !! k) as [c|]; simplify_eq/=. destruct (Call.at_ c); simplify_eq/=. unfold count. case_match; same.
  - destruct (calls b !! k) as [c|]; simplify_eq/=. destruct (Call.at_ c); simplify_eq/=. destruct (fresh_id _ b); simplify_eq/=. unfold spawn. case_match; same.
  - destruct (calls b !! k) as [c|] eqn:Hk; simplify_eq/=. destruct (Call.at_ c) eqn:Hat; simplify_eq/=.
    destruct (String.eqb (Call.agent c) ag && String.eqb id0 id) eqn:Hb.
    + apply andb_true_iff in Hb as [Hag%String.eqb_eq Hid%String.eqb_eq]. subst. eapply Process_inserted; [done|exact Hk|exact Hat|done| | |].
      * unfold insert_process, process. cbn. rewrite lookup_insert_eq. cbn. apply lookup_insert_eq.
      * done.
      * done.
    + apply Process_same. unfold info_of. f_equal.
      assert (process ag id (with_agent_table (Call.agent c) <[id0 := BgProcess.mk (BgProcessInfo.mk id0 (StartRequest.name (Call.req c)) (StartRequest.command (Call.req c)) (Call.cwd c)
        (StartRequest.session_id (Call.req c)) BgStatus.Running None now0 None 0 false) (RingBuffer.new BG_RING_CAP_BYTES) true false timeout_secs]> b) = process ag id b) as <-; [|done].
      by rewrite process_insert, Hb.
  - destruct (monitors b !! id0) as [m|]; simplify_eq/=. apply fmap_Some in Ha as (b1 & Ha & [= -> ->]). apply Process_same.
    unfold drive in Ha. repeat (case_match; simplify_eq/=; try done);
      first [exact (info_append ag id _ id0 b _) | exact (info_appends ag id _ id0 _ b)].
  - destruct (monitors b !! id0) as [m|] eqn:Hm; simplify_eq/=. destruct (Monitor.at_ m) eqn:Hat; simplify_eq/=.
    assert (process ag id (finish id0 outcome now m b) =
      if String.eqb (Monitor.agent m) ag && String.eqb id0 id then ended_process outcome now <$> process ag id b else process ag id b) as Hp
      by exact (process_with ag id (Monitor.agent m) id0 (ended_process outcome now) b).
    destruct (_ && _) eqn:Hb; [|apply Process_same; unfold info_of; by rewrite Hp].
    apply andb_true_iff in Hb as [Hag%String.eqb_eq Hid%String.eqb_eq]. subst. destruct (process (Monitor.agent m) id b) as [p|] eqn:Hb.
    + by eapply Process_ended.
    + apply Process_same. unfold info_of. by rewrite Hp, Hb.
  - destruct (monitors b !! id0) as [m|] eqn:Hm; simplify_eq/=. destruct (Monitor.at_ m) eqn:Hat; simplify_eq/=.
    unfold process, info_of. destruct (decide (Monitor.agent m = ag)) as [<-|Hne].
    + destruct (prune_spec (default ∅ (agents b !! Monitor.agent m)) id) as [Heq|[Hnone (p & Hp & Ht)]].
      * apply Process_same. unfold info_of, process. cbn. rewrite lookup_insert_eq. cbn. rewrite Heq. by destruct (agents b !! Monitor.agent m).
      * eapply Process_pruned; [done| |exact Ht|]; unfold process; cbn; [destruct (agents b !! Monitor.agent m); [done|cbn in Hp; by rewrite lookup_empty in Hp]|].
        by rewrite lookup_insert_eq.
    + apply Process_same. unfold info_of, process. cbn. by rewrite lookup_insert_ne.
  - destruct (monitors b !! id0) as [m|]; simplify_eq/=. destruct (reader_step _ _ m); simplify_eq/=. same.
  - destruct (monitors b !! id0) as [m|]; simplify_eq/=. destruct (child_step _ _); simplify_eq/=. same.
  - simplify_eq/=. apply Process_same. unfold stop_signal. rewrite info_with; [|done]. done.
  - simplify_eq/=. apply Process_same. unfold stop_signal. rewrite info_with; [|done]. done.
  - repeat case_match; simplify_eq/=. same.
  - destruct (tails b !! k) as [t|]; simplify_eq/=. destruct (tail_step k t b) as [[b1 evs]|] eqn:Ht; simplify_eq/=.
    unfold tail_step in Ht. repeat (case_match; simplify_eq/=; try done); same.
  - destruct (plugin_act _ _) as [[p e]|]; simplify_eq/=. same.
Qed.

(** A call of [start]. *)
Inductive moves (k : nat) (a : Act) b : Call.phase → Call.phase → Prop :=
| Moves_allowed now : a = Answer k ShellApproval.Allow now → moves k a b Call.Approving Call.Allowed
| Moves_counted c : a = Count k → calls b !! k = Some c → (running_count (Call.agent c) b < MAX_BG_PROCESSES_PER_AGENT)%nat → moves k a b Call.Allowed Call.Counted
| Moves_spawned id now instant timeout_secs : a = Spawn k id now instant (Ok tt) → fresh_id id b = true →
    moves k a b Call.Counted (Call.Spawned id (Z.max 0 now) timeout_secs)
| Moves_over p r : (∀ now, a ≠ Insert_ k now) → moves k a b p (Call.Done (Err r))
| Moves_inserted id started timeout_secs now i : a = Insert_ k now → moves k a b (Call.Spawned id started timeout_secs) (Call.Done (Ok i)).
Inductive call_step (k : nat) (a : Act) b b' : Prop :=
| Call_same : calls b' !! k = calls b !! k → (∀ now, a = Insert_ k now → False) → call_step k a b b'
| Call_requested ag req d dc p : a = Request k ag req d dc → calls b !! k = None →
    calls b' !! k = Some (Call.mk ag req (resolve_cwd d (StartRequest.cwd req) dc) p) → p = Call.Approving ∨ (∃ e, p = Call.Done (Err e)) → call_step k a b b'
| Call_moved c p : calls b !! k = Some c → moves k a b (Call.at_ c) p →
    calls b' !! k = Some (Call.mk (Call.agent c) (Call.req c) (Call.cwd c) p) → call_step k a b b'.
Lemma calls_at k j p c b : calls (call_at j p c b) !! k = if Nat.eqb j k then Some (Call.mk (Call.agent c) (Call.req c) (Call.cwd c) p) else calls b !! k.
Proof. unfold call_at. cbn. destruct (Nat.eqb_spec j k) as [->|Hne]; [apply lookup_insert_eq|by apply lookup_insert_ne]. Qed.
Lemma call_act k a b b' o : act a b = Some (b', o) → call_step k a b b'.
Proof.
  assert (∀ j c p, calls b !! j = Some c → calls b' = calls (call_at j p c b) → moves j a b (Call.at_ c) p → (∀ now, a = Insert_ k now → j = k) → call_step k a b b') as Hmove.
  { intros j c p Hj Hc Hm Hi. destruct (decide (j = k)) as [->|Hne].
    - eapply Call_moved; [exact Hj|exact Hm|]. by rewrite Hc, calls_at, Nat.eqb_refl.
    - apply Call_same; [rewrite Hc, calls_at; by rewrite (proj2 (Nat.eqb_neq _ _) Hne)|]. intros now E. by apply Hne, (Hi now). }
  intros Ha. destruct a; cbn [act] in Ha.
  - destruct (calls b !! k0) eqn:Hk; simplify_eq/=. destruct (decide (k0 = k)) as [->|Hne].
    + unfold request in *. repeat case_match; (eapply Call_requested; [done|done|rewrite calls_at, Nat.eqb_refl; done|eauto]).
    + apply Call_same; [|done]. unfold request. repeat case_match; rewrite calls_at; by rewrite (proj2 (Nat.eqb_neq _ _) Hne).
  - destruct (calls b !! k0) as [c|] eqn:Hk; simplify_eq/=. destruct (Call.at_ c) eqn:Hat; simplify_eq/=. unfold approved in *.
    destruct answer; (eapply (Hmove k0 c); [done|reflexivity|rewrite Hat|done]); [by econstructor|by constructor..].
  - destruct (calls b !! k0) as [c|] eqn:Hk; simplify_eq/=. destruct (Call.at_ c) eqn:Hat; simplify_eq/=. unfold count in *.
    destruct (Nat.leb_spec MAX_BG_PROCESSES_PER_AGENT (running_count (Call.agent c) b)); (eapply (Hmove k0 c); [done|reflexivity|rewrite Hat|done]);
      [by constructor|by econstructor].
  - destruct (calls b !! k0) as [c|] eqn:Hk; simplify_eq/=. destruct (Call.at_ c) eqn:Hat; simplify_eq/=. destruct (fresh_id id b) eqn:Hf; simplify_eq/=.
    unfold spawn in *. destruct spawned as [[]|e]; (eapply (Hmove k0 c); [done|reflexivity|rewrite Hat|done]); [by econstructor|by constructor].
  - destruct (calls b !! k0) as [c|] eqn:Hk; simplify_eq/=. destruct (Call.at_ c) eqn:Hat; simplify_eq/=.
    eapply (Hmove k0 c); [done|reflexivity|rewrite Hat; by econstructor|]. intros now' [= -> _]. done.
  - destruct (monitors b !! id) as [m|]; simplify_eq/=. apply fmap_Some in Ha as (b1 & Ha & [= -> ->]). apply Call_same; [|done].
    unfold drive in Ha. repeat (case_match; simplify_eq/=; try done);
      first [exact (f_equal (lookup k) (proj2 (append_rest _ id b _))) | exact (f_equal (lookup k) (proj2 (appends_rest _ id _ b)))].
  - destruct (monitors b !! id) as [m|]; simplify_eq/=. destruct (Monitor.at_ m); simplify_eq/=. by apply Call_same.
  - destruct (monitors b !! id) as [m|]; simplify_eq/=. destruct (Monitor.at_ m); simplify_eq/=. by apply Call_same.
  - destruct (monitors b !! id) as [m|]; simplify_eq/=. destruct (reader_step _ _ m); simplify_eq/=. by apply Call_same.
  - destruct (monitors b !! id) as [m|]; simplify_eq/=. destruct (child_step _ _); simplify_eq/=. by apply Call_same.
  - simplify_eq/=. by apply Call_same.
  - simplify_eq/=. by apply Call_same.
  - repeat case_match; simplify_eq/=. by apply Call_same.
  - destruct (tails b !! k0) as [t|]; simplify_eq/=. destruct (tail_step k0 t b) as [[b1 evs]|] eqn:Ht; simplify_eq/=.
    apply Call_same; [|done]. unfold tail_step in Ht. by repeat (case_match; simplify_eq/=; try done).
  - destruct (plugin_act _ _) as [[p e]|]; simplify_eq/=. by apply Call_same.
Qed.

(** A monitor keeps its agent, and one that has recorded its outcome is done. *)
Inductive monitor_step (id : string) (a : Act) b b' : Prop :=
| Monitor_same : monitors b' !! id = monitors b !! id → (∀ now, a = Finish id now → False) → monitor_step id a b b'
| Monitor_spawned k now instant c m : a = Spawn k id now instant (Ok tt) → fresh_id id b = true → calls b !! k = Some c →
    monitors b' !! id = Some m → Monitor.agent m = Call.agent c → monitor_step id a b b'
| Monitor_changed m m' : monitors b !! id = Some m → monitors b' !! id = Some m' → Monitor.agent m' = Monitor.agent m →
    (Monitor.at_ m = Monitor.Pruning → Monitor.at_ m' = Monitor.Pruning) → (∀ now, a = Finish id now → Monitor.at_ m' = Monitor.Pruning) →
    monitor_step id a b b'
| Monitor_gone : monitors b' !! id = None → monitor_step id a b b'.
Lemma monitors_at id j p m b : monitors (monitor_at j p m b) !! id =
  if String.eqb j id then Some (Monitor.mk (Monitor.agent m) (Monitor.child m) (Monitor.out m) (Monitor.readers m) (Monitor.deadline m) p) else monitors b !! id.
Proof. unfold monitor_at. cbn. destruct (String.eqb_spec j id) as [->|Hne]; [apply lookup_insert_eq|by apply lookup_insert_ne]. Qed.
Lemma monitor_act id a b b' o : act a b = Some (b', o) → monitor_step id a b b'.
Proof.
  assert (∀ j m m', monitors b !! j = Some m → monitors b' = <[j := m']> (monitors b) → Monitor.agent m' = Monitor.agent m →
    (Monitor.at_ m = Monitor.Pruning → Monitor.at_ m' = Monitor.Pruning) → (∀ i now, a = Finish i now → i = j ∧ Monitor.at_ m' = Monitor.Pruning) → monitor_step id a b b') as Hchange.
  { intros j m m' Hj Hm' Hag Hpr Hf. destruct (decide (j = id)) as [->|Hne].
    - eapply Monitor_changed; [exact Hj|rewrite Hm'; apply lookup_insert_eq|done|done|]. intros now E. by apply (Hf id now).
    - apply Monitor_same; [rewrite Hm'; by apply lookup_insert_ne|]. intros now E. apply Hne. symmetry. by apply (Hf id now). }
  intros Ha. destruct a; cbn [act] in Ha.
  - destruct (calls b !! k); simplify_eq/=. apply Monitor_same; [|done]. unfold request. by repeat case_match.
  - destruct (calls b !! k) as [c|]; simplify_eq/=. destruct (Call.at_ c); simplify_eq/=. apply Monitor_same; [|done]. unfold approved. by case_match.
  - destruct (calls b !! k) as [c|]; simplify_eq/=. destruct (Call.at_ c); simplify_eq/=. apply Monitor_same; [|done]. unfold count. by case_match.
  - destruct (calls b !! k) as [c|] eqn:Hk; simplify_eq/=. destruct (Call.at_ c); simplify_eq/=. destruct (fresh_id id0 b) eqn:Hf; simplify_eq/=. unfold spawn.
    destruct spawned as [[]|e]; [|by apply Monitor_same]. destruct (decide (id0 = id)) as [->|Hne].
    + eapply Monitor_spawned; [done|done|exact Hk|cbn; apply lookup_insert_eq|done].
    + apply Monitor_same; [|done]. cbn. by apply lookup_insert_ne.
  - destruct (calls b !! k) as [c|]; simplify_eq/=. destruct (Call.at_ c); simplify_eq/=. by apply Monitor_same.
  - destruct (monitors b !! id0) as [m|] eqn:Hm; simplify_eq/=. apply fmap_Some in Ha as (b1 & Ha & [= -> ->]).
    assert (Monitor.at_ m ≠ Monitor.Pruning) as Hnp by (unfold drive in Ha; by destruct (Monitor.at_ m), (Child.ended (Monitor.child m)) as [[]|]).
    unfold drive in Ha. repeat (case_match; simplify_eq/=; try done);
      (eapply (Hchange id0 m); [exact Hm
        |cbn; rewrite ?(proj1 (append_rest _ _ _ _)), ?(proj1 (appends_rest _ _ _ _)); reflexivity|reflexivity|congruence|done]).
  - destruct (monitors b !! id0) as [m|] eqn:Hm; simplify_eq/=. destruct (Monitor.at_ m) eqn:Hat; simplify_eq/=.
    eapply (Hchange id0 m); [exact Hm|reflexivity|done|done|]. by intros i t [= -> ->].
  - destruct (monitors b !! id0) as [m|] eqn:Hm; simplify_eq/=. destruct (Monitor.at_ m) eqn:Hat; simplify_eq/=.
    destruct (decide (id0 = id)) as [->|Hne]; [apply Monitor_gone; cbn; apply lookup_delete_eq|]. apply Monitor_same; [|done]. cbn. by apply lookup_delete_ne.
  - destruct (monitors b !! id0) as [m|] eqn:Hm; simplify_eq/=. destruct (reader_step n len m) as [m'|] eqn:Hr; simplify_eq/=.
    eapply (Hchange id0 m m'); [exact Hm|reflexivity| | |done]; unfold reader_step in Hr; repeat (case_match; simplify_eq/=; try done).
  - destruct (monitors b !! id0) as [m|] eqn:Hm; simplify_eq/=. destruct (child_step a _) as [c|]; simplify_eq/=.
    eapply (Hchange id0 m); [exact Hm|reflexivity|done|done|done].
  - simplify_eq/=. by apply Monitor_same.
  - simplify_eq/=. by apply Monitor_same.
  - repeat case_match; simplify_eq/=. by apply Monitor_same.
  - destruct (tails b !! k) as [t|]; simplify_eq/=. destruct (tail_step k t b) as [[b1 evs]|] eqn:Ht; simplify_eq/=.
    apply Monitor_same; [|done]. unfold tail_step in Ht. by repeat (case_match; simplify_eq/=; try done).
  - destruct (plugin_act _ _) as [[p e]|]; simplify_eq/=. by apply Monitor_same.
Qed.

(* ------------------------------------------------------------------ *)
(** ** Invariants *)

Lemma fresh_id_spec id b : fresh_id id b = true →
  monitors b !! id = None ∧ (∀ ag, process ag id b = None) ∧ ∀ k c started timeout_secs, calls b !! k = Some c → Call.at_ c ≠ Call.Spawned id started timeout_secs.
Proof.
  unfold fresh_id. rewrite !andb_true_iff, !bool_decide_eq_true, forallb_forall. intros [[Hm Hp] Hc]. split; [done|]. split.
  - intros ag. unfold process. destruct (agents b !! ag) as [t|] eqn:Ht; [|done]. by apply (Hp ag t).
  - intros k c st ts Hk Hat. specialize (Hc (k, c)). rewrite <- list_elem_of_In, elem_of_map_to_list in Hc. specialize (Hc Hk). cbn in Hc. rewrite Hat in Hc.
    by rewrite String.eqb_refl in Hc.
Qed.

Definition spawned_as (k : nat) (id : string) b : Prop := ∃ c started timeout_secs, calls b !! k = Some c ∧ Call.at_ c = Call.Spawned id started timeout_secs.
Record wf b : Prop := mk_wf {
  wf_new : ∀ k id, spawned_as k id b → ∀ ag, process ag id b = None;
  wf_unique : ∀ k k' id, spawned_as k id b → spawned_as k' id b → k = k';
  wf_call_agent : ∀ k c id st ts m, calls b !! k = Some c → Call.at_ c = Call.Spawned id st ts → monitors b !! id = Some m → Monitor.agent m = Call.agent c;
  wf_agent : ∀ ag id p m, process ag id b = Some p → monitors b !! id = Some m → Monitor.agent m = ag;
  wf_over : ∀ ag id p m, process ag id b = Some p → terminal p → monitors b !! id = Some m → Monitor.at_ m = Monitor.Pruning }.

Lemma info_running ag id b b' p' : info_of ag id b' = info_of ag id b → process ag id b' = Some p' →
  ∃ p, process ag id b = Some p ∧ BgProcess.info_ p = BgProcess.info_ p'.
Proof. unfold info_of. intros H1 H2. rewrite H2 in H1. destruct (process ag id b) as [p|]; [|done]. cbn in H1. exists p. split; [done|congruence]. Qed.
(** A call that has spawned [id] had before, or has just, with a new id. *)
Lemma spawned_before k id a b b' o : act a b = Some (b', o) → spawned_as k id b' →
  (spawned_as k id b ∧ ∀ now, a ≠ Insert_ k now) ∨ (fresh_id id b = true ∧ ∃ now instant, a = Spawn k id now instant (Ok tt)).
Proof.
  intros Ha (c & st & ts & Hk & Hat). destruct (call_act k a b b' o Ha) as [E Hi|ag req d dc p _ _ E Hp|c0 p E0 Hm E].
  - left. split; [exists c, st, ts; by rewrite <- E|]. intros now ->. by apply (Hi now).
  - rewrite E in Hk. simplify_eq/=. destruct Hp as [?|[??]]; congruence.
  - rewrite E in Hk. simplify_eq/=. inversion Hm; subst; try done; try congruence. right. split; [congruence|]. eauto. 
Qed.

Lemma bg_wf_act a b b' o : act a b = Some (b', o) → wf b → wf b'.
Proof.
  intros Ha [Hnew Huniq Hcag Hag Hover]. constructor.
  - intros k id Hs ag. destruct (spawned_before k id a b b' o Ha Hs) as [[Hs0 Hi]|[Hf (now & inst & ->)]].
    + pose proof (Hnew k id Hs0 ag) as Hn. destruct (process_act ag id a b b' o Ha) as [E|j now c st ts p -> Hj Hat _ _ _ _|now m out p _ _ _ _ E _|j p _ E _ _]; [|exfalso|congruence|congruence].
      * unfold info_of in E. rewrite Hn in E. by destruct (process ag id b').
      * apply (Hi now). f_equal. apply (Huniq j k id); [by exists c, st, ts|done].
    + apply fresh_id_spec in Hf as (_ & Hn & _). specialize (Hn ag).
      destruct (process_act ag id _ b b' o Ha) as [E|j now' c st ts p [=]|now' m out p _ _ _ _ E _|j p _ E _ _]; [|congruence..].
      unfold info_of in E. rewrite Hn in E. by destruct (process ag id b').
  - intros k k' id Hs Hs'. destruct (spawned_before k id a b b' o Ha Hs) as [[Hs0 _]|[Hf (now & inst & ->)]], (spawned_before k' id _ b b' o Ha Hs') as [[Hs0' _]|[Hf' (now' & inst' & E)]].
    + by apply (Huniq k k' id).
    + apply fresh_id_spec in Hf' as (_ & _ & Hc). destruct Hs0 as (c & st & ts & Hk & Hat). by destruct (Hc k c st ts).
    + apply fresh_id_spec in Hf as (_ & _ & Hc). destruct Hs0' as (c & st & ts & Hk & Hat). by destruct (Hc k' c st ts).
    + congruence.
  - intros k c id st ts m Hk Hat Hm. assert (∃ c0, calls b !! k = Some c0 ∧ Call.agent c0 = Call.agent c ∧ (spawned_as k id b' → True)) as (c0 & Hk0 & Hc0 & _).
    { destruct (call_act k a b b' o Ha) as [E _|ag req d dc p _ _ E Hp|c0 p E0 Hmv E].
      - exists c. by rewrite <- E.
      - rewrite E in Hk. simplify_eq/=. destruct Hp as [?|[??]]; congruence.
      - exists c0. rewrite E in Hk. by simplify_eq/=. }
    rewrite <- Hc0. destruct (spawned_before k id a b b' o Ha) as [[Hs0 _]|[Hf (now & inst & ->)]]; [by exists c, st, ts| |].
    + destruct Hs0 as (c1 & st1 & ts1 & Hk1 & Hat1). assert (c0 = c1) as -> by congruence.
      destruct (monitor_act id a b b' o Ha) as [E _|j now inst c2 m2 _ Hf _ _ _|m0 m1 E0 E1 Eag _ _|E]; [|exfalso| |congruence].
      * rewrite E in Hm. by apply (Hcag k c1 id st1 ts1 m).
      * apply fresh_id_spec in Hf as (_ & _ & Hc). by apply (Hc k c1 st1 ts1).
      * simplify_eq. rewrite Eag. by apply (Hcag k c1 id st1 ts1 m0).
    + destruct (monitor_act id _ b b' o Ha) as [E _|j now' inst' c2 m2 Eq _ Hj E Eag|m0 m1 E0 _ _ _ _|E]; [|simplify_eq; congruence| |congruence];
        apply fresh_id_spec in Hf as (Hn & _); congruence.
  - intros ag id p m Hp Hm. destruct (process_act ag id a b b' o Ha) as [E|k now c st ts p0 -> Hk Hat Hca _ _ _|now m0 out p0 _ Hm0 _ Hma Hp0 _|k p0 _ E _ E']; [| | |congruence].
    + destruct (info_running ag id b b' p E Hp) as (p0 & Hp0 & _).
      destruct (monitor_act id a b b' o Ha) as [Em _|j now inst c2 m2 _ Hf _ _ _|m0 m1 E0 E1 Eag _ _|Em]; [|exfalso| |congruence].
      * rewrite Em in Hm. by apply (Hag ag id p0 m).
      * apply fresh_id_spec in Hf as (_ & Hn & _). specialize (Hn ag). congruence.
      * simplify_eq. rewrite Eag. by apply (Hag ag id p0 m0).
    + destruct (monitor_act id _ b b' o Ha) as [Em _|j now' inst c2 m2 [=]|m0 m1 E0 E1 Eag _ _|Em]; [| |congruence].
      * rewrite Em in Hm. rewrite <- Hca. by apply (Hcag k c id st ts m).
      * simplify_eq. rewrite Eag. by apply (Hcag k c id st ts m0).
    + destruct (monitor_act id a b b' o Ha) as [Em _|j now' inst c2 m2 _ Hf _ _ _|m1 m2 E0 E1 Eag _ _|Em]; [|exfalso| |congruence].
      * rewrite Em in Hm. by apply (Hag ag id p0 m).
      * apply fresh_id_spec in Hf as (Hn & _). congruence.
      * simplify_eq. congruence.
  - intros ag id p m Hp Ht Hm. destruct (process_act ag id a b b' o Ha) as [E|k now c st ts p0 _ _ _ _ E Hr _|now m0 out p0 -> Hm0 _ _ _ _|k p0 _ _ _ E]; [|exfalso| |congruence].
    + destruct (info_running ag id b b' p E Hp) as (p0 & Hp0 & Hi). assert (terminal p0) as Ht0 by (unfold terminal, BgProcess.running, BgProcess.status in *; by rewrite Hi).
      destruct (monitor_act id a b b' o Ha) as [Em _|j now inst c2 m2 _ Hf _ _ _|m0 m1 E0 E1 _ Hpr _|Em]; [|exfalso| |congruence].
      * rewrite Em in Hm. by apply (Hover ag id p0 m).
      * apply fresh_id_spec in Hf as (_ & Hn & _). specialize (Hn ag). congruence.
      * simplify_eq. apply Hpr. by apply (Hover ag id p0 m0).
    + unfold terminal in Ht. congruence.
    + destruct (monitor_act id _ b b' o Ha) as [_ Hf|j now' inst c2 m2 [=]|m1 m2 E0 E1 _ _ Hfin|Em]; [by destruct (Hf now)| |congruence].
      simplify_eq. by apply (Hfin now).
Qed.

Lemma wf_new_bg : wf new_bg.
Proof.
  assert (∀ ag id, process ag id new_bg = None) as Hp by (intros ag id; unfold process; cbn; by rewrite lookup_empty).
  assert (∀ k c, calls new_bg !! k = Some c → False) as Hc by (intros k c E; cbn in E; by rewrite lookup_empty in E).
  constructor; [done| | | |]; intros.
  - by destruct H0 as (c & st & ts & E & _), (Hc _ _ E).
  - by destruct (Hc _ _ H0).
  - by rewrite Hp in H0.
  - by rewrite Hp in H0.
Qed.
Lemma bg_run_app acts1 acts2 b b' o : run (acts1 ++ acts2) b = Some (b', o) →
  ∃ b1 o1 o2, run acts1 b = Some (b1, o1) ∧ run acts2 b1 = Some (b', o2) ∧ o = o1 ++ o2.
Proof.
  revert b o. induction acts1 as [|a acts1 IH]; intros b o; cbn; [intros Hr; by exists b, [], o|].
  destruct (act a b) as [[b1 o1]|]; [|done]. destruct (run (acts1 ++ acts2) b1) as [[b2 o2]|] eqn:Hr; [|done]. intros [= <- <-].
  destruct (IH b1 o2 Hr) as (b3 & o3 & o4 & H1 & H2 & ->). rewrite H1. exists b3, (o1 ++ o3), o4. by rewrite app_assoc.
Qed.
(** What every act of a run keeps, given the acts before it. *)
Lemma bg_run_keeps (I : list Act → Bg → Prop) acts b b' o before :
  (∀ a b b' o before, act a b = Some (b', o) → wf b → I before b → I (before ++ [a]) b') →
  wf b → I before b → run acts b = Some (b', o) → wf b' ∧ I (before ++ acts) b'.
Proof.
  intros Hstep. revert b o before. induction acts as [|a acts IH]; intros b o before Hwf HI; cbn; [intros [= <- _]; by rewrite app_nil_r|].
  destruct (act a b) as [[b1 o1]|] eqn:Ha; [|done]. destruct (run acts b1) as [[b2 o2]|] eqn:Hr; [|done]. intros [= <- _].
  replace (before ++ a :: acts) with ((before ++ [a]) ++ acts) by (by rewrite <- app_assoc). apply (IH b1 o2); [by eapply bg_wf_act|by eapply Hstep|done].
Qed.

(** *** Approval *)

(** The user allowed what the request of call [k] asked for. *)
Definition allowed (k : nat) (ag : string) (req : StartRequest.t) (cwd : string) (acts : list Act) : Prop :=
  (∃ d dc, Request k ag req d dc ∈ acts ∧ cwd = resolve_cwd d (StartRequest.cwd req) dc) ∧ ∃ now, Answer k ShellApproval.Allow now ∈ acts.
Definition past_approval (p : Call.phase) : Prop :=
  match p with Call.Allowed | Call.Counted | Call.Spawned _ _ _ | Call.Done (Ok _) => True | _ => False end.
Record approved_all (before : list Act) b : Prop := mk_approved_all {
  approved_asked : ∀ k c, calls b !! k = Some c → ∃ d dc, Request k (Call.agent c) (Call.req c) d dc ∈ before ∧ Call.cwd c = resolve_cwd d (StartRequest.cwd (Call.req c)) dc;
  approved_calls : ∀ k c, calls b !! k = Some c → past_approval (Call.at_ c) → ∃ now, Answer k ShellApproval.Allow now ∈ before;
  approved_processes : ∀ ag id i, info_of ag id b = Some i → ∃ k req, allowed k ag req (BgProcessInfo.cwd i) before ∧
    BgProcessInfo.command i = StartRequest.command req ∧ BgProcessInfo.session_id i = StartRequest.session_id req }.
Lemma allowed_more k ag req cwd before a : allowed k ag req cwd before → allowed k ag req cwd (before ++ [a]).
Proof. intros [(d & dc & H1 & H2) [now H3]]. split; [exists d, dc|exists now]; set_solver. Qed.
Lemma approved_act a b b' o before : act a b = Some (b', o) → wf b → approved_all before b → approved_all (before ++ [a]) b'.
Proof.
  intros Ha _ [Hask Hcall Hproc]. constructor.
  - intros k c Hk. destruct (call_act k a b b' o Ha) as [E _|ag req d dc p -> _ E _|c0 p E0 _ E].
    + rewrite E in Hk. destruct (Hask k c Hk) as (d & dc & Hin & Hd). exists d, dc. split; [set_solver|done].
    + rewrite E in Hk. simplify_eq/=. exists d, dc. split; [set_solver|done].
    + rewrite E in Hk. simplify_eq/=. destruct (Hask k c0 E0) as (d & dc & Hin & Hd). exists d, dc. split; [set_solver|done].
  - intros k c Hk Hp. destruct (call_act k a b b' o Ha) as [E _|ag req d dc p -> _ E Hph|c0 p E0 Hm E].
    + rewrite E in Hk. destruct (Hcall k c Hk Hp) as [now Hin]. exists now. set_solver.
    + rewrite E in Hk. simplify_eq/=. by destruct Hph as [->|[e ->]].
    + assert (past_approval (Call.at_ c0) → ∃ now, Answer k ShellApproval.Allow now ∈ before ++ [a]) as Hback.
      { intros Hp0. destruct (Hcall k c0 E0 Hp0) as [t Hin]. exists t. set_solver. }
      rewrite E in Hk. injection Hk as <-. cbn in Hp. inversion Hm; subst; try done;
        try (apply Hback; match goal with E : _ = Call.at_ c0 |- _ => by rewrite <- E end).
      eexists. apply elem_of_app. right. by left.
  - intros ag id i Hi. destruct (process_act ag id a b b' o Ha) as [E|k now c st ts p -> Hk Hat <- E _ Ei|now m out p _ _ _ _ E E'|k p _ _ _ E].
    + rewrite E in Hi. destruct (Hproc ag id i Hi) as (k & req & Hal & H2). exists k, req. split; [by apply allowed_more|done].
    + unfold info_of in Hi. rewrite E in Hi. simplify_eq/=. rewrite Ei. exists k, (Call.req c). split; [|done]. apply allowed_more. split.
      * apply (Hask k c Hk).
      * apply (Hcall k c Hk). by rewrite Hat.
    + unfold info_of in Hi. rewrite E' in Hi. simplify_eq/=. destruct (Hproc ag id (BgProcess.info_ p)) as (k & req & Hal & H2); [unfold info_of; by rewrite E|].
      exists k, req. split; [apply allowed_more; by destruct out|by destruct out].
    + unfold info_of in Hi. by rewrite E in Hi.
Qed.
Lemma approved_new : approved_all [] new_bg.
Proof.
  constructor; [intros k c E; cbn in E; by rewrite lookup_empty in E..|]. intros ag id i E. unfold info_of, process in E. cbn in E. by rewrite lookup_empty in E.
Qed.

(** C18: no command runs in the background that the user has not allowed: when a child is spawned, its call had been
    requested and answered with yes, and whatever is in the table of an agent is a command that was asked for
    that agent, directory and session, and allowed; whatever calls, monitors, children and tails do. *)
Theorem nothing_spawned_without_leave (acts : list Act) b o :
  run acts new_bg = Some (b, o) →
  (∀ before after k id now instant, acts = before ++ Spawn k id now instant (Ok tt) :: after →
     ∃ ag req cwd, allowed k ag req cwd before) ∧
  (∀ ag id p, process ag id b = Some p → ∃ k req, allowed k ag req (BgProcessInfo.cwd (BgProcess.info_ p)) acts ∧
     BgProcessInfo.command (BgProcess.info_ p) = StartRequest.command req ∧ BgProcessInfo.session_id (BgProcess.info_ p) = StartRequest.session_id req).
Proof.
  intros Hr. split.
  - intros before after k id now inst ->. apply bg_run_app in Hr as (b1 & o1 & o2 & H1 & H2 & _).
    destruct (bg_run_keeps approved_all before new_bg b1 o1 []) as [_ [Hask Hcall _]]; [exact approved_act|exact wf_new_bg|exact approved_new|done|].
    cbn in H2. destruct (calls b1 !! k) as [c|] eqn:Hk; [|done]. cbn in H2. destruct (Call.at_ c) eqn:Hat; try done.
    exists (Call.agent c), (Call.req c), (Call.cwd c). split; [by apply Hask|]. apply (Hcall k c Hk). by rewrite Hat.
  - intros ag id p Hp. destruct (bg_run_keeps approved_all acts new_bg b o []) as [_ [_ _ Hproc]]; [exact approved_act|exact wf_new_bg|exact approved_new|done|].
    apply (Hproc ag id). unfold info_of. by rewrite Hp.
Qed.

(** *** The end of a process *)

(** How a process ended is recorded once: its status, its code and the time stay what they are until the
    record is pruned, whatever calls, stops, late output and other processes follow. *)
Lemma first_end_is_final (before acts : list Act) b b' o o' (ag id : string) p :
  run before new_bg = Some (b, o) → process ag id b = Some p → terminal p → run acts b = Some (b', o') →
  (∃ p', process ag id b' = Some p' ∧ BgProcess.info_ p' = BgProcess.info_ p) ∨
  ∃ acts1 acts2 b1 o1, acts = acts1 ++ acts2 ∧ run acts1 b = Some (b1, o1) ∧ process ag id b1 = None.
Proof.
  intros Hb. destruct (bg_run_keeps (λ _ _, True) before new_bg b o []) as [Hwf _]; [done|exact wf_new_bg|done|done|]. clear Hb before o.
  revert b Hwf p o'. induction acts as [|a acts IH]; intros b Hwf p o' Hp Ht Hr; [cbn in Hr; simplify_eq; left; eauto|].
  cbn in Hr. destruct (act a b) as [[b1 o1]|] eqn:Ha; [|done]. destruct (run acts b1) as [[b2 o2]|] eqn:Hr1; [|done]. simplify_eq.
  destruct (process ag id b1) as [p1|] eqn:Hp1; [|right; exists [a], acts, b1, o1; split; [done|]; cbn; by rewrite Ha, app_nil_r].
  assert (BgProcess.info_ p1 = BgProcess.info_ p) as Hi.
  { destruct (process_act ag id a b b1 o1 Ha) as [E|k now c st ts p2 _ Hk Hat _ _ _ _|now m out p2 _ Hm Hat Hag _ _|k p2 _ _ _ E]; [| | |congruence].
    - unfold info_of in E. rewrite Hp, Hp1 in E. by simplify_eq/=.
    - rewrite (wf_new b Hwf k id) in Hp; [done|]. by exists c, st, ts.
    - pose proof (wf_over b Hwf ag id p m Hp Ht Hm). congruence. }
  assert (terminal p1) as Ht1 by (unfold terminal, BgProcess.running, BgProcess.status in *; by rewrite Hi).
  destruct (IH b1 ltac:(by eapply bg_wf_act) p1 o2 Hp1 Ht1 Hr1) as [(p' & Hp' & Hi')|(acts1 & acts2 & b3 & o3 & -> & Hr3 & Hn)].
  - left. exists p'. split; [done|congruence].
  - right. exists (a :: acts1), acts2, b3, (o1 ++ o3). split; [done|]. cbn. by rewrite Ha, Hr3.
Qed.

(** *** The limit *)

Definition running_ids (ag : string) b : gset string := dom (filter (λ kv, BgProcess.running (snd kv) = true) (default ∅ (agents b !! ag))).
Lemma running_count_ids ag b : running_count ag b = size (running_ids ag b).
Proof. unfold running_count, running_ids. by rewrite size_dom. Qed.
Lemma elem_of_running ag id b : id ∈ running_ids ag b ↔ ∃ p, process ag id b = Some p ∧ BgProcess.running p = true.
Proof.
  unfold running_ids, process. rewrite elem_of_dom. unfold is_Some. setoid_rewrite map_lookup_filter_Some. cbn.
  destruct (agents b !! ag); cbn; [naive_solver|]. setoid_rewrite lookup_empty. naive_solver.
Qed.
(** The calls between the count and the entry in the table. *)
Definition in_start (p : Call.phase) : bool := match p with Call.Counted | Call.Spawned _ _ _ => true | _ => false end.
Definition starting_calls (ag : string) b : gset nat := dom (filter (λ kc, Call.agent (snd kc) = ag ∧ in_start (Call.at_ (snd kc)) = true) (calls b)).
Lemma elem_of_starting ag k b : k ∈ starting_calls ag b ↔ ∃ c, calls b !! k = Some c ∧ Call.agent c = ag ∧ in_start (Call.at_ c) = true.
Proof. unfold starting_calls. rewrite elem_of_dom. unfold is_Some. setoid_rewrite map_lookup_filter_Some. cbn. naive_solver. Qed.
(** No start of the agent is counted while another is between its count and its entry. *)
Fixpoint one_at_a_time (ag : string) (acts : list Act) b : bool :=
  match acts with
  | [] => true
  | a :: acts =>
      match a with
      | Count k => bool_decide (starting_calls ag b = ∅) || match calls b !! k with Some c => negb (String.eqb (Call.agent c) ag) | None => true end
      | _ => true
      end && match act a b with Some (b', _) => one_at_a_time ag acts b' | None => true end
  end.

Lemma running_act ag id a b b' o : act a b = Some (b', o) → id ∈ running_ids ag b' →
  id ∈ running_ids ag b ∨ ∃ k now c started timeout_secs, a = Insert_ k now ∧ calls b !! k = Some c ∧ Call.agent c = ag ∧ Call.at_ c = Call.Spawned id started timeout_secs.
Proof.
  rewrite !elem_of_running. intros Ha (p & Hp & Hr).
  destruct (process_act ag id a b b' o Ha) as [E|k now c st ts p0 -> Hk Hat Hag _ _ _|now m out p0 _ _ _ _ _ E|k p0 _ _ _ E]; [| | |congruence].
  - destruct (info_running ag id b b' p E Hp) as (p0 & Hp0 & Hi). left. exists p0. split; [done|]. unfold BgProcess.running, BgProcess.status in *. by rewrite Hi.
  - right. by exists k, now, c, st, ts.
  - rewrite E in Hp. simplify_eq. by destruct out.
Qed.
Lemma starting_act ag k a b b' o : act a b = Some (b', o) → k ∈ starting_calls ag b' →
  (k ∈ starting_calls ag b ∨ (∃ c, a = Count k ∧ calls b !! k = Some c ∧ Call.agent c = ag ∧ (running_count ag b < MAX_BG_PROCESSES_PER_AGENT)%nat)) ∧
  ∀ now, a ≠ Insert_ k now.
Proof.
  rewrite !elem_of_starting. intros Ha (c & Hk & Hag & Hs). destruct (call_act k a b b' o Ha) as [E Hi|ag' req d dc p -> _ E Hp|c0 p E0 Hm E].
  - split; [left; exists c; by rewrite <- E|]. intros now ->. by apply (Hi now).
  - rewrite E in Hk. simplify_eq/=. destruct Hp as [->|[? ->]]; done.
  - rewrite E in Hk. injection Hk as <-. cbn in Hs, Hag. inversion Hm; subst; try done.
    + assert (c = c0) as -> by congruence. split; [|done]. right. exists c0. eauto.
    + split; [|done]. left. exists c0. split; [done|]. split; [done|]. match goal with E : _ = Call.at_ c0 |- _ => by rewrite <- E end.
Qed.

Lemma limit_act ag a b b' o : act a b = Some (b', o) →
  (∀ k, a = Count k → starting_calls ag b = ∅ ∨ ∀ c, calls b !! k = Some c → Call.agent c ≠ ag) →
  (size (running_ids ag b) + size (starting_calls ag b) ≤ MAX_BG_PROCESSES_PER_AGENT)%nat →
  (size (running_ids ag b') + size (starting_calls ag b') ≤ MAX_BG_PROCESSES_PER_AGENT)%nat.
Proof.
  intros Ha Halone Hle.
  assert ((∀ k now, a ≠ Insert_ k now) → running_ids ag b' ⊆ running_ids ag b) as Hrun.
  { intros Hn id Hid. destruct (running_act ag id a b b' o Ha Hid) as [|(k & now & c & st & ts & -> & _)]; [done|by destruct (Hn k now)]. }
  assert ((∀ k, a ≠ Count k) → starting_calls ag b' ⊆ starting_calls ag b) as Hst.
  { intros Hn k Hk. destruct (starting_act ag k a b b' o Ha Hk) as [[|(c & -> & _)] _]; [done|by destruct (Hn k)]. }
  assert ((∀ k now, a ≠ Insert_ k now) → (∀ k, a ≠ Count k) → (size (running_ids ag b') + size (starting_calls ag b') ≤ MAX_BG_PROCESSES_PER_AGENT)%nat) as Hboth.
  { intros H1 H2. pose proof (subseteq_size _ _ (Hrun H1)). pose proof (subseteq_size _ _ (Hst H2)). lia. }
  destruct a; try (apply Hboth; intros; discriminate).
  - assert (running_ids ag b' ⊆ running_ids ag b) as Hr%subseteq_size by (apply Hrun; intros; discriminate).
    assert (starting_calls ag b' ⊆ {[k]} ∪ starting_calls ag b) as Hsub.
    { intros j Hj. destruct (starting_act ag j (Count k) b b' o Ha Hj) as [[|(c & [= ->] & _)] _]; set_solver. }
    destruct (decide (k ∈ starting_calls ag b' ∧ k ∉ starting_calls ag b)) as [[Hin Hnot]|Hno].
    + destruct (starting_act ag k (Count k) b b' o Ha Hin) as [[|(c & _ & Hk & Hag & Hlt)] _]; [done|].
      destruct (Halone k eq_refl) as [Hempty|Hne]; [|by destruct (Hne c Hk)]. apply subseteq_size in Hsub.
      rewrite Hempty, union_empty_r_L, size_singleton in Hsub. rewrite running_count_ids in Hlt. unfold MAX_BG_PROCESSES_PER_AGENT in *. lia.
    + assert (starting_calls ag b' ⊆ starting_calls ag b) as Hs%subseteq_size by set_solver. lia.
  - assert (starting_calls ag b' ⊆ starting_calls ag b ∖ {[k]}) as Hs.
    { intros j Hj. destruct (starting_act ag j (Insert_ k now) b b' o Ha Hj) as [[Hj0|(c & [=] & _)] Hni]. apply elem_of_difference. split; [done|].
      intros ->%elem_of_singleton. by apply (Hni now). }
    destruct (calls b !! k) as [c|] eqn:Hk; [|cbn in Ha; by rewrite Hk in Ha].
    destruct (Call.at_ c) as [| | |id st ts|] eqn:Hat; try (cbn in Ha; rewrite Hk in Ha; cbn in Ha; by rewrite Hat in Ha).
    destruct (decide (Call.agent c = ag)) as [Hag|Hag].
    + assert (k ∈ starting_calls ag b) as Hin by (apply elem_of_starting; exists c; by rewrite Hat).
      assert (running_ids ag b' ⊆ {[id]} ∪ running_ids ag b) as Hr.
      { intros i Hi. destruct (running_act ag i (Insert_ k now) b b' o Ha Hi) as [|(k' & now' & c' & st' & ts' & [= -> ->] & Hk' & _ & Hat')]; [set_solver|].
        rewrite Hk in Hk'. injection Hk' as <-. rewrite Hat in Hat'. injection Hat' as -> _ _. set_solver. }
      apply subseteq_size in Hr, Hs. rewrite size_difference, size_singleton in Hs by set_solver. pose proof (size_union_alt {[id]} (running_ids ag b)) as Hu.
      rewrite size_singleton in Hu. pose proof (subseteq_size (running_ids ag b ∖ {[id]}) (running_ids ag b) ltac:(set_solver)).
      assert (size (starting_calls ag b) ≠ 0%nat) by (intros E%size_empty_inv; set_solver). lia.
    + assert (running_ids ag b' ⊆ running_ids ag b) as Hr.
      { intros i Hi. destruct (running_act ag i (Insert_ k now) b b' o Ha Hi) as [|(k' & now' & c' & st' & ts' & [= -> ->] & Hk' & Hag' & _)]; [done|]. congruence. }
      apply subseteq_size in Hr. assert (starting_calls ag b' ⊆ starting_calls ag b) as Hs'%subseteq_size by set_solver. lia.
Qed.

(** C19: an agent has at most eight background processes running, whatever else happens, as long as no two of
    its starts overlap between the count and the entry in the table. *)
Theorem at_most_eight_run (acts : list Act) b o (ag : string) :
  run acts new_bg = Some (b, o) → one_at_a_time ag acts new_bg = true → (running_count ag b ≤ MAX_BG_PROCESSES_PER_AGENT)%nat.
Proof.
  intros Hr Ho. rewrite running_count_ids.
  cut (size (running_ids ag b) + size (starting_calls ag b) ≤ MAX_BG_PROCESSES_PER_AGENT)%nat; [lia|].
  assert (size (running_ids ag new_bg) + size (starting_calls ag new_bg) ≤ MAX_BG_PROCESSES_PER_AGENT)%nat as Hle.
  { assert (running_ids ag new_bg = ∅) as ->. { apply elem_of_equiv_empty_L. intros id (p & Hp & _)%elem_of_running. unfold process in Hp. cbn in Hp. by rewrite lookup_empty in Hp. }
    assert (starting_calls ag new_bg = ∅) as ->. { apply elem_of_equiv_empty_L. intros k (c & Hk & _)%elem_of_starting. cbn in Hk. by rewrite lookup_empty in Hk. }
    rewrite !size_empty. unfold MAX_BG_PROCESSES_PER_AGENT. lia. }
  revert Hr Ho Hle. generalize new_bg. revert o. induction acts as [|a acts IH]; intros o b0 Hr Ho Hle; [cbn in Hr; by simplify_eq|].
  cbn [run one_at_a_time] in *. destruct (act a b0) as [[b1 o1]|] eqn:Ha; [|done]. destruct (run acts b1) as [[b2 o2]|] eqn:Hr1; [|done]. simplify_eq.
  apply andb_true_iff in Ho as [Halone Ho]. apply (IH o2 b1 Hr1 Ho). eapply limit_act; [exact Ha| |done].
  intros k ->. apply orb_true_iff in Halone as [He%bool_decide_eq_true|Hne]; [by left|]. right. intros c Hk. rewrite Hk in Hne.
  apply negb_true_iff, String.eqb_neq in Hne. done.
Qed.

(** *** Pruning *)

Definition terminal_ids (t : AgentTable) : gset string := dom (filter (λ kv, BgProcess.running (snd kv) = false) t).
(** At most sixteen records of processes that have ended are kept, and every process that
    runs. *)
Lemma prune_keeps_sixteen t : (size (terminal_ids (prune_table t)) ≤ MAX_TERMINAL_RECORDS)%nat ∧
  ∀ id p, t !! id = Some p → BgProcess.running p = true → prune_table t !! id = Some p.
Proof.
  split.
  - unfold prune_table. set (l := map _ _). assert (∀ id, id ∈ terminal_ids t → id ∈ l.*1) as Hl.
    { intros id Hid. unfold terminal_ids in Hid. apply elem_of_dom in Hid as [p Hp]. apply map_lookup_filter_Some in Hp as [Hp Hr]. cbn in Hr.
      apply list_elem_of_fmap. exists (id, ended_at p). split; [done|]. subst l. apply elem_of_map. exists (id, p). split; [done|].
      apply elem_of_filter_list. split; [by apply elem_of_hm_iter|]. cbn. by rewrite Hr. }
    assert (∀ k, k ⊆ l.*1 → (size (list_to_set k : gset string) ≤ length k)%nat) as Hsz.
    { intros k _. induction k as [|x k IH]; cbn; [by rewrite size_empty|]. rewrite size_union_alt, size_singleton.
      pose proof (subseteq_size (list_to_set k ∖ {[x]} : gset string) (list_to_set k) ltac:(set_solver)). lia. }
    destruct (Nat.leb_spec (length l) MAX_TERMINAL_RECORDS) as [Hle|Hgt].
    + assert (terminal_ids t ⊆ list_to_set l.*1) as Hsub by (intros id Hid; apply elem_of_list_to_set; auto).
      apply subseteq_size in Hsub. specialize (Hsz l.*1 ltac:(done)). rewrite length_fmap in Hsz. lia.
    + set (n := (length l - MAX_TERMINAL_RECORDS)%nat). assert (terminal_ids (foldr (λ kv, delete (fst kv)) t (take n (sort_by snd l))) ⊆ list_to_set (drop n (sort_by snd l)).*1) as Hsub.
      { intros id Hid. unfold terminal_ids in Hid. apply elem_of_dom in Hid as [p Hp]. apply map_lookup_filter_Some in Hp as [Hp Hr]. rewrite lookup_deletes in Hp.
        case_bool_decide as Hnot; [done|]. assert (id ∈ l.*1) as Hin by (apply Hl; unfold terminal_ids; apply elem_of_dom; exists p; by apply map_lookup_filter_Some).
        apply elem_of_list_to_set. apply list_elem_of_fmap in Hin as (kv & -> & Hin). apply (elem_of_sort_by snd) in Hin. rewrite <- (take_drop n (sort_by snd l)) in Hin.
        apply elem_of_app in Hin as [Hin|Hin]; [exfalso; apply Hnot|]; by apply list_elem_of_fmap_2. }
      apply subseteq_size in Hsub. etrans; [exact Hsub|]. etrans; [apply (Hsz (drop n (sort_by snd l)).*1)|].
      * intros x. rewrite !list_elem_of_fmap. intros (kv & -> & Hin). exists kv. split; [done|]. apply (elem_of_sort_by snd). rewrite <- (take_drop n (sort_by snd l)). set_solver.
      * rewrite length_fmap, length_drop, (Permutation_length (sort_by_perm snd l)). lia.
  - intros id p Hp Hr. destruct (prune_spec t id) as [->|[_ (p' & Hp' & Ht)]]; [done|]. unfold terminal in Ht. congruence.
Qed.

(** *** The monitor *)

(** A child that is silent, and has not closed both its pipes, is killed by the next turn
    of its monitor once its time is over or a stop was asked for. *)
Lemma silent_child_is_killed id m b instant :
  monitors b !! id = Some m → Monitor.at_ m = Monitor.Driving → Child.ended (Monitor.child m) = None → Monitor.out m = [] →
  forallb negb (Monitor.readers m) = false →
  (Monitor.deadline m ≤ instant ∨ ∃ p, process (Monitor.agent m) id b = Some p ∧ BgProcess.stop p = true) →
  ∃ b' m' outcome, act (Drive id instant) b = Some (b', []) ∧ monitors b' !! id = Some m' ∧ Monitor.at_ m' = Monitor.Finishing outcome ∧
    Child.ended (Monitor.child m') = Some (Some None) ∧ outcome = (if Monitor.deadline m <=? instant then DriveOutcome.KilledByTimeout else DriveOutcome.KilledByStop).
Proof.
  intros Hm Hat He Ho Hr Hc. cbn [act]. rewrite Hm. cbn [mbind option_bind]. unfold drive. rewrite Hat, He, Ho, Hr.
  destruct (Z.leb_spec (Monitor.deadline m) instant) as [Hd|Hd].
  - eexists _, _, _. split; [done|]. split; [cbn; apply lookup_insert_eq|]. done.
  - destruct Hc as [|(p & Hp & Hs)]; [lia|]. rewrite Hp. cbn. rewrite Hs. eexists _, _, _. split; [done|]. split; [cbn; apply lookup_insert_eq|]. done.
Qed.
End Facts.

(** *** Reading *)

(** A reader of a ring: the process appends, and each read goes on from the
    offset the last has returned. *)
Inductive Use := Append (chunk : string) | Read.
Fixpoint follow (us : list Use) (r : RingBuffer.t) (offset : Z) : list Z :=
  match us with
  | [] => []
  | Append chunk :: us => follow us (RingBuffer.append chunk r) offset
  | Read :: us => let '(l, next_offset) := RingBuffer.read_from offset r in l ++ follow us r next_offset
  end.
Definition output (us : list Use) : list Z := concat (map (λ u, match u with Append chunk => bytes chunk | Read => [] end) us).
(** Between two reads no more is written than the ring holds. *)
Fixpoint keeps_up (cap unread : Z) (us : list Use) : bool :=
  match us with
  | [] => true
  | Append chunk :: us => keeps_up cap (unread + Z.of_nat (length (bytes chunk))) us
  | Read :: us => (unread <=? cap) && keeps_up cap 0 us
  end.
(** C20: of the ring buffer of a background process: who reads on from the offset it was
    given, before more than the ring holds has been appended since, gets every byte
    that was appended to the ring, once and in order.  (What of the process's output comes to be
    appended, and how the bytes are shown, are other matters: [last_output_is_lost],
    [split_character_is_broken].) *)
Theorem reading_on_misses_nothing (cap : Z) (us : list Use) :
  0 < cap → Z.of_nat (length (output us)) ≤ RingBuffer.u64_max → keeps_up cap 0 (us ++ [Read]) = true →
  follow (us ++ [Read]) (RingBuffer.new cap) 0 = output us.
Proof.
  intros Hcap.
  assert (∀ us l r (offset : nat), RingFacts.holds l r → RingBuffer.cap r = cap → (offset ≤ length l)%nat → Z.of_nat (length l + length (output us)) ≤ RingBuffer.u64_max →
    keeps_up cap (Z.of_nat (length l) - Z.of_nat offset) (us ++ [Read]) = true → follow (us ++ [Read]) r (Z.of_nat offset) = drop offset (l ++ output us)) as Hfollow.
  { clear us. intros us. induction us as [|[chunk|] us IH]; intros l r offset Hh Hc Hoff Hlen Hk; cbn [follow app keeps_up] in *.
    - apply andb_true_iff in Hk as [Hk _]. rewrite (RingFacts.read_holds l r) by (lia || done). rewrite !app_nil_r. destruct Hh as [Hi Hb _].
      f_equal. rewrite Hi, length_last_n, Hc in Hb. lia.
    - unfold output in *. cbn [map concat] in *. rewrite length_app in Hlen. destruct (RingFacts.append_holds l r chunk) as (Hh1 & Hc1 & _); [lia|lia|done|].
      rewrite (IH (l ++ bytes chunk) (RingBuffer.append chunk r) offset); [by rewrite <- app_assoc|done|congruence|rewrite length_app; lia|rewrite length_app; lia|].
      rewrite length_app. by replace (Z.of_nat (length l + length (bytes chunk)) - Z.of_nat offset) with (Z.of_nat (length l) - Z.of_nat offset + Z.of_nat (length (bytes chunk))) by lia.
    - apply andb_true_iff in Hk as [Hk Hk']. rewrite (RingFacts.read_holds l r) by (lia || done). cbn [map concat output app] in *.
      rewrite (IH l r (length l)); [|done|done|lia|done|by rewrite Z.sub_diag]. change (output (Read :: us)) with (output us). rewrite drop_app_length.
      rewrite drop_app_le by lia. f_equal. destruct Hh as [Hi Hb _]. f_equal. rewrite Hi, length_last_n, Hc in Hb. lia. }
  intros Hlen Hk. change 0 with (Z.of_nat 0). rewrite (Hfollow us [] (RingBuffer.new cap) 0%nat); [done| |done|cbn; lia|exact Hlen|exact Hk].
  constructor; [done|done|]. cbn. symmetry. apply Z.ltb_ge. lia.
Qed.

(* ------------------------------------------------------------------ *)
(** ** Examples *)

Section Examples.
#[local] Instance canonical_processes : HashIter BgProcess.t := hash_iter_canonical _.
Definition no_dirs : Dirs := mk_dirs (λ _, false) (λ _, None).
Definition start_request (command : string) : StartRequest.t := StartRequest.mk command None "s" None None None.
(** A start of [command] as process [id], allowed, and with nothing in between. *)
Definition starting (k : nat) (id command : string) : list Act :=
  [Request k "a" (start_request command) no_dirs "/w"; Answer k ShellApproval.Allow 0; Count k; Spawn k id 0 0 (Ok tt); Insert_ k 0].
Definition with_approver : list Act := [Registry (Register "a" 1)].
Local Notation after acts := (run (with_approver ++ acts) new_bg).
Definition status_of (id : string) (r : option (Bg * list (nat * TailEvent))) : option BgStatus.t :=
  r ≫= λ r, BgProcess.status <$> process "a" id (fst r).

(** A child that closes its pipes is only waited for: neither its deadline nor a stop ends
    it. *)
Example closed_pipes_cannot_be_stopped :
  let acts := starting 0 "p" "serve" ++ [Does "p" (Closes 0); Does "p" (Closes 1); Reads "p" 0 1; Reads "p" 1 1; Drive "p" 1; Stop "a" "p" "s" 2] in
  status_of "p" (after acts) = Some BgStatus.Running ∧ after (acts ++ [Drive "p" 100000000]) = None.
Proof. by vm_compute. Qed.
(** A child that ends at once is finished before it is in the table: its record stays
    running, with no monitor to end it. *)
Example fast_child_runs_forever :
  let acts := [Request 0 "a" (start_request "true") no_dirs "/w"; Answer 0 ShellApproval.Allow 0; Count 0; Spawn 0 "p" 0 0 (Ok tt);
               Does "p" (Ends (Some (Some 0))); Drive "p" 0; Finish "p" 0; Prune "p"; Insert_ 0 0] in
  status_of "p" (after acts) = Some BgStatus.Running ∧ (λ r, monitors (fst r) !! "p") <$> after acts = Some None.
Proof. by vm_compute. Qed.
(** What a child wrote last is lost when it ends before the reader has taken it. *)
Example last_output_is_lost :
  (λ r, (λ r, fst (fst r)) <$> res_ok (read "a" "p" 0 (fst r))) <$>
    after (starting 0 "p" "echo" ++ [Does "p" (Writes 0 [104; 105]); Does "p" (Ends (Some (Some 0))); Drive "p" 1; Finish "p" 1]) = Some (Some "").
Proof. by vm_compute. Qed.
(** Starts that overlap exceed the limit: the count and the entry are two turns of the lock. *)
Definition start_until_count (k : nat) : list Act := [Request k "a" (start_request "x") no_dirs "/w"; Answer k ShellApproval.Allow 0; Count k].
Definition name_of (k : nat) : string := show_i64 (Z.of_nat k).
Example overlapping_starts_exceed_the_limit :
  (λ r, running_count "a" (fst r)) <$>
    after (concat (map (λ k, starting k (name_of k) "x") (seq 0 7)) ++ start_until_count 7 ++ start_until_count 8 ++
           [Spawn 7 "7" 0 0 (Ok tt); Insert_ 7 0; Spawn 8 "8" 0 0 (Ok tt); Insert_ 8 0]) = Some 9%nat.
Proof. by vm_compute. Qed.
(** A character that two reads share is shown as two replacement characters. *)
Example split_character_is_broken :
  (λ r, (λ r, bytes (fst (fst r))) <$> res_ok (read "a" "p" 0 (fst r))) <$>
    after (starting 0 "p" "x" ++ [Does "p" (Writes 0 [195; 169]); Reads "p" 0 1; Reads "p" 0 1; Drive "p" 1; Drive "p" 1]) = Some (Some (replacement ++ replacement)).
Proof. by vm_compute. Qed.
(** A tail repeats what arrives while it opens, and counts its offsets from where it was
    asked to begin: the client that goes on from there reads the replay again. *)
Example tail_repeats_and_miscounts :
  snd <$> after (starting 0 "p" "x" ++ [Does "p" (Writes 0 [104; 105]); Reads "p" 0 2; TailOpen 0 "a" "p" 0; TailStep 0; Drive "p" 1; TailStep 0; TailStep 0]) =
    Some [(0%nat, Chunk "hi" 0); (0%nat, Chunk "hi" 2)] ∧
  snd <$> after (starting 0 "p" "x" ++ [Does "p" (Writes 0 [104; 105]); Reads "p" 0 2; Drive "p" 1; TailOpen 0 "a" "p" 0; TailStep 0; TailStep 0;
                                        Does "p" (Writes 0 [106]); Reads "p" 0 1; Drive "p" 2; TailStep 0]) =
    Some [(0%nat, Chunk "hi" 0); (0%nat, Chunk "j" 1)].
Proof. by vm_compute. Qed.
(** The tail of a process that has ended is an error without its output. *)
Example tail_of_an_ended_process :
  snd <$> after (starting 0 "p" "x" ++ [Does "p" (Writes 0 [104; 105]); Reads "p" 0 2; Does "p" (Ends (Some (Some 0))); Drive "p" 1; Finish "p" 1;
                                        TailOpen 0 "a" "p" 0; TailStep 0]) =
    Some [(0%nat, TailError "invalid request: process has no live output (already terminal)")].
Proof. by vm_compute. Qed.
Local Notation reached acts := (default (new_bg, []) (after acts)).
Lemma nothing_spawned_without_leave_witness :
  let b := fst (reached (starting 0 "p" "serve")) in
  BgProcessInfo.command (BgProcess.info_ (default (BgProcess.mk (BgProcessInfo.mk "" None "" "" "" BgStatus.Running None 0 None 0 false) (RingBuffer.new 1) false false 0)
    (process "a" "p" b))) = "serve" ∧
  ∀ ag id p, process ag id b = Some p → ∃ k req, allowed k ag req (BgProcessInfo.cwd (BgProcess.info_ p)) (with_approver ++ starting 0 "p" "serve") ∧
     BgProcessInfo.command (BgProcess.info_ p) = StartRequest.command req ∧ BgProcessInfo.session_id (BgProcess.info_ p) = StartRequest.session_id req.
Proof.
  intros b. split; [by vm_compute|].
  apply (nothing_spawned_without_leave (with_approver ++ starting 0 "p" "serve") b (snd (reached (starting 0 "p" "serve")))). by vm_compute.
Defined.
Definition ended : list Act := starting 0 "p" "x" ++ [Does "p" (Ends (Some (Some 3))); Drive "p" 1; Finish "p" 7].
Lemma first_end_is_final_witness :
  let b := fst (reached ended) in let late := [Stop "a" "p" "s" 9; Prune "p"] in
  ∃ p, process "a" "p" b = Some p ∧ BgProcessInfo.exit_code (BgProcess.info_ p) = Some 3 ∧
  ((∃ p', process "a" "p" (fst (default (b, []) (run late b))) = Some p' ∧ BgProcess.info_ p' = BgProcess.info_ p) ∨
   ∃ acts1 acts2 b1 o1, late = acts1 ++ acts2 ∧ run acts1 b = Some (b1, o1) ∧ process "a" "p" b1 = None).
Proof.
  intros b late. destruct (process "a" "p" b) as [p|] eqn:Hp; [|vm_compute in Hp; discriminate Hp]. exists p. split; [done|].
  assert (BgProcessInfo.exit_code (BgProcess.info_ p) = Some 3 ∧ BgProcess.running p = false) as [He Ht] by (vm_compute in Hp; injection Hp as <-; by vm_compute).
  split; [exact He|]. apply (first_end_is_final (with_approver ++ ended) late b (fst (default (b, []) (run late b))) (snd (reached ended)) (snd (default (b, []) (run late b))) "a" "p" p);
    [by vm_compute|exact Hp|exact Ht|by vm_compute].
Defined.
Definition nine_starts : list Act :=
  concat (map (λ k, starting k (name_of k) "x") (seq 0 8)) ++ [Request 8 "a" (start_request "x") no_dirs "/w"; Answer 8 ShellApproval.Allow 0; Count 8].
Lemma at_most_eight_run_witness :
  let b := fst (reached nine_starts) in
  Call.at_ <$> calls b !! 8%nat = Some (Call.Done (Err (BgError.LimitExceeded 8))) ∧ (running_count "a" b ≤ MAX_BG_PROCESSES_PER_AGENT)%nat.
Proof.
  intros b. split; [by vm_compute|].
  apply (at_most_eight_run (with_approver ++ nine_starts) b (snd (reached nine_starts)) "a"); by vm_compute.
Defined.
Lemma reading_on_misses_nothing_witness :
  let us := [Append "abc"; Append "d"; Read; Append "ef"; Append "gh"] in
  output us = bytes "abcdefgh" ∧ follow (us ++ [Read]) (RingBuffer.new 4) 0 = bytes "abcdefgh".
Proof.
  intros us. split; [by vm_compute|]. rewrite (reading_on_misses_nothing 4 us); [by vm_compute|done|by vm_compute|by vm_compute].
Defined.
End Examples.
