(* ===== verification/LocalFs.v ===== *)
(** * LocalFs: the project's files as tools of a remote model

    [manager/remote/local_fs_mcp]: the MCP server that lets a remote OpenCode read, write,
    list, search, delete and rename files of the user's project and run commands there
    ([tools.rs], [shell.rs], [project_tree.rs], [protocol.rs], [server.rs]), on the file
    system of [FileSystem].  A request is a function on the state: the files, the snapshots
    with their ledger, and what the user was asked.  The answer of the user is the approver's;
    a command is a process that the machine runs; names are UTF-8 without NUL. *)

From S2P Require Import Prelude.
From S2P Require Import Text.
From S2P Require Import JsonValue.
From S2P Require Import TeamTypes.
From S2P Require Import Common.
From S2P Require Import PluginRegistry.
From S2P Require Import PluginBg.
From S2P Require Import RemoteState.
From S2P Require Import RemotePrompts.
From S2P Require Import Paths.
From S2P Require Import FileSystem.
From S2P Require Import FileService.

Abbreviation ShellApproval := RemoteState.ShellApproval.t.

(* ------------------------------------------------------------------ *)
(** ** Inputs of the tools *)

(** A field of a derived [Deserialize]: by its name in an object, by its place in an array. *)
Definition field {A} (read : json → option A) (dflt : option A) (k : string) (i : nat) (v : json) : option A :=
  match v with
  | Obj l => match JsonValue.entry k l with Some x => read x | None => dflt end
  | Arr l => match l !! i with Some x => read x | None => dflt end
  | _ => None
  end.
(** An array has no more elements than the struct has fields. *)
Definition fields (n : nat) (v : json) : option unit :=
  match v with Obj _ => Some tt | Arr l => if Nat.leb (length l) n then Some tt else None | _ => None end.

Module ReadInput.
(* chisl-ai-agent/src/manager/remote/local_fs_mcp/tools.rs:296-298 ReadInput *)
Record t := mk { path : string }.
Definition of_json (v : json) : option t := _ ← fields 1 v; p ← field as_str None "path" 0 v; Some (mk p).
End ReadInput.
Module WriteInput.
(* chisl-ai-agent/src/manager/remote/local_fs_mcp/tools.rs:301-304 WriteInput *)
Record t := mk { path : string; content : string }.
Definition of_json (v : json) : option t :=
  _ ← fields 2 v; p ← field as_str None "path" 0 v; c ← field as_str None "content" 1 v; Some (mk p c).
End WriteInput.
Module ListInput.
(* chisl-ai-agent/src/manager/remote/local_fs_mcp/tools.rs:307-310 ListInput *)
Record t := mk { path : string }.
Definition of_json (v : json) : option t := _ ← fields 1 v; p ← field as_str (Some EmptyString) "path" 0 v; Some (mk p).
End ListInput.
Module GrepInput.
(* chisl-ai-agent/src/manager/remote/local_fs_mcp/tools.rs:313-319 GrepInput *)
Record t := mk { pattern : string; path : string; case_insensitive : bool }.
Definition of_json (v : json) : option t :=
  _ ← fields 3 v; r ← field as_str None "pattern" 0 v; p ← field as_str (Some EmptyString) "path" 1 v;
  i ← field as_bool (Some false) "case_insensitive" 2 v; Some (mk r p i).
End GrepInput.
Module DeleteInput.
(* chisl-ai-agent/src/manager/remote/local_fs_mcp/tools.rs:322-324 DeleteInput *)
Record t := mk { path : string }.
Definition of_json (v : json) : option t := _ ← fields 1 v; p ← field as_str None "path" 0 v; Some (mk p).
End DeleteInput.
Module RenameInput.
(* chisl-ai-agent/src/manager/remote/local_fs_mcp/tools.rs:327-330 RenameInput *)
Record t := mk { from : string; to : string }.
Definition of_json (v : json) : option t :=
  _ ← fields 2 v; p ← field as_str None "from" 0 v; q ← field as_str None "to" 1 v; Some (mk p q).
End RenameInput.
Module ShellInput.
(* chisl-ai-agent/src/manager/remote/local_fs_mcp/tools.rs:333-335 ShellInput *)
Record t := mk { command : string }.
Definition of_json (v : json) : option t := _ ← fields 1 v; c ← field as_str None "command" 0 v; Some (mk c).
End ShellInput.

Module ListEntry.
(* chisl-ai-agent/src/manager/remote/local_fs_mcp/tools.rs:338-343 ListEntry *)
Record t := mk { name : string; kind : string; size : option Z }.
Definition to_json (e : t) : json :=
  Obj [("name", Str (name e)); ("size", match size e with Some n => num n | None => Null end); ("type", Str (kind e))].
End ListEntry.

(* ------------------------------------------------------------------ *)
(** ** The tools on offer *)

Definition dquote : Ascii.ascii := Ascii.ascii_of_nat 34.
Module ToolAnnotations.
(* chisl-ai-agent/src/manager/remote/local_fs_mcp/tools.rs:63-68 ToolAnnotations *)
Record t := mk { read_only_hint : bool; destructive_hint : bool; idempotent_hint : bool; open_world_hint : bool }.
End ToolAnnotations.
(* chisl-ai-agent/src/manager/remote/local_fs_mcp/tools.rs:70-75 READ_ONLY_ANNOTATIONS *)
Definition READ_ONLY_ANNOTATIONS : ToolAnnotations.t := ToolAnnotations.mk true false true false.
(* chisl-ai-agent/src/manager/remote/local_fs_mcp/tools.rs:76-81 MUTATING_ANNOTATIONS *)
Definition MUTATING_ANNOTATIONS : ToolAnnotations.t := ToolAnnotations.mk false true true false.
(* chisl-ai-agent/src/manager/remote/local_fs_mcp/tools.rs:82-87 SHELL_ANNOTATIONS *)
Definition SHELL_ANNOTATIONS : ToolAnnotations.t := ToolAnnotations.mk false true false true.

Module ToolDescriptor.
(* chisl-ai-agent/src/manager/remote/local_fs_mcp/tools.rs:90-95 ToolDescriptor *)
Record t := mk { name : string; description : string; input_schema : json; annotations : ToolAnnotations.t }.
End ToolDescriptor.
(* chisl-ai-agent/src/manager/remote/local_fs_mcp/tools.rs:101-101 APPROVAL_GATED_TOOLS *)
Definition APPROVAL_GATED_TOOLS : list string := ["run_shell"; "delete_file"; "rename"].

(* chisl-ai-agent/src/manager/remote/local_fs_mcp/tools.rs:56-56 MAX_READ_BYTES *)
Definition MAX_READ_BYTES : Z := 4 * 1024 * 1024.
(* chisl-ai-agent/src/manager/remote/local_fs_mcp/tools.rs:57-57 MAX_GREP_FILES *)
Definition MAX_GREP_FILES : nat := N.to_nat 5000.
(* chisl-ai-agent/src/manager/remote/local_fs_mcp/tools.rs:58-58 MAX_GREP_MATCHES *)
Definition MAX_GREP_MATCHES : nat := N.to_nat 500.
(* chisl-ai-agent/src/manager/remote/local_fs_mcp/tools.rs:59-59 MAX_LIST_ENTRIES *)
Definition MAX_LIST_ENTRIES : nat := N.to_nat 1000.

(* ------------------------------------------------------------------ *)
(** ** Paths of the project *)

(** [Path::ancestors]: the path, its parent and so on. *)
Fixpoint ancestors_from (n : nat) (p : path) : list path :=
  p :: match n, path_parent p with S n, Some q => ancestors_from n q | _, _ => [] end.
Definition ancestors (p : path) : list path := ancestors_from (length p) p.

Definition escapes {A} (rel : string) : result A string := Err ("path escapes project root: " +:+ rel).
Definition failed {A} (what : string) (r : result A io_error) : result A string :=
  res_map_err (λ e, what +:+ " failed: " +:+ show_io_error e) r.

Section paths.
(** The current directory of the process. *)
Context (cwd : loc).

(** The path below the root that is meant, for an absolute path what is left of it. *)
(* chisl-ai-agent/src/manager/remote/local_fs_mcp/tools.rs:233-255 resolve_under_root *)
Definition working (f : fs) (root_canon : loc) (rel : string) : result string string :=
  let trimmed := trim rel in
  let input := components trimmed in
  if is_absolute input then
    let? abs_canon := (if exists_ cwd f input then res_map abs (failed "canonicalize" (canonicalize cwd f input)) else Ok input) in
    match strip_path abs_canon (abs root_canon) with
    | Some stripped => if bool_decide (stripped = []) then Ok "." else Ok (render stripped)
    | None => escapes rel
    end
  else if String.eqb trimmed EmptyString then Ok "." else Ok trimmed.

(** The path without links as far as it exists, the rest as it is written. *)
(* chisl-ai-agent/src/manager/remote/local_fs_mcp/tools.rs:272-287 resolve_under_root *)
Definition settle (f : fs) (joined : path) (rel : string) : result path string :=
  if exists_ cwd f joined then res_map abs (failed "canonicalize" (canonicalize cwd f joined))
  else
    match List.find (exists_ cwd f) (tail (ancestors joined)) with
    | None => Err ("no existing ancestor for: " +:+ rel)
    | Some existing =>
        let? existing_canon := failed "canonicalize ancestor" (canonicalize cwd f existing) in
        match strip_path joined existing with
        | Some t => Ok (join (abs existing_canon) t)
        | None => Err "strip_prefix failed: prefix not found"
        end
    end.

(* chisl-ai-agent/src/manager/remote/local_fs_mcp/tools.rs:232-293 resolve_under_root *)
Definition resolve_under_root (f : fs) (root : path) (rel : string) : result path string :=
  let? root_canon := failed "project root canonicalize" (canonicalize cwd f root) in
  let? w := working f root_canon rel in
  let rel_path := components (if String.eqb w EmptyString then "." else w) in
  if existsb (λ c, bool_decide (c = ParentDir)) rel_path then escapes rel else
  let? canon := settle f (join root rel_path) rel in
  if path_starts_with canon (abs root_canon) then Ok canon else escapes rel.
End paths.

(* ------------------------------------------------------------------ *)
(** ** Commands *)

Module ShellSpec.
(* chisl-ai-agent/src/manager/remote/local_fs_mcp/shell.rs:159-165 ShellSpec *)
Record t := mk { program : string; arg : string; label : string }.
(* chisl-ai-agent/src/manager/remote/local_fs_mcp/shell.rs:172-174 ShellSpec::parts *)
Definition parts (s : t) : string * string := (program s, arg s).
End ShellSpec.
(* chisl-ai-agent/src/manager/remote/local_fs_mcp/shell.rs:22-22 SHELL_TIMEOUT *)
Definition SHELL_TIMEOUT : Z := 120.
(* chisl-ai-agent/src/manager/remote/local_fs_mcp/shell.rs:25-25 SHELL_TIMEOUT_ENV *)
Definition SHELL_TIMEOUT_ENV : string := "AIONUI_LOCAL_SHELL_TIMEOUT_SECS".
(* chisl-ai-agent/src/manager/remote/local_fs_mcp/shell.rs:37-37 MAX_SHELL_OUTPUT *)
Definition MAX_SHELL_OUTPUT : nat := N.to_nat (1024 * 1024).
(* chisl-ai-agent/src/manager/remote/local_fs_mcp/shell.rs:41-41 SHELL_OVERRIDE_ENV *)
Definition SHELL_OVERRIDE_ENV : string := "AIONUI_LOCAL_SHELL".

(** The last piece of a text between separators. *)
Fixpoint last_piece (sep : Ascii.ascii → bool) (cur s : string) : string :=
  match s with
  | EmptyString => cur
  | String a s' => if sep a then last_piece sep EmptyString s' else last_piece sep (cur +:+ String a EmptyString) s'
  end.
(* chisl-ai-agent/src/manager/remote/local_fs_mcp/shell.rs:180-182 basename *)
Definition basename (p : string) : string := last_piece (λ a, Ascii.eqb a slash || Ascii.eqb a backslash) EmptyString p.

Section environment.
(** The variables of the process, and [std::env::consts::OS]. *)
Context (env : string → option string) (os : string).
(** In seconds. *)
(* chisl-ai-agent/src/manager/remote/local_fs_mcp/shell.rs:27-33 shell_timeout *)
Definition shell_timeout : Z :=
  match s ← env SHELL_TIMEOUT_ENV; res_ok (parse_usize s) with Some n => Z.of_N n | None => SHELL_TIMEOUT end.
Definition set_var (k : string) : option string :=
  s ← env k; if String.eqb (trim s) EmptyString then None else Some s.
(* chisl-ai-agent/src/manager/remote/local_fs_mcp/shell.rs:216-229 resolve_shell *)
Definition resolve_shell : ShellSpec.t :=
  let shell := default "/bin/sh" (match set_var SHELL_OVERRIDE_ENV with Some s => Some s | None => set_var "SHELL" end) in
  ShellSpec.mk shell "-c" (os +:+ "/" +:+ basename shell).
(* chisl-ai-agent/src/manager/remote/local_fs_mcp/shell.rs:232-234 shell_hint *)
Definition shell_hint : string := ShellSpec.label resolve_shell.
End environment.

(** What the machine makes of a command: when the shell ends and what the wait for it gives
    (the exit code, none after a signal), what comes through the two pipes, and when the last
    of the other processes that inherited a pipe lets go of it, if ever.  Milliseconds from
    the start. *)
Module Process.
Record t := mk {
  ends : option (Z * result (option Z) string); out : list Z; err : list Z;
  out_held : option Z; err_held : option Z }.
End Process.

(** Until when a reader waits for the end of its pipe, which the shell held until [t]. *)
Definition read_to_end (t : Z) (held : option Z) : option Z := Z.max t <$> held.
Definition show_exit (code : option Z) : string := match code with Some c => show_i64 c | None => "terminated by signal" end.
Definition section_of (title s : string) : string :=
  if String.eqb (trim s) EmptyString then EmptyString
  else title +:+ nl +:+ s +:+ (if ends_with_char newline s then EmptyString else nl).
(* chisl-ai-agent/src/manager/remote/local_fs_mcp/shell.rs:291-321 run_shell *)
Definition shell_report (code : option Z) (stdout stderr : string) : string :=
  let report := "exit code: " +:+ show_exit code +:+ nl +:+ section_of "--- stdout ---" stdout +:+ section_of "--- stderr ---" stderr in
  if Nat.ltb MAX_SHELL_OUTPUT (length (bytes report))
  then of_bytes (take (boundary report MAX_SHELL_OUTPUT) (bytes report)) +:+ nl +:+ from_chars [8230] +:+ "[output truncated]"
  else report.
(** When the call returns and with what; [None]: it does not return. *)
(* chisl-ai-agent/src/manager/remote/local_fs_mcp/shell.rs:275-322 run_shell *)
Definition run_process (timeout : Z) (p : Process.t) : option (Z * (string * bool)) :=
  match Process.ends p with
  | Some (t, status) =>
      if t <=? timeout * 1000 then
        match status with
        | Err e => Some (t, ("failed to wait on shell: " +:+ e, true))
        | Ok code =>
            t_out ← read_to_end t (Process.out_held p); t_err ← read_to_end t_out (Process.err_held p);
            Some (t_err, (shell_report code (from_utf8_lossy (Process.out p)) (from_utf8_lossy (Process.err p)),
                          negb (bool_decide (code = Some 0))))
        end
      else
        t_out ← read_to_end (timeout * 1000) (Process.out_held p); t_err ← read_to_end t_out (Process.err_held p);
        Some (t_err, ("command timed out after " +:+ show_i64 timeout +:+ "s", true))
  | None =>
      t_out ← read_to_end (timeout * 1000) (Process.out_held p); t_err ← read_to_end t_out (Process.err_held p);
      Some (t_err, ("command timed out after " +:+ show_i64 timeout +:+ "s", true))
  end.

(* ------------------------------------------------------------------ *)
(** ** JSON-RPC *)

(* chisl-ai-agent/src/manager/remote/local_fs_mcp/protocol.rs:8-8 PROTOCOL_VERSION_LATEST *)
Definition PROTOCOL_VERSION_LATEST : string := "2025-03-26".
(* chisl-ai-agent/src/manager/remote/local_fs_mcp/protocol.rs:9-9 PROTOCOL_VERSION_MIN *)
Definition PROTOCOL_VERSION_MIN : string := "2024-11-05".
(** Strings are ordered by their bytes. *)
(* chisl-ai-agent/src/manager/remote/local_fs_mcp/protocol.rs:14-23 negotiate_protocol_version *)
Definition negotiate_protocol_version (client_version : option string) : string :=
  match client_version with
  | None => PROTOCOL_VERSION_LATEST
  | Some v =>
      if String.eqb v "2025-03-26" then PROTOCOL_VERSION_LATEST
      else if String.eqb v "2024-11-05" then PROTOCOL_VERSION_MIN
      else if String.leb PROTOCOL_VERSION_LATEST v then PROTOCOL_VERSION_LATEST
      else if String.leb PROTOCOL_VERSION_MIN v then PROTOCOL_VERSION_MIN
      else PROTOCOL_VERSION_MIN
  end.
(* chisl-ai-agent/src/manager/remote/local_fs_mcp/protocol.rs:24-24 SERVER_NAME *)
Definition SERVER_NAME : string := "aionui-local-fs".
(* chisl-ai-agent/src/manager/remote/local_fs_mcp/protocol.rs:25-25 SERVER_VERSION *)
Definition SERVER_VERSION : string := "0.1.0".
(* chisl-ai-agent/src/manager/remote/local_fs_mcp/protocol.rs:27-27 METHOD_NOT_FOUND *)
Definition METHOD_NOT_FOUND : Z := -32601.
(* chisl-ai-agent/src/manager/remote/local_fs_mcp/protocol.rs:28-28 INVALID_PARAMS *)
Definition INVALID_PARAMS : Z := -32602.
(* chisl-ai-agent/src/manager/remote/local_fs_mcp/protocol.rs:29-29 INTERNAL_ERROR *)
Definition INTERNAL_ERROR : Z := -32603.
Module JsonRpcRequest.
(* chisl-ai-agent/src/manager/remote/local_fs_mcp/protocol.rs:32-39 JsonRpcRequest *)
Record t := mk { jsonrpc : string; id : option json; method : string; params : option json }.
End JsonRpcRequest.
Module JsonRpcError.
(* chisl-ai-agent/src/manager/remote/local_fs_mcp/protocol.rs:53-58 JsonRpcError *)
Record t := mk { code : Z; message : string; data : option json }.
Definition to_json (e : t) : json :=
  Obj ([("code", num (code e))] ++ option_list ((λ d, ("data", d)) <$> data e) ++ [("message", Str (message e))]).
End JsonRpcError.
Module JsonRpcResponse.
(* chisl-ai-agent/src/manager/remote/local_fs_mcp/protocol.rs:42-50 JsonRpcResponse *)
Record t := mk { jsonrpc : string; id : option json; result : option json; err : option JsonRpcError.t }.
(* chisl-ai-agent/src/manager/remote/local_fs_mcp/protocol.rs:61-68 JsonRpcResponse::success *)
Definition success (id : option json) (result : json) : t := mk "2.0" id (Some result) None.
(* chisl-ai-agent/src/manager/remote/local_fs_mcp/protocol.rs:70-81 JsonRpcResponse::error *)
Definition error (id : option json) (code : Z) (message : string) : t := mk "2.0" id None (Some (JsonRpcError.mk code message None)).
(** What is absent is left out. *)
(* chisl-ai-agent/src/manager/remote/local_fs_mcp/server.rs:422-424 json_response *)
Definition to_json (r : t) : json :=
  Obj (option_list ((λ e, ("error", JsonRpcError.to_json e)) <$> err r) ++ option_list ((λ i, ("id", i)) <$> id r) ++
       [("jsonrpc", Str (jsonrpc r))] ++ option_list ((λ x, ("result", x)) <$> result r)).
End JsonRpcResponse.

(* ------------------------------------------------------------------ *)
(** ** The state *)

Module OpencodeToolSnapshotRow.
(* chisl-db/src/models/opencode_tool_snapshot.rs:11-17 OpencodeToolSnapshotRow *)
Record t := mk { tool_call_id : string; conversation_id : string; commit_sha : string; files_changed_json : string; created_at : Z }.
End OpencodeToolSnapshotRow.
Abbreviation Ledger := (list OpencodeToolSnapshotRow.t).
(** [tool_call_id] is the primary key. *)
(* chisl-db/src/repository/sqlite_opencode_tool_snapshot.rs:30-54 SqliteOpencodeToolSnapshotRepository::insert *)
Definition insert (row : OpencodeToolSnapshotRow.t) (rows : Ledger) : Ledger * result unit DbError.t :=
  if existsb (λ r, String.eqb (OpencodeToolSnapshotRow.tool_call_id r) (OpencodeToolSnapshotRow.tool_call_id row)) rows
  then (rows, Err (DbError.Conflict ("Opencode tool snapshot for tool_call_id '" +:+ OpencodeToolSnapshotRow.tool_call_id row +:+ "' already exists")))
  else (rows ++ [row], Ok tt).
(* chisl-db/src/repository/sqlite_opencode_tool_snapshot.rs:56-64 SqliteOpencodeToolSnapshotRepository::get_by_tool_call_id *)
Definition get_by_tool_call_id (id : string) (rows : Ledger) : option OpencodeToolSnapshotRow.t :=
  List.find (λ r, String.eqb (OpencodeToolSnapshotRow.tool_call_id r) id) rows.
(* chisl-db/src/repository/sqlite_opencode_tool_snapshot.rs:66-76 SqliteOpencodeToolSnapshotRepository::list_by_conversation *)
Definition list_by_conversation (c : string) (rows : Ledger) : Ledger :=
  sort_by OpencodeToolSnapshotRow.created_at (List.filter (λ r, String.eqb (OpencodeToolSnapshotRow.conversation_id r) c) rows).

(** The snapshots of [chisl-file], which are commits of a git repository. *)
Class SnapshotService (S : Type) := {
  snapshot_init : string → S → S * result unit AppError.t;
  commit_tool_snapshot : string → list string → S → S * result string AppError.t }.

(** The part of the hook that does not change; [init_done] is in the state. *)
Module SnapshotHook.
(* chisl-ai-agent/src/manager/remote/local_fs_mcp/tools.rs:28-37 SnapshotHook *)
Record t := mk { conversation_id : string; workspace_root : path }.
End SnapshotHook.

Module LedgerHookOutcome.
(* chisl-ai-agent/src/manager/remote/local_fs_mcp/tools.rs:517-526 LedgerHookOutcome *)
Record t := mk {
  tool_call_id : string; conversation_id : string; stage : string; success : bool; files_count : nat;
  commit_sha : option string; error : option string; warning : option string }.
End LedgerHookOutcome.

(** What an approver is asked. *)
Inductive Ask :=
| Ask_shell (command cwd : string) (ctx : McpRequestContext.t)
| Ask_fs (action detail cwd : string) (ctx : McpRequestContext.t).
(** [None]: no channel to the user. *)
Abbreviation Approver := (option (Ask → ShellApproval)).
(** An approver that only knows [approve_shell_with_context]. *)
(* chisl-ai-agent/src/manager/remote/local_fs_mcp/shell.rs:100-109 ShellApprover::approve_fs_action *)
Definition approve_as_command (approve : string → string → McpRequestContext.t → ShellApproval) (q : Ask) : ShellApproval :=
  match q with
  | Ask_shell command cwd ctx => approve command cwd ctx
  | Ask_fs action detail cwd ctx => approve (action +:+ " " +:+ detail) cwd ctx
  end.

Module Local.
(** [now] is the clock of the ledger, [asked] what the user was asked, [contacted] whether
    anyone has reached the server since the flag was last cleared. *)
Record t {St : Type} := mk { files : fs; snaps : St; ledger : Ledger; init_done : bool; now : Z; asked : list Ask; contacted : bool }.
Arguments t : clear implicits.
Arguments mk {_}.
Definition set_files {St : Type} (f : fs) (s : t St) : t St := mk f (snaps s) (ledger s) (init_done s) (now s) (asked s) (contacted s).
Definition set_snaps {St : Type} (x : St) (s : t St) : t St := mk (files s) x (ledger s) (init_done s) (now s) (asked s) (contacted s).
Definition set_ledger {St : Type} (l : Ledger) (s : t St) : t St := mk (files s) (snaps s) l (init_done s) (now s) (asked s) (contacted s).
Definition set_init {St : Type} (s : t St) : t St := mk (files s) (snaps s) (ledger s) true (now s) (asked s) (contacted s).
Definition ask {St : Type} (q : Ask) (s : t St) : t St := mk (files s) (snaps s) (ledger s) (init_done s) (now s) (asked s ++ [q]) (contacted s).
Definition set_contacted {St : Type} (b : bool) (s : t St) : t St :=
  mk (files s) (snaps s) (ledger s) (init_done s) (now s) (asked s) b.
End Local.

Module ContactProbe.
(* chisl-ai-agent/src/manager/remote/local_fs_mcp/server.rs:84-86 ContactProbe::was_contacted *)
Definition was_contacted {St : Type} (s : Local.t St) : bool := Local.contacted s.
(* chisl-ai-agent/src/manager/remote/local_fs_mcp/server.rs:90-92 ContactProbe::reset *)
Definition reset {St : Type} (s : Local.t St) : Local.t St := Local.set_contacted false s.
(** The first of a series is reported. *)
(* chisl-ai-agent/src/manager/remote/local_fs_mcp/server.rs:111-118 ContactProbe::record *)
Definition record {St : Type} (s : Local.t St) : Local.t St * bool := (Local.set_contacted true s, negb (Local.contacted s)).
(** [next]: when the flag is next raised, after the waiter came. *)
(* chisl-ai-agent/src/manager/remote/local_fs_mcp/server.rs:97-107 ContactProbe::wait_for_first_contact *)
Definition wait_for_first_contact {St : Type} (timeout : Z) (next : option Z) (s : Local.t St) : bool :=
  Local.contacted s || match next with Some t => t <=? timeout | None => false end.
End ContactProbe.

(* ------------------------------------------------------------------ *)
(** ** The tools *)

Section tools.
Context (cwd : loc) `{JsonCodec}.
(** What is not the code's own: base64, the messages of serde, the order of a directory's
    entries, the walk of the [ignore] crate (an error, or a path and whether it is a regular
    file), regular expressions, and the shell. *)
Context (base64 : string → string) (serde_error : string → json → string) (dir_order : list (string * node) → list (string * node)).
Context (walker : fs → path → list (option (path * bool))) (regex : string → bool → result (string → bool) string).
Context (env : string → option string) (os : string) (spawn : ShellSpec.t → string → path → fs → fs * result Process.t string).
Context {St : Type} `{SnapshotService St}.
Abbreviation Local := (Local.t St).

Definition params {A} (of_json : json → option A) (name : string) (args : json) : result A string :=
  match of_json args with Some x => Ok x | None => Err ("invalid params: " +:+ serde_error name args) end.

(* chisl-ai-agent/src/manager/remote/local_fs_mcp/tools.rs:678-703 read_file *)
Definition read_file (root : path) (rel : string) (f : fs) : result string string :=
  let? p := resolve_under_root cwd f root rel in
  let? meta := failed "stat" (metadata cwd f p) in
  match meta with
  | File c =>
      let len := Z.of_nat (String.length c) in
      if MAX_READ_BYTES <? len
      then Err ("file too large (" +:+ show_i64 len +:+ " bytes; cap is " +:+ show_i64 MAX_READ_BYTES +:+ ")")
      else
        let? b := failed "read" (read cwd f p) in
        match from_utf8 (bytes b) with
        | Some text => Ok text
        | None => Ok (to_string (Obj [("content", Str (base64 b)); ("encoding", Str "base64")]))
        end
  | _ => Err ("not a regular file: " +:+ rel)
  end.

(** The directories on the way to a path. *)
Definition make_parent (p : path) (f : fs) : fs * result unit string :=
  match path_parent p with
  | Some parent => let '(f, r) := create_dir_all cwd parent f in (f, failed "mkdir" r)
  | None => (f, Ok tt)
  end.
(* chisl-ai-agent/src/manager/remote/local_fs_mcp/tools.rs:705-716 write_file *)
Definition write_file (root : path) (rel content : string) (f : fs) : fs * result string string :=
  match resolve_under_root cwd f root rel with
  | Err e => (f, Err e)
  | Ok p =>
      match make_parent p f with
      | (f, Err e) => (f, Err e)
      | (f, Ok _) =>
          let '(f, r) := write cwd p content f in
          (f, res_map (λ _, "wrote " +:+ show_usize (N.of_nat (String.length content)) +:+ " bytes to " +:+ rel) (failed "write" r))
      end
  end.

(* chisl-ai-agent/src/manager/remote/local_fs_mcp/tools.rs:732-744 list_dir *)
Definition list_entry (nx : string * node) : ListEntry.t :=
  match nx.2 with
  | Dir => ListEntry.mk nx.1 "dir" None
  | File c => ListEntry.mk nx.1 "file" (Some (Z.of_nat (String.length c)))
  | Link _ => ListEntry.mk nx.1 "symlink" None
  end.
Definition entries_of (f : fs) (p : path) : result (list (string * node)) io_error :=
  let? l := canonicalize cwd f p in
  match f !! l with Some Dir => Ok (dir_order (read_dir f l)) | Some _ => Err ENOTDIR | None => Err ENOENT end.
(* chisl-ai-agent/src/manager/remote/local_fs_mcp/tools.rs:718-752 list_dir *)
Definition list_dir (root : path) (rel : string) (f : fs) : result string string :=
  let? p := resolve_under_root cwd f root rel in
  let? meta := failed "stat" (metadata cwd f p) in
  if negb (is_directory meta) then Err ("not a directory: " +:+ rel) else
  let? all := failed "readdir" (entries_of f p) in
  Ok (to_string (Obj [
    ("entries", Arr (map (λ nx, ListEntry.to_json (list_entry nx)) (take MAX_LIST_ENTRIES all)));
    ("path", Str (if String.eqb (trim rel) EmptyString then "." else rel));
    ("truncated", Bool (Nat.ltb MAX_LIST_ENTRIES (length all)))])).

(** The matching lines of a file, added to the matches so far; and whether one was left out. *)
(* chisl-ai-agent/src/manager/remote/local_fs_mcp/tools.rs:787-800 grep_dir *)
Fixpoint grep_lines (re : string → bool) (rel_path : string) (idx : Z) (ls : list string) (matches : list json) : list json * bool :=
  match ls with
  | [] => (matches, false)
  | line :: ls =>
      if re line then
        if Nat.leb MAX_GREP_MATCHES (length matches) then (matches, true)
        else grep_lines re rel_path (idx + 1) ls
               (matches ++ [Obj [("line", num (idx + 1)); ("path", Str rel_path); ("text", Str line)]])
      else grep_lines re rel_path (idx + 1) ls matches
  end.
Definition read_to_string (f : fs) (p : path) : option string :=
  match read cwd f p with Ok c => from_utf8 (bytes c) | Err _ => None end.
(* chisl-ai-agent/src/manager/remote/local_fs_mcp/tools.rs:764-804 grep_dir *)
Fixpoint grep_files (f : fs) (root : path) (re : string → bool) (dents : list (option (path * bool))) (scanned : nat) (matches : list json) :
    nat * list json * bool :=
  match dents with
  | [] => (scanned, matches, false)
  | Some (p, true) :: dents =>
      if Nat.leb MAX_GREP_FILES scanned then (scanned, matches, true) else
      match read_to_string f p with
      | None => grep_files f root re dents (S scanned) matches
      | Some contents =>
          let '(matches, truncated) := grep_lines re (render (default p (strip_path p root))) 0 (lines contents) matches in
          if Nat.leb MAX_GREP_MATCHES (length matches) then (S scanned, matches, truncated)
          else grep_files f root re dents (S scanned) matches
      end
  | _ :: dents => grep_files f root re dents scanned matches
  end.
(* chisl-ai-agent/src/manager/remote/local_fs_mcp/tools.rs:754-813 grep_dir *)
Definition grep_dir (root : path) (pattern rel : string) (case_insensitive : bool) (f : fs) : result string string :=
  let? base := resolve_under_root cwd f root rel in
  let? re := res_map_err (λ e, "bad regex: " +:+ e) (regex pattern case_insensitive) in
  let '(scanned, matches, truncated) := grep_files f root re (walker f base) 0 [] in
  Ok (to_string (Obj [("files_scanned", num (Z.of_nat scanned)); ("matches", Arr matches); ("pattern", Str pattern); ("truncated", Bool truncated)])).

(* chisl-ai-agent/src/manager/remote/local_fs_mcp/tools.rs:815-823 delete_file *)
Definition delete_file (root : path) (rel : string) (f : fs) : fs * result string string :=
  match (let? p := resolve_under_root cwd f root rel in let? meta := failed "stat" (metadata cwd f p) in Ok (p, meta)) with
  | Err e => (f, Err e)
  | Ok (p, File _) => let '(f, r) := remove_file cwd p f in (f, res_map (λ _, "deleted " +:+ rel) (failed "remove" r))
  | Ok _ => (f, Err ("not a regular file: " +:+ rel))
  end.
(* chisl-ai-agent/src/manager/remote/local_fs_mcp/tools.rs:825-837 rename *)
Definition rename (root : path) (from to : string) (f : fs) : fs * result string string :=
  match (let? p := resolve_under_root cwd f root from in let? q := resolve_under_root cwd f root to in Ok (p, q)) with
  | Err e => (f, Err e)
  | Ok (p, q) =>
      match make_parent q f with
      | (f, Err e) => (f, Err e)
      | (f, Ok _) => let '(f, r) := FileSystem.rename cwd p q f in
                     (f, res_map (λ _, "renamed " +:+ from +:+ " -> " +:+ to) (failed "rename" r))
      end
  end.

(** The answer of a process, which may never come. *)
(* chisl-ai-agent/src/manager/remote/local_fs_mcp/shell.rs:240-322 run_shell *)
Definition shell_run (root : path) (command : string) (f : fs) : fs * option (string * bool) :=
  let spec := resolve_shell env os in
  let '(f, r) := spawn spec command root f in
  (f, match r with
      | Err e => Some ("failed to launch shell (" +:+ ShellSpec.program spec +:+ "): " +:+ e, true)
      | Ok p => snd <$> run_process (shell_timeout env) p
      end).

Section requests.
Context (approver : Approver).
(* chisl-ai-agent/src/manager/remote/local_fs_mcp/tools.rs:442-461 approve_destructive *)
Definition approve_destructive (ctx : McpRequestContext.t) (root : path) (action detail : string) (s : Local) : Local * result unit string :=
  match approver with
  | None => (s, Err (action +:+ " is unavailable: no approval channel is configured for this session"))
  | Some answer =>
      let q := Ask_fs action detail (render root) ctx in
      (Local.ask q s,
       match answer q with
       | RemoteState.ShellApproval.Allow => Ok tt
       | RemoteState.ShellApproval.Reject => Err (action +:+ " was rejected by the user")
       | RemoteState.ShellApproval.TimedOut => Err (action +:+ " approval timed out waiting for the user")
       end)
  end.
(* chisl-ai-agent/src/manager/remote/local_fs_mcp/tools.rs:653-676 run_shell *)
Definition run_shell (ctx : McpRequestContext.t) (root : path) (command : string) (s : Local) : Local * option (string * bool) :=
  let command := trim command in
  if String.eqb command EmptyString then (s, Some ("empty command", true)) else
  match approver with
  | None => (s, Some ("shell execution is unavailable: no approval channel is configured for this session", true))
  | Some answer =>
      let q := Ask_shell command (render root) ctx in
      let s := Local.ask q s in
      match answer q with
      | RemoteState.ShellApproval.Allow => let '(f, r) := shell_run root command (Local.files s) in (Local.set_files f s, r)
      | RemoteState.ShellApproval.Reject => (s, Some ("command was rejected by the user", true))
      | RemoteState.ShellApproval.TimedOut => (s, Some ("shell approval timed out waiting for user", true))
      end
  end.

(** The text, whether it is an error, and the files that changed. *)
Abbreviation Outcome := (result (string * bool * list string) string).
Definition done_with (changed : list string) (r : result string string) : Outcome := res_map (λ t, (t, false, changed)) r.
(* chisl-ai-agent/src/manager/remote/local_fs_mcp/tools.rs:416-419 dispatch_read *)
Definition dispatch_read (root : path) (args : json) (s : Local) : Outcome :=
  let? input := params ReadInput.of_json "ReadInput" args in
  done_with [] (read_file root (ReadInput.path input) (Local.files s)).
(* chisl-ai-agent/src/manager/remote/local_fs_mcp/tools.rs:421-426 dispatch_write *)
Definition dispatch_write (root : path) (args : json) (s : Local) : Local * Outcome :=
  match params WriteInput.of_json "WriteInput" args with
  | Err e => (s, Err e)
  | Ok input =>
      let '(f, r) := write_file root (WriteInput.path input) (WriteInput.content input) (Local.files s) in
      (Local.set_files f s, done_with [WriteInput.path input] r)
  end.
(* chisl-ai-agent/src/manager/remote/local_fs_mcp/tools.rs:428-431 dispatch_list *)
Definition dispatch_list (root : path) (args : json) (s : Local) : Outcome :=
  let? input := params ListInput.of_json "ListInput" args in
  done_with [] (list_dir root (ListInput.path input) (Local.files s)).
(* chisl-ai-agent/src/manager/remote/local_fs_mcp/tools.rs:433-436 dispatch_grep *)
Definition dispatch_grep (root : path) (args : json) (s : Local) : Outcome :=
  let? input := params GrepInput.of_json "GrepInput" args in
  done_with [] (grep_dir root (GrepInput.pattern input) (GrepInput.path input) (GrepInput.case_insensitive input) (Local.files s)).
(* chisl-ai-agent/src/manager/remote/local_fs_mcp/tools.rs:463-474 dispatch_delete *)
Definition dispatch_delete (ctx : McpRequestContext.t) (root : path) (args : json) (s : Local) : Local * Outcome :=
  match params DeleteInput.of_json "DeleteInput" args with
  | Err e => (s, Err e)
  | Ok input =>
      match approve_destructive ctx root "delete_file" (DeleteInput.path input) s with
      | (s, Err e) => (s, Err e)
      | (s, Ok _) =>
          let '(f, r) := delete_file root (DeleteInput.path input) (Local.files s) in
          (Local.set_files f s, done_with [DeleteInput.path input] r)
      end
  end.
(* chisl-ai-agent/src/manager/remote/local_fs_mcp/tools.rs:476-492 dispatch_rename *)
Definition dispatch_rename (ctx : McpRequestContext.t) (root : path) (args : json) (s : Local) : Local * Outcome :=
  match params RenameInput.of_json "RenameInput" args with
  | Err e => (s, Err e)
  | Ok input =>
      let detail := RenameInput.from input +:+ " -> " +:+ RenameInput.to input in
      match approve_destructive ctx root "rename" detail s with
      | (s, Err e) => (s, Err e)
      | (s, Ok _) =>
          let '(f, r) := rename root (RenameInput.from input) (RenameInput.to input) (Local.files s) in
          (Local.set_files f s, done_with [RenameInput.from input; RenameInput.to input] r)
      end
  end.
(* chisl-ai-agent/src/manager/remote/local_fs_mcp/tools.rs:494-508 dispatch_run_shell *)
Definition dispatch_run_shell (ctx : McpRequestContext.t) (root : path) (args : json) (s : Local) : Local * option Outcome :=
  match params ShellInput.of_json "ShellInput" args with
  | Err e => (s, Some (Err e))
  | Ok input => let '(s, r) := run_shell ctx root (ShellInput.command input) s in (s, (λ x, Ok (x, [])) <$> r)
  end.

(* ------------------------------------------------------------------ *)
(** ** The snapshot of a call *)

Section snapshots.
Context (hook : SnapshotHook.t).
(** [Ok true]: the repository is there, maybe from an earlier call. *)
(* chisl-ai-agent/src/manager/remote/local_fs_mcp/tools.rs:568-587 commit_tool_snapshot_after *)
Definition init_once (s : Local) : Local * result unit string :=
  if Local.init_done s then (s, Ok tt) else
  match snapshot_init (render (SnapshotHook.workspace_root hook)) (Local.snaps s) with
  | (x, Err e) => (Local.set_snaps x s, Err ("snapshot service init failed: " +:+ AppError.to_string e))
  | (x, Ok _) => (Local.set_init (Local.set_snaps x s), Ok tt)
  end.
(* chisl-ai-agent/src/manager/remote/local_fs_mcp/tools.rs:553-649 commit_tool_snapshot_after *)
Definition commit_tool_snapshot_after (tool_call_id : string) (changed : list string) (s : Local) : Local * LedgerHookOutcome.t :=
  let conversation_id := SnapshotHook.conversation_id hook in
  let outcome stage success sha error warning :=
    LedgerHookOutcome.mk tool_call_id conversation_id stage success (length changed) sha error warning in
  match changed with
  | [] => (s, outcome "skipped" true None None (Some "no changed files; hook is a no-op"))
  | _ =>
      match init_once s with
      | (s, Err e) => (s, outcome "init" false None (Some e) None)
      | (s, Ok _) =>
          match commit_tool_snapshot tool_call_id changed (Local.snaps s) with
          | (x, Err e) => (Local.set_snaps x s, outcome "commit" false None (Some ("commit_tool_snapshot failed: " +:+ AppError.to_string e)) None)
          | (x, Ok sha) =>
              let s := Local.set_snaps x s in
              let row := OpencodeToolSnapshotRow.mk tool_call_id conversation_id sha (to_string (Arr (map Str changed))) (Local.now s) in
              match insert row (Local.ledger s) with
              | (_, Err e) => (s, outcome "persist" false (Some sha) (Some ("insert opencode_tool_snapshots ledger row: " +:+ DbError.to_string e)) None)
              | (rows, Ok _) => (Local.set_ledger rows s, outcome "complete" true (Some sha) None None)
              end
          end
      end
  end.
End snapshots.

(* ------------------------------------------------------------------ *)
(** ** Dispatch *)

Context (snapshot_hook : option SnapshotHook.t).
(* chisl-ai-agent/src/manager/remote/local_fs_mcp/tools.rs:385-394 dispatch *)
Definition run_tool (root : path) (tool : string) (args : json) (ctx : McpRequestContext.t) (s : Local) : Local * option Outcome :=
  let read (r : Outcome) := (s, Some r) in
  let change (sr : Local * Outcome) := (fst sr, Some (snd sr)) in
  if String.eqb tool "read_file" then read (dispatch_read root args s)
  else if String.eqb tool "write_file" then change (dispatch_write root args s)
  else if String.eqb tool "list_dir" then read (dispatch_list root args s)
  else if String.eqb tool "grep_dir" then read (dispatch_grep root args s)
  else if String.eqb tool "delete_file" then change (dispatch_delete ctx root args s)
  else if String.eqb tool "rename" then change (dispatch_rename ctx root args s)
  else if String.eqb tool "run_shell" then dispatch_run_shell ctx root args s
  else read (Err ("unknown tool: " +:+ tool)).
(** The snapshot of a successful call that changed files. *)
(* chisl-ai-agent/src/manager/remote/local_fs_mcp/tools.rs:396-413 dispatch *)
Definition after_tool (tool_call_id : option string) (r : Outcome) (s : Local) : Local * (string * bool) :=
  match r with
  | Ok (text, false, changed) =>
      (match changed, tool_call_id, snapshot_hook with
       | _ :: _, Some id, Some hook => fst (commit_tool_snapshot_after hook id changed s)
       | _, _, _ => s
       end, (text, false))
  | Ok (text, true, _) => (s, (text, true))
  | Err msg => (s, (msg, true))
  end.
(* chisl-ai-agent/src/manager/remote/local_fs_mcp/tools.rs:374-414 dispatch *)
Definition dispatch (root : path) (tool : string) (args : json) (ctx : McpRequestContext.t) (tool_call_id : option string) (s : Local) :
    Local * option (string * bool) :=
  match run_tool root tool args ctx s with
  | (s, None) => (s, None)
  | (s, Some r) => let '(s, answer) := after_tool tool_call_id r s in (s, Some answer)
  end.

(* ------------------------------------------------------------------ *)
(** ** The server *)

(** A text in double quotes. *)
Definition quoted_text (s : string) : string := String dquote (s +:+ String dquote EmptyString).
(* chisl-ai-agent/src/manager/remote/local_fs_mcp/tools.rs:112-222 all_tool_descriptors *)
Definition all_tool_descriptors : list ToolDescriptor.t :=
  [ToolDescriptor.mk "read_file"
    ("Read a UTF-8 text file from the user's local project. Paths are RELATIVE to the project root (e.g. " +:+ quoted_text "src/main.rs" +:+ "). " +:+
     "Do NOT prepend the workspace's absolute path that appears in session context. " +:+
     "Use this instead of any built-in read tools — the project lives on the user's machine, not yours. " +:+
     "If you're unsure whether a path exists, call list_dir first — never tell the user a file is missing without verifying.")
    (Obj [("properties", Obj [
       ("path", Obj [("description", Str ("Relative path inside the project root (e.g. " +:+ quoted_text "src/main.rs" +:+ "). Do not prepend the workspace's absolute path.")); ("type", Str "string")])]);
       ("required", Arr [Str "path"]); ("type", Str "object")]) READ_ONLY_ANNOTATIONS;
   ToolDescriptor.mk "write_file"
    ("Create or overwrite a UTF-8 text file in the user's local project. Paths are RELATIVE to the project root (e.g. " +:+
     quoted_text "src/main.rs" +:+ "). Do NOT prepend the workspace's absolute path that appears in session context. " +:+
     "Use this instead of any built-in write tools — the project lives on the user's machine, not yours.")
    (Obj [("properties", Obj [
       ("content", Obj [("type", Str "string")]);
       ("path", Obj [("description", Str "Relative path inside the project root. Do not prepend the workspace's absolute path."); ("type", Str "string")])]);
       ("required", Arr [Str "path"; Str "content"]); ("type", Str "object")]) MUTATING_ANNOTATIONS;
   ToolDescriptor.mk "list_dir"
    ("List directory entries in the user's local project. Pass " +:+ quoted_text EmptyString +:+ " or " +:+ quoted_text "." +:+ " for the project root. " +:+
     "Subdirectories are RELATIVE (e.g. " +:+ quoted_text "src" +:+ " or " +:+ quoted_text "docs/api" +:+ "). " +:+
     "Do NOT prepend the workspace's absolute path that appears in session context. " +:+
     "Call this whenever you need to confirm what is or isn't present — do not assume from prior turns. " +:+
     "Re-list after any write/delete/rename if subsequent decisions depend on the new layout.")
    (Obj [("properties", Obj [
       ("path", Obj [("default", Str EmptyString); ("description", Str (quoted_text EmptyString +:+ " or " +:+ quoted_text "." +:+ " for the project root, otherwise a relative subdirectory (e.g. " +:+ quoted_text "src" +:+ "). Do not prepend the workspace's absolute path.")); ("type", Str "string")])]); ("type", Str "object")]) READ_ONLY_ANNOTATIONS;
   ToolDescriptor.mk "grep_dir"
    ("Search for a regular expression across files in the user's local project. Respects .gitignore. " +:+
     "`path` is RELATIVE to project root (default: project root). " +:+
     "Do NOT prepend the workspace's absolute path that appears in session context.")
    (Obj [("properties", Obj [
       ("case_insensitive", Obj [("default", Bool false); ("type", Str "boolean")]);
       ("path", Obj [("default", Str EmptyString); ("description", Str ("Relative subdirectory; " +:+ quoted_text EmptyString +:+ " for the project root. Do not prepend the workspace's absolute path.")); ("type", Str "string")]);
       ("pattern", Obj [("description", Str "Regex pattern."); ("type", Str "string")])]);
       ("required", Arr [Str "pattern"]); ("type", Str "object")]) READ_ONLY_ANNOTATIONS;
   ToolDescriptor.mk "delete_file"
    ("Delete a file in the user's local project. Paths are RELATIVE to project root. " +:+
     "Do NOT prepend the workspace's absolute path that appears in session context. " +:+
     "The user must approve each deletion before it happens, so never claim a file was deleted until this tool returns success.")
    (Obj [("properties", Obj [
       ("path", Obj [("description", Str "Relative path inside the project root. Do not prepend the workspace's absolute path."); ("type", Str "string")])]);
       ("required", Arr [Str "path"]); ("type", Str "object")]) MUTATING_ANNOTATIONS;
   ToolDescriptor.mk "rename"
    ("Rename or move a file within the user's local project. Both paths RELATIVE to project root. " +:+
     "Do NOT prepend the workspace's absolute path that appears in session context. " +:+
     "The user must approve each rename/move before it happens, so never claim it succeeded until this tool returns success.")
    (Obj [("properties", Obj [
       ("from", Obj [("description", Str "Relative source path. Do not prepend the workspace's absolute path."); ("type", Str "string")]);
       ("to", Obj [("description", Str "Relative destination path. Do not prepend the workspace's absolute path."); ("type", Str "string")])]);
       ("required", Arr [Str "from"; Str "to"]); ("type", Str "object")]) MUTATING_ANNOTATIONS;
   ToolDescriptor.mk "run_shell"
    ("Run a shell command on the USER'S LOCAL machine — where their project actually lives — " +:+
     "and return its stdout, stderr, and exit code. " +:+
     "Use this to verify your work: build, run tests, run linters/formatters, git, or any terminal command. " +:+
     "Your own built-in/remote shell cannot see this project, so this is the ONLY way to execute commands against it. " +:+
     "The command runs in the project root using the user's native shell (the session context states which OS/shell — " +:+
     "write the command in that syntax). " +:+
     "IMPORTANT: every call requires the user to approve the exact command before it runs, so combine related steps into one command rather than issuing many small ones. " +:+
     "Output is BUFFERED — the user sees nothing until the command exits. " +:+
     "If a `run_shell_streaming` tool is available in your toolset, prefer it for long-running or verbose commands so the user sees live output.")
    (Obj [("properties", Obj [
       ("command", Obj [("description", Str "The exact command line to run in the user's native shell, in that shell's syntax."); ("type", Str "string")])]);
       ("required", Arr [Str "command"]); ("type", Str "object")]) SHELL_ANNOTATIONS].
(* chisl-ai-agent/src/manager/remote/local_fs_mcp/tools.rs:105-110 tool_descriptors_for_state *)
Definition tool_descriptors_for_state (has_approver : bool) : list ToolDescriptor.t :=
  List.filter (λ d, has_approver || negb (bool_decide (ToolDescriptor.name d ∈ APPROVAL_GATED_TOOLS))) all_tool_descriptors.

(* chisl-ai-agent/src/manager/remote/local_fs_mcp/server.rs:435-442 annotations_to_json *)
Definition annotations_to_json (a : ToolAnnotations.t) : json :=
  Obj [("destructiveHint", Bool (ToolAnnotations.destructive_hint a)); ("idempotentHint", Bool (ToolAnnotations.idempotent_hint a));
       ("openWorldHint", Bool (ToolAnnotations.open_world_hint a)); ("readOnlyHint", Bool (ToolAnnotations.read_only_hint a))].
(* chisl-ai-agent/src/manager/remote/local_fs_mcp/server.rs:426-433 tool_descriptor_to_json *)
Definition tool_descriptor_to_json (d : ToolDescriptor.t) : json :=
  Obj [("annotations", annotations_to_json (ToolDescriptor.annotations d)); ("description", Str (ToolDescriptor.description d));
       ("inputSchema", ToolDescriptor.input_schema d); ("name", Str (ToolDescriptor.name d))].

(** The value of a header, when it is text. *)
Abbreviation Headers := (string → option string).
Definition non_empty (s : option string) : option string := s ← s; if String.eqb s EmptyString then None else Some s.
(* chisl-ai-agent/src/manager/remote/local_fs_mcp/server.rs:43-58 extract_request_context *)
Definition extract_request_context (headers : Headers) : McpRequestContext.t :=
  McpRequestContext.mk (non_empty (headers "x-opencode-session-id")) (non_empty (headers "x-opencode-parent-session-id")).
(* chisl-ai-agent/src/manager/remote/local_fs_mcp/server.rs:411-420 constant_time_eq *)
Definition constant_time_eq (a b : list Z) : bool :=
  Nat.eqb (length a) (length b) && (foldl (λ diff xy, Z.lor diff (Z.lxor xy.1 xy.2)) 0 (combine a b) =? 0).
(* chisl-ai-agent/src/manager/remote/local_fs_mcp/server.rs:401-409 auth_ok *)
Definition auth_ok (headers : Headers) (expected : string) : bool :=
  match v ← headers "authorization"; strip_prefix "Bearer " v with
  | Some token => constant_time_eq (bytes token) (bytes expected)
  | None => false
  end.
(* chisl-ai-agent/src/manager/remote/local_fs_mcp/server.rs:450-459 jsonrpc_id_to_string *)
Definition jsonrpc_id_to_string (id : json) : string :=
  match id with Str s => s | Num n => n | Null => EmptyString | other => to_string other end.

(* chisl-ai-agent/src/manager/remote/local_fs_mcp/server.rs:283-399 handle_rpc *)
Definition handle_rpc (root : path) (auth_token : string) (headers : Headers) (req : JsonRpcRequest.t) (s : Local) :
    Local * option (Z * json) :=
  let s := fst (ContactProbe.record s) in
  let id := JsonRpcRequest.id req in
  let method := JsonRpcRequest.method req in
  let answer r := (s, Some (200, JsonRpcResponse.to_json r)) in
  let needs_auth := negb (bool_decide (method ∈ ["initialize"; "notifications/initialized"; "ping"])) in
  if needs_auth && negb (auth_ok headers auth_token)
  then (s, Some (401, JsonRpcResponse.to_json (JsonRpcResponse.error id INTERNAL_ERROR "missing or invalid bearer token")))
  else if String.eqb method "initialize" then
    let client_version := p ← JsonRpcRequest.params req; v ← get "protocolVersion" p; as_str v in
    answer (JsonRpcResponse.success id (Obj [
      ("capabilities", Obj [("tools", Obj [])]); ("protocolVersion", Str (negotiate_protocol_version client_version));
      ("serverInfo", Obj [("name", Str SERVER_NAME); ("version", Str SERVER_VERSION)])]))
  else if bool_decide (method ∈ ["notifications/initialized"; "notifications/cancelled"]) then
    (s, Some (204, JsonRpcResponse.to_json (JsonRpcResponse.success id Null)))
  else if String.eqb method "tools/list" then
    answer (JsonRpcResponse.success id (Obj [("tools",
      Arr (map tool_descriptor_to_json (tool_descriptors_for_state (bool_decide (approver ≠ None)))))]))
  else if String.eqb method "tools/call" then
    let params := default (Obj []) (JsonRpcRequest.params req) in
    let tool_name := default EmptyString (v ← get "name" params; as_str v) in
    if String.eqb tool_name EmptyString then answer (JsonRpcResponse.error id INVALID_PARAMS "missing tool name") else
    let arguments := default (Obj []) (get "arguments" params) in
    let tool_call_id := non_empty (jsonrpc_id_to_string <$> id) in
    match dispatch root tool_name arguments (extract_request_context headers) tool_call_id s with
    | (s, None) => (s, None)
    | (s, Some (text, is_error)) =>
        (s, Some (200, JsonRpcResponse.to_json (JsonRpcResponse.success id (Obj [
           ("content", Arr [Obj [("text", Str text); ("type", Str "text")]]); ("isError", Bool is_error)]))))
    end
  else if String.eqb method "ping" then answer (JsonRpcResponse.success id (Obj []))
  else answer (JsonRpcResponse.error id METHOD_NOT_FOUND ("method not found: " +:+ method)).
End requests.

(* ------------------------------------------------------------------ *)
(** ** The listing for the model *)

(** Its own walk, which heeds ignore files without a repository too. *)
Context (tree_walker : fs → path → list (option (path * bool))).
(* chisl-ai-agent/src/manager/remote/local_fs_mcp/project_tree.rs:13-13 DEFAULT_MAX_ENTRIES *)
Definition DEFAULT_MAX_ENTRIES : nat := 400.
(** The files below the root as they are met, at most one more than four times the limit;
    and whether the walk was cut short. *)
(* chisl-ai-agent/src/manager/remote/local_fs_mcp/project_tree.rs:29-52 render_project_tree *)
Fixpoint collect_files (root : path) (max_entries : nat) (dents : list (option (path * bool))) (entries : list string) : list string * bool :=
  match dents with
  | [] => (entries, false)
  | Some (p, true) :: dents =>
      match strip_path p root with
      | Some (_ :: _ as rel) =>
          let entries := entries ++ ["./" +:+ render rel] in
          if Nat.ltb (max_entries * 4) (length entries) then (entries, true) else collect_files root max_entries dents entries
      | _ => collect_files root max_entries dents entries
      end
  | _ :: dents => collect_files root max_entries dents entries
  end.
(* chisl-ai-agent/src/manager/remote/local_fs_mcp/project_tree.rs:18-72 render_project_tree *)
Definition render_project_tree (root : path) (max_entries : nat) (f : fs) : string :=
  let max_entries := Nat.max 1 max_entries in
  let '(entries, truncated) := collect_files root max_entries (tree_walker f root) [] in
  let entries := merge_sort String.le entries in
  let truncated := truncated || Nat.ltb max_entries (length entries) in
  let entries := take max_entries entries in
  match entries with
  | [] => "(project is empty)"
  | _ => str_join nl entries +:+
         (if truncated then nl +:+ from_chars [8230] +:+ " (listing truncated at " +:+ show_usize (N.of_nat max_entries) +:+
                            " entries; use list_dir for deeper subtrees)"
          else EmptyString)
  end.
(* chisl-ai-agent/src/manager/remote/local_fs_mcp/project_tree.rs:75-77 render_project_tree_default *)
Definition render_project_tree_default (root : path) (f : fs) : string := render_project_tree root DEFAULT_MAX_ENTRIES f.
End tools.
