(* ===== verification/LocalFsFacts.v ===== *)
(** * LocalFsFacts: the tools stay in the project

    What a resolved path is, that the tools change nothing outside a project without symbolic
    links and read nothing outside it even with them (while no path takes more than forty of
    them), that nothing changes without the token
    and the user's leave, that a written file reads back, and what the ledger keeps; the
    examples at the end show what a link does. *)

From S2P Require Import Prelude.
From S2P Require Import Text.
From S2P Require Import JsonValue.
From S2P Require Import TeamTypes.
From S2P Require Import Common.
From S2P Require Import PluginRegistry.
From S2P Require Import RemoteState.
From S2P Require Import RemotePrompts.
From S2P Require Import Paths.
From S2P Require Import FileSystem.
From S2P Require Import FileService.
From S2P Require Import FileFacts.
From S2P Require Import LocalFs.

(* ------------------------------------------------------------------ *)
(** ** Walks *)

(** A walk to a directory goes on from there, with the links that are left. *)
Lemma walk_app f m p : ∀ k cur l, walk f false k cur p = Ok l → f !! l = Some Dir →
  ∃ k', (k' ≤ k)%nat ∧ ∀ q, walk f m k cur (p ++ q) = walk f m k' l q.
Proof.
  intros k. revert p. induction k as [k IHk] using lt_wf_ind. intros p. induction p as [|c p IHp]; intros cur l.
  - rewrite walk_nil. intros [= <-] _. by exists k.
  - destruct c as [| | |n].
    + rewrite walk_root. intros Hw Hl. destruct (IHp _ _ Hw Hl) as (k'&Hk&Hq). exists k'. split; [done|]. intros q. simpl app. by rewrite walk_root.
    + rewrite walk_cur. intros Hw Hl. destruct (IHp _ _ Hw Hl) as (k'&Hk&Hq). exists k'. split; [done|]. intros q. simpl app. by rewrite walk_cur.
    + rewrite walk_parent. intros Hw Hl. destruct (IHp _ _ Hw Hl) as (k'&Hk&Hq). exists k'. split; [done|]. intros q. simpl app. by rewrite walk_parent.
    + rewrite walk_normal. destruct (f !! (cur ++ [n])) as [[x| |t]|] eqn:Hn.
      * case_bool_decide; [|done]. intros [= <-]. congruence.
      * intros Hw Hl. destruct (IHp _ _ Hw Hl) as (k'&Hk&Hq). exists k'. split; [done|]. intros q. simpl app. by rewrite walk_normal, Hn.
      * destruct k as [|k]; [done|]. intros Hw Hl. destruct (IHk k ltac:(lia) _ _ _ Hw Hl) as (k'&Hk&Hq). exists k'. split; [lia|].
        intros q. simpl app. by rewrite walk_normal, Hn, <- Hq, app_assoc.
      * done.
Qed.

(** More links do no harm. *)
Lemma walk_more f m p : ∀ k k' cur, (k ≤ k')%nat → walk f m k cur p ≠ Err ELOOP → walk f m k' cur p = walk f m k cur p.
Proof.
  intros k. revert p. induction k as [k IHk] using lt_wf_ind. intros p. induction p as [|c p IHp]; intros k' cur Hk; [by rewrite !walk_nil|].
  destruct c as [| | |n].
  - rewrite !walk_root. by apply IHp.
  - rewrite !walk_cur. by apply IHp.
  - rewrite !walk_parent. by apply IHp.
  - rewrite !walk_normal. destruct (f !! (cur ++ [n])) as [[x| |t]|]; [done|by apply IHp| |done].
    destruct k as [|k]; [done|]. destruct k' as [|k']; [lia|]. apply IHk; lia.
Qed.

(** What fails on the way fails. *)
Lemma walk_fails f p q : ∀ k cur e, walk f false k cur p = Err e → walk f false k cur (p ++ q) = Err e.
Proof.
  intros k. revert p. induction k as [k IHk] using lt_wf_ind. intros p. induction p as [|c p IHp]; intros cur e; [by rewrite walk_nil|].
  destruct c as [| | |n]; simpl app.
  - rewrite !walk_root. apply IHp.
  - rewrite !walk_cur. apply IHp.
  - rewrite !walk_parent. apply IHp.
  - rewrite !walk_normal. destruct (f !! (cur ++ [n])) as [[x| |t]|]; [|apply IHp| |done].
    + case_bool_decide; [done|]. intros [= <-]. case_bool_decide as Hb; [|done]. by apply app_eq_nil in Hb as [??].
    + destruct k as [|k]; [done|]. rewrite app_assoc. apply IHk. lia.
Qed.

(** Through a directory under its own name no link is followed; a file is the end. *)
Lemma walk_from_dir f m l k q : fs_ok f → f !! l = Some Dir → walk f m k [] (map Normal l ++ q) = walk f m k l q.
Proof.
  intros Hok. assert (∀ r p, f !! (p ++ r) = Some Dir → walk f m k p (map Normal r ++ q) = walk f m k (p ++ r) q) as Hw; [|by apply (Hw l [])].
  induction r as [|n r IH]; intros p Hp; simpl; [by rewrite app_nil_r|]. rewrite walk_normal.
  replace (p ++ n :: r) with ((p ++ [n]) ++ r) in * by (by rewrite <- app_assoc).
  assert (f !! (p ++ [n]) = Some Dir) as ->; [|by apply IH].
  destruct (decide (r = [])) as [->|Hr]; [by rewrite app_nil_r in Hp|]. apply (fs_ok_prefix f _ r Hok); [by rewrite Hp|done].
Qed.
Lemma walk_through_file f m k d n c q : fs_ok f → f !! (d ++ [n]) = Some (File c) → q ≠ [] →
  walk f m k [] (map Normal (d ++ [n]) ++ q) = Err ENOTDIR.
Proof.
  intros Hok Hf Hq. assert (f !! d = Some Dir) as Hd by (apply (fs_ok_prefix f d [n] Hok); [by rewrite Hf|done]).
  rewrite map_app, <- app_assoc, (walk_from_dir f m d k _ Hok Hd). simpl. rewrite walk_normal, Hf. by rewrite bool_decide_false.
Qed.

(* ------------------------------------------------------------------ *)
(** ** Components and ancestors *)

Definition no_parent (p : path) : bool := negb (existsb (λ c, bool_decide (c = ParentDir)) p).

Lemma segments_names l : no_parent (omap segment l) = true → ∃ names, omap segment l = map Normal names.
Proof.
  induction l as [|s l IH]; simpl; [by exists []|]. destruct (segment s) as [c|] eqn:Hs; [|exact IH].
  assert (c = ParentDir ∨ ∃ n, c = Normal n) as [->|[n ->]]; [|done|].
  { unfold segment in Hs. destruct (_ || _); [done|]. destruct (String.eqb s ".."); injection Hs as <-; [by left|right; by exists s]. }
  intros Hp. destruct (IH Hp) as [names Hn]. exists (n :: names). simpl. f_equal. exact Hn.
Qed.
(** A text without dot-dots is names below the root or below where it is. *)
Lemma components_names s : no_parent (components s) = true →
  ∃ names, components s = RootDir :: map Normal names ∨ components s = CurDir :: map Normal names ∨ components s = map Normal names.
Proof.
  unfold components. destruct s as [|a s]; [by exists []; right; right|]. destruct (Ascii.eqb a slash).
  - intros Hp. destruct (segments_names (segments s) Hp) as [names ->]. exists names. by left.
  - destruct (segments (String a s)) as [|x rest]; [by exists []; right; right|]. destruct (String.eqb x ".").
    + intros Hp. destruct (segments_names rest Hp) as [names ->]. exists names. by right; left.
    + intros Hp. destruct (segments_names (x :: rest) Hp) as [names ->]. exists names. by right; right.
Qed.
(** Such a text below the root is a plain place. *)
Lemma joined_abs root s : no_parent (components s) = true → ∃ j, join (abs root) (components s) = abs j ∧
  (is_absolute (components s) = false → root `prefix_of` j).
Proof.
  intros Hp. destruct (components_names s Hp) as (names&[->|[->| ->]]).
  - exists names. split; [done|]. intros H. discriminate H.
  - exists (root ++ names). split; [|intros _; by apply prefix_app_r]. rewrite <- join_names. unfold join. simpl. destruct names; [by rewrite app_nil_r|done].
  - exists (root ++ names). split; [by apply join_names|]. intros _. by apply prefix_app_r.
Qed.

Lemma ancestors_abs j n : ancestors (abs (j ++ [n])) = abs (j ++ [n]) :: ancestors (abs j).
Proof.
  unfold ancestors. assert (length (abs (j ++ [n])) = S (length (abs j))) as -> by (unfold abs; simpl; rewrite !length_map, length_app; simpl; lia).
  cbn [ancestors_from]. by rewrite parent_abs.
Qed.
(** The nearest ancestor: the next place does not exist. *)
Lemma nearest (P : path → bool) j e : P (abs j) = false → List.find P (tail (ancestors (abs j))) = Some e →
  ∃ j1 m j2, j = j1 ++ m :: j2 ∧ e = abs j1 ∧ P e = true ∧ P (abs (j1 ++ [m])) = false.
Proof.
  induction j as [|n j IH] using rev_ind; intros Hj; [intros Hf; discriminate Hf|]. rewrite ancestors_abs. cbn [tail].
  destruct (ancestors (abs j)) as [|a rest] eqn:Ha; [done|]. assert (a = abs j) as ->.
  { destruct j as [|x j' _] using rev_ind; [by injection Ha as <-|]. rewrite ancestors_abs in Ha. by injection Ha as <-. }
  cbn [List.find]. destruct (P (abs j)) eqn:Hpj.
  - intros [= <-]. by exists j, n, [].
  - intros Hf. destruct (IH eq_refl Hf) as (j1&m&j2&->&He&Hp&Hm).
    exists j1, m, (j2 ++ [n]). by rewrite <- app_assoc.
Qed.

(* ------------------------------------------------------------------ *)
(** ** Moving a subtree *)

Definition moved (l l' : loc) (f : fs) : list (loc * node) :=
  omap (λ kv, (λ t, (l' ++ t, kv.2)) <$> strip l kv.1) (map_to_list f).
Lemma elem_of_moved l l' f k x : (k, x) ∈ moved l l' f ↔ ∃ t, k = l' ++ t ∧ f !! (l ++ t) = Some x.
Proof.
  unfold moved. rewrite list_elem_of_omap. split.
  - intros ([p y]&Hin&Hs). apply elem_of_map_to_list in Hin. simpl in Hs. destruct (strip l p) as [t|] eqn:Ht; [|done].
    apply strip_Some in Ht as ->. simpl in Hs. injection Hs as <- <-. by exists t.
  - intros (t&->&Hx). exists (l ++ t, x). split; [by apply elem_of_map_to_list|]. simpl. by rewrite (proj2 (strip_Some l (l ++ t) t)).
Qed.
Lemma move_there l l' f t x : f !! (l ++ t) = Some x → move l l' f !! (l' ++ t) = Some x.
Proof.
  intros Hx. unfold move. apply lookup_union_Some_l. change ((list_to_map (moved l l' f) : fs) !! (l' ++ t) = Some x).
  apply elem_of_list_to_map_1'; [|apply elem_of_moved; by exists t]. intros y (t'&Ht&Hy)%elem_of_moved. apply app_inv_head in Ht as <-. congruence.
Qed.
Lemma move_cases l l' f q x : move l l' f !! q = Some x →
  (∃ t, q = l' ++ t ∧ f !! (l ++ t) = Some x) ∨ (f !! q = Some x ∧ below l q = false ∧ q ≠ l').
Proof.
  unfold move. rewrite lookup_union_Some_raw. intros [Hm|[_ Hf]].
  - left. apply elem_of_list_to_map_2 in Hm. by apply elem_of_moved in Hm.
  - right. apply map_lookup_filter_Some in Hf as (Hf&Hb&Hq). done.
Qed.
Lemma fs_ok_move l d n f : fs_ok f → f !! d = Some Dir → below l (d ++ [n]) = false →
  (∀ t, t ≠ [] → f !! ((d ++ [n]) ++ t) = None) → fs_ok (move l (d ++ [n]) f).
Proof.
  intros Hok Hd Hb Hnone. pose proof Hok as [Hroot Hup].
  assert (∀ p, f !! p = Some Dir → below l p = false → (∀ t, p ≠ (d ++ [n]) ++ t) → move l (d ++ [n]) f !! p = Some Dir) as Hstay.
  { intros p Hp Hl Hne. rewrite move_lookup; [exact Hp|exact Hl|]. destruct (below (d ++ [n]) p) eqn:He; [|reflexivity]. apply is_prefix_spec in He as [t Ht]. by destruct (Hne t). }
  assert (∀ p q, below l (p ++ q) = false → below l p = false) as Hbelow.
  { intros p q Hf. destruct (below l p) eqn:He; [|done]. apply is_prefix_spec in He as [t ->]. rewrite <- app_assoc in Hf.
    rewrite <- Hf. symmetry. apply is_prefix_spec. by exists (t ++ q). }
  split.
  - apply Hstay; [done|by apply (Hbelow [] (d ++ [n]))|]. intros t Ht. by destruct d.
  - intros p m [y Hy]. apply move_cases in Hy as [(t&Ht&Hy)|(Hy&Hl&Hne)].
    + destruct t as [|z t _] using rev_ind.
      * rewrite app_nil_r in Ht. apply app_inj_tail in Ht as [-> ->]. apply Hstay; [done|by apply (Hbelow d [n])|].
        intros t Ht. apply (f_equal length) in Ht. rewrite !length_app in Ht. simpl in Ht. lia.
      * rewrite app_assoc in Ht. apply app_inj_tail in Ht as [-> ->]. apply move_there. apply (Hup _ z). by rewrite <- app_assoc, Hy.
    + apply Hstay; [by apply (Hup p m); rewrite Hy|by apply (Hbelow p [m])|]. intros t ->.
      rewrite <- app_assoc in Hy. rewrite Hnone in Hy; [done|by destruct t].
Qed.

(* ------------------------------------------------------------------ *)
(** ** Resolved paths *)

Section project.
Context (cwd root : loc).

Definition in_project (l : loc) : Prop := root `prefix_of` l.
Definition rooted (f : fs) : Prop := fs_ok f ∧ f !! root = Some Dir.
(** The project without links. *)
Definition project_ok (f : fs) : Prop := rooted f ∧ ∀ l t, in_project l → f !! l ≠ Some (Link t).

Lemma canonicalize_root f : rooted f → canonicalize cwd f (abs root) = Ok root.
Proof. intros [Hok Hr]. apply canonicalize_abs; [done|]. by exists Dir. Qed.
Lemma canonicalize_solid_abs f j l : fs_ok f → canonicalize cwd f (abs j) = Ok l → solid f l.
Proof.
  intros Hok. unfold canonicalize, abs, from. cbn [is_absolute]. intros Hw.
  by destruct (walk_ends f false Hok _ _ _ _ (proj1 Hok) Hw) as [?|[? _]].
Qed.
Lemma exists_abs f j : fs_ok f → exists_ cwd f (abs j) = true ↔ ∃ l, canonicalize cwd f (abs j) = Ok l.
Proof.
  intros Hok. unfold exists_, metadata. destruct (canonicalize cwd f (abs j)) as [l|e] eqn:Hc; cbn [res_bind]; [|by split; [|intros [? ?]]].
  destruct (canonicalize_solid_abs f j l Hok Hc) as (x&->&_). split; [by exists l|done].
Qed.
(** Going on from a place that was found. *)
Lemma canonicalize_app f j1 l q : fs_ok f → canonicalize cwd f (abs j1) = Ok l → f !! l = Some Dir →
  ∃ k, (k ≤ MAX_LINKS)%nat ∧ canonicalize cwd f (abs (j1 ++ q)) = walk f false k l (map Normal q).
Proof.
  intros Hok. unfold canonicalize, abs, from. cbn [is_absolute map]. rewrite !walk_root, map_app. intros Hw Hl.
  destruct (walk_app f false (map Normal j1) MAX_LINKS [] l Hw Hl) as (k&Hk&Hq). exists k. split; [done|]. by rewrite Hq.
Qed.

(** What follows the place that was found: nothing, or a name that leads nowhere. *)
Definition dangling (f : fs) (j l t : loc) : Prop :=
  t = [] ∨ ∃ m t' j1, t = m :: t' ∧ j = j1 ++ m :: t' ∧ canonicalize cwd f (abs j1) = Ok l ∧ exists_ cwd f (abs (j1 ++ [m])) = false.

Lemma settle_spec f j rel p : fs_ok f → settle cwd f (abs j) rel = Ok p →
  ∃ j1 l t, j = j1 ++ t ∧ p = abs (l ++ t) ∧ canonicalize cwd f (abs j1) = Ok l ∧ dangling f j l t.
Proof.
  intros Hok. unfold settle. destruct (exists_ cwd f (abs j)) eqn:He.
  - apply (exists_abs f j Hok) in He as [l Hl]. rewrite Hl. intros [= <-]. exists j, l, []. rewrite !app_nil_r. split_and!; [done..|by left].
  - destruct (List.find _ _) as [e|] eqn:Hf; [|done]. destruct (nearest _ j e He Hf) as (j1&m&j2&->&->&Hp&Hm).
    apply (exists_abs f j1 Hok) in Hp as [l Hl]. rewrite Hl. cbn [failed res_map_err res_bind]. rewrite strip_abs, join_names. intros [= <-].
    exists j1, l, (m :: j2). split_and!; [done..|]. right. by exists m, j2, j1.
Qed.

(** The path that is meant, before links are followed. *)
Definition wanted (f : fs) (rel : string) : result path string :=
  let? w := working cwd f root rel in Ok (join (abs root) (components (if String.eqb w EmptyString then "." else w))).
(** A resolved path is below the root, and what there is of it is no link. *)
Lemma resolve_sound f rel p : rooted f → resolve_under_root cwd f (abs root) rel = Ok p →
  ∃ j l t, wanted f rel = Ok (abs j) ∧ p = abs (l ++ t) ∧ in_project l ∧ solid f l ∧ dangling f j l t.
Proof.
  intros Hr. pose proof Hr as [Hok Hroot]. unfold resolve_under_root, wanted. rewrite canonicalize_root by done. cbn [failed res_map_err res_bind].
  destruct (working _ _ _ _) as [w|]; [|done]. cbn [res_bind]. destruct (existsb _ _) eqn:Hp; [done|].
  destruct (joined_abs root (if String.eqb w EmptyString then "." else w)) as (j&Hj&_); [unfold no_parent; by rewrite Hp|]. rewrite Hj.
  destruct (settle _ _ _ _) as [q|] eqn:Hs; [|done]. cbn [res_bind]. destruct (path_starts_with _ _) eqn:Hin; [|done]. intros [= <-].
  destruct (settle_spec f j rel q Hok Hs) as (j1&l&t&Hjt&->&Hl&Ht). exists j, l, t. pose proof (canonicalize_solid_abs f j1 l Hok Hl) as Hsol.
  split_and!; [done|done| |done|done]. rewrite starts_with_abs in Hin. apply is_prefix_spec in Hin as [r Hr']. unfold in_project.
  destruct (prefix_weak_total root l (l ++ t)) as [?|[s ->]]; [exists r; exact Hr'|by exists t|done|].
  destruct s as [|m s]; [by rewrite app_nil_r|]. exfalso.
  rewrite <- app_assoc in Hr'. apply app_inv_head in Hr'. destruct Ht as [->|(m'&t'&j1'&->&_&Hj1'&Hm)]; [done|].
  simpl in Hr'. injection Hr' as <- Hr'. assert (f !! l = Some Dir) as Hld by (apply (fs_ok_prefix f l (m' :: s) Hok); [by rewrite Hroot|done]).
  assert (f !! (l ++ [m']) = Some Dir) as Hm1.
  { destruct s as [|s0 s]; [exact Hroot|]. apply (fs_ok_prefix f (l ++ [m']) (s0 :: s) Hok); [|done]. rewrite <- app_assoc. simpl. by rewrite Hroot. }
  destruct (canonicalize_app f j1' l [m'] Hok Hj1' Hld) as (k&_&Hk). cbn [map] in Hk. rewrite walk_normal, Hm1, walk_nil in Hk.
  assert (exists_ cwd f (abs (j1' ++ [m'])) = true) by (apply exists_abs; eauto). congruence.
Qed.

(** Without links, what does not exist is not there. *)
Lemma resolve_in_project f rel p : project_ok f → resolve_under_root cwd f (abs root) rel = Ok p →
  ∃ l t, p = abs (l ++ t) ∧ in_project l ∧ solid f l ∧ (t = [] ∨ ∃ m t', t = m :: t' ∧ f !! (l ++ [m]) = None).
Proof.
  intros [Hr Hno] Hp. destruct (resolve_sound f rel p Hr Hp) as (j&l&t&_&->&Hin&Hs&Ht). pose proof Hr as [Hok _]. exists l, t. split_and!; [done..|].
  destruct Ht as [->|(m&t'&j1&->&_&Hj1&Hm)]; [by left|]. right. exists m, t'. split; [done|].
  destruct Hs as (x&Hx&Hxl). destruct (f !! (l ++ [m])) as [y|] eqn:Hy; [|done]. exfalso.
  assert (f !! l = Some Dir) as Hld by (apply (fs_ok_prefix f l [m] Hok); [by rewrite Hy|done]).
  destruct (canonicalize_app f j1 l [m] Hok Hj1 Hld) as (k&_&Hk). cbn [map] in Hk. rewrite walk_normal, Hy, walk_nil in Hk.
  assert (exists_ cwd f (abs (j1 ++ [m])) = true) as He; [|congruence]. apply exists_abs; [done|].
  destruct y as [c| |t]; [exists (l ++ [m]); rewrite Hk; by rewrite bool_decide_true|by exists (l ++ [m])|]. destruct (Hno (l ++ [m]) t); [by apply prefix_app_r|done].
Qed.

(* ------------------------------------------------------------------ *)
(** ** What changes *)

Abbreviation grown := (FileFacts.grown cwd [abs root]).
Lemma inside_project f l : rooted f → inside_of cwd [abs root] f l ↔ in_project l.
Proof.
  intros Hr. split.
  - intros (r0&r&q&Hin&Hc&->). apply list_elem_of_singleton in Hin as ->. rewrite canonicalize_root in Hc by done. injection Hc as <-. by apply prefix_app_r.
  - intros [q ->]. exists (abs root), root, q. split_and!; [by apply list_elem_of_singleton|by apply canonicalize_root|done].
Qed.

(** The project stays a project, and nothing else changes. *)
Definition keeps (f f' : fs) : Prop := project_ok f' ∧ ∀ l, ¬ in_project l → f' !! l = f !! l.
Lemma keeps_project_refl f : project_ok f → keeps f f.
Proof. by split. Qed.
Lemma keeps_project_trans f g h : keeps f g → keeps g h → keeps f h.
Proof. intros [_ Hfg] [Hh Hgh]. split; [done|]. intros l Hl. by rewrite Hgh, Hfg. Qed.

Lemma project_grown f : project_ok f → grown f f.
Proof. intros [Hr Hno]. apply grown_refl; [apply Hr|]. intros l t Hl. apply Hno. by apply (inside_project f). Qed.
Lemma grown_keeps f f' : project_ok f → grown f f' → keeps f f'.
Proof.
  intros [Hr Hno] [Hok He Ho Hl]. split; [split; [split; [done|]|]|].
  - destruct (He root Dir (proj2 Hr)) as (y&Hy&Hd). rewrite Hy. by destruct y.
  - intros l t Hin. apply Hl. by apply inside_project.
  - intros l Hin. apply Ho. by rewrite inside_project.
Qed.

(** The directories on the way to a place of the project. *)
Lemma make_parent_grown f d n f' r : project_ok f → in_project (d ++ [n]) → make_parent cwd (abs (d ++ [n])) f = (f', r) →
  grown f f' ∧ (r = Ok tt → f' !! d = Some Dir).
Proof.
  intros Hp [q Hq]. pose proof (project_grown f Hp) as Hg. pose proof Hp as [[Hok Hroot] _]. unfold make_parent. rewrite parent_abs.
  destruct (create_dir_all cwd (abs d) f) as [f1 r1] eqn:Hc. intros [= <- <-].
  unfold create_dir_all, abs in Hc. cbn [create_dirs app] in Hc. change [RootDir] with (abs []) in Hc.
  rewrite (metadata_abs cwd f [] Dir) in Hc; [|done|apply Hok|done].
  apply (grown_create cwd [abs root] f d [] f f1 r1) in Hc as [Hg1 Hd]; [|done|apply Hok|].
  - split; [done|]. intros Hr. apply Hd. destruct r1 as [u|e]; [by destruct u|discriminate Hr].
  - intros k _ Hk. simpl. apply (down_to cwd [abs root] f f root q); [done|by exists Dir|apply inside_project; [done|by exists []; rewrite app_nil_r]|done|].
    rewrite <- Hq. by apply prefix_app_r.
Qed.

Lemma write_keeps f rel c f' r : project_ok f → write_file cwd (abs root) rel c f = (f', r) → grown f f'.
Proof.
  intros Hp. pose proof (project_grown f Hp) as Hg. unfold write_file.
  destruct (resolve_under_root cwd f (abs root) rel) as [p|e] eqn:Hres; [|by intros [= <- _]].
  destruct (resolve_in_project f rel p Hp Hres) as (l&t&->&Hin&_). assert (in_project (l ++ t)) as Hx by (by apply prefix_app_r).
  clear Hres Hin. revert Hx. generalize (l ++ t) as x. intros x Hx. destruct x as [|n d _] using rev_ind.
  - unfold make_parent. rewrite parent_root. unfold write, target, abs. simpl map. rewrite walk_root, walk_nil.
    rewrite (proj1 (proj1 (proj1 Hp))). by intros [= <- _].
  - destruct (make_parent cwd (abs (d ++ [n])) f) as [f1 r1] eqn:Hm. destruct (make_parent_grown f d n f1 r1 Hp Hx Hm) as [Hg1 Hd].
    destruct r1 as [[]|e]; [|by intros [= <- _]]. destruct (write cwd (abs (d ++ [n])) c f1) as [f2 r2] eqn:Hw. intros [= <- _].
    apply (grown_write cwd [abs root] f f1 d n c f2 r2 Hg1 (Hd eq_refl)); [|done]. apply inside_project; [apply Hp|done].
Qed.

Lemma fs_ok_delete f l c : fs_ok f → f !! l = Some (File c) → fs_ok (delete l f).
Proof.
  intros [Hroot Hup] Hl. split; [rewrite lookup_delete_ne; [done|]; congruence|]. intros p n Hs. assert (is_Some (f !! (p ++ [n]))) as Hs'.
  { destruct (decide (l = p ++ [n])) as [Heq|Hne]; [rewrite <- Heq, lookup_delete_eq in Hs; by destruct Hs|by rewrite lookup_delete_ne in Hs]. }
  specialize (Hup p n Hs'). rewrite lookup_delete_ne; [done|]. congruence.
Qed.
(** A resolved path that exists is without a rest. *)
Lemma resolved_exists f l t x : project_ok f → in_project l → solid f l → (t = [] ∨ ∃ m t', t = m :: t' ∧ f !! (l ++ [m]) = None) →
  metadata cwd f (abs (l ++ t)) = Ok x → t = [] ∧ f !! l = Some x.
Proof.
  intros [[Hok _] _] _ Hs Ht Hm. destruct Ht as [->|(m&t'&->&Hn)].
  - rewrite app_nil_r in Hm. destruct Hs as (y&Hy&Hyl). rewrite (metadata_abs cwd f l y) in Hm by done. injection Hm as <-. done.
  - exfalso. unfold metadata in Hm. destruct (canonicalize cwd f (abs (l ++ m :: t'))) as [l'|] eqn:Hc; [|done].
    destruct Hs as (y&Hy&Hyl). unfold canonicalize, abs, from in Hc. cbn [is_absolute] in Hc. rewrite walk_root, map_app in Hc. destruct y as [c| |tt'].
    + destruct l as [|n d _] using rev_ind; [by rewrite (proj1 Hok) in Hy|]. by rewrite (walk_through_file f false MAX_LINKS d n c) in Hc.
    + rewrite (walk_from_dir f false l MAX_LINKS _ Hok Hy) in Hc. simpl map in Hc. by rewrite walk_normal, Hn in Hc.
    + by destruct (Hyl tt').
Qed.
Lemma delete_keeps f rel f' r : project_ok f → delete_file cwd (abs root) rel f = (f', r) → keeps f f'.
Proof.
  intros Hp. pose proof (keeps_project_refl f Hp) as Hk. unfold delete_file.
  destruct (resolve_under_root cwd f (abs root) rel) as [p|e] eqn:Hres; [|by intros [= <- _]]. cbn [res_bind].
  destruct (resolve_in_project f rel p Hp Hres) as (l&t&->&Hin&Hs&Ht).
  destruct (metadata cwd f (abs (l ++ t))) as [x|e] eqn:Hm; [|by intros [= <- _]]. cbn [failed res_map_err res_bind].
  destruct (resolved_exists f l t x Hp Hin Hs Ht Hm) as [-> Hx]. rewrite app_nil_r. pose proof Hp as [[Hok Hroot] Hno].
  destruct x as [c| |]; [|by intros [= <- _]..]. assert (l ≠ root) as Hne by congruence.
  destruct l as [|n d _] using rev_ind; [by rewrite (proj1 Hok) in Hx|]. unfold remove_file.
  rewrite entry_abs, Hx; [|done|apply (fs_ok_prefix f d [n] Hok); [by rewrite Hx|done]]. intros [= <- _]. split; [split; [split|]|].
  - by apply (fs_ok_delete _ _ c).
  - by rewrite lookup_delete_ne.
  - intros q t Hq. destruct (decide (d ++ [n] = q)) as [<-|Hd]; [by rewrite lookup_delete_eq|rewrite lookup_delete_ne by done; by apply Hno].
  - intros q Hq. rewrite lookup_delete_ne; [done|]. by intros <-.
Qed.

(** Without links a path of the project is where it says. *)
Lemma walk_project f m q : project_ok f → ∀ k p l, in_project p → f !! p = Some Dir → walk f m k p (map Normal q) = Ok l → l = p ++ q.
Proof.
  intros [_ Hno]. induction q as [|n q IH]; intros k p l Hin Hp; [rewrite walk_nil, app_nil_r; by intros [= <-]|].
  cbn [map]. rewrite walk_normal. assert (in_project (p ++ [n])) as Hin' by (by apply prefix_app_r).
  replace (p ++ n :: q) with ((p ++ [n]) ++ q) by (by rewrite <- app_assoc). destruct (f !! (p ++ [n])) as [[c| |t]|] eqn:Hn.
  - case_bool_decide as Hq; [|done]. destruct q; [|done]. rewrite app_nil_r. by intros [= <-].
  - by apply IH.
  - by destruct (Hno _ t Hin').
  - destruct m; [|done]. simpl. case_bool_decide as Hq; [|done]. destruct q; [|done]. rewrite app_nil_r. by intros [= <-].
Qed.
Lemma entry_project f d n l : project_ok f → in_project (d ++ [n]) → entry cwd f (abs (d ++ [n])) = Ok l → l = d ++ [n] ∧ f !! d = Some Dir.
Proof.
  intros Hp [q Hq]. pose proof Hp as [[Hok Hroot] _]. unfold entry. rewrite parent_abs, file_name_abs. cbn [abs map].
  change (RootDir :: map Normal d) with (abs d). destruct (canonicalize cwd f (abs d)) as [l0|] eqn:Hc; [|done]. cbn [res_bind].
  assert (l0 = d) as ->.
  { destruct q as [|z q _] using rev_ind.
    - rewrite app_nil_r in Hq. rewrite canonicalize_abs in Hc; [congruence|done|]. exists Dir. split; [|done].
      apply (fs_ok_prefix f d [n] Hok); [by rewrite Hq, Hroot|done].
    - rewrite app_assoc in Hq. apply app_inj_tail in Hq as [-> ->]. 
      destruct (canonicalize_app f root root q Hok (canonicalize_root f (proj1 Hp)) Hroot) as (k&_&Hk). rewrite Hc in Hk. symmetry in Hk.
      apply (walk_project f false q Hp k root l0 ltac:(exists []; by rewrite app_nil_r) Hroot Hk). }
  destruct (f !! d) as [[| |]|]; try done. by intros [= <-].
Qed.

Lemma outside_below l q : in_project l → ¬ in_project q → below l q = false.
Proof.
  intros [a ->] Hq. destruct (below _ q) eqn:Hb; [|done]. apply is_prefix_spec in Hb as [t ->]. destruct Hq. exists (a ++ t). by rewrite app_assoc.
Qed.
(** A subtree of the project that moves to a free place, or over a file or an empty directory. *)
Lemma move_keeps f l d n x : project_ok f → in_project l → in_project (d ++ [n]) → f !! l = Some x → f !! d = Some Dir →
  below l (d ++ [n]) = false → (∀ t, t ≠ [] → f !! ((d ++ [n]) ++ t) = None) → keeps f (move l (d ++ [n]) f).
Proof.
  intros [[Hok Hroot] Hno] Hl Hl' Hx Hd Hb Hnone. split; [split; [split|]|].
  - by apply fs_ok_move.
  - destruct (below l root) eqn:Hlr.
    { apply is_prefix_spec in Hlr as [t Ht]. destruct Hl as [a ->]. rewrite <- app_assoc in Ht.
      assert (a ++ t = []) as [-> ->]%app_eq_nil by (apply (f_equal length) in Ht; rewrite length_app in Ht; apply nil_length_inv; lia).
      rewrite app_nil_r in Hb. destruct Hl' as [b Hb']. rewrite Hb' in Hb.
      assert (below root (root ++ b) = true) by (apply is_prefix_spec; by exists b). congruence. }
    rewrite move_lookup; [done|done|]. destruct (below (d ++ [n]) root) eqn:Hr; [|done]. exfalso.
    apply is_prefix_spec in Hr as [t Ht]. destruct Hl' as [b Hb']. assert (root = d ++ [n]) as Hrd.
    { rewrite Hb' in Ht. rewrite <- app_assoc in Ht. assert (b ++ t = []) as [-> ->]%app_eq_nil by (apply (f_equal length) in Ht; rewrite length_app in Ht; apply nil_length_inv; lia).
      by rewrite app_nil_r in Hb'. }
    rewrite <- Hrd in Hnone. destruct Hl as [a ->]. destruct a as [|z a].
    + rewrite app_nil_r in Hlr. assert (below root root = true) by (apply is_prefix_spec; exists []; by rewrite app_nil_r). congruence.
    + by rewrite Hnone in Hx.
  - intros q t Hq Hm. apply move_cases in Hm as [(a&->&Ha)|(Hf&_&_)]; [|by apply (Hno q t)].
    apply (Hno (l ++ a) t); [by apply prefix_app_r|done].
  - intros q Hq. apply move_lookup; by apply outside_below.
Qed.
Lemma nothing_below f l x : fs_ok f → f !! l = x → x ≠ Some Dir → ∀ t, t ≠ [] → f !! (l ++ t) = None.
Proof.
  intros Hok Hl Hx t Ht. destruct (f !! (l ++ t)) eqn:He; [|done]. destruct Hx. rewrite <- Hl. apply (fs_ok_prefix f l t Hok); [by rewrite He|done].
Qed.
Lemma fs_rename_keeps f x y : project_ok f → in_project x → in_project y → keeps f (fst (FileSystem.rename cwd (abs x) (abs y) f)).
Proof.
  intros Hp Hx Hy. pose proof (keeps_project_refl f Hp) as Hk. pose proof Hp as [[Hok _] _]. unfold FileSystem.rename.
  destruct x as [|n d _] using rev_ind; [by rewrite entry_root|]. destruct y as [|n' d' _] using rev_ind; [rewrite entry_root; by destruct (entry _ _ _)|].
  destruct (entry cwd f (abs (d ++ [n]))) as [l|] eqn:Hl; [|done]. destruct (entry cwd f (abs (d' ++ [n']))) as [l'|] eqn:Hl'; [|done].
  destruct (entry_project f d n l Hp Hx Hl) as [-> Hd]. destruct (entry_project f d' n' l' Hp Hy Hl') as [-> Hd'].
  destruct (f !! (d ++ [n])) as [z|] eqn:Hz; [|done]. destruct (below (d ++ [n]) (d' ++ [n'])) eqn:Hb; [done|].
  assert (∀ w, f !! (d' ++ [n']) = w → w ≠ Some Dir → keeps f (move (d ++ [n]) (d' ++ [n']) f)) as Hmove.
  { intros w Hw Hne. apply (move_keeps f _ _ _ z); [done..|]. by apply (nothing_below f _ w). }
  destruct z as [c| |t], (f !! (d' ++ [n'])) as [[c'| |t']|] eqn:Hw; simpl; try done; try (by apply (Hmove _ eq_refl)).
  case_bool_decide as He; simpl; [|done]. apply (move_keeps f _ _ _ Dir); [done..|]. intros t Ht.
  destruct (f !! ((d' ++ [n']) ++ t)) as [v|] eqn:Hv; [|done]. exfalso. assert (filter (λ kv : loc * node, below (d' ++ [n']) kv.1 = true ∧ kv.1 ≠ d' ++ [n']) f !! ((d' ++ [n']) ++ t) = Some v) as Hfv.
  { apply map_lookup_filter_Some. split; [done|]. split; [apply is_prefix_spec; by exists t|]. simpl. intros Heq.
    apply (f_equal length) in Heq. rewrite !length_app in Heq. destruct t; [done|]. simpl in Heq. lia. }
  by rewrite He in Hfv.
Qed.
Lemma rename_keeps f from to f' r : project_ok f → rename cwd (abs root) from to f = (f', r) → keeps f f'.
Proof.
  intros Hp. pose proof (keeps_project_refl f Hp) as Hk. unfold rename.
  destruct (resolve_under_root cwd f (abs root) from) as [p|e] eqn:Hf; [|by intros [= <- _]]. cbn [res_bind].
  destruct (resolve_under_root cwd f (abs root) to) as [q|e] eqn:Ht; [|by intros [= <- _]]. cbn [res_bind].
  destruct (resolve_in_project f from p Hp Hf) as (l&t&->&Hin&_). destruct (resolve_in_project f to q Hp Ht) as (l'&t'&->&Hin'&_).
  assert (in_project (l ++ t)) as Hx by (by apply prefix_app_r). assert (in_project (l' ++ t')) as Hy by (by apply prefix_app_r).
  clear Hf Ht Hin Hin'. revert Hx Hy. generalize (l ++ t) (l' ++ t'). clear l l' t t'. intros x y Hx Hy.
  destruct (make_parent cwd (abs y) f) as [f1 r1] eqn:Hm. assert (keeps f f1) as Hk1.
  { destruct y as [|n d _] using rev_ind; [unfold make_parent in Hm; rewrite parent_root in Hm; by injection Hm as <- _|].
    apply grown_keeps; [done|]. apply (make_parent_grown f d n f1 r1 Hp Hy Hm). }
  destruct r1 as [u|e]; [|by intros [= <- _]]. pose proof (fs_rename_keeps f1 x y (proj1 Hk1) Hx Hy) as Hk2.
  destruct (FileSystem.rename cwd (abs x) (abs y) f1) as [f2 r2]. intros [= <- _]. by apply (keeps_project_trans f f1).
Qed.

(* ------------------------------------------------------------------ *)
(** ** What is read *)

(** More than forty links on the way. *)
Definition loops (f : fs) (rel : string) : Prop :=
  ∃ p q, wanted f rel = Ok p ∧ q `prefix_of` p ∧ canonicalize cwd f q = Err ELOOP.

Lemma resolved_reads f rel p x : rooted f → ¬ loops f rel → resolve_under_root cwd f (abs root) rel = Ok p → metadata cwd f p = Ok x →
  ∃ l, p = abs l ∧ in_project l ∧ f !! l = Some x.
Proof.
  intros Hr Hloops Hp Hm. pose proof Hr as [Hok _]. destruct (resolve_sound f rel p Hr Hp) as (j&l&t&Hj&->&Hin&(y&Hy&Hyl)&Ht).
  destruct Ht as [->|(m&t'&j1&->&->&Hj1&Hno)].
  - rewrite app_nil_r in *. exists l. rewrite (metadata_abs cwd f l y) in Hm by done. injection Hm as <-. done.
  - exfalso. unfold metadata in Hm. destruct (canonicalize cwd f (abs (l ++ m :: t'))) as [l'|] eqn:Hc; [|done]. clear Hm.
    assert (f !! l = Some Dir) as Hd.
    { destruct (canonicalize_solid_abs f _ _ Hok Hc) as (z&Hz&_). destruct y as [c| |t]; [|done|by destruct (Hyl t)]. exfalso.
      destruct l as [|n d _] using rev_ind; [by rewrite (proj1 Hok) in Hy|].
      unfold canonicalize, abs, from in Hc. cbn [is_absolute] in Hc. rewrite walk_root, map_app in Hc.
      by rewrite (walk_through_file f false MAX_LINKS d n c) in Hc. }
    destruct (canonicalize_app f j1 l [m] Hok Hj1 Hd) as (k&Hk&Hw).
    assert (canonicalize cwd f (abs l) = Ok l) as Hll by (apply canonicalize_abs; [done|]; by exists Dir).
    assert (walk f false k l [Normal m] ≠ Err ELOOP) as Hne.
    { intros He. apply Hloops. exists (abs (j1 ++ m :: t')), (abs (j1 ++ [m])). split_and!; [done| |by rewrite Hw].
      exists (map Normal t'). unfold abs. rewrite !map_app, <- app_comm_cons, <- app_assoc. done. }
    destruct (walk f false k l [Normal m]) as [z|e] eqn:He.
    + assert (exists_ cwd f (abs (j1 ++ [m])) = true); [|congruence]. apply exists_abs; [done|]. exists z. by rewrite Hw.
    + assert (canonicalize cwd f (abs (l ++ m :: t')) = Err e) as Hf; [|congruence].
      unfold canonicalize, abs, from. cbn [is_absolute]. rewrite walk_root, map_app.
      replace (map Normal l ++ map Normal (m :: t')) with ((map Normal l ++ [Normal m]) ++ map Normal t') by (by rewrite <- app_assoc).
      apply walk_fails. rewrite (walk_from_dir f false l MAX_LINKS [Normal m] Hok Hd). by rewrite (walk_more f false [Normal m] k MAX_LINKS l Hk), He by (by rewrite He).
Qed.

(** A relative path of a project without links is where it says. *)
Lemma resolve_relative f rel p : project_ok f → is_absolute (components (trim rel)) = false → resolve_under_root cwd f (abs root) rel = Ok p →
  ∃ j, in_project j ∧ p = abs j ∧ ∀ f' x, project_ok f' → f' !! j = Some x → resolve_under_root cwd f' (abs root) rel = Ok (abs j).
Proof.
  intros Hp Hrel. pose proof Hp as [Hr _]. pose proof Hr as [Hok Hroot].
  assert (∀ f, working cwd f root rel = Ok (if String.eqb (trim rel) EmptyString then "." else trim rel)) as Hw.
  { intros g. unfold working. rewrite Hrel. by destruct (String.eqb (trim rel) EmptyString). }
  set (w := if String.eqb (trim rel) EmptyString then "." else trim rel) in *. assert (is_absolute (components w) = false) as Hwa.
  { unfold w. by destruct (String.eqb (trim rel) EmptyString). }
  assert ((if String.eqb w EmptyString then "." else w) = w) as Hww by (unfold w; by destruct (String.eqb_spec (trim rel) EmptyString) as [He|He]; [|destruct (String.eqb_spec (trim rel) EmptyString)]).
  unfold resolve_under_root. rewrite canonicalize_root by done. cbn [failed res_map_err res_bind]. rewrite Hw. cbn [res_bind]. rewrite Hww.
  destruct (existsb _ (components w)) eqn:Hpar; [done|]. destruct (joined_abs root w) as (j&Hj&Hin); [unfold no_parent; by rewrite Hpar|]. rewrite Hj.
  specialize (Hin Hwa). destruct (settle _ _ _ _) as [q|] eqn:Hs; [|done]. cbn [res_bind].
  destruct (settle_spec f j rel q Hok Hs) as (j1&l&t&Hjt&->&Hl&_). assert (l = j1) as ->.
  { destruct (prefix_weak_total root j1 j Hin) as [[a ->]|[a Ha]]; [by exists t| |].
    - destruct (canonicalize_app f root root a Hok (canonicalize_root f Hr) Hroot) as (k&_&Hk). rewrite Hl in Hk. symmetry in Hk.
      apply (walk_project f false a Hp k root l); [exists []; by rewrite app_nil_r|done|done].
    - assert (f !! j1 = Some Dir) as Hj1.
      { destruct (decide (a = [])) as [->|Hne]; [rewrite app_nil_r in Ha; by rewrite <- Ha|].
        apply (fs_ok_prefix f j1 a Hok); [by rewrite <- Ha, Hroot|done]. }
      rewrite (canonicalize_abs cwd f j1 Hok) in Hl; [by injection Hl|]. by exists Dir. }
  rewrite <- Hjt. assert (path_starts_with (abs j) (abs root) = true) as Hst by (rewrite starts_with_abs; by apply is_prefix_spec).
  rewrite Hst. intros [= <-]. exists j. split_and!; [done..|]. intros f' x Hp' Hx. rewrite (canonicalize_root f' (proj1 Hp')). cbn [failed res_map_err res_bind].
  rewrite Hw. cbn [res_bind]. rewrite Hww, Hpar, Hj. assert (canonicalize cwd f' (abs j) = Ok j) as Hc.
  { apply canonicalize_abs; [apply Hp'|]. exists x. split; [done|]. intros t' ->. by apply (proj2 Hp' j t'). }
  unfold settle. rewrite (proj2 (exists_abs f' j (proj1 (proj1 Hp')))) by eauto. rewrite Hc. cbn [failed res_map_err res_map res_bind]. by rewrite Hst.
Qed.

Lemma write_file_writes f rel c f' m : project_ok f → is_absolute (components (trim rel)) = false →
  write_file cwd (abs root) rel c f = (f', Ok m) →
  project_ok f' ∧ ∃ j, f' !! j = Some (File c) ∧ resolve_under_root cwd f' (abs root) rel = Ok (abs j).
Proof.
  intros Hp Hrel Hwf. assert (project_ok f') as Hp' by (apply (grown_keeps f f' Hp (write_keeps f rel c f' _ Hp Hwf))). split; [done|].
  unfold write_file in Hwf. destruct (resolve_under_root cwd f (abs root) rel) as [p|e] eqn:Hres; [|done].
  destruct (resolve_relative f rel p Hp Hrel Hres) as (j&Hin&->&Hj). destruct j as [|n d _] using rev_ind.
  - unfold make_parent in Hwf. rewrite parent_root in Hwf. unfold write, target, abs in Hwf. simpl map in Hwf. rewrite walk_root, walk_nil in Hwf.
    by rewrite (proj1 (proj1 (proj1 Hp))) in Hwf.
  - destruct (make_parent cwd (abs (d ++ [n])) f) as [f1 r1] eqn:Hm. destruct (make_parent_grown f d n f1 r1 Hp Hin Hm) as [Hg1 Hd].
    destruct r1 as [[]|e]; [|done]. specialize (Hd eq_refl). destruct (grown_keeps f f1 Hp Hg1) as [[[Hok1 _] Hno1] _].
    destruct (write cwd (abs (d ++ [n])) c f1) as [f2 r2] eqn:Hw.
    destruct (write_cases cwd f1 d n c f2 r2 Hok1 Hd (λ t, Hno1 _ t Hin) Hw) as [[-> ->]|(->&_&->)]; [done|]. injection Hwf as <- _.
    exists (d ++ [n]). assert (<[d ++ [n]:=File c]> f1 !! (d ++ [n]) = Some (File c)) as Hl by apply lookup_insert_eq. split; [done|]. by apply (Hj _ _ Hp' Hl).
Qed.

Section reading.
Context `{JsonCodec} (base64 : string → string) (dir_order : list (string * node) → list (string * node)).

(** A text that [write_file] has stored is what [read_file] gives for the same relative path, as long as it is within the read limit. *)
Lemma written_file_reads_back f rel c f' m : project_ok f → is_absolute (components (trim rel)) = false →
  from_utf8 (bytes c) = Some c → Z.of_nat (String.length c) ≤ MAX_READ_BYTES →
  write_file cwd (abs root) rel c f = (f', Ok m) → read_file cwd base64 (abs root) rel f' = Ok c.
Proof.
  intros Hp Hrel Hutf Hlen Hw. destruct (write_file_writes f rel c f' m Hp Hrel Hw) as [[[Hok _] _] (j&Hj&Hres)].
  unfold read_file. rewrite Hres. cbn [res_bind]. rewrite (metadata_abs cwd f' j (File c)) by done. cbn [failed res_map_err res_bind].
  rewrite (proj2 (Z.ltb_ge _ _) Hlen), (read_abs cwd f' j c Hok Hj). cbn [failed res_map_err res_bind]. by rewrite Hutf.
Qed.

(** C26: Whatever links there are, as long as no part of the path takes more than forty of them to follow ([loops]; the resolution of such a path fails, and its parent is checked in its stead): [read_file] gives a file of the project and [list_dir] a directory of it: a link that leads out is refused. *)
Theorem reads_stay_in_the_project f rel text : rooted f → ¬ loops f rel →
  (read_file cwd base64 (abs root) rel f = Ok text → ∃ l c, in_project l ∧ f !! l = Some (File c) ∧ Z.of_nat (String.length c) ≤ MAX_READ_BYTES ∧
     (from_utf8 (bytes c) = Some text ∨ text = to_string (Obj [("content", Str (base64 c)); ("encoding", Str "base64")]))) ∧
  (list_dir cwd dir_order (abs root) rel f = Ok text → ∃ l, in_project l ∧ f !! l = Some Dir ∧ let all := dir_order (read_dir f l) in
     text = to_string (Obj [("entries", Arr (map (λ nx, ListEntry.to_json (list_entry nx)) (take MAX_LIST_ENTRIES all)));
                            ("path", Str (if String.eqb (trim rel) EmptyString then "." else rel));
                            ("truncated", Bool (Nat.ltb MAX_LIST_ENTRIES (length all)))])).
Proof.
  intros Hr Hloops. pose proof Hr as [Hok _]. unfold read_file, list_dir.
  destruct (resolve_under_root cwd f (abs root) rel) as [p|] eqn:Hp; [|done]. cbn [res_bind].
  destruct (metadata cwd f p) as [x|] eqn:Hm; [|done]. cbn [failed res_map_err res_bind].
  destruct (resolved_reads f rel p x Hr Hloops Hp Hm) as (l&->&Hin&Hl). split.
  - destruct x as [c| |]; [|done..]. destruct (Z.ltb_spec MAX_READ_BYTES (Z.of_nat (String.length c))) as [|Hlen]; [done|].
    rewrite (read_abs cwd f l c Hok Hl). cbn [failed res_map_err res_bind]. intros Ht. exists l, c. split_and!; [done..|].
    destruct (from_utf8 (bytes c)) as [s|]; injection Ht as <-; [by left|by right].
  - destruct x as [c| |t]; [done| |done]. cbn [negb]. unfold entries_of. rewrite canonicalize_abs; [|done|by exists Dir]. cbn [res_bind].
    rewrite Hl. cbn [failed res_map_err res_bind]. intros [= <-]. by exists l.
Qed.
End reading.
End project.

(* ------------------------------------------------------------------ *)
(** ** Requests *)

(** The comparison of tokens is equality. *)
Lemma constant_time_fold l : ∀ d, foldl (λ diff (xy : Z * Z), Z.lor diff (Z.lxor xy.1 xy.2)) d l = 0 → d = 0 ∧ Forall (λ xy, xy.1 = xy.2) l.
Proof.
  induction l as [|[x y] l IH]; intros d; simpl; [done|]. intros Hf. destruct (IH _ Hf) as [Hd Hl].
  apply Z.lor_eq_0_iff in Hd as [-> Hxy]. apply Z.lxor_eq in Hxy. split; [done|]. apply List.Forall_cons; [exact Hxy|exact Hl].
Qed.
Lemma constant_time_eq_spec a b : constant_time_eq (bytes a) (bytes b) = true → a = b.
Proof.
  unfold constant_time_eq. intros [Hlen Hf]%andb_true_iff. apply Nat.eqb_eq in Hlen. apply Z.eqb_eq, constant_time_fold in Hf as [_ Hf].
  rewrite <- (of_bytes_bytes a), <- (of_bytes_bytes b). f_equal. revert Hlen Hf. generalize (bytes a) (bytes b). clear a b.
  induction l as [|x l IH]; intros [|y l'] Hlen Hf; [done..|]. simpl in *. apply List.Forall_cons_iff in Hf as [Hxy Hf]. simpl in Hxy. f_equal; [done|]. apply IH; [lia|done].
Qed.
Lemma strip_prefix_Some pat : ∀ s t, strip_prefix pat s = Some t → s = pat +:+ t.
Proof.
  induction pat as [|a pat IH]; intros s t; simpl; [by intros [= ->]|]. destruct s as [|b s]; [done|].
  destruct (Ascii.eqb_spec a b) as [->|]; [|done]. intros Hs. by rewrite (IH s t Hs).
Qed.
Lemma auth_ok_spec headers token : auth_ok headers token = true → headers "authorization" = Some ("Bearer " +:+ token).
Proof.
  unfold auth_ok. destruct (headers "authorization") as [v|] eqn:Hh; [|done]. cbn [mbind option_bind].
  destruct (strip_prefix "Bearer " v) as [t|] eqn:Hs; [|done]. intros ->%constant_time_eq_spec. f_equal. by apply strip_prefix_Some.
Qed.

Section requests.
Context (cwd root : loc) `{JsonCodec}.
Context (base64 : string → string) (serde_error : string → json → string) (dir_order : list (string * node) → list (string * node)).
Context (walker : fs → path → list (option (path * bool))) (regex : string → bool → result (string → bool) string).
Context (env : string → option string) (os : string) (spawn : ShellSpec.t → string → path → fs → fs * result Process.t string).
Context {St : Type} `{SnapshotService St}.
Abbreviation tool_run := (run_tool cwd base64 serde_error dir_order walker regex env os spawn).
Abbreviation dispatched := (dispatch cwd base64 serde_error dir_order walker regex env os spawn).
Abbreviation handled := (handle_rpc cwd base64 serde_error dir_order walker regex env os spawn).
Implicit Types (s : Local.t St) (approver : Approver).

Definition allowed approver (q : Ask) : Prop := ∃ answer, approver = Some answer ∧ answer q = RemoteState.ShellApproval.Allow.

Lemma approve_cases approver ctx r action detail s s' x : approve_destructive approver ctx r action detail s = (s', x) →
  Local.files s' = Local.files s ∧
  (x = Ok tt → let q := Ask_fs action detail (render r) ctx in allowed approver q ∧ Local.asked s' = Local.asked s ++ [q]).
Proof.
  unfold approve_destructive. destruct approver as [answer|]; [|by intros [= <- <-]]. intros [= <- <-]. split; [done|].
  destruct (answer _) eqn:Ha; [|done..]. intros _. split; [|done]. by exists answer.
Qed.

(** What a call of a tool with arguments [args] may do to the files, and with whose leave:
    [write_file] writes what its arguments say; the others ask first, the question names
    the paths or the command of the arguments, and what is then done is done to these. *)
Definition asked_and_allowed approver (q : Ask) s s' : Prop :=
  allowed approver q ∧ Local.asked s' = Local.asked s ++ [q].
Definition lawful approver (ctx : McpRequestContext.t) (tool : string) (args : json) s s' : Prop :=
  let dir := render (abs root) in
  (∃ i, tool = "write_file" ∧ params serde_error WriteInput.of_json "WriteInput" args = Ok i ∧
     Local.files s' = fst (write_file cwd (abs root) (WriteInput.path i) (WriteInput.content i) (Local.files s))) ∨
  (∃ i, tool = "delete_file" ∧ params serde_error DeleteInput.of_json "DeleteInput" args = Ok i ∧
     asked_and_allowed approver (Ask_fs "delete_file" (DeleteInput.path i) dir ctx) s s' ∧
     Local.files s' = fst (delete_file cwd (abs root) (DeleteInput.path i) (Local.files s))) ∨
  (∃ i, tool = "rename" ∧ params serde_error RenameInput.of_json "RenameInput" args = Ok i ∧
     asked_and_allowed approver (Ask_fs "rename" (RenameInput.from i +:+ " -> " +:+ RenameInput.to i) dir ctx) s s' ∧
     Local.files s' = fst (rename cwd (abs root) (RenameInput.from i) (RenameInput.to i) (Local.files s))) ∨
  (∃ i, tool = "run_shell" ∧ params serde_error ShellInput.of_json "ShellInput" args = Ok i ∧
     asked_and_allowed approver (Ask_shell (trim (ShellInput.command i)) dir ctx) s s' ∧
     Local.files s' = fst (spawn (resolve_shell env os) (trim (ShellInput.command i)) (abs root) (Local.files s))).

Lemma run_tool_lawful approver ctx tool args s s' r : tool_run approver (abs root) tool args ctx s = (s', r) →
  Local.files s' = Local.files s ∨ lawful approver ctx tool args s s'.
Proof.
  unfold run_tool, lawful. destruct (String.eqb_spec tool "read_file") as [->|_]; [by intros [= <- _]; left|].
  destruct (String.eqb_spec tool "write_file") as [->|_].
  { unfold dispatch_write. destruct (params _ _ _ _) as [i|]; [|by intros [= <- _]; left].
    destruct (write_file _ _ _ _ _) as [f y] eqn:Hw. intros [= <- _]. right; left. exists i. split_and!; [done..|]. by rewrite Hw. }
  destruct (String.eqb_spec tool "list_dir") as [->|_]; [by intros [= <- _]; left|].
  destruct (String.eqb_spec tool "grep_dir") as [->|_]; [by intros [= <- _]; left|].
  destruct (String.eqb_spec tool "delete_file") as [->|_]; [|destruct (String.eqb_spec tool "rename") as [->|_]].
  - unfold dispatch_delete. destruct (params _ _ _ _) as [i|]; [|by intros [= <- _]; left].
    destruct (approve_destructive _ _ _ _ _ _) as [s1 x] eqn:Ha. destruct (approve_cases _ _ _ _ _ _ _ _ Ha) as [Hf Hok].
    destruct x as [[]|]; [|by intros [= <- _]; left]. destruct (delete_file _ _ _ _) as [f y] eqn:Hd. intros [= <- _].
    right; right; left. exists i. split_and!; [done..| |by rewrite <- Hf, Hd]. by apply Hok.
  - unfold dispatch_rename. destruct (params _ _ _ _) as [i|]; [|by intros [= <- _]; left].
    destruct (approve_destructive _ _ _ _ _ _) as [s1 x] eqn:Ha. destruct (approve_cases _ _ _ _ _ _ _ _ Ha) as [Hf Hok].
    destruct x as [[]|]; [|by intros [= <- _]; left]. destruct (rename _ _ _ _ _) as [f y] eqn:Hd. intros [= <- _].
    right; right; right; left. exists i. split_and!; [done..| |by rewrite <- Hf, Hd]. by apply Hok.
  - destruct (String.eqb_spec tool "run_shell") as [->|_]; [|by intros [= <- _]; left].
    unfold dispatch_run_shell. destruct (params _ _ _ _) as [i|]; [|by intros [= <- _]; left].
    unfold run_shell. destruct (String.eqb _ EmptyString); [by intros [= <- _]; left|]. destruct approver as [answer|]; [|by intros [= <- _]; left].
    destruct (answer _) eqn:Ha; [|by intros [= <- _]; left..]. unfold shell_run. destruct (spawn _ _ _ _) as [f y] eqn:Hs. intros [= <- _].
    right; right; right; right. exists i. split_and!; [done..| |cbn [Local.ask Local.files Local.set_files] in Hs |- *; by rewrite Hs].
    split; [by exists answer|done].
Qed.

Lemma snapshot_apart hook id changed s : let s' := fst (commit_tool_snapshot_after hook id changed s) in
  Local.files s' = Local.files s ∧ Local.asked s' = Local.asked s.
Proof.
  unfold commit_tool_snapshot_after. destruct changed as [|x changed]; [done|].
  assert (∀ s1 y, init_once hook s = (s1, y) → Local.files s1 = Local.files s ∧ Local.asked s1 = Local.asked s) as Hinit.
  { intros s1 y. unfold init_once. destruct (Local.init_done s); [by intros [= <- _]|]. by destruct (snapshot_init _ _) as [z [u|e]]; intros [= <- _]. }
  destruct (init_once hook s) as [s1 y]. destruct (Hinit s1 y eq_refl) as [Hf Ha]. destruct y; [|done].
  destruct (commit_tool_snapshot _ _ _) as [z [sha|e]]; [|done]. by destruct (insert _ _) as [rows [u|e]].
Qed.
Lemma after_tool_apart hook id r s : let s' := fst (after_tool hook id r s) in Local.files s' = Local.files s ∧ Local.asked s' = Local.asked s.
Proof.
  destruct r as [[[text [|]] changed]|]; [done| |done]. simpl. destruct changed as [|x changed]; [done|]. destruct id as [id|]; [|done].
  destruct hook as [hook|]; [|done]. apply (snapshot_apart hook id (x :: changed) s).
Qed.
Lemma dispatch_lawful approver hook ctx tool args id s s' r : dispatched approver hook (abs root) tool args ctx id s = (s', r) →
  Local.files s' = Local.files s ∨ lawful approver ctx tool args s s'.
Proof.
  unfold dispatch. destruct (tool_run _ _ _ _ _ _) as [s1 r1] eqn:Hrun. destruct r1 as [o|].
  - pose proof (after_tool_apart hook id o s1) as [Hf' Ha']. destruct (after_tool _ _ _ _) as [s2 answer]. intros [= <- _]. simpl in Hf', Ha'.
    unfold lawful, asked_and_allowed in *. rewrite Hf', Ha'. by apply (run_tool_lawful _ _ _ _ _ _ _ Hrun).
  - intros [= <- _]. by apply (run_tool_lawful _ _ _ _ _ _ _ Hrun).
Qed.

Definition arguments_of (p : json) : json := default (Obj []) (get "arguments" p).
(** A request that is no tool call, or is refused, leaves files and user alone. *)
Lemma handle_rpc_cases approver hook token headers req s s' r : handled approver hook (abs root) token headers req s = (s', r) →
  (Local.files s' = Local.files s ∧ Local.asked s' = Local.asked s) ∨
  (JsonRpcRequest.method req = "tools/call" ∧ headers "authorization" = Some ("Bearer " +:+ token) ∧
   ∃ p tool id x, JsonRpcRequest.params req = Some p ∧ get "name" p = Some (Str tool) ∧
     dispatched approver hook (abs root) tool (arguments_of p) (extract_request_context headers) id (fst (ContactProbe.record s)) = (s', x)).
Proof.
  unfold handle_rpc. destruct (negb _ && negb _) eqn:Hauth; [by intros [= <- _]; left|].
  destruct (String.eqb_spec (JsonRpcRequest.method req) "initialize") as [_|_]; [by intros [= <- _]; left|].
  destruct (bool_decide (JsonRpcRequest.method req ∈ ["notifications/initialized"; "notifications/cancelled"])); [by intros [= <- _]; left|].
  destruct (String.eqb_spec (JsonRpcRequest.method req) "tools/list") as [_|_]; [by intros [= <- _]; left|].
  destruct (String.eqb_spec (JsonRpcRequest.method req) "tools/call") as [Hm|_]; [|by destruct (String.eqb _ "ping"); intros [= <- _]; left].
  destruct (String.eqb_spec (default EmptyString (v ← get "name" (default (Obj []) (JsonRpcRequest.params req)); as_str v)) EmptyString) as [_|Hname];
    [by intros [= <- _]; left|].
  destruct (dispatch _ _ _ _ _ _ _ _ _ _ _ _ _ _ _ _ _) as [s1 x] eqn:Hd. intros Heq.
  assert (s1 = s') as -> by (destruct x as [[??]|]; by injection Heq). right. split; [done|]. split.
  { apply auth_ok_spec. rewrite Hm in Hauth. rewrite bool_decide_false in Hauth by set_solver. by destruct (auth_ok headers token). }
  destruct (JsonRpcRequest.params req) as [p|]; simpl in Hname, Hd; [|done].
  destruct (get "name" p) as [v|] eqn:Hn; [|done]. destruct v as [| | |tool| |]; simpl in Hname, Hd; try done.
  exists p, tool. do 2 eexists. split; [done|]. split; [exact Hn|exact Hd].
Qed.

(** C25: A request changes files only as a [tools/call] that carries the server's token.  Then
    either it is a [write_file] of what its arguments say, or the user was asked once and
    said yes: to [delete_file] with the path the call gives, to [rename] with both its
    paths, or to [run_shell] with the command; and exactly this is then carried out with
    these arguments.  (A path is what the call writes: where it leads through a symbolic
    link, the question does not say so.) *)
Theorem files_change_with_leave_only approver hook token headers req s s' r :
  handled approver hook (abs root) token headers req s = (s', r) → Local.files s' ≠ Local.files s →
  JsonRpcRequest.method req = "tools/call" ∧ headers "authorization" = Some ("Bearer " +:+ token) ∧
  ∃ p tool, JsonRpcRequest.params req = Some p ∧ get "name" p = Some (Str tool) ∧
    lawful approver (extract_request_context headers) tool (arguments_of p) s s'.
Proof.
  intros Hh Hne. destruct (handle_rpc_cases _ _ _ _ _ _ _ _ Hh) as [[Hf _]|(Hm&Ha&p&tool&id&x&Hp&Ht&Hd)]; [done|].
  split_and!; [done..|]. exists p, tool. split_and!; [done..|]. destruct (dispatch_lawful _ _ _ _ _ _ _ _ _ Hd) as [Hf|Hl]; [done|exact Hl].
Qed.

(** The snapshot hook changes neither the answer nor the files. *)
Lemma snapshots_do_not_interfere approver hook ctx tool args id s :
  let '(s1, r1) := dispatched approver hook (abs root) tool args ctx id s in
  let '(s2, r2) := dispatched approver None (abs root) tool args ctx id s in
  r1 = r2 ∧ Local.files s1 = Local.files s2 ∧ Local.asked s1 = Local.asked s2.
Proof.
  unfold dispatch. destruct (tool_run _ _ _ _ _ _) as [s1 [o|]]; [|done].
  pose proof (after_tool_apart hook id o s1) as [Hf Ha]. pose proof (after_tool_apart None id o s1) as [Hf' Ha'].
  assert (snd (after_tool hook id o s1) = snd (after_tool None id o s1)) as Hr by (by destruct o as [[[t [|]] c]|]).
  destruct (after_tool hook id o s1) as [s2 a2], (after_tool None id o s1) as [s3 a3]. simpl in *. split_and!; congruence.
Qed.
(** A change is in the ledger under the id of its call, unless the id was there before. *)
Lemma change_is_recorded hook id text changed s x sha : changed ≠ [] → Local.init_done s = true →
  commit_tool_snapshot id changed (Local.snaps s) = (x, Ok sha) →
  let s' := fst (after_tool (Some hook) (Some id) (Ok (text, false, changed)) s) in
  (get_by_tool_call_id id (Local.ledger s) = None → get_by_tool_call_id id (Local.ledger s') =
     Some (OpencodeToolSnapshotRow.mk id (SnapshotHook.conversation_id hook) sha (to_string (Arr (map Str changed))) (Local.now s))) ∧
  (is_Some (get_by_tool_call_id id (Local.ledger s)) → Local.ledger s' = Local.ledger s).
Proof.
  intros Hc Hi Hx. simpl. destruct changed as [|y changed]; [done|]. unfold commit_tool_snapshot_after, init_once. rewrite Hi, Hx. cbn [Local.set_snaps Local.ledger Local.now].
  unfold insert, get_by_tool_call_id. cbn [OpencodeToolSnapshotRow.tool_call_id].
  assert (existsb (λ r, String.eqb (OpencodeToolSnapshotRow.tool_call_id r) id) (Local.ledger s) =
          bool_decide (is_Some (List.find (λ r, String.eqb (OpencodeToolSnapshotRow.tool_call_id r) id) (Local.ledger s)))) as ->.
  { induction (Local.ledger s) as [|r l IH]; [done|]. simpl. destruct (String.eqb _ id); [done|exact IH]. }
  destruct (List.find _ (Local.ledger s)) as [r|] eqn:Hf; simpl.
  - split; [done|]. done.
  - split; [intros _|by intros [? ?]]. induction (Local.ledger s) as [|r l IH]; simpl in *; [by rewrite String.eqb_refl|].
    destruct (String.eqb _ id); [done|by apply IH].
Qed.

(** The user lets no command run. *)
Definition no_shell approver : Prop := ∀ command d ctx, ¬ allowed approver (Ask_shell command d ctx).
Lemma run_tool_keeps approver ctx tool args s s' r : project_ok root (Local.files s) → no_shell approver →
  tool_run approver (abs root) tool args ctx s = (s', r) → keeps root (Local.files s) (Local.files s').
Proof.
  intros Hp Hshell Hrun. pose proof (keeps_project_refl root _ Hp) as Hk.
  destruct (run_tool_lawful _ _ _ _ _ _ _ Hrun) as [->|Hl]; [done|].
  destruct Hl as [(i&_&_&->)|[(i&_&_&_&->)|[(i&_&_&_&->)|(i&_&_&[Ha _]&_)]]]; [..|by destruct (Hshell _ _ _ Ha)].
  - destruct (write_file _ _ _ _ _) as [f x] eqn:Hw. apply grown_keeps with cwd; [done|]. by apply (write_keeps cwd root _ _ _ f x Hp) in Hw.
  - destruct (delete_file _ _ _ _) as [f y] eqn:Hd. by apply (delete_keeps cwd root _ _ f y Hp) in Hd.
  - destruct (rename _ _ _ _ _) as [f y] eqn:Hd. by apply (rename_keeps cwd root _ _ _ f y Hp) in Hd.
Qed.

(** A session with the server: whom the user's answers come from may change. *)
Context (hook : option SnapshotHook.t) (token : string).
Definition serve (reqs : list (Approver * (string → option string) * JsonRpcRequest.t)) s : Local.t St :=
  foldl (λ s '(approver, headers, req), fst (handled approver hook (abs root) token headers req s)) s reqs.

(** C24: In a project without symbolic links, whatever requests come and whatever they ask for, as long as no command is let run, nothing outside the project changes, and the project stays a directory tree without symbolic links. *)
Theorem tools_stay_in_the_project reqs s : project_ok root (Local.files s) → Forall (λ r, no_shell r.1.1) reqs →
  let f' := Local.files (serve reqs s) in project_ok root f' ∧ ∀ l, ¬ in_project root l → f' !! l = Local.files s !! l.
Proof.
  intros Hp Hr. assert (keeps root (Local.files s) (Local.files (serve reqs s))) as Hk; [|exact Hk].
  revert s Hp. induction Hr as [|[[approver headers] req] reqs Hshell _ IH]; intros s Hp; [by apply keeps_project_refl|]. simpl.
  destruct (handled approver hook (abs root) token headers req s) as [s1 x] eqn:Hh.
  assert (keeps root (Local.files s) (Local.files s1)) as Hk; [|eapply keeps_project_trans; [exact Hk|apply IH, Hk]].
  destruct (handle_rpc_cases _ _ _ _ _ _ _ _ Hh) as [[-> _]|(_&_&p&tool&id&y&_&_&Hd)]; [by apply keeps_project_refl|].
  unfold dispatch in Hd. destruct (tool_run _ _ _ _ _ _) as [s2 o] eqn:Hrun.
  apply run_tool_keeps in Hrun; [|done..]. destruct o as [o|]; [|by injection Hd as <- _].
  pose proof (after_tool_apart hook id o s2) as [Hf _]. destruct (after_tool _ _ _ _) as [s3 answer]. injection Hd as <- _. simpl in Hf. by rewrite Hf.
Qed.
End requests.

(** What a command says has an end. *)
Lemma shell_report_bounded code out err : (length (bytes (shell_report code out err)) ≤ MAX_SHELL_OUTPUT + 22)%nat.
Proof.
  unfold shell_report. set (r := _ +:+ _). destruct (Nat.ltb_spec MAX_SHELL_OUTPUT (length (bytes r))) as [_|Hle]; [|lia].
  rewrite !bytes_app, bytes_of_bytes, !length_app, length_take.
  - pose proof (boundary_le r MAX_SHELL_OUTPUT). change (length (bytes nl)) with 1%nat. change (length (bytes (from_chars [8230]))) with 3%nat.
    change (length (bytes "[output truncated]")) with 18%nat. lia.
  - apply Forall_take. induction r as [|a r' IH]; [constructor|]. simpl. apply List.Forall_cons; [apply byte_of_range|done].
Qed.
(** Within the cap, if no process but the shell holds the pipes when it ends. *)
Lemma shell_returns_in_time timeout p h h' : 0 ≤ timeout → Process.out_held p = Some h → Process.err_held p = Some h' → h ≤ timeout * 1000 → h' ≤ timeout * 1000 →
  ∃ t r, run_process timeout p = Some (t, r) ∧ t ≤ timeout * 1000.
Proof.
  intros Ht Ho He Hh Hh'. unfold run_process, read_to_end. rewrite Ho, He. simpl. destruct (Process.ends p) as [[t status]|].
  - destruct (Z.leb_spec t (timeout * 1000)); [destruct status as [code|e]|]; do 2 eexists; (split; [reflexivity|lia]).
  - do 2 eexists. split; [reflexivity|lia].
Qed.

(* ------------------------------------------------------------------ *)
(** ** On a small project *)

Definition project : loc := ["w"].
Definition tree : fs := <[["etc"] := Dir]> (<[["w"; "a.txt"] := File "hi"]> (<[["w"] := Dir]> (<[[] := Dir]> ∅))).
(** With links: to a missing file outside, to a file inside. *)
Definition linked : fs := <[["w"; "out"] := Link (abs ["etc"; "new"])]> (<[["w"; "alias"] := Link [Normal "a.txt"]]> tree).

Lemma tree_ok : fs_ok tree.
Proof.
  assert (fs_ok (<[[] := Dir]> ∅)) as H0.
  { split; [done|]. intros p n [x Hx]. rewrite lookup_insert_ne in Hx by (by destruct p). by rewrite lookup_empty in Hx. }
  apply (fs_ok_insert _ [] "etc"); [|done|done]. apply (fs_ok_insert _ ["w"] "a.txt"); [|done|done]. by apply (fs_ok_insert _ [] "w").
Qed.
Lemma linked_ok : fs_ok linked.
Proof. apply (fs_ok_insert _ ["w"] "out"); [|done|done]. apply (fs_ok_insert _ ["w"] "alias"); [apply tree_ok|done|done]. Qed.
Lemma tree_project : project_ok project tree.
Proof.
  split; [split; [apply tree_ok|done]|]. intros q t _ Hq. unfold tree in Hq. repeat (apply lookup_insert_Some in Hq as [[_ ?]|[_ Hq]]; [done|]). by rewrite lookup_empty in Hq.
Qed.

#[local] Existing Instance plain_codec.
(** A repository that numbers its commits. *)
#[local] Instance counting : SnapshotService nat := {|
  snapshot_init _ n := (n, Ok tt); commit_tool_snapshot _ _ n := (S n, Ok ("c" +:+ show_usize (N.of_nat n))) |}.
Definition a_walker (f : fs) (p : path) : list (option (path * bool)) :=
  map (λ kv, Some (abs kv.1, match kv.2 with File _ => true | _ => false end)) (List.filter (λ kv, path_starts_with (abs kv.1) p) (map_to_list f)).
Definition a_regex (pattern : string) (_ : bool) : result (string → bool) string := Ok (λ line, contains line pattern).
(** A shell that removes everything. *)
Definition a_shell (spec : ShellSpec.t) (command : string) (d : path) (f : fs) : fs * result Process.t string :=
  (<[[] := Dir]> ∅, Ok (Process.mk (Some (5, Ok (Some 0))) [] [] (Some 0) (Some 0))).
Definition a_handler := handle_rpc [] (λ s, s) (λ s _, s) (λ l, l) a_walker a_regex (λ _, None) "linux" a_shell (St := nat).
Definition start (f : fs) : Local.t nat := Local.mk f 0%nat [] false 7 [] false.
Definition hook : SnapshotHook.t := SnapshotHook.mk "conv" (abs project).
Definition bearer (k : string) : option string := if String.eqb k "authorization" then Some "Bearer t" else None.
Definition call (id tool : string) (args : list (string * json)) : JsonRpcRequest.t :=
  JsonRpcRequest.mk "2.0" (Some (Num id)) "tools/call" (Some (Obj [("name", Str tool); ("arguments", Obj args)])).
Definition says (a : ShellApproval) : Approver := Some (λ _, a).
(** The user who allows what is done to files, but no commands. *)
Definition careful : Approver :=
  Some (λ q, match q with Ask_shell _ _ _ => RemoteState.ShellApproval.Reject | Ask_fs _ _ _ _ => RemoteState.ShellApproval.Allow end).
Definition result_text (r : option (Z * json)) : option string :=
  '(_, v) ← r; x ← get "result" v; c ← get "content" x; match c with Arr [y] => t ← get "text" y; as_str t | _ => None end.

Definition visit : list (Approver * (string → option string) * JsonRpcRequest.t) :=
  [(careful, bearer, call "1" "write_file" [("path", Str "sub/b.txt"); ("content", Str "new")]);
   (careful, bearer, call "2" "rename" [("from", Str "a.txt"); ("to", Str "sub/c.txt")]);
   (careful, bearer, call "3" "delete_file" [("path", Str "../etc")]);
   (careful, bearer, call "4" "run_shell" [("command", Str "rm -rf /")])].
Lemma tools_stay_in_the_project_witness :
  let s := serve [] project (λ s, s) (λ s _, s) (λ l, l) a_walker a_regex (λ _, None) "linux" a_shell (Some hook) "t" visit (start tree) in
  project_ok project (Local.files s) ∧ Local.files s !! ["etc"] = Some Dir ∧
  Local.files s !! ["w"; "sub"; "b.txt"] = Some (File "new") ∧ Local.files s !! ["w"; "sub"; "c.txt"] = Some (File "hi") ∧ Local.files s !! ["w"; "a.txt"] = None.
Proof.
  assert (Forall (λ r, no_shell r.1.1) visit) as Hv.
  { repeat apply List.Forall_cons; [..|apply List.Forall_nil]; intros c d ctx (answer&Ha&Hc); injection Ha as <-; discriminate Hc. }
  destruct (tools_stay_in_the_project [] project (λ s, s) (λ s _, s) (λ l, l) a_walker a_regex (λ _, None) "linux" a_shell (Some hook) "t" visit
    (start tree) tree_project Hv) as [Hp Hout].
  split; [exact Hp|]. split; [|split_and!; vm_compute; reflexivity].
  rewrite (Hout ["etc"]); [reflexivity|]. intros [q Hq]. discriminate Hq.
Defined.

Lemma files_change_with_leave_only_witness :
  let r := call "1" "delete_file" [("path", Str "a.txt")] in
  let s' := fst (a_handler (says RemoteState.ShellApproval.Allow) None (abs project) "t" bearer r (start tree)) in
  Local.files s' !! ["w"; "a.txt"] = None ∧ ∃ p tool, JsonRpcRequest.params r = Some p ∧ get "name" p = Some (Str tool) ∧
    lawful [] project (λ s _, s) (λ _, None) "linux" a_shell (says RemoteState.ShellApproval.Allow) (extract_request_context bearer) tool (arguments_of p) (start tree) s'.
Proof.
  intros r s'. split; [vm_compute; reflexivity|].
  destruct (files_change_with_leave_only [] project (λ s, s) (λ s _, s) (λ l, l) a_walker a_regex (λ _, None) "linux" a_shell
    (says RemoteState.ShellApproval.Allow) None "t" bearer r (start tree) s' (snd (a_handler (says RemoteState.ShellApproval.Allow) None (abs project) "t" bearer r (start tree))))
    as (_&_&Hx); [apply surjective_pairing| |exact Hx].
  intros Heq. apply (f_equal (λ f : fs, f !! ["w"; "a.txt"])) in Heq. vm_compute in Heq. discriminate Heq.
Defined.

Lemma linked_loops rel p : wanted [] project linked rel = Ok p →
  forallb (λ n, match canonicalize [] linked (take n p) with Err ELOOP => false | _ => true end) (seq 0 (S (length p))) = true → ¬ loops [] project linked rel.
Proof.
  intros Hp Hall (p'&q&Hp'&[k ->]&Hq). rewrite Hp in Hp'. injection Hp' as ->. rewrite forallb_forall in Hall.
  specialize (Hall (length q)). rewrite take_app_length, Hq in Hall. discriminate Hall. apply in_seq. rewrite length_app. lia.
Qed.
Lemma reads_stay_in_the_project_witness :
  read_file [] (λ s, s) (abs project) "alias" linked = Ok "hi" ∧
  (∃ l c, in_project project l ∧ linked !! l = Some (File c) ∧ Z.of_nat (String.length c) ≤ MAX_READ_BYTES ∧ (from_utf8 (bytes c) = Some "hi" ∨ "hi" = to_string (Obj [("content", Str c); ("encoding", Str "base64")]))) ∧
  read_file [] (λ s, s) (abs project) "/etc/passwd" linked = Err "path escapes project root: /etc/passwd".
Proof.
  split_and!; [vm_compute; reflexivity| |vm_compute; reflexivity].
  apply (reads_stay_in_the_project [] project (λ s, s) (λ l, l) linked "alias" "hi"); [|exact (linked_loops "alias" (abs ["w"; "alias"]) eq_refl eq_refl)|vm_compute; reflexivity].
  split; [exact linked_ok|reflexivity].
Defined.

(* ------------------------------------------------------------------ *)
(** ** Where the tools go further than they say *)

(** A link to a file that does not exist yet is not followed when the path is checked, but it
    is when the file is written: the file appears outside the project. *)
Example write_goes_through_a_dangling_link :
  let '(f, r) := write_file [] (abs project) "out" "gone" linked in
  r = Ok "wrote 4 bytes to out" ∧ f !! ["etc"; "new"] = Some (File "gone").
Proof. vm_compute. done. Qed.
(** The user is asked about the link; the file it leads to is deleted, and the link stays. *)
Example deleting_a_link_deletes_its_target :
  let s := fst (a_handler (says RemoteState.ShellApproval.Allow) None (abs project) "t" bearer (call "1" "delete_file" [("path", Str "alias")]) (start linked)) in
  Local.asked s = [Ask_fs "delete_file" "alias" "/w" (McpRequestContext.mk None None)] ∧
  Local.files s !! ["w"; "a.txt"] = None ∧ Local.files s !! ["w"; "alias"] = Some (Link [Normal "a.txt"]).
Proof. vm_compute. done. Qed.
(** Two calls under the id 1, of two connections: the second change is not in the ledger. *)
Example repeated_id_is_not_recorded :
  let serve1 r s := fst (a_handler None (Some hook) (abs project) "t" bearer r s) in
  let s := serve1 (call "1" "write_file" [("path", Str "c.txt"); ("content", Str "2")])
             (serve1 (call "1" "write_file" [("path", Str "b.txt"); ("content", Str "1")]) (start tree)) in
  Local.files s !! ["w"; "c.txt"] = Some (File "2") ∧ Local.snaps s = 2%nat ∧
  map OpencodeToolSnapshotRow.files_changed_json (Local.ledger s) = [to_string (Arr [Str "b.txt"])].
Proof. vm_compute. done. Qed.
(** The shell has ended long ago, but a process it has left behind holds the pipe. *)
Example background_process_blocks_the_call out :
  run_process SHELL_TIMEOUT (Process.mk (Some (10, Ok (Some 0))) out [] None (Some 0)) = None ∧
  run_process SHELL_TIMEOUT (Process.mk (Some (10, Ok (Some 0))) out [] (Some 900000) (Some 0)) =
    Some (900000, (shell_report (Some 0) (PluginBg.from_utf8_lossy out) EmptyString, false)).
Proof. done. Qed.
(** Five hundred matches end the search at the end of their file, as if there were no more. *)
Example full_search_looks_complete :
  let f : fs := <[["w"; "z.txt"] := File "x"]> (<[["w"; "a.txt"] := File (str_join nl (repeat "x" 500))]> (<[["w"] := Dir]> (<[[] := Dir]> ∅))) in
  let dents := [Some (abs ["w"; "a.txt"], true); Some (abs ["w"; "z.txt"], true)] in
  let '(scanned, matches, truncated) := grep_files [] f (abs project) (λ line, contains line "x") dents 0 [] in
  scanned = 1%nat ∧ length matches = 500%nat ∧ truncated = false.
Proof. vm_compute. done. Qed.
(** A cancellation without the token is refused, an initialisation is not. *)
Example cancelled_needs_the_token :
  let ask method := option_map fst (snd (a_handler None None (abs project) "t" (λ _, None) (JsonRpcRequest.mk "2.0" None method None) (start tree))) in
  ask "notifications/cancelled" = Some 401 ∧ ask "notifications/initialized" = Some 204 ∧ ask "initialize" = Some 200.
Proof. vm_compute. done. Qed.
(** The tools on offer without a channel to the user. *)
Example gated_tools_are_hidden :
  map ToolDescriptor.name (tool_descriptors_for_state false) = ["read_file"; "write_file"; "list_dir"; "grep_dir"].
Proof. done. Qed.
